(* ===== verification/_CoqProject ===== *)
-Q . S2P
Prelude.v
Fields.v
Persister.v
RaftTypes.v
Raft.v
RaftFacts.v
RaftHandlers.v
RaftNet.v
RaftElection.v
RaftConcrete.v
RaftProps.v
RaftScenarios.v
SkipList.v
SkipListFacts.v
SkipListProps.v
KvServer.v
KvProps.v
Clerk.v
ClerkProps.v
ByteArray.v
ByteFacts.v
ByteCodec.v
ByteCodecFacts.v
ByteProps.v
ByteBuffers.v
Timer.v
TimerProps.v
Text.v
RpcConfigProps.v
StringUtil.v
Http.v
HttpProps.v
Ragel.v
Http11Machine.v
HttpClientMachine.v
HttpParser.v
HttpRequestFacts.v
HttpStream.v
HttpWire.v
HttpResponseFacts.v
HttpResponseWire.v
HttpLink.v
HttpSplit.v
UriMachine.v
Uri.v
UriProps.v
Address.v
AddressText.v
AddressProps.v
Log.v
LogProps.v
LogConfig.v
AsyncLog.v
HookIO.v
Hook.v
HookProps.v
Config.v
ConfigProps.v
Env.v
Socket.v
SocketProps.v
HttpClient.v
HttpClientProps.v
HttpPool.v
HttpPoolProps.v
Servlet.v
Rpc.v
RpcProps.v
RpcWire.v
Fiber.v
Scheduler.v
SchedulerFacts.v
SchedulerInv.v
SchedulerSteps.v
SchedulerProps.v
SchedulerStop.v
IOManager.v
IOFacts.v
IOSteps.v
IOProps.v
