(* ===== verification/Prelude.v ===== *)
(** * rsylar: a verification development

    rsylar is a C++ framework (fibers, an epoll scheduler, timers, buffers)
    with a replicated key/value store on top: a raft core, a server that
    applies its committed commands to a skip list, and a clerk that calls it.
    This development models these parts as executable functions on explicit
    states and proves what makes each of them correct.  Paths are relative to
    [src/].

    ** The parts and how they interact

    A client's [Clerk] numbers its requests and retries them on the servers
    that [RpcConfigProps] reads from the configuration file.  A [KvServer] hands a
    request to its raft node ([Start]) and waits on a channel; the nodes
    ([Raft]) replicate it, and each node's applier gives the committed
    commands to its server, which executes them on the store ([SkipList],
    through the interface [KVStore]), skipping duplicates, and takes
    snapshots through the node's [Persister].  The node runs its tickers and
    sends its RPCs as closures of an IO manager ([IOManager]), which is a
    fiber [Scheduler] fed by epoll and by [Timer]s.  [ByteArray] is the buffer
    of the network code.

    ** The files

    - [Prelude]: failures, the monad [M] of state and failure, the rules of
      [wp], loops, lemmas on lists and bits, the tactics and the hint database.
    - [Fields]: a text format used to instantiate archives and messages.
    - [Persister] ([raft/raftCore/Persister.cpp]): the two files with what the
      output streams hold back; the class [PersisterOps] with [PersisterLaws]
      is what a node sees.
    - [RaftTypes], [Raft] ([raft/raftCore/raft.cpp], [raft.h], [raftRPC.proto]):
      the record of a node and one definition per handler, as it runs under
      [m_mtx].  [RaftFacts]: the invariant [node_wf], the log as a function of
      the index, every branch of AppendEntries.  [RaftHandlers]: what each
      handler does to terms, votes and roles.  [RaftNet]: the cluster, a step
      relation in which closures, requests and replies are delivered in any
      order, lost or never answered.  [RaftElection]: the invariant of
      elections.  [RaftConcrete]: concrete archives, sample nodes.
      [RaftProps], [RaftScenarios]: the theorems, and runs of small clusters.
    - [SkipList], [SkipListFacts], [SkipListProps] ([skipList/include/skipList.h]):
      nodes in a heap with their arrays of forward pointers.
    - [KvServer], [KvProps] ([raft/raftCore/kvServer.cpp]): the interface of
      the store ([KVStore]), the server, its theorems.
    - [Clerk] ([raft/raftClerk/clerk.cpp]); [ClerkProps]: its theorems, and
      the threads of a server ([serve]) that answer it.
    - [RpcConfigProps] ([rpc/mprpcconfig.cpp] and the loops of
      the clerk and the server that use it).
    - [ByteArray], [ByteFacts], [ByteCodec], [ByteCodecFacts], [ByteProps],
      [ByteBuffers] ([sylar/bytearray.cc], [endian.h]).
    - [Timer], [TimerProps] ([sylar/timer.cc]).
    - [Fiber] ([sylar/fiber.cc]); [Scheduler], [SchedulerFacts],
      [SchedulerInv], [SchedulerSteps], [SchedulerProps], [SchedulerStop]
      ([sylar/scheduler.cc]): the threads inside [run], one program counter
      each, interleaved at critical sections and atomic accesses.
    - [IOManager], [IOFacts], [IOSteps], [IOProps] ([sylar/iomanager.cc]): the
      contexts of the descriptors, over an abstract epoll.
    - [Text]: strings as lists of bytes, decimal numbers.  [StringUtil]
      ([sylar/util.cc]): URL encoding and trimming.
    - [Http], [HttpProps] ([sylar/http/http.cc], [http.h]): requests and
      responses.  [Servlet] ([http/servlet.cc], [http_server.cc]): dispatch,
      and the loop of the server.
    - [Rpc], [RpcProps] ([rpc/rpcprovider.cpp], [mprpcchannel.cpp],
      [mprpccontroller.cpp]): remote calls, protobuf being the class [Protobuf]
      and the connection the class [Network].
    - [Ragel], [Http11Machine], [HttpClientMachine], [HttpParser]
      ([http/http_parser.cc], [http/parser11/]): the generated automata as
      tables, their actions and the callbacks.  [HttpRequestFacts]: the text of
      a request through its parser.  [HttpStream] ([stream.cc],
      [http_session.cc], [http_connection.cc]): receiving and sending.
      [HttpWire]: reading and writing however the kernel cuts the bytes; a
      request through parser and stream.  [HttpResponseFacts],
      [HttpResponseWire]: the same for responses.  [HttpLink]: from one end to
      the other.  [HttpSplit]: a head in two pieces.  [RpcWire]: the
      connection of [RpcProps] made of bytes.
    - [UriMachine], [Uri], [UriProps] ([sylar/uri.rl.cc], [uri.rl], [uri.h]):
      the automaton of URIs as a table, [Create] and [toString].
    - [HttpClient], [HttpClientProps] ([http/http_connection.cc]): one request
      on a connection of its own.  [HttpPool], [HttpPoolProps]: the pool of
      connections, with threads between its critical sections.
    - [Address], [AddressText], [AddressProps]
      ([sylar/address.cc]): addresses as memory, masks, printing, looking up.
    - [Log], [LogProps], [LogConfig] ([sylar/log.cc], [log.h]): patterns,
      loggers, where events go, and the listener that configures loggers.
      [AsyncLog]: the thread that logs, as a step relation.
    - [HookIO], [Hook], [HookProps] ([sylar/hook.cc], [fd_manager.cc]): the
      table of descriptors, the hooked calls, and one that has to wait as a
      step relation.
    - [Config], [ConfigProps] ([sylar/config.h], [config.cc]): variables,
      conversions, loading.  [Env] ([sylar/env.cc]): arguments and paths.
    - [Socket], [SocketProps] ([sylar/socket.cc], [tcp_server.cc]): sockets
      and their descriptors, TLS handshakes, the server.
    Where C++ names an operation [Class::op] the definition is [op] (or
    [Class_op] when the name is taken); fields keep their names.  A handler
    that waits is cut where it lets others run.

    ** What the theorems show

    - Raft: at most one leader per term in every execution of the cluster
      ([election_safety]); the invariant of a node and the persistence of its
      term, vote and log; AppendEntries on every branch; votes, commitment,
      Start, the applier, heartbeats, snapshots.  The log of this program is
      not safe: [committed_entry_lost] is a run without any crash or loss in
      which two nodes apply different commands at the same index.
    - Server: the refinement of a deterministic state machine with duplicate
      detection, snapshots, channels; with the loop and the handlers
      interleaved, what each answer means and when a write is executed exactly
      once ([server_answers]).  Clerk: its loop finds the leader
      ([clerk_finds_leader]) and a write ends only when it is answered OK.
    - Skip list: every operation refines the finite map; dump and load; the
      destructor frees every node.
    - Byte array: the refinement of a growing file with a position, round trips
      of every typed encoding, and the cases in which they fail.
    - Configuration: the file written for a list of nodes is read back.
    - Timers: operations, and expiry exactly when due.
    - Fibers and scheduler: the life cycle of a fiber; in every interleaving no
      task is lost or run twice and the counters are exact; if a fiber is
      scheduled at most once before it runs again, no step aborts and no fiber
      has two threads; stopping ends within a bounded number of steps.  What
      happens without these conditions is [scheduler_hazards].
    - IO manager: the operations on events against the table of waiters,
      agreement with the kernel's interest list, a whole turn of the idle
      fiber, the time it waits, and the race that aborts.
    - Strings and HTTP: decoding undoes encoding, both against an independent
      description; the headers are a finite map on names without case; what a
      query, a form and a cookie header are parsed to; which servlet answers.
    - HTTP over bytes: a request or a response within the grammar of the
      automata and the limits of the parser is received as it was sent
      ([request_roundtrip], [response_roundtrip]), in any pieces of which the
      first holds the head; a head cut inside its path is misread
      ([split_path_misread]).
    - URIs: what [toString] prints [Create] parses back ([uri_roundtrip]); two
      kinds of URIs are not ([uri_misreadings]).
    - RPC: a remote call to a provider that registered the service does to the
      server, the response and the controller what the local call does, down
      to the bytes of the connection ([remote_call_over_bytes], proved from an
      interface, [carries], that the bytes implement); and what the caller
      sees when anything fails.
    - HTTP client: a result code for each thing that can fail, and otherwise
      the response of the peer ([do_request_spec]).  Pool: no connection is lost,
      shared or deleted in use, in every interleaving ([pool_accounts]); its
      limits of age and number have no effect ([pool_unlimited]).
    - Addresses: masks and subnets as numbers ([subnets]); what is printed is
      looked up again ([address_text_roundtrip]); the order of addresses.
    - Logging: a pattern made of pieces is parsed into them
      ([pattern_pieces]); which appenders write an event ([event_routing]);
      after the configuration has changed the loggers are as it says
      ([logs_configured]).  Asynchronous logger: no event is lost, repeated or
      reordered ([async_events]) and [stop] ends ([stop_ends]); an event that
      comes after [stop] waits for the next [start] ([push_after_stop]).
    - Hooks: what a call that waits returns and that it leaves nothing behind
      ([hooked_call_spec]), and the races of its time-out
      ([hooked_call_races]); the mode and the time-outs that the user of a
      socket sees ([hooked_descriptors]).
    - Configuration: what a document does to each variable and what its
      listeners hear ([config_load]); names and types ([config_lookup]);
      containers are read back ([containers_roundtrip]), definitions of loggers
      but for the levels of appenders ([log_define_roundtrip]).  The arguments that a
      process accepts ([env_arguments]).
    - Sockets: no descriptor is lost or closed twice, but one that [accept]
      refuses ([socket_descriptors]).  Server: its sockets listen at all
      addresses or it binds none ([server_binds]); with one accepting worker it
      stops, unless it is started again too early, and with more a loop may
      be left waiting for ever ([server_stops]).
    ** Hypotheses, bounds and fuel

    - boost archives, protobuf messages, epoll and the system calls are type
      classes with their documented laws ([RaftArchiveLaws],
      [KvArchiveLaws], [DumpArchiveLaws], [EpollLaws], [ProtobufLaws],
      [KernelLaws], [NetLaws], [ResolverLaws], [YamlLaws]); each has an instance, used by the witnesses.
    - [while(true)] loops of the clerk take fuel; [clerk_finds_leader] gives
      an amount that suffices.  Every other loop is structural, or bounded by
      a measure of the state (the level of the skip list, the bytes left).
    - [int] fields of the raft layer are unbounded [Z]: no index reaches 2^31.
      Widths are exact where they matter: the byte array, varints and zigzag,
      timers, [atoi] and the port, the timeout of epoll.
    - [m_mutex] and [m_mtx] make a critical section one step; the applier's
      turn is one step of the cluster.  [std::function]s are numbers.  The clock, random
      numbers and addresses from [new] are arguments.
    - [failure] covers what ends an operation abnormally: assertions, bad
      indexes and pointers, exceptions, signed overflow.

    ** Not modelled

    The switch of stacks (libco assembly), threads and locks as such, OpenSSL,
    JSON bindings, daemons, the syntax of YAML: system calls and
    third-party code with little logic of their own.   A node's restart is a
    definition ([restart]) but no step of the cluster: the persisted state is
    lost by the constructor of [Persister], which truncates its files. *)

From stdpp Require Export base gmap sets list strings.
From Stdlib Require Export ZArith Lia.

#[global] Open Scope Z_scope.
#[global] Arguments String.append !_ _ / : simpl nomatch.
#[export] Set Warnings "-clear-no-such-hyp".

(** ** Failures and the state-and-failure monad

    [failure] is what can stop a C++ operation of this program short of its
    normal end: [myAssert]/[SYLAR_ASSERT] ending the process, an out-of-range
    [operator[]] or a null or dangling pointer (undefined behaviour in the
    source), an exception, a signed overflow, or the exhaustion of the fuel of a
    loop of the model. *)
Inductive failure :=
  | AssertFailed
  | BadIndex
  | BadPointer
  | OutOfRange
  | Overflow
  | NoFuel.

Inductive result (A : Type) :=
  | Ok (a : A)
  | Fail (f : failure).
Arguments Ok {A} a.
Arguments Fail {A} f.

(** A computation over a state of type [S]: it ends with a value and a new
    state, or it fails. *)
Definition M (S A : Type) : Type := S → result (A * S).

#[global] Instance result_ret : MRet result := λ A a, Ok a.
#[global] Instance result_bind : MBind result := λ A B k m,
  match m with Ok a => k a | Fail f => Fail f end.
#[global] Instance M_ret S : MRet (M S) := λ A a s, Ok (a, s).
#[global] Instance M_bind S : MBind (M S) := λ A B k m s,
  match m s with Ok (a, s') => k a s' | Fail f => Fail f end.

Definition gets {S A} (f : S → A) : M S A := λ s, Ok (f s, s).
Definition modify {S} (f : S → S) : M S unit := λ s, Ok (tt, f s).
Definition fail {S A} (f : failure) : M S A := λ _, Fail f.

(** [myAssert(cond, msg)]: the process exits when [cond] is false. *)
Definition assert_that {S} (b : bool) : M S unit :=
  if b then mret tt else fail AssertFailed.

(** [v[i]] on a [std::vector], the index being a signed [int]. *)
Definition vec_at {S A} (l : list A) (i : Z) : M S A :=
  if (0 <=? i) then
    match l !! Z.to_nat i with Some a => mret a | None => fail BadIndex end
  else fail BadIndex.

(** [v[i] = x] on a [std::vector]: the new vector. *)
Definition vec_set {S A} (l : list A) (i : Z) (x : A) : M S (list A) :=
  if (0 <=? i) && (i <? Z.of_nat (length l)) then mret (<[Z.to_nat i := x]> l)
  else fail BadIndex.

(** [for (x : l) f(x);] *)
Fixpoint for_each {S A} (l : list A) (f : A → M S unit) : M S unit :=
  match l with
  | [] => mret tt
  | x :: l' => f x ;; for_each l' f
  end.

(** A loop body that may [break]: [Some] carries the value the loop leaves
    with, [None] goes to the next element. *)
Fixpoint for_until {S A B} (l : list A) (f : A → M S (option B)) : M S (option B) :=
  match l with
  | [] => mret None
  | x :: l' => r ← f x; match r with Some b => mret (Some b) | None => for_until l' f end
  end.

(** The integers [hi, hi-1, ..., hi-n+1], the order of a [for (i = hi; ...; i--)] loop. *)
Fixpoint zdown (hi : Z) (n : nat) : list Z :=
  match n with O => [] | S n' => hi :: zdown (hi - 1) n' end.

(** [wp m Q s]: if [m] ends normally from [s], it ends in [Q]. *)
Definition wp {S A} (m : M S A) (Q : A → S → Prop) (s : S) : Prop :=
  ∀ a s', m s = Ok (a, s') → Q a s'.

(** ** Automation *)

(** Reduce a monadic computation applied to a state. *)
Ltac mrun :=
  repeat (unfold mret, mbind, M_ret, M_bind, gets, modify, assert_that, fail in *; simpl in *).

(** Case analysis on the scrutinee of every [match] of the goal. *)
Ltac split_goal := repeat (case_match; simplify_eq/=; try done).

(** Turn the boolean comparisons of the context and the goal into
    propositions, then call [lia]. *)
Ltac zify_bool :=
  repeat match goal with
  | H : _ && _ = true |- _ => apply andb_true_iff in H as [? ?]
  | H : _ && _ = false |- _ => apply andb_false_iff in H
  | H : _ || _ = true |- _ => apply orb_true_iff in H
  | H : _ || _ = false |- _ => apply orb_false_iff in H as [? ?]
  | H : negb _ = true |- _ => apply negb_true_iff in H
  | H : negb _ = false |- _ => apply negb_false_iff in H
  | H : (_ <? _) = true |- _ => apply Z.ltb_lt in H
  | H : (_ <? _) = false |- _ => apply Z.ltb_ge in H
  | H : (_ <=? _) = true |- _ => apply Z.leb_le in H
  | H : (_ <=? _) = false |- _ => apply Z.leb_gt in H
  | H : (_ =? _) = true |- _ => apply Z.eqb_eq in H
  | H : (_ =? _) = false |- _ => apply Z.eqb_neq in H
  end.
Ltac blia := zify_bool; lia.

(** ** Lemmas on the monad *)

Lemma bind_Ok {S A B} (m : M S A) (k : A → M S B) s r :
  (mbind k m) s = Ok r ↔ ∃ a s1, m s = Ok (a, s1) ∧ k a s1 = Ok r.
Proof.
  unfold mbind, M_bind. destruct (m s) as [[a s1]|]; naive_solver.
Qed.

(** Run the first part of a computation whose result is known. *)
Lemma bind_run {S A B} (m : M S A) (k : A → M S B) s a s1 :
  m s = Ok (a, s1) → (mbind k m) s = k a s1.
Proof. intros E. unfold mbind, M_bind. by rewrite E. Qed.

Lemma ret_run {S A} (a : A) (s : S) : (mret a : M S A) s = Ok (a, s).
Proof. done. Qed.

Lemma gets_run {S A} (f : S → A) (s : S) : gets f s = Ok (f s, s).
Proof. done. Qed.

Lemma bind_assoc {S A B C} (m : M S A) (k1 : A → M S B) (k2 : B → M S C) s :
  (mbind k2 (mbind k1 m)) s = (mbind (λ a, mbind k2 (k1 a)) m) s.
Proof. unfold mbind, M_bind. by destruct (m s) as [[]|]. Qed.

(** Run the first operation of a sequence, its result being given by [E]. *)
Tactic Notation "run" uconstr(E) :=
  rewrite ?bind_assoc; erewrite bind_run by (eapply E; eauto); cbn beta iota zeta.

Lemma vec_at_Ok {S A} (l : list A) i (s : S) r s' :
  vec_at l i s = Ok (r, s') ↔ 0 <= i ∧ l !! Z.to_nat i = Some r ∧ s' = s.
Proof.
  unfold vec_at. destruct (0 <=? i) eqn:?; zify_bool; [|split; [done|lia]].
  case_match; unfold mret, M_ret, fail; naive_solver.
Qed.

Lemma vec_set_Ok {S A} (l : list A) i x (s : S) r s' :
  vec_set l i x s = Ok (r, s') ↔
  0 <= i < Z.of_nat (length l) ∧ r = <[Z.to_nat i := x]> l ∧ s' = s.
Proof.
  unfold vec_set. destruct ((0 <=? i) && _) eqn:?; zify_bool.
  - unfold mret, M_ret. naive_solver.
  - unfold fail. split; [done|]. lia.
Qed.

(** An invariant of the body of a [for_each] loop is one of the loop. *)
Lemma for_each_inv {S A} (P : S → Prop) (f : A → M S unit) l s s' :
  (∀ x s1 s2, x ∈ l → P s1 → f x s1 = Ok (tt, s2) → P s2) →
  P s → for_each l f s = Ok (tt, s') → P s'.
Proof.
  revert s. induction l as [|x l IH]; intros s Hf HP Hrun; simpl in Hrun.
  - unfold mret, M_ret in Hrun. by simplify_eq.
  - apply bind_Ok in Hrun as ([] & s1 & H1 & H2).
    eapply IH; [|by eapply Hf; [left| |]|done].
    intros; eapply Hf; [by right|done|done].
Qed.

(** Total correctness of a loop over consecutive naturals. *)
Lemma for_each_total {S} (I : nat → S → Prop) (f : nat → M S unit) j n s :
  (∀ i s1, (j ≤ i < j + n)%nat → I i s1 → ∃ s2, f i s1 = Ok (tt, s2) ∧ I (i + 1)%nat s2) →
  I j s → ∃ s', for_each (seq j n) f s = Ok (tt, s') ∧ I (j + n)%nat s'.
Proof.
  revert j s. induction n as [|n IH]; intros j s Hf Hj; simpl.
  - exists s. rewrite Nat.add_0_r. done.
  - destruct (Hf j s) as (s1 & E1 & Hi1); [lia|done|]. unfold mbind, M_bind. rewrite E1.
    rewrite Nat.add_1_r in Hi1. destruct (IH (Datatypes.S j) s1) as (s2 & E2 & Hi2); [|done|].
    + intros i s2 Hi. apply Hf. lia.
    + exists s2. by rewrite Nat.add_succ_r in *.
Qed.

Lemma elem_of_zdown hi n x : x ∈ zdown hi n ↔ hi - Z.of_nat n < x <= hi.
Proof.
  revert hi. induction n as [|n IH]; intros hi; simpl zdown.
  - split; [by intros ?%not_elem_of_nil|lia].
  - rewrite elem_of_cons, IH. lia.
Qed.

(** A [for_until] loop whose body is a test is a search. *)
Lemma for_until_find {S A} (b : A → bool) (f : A → M S (option A)) l s :
  (∀ x, x ∈ l → f x s = Ok (if b x then Some x else None, s)) →
  for_until l f s = Ok (List.find b l, s).
Proof.
  induction l as [|x l IH]; intros Hf; [done|]. simpl. unfold mbind, M_bind.
  rewrite Hf by left. destruct (b x); [done|]. apply IH. intros y Hy. apply Hf. by right.
Qed.

(** The search from above finds the greatest. *)
Lemma find_zdown b hi n :
  match List.find b (zdown hi n) with
  | Some c => hi - Z.of_nat n < c <= hi ∧ b c = true ∧ ∀ j, c < j <= hi → b j = false
  | None => ∀ j, hi - Z.of_nat n < j <= hi → b j = false
  end.
Proof.
  revert hi. induction n as [|n IH]; intros hi; [simpl; lia|].
  cbn [zdown List.find]. destruct (b hi) eqn:Hb; [split_and!; [lia|lia|done|lia]|].
  specialize (IH (hi - 1)). destruct (List.find b _) as [c|].
  - destruct IH as (? & ? & Hj). split_and!; [lia|lia|done|]. intros j ?.
    destruct (decide (j = hi)) as [->|]; [done|]. apply Hj. lia.
  - intros j ?. destruct (decide (j = hi)) as [->|]; [done|]. apply IH. lia.
Qed.

(** ** Rules for [wp] *)

Section wp.
Context {S : Type}.
Implicit Types s : S.

Lemma wp_mono {A} (m : M S A) (Q Q' : A → S → Prop) s :
  (∀ a s', Q a s' → Q' a s') → wp m Q s → wp m Q' s.
Proof. unfold wp. eauto. Qed.

Lemma wp_bind {A B} (m : M S A) (k : A → M S B) Q s :
  wp m (λ a s', wp (k a) Q s') s → wp (mbind k m) Q s.
Proof. intros Hm b s' (a & s1 & H1 & H2)%bind_Ok. by eapply Hm. Qed.

Lemma wp_ret {A} (a : A) (Q : A → S → Prop) s : Q a s → wp (mret a) Q s.
Proof. intros HQ b s' [= <- <-]. done. Qed.

Lemma wp_gets {A} (f : S → A) (Q : A → S → Prop) s : Q (f s) s → wp (gets f) Q s.
Proof. intros HQ b s' [= <- <-]. done. Qed.

Lemma wp_modify (f : S → S) (Q : unit → S → Prop) s : Q tt (f s) → wp (modify f) Q s.
Proof. intros HQ b s' [= <- <-]. done. Qed.

Lemma wp_fail {A} e (Q : A → S → Prop) s : wp (fail e) Q s.
Proof. by intros b s' [=]. Qed.

Lemma wp_assert b (Q : unit → S → Prop) s : (b = true → Q tt s) → wp (assert_that b) Q s.
Proof. intros HQ. destruct b; [apply wp_ret; auto|apply wp_fail]. Qed.

Lemma wp_vec_at {A} (l : list A) i (Q : A → S → Prop) s :
  (∀ x, 0 <= i → l !! Z.to_nat i = Some x → Q x s) → wp (vec_at l i) Q s.
Proof. intros HQ x s' (? & ? & ->)%vec_at_Ok. auto. Qed.

Lemma wp_vec_set {A} (l : list A) i x (Q : list A → S → Prop) s :
  (0 <= i < Z.of_nat (length l) → Q (<[Z.to_nat i := x]> l) s) → wp (vec_set l i x) Q s.
Proof. intros HQ r s' (? & -> & ->)%vec_set_Ok. auto. Qed.

Lemma wp_for_each {A} (I : S → Prop) (f : A → M S unit) l (Q : unit → S → Prop) s :
  I s → (∀ x s, x ∈ l → I s → wp (f x) (λ _, I) s) → (∀ s, I s → Q tt s) →
  wp (for_each l f) Q s.
Proof.
  intros HI Hf HQ [] s' Hrun. apply HQ. eapply for_each_inv; [|exact HI|exact Hrun].
  intros x s1 s2 Hx H1 H2. by eapply Hf.
Qed.

(** A loop with [break] whose body only reads the state. *)
Lemma wp_for_until {A B} (R : A → B → Prop) (f : A → M S (option B)) l
    (Q : option B → S → Prop) s :
  (∀ x, x ∈ l → wp (f x) (λ r s', s' = s ∧ ∀ b, r = Some b → R x b) s) →
  Q None s → (∀ x b, x ∈ l → R x b → Q (Some b) s) → wp (for_until l f) Q s.
Proof.
  intros Hf HN HS. induction l as [|x l IH]; simpl; [by apply wp_ret|].
  apply wp_bind. eapply wp_mono; [|apply Hf; left]. intros [b|] ? [-> Hb].
  - apply wp_ret. eapply HS; [left|auto].
  - apply IH; intros; [apply Hf|eapply HS]; try done; by right.
Qed.
End wp.

(** One step of symbolic execution of a [wp] goal. *)
Ltac wp_step :=
  lazymatch goal with
  | |- wp (mbind _ _) _ _ => apply wp_bind
  | |- wp (mret _) _ _ => apply wp_ret
  | |- wp (gets _) _ _ => apply wp_gets; cbn [id]
  | |- wp (modify _) _ _ => apply wp_modify
  | |- wp (fail _) _ _ => apply wp_fail
  | |- wp (assert_that _) _ _ => apply wp_assert; intros ?
  | |- wp (vec_at _ _) _ _ => apply wp_vec_at; intros ? ? ?
  | |- wp (vec_set _ _ _) _ _ => apply wp_vec_set; intros ?
  | |- wp (if ?b then _ else _) _ _ => destruct b eqn:?
  | |- wp (match ?x with _ => _ end) _ _ => destruct x eqn:?
  end.
Ltac wp_run := repeat wp_step.

(** ** Lemmas on lists *)

Lemma length_nil_inv {A} (l : list A) : length l = 0%nat → l = [].
Proof. by destruct l. Qed.

Lemma lookup_last_len {A} (l : list A) x :
  last l = Some x → l !! (length l - 1)%nat = Some x.
Proof. rewrite last_lookup. by replace (length l - 1)%nat with (pred (length l)) by lia. Qed.

(** ** Hint database

    [rsylar] collects the preservation lemmas of the components. *)
Create HintDb rsylar.
