(* ===== verification/Fields.v ===== *)
(** * Fields: a concrete text format

    The boost archives and protobuf messages are parameters of the model; the
    examples instantiate them with this format: a string is written with a mark
    before each character and one after the last, an integer as its sign and
    binary digits, a list with a mark before each element. *)

From Stdlib Require Ascii.
Import (notations) Ascii.
From S2P Require Import Prelude.

Fixpoint bits (p : positive) : string :=
  match p with
  | xH => ""
  | xO p' => String "0"%char (bits p')
  | xI p' => String "1"%char (bits p')
  end.

Fixpoint unbits (s : string) : positive :=
  match s with
  | EmptyString => xH
  | String a s' => if Ascii.eqb a "1"%char then xI (unbits s') else xO (unbits s')
  end.

(** ** Fields *)

Fixpoint put_string (s rest : string) : string :=
  match s with
  | EmptyString => String "."%char rest
  | String a s' => String ","%char (String a (put_string s' rest))
  end.

Fixpoint get_string (s : string) : option (string * string) :=
  match s with
  | String m s' =>
      if Ascii.eqb m "."%char then Some (EmptyString, s')
      else match s' with
           | String a s'' => '(w, rest) ← get_string s''; Some (String a w, rest)
           | EmptyString => None
           end
  | EmptyString => None
  end.

Definition put_Z (z : Z) (rest : string) : string :=
  match z with
  | Z0 => put_string "" rest
  | Zpos p => put_string (String "+"%char (bits p)) rest
  | Zneg p => put_string (String "-"%char (bits p)) rest
  end.

Definition get_Z (s : string) : option (Z * string) :=
  '(w, rest) ← get_string s;
  Some (match w with
        | EmptyString => 0
        | String a w' => if Ascii.eqb a "+"%char then Zpos (unbits w') else Zneg (unbits w')
        end, rest).

Fixpoint put_list (l : list string) (rest : string) : string :=
  match l with
  | [] => String "."%char rest
  | x :: l' => String ","%char (put_string x (put_list l' rest))
  end.

Fixpoint get_list (fuel : nat) (s : string) : option (list string) :=
  match fuel, s with
  | S fuel', String m s' =>
      if Ascii.eqb m "."%char then Some []
      else '(x, rest) ← get_string s'; l ← get_list fuel' rest; Some (x :: l)
  | _, _ => None
  end.

(** ** Round trips *)

Lemma unbits_bits p : unbits (bits p) = p.
Proof. induction p as [p IH|p IH|]; simpl; by rewrite ?IH. Qed.

Lemma get_put_string s rest : get_string (put_string s rest) = Some (s, rest).
Proof. induction s as [|a s IH]; [done|]. simpl. by rewrite IH. Qed.

Lemma get_put_Z z rest : get_Z (put_Z z rest) = Some (z, rest).
Proof.
  unfold get_Z, put_Z. destruct z; rewrite get_put_string; simpl; by rewrite ?unbits_bits.
Qed.

Lemma length_put_string s rest : (String.length rest < String.length (put_string s rest))%nat.
Proof. induction s; simpl; lia. Qed.

Lemma get_put_list l rest fuel : (String.length (put_list l rest) ≤ fuel)%nat → get_list fuel (put_list l rest) = Some l.
Proof.
  revert fuel. induction l as [|x l IH]; intros [|fuel] Hf; simpl in *; try lia; [done|].
  rewrite get_put_string. simpl. rewrite IH; [done|].
  pose proof (length_put_string x (put_list l rest)). lia.
Qed.
