(* ===== verification/Persister.v ===== *)
(** * Persister: the on-disk state of a raft node ([raft/raftCore/Persister.cpp])

    The two files, the two output streams with the bytes they still hold back,
    and the size counter.  [Persister] is used by the raft node through the
    class [PersisterOps]; [PersisterLaws] is what it promises to the node. *)

From S2P Require Import Prelude.

(** ** The C++ library: strings and streams *)

Fixpoint str_take (n : nat) (s : string) : string :=
  match n, s with
  | S n', String a s' => String a (str_take n' s')
  | _, _ => EmptyString
  end.

Fixpoint str_drop (n : nat) (s : string) : string :=
  match n, s with
  | S n', String _ s' => str_drop n' s'
  | _, _ => s
  end.

(** [isspace] in the "C" locale: space, \t, \n, \v, \f, \r. *)
Definition is_space (a : Ascii.ascii) : bool :=
  let n := Ascii.nat_of_ascii a in
  (n =? 32)%nat || ((9 <=? n)%nat && (n <=? 13)%nat).

Fixpoint has_space (s : string) : bool :=
  match s with EmptyString => false | String a s' => is_space a || has_space s' end.

Fixpoint take_word (s : string) : string :=
  match s with
  | EmptyString => EmptyString
  | String a s' => if is_space a then EmptyString else String a (take_word s')
  end.

(** [std::string w; ifs >> w;]: the leading white space is skipped and the
    characters up to the next white space are read. *)
Fixpoint extract_word (s : string) : string :=
  match s with
  | EmptyString => EmptyString
  | String a s' => if is_space a then extract_word s' else take_word s
  end.

(** A [std::ofstream]: closed, or open and holding back some bytes. *)
Definition ofstream : Type := option string.

(** ** The state *)

Record Persister := mkPersister {
  raftStateFile : string;          (* contents of m_raftStateFileName *)
  snapshotFile : string;           (* contents of m_snapshotFileName *)
  m_raftStateOutStream : ofstream;
  m_snapshotOutStream : ofstream;
  m_raftStateSize : Z
}.

Section persister.
(** The stream buffer writes some of the bytes it holds to the file when it
    pleases: [spill b] of the pending bytes [b] after an insertion. *)
Context (spill : string → nat).

Definition stream_write (file : string) (os : ofstream) (data : string) : string * ofstream :=
  match os with
  | None => (file, None)
  | Some b =>
      let b' := String.append b data in
      (String.append file (str_take (spill b') b'), Some (str_drop (spill b') b'))
  end.

(** [close()] writes out what the stream still holds. *)
Definition stream_close (file : string) (os : ofstream) : string :=
  match os with None => file | Some b => String.append file b end.

Definition clearRaftState (p : Persister) : Persister :=
  (* m_raftStateSize = 0; close; open(name, out | trunc) *)
  mkPersister EmptyString (snapshotFile p) (Some EmptyString) (m_snapshotOutStream p) 0.

Definition clearSnapshot (p : Persister) : Persister :=
  mkPersister (raftStateFile p) EmptyString (m_raftStateOutStream p) (Some EmptyString)
    (m_raftStateSize p).

Definition clearRaftStateAndSnapshot (p : Persister) : Persister :=
  clearSnapshot (clearRaftState p).

Definition write_raftstate (data : string) (p : Persister) : Persister :=
  let '(f, os) := stream_write (raftStateFile p) (m_raftStateOutStream p) data in
  mkPersister f (snapshotFile p) os (m_snapshotOutStream p) (m_raftStateSize p).

Definition write_snapshot (data : string) (p : Persister) : Persister :=
  let '(f, os) := stream_write (snapshotFile p) (m_snapshotOutStream p) data in
  mkPersister (raftStateFile p) f (m_raftStateOutStream p) os (m_raftStateSize p).

Definition Save (raftstate snapshot : string) (p : Persister) : Persister :=
  let p := clearRaftStateAndSnapshot p in
  let p := write_raftstate raftstate p in
  write_snapshot snapshot p.

Definition SaveRaftState (data : string) (p : Persister) : Persister :=
  let p := clearRaftState p in
  let p := write_raftstate data p in
  mkPersister (raftStateFile p) (snapshotFile p) (m_raftStateOutStream p)
    (m_snapshotOutStream p) (m_raftStateSize p + Z.of_nat (String.length data)).

Definition RaftStateSize (p : Persister) : Z := m_raftStateSize p.

(** The file is read through a stream of its own; the output stream is left
    open, so the bytes it holds back are not seen. *)
Definition ReadRaftState (p : Persister) : string := extract_word (raftStateFile p).

(** The output stream is closed first; after the read the deferred
    [m_snapshotOutStream.open(m_snapshotFileName)] reopens the file with the
    default mode [std::ios_base::out], which truncates it. *)
Definition ReadSnapshot (p : Persister) : string * Persister :=
  let file := stream_close (snapshotFile p) (m_snapshotOutStream p) in
  let snapshot := extract_word file in
  (snapshot,
   mkPersister (raftStateFile p) EmptyString (m_raftStateOutStream p) (Some EmptyString)
     (m_raftStateSize p)).

(** [Persister::Persister(me)]: both files are opened with [ios::trunc],
    whatever the disk held, and the streams are bound to them.  [disk] is the
    contents of the two files before. *)
Definition new_Persister (disk : string * string) : Persister :=
  mkPersister EmptyString EmptyString (Some EmptyString) (Some EmptyString) 0.

End persister.

(** The bytes handed over for the raft state: on disk, or still in the stream. *)
Definition raft_written (p : Persister) : string :=
  stream_close (raftStateFile p) (m_raftStateOutStream p).

Definition snapshot_written (p : Persister) : string :=
  stream_close (snapshotFile p) (m_snapshotOutStream p).

(** ** The interface *)

Class PersisterOps (P : Type) := {
  p_SaveRaftState : string → P → P;
  p_Save : string → string → P → P;
  p_ReadSnapshot : P → string * P;
  p_ReadRaftState : P → string;
  p_RaftStateSize : P → Z;
  p_written : P → string
}.

(** What the raft node relies on: the last raft state handed over is the one
    the persister holds, and reading the snapshot does not disturb it. *)
Class PersisterLaws (P : Type) `{PersisterOps P} := {
  written_SaveRaftState d p : p_written (p_SaveRaftState d p) = d;
  written_Save d sn p : p_written (p_Save d sn p) = d;
  written_ReadSnapshot p : p_written (p_ReadSnapshot p).2 = p_written p
}.

#[export] Instance Persister_ops (spill : string → nat) : PersisterOps Persister := {
  p_SaveRaftState := SaveRaftState spill;
  p_Save := Save spill;
  p_ReadSnapshot := ReadSnapshot;
  p_ReadRaftState := ReadRaftState;
  p_RaftStateSize := RaftStateSize;
  p_written := raft_written
}.

(** ** Lemmas on strings *)

Lemma str_take_drop n s : String.append (str_take n s) (str_drop n s) = s.
Proof. revert s. induction n as [|n IH]; intros [|a s]; simpl; try done. change (String a (String.append (str_take n s) (str_drop n s)) = String a s). by rewrite IH. Qed.

Lemma str_take_all n s : (String.length s ≤ n)%nat → str_take n s = s.
Proof.
  revert s. induction n as [|n IH]; intros [|a s] ?; simpl in *; try done; [lia|].
  rewrite IH; [done|lia].
Qed.

Lemma length_str_take n s : String.length (str_take n s) = (n `min` String.length s)%nat.
Proof. revert s. induction n; intros [|a s]; simpl; auto. Qed.

Lemma length_take_word s : (String.length (take_word s) ≤ String.length s)%nat.
Proof. induction s as [|a s IH]; simpl; [lia|]. destruct (is_space a); simpl; lia. Qed.

Lemma length_extract_word s : (String.length (extract_word s) ≤ String.length s)%nat.
Proof.
  induction s as [|a s IH]; [simpl; lia|].
  cbn [extract_word]. destruct (is_space a); [simpl; lia|]. apply length_take_word.
Qed.

Lemma take_word_id s : has_space s = false → take_word s = s.
Proof.
  induction s as [|a s IH]; simpl; [done|]. intros [-> ?]%orb_false_iff. f_equal; auto.
Qed.

Lemma take_word_no_space s : has_space (take_word s) = false.
Proof. induction s as [|a s IH]; simpl; [done|]. destruct (is_space a) eqn:E; simpl; rewrite ?E; auto. Qed.

Lemma extract_word_no_space s : has_space (extract_word s) = false.
Proof.
  induction s as [|a s IH]; [done|]. cbn [extract_word].
  destruct (is_space a); [done|]. apply take_word_no_space.
Qed.

Lemma extract_word_id s : has_space s = false → extract_word s = s.
Proof.
  destruct s as [|a s]; [done|]. intros Hs. cbn [extract_word].
  assert (is_space a = false) as -> by (by apply orb_false_iff in Hs as [? _]).
  by apply take_word_id.
Qed.

(** ** The instance keeps its promises *)

#[export] Instance Persister_laws (spill : string → nat) :
  @PersisterLaws Persister (Persister_ops spill).
Proof.
  split; intros; [apply str_take_drop..|done].
Qed.

(** ** Properties *)

(** Reading back the raft state right after it was saved returns the
    saved data exactly when that data has no white space and the output stream
    has already written all of it to the file: [ReadRaftState] extracts one
    word from the file and does not flush the stream. *)
Theorem ReadRaftState_SaveRaftState (spill : string → nat) (d : string) (p : Persister) :
  ReadRaftState (SaveRaftState spill d p) = d ↔
  has_space d = false ∧ (String.length d ≤ spill d)%nat.
Proof.
  unfold ReadRaftState, SaveRaftState, write_raftstate; simpl. split.
  - intros E. split; [rewrite <- E; apply extract_word_no_space|].
    pose proof (length_extract_word (str_take (spill d) d)) as Hl.
    rewrite E, length_str_take in Hl. lia.
  - intros [Hs Hl]. rewrite str_take_all by done. by apply extract_word_id.
Qed.

(** Reading the snapshot destroys it: [ReadSnapshot] leaves the file
    empty, so a second read returns the empty string whatever was saved. *)
Theorem ReadSnapshot_truncates (p : Persister) :
  snapshot_written (ReadSnapshot p).2 = EmptyString ∧
  (ReadSnapshot (ReadSnapshot p).2).1 = EmptyString.
Proof. done. Qed.

(** The size counter: [SaveRaftState] sets it to the length of the data,
    but [Save] leaves it at zero although the raft state it wrote is [d]. *)
Theorem RaftStateSize_spec (spill : string → nat) (d sn : string) (p : Persister) :
  RaftStateSize (SaveRaftState spill d p) = Z.of_nat (String.length d) ∧
  raft_written (Save spill d sn p) = d ∧ RaftStateSize (Save spill d sn p) = 0.
Proof.
  split_and!; [simpl; lia|apply str_take_drop|done].
Qed.
