(* ===== verification/RaftTypes.v ===== *)
(** * RaftTypes: the data of the raft layer

    The messages ([raft/raftRpcPro/raftRPC.proto]), the apply messages
    ([ApplyMsg.h]), the client commands ([Op] of [util.h]), the constants of
    [config.h] and the state of a [Raft] object ([raft.h]). *)

From S2P Require Import Prelude.
From S2P Require Import Persister.

(** ** Constants ([raft.h], [config.h]); times are in nanoseconds *)

Definition Disconnected : Z := 0.
Definition AppNormal : Z := 1.
Definition Killed : Z := 0.
Definition Voted : Z := 1.
Definition Expire : Z := 2.
Definition Normal : Z := 3.

Definition ms : Z := 1000000.
Definition debugMul : Z := 1.
Definition HeartBeatTimeout : Z := 25 * debugMul.
Definition ApplyInterval : Z := 10 * debugMul.
Definition minRandomizedElectionTime : Z := 300 * debugMul.
Definition maxRandomizedElectionTime : Z := 500 * debugMul.
Definition CONSENSUS_TIMEOUT : Z := 500 * debugMul.

(** ** Messages *)

Record LogEntry := mkLogEntry {
  command : string;
  logterm : Z;
  logindex : Z
}.

Record AppendEntriesArgs := mkAppendEntriesArgs {
  ae_term : Z;
  ae_leaderid : Z;
  ae_prevlogindex : Z;
  ae_prevlogterm : Z;
  ae_entries : list LogEntry;
  ae_leadercommit : Z
}.

Record AppendEntriesReply := mkAppendEntriesReply {
  aer_term : Z;
  aer_success : bool;
  aer_updatenextindex : Z;
  aer_appstate : Z
}.

Record RequestVoteArgs := mkRequestVoteArgs {
  rv_term : Z;
  rv_candidateid : Z;
  rv_lastlogindex : Z;
  rv_lastlogterm : Z
}.

Record RequestVoteReply := mkRequestVoteReply {
  rvr_term : Z;
  rvr_votegranted : bool;
  rvr_votestate : Z
}.

Record InstallSnapshotRequest := mkInstallSnapshotRequest {
  is_leaderid : Z;
  is_term : Z;
  is_lastsnapshotincludeindex : Z;
  is_lastsnapshotincludeterm : Z;
  is_data : string
}.

Record InstallSnapshotResponse := mkInstallSnapshotResponse {
  isr_term : Z
}.

Record ApplyMsg := mkApplyMsg {
  CommandValid : bool;
  Command : string;
  CommandIndex : Z;
  SnapshotValid : bool;
  Snapshot_data : string;
  SnapshotTerm : Z;
  SnapshotIndex : Z
}.

Record Op := mkOp {
  Operation : string;
  Key : string;
  Value : string;
  ClientId : string;
  RequestId : Z
}.

(** The constructor of [ApplyMsg]. *)
Definition default_ApplyMsg : ApplyMsg := mkApplyMsg false "" (-1) false "" (-1) (-1).

(** ** Serialisation

    [BoostPersistRaftNode] is what [persistData] hands to a boost
    [text_oarchive].  The archives and protobuf's [SerializeAsString] are
    third-party code: they are the methods of [RaftArchive], and
    [RaftArchiveLaws] is their documented round trip. *)
Record BoostPersistRaftNode := mkBoostPersistRaftNode {
  b_currentTerm : Z;
  b_votedFor : Z;
  b_lastSnapshotIncludeIndex : Z;
  b_lastSnapshotIncludeTerm : Z;
  b_logs : list string
}.

Class RaftArchive := {
  SerializeAsString : LogEntry → string;
  ParseFromString : string → LogEntry;
  text_oarchive : BoostPersistRaftNode → string;
  text_iarchive : string → option BoostPersistRaftNode;
  Op_asString : Op → string;
  Op_parseFromString : string → option Op
}.

Class RaftArchiveLaws `{RaftArchive} := {
  Parse_Serialize e : ParseFromString (SerializeAsString e) = e;
  iarchive_oarchive b : text_iarchive (text_oarchive b) = Some b;
  oarchive_nonempty b : text_oarchive b ≠ "";
  Op_parse_asString o : Op_parseFromString (Op_asString o) = Some o
}.

(** ** The state of a node *)

Inductive Status := Follower | Candidate | Leader.

(** What the node hands to [m_ioManager->schedule].  [votedNum] and
    [appendNums] are [shared_ptr<int>]: the index of a cell of [shared_ints]. *)
Inductive task :=
  | TSendRequestVote (server : nat) (args : RequestVoteArgs) (votedNum : nat)
  | TSendAppendEntries (server : nat) (args : AppendEntriesArgs) (appendNums : nat)
  | TLeaderSendSnapShot (server : nat)
  | TPushMsgToKvServer (msg : ApplyMsg)
  | TDoHeartBeat
  | TLeaderHearBeatTicker
  | TElectionTimeOutTicker
  | TApplierTicker.

(** [m_peers] is the number of peers ([m_peers.size()]). *)
Record Raft (P : Type) := mkRaft {
  m_peers : nat;
  m_persister : option P;
  m_me : nat;
  m_currentTerm : Z;
  m_votedFor : Z;
  m_logs : list LogEntry;
  m_commitIndex : Z;
  m_lastApplied : Z;
  m_nextIndex : list Z;
  m_matchIndex : list Z;
  m_status : Status;
  applyChan : list ApplyMsg;
  m_lastResetElectionTime : Z;
  m_lastResetHearBeatTime : Z;
  m_lastSnapshotIncludeIndex : Z;
  m_lastSnapshotIncludeTerm : Z;
  m_ioManager : list task;
  shared_ints : list Z
}.
Arguments mkRaft {P}.
Arguments m_peers {P} _.
Arguments m_persister {P} _.
Arguments m_me {P} _.
Arguments m_currentTerm {P} _.
Arguments m_votedFor {P} _.
Arguments m_logs {P} _.
Arguments m_commitIndex {P} _.
Arguments m_lastApplied {P} _.
Arguments m_nextIndex {P} _.
Arguments m_matchIndex {P} _.
Arguments m_status {P} _.
Arguments applyChan {P} _.
Arguments m_lastResetElectionTime {P} _.
Arguments m_lastResetHearBeatTime {P} _.
Arguments m_lastSnapshotIncludeIndex {P} _.
Arguments m_lastSnapshotIncludeTerm {P} _.
Arguments m_ioManager {P} _.
Arguments shared_ints {P} _.

(** ** Assignments to one member *)

Section setters.
Context {P : Type}.
Implicit Types s : Raft P.

Definition set_m_persister (v : option P) s : Raft P :=
  mkRaft (m_peers s) v (m_me s) (m_currentTerm s) (m_votedFor s) (m_logs s)
    (m_commitIndex s) (m_lastApplied s) (m_nextIndex s) (m_matchIndex s) (m_status s) (applyChan s)
    (m_lastResetElectionTime s) (m_lastResetHearBeatTime s) (m_lastSnapshotIncludeIndex s) (m_lastSnapshotIncludeTerm s) (m_ioManager s) (shared_ints s).

Definition set_m_currentTerm (v : Z) s : Raft P :=
  mkRaft (m_peers s) (m_persister s) (m_me s) v (m_votedFor s) (m_logs s)
    (m_commitIndex s) (m_lastApplied s) (m_nextIndex s) (m_matchIndex s) (m_status s) (applyChan s)
    (m_lastResetElectionTime s) (m_lastResetHearBeatTime s) (m_lastSnapshotIncludeIndex s) (m_lastSnapshotIncludeTerm s) (m_ioManager s) (shared_ints s).

Definition set_m_votedFor (v : Z) s : Raft P :=
  mkRaft (m_peers s) (m_persister s) (m_me s) (m_currentTerm s) v (m_logs s)
    (m_commitIndex s) (m_lastApplied s) (m_nextIndex s) (m_matchIndex s) (m_status s) (applyChan s)
    (m_lastResetElectionTime s) (m_lastResetHearBeatTime s) (m_lastSnapshotIncludeIndex s) (m_lastSnapshotIncludeTerm s) (m_ioManager s) (shared_ints s).

Definition set_m_logs (v : list LogEntry) s : Raft P :=
  mkRaft (m_peers s) (m_persister s) (m_me s) (m_currentTerm s) (m_votedFor s) v
    (m_commitIndex s) (m_lastApplied s) (m_nextIndex s) (m_matchIndex s) (m_status s) (applyChan s)
    (m_lastResetElectionTime s) (m_lastResetHearBeatTime s) (m_lastSnapshotIncludeIndex s) (m_lastSnapshotIncludeTerm s) (m_ioManager s) (shared_ints s).

Definition set_m_commitIndex (v : Z) s : Raft P :=
  mkRaft (m_peers s) (m_persister s) (m_me s) (m_currentTerm s) (m_votedFor s) (m_logs s)
    v (m_lastApplied s) (m_nextIndex s) (m_matchIndex s) (m_status s) (applyChan s)
    (m_lastResetElectionTime s) (m_lastResetHearBeatTime s) (m_lastSnapshotIncludeIndex s) (m_lastSnapshotIncludeTerm s) (m_ioManager s) (shared_ints s).

Definition set_m_lastApplied (v : Z) s : Raft P :=
  mkRaft (m_peers s) (m_persister s) (m_me s) (m_currentTerm s) (m_votedFor s) (m_logs s)
    (m_commitIndex s) v (m_nextIndex s) (m_matchIndex s) (m_status s) (applyChan s)
    (m_lastResetElectionTime s) (m_lastResetHearBeatTime s) (m_lastSnapshotIncludeIndex s) (m_lastSnapshotIncludeTerm s) (m_ioManager s) (shared_ints s).

Definition set_m_nextIndex (v : list Z) s : Raft P :=
  mkRaft (m_peers s) (m_persister s) (m_me s) (m_currentTerm s) (m_votedFor s) (m_logs s)
    (m_commitIndex s) (m_lastApplied s) v (m_matchIndex s) (m_status s) (applyChan s)
    (m_lastResetElectionTime s) (m_lastResetHearBeatTime s) (m_lastSnapshotIncludeIndex s) (m_lastSnapshotIncludeTerm s) (m_ioManager s) (shared_ints s).

Definition set_m_matchIndex (v : list Z) s : Raft P :=
  mkRaft (m_peers s) (m_persister s) (m_me s) (m_currentTerm s) (m_votedFor s) (m_logs s)
    (m_commitIndex s) (m_lastApplied s) (m_nextIndex s) v (m_status s) (applyChan s)
    (m_lastResetElectionTime s) (m_lastResetHearBeatTime s) (m_lastSnapshotIncludeIndex s) (m_lastSnapshotIncludeTerm s) (m_ioManager s) (shared_ints s).

Definition set_m_status (v : Status) s : Raft P :=
  mkRaft (m_peers s) (m_persister s) (m_me s) (m_currentTerm s) (m_votedFor s) (m_logs s)
    (m_commitIndex s) (m_lastApplied s) (m_nextIndex s) (m_matchIndex s) v (applyChan s)
    (m_lastResetElectionTime s) (m_lastResetHearBeatTime s) (m_lastSnapshotIncludeIndex s) (m_lastSnapshotIncludeTerm s) (m_ioManager s) (shared_ints s).

Definition set_applyChan (v : list ApplyMsg) s : Raft P :=
  mkRaft (m_peers s) (m_persister s) (m_me s) (m_currentTerm s) (m_votedFor s) (m_logs s)
    (m_commitIndex s) (m_lastApplied s) (m_nextIndex s) (m_matchIndex s) (m_status s) v
    (m_lastResetElectionTime s) (m_lastResetHearBeatTime s) (m_lastSnapshotIncludeIndex s) (m_lastSnapshotIncludeTerm s) (m_ioManager s) (shared_ints s).

Definition set_m_lastResetElectionTime (v : Z) s : Raft P :=
  mkRaft (m_peers s) (m_persister s) (m_me s) (m_currentTerm s) (m_votedFor s) (m_logs s)
    (m_commitIndex s) (m_lastApplied s) (m_nextIndex s) (m_matchIndex s) (m_status s) (applyChan s)
    v (m_lastResetHearBeatTime s) (m_lastSnapshotIncludeIndex s) (m_lastSnapshotIncludeTerm s) (m_ioManager s) (shared_ints s).

Definition set_m_lastResetHearBeatTime (v : Z) s : Raft P :=
  mkRaft (m_peers s) (m_persister s) (m_me s) (m_currentTerm s) (m_votedFor s) (m_logs s)
    (m_commitIndex s) (m_lastApplied s) (m_nextIndex s) (m_matchIndex s) (m_status s) (applyChan s)
    (m_lastResetElectionTime s) v (m_lastSnapshotIncludeIndex s) (m_lastSnapshotIncludeTerm s) (m_ioManager s) (shared_ints s).

Definition set_m_lastSnapshotIncludeIndex (v : Z) s : Raft P :=
  mkRaft (m_peers s) (m_persister s) (m_me s) (m_currentTerm s) (m_votedFor s) (m_logs s)
    (m_commitIndex s) (m_lastApplied s) (m_nextIndex s) (m_matchIndex s) (m_status s) (applyChan s)
    (m_lastResetElectionTime s) (m_lastResetHearBeatTime s) v (m_lastSnapshotIncludeTerm s) (m_ioManager s) (shared_ints s).

Definition set_m_lastSnapshotIncludeTerm (v : Z) s : Raft P :=
  mkRaft (m_peers s) (m_persister s) (m_me s) (m_currentTerm s) (m_votedFor s) (m_logs s)
    (m_commitIndex s) (m_lastApplied s) (m_nextIndex s) (m_matchIndex s) (m_status s) (applyChan s)
    (m_lastResetElectionTime s) (m_lastResetHearBeatTime s) (m_lastSnapshotIncludeIndex s) v (m_ioManager s) (shared_ints s).

Definition set_m_ioManager (v : list task) s : Raft P :=
  mkRaft (m_peers s) (m_persister s) (m_me s) (m_currentTerm s) (m_votedFor s) (m_logs s)
    (m_commitIndex s) (m_lastApplied s) (m_nextIndex s) (m_matchIndex s) (m_status s) (applyChan s)
    (m_lastResetElectionTime s) (m_lastResetHearBeatTime s) (m_lastSnapshotIncludeIndex s) (m_lastSnapshotIncludeTerm s) v (shared_ints s).

Definition set_shared_ints (v : list Z) s : Raft P :=
  mkRaft (m_peers s) (m_persister s) (m_me s) (m_currentTerm s) (m_votedFor s) (m_logs s)
    (m_commitIndex s) (m_lastApplied s) (m_nextIndex s) (m_matchIndex s) (m_status s) (applyChan s)
    (m_lastResetElectionTime s) (m_lastResetHearBeatTime s) (m_lastSnapshotIncludeIndex s) (m_lastSnapshotIncludeTerm s) (m_ioManager s) v.

End setters.

#[export] Instance Status_eq_dec : EqDecision Status.
Proof. solve_decision. Defined.
#[export] Instance LogEntry_eq_dec : EqDecision LogEntry.
Proof. solve_decision. Defined.
#[export] Instance Op_eq_dec : EqDecision Op.
Proof. solve_decision. Defined.
