(* ===== verification/Raft.v ===== *)
(** * Raft: the operations of a raft node ([raft/raftCore/raft.cpp])

    Every handler is a computation of [M (Raft P)]: the code it runs under
    [m_mtx], with its early returns, its [myAssert]s (which end the process),
    its vector accesses, the calls to the persister and the closures it hands
    to [m_ioManager].  [now] is the clock reading.  An RPC is one synchronous
    call: its outcome, [None] when [m_peers[i]->...] returned false, is an
    argument of the code that runs after it. *)

From S2P Require Import Prelude.
From S2P Require Import Persister.
From S2P Require Import RaftTypes.

Section raft.
Context {P : Type} `{PersisterOps P} `{RaftArchive}.
Implicit Types s : Raft P.

Abbreviation MR := (M (Raft P)).

(** ** Log access *)

Definition getLastLogIndexAndTerm s : Z * Z :=
  match last (m_logs s) with
  | None => (m_lastSnapshotIncludeIndex s, m_lastSnapshotIncludeTerm s)
  | Some e => (logindex e, logterm e)
  end.

Definition getLastLogIndex s : Z := (getLastLogIndexAndTerm s).1.

Definition getLastLogTerm s : Z := (getLastLogIndexAndTerm s).2.

Definition getNewCommandIndex s : Z := getLastLogIndex s + 1.

Definition UpToDate (index term : Z) s : bool :=
  let '(lastIndex, lastTerm) := getLastLogIndexAndTerm s in
  (lastTerm <? term) || ((term =? lastTerm) && (lastIndex <=? index)).

Definition getSlicesIndexFromLogIndex (logIndex : Z) : MR Z :=
  s ← gets id;
  assert_that (m_lastSnapshotIncludeIndex s <? logIndex) ;;
  assert_that (logIndex <=? getLastLogIndex s) ;;
  mret (logIndex - m_lastSnapshotIncludeIndex s - 1).

(** [m_logs[getSlicesIndexFromLogIndex(logIndex)]] *)
Definition log_at (logIndex : Z) : MR LogEntry :=
  i ← getSlicesIndexFromLogIndex logIndex;
  s ← gets id;
  vec_at (m_logs s) i.

Definition getLogTermFromLogIndex (logIndex : Z) : MR Z :=
  s ← gets id;
  assert_that (m_lastSnapshotIncludeIndex s <=? logIndex) ;;
  assert_that (logIndex <=? getLastLogIndex s) ;;
  if logIndex =? m_lastSnapshotIncludeIndex s then mret (m_lastSnapshotIncludeTerm s)
  else e ← log_at logIndex; mret (logterm e).

Definition matchLog (logIndex logTerm : Z) : MR bool :=
  s ← gets id;
  assert_that ((m_lastSnapshotIncludeIndex s <=? logIndex) && (logIndex <=? getLastLogIndex s)) ;;
  t ← getLogTermFromLogIndex logIndex;
  mret (logTerm =? t).

Definition getPrevLogInfo (server : nat) : MR (Z * Z) :=
  s ← gets id;
  nextIndex ← vec_at (m_nextIndex s) (Z.of_nat server);
  if nextIndex =? m_lastSnapshotIncludeIndex s + 1 then
    mret (m_lastSnapshotIncludeIndex s, m_lastSnapshotIncludeTerm s)
  else
    let preIndex := nextIndex - 1 in
    e ← log_at preIndex;
    mret (preIndex, logterm e).

(** ** Persistence *)

Definition persistNode s : BoostPersistRaftNode :=
  mkBoostPersistRaftNode (m_currentTerm s) (m_votedFor s) (m_lastSnapshotIncludeIndex s)
    (m_lastSnapshotIncludeTerm s) (map SerializeAsString (m_logs s)).

Definition persistData s : string := text_oarchive (persistNode s).

(** [persist()] tests [m_persister] and only logs when it is null. *)
Definition persist : MR unit :=
  s ← gets id;
  match m_persister s with
  | Some p => modify (set_m_persister (Some (p_SaveRaftState (persistData s) p)))
  | None => mret tt
  end.

(** [m_persister->Save(persistData(), snapshot)] *)
Definition persister_Save (snapshot : string) : MR unit :=
  s ← gets id;
  match m_persister s with
  | Some p => modify (set_m_persister (Some (p_Save (persistData s) snapshot p)))
  | None => fail BadPointer
  end.

(** [m_persister->ReadSnapshot()] *)
Definition persister_ReadSnapshot : MR string :=
  s ← gets id;
  match m_persister s with
  | Some p =>
      let '(snap, p') := p_ReadSnapshot p in
      modify (set_m_persister (Some p')) ;; mret snap
  | None => fail BadPointer
  end.

Definition GetRaftStateSize : MR Z :=
  s ← gets id;
  match m_persister s with Some p => mret (p_RaftStateSize p) | None => fail BadPointer end.

Definition readPersist (data : string) : MR unit :=
  if decide (data = "") then mret tt else
  match text_iarchive data with
  | None => fail OutOfRange
  | Some b =>
      modify (set_m_currentTerm (b_currentTerm b)) ;;
      modify (set_m_votedFor (b_votedFor b)) ;;
      modify (set_m_lastSnapshotIncludeIndex (b_lastSnapshotIncludeIndex b)) ;;
      modify (set_m_lastSnapshotIncludeTerm (b_lastSnapshotIncludeTerm b)) ;;
      modify (set_m_logs (map ParseFromString (b_logs b)))
  end.

(** ** The closures handed to the IO manager, and [shared_ptr<int>] *)

Definition schedule (t : task) : MR unit :=
  modify (λ s, set_m_ioManager (m_ioManager s ++ [t]) s).

Definition make_shared_int (v : Z) : MR nat :=
  s ← gets id;
  modify (set_shared_ints (shared_ints s ++ [v])) ;; mret (length (shared_ints s)).

Definition shared_get (p : nat) : MR Z :=
  s ← gets id;
  match shared_ints s !! p with Some v => mret v | None => fail BadPointer end.

Definition shared_set (p : nat) (v : Z) : MR unit :=
  modify (λ s, set_shared_ints (<[p := v]> (shared_ints s)) s).

Definition set_nextIndex_at (server : nat) (v : Z) : MR unit :=
  s ← gets id;
  l ← vec_set (m_nextIndex s) (Z.of_nat server) v;
  modify (set_m_nextIndex l).

Definition set_matchIndex_at (server : nat) (v : Z) : MR unit :=
  s ← gets id;
  l ← vec_set (m_matchIndex s) (Z.of_nat server) v;
  modify (set_m_matchIndex l).

(** The three assignments on discovering a newer term ("三变"). *)
Definition become_follower (term : Z) : MR unit :=
  modify (set_m_status Follower) ;;
  modify (set_m_currentTerm term) ;;
  modify (set_m_votedFor (-1)).

(** ** AppendEntries *)

(** The body of the loop over [args->entries()]. *)
Definition AppendEntries_entry (log : LogEntry) : MR unit :=
  s ← gets id;
  if getLastLogIndex s <? logindex log then
    modify (set_m_logs (m_logs s ++ [log]))
  else
    e ← log_at (logindex log);
    (if (logterm e =? logterm log) && negb (String.eqb (command e) (command log))
     then assert_that false else mret tt) ;;
    if negb (logterm e =? logterm log) then
      i ← getSlicesIndexFromLogIndex (logindex log);
      l ← vec_set (m_logs s) i log;
      modify (set_m_logs l)
    else mret tt.

(** The loop that walks back from [prevlogindex] over the entries of the
    conflicting term: the index it leaves [updatenextindex] at. *)
Definition AppendEntries_backtrack_step (prev index : Z) : MR (option Z) :=
  t ← getLogTermFromLogIndex index;
  tp ← getLogTermFromLogIndex prev;
  mret (if negb (t =? tp) then Some (index + 1) else None).

Definition AppendEntries_backtrack (prev : Z) : MR Z :=
  s ← gets id;
  r ← for_until (zdown prev (Z.to_nat (prev - m_lastSnapshotIncludeIndex s + 1)))
        (AppendEntries_backtrack_step prev);
  mret (default prev r).

(** The comparison of the logs, once the terms are equal and the timer reset. *)
Definition AppendEntries_log (args : AppendEntriesArgs) (reply : AppendEntriesReply)
    : MR AppendEntriesReply :=
  s ← gets id;
  if getLastLogIndex s <? ae_prevlogindex args then
    mret (mkAppendEntriesReply (m_currentTerm s) false (getLastLogIndex s + 1) (aer_appstate reply))
  else
    (* no return in the branch [prevlogindex < m_lastSnapshotIncludeIndex] *)
    let reply :=
      if ae_prevlogindex args <? m_lastSnapshotIncludeIndex s then
        mkAppendEntriesReply (m_currentTerm s) false (m_lastSnapshotIncludeIndex s + 1)
          (aer_appstate reply)
      else reply in
    b ← matchLog (ae_prevlogindex args) (ae_prevlogterm args);
    if b : bool then
      for_each (ae_entries args) AppendEntries_entry ;;
      s ← gets id;
      assert_that (ae_prevlogindex args + Z.of_nat (length (ae_entries args)) <=? getLastLogIndex s) ;;
      (if m_commitIndex s <? ae_leadercommit args then
         modify (set_m_commitIndex (Z.min (ae_leadercommit args) (getLastLogIndex s)))
       else mret tt) ;;
      s ← gets id;
      assert_that (m_commitIndex s <=? getLastLogIndex s) ;;
      mret (mkAppendEntriesReply (m_currentTerm s) true (aer_updatenextindex reply)
              (aer_appstate reply))
    else
      next ← AppendEntries_backtrack (ae_prevlogindex args);
      s ← gets id;
      mret (mkAppendEntriesReply (m_currentTerm s) false next (aer_appstate reply)).

(** What follows the rejection of an old term; [persist] is deferred. *)
Definition AppendEntries_body (now : Z) (args : AppendEntriesArgs) (reply : AppendEntriesReply)
    : MR AppendEntriesReply :=
  s ← gets id;
  (if m_currentTerm s <? ae_term args then become_follower (ae_term args) else mret tt) ;;
  s ← gets id;
  assert_that (ae_term args =? m_currentTerm s) ;;
  modify (set_m_status Follower) ;;
  modify (set_m_lastResetElectionTime now) ;;
  AppendEntries_log args reply.

Definition AppendEntries (now : Z) (args : AppendEntriesArgs) : MR AppendEntriesReply :=
  let reply := mkAppendEntriesReply 0 false 0 AppNormal in
  s ← gets id;
  if ae_term args <? m_currentTerm s then
    mret (mkAppendEntriesReply (m_currentTerm s) false (-100) (aer_appstate reply))
  else
    reply ← AppendEntries_body now args reply;
    persist ;;
    mret reply.

(** ** RequestVote *)

Definition RequestVote_body (now : Z) (args : RequestVoteArgs) : MR RequestVoteReply :=
  s ← gets id;
  if rv_term args <? m_currentTerm s then
    mret (mkRequestVoteReply (m_currentTerm s) false Expire)
  else
    (if m_currentTerm s <? rv_term args then become_follower (rv_term args) else mret tt) ;;
    s ← gets id;
    assert_that (rv_term args =? m_currentTerm s) ;;
    if negb (UpToDate (rv_lastlogindex args) (rv_lastlogterm args) s) then
      mret (mkRequestVoteReply (m_currentTerm s) false Voted)
    else if negb (m_votedFor s =? -1) && negb (m_votedFor s =? rv_candidateid args) then
      mret (mkRequestVoteReply (m_currentTerm s) false Voted)
    else
      modify (set_m_votedFor (rv_candidateid args)) ;;
      modify (set_m_lastResetElectionTime now) ;;
      mret (mkRequestVoteReply (m_currentTerm s) true Normal).

Definition RequestVote (now : Z) (args : RequestVoteArgs) : MR RequestVoteReply :=
  reply ← RequestVote_body now args;
  persist ;;
  mret reply.

(** ** InstallSnapshot *)

Definition CondInstallSnapshot (lastIncludedTerm lastIncludedIndex : Z) (snapshot : string) : bool :=
  true.

Definition InstallSnapshot (now : Z) (args : InstallSnapshotRequest) : MR InstallSnapshotResponse :=
  s ← gets id;
  if is_term args <? m_currentTerm s then mret (mkInstallSnapshotResponse (m_currentTerm s))
  else
    (if m_currentTerm s <? is_term args then
       modify (set_m_currentTerm (is_term args)) ;;
       modify (set_m_votedFor (-1)) ;;
       modify (set_m_status Follower) ;;
       persist
     else mret tt) ;;
    modify (set_m_status Follower) ;;
    modify (set_m_lastResetElectionTime now) ;;
    s ← gets id;
    let last := is_lastsnapshotincludeindex args in
    if last <=? m_lastSnapshotIncludeIndex s then mret (mkInstallSnapshotResponse 0)
    else
      (if last <? getLastLogIndex s then
         i ← getSlicesIndexFromLogIndex last;
         modify (set_m_logs (drop (Z.to_nat (i + 1)) (m_logs s)))
       else modify (set_m_logs [])) ;;
      modify (λ s, set_m_commitIndex (Z.max (m_commitIndex s) last) s) ;;
      modify (λ s, set_m_lastApplied (Z.max (m_lastApplied s) last) s) ;;
      modify (set_m_lastSnapshotIncludeIndex last) ;;
      modify (set_m_lastSnapshotIncludeTerm (is_lastsnapshotincludeterm args)) ;;
      s ← gets id;
      schedule (TPushMsgToKvServer
        (mkApplyMsg (CommandValid default_ApplyMsg) (Command default_ApplyMsg)
           (CommandIndex default_ApplyMsg) true (is_data args)
           (is_lastsnapshotincludeterm args) last)) ;;
      persister_Save (is_data args) ;;
      mret (mkInstallSnapshotResponse (m_currentTerm s)).

(** ** Elections *)

(** [for (i = 0; i < n; i++) v[i] = x;] *)
Definition vec_fill (n : nat) (x : Z) (l : list Z) : MR (list Z) :=
  if (n <=? length l)%nat then mret (replicate n x ++ drop n l) else fail BadIndex.

(** The loops that set [m_nextIndex] and [m_matchIndex] of a new leader. *)
Definition init_leader_indexes (n : nat) : MR unit :=
  s ← gets id;
  let lastLogIndex := getLastLogIndex s in
  next ← vec_fill n (lastLogIndex + 1) (m_nextIndex s);
  modify (set_m_nextIndex next) ;;
  mtch ← vec_fill n 0 (m_matchIndex s);
  modify (set_m_matchIndex mtch).

Definition doElection_request (votedNum : nat) (i : nat) : MR unit :=
  s ← gets id;
  if (i =? m_me s)%nat then mret tt
  else
    let '(lastLogIndex, lastLogTerm) := getLastLogIndexAndTerm s in
    schedule (TSendRequestVote i
      (mkRequestVoteArgs (m_currentTerm s) (Z.of_nat (m_me s)) lastLogIndex lastLogTerm) votedNum).

Definition doElection (now : Z) : MR unit :=
  s ← gets id;
  if decide (m_status s = Leader) then mret tt
  else
    modify (set_m_status Candidate) ;;
    modify (set_m_currentTerm (m_currentTerm s + 1)) ;;
    modify (set_m_votedFor (Z.of_nat (m_me s))) ;;
    persist ;;
    votedNum ← make_shared_int 1;
    modify (set_m_lastResetElectionTime now) ;;
    if (m_peers s =? 1)%nat then
      modify (set_m_status Leader) ;;
      init_leader_indexes (m_peers s) ;;
      schedule TDoHeartBeat ;;
      persist
    else
      for_each (seq 0 (m_peers s)) (doElection_request votedNum).

Definition sendRequestVote (rpc : option RequestVoteReply) (server : nat) (args : RequestVoteArgs)
    (votedNum : nat) : MR bool :=
  match rpc with
  | None => mret false
  | Some reply =>
      s ← gets id;
      if m_currentTerm s <? rvr_term reply then
        become_follower (rvr_term reply) ;; persist ;; mret true
      else if rvr_term reply <? m_currentTerm s then mret true
      else
        assert_that (rvr_term reply =? m_currentTerm s) ;;
        if negb (rvr_votegranted reply) then mret true
        else
          n ← shared_get votedNum;
          shared_set votedNum (n + 1) ;;
          if Z.of_nat (m_peers s / 2 + 1) <=? n + 1 then
            shared_set votedNum 0 ;;
            (if decide (m_status s = Leader) then assert_that false else mret tt) ;;
            modify (set_m_status Leader) ;;
            init_leader_indexes (length (m_nextIndex s)) ;;
            schedule TDoHeartBeat ;;
            persist ;;
            mret true
          else mret true
  end.

(** ** Replication *)

(** The body of the loop of [doHeartBeat] for the peer [i]. *)
Definition doHeartBeat_peer (appendNums : nat) (i : nat) : MR unit :=
  s ← gets id;
  if (i =? m_me s)%nat then mret tt
  else
    next ← vec_at (m_nextIndex s) (Z.of_nat i);
    assert_that (1 <=? next) ;;
    if next <=? m_lastSnapshotIncludeIndex s then schedule (TLeaderSendSnapShot i)
    else
      pre ← getPrevLogInfo i;
      let '(preLogIndex, PrevLogTerm) := pre : Z * Z in
      entries ← (if negb (preLogIndex =? m_lastSnapshotIncludeIndex s) then
                   j ← getSlicesIndexFromLogIndex preLogIndex;
                   mret (drop (Z.to_nat (j + 1)) (m_logs s))
                 else mret (m_logs s));
      assert_that (preLogIndex + Z.of_nat (length entries) =? getLastLogIndex s) ;;
      schedule (TSendAppendEntries i
        (mkAppendEntriesArgs (m_currentTerm s) (Z.of_nat (m_me s)) preLogIndex PrevLogTerm entries
           (m_commitIndex s)) appendNums).

Definition doHeartBeat (now : Z) : MR unit :=
  s ← gets id;
  if decide (m_status s = Leader) then
    appendNums ← make_shared_int 1;
    for_each (seq 0 (m_peers s)) (doHeartBeat_peer appendNums) ;;
    modify (set_m_lastResetHearBeatTime now)
  else mret tt.

Definition sendAppendEntries (rpc : option AppendEntriesReply) (server : nat)
    (args : AppendEntriesArgs) (appendNums : nat) : MR bool :=
  match rpc with
  | None => mret false
  | Some reply =>
    if aer_appstate reply =? Disconnected then mret true else
    s ← gets id;
    if m_currentTerm s <? aer_term reply then
      (* no persist() here *)
      become_follower (aer_term reply) ;; mret true
    else if aer_term reply <? m_currentTerm s then mret true
    else if negb (bool_decide (m_status s = Leader)) then mret true
    else
      assert_that (aer_term reply =? m_currentTerm s) ;;
      if negb (aer_success reply) then
        (if negb (aer_updatenextindex reply =? -100) then
           set_nextIndex_at server (aer_updatenextindex reply)
         else mret tt) ;;
        mret true
      else
        let sent := ae_prevlogindex args + Z.of_nat (length (ae_entries args)) in
        n ← shared_get appendNums;
        shared_set appendNums (n + 1) ;;
        old ← vec_at (m_matchIndex s) (Z.of_nat server);
        let mtch := Z.max old sent in
        set_matchIndex_at server mtch ;;
        set_nextIndex_at server (mtch + 1) ;;
        let lastLogIndex := getLastLogIndex s in
        assert_that (mtch + 1 <=? lastLogIndex + 1) ;;
        if Z.of_nat (1 + m_peers s / 2) <=? n + 1 then
          shared_set appendNums 0 ;;
          (match last (ae_entries args) with
           | Some e =>
               if logterm e =? m_currentTerm s then
                 modify (set_m_commitIndex (Z.max (m_commitIndex s) sent))
               else mret tt
           | None => mret tt
           end) ;;
          s ← gets id;
          assert_that (m_commitIndex s <=? lastLogIndex) ;;
          mret true
        else mret true
  end.

(** [leaderSendSnapShot], first critical section: the request. *)
Definition leaderSendSnapShot_args : MR InstallSnapshotRequest :=
  s ← gets id;
  data ← persister_ReadSnapshot;
  mret (mkInstallSnapshotRequest (Z.of_nat (m_me s)) (m_currentTerm s)
          (m_lastSnapshotIncludeIndex s) (m_lastSnapshotIncludeTerm s) data).

(** [leaderSendSnapShot], after the RPC. *)
Definition leaderSendSnapShot_reply (now : Z) (rpc : option InstallSnapshotResponse) (server : nat)
    (args : InstallSnapshotRequest) : MR unit :=
  match rpc with
  | None => mret tt
  | Some reply =>
      s ← gets id;
      if negb (bool_decide (m_status s = Leader)) || negb (m_currentTerm s =? is_term args) then mret tt
      else if m_currentTerm s <? isr_term reply then
        modify (set_m_currentTerm (isr_term reply)) ;;
        modify (set_m_votedFor (-1)) ;;
        modify (set_m_status Follower) ;;
        persist ;;
        modify (set_m_lastResetElectionTime now)
      else
        set_matchIndex_at server (is_lastsnapshotincludeindex args) ;;
        set_nextIndex_at server (is_lastsnapshotincludeindex args + 1)
  end.

(** The replicas the loop of [leaderUpdateCommitIndex] counts for [index]. *)
Definition count_replicas (index : Z) (i : nat) (sum : Z) : MR Z :=
  s ← gets id;
  if (i =? m_me s)%nat then mret (sum + 1)
  else
    m ← vec_at (m_matchIndex s) (Z.of_nat i);
    mret (if index <=? m then sum + 1 else sum).

Fixpoint sum_replicas (index : Z) (l : list nat) (sum : Z) : MR Z :=
  match l with
  | [] => mret sum
  | i :: l' => sum ← count_replicas index i sum; sum_replicas index l' sum
  end.

Definition leaderUpdateCommitIndex : MR unit :=
  s ← gets id;
  let snap := m_lastSnapshotIncludeIndex s in
  modify (set_m_commitIndex snap) ;;
  let last := getLastLogIndex s in
  r ← for_until (zdown last (Z.to_nat (last - snap)))
        (λ index,
           sum ← sum_replicas index (seq 0 (m_peers s)) 0;
           (* [&&]: the term is read only when the sum is a majority *)
           if Z.of_nat (m_peers s / 2 + 1) <=? sum then
             t ← getLogTermFromLogIndex index;
             mret (if t =? m_currentTerm s then Some index else None)
           else mret None);
  match r with
  | Some index => modify (set_m_commitIndex index)
  | None => mret tt
  end.

Definition Start (cmd : Op) : MR (Z * Z * bool) :=
  s ← gets id;
  if negb (bool_decide (m_status s = Leader)) then mret (-1, -1, false)
  else
    let newLogEntry := mkLogEntry (Op_asString cmd) (m_currentTerm s) (getNewCommandIndex s) in
    modify (set_m_logs (m_logs s ++ [newLogEntry])) ;;
    persist ;;
    leaderUpdateCommitIndex ;;
    mret (logindex newLogEntry, logterm newLogEntry, true).

(** ** Applying, snapshots *)

(** One turn of the [while] of [getApplyLogs]. *)
Definition getApplyLogs_next : MR ApplyMsg :=
  modify (λ s, set_m_lastApplied (m_lastApplied s + 1) s) ;;
  s ← gets id;
  e ← log_at (m_lastApplied s);
  assert_that (logindex e =? m_lastApplied s) ;;
  mret (mkApplyMsg true (command e) (m_lastApplied s) false (Snapshot_data default_ApplyMsg)
          (SnapshotTerm default_ApplyMsg) (SnapshotIndex default_ApplyMsg)).

(** The [while] runs exactly [m_commitIndex - m_lastApplied] times. *)
Fixpoint getApplyLogs_loop (n : nat) : MR (list ApplyMsg) :=
  match n with
  | O => mret []
  | S n' => msg ← getApplyLogs_next; msgs ← getApplyLogs_loop n'; mret (msg :: msgs)
  end.

Definition getApplyLogs : MR (list ApplyMsg) :=
  s ← gets id;
  assert_that (m_commitIndex s <=? getLastLogIndex s) ;;
  getApplyLogs_loop (Z.to_nat (m_commitIndex s - m_lastApplied s)).

Definition pushMsgToKvServer (msg : ApplyMsg) : MR unit :=
  modify (λ s, set_applyChan (applyChan s ++ [msg]) s).

(** One turn of [applierTicker]. *)
Definition applierTicker_turn : MR unit :=
  applyMsgs ← getApplyLogs;
  for_each applyMsgs pushMsgToKvServer.

(** The entries [Snapshot] keeps: those of index [index+1 .. getLastLogIndex()]. *)
Fixpoint Snapshot_trunckedLogs (i : Z) (n : nat) : MR (list LogEntry) :=
  match n with
  | O => mret []
  | S n' => e ← log_at i; l ← Snapshot_trunckedLogs (i + 1) n'; mret (e :: l)
  end.

Definition Snapshot (index : Z) (snapshot : string) : MR unit :=
  s ← gets id;
  if (index <=? m_lastSnapshotIncludeIndex s) || (m_commitIndex s <? index) then mret tt
  else
    let lastLogIndex := getLastLogIndex s in
    e ← log_at index;
    trunckedLogs ← Snapshot_trunckedLogs (index + 1) (Z.to_nat (lastLogIndex - index));
    modify (set_m_lastSnapshotIncludeIndex index) ;;
    modify (set_m_lastSnapshotIncludeTerm (logterm e)) ;;
    modify (set_m_logs trunckedLogs) ;;
    modify (λ s, set_m_commitIndex (Z.max (m_commitIndex s) index) s) ;;
    modify (λ s, set_m_lastApplied (Z.max (m_lastApplied s) index) s) ;;
    persister_Save snapshot ;;
    s ← gets id;
    assert_that (Z.of_nat (length (m_logs s)) + m_lastSnapshotIncludeIndex s =? lastLogIndex).

Definition GetState s : Z * bool := (m_currentTerm s, bool_decide (m_status s = Leader)).

(** ** Tickers and construction *)

(** [electionTimeOutTicker], before the sleep: how long to sleep (no sleep for
    less than a millisecond); [timeout] is [getRandomizedElectionTimeout()]. *)
Definition electionTimeOutTicker_sleep (timeout wakeTime : Z) s : Z :=
  let suitableSleepTime := timeout + m_lastResetElectionTime s - wakeTime in
  if ms <? suitableSleepTime then suitableSleepTime else 0.

(** ... and after it. *)
Definition electionTimeOutTicker_wake (wakeTime now : Z) : MR unit :=
  s ← gets id;
  if wakeTime <? m_lastResetElectionTime s then mret tt else doElection now.

Definition leaderHearBeatTicker_sleep (wakeTime : Z) s : Z :=
  let suitableSleepTime := HeartBeatTimeout * ms + m_lastResetHearBeatTime s - wakeTime in
  if ms <? suitableSleepTime then suitableSleepTime else 0.

Definition leaderHearBeatTicker_wake (wakeTime now : Z) : MR unit :=
  s ← gets id;
  if wakeTime <? m_lastResetHearBeatTime s then mret tt else doHeartBeat now.

(** [init] on a default-constructed object with empty index vectors. *)
Definition init_body (p : P) : MR unit :=
  readPersist (p_ReadRaftState p) ;;
  s ← gets id;
  (if 0 <? m_lastSnapshotIncludeIndex s then
     modify (set_m_lastApplied (m_lastSnapshotIncludeIndex s))
   else mret tt) ;;
  schedule TLeaderHearBeatTicker ;;
  schedule TElectionTimeOutTicker ;;
  schedule TApplierTicker.

Definition fresh (peers me : nat) (p : P) (now : Z) : Raft P :=
  mkRaft peers (Some p) me 0 (-1) [] 0 0 (replicate peers 0) (replicate peers 0) Follower []
    now now 0 0 [] [].

Definition init (peers me : nat) (p : P) (now : Z) : result (Raft P) :=
  match init_body p (fresh peers me p now) with
  | Ok (_, s) => Ok s
  | Fail f => Fail f
  end.

End raft.
