(* ===== verification/RaftFacts.v ===== *)
(** * RaftFacts: the log of a raft node and the handlers that read and write it

    The well-formedness invariant of a node, the abstract view of its log (an
    entry per index above the snapshot), and what [AppendEntries] does on every
    branch, the ones that end the process included. *)

From S2P Require Import Prelude.
From S2P Require Import Persister.
From S2P Require Import RaftTypes.
From S2P Require Import Raft.

(** ** Definitions *)

(** The entries [l] have the consecutive indexes [base + 1], [base + 2], ... *)
Definition contiguous (base : Z) (l : list LogEntry) : Prop :=
  ∀ i e, l !! i = Some e → logindex e = base + Z.of_nat i + 1.

Section defs.
Context {P : Type}.
Implicit Types s : Raft P.

(** What a node keeps true of itself. *)
Record node_wf s : Prop := {
  wf_log : contiguous (m_lastSnapshotIncludeIndex s) (m_logs s);
  wf_snap : 0 <= m_lastSnapshotIncludeIndex s;
  wf_commit : 0 <= m_commitIndex s <=
              m_lastSnapshotIncludeIndex s + Z.of_nat (length (m_logs s));
  wf_applied : m_lastSnapshotIncludeIndex s <= m_lastApplied s <=
               m_lastSnapshotIncludeIndex s + Z.of_nat (length (m_logs s));
  wf_next : length (m_nextIndex s) = m_peers s;
  wf_match : length (m_matchIndex s) = m_peers s;
  wf_me : (m_me s < m_peers s)%nat
}.

(** Only the log matters to the readers. *)
Definition log_wf s : Prop := contiguous (m_lastSnapshotIncludeIndex s) (m_logs s).

(** The abstract log: the entry at an index, and its term; the snapshot stands
    for every index up to its own, whose term is known. *)
Definition entry_at s (i : Z) : option LogEntry :=
  if m_lastSnapshotIncludeIndex s <? i then
    m_logs s !! Z.to_nat (i - m_lastSnapshotIncludeIndex s - 1)
  else None.

Definition term_at s (i : Z) : option Z :=
  if i =? m_lastSnapshotIncludeIndex s then Some (m_lastSnapshotIncludeTerm s)
  else logterm <$> entry_at s i.

(** An entry of a message that has the term of the node's own entry of that
    index but another command. *)
Definition conflict s (e : LogEntry) : Prop :=
  ∃ e', entry_at s (logindex e) = Some e' ∧ logterm e' = logterm e ∧ command e' ≠ command e.

(** The log [l] overwritten from position [k] on by [es]. *)
Definition overlay (k : nat) (es l : list LogEntry) : list LogEntry :=
  take k l ++ es ++ drop (k + length es) l.

(** The log of [s'] is that of [s], except that the indexes of [es] hold [es]. *)
Definition overwritten s s' (es : list LogEntry) : Prop :=
  m_lastSnapshotIncludeIndex s' = m_lastSnapshotIncludeIndex s ∧
  m_lastSnapshotIncludeTerm s' = m_lastSnapshotIncludeTerm s ∧
  ∀ i, entry_at s' i =
    match list_find (λ e, logindex e = i) es with
    | Some (_, e) => Some e
    | None => entry_at s i
    end.

(** [n] is where the conflicting term starts: every entry of [[n, prev]] has
    the term of [prev] and [n - 1] has not; [n] is [prev] when the walk reaches
    the snapshot. *)
Definition backtracked s (prev n : Z) : Prop :=
  (m_lastSnapshotIncludeIndex s < n <= prev ∧ term_at s (n - 1) ≠ term_at s prev ∧
    ∀ j, n <= j <= prev → term_at s j = term_at s prev) ∨
  (n = prev ∧ ∀ j, m_lastSnapshotIncludeIndex s <= j <= prev → term_at s j = term_at s prev).

(** What a handler does on receiving a message of the term [term >= m_currentTerm]. *)
Definition adopt (now term : Z) s : Raft P :=
  set_m_lastResetElectionTime now (set_m_status Follower
    (if m_currentTerm s <? term
     then set_m_votedFor (-1) (set_m_currentTerm term (set_m_status Follower s))
     else s)).

End defs.

#[global] Arguments adopt : simpl never.

(** The persister holds the current persistent state of the node. *)
Definition persisted {P} `{PersisterOps P} `{RaftArchive} (s : Raft P) : Prop :=
  match m_persister s with Some p => p_written p = persistData s | None => True end.

#[export] Instance conflict_dec {P} (s : Raft P) e : Decision (conflict s e).
Proof.
  unfold conflict. destruct (entry_at s (logindex e)) as [e'|]; [|right; naive_solver].
  destruct (decide (logterm e' = logterm e ∧ command e' ≠ command e)) as [D|D];
    [left|right]; naive_solver.
Defined.

(** ** Lists of entries *)

Lemma contiguous_nil base : contiguous base [].
Proof. by intros i e. Qed.

Lemma contiguous_cons base e l :
  contiguous base (e :: l) ↔ logindex e = base + 1 ∧ contiguous (base + 1) l.
Proof.
  split.
  - intros Hc. split; [by rewrite (Hc 0%nat e); [lia|]|].
    intros i e' Hi. rewrite (Hc (S i) e') by done. lia.
  - intros [He Hc] [|i] e' Hi; simplify_eq/=; [lia|].
    rewrite (Hc i e') by done. lia.
Qed.

Lemma contiguous_app base l l' :
  contiguous base (l ++ l') ↔
  contiguous base l ∧ contiguous (base + Z.of_nat (length l)) l'.
Proof.
  revert base. induction l as [|e l IH]; intros base; simpl.
  - rewrite Z.add_0_r. split; [intros ?; split; [apply contiguous_nil|done]|by intros [_ ?]].
  - rewrite !contiguous_cons, IH.
    replace (base + 1 + Z.of_nat (length l)) with (base + Z.of_nat (S (length l))) by lia.
    naive_solver.
Qed.

Lemma contiguous_take base l k : contiguous base l → contiguous base (take k l).
Proof. intros Hc i e [Hi ?]%lookup_take_Some. by apply Hc. Qed.

Lemma contiguous_drop base l k :
  (k ≤ length l)%nat → contiguous base l → contiguous (base + Z.of_nat k) (drop k l).
Proof.
  intros Hk Hc i e Hi. rewrite lookup_drop in Hi. rewrite (Hc _ _ Hi). lia.
Qed.

Lemma contiguous_snoc base l e :
  contiguous base l → logindex e = base + Z.of_nat (length l) + 1 → contiguous base (l ++ [e]).
Proof.
  intros Hl He. apply contiguous_app. split; [done|].
  apply contiguous_cons. split; [lia|]. apply contiguous_nil.
Qed.

Lemma contiguous_last base l :
  contiguous base l → logindex <$> last l = match l with [] => None | _ => Some (base + Z.of_nat (length l)) end.
Proof.
  intros Hc. destruct l as [|e0 l0]; [done|]. set (l := e0 :: l0) in *.
  destruct (last l) as [e|] eqn:He; [|by apply last_None in He].
  apply lookup_last_len in He. simpl. rewrite (Hc _ _ He). f_equal. simpl. lia.
Qed.

Lemma overlay_nil k l : (k ≤ length l)%nat → overlay k [] l = l.
Proof. intros. unfold overlay. simpl. rewrite Nat.add_0_r. apply take_drop. Qed.

Lemma length_overlay k es l :
  (k ≤ length l)%nat → length (overlay k es l) = (length l `max` (k + length es))%nat.
Proof. intros. unfold overlay. rewrite !length_app, length_take, length_drop. lia. Qed.

Lemma overlay_cons_app l e es :
  overlay (length l) (e :: es) l = overlay (S (length l)) es (l ++ [e]).
Proof.
  unfold overlay. rewrite !take_ge, !drop_ge; rewrite ?length_app; simpl; try lia.
  by rewrite !app_nil_r, <- app_assoc.
Qed.

Lemma overlay_cons_insert k e es l :
  (k < length l)%nat → overlay k (e :: es) l = overlay (S k) es (<[k := e]> l).
Proof.
  intros Hk. unfold overlay.
  rewrite insert_take_drop by done.
  rewrite take_app_ge by (rewrite length_take; lia).
  rewrite length_take, drop_app_ge by (rewrite length_take; lia).
  rewrite length_take. replace (S k - k `min` length l)%nat with 1%nat by lia.
  replace (S k + length es - k `min` length l)%nat with (S (length es)) by lia.
  simpl. rewrite take_0, drop_drop, <- app_assoc. simpl.
  by rewrite Nat.add_succ_r.
Qed.

Lemma contiguous_overlay base k es l :
  (k ≤ length l)%nat → contiguous base l → contiguous (base + Z.of_nat k) es →
  contiguous base (overlay k es l).
Proof.
  intros Hk Hl Hes. unfold overlay. apply contiguous_app. split; [by apply contiguous_take|].
  rewrite length_take_le by done. rewrite contiguous_app. split; [done|].
  intros i e Hi. rewrite lookup_drop in Hi. rewrite (Hl _ _ Hi). lia.
Qed.

(** ** Reading the log of a well-formed node *)

Section reading.
Context {P : Type} `{PersisterOps P} `{RaftArchive}.
Implicit Types s : Raft P.

Lemma getLastLogIndex_wf s :
  log_wf s → getLastLogIndex s = m_lastSnapshotIncludeIndex s + Z.of_nat (length (m_logs s)).
Proof.
  intros Hc%contiguous_last. unfold getLastLogIndex, getLastLogIndexAndTerm.
  destruct (last (m_logs s)) eqn:E; simpl in *; destruct (m_logs s); simplify_eq/=; lia.
Qed.

Lemma entry_at_Some s i e :
  log_wf s → entry_at s i = Some e →
  m_lastSnapshotIncludeIndex s < i <= getLastLogIndex s ∧ logindex e = i.
Proof.
  intros Hc He. rewrite getLastLogIndex_wf by done. unfold entry_at in He.
  destruct (_ <? _) eqn:?; [|done]. zify_bool.
  pose proof (lookup_lt_Some _ _ _ He). rewrite (Hc _ _ He). lia.
Qed.

Lemma entry_at_is_Some s i :
  log_wf s → m_lastSnapshotIncludeIndex s < i <= getLastLogIndex s → is_Some (entry_at s i).
Proof.
  intros Hc Hi. rewrite getLastLogIndex_wf in Hi by done. unfold entry_at.
  replace (m_lastSnapshotIncludeIndex s <? i) with true by (symmetry; apply Z.ltb_lt; lia).
  apply lookup_lt_is_Some. lia.
Qed.

Lemma slices_Ok s i :
  m_lastSnapshotIncludeIndex s < i <= getLastLogIndex s →
  getSlicesIndexFromLogIndex i s = Ok (i - m_lastSnapshotIncludeIndex s - 1, s).
Proof.
  intros. unfold getSlicesIndexFromLogIndex. mrun.
  rewrite !(proj2 (Z.ltb_lt _ _)), !(proj2 (Z.leb_le _ _)) by lia. done.
Qed.

Lemma log_at_Ok s i e :
  log_wf s → entry_at s i = Some e → log_at i s = Ok (e, s).
Proof.
  intros Hc He. destruct (entry_at_Some _ _ _ Hc He) as [Hi _].
  unfold log_at. unfold mbind, M_bind. rewrite slices_Ok by done. simpl.
  unfold vec_at, entry_at in *. rewrite (proj2 (Z.ltb_lt _ _)) in He by lia.
  by rewrite (proj2 (Z.leb_le _ _)), He by lia.
Qed.

Lemma slices_inv s i r s' :
  getSlicesIndexFromLogIndex i s = Ok (r, s') →
  s' = s ∧ r = i - m_lastSnapshotIncludeIndex s - 1 ∧
  m_lastSnapshotIncludeIndex s < i <= getLastLogIndex s.
Proof.
  unfold getSlicesIndexFromLogIndex. mrun.
  destruct (_ <? i) eqn:?; [|done]. destruct (i <=? _) eqn:?; [|done].
  intros [= <- <-]. zify_bool. done.
Qed.

Lemma log_at_inv s i e s' :
  log_at i s = Ok (e, s') →
  s' = s ∧ entry_at s i = Some e ∧ m_lastSnapshotIncludeIndex s < i <= getLastLogIndex s.
Proof.
  unfold log_at. intros (j & s1 & (-> & -> & ?)%slices_inv & Hv)%bind_Ok. simpl in Hv.
  apply bind_Ok in Hv as (s2 & s3 & [= -> ->] & (? & ? & ->)%vec_at_Ok).
  unfold entry_at. rewrite (proj2 (Z.ltb_lt _ _)) by lia. done.
Qed.

Lemma term_at_is_Some s i :
  log_wf s → m_lastSnapshotIncludeIndex s <= i <= getLastLogIndex s → is_Some (term_at s i).
Proof.
  intros Hc Hi. unfold term_at. destruct (_ =? _) eqn:?; [by eexists|]. zify_bool.
  destruct (entry_at_is_Some s i) as [e ->]; [done|lia|]. by eexists.
Qed.

Lemma term_at_range s i t :
  log_wf s → term_at s i = Some t → m_lastSnapshotIncludeIndex s <= i <= getLastLogIndex s.
Proof.
  intros Hc. unfold term_at. destruct (_ =? _) eqn:?; zify_bool.
  - intros _. rewrite getLastLogIndex_wf by done. lia.
  - intros (e & He & ->)%fmap_Some. apply entry_at_Some in He as [? ?]; [lia|done].
Qed.

Lemma getLogTerm_Ok s i t :
  log_wf s → term_at s i = Some t → getLogTermFromLogIndex i s = Ok (t, s).
Proof.
  intros Hc Ht. pose proof (term_at_range _ _ _ Hc Ht).
  unfold getLogTermFromLogIndex, term_at in *. mrun.
  rewrite !(proj2 (Z.leb_le _ _)) by lia. simpl.
  destruct (_ =? _); [by simplify_eq|].
  destruct (entry_at s i) eqn:He; simplify_eq/=. by rewrite (log_at_Ok _ _ _ Hc He).
Qed.

Lemma getLogTerm_inv s i t s' :
  getLogTermFromLogIndex i s = Ok (t, s') →
  s' = s ∧ term_at s i = Some t ∧ m_lastSnapshotIncludeIndex s <= i <= getLastLogIndex s.
Proof.
  unfold getLogTermFromLogIndex, term_at. mrun.
  destruct (_ <=? i) eqn:?; [|done]. destruct (i <=? _) eqn:?; [|done]. simpl.
  destruct (_ =? _) eqn:?; [intros [= <- <-]; zify_bool; split_and!; [done..|lia|lia]|].
  destruct (log_at i s) as [[e s1]|] eqn:Hl; [|done]. intros [= <- <-].
  apply log_at_inv in Hl as (-> & -> & ?). split_and!; try done; lia.
Qed.

Lemma matchLog_Ok s i t t' :
  log_wf s → term_at s i = Some t' → matchLog i t s = Ok (t =? t', s).
Proof.
  intros Hc Ht. pose proof (term_at_range _ _ _ Hc Ht).
  unfold matchLog, mbind, M_bind, gets, assert_that. simpl.
  rewrite !(proj2 (Z.leb_le _ _)) by lia. simpl. by rewrite (getLogTerm_Ok _ _ _ Hc Ht).
Qed.

Lemma matchLog_inv s i t b s' :
  matchLog i t s = Ok (b, s') →
  s' = s ∧ (m_lastSnapshotIncludeIndex s <= i <= getLastLogIndex s) ∧
  ∃ t', term_at s i = Some t' ∧ b = (t =? t').
Proof.
  unfold matchLog. intros (s1 & s2 & [= -> ->] & Hr)%bind_Ok.
  apply bind_Ok in Hr as ([] & s1 & Ha & (t' & s3 & Hl & [= <- <-])%bind_Ok).
  unfold assert_that in Ha. destruct (_ && _); [|done]. injection Ha as <-.
  apply getLogTerm_inv in Hl as (-> & ? & ?). eauto.
Qed.

Lemma matchLog_Fail s i t f :
  log_wf s → matchLog i t s = Fail f →
  f = AssertFailed ∧ ¬ (m_lastSnapshotIncludeIndex s <= i <= getLastLogIndex s).
Proof.
  intros Hc Hf. destruct (decide (m_lastSnapshotIncludeIndex s <= i <= getLastLogIndex s)) as [Hi|Hi].
  - destruct (term_at_is_Some s i Hc Hi) as [t' Ht]. by rewrite (matchLog_Ok _ _ _ _ Hc Ht) in Hf.
  - revert Hf. unfold matchLog, mbind, M_bind, gets, assert_that. simpl.
    destruct (_ && _) eqn:E; [zify_bool; lia|]. unfold fail. naive_solver.
Qed.

(** ** The loop over the entries of a message *)

Lemma set_m_logs_id s : set_m_logs (m_logs s) s = s.
Proof. by destruct s. Qed.

Lemma node_log_set s l : m_logs (set_m_logs l s) = l.
Proof. done. Qed.

Lemma entry_at_pos s k :
  entry_at s (m_lastSnapshotIncludeIndex s + Z.of_nat k + 1) = m_logs s !! k.
Proof.
  unfold entry_at. rewrite (proj2 (Z.ltb_lt _ _)) by lia. f_equal. lia.
Qed.

(** One entry that fits: at the end, or over an entry it does not conflict with. *)
Lemma AppendEntries_entry_Ok s e k :
  log_wf s → (k ≤ length (m_logs s))%nat →
  logindex e = m_lastSnapshotIncludeIndex s + Z.of_nat k + 1 → ¬ conflict s e →
  AppendEntries_entry e s =
  Ok (tt, set_m_logs (if (k <? length (m_logs s))%nat then <[k := e]> (m_logs s)
                      else m_logs s ++ [e]) s).
Proof.
  intros Hc Hk He Hn. unfold AppendEntries_entry, mbind, M_bind, gets. simpl.
  rewrite (getLastLogIndex_wf _ Hc).
  destruct (Nat.ltb_spec k (length (m_logs s))) as [Hlt|Hge].
  - rewrite (proj2 (Z.ltb_ge _ _)) by lia.
    destruct (lookup_lt_is_Some_2 (m_logs s) k Hlt) as [e' He'].
    assert (entry_at s (logindex e) = Some e') as Hat by (by rewrite He, entry_at_pos).
    rewrite (log_at_Ok _ _ _ Hc Hat). simpl.
    destruct (logterm e' =? logterm e) eqn:Ht; zify_bool; simpl.
    + destruct (String.eqb_spec (command e') (command e)) as [Hcmd|Hcmd]; simpl.
      * assert (e' = e) as ->.
        { pose proof (Hc _ _ He'). destruct e, e'; simpl in *; f_equal; auto; lia. }
        rewrite list_insert_id by done. by rewrite set_m_logs_id.
      * exfalso. apply Hn. exists e'. auto.
    + pose proof (getLastLogIndex_wf _ Hc). rewrite slices_Ok by lia. unfold vec_set.
      replace (logindex e - m_lastSnapshotIncludeIndex s - 1) with (Z.of_nat k) by lia.
      rewrite (proj2 (Z.leb_le _ _)), (proj2 (Z.ltb_lt _ _)) by lia. simpl.
      by rewrite Nat2Z.id.
  - rewrite (proj2 (Z.ltb_lt _ _)) by lia. done.
Qed.

Lemma conflict_later s k l e' :
  conflict (set_m_logs l s) e' → logindex e' = m_lastSnapshotIncludeIndex s + Z.of_nat k + 1 →
  l !! k = m_logs s !! k → conflict s e'.
Proof.
  unfold conflict. intros (e1 & H1 & ?) Hi Hl. exists e1. split; [|done].
  rewrite Hi in *. change (m_lastSnapshotIncludeIndex s) with
    (m_lastSnapshotIncludeIndex (set_m_logs l s)) in H1.
  rewrite entry_at_pos in H1. rewrite entry_at_pos, <- Hl. done.
Qed.

Lemma log_wf_set s l :
  contiguous (m_lastSnapshotIncludeIndex s) l → log_wf (set_m_logs l s).
Proof. done. Qed.

Lemma AppendEntries_entries_Ok s es k :
  log_wf s → (k ≤ length (m_logs s))%nat →
  contiguous (m_lastSnapshotIncludeIndex s + Z.of_nat k) es →
  (∀ e, e ∈ es → ¬ conflict s e) →
  for_each es AppendEntries_entry s = Ok (tt, set_m_logs (overlay k es (m_logs s)) s).
Proof.
  revert s k. induction es as [|e es IH]; intros s k Hc Hk Hes Hn.
  { rewrite overlay_nil by done. by rewrite set_m_logs_id. }
  apply contiguous_cons in Hes as [He Hes]. simpl. unfold mbind, M_bind.
  rewrite (AppendEntries_entry_Ok s e k) by (auto using list_elem_of_here with lia). simpl.
  set (l1 := if (k <? length (m_logs s))%nat then _ else _).
  assert (Hc1 : contiguous (m_lastSnapshotIncludeIndex s) l1).
  { unfold l1. destruct (Nat.ltb_spec k (length (m_logs s))).
    - intros i e' Hi. destruct (decide (i = k)) as [->|];
        [rewrite list_lookup_insert_eq in Hi by done; simplify_eq; lia|].
      rewrite list_lookup_insert_ne in Hi by done. by apply Hc.
    - apply contiguous_snoc; [done|lia]. }
  assert (Hl1 : (S k ≤ length l1)%nat).
  { unfold l1. destruct (Nat.ltb_spec k (length (m_logs s))); rewrite ?length_insert, ?length_app; simpl; lia. }
  assert (Hov : overlay (S k) es l1 = overlay k (e :: es) (m_logs s)).
  { unfold l1. destruct (Nat.ltb_spec k (length (m_logs s))).
    - by rewrite overlay_cons_insert.
    - assert (k = length (m_logs s)) as -> by lia. by rewrite overlay_cons_app. }
  rewrite (IH (set_m_logs l1 s) (S k)); [cbn [m_logs set_m_logs]; by rewrite Hov|done|done| |].
  - cbn [m_lastSnapshotIncludeIndex set_m_logs].
    by replace (m_lastSnapshotIncludeIndex s + Z.of_nat (S k)) with
      (m_lastSnapshotIncludeIndex s + Z.of_nat k + 1) by lia.
  - intros e' He' Hcf. apply (Hn e'); [by right|].
    apply list_elem_of_lookup in He' as [j Hj]. pose proof (Hes _ _ Hj) as Hi.
    apply (conflict_later s (k + 1 + j) l1); [done|lia|].
    unfold l1. destruct (Nat.ltb_spec k (length (m_logs s))).
    + by rewrite list_lookup_insert_ne by lia.
    + rewrite (lookup_ge_None_2 (m_logs s)) by lia.
      apply lookup_ge_None_2. rewrite length_app. simpl. lia.
Qed.

Lemma AppendEntries_entries_Fail s es k :
  log_wf s → (k ≤ length (m_logs s))%nat →
  contiguous (m_lastSnapshotIncludeIndex s + Z.of_nat k) es →
  (∃ e, e ∈ es ∧ conflict s e) →
  for_each es AppendEntries_entry s = Fail AssertFailed.
Proof.
  intros Hc Hk Hes Hex.
  assert (∃ es1 e es2, es = es1 ++ e :: es2 ∧ (∀ e', e' ∈ es1 → ¬ conflict s e') ∧ conflict s e)
    as (es1 & e & es2 & -> & Hn & Hcf).
  { clear Hes. induction es as [|e es IH]; destruct Hex as (e0 & He0 & Hc0);
      [by apply not_elem_of_nil in He0|].
    destruct (decide (conflict s e)) as [D|D].
    - exists [], e, es. split_and!; [done| |done]. by intros ? ?%not_elem_of_nil.
    - destruct IH as (es1 & e1 & es2 & -> & ? & ?).
      { exists e0. apply elem_of_cons in He0 as [->|?]; done. }
      exists (e :: es1), e1, es2. split_and!; [done| |done].
      intros e' [->|?]%elem_of_cons; auto. }
  apply contiguous_app in Hes as [Hes1 Hes2]. apply contiguous_cons in Hes2 as [Hidx _].
  assert (for_each (es1 ++ e :: es2) AppendEntries_entry s =
    mbind (λ _, for_each (e :: es2) AppendEntries_entry) (for_each es1 AppendEntries_entry) s) as ->.
  { clear. revert s. induction es1 as [|x es1 IH]; intros s; [done|]. simpl.
    unfold mbind, M_bind. destruct (AppendEntries_entry x s) as [[[] s1]|]; [|done]. by rewrite IH. }
  unfold mbind, M_bind at 1. rewrite (AppendEntries_entries_Ok s es1 k) by done. simpl.
  set (s1 := set_m_logs _ s). destruct Hcf as (e' & Hat & Ht & Hcmd).
  assert (Hpos : entry_at s1 (logindex e) = Some e').
  { pose proof (entry_at_Some _ _ _ Hc Hat) as [Hr _].
    replace (logindex e) with (m_lastSnapshotIncludeIndex s + Z.of_nat (k + length es1) + 1) in * by lia.
    rewrite entry_at_pos in Hat.
    change (m_lastSnapshotIncludeIndex s) with (m_lastSnapshotIncludeIndex s1).
    rewrite entry_at_pos. simpl. unfold overlay.
    rewrite lookup_app_r; rewrite length_take_le by done; [|lia].
    rewrite lookup_app_r by lia. rewrite lookup_drop. rewrite <- Hat. f_equal. lia. }
  assert (Hc1 : log_wf s1).
  { apply log_wf_set, contiguous_overlay; done. }
  pose proof (entry_at_Some _ _ _ Hc1 Hpos) as [Hr _].
  cbn [for_each]. unfold mbind at 1, M_bind at 1.
  assert (AppendEntries_entry e s1 = Fail AssertFailed) as ->; [|done].
  unfold AppendEntries_entry, mbind, M_bind, gets. simpl.
  rewrite (proj2 (Z.ltb_ge _ _)) by lia.
  rewrite (log_at_Ok _ _ _ Hc1 Hpos), Ht, Z.eqb_refl. simpl.
  by rewrite (proj2 (String.eqb_neq _ _)).
Qed.


(** ** Whole messages *)

Lemma list_find_contiguous base es i :
  contiguous base es →
  list_find (λ e, logindex e = i) es =
  if decide (base < i <= base + Z.of_nat (length es))
  then (λ e, (Z.to_nat (i - base - 1), e)) <$> es !! Z.to_nat (i - base - 1)
  else None.
Proof.
  intros Hc. case_decide as D.
  - destruct (lookup_lt_is_Some_2 es (Z.to_nat (i - base - 1))) as [e He]; [lia|].
    rewrite He. simpl. apply list_find_Some. split_and!; [done|rewrite (Hc _ _ He); lia|].
    intros j e' Hj ? Hi. pose proof (Hc _ _ Hj). lia.
  - apply list_find_None, Forall_lookup. intros j e Hj <-. apply D.
    rewrite (Hc _ _ Hj). pose proof (lookup_lt_Some _ _ _ Hj). lia.
Qed.

Lemma overwritten_overlay s prev es :
  log_wf s → m_lastSnapshotIncludeIndex s <= prev <= getLastLogIndex s → contiguous prev es →
  overwritten s (set_m_logs (overlay (Z.to_nat (prev - m_lastSnapshotIncludeIndex s)) es (m_logs s)) s) es.
Proof.
  intros Hc Hp Hes. rewrite getLastLogIndex_wf in Hp by done. split_and!; [done..|].
  intros i. rewrite (list_find_contiguous prev) by done. unfold entry_at. simpl.
  set (snap := m_lastSnapshotIncludeIndex s) in *. set (k := Z.to_nat (prev - snap)).
  destruct (Z.ltb_spec snap i); [|rewrite decide_False by lia; done].
  unfold overlay. case_decide as D.
  - rewrite lookup_app_r; rewrite length_take_le by lia; [|lia].
    rewrite lookup_app_l by lia.
    replace (Z.to_nat (i - snap - 1) - k)%nat with (Z.to_nat (i - prev - 1)) by lia.
    destruct (es !! Z.to_nat (i - prev - 1)) eqn:E; [done|]. apply lookup_ge_None in E. lia.
  - destruct (decide (i <= prev)).
    + rewrite lookup_app_l by (rewrite length_take_le; lia). rewrite lookup_take_lt by lia. done.
    + rewrite lookup_app_r; rewrite length_take_le by lia; [|lia].
      rewrite lookup_app_r by lia. rewrite lookup_drop. f_equal. lia.
Qed.

Lemma adopt_log now t s :
  m_logs (adopt now t s) = m_logs s ∧
  m_lastSnapshotIncludeIndex (adopt now t s) = m_lastSnapshotIncludeIndex s ∧
  m_lastSnapshotIncludeTerm (adopt now t s) = m_lastSnapshotIncludeTerm s ∧
  m_commitIndex (adopt now t s) = m_commitIndex s ∧
  m_lastApplied (adopt now t s) = m_lastApplied s.
Proof. unfold adopt. by destruct (_ <? _). Qed.

Lemma adopt_same_log now t s :
  getLastLogIndex (adopt now t s) = getLastLogIndex s ∧
  (log_wf (adopt now t s) ↔ log_wf s) ∧
  (∀ i, entry_at (adopt now t s) i = entry_at s i) ∧
  (∀ i, term_at (adopt now t s) i = term_at s i) ∧
  (∀ e, conflict (adopt now t s) e ↔ conflict s e).
Proof. unfold adopt. by destruct (_ <? _). Qed.

Lemma adopt_term now t s : m_currentTerm s <= t → m_currentTerm (adopt now t s) = t.
Proof. unfold adopt. destruct (Z.ltb_spec (m_currentTerm s) t); simpl; lia. Qed.

Lemma adopt_status now t s : m_status (adopt now t s) = Follower.
Proof. unfold adopt. by destruct (_ <? _). Qed.

Lemma adopt_voted now t s :
  m_votedFor (adopt now t s) = (if m_currentTerm s <? t then -1 else m_votedFor s).
Proof. unfold adopt. by destruct (_ <? _). Qed.

Lemma adopt_wf now t s : node_wf s → node_wf (adopt now t s).
Proof. intros []. unfold adopt. destruct (_ <? _); by constructor. Qed.

Lemma persist_Ok s : ∃ p, persist s = Ok (tt, set_m_persister p s).
Proof.
  unfold persist, mbind, M_bind, gets. simpl. destruct (m_persister s) as [p|] eqn:E.
  - by eexists.
  - exists (m_persister s). unfold mret, M_ret. by destruct s.
Qed.

Lemma persist_persisted s s' `{!PersisterLaws P} :
  persist s = Ok (tt, s') → persisted s' ∧ ∃ p, s' = set_m_persister p s.
Proof.
  unfold persist, mbind, M_bind, gets. simpl. unfold persisted. destruct (m_persister s) as [p|] eqn:E.
  - unfold modify. intros [= <-]. split; [simpl; by rewrite written_SaveRaftState|by eexists].
  - unfold mret, M_ret. intros [= <-]. rewrite E. split; [done|]. exists (m_persister s). by destruct s.
Qed.

(** The part of [AppendEntries_body] before the log is looked at. *)
Lemma AppendEntries_body_adopt now args reply s :
  m_currentTerm s <= ae_term args →
  AppendEntries_body now args reply s = AppendEntries_log args reply (adopt now (ae_term args) s).
Proof.
  intros Hle. unfold AppendEntries_body, adopt, become_follower, mbind, M_bind, gets. simpl.
  destruct (Z.ltb_spec (m_currentTerm s) (ae_term args)) as [|E]; simpl.
  - by rewrite Z.eqb_refl.
  - by rewrite (proj2 (Z.eqb_eq (ae_term args) (m_currentTerm s))) by lia.
Qed.

Lemma AppendEntries_run now args s :
  m_currentTerm s <= ae_term args →
  AppendEntries now args s =
  match AppendEntries_log args (mkAppendEntriesReply 0 false 0 AppNormal)
          (adopt now (ae_term args) s) with
  | Ok (r, s1) => match persist s1 with Ok (_, s2) => Ok (r, s2) | Fail f => Fail f end
  | Fail f => Fail f
  end.
Proof.
  intros Hle. unfold AppendEntries, mbind at 1, M_bind at 1, gets at 1. simpl.
  rewrite (proj2 (Z.ltb_ge _ _)) by lia. unfold mbind, M_bind at 1.
  by rewrite AppendEntries_body_adopt.
Qed.

(** A matching message: the log is overwritten, the commit index follows. *)
Lemma AppendEntries_log_accept args reply s :
  node_wf s → contiguous (ae_prevlogindex args) (ae_entries args) →
  term_at s (ae_prevlogindex args) = Some (ae_prevlogterm args) →
  (∀ e, e ∈ ae_entries args → ¬ conflict s e) →
  ∃ l c, AppendEntries_log args reply s =
    Ok (mkAppendEntriesReply (m_currentTerm s) true (aer_updatenextindex reply) (aer_appstate reply),
        set_m_commitIndex c (set_m_logs l s)) ∧
    l = overlay (Z.to_nat (ae_prevlogindex args - m_lastSnapshotIncludeIndex s)) (ae_entries args) (m_logs s) ∧
    c = (if m_commitIndex s <? ae_leadercommit args
         then Z.min (ae_leadercommit args) (getLastLogIndex (set_m_logs l s)) else m_commitIndex s) ∧
    contiguous (m_lastSnapshotIncludeIndex s) l ∧
    Z.of_nat (length l) = Z.max (Z.of_nat (length (m_logs s)))
      (ae_prevlogindex args + Z.of_nat (length (ae_entries args)) - m_lastSnapshotIncludeIndex s).
Proof.
  intros Hwf Hes Ht Hn. pose proof (wf_log _ Hwf) as Hc.
  pose proof (term_at_range _ _ _ Hc Ht) as Hr. pose proof Hr as Hr'.
  rewrite (getLastLogIndex_wf _ Hc) in Hr'.
  set (k := Z.to_nat (ae_prevlogindex args - m_lastSnapshotIncludeIndex s)).
  set (l := overlay k (ae_entries args) (m_logs s)).
  assert (Hk : (k ≤ length (m_logs s))%nat) by lia.
  assert (Hes' : contiguous (m_lastSnapshotIncludeIndex s + Z.of_nat k) (ae_entries args)).
  { by replace (m_lastSnapshotIncludeIndex s + Z.of_nat k) with (ae_prevlogindex args) by lia. }
  assert (Hl : contiguous (m_lastSnapshotIncludeIndex s) l) by by apply contiguous_overlay.
  assert (Hlen : Z.of_nat (length l) = Z.max (Z.of_nat (length (m_logs s)))
      (ae_prevlogindex args + Z.of_nat (length (ae_entries args)) - m_lastSnapshotIncludeIndex s)).
  { unfold l. rewrite length_overlay by done. lia. }
  eexists l, _. split_and!; [|done..].
  unfold AppendEntries_log, mbind, M_bind, gets. simpl.
  rewrite (proj2 (Z.ltb_ge _ _)), (proj2 (Z.ltb_ge (ae_prevlogindex args) _)) by lia.
  rewrite (matchLog_Ok _ _ _ _ Hc Ht), Z.eqb_refl.
  rewrite (AppendEntries_entries_Ok s _ k) by done. fold l.
  assert (HL : getLastLogIndex (set_m_logs l s) = m_lastSnapshotIncludeIndex s + Z.of_nat (length l))
    by by rewrite getLastLogIndex_wf.
  rewrite HL. rewrite (proj2 (Z.leb_le _ _)) by lia. simpl.
  pose proof (wf_commit _ Hwf). destruct (Z.ltb_spec (m_commitIndex s) (ae_leadercommit args)); simpl.
  - change (getLastLogIndex (set_m_commitIndex _ (set_m_logs l s))) with (getLastLogIndex (set_m_logs l s)).
    rewrite HL. by rewrite (proj2 (Z.leb_le _ _)) by lia.
  - rewrite HL, (proj2 (Z.leb_le _ _)) by lia. simpl. by destruct s.
Qed.

(** The walk back over the conflicting term ends within the log. *)
Lemma AppendEntries_backtrack_Ok s prev :
  log_wf s → m_lastSnapshotIncludeIndex s <= prev <= getLastLogIndex s →
  ∃ n, AppendEntries_backtrack prev s = Ok (n, s) ∧ backtracked s prev n.
Proof.
  intros Hc Hp. destruct (term_at_is_Some s prev Hc Hp) as [tp Htp].
  unfold AppendEntries_backtrack, mbind at 1 2, M_bind at 1 2, gets. cbn [id].
  set (f := AppendEntries_backtrack_step prev). set (snap := m_lastSnapshotIncludeIndex s) in *.
  enough (∀ m hi, hi <= prev → hi = snap + Z.of_nat m - 1 →
    (∀ j, hi < j <= prev → term_at s j = Some tp) →
    (for_until (zdown hi m) f s = Ok (None, s) ∧ ∀ j, snap <= j <= prev → term_at s j = Some tp) ∨
    (∃ i, for_until (zdown hi m) f s = Ok (Some (i + 1), s) ∧ snap <= i < prev ∧
       term_at s i ≠ Some tp ∧ ∀ j, i < j <= prev → term_at s j = Some tp)) as Hloop.
  { destruct (Hloop (Z.to_nat (prev - snap + 1)) prev) as [(-> & Hall)|(i & -> & Hi & Hne & Hall)];
      [lia|lia|intros; lia| |].
    - exists prev. split; [done|]. right. split; [done|]. rewrite Htp. done.
    - exists (i + 1). split; [done|]. left. rewrite Htp. replace (i + 1 - 1) with i by lia.
      split_and!; [lia|lia|done|]. intros; apply Hall; lia. }
  induction m as [|m IH]; intros hi Hhi Hm Hall.
  { left. split; [done|]. intros j Hj. apply Hall. lia. }
  destruct (term_at_is_Some s hi Hc) as [t Ht]; [lia|].
  assert (Hf : f hi s = Ok (if negb (t =? tp) then Some (hi + 1) else None, s)).
  { unfold f, AppendEntries_backtrack_step, mbind, M_bind. by rewrite (getLogTerm_Ok _ _ _ Hc Ht), (getLogTerm_Ok _ _ _ Hc Htp). }
  cbn [zdown for_until]. unfold mbind, M_bind. rewrite Hf.
  destruct (Z.eqb_spec t tp) as [->|Hne]; simpl.
  - apply IH; [lia|lia|]. intros j Hj. destruct (decide (j = hi)) as [->|]; [done|]. apply Hall. lia.
  - right. exists hi. split_and!; [done|lia| |congruence|intros; apply Hall; lia].
    destruct (decide (hi = prev)) as [->|]; [congruence|lia].
Qed.

Lemma AppendEntries_log_mismatch args reply s t :
  log_wf s → m_lastSnapshotIncludeIndex s <= ae_prevlogindex args →
  term_at s (ae_prevlogindex args) = Some t → t ≠ ae_prevlogterm args →
  ∃ n, AppendEntries_log args reply s =
    Ok (mkAppendEntriesReply (m_currentTerm s) false n (aer_appstate reply), s) ∧
    backtracked s (ae_prevlogindex args) n.
Proof.
  intros Hc Hp Ht Hne. pose proof (term_at_range _ _ _ Hc Ht) as Hr.
  destruct (AppendEntries_backtrack_Ok s (ae_prevlogindex args) Hc Hr) as (n & Hn & Hb).
  exists n. split; [|done]. unfold AppendEntries_log, mbind, M_bind, gets. simpl.
  rewrite !(proj2 (Z.ltb_ge _ _)) by lia.
  rewrite (matchLog_Ok _ _ _ _ Hc Ht). by rewrite (proj2 (Z.eqb_neq _ _)), Hn by done.
Qed.

Lemma AppendEntries_log_short args reply s :
  getLastLogIndex s < ae_prevlogindex args →
  AppendEntries_log args reply s =
    Ok (mkAppendEntriesReply (m_currentTerm s) false (getLastLogIndex s + 1) (aer_appstate reply), s).
Proof.
  intros Hlt. unfold AppendEntries_log, mbind, M_bind, gets. simpl.
  by rewrite (proj2 (Z.ltb_lt _ _)).
Qed.

Lemma AppendEntries_log_exit args reply s :
  node_wf s → contiguous (ae_prevlogindex args) (ae_entries args) →
  ae_prevlogindex args <= getLastLogIndex s →
  ae_prevlogindex args < m_lastSnapshotIncludeIndex s ∨
  (term_at s (ae_prevlogindex args) = Some (ae_prevlogterm args) ∧
   ∃ e, e ∈ ae_entries args ∧ conflict s e) →
  AppendEntries_log args reply s = Fail AssertFailed.
Proof.
  intros Hwf Hes Hp Hex. pose proof (wf_log _ Hwf) as Hc.
  unfold AppendEntries_log, mbind, M_bind, gets. simpl. rewrite (proj2 (Z.ltb_ge _ _)) by lia.
  destruct Hex as [Hlt|[Ht He]].
  - unfold matchLog, mbind, M_bind, gets. simpl.
    by rewrite (proj2 (Z.leb_gt (m_lastSnapshotIncludeIndex s) _)) by lia.
  - pose proof (term_at_range _ _ _ Hc Ht) as Hr. rewrite (getLastLogIndex_wf _ Hc) in Hr.
    rewrite (matchLog_Ok _ _ _ _ Hc Ht), Z.eqb_refl.
    rewrite (AppendEntries_entries_Fail s _ (Z.to_nat (ae_prevlogindex args - m_lastSnapshotIncludeIndex s)));
      [done|done|lia| |done].
    by replace (m_lastSnapshotIncludeIndex s + Z.of_nat (Z.to_nat _)) with (ae_prevlogindex args) by lia.
Qed.

(** Every case of the comparison of the logs. *)
Lemma AppendEntries_log_cases args s :
  node_wf s → contiguous (ae_prevlogindex args) (ae_entries args) →
  getLastLogIndex s < ae_prevlogindex args ∨
  (ae_prevlogindex args <= getLastLogIndex s ∧
    (ae_prevlogindex args < m_lastSnapshotIncludeIndex s ∨
     (term_at s (ae_prevlogindex args) = Some (ae_prevlogterm args) ∧
      ∃ e, e ∈ ae_entries args ∧ conflict s e))) ∨
  (m_lastSnapshotIncludeIndex s <= ae_prevlogindex args ∧
   ∃ t, term_at s (ae_prevlogindex args) = Some t ∧ t ≠ ae_prevlogterm args) ∨
  (term_at s (ae_prevlogindex args) = Some (ae_prevlogterm args) ∧
   ∀ e, e ∈ ae_entries args → ¬ conflict s e).
Proof.
  intros Hwf Hes. pose proof (wf_log _ Hwf) as Hc.
  destruct (decide (getLastLogIndex s < ae_prevlogindex args)); [by left|right].
  destruct (decide (ae_prevlogindex args < m_lastSnapshotIncludeIndex s)); [left; split; [lia|by left]|].
  destruct (term_at_is_Some s (ae_prevlogindex args) Hc) as [t Ht]; [lia|].
  destruct (decide (t = ae_prevlogterm args)) as [->|]; [|right; left; split; [lia|by eauto]].
  destruct (decide (Exists (conflict s) (ae_entries args))) as [D|D].
  - left. split; [lia|]. right. split; [done|]. by apply Exists_exists in D.
  - right; right. split; [done|]. intros e He Hcf. apply D, Exists_exists. eauto.
Qed.

Lemma node_wf_commit_logs s l c :
  node_wf s → contiguous (m_lastSnapshotIncludeIndex s) l → (length (m_logs s) ≤ length l)%nat →
  0 <= c <= m_lastSnapshotIncludeIndex s + Z.of_nat (length l) →
  node_wf (set_m_commitIndex c (set_m_logs l s)).
Proof. intros [] ???. constructor; simpl; auto; lia. Qed.

Lemma node_wf_set_persister p s : node_wf s → node_wf (set_m_persister p s).
Proof. by intros []; constructor. Qed.

(** ** Properties of AppendEntries *)

(** A message without conflict. *)
Lemma AppendEntries_accepted `{!PersisterLaws P} (now : Z) (args : AppendEntriesArgs) (s : Raft P)
  (Hwf : node_wf s)
  (Hes : contiguous (ae_prevlogindex args) (ae_entries args))
  (Hterm : m_currentTerm s <= ae_term args)
  (Hprev : term_at s (ae_prevlogindex args) = Some (ae_prevlogterm args))
  (Hok : ∀ e, e ∈ ae_entries args → ¬ conflict s e) :
  ∃ s', AppendEntries now args s = Ok (mkAppendEntriesReply (ae_term args) true 0 AppNormal, s') ∧
    overwritten s s' (ae_entries args) ∧
    getLastLogIndex s' = Z.max (getLastLogIndex s)
      (ae_prevlogindex args + Z.of_nat (length (ae_entries args))) ∧
    m_commitIndex s' =
      (if m_commitIndex s <? ae_leadercommit args
       then Z.min (ae_leadercommit args) (getLastLogIndex s') else m_commitIndex s) ∧
    m_currentTerm s' = ae_term args ∧ m_status s' = Follower ∧
    m_votedFor s' = (if m_currentTerm s <? ae_term args then -1 else m_votedFor s) ∧
    node_wf s' ∧ persisted s'.
Proof.
  destruct (adopt_same_log now (ae_term args) s) as (HL & _ & He & Ht & Hcf).
  destruct (adopt_log now (ae_term args) s) as (El & Es & Est & Ec & Ea).
  pose proof (adopt_wf now (ae_term args) s Hwf) as Hwf1.
  destruct (AppendEntries_log_accept args (mkAppendEntriesReply 0 false 0 AppNormal)
    (adopt now (ae_term args) s)) as (l & c & Hrun & Hl & Hc & Hcl & Hlen);
    [done|done|by rewrite Ht|intros; rewrite Hcf; auto|].
  rewrite AppendEntries_run, Hrun by done.
  set (s1 := set_m_commitIndex c _). destruct (persist_Ok s1) as [p Hp]. rewrite Hp.
  rewrite adopt_term by done. eexists. split; [done|].
  pose proof (getLastLogIndex_wf _ (wf_log _ Hwf)) as HL0.
  assert (HL1 : getLastLogIndex s1 = m_lastSnapshotIncludeIndex s + Z.of_nat (length l)).
  { rewrite getLastLogIndex_wf by done. unfold s1.
    cbn [m_lastSnapshotIncludeIndex set_m_commitIndex set_m_logs m_logs]. by rewrite Es. }
  rewrite El, Es in Hlen. rewrite Ec in Hc. pose proof (wf_commit _ Hwf).
  pose proof (term_at_range _ _ _ (wf_log _ Hwf) Hprev) as Hr.
  change (getLastLogIndex (set_m_persister p s1)) with (getLastLogIndex s1).
  change (getLastLogIndex (set_m_logs l (adopt now (ae_term args) s))) with (getLastLogIndex s1) in Hc.
  split_and!.
  - pose proof (overwritten_overlay s (ae_prevlogindex args) (ae_entries args)) as (_ & _ & Ho);
      [apply Hwf|done|done|].
    split_and!; [done..|]. intros i. rewrite <- Ho. unfold entry_at, s1.
    cbn [m_lastSnapshotIncludeIndex set_m_commitIndex set_m_logs m_logs set_m_persister].
    by rewrite Es, Hl, El, Es.
  - rewrite HL1, HL0. lia.
  - done.
  - by apply (adopt_term now).
  - apply adopt_status.
  - apply adopt_voted.
  - apply node_wf_set_persister, node_wf_commit_logs; [done|done|rewrite El; lia|].
    rewrite Es, Hc. destruct (_ <? _) eqn:?; blia.
  - by apply (persist_persisted s1).
Qed.

(** A message of a term that is not old is refused when the log does not
    reach [prevlogindex] or has another term there: the log, the commit index
    and the applied index are unchanged, the reply is a failure in the
    leader's term, and [updatenextindex] is the index after the last entry,
    resp. the first index of the run of the conflicting term. *)
Theorem AppendEntries_refuse `{!PersisterLaws P} (now : Z) (args : AppendEntriesArgs) (s : Raft P)
  (Hwf : node_wf s)
  (Hterm : m_currentTerm s <= ae_term args)
  (Hprev : getLastLogIndex s < ae_prevlogindex args ∨
           (m_lastSnapshotIncludeIndex s <= ae_prevlogindex args <= getLastLogIndex s ∧
            term_at s (ae_prevlogindex args) ≠ Some (ae_prevlogterm args))) :
  ∃ n s', AppendEntries now args s = Ok (mkAppendEntriesReply (ae_term args) false n AppNormal, s') ∧
    (if getLastLogIndex s <? ae_prevlogindex args then n = getLastLogIndex s + 1
     else backtracked s (ae_prevlogindex args) n) ∧
    (∀ i, entry_at s' i = entry_at s i) ∧ m_commitIndex s' = m_commitIndex s ∧
    m_lastApplied s' = m_lastApplied s ∧
    m_currentTerm s' = ae_term args ∧ m_status s' = Follower ∧ node_wf s' ∧ persisted s'.
Proof.
  destruct (adopt_same_log now (ae_term args) s) as (HL & _ & He & Ht & Hcf).
  destruct (adopt_log now (ae_term args) s) as (El & Es & Est & Ec & Ea).
  pose proof (adopt_wf now (ae_term args) s Hwf) as Hwf1.
  set (s1 := adopt now (ae_term args) s) in *. destruct (persist_Ok s1) as [p Hp].
  assert (∃ n, AppendEntries_log args (mkAppendEntriesReply 0 false 0 AppNormal) s1 =
     Ok (mkAppendEntriesReply (m_currentTerm s1) false n AppNormal, s1) ∧
     (if getLastLogIndex s <? ae_prevlogindex args then n = getLastLogIndex s + 1
     else backtracked s (ae_prevlogindex args) n)) as (n & Hrun & Hn).
  { destruct Hprev as [Hlt|[Hr Hne]].
    - rewrite AppendEntries_log_short by lia. eexists. split; [done|].
      by rewrite (proj2 (Z.ltb_lt _ _)), HL by lia.
    - destruct (term_at_is_Some s _ (wf_log _ Hwf) Hr) as [t Hat].
      destruct (AppendEntries_log_mismatch args (mkAppendEntriesReply 0 false 0 AppNormal) s1 t)
        as (n & Hn & Hb); [apply Hwf1|lia|by rewrite Ht|congruence|].
      exists n. split; [done|]. rewrite (proj2 (Z.ltb_ge _ _)) by lia.
      unfold backtracked in *. rewrite Es in Hb. setoid_rewrite Ht in Hb. done. }
  exists n, (set_m_persister p s1). rewrite AppendEntries_run by done. fold s1.
  rewrite Hrun, Hp. unfold s1 at 1. rewrite adopt_term by done.
  split_and!; [done|done|done|done|done|by apply adopt_term| |by apply node_wf_set_persister|].
  - apply adopt_status.
  - by apply (persist_persisted s1).
Qed.

(** When the node exits: on a well-formed node and a message with
    consecutive entries, [AppendEntries] runs into a failed assertion exactly
    when the message is not of an old term, [prevlogindex] is within the log
    and either lies below the snapshot, or matches and an entry of the message
    has the index and term of an entry of the node but another command.  In
    every other case it returns a reply. *)
Theorem AppendEntries_exits (now : Z) (args : AppendEntriesArgs) (s : Raft P)
  (Hwf : node_wf s) (Hes : contiguous (ae_prevlogindex args) (ae_entries args)) (f : failure) :
  AppendEntries now args s = Fail f ↔
  f = AssertFailed ∧ m_currentTerm s <= ae_term args ∧
  ae_prevlogindex args <= getLastLogIndex s ∧
  (ae_prevlogindex args < m_lastSnapshotIncludeIndex s ∨
   (term_at s (ae_prevlogindex args) = Some (ae_prevlogterm args) ∧
    ∃ e, e ∈ ae_entries args ∧ conflict s e)).
Proof.
  destruct (decide (m_currentTerm s <= ae_term args)) as [Hterm|Hterm]; last first.
  { unfold AppendEntries, mbind, M_bind, gets. simpl. rewrite (proj2 (Z.ltb_lt _ _)) by lia.
    split; [done|lia]. }
  destruct (adopt_same_log now (ae_term args) s) as (HL & _ & He & Ht & Hcf).
  destruct (adopt_log now (ae_term args) s) as (El & Es & _).
  pose proof (adopt_wf now (ae_term args) s Hwf) as Hwf1.
  rewrite AppendEntries_run by done. setoid_rewrite <- Hcf. rewrite <- Ht, <- HL, <- Es.
  set (s1 := adopt now (ae_term args) s) in *.
  assert (Hnf : ∀ r s2, match persist s2 with Ok (_, s3) => Ok (r : AppendEntriesReply, s3) | Fail f => Fail f end ≠ Fail f).
  { intros r s2. by destruct (persist_Ok s2) as [p ->]. }
  destruct (AppendEntries_log_cases args s1 Hwf1 Hes) as [Hs|[[Hp Hx]|[[Hp (t & Hat & Hne)]|[Hat Hn]]]].
  - rewrite AppendEntries_log_short by done. split; [by intros ?%Hnf|lia].
  - rewrite AppendEntries_log_exit by done. naive_solver.
  - destruct (AppendEntries_log_mismatch args (mkAppendEntriesReply 0 false 0 AppNormal) s1 t)
      as (n & -> & _); [apply Hwf1|done..|].
    split; [by intros ?%Hnf|]. intros (_ & _ & _ & [?|[? _]]); [lia|congruence].
  - destruct (AppendEntries_log_accept args (mkAppendEntriesReply 0 false 0 AppNormal) s1)
      as (l & c & -> & _); [done..|].
    split; [by intros ?%Hnf|]. intros (_ & _ & _ & [?|[_ (e & ? & ?)]]); [|by exfalso; eapply Hn].
    pose proof (term_at_range _ _ _ (wf_log _ Hwf1) Hat). lia.
Qed.

(** (C3) A message, with consecutive entries, of a term that is not old, to a well-formed follower that has its previous entry. When no entry of the
    message has the index and the term of an entry of the follower but another command, it is accepted: the reply is a success in the leader's
    term, the follower's log holds the message's entries at their indexes and is unchanged at every other index (later entries of the follower are kept, not truncated), the
    commit index, if that of the leader is greater, moves to [min(leaderCommit, last index)] and else stays, and the new persistent state was handed to the persister. When an entry does conflict so, the
    follower runs into a failed assertion. *)
Theorem AppendEntries_accept `{!PersisterLaws P} (now : Z) (args : AppendEntriesArgs) (s : Raft P)
  (Hwf : node_wf s)
  (Hes : contiguous (ae_prevlogindex args) (ae_entries args))
  (Hterm : m_currentTerm s <= ae_term args)
  (Hprev : term_at s (ae_prevlogindex args) = Some (ae_prevlogterm args)) :
  ((∀ e, e ∈ ae_entries args → ¬ conflict s e) →
    ∃ s', AppendEntries now args s = Ok (mkAppendEntriesReply (ae_term args) true 0 AppNormal, s') ∧
    overwritten s s' (ae_entries args) ∧
    getLastLogIndex s' = Z.max (getLastLogIndex s)
      (ae_prevlogindex args + Z.of_nat (length (ae_entries args))) ∧
    m_commitIndex s' =
      (if m_commitIndex s <? ae_leadercommit args
       then Z.min (ae_leadercommit args) (getLastLogIndex s') else m_commitIndex s) ∧
    m_currentTerm s' = ae_term args ∧ m_status s' = Follower ∧
    m_votedFor s' = (if m_currentTerm s <? ae_term args then -1 else m_votedFor s) ∧
    node_wf s' ∧ persisted s') ∧
  ((∃ e, e ∈ ae_entries args ∧ conflict s e) → AppendEntries now args s = Fail AssertFailed).
Proof.
  split; [by apply AppendEntries_accepted|]. intros He. apply AppendEntries_exits; [done|done|]. split_and!; [done|done| |by right].
  pose proof (term_at_range _ _ _ (wf_log _ Hwf) Hprev). lia.
Qed.

End reading.
