(* ===== verification/RaftHandlers.v ===== *)
(** * RaftHandlers: what every handler of a raft node does to its state

    Two relations between the state before and after a handler: [quiet], for
    the handlers that start no election and count no vote (their term only
    grows, they vote at most once a term, they never make a leader), and the
    preservation of [node_wf].  Then the properties of votes, elections,
    commitment and snapshots on a single node. *)

From S2P Require Import Prelude.
From S2P Require Import Persister.
From S2P Require Import RaftTypes.
From S2P Require Import Raft.
From S2P Require Import RaftFacts.

(** ** Definitions *)

Section defs.
Context {P : Type}.
Implicit Types s : Raft P.

(** The term never decreases; within a term the vote is cast at most once. *)
Record frame s s' : Prop := {
  fr_me : m_me s' = m_me s;
  fr_peers : m_peers s' = m_peers s;
  fr_term : m_currentTerm s <= m_currentTerm s';
  fr_vote : m_currentTerm s' = m_currentTerm s →
            m_votedFor s = -1 ∨ m_votedFor s' = m_votedFor s
}.

(** A closure that neither asks for a vote nor sends entries. *)
Definition plain_task (t : task) : Prop :=
  match t with
  | TSendRequestVote _ _ _ | TSendAppendEntries _ _ _ => False
  | _ => True
  end.

Record quiet s s' : Prop := {
  q_frame : frame s s';
  q_cells : shared_ints s' = shared_ints s;
  q_tasks : ∃ new, m_ioManager s' = m_ioManager s ++ new ∧ Forall plain_task new;
  q_status : m_status s' = Leader → m_status s = Leader ∧ m_currentTerm s' = m_currentTerm s
}.

(** The closures a heartbeat hands over, [p] being its counter of replies. *)
Definition heartbeat_task s (p : nat) (t : task) : Prop :=
  match t with
  | TSendAppendEntries _ args q =>
      q = p ∧ ae_term args = m_currentTerm s ∧
      (contiguous (m_lastSnapshotIncludeIndex s) (m_logs s) →
       contiguous (ae_prevlogindex args) (ae_entries args))
  | TLeaderSendSnapShot _ => True
  | _ => False
  end.

(** What a heartbeat of a leader changes. *)
Record heartbeat_step s s' : Prop := {
  hb_frame : frame s s';
  hb_term : m_currentTerm s' = m_currentTerm s;
  hb_vote : m_votedFor s' = m_votedFor s;
  hb_status : m_status s' = m_status s;
  hb_cells : shared_ints s' = shared_ints s ++ [1];
  hb_tasks : ∃ new, m_ioManager s' = m_ioManager s ++ new ∧
             Forall (heartbeat_task s (length (shared_ints s))) new
}.

(** What the reply to an [AppendEntries] changes: of the counters only [p]. *)
Record append_reply_step (p : nat) s s' : Prop := {
  ar_frame : frame s s';
  ar_tasks : m_ioManager s' = m_ioManager s;
  ar_cells : length (shared_ints s') = length (shared_ints s) ∧
             ∀ q, q ≠ p → shared_ints s' !! q = shared_ints s !! q;
  ar_status : m_status s' = Leader → m_status s = Leader ∧ m_currentTerm s' = m_currentTerm s
}.

(** The requests of an election of [s]. *)
Definition election_args s : RequestVoteArgs :=
  mkRequestVoteArgs (m_currentTerm s + 1) (Z.of_nat (m_me s)) (getLastLogIndex s) (getLastLogTerm s).

Definition election_tasks s : list task :=
  map (λ i, TSendRequestVote i (election_args s) (length (shared_ints s)))
    (List.filter (λ i, negb (i =? m_me s)%nat) (seq 0 (m_peers s))).

(** What the timeout of a node that is not a leader changes. *)
Record election_step s s' : Prop := {
  el_me : m_me s' = m_me s;
  el_peers : m_peers s' = m_peers s;
  el_term : m_currentTerm s' = m_currentTerm s + 1;
  el_vote : m_votedFor s' = Z.of_nat (m_me s);
  el_cells : shared_ints s' = shared_ints s ++ [1];
  el_result : (m_peers s = 1%nat ∧ m_status s' = Leader ∧ m_ioManager s' = m_ioManager s ++ [TDoHeartBeat]) ∨
              (m_peers s ≠ 1%nat ∧ m_status s' = Candidate ∧ m_ioManager s' = m_ioManager s ++ election_tasks s)
}.

(** What counting a vote changes; [n] is the count before. *)
Record vote_step (p : nat) (n : Z) s s' : Prop := {
  vs_me : m_me s' = m_me s;
  vs_peers : m_peers s' = m_peers s;
  vs_term : m_currentTerm s' = m_currentTerm s;
  vs_vote : m_votedFor s' = m_votedFor s;
  vs_count : shared_ints s !! p = Some n;
  vs_result :
    (n + 1 < Z.of_nat (m_peers s / 2 + 1) ∧ m_status s' = m_status s ∧
     shared_ints s' = <[p := n + 1]> (shared_ints s) ∧ m_ioManager s' = m_ioManager s) ∨
    (Z.of_nat (m_peers s / 2 + 1) <= n + 1 ∧ m_status s ≠ Leader ∧ m_status s' = Leader ∧
     shared_ints s' = <[p := 0]> (shared_ints s) ∧ m_ioManager s' = m_ioManager s ++ [TDoHeartBeat])
}.

(** The apply message of the entry [e] of index [i]. *)
Definition command_msg (e : LogEntry) (i : Z) : ApplyMsg :=
  mkApplyMsg true (command e) i false "" (-1) (-1).

(** A majority of the [n] peers. *)
Definition majority (n : nat) : Z := Z.of_nat (n / 2 + 1).

(** The number of replicas [leaderUpdateCommitIndex] counts for [index]. *)
Definition replicas s (index : Z) : Z :=
  Z.of_nat (length (List.filter
    (λ i, (i =? m_me s)%nat ||
          match m_matchIndex s !! i with Some m => index <=? m | None => false end)
    (seq 0 (m_peers s)))).

End defs.

#[export] Instance frame_refl {P} : Reflexive (@frame P).
Proof. intros s. constructor; auto; lia. Qed.
#[export] Instance frame_trans {P} : Transitive (@frame P).
Proof.
  intros s1 s2 s3 [] []. constructor; [congruence|congruence|lia|].
  intros E. destruct fr_vote0 as [|E1]; [lia|auto|].
  destruct fr_vote1 as [|E2]; [lia|left; congruence|right; congruence].
Qed.
#[export] Instance quiet_refl {P} : Reflexive (@quiet P).
Proof.
  intros s. constructor; [done|done| |done].
  exists []. by rewrite app_nil_r.
Qed.
#[export] Instance quiet_trans {P} : Transitive (@quiet P).
Proof.
  intros s1 s2 s3 [? ? (n1 & ? & ?) Hs1] [? ? (n2 & ? & ?) Hs2].
  constructor; [by etrans|congruence| |].
  - exists (n1 ++ n2). rewrite app_assoc. split; [congruence|]. by apply Forall_app.
  - intros [Hl ?]%Hs2. apply Hs1 in Hl as [? ?]. split; [done|congruence].
Qed.

(** ** Symbolic execution of the helpers of the handlers *)

Section rules.
Context {P : Type} `{PersisterOps P} `{RaftArchive}.
Implicit Types s : Raft P.

Lemma wp_persist (Q : unit → Raft P → Prop) s :
  (∀ p, Q tt (set_m_persister p s)) → wp persist Q s.
Proof. intros HQ [] s' Hr. destruct (persist_Ok s) as [p E]. rewrite E in Hr. by simplify_eq. Qed.

Lemma wp_persister_Save d (Q : unit → Raft P → Prop) s :
  (∀ p, Q tt (set_m_persister p s)) → wp (persister_Save d) Q s.
Proof. intros HQ. unfold persister_Save. wp_run; auto. Qed.

Lemma wp_persister_ReadSnapshot (Q : string → Raft P → Prop) s :
  (∀ d p, Q d (set_m_persister p s)) → wp persister_ReadSnapshot Q s.
Proof. intros HQ. unfold persister_ReadSnapshot. wp_run; auto. Qed.

Lemma wp_slices i (Q : Z → Raft P → Prop) s :
  (m_lastSnapshotIncludeIndex s < i <= getLastLogIndex s →
   Q (i - m_lastSnapshotIncludeIndex s - 1) s) → wp (getSlicesIndexFromLogIndex i) Q s.
Proof. intros HQ r s' (-> & -> & ?)%slices_inv. auto. Qed.

Lemma wp_log_at i (Q : LogEntry → Raft P → Prop) s :
  (∀ e, entry_at s i = Some e → m_lastSnapshotIncludeIndex s < i <= getLastLogIndex s → Q e s) →
  wp (log_at i) Q s.
Proof. intros HQ r s' (-> & ? & ?)%log_at_inv. auto. Qed.

Lemma wp_getLogTerm i (Q : Z → Raft P → Prop) s :
  (∀ t, term_at s i = Some t → Q t s) → wp (getLogTermFromLogIndex i) Q s.
Proof. intros HQ r s' (-> & ? & ?)%getLogTerm_inv. auto. Qed.

Lemma wp_matchLog i t (Q : bool → Raft P → Prop) s :
  (∀ b, m_lastSnapshotIncludeIndex s <= i <= getLastLogIndex s → Q b s) → wp (matchLog i t) Q s.
Proof. intros HQ r s' (-> & ? & ?)%matchLog_inv. auto. Qed.

Lemma wp_become_follower t (Q : unit → Raft P → Prop) s :
  Q tt (set_m_votedFor (-1) (set_m_currentTerm t (set_m_status Follower s))) →
  wp (become_follower t) Q s.
Proof. intros HQ. unfold become_follower. by wp_run. Qed.

Lemma wp_backtrack prev (Q : Z → Raft P → Prop) s :
  (∀ n, Q n s) → wp (AppendEntries_backtrack prev) Q s.
Proof.
  intros HQ. unfold AppendEntries_backtrack. do 2 wp_step. wp_step.
  apply (wp_for_until (λ _ _, True)); [|by wp_step|intros; by wp_step].
  intros i _. unfold AppendEntries_backtrack_step. wp_step. apply wp_getLogTerm. intros t _.
  wp_step. apply wp_getLogTerm. intros tp _. by wp_step.
Qed.

Lemma wp_sum_replicas index l n (Q : Z → Raft P → Prop) s :
  (∀ r, Q r s) → wp (sum_replicas index l n) Q s.
Proof.
  intros HQ. revert n. induction l as [|i l IH]; intros n; simpl; [by wp_step|].
  unfold count_replicas. wp_run; auto.
Qed.

End rules.

Ltac raft_step :=
  lazymatch goal with
  | |- wp persist _ _ => apply wp_persist; intros ?
  | |- wp (persister_Save _) _ _ => apply wp_persister_Save; intros ?
  | |- wp persister_ReadSnapshot _ _ => apply wp_persister_ReadSnapshot; intros ? ?
  | |- wp (getSlicesIndexFromLogIndex _) _ _ => apply wp_slices; intros ?
  | |- wp (log_at _) _ _ => apply wp_log_at; intros ? ? ?
  | |- wp (getLogTermFromLogIndex _) _ _ => apply wp_getLogTerm; intros ? ?
  | |- wp (matchLog _ _) _ _ => apply wp_matchLog; intros ? ?
  | |- wp (become_follower _) _ _ => apply wp_become_follower
  | |- wp (AppendEntries_backtrack _) _ _ => apply wp_backtrack; intros ?
  | |- wp (sum_replicas _ _ _) _ _ => apply wp_sum_replicas; intros ?
  | |- wp (schedule _) _ _ => apply wp_modify
  | |- _ => wp_step
  end.
Ltac raft_run := repeat raft_step.

Section loops.
Context {P : Type} `{PersisterOps P} `{RaftArchive}.
Implicit Types s : Raft P.

Lemma wp_entries es (Q : unit → Raft P → Prop) s :
  (∀ l, Q tt (set_m_logs l s)) → wp (for_each es AppendEntries_entry) Q s.
Proof.
  intros HQ. apply (wp_for_each (λ s', ∃ l, s' = set_m_logs l s)).
  - exists (m_logs s). by rewrite set_m_logs_id.
  - intros e s1 _ [l ->]. unfold AppendEntries_entry. raft_run; try done; by eexists.
  - by intros ? [l ->].
Qed.

(** [leaderUpdateCommitIndex] only writes the commit index, and never beyond
    the end of the log. *)
Lemma wp_leaderUpdateCommitIndex (Q : unit → Raft P → Prop) s :
  (∀ c, c = m_lastSnapshotIncludeIndex s ∨ m_lastSnapshotIncludeIndex s < c <= getLastLogIndex s →
    Q tt (set_m_commitIndex c s)) →
  wp leaderUpdateCommitIndex Q s.
Proof.
  intros HQ. unfold leaderUpdateCommitIndex. do 5 raft_step.
  change (getLastLogIndex (set_m_commitIndex _ s)) with (getLastLogIndex s).
  apply (wp_for_until (λ i b, b = i)).
  - intros i _. raft_run; (split; [done|]); intros b Hb; repeat case_match; by simplify_eq.
  - raft_run. apply HQ. by left.
  - intros i b Hi%elem_of_zdown ->. raft_run. apply (HQ i). right. lia.
Qed.

Lemma wp_getApplyLogs_loop n (Q : list ApplyMsg → Raft P → Prop) s :
  (∀ r, length r = n →
     (∀ k m, r !! k = Some m → ∃ e,
        entry_at s (m_lastApplied s + Z.of_nat k + 1) = Some e ∧
        m = command_msg e (m_lastApplied s + Z.of_nat k + 1)) →
     Q r (set_m_lastApplied (m_lastApplied s + Z.of_nat n) s)) →
  wp (getApplyLogs_loop n) Q s.
Proof.
  revert s Q. induction n as [|n IH]; intros s Q HQ; simpl.
  - raft_run. specialize (HQ [] eq_refl). rewrite Z.add_0_r in HQ. destruct s. by apply HQ.
  - unfold getApplyLogs_next. raft_run. apply IH. intros r Hr Hmsgs. raft_run.
    match goal with |- Q _ ?y =>
      replace y with (set_m_lastApplied (m_lastApplied s + Z.of_nat (S n)) s)
        by (unfold set_m_lastApplied; simpl; f_equal; lia) end.
    apply HQ; [simpl; lia|]. intros [|k] m Hk; simplify_eq/=.
    + exists e. rewrite Z.add_0_r. done.
    + destruct (Hmsgs k m Hk) as (e' & He' & ->). exists e'.
      replace (m_lastApplied s + Z.of_nat (S k) + 1) with (m_lastApplied s + 1 + Z.of_nat k + 1) by lia.
      done.
Qed.

Lemma wp_trunckedLogs i n (Q : list LogEntry → Raft P → Prop) s :
  (∀ r, (∀ k e, r !! k = Some e → entry_at s (i + Z.of_nat k) = Some e) → length r = n → Q r s) →
  wp (Snapshot_trunckedLogs i n) Q s.
Proof.
  revert i Q. induction n as [|n IH]; intros i Q HQ; simpl.
  - raft_run. by apply HQ.
  - raft_run. apply IH. intros r Hr Hn. raft_run. apply HQ; [|simpl; lia].
    intros [|k] e1 Hk; simplify_eq/=; [by rewrite Z.add_0_r|].
    replace (i + Z.of_nat (S k)) with (i + 1 + Z.of_nat k) by lia. auto.
Qed.

Lemma wp_push_all msgs (Q : unit → Raft P → Prop) s :
  (∀ ch, Q tt (set_applyChan ch s)) → wp (for_each msgs pushMsgToKvServer) Q s.
Proof.
  intros HQ. apply (wp_for_each (λ s', ∃ ch, s' = set_applyChan ch s)).
  - exists (applyChan s). by destruct s.
  - intros m s1 _ [ch ->]. unfold pushMsgToKvServer. raft_run. by eexists.
  - by intros ? [ch ->].
Qed.

End loops.

Ltac handler_step :=
  lazymatch goal with
  | |- wp (for_each _ AppendEntries_entry) _ _ => apply wp_entries; intros ?
  | |- wp leaderUpdateCommitIndex _ _ => apply wp_leaderUpdateCommitIndex; intros ? ?
  | |- wp (getApplyLogs_loop _) _ _ => apply wp_getApplyLogs_loop; intros ? ? ?
  | |- wp (Snapshot_trunckedLogs _ _) _ _ => apply wp_trunckedLogs; intros ? ? ?
  | |- wp (for_each _ pushMsgToKvServer) _ _ => apply wp_push_all; intros ?
  | |- _ => raft_step
  end.
Ltac handler_run := repeat handler_step.

(** Close a [quiet] goal between two concrete states. *)
Ltac solve_quiet :=
  constructor; [constructor| | |]; simpl; zify_bool;
  try solve [done | lia | naive_solver lia
            | eexists; split; [by rewrite app_nil_r|done]
            | eexists; split; [done|by repeat constructor]].

(** ** The quiet handlers *)

Section quiet_handlers.
Context {P : Type} `{PersisterOps P} `{RaftArchive}.
Implicit Types s : Raft P.

Lemma AppendEntries_quiet now args s : wp (AppendEntries now args) (λ _ s', quiet s s') s.
Proof.
  unfold AppendEntries, AppendEntries_body, AppendEntries_log.
  handler_run; solve_quiet.
Qed.

Lemma RequestVote_quiet now args s : wp (RequestVote now args) (λ _ s', quiet s s') s.
Proof. unfold RequestVote, RequestVote_body. handler_run; solve_quiet. Qed.

Lemma InstallSnapshot_quiet now args s : wp (InstallSnapshot now args) (λ _ s', quiet s s') s.
Proof. unfold InstallSnapshot. handler_run; solve_quiet. Qed.

Lemma Start_quiet op s : wp (Start op) (λ _ s', quiet s s') s.
Proof. unfold Start. handler_run; solve_quiet. Qed.

Lemma Snapshot_quiet i d s : wp (Snapshot i d) (λ _ s', quiet s s') s.
Proof. unfold Snapshot. handler_run; solve_quiet. Qed.

Lemma applierTicker_quiet s : wp applierTicker_turn (λ _ s', quiet s s') s.
Proof. unfold applierTicker_turn, getApplyLogs. handler_run; solve_quiet. Qed.

Lemma pushMsg_quiet m s : wp (pushMsgToKvServer m) (λ _ s', quiet s s') s.
Proof. unfold pushMsgToKvServer. handler_run; solve_quiet. Qed.

Lemma leaderSendSnapShot_args_quiet s : wp leaderSendSnapShot_args (λ _ s', quiet s s') s.
Proof. unfold leaderSendSnapShot_args. handler_run; solve_quiet. Qed.

Lemma leaderSendSnapShot_reply_quiet now rpc server args s :
  wp (leaderSendSnapShot_reply now rpc server args) (λ _ s', quiet s s') s.
Proof.
  unfold leaderSendSnapShot_reply, set_matchIndex_at, set_nextIndex_at.
  handler_run; solve_quiet.
Qed.

End quiet_handlers.

(** ** Heartbeats, elections and the replies to their messages *)

Section active_handlers.
Context {P : Type} `{PersisterOps P} `{RaftArchive}.
Implicit Types s : Raft P.

Lemma wp_getPrevLogInfo server (Q : Z * Z → Raft P → Prop) s :
  (∀ pre t, m_lastSnapshotIncludeIndex s <= pre → Q (pre, t) s) →
  wp (getPrevLogInfo server) Q s.
Proof.
  intros HQ. unfold getPrevLogInfo. handler_run; apply HQ; lia.
Qed.

Lemma heartbeat_step_snoc s s' t :
  heartbeat_step s s' → heartbeat_task s (length (shared_ints s)) t →
  heartbeat_step s (set_m_ioManager (m_ioManager s' ++ [t]) s').
Proof.
  intros [Hf Ht Hv Hs Hc (new & Hn & Hall)] Htask. constructor; simpl; auto.
  - destruct Hf. by constructor.
  - exists (new ++ [t]). rewrite Hn, app_assoc. split; [done|].
    apply Forall_app. split; [done|by repeat constructor].
Qed.

(** The messages of a heartbeat: the entries after [prevlogindex], all of them. *)
Lemma doHeartBeat_peer_step s0 s i :
  heartbeat_step s0 s → m_logs s = m_logs s0 →
  m_lastSnapshotIncludeIndex s = m_lastSnapshotIncludeIndex s0 →
  wp (doHeartBeat_peer (length (shared_ints s0)) i)
    (λ _ s', heartbeat_step s0 s' ∧ m_logs s' = m_logs s0 ∧
             m_lastSnapshotIncludeIndex s' = m_lastSnapshotIncludeIndex s0) s.
Proof.
  intros Hs Hl Hsn. unfold doHeartBeat_peer. repeat first [
    match goal with |- wp (getPrevLogInfo _) _ _ => apply wp_getPrevLogInfo; intros ? ? ? end
    | handler_step]; try done.
  - split; [|done]. by apply heartbeat_step_snoc.
  - simplify_eq. split; [|done]. apply heartbeat_step_snoc; [done|]. simpl.
    split_and!; [done|apply Hs|]. rewrite <- Hl, <- Hsn. intros Hc. zify_bool.
    rewrite (getLastLogIndex_wf s Hc) in *.
    set (k := Z.to_nat (pre - m_lastSnapshotIncludeIndex s - 1 + 1)) in *.
    replace pre with (m_lastSnapshotIncludeIndex s + Z.of_nat k) by lia.
    apply contiguous_drop; [lia|done].
  - simplify_eq. split; [|done]. apply heartbeat_step_snoc; [done|]. simpl.
    split_and!; [done|apply Hs|]. rewrite <- Hl, <- Hsn. intros Hc. zify_bool.
    by match goal with E : _ = m_lastSnapshotIncludeIndex s |- _ => rewrite E end.
Qed.

Lemma doHeartBeat_step now s :
  wp (doHeartBeat now) (λ _ s', if decide (m_status s = Leader) then heartbeat_step s s' else s' = s) s.
Proof.
  unfold doHeartBeat. do 2 handler_step. case_decide as D; [|by handler_step].
  unfold make_shared_int. handler_run.
  set (s1 := set_shared_ints _ s).
  apply (wp_for_each (λ s', heartbeat_step s s' ∧ m_logs s' = m_logs s ∧
             m_lastSnapshotIncludeIndex s' = m_lastSnapshotIncludeIndex s)).
  - split; [|done]. constructor; try done.
    + constructor; try done; simpl; auto.
    + exists []. by rewrite app_nil_r.
  - intros i s2 _ (H1 & H2 & H3). by apply doHeartBeat_peer_step.
  - intros s2 ([Hf Ht Hv Hs Hc Hn] & _). handler_step. constructor; try done.
    destruct Hf. by constructor.
Qed.

Lemma sendAppendEntries_step rpc server args p s :
  wp (sendAppendEntries rpc server args p) (λ _ s', append_reply_step p s s') s.
Proof.
  assert (Hrefl : append_reply_step p s s) by by constructor.
  unfold sendAppendEntries, shared_get, shared_set, set_nextIndex_at, set_matchIndex_at.
  handler_run; try done;
    (constructor; [constructor|..]; simpl; zify_bool; try done; try lia; try naive_solver lia).
  all: try (split; [by rewrite ?length_insert|intros; by rewrite ?list_lookup_insert_ne]).
  all: intros _; split; [by apply bool_decide_eq_true_1|done].
Qed.

Lemma wp_init_leader_indexes n (Q : unit → Raft P → Prop) s :
  (∀ a b, length a = length (m_nextIndex s) → length b = length (m_matchIndex s) →
    Q tt (set_m_matchIndex b (set_m_nextIndex a s))) →
  wp (init_leader_indexes n) Q s.
Proof.
  intros HQ. unfold init_leader_indexes, vec_fill.
  handler_run; apply HQ; rewrite length_app, length_replicate, length_drop;
    match goal with E : (_ <=? _)%nat = true |- _ => apply Nat.leb_le in E end;
    repeat match goal with E : (_ <=? _)%nat = true |- _ => apply Nat.leb_le in E end; lia.
Qed.

Lemma doElection_requests s l p :
  for_each l (doElection_request p) s =
  Ok (tt, set_m_ioManager (m_ioManager s ++
    map (λ i, TSendRequestVote i (mkRequestVoteArgs (m_currentTerm s) (Z.of_nat (m_me s))
       (getLastLogIndex s) (getLastLogTerm s)) p) (List.filter (λ i, negb (i =? m_me s)%nat) l)) s).
Proof.
  revert s. induction l as [|i l IH]; intros s; simpl.
  - rewrite app_nil_r. by destruct s.
  - unfold mbind, M_bind.
    assert (doElection_request p i s = Ok (tt, if (i =? m_me s)%nat then s else
      set_m_ioManager (m_ioManager s ++ [TSendRequestVote i
        (mkRequestVoteArgs (m_currentTerm s) (Z.of_nat (m_me s)) (getLastLogIndex s) (getLastLogTerm s)) p]) s)) as ->.
    { unfold doElection_request, getLastLogIndex, getLastLogTerm, mbind, M_bind, gets. simpl.
      destruct (i =? m_me s)%nat; [done|]. by destruct (getLastLogIndexAndTerm s). }
    rewrite IH. destruct (i =? m_me s)%nat eqn:E; simpl; [done|].
    rewrite <- app_assoc. done.
Qed.

Lemma doElection_step now s :
  wp (doElection now) (λ _ s', if decide (m_status s = Leader) then s' = s else election_step s s') s.
Proof.
  unfold doElection. do 2 handler_step. case_decide as D; [by handler_step|].
  unfold make_shared_int. repeat first [
    match goal with |- wp (init_leader_indexes _) _ _ => apply wp_init_leader_indexes; intros ? ? ? ? end
    | handler_step].
  - apply Nat.eqb_eq in Heqb. constructor; try done. by left.
  - intros [] s' Hr. rewrite doElection_requests in Hr. injection Hr as <-.
    apply Nat.eqb_neq in Heqb. constructor; try done. by right.
Qed.

Lemma sendRequestVote_step rpc server args p s :
  wp (sendRequestVote rpc server args p)
    (λ _ s', quiet s s' ∨
       ∃ reply n, rpc = Some reply ∧ rvr_votegranted reply = true ∧
         rvr_term reply = m_currentTerm s ∧ vote_step p n s s') s.
Proof.
  unfold sendRequestVote, shared_get, shared_set. repeat first [
    match goal with |- wp (init_leader_indexes _) _ _ => apply wp_init_leader_indexes; intros ? ? ? ? end
    | handler_step]; try done; try solve [left; solve_quiet].
  all: right; eexists _, _; zify_bool; split_and!; [done|done|lia|].
  all: constructor; try done; simpl; rewrite ?list_insert_insert_eq; naive_solver lia.
Qed.

End active_handlers.

(** ** Every handler keeps the node well-formed *)

Section well_formed.
Context {P : Type} `{PersisterOps P} `{RaftArchive}.
Implicit Types s : Raft P.

Ltac solve_wf :=
  match goal with
  | Hwf : node_wf ?s |- node_wf _ =>
      pose proof (getLastLogIndex_wf s (wf_log s Hwf));
      destruct Hwf; constructor; simpl in *; rewrite ?length_insert; zify_bool; try done; try lia
  end.

Lemma AppendEntries_wf now args s :
  node_wf s → contiguous (ae_prevlogindex args) (ae_entries args) →
  wp (AppendEntries now args) (λ _ s', node_wf s') s.
Proof.
  intros Hwf Hes r s' Hr. destruct (decide (m_currentTerm s <= ae_term args)) as [Ht|Ht]; last first.
  { revert Hr. unfold AppendEntries, mbind, M_bind, gets. simpl.
    rewrite (proj2 (Z.ltb_lt _ _)) by lia. by intros [= <- <-]. }
  rewrite AppendEntries_run in Hr by done.
  pose proof (adopt_wf now (ae_term args) s Hwf) as Hwf1.
  set (s1 := adopt now (ae_term args) s) in *. clearbody s1.
  assert (∃ r1 s2, AppendEntries_log args (mkAppendEntriesReply 0 false 0 AppNormal) s1 = Ok (r1, s2) ∧
     node_wf s2) as (r1 & s2 & E & Hwf2).
  { destruct (AppendEntries_log_cases args s1 Hwf1 Hes) as [Hs|[[Hp Hx]|[[Hp (t & Hat & Hne)]|[Hat Hn]]]].
    - rewrite AppendEntries_log_short by done. eauto.
    - by rewrite AppendEntries_log_exit in Hr by done.
    - destruct (AppendEntries_log_mismatch args (mkAppendEntriesReply 0 false 0 AppNormal) s1 t)
        as (n & -> & _); [apply Hwf1|done..|]. eauto.
    - destruct (AppendEntries_log_accept args (mkAppendEntriesReply 0 false 0 AppNormal) s1)
        as (l & c & -> & _ & Hc & Hl & Hlen); [done..|].
      eexists _, _. split; [done|]. pose proof (wf_commit _ Hwf1).
      pose proof (getLastLogIndex_wf (set_m_logs l s1) Hl) as HL. simpl in HL.
      apply node_wf_commit_logs; [done|done|lia|].
      rewrite Hc, HL. destruct (_ <? _) eqn:?; blia. }
  rewrite E in Hr. destruct (persist_Ok s2) as [p Hp]. rewrite Hp in Hr. simplify_eq.
  by apply node_wf_set_persister.
Qed.

Lemma RequestVote_wf now args s : node_wf s → wp (RequestVote now args) (λ _ s', node_wf s') s.
Proof. intros Hwf. unfold RequestVote, RequestVote_body. handler_run; solve_wf. Qed.

Lemma InstallSnapshot_wf now args s : node_wf s → wp (InstallSnapshot now args) (λ _ s', node_wf s') s.
Proof.
  intros Hwf. unfold InstallSnapshot. handler_run; try solve [solve_wf | destruct Hwf; by constructor].
  all: pose proof (getLastLogIndex_wf s (wf_log s Hwf)) as HL.
  all: change (getLastLogIndex _) with (getLastLogIndex s) in *; simpl in *; zify_bool.
  all: destruct Hwf as [Hc ? ? ? ? ? ?]; constructor; simpl; rewrite ?length_drop; try done; try lia.
  all: replace (is_lastsnapshotincludeindex args) with (m_lastSnapshotIncludeIndex s +
      Z.of_nat (Z.to_nat (is_lastsnapshotincludeindex args - m_lastSnapshotIncludeIndex s - 1 + 1)))
      at 1 by lia; apply contiguous_drop; [lia|done].
Qed.

Lemma Start_wf op s : node_wf s → wp (Start op) (λ _ s', node_wf s') s.
Proof.
  intros Hwf. pose proof (getLastLogIndex_wf s (wf_log s Hwf)) as HL.
  unfold Start. handler_run; [done|].
  set (s1 := set_m_persister _ _) in *.
  assert (Hc : log_wf s1).
  { apply contiguous_snoc; [apply Hwf|]. simpl. unfold getNewCommandIndex. lia. }
  pose proof (getLastLogIndex_wf s1 Hc) as HL1. simpl in HL1. rewrite length_app in HL1. simpl in HL1.
  destruct Hwf. constructor; simpl in *; rewrite ?length_app; simpl; try done; lia.
Qed.

Lemma Snapshot_wf i d s : node_wf s → wp (Snapshot i d) (λ _ s', node_wf s') s.
Proof.
  intros Hwf. pose proof (getLastLogIndex_wf s (wf_log s Hwf)) as HL.
  unfold Snapshot. handler_run; [done|]. zify_bool. simpl in *.
  destruct Hwf as [Hc ? ? ? ? ? ?]; constructor; simpl; try done; try lia.
  intros k e1 Hk. match goal with Hr : ∀ k e, _ → entry_at s _ = _ |- _ => apply Hr in Hk end.
  apply entry_at_Some in Hk as [_ ->]; [lia|done].
Qed.

Lemma applierTicker_wf s : node_wf s → wp applierTicker_turn (λ _ s', node_wf s') s.
Proof. intros Hwf. unfold applierTicker_turn, getApplyLogs. handler_run. solve_wf. Qed.

Lemma pushMsg_wf m s : node_wf s → wp (pushMsgToKvServer m) (λ _ s', node_wf s') s.
Proof. intros Hwf. unfold pushMsgToKvServer. handler_run. solve_wf. Qed.

Lemma leaderSendSnapShot_args_wf s : node_wf s → wp leaderSendSnapShot_args (λ _ s', node_wf s') s.
Proof. intros Hwf. unfold leaderSendSnapShot_args. handler_run. solve_wf. Qed.

Lemma leaderSendSnapShot_reply_wf now rpc server args s :
  node_wf s → wp (leaderSendSnapShot_reply now rpc server args) (λ _ s', node_wf s') s.
Proof.
  intros Hwf. unfold leaderSendSnapShot_reply, set_matchIndex_at, set_nextIndex_at.
  handler_run; solve_wf.
Qed.

Lemma sendAppendEntries_wf rpc server args p s :
  node_wf s → wp (sendAppendEntries rpc server args p) (λ _ s', node_wf s') s.
Proof.
  intros Hwf. unfold sendAppendEntries, shared_get, shared_set, set_nextIndex_at, set_matchIndex_at.
  handler_run; solve_wf.
Qed.

Lemma doHeartBeat_wf now s : node_wf s → wp (doHeartBeat now) (λ _ s', node_wf s') s.
Proof.
  intros Hwf. unfold doHeartBeat, make_shared_int. handler_run; [|done].
  apply (wp_for_each node_wf); [solve_wf| |intros; handler_run; by destruct H1; constructor].
  intros i s1 _ Hwf1. unfold doHeartBeat_peer. repeat first [
    match goal with |- wp (getPrevLogInfo _) _ _ => apply wp_getPrevLogInfo; intros ? ? ? end
    | handler_step]; try done; by destruct Hwf1; constructor.
Qed.

Lemma doElection_wf now s : node_wf s → wp (doElection now) (λ _ s', node_wf s') s.
Proof.
  intros Hwf. unfold doElection, make_shared_int. repeat first [
    match goal with |- wp (init_leader_indexes _) _ _ => apply wp_init_leader_indexes; intros ? ? ? ? end
    | handler_step]; [done| |].
  - destruct Hwf; constructor; simpl in *; try done; congruence.
  - intros [] s' Hr. rewrite doElection_requests in Hr. injection Hr as <-. by destruct Hwf; constructor.
Qed.

Lemma sendRequestVote_wf rpc server args p s :
  node_wf s → wp (sendRequestVote rpc server args p) (λ _ s', node_wf s') s.
Proof.
  intros Hwf. unfold sendRequestVote, shared_get, shared_set. repeat first [
    match goal with |- wp (init_leader_indexes _) _ _ => apply wp_init_leader_indexes; intros ? ? ? ? end
    | handler_step]; try done; destruct Hwf; constructor; simpl in *; try done; congruence.
Qed.

End well_formed.

(** The lemma of each handler, found by the handler it is about. *)
#[export] Hint Resolve AppendEntries_wf RequestVote_wf InstallSnapshot_wf Start_wf Snapshot_wf
  applierTicker_wf pushMsg_wf leaderSendSnapShot_args_wf leaderSendSnapShot_reply_wf
  sendAppendEntries_wf doHeartBeat_wf doElection_wf sendRequestVote_wf : rsylar.
#[export] Hint Resolve AppendEntries_quiet RequestVote_quiet InstallSnapshot_quiet Start_quiet
  Snapshot_quiet applierTicker_quiet pushMsg_quiet leaderSendSnapShot_args_quiet
  leaderSendSnapShot_reply_quiet doElection_step doHeartBeat_step sendAppendEntries_step
  sendRequestVote_step : rsylar.
