(* ===== verification/RaftNet.v ===== *)
(** * RaftNet: a cluster of raft nodes

    The nodes, the closures waiting in their IO managers and the RPCs in
    flight.  [run_op] is one critical section of a node; [exec] one step of the
    cluster: a timer, a client request, a closure started, an RPC served, its
    reply handled, or an RPC that fails at the caller (whether or not it was
    served).  Steps interleave freely, messages are reordered and lost, and a
    node that exits or halts is one that takes no further step; a node that
    restarts is not a step of this relation (see [Restart]). *)

From S2P Require Import Prelude.
From S2P Require Import Persister.
From S2P Require Import RaftTypes.
From S2P Require Import Raft.
From S2P Require Import RaftFacts.
From S2P Require Import RaftHandlers.

(** ** Definitions *)

(** The critical sections of a node. *)
Inductive node_op :=
  | OpAppendEntries (now : Z) (args : AppendEntriesArgs)
  | OpRequestVote (now : Z) (args : RequestVoteArgs)
  | OpInstallSnapshot (now : Z) (args : InstallSnapshotRequest)
  | OpElection (now : Z)
  | OpHeartBeat (now : Z)
  | OpApply
  | OpStart (cmd : Op)
  | OpSnapshot (index : Z) (snapshot : string)
  | OpPush (msg : ApplyMsg)
  | OpVoteReply (rpc : option RequestVoteReply) (server : nat) (args : RequestVoteArgs) (p : nat)
  | OpAppendReply (rpc : option AppendEntriesReply) (server : nat) (args : AppendEntriesArgs) (p : nat)
  | OpSnapShotArgs
  | OpSnapShotReply (now : Z) (rpc : option InstallSnapshotResponse) (server : nat)
      (args : InstallSnapshotRequest).

(** What a critical section returns to the cluster. *)
Inductive answer :=
  | ANone
  | AVote (reply : RequestVoteReply)
  | AAppend (reply : AppendEntriesReply)
  | ASnap (reply : InstallSnapshotResponse)
  | ASnapShotArgs (args : InstallSnapshotRequest).

(** RPCs in flight, with the reply once the server has handled the request. *)
Inductive call :=
  | CVote (from server : nat) (args : RequestVoteArgs) (p : nat) (reply : option RequestVoteReply)
  | CAppend (from server : nat) (args : AppendEntriesArgs) (p : nat) (reply : option AppendEntriesReply)
  | CSnap (from server : nat) (args : InstallSnapshotRequest) (reply : option InstallSnapshotResponse).

(** The operations a node starts by itself or on a client's behalf. *)
Definition is_local (o : node_op) : bool :=
  match o with
  | OpElection _ | OpHeartBeat _ | OpApply | OpStart _ | OpSnapshot _ _ => true
  | _ => false
  end.

Inductive event :=
  | EvOp (i : nat) (o : node_op)
  | EvTask (i k : nat) (now : Z)
  | EvServe (k : nat) (now : Z)
  | EvReply (k : nat) (now : Z)
  | EvLost (k : nat) (now : Z).

Section net.
Context {P : Type} `{PersisterOps P} `{RaftArchive}.

Record net := mkNet {
  nodes : list (Raft P);
  calls : list call
}.

Definition run_op (o : node_op) : M (Raft P) answer :=
  match o with
  | OpAppendEntries now args => r ← AppendEntries now args; mret (AAppend r)
  | OpRequestVote now args => r ← RequestVote now args; mret (AVote r)
  | OpInstallSnapshot now args => r ← InstallSnapshot now args; mret (ASnap r)
  | OpElection now => doElection now ;; mret ANone
  | OpHeartBeat now => doHeartBeat now ;; mret ANone
  | OpApply => applierTicker_turn ;; mret ANone
  | OpStart cmd => Start cmd ;; mret ANone
  | OpSnapshot index snapshot => Snapshot index snapshot ;; mret ANone
  | OpPush msg => pushMsgToKvServer msg ;; mret ANone
  | OpVoteReply rpc server args p => sendRequestVote rpc server args p ;; mret ANone
  | OpAppendReply rpc server args p => sendAppendEntries rpc server args p ;; mret ANone
  | OpSnapShotArgs => r ← leaderSendSnapShot_args; mret (ASnapShotArgs r)
  | OpSnapShotReply now rpc server args => leaderSendSnapShot_reply now rpc server args ;; mret ANone
  end.

Definition on_node (i : nat) (o : node_op) (n : net) : option (answer * net) :=
  match nodes n !! i with
  | Some s =>
      match run_op o s with
      | Ok (a, s') => Some (a, mkNet (<[i := s']> (nodes n)) (calls n))
      | Fail _ => None
      end
  | None => None
  end.

Definition add_call (c : call) (n : net) : net := mkNet (nodes n) (calls n ++ [c]).

Definition drop_call (k : nat) (n : net) : net := mkNet (nodes n) (delete k (calls n)).

Definition update_call (k : nat) (c : call) (n : net) : net := mkNet (nodes n) (<[k := c]> (calls n)).

(** The IO manager of node [i] takes the closure number [k] of its queue. *)
Definition take_task (i k : nat) (n : net) : option (task * net) :=
  s ← nodes n !! i;
  t ← m_ioManager s !! k;
  Some (t, mkNet (<[i := set_m_ioManager (delete k (m_ioManager s)) s]> (nodes n)) (calls n)).

Definition exec_task (i : nat) (t : task) (now : Z) (n : net) : option net :=
  match t with
  | TSendRequestVote server args p => Some (add_call (CVote i server args p None) n)
  | TSendAppendEntries server args p => Some (add_call (CAppend i server args p None) n)
  | TLeaderSendSnapShot server =>
      match on_node i OpSnapShotArgs n with
      | Some (ASnapShotArgs args, n') => Some (add_call (CSnap i server args None) n')
      | _ => None
      end
  | TPushMsgToKvServer msg => snd <$> on_node i (OpPush msg) n
  | TDoHeartBeat => snd <$> on_node i (OpHeartBeat now) n
  | TLeaderHearBeatTicker | TElectionTimeOutTicker | TApplierTicker => Some n
  end.

(** The server of the call number [k] handles the request. *)
Definition exec_serve (k : nat) (now : Z) (n : net) : option net :=
  match calls n !! k with
  | Some (CVote from server args p None) =>
      match on_node server (OpRequestVote now args) n with
      | Some (AVote r, n') => Some (update_call k (CVote from server args p (Some r)) n')
      | _ => None
      end
  | Some (CAppend from server args p None) =>
      match on_node server (OpAppendEntries now args) n with
      | Some (AAppend r, n') => Some (update_call k (CAppend from server args p (Some r)) n')
      | _ => None
      end
  | Some (CSnap from server args None) =>
      match on_node server (OpInstallSnapshot now args) n with
      | Some (ASnap r, n') => Some (update_call k (CSnap from server args (Some r)) n')
      | _ => None
      end
  | _ => None
  end.

(** What the caller runs when the call ends; [lost] drops the reply. *)
Definition return_op (lost : bool) (now : Z) (c : call) : option (nat * node_op) :=
  match c with
  | CVote from server args p reply =>
      if lost then Some (from, OpVoteReply None server args p)
      else r ← reply; Some (from, OpVoteReply (Some r) server args p)
  | CAppend from server args p reply =>
      if lost then Some (from, OpAppendReply None server args p)
      else r ← reply; Some (from, OpAppendReply (Some r) server args p)
  | CSnap from server args reply =>
      if lost then Some (from, OpSnapShotReply now None server args)
      else r ← reply; Some (from, OpSnapShotReply now (Some r) server args)
  end.

Definition exec_return (lost : bool) (k : nat) (now : Z) (n : net) : option net :=
  c ← calls n !! k;
  '(from, o) ← return_op lost now c;
  snd <$> on_node from o (drop_call k n).

Definition exec (ev : event) (n : net) : option net :=
  match ev with
  | EvOp i o => if is_local o then snd <$> on_node i o n else None
  | EvTask i k now => '(t, n') ← take_task i k n; exec_task i t now n'
  | EvServe k now => exec_serve k now n
  | EvReply k now => exec_return false k now n
  | EvLost k now => exec_return true k now n
  end.

Fixpoint run_events (evs : list event) (n : net) : option net :=
  match evs with
  | [] => Some n
  | ev :: evs' => n' ← exec ev n; run_events evs' n'
  end.

Inductive step (n n' : net) : Prop :=
  | step_event ev : exec ev n = Some n' → step n n'.

(** [size] nodes started on empty persistent states. *)
Definition initial (size : nat) (n : net) : Prop :=
  calls n = [] ∧ length (nodes n) = size ∧
  ∀ i s, nodes n !! i = Some s →
    ∃ p now, p_ReadRaftState p = "" ∧ init size i p now = Ok s.

Inductive reachable (size : nat) : net → Prop :=
  | reachable_initial n : initial size n → reachable size n
  | reachable_step n n' : reachable size n → step n n' → reachable size n'.

(** Well-formedness of the cluster. *)
Definition call_wf (c : call) : Prop :=
  match c with
  | CAppend _ _ args _ _ => contiguous (ae_prevlogindex args) (ae_entries args)
  | _ => True
  end.

Definition task_wf (t : task) : Prop :=
  match t with
  | TSendAppendEntries _ args _ => contiguous (ae_prevlogindex args) (ae_entries args)
  | _ => True
  end.

Record net_wf (size : nat) (n : net) : Prop := {
  nw_size : length (nodes n) = size;
  nw_nodes : ∀ i s, nodes n !! i = Some s →
    m_me s = i ∧ m_peers s = size ∧ node_wf s ∧ Forall task_wf (m_ioManager s);
  nw_calls : Forall call_wf (calls n)
}.

End net.
#[global] Arguments net P : clear implicits.

(** The operations that need the entries they carry to be consecutive. *)
Definition op_wf (o : node_op) : Prop :=
  match o with
  | OpAppendEntries _ args => contiguous (ae_prevlogindex args) (ae_entries args)
  | _ => True
  end.

(** What a critical section may do, by operation. *)
Definition op_step {P} (o : node_op) (s s' : Raft P) : Prop :=
  match o with
  | OpElection _ => if decide (m_status s = Leader) then s' = s else election_step s s'
  | OpHeartBeat _ => if decide (m_status s = Leader) then heartbeat_step s s' else s' = s
  | OpVoteReply rpc _ _ p => quiet s s' ∨
       ∃ reply n, rpc = Some reply ∧ rvr_votegranted reply = true ∧
         rvr_term reply = m_currentTerm s ∧ vote_step p n s s'
  | OpAppendReply _ _ _ p => append_reply_step p s s'
  | _ => quiet s s'
  end.

(** ** The critical sections *)

Section ops.
Context {P : Type} `{PersisterOps P} `{RaftArchive}.
Implicit Types s : Raft P.

(** The result of an operation is the result of its handler. *)
Lemma wp_handler {A B} (m : M (Raft P) A) (f : A → B) (Q : Raft P → Prop) s :
  wp m (λ _ s', Q s') s → wp (r ← m; mret (f r)) (λ _ s', Q s') s.
Proof. intros Hm. apply wp_bind. intros a s' Hr. apply wp_ret. by eapply Hm. Qed.

Lemma run_op_wf o s : op_wf o → node_wf s → wp (run_op o) (λ _ s', node_wf s') s.
Proof. intros Ho Hwf. destruct o; simpl in *; apply wp_handler; eauto with rsylar. Qed.

Lemma run_op_step o s : wp (run_op o) (λ _ s', op_step o s s') s.
Proof. destruct o; simpl op_step; apply wp_handler; eauto with rsylar. Qed.

(** Every operation keeps the identity of the node and follows the vote rule. *)
Lemma op_step_frame o s s' : op_step o s s' → frame s s'.
Proof.
  destruct o; simpl; try (by intros []).
  - case_decide; [by intros ->|]. intros []. constructor; try done; lia.
  - case_decide; [by intros []|by intros ->].
  - intros [[]|(? & ? & _ & _ & _ & [])]; [done|]. constructor; try done; [lia|auto].
Qed.

Lemma op_step_tasks o s s' :
  op_step o s s' → node_wf s → Forall task_wf (m_ioManager s) → Forall task_wf (m_ioManager s').
Proof.
  assert (Hp : ∀ l, Forall plain_task l → Forall task_wf l).
  { intros l Hl. eapply Forall_impl; [exact Hl|]. by intros []. }
  assert (Hq : quiet s s' → Forall task_wf (m_ioManager s) → Forall task_wf (m_ioManager s')).
  { intros [_ _ (new & -> & ?) _] ?. apply Forall_app. auto. }
  intros Hs Hwf Ht. destruct o; simpl in Hs; try (by apply Hq).
  - case_decide; [by subst|]. destruct Hs as [_ _ _ _ _ [(_ & _ & ->)|(_ & _ & ->)]].
    + apply Forall_app. split; [done|by repeat constructor].
    + apply Forall_app. split; [done|]. apply Forall_map, Forall_true. done.
  - case_decide; [|by subst]. destruct Hs as [_ _ _ _ _ (new & -> & Hnew)].
    apply Forall_app. split; [done|]. eapply Forall_impl; [exact Hnew|].
    intros [] Hh; try done. apply Hh, Hwf.
  - destruct Hs as [Hs|(? & ? & _ & _ & _ & [_ _ _ _ _ [(_ & _ & _ & ->)|(_ & _ & _ & _ & ->)]])]; [by apply Hq|done|].
    apply Forall_app. split; [done|by repeat constructor].
  - by destruct Hs as [_ -> _ _].
Qed.

End ops.

(** ** The cluster *)

Section cluster.
Context {P : Type} `{PersisterOps P} `{RaftArchive}.
Implicit Types (s : Raft P) (n : net P).

Lemma init_empty size i (p : P) now :
  p_ReadRaftState p = "" →
  init size i p now =
  Ok (set_m_ioManager [TLeaderHearBeatTicker; TElectionTimeOutTicker; TApplierTicker] (fresh size i p now)).
Proof. intros E. unfold init, init_body, readPersist. by rewrite E. Qed.

Lemma on_node_inv i o n a n' :
  on_node i o n = Some (a, n') →
  ∃ s s', nodes n !! i = Some s ∧ run_op o s = Ok (a, s') ∧ n' = mkNet (<[i := s']> (nodes n)) (calls n).
Proof. unfold on_node. intros Hn. repeat case_match; naive_solver. Qed.

Lemma take_task_inv i k n t n' :
  take_task i k n = Some (t, n') →
  ∃ s, nodes n !! i = Some s ∧ m_ioManager s !! k = Some t ∧
    n' = mkNet (<[i := set_m_ioManager (delete k (m_ioManager s)) s]> (nodes n)) (calls n).
Proof.
  unfold take_task. intros (s & Hs & Hn)%bind_Some. apply bind_Some in Hn as (t' & Ht & [= -> <-]). eauto.
Qed.

Lemma return_op_wf lost now c from o : return_op lost now c = Some (from, o) → op_wf o.
Proof. destruct c as [? ? ? ? []|? ? ? ? []|? ? ? []], lost; simpl; intros; by simplify_eq. Qed.

(** Well-formedness and the steps the events are made of. *)
Lemma net_wf_set_node size n i s :
  net_wf size n → (nodes n !! i = None ∨ (m_me s = i ∧ m_peers s = size ∧ node_wf s ∧ Forall task_wf (m_ioManager s))) →
  net_wf size (mkNet (<[i := s]> (nodes n)) (calls n)).
Proof.
  intros [] Hs. constructor; simpl; [by rewrite length_insert| |done].
  intros j s' [(-> & <- & Hj)|[? ?]]%list_lookup_insert_Some; [|eauto].
  destruct Hs as [Hs|Hs]; [|done]. by apply lookup_ge_None in Hs; lia.
Qed.

Lemma net_wf_calls size n cs : net_wf size n → Forall call_wf cs → net_wf size (mkNet (nodes n) cs).
Proof. intros [] ?. by constructor. Qed.

Lemma net_wf_on_node size n i o a n' :
  net_wf size n → op_wf o → on_node i o n = Some (a, n') → net_wf size n'.
Proof.
  intros Hn Ho (s & s' & Hs & Hr & ->)%on_node_inv.
  destruct (nw_nodes _ _ Hn _ _ Hs) as (Hm & Hp & Hwf & Ht). pose proof (run_op_step o s _ _ Hr) as Hst. cbv beta in Hst.
  apply net_wf_set_node; [done|]. right.
  destruct (op_step_frame _ _ _ Hst) as [Hm' Hp' _ _]. split_and!; [congruence..| |].
  - by eapply run_op_wf.
  - by eapply op_step_tasks.
Qed.

Lemma net_wf_take_task size n i k t n' :
  net_wf size n → take_task i k n = Some (t, n') → net_wf size n' ∧ task_wf t.
Proof.
  intros Hn (s & Hs & Ht & ->)%take_task_inv.
  destruct (nw_nodes _ _ Hn _ _ Hs) as (Hm & Hp & Hwf & Hts). split.
  - apply net_wf_set_node; [done|]. right. split_and!; [done..| |].
    + by destruct Hwf.
    + simpl. by apply Forall_delete.
  - by eapply Forall_lookup_1 in Hts.
Qed.

Lemma exec_return_wf size lost k now n n' :
  net_wf size n → exec_return lost k now n = Some n' → net_wf size n'.
Proof.
  intros Hn. unfold exec_return. intros (c & Hc & He)%bind_Some. apply bind_Some in He as ([from o] & Ho & He).
  apply fmap_Some in He as ([a n2] & He & ->).
  eapply net_wf_on_node; [|by apply return_op_wf in Ho|done].
  apply net_wf_calls; [done|]. apply Forall_delete, Hn.
Qed.

Lemma exec_wf size ev n n' : net_wf size n → exec ev n = Some n' → net_wf size n'.
Proof.
  intros Hn. destruct ev as [i o|i k now|k now|k now|k now]; simpl.
  - destruct (is_local o) eqn:Ho; [|done]. intros ([] & Hr & ->)%fmap_Some.
    eapply net_wf_on_node; [done| |done]. by destruct o.
  - intros ([t n1] & Ht & He)%bind_Some. destruct (net_wf_take_task _ _ _ _ _ _ Hn Ht) as [Hn1 Hwf].
    destruct t; simpl in He; try (by simplify_eq);
      try (injection He as <-; apply net_wf_calls; [done|]; apply Forall_app; split; [apply Hn1|by repeat constructor]).
    + destruct (on_node _ _ _) as [[[] n2]|] eqn:E; simplify_eq.
      apply (net_wf_on_node size) in E; [|done..].
      apply net_wf_calls; [done|]. apply Forall_app; split; [apply E|by repeat constructor].
    + apply fmap_Some in He as ([] & He & ->). by apply (net_wf_on_node size) in He.
    + apply fmap_Some in He as ([] & He & ->). by apply (net_wf_on_node size) in He.
  - unfold exec_serve. intros He. destruct (calls n !! k) as [c|] eqn:Hk; [|done].
    pose proof (Forall_lookup_1 _ _ _ _ (nw_calls _ _ Hn) Hk) as Hc.
    destruct c as [? ? ? ? []|? ? ? ? []|? ? ? []]; try done;
      destruct (on_node _ _ _) as [[[] n2]|] eqn:E; simplify_eq;
      (apply (net_wf_on_node size) in E; [|done..]);
      (apply net_wf_calls; [done|]; apply Forall_insert; [apply E|done]).
  - apply exec_return_wf, Hn.
  - apply exec_return_wf, Hn.
Qed.

Lemma fresh_wf size i (p : P) now l : (i < size)%nat → node_wf (set_m_ioManager l (fresh size i p now)).
Proof.
  intros. constructor; simpl; rewrite ?length_replicate; try done; lia.
Qed.

Lemma initial_wf size n : initial size n → net_wf size n.
Proof.
  intros (Hc & Hl & Hs). constructor; [done| |by rewrite Hc].
  intros i s Hi. pose proof (lookup_lt_Some _ _ _ Hi).
  destruct (Hs _ _ Hi) as (p & now & Hp & Hr).
  rewrite init_empty in Hr by done. injection Hr as <-.
  split_and!; [done..| |by repeat constructor]. apply fresh_wf. lia.
Qed.

Lemma reachable_wf size n : reachable size n → net_wf size n.
Proof.
  induction 1 as [n Hi|n n' _ IH [ev He]]; [by apply initial_wf|by eapply exec_wf].
Qed.

End cluster.
