(* ===== verification/RaftElection.v ===== *)
(** * RaftElection: at most one leader per term

    Election safety of the cluster of [RaftNet]: the invariant relates the
    votes cast so far, the counters of the elections in progress and the
    requests and replies still to be counted. *)

From S2P Require Import Prelude.
From S2P Require Import Persister.
From S2P Require Import RaftTypes.
From S2P Require Import Raft.
From S2P Require Import RaftFacts.
From S2P Require Import RaftHandlers.
From S2P Require Import RaftNet.

(** ** Definitions *)

(** A request for a vote, waiting in the IO manager of [fl_from] or sent. *)
Record flight := mkFlight {
  fl_from : nat;
  fl_server : nat;
  fl_args : RequestVoteArgs;
  fl_cell : nat;
  fl_reply : option RequestVoteReply
}.

Definition task_flight (i : nat) (t : task) : option flight :=
  match t with
  | TSendRequestVote server args p => Some (mkFlight i server args p None)
  | _ => None
  end.

Definition call_flight (c : call) : option flight :=
  match c with
  | CVote from server args p reply => Some (mkFlight from server args p reply)
  | _ => None
  end.

(** The counters of the heartbeats in progress: their node and their cell. *)
Definition task_counter (i : nat) (t : task) : option (nat * nat) :=
  match t with TSendAppendEntries _ _ p => Some (i, p) | _ => None end.

Definition call_counter (c : call) : option (nat * nat) :=
  match c with CAppend from _ _ p _ => Some (from, p) | _ => None end.

(** What the closures and the calls of a cluster carry. *)
Section collect.
Context {P A : Type} (f : nat → task → option A) (g : call → option A).

Definition collect_node (i : nat) (s : Raft P) : list A := omap (f i) (m_ioManager s).

Definition collect (n : net P) : list A :=
  concat (imap collect_node (nodes n)) ++ omap g (calls n).
End collect.

Definition flights {P : Type} (n : net P) : list flight := collect task_flight call_flight n.

Definition counters {P : Type} (n : net P) : list (nat * nat) := collect task_counter call_counter n.

(** The servers whose answer to the election [(c, p)] is still to be counted. *)
Definition asks (c p : nat) (f : flight) : option nat :=
  if decide (fl_from f = c ∧ fl_cell f = p) then Some (fl_server f) else None.

Definition asked (c p : nat) (fs : list flight) : list nat := omap (asks c p) fs.

(** [V] holds the votes cast: of the node, in the term. *)
Abbreviation votes := (gmap (Z * nat) Z).

Definition voters (size : nat) (V : votes) (t : Z) (c : nat) (out : list nat) : list nat :=
  filter (λ v, V !! (t, v) = Some (Z.of_nat c) ∧ v ∉ out) (seq 0 size).

Definition tally (size : nat) (V : votes) (t : Z) (c : nat) (out : list nat) : Z :=
  Z.of_nat (length (voters size V t c out)).

Definition vote_map {P : Type} (i : nat) (s : Raft P) (V : votes) : votes :=
  if decide (m_votedFor s = -1) then V else <[(m_currentTerm s, i) := m_votedFor s]> V.

(** The votes agree with what the nodes remember. *)
Record votes_inv {P : Type} (ns : list (Raft P)) (V : votes) : Prop := {
  vi_current : ∀ i s, ns !! i = Some s → m_votedFor s ≠ -1 →
    V !! (m_currentTerm s, i) = Some (m_votedFor s);
  vi_past : ∀ t v c, V !! (t, v) = Some c →
    c ≠ -1 ∧ ∃ s, ns !! v = Some s ∧ t <= m_currentTerm s ∧ (t = m_currentTerm s → m_votedFor s = c)
}.

(** [E] holds the elections: the term of the election counted by a cell. *)
Abbreviation elections := (gmap (nat * nat) Z).

Definition flight_ok (size : nat) (V : votes) (E : elections) (f : flight) : Prop :=
  (fl_server f < size)%nat ∧
  rv_candidateid (fl_args f) = Z.of_nat (fl_from f) ∧
  E !! (fl_from f, fl_cell f) = Some (rv_term (fl_args f)) ∧
  ∀ r, fl_reply f = Some r → rvr_votegranted r = true →
    rvr_term r = rv_term (fl_args f) ∧
    V !! (rv_term (fl_args f), fl_server f) = Some (Z.of_nat (fl_from f)).

Definition counter_ok {P : Type} (ns : list (Raft P)) (E : elections) (q : nat * nat) : Prop :=
  E !! q = None ∧ ∃ s, ns !! q.1 = Some s ∧ (q.2 < length (shared_ints s))%nat.

Definition cell_ok {P : Type} (size : nat) (V : votes) (ns : list (Raft P)) (fs : list flight)
    (c p : nat) (t : Z) : Prop :=
  NoDup (asked c p fs) ∧
  ∃ s x, ns !! c = Some s ∧ shared_ints s !! p = Some x ∧ t <= m_currentTerm s ∧
    x <= tally size V t c (asked c p fs).

Record elect_inv {P : Type} (size : nat) (V : votes) (E : elections) (n : net P) : Prop := {
  ei_votes : votes_inv (nodes n) V;
  ei_flights : ∀ f, f ∈ flights n → flight_ok size V E f;
  ei_counters : ∀ q, q ∈ counters n → counter_ok (nodes n) E q;
  ei_cells : ∀ c p t, E !! (c, p) = Some t → cell_ok size V (nodes n) (flights n) c p t;
  ei_leader : ∀ i s, nodes n !! i = Some s → m_status s = Leader →
    majority size <= tally size V (m_currentTerm s) i []
}.

(** ** Lemmas on [collect] *)

Section collect_lemmas.
Context {P A : Type} (f : nat → task → option A) (g : call → option A).
Implicit Types (s : Raft P) (n : net P).

Lemma collect_insert n i s :
  nodes n !! i = Some s →
  ∃ rest, ∀ s' cs, collect f g (mkNet (<[i := s']> (nodes n)) cs) ≡ₚ
                   collect_node f i s' ++ rest ++ omap g cs.
Proof.
  intros Hs. pose proof (lookup_lt_Some _ _ _ Hs) as Hi.
  exists (concat (imap (collect_node f) (take i (nodes n))) ++
     concat (imap (λ j, collect_node f (S i + j)) (drop (S i) (nodes n)))).
  intros s' cs. unfold collect. simpl. rewrite insert_take_drop by done.
  rewrite imap_app. simpl. rewrite concat_app. simpl. rewrite length_take_le by lia.
  rewrite Nat.add_0_r, (assoc_L (++) (collect_node f i s')). apply Permutation_app_tail.
  rewrite !(assoc_L (++)), (Permutation_app_comm _ (collect_node _ _ _)). apply reflexive_eq.
  do 2 f_equal. apply imap_ext. intros j x _. simpl. f_equal. lia.
Qed.

Lemma collect_on_node n i s s' new :
  nodes n !! i = Some s → m_ioManager s' = m_ioManager s ++ new →
  collect f g (mkNet (<[i := s']> (nodes n)) (calls n)) ≡ₚ omap (f i) new ++ collect f g n.
Proof.
  intros Hs Hnew. destruct (collect_insert n i s Hs) as [rest Hr].
  rewrite Hr. unfold collect_node. rewrite Hnew, omap_app.
  pose proof (Hr s (calls n)) as Hn. rewrite list_insert_id in Hn by done.
  destruct n as [ns cs]. simpl in *. rewrite Hn. unfold collect_node.
  by rewrite (Permutation_app_comm _ (omap (f i) new)), <- (assoc_L (++)).
Qed.

Lemma collect_take_task n i k t n' :
  take_task i k n = Some (t, n') →
  collect f g n ≡ₚ option_list (f i t) ++ collect f g n'.
Proof.
  intros (s & Hs & Ht & ->)%take_task_inv. destruct (collect_insert n i s Hs) as [rest Hr].
  rewrite Hr. pose proof (Hr s (calls n)) as Hn. rewrite list_insert_id in Hn by done.
  destruct n as [ns cs]. simpl in *. rewrite Hn. unfold collect_node. simpl.
  rewrite (delete_Permutation _ _ _ Ht) at 1. simpl. by destruct (f i t).
Qed.

Lemma collect_add_call n c : collect f g (add_call c n) ≡ₚ option_list (g c) ++ collect f g n.
Proof.
  unfold collect, add_call. simpl. rewrite omap_app. simpl.
  rewrite (assoc_L (++)), Permutation_app_comm. by destruct (g c).
Qed.

Lemma collect_drop_call n k c :
  calls n !! k = Some c → collect f g n ≡ₚ option_list (g c) ++ collect f g (drop_call k n).
Proof.
  intros Hc. unfold collect, drop_call. simpl. rewrite (delete_Permutation _ _ _ Hc) at 1. simpl.
  destruct (g c); simpl; [|done]. by rewrite Permutation_middle.
Qed.

Lemma collect_update_call n k c c' :
  calls n !! k = Some c →
  collect f g (update_call k c' n) ≡ₚ option_list (g c') ++ collect f g (drop_call k n).
Proof.
  intros Hc. pose proof (lookup_lt_Some _ _ _ Hc) as Hk.
  rewrite (collect_drop_call (update_call k c' n) k c').
  - f_equiv. unfold drop_call, update_call. simpl. f_equiv. f_equal.
    rewrite insert_take_drop, !delete_take_drop by done.
    rewrite take_app_le, drop_app_ge by (rewrite length_take; lia).
    rewrite take_take, Nat.min_id, length_take_le by lia.
    by replace (S k - k)%nat with 1%nat by lia.
  - unfold update_call. simpl. by apply list_lookup_insert_eq.
Qed.

End collect_lemmas.

(** ** Counting votes *)

Lemma length_filter_mono {A} (Q R : A → Prop) `{∀ x, Decision (Q x), ∀ x, Decision (R x)} (l : list A) :
  (∀ x, x ∈ l → Q x → R x) → (length (filter Q l) ≤ length (filter R l))%nat.
Proof.
  induction l as [|x l IH]; intros HQ; [done|]. rewrite !filter_cons.
  assert (length (filter Q l) ≤ length (filter R l))%nat.
  { apply IH. intros y Hy. apply HQ. by right. }
  repeat case_decide; simpl; try lia. exfalso. eauto using list_elem_of_here.
Qed.

Lemma length_filter_lt {A} (Q R : A → Prop) `{∀ x, Decision (Q x), ∀ x, Decision (R x)} (l : list A) y :
  (∀ x, x ∈ l → Q x → R x) → y ∈ l → R y → ¬ Q y →
  (length (filter Q l) < length (filter R l))%nat.
Proof.
  intros HQ Hy HR Hn. apply list_elem_of_split in Hy as (l1 & l2 & ->).
  rewrite !filter_app, !length_app, !filter_cons.
  assert (length (filter Q l1) ≤ length (filter R l1))%nat.
  { apply length_filter_mono. intros x Hx. apply HQ. set_solver. }
  assert (length (filter Q l2) ≤ length (filter R l2))%nat.
  { apply length_filter_mono. intros x Hx. apply HQ. set_solver. }
  rewrite (decide_True (P := R y)), (decide_False (P := Q y)) by done. simpl. lia.
Qed.

Lemma length_filter_disjoint {A} (Q R : A → Prop) `{∀ x, Decision (Q x), ∀ x, Decision (R x)} (l : list A) :
  (∀ x, Q x → ¬ R x) → (length (filter Q l) + length (filter R l) ≤ length l)%nat.
Proof.
  intros HQ. induction l as [|x l IH]; [done|]. rewrite !filter_cons.
  repeat case_decide; simpl; try lia. naive_solver.
Qed.

Section tally.
Context (size : nat).
Implicit Types (V : votes) (t : Z) (c v : nat) (out : list nat).

Lemma tally_mono V V' t c out out' :
  V ⊆ V' → (∀ v, v ∈ out' → v ∈ out) → tally size V t c out <= tally size V' t c out'.
Proof.
  intros HV Ho. unfold tally. apply inj_le, length_filter_mono.
  intros v _ [Hv Hn]. split; [by eapply lookup_weaken|auto].
Qed.

Lemma tally_grow V V' t c v out out' :
  V ⊆ V' → (∀ v, v ∈ out' → v ∈ out) → (v < size)%nat → v ∉ out' →
  V' !! (t, v) = Some (Z.of_nat c) → v ∈ out ∨ V !! (t, v) = None →
  tally size V t c out + 1 <= tally size V' t c out'.
Proof.
  intros HV Ho Hs Hn Hv Hw. unfold tally. apply Z.le_succ_l, inj_lt, length_filter_lt with (y := v).
  - intros w _ [Hv' Hn']. split; [by eapply lookup_weaken|auto].
  - apply elem_of_seq. lia.
  - done.
  - intros [Hv' ?]. destruct Hw; [done|congruence].
Qed.

Lemma tally_quorum V t c c' :
  majority size <= tally size V t c [] → majority size <= tally size V t c' [] → c = c'.
Proof.
  intros H1 H2. destruct (decide (c = c')) as [|Hne]; [done|exfalso].
  unfold tally, majority in *.
  pose proof (length_filter_disjoint
    (λ v, V !! (t, v) = Some (Z.of_nat c) ∧ v ∉ []) (λ v, V !! (t, v) = Some (Z.of_nat c') ∧ v ∉ [])
    (seq 0 size)) as Hd.
  rewrite length_seq in Hd. unfold voters in *.
  assert (size < 2 * (size / 2 + 1))%nat.
  { pose proof (Nat.div_mod_eq size 2). pose proof (Nat.mod_upper_bound size 2). lia. }
  enough (length (voters size V t c []) + length (voters size V t c' []) ≤ size)%nat by (unfold voters in *; lia).
  apply Hd. intros v [Hv _] [Hv' _]. rewrite Hv in Hv'. simplify_eq.
Qed.

End tally.

(** ** The ghost votes *)

Section vote_map.
Context {P : Type}.
Implicit Types (s : Raft P) (ns : list (Raft P)) (V : votes).

Lemma votes_inv_current ns V i s t c :
  votes_inv ns V → ns !! i = Some s → V !! (t, i) = Some c → m_currentTerm s <= t →
  t = m_currentTerm s ∧ m_votedFor s = c ∧ c ≠ -1.
Proof.
  intros HV Hs Ht Hle. destruct (vi_past _ _ HV _ _ _ Ht) as (? & s1 & Hs1 & ? & Heq).
  rewrite Hs in Hs1. injection Hs1 as <-. assert (t = m_currentTerm s) by lia. auto.
Qed.

Lemma vote_map_subseteq ns V i s s' :
  votes_inv ns V → ns !! i = Some s → frame s s' → V ⊆ vote_map i s' V.
Proof.
  intros HV Hs [_ _ Hle Hvote]. unfold vote_map. case_decide as D; [done|].
  apply map_subseteq_spec. intros [t v] c Hc. apply lookup_insert_Some.
  destruct (decide ((m_currentTerm s', i) = (t, v))) as [[= <- <-]|]; [left|by right].
  split; [done|]. destruct (votes_inv_current _ _ _ _ _ _ HV Hs Hc Hle) as (? & ? & ?).
  destruct Hvote; congruence.
Qed.

Lemma vote_map_inv ns V i s s' :
  votes_inv ns V → ns !! i = Some s → frame s s' →
  votes_inv (<[i := s']> ns) (vote_map i s' V).
Proof.
  intros HV Hs Hf. pose proof (lookup_lt_Some _ _ _ Hs) as Hi. split.
  - intros j s1 [(<- & <- & _)|[Hne Hj]]%list_lookup_insert_Some Hv.
    + unfold vote_map. by rewrite decide_False, lookup_insert_eq by done.
    + eapply lookup_weaken; [|by eapply vote_map_subseteq]. by eapply vi_current.
  - assert (Hold : ∀ t v c, V !! (t, v) = Some c → c ≠ -1 ∧
      ∃ s1, <[i:=s']> ns !! v = Some s1 ∧ t <= m_currentTerm s1 ∧ (t = m_currentTerm s1 → m_votedFor s1 = c)).
    { intros t v c Hc. destruct (vi_past _ _ HV _ _ _ Hc) as (Hn & s1 & Hs1 & Hle & Heq).
      split; [done|]. destruct (decide (i = v)) as [<-|Hne].
      - rewrite Hs in Hs1. injection Hs1 as <-. exists s'. rewrite list_lookup_insert_eq by done. destruct Hf as [_ _ Hle' Hvote].
        split_and!; [done|lia|]. intros Et. assert (m_votedFor s = c) by (apply Heq; lia).
        destruct Hvote; [lia|congruence|congruence].
      - exists s1. by rewrite list_lookup_insert_ne. }
    unfold vote_map. case_decide as D; [done|].
    intros t v c [[[= <- <-] <-]|[_ Hc]]%lookup_insert_Some; [|auto].
    split; [done|]. exists s'. by rewrite list_lookup_insert_eq.
Qed.

End vote_map.

(** ** Preservation of the invariant *)

Section preservation.
Context {P : Type} (size : nat).
Implicit Types (s : Raft P) (n : net P) (V : votes) (E : elections).

Lemma flight_ok_mono V V' E E' f : V ⊆ V' → E ⊆ E' → flight_ok size V E f → flight_ok size V' E' f.
Proof.
  intros HV HE (Hs & Hc & He & Hr). split_and!; [done|done|by eapply lookup_weaken|].
  intros r Hr' Hg. destruct (Hr r Hr' Hg). split; [done|by eapply lookup_weaken].
Qed.

Lemma asked_Permutation c p fs fs' : fs ≡ₚ fs' → asked c p fs ≡ₚ asked c p fs'.
Proof. apply omap_Permutation. Qed.

Lemma asked_app c p fs fs' : asked c p (fs ++ fs') = asked c p fs ++ asked c p fs'.
Proof. apply omap_app. Qed.

Lemma elem_of_asked c p fs v :
  v ∈ asked c p fs ↔ ∃ f, f ∈ fs ∧ fl_from f = c ∧ fl_cell f = p ∧ fl_server f = v.
Proof.
  unfold asked. rewrite list_elem_of_omap. unfold asks. split.
  - intros (f & Hf & Ha). case_decide; [|done]. simplify_eq. naive_solver.
  - intros (f & Hf & <- & <- & <-). exists f. by rewrite decide_True.
Qed.

Lemma asked_nil c p fs : (∀ f, f ∈ fs → ¬ (fl_from f = c ∧ fl_cell f = p)) → asked c p fs = [].
Proof.
  intros Hn. induction fs as [|f fs IH]; [done|]. simpl. unfold asks at 1.
  rewrite decide_False by (apply Hn; left). apply IH. intros; apply Hn. by right.
Qed.

(** The list of flights and of counters may shrink. *)
Lemma elect_inv_shrink V E n n' :
  elect_inv size V E n →
  (∀ i s', nodes n' !! i = Some s' → ∃ s, nodes n !! i = Some s ∧
     m_currentTerm s' = m_currentTerm s ∧ m_votedFor s' = m_votedFor s ∧
     m_status s' = m_status s ∧ shared_ints s' = shared_ints s) →
  (length (nodes n') = length (nodes n)) →
  flights n' ⊆+ flights n → (∀ q, q ∈ counters n' → q ∈ counters n) →
  elect_inv size V E n'.
Proof.
  intros [[Hcur Hpast] Hf Hc Hcell Hl] Hs Hlen Hfl Hct.
  assert (Hs' : ∀ i s, nodes n !! i = Some s → ∃ s', nodes n' !! i = Some s' ∧
     m_currentTerm s' = m_currentTerm s ∧ m_votedFor s' = m_votedFor s ∧
     m_status s' = m_status s ∧ shared_ints s' = shared_ints s).
  { intros i s Hi. destruct (lookup_lt_is_Some_2 (nodes n') i) as [s' Hi'].
    { rewrite Hlen. by eapply lookup_lt_Some. }
    destruct (Hs _ _ Hi') as (s1 & ? & ?). simplify_eq. eauto. }
  split.
  - split.
    + intros i s' (s & Hi & -> & -> & _)%Hs. by apply Hcur.
    + intros t v c (Hn & s & Hv & Hle & Heq)%Hpast. split; [done|].
      destruct (Hs' _ _ Hv) as (s' & ? & Et & Ev & _). exists s'. rewrite Et, Ev. auto.
  - intros f Hin. apply Hf. by eapply elem_of_submseteq.
  - intros q Hq. destruct (Hc q (Hct _ Hq)) as (He & s & Hq1 & Hlt). split; [done|].
    destruct (Hs' _ _ Hq1) as (s' & ? & _ & _ & _ & Hsh). exists s'. by rewrite Hsh.
  - intros c p t He. destruct (Hcell _ _ _ He) as (Hnd & s & x & Hc1 & Hx & Hle & Htl).
    destruct (Hs' _ _ Hc1) as (s' & ? & Ht & _ & _ & Hsh).
    apply submseteq_Permutation in Hfl as [k Hk].
    assert (Hsub : asked c p (flights n) ≡ₚ asked c p (flights n') ++ asked c p k).
    { by rewrite (asked_Permutation _ _ _ _ Hk), asked_app. }
    split; [rewrite Hsub in Hnd; by apply NoDup_app in Hnd as [? _]|].
    exists s', x. rewrite Hsh, Ht. split_and!; try done.
    etrans; [exact Htl|]. apply tally_mono; [done|]. intros v Hv. rewrite Hsub. set_solver.
  - intros i s' (s & Hi & Et & _ & Est & _)%Hs Hst. rewrite Et. apply Hl; [done|congruence].
Qed.

(** One node runs one operation: what is left to prove of the operation. *)
Lemma elect_inv_update V E E' n i s s' new :
  elect_inv size V E n → nodes n !! i = Some s →
  frame s s' → E ⊆ E' →
  m_ioManager s' = m_ioManager s ++ new →
  (length (shared_ints s) ≤ length (shared_ints s'))%nat →
  let V' := vote_map i s' V in
  let n' := mkNet (<[i := s']> (nodes n)) (calls n) in
  (∀ f, f ∈ omap (task_flight i) new → flight_ok size V' E' f) →
  (∀ q, q ∈ omap (task_counter i) new → counter_ok (nodes n') E' q) →
  (∀ c p t, E' !! (c, p) = Some t → E !! (c, p) = Some t ∨
     (c = i ∧ (length (shared_ints s) ≤ p)%nat)) →
  (∀ p t, E' !! (i, p) = Some t → cell_ok size V' (nodes n') (flights n') i p t) →
  (m_status s' = Leader → majority size <= tally size V' (m_currentTerm s') i []) →
  elect_inv size V' E' n'.
Proof.
  intros [HV Hf Hc Hcell Hl] Hs Hfr HE Hio Hlen V' n' Hnf Hnc HE' Hnew Hlead.
  pose proof (lookup_lt_Some _ _ _ Hs) as Hi.
  assert (HVV : V ⊆ V') by by eapply vote_map_subseteq.
  assert (Hfl : flights n' ≡ₚ omap (task_flight i) new ++ flights n) by by eapply collect_on_node.
  assert (Hcl : counters n' ≡ₚ omap (task_counter i) new ++ counters n) by by eapply collect_on_node.
  split.
  - by eapply vote_map_inv.
  - intros f. rewrite Hfl, elem_of_app. intros [Hin|Hin]; [by apply Hnf|].
    eapply flight_ok_mono; eauto.
  - intros q. rewrite Hcl, elem_of_app. intros [Hin|Hin]; [by apply Hnc|].
    destruct (Hc _ Hin) as (He & s1 & Hq & Hlt). split.
    + destruct (E' !! q) as [t|] eqn:Eq; [|done]. destruct q as [c p].
      destruct (HE' _ _ _ Eq) as [|[-> Hp]]; [congruence|]. simpl in *. simplify_eq. lia.
    + simpl. destruct (decide (q.1 = i)) as [Eq|Hne].
      * exists s'. rewrite Eq in *. rewrite list_lookup_insert_eq by done. simplify_eq. split; [done|lia].
      * exists s1. by rewrite list_lookup_insert_ne.
  - intros c p t He. destruct (decide (c = i)) as [->|Hne]; [by apply Hnew|].
    destruct (HE' _ _ _ He) as [He'|[-> _]]; [|done].
    destruct (Hcell _ _ _ He') as (Hnd & s1 & x & Hc1 & Hx & Hle & Htl).
    assert (Hsame : asked c p (flights n') ≡ₚ asked c p (flights n)).
    { rewrite (asked_Permutation _ _ _ _ Hfl), asked_app, asked_nil; [done|].
      intros f (tk & _ & Htk)%list_elem_of_omap [Hfc _]. destruct tk; simplify_eq/=. }
    split; [by rewrite Hsame|]. exists s1, x. simpl. rewrite list_lookup_insert_ne by done.
    split_and!; try done. etrans; [exact Htl|]. apply tally_mono; [done|].
    intros v. by rewrite Hsame.
  - intros j s1 [(<- & <- & _)|[Hne Hj]]%list_lookup_insert_Some Hst; [by apply Hlead|].
    etrans; [by eapply Hl|]. by apply tally_mono.
Qed.

(** The cells of elections that an operation leaves alone. *)
Lemma cell_ok_keep V V' E n i s s' n' p t x :
  elect_inv size V E n → nodes n !! i = Some s → nodes n' !! i = Some s' →
  V ⊆ V' → m_currentTerm s <= m_currentTerm s' → E !! (i, p) = Some t →
  shared_ints s' !! p = Some x → (∀ y, shared_ints s !! p = Some y → x <= y) →
  asked i p (flights n') ≡ₚ asked i p (flights n) →
  cell_ok size V' (nodes n') (flights n') i p t.
Proof.
  intros [_ _ _ Hcell _] Hs Hs' HV Hle He Hx Hxy Ha.
  destruct (Hcell _ _ _ He) as (Hnd & s1 & y & Hs1 & Hy & Hle1 & Htl).
  rewrite Hs in Hs1. injection Hs1 as <-. specialize (Hxy _ Hy).
  split; [by rewrite Ha|]. exists s', x. split_and!; [done|done|lia|].
  etrans; [exact Hxy|]. etrans; [exact Htl|]. apply tally_mono; [done|].
  intros v. by rewrite Ha.
Qed.

Lemma cell_lt V E n i s p t :
  elect_inv size V E n → nodes n !! i = Some s → E !! (i, p) = Some t →
  (p < length (shared_ints s))%nat ∧ t <= m_currentTerm s.
Proof.
  intros [_ _ _ Hcell _] Hs He. destruct (Hcell _ _ _ He) as (_ & s1 & y & Hs1 & Hy & Hle & _).
  rewrite Hs in Hs1. injection Hs1 as <-. split; [by eapply lookup_lt_Some|done].
Qed.

(** No vote is asked for by the closures [new]. *)
Lemma asked_no_votes n i s s' new p :
  nodes n !! i = Some s → m_ioManager s' = m_ioManager s ++ new →
  omap (task_flight i) new = [] →
  ∀ c, asked c p (flights (mkNet (<[i := s']> (nodes n)) (calls n))) ≡ₚ asked c p (flights n).
Proof.
  intros Hs Hio Hn c. apply asked_Permutation. unfold flights.
  by rewrite (collect_on_node _ _ _ _ _ _ _ Hs Hio), Hn.
Qed.

Lemma plain_no_votes i new : Forall plain_task new → omap (task_flight i) new = [] ∧ omap (task_counter i) new = [].
Proof. induction 1 as [|tk new Htk _ [IH1 IH2]]; [done|]. destruct tk; simpl in *; done. Qed.

Lemma heartbeat_no_votes i s p new : Forall (heartbeat_task s p) new → omap (task_flight i) new = [].
Proof. induction 1 as [|tk new Htk _ IH]; [done|]. destruct tk; simpl in *; done. Qed.

(** The leader of a term keeps its votes. *)
Lemma leader_keeps V V' E n i s s' :
  elect_inv size V E n → nodes n !! i = Some s → V ⊆ V' →
  m_status s = Leader → m_currentTerm s' = m_currentTerm s →
  majority size <= tally size V' (m_currentTerm s') i [].
Proof.
  intros Hn Hs HV Hst ->. etrans; [by eapply ei_leader|]. by apply tally_mono.
Qed.

Lemma elect_inv_quiet V E n i s s' :
  elect_inv size V E n → nodes n !! i = Some s → quiet s s' →
  elect_inv size (vote_map i s' V) E (mkNet (<[i := s']> (nodes n)) (calls n)).
Proof.
  intros Hn Hs [Hf Hc (new & Hio & Hnew) Hst]. destruct (plain_no_votes i new Hnew) as [N1 N2].
  assert (HV : V ⊆ vote_map i s' V) by (eapply vote_map_subseteq; [apply Hn|done..]).
  eapply elect_inv_update; try done; rewrite ?N1, ?N2, ?Hc; try done.
  - by intros f ?%not_elem_of_nil.
  - by intros f ?%not_elem_of_nil.
  - auto.
  - intros p t He. destruct (cell_lt _ _ _ _ _ _ _ Hn Hs He) as [[x Hx]%lookup_lt_is_Some_2 _].
    eapply (cell_ok_keep) with (s' := s'); try done.
    + apply list_lookup_insert_eq. by eapply lookup_lt_Some.
    + apply Hf.
    + by rewrite Hc.
    + intros y. rewrite Hx. by intros [= ->].
    + by apply asked_no_votes with (s := s) (new := new).
  - intros [Hl Ht]%Hst. by eapply leader_keeps.
Qed.

Lemma elect_inv_heartbeat V E n i s s' :
  elect_inv size V E n → nodes n !! i = Some s → heartbeat_step s s' →
  elect_inv size (vote_map i s' V) E (mkNet (<[i := s']> (nodes n)) (calls n)).
Proof.
  intros Hn Hs [Hf Ht _ Hst Hc (new & Hio & Hnew)]. pose proof (heartbeat_no_votes i _ _ _ Hnew) as N1.
  pose proof (lookup_lt_Some _ _ _ Hs) as Hi.
  assert (HV : V ⊆ vote_map i s' V) by (eapply vote_map_subseteq; [apply Hn|done..]).
  eapply elect_inv_update; try done; rewrite ?N1, ?Hc, ?length_app; try done.
  - lia.
  - by intros f ?%not_elem_of_nil.
  - intros q (tk & Htk & Hq)%list_elem_of_omap. rewrite Forall_forall in Hnew. specialize (Hnew _ Htk).
    destruct tk; simplify_eq/=. destruct Hnew as (-> & _). split.
    + destruct (E !! _) eqn:He; [|done]. destruct (cell_lt _ _ _ _ _ _ _ Hn Hs He). lia.
    + exists s'. simpl. rewrite list_lookup_insert_eq, Hc, length_app by done. simpl. split; [done|lia].
  - auto.
  - intros p t He. destruct (cell_lt _ _ _ _ _ _ _ Hn Hs He) as [[x Hx]%lookup_lt_is_Some_2 _].
    eapply (cell_ok_keep) with (s' := s'); try done.
    + by apply list_lookup_insert_eq.
    + apply Hf.
    + rewrite Hc. by apply lookup_app_l_Some.
    + intros y. rewrite Hx. by intros [= ->].
    + by apply asked_no_votes with (s := s) (new := new).
  - rewrite Hst. intros Hl. by eapply leader_keeps.
Qed.

Lemma elect_inv_append_reply V E n i p s s' :
  elect_inv size V E n → nodes n !! i = Some s → append_reply_step p s s' → E !! (i, p) = None →
  elect_inv size (vote_map i s' V) E (mkNet (<[i := s']> (nodes n)) (calls n)).
Proof.
  intros Hn Hs [Hf Hio [Hlen Hc] Hst] Hp. pose proof (lookup_lt_Some _ _ _ Hs) as Hi.
  assert (HV : V ⊆ vote_map i s' V) by (eapply vote_map_subseteq; [apply Hn|done..]).
  eapply elect_inv_update with (new := []); try done; rewrite ?app_nil_r; try done.
  - lia.
  - by intros f ?%not_elem_of_nil.
  - by intros f ?%not_elem_of_nil.
  - auto.
  - intros q t He. destruct (cell_lt _ _ _ _ _ _ _ Hn Hs He) as [[x Hx]%lookup_lt_is_Some_2 _].
    eapply (cell_ok_keep) with (s' := s'); try done.
    + by apply list_lookup_insert_eq.
    + apply Hf.
    + rewrite Hc; [done|congruence].
    + intros y. rewrite Hx. by intros [= ->].
    + apply asked_no_votes with (s := s) (new := []); [done| |done]. by rewrite app_nil_r.
  - intros [Hl Ht]%Hst. by eapply leader_keeps.
Qed.

Lemma elect_inv_vote V E n i p x s s' :
  elect_inv size V E n → nodes n !! i = Some s → m_peers s = size → vote_step p x s s' →
  E !! (i, p) = Some (m_currentTerm s) →
  x + 1 <= tally size V (m_currentTerm s) i (asked i p (flights n)) →
  elect_inv size (vote_map i s' V) E (mkNet (<[i := s']> (nodes n)) (calls n)).
Proof.
  intros Hn Hs Hpeers [Hm Hp Ht Hv Hx Hr] He Hcount. pose proof (lookup_lt_Some _ _ _ Hs) as Hi.
  pose proof (lookup_lt_Some _ _ _ Hx) as Hlt.
  assert (Hf : frame s s') by (constructor; [done|done|lia|auto]).
  assert (HV : V ⊆ vote_map i s' V) by (eapply vote_map_subseteq; [apply Hn|done..]).
  assert (∃ new y, m_ioManager s' = m_ioManager s ++ new ∧ Forall plain_task new ∧
     shared_ints s' = <[p := y]> (shared_ints s) ∧ y <= Z.max (x + 1) 0) as (new & y & Hio & Hnew & Hc & Hy).
  { destruct Hr as [(_ & _ & Hc & Hio)|(_ & _ & _ & Hc & Hio)].
    - exists [], (x + 1). rewrite app_nil_r. split_and!; [done..|lia].
    - exists [TDoHeartBeat], 0. split_and!; [done|by apply Forall_singleton|done|lia]. }
  destruct (plain_no_votes i new Hnew) as [N1 N2].
  assert (0 <= tally size V (m_currentTerm s) i (asked i p (flights n))) by (unfold tally; lia).
  eapply elect_inv_update; try done; rewrite ?N1, ?N2, ?Hc, ?length_insert; try done.
  - by intros f ?%not_elem_of_nil.
  - by intros f ?%not_elem_of_nil.
  - auto.
  - intros q t He'. destruct (decide (q = p)) as [->|Hne].
    + rewrite He in He'. injection He' as <-.
      pose proof (asked_no_votes n i s s' new p Hs Hio N1 i) as Ha.
      destruct (ei_cells _ _ _ _ Hn _ _ _ He) as (Hnd & _).
      split; [by rewrite Ha|]. exists s', y. simpl.
      rewrite list_lookup_insert_eq, Hc, list_lookup_insert_eq by done. split_and!; try done; [lia|].
      etrans; [|apply tally_mono with (out := asked i p (flights n)); [exact HV|intros v; by rewrite Ha]]. lia.
    + destruct (cell_lt _ _ _ _ _ _ _ Hn Hs He') as [[z Hz]%lookup_lt_is_Some_2 _].
      eapply (cell_ok_keep) with (s' := s'); try done.
      * by apply list_lookup_insert_eq.
      * lia.
      * by rewrite Hc, list_lookup_insert_ne.
      * intros y'. rewrite Hz. by intros [= ->].
      * by apply asked_no_votes with (s := s) (new := new).
  - intros Hl. destruct Hr as [(_ & Hst & _)|(Hmaj & _)].
    + eapply leader_keeps; [done..|congruence|done].
    + rewrite Ht. unfold majority. rewrite Hpeers in Hmaj. etrans; [exact Hmaj|].
      etrans; [exact Hcount|]. apply tally_mono; [done|]. by intros v ?%not_elem_of_nil.
Qed.

End preservation.

(** ** Elections *)

Section election.
Context {P : Type} (size : nat).
Implicit Types (s : Raft P) (n : net P) (V : votes) (E : elections).

Lemma election_flights i s :
  omap (task_flight i) (election_tasks s) =
  map (λ v, mkFlight i v (election_args s) (length (shared_ints s)) None)
    (List.filter (λ v, negb (v =? m_me s)%nat) (seq 0 (m_peers s))) ∧
  omap (task_counter i) (election_tasks s) = [].
Proof.
  unfold election_tasks. induction (List.filter _ _) as [|v l [IH1 IH2]]; [done|].
  simpl. split; [by f_equal|exact IH2].
Qed.

Lemma asked_new_election i p args l :
  asked i p (map (λ v, mkFlight i v args p None) l) = l.
Proof.
  induction l as [|v l IH]; [done|]. simpl. unfold asks at 1. simpl. rewrite decide_True by done.
  by f_equal.
Qed.

Lemma asked_fresh V E n i s t p :
  elect_inv size V E n → nodes n !! i = Some s → (length (shared_ints s) ≤ p)%nat →
  asked i p (flights n) = [] ∧ E !! (i, p) = None ∧ E ⊆ <[(i, p) := t]> E.
Proof.
  intros Hn Hs Hp. assert (E !! (i, p) = None) as He.
  { destruct (E !! _) eqn:He; [|done]. destruct (cell_lt _ _ _ _ _ _ _ _ Hn Hs He). lia. }
  split_and!; [|done|by apply insert_subseteq].
  apply asked_nil. intros f Hf [Hi Hc].
  destruct (ei_flights _ _ _ _ Hn _ Hf) as (_ & _ & Ha & _). rewrite Hi, Hc in Ha. congruence.
Qed.

Lemma elect_inv_election V E n i s s' :
  elect_inv size V E n → nodes n !! i = Some s → m_me s = i → m_peers s = size →
  election_step s s' → (i < size)%nat →
  elect_inv size (vote_map i s' V) (<[(i, length (shared_ints s)) := m_currentTerm s']> E)
    (mkNet (<[i := s']> (nodes n)) (calls n)).
Proof.
  intros Hn Hs Hme Hpeers [Hm Hp Ht Hv Hc Hr] Hisz. pose proof (lookup_lt_Some _ _ _ Hs) as Hi.
  destruct (asked_fresh V E n i s (m_currentTerm s') _ Hn Hs (Nat.le_refl _)) as (Ha & He & HE).
  assert (Hf : frame s s') by (constructor; [done|done|lia|lia]).
  assert (HV : V ⊆ vote_map i s' V) by (eapply vote_map_subseteq; [apply Hn|done..]).
  assert (Hself : vote_map i s' V !! (m_currentTerm s', i) = Some (Z.of_nat i)).
  { unfold vote_map. rewrite Hv, Hme, decide_False by lia. apply lookup_insert_eq. }
  set (l := if decide (size = 1%nat) then [] else List.filter (λ v, negb (v =? i)%nat) (seq 0 size)).
  set (args := election_args s).
  assert (∃ new, m_ioManager s' = m_ioManager s ++ new ∧ omap (task_counter i) new = [] ∧
     omap (task_flight i) new = map (λ v, mkFlight i v args (length (shared_ints s)) None) l)
    as (new & Hio & N2 & N1).
  { subst l. rewrite Hpeers in Hr. case_decide.
    - exists [TDoHeartBeat]. naive_solver.
    - exists (election_tasks s). destruct (election_flights i s) as [N1 N2]. rewrite N1, N2, Hpeers, Hme.
      naive_solver. }
  assert (Hl : ∀ v, v ∈ l → (v < size)%nat ∧ v ≠ i).
  { intros v. subst l. case_decide; [by intros ?%not_elem_of_nil|].
    rewrite list_elem_of_In, filter_In, <- list_elem_of_In, elem_of_seq. intros [? ?]. split; [lia|].
    intros ->. rewrite Nat.eqb_refl in *. done. }
  assert (Hnd : NoDup l).
  { subst l. case_decide; [constructor|]. apply NoDup_ListNoDup, List.NoDup_filter, NoDup_ListNoDup, NoDup_seq. }
  assert (H1 : ∀ out, i ∉ out → 1 <= tally size (vote_map i s' V) (m_currentTerm s') i out).
  { intros out Hout. unfold tally, voters.
    assert (i ∈ filter (λ v, vote_map i s' V !! (m_currentTerm s', v) = Some (Z.of_nat i) ∧ v ∉ out) (seq 0 size)) as Hin.
    { apply list_elem_of_filter. split; [done|]. apply elem_of_seq. lia. }
    destruct (filter _ _); [by apply not_elem_of_nil in Hin|simpl; lia]. }
  eapply elect_inv_update; try done; rewrite ?N1, ?N2, ?Hc, ?length_app; try done.
  - lia.
  - intros f (v & -> & Hvl)%list_elem_of_fmap. destruct (Hl _ Hvl). split_and!; simpl; try done.
    + by rewrite Hme.
    + rewrite Ht. apply lookup_insert_eq.
  - by intros f ?%not_elem_of_nil.
  - intros c q t [[[= <- <-] _]|[_ ?]]%lookup_insert_Some; [right; done|by left].
  - intros q t [[[= <-] <-]|[Hne He']]%lookup_insert_Some.
    + assert (Ha' : asked i (length (shared_ints s)) (flights (mkNet (<[i := s']> (nodes n)) (calls n))) ≡ₚ l).
      { unfold flights. erewrite asked_Permutation by by eapply collect_on_node.
        rewrite N1, asked_app, asked_new_election. fold (flights n). by rewrite Ha, app_nil_r. }
      split; [by rewrite Ha'|]. exists s', 1. simpl. rewrite list_lookup_insert_eq, Hc by done.
      split_and!; [done|by apply list_lookup_middle|lia|].
      apply H1. rewrite Ha'. intros Hil. by destruct (Hl _ Hil).
    + destruct (cell_lt _ _ _ _ _ _ _ _ Hn Hs He') as [[x Hx]%lookup_lt_is_Some_2 _].
      eapply cell_ok_keep with (s' := s'); try done.
      * by apply list_lookup_insert_eq.
      * lia.
      * rewrite Hc. by apply lookup_app_l_Some.
      * intros y. rewrite Hx. by intros [= ->].
      * unfold flights. erewrite asked_Permutation by by eapply collect_on_node.
        rewrite N1, asked_app, asked_nil; [done|].
        intros f (v & -> & _)%list_elem_of_fmap. simpl. naive_solver.
  - intros Hst. destruct Hr as [(E1 & _)|(_ & E1 & _)]; [|congruence].
    assert (majority size = 1) as -> by (by rewrite <- Hpeers, E1). apply H1. by apply not_elem_of_nil.
Qed.

End election.

(** ** The events of the cluster *)

Section events.
Context {P : Type} `{PersisterOps P} `{RaftArchive}.
Implicit Types (s : Raft P) (n : net P) (V : votes) (E : elections).

(** A granted vote is a vote of the term and for the candidate of the request. *)
Lemma RequestVote_granted now args s :
  wp (RequestVote now args) (λ r s', rvr_votegranted r = true →
    rvr_term r = rv_term args ∧ m_currentTerm s' = rv_term args ∧
    m_votedFor s' = rv_candidateid args) s.
Proof. unfold RequestVote, RequestVote_body. handler_run; simpl in *; zify_bool; intros; done. Qed.

Lemma elect_inv_node_subset size V E n n' :
  elect_inv size V E n → nodes n' = nodes n →
  flights n' ⊆+ flights n → (∀ q, q ∈ counters n' → q ∈ counters n) →
  elect_inv size V E n'.
Proof.
  intros Hn Hns. apply (elect_inv_shrink _ _ _ _ _ Hn).
  - intros i s' Hs'. exists s'. by rewrite <- Hns.
  - by rewrite Hns.
Qed.

Definition elected size n : Prop := ∃ V E, elect_inv size V E n.

(** An operation that neither starts an election nor takes a reply. *)
Definition inner_op (o : node_op) : bool :=
  match o with
  | OpVoteReply _ _ _ _ | OpAppendReply _ _ _ _ => false
  | _ => true
  end.

Lemma elect_on_node size V E n i o a n' :
  net_wf size n → elect_inv size V E n → inner_op o = true → on_node i o n = Some (a, n') →
  ∃ s s' E', nodes n !! i = Some s ∧ run_op o s = Ok (a, s') ∧ calls n' = calls n ∧
    V ⊆ vote_map i s' V ∧ E ⊆ E' ∧ nodes n' !! i = Some s' ∧ elect_inv size (vote_map i s' V) E' n'.
Proof.
  intros Hwf Hn Ho (s & s' & Hs & Hr & ->)%on_node_inv.
  pose proof (run_op_step o s _ _ Hr) as Hst. cbv beta in Hst.
  destruct (nw_nodes _ _ Hwf _ _ Hs) as (Hme & Hp & _ & _).
  pose proof (lookup_lt_Some _ _ _ Hs) as Hi. pose proof (nw_size _ _ Hwf) as Hsz.
  assert (HV : V ⊆ vote_map i s' V).
  { eapply vote_map_subseteq; [apply Hn|done|]. by eapply op_step_frame. }
  assert (Hq : quiet s s' → elect_inv size (vote_map i s' V) E (mkNet (<[i := s']> (nodes n)) (calls n))).
  { by apply elect_inv_quiet. }
  assert (∃ E', E ⊆ E' ∧ elect_inv size (vote_map i s' V) E' (mkNet (<[i := s']> (nodes n)) (calls n)))
    as (E' & HE & Hn').
  { destruct o; try done; simpl in Hst; try (by exists E; split; [done|apply Hq]).
    - case_decide; [subst; exists E; split; [done|by apply Hq]|].
      destruct (asked_fresh _ V E n i s (m_currentTerm s') _ Hn Hs (Nat.le_refl _)) as (_ & _ & HE).
      eexists; split; [exact HE|]. eapply elect_inv_election; try done; lia.
    - exists E; split; [done|]. case_decide; [by eapply elect_inv_heartbeat|]. subst. by apply Hq. }
  exists s, s', E'. simpl. rewrite list_lookup_insert_eq by done. done.
Qed.

Lemma elected_on_node size n i o a n' :
  net_wf size n → elected size n → inner_op o = true → on_node i o n = Some (a, n') → elected size n'.
Proof.
  intros Hwf (V & E & Hn) Ho Hr.
  destruct (elect_on_node _ _ _ _ _ _ _ _ Hwf Hn Ho Hr) as (s & s' & E' & _ & _ & _ & _ & _ & _ & ?).
  by eexists _, E'.
Qed.

Lemma elected_subset size n n' :
  elected size n → nodes n' = nodes n →
  flights n' ⊆+ flights n → (∀ q, q ∈ counters n' → q ∈ counters n) → elected size n'.
Proof. intros (V & E & Hn) ???. exists V, E. by eapply elect_inv_node_subset. Qed.

Lemma elected_take_task size n i k t n' :
  elected size n → take_task i k n = Some (t, n') → elected size n'.
Proof.
  intros (V & E & Hn) Ht. exists V, E.
  pose proof (collect_take_task task_flight call_flight _ _ _ _ _ Ht) as Hfl.
  pose proof (collect_take_task task_counter call_counter _ _ _ _ _ Ht) as Hct.
  apply take_task_inv in Ht as (s & Hs & _ & ->).
  apply (elect_inv_shrink _ _ _ _ _ Hn); simpl.
  - intros j s' [(<- & <- & _)|[_ Hj]]%list_lookup_insert_Some; eauto 10.
  - by rewrite length_insert.
  - unfold flights. rewrite Hfl. by apply submseteq_inserts_l.
  - intros q Hq. unfold counters. rewrite Hct. set_solver.
Qed.

(** The closure becomes a call. *)
Lemma elected_send size n i k t n' c :
  elected size n → take_task i k n = Some (t, n') →
  call_flight c = task_flight i t → call_counter c = task_counter i t → elected size (add_call c n').
Proof.
  intros (V & E & Hn) Ht Hf Hc. exists V, E.
  pose proof (collect_take_task task_flight call_flight _ _ _ _ _ Ht) as Hfl.
  pose proof (collect_take_task task_counter call_counter _ _ _ _ _ Ht) as Hct.
  pose proof (collect_add_call task_flight call_flight n' c) as Hfl'.
  pose proof (collect_add_call task_counter call_counter n' c) as Hct'.
  apply take_task_inv in Ht as (s & Hs & _ & ->).
  apply (elect_inv_shrink _ _ _ _ _ Hn); simpl.
  - intros j s' [(<- & <- & _)|[_ Hj]]%list_lookup_insert_Some; eauto 10.
  - by rewrite length_insert.
  - unfold flights. by rewrite Hfl, Hfl', Hf.
  - intros q. unfold counters. by rewrite Hct, Hct', Hc.
Qed.

(** The reply to a request for a vote arrives. *)
Lemma elect_inv_reply size V E n n' f f' rest :
  elect_inv size V E n → nodes n' = nodes n → counters n' ≡ₚ counters n →
  flights n ≡ₚ f :: rest → flights n' ≡ₚ f' :: rest → flight_ok size V E f' →
  fl_from f' = fl_from f → fl_cell f' = fl_cell f → fl_server f' = fl_server f →
  elect_inv size V E n'.
Proof.
  intros [HV Hf Hc Hcell Hl] Hns Hct Hfl Hfl' Hok E1 E2 E3.
  assert (Ha : ∀ c p, asked c p (flights n') ≡ₚ asked c p (flights n)).
  { intros c p. rewrite (asked_Permutation _ _ _ _ Hfl), (asked_Permutation _ _ _ _ Hfl'). simpl.
    unfold asks. by rewrite E1, E2, E3. }
  split.
  - by rewrite Hns.
  - intros g. rewrite Hfl'. intros [->|Hg]%elem_of_cons; [done|]. apply Hf. rewrite Hfl. by right.
  - intros q. rewrite Hct, Hns. apply Hc.
  - intros c p t He. rewrite Hns. destruct (Hcell _ _ _ He) as (Hnd & s & x & ? & ? & ? & Htl).
    split; [by rewrite Ha|]. exists s, x. split_and!; try done. etrans; [exact Htl|].
    apply tally_mono; [done|]. intros v. by rewrite Ha.
  - rewrite Hns. apply Hl.
Qed.

Lemma update_call_neutral size n k c c' :
  elected size n → calls n !! k = Some c → call_flight c' = call_flight c → call_counter c' = call_counter c →
  elected size (update_call k c' n).
Proof.
  intros Hn Hk Hf Hc. apply (elected_subset _ _ _ Hn); [done| |].
  - unfold flights. by rewrite (collect_update_call _ _ _ _ _ c' Hk), (collect_drop_call _ _ _ _ _ Hk), Hf.
  - intros q. unfold counters. by rewrite (collect_update_call _ _ _ _ _ c' Hk), (collect_drop_call _ _ _ _ _ Hk), Hc.
Qed.

Lemma elected_drop_call size n k c : calls n !! k = Some c → elected size n → elected size (drop_call k n).
Proof.
  intros Hk Hn. apply (elected_subset _ _ _ Hn); [done| |].
  - unfold flights. rewrite (collect_drop_call _ _ _ _ _ Hk). by apply submseteq_inserts_l.
  - intros q Hq. unfold counters. rewrite (collect_drop_call _ _ _ _ _ Hk). set_solver.
Qed.

Lemma on_node_calls i o n a n' : on_node i o n = Some (a, n') → calls n' = calls n.
Proof. by intros (s & s' & _ & _ & ->)%on_node_inv. Qed.

Lemma elected_serve size n k now n' :
  net_wf size n → elected size n → exec_serve k now n = Some n' → elected size n'.
Proof.
  intros Hwf Hn. unfold exec_serve. destruct (calls n !! k) as [c|] eqn:Hk; [|done].
  destruct c as [from server args p []|from server args p []|from server args []]; try done;
    destruct (on_node _ _ _) as [[[] n1]|] eqn:Hr; try done; intros [= <-];
    pose proof (on_node_calls _ _ _ _ _ Hr) as Hcalls; rewrite <- Hcalls in Hk.
  - destruct Hn as (V & E & Hn).
    destruct (elect_on_node size V E n _ (OpRequestVote now args) _ _ Hwf Hn eq_refl Hr) as (s & s' & E' & Hs & Hop & _ & HV & HE & Hs' & Hn1).
    exists (vote_map server s' V), E'.
    pose proof (collect_update_call task_flight call_flight _ _ _ (CVote from server args p (Some reply)) Hk) as Hfl.
    pose proof (collect_drop_call task_flight call_flight _ _ _ Hk) as Hfl1.
    pose proof (ei_flights _ _ _ _ Hn1 (mkFlight from server args p None)) as Hok.
    eapply elect_inv_reply; [exact Hn1|done| |exact Hfl1|exact Hfl| |done..].
    + unfold counters. rewrite (collect_update_call _ _ _ _ _ _ Hk), (collect_drop_call _ _ _ _ _ Hk). done.
    + destruct Hok as (Hsv & Hc & He & _). { unfold flights. rewrite Hfl1. left. }
      split_and!; try done. simpl. intros r [= <-] Hg. simpl in Hop.
      apply bind_Ok in Hop as (r & s1 & Hop & [= <- <-]).
      destruct (RequestVote_granted _ _ _ _ _ Hop Hg) as (Ht1 & Ht2 & Hv). split; [done|].
      simpl in Hc. rewrite <- Hc, <- Ht2, <- Hv. eapply vi_current; [apply Hn1|done|]. lia.
  - apply (update_call_neutral _ _ _ (CAppend from server args p None)); try done.
    by eapply elected_on_node; [| | |exact Hr].
  - apply (update_call_neutral _ _ _ (CSnap from server args None)); try done.
    by eapply elected_on_node; [| | |exact Hr].
Qed.

Lemma elected_quiet size n i o a s s' :
  elected size n → nodes n !! i = Some s → run_op o s = Ok (a, s') → quiet s s' →
  elected size (mkNet (<[i := s']> (nodes n)) (calls n)).
Proof. intros (V & E & Hn) Hs _ Hq. exists (vote_map i s' V), E. by eapply elect_inv_quiet. Qed.

(** The count of an election, once the vote of a call is in hand. *)
Lemma vote_count size V E n k from server args p r x s :
  elect_inv size V E n → calls n !! k = Some (CVote from server args p (Some r)) →
  rvr_votegranted r = true → nodes n !! from = Some s → shared_ints s !! p = Some x →
  E !! (from, p) = Some (rvr_term r) ∧
  x + 1 <= tally size V (rvr_term r) from (asked from p (flights (drop_call k n))).
Proof.
  intros Hn Hk Hg Hs Hx. pose proof (collect_drop_call task_flight call_flight _ _ _ Hk) as Hfl.
  destruct (ei_flights _ _ _ _ Hn (mkFlight from server args p (Some r))) as (Hsv & Hc & He & Hr).
  { unfold flights. rewrite Hfl. left. }
  simpl in *. destruct (Hr r eq_refl Hg) as [Ht Hv]. rewrite Ht. split; [done|].
  destruct (ei_cells _ _ _ _ Hn _ _ _ He) as (Hnd & s1 & y & Hs1 & Hy & _ & Htl).
  rewrite Hs in Hs1. injection Hs1 as <-. rewrite Hx in Hy. injection Hy as <-.
  assert (Ha : asked from p (flights n) ≡ₚ server :: asked from p (flights (drop_call k n))).
  { unfold flights at 1. rewrite (asked_Permutation _ _ _ _ Hfl). simpl. unfold asks at 1. simpl.
    by rewrite decide_True. }
  rewrite Ha in Hnd. apply NoDup_cons in Hnd as [Hnot _].
  etrans; [apply Z.add_le_mono_r, Htl|]. apply tally_grow with (v := server); try done.
  - intros v. rewrite Ha. by right.
  - left. rewrite Ha. left.
Qed.

Lemma elected_return size lost k now n n' :
  net_wf size n → elected size n → exec_return lost k now n = Some n' → elected size n'.
Proof.
  intros Hwf Hn. unfold exec_return. intros (c & Hk & He)%bind_Some. apply bind_Some in He as ([from o] & Ho & He).
  apply fmap_Some in He as ([a n2] & He & ->). simpl.
  pose proof (elected_drop_call _ _ _ _ Hk Hn) as Hn1.
  destruct (on_node_inv _ _ _ _ _ He) as (s & s' & Hs & Hr & ->). simpl in Hs.
  pose proof (run_op_step o s _ _ Hr) as Hst. cbv beta in Hst.
  destruct (nw_nodes _ _ Hwf _ _ Hs) as (Hme & Hp & _ & _).
  assert (Hq : quiet s s' → elected size (mkNet (<[from := s']> (nodes (drop_call k n))) (calls (drop_call k n)))).
  { by eapply elected_quiet. }
  destruct c as [from' server args p reply|from' server args p reply|from' server args reply]; simpl in Ho.
  - assert (∃ rpc, from = from' ∧ o = OpVoteReply rpc server args p ∧ (rpc = None ∨ rpc = reply)) as (rpc & <- & -> & Hrpc).
    { destruct lost; [naive_solver|]. apply bind_Some in Ho as (? & -> & [= <- <-]). naive_solver. }
    simpl in Hst. destruct Hst as [Hst|(r & x & -> & Hg & Ht & Hv)]; [by apply Hq|].
    destruct Hrpc as [|<-]; [done|]. destruct Hn as (V & E & Hn).
    destruct (vote_count _ _ _ _ _ _ _ _ _ _ _ _ Hn Hk Hg Hs (vs_count _ _ _ _ Hv)) as [HE Hcount].
    rewrite Ht in HE, Hcount. exists (vote_map from s' V), E.
    eapply elect_inv_vote; try done.
    apply (elect_inv_node_subset _ _ _ _ _ Hn); [done| |].
    + unfold flights. rewrite (collect_drop_call _ _ _ _ _ Hk). by apply submseteq_inserts_l.
    + intros q Hqq. unfold counters. rewrite (collect_drop_call _ _ _ _ _ Hk). set_solver.
  - assert (∃ rpc, from = from' ∧ o = OpAppendReply rpc server args p) as (rpc & <- & ->).
    { destruct lost; [naive_solver|]. apply bind_Some in Ho as (? & -> & [= <- <-]). naive_solver. }
    simpl in Hst. destruct Hn as (V & E & Hn).
    destruct (ei_counters _ _ _ _ Hn (from, p)) as [HE _].
    { unfold counters. rewrite (collect_drop_call _ _ _ _ _ Hk). left. }
    exists (vote_map from s' V), E. eapply elect_inv_append_reply; try done.
    apply (elect_inv_node_subset _ _ _ _ _ Hn); [done| |].
    + unfold flights. rewrite (collect_drop_call _ _ _ _ _ Hk). by apply submseteq_inserts_l.
    + intros q Hqq. unfold counters. rewrite (collect_drop_call _ _ _ _ _ Hk). set_solver.
  - assert (∃ rpc, o = OpSnapShotReply now rpc server args) as (rpc & ->).
    { destruct lost; [naive_solver|]. apply bind_Some in Ho as (? & -> & [= <- <-]). naive_solver. }
    by apply Hq.
Qed.

Lemma elected_exec size ev n n' :
  net_wf size n → elected size n → exec ev n = Some n' → elected size n'.
Proof.
  intros Hwf Hn. destruct ev as [i o|i k now|k now|k now|k now]; simpl.
  - destruct (is_local o) eqn:Ho; [|done]. intros ([a n1] & Hr & ->)%fmap_Some. simpl.
    eapply elected_on_node; [done..| |done]. by destruct o.
  - intros ([t n1] & Ht & He)%bind_Some.
    destruct (net_wf_take_task _ _ _ _ _ _ Hwf Ht) as [Hwf1 _].
    pose proof (elected_take_task _ _ _ _ _ _ Hn Ht) as Hn1.
    destruct t; simpl in He; try (by simplify_eq);
      try (injection He as <-; by apply (elected_send _ _ _ _ _ _ _ Hn Ht)).
    + destruct (on_node _ _ _) as [[[] n2]|] eqn:Hr; simplify_eq.
      pose proof (elected_on_node _ _ _ OpSnapShotArgs _ _ Hwf1 Hn1 eq_refl Hr) as Hn2.
      apply (elected_subset _ _ _ Hn2); [done| |].
      * unfold flights. by rewrite collect_add_call.
      * intros q. unfold counters. by rewrite collect_add_call.
    + apply fmap_Some in He as ([] & Hr & ->). by eapply elected_on_node; [| | |exact Hr].
    + apply fmap_Some in He as ([] & Hr & ->). by eapply elected_on_node; [| | |exact Hr].
  - by apply elected_serve.
  - by apply elected_return.
  - by apply elected_return.
Qed.

Lemma elected_initial size n : initial size n → elected size n.
Proof.
  intros (Hc & Hl & Hs). exists ∅, ∅.
  assert (Hf : ∀ i s, nodes n !! i = Some s → m_votedFor s = -1 ∧ m_status s = Follower ∧
     Forall plain_task (m_ioManager s)).
  { intros i s (p & now & Hp & Hr)%Hs. rewrite init_empty in Hr by done. injection Hr as <-.
    split_and!; [done..|]. by repeat constructor. }
  assert (Hno : ∀ {A} (f : nat → task → option A) g, (∀ i t, plain_task t → f i t = None) →
     collect f g n = []).
  { intros A f g Hfn. unfold collect. rewrite Hc, app_nil_r. apply concat_nil_Forall, Forall_forall.
    intros l (i & s & -> & Hi)%elem_of_lookup_imap. destruct (Hf _ _ Hi) as (_ & _ & Ht).
    unfold collect_node. induction Ht as [|t ts Ht _ IH]; [done|]. simpl. rewrite Hfn by done. exact IH. }
  split.
  - split; [|by intros ? ? ?]. intros i s Hi ?. by destruct (Hf _ _ Hi) as [? _].
  - unfold flights. rewrite Hno; [by intros ? ?%not_elem_of_nil|by intros ? []].
  - unfold counters. rewrite Hno; [by intros ? ?%not_elem_of_nil|by intros ? []].
  - by intros ? ? ?.
  - intros i s Hi Hst. destruct (Hf _ _ Hi) as (_ & ? & _). congruence.
Qed.

Lemma reachable_elected size n : reachable size n → elected size n.
Proof.
  induction 1 as [n Hi|n n' Hr IH [ev He]]; [by apply elected_initial|].
  eapply elected_exec; [by apply reachable_wf|done..].
Qed.

End events.
