(* ===== verification/RaftConcrete.v ===== *)
(** * RaftConcrete: concrete archives and small clusters

    The archives and protobuf's serialisation are parameters of the raft
    model.  Here they are instantiated, so that the theorems can be applied: a
    string is written with a mark before each character and one after the last,
    an integer as its sign and binary digits, a record as its fields in order,
    after the header a boost text archive starts with ([Fields]).  The laws of
    [RaftArchiveLaws] hold of this instance. *)

From S2P Require Import Prelude.
From S2P Require Import Persister.
From S2P Require Import Fields.
From S2P Require Import RaftTypes.
From S2P Require Import Raft.
From S2P Require Import RaftHandlers.
From S2P Require Import RaftNet.

(** ** Records *)

Definition archive_header : string := "22 serialization::archive ".

Definition LogEntry_out (e : LogEntry) : string :=
  put_Z (logterm e) (put_Z (logindex e) (put_string (command e) "")).

Definition LogEntry_in (s : string) : option LogEntry :=
  '(t, s) ← get_Z s; '(i, s) ← get_Z s; '(c, _) ← get_string s; Some (mkLogEntry c t i).

Definition Op_out (o : Op) : string :=
  put_string (Operation o) (put_string (Key o) (put_string (Value o)
    (put_string (ClientId o) (put_Z (RequestId o) "")))).

Definition Op_in (s : string) : option Op :=
  '(a, s) ← get_string s; '(b, s) ← get_string s; '(c, s) ← get_string s; '(d, s) ← get_string s;
  '(e, _) ← get_Z s; Some (mkOp a b c d e).

Definition Node_out (b : BoostPersistRaftNode) : string :=
  String.append archive_header
    (put_Z (b_currentTerm b) (put_Z (b_votedFor b) (put_Z (b_lastSnapshotIncludeIndex b)
      (put_Z (b_lastSnapshotIncludeTerm b) (put_list (b_logs b) ""))))).

Definition Node_in (s : string) : option BoostPersistRaftNode :=
  let s := str_drop (String.length archive_header) s in
  '(t, s) ← get_Z s; '(v, s) ← get_Z s; '(i, s) ← get_Z s; '(st, s) ← get_Z s;
  l ← get_list (String.length s) s;
  Some (mkBoostPersistRaftNode t v i st l).

Lemma LogEntry_in_out e : LogEntry_in (LogEntry_out e) = Some e.
Proof.
  unfold LogEntry_in, LogEntry_out. rewrite get_put_Z. simpl. rewrite get_put_Z. simpl.
  rewrite get_put_string. by destruct e.
Qed.

Lemma Op_in_out o : Op_in (Op_out o) = Some o.
Proof.
  unfold Op_in, Op_out. do 4 (rewrite get_put_string; simpl). rewrite get_put_Z. by destruct o.
Qed.

Lemma Node_in_out b : Node_in (Node_out b) = Some b.
Proof.
  unfold Node_in, Node_out, archive_header. cbn [String.append String.length str_drop].
  do 4 (rewrite get_put_Z; cbn [mbind option_bind]). rewrite get_put_list by done. by destruct b.
Qed.

#[export] Instance text_archive : RaftArchive := {
  SerializeAsString := LogEntry_out;
  ParseFromString s := default (mkLogEntry "" 0 0) (LogEntry_in s);
  text_oarchive := Node_out;
  text_iarchive := Node_in;
  Op_asString := Op_out;
  Op_parseFromString := Op_in
}.

#[export] Instance text_archive_laws : RaftArchiveLaws.
Proof.
  split; [|apply Node_in_out|done|apply Op_in_out].
  intros e. simpl. by rewrite LogEntry_in_out.
Qed.

(** A stream that writes every byte at once. *)
Definition eager (b : string) : nat := String.length b.

#[export] Instance eager_ops : PersisterOps Persister := Persister_ops eager.

(** A cluster of [size] nodes with empty disks, started at time 0. *)
Definition start_node (size i : nat) : Raft Persister :=
  set_m_ioManager [TLeaderHearBeatTicker; TElectionTimeOutTicker; TApplierTicker]
    (fresh size i (new_Persister ("", "")) 0).

Definition start_net (size : nat) : net Persister := mkNet (map (start_node size) (seq 0 size)) [].

Lemma start_net_initial size : initial size (start_net size).
Proof.
  split; [done|]. split; [unfold start_net; simpl; by rewrite length_map, length_seq|].
  intros i s. unfold start_net. simpl. rewrite list_lookup_fmap.
  intros (j & [-> _]%lookup_seq & ->)%fmap_Some. exists (new_Persister ("", "")), 0. by split.
Qed.

Lemma run_events_reachable size evs n n' :
  reachable size n → run_events evs n = Some n' → reachable size n'.
Proof.
  revert n. induction evs as [|ev evs IH]; simpl; intros n Hn Hr; [by simplify_eq|].
  apply bind_Some in Hr as (n1 & He & Hr). eapply IH; [|done]. eapply reachable_step; [done|by econstructor].
Qed.
