(* ===== verification/RaftProps.v ===== *)
(** * RaftProps: the properties of the raft layer

    The theorems about a node and about the cluster that rest on the lemmas of
    [RaftHandlers] and [RaftElection], with their concrete instances on the
    archives of [RaftConcrete]. *)

From S2P Require Import Prelude.
From S2P Require Import Persister.
From S2P Require Import RaftTypes.
From S2P Require Import Raft.
From S2P Require Import RaftFacts.
From S2P Require Import RaftHandlers.
From S2P Require Import RaftNet.
From S2P Require Import RaftElection.
From S2P Require Import RaftConcrete.

(** ** Definitions *)

(** A vote is due: the candidate's log is not behind, and the node has not
    voted for another one in the term. *)
Definition vote_due {P} (s : Raft P) (args : RequestVoteArgs) : bool :=
  (m_currentTerm s <=? rv_term args) &&
  ((getLastLogTerm s <? rv_lastlogterm args) ||
   ((rv_lastlogterm args =? getLastLogTerm s) && (getLastLogIndex s <=? rv_lastlogindex args))) &&
  ((m_currentTerm s <? rv_term args) || (m_votedFor s =? -1) || (m_votedFor s =? rv_candidateid args)).

(** An index of the log that a leader may commit by counting. *)
Definition committable {P} (s : Raft P) (index : Z) : Prop :=
  majority (m_peers s) <= replicas s index ∧ term_at s index = Some (m_currentTerm s).

(** The commit index [leaderUpdateCommitIndex] computes. *)
Definition commit_target {P} (s : Raft P) (c : Z) : Prop :=
  (c = m_lastSnapshotIncludeIndex s ∧
   ∀ j, m_lastSnapshotIncludeIndex s < j <= getLastLogIndex s → ¬ committable s j) ∨
  (m_lastSnapshotIncludeIndex s < c <= getLastLogIndex s ∧ committable s c ∧
   ∀ j, c < j <= getLastLogIndex s → ¬ committable s j).

(** The closure a heartbeat hands over for the peer [i]. *)
Definition heartbeat_for {P} (s : Raft P) (i : nat) : task :=
  let next := default 0 (m_nextIndex s !! i) in
  if next <=? m_lastSnapshotIncludeIndex s then TLeaderSendSnapShot i
  else TSendAppendEntries i
    (mkAppendEntriesArgs (m_currentTerm s) (Z.of_nat (m_me s)) (next - 1)
       (default 0 (term_at s (next - 1)))
       (drop (Z.to_nat (next - 1 - m_lastSnapshotIncludeIndex s)) (m_logs s)) (m_commitIndex s))
    (length (shared_ints s)).

(** Example data: a follower of a cluster of three with two entries of term 1. *)
Definition sample_entry (i t : Z) (c : string) : LogEntry := mkLogEntry c t i.

Definition sample_node : Raft Persister :=
  set_m_currentTerm 1 (set_m_logs [sample_entry 1 1 "a"; sample_entry 2 1 "b"] (start_node 3 1)).

Lemma sample_node_wf : node_wf sample_node.
Proof. constructor; try done; simpl; try lia. by intros [|[|[]]] e [= <-]. Qed.

(** ** Elections *)

(** (C1) Election safety: in every cluster reached from nodes with empty
    disks, two leaders of the same term are the same node. *)
Theorem election_safety {P : Type} `{PersisterOps P} `{RaftArchive} (size : nat) (n : net P)
  (i j : nat) (si sj : Raft P)
  (Hreach : reachable size n)
  (Hi : nodes n !! i = Some si) (Hj : nodes n !! j = Some sj)
  (Hli : m_status si = Leader) (Hlj : m_status sj = Leader)
  (Hterm : m_currentTerm si = m_currentTerm sj) :
  i = j.
Proof.
  destruct (reachable_elected _ _ Hreach) as (V & E & Hn).
  eapply tally_quorum; [by eapply ei_leader|]. rewrite Hterm. by eapply ei_leader.
Qed.

Definition one_election : list event := [EvOp 0 (OpElection 1); EvTask 0 3 1; EvServe 0 2; EvReply 0 3].

Lemma election_safety_witness :
  ∃ n s0, run_events one_election (start_net 3) = Some n ∧ nodes n !! 0%nat = Some s0 ∧
    m_status s0 = Leader ∧ (0 = 0)%nat.
Proof.
  destruct (run_events one_election (start_net 3)) as [n|] eqn:E; [|by vm_compute in E].
  destruct (nodes n !! 0%nat) as [s0|] eqn:Hs; [|vm_compute in E; injection E as <-; by vm_compute in Hs].
  assert (Hl : m_status s0 = Leader).
  { vm_compute in E. injection E as <-. vm_compute in Hs. by injection Hs as <-. }
  exists n, s0. split_and!; [done..|].
  apply (election_safety 3 n 0 0 s0 s0); try done.
  eapply run_events_reachable; [apply reachable_initial, (start_net_initial 3)|exact E].
Defined.

(** [RequestVote] always returns: the vote is granted exactly when the
    term is not old, the candidate's log is at least as up to date and no other
    candidate got the vote of that term; the term becomes the larger of the
    two, a newer term makes the node a follower, a vote is recorded, the log is
    untouched, and the new term and vote were persisted before the reply. *)
Theorem RequestVote_spec {P : Type} `{PersisterLaws P} `{RaftArchive}
  (now : Z) (args : RequestVoteArgs) (s : Raft P) :
  ∃ st s', RequestVote now args s =
      Ok (mkRequestVoteReply (Z.max (m_currentTerm s) (rv_term args)) (vote_due s args) st, s') ∧
    m_currentTerm s' = Z.max (m_currentTerm s) (rv_term args) ∧
    m_votedFor s' = (if vote_due s args then rv_candidateid args
                     else if m_currentTerm s <? rv_term args then -1 else m_votedFor s) ∧
    m_status s' = (if m_currentTerm s <? rv_term args then Follower else m_status s) ∧
    m_lastResetElectionTime s' = (if vote_due s args then now else m_lastResetElectionTime s) ∧
    m_logs s' = m_logs s ∧ m_commitIndex s' = m_commitIndex s ∧ persisted s'.
Proof.
  assert (∃ st s1, RequestVote_body now args s =
      Ok (mkRequestVoteReply (Z.max (m_currentTerm s) (rv_term args)) (vote_due s args) st, s1) ∧
    m_currentTerm s1 = Z.max (m_currentTerm s) (rv_term args) ∧
    m_votedFor s1 = (if vote_due s args then rv_candidateid args
                     else if m_currentTerm s <? rv_term args then -1 else m_votedFor s) ∧
    m_status s1 = (if m_currentTerm s <? rv_term args then Follower else m_status s) ∧
    m_lastResetElectionTime s1 = (if vote_due s args then now else m_lastResetElectionTime s) ∧
    m_logs s1 = m_logs s ∧ m_commitIndex s1 = m_commitIndex s) as (st & s1 & Hb & Hrest).
  { unfold RequestVote_body, vote_due, UpToDate, become_follower, getLastLogTerm, getLastLogIndex.
    mrun.
    assert (HL : getLastLogIndexAndTerm (set_m_votedFor (-1) (set_m_currentTerm (rv_term args)
      (set_m_status Follower s))) = getLastLogIndexAndTerm s) by done.
    destruct (getLastLogIndexAndTerm s) as [li lt] eqn:EL. simpl.
    destruct (Z.ltb_spec (rv_term args) (m_currentTerm s)).
    { rewrite (proj2 (Z.leb_gt _ _)), Z.max_l, (proj2 (Z.ltb_ge (m_currentTerm s) _)) by lia. simpl. eauto 10. }
    rewrite (proj2 (Z.leb_le _ _)), Z.max_r by lia. simpl.
    destruct (Z.ltb_spec (m_currentTerm s) (rv_term args)); simpl.
    - rewrite Z.eqb_refl, HL. destruct (_ || _); simpl; eauto 10.
    - assert (rv_term args = m_currentTerm s) as -> by lia. rewrite Z.eqb_refl, EL.
      destruct (_ || _); simpl; [|eauto 10].
      destruct (m_votedFor s =? -1), (m_votedFor s =? rv_candidateid args); simpl; eauto 10. }
  unfold RequestVote, mbind, M_bind. rewrite Hb. destruct (persist s1) as [[[] s2]|] eqn:Hp.
  - destruct (persist_persisted _ _ Hp) as [? (p & ->)]. eexists st, _. split; [done|].
    destruct Hrest as (? & ? & ? & ? & ? & ?). by split_and!.
  - destruct (persist_Ok s1) as [p Hp']. congruence.
Qed.

Lemma RequestVote_spec_witness :
  ∃ st s', RequestVote 7 (mkRequestVoteArgs 2 0 2 1) sample_node = Ok (mkRequestVoteReply 2 true st, s') ∧
    m_votedFor s' = 0.
Proof.
  destruct (@RequestVote_spec Persister _ (Persister_laws eager) _ 7 (mkRequestVoteArgs 2 0 2 1) sample_node)
    as (st & s' & Hr & _ & Hv & _).
  exists st, s'. split; [exact Hr|exact Hv].
Defined.

(** ** Well-formedness and persistence *)

(** (C2) In every reachable cluster every node is well formed: its log has no
    gap and starts right after its snapshot, its commit and applied indexes lie
    within the log, its index vectors have one slot per peer; and every request
    in flight carries consecutive entries. *)
Theorem reachable_node_wf {P : Type} `{PersisterOps P} `{RaftArchive} (size : nat) (n : net P)
  (Hreach : reachable size n) :
  (∀ i s, nodes n !! i = Some s → m_me s = i ∧ m_peers s = size ∧ node_wf s) ∧
  (∀ k from server args p r, calls n !! k = Some (CAppend from server args p r) →
     contiguous (ae_prevlogindex args) (ae_entries args)).
Proof.
  destruct (reachable_wf _ _ Hreach) as [_ Hn Hc]. split.
  - intros i s Hi. by destruct (Hn _ _ Hi) as (? & ? & ? & _).
  - intros k from server args p r Hk. exact (Forall_lookup_1 _ _ _ _ Hc Hk).
Qed.

Definition one_request : list event :=
  one_election ++ [EvOp 0 (OpStart (mkOp "Put" "x" "1" "c" 1)); EvOp 0 (OpHeartBeat 9)].

Lemma reachable_node_wf_witness :
  ∃ n, run_events one_request (start_net 3) = Some n ∧ ∀ i s, nodes n !! i = Some s → node_wf s.
Proof.
  destruct (run_events one_request (start_net 3)) as [n|] eqn:E; [|by vm_compute in E].
  exists n. split; [done|]. intros i s Hi.
  destruct (reachable_node_wf 3 n) as [Hn _]; [|by destruct (Hn _ _ Hi) as (_ & _ & ?)].
  eapply run_events_reachable; [apply reachable_initial, (start_net_initial 3)|exact E].
Defined.

Section persistence.
Context {P : Type} `{PersisterLaws P} `{RaftArchive}.
Implicit Types s : Raft P.

Lemma wp_persist_p (Q : unit → Raft P → Prop) s :
  (∀ p, persisted (set_m_persister p s) → Q tt (set_m_persister p s)) → wp persist Q s.
Proof. intros HQ [] s' Hr. apply persist_persisted in Hr as [Hp (p & ->)]; auto. Qed.

Lemma wp_Save_p d (Q : unit → Raft P → Prop) s :
  (∀ p, persisted (set_m_persister p s) → Q tt (set_m_persister p s)) → wp (persister_Save d) Q s.
Proof.
  intros HQ. unfold persister_Save. wp_run. apply HQ. apply (written_Save (persistData s)).
Qed.

Lemma wp_ReadSnapshot_p (Q : string → Raft P → Prop) s :
  (∀ d p, (persisted s → persisted (set_m_persister p s)) → Q d (set_m_persister p s)) →
  wp persister_ReadSnapshot Q s.
Proof.
  intros HQ. unfold persister_ReadSnapshot. wp_run. apply HQ. unfold persisted. simpl.
  rewrite Heqo. intros Hp. match goal with E : p_ReadSnapshot ?p = _ |- _ => pose proof (written_ReadSnapshot p) as Hw; rewrite E in Hw end.
  etrans; [exact Hw|exact Hp].
Qed.

Ltac persist_step :=
  lazymatch goal with
  | |- wp persist _ _ => apply wp_persist_p; intros ? ?
  | |- wp (persister_Save _) _ _ => apply wp_Save_p; intros ? ?
  | |- wp persister_ReadSnapshot _ _ => apply wp_ReadSnapshot_p; intros ? ? ?
  | |- wp (init_leader_indexes _) _ _ => apply wp_init_leader_indexes; intros ? ? ? ?
  | |- _ => handler_step
  end.
Ltac persist_run := repeat persist_step.

(** The answer [OpAppendReply] may take the node to a newer term without
    [persist()]. *)
Definition stale_free (o : node_op) s : Prop :=
  match o with
  | OpAppendReply (Some reply) _ _ _ => aer_term reply <= m_currentTerm s
  | _ => True
  end.

Lemma heartbeat_persisted now s :
  persisted s → wp (doHeartBeat now) (λ _ s', persisted s') s.
Proof.
  intros Hp. unfold doHeartBeat, make_shared_int. persist_run; [|done].
  apply (wp_for_each persisted); [done| |intros; persist_run; done].
  intros i s1 _ Hp1. unfold doHeartBeat_peer. repeat first [
    match goal with |- wp (getPrevLogInfo _) _ _ => apply wp_getPrevLogInfo; intros ? ? ? end
    | persist_step]; done.
Qed.

Lemma election_persisted now s :
  persisted s → wp (doElection now) (λ _ s', persisted s') s.
Proof.
  intros Hp. unfold doElection, make_shared_int. persist_run; try done.
  intros [] s' Hr. rewrite doElection_requests in Hr. by injection Hr as <-.
Qed.

Lemma run_op_persisted o s :
  persisted s → stale_free o s → wp (run_op o) (λ _ s', persisted s') s.
Proof.
  intros Hp Ho. destruct o; simpl in Ho; simpl run_op;
    try (apply wp_bind; eapply wp_mono; [|first [by apply heartbeat_persisted|by apply election_persisted]];
         intros ? ? ?; by wp_step).
  all: try (unfold pushMsgToKvServer at 1; persist_run; done).
  all: unfold AppendEntries, AppendEntries_body, AppendEntries_log, RequestVote, RequestVote_body,
    InstallSnapshot, applierTicker_turn, getApplyLogs, Start, Snapshot, sendRequestVote,
    sendAppendEntries, leaderSendSnapShot_args, leaderSendSnapShot_reply, shared_get, shared_set,
    set_matchIndex_at, set_nextIndex_at; persist_run; simpl; try done; try (exfalso; blia); auto.
Qed.

End persistence.

(** (C4) Every critical section that starts with the node's state persisted
    ends with it persisted, whatever it does to the term, the vote, the log and
    the snapshot; the only exception is the reply of a newer term to an
    [AppendEntries]. *)
Theorem run_op_keeps_persisted {P : Type} `{PersisterLaws P} `{RaftArchive}
  (o : node_op) (s s' : Raft P) (a : answer)
  (Hp : persisted s) (Hrun : run_op o s = Ok (a, s'))
  (Ho : ∀ reply server args p, o = OpAppendReply (Some reply) server args p →
        aer_term reply <= m_currentTerm s) :
  persisted s'.
Proof.
  eapply run_op_persisted; [exact Hp| |exact Hrun]. destruct o as [| | | | | | | | | |[]| |]; naive_solver.
Qed.

Definition persisted_node : Raft Persister :=
  set_m_persister (Some (SaveRaftState eager (persistData sample_node) (new_Persister ("", "")))) sample_node.

Lemma run_op_keeps_persisted_witness :
  ∃ a s', run_op (OpElection 3) persisted_node = Ok (a, s') ∧ m_currentTerm s' = 2 ∧ persisted s'.
Proof.
  destruct (run_op (OpElection 3) persisted_node) as [[a s']|] eqn:E; [|by vm_compute in E].
  exists a, s'. split; [done|]. split; [vm_compute in E; by injection E as <- <-|].
  apply (@run_op_keeps_persisted Persister _ (Persister_laws eager) _ (OpElection 3) persisted_node s' a);
    [by vm_compute|exact E|by intros].
Defined.

(** A leader that learns of a newer term from the reply to an
    [AppendEntries] steps down and forgets its vote in memory only: the
    persister still holds the old term and vote. *)
Theorem stepdown_not_persisted {P : Type} `{PersisterOps P} `{RaftArchiveLaws}
  (reply : AppendEntriesReply) (server : nat) (args : AppendEntriesArgs) (k : nat) (s : Raft P) (p : P)
  (Hpers : persisted s) (Hp : m_persister s = Some p)
  (Hterm : m_currentTerm s < aer_term reply) (Happ : aer_appstate reply ≠ Disconnected) :
  ∃ s', sendAppendEntries (Some reply) server args k s = Ok (true, s') ∧
    m_currentTerm s' = aer_term reply ∧ m_votedFor s' = -1 ∧ m_status s' = Follower ∧
    m_persister s' = Some p ∧ ¬ persisted s' ∧
    text_iarchive (p_written p) = Some (persistNode s).
Proof.
  unfold sendAppendEntries, become_follower. mrun.
  rewrite (proj2 (Z.eqb_neq _ _)), (proj2 (Z.ltb_lt _ _)) by done.
  eexists. split; [done|]. simpl. split_and!; try done.
  - unfold persisted in *. simpl. rewrite Hp in *. rewrite Hpers. unfold persistData.
    intros Heq. apply (f_equal text_iarchive) in Heq. rewrite !iarchive_oarchive in Heq.
    injection Heq as Ht _. simpl in Ht. lia.
  - unfold persisted in Hpers. rewrite Hp in Hpers. rewrite Hpers. apply iarchive_oarchive.
Qed.

Lemma stepdown_not_persisted_witness :
  ∃ s', sendAppendEntries (Some (mkAppendEntriesReply 5 false 0 AppNormal)) 2
          (mkAppendEntriesArgs 1 1 0 0 [] 0) 0 persisted_node = Ok (true, s') ∧
    m_currentTerm s' = 5 ∧ ¬ persisted s'.
Proof.
  destruct (@stepdown_not_persisted Persister _ _ text_archive_laws (mkAppendEntriesReply 5 false 0 AppNormal) 2
    (mkAppendEntriesArgs 1 1 0 0 [] 0) 0 persisted_node
    (SaveRaftState eager (persistData sample_node) (new_Persister ("", ""))))
    as (s' & Hr & Ht & _ & _ & _ & Hn & _); [by vm_compute|done|done|done|].
  exists s'. split_and!; [exact Hr|exact Ht|exact Hn].
Defined.

(** ** AppendEntries on concrete messages *)

Lemma AppendEntries_accept_witness :
  ∃ s', AppendEntries 7 (mkAppendEntriesArgs 2 0 1 1 [sample_entry 2 2 "c"; sample_entry 3 2 "d"] 2) sample_node
    = Ok (mkAppendEntriesReply 2 true 0 AppNormal, s') ∧ getLastLogIndex s' = 3 ∧ m_commitIndex s' = 2.
Proof.
  destruct (@AppendEntries_accept Persister _ _ (Persister_laws eager) 7
    (mkAppendEntriesArgs 2 0 1 1 [sample_entry 2 2 "c"; sample_entry 3 2 "d"] 2) sample_node)
    as [H _].
  - apply sample_node_wf.
  - intros [|[|[]]] e He; by simplify_eq/=.
  - done.
  - done.
  - destruct H as (s' & Hr & Ho & HL & Hc & _).
    + intros e He (e' & He' & Ht & _).
      apply elem_of_cons in He as [->|[->|?%not_elem_of_nil]%elem_of_cons]; [|done|done].
      vm_compute in He'. injection He' as <-. done.
    + exists s'. split_and!; [exact Hr|exact HL|]. rewrite Hc, HL. done.
Defined.

Lemma AppendEntries_refuse_witness :
  ∃ n s', AppendEntries 7 (mkAppendEntriesArgs 2 0 2 2 [sample_entry 3 2 "d"] 2) sample_node
    = Ok (mkAppendEntriesReply 2 false n AppNormal, s') ∧ m_commitIndex s' = 0.
Proof.
  destruct (@AppendEntries_refuse Persister _ _ (Persister_laws eager) 7
    (mkAppendEntriesArgs 2 0 2 2 [sample_entry 3 2 "d"] 2) sample_node)
    as (n & s' & Hr & _ & _ & Hc & _).
  - apply sample_node_wf.
  - done.
  - right. by vm_compute.
  - exists n, s'. split; [exact Hr|exact Hc].
Defined.

Lemma AppendEntries_exits_witness :
  AppendEntries 7 (mkAppendEntriesArgs 2 0 1 1 [sample_entry 2 1 "c"] 2) sample_node = Fail AssertFailed.
Proof.
  apply (AppendEntries_exits 7 (mkAppendEntriesArgs 2 0 1 1 [sample_entry 2 1 "c"] 2) sample_node).
  - apply sample_node_wf.
  - intros [|[]] e He; by simplify_eq/=.
  - split; [done|]. split; [by vm_compute|]. split; [by vm_compute|]. right. split; [done|].
    exists (sample_entry 2 1 "c"). split; [left|]. by exists (sample_entry 2 1 "b").
Defined.

(** ** Commitment *)

Section commitment.
Context {P : Type} `{PersisterOps P} `{RaftArchive}.
Implicit Types s : Raft P.

#[local] Instance committable_dec s index : Decision (committable s index).
Proof. unfold committable. apply _. Defined.

Lemma sum_replicas_Ok index l sum s :
  (∀ i, i ∈ l → (i < length (m_matchIndex s))%nat) →
  sum_replicas index l sum s =
  Ok (sum + Z.of_nat (length (List.filter (λ i, (i =? m_me s)%nat ||
        match m_matchIndex s !! i with Some m => index <=? m | None => false end) l)), s).
Proof.
  revert sum. induction l as [|i l IH]; intros sum Hl; simpl; [by rewrite Z.add_0_r|].
  assert (Hi : (i < length (m_matchIndex s))%nat) by (apply Hl; left).
  destruct (lookup_lt_is_Some_2 _ _ Hi) as [m Hm].
  unfold count_replicas, mbind, M_bind, gets. simpl.
  destruct (i =? m_me s)%nat; simpl.
  - rewrite IH by (intros; apply Hl; by right). do 2 f_equal. lia.
  - unfold vec_at. rewrite (proj2 (Z.leb_le _ _)), Nat2Z.id, Hm by lia. simpl.
    destruct (index <=? m); simpl; rewrite IH by (intros; apply Hl; by right); do 2 f_equal; lia.
Qed.

Lemma leaderUpdateCommitIndex_Ok s :
  node_wf s → ∃ c, leaderUpdateCommitIndex s = Ok (tt, set_m_commitIndex c s) ∧ commit_target s c.
Proof.
  intros Hwf. pose proof (wf_log _ Hwf) as Hc. pose proof (getLastLogIndex_wf _ Hc) as HL.
  set (snap := m_lastSnapshotIncludeIndex s) in *.
  set (s1 := set_m_commitIndex snap s).
  unfold leaderUpdateCommitIndex, mbind at 1 2, M_bind at 1 2, gets, modify. cbn [id]. fold snap s1.
  change (getLastLogIndex s1) with (getLastLogIndex s). unfold mbind at 1, M_bind at 1.
  rewrite (for_until_find (λ i, bool_decide (committable s i))).
  - pose proof (find_zdown (λ i, bool_decide (committable s i)) (getLastLogIndex s)
      (Z.to_nat (getLastLogIndex s - snap))) as Hf.
    destruct (List.find _ _) as [c|].
    + exists c. split; [done|]. right. destruct Hf as (Hr & Hb & Hj).
      split_and!; [lia|lia|by apply bool_decide_eq_true in Hb|].
      intros j Hj'. apply Hj in Hj'. by apply bool_decide_eq_false in Hj'.
    + exists snap. split; [done|]. left. split; [done|].
      intros j Hj'. apply (bool_decide_eq_false (committable s j)), Hf. lia.
  - intros i Hi%elem_of_zdown. unfold mbind, M_bind. rewrite sum_replicas_Ok.
    2:{ intros j Hj%elem_of_seq. simpl. rewrite (wf_match _ Hwf). lia. }
    destruct (term_at_is_Some s i Hc) as [t Ht]; [lia|].
    cbv beta iota. rewrite Z.add_0_l.
    match goal with |- context [Z.of_nat (length ?l)] => change (Z.of_nat (length l)) with (replicas s i) end.
    change (Z.of_nat (m_peers s / 2 + 1)) with (majority (m_peers s)).
    destruct (Z.leb_spec (majority (m_peers s)) (replicas s i)).
    + rewrite (getLogTerm_Ok s1 i t Hc Ht). case_bool_decide as D; unfold committable in D; rewrite Ht in D.
      * destruct D as [_ [= ->]]. by rewrite Z.eqb_refl.
      * destruct (Z.eqb_spec t (m_currentTerm s)); [naive_solver|done].
    + rewrite bool_decide_false; [done|]. unfold committable. lia.
Qed.

Lemma commit_target_wf s c : node_wf s → commit_target s c → node_wf (set_m_commitIndex c s).
Proof.
  intros Hwf Ht. pose proof (getLastLogIndex_wf _ (wf_log _ Hwf)) as HL.
  destruct Hwf. constructor; simpl; try done. destruct Ht as [[-> _]|[? _]]; lia.
Qed.

End commitment.

(** [leaderUpdateCommitIndex] always returns and only writes the commit
    index: it becomes the greatest index of the log held by a majority whose
    entry is of the current term, and the snapshot's index when there is none. *)
Theorem leaderUpdateCommitIndex_spec {P : Type} `{PersisterOps P} `{RaftArchive} (s : Raft P)
  (Hwf : node_wf s) :
  ∃ c, leaderUpdateCommitIndex s = Ok (tt, set_m_commitIndex c s) ∧
    ((c = m_lastSnapshotIncludeIndex s ∧
      ∀ j, m_lastSnapshotIncludeIndex s < j <= getLastLogIndex s → ¬ committable s j) ∨
     (m_lastSnapshotIncludeIndex s < c <= getLastLogIndex s ∧ committable s c ∧
      ∀ j, c < j <= getLastLogIndex s → ¬ committable s j)).
Proof. by apply leaderUpdateCommitIndex_Ok. Qed.

Definition sample_leader : Raft Persister := set_m_matchIndex [2; 0; 0] (set_m_status Leader sample_node).

Lemma leaderUpdateCommitIndex_spec_witness :
  ∃ c, leaderUpdateCommitIndex sample_leader = Ok (tt, set_m_commitIndex c sample_leader) ∧
    ¬ committable sample_leader (c + 1).
Proof.
  destruct (leaderUpdateCommitIndex_spec sample_leader) as (c & Hr & Hc).
  { destruct sample_node_wf. by constructor. }
  exists c. split; [exact Hr|].
  assert (c = 2) as ->.
  { apply (f_equal (λ r, match r with Ok (_, s) => m_commitIndex s | Fail _ => 0 end)) in Hr.
    vm_compute in Hr. done. }
  intros [_ Ht]. vm_compute in Ht. done.
Defined.

(** [Start] on a leader appends the command at the next index in the
    current term, persists the log, returns the index and the term, and
    recomputes the commit index; on any other node it returns (-1, -1, false)
    and changes nothing. *)
Theorem Start_spec {P : Type} `{PersisterLaws P} `{RaftArchive} (cmd : Op) (s : Raft P)
  (Hwf : node_wf s) :
  if decide (m_status s = Leader) then
    ∃ s', Start cmd s = Ok (getLastLogIndex s + 1, m_currentTerm s, true, s') ∧
      m_logs s' = m_logs s ++ [mkLogEntry (Op_asString cmd) (m_currentTerm s) (getLastLogIndex s + 1)] ∧
      m_currentTerm s' = m_currentTerm s ∧ m_status s' = Leader ∧
      node_wf s' ∧ persisted s' ∧ commit_target s' (m_commitIndex s')
  else Start cmd s = Ok (-1, -1, false, s).
Proof.
  case_decide as D; [|unfold Start; mrun; by rewrite bool_decide_false].
  unfold Start, mbind, M_bind, gets, modify in *. simpl in *. rewrite bool_decide_true in * by done. simpl in *.
  set (e := mkLogEntry _ _ _) in *. set (s1 := set_m_logs (m_logs s ++ [e]) s) in *.
  destruct (persist s1) as [[[] s2]|] eqn:Hp; [|destruct (persist_Ok s1); congruence].
  destruct (persist_persisted _ _ Hp) as [Hps2 [p ->]].
  assert (Hwf2 : node_wf (set_m_persister p s1)).
  { pose proof (getLastLogIndex_wf s (wf_log s Hwf)). destruct Hwf; constructor; simpl; rewrite ?length_app; try done; try lia.
    apply contiguous_snoc; [done|]. simpl. unfold getNewCommandIndex. lia. }
  destruct (leaderUpdateCommitIndex_Ok _ Hwf2) as (c & Hu & Ht). rewrite Hu in *.
  eexists. split; [done|]. split_and!; try done.
  by apply commit_target_wf.
Qed.

Lemma Start_spec_witness :
  ∃ s', Start (mkOp "Put" "x" "1" "c" 1) sample_leader = Ok (3, 1, true, s') ∧ getLastLogIndex s' = 3.
Proof.
  pose proof (@Start_spec Persister _ (Persister_laws eager) _ (mkOp "Put" "x" "1" "c" 1) sample_leader) as Hs.
  destruct Hs as (s' & Hr & Hl & _); [destruct sample_node_wf; by constructor|].
  exists s'. split; [exact Hr|]. unfold getLastLogIndex, getLastLogIndexAndTerm. rewrite Hl. done.
Defined.

(** ** Applying *)

Section applying.
Context {P : Type} `{PersisterOps P} `{RaftArchive}.
Implicit Types s : Raft P.

Lemma getApplyLogs_next_Ok s e :
  log_wf s → entry_at s (m_lastApplied s + 1) = Some e →
  getApplyLogs_next s =
  Ok (command_msg e (m_lastApplied s + 1), set_m_lastApplied (m_lastApplied s + 1) s).
Proof.
  intros Hc He. destruct (entry_at_Some _ _ _ Hc He) as [_ Hi].
  unfold getApplyLogs_next, mbind, M_bind, modify, gets. simpl.
  rewrite (log_at_Ok (set_m_lastApplied _ s) _ e) by done. by rewrite Hi, Z.eqb_refl.
Qed.

Lemma getApplyLogs_loop_Ok s n :
  log_wf s → m_lastSnapshotIncludeIndex s <= m_lastApplied s →
  m_lastApplied s + Z.of_nat n <= getLastLogIndex s →
  ∃ r, getApplyLogs_loop n s = Ok (r, set_m_lastApplied (m_lastApplied s + Z.of_nat n) s).
Proof.
  revert s. induction n as [|n IH]; intros s Hc Hl Hn; simpl.
  - exists []. unfold mret, M_ret. rewrite Z.add_0_r. by destruct s.
  - destruct (entry_at_is_Some s (m_lastApplied s + 1) Hc) as [e He]; [lia|].
    unfold mbind, M_bind. rewrite (getApplyLogs_next_Ok s e) by done.
    destruct (IH (set_m_lastApplied (m_lastApplied s + 1) s)) as [r ->];
      [done|simpl; lia|change (getLastLogIndex (set_m_lastApplied _ s)) with (getLastLogIndex s); simpl; lia|].
    eexists. unfold mret, M_ret. do 2 f_equal. destruct s; simpl. unfold set_m_lastApplied. simpl. f_equal. lia.
Qed.

Lemma push_all_Ok msgs s :
  for_each msgs pushMsgToKvServer s = Ok (tt, set_applyChan (applyChan s ++ msgs) s).
Proof.
  revert s. induction msgs as [|m msgs IH]; intros s; simpl.
  - rewrite app_nil_r. by destruct s.
  - unfold mbind, M_bind, pushMsgToKvServer at 1, modify. rewrite IH. simpl.
    by rewrite <- (assoc_L (++)).
Qed.

End applying.

(** One turn of the applier always ends: it hands the state machine the
    commands of the indexes [lastApplied+1 .. commitIndex], each exactly once
    and in order, and moves [lastApplied] up to the commit index. *)
Theorem applierTicker_spec {P : Type} `{PersisterOps P} `{RaftArchive} (s : Raft P) (Hwf : node_wf s) :
  ∃ msgs, applierTicker_turn s =
      Ok (tt, set_applyChan (applyChan s ++ msgs)
                (set_m_lastApplied (Z.max (m_lastApplied s) (m_commitIndex s)) s)) ∧
    Z.of_nat (length msgs) = Z.max 0 (m_commitIndex s - m_lastApplied s) ∧
    ∀ k m, msgs !! k = Some m → ∃ e,
      entry_at s (m_lastApplied s + Z.of_nat k + 1) = Some e ∧
      m = command_msg e (m_lastApplied s + Z.of_nat k + 1).
Proof.
  pose proof (getLastLogIndex_wf _ (wf_log _ Hwf)) as HL.
  pose proof (wf_commit _ Hwf). pose proof (wf_applied _ Hwf).
  set (n := Z.to_nat (m_commitIndex s - m_lastApplied s)).
  destruct (getApplyLogs_loop_Ok s n) as [r Hr]; [apply Hwf|lia|lia|].
  exists r. split_and!.
  - unfold applierTicker_turn, getApplyLogs, mbind, M_bind, gets, assert_that. cbn [id].
    rewrite (proj2 (Z.leb_le _ _)) by lia. unfold mret at 1, M_ret at 1. fold n. rewrite Hr, push_all_Ok.
    replace (Z.max _ _) with (m_lastApplied s + Z.of_nat n) by lia. done.
  - revert Hr. eapply (wp_getApplyLogs_loop n (λ r _, Z.of_nat (length r) = _)). intros r' Hlen _. lia.
  - revert Hr. eapply (wp_getApplyLogs_loop n (λ r _, ∀ k m, r !! k = Some m → _)). by intros r' _ Hm.
Qed.

Definition committed_node : Raft Persister := set_m_commitIndex 2 sample_node.

Lemma committed_node_wf : node_wf committed_node.
Proof. destruct sample_node_wf. constructor; try done. Qed.

Lemma applierTicker_spec_witness :
  ∃ msgs s', applierTicker_turn committed_node = Ok (tt, s') ∧ length msgs = 2%nat ∧
    applyChan s' = msgs ∧ m_lastApplied s' = 2.
Proof.
  destruct (applierTicker_spec committed_node committed_node_wf) as (msgs & Hr & Hlen & _).
  eexists msgs, _. split; [exact Hr|]. split_and!; [|done|done].
  assert (Z.of_nat (length msgs) = 2) by exact Hlen. lia.
Defined.

(** ** Snapshots *)

Section snapshots.
Context {P : Type} `{PersisterOps P} `{RaftArchive}.
Implicit Types s : Raft P.

Lemma trunckedLogs_Ok s i n :
  log_wf s → m_lastSnapshotIncludeIndex s < i → i + Z.of_nat n - 1 <= getLastLogIndex s →
  Snapshot_trunckedLogs i n s = Ok (take n (drop (Z.to_nat (i - m_lastSnapshotIncludeIndex s - 1)) (m_logs s)), s).
Proof.
  intros Hc. revert i. induction n as [|n IH]; intros i Hi Hn; [done|]. simpl.
  destruct (entry_at_is_Some s i Hc) as [e He]; [lia|].
  unfold mbind, M_bind. rewrite (log_at_Ok _ _ e), IH by (done || lia). unfold mret, M_ret. do 2 f_equal.
  unfold entry_at in He. rewrite (proj2 (Z.ltb_lt _ _)) in He by lia.
  replace (Z.to_nat (i + 1 - m_lastSnapshotIncludeIndex s - 1))
    with (S (Z.to_nat (i - m_lastSnapshotIncludeIndex s - 1))) by lia.
  by rewrite (drop_S _ _ _ He).
Qed.

(** Dropping the entries up to [i]. *)
Lemma entry_at_drop s s' i j :
  m_lastSnapshotIncludeIndex s <= i → m_lastSnapshotIncludeIndex s' = i →
  m_logs s' = drop (Z.to_nat (i - m_lastSnapshotIncludeIndex s)) (m_logs s) →
  entry_at s' j = if i <? j then entry_at s j else None.
Proof.
  intros Hi Es El. unfold entry_at. rewrite Es. destruct (Z.ltb_spec i j); [|done].
  rewrite (proj2 (Z.ltb_lt _ _)) by lia. rewrite El, lookup_drop. f_equal. lia.
Qed.

End snapshots.

(** [Snapshot] on a well-formed node with a persister. *)
Lemma Snapshot_Ok {P : Type} `{PersisterLaws P} `{RaftArchive} (index : Z) (data : string) (s : Raft P) (p : P)
  (Hwf : node_wf s) (Hp : m_persister s = Some p) :
  if (index <=? m_lastSnapshotIncludeIndex s) || (m_commitIndex s <? index)
  then Snapshot index data s = Ok (tt, s)
  else ∃ s', Snapshot index data s = Ok (tt, s') ∧
    (∀ j, entry_at s' j = if index <? j then entry_at s j else None) ∧
    (∀ j, index <= j → term_at s' j = term_at s j) ∧
    getLastLogIndex s' = getLastLogIndex s ∧
    m_commitIndex s' = m_commitIndex s ∧ m_lastApplied s' = Z.max (m_lastApplied s) index ∧
    m_persister s' = Some (p_Save (persistData s') data p) ∧ persisted s' ∧ node_wf s'.
Proof.
  pose proof (getLastLogIndex_wf _ (wf_log _ Hwf)) as HL. pose proof (wf_commit _ Hwf).
  pose proof (Snapshot_wf index data s Hwf) as Hwf'.
  destruct (_ || _) eqn:E; [unfold Snapshot; mrun; by rewrite E|].
  assert (m_lastSnapshotIncludeIndex s < index <= m_commitIndex s) by blia.
  destruct (entry_at_is_Some s index (wf_log _ Hwf)) as [e He]; [lia|].
  set (l := drop (Z.to_nat (index - m_lastSnapshotIncludeIndex s)) (m_logs s)).
  assert (Hr : Snapshot index data s = Ok (tt,
    let s1 := set_m_lastApplied (Z.max (m_lastApplied s) index) (set_m_commitIndex (Z.max (m_commitIndex s) index)
      (set_m_logs l (set_m_lastSnapshotIncludeTerm (logterm e) (set_m_lastSnapshotIncludeIndex index s)))) in
    set_m_persister (Some (p_Save (persistData s1) data p)) s1)).
  { unfold Snapshot, mbind, M_bind, gets. cbn [id]. rewrite E.
    rewrite (log_at_Ok s index e) by (done || apply Hwf). rewrite trunckedLogs_Ok by (apply Hwf || lia).
    rewrite take_ge by (rewrite length_drop; lia).
    replace (Z.to_nat (index + 1 - _ - 1)) with (Z.to_nat (index - m_lastSnapshotIncludeIndex s)) by lia. fold l.
    unfold modify, persister_Save, mbind, M_bind, gets. simpl. rewrite Hp. simpl. unfold modify.
    unfold assert_that. rewrite (proj2 (Z.eqb_eq _ _)); [done|].
    simpl. unfold l. rewrite length_drop. lia. }
  specialize (Hwf' _ _ Hr). cbv beta zeta in Hwf'. rewrite Hr. eexists. split; [done|].
  set (s' := set_m_persister _ _) in *.
  assert (Hent : ∀ j, entry_at s' j = if index <? j then entry_at s j else None) by by (intros; apply entry_at_drop; [lia|..]).
  split_and!; try done.
  - intros j Hj. unfold term_at. change (m_lastSnapshotIncludeIndex s') with index. rewrite Hent.
    rewrite (proj2 (Z.eqb_neq j (m_lastSnapshotIncludeIndex s))) by lia.
    destruct (Z.eqb_spec j index) as [->|]; [by rewrite He|]. by rewrite (proj2 (Z.ltb_lt _ _)) by lia.
  - rewrite (getLastLogIndex_wf s') by apply Hwf'. rewrite HL. simpl. unfold l. rewrite length_drop. lia.
  - simpl. lia.
  - apply (written_Save (persistData s')).
Qed.

(** [Snapshot] on a well-formed node with a persister always returns.  An
    index at or below the current snapshot, or not committed, is ignored;
    otherwise the log forgets exactly the entries up to [index], keeps every
    later entry at its index, remembers the term of [index], and the state and
    the snapshot data are saved. *)
Theorem Snapshot_spec {P : Type} `{PersisterLaws P} `{RaftArchive} (index : Z) (data : string) (s : Raft P) (p : P)
  (Hwf : node_wf s) (Hp : m_persister s = Some p) :
  if (index <=? m_lastSnapshotIncludeIndex s) || (m_commitIndex s <? index)
  then Snapshot index data s = Ok (tt, s)
  else ∃ s', Snapshot index data s = Ok (tt, s') ∧
    (∀ j, entry_at s' j = if index <? j then entry_at s j else None) ∧
    (∀ j, index <= j → term_at s' j = term_at s j) ∧
    getLastLogIndex s' = getLastLogIndex s ∧
    m_commitIndex s' = m_commitIndex s ∧ m_lastApplied s' = Z.max (m_lastApplied s) index ∧
    m_persister s' = Some (p_Save (persistData s') data p) ∧ persisted s' ∧ node_wf s'.
Proof. by apply Snapshot_Ok. Qed.

Lemma Snapshot_spec_witness :
  ∃ s', Snapshot 1 "data" committed_node = Ok (tt, s') ∧ entry_at s' 2 = entry_at committed_node 2 ∧
    entry_at s' 1 = None.
Proof.
  destruct (@Snapshot_spec Persister _ (Persister_laws eager) _ 1 "data" committed_node
     (new_Persister ("", "")) committed_node_wf eq_refl) as (s' & Hr & He & _).
  exists s'. split; [exact Hr|]. split; rewrite He; done.
Defined.

(** What [InstallSnapshot] does to a node it does not turn away: the state
    before the snapshot is looked at. *)
Definition install_base {P} `{PersisterOps P} `{RaftArchive} (now : Z) (args : InstallSnapshotRequest)
    (s : Raft P) (p : P) : Raft P :=
  set_m_lastResetElectionTime now (set_m_status Follower
    (if m_currentTerm s <? is_term args then
       let s1 := set_m_votedFor (-1) (set_m_currentTerm (is_term args) s) in
       set_m_persister (Some (p_SaveRaftState (persistData s1) p)) s1
     else s)).

(** The state [InstallSnapshot] ends in when the snapshot is newer, [b] being
    the base state and [p1] its persister. *)
Definition installed {P} `{PersisterOps P} `{RaftArchive} (args : InstallSnapshotRequest) (b : Raft P) (p1 : P) : Raft P :=
  let last := is_lastsnapshotincludeindex args in
  let s1 := set_m_lastSnapshotIncludeTerm (is_lastsnapshotincludeterm args) (set_m_lastSnapshotIncludeIndex last
    (set_m_lastApplied (Z.max (m_lastApplied b) last) (set_m_commitIndex (Z.max (m_commitIndex b) last)
      (set_m_logs (drop (Z.to_nat (last - m_lastSnapshotIncludeIndex b)) (m_logs b)) b)))) in
  let s2 := set_m_ioManager (m_ioManager b ++ [TPushMsgToKvServer (mkApplyMsg false "" (-1) true (is_data args)
    (is_lastsnapshotincludeterm args) last)]) s1 in
  set_m_persister (Some (p_Save (persistData s2) (is_data args) p1)) s2.

Section install.
Context {P : Type} `{PersisterOps P} `{RaftArchive}.
Implicit Types s : Raft P.

Lemma install_base_facts now args s p :
  m_persister s = Some p → m_currentTerm s <= is_term args →
  let b := install_base now args s p in
  m_currentTerm b = is_term args ∧ m_logs b = m_logs s ∧ m_commitIndex b = m_commitIndex s ∧
  m_lastSnapshotIncludeIndex b = m_lastSnapshotIncludeIndex s ∧ m_ioManager b = m_ioManager s ∧
  m_lastApplied b = m_lastApplied s ∧ m_status b = Follower ∧ getLastLogIndex b = getLastLogIndex s ∧
  ∃ p1, m_persister b = Some p1.
Proof.
  intros Hp Hle b. unfold b, install_base.
  destruct (Z.ltb_spec (m_currentTerm s) (is_term args)); simpl; split_and!; try done; try lia; eauto.
Qed.

(** The assignments of a newer term. *)
Lemma install_term {A} args s p (k : unit → M (Raft P) A) :
  m_persister s = Some p →
  (mbind k (if m_currentTerm s <? is_term args then
     modify (set_m_currentTerm (is_term args)) ;; modify (set_m_votedFor (-1)) ;;
     modify (set_m_status Follower) ;; persist else mret tt)) s =
  k tt (if m_currentTerm s <? is_term args then
    let s1 := set_m_status Follower (set_m_votedFor (-1) (set_m_currentTerm (is_term args) s)) in
    set_m_persister (Some (p_SaveRaftState (persistData s1) p)) s1 else s).
Proof.
  intros Hp. unfold mbind, M_bind, modify, persist, gets. destruct (_ <? _); simpl; [|done].
  unfold mbind, M_bind, gets. simpl. by rewrite Hp.
Qed.

(** The new log. *)
Lemma install_log (b : Raft P) last :
  m_lastSnapshotIncludeIndex b < last → log_wf b →
  (if last <? getLastLogIndex b then
     i ← getSlicesIndexFromLogIndex last; modify (set_m_logs (drop (Z.to_nat (i + 1)) (m_logs b)))
   else modify (set_m_logs [])) b =
  Ok (tt, set_m_logs (drop (Z.to_nat (last - m_lastSnapshotIncludeIndex b)) (m_logs b)) b).
Proof.
  intros Hlt Hc. pose proof (getLastLogIndex_wf _ Hc) as HL. destruct (Z.ltb_spec last (getLastLogIndex b)).
  - unfold mbind, M_bind. rewrite slices_Ok by lia. unfold modify. do 4 f_equal. lia.
  - unfold modify. by rewrite drop_ge by lia.
Qed.

Lemma InstallSnapshot_run now args s p p1 :
  node_wf s → m_persister s = Some p → m_currentTerm s <= is_term args →
  let b := install_base now args s p in
  m_persister b = Some p1 →
  InstallSnapshot now args s =
  if is_lastsnapshotincludeindex args <=? m_lastSnapshotIncludeIndex s
  then Ok (mkInstallSnapshotResponse 0, b)
  else Ok (mkInstallSnapshotResponse (is_term args), installed args b p1).
Proof.
  intros Hwf Hp Hle b Bp.
  destruct (install_base_facts now args s p Hp Hle) as (Bt & Bl & _ & Bs & _ & _ & _ & BL & _). fold b in Bt, Bl, Bs, BL.
  unfold InstallSnapshot, mbind at 1, M_bind at 1, gets at 1. cbn [id]. rewrite (proj2 (Z.ltb_ge _ _)) by lia.
  rewrite (install_term args s p) by done. unfold mbind, M_bind, modify, gets. cbn [id].
  replace (set_m_lastResetElectionTime now (set_m_status Follower (if m_currentTerm s <? is_term args then _ else s)))
    with b by (unfold b, install_base; by destruct (_ <? _)).
  rewrite Bs. destruct (Z.leb_spec (is_lastsnapshotincludeindex args) (m_lastSnapshotIncludeIndex s)); [done|].
  clearbody b. pose proof (install_log b (is_lastsnapshotincludeindex args)) as Hlog.
  unfold mbind, M_bind, modify in Hlog. rewrite Hlog; [|lia|].
  - simpl. unfold persister_Save, mbind, M_bind, gets. simpl. by rewrite Bp, Bt.
  - unfold log_wf. rewrite Bs, Bl. apply Hwf.
Qed.

End install.

(** [InstallSnapshot] on a well-formed node with a persister always
    returns.  A request of an old term is answered with the current term; a
    snapshot that is not newer only updates the term, and is answered with the
    term 0; otherwise the log forgets exactly the indexes up to the snapshot's
    and keeps the later ones, the commit and applied indexes are raised to it,
    the snapshot is handed to the state machine and saved with the state. *)
Theorem InstallSnapshot_spec {P : Type} `{PersisterLaws P} `{RaftArchive}
  (now : Z) (args : InstallSnapshotRequest) (s : Raft P) (p : P)
  (Hwf : node_wf s) (Hp : m_persister s = Some p) :
  let last := is_lastsnapshotincludeindex args in
  if is_term args <? m_currentTerm s
  then InstallSnapshot now args s = Ok (mkInstallSnapshotResponse (m_currentTerm s), s)
  else ∃ s', m_currentTerm s' = is_term args ∧ m_status s' = Follower ∧ node_wf s' ∧
    if last <=? m_lastSnapshotIncludeIndex s
    then InstallSnapshot now args s = Ok (mkInstallSnapshotResponse 0, s') ∧ m_logs s' = m_logs s ∧
         m_ioManager s' = m_ioManager s
    else InstallSnapshot now args s = Ok (mkInstallSnapshotResponse (is_term args), s') ∧
      (∀ j, entry_at s' j = if last <? j then entry_at s j else None) ∧
      m_lastSnapshotIncludeIndex s' = last ∧
      m_lastSnapshotIncludeTerm s' = is_lastsnapshotincludeterm args ∧
      m_commitIndex s' = Z.max (m_commitIndex s) last ∧ m_lastApplied s' = Z.max (m_lastApplied s) last ∧
      m_ioManager s' = m_ioManager s ++
        [TPushMsgToKvServer (mkApplyMsg false "" (-1) true (is_data args) (is_lastsnapshotincludeterm args) last)] ∧
      persisted s'.
Proof.
  intros last. destruct (Z.ltb_spec (is_term args) (m_currentTerm s)) as [|Hge].
  { unfold InstallSnapshot. mrun. by rewrite (proj2 (Z.ltb_lt _ _)). }
  pose proof (InstallSnapshot_wf now args s Hwf) as Hwf'.
  destruct (install_base_facts now args s p Hp Hge) as (Bt & Bl & Bc & Bs & Bi & Ba & Bst & BL & p1 & Bp).
  pose proof (InstallSnapshot_run now args s p p1 Hwf Hp Hge Bp) as Hrun. fold last in Hrun.
  set (b := install_base now args s p) in *. clearbody b.
  destruct (Z.leb_spec last (m_lastSnapshotIncludeIndex s)) as [Hl|Hl]; specialize (Hwf' _ _ Hrun); cbv beta in Hwf'.
  - by exists b.
  - exists (installed args b p1). split; [exact Bt|]. split; [exact Bst|]. split; [exact Hwf'|].
    split; [exact Hrun|]. simpl. rewrite Bc, Ba, Bi. split_and!; try done.
    + intros j. apply entry_at_drop; [lia|done|]. simpl. by rewrite Bs, Bl.
    + apply (written_Save).
Qed.

Lemma InstallSnapshot_spec_witness :
  ∃ s', InstallSnapshot 9 (mkInstallSnapshotRequest 0 3 1 1 "data") sample_node =
      Ok (mkInstallSnapshotResponse 3, s') ∧ entry_at s' 2 = entry_at sample_node 2 ∧ m_lastApplied s' = 1.
Proof.
  destruct (@InstallSnapshot_spec Persister _ (Persister_laws eager) _ 9
     (mkInstallSnapshotRequest 0 3 1 1 "data") sample_node (new_Persister ("", "")) sample_node_wf eq_refl)
    as (s' & _ & _ & _ & Hr & He & _ & _ & _ & Ha & _).
  exists s'. split; [exact Hr|]. split; [apply He|exact Ha].
Defined.
