(* ===== verification/RaftScenarios.v ===== *)
(** * RaftScenarios: heartbeats, restarts and runs of small clusters

    What a heartbeat sends, what a node remembers after a restart, and two
    runs of the cluster, evaluated step by step. *)

From S2P Require Import Prelude.
From S2P Require Import Persister.
From S2P Require Import RaftTypes.
From S2P Require Import Raft.
From S2P Require Import RaftFacts.
From S2P Require Import RaftHandlers.
From S2P Require Import RaftNet.
From S2P Require Import RaftConcrete.
From S2P Require Import RaftProps.

(** ** Definitions *)

(** The next indexes of the other nodes lie within the log, or one after. *)
Definition next_ok {P} (s : Raft P) : Prop :=
  ∀ i, (i < m_peers s)%nat → i ≠ m_me s →
    ∃ next, m_nextIndex s !! i = Some next ∧ 1 <= next <= getLastLogIndex s + 1.

(** The process of node [me] starts again: a new [Persister] on the files the
    old one left, then [init]. *)
Definition restart (peers me : nat) (p : Persister) (now : Z) : result (Raft Persister) :=
  @init Persister (Persister_ops eager) _ peers me
    (new_Persister (raftStateFile p, snapshotFile p)) now.

Definition put (k v : string) : Op := mkOp "Put" k v "client" 1.

(** Node [i] sends the request at position [k] of its queue, the server handles
    it and the reply is handled. *)
Definition round (i k : nat) (now : Z) : list event := [EvTask i k now; EvServe 0 now; EvReply 0 now].

(** Three nodes: node 0 is elected, commits one command with node 1, tells it,
    then node 1 is elected. *)
Definition reelection : list event :=
  [EvOp 0 (OpElection 1)] ++ round 0 3 2 ++
  [EvOp 0 (OpStart (put "a" "1")); EvOp 0 (OpHeartBeat 3)] ++ round 0 5 4 ++
  [EvOp 0 (OpHeartBeat 5)] ++ round 0 6 4 ++ [EvOp 1 (OpElection 6)] ++ round 1 3 7.

(** Five nodes.  Node 0 is the leader of term 1 and gives the entries a, b to
    node 1 only. *)
Definition first_leader : list event :=
  [EvOp 0 (OpElection 1)] ++ round 0 3 2 ++ round 0 3 2 ++
  [EvOp 0 (OpStart (put "a" "1")); EvOp 0 (OpStart (put "b" "1")); EvOp 0 (OpHeartBeat 3)] ++ round 0 6 4.

(** Node 2 is elected in term 2 by nodes 3 and 4, and commits and applies c
    with nodes 1 and 3. *)
Definition second_leader : list event :=
  [EvOp 2 (OpElection 5)] ++ round 2 5 6 ++ round 2 5 6 ++
  [EvOp 2 (OpStart (put "c" "1")); EvOp 2 (OpHeartBeat 7)] ++
  round 2 3 8 ++ round 2 6 8 ++ round 2 6 8 ++ [EvOp 2 OpApply].

(** Node 0 is elected in term 3 by nodes 1 and 4, and commits and applies a,
    b, d with them. *)
Definition third_leader : list event :=
  [EvOp 0 (OpElection 9)] ++ round 0 9 9 ++ round 0 11 9 ++
  [EvOp 0 (OpStart (put "d" "1")); EvOp 0 (OpHeartBeat 10)] ++ round 0 15 11 ++
  [EvOp 0 (OpHeartBeat 12)] ++ round 0 15 13 ++ round 0 17 13 ++ [EvOp 0 OpApply].

Definition two_truths : list event := first_leader ++ second_leader ++ third_leader.

(** ** Heartbeats *)

Section heartbeat.
Context {P : Type} `{PersisterOps P} `{RaftArchive}.
Implicit Types s : Raft P.

Lemma doHeartBeat_peer_Ok s0 ts i :
  node_wf s0 → next_ok s0 → (i < m_peers s0)%nat →
  let s := set_m_ioManager ts (set_shared_ints (shared_ints s0 ++ [1]) s0) in
  doHeartBeat_peer (length (shared_ints s0)) i s =
  Ok (tt, set_m_ioManager (ts ++ (if (i =? m_me s0)%nat then [] else [heartbeat_for s0 i])) s).
Proof.
  intros Hwf Hnext Hi s. pose proof (getLastLogIndex_wf _ (wf_log _ Hwf)) as HL.
  unfold doHeartBeat_peer, mbind at 1, M_bind at 1, gets. cbn [id].
  change (m_me s) with (m_me s0). destruct (Nat.eqb_spec i (m_me s0)) as [|Hne]; [by rewrite app_nil_r|].
  destruct (Hnext i Hi Hne) as (next & Hn & Hr). unfold heartbeat_for. rewrite Hn. simpl default.
  unfold mbind at 1, M_bind at 1, vec_at at 1. rewrite (proj2 (Z.leb_le 0 _)) by lia.
  rewrite Nat2Z.id. change (m_nextIndex s) with (m_nextIndex s0). rewrite Hn.
  unfold mbind at 1, M_bind at 1, mret at 1, M_ret at 1, assert_that at 1. rewrite (proj2 (Z.leb_le 1 _)) by lia.
  unfold mret at 1, M_ret at 1. change (m_lastSnapshotIncludeIndex s) with (m_lastSnapshotIncludeIndex s0).
  destruct (Z.leb_spec next (m_lastSnapshotIncludeIndex s0)); [done|].
  set (snap := m_lastSnapshotIncludeIndex s0) in *.
  assert (Hpre : getPrevLogInfo i s = Ok ((next - 1, default 0 (term_at s0 (next - 1))), s)).
  { unfold getPrevLogInfo, mbind, M_bind, gets, vec_at. cbn [id]. rewrite (proj2 (Z.leb_le 0 _)), Nat2Z.id by lia.
    change (m_nextIndex s) with (m_nextIndex s0). rewrite Hn. unfold mret, M_ret.
    change (m_lastSnapshotIncludeIndex s) with snap. unfold term_at. fold snap.
    destruct (Z.eqb_spec next (snap + 1)) as [->|].
    - rewrite (proj2 (Z.eqb_eq (snap + 1 - 1) snap)) by lia. simpl. do 3 f_equal. lia.
    - destruct (entry_at_is_Some s0 (next - 1)) as [e He]; [apply Hwf|fold snap; lia|].
      rewrite (log_at_Ok s (next - 1) e) by (done || apply Hwf).
      rewrite (proj2 (Z.eqb_neq (next - 1) snap)) by lia. by rewrite He. }
  unfold mbind at 1, M_bind at 1. rewrite Hpre.
  set (es := drop (Z.to_nat (next - 1 - snap)) (m_logs s0)).
  assert (Hes : (if negb (next - 1 =? snap) then
       j ← getSlicesIndexFromLogIndex (next - 1); mret (drop (Z.to_nat (j + 1)) (m_logs s0))
     else mret (m_logs s0)) s = Ok (es, s)).
  { destruct (Z.eqb_spec (next - 1) snap); simpl.
    - unfold mret, M_ret, es. by replace (Z.to_nat (next - 1 - snap)) with 0%nat by lia.
    - unfold mbind, M_bind. rewrite slices_Ok by (change (getLastLogIndex s) with (getLastLogIndex s0);
        change (m_lastSnapshotIncludeIndex s) with snap; lia).
      unfold mret, M_ret, es. do 3 f_equal. change (m_lastSnapshotIncludeIndex s) with snap. lia. }
  change (m_logs s) with (m_logs s0). unfold mbind at 1, M_bind at 1. rewrite Hes.
  change (getLastLogIndex s) with (getLastLogIndex s0).
  unfold mbind, M_bind, assert_that. rewrite (proj2 (Z.eqb_eq _ _)); [done|].
  unfold es. rewrite length_drop, HL. fold snap. lia.
Qed.

Lemma doHeartBeat_loop s0 l ts :
  node_wf s0 → next_ok s0 → (∀ i, i ∈ l → (i < m_peers s0)%nat) →
  for_each l (doHeartBeat_peer (length (shared_ints s0)))
    (set_m_ioManager ts (set_shared_ints (shared_ints s0 ++ [1]) s0)) =
  Ok (tt, set_m_ioManager (ts ++ map (heartbeat_for s0) (List.filter (λ i, negb (i =? m_me s0)%nat) l))
            (set_shared_ints (shared_ints s0 ++ [1]) s0)).
Proof.
  intros Hwf Hnext. revert ts. induction l as [|i l IH]; intros ts Hl; simpl; [by rewrite app_nil_r|].
  unfold mbind, M_bind. rewrite doHeartBeat_peer_Ok by (done || (apply Hl; left)).
  change (set_m_ioManager ?a (set_m_ioManager _ ?b)) with (set_m_ioManager a b).
  rewrite IH by (intros; apply Hl; by right). rewrite <- (assoc_L (++)).
  by destruct (i =? m_me s0)%nat.
Qed.

End heartbeat.

(** A heartbeat of a leader whose next indexes lie within its log ends
    normally: every other peer is sent its snapshot when its next index is
    covered by it, and otherwise all the entries from its next index on, with
    the index and term of the entry before them; the replies share one new
    counter. *)
Theorem doHeartBeat_spec {P : Type} `{PersisterOps P} `{RaftArchive} (now : Z) (s : Raft P)
  (Hwf : node_wf s) (Hl : m_status s = Leader) (Hnext : next_ok s) :
  doHeartBeat now s = Ok (tt,
    set_m_lastResetHearBeatTime now
      (set_m_ioManager (m_ioManager s ++
         map (heartbeat_for s) (List.filter (λ i, negb (i =? m_me s)%nat) (seq 0 (m_peers s))))
        (set_shared_ints (shared_ints s ++ [1]) s))).
Proof.
  unfold doHeartBeat, mbind at 1 2, M_bind at 1 2, gets. cbn [id]. rewrite decide_True by done.
  unfold make_shared_int, mbind, M_bind, gets, modify, mret, M_ret. cbn [id].
  pose proof (doHeartBeat_loop s (seq 0 (m_peers s)) (m_ioManager s) Hwf Hnext) as Hloop.
  replace (set_m_ioManager (m_ioManager s) _) with (set_shared_ints (shared_ints s ++ [1]) s) in Hloop by by destruct s.
  rewrite Hloop; [done|]. intros i ?%elem_of_seq. lia.
Qed.

Definition heartbeat_leader : Raft Persister := set_m_nextIndex [1; 3; 2] (set_m_status Leader sample_node).

Lemma doHeartBeat_spec_witness :
  ∃ s', doHeartBeat 5 heartbeat_leader = Ok (tt, s') ∧
    m_ioManager s' = m_ioManager heartbeat_leader ++ [heartbeat_for heartbeat_leader 0; heartbeat_for heartbeat_leader 2].
Proof.
  eexists. split; [apply (doHeartBeat_spec 5 heartbeat_leader)|done].
  - destruct sample_node_wf. by constructor.
  - done.
  - intros [|[|[|i]]] Hi Hne; simpl in *; [eexists; split; [done|]; vm_compute; split; congruence|done|
      eexists; split; [done|]; vm_compute; split; congruence|lia].
Defined.

(** ** Restarts *)

(** A restarted node has forgotten everything, whatever it saved: its
    term is 0, it has not voted and its log is empty, because the constructor
    of [Persister] truncates both files.  So a node that granted its vote to
    one candidate grants it to another one in the same term after a restart. *)
Theorem restart_forgets (peers me : nat) (p : Persister) (now : Z) (args : RequestVoteArgs) :
  ∃ s, restart peers me p now = Ok s ∧
    m_currentTerm s = 0 ∧ m_votedFor s = -1 ∧ m_logs s = [] ∧
    if vote_due s args
    then ∃ st s', @RequestVote Persister (Persister_ops eager) _ now args s =
           Ok (mkRequestVoteReply (rv_term args) true st, s')
    else rv_term args < 0 ∨ rv_lastlogterm args < 0 ∨ (rv_lastlogterm args = 0 ∧ rv_lastlogindex args < 0).
Proof.
  unfold restart. rewrite init_empty by done. eexists. split; [done|]. split_and!; [done..|].
  set (s := set_m_ioManager _ _). destruct (vote_due s args) eqn:E.
  - destruct (@RequestVote_spec Persister (Persister_ops eager) (Persister_laws eager) _ now args s) as (st & s' & Hr & _).
    rewrite E in Hr. exists st, s'. rewrite Hr. repeat f_equal.
    unfold vote_due in E. change (m_currentTerm s) with 0 in *. blia.
  - unfold vote_due in E. change (m_currentTerm s) with 0 in E. change (m_votedFor s) with (-1) in E.
    change (getLastLogTerm s) with 0 in E. change (getLastLogIndex s) with 0 in E.
    destruct (Z.leb_spec 0 (rv_term args)), (Z.ltb_spec 0 (rv_lastlogterm args)),
      (Z.eqb_spec (rv_lastlogterm args) 0), (Z.leb_spec 0 (rv_lastlogindex args));
      simpl in E; rewrite ?orb_true_r in E; try done; lia.
Qed.

(** ** Runs *)

(** The commit index of a leader can go back: there is a reachable
    cluster whose leader has committed (and another node has applied) index 1
    and whose commit index is 0 after it accepts a client command, because
    [Start] recomputes it from the entries of the new term only. *)
Theorem Start_lowers_commitIndex :
  ∃ (n n' : net Persister) (s s' : Raft Persister),
    reachable 3 n ∧ exec (EvOp 1 (OpStart (put "b" "2"))) n = Some n' ∧
    nodes n !! 1%nat = Some s ∧ nodes n' !! 1%nat = Some s' ∧
    m_status s = Leader ∧ m_commitIndex s = 1 ∧ m_status s' = Leader ∧ m_commitIndex s' = 0.
Proof.
  destruct (run_events reelection (start_net 3)) as [n|] eqn:E; [|by vm_compute in E].
  assert (Hn : reachable 3 n).
  { eapply run_events_reachable; [apply reachable_initial, (start_net_initial 3)|exact E]. }
  vm_compute in E. injection E as E.
  exists n. rewrite <- E in Hn |- *. do 3 eexists. split; [exact Hn|].
  split; [vm_compute; reflexivity|]. repeat split; vm_compute; reflexivity.
Qed.

(** (C5) State machine safety does not hold: there is a cluster, reached
    without crash or loss, in which two nodes have handed different commands of
    the same index to their state machines.  [AppendEntries] overwrites a
    conflicting entry without removing the ones after it, so that a node that
    holds a committed entry can end with a stale last entry and vote for a
    candidate that lacks the committed one. *)
Theorem committed_entry_lost :
  ∃ (n : net Persister) (s0 s2 : Raft Persister) (m0 m2 : ApplyMsg),
    reachable 5 n ∧ nodes n !! 0%nat = Some s0 ∧ nodes n !! 2%nat = Some s2 ∧
    m0 ∈ applyChan s0 ∧ m2 ∈ applyChan s2 ∧
    CommandIndex m0 = 1 ∧ CommandIndex m2 = 1 ∧
    Op_parseFromString (Command m0) = Some (put "a" "1") ∧
    Op_parseFromString (Command m2) = Some (put "c" "1").
Proof.
  destruct (run_events two_truths (start_net 5)) as [n|] eqn:E; [|by vm_compute in E].
  assert (Hn : reachable 5 n).
  { eapply run_events_reachable; [apply reachable_initial, (start_net_initial 5)|exact E]. }
  vm_compute in E. injection E as E.
  exists n. rewrite <- E in Hn |- *. do 4 eexists. split; [exact Hn|].
  split; [vm_compute; reflexivity|]. split; [vm_compute; reflexivity|].
  split; [left|]. split; [left|]. repeat split; vm_compute; reflexivity.
Qed.
