(* ===== verification/SkipList.v ===== *)
(** * SkipList: the skip list of the key/value store ([skipList/include/skipList.h])

    Nodes live in a heap of addresses with one array of forward pointers each,
    as in the source; a null or dangling pointer is [BadPointer], a forward
    index above the node's level [BadIndex].  The operations are shown to
    implement a finite map: [sl_inv s l] says that the structure [s] represents
    the list of cells [l], in the order of the keys, at every level.

    The lock [_mtx] makes each operation atomic.  [rand()] is an argument: the
    number of odd values it returns before the first even one. *)

From S2P Require Import Prelude.

(** ** Keys *)

(** [operator<] of the keys. *)
Class KeyOrder (K : Type) := { key_ltb : K → K → bool }.

Class KeyOrderLaws (K : Type) `{KeyOrder K} := {
  key_ltb_irrefl a : key_ltb a a = false;
  key_ltb_trans a b c : key_ltb a b = true → key_ltb b c = true → key_ltb a c = true;
  key_ltb_total a b : key_ltb a b = false → key_ltb b a = false → a = b
}.

(** ** The structure *)

Abbreviation addr := positive.

Record Node (K V : Type) := mkNode {
  forward : list (option addr);
  node_level : nat;
  node_key : K;
  node_value : V
}.
Arguments mkNode {K V}.
Arguments forward {K V} _.
Arguments node_level {K V} _.
Arguments node_key {K V} _.
Arguments node_value {K V} _.

Record SkipList (K V : Type) := mkSkipList {
  max_level : nat;
  skip_list_level : nat;
  header : addr;
  element_count : Z;
  heap : gmap addr (Node K V)
}.
Arguments mkSkipList {K V}.
Arguments max_level {K V} _.
Arguments skip_list_level {K V} _.
Arguments header {K V} _.
Arguments element_count {K V} _.
Arguments heap {K V} _.

Record SkipListDump (K V : Type) := mkSkipListDump {
  keyDumpVt : list K;
  valDumpVt : list V
}.
Arguments mkSkipListDump {K V}.
Arguments keyDumpVt {K V} _.
Arguments valDumpVt {K V} _.

(** The boost text archives of a dump. *)
Class DumpArchive (K V : Type) := {
  dump_out : SkipListDump K V → string;
  dump_in : string → option (SkipListDump K V)
}.

Class DumpArchiveLaws (K V : Type) `{DumpArchive K V} := {
  dump_in_out d : dump_in (dump_out d) = Some d;
  dump_out_nonempty d : dump_out d ≠ ""
}.

Section skiplist.
Context {K V : Type} `{EqDecision K} `{KeyOrder K} `{Inhabited K} `{Inhabited V}.
Implicit Types (s : SkipList K V) (k : K) (v : V) (a b : addr) (i : nat).

Abbreviation MS := (M (SkipList K V)).

Definition set_heap (h : gmap addr (Node K V)) s : SkipList K V :=
  mkSkipList (max_level s) (skip_list_level s) (header s) (element_count s) h.

Definition set_level (l : nat) s : SkipList K V :=
  mkSkipList (max_level s) l (header s) (element_count s) (heap s).

Definition set_count (c : Z) s : SkipList K V :=
  mkSkipList (max_level s) (skip_list_level s) (header s) c (heap s).

(** ** Memory *)

Definition deref (a : addr) : MS (Node K V) :=
  s ← gets id;
  match heap s !! a with Some n => mret n | None => fail BadPointer end.

Definition get_forward (a : addr) (i : nat) : MS (option addr) :=
  n ← deref a;
  match forward n !! i with Some p => mret p | None => fail BadIndex end.

Definition set_forward (a : addr) (i : nat) (p : option addr) : MS unit :=
  n ← deref a;
  if (i <? length (forward n))%nat then
    modify (λ s, set_heap (<[a := mkNode (<[i := p]> (forward n)) (node_level n) (node_key n) (node_value n)]> (heap s)) s)
  else fail BadIndex.

(** [new Node<K, V>(k, v, level)] *)
Definition create_node (k : K) (v : V) (level : nat) : MS addr :=
  s ← gets id;
  let a := fresh (dom (heap s)) in
  modify (set_heap (<[a := mkNode (replicate (level + 1) None) level k v]> (heap s))) ;; mret a.

(** [delete p] *)
Definition free (a : addr) : MS unit :=
  deref a ;; modify (λ s, set_heap (delete a (heap s)) s).

(** An element of the local array [update]. *)
Definition update_at (upd : list (option addr)) (i : nat) : MS addr :=
  p ← vec_at upd (Z.of_nat i);
  match p with Some a => mret a | None => fail BadPointer end.

(** ** Searching *)

(** [while (current->forward[i] != NULL && current->forward[i]->get_key() < key)
    current = current->forward[i];] *)
Fixpoint advance (fuel : nat) (i : nat) (k : K) (cur : addr) : MS addr :=
  match fuel with
  | O => fail NoFuel
  | S fuel' =>
      nxt ← get_forward cur i;
      match nxt with
      | None => mret cur
      | Some b => n ← deref b; if key_ltb (node_key n) k then advance fuel' i k b else mret cur
      end
  end.

(** The [for] loop over the levels [n-1 .. 0], filling [update]. *)
Fixpoint find_update (n : nat) (k : K) (cur : addr) (upd : list (option addr)) :
    MS (addr * list (option addr)) :=
  match n with
  | O => mret (cur, upd)
  | S i =>
      s ← gets id;
      cur ← advance (S (size (heap s))) i k cur;
      upd ← vec_set upd (Z.of_nat i) (Some cur);
      find_update i k cur upd
  end.

(** The same loop without [update]. *)
Fixpoint find_node (n : nat) (k : K) (cur : addr) : MS addr :=
  match n with
  | O => mret cur
  | S i => s ← gets id; cur ← advance (S (size (heap s))) i k cur; find_node i k cur
  end.

Definition search_element (k : K) : MS (option V) :=
  s ← gets id;
  cur ← find_node (skip_list_level s + 1) k (header s);
  nxt ← get_forward cur 0;
  match nxt with
  | Some b => n ← deref b; mret (if decide (node_key n = k) then Some (node_value n) else None)
  | None => mret None
  end.

(** ** Inserting *)

(** [odd] is the number of odd values [rand()] returns before an even one. *)
Definition get_random_level (odd : nat) : MS nat :=
  s ← gets id;
  let k := (1 + odd)%nat in
  mret (if (k <? max_level s)%nat then k else max_level s).

(** [for (i = from; i < to; i++) update[i] = _header;] *)
Fixpoint update_header (from n : nat) (hd : addr) (upd : list (option addr)) : MS (list (option addr)) :=
  match n with
  | O => mret upd
  | S n' => upd ← vec_set upd (Z.of_nat from) (Some hd); update_header (S from) n' hd upd
  end.

(** The body of the loop that links the new node in. *)
Definition link (new : addr) (upd : list (option addr)) (i : nat) : MS unit :=
  u ← update_at upd i;
  p ← get_forward u i;
  set_forward new i p ;;
  set_forward u i (Some new).

(** [element_count] counts with an [int]; 1 means that the key exists. *)
Definition insert_element (k : K) (v : V) (odd : nat) : MS Z :=
  s ← gets id;
  found ← find_update (skip_list_level s + 1) k (header s) (replicate (max_level s + 1) None);
  let '(cur, upd) := found : addr * list (option addr) in
  nxt ← get_forward cur 0;
  here ← match nxt with
         | Some b => n ← deref b; mret (bool_decide (node_key n = k))
         | None => mret false
         end;
  if here : bool then mret 1
  else
    random_level ← get_random_level odd;
    upd ← (if (skip_list_level s <? random_level)%nat then
             upd ← update_header (skip_list_level s + 1) (random_level - skip_list_level s) (header s) upd;
             modify (set_level random_level) ;; mret upd
           else mret upd);
    new ← create_node k v random_level;
    for_each (seq 0 (random_level + 1)) (link new upd) ;;
    modify (λ s, set_count (element_count s + 1) s) ;;
    mret 0.

(** ** Deleting *)

(** The loop that unlinks [cur] at the levels [i, i+1, ...], [n] of them. *)
Fixpoint unlink (i n : nat) (cur : addr) (upd : list (option addr)) : MS unit :=
  match n with
  | O => mret tt
  | S n' =>
      u ← update_at upd i;
      p ← get_forward u i;
      if decide (p = Some cur) then
        q ← get_forward cur i;
        set_forward u i q ;;
        unlink (S i) n' cur upd
      else mret tt
  end.

(** [while (_skip_list_level > 0 && _header->forward[_skip_list_level] == 0)
    _skip_list_level--;] *)
Fixpoint lower_level (l : nat) : MS unit :=
  match l with
  | O => mret tt
  | S l' =>
      s ← gets id;
      p ← get_forward (header s) l;
      match p with
      | None => modify (set_level l') ;; lower_level l'
      | Some _ => mret tt
      end
  end.

Definition delete_element (k : K) : MS unit :=
  s ← gets id;
  found ← find_update (skip_list_level s + 1) k (header s) (replicate (max_level s + 1) None);
  let '(cur, upd) := found : addr * list (option addr) in
  nxt ← get_forward cur 0;
  match nxt with
  | Some b =>
      n ← deref b;
      if decide (node_key n = k) then
        unlink 0 (skip_list_level s + 1) b upd ;;
        lower_level (skip_list_level s) ;;
        free b ;;
        modify (λ s, set_count (element_count s - 1) s)
      else mret tt
  | None => mret tt
  end.

Definition insert_set_element (k : K) (v : V) (odd : nat) : MS unit :=
  old ← search_element k;
  (match old with Some _ => delete_element k | None => mret tt end) ;;
  insert_element k v odd ;;
  mret tt.

(** ** Dump, load, size, construction, destruction *)

(** [SkipListDump::insert] *)
Definition dump_insert (n : Node K V) (d : SkipListDump K V) : SkipListDump K V :=
  mkSkipListDump (keyDumpVt d ++ [node_key n]) (valDumpVt d ++ [node_value n]).

Fixpoint dump_nodes (fuel : nat) (p : option addr) (d : SkipListDump K V) : MS (SkipListDump K V) :=
  match fuel with
  | O => fail NoFuel
  | S fuel' =>
      match p with
      | None => mret d
      | Some a => n ← deref a; p' ← get_forward a 0; dump_nodes fuel' p' (dump_insert n d)
      end
  end.

Definition dump_file `{DumpArchive K V} : MS string :=
  s ← gets id;
  p ← get_forward (header s) 0;
  d ← dump_nodes (S (size (heap s))) p (mkSkipListDump [] []);
  mret (dump_out d).

Definition list_size s : Z := element_count s.

(** [SkipList::clear], recursive: the nodes after [a] are freed first. *)
Fixpoint clear (fuel : nat) (a : addr) : MS unit :=
  match fuel with
  | O => fail NoFuel
  | S fuel' =>
      p ← get_forward a 0;
      (match p with Some b => clear fuel' b | None => mret tt end) ;;
      free a
  end.

(** The destructor. *)
Definition destroy : MS unit :=
  s ← gets id;
  p ← get_forward (header s) 0;
  (match p with Some b => clear (size (heap s)) b | None => mret tt end) ;;
  free (header s).

Definition new_SkipList (level : nat) : SkipList K V :=
  mkSkipList level 0 1%positive 0
    {[ 1%positive := mkNode (replicate (level + 1) None) level inhabitant inhabitant ]}.

End skiplist.

(** [load_file] passes the key twice to [insert_element], so it needs the two
    types to be the same. *)
Section load.
Context {K : Type} `{EqDecision K} `{KeyOrder K} `{Inhabited K} `{DumpArchive K K}.

Fixpoint load_keys (ks : list K) (odd : nat → nat) : M (SkipList K K) unit :=
  match ks with
  | [] => mret tt
  | k :: ks' => insert_element k k (odd 0%nat) ;; load_keys ks' (λ i, odd (S i))
  end.

Definition load_file (dumpStr : string) (odd : nat → nat) : M (SkipList K K) unit :=
  if decide (dumpStr = "") then mret tt
  else match dump_in dumpStr with
       | Some d => load_keys (keyDumpVt d) odd
       | None => fail OutOfRange
       end.

End load.
