(* ===== verification/SkipListFacts.v ===== *)
(** * SkipListFacts: the skip list implements a finite map

    [sl_inv s l]: the heap of [s] holds exactly the header and the cells [l],
    sorted by key, and the forward pointers of level [i] link the cells of
    level at least [i].  Every operation preserves it and acts on the contents
    as the operation of the finite map. *)

From Stdlib Require Import Sorting.Sorted.
From S2P Require Import Prelude.
From S2P Require Import SkipList.

(** ** Definitions *)

Record cell (K V : Type) := mkCell {
  c_addr : addr;
  c_level : nat;
  c_key : K;
  c_value : V
}.
Arguments mkCell {K V}.
Arguments c_addr {K V} _.
Arguments c_level {K V} _.
Arguments c_key {K V} _.
Arguments c_value {K V} _.

Section defs.
Context {K V : Type} `{EqDecision K} `{KeyOrder K}.
Implicit Types (h : gmap addr (Node K V)) (l : list (cell K V)).

(** The pointer of level [i] of the node at [a]. *)
Definition fwd h (a : addr) (i : nat) : option (option addr) := n ← h !! a; forward n !! i.

(** The pointers of level [i] lead from [a] through [l] to the end. *)
Fixpoint seg h (i : nat) (a : addr) (l : list addr) : Prop :=
  match l with
  | [] => fwd h a i = Some None
  | b :: l' => fwd h a i = Some (Some b) ∧ seg h i b l'
  end.

(** The cells that have a pointer of level [i]. *)
Definition lv (i : nat) l : list (cell K V) := filter (λ c, (i ≤ c_level c)%nat) l.

Definition lastd (a : addr) (l : list addr) : addr := default a (last l).

Definition key_lt (c c' : cell K V) : Prop := key_ltb (c_key c) (c_key c') = true.

Definition node_of h (c : cell K V) : Prop :=
  ∃ fw, h !! c_addr c = Some (mkNode fw (c_level c) (c_key c) (c_value c)) ∧ length fw = S (c_level c).

(** The nodes in memory, whatever their pointers. *)
Record shaped h (hd : addr) (mx : nat) l : Prop := {
  sh_header : ∃ n, h !! hd = Some n ∧ length (forward n) = S mx;
  sh_nodes : ∀ c, c ∈ l → node_of h c;
  sh_nodup : NoDup (hd :: map c_addr l);
  sh_dom : dom h = list_to_set (hd :: map c_addr l)
}.

Record sl_inv (s : SkipList K V) l : Prop := {
  si_shaped : shaped (heap s) (header s) (max_level s) l;
  si_levels : ∀ c, c ∈ l → (c_level c ≤ skip_list_level s)%nat;
  si_max : (skip_list_level s ≤ max_level s)%nat;
  si_seg : ∀ i, (i ≤ max_level s)%nat → seg (heap s) i (header s) (map c_addr (lv i l));
  si_sorted : StronglySorted key_lt l;
  si_count : element_count s = Z.of_nat (length l)
}.

Definition set_fwd (a : addr) (i : nat) (p : option addr) h : gmap addr (Node K V) :=
  alter (λ n, mkNode (<[i := p]> (forward n)) (node_level n) (node_key n) (node_value n)) a h.

(** The contents, in the order of the keys. *)
Definition kvs l : list (K * V) := map (λ c, (c_key c, c_value c)) l.

(** The cells before and from the key [k]. *)
Definition splits (k : K) l b f : Prop :=
  l = b ++ f ∧ (∀ c, c ∈ b → key_ltb (c_key c) k = true) ∧ (∀ c, c ∈ f → key_ltb (c_key c) k = false).

End defs.

(** The map a list of cells stands for. *)
Definition contents {K V} `{Countable K} (l : list (cell K V)) : gmap K V := list_to_map (kvs l).

(** ** Pointers *)

Section heap.
Context {K V : Type}.
Implicit Types (h : gmap addr (Node K V)) (a b : addr).

Lemma lastd_cons a b l : lastd a (b :: l) = lastd b l.
Proof. unfold lastd. destruct l as [|x l]; [done|]. rewrite last_cons_cons. destruct (last (x :: l)) eqn:E; [done|]. by apply last_None in E. Qed.

Lemma lastd_app a l l' : lastd a (l ++ l') = lastd (lastd a l) l'.
Proof. revert a. induction l as [|b l IH]; intros a; [done|]. simpl app. by rewrite !lastd_cons. Qed.

Lemma lastd_elem a l : lastd a l ∈ a :: l.
Proof. revert a. induction l as [|b l IH]; intros a; [left|]. rewrite lastd_cons. right. apply IH. Qed.

Lemma fwd_set_eq h a i p : is_Some (fwd h a i) → fwd (set_fwd a i p h) a i = Some p.
Proof.
  unfold fwd, set_fwd. rewrite lookup_alter_eq. destruct (h !! a) as [n|]; simpl; [|by intros []].
  intros Hi%lookup_lt_is_Some. by rewrite list_lookup_insert_eq.
Qed.

Lemma fwd_set_ne h a i p a' i' : (a', i') ≠ (a, i) → fwd (set_fwd a i p h) a' i' = fwd h a' i'.
Proof.
  unfold fwd, set_fwd. intros Hne. destruct (decide (a' = a)) as [->|].
  - rewrite lookup_alter_eq. destruct (h !! a) as [n|]; [|done]. simpl.
    rewrite list_lookup_insert_ne; [done|congruence].
  - by rewrite lookup_alter_ne.
Qed.

Lemma seg_ext h h' i a l : (∀ x, x ∈ a :: l → fwd h' x i = fwd h x i) → seg h i a l → seg h' i a l.
Proof.
  revert a. induction l as [|b l IH]; intros a Hx; simpl.
  - intros <-. apply Hx. left.
  - intros [<- Hs]. split; [apply Hx; left|]. apply IH; [|done]. intros x Hin. apply Hx. by right.
Qed.

Lemma seg_app h i a l l' : seg h i a (l ++ l') → seg h i (lastd a l) l'.
Proof.
  revert a. induction l as [|b l IH]; intros a; [done|]. rewrite lastd_cons. intros [_ Hs]. by apply IH.
Qed.

Lemma seg_head h i a l : seg h i a l → fwd h a i = Some (head l).
Proof. destruct l; simpl; [done|by intros [? _]]. Qed.

Lemma seg_insert h h' i a X Y n :
  NoDup (a :: X ++ Y) → n ∉ a :: X ++ Y → seg h i a (X ++ Y) →
  fwd h' n i = fwd h (lastd a X) i → fwd h' (lastd a X) i = Some (Some n) →
  (∀ x, x ∈ a :: X ++ Y → x ≠ lastd a X → fwd h' x i = fwd h x i) →
  seg h' i a (X ++ n :: Y).
Proof.
  revert a. induction X as [|x X IH]; intros a Hnd Hn Hs Hf Hl Hx; simpl in *.
  - split; [done|]. destruct Y as [|y Y]; simpl in *; [by rewrite Hf|].
    destruct Hs as [Ha Hs]. split; [by rewrite Hf|]. eapply seg_ext; [|done].
    intros z Hz. apply Hx; [by right|]. intros ->. apply NoDup_cons in Hnd as [Hnd _]. done.
  - rewrite lastd_cons in *. apply NoDup_cons in Hnd as [Ha Hnd]. destruct Hs as [Hax Hs]. split.
    + rewrite Hx; [done|left|]. intros ->. apply Ha. pose proof (lastd_elem x X). set_solver.
    + apply IH; try done; [set_solver|]. intros z Hz. apply Hx. by right.
Qed.

Lemma seg_remove h h' i a X Y n :
  NoDup (a :: X ++ n :: Y) → seg h i a (X ++ n :: Y) →
  fwd h' (lastd a X) i = fwd h n i →
  (∀ x, x ∈ a :: X ++ n :: Y → x ≠ lastd a X → fwd h' x i = fwd h x i) →
  seg h' i a (X ++ Y).
Proof.
  revert a. induction X as [|x X IH]; intros a Hnd Hs Hf Hx; simpl in *.
  - change (lastd a []) with a in *. destruct Hs as [Ha Hs]. apply NoDup_cons in Hnd as [Hna Hnd].
    destruct Y as [|y Y]; simpl in *; [by rewrite Hf|]. destruct Hs as [Hy Hs]. split; [by rewrite Hf|].
    eapply seg_ext; [|done]. intros z Hz. apply Hx; [by do 2 right|]. intros ->. apply Hna. by right.
  - rewrite lastd_cons in *. apply NoDup_cons in Hnd as [Ha Hnd]. destruct Hs as [Hax Hs]. split.
    + rewrite Hx; [done|left|]. intros ->. apply Ha. pose proof (lastd_elem x X). set_solver.
    + apply IH; try done. intros z Hz. apply Hx. by right.
Qed.

Lemma shaped_set_fwd h hd mx l a i p : shaped h hd mx l → shaped (set_fwd a i p h) hd mx l.
Proof.
  intros [(n & Hn & Hl) Hc Hnd Hd]. split; [| |done|by unfold set_fwd; rewrite dom_alter_L].
  - unfold set_fwd. destruct (decide (a = hd)) as [->|].
    + rewrite lookup_alter_eq, Hn. eexists. split; [done|]. simpl. by rewrite length_insert.
    + rewrite lookup_alter_ne by done. eauto.
  - intros c Hin. destruct (Hc c Hin) as (fw & Hf & Hlen). unfold node_of, set_fwd.
    destruct (decide (a = c_addr c)) as [->|].
    + rewrite lookup_alter_eq, Hf. eexists. split; [done|]. by rewrite length_insert.
    + rewrite lookup_alter_ne by done. eauto.
Qed.

Lemma shaped_size h hd mx l : shaped h hd mx l → size h = S (length l).
Proof.
  intros [_ _ Hnd Hd]. rewrite <- size_dom, Hd, size_list_to_set by done. simpl. by rewrite length_map.
Qed.

End heap.

(** ** Sorted cells *)

Section sorted.
Context {K V : Type} `{EqDecision K} `{KeyOrderLaws K}.
Implicit Types (l b f : list (cell K V)) (c : cell K V) (k : K).

Lemma sorted_splits l k : StronglySorted key_lt l → ∃ b f, splits k l b f.
Proof.
  induction 1 as [|c l Hs (b & f & -> & Hb & Hf) Hc].
  - by exists [], []; split_and!; [|intros ? ?%not_elem_of_nil..].
  - destruct (key_ltb (c_key c) k) eqn:E.
    + exists (c :: b), f. split_and!; [done| |done]. intros x [->|Hx]%elem_of_cons; [done|auto].
    + exists [], (c :: b ++ f). split_and!; [done|by intros ? ?%not_elem_of_nil|].
      intros x [->|Hx]%elem_of_cons; [done|]. rewrite Forall_forall in Hc. specialize (Hc x Hx).
      destruct (key_ltb (c_key x) k) eqn:Ex; [|done]. unfold key_lt in Hc.
      by rewrite (key_ltb_trans _ _ _ Hc Ex) in E.
Qed.

Lemma sorted_app_inv l l' : StronglySorted key_lt (l ++ l') →
  StronglySorted key_lt l ∧ StronglySorted key_lt l' ∧ ∀ c c', c ∈ l → c' ∈ l' → key_lt c c'.
Proof.
  induction l as [|c l IH]; simpl; intros Hs.
  - split_and!; [constructor|done|by intros ? ? ?%not_elem_of_nil].
  - apply StronglySorted_inv in Hs as [Hs Hc]. destruct (IH Hs) as (? & ? & Hx).
    rewrite Forall_app in Hc. destruct Hc as [Hc1 Hc2]. split_and!; [by constructor|done|].
    intros x y [->|Hin]%elem_of_cons Hy; [|auto]. rewrite Forall_forall in Hc2. auto.
Qed.

Lemma sorted_app l l' : StronglySorted key_lt l → StronglySorted key_lt l' →
  (∀ c c', c ∈ l → c' ∈ l' → key_lt c c') → StronglySorted key_lt (l ++ l').
Proof.
  intros Hl Hl' Hx. induction Hl as [|c l Hl IH Hc]; [done|]. simpl. constructor.
  - apply IH. intros x y Hin. apply Hx. by right.
  - apply Forall_app. split; [done|]. apply Forall_forall. intros y Hy. apply Hx; [left|done].
Qed.

(** What follows the cells below [k]. *)
Lemma splits_head k l b f c :
  StronglySorted key_lt l → splits k l b (c :: f) → c_key c ≠ k →
  key_ltb k (c_key c) = true.
Proof.
  intros _ (_ & _ & Hf) Hne. destruct (key_ltb k (c_key c)) eqn:E; [done|].
  destruct Hne. apply key_ltb_total; [|done]. apply Hf. left.
Qed.

Lemma splits_tail k l b c f x :
  StronglySorted key_lt l → splits k l b (c :: f) → x ∈ f → c_key c = k ∨ key_ltb k (c_key c) = true →
  key_ltb k (c_key x) = true.
Proof.
  intros Hs (-> & _ & _) Hx Hc. apply sorted_app_inv in Hs as (_ & Hs & _).
  apply StronglySorted_inv in Hs as [_ Hs]. rewrite Forall_forall in Hs. specialize (Hs x Hx). unfold key_lt in Hs.
  destruct Hc as [<-|Hc]; [done|]. by eapply key_ltb_trans.
Qed.

Lemma key_ltb_ne k k' : key_ltb k k' = true → k ≠ k'.
Proof. intros Hk ->. by rewrite key_ltb_irrefl in Hk. Qed.

Lemma sorted_keys l : StronglySorted key_lt l → NoDup (kvs l).*1.
Proof.
  induction 1 as [|c l Hs IH Hc]; simpl; [constructor|]. constructor; [|done].
  intros (kv & Hk & (x & -> & Hx)%list_elem_of_fmap)%list_elem_of_fmap. simpl in Hk.
  rewrite Forall_forall in Hc. specialize (Hc x Hx). unfold key_lt in Hc. rewrite Hk in Hc.
  by rewrite key_ltb_irrefl in Hc.
Qed.

Context `{!Countable K}.

Lemma contents_app l l' : contents (l ++ l') = contents l ∪ contents l'.
Proof. unfold contents, kvs. by rewrite map_app, list_to_map_app. Qed.

Lemma contents_None l k : (∀ c, c ∈ l → c_key c ≠ k) → contents l !! k = None.
Proof.
  intros Hl. apply not_elem_of_list_to_map. intros ((k' & v) & -> & (c & [= -> _] & Hc)%list_elem_of_fmap)%list_elem_of_fmap.
  by eapply Hl.
Qed.

Lemma contents_cons c l : contents (c :: l) = <[c_key c := c_value c]> (contents l).
Proof. done. Qed.

(** The contents at the key [k], read off the split. *)
Lemma contents_lookup k l b f :
  StronglySorted key_lt l → splits k l b f →
  contents l !! k = match f with
                    | c :: _ => if decide (c_key c = k) then Some (c_value c) else None
                    | [] => None
                    end.
Proof.
  intros Hs Hsp. pose proof Hsp as (Hl & Hb & Hf). rewrite Hl, contents_app, lookup_union_r.
  2:{ apply contents_None. intros c Hc. by apply key_ltb_ne, Hb. }
  destruct f as [|c f]; [done|]. rewrite contents_cons. case_decide as D.
  - subst k. apply lookup_insert_eq.
  - rewrite lookup_insert_ne by done. apply contents_None. intros x Hx.
    apply not_eq_sym, key_ltb_ne. eapply splits_tail; [done..|]. right. by eapply splits_head.
Qed.

Lemma contents_insert k v a n l b f :
  StronglySorted key_lt l → splits k l b f → contents l !! k = None →
  contents (b ++ mkCell a n k v :: f) = <[k := v]> (contents l).
Proof.
  intros Hs (-> & Hb & Hf) Hn. rewrite contents_app, contents_cons, (contents_app b f). simpl.
  rewrite insert_union_r; [done|]. apply contents_None. intros c Hc. by apply key_ltb_ne, Hb.
Qed.

Lemma contents_delete l b c f :
  StronglySorted key_lt l → splits (c_key c) l b (c :: f) →
  contents (b ++ f) = delete (c_key c) (contents l).
Proof.
  intros Hs Hsp. pose proof Hsp as (-> & Hb & Hf).
  rewrite !contents_app, contents_cons, delete_union, delete_insert_eq.
  rewrite !delete_id; [done|..]; apply contents_None; intros x Hx.
  - apply not_eq_sym, key_ltb_ne. eapply splits_tail; [done..|]. by left.
  - by apply key_ltb_ne, Hb.
Qed.

Lemma sorted_insert k v a n l b f :
  StronglySorted key_lt l → splits k l b f → contents l !! k = None →
  StronglySorted key_lt (b ++ mkCell a n k v :: f).
Proof.
  intros Hs Hsp Hn. pose proof Hsp as (-> & Hb & Hf).
  assert (Hk : ∀ c, c ∈ f → key_ltb k (c_key c) = true).
  { rewrite (contents_lookup k _ b f) in Hn by done. destruct f as [|c f]; [by intros ? ?%not_elem_of_nil|].
    case_decide as D; [done|]. assert (key_ltb k (c_key c) = true) by by eapply splits_head.
    intros x [->|Hx]%elem_of_cons; [done|]. eapply splits_tail; [done..|by right]. }
  destruct (sorted_app_inv _ _ Hs) as (Hsb & Hsf & Hx). apply sorted_app; [done| |].
  - constructor; [done|]. apply Forall_forall. intros c Hc. by apply Hk.
  - intros c c' Hc [->|Hc']%elem_of_cons; [by apply Hb|auto].
Qed.

Lemma sorted_delete b c f : StronglySorted key_lt (b ++ c :: f) → StronglySorted key_lt (b ++ f).
Proof.
  intros Hs. destruct (sorted_app_inv _ _ Hs) as (Hsb & Hsf & Hx).
  apply StronglySorted_inv in Hsf as [Hsf _]. apply sorted_app; [done..|].
  intros x y Hx' Hy. apply Hx; [done|by right].
Qed.

End sorted.

(** ** Memory operations *)

Section ops.
Context {K V : Type} `{EqDecision K} `{KeyOrderLaws K} `{Inhabited K} `{Inhabited V}.
Implicit Types (s : SkipList K V) (l b f : list (cell K V)) (c : cell K V) (k : K) (h : gmap addr (Node K V)).

Lemma get_forward_Ok s a i p : fwd (heap s) a i = Some p → get_forward a i s = Ok (p, s).
Proof.
  unfold fwd, get_forward, deref. intros (n & Hn & Hp)%bind_Some.
  unfold mbind, M_bind, gets. simpl. rewrite Hn. simpl. by rewrite Hp.
Qed.

Lemma deref_Ok s c : node_of (heap s) c →
  ∃ fw, deref (c_addr c) s = Ok (mkNode fw (c_level c) (c_key c) (c_value c), s).
Proof.
  intros (fw & Hn & _). exists fw. unfold deref, mbind, M_bind, gets. simpl. by rewrite Hn.
Qed.

Lemma set_forward_Ok s a i p : is_Some (fwd (heap s) a i) →
  set_forward a i p s = Ok (tt, set_heap (set_fwd a i p (heap s)) s).
Proof.
  intros [q (n & Hn & Hq)%bind_Some]. unfold set_forward, deref, mbind, M_bind, gets. simpl. rewrite Hn.
  unfold mret, M_ret. rewrite (proj2 (Nat.ltb_lt _ _)) by by eapply lookup_lt_Some.
  unfold modify, set_fwd. do 3 f_equal. apply map_eq. intros x. destruct (decide (x = a)) as [->|].
  - by rewrite lookup_insert_eq, lookup_alter_eq, Hn.
  - by rewrite lookup_insert_ne, lookup_alter_ne.
Qed.

Lemma fwd_header h hd mx l i : shaped h hd mx l → (i ≤ mx)%nat → is_Some (fwd h hd i).
Proof. intros [(n & Hn & Hl) _ _ _] Hi. unfold fwd. rewrite Hn. simpl. apply lookup_lt_is_Some. lia. Qed.

Lemma fwd_cell h hd mx l c i : shaped h hd mx l → c ∈ l → (i ≤ c_level c)%nat → is_Some (fwd h (c_addr c) i).
Proof.
  intros [_ Hc _ _] Hin Hi. destruct (Hc c Hin) as (fw & Hn & Hl). unfold fwd. rewrite Hn. simpl.
  apply lookup_lt_is_Some. lia.
Qed.

(** ** Searching *)

Lemma lv_app i l l' : lv i (l ++ l') = lv i l ++ lv i l'.
Proof. apply filter_app. Qed.

Lemma elem_of_lv i l c : c ∈ lv i l ↔ (i ≤ c_level c)%nat ∧ c ∈ l.
Proof. unfold lv. by rewrite list_elem_of_filter. Qed.

Lemma lv_0 l : lv 0 l = l.
Proof. unfold lv. induction l as [|c l IH]; [done|]. rewrite filter_cons, decide_True by lia. by f_equal. Qed.

Lemma lv_none i l : (∀ c, c ∈ l → (c_level c < i)%nat) → lv i l = [].
Proof.
  intros Hl. unfold lv. induction l as [|c l IH]; [done|].
  rewrite filter_cons, decide_False by (specialize (Hl c (list_elem_of_here _ _)); lia).
  apply IH. intros x Hx. apply Hl. by right.
Qed.

(** The last node of level [i] before the cells [b] end. *)
Definition pos (hd : addr) b (i : nat) : addr := lastd hd (map c_addr (lv i b)).

Lemma advance_Ok fuel i k cur s Y F :
  seg (heap s) i cur (map c_addr (Y ++ F)) → (∀ c, c ∈ Y ++ F → node_of (heap s) c) →
  (∀ c, c ∈ Y → key_ltb (c_key c) k = true) → (∀ c, c ∈ F → key_ltb (c_key c) k = false) →
  (length Y < fuel)%nat →
  advance fuel i k cur s = Ok (lastd cur (map c_addr Y), s).
Proof.
  revert cur Y. induction fuel as [|fuel IH]; intros cur Y Hs Hn HY HF Hl; [lia|].
  cbn [advance]. unfold mbind at 1, M_bind at 1. rewrite (get_forward_Ok _ _ _ _ (seg_head _ _ _ _ Hs)).
  destruct Y as [|c Y]; simpl.
  - destruct F as [|c F]; [done|]. simpl.
    destruct (deref_Ok s c) as [fw E]; [apply Hn; left|]. unfold mbind, M_bind. rewrite E. simpl.
    by rewrite HF by left.
  - destruct (deref_Ok s c) as [fw E]; [apply Hn; left|]. unfold mbind, M_bind. rewrite E. simpl.
    rewrite HY by left. rewrite lastd_cons. destruct Hs as [_ Hs]. apply IH; try done.
    + intros x Hx. apply Hn. by right.
    + intros x Hx. apply HY. by right.
    + simpl in Hl. lia.
Qed.

Lemma pos_split hd b i : ∃ X Y, lv i b = X ++ Y ∧ lastd hd (map c_addr X) = pos hd b (S i).
Proof.
  induction b as [|c b (X & Y & E & Hl)] using rev_ind.
  - by exists [], [].
  - unfold pos in *. rewrite !lv_app, E. destruct (decide (S i ≤ c_level c)%nat) as [D|D].
    + exists ((X ++ Y) ++ lv i [c]), []. rewrite app_nil_r. split; [done|].
      unfold lv. rewrite !filter_cons, !decide_True by lia. simpl. by rewrite !map_app, !lastd_app.
    + exists X, (Y ++ lv i [c]). rewrite <- app_assoc. split; [done|].
      unfold lv at 2. rewrite filter_cons, decide_False by lia. simpl. by rewrite app_nil_r.
Qed.

(** One level of the search. *)
Lemma level_Ok s l k b f i :
  sl_inv s l → splits k l b f → (i ≤ skip_list_level s)%nat →
  advance (S (size (heap s))) i k (pos (header s) b (S i)) s = Ok (pos (header s) b i, s).
Proof.
  intros Hinv (-> & Hb & Hf) Hi. destruct (pos_split (header s) b i) as (X & Y & E & <-).
  unfold pos. rewrite E, map_app, lastd_app.
  pose proof (si_seg _ _ Hinv i ltac:(pose proof (si_max _ _ Hinv); lia)) as Hs.
  rewrite lv_app, E, <- app_assoc, map_app in Hs. apply seg_app in Hs.
  assert (HY : ∀ c, c ∈ Y → c ∈ b).
  { intros c Hc. apply (elem_of_lv i). rewrite E. set_solver. }
  apply (advance_Ok _ _ _ _ _ Y (lv i f)); [done| | | |].
  - intros c Hc. apply (sh_nodes _ _ _ _ (si_shaped _ _ Hinv)).
    apply elem_of_app in Hc as [?|[_ ?]%elem_of_lv]; apply elem_of_app; auto.
  - auto.
  - intros c [_ Hc]%elem_of_lv. auto.
  - rewrite (shaped_size _ _ _ _ (si_shaped _ _ Hinv)), length_app.
    assert (length (lv i b) ≤ length b)%nat as Hlen by apply length_filter.
    rewrite E, length_app in Hlen. lia.
Qed.

Lemma find_node_Ok s l k b f n :
  sl_inv s l → splits k l b f → (n ≤ S (skip_list_level s))%nat →
  find_node n k (pos (header s) b n) s = Ok (pos (header s) b 0, s).
Proof.
  intros Hinv Hsp. induction n as [|i IH]; intros Hn; [done|]. cbn [find_node].
  unfold mbind, M_bind, gets. cbn [id]. rewrite (level_Ok s l k b f) by (done || lia). apply IH. lia.
Qed.

Lemma find_update_Ok s l k b f n upd :
  sl_inv s l → splits k l b f → (n ≤ S (skip_list_level s))%nat → (n ≤ length upd)%nat →
  ∃ upd', find_update n k (pos (header s) b n) upd s = Ok ((pos (header s) b 0, upd'), s) ∧
    length upd' = length upd ∧
    ∀ i, upd' !! i = if decide (i < n)%nat then Some (Some (pos (header s) b i)) else upd !! i.
Proof.
  intros Hinv Hsp. revert upd. induction n as [|j IH]; intros upd Hn Hl.
  - exists upd. split_and!; [done..|]. intros i. by rewrite decide_False by lia.
  - cbn [find_update]. unfold mbind, M_bind, gets. cbn [id].
    rewrite (level_Ok s l k b f) by (done || lia).
    unfold vec_set. rewrite (proj2 (andb_true_iff _ _)) by (split; [apply Z.leb_le|apply Z.ltb_lt]; lia).
    unfold mret, M_ret. rewrite Nat2Z.id.
    destruct (IH (<[j := Some (pos (header s) b j)]> upd)) as (upd' & E & Hlen & Hu);
      [lia|rewrite length_insert; lia|].
    exists upd'. split; [done|]. rewrite length_insert in Hlen. split; [done|].
    intros i. rewrite Hu. destruct (decide (i = j)) as [->|].
    + rewrite decide_False, decide_True, list_lookup_insert_eq by lia. done.
    + rewrite list_lookup_insert_ne by done. repeat case_decide; try done; lia.
Qed.

Lemma pos_top s l k b f : sl_inv s l → splits k l b f → pos (header s) b (skip_list_level s + 1) = header s.
Proof.
  intros Hinv (-> & _ & _). unfold pos. rewrite lv_none; [done|].
  intros c Hc. pose proof (si_levels _ _ Hinv c). set_solver by lia.
Qed.

(** What follows the position found at level 0. *)
Lemma next_Ok s l k b f :
  sl_inv s l → splits k l b f →
  get_forward (pos (header s) b 0) 0 s = Ok (c_addr <$> head f, s).
Proof.
  intros Hinv (-> & _ & _). apply get_forward_Ok.
  pose proof (si_seg _ _ Hinv 0 ltac:(lia)) as Hs. rewrite lv_0, map_app in Hs. apply seg_app in Hs.
  unfold pos. rewrite lv_0. apply seg_head in Hs. rewrite Hs. by destruct f.
Qed.

(** The cell the search stops at. *)
Lemma here_Ok s l k b c f :
  sl_inv s l → splits k l b (c :: f) → ∃ fw, deref (c_addr c) s = Ok (mkNode fw (c_level c) (c_key c) (c_value c), s).
Proof.
  intros Hinv (-> & _ & _). apply deref_Ok, (sh_nodes _ _ _ _ (si_shaped _ _ Hinv)). set_solver.
Qed.

Lemma search_element_Ok `{!Countable K} s l k : sl_inv s l → search_element k s = Ok (contents l !! k, s).
Proof.
  intros Hinv. destruct (sorted_splits l k (si_sorted _ _ Hinv)) as (b & f & Hsp).
  rewrite (contents_lookup k l b f (si_sorted _ _ Hinv) Hsp).
  unfold search_element, mbind at 1, M_bind at 1, gets. cbn [id].
  pose proof (find_node_Ok s l k b f (skip_list_level s + 1) Hinv Hsp ltac:(lia)) as Hf.
  rewrite (pos_top _ _ _ _ _ Hinv Hsp) in Hf. unfold mbind, M_bind. rewrite Hf.
  rewrite (next_Ok _ _ _ _ _ Hinv Hsp). destruct f as [|c f]; [done|]. simpl.
  destruct (here_Ok _ _ _ _ _ _ Hinv Hsp) as [fw ->]. simpl. by case_decide.
Qed.

(** ** Inserting *)

Lemma lv_subset i l a : a ∈ map c_addr (lv i l) → a ∈ map c_addr l.
Proof. intros (c & -> & [_ Hc]%elem_of_lv)%list_elem_of_fmap. by apply list_elem_of_fmap_2. Qed.

Lemma lv_nodup i l hd : NoDup (hd :: map c_addr l) → NoDup (hd :: map c_addr (lv i l)).
Proof.
  rewrite !NoDup_cons. intros [Hn Hd]. split; [by intros ?%lv_subset|]. clear Hn.
  induction l as [|c l IH]; [done|]. unfold lv. rewrite filter_cons. apply NoDup_cons in Hd as [Hc Hd].
  case_decide; [|by apply IH]. simpl. apply NoDup_cons. split; [|by apply IH]. by intros ?%lv_subset.
Qed.

Lemma update_header_Ok s from n hd upd :
  (from + n ≤ length upd)%nat →
  ∃ upd', update_header from n hd upd s = Ok (upd', s) ∧ length upd' = length upd ∧
    ∀ i, upd' !! i = if decide (from ≤ i < from + n)%nat then Some (Some hd) else upd !! i.
Proof.
  revert from upd. induction n as [|n IH]; intros from upd Hl; cbn [update_header].
  - exists upd. split_and!; [done..|]. intros i. by rewrite decide_False by lia.
  - unfold mbind, M_bind, vec_set.
    rewrite (proj2 (andb_true_iff _ _)) by (split; [apply Z.leb_le|apply Z.ltb_lt]; lia).
    unfold mret, M_ret. rewrite Nat2Z.id.
    destruct (IH (S from) (<[from := Some hd]> upd)) as (upd' & E & Hlen & Hu);
      [rewrite length_insert; lia|].
    exists upd'. split; [done|]. rewrite length_insert in Hlen. split; [done|].
    intros i. rewrite Hu. destruct (decide (i = from)) as [->|].
    + rewrite decide_False, decide_True, list_lookup_insert_eq by lia. done.
    + rewrite list_lookup_insert_ne by done. repeat case_decide; try done; lia.
Qed.

Lemma update_at_Ok s upd i a : upd !! i = Some (Some a) → update_at upd i s = Ok (a, s).
Proof.
  intros Hu. unfold update_at, mbind, M_bind, vec_at. rewrite (proj2 (Z.leb_le _ _)) by lia.
  by rewrite Nat2Z.id, Hu.
Qed.

(** The heap after the first [j] levels were linked. *)
Record linked hd mx b nc f (j : nat) h : Prop := {
  lk_shaped : shaped h hd mx (b ++ nc :: f);
  lk_done : ∀ i, (i < j)%nat → (i ≤ mx)%nat → seg h i hd (map c_addr (lv i (b ++ nc :: f)));
  lk_todo : ∀ i, (j ≤ i)%nat → (i ≤ mx)%nat → seg h i hd (map c_addr (lv i (b ++ f)))
}.

Lemma pos_elem hd b i : pos hd b i = hd ∨ ∃ c, c ∈ b ∧ (i ≤ c_level c)%nat ∧ pos hd b i = c_addr c.
Proof.
  unfold pos. pose proof (lastd_elem hd (map c_addr (lv i b))) as Hp.
  apply elem_of_cons in Hp as [->|(c & -> & [??]%elem_of_lv)%list_elem_of_fmap]; eauto.
Qed.

Lemma fwd_pos h hd mx b f i : shaped h hd mx (b ++ f) → (i ≤ mx)%nat → is_Some (fwd h (pos hd b i) i).
Proof.
  intros Hs Hi. destruct (pos_elem hd b i) as [->|(c & Hc & Hl & ->)]; [by eapply fwd_header|].
  eapply fwd_cell; [done| |done]. set_solver.
Qed.

Lemma nodup_mid hd b nc f :
  NoDup (hd :: map c_addr (b ++ nc :: f)) → NoDup (hd :: map c_addr (b ++ f)) ∧ c_addr nc ∉ hd :: map c_addr (b ++ f).
Proof.
  rewrite !map_app. simpl. intros Hnd.
  assert (Hp : hd :: map c_addr b ++ c_addr nc :: map c_addr f ≡ₚ
               c_addr nc :: hd :: map c_addr b ++ map c_addr f).
  { rewrite <- Permutation_middle. apply perm_swap. }
  rewrite Hp in Hnd. apply NoDup_cons in Hnd as [Hn Hd]. done.
Qed.

Lemma link_Ok mx b nc f upd i s :
  linked (header s) mx b nc f i (heap s) → (i ≤ c_level nc)%nat → (i ≤ mx)%nat →
  upd !! i = Some (Some (pos (header s) b i)) →
  ∃ h', link (c_addr nc) upd i s = Ok (tt, set_heap h' s) ∧ linked (header s) mx b nc f (i + 1) h'.
Proof.
  intros [Hsh Hdone Htodo] Hl Hi Hu. set (hd := header s) in *. set (h := heap s) in *. set (u := pos hd b i).
  set (X := map c_addr (lv i b)). set (Y := map c_addr (lv i f)).
  destruct (nodup_mid _ _ _ _ (sh_nodup _ _ _ _ Hsh)) as [Hnd Hnot].
  pose proof (Htodo i (Nat.le_refl _) Hi) as Hseg. rewrite lv_app, map_app in Hseg. fold X Y in Hseg.
  assert (HXY : NoDup (hd :: X ++ Y)) by (unfold X, Y; rewrite <- map_app, <- lv_app; by apply lv_nodup).
  assert (Hn : c_addr nc ∉ hd :: X ++ Y).
  { unfold X, Y. rewrite <- map_app, <- lv_app. intros [?|?%lv_subset]%elem_of_cons; apply Hnot, elem_of_cons; auto. }
  pose proof (seg_head _ _ _ _ (seg_app _ _ _ _ _ Hseg)) as Hf. change (lastd hd X) with u in Hf.
  assert (Hun : u ≠ c_addr nc) by (intros E; apply Hn; rewrite <- E; pose proof (lastd_elem hd X); set_solver).
  assert (Hnew : is_Some (fwd h (c_addr nc) i)).
  { eapply fwd_cell; [exact Hsh| |done]. set_solver. }
  set (h1 := set_fwd (c_addr nc) i (head Y) h). set (h2 := set_fwd u i (Some (c_addr nc)) h1).
  exists h2. split.
  - unfold link, mbind, M_bind. rewrite (update_at_Ok _ _ _ _ Hu). fold u.
    rewrite (get_forward_Ok s u i _ Hf), (set_forward_Ok s (c_addr nc) i _ Hnew). fold h h1.
    rewrite (set_forward_Ok (set_heap h1 s)); [done|]. simpl. unfold h1.
    rewrite fwd_set_ne by congruence. rewrite Hf. eauto.
  - split; [by apply shaped_set_fwd, shaped_set_fwd| |].
    + intros j Hj Hjm. destruct (decide (j = i)) as [->|].
      * rewrite lv_app, map_app. unfold lv at 2. rewrite filter_cons, decide_True by done. simpl. fold (lv i f) X Y.
        eapply (seg_insert h); try done.
        -- change (lastd hd X) with u. rewrite Hf. unfold h2, h1. rewrite fwd_set_ne by congruence. by rewrite fwd_set_eq.
        -- change (lastd hd X) with u. unfold h2. apply fwd_set_eq. unfold h1. rewrite fwd_set_ne by congruence. rewrite Hf. eauto.
        -- change (lastd hd X) with u. intros x Hx Hxu. unfold h2, h1. rewrite !fwd_set_ne; [done| |congruence].
           intros [= ->]. done.
      * eapply seg_ext; [|apply Hdone; [lia|done]]. intros x _. unfold h2, h1. by rewrite !fwd_set_ne by congruence.
    + intros j Hj Hjm. eapply seg_ext; [|apply Htodo; [lia|done]].
      intros x _. unfold h2, h1. rewrite !fwd_set_ne; [done|intros [= _ ->]; lia..].
Qed.

(** The array [update] once the level of the new node is known. *)
Lemma raise_level_Ok s l k b f upd rl :
  sl_inv s l → splits k l b f → length upd = (max_level s + 1)%nat → (rl ≤ max_level s)%nat →
  (∀ i, (i ≤ skip_list_level s)%nat → upd !! i = Some (Some (pos (header s) b i))) →
  ∃ upd', (if (skip_list_level s <? rl)%nat then
             upd ← update_header (skip_list_level s + 1) (rl - skip_list_level s) (header s) upd;
             modify (set_level rl) ;; mret upd
           else mret upd) s = Ok (upd', set_level (Nat.max (skip_list_level s) rl) s) ∧
    ∀ i, (i ≤ rl)%nat → upd' !! i = Some (Some (pos (header s) b i)).
Proof.
  intros Hinv Hsp Hlen Hrl Hlow. pose proof (si_max _ _ Hinv).
  destruct (Nat.ltb_spec (skip_list_level s) rl) as [Hlt|Hge].
  - destruct (update_header_Ok s (skip_list_level s + 1) (rl - skip_list_level s) (header s) upd)
      as (upd' & E & Hl & Hu'); [lia|].
    exists upd'. split.
    + unfold mbind, M_bind. rewrite E. unfold modify, mret, M_ret. by rewrite Nat.max_r by lia.
    + intros i Hi. rewrite Hu'. case_decide as D; [|apply Hlow; lia].
      do 2 f_equal. symmetry. destruct Hsp as (-> & _ & _). unfold pos. rewrite lv_none; [done|].
      intros c Hc. pose proof (si_levels _ _ Hinv c). set_solver by lia.
  - exists upd. split; [|intros; apply Hlow; lia]. rewrite Nat.max_l by lia. by destruct s.
Qed.

Lemma shaped_create h hd mx b f nc :
  shaped h hd mx (b ++ f) → c_addr nc ∉ dom h →
  shaped (<[c_addr nc := mkNode (replicate (c_level nc + 1) None) (c_level nc) (c_key nc) (c_value nc)]> h) hd mx (b ++ nc :: f) ∧
  ∀ x i, x ∈ hd :: map c_addr (b ++ f) →
    fwd (<[c_addr nc := mkNode (replicate (c_level nc + 1) None) (c_level nc) (c_key nc) (c_value nc)]> h) x i = fwd h x i.
Proof.
  intros [(n & Hn & Hl) Hc Hnd Hd] Hnew. rewrite Hd in Hnew.
  assert (Hne : ∀ x, x ∈ hd :: map c_addr (b ++ f) → x ≠ c_addr nc) by set_solver.
  split; [split|].
  - exists n. rewrite lookup_insert_ne; [done|]. symmetry. apply Hne. left.
  - intros c Hin. apply elem_of_app in Hin. rewrite elem_of_cons in Hin.
    assert (c = nc ∨ c ∈ b ++ f) as [->|Hin'] by set_solver.
    + eexists. rewrite lookup_insert_eq. split; [done|]. rewrite length_replicate. lia.
    + unfold node_of. rewrite lookup_insert_ne; [by apply Hc|]. symmetry. apply Hne. right. by apply list_elem_of_fmap_2.
  - rewrite !map_app in *. simpl. rewrite <- Permutation_middle, perm_swap. apply NoDup_cons. split; [|done].
    intros Hin. by eapply Hne.
  - rewrite dom_insert_L, Hd. rewrite !map_app. simpl. set_solver.
  - intros x i Hx. unfold fwd. by rewrite lookup_insert_ne by (symmetry; by apply Hne).
Qed.

(** Linking the new node at all its levels. *)
Lemma link_all_Ok s b f nc upd :
  shaped (heap s) (header s) (max_level s) (b ++ nc :: f) →
  (∀ i, (i ≤ max_level s)%nat → seg (heap s) i (header s) (map c_addr (lv i (b ++ f)))) →
  (c_level nc ≤ max_level s)%nat →
  (∀ i, (i ≤ c_level nc)%nat → upd !! i = Some (Some (pos (header s) b i))) →
  ∃ h', for_each (seq 0 (c_level nc + 1)) (link (c_addr nc) upd) s = Ok (tt, set_heap h' s) ∧
    shaped h' (header s) (max_level s) (b ++ nc :: f) ∧
    ∀ i, (i ≤ max_level s)%nat → seg h' i (header s) (map c_addr (lv i (b ++ nc :: f))).
Proof.
  intros Hsh Hseg Hl Hu.
  destruct (for_each_total (λ i s1, ∃ h1, s1 = set_heap h1 s ∧ linked (header s) (max_level s) b nc f i h1)
    (link (c_addr nc) upd) 0 (c_level nc + 1) s) as (s' & E & h' & -> & [Hsh' Hdone Htodo]).
  - intros i s1 Hi (h1 & -> & Hlk).
    destruct (link_Ok (max_level s) b nc f upd i (set_heap h1 s)) as (h2 & E & Hlk2); [done|lia|lia|apply Hu; lia|].
    rewrite E. eexists. split; [done|]. exists h2. by split.
  - exists (heap s). split; [by destruct s|]. split; [done|intros; lia|intros i _; apply Hseg].
  - exists h'. split_and!; [done..|]. intros i Hi. destruct (decide (i < 0 + (c_level nc + 1))%nat) as [D|D]; [by apply Hdone|].
    pose proof (Htodo i ltac:(lia) Hi) as Ht. rewrite lv_app, map_app in Ht |- *.
    unfold lv at 2. rewrite filter_cons, decide_False by lia. exact Ht.
Qed.

Lemma fresh_addr (h : gmap addr (Node K V)) : fresh (dom h) ∉ dom h.
Proof. apply is_fresh. Qed.

(** [insert_element] on a key that is not there. *)
Lemma insert_new s l b f k v odd :
  sl_inv s l → splits k l b f → (∀ c f', f = c :: f' → c_key c ≠ k) →
  ∃ s' a n, insert_element k v odd s = Ok (0, s') ∧ header s' = header s ∧ max_level s' = max_level s ∧
    (StronglySorted key_lt (b ++ mkCell a n k v :: f) → sl_inv s' (b ++ mkCell a n k v :: f)).
Proof.
  intros Hinv Hsp Hf. pose proof Hsp as (Hl & Hb & _). pose proof (si_max _ _ Hinv) as Hmax.
  set (rl := if (1 + odd <? max_level s)%nat then (1 + odd)%nat else max_level s).
  assert (Hrl : (rl ≤ max_level s)%nat) by (unfold rl; destruct (Nat.ltb_spec (1 + odd) (max_level s)); lia).
  destruct (find_update_Ok s l k b f (skip_list_level s + 1) (replicate (max_level s + 1) None))
    as (upd & Efind & Hlen & Hu); [done|done|lia|rewrite length_replicate; lia|].
  rewrite (pos_top _ _ _ _ _ Hinv Hsp) in Efind. rewrite length_replicate in Hlen.
  destruct (raise_level_Ok s l k b f upd rl Hinv Hsp Hlen Hrl) as (upd' & Eraise & Hu').
  { intros i Hi. by rewrite Hu, decide_True by lia. }
  set (s1 := set_level (Nat.max (skip_list_level s) rl) s). set (a := fresh (dom (heap s))). set (nc := mkCell a rl k v).
  set (s2 := set_heap (<[a := mkNode (replicate (rl + 1) None) rl k v]> (heap s)) s1).
  assert (Hsh0 : shaped (heap s) (header s) (max_level s) (b ++ f)) by (rewrite <- Hl; apply Hinv).
  destruct (shaped_create (heap s) (header s) (max_level s) b f nc Hsh0 (fresh_addr _)) as [Hsh Hext].
  destruct (link_all_Ok s2 b f nc upd') as (h' & Elink & Hsh' & Hseg'); [exact Hsh| |exact Hrl|exact Hu'|].
  { intros i Hi. simpl. pose proof (si_seg _ _ Hinv i Hi) as Hs. rewrite Hl in Hs. eapply seg_ext; [|exact Hs].
    intros x Hx. apply Hext. apply elem_of_cons in Hx as [->|Hx]; [left|right]. by eapply lv_subset. }
  exists (set_count (element_count s + 1) (set_heap h' s2)), a, rl. split_and!; [|done..|].
  - unfold insert_element, mbind, M_bind, gets. cbn [id]. rewrite Efind, (next_Ok _ _ _ _ _ Hinv Hsp).
    assert (Hh : (match c_addr <$> head f with
             | Some b0 => n ← deref b0; mret (bool_decide (node_key n = k)) | None => mret false end) s = Ok (false, s)).
    { destruct f as [|c f]; [done|]. simpl. destruct (here_Ok _ _ _ _ _ _ Hinv Hsp) as [fw E].
      unfold mbind, M_bind. rewrite E. simpl. by rewrite bool_decide_false by by eapply Hf. }
    unfold mbind, M_bind in Hh. rewrite Hh. unfold get_random_level, gets, mbind, M_bind, mret at 1, M_ret at 1. cbn [id].
    fold rl. unfold mbind, M_bind in Eraise. rewrite Eraise. fold s1.
    assert (Hcreate : create_node k v rl s1 = Ok (a, s2)) by done. rewrite Hcreate.
    change (c_addr nc) with a in Elink. change (c_level nc) with rl in Elink.
    rewrite Elink. done.
  - intros Hsorted. split; simpl; try done.
    + intros c Hc. assert (c = nc ∨ c ∈ l) as [->|Hc'] by (subst l; set_solver); [simpl; lia|].
      pose proof (si_levels _ _ Hinv c Hc'). lia.
    + lia.
    + rewrite (si_count _ _ Hinv), Hl, !length_app. simpl. lia.
Qed.

Lemma insert_element_Ok `{!Countable K} s l k v odd :
  sl_inv s l → ∃ r s' l', insert_element k v odd s = Ok (r, s') ∧ sl_inv s' l' ∧ max_level s' = max_level s ∧
    match contents l !! k with
    | Some _ => r = 1 ∧ s' = s ∧ l' = l
    | None => r = 0 ∧ contents l' = <[k := v]> (contents l)
    end.
Proof.
  intros Hinv. pose proof (si_sorted _ _ Hinv) as Hsort. destruct (sorted_splits l k Hsort) as (b & f & Hsp).
  rewrite (contents_lookup k l b f Hsort Hsp).
  assert (Hnew : (∀ c f', f = c :: f' → c_key c ≠ k) → contents l !! k = None →
    ∃ r s' l', insert_element k v odd s = Ok (r, s') ∧ sl_inv s' l' ∧ max_level s' = max_level s ∧
      r = 0 ∧ contents l' = <[k := v]> (contents l)).
  { intros Hf Hn. destruct (insert_new s l b f k v odd Hinv Hsp Hf) as (s' & a & n & E & _ & Hm & Hinv').
    exists 0, s', (b ++ mkCell a n k v :: f). split_and!; [done| |done|done|by apply contents_insert].
    apply Hinv'. by apply (sorted_insert k v a n l b f). }
  pose proof (contents_lookup k l b f Hsort Hsp) as Hlook.
  destruct f as [|c f]; [apply Hnew; [by intros|done]|]. case_decide as D; [|apply Hnew; [by intros ? ? [= <- <-]|done]].
  exists 1, s, l. split_and!; try done.
  destruct (find_update_Ok s l k b (c :: f) (skip_list_level s + 1) (replicate (max_level s + 1) None))
    as (upd & Efind & _ & _); [done|done|lia|rewrite length_replicate; pose proof (si_max _ _ Hinv); lia|].
  rewrite (pos_top _ _ _ _ _ Hinv Hsp) in Efind.
  unfold insert_element, mbind, M_bind, gets. cbn [id]. rewrite Efind, (next_Ok _ _ _ _ _ Hinv Hsp). simpl.
  destruct (here_Ok _ _ _ _ _ _ Hinv Hsp) as [fw E]. rewrite E. simpl. by rewrite bool_decide_true.
Qed.

(** ** Deleting *)

(** The heap after the cell [c] was unlinked from the levels below [j]. *)
Record unlinked hd mx b c f (j : nat) h : Prop := {
  ul_shaped : shaped h hd mx (b ++ c :: f);
  ul_done : ∀ i, (i < j)%nat → (i ≤ mx)%nat → seg h i hd (map c_addr (lv i (b ++ f)));
  ul_todo : ∀ i, (j ≤ i)%nat → (i ≤ mx)%nat → seg h i hd (map c_addr (lv i (b ++ c :: f)))
}.

Lemma lv_cons i c l : lv i (c :: l) = if decide (i ≤ c_level c)%nat then c :: lv i l else lv i l.
Proof. unfold lv. rewrite filter_cons. by case_decide. Qed.

(** One level at which [c] is linked. *)
Lemma unlink_step mx b c f upd i n s :
  unlinked (header s) mx b c f i (heap s) → (i ≤ c_level c)%nat → (i ≤ mx)%nat →
  upd !! i = Some (Some (pos (header s) b i)) →
  ∃ h', unlink i (S n) (c_addr c) upd s = unlink (S i) n (c_addr c) upd (set_heap h' s) ∧
    unlinked (header s) mx b c f (S i) h'.
Proof.
  intros [Hsh Hdone Htodo] Hl Hi Hu. set (hd := header s) in *. set (h := heap s) in *. set (u := pos hd b i).
  set (X := map c_addr (lv i b)). set (Y := map c_addr (lv i f)).
  pose proof (Htodo i (Nat.le_refl _) Hi) as Hseg.
  rewrite lv_app, map_app, lv_cons, decide_True in Hseg by done. simpl in Hseg. fold X Y in Hseg.
  assert (HXY : NoDup (hd :: X ++ c_addr c :: Y)).
  { pose proof (lv_nodup i _ _ (sh_nodup _ _ _ _ Hsh)) as Hn.
    rewrite lv_app, map_app, lv_cons, decide_True in Hn by done. done. }
  pose proof (seg_app _ _ _ _ _ Hseg) as Hsc. change (lastd hd X) with u in Hsc. destruct Hsc as [Hf Hsc].
  pose proof (seg_head _ _ _ _ Hsc) as Hq.
  set (h' := set_fwd u i (head Y) h). exists h'. split.
  - cbn [unlink]. unfold mbind at 1, M_bind at 1. rewrite (update_at_Ok _ _ _ _ Hu). fold u.
    unfold mbind at 1, M_bind at 1. rewrite (get_forward_Ok s u i _ Hf), decide_True by done.
    unfold mbind, M_bind. rewrite (get_forward_Ok s (c_addr c) i _ Hq), (set_forward_Ok s u i); [done|].
    fold h. rewrite Hf. eauto.
  - split; [by apply shaped_set_fwd| |].
    + intros j Hj Hjm. destruct (decide (j = i)) as [->|].
      * rewrite lv_app, map_app. eapply (seg_remove h); try done.
        -- change (lastd hd X) with u. unfold h'. rewrite Hq. apply fwd_set_eq. by exists (Some (c_addr c)).
        -- change (lastd hd X) with u. intros x _ Hxu. unfold h'. apply fwd_set_ne. by intros [= ->].
      * eapply seg_ext; [|apply Hdone; [lia|done]]. intros x _. apply fwd_set_ne. congruence.
    + intros j Hj Hjm. eapply seg_ext; [|apply Htodo; [lia|done]].
      intros x _. apply fwd_set_ne. intros [= _ ->]. lia.
Qed.

(** The first level at which [c] is not linked. *)
Lemma unlink_stop mx b c f upd i n s :
  unlinked (header s) mx b c f i (heap s) → (c_level c < i)%nat → (i ≤ mx)%nat →
  upd !! i = Some (Some (pos (header s) b i)) →
  unlink i (S n) (c_addr c) upd s = Ok (tt, s).
Proof.
  intros [Hsh Hdone Htodo] Hl Hi Hu.
  pose proof (Htodo i (Nat.le_refl _) Hi) as Hseg. rewrite lv_app, map_app, lv_cons, decide_False in Hseg by lia.
  apply seg_app, seg_head in Hseg.
  cbn [unlink]. unfold mbind at 1, M_bind at 1. rewrite (update_at_Ok _ _ _ _ Hu).
  unfold mbind at 1, M_bind at 1. unfold pos. rewrite (get_forward_Ok s _ i _ Hseg), decide_False; [done|].
  intros Hc. apply head_Some_elem_of, lv_subset in Hc.
  pose proof (sh_nodup _ _ _ _ Hsh) as Hnd. rewrite map_app in Hnd. simpl in Hnd.
  apply NoDup_cons in Hnd as [_ Hnd]. apply NoDup_app in Hnd as (_ & _ & Hnd).
  by apply NoDup_cons in Hnd as [? _].
Qed.

Lemma unlink_Ok mx b c f upd n i s :
  unlinked (header s) mx b c f i (heap s) → (c_level c < i + n)%nat → (i ≤ c_level c + 1)%nat → (i + n ≤ S mx)%nat →
  (∀ j, (j < i + n)%nat → upd !! j = Some (Some (pos (header s) b j))) →
  ∃ h', unlink i n (c_addr c) upd s = Ok (tt, set_heap h' s) ∧
    unlinked (header s) mx b c f (c_level c + 1) h'.
Proof.
  revert i s. induction n as [|n IH]; intros i s Hul Hc Hi Hm Hu.
  - exists (heap s). split; [by destruct s|]. by replace (c_level c + 1)%nat with i by lia.
  - destruct (decide (i ≤ c_level c)%nat) as [D|D].
    + destruct (unlink_step mx b c f upd i n s) as (h' & -> & Hul'); [done|done|lia|apply Hu; lia|].
      destruct (IH (S i) (set_heap h' s)) as (h2 & -> & Hul2); [done|lia|lia|lia|intros; apply Hu; lia|].
      exists h2. done.
    + rewrite (unlink_stop mx b c f) by (done || lia || (apply Hu; lia)).
      exists (heap s). split; [by destruct s|]. by replace (c_level c + 1)%nat with i by lia.
Qed.

Lemma set_level_id s : set_level (skip_list_level s) s = s.
Proof. by destruct s. Qed.

Lemma lower_level_Ok n0 s cs :
  (∀ i, (i ≤ max_level s)%nat → seg (heap s) i (header s) (map c_addr (lv i cs))) →
  skip_list_level s = n0 → (n0 ≤ max_level s)%nat → (∀ c, c ∈ cs → (c_level c ≤ n0)%nat) →
  ∃ n1, lower_level n0 s = Ok (tt, set_level n1 s) ∧ (n1 ≤ n0)%nat ∧ ∀ c, c ∈ cs → (c_level c ≤ n1)%nat.
Proof.
  revert s. induction n0 as [|n0 IH]; intros s Hseg Hl Hm Hcs.
  - exists 0%nat. rewrite <- Hl at 2. rewrite set_level_id. split_and!; [done|lia|done].
  - cbn [lower_level]. unfold mbind, M_bind, gets. cbn [id].
    pose proof (seg_head _ _ _ _ (Hseg (S n0) Hm)) as Hh. rewrite (get_forward_Ok _ _ _ _ Hh).
    destruct (lv (S n0) cs) as [|c cs'] eqn:E; simpl.
    + unfold modify. destruct (IH (set_level n0 s)) as (n1 & E1 & Hle & Hc); [done|done|simpl; lia| |].
      * intros c Hc. specialize (Hcs c Hc). destruct (decide (c_level c = S n0)); [|lia].
        assert (c ∈ lv (S n0) cs) as Hin by (apply elem_of_lv; split; [lia|done]).
        rewrite E in Hin. by apply not_elem_of_nil in Hin.
      * exists n1. rewrite E1. split_and!; [done|lia|done].
    + exists (S n0). rewrite <- Hl at 1. rewrite set_level_id. split_and!; [done|lia|done].
Qed.

Lemma shaped_free h hd mx b c f : shaped h hd mx (b ++ c :: f) → shaped (delete (c_addr c) h) hd mx (b ++ f).
Proof.
  intros [(n & Hn & Hl) Hc Hnd Hd]. destruct (nodup_mid _ _ _ _ Hnd) as [Hnd' Hnot].
  assert (Hne : ∀ x, x ∈ hd :: map c_addr (b ++ f) → c_addr c ≠ x) by (intros x Hx <-; done).
  split; [| |done|].
  - exists n. rewrite lookup_delete_ne; [done|]. apply Hne. left.
  - intros x Hx. unfold node_of. rewrite lookup_delete_ne; [apply Hc; set_solver|].
    apply Hne. right. by apply list_elem_of_fmap_2.
  - rewrite dom_delete_L, Hd. rewrite !map_app in *. simpl. clear -Hnot. set_solver.
Qed.

Lemma delete_absent s l b f k :
  sl_inv s l → splits k l b f → (∀ c f', f = c :: f' → c_key c ≠ k) → delete_element k s = Ok (tt, s).
Proof.
  intros Hinv Hsp Hf.
  destruct (find_update_Ok s l k b f (skip_list_level s + 1) (replicate (max_level s + 1) None))
    as (upd & Efind & _ & _); [done|done|lia|rewrite length_replicate; pose proof (si_max _ _ Hinv); lia|].
  rewrite (pos_top _ _ _ _ _ Hinv Hsp) in Efind.
  unfold delete_element, mbind, M_bind, gets. cbn [id]. rewrite Efind, (next_Ok _ _ _ _ _ Hinv Hsp).
  destruct f as [|c f]; [done|]. simpl. destruct (here_Ok _ _ _ _ _ _ Hinv Hsp) as [fw E]. rewrite E. simpl.
  by rewrite decide_False by by eapply Hf.
Qed.

Lemma delete_present s l b c f :
  sl_inv s l → splits (c_key c) l b (c :: f) →
  ∃ s', delete_element (c_key c) s = Ok (tt, s') ∧ header s' = header s ∧ max_level s' = max_level s ∧
    sl_inv s' (b ++ f).
Proof.
  intros Hinv Hsp. pose proof Hsp as (Hl & Hb & _). pose proof (si_max _ _ Hinv) as Hmax.
  destruct (find_update_Ok s l (c_key c) b (c :: f) (skip_list_level s + 1) (replicate (max_level s + 1) None))
    as (upd & Efind & _ & Hu); [done|done|lia|rewrite length_replicate; lia|].
  rewrite (pos_top _ _ _ _ _ Hinv Hsp) in Efind.
  assert (Hcl : (c_level c ≤ skip_list_level s)%nat) by (apply (si_levels _ _ Hinv); subst l; set_solver).
  destruct (unlink_Ok (max_level s) b c f upd (skip_list_level s + 1) 0 s) as (h' & Eun & [Hsh Hdone Htodo]);
    [|lia|lia|lia|intros j Hj; by rewrite Hu, decide_True by lia|].
  { split; [rewrite <- Hl; apply Hinv|intros; lia|]. intros i _ Hi. rewrite <- Hl. by apply Hinv. }
  set (s1 := set_heap h' s).
  assert (Hseg : ∀ i, (i ≤ max_level s)%nat → seg h' i (header s) (map c_addr (lv i (b ++ f)))).
  { intros i Hi. destruct (decide (i < c_level c + 1)%nat); [by apply Hdone|].
    pose proof (Htodo i ltac:(lia) Hi) as Ht. by rewrite lv_app, lv_cons, decide_False, <- lv_app in Ht by lia. }
  destruct (lower_level_Ok (skip_list_level s) s1 (b ++ f)) as (l1 & Elow & Hl1 & Hlev); [done|done|done| |].
  { intros x Hx. apply (si_levels _ _ Hinv). subst l. set_solver. }
  destruct (sh_nodes _ _ _ _ Hsh c) as (fw & Hc & _); [set_solver|].
  set (s2 := set_heap (delete (c_addr c) h') (set_level l1 s1)).
  exists (set_count (element_count s - 1) s2). split_and!; [|done..|].
  - unfold delete_element, mbind, M_bind, gets. cbn [id]. rewrite Efind, (next_Ok _ _ _ _ _ Hinv Hsp). simpl.
    destruct (here_Ok _ _ _ _ _ _ Hinv Hsp) as [fw' E]. rewrite E. simpl. rewrite decide_True by done.
    rewrite Eun. fold s1. rewrite Elow. unfold free, deref, mbind, M_bind, gets. simpl. rewrite Hc. done.
  - split; simpl; [by apply shaped_free|done|lia| | |].
    + intros i Hi. eapply seg_ext; [|by apply Hseg]. intros x Hx. unfold fwd. rewrite lookup_delete_ne; [done|].
      destruct (nodup_mid _ _ _ _ (sh_nodup _ _ _ _ Hsh)) as [_ Hnot]. intros <-. apply Hnot.
      apply elem_of_cons in Hx as [->|Hx]; [left|right; by eapply lv_subset].
    + eapply sorted_delete. rewrite <- Hl. apply Hinv.
    + rewrite (si_count _ _ Hinv), Hl, !length_app. simpl. lia.
Qed.

Lemma delete_element_Ok `{!Countable K} s l k :
  sl_inv s l → ∃ s' l', delete_element k s = Ok (tt, s') ∧ sl_inv s' l' ∧ max_level s' = max_level s ∧
    contents l' = delete k (contents l).
Proof.
  intros Hinv. pose proof (si_sorted _ _ Hinv) as Hsort. destruct (sorted_splits l k Hsort) as (b & f & Hsp).
  pose proof (contents_lookup k l b f Hsort Hsp) as Hlook.
  assert (Habs : (∀ c f', f = c :: f' → c_key c ≠ k) → contents l !! k = None →
    ∃ s' l', delete_element k s = Ok (tt, s') ∧ sl_inv s' l' ∧ max_level s' = max_level s ∧ contents l' = delete k (contents l)).
  { intros Hf Hn. exists s, l. split_and!; [by eapply delete_absent|done|done|by rewrite delete_id]. }
  destruct f as [|c f]; [by apply Habs|]. case_decide as D; [|apply Habs; [by intros ? ? [= <- <-]|done]].
  subst k. destruct (delete_present s l b c f Hinv Hsp) as (s' & E & _ & Hm & Hinv').
  exists s', (b ++ f). split_and!; [done..|by eapply contents_delete].
Qed.

End ops.
