(* ===== verification/SkipListProps.v ===== *)
(** * SkipListProps: the properties of the skip list

    Each operation of the pointer structure refines the operation of the finite
    map [contents l] of its cells; then the dump and the load, and the
    destructor.  The keys and values of the store are strings. *)

From Stdlib Require Ascii.
From Stdlib Require Import Sorting.Sorted.
From S2P Require Import Prelude.
From S2P Require Import Fields.
From S2P Require Import SkipList.
From S2P Require Import SkipListFacts.

(** ** Definitions *)

(** [operator<] of [std::string]: the lexicographic order of the bytes. *)
Fixpoint string_ltb (a b : string) : bool :=
  match a, b with
  | EmptyString, String _ _ => true
  | String x a', String y b' =>
      let nx := Ascii.N_of_ascii x in
      let ny := Ascii.N_of_ascii y in
      (nx <? ny)%N || ((nx =? ny)%N && string_ltb a' b')
  | _, EmptyString => false
  end.

#[export] Instance string_order : KeyOrder string := { key_ltb := string_ltb }.

(** What [load_file] puts under the keys [ks]: each key itself. *)
Definition self_map {K} `{Countable K} (ks : list K) : gmap K K := list_to_map (map (λ k, (k, k)) ks).

(** A list built by inserting [(k, v, odd)] one after the other. *)
Fixpoint insert_all (l : list (string * string * nat)) : M (SkipList string string) unit :=
  match l with
  | [] => mret tt
  | (k, v, n) :: l' => insert_set_element k v n ;; insert_all l'
  end.

(** ** The order of strings *)

Lemma N_of_ascii_inj x y : Ascii.N_of_ascii x = Ascii.N_of_ascii y → x = y.
Proof. intros E. rewrite <- (Ascii.ascii_N_embedding x), E. apply Ascii.ascii_N_embedding. Qed.

#[export] Instance string_order_laws : KeyOrderLaws string.
Proof.
  split; simpl.
  - induction a as [|x a IH]; [done|]. simpl. by rewrite N.ltb_irrefl, IH, andb_false_r.
  - induction a as [|x a IH]; intros [|y b] [|z c]; simpl; try done.
    rewrite !orb_true_iff, !andb_true_iff, !N.ltb_lt, !N.eqb_eq.
    intros [?|[-> ?]] [?|[E ?]]; [left; lia|left; lia|left; lia|right; eauto].
  - induction a as [|x a IH]; intros [|y b]; simpl; try done.
    rewrite !orb_false_iff, !andb_false_iff, !N.ltb_ge, !N.eqb_neq.
    intros [? H1] [? H2]. assert (Ascii.N_of_ascii x = Ascii.N_of_ascii y) as E by lia.
    apply N_of_ascii_inj in E as ->. f_equal. apply IH; naive_solver.
Qed.

(** ** Construction, dump, destruction *)

Section more.
Context {K V : Type} `{Countable K} `{KeyOrderLaws K} `{Inhabited K} `{Inhabited V}.
Implicit Types (s : SkipList K V) (l b f : list (cell K V)) (c : cell K V) (k : K) (h : gmap addr (Node K V)).

Lemma new_inv n : sl_inv (new_SkipList n) ([] : list (cell K V)).
Proof.
  split; simpl; try done; try lia.
  - split; simpl.
    + eexists. split; [apply lookup_insert_eq|]. simpl. rewrite length_replicate. lia.
    + by intros ? ?%not_elem_of_nil.
    + apply NoDup_singleton.
    + rewrite dom_singleton_L. set_solver.
  - by intros ? ?%not_elem_of_nil.
  - intros i Hi. unfold fwd. rewrite lookup_singleton_eq. simpl. apply lookup_replicate. split; [done|lia].
  - constructor.
Qed.

Lemma insert_set_element_Ok s l k v odd :
  sl_inv s l → ∃ s' l', insert_set_element k v odd s = Ok (tt, s') ∧ sl_inv s' l' ∧
    max_level s' = max_level s ∧ contents l' = <[k := v]> (contents l).
Proof.
  intros Hinv. unfold insert_set_element, mbind, M_bind. rewrite (search_element_Ok s l k Hinv).
  destruct (contents l !! k) as [v0|] eqn:E.
  - destruct (delete_element_Ok s l k Hinv) as (s1 & l1 & -> & Hinv1 & Hm1 & Hc1).
    destruct (insert_element_Ok s1 l1 k v odd Hinv1) as (r & s2 & l2 & -> & Hinv2 & Hm2 & Hc2).
    rewrite Hc1, lookup_delete_eq in Hc2. destruct Hc2 as [-> Hc2].
    exists s2, l2. split_and!; [done|done|congruence|]. by rewrite Hc2, insert_delete_eq.
  - unfold mret, M_ret. destruct (insert_element_Ok s l k v odd Hinv) as (r & s2 & l2 & -> & Hinv2 & Hm2 & Hc2).
    rewrite E in Hc2. destruct Hc2 as [-> Hc2]. by exists s2, l2.
Qed.

Lemma dump_nodes_Ok s f fuel p d :
  match f with
  | [] => p = None
  | c :: f' => p = Some (c_addr c) ∧ seg (heap s) 0 (c_addr c) (map c_addr f')
  end → (∀ c, c ∈ f → node_of (heap s) c) → (length f < fuel)%nat →
  dump_nodes fuel p d s =
  Ok (mkSkipListDump (keyDumpVt d ++ map c_key f) (valDumpVt d ++ map c_value f), s).
Proof.
  revert fuel p d. induction f as [|c f IH]; intros [|fuel] p d Hp Hn Hl; try (simpl in Hl; lia).
  - subst p. cbn [dump_nodes]. rewrite !app_nil_r. by destruct d.
  - destruct Hp as [-> Hs]. cbn [dump_nodes]. unfold mbind, M_bind.
    destruct (deref_Ok s c) as [fw E]; [apply Hn; left|]. rewrite E.
    rewrite (get_forward_Ok _ _ _ _ (seg_head _ _ _ _ Hs)).
    rewrite IH; [| |intros; apply Hn; by right|simpl in Hl; lia].
    + unfold dump_insert. simpl. by rewrite <- !(assoc_L (++)).
    + destruct f as [|c' f]; [done|]. destruct Hs as [_ Hs]. done.
Qed.

Lemma dump_file_Ok `{!DumpArchive K V} s l :
  sl_inv s l → dump_file s = Ok (dump_out (mkSkipListDump (map c_key l) (map c_value l)), s).
Proof.
  intros Hinv. pose proof (si_seg _ _ Hinv 0 ltac:(lia)) as Hs. rewrite lv_0 in Hs.
  unfold dump_file, mbind, M_bind, gets. cbn [id]. rewrite (get_forward_Ok _ _ _ _ (seg_head _ _ _ _ Hs)).
  rewrite (dump_nodes_Ok s l); [done| | |].
  - destruct l as [|c l]; [done|]. by destruct Hs as [_ Hs].
  - apply Hinv.
  - rewrite (shaped_size _ _ _ _ (si_shaped _ _ Hinv)). lia.
Qed.

Definition delete_all (ads : list addr) h : gmap addr (Node K V) := foldr delete h ads.

Lemma lookup_delete_all ads h a : a ∉ ads → delete_all ads h !! a = h !! a.
Proof.
  induction ads as [|b ads IH]; [done|]. intros Hn. simpl. rewrite lookup_delete_ne by set_solver. apply IH. set_solver.
Qed.

Lemma dom_delete_all ads h : dom (delete_all ads h) = dom h ∖ list_to_set ads.
Proof. induction ads as [|b ads IH]; simpl; [set_solver|]. rewrite dom_delete_L, IH. set_solver. Qed.

Lemma free_Ok s a : is_Some (heap s !! a) → free a s = Ok (tt, set_heap (delete a (heap s)) s).
Proof. intros [n Hn]. unfold free, deref, mbind, M_bind, gets. cbn [id]. by rewrite Hn. Qed.

Lemma clear_Ok fuel s c f :
  seg (heap s) 0 (c_addr c) (map c_addr f) → (∀ x, x ∈ c :: f → node_of (heap s) x) →
  NoDup (map c_addr (c :: f)) → (length f < fuel)%nat →
  clear fuel (c_addr c) s = Ok (tt, set_heap (delete_all (map c_addr (c :: f)) (heap s)) s).
Proof.
  revert c f. induction fuel as [|fuel IH]; intros c f Hs Hn Hnd Hl; [lia|].
  cbn [clear]. unfold mbind, M_bind. rewrite (get_forward_Ok _ _ _ _ (seg_head _ _ _ _ Hs)).
  apply NoDup_cons in Hnd as [Hc Hnd]. destruct (Hn c (list_elem_of_here _ _)) as (fw & Hcn & _).
  destruct f as [|c' f]; cbn [map head].
  - unfold mret, M_ret. rewrite free_Ok by by rewrite Hcn. done.
  - destruct Hs as [_ Hs]. rewrite (IH c' f); [|done|intros; apply Hn; by right|done|simpl in Hl; lia].
    rewrite free_Ok; [done|]. cbn [heap set_heap]. by rewrite lookup_delete_all, Hcn.
Qed.

Lemma destroy_Ok s l : sl_inv s l → ∃ s', destroy s = Ok (tt, s') ∧ heap s' = ∅.
Proof.
  intros Hinv. pose proof (si_seg _ _ Hinv 0 ltac:(lia)) as Hs. rewrite lv_0 in Hs.
  pose proof (si_shaped _ _ Hinv) as [(n & Hn & _) Hc Hnd Hd]. pose proof Hnd as Hnd'. apply NoDup_cons in Hnd' as [Hh Hnd'].
  unfold destroy, mbind, M_bind, gets. cbn [id]. rewrite (get_forward_Ok _ _ _ _ (seg_head _ _ _ _ Hs)).
  assert (Hclear : (match head (map c_addr l) with Some b => clear (size (heap s)) b | None => mret tt end) s =
    Ok (tt, set_heap (delete_all (map c_addr l) (heap s)) s)).
  { destruct l as [|c l]; [by destruct s|]. destruct Hs as [_ Hs]. cbn [map head].
    apply (clear_Ok (size (heap s)) s c l Hs Hc Hnd'). rewrite (shaped_size _ _ _ _ (si_shaped _ _ Hinv)). simpl. lia. }
  rewrite Hclear, free_Ok; cbn [heap set_heap]; [|by rewrite lookup_delete_all, Hn].
  eexists. split; [done|]. cbn [heap set_heap]. apply dom_empty_inv_L. rewrite dom_delete_L, dom_delete_all, Hd. set_solver.
Qed.

End more.

Section load_lemmas.
Context {K : Type} `{Countable K} `{KeyOrderLaws K} `{Inhabited K}.
Implicit Types (s : SkipList K K) (l : list (cell K K)).

Lemma load_keys_Ok ks s l odd :
  sl_inv s l → ∃ s' l', load_keys ks odd s = Ok (tt, s') ∧ sl_inv s' l' ∧
    contents l' = contents l ∪ self_map ks.
Proof.
  revert s l odd. induction ks as [|k ks IH]; intros s l odd Hinv; cbn [load_keys].
  - exists s, l. split_and!; [done..|]. unfold self_map. simpl. by rewrite (right_id_L ∅ (∪)).
  - destruct (insert_element_Ok s l k k (odd 0%nat) Hinv) as (r & s1 & l1 & E & Hinv1 & _ & Hc).
    unfold mbind, M_bind. rewrite E. destruct (IH s1 l1 (λ i, odd (S i)) Hinv1) as (s2 & l2 & -> & Hinv2 & Hc2).
    exists s2, l2. split_and!; [done..|]. rewrite Hc2. unfold self_map. cbn [map list_to_map foldr].
    destruct (contents l !! k) as [v|] eqn:El; destruct Hc as [_ Hc].
    + destruct Hc as [_ ->]. apply map_eq. intros k'. destruct (decide (k' = k)) as [->|].
      * by rewrite !(lookup_union_Some_l _ _ _ _ El).
      * rewrite !lookup_union. cbn. by rewrite lookup_insert_ne.
    + rewrite Hc. cbn. rewrite <- insert_union_l. by rewrite insert_union_r.
Qed.

End load_lemmas.

(** The keys of a dump, and what loading them gives. *)
Lemma sorted_key_list {K V} `{KeyOrder K} (l : list (cell K V)) :
  StronglySorted key_lt l → StronglySorted (λ a b, key_ltb a b = true) (map c_key l).
Proof.
  induction 1 as [|c l Hs IH Hc]; simpl; constructor; [done|]. by apply Forall_map.
Qed.

Lemma zip_kvs {K V} (l : list (cell K V)) : zip (map c_key l) (map c_value l) = kvs l.
Proof. induction l as [|c l IH]; [done|]. simpl. by rewrite IH. Qed.

Lemma lookup_self_map {K} `{Countable K} (ks : list K) k :
  self_map ks !! k = if decide (k ∈ ks) then Some k else None.
Proof.
  unfold self_map. induction ks as [|k' ks IH]; [done|]. cbn. destruct (decide (k' = k)) as [->|Hne].
  - rewrite lookup_insert_eq, decide_True; [done|left].
  - rewrite lookup_insert_ne, IH by done. repeat case_decide; set_solver.
Qed.

Lemma contents_key {K V} `{Countable K} `{!KeyOrder K} `{!KeyOrderLaws K} (l : list (cell K V)) k :
  StronglySorted key_lt l → is_Some (contents l !! k) ↔ k ∈ map c_key l.
Proof.
  intros Hs. unfold contents. rewrite <- elem_of_dom, dom_list_to_map_L, elem_of_list_to_set.
  unfold kvs. by rewrite <- list_fmap_compose.
Qed.

(** ** Properties *)

(** (C7) The skip list implements a finite map: on a well-formed structure,
    [search_element] returns the value under the key; [insert_element] adds a
    new key and leaves an existing one alone (returning 1);
    [insert_set_element] sets the key; [delete_element] removes it; each of
    them ends normally, without following a null or dangling pointer, for every
    value of the random level, and leaves a well-formed structure. *)
Theorem skip_list_refines_map {K V : Type} `{Countable K} `{KeyOrderLaws K} `{Inhabited K} `{Inhabited V}
  (s : SkipList K V) (l : list (cell K V)) (k : K) (v : V) (odd : nat) (Hinv : sl_inv s l) :
  search_element k s = Ok (contents l !! k, s) ∧
  (∃ r s' l', insert_element k v odd s = Ok (r, s') ∧ sl_inv s' l' ∧
    match contents l !! k with
    | Some _ => r = 1 ∧ contents l' = contents l
    | None => r = 0 ∧ contents l' = <[k := v]> (contents l)
    end) ∧
  (∃ s' l', insert_set_element k v odd s = Ok (tt, s') ∧ sl_inv s' l' ∧
    contents l' = <[k := v]> (contents l)) ∧
  (∃ s' l', delete_element k s = Ok (tt, s') ∧ sl_inv s' l' ∧ contents l' = delete k (contents l)).
Proof.
  split_and!.
  - by apply search_element_Ok.
  - destruct (insert_element_Ok s l k v odd Hinv) as (r & s' & l' & E & Hinv' & _ & Hc).
    exists r, s', l'. split_and!; [done..|]. destruct (contents l !! k); [|done]. by destruct Hc as (-> & _ & ->).
  - destruct (insert_set_element_Ok s l k v odd Hinv) as (s' & l' & E & Hinv' & _ & Hc). by exists s', l'.
  - destruct (delete_element_Ok s l k Hinv) as (s' & l' & E & Hinv' & _ & Hc). by exists s', l'.
Qed.

Lemma skip_list_refines_map_witness :
  ∃ s' l', insert_set_element "b" "2" 3 (new_SkipList 6 : SkipList string string) = Ok (tt, s') ∧
    sl_inv s' l' ∧ contents l' = {[ "b" := "2" ]}.
Proof.
  destruct (skip_list_refines_map (new_SkipList 6 : SkipList string string) [] "b" "2" 3 (new_inv 6))
    as (_ & _ & (s' & l' & E & Hinv & Hc) & _).
  exists s', l'. split_and!; [exact E|exact Hinv|rewrite Hc; reflexivity].
Defined.

(** A dump holds the keys in ascending order with their values, one
    per element; but loading it into a new list puts every key under itself:
    [load_file] inserts [keyDumpVt_[i]] as the value. *)
Theorem dump_then_load {K : Type} `{Countable K} `{KeyOrderLaws K} `{Inhabited K} `{DumpArchiveLaws K K}
  (s : SkipList K K) (l : list (cell K K)) (level : nat) (odd : nat → nat) (Hinv : sl_inv s l) :
  ∃ str ks vs, dump_file s = Ok (str, s) ∧ dump_in str = Some (mkSkipListDump ks vs) ∧
    StronglySorted (λ a b, key_ltb a b = true) ks ∧ Z.of_nat (length ks) = list_size s ∧
    list_to_map (zip ks vs) = contents l ∧
    ∃ s' l', load_file str odd (new_SkipList level) = Ok (tt, s') ∧ sl_inv s' l' ∧
      ∀ k, contents l' !! k = match contents l !! k with Some _ => Some k | None => None end.
Proof.
  eexists _, (map c_key l), (map c_value l). split_and!.
  - by apply dump_file_Ok.
  - apply dump_in_out.
  - apply sorted_key_list, Hinv.
  - rewrite length_map. symmetry. apply Hinv.
  - by rewrite zip_kvs.
  - unfold load_file. rewrite decide_False by apply dump_out_nonempty. rewrite dump_in_out.
    destruct (load_keys_Ok (map c_key l) (new_SkipList level) [] odd (new_inv level)) as (s' & l' & E & Hinv' & Hc).
    exists s', l'. split_and!; [done..|]. intros k.
    rewrite Hc. change (contents []) with (∅ : gmap K K). rewrite (left_id_L ∅ (∪)), lookup_self_map.
    pose proof (contents_key l k (si_sorted _ _ Hinv)) as Hk. case_decide as D.
    + apply Hk in D as [v ->]. done.
    + destruct (contents l !! k); [|done]. destruct D. by apply Hk.
Qed.

(** A concrete archive of dumps of strings. *)
#[export] Instance text_dump : DumpArchive string string := {
  dump_out d := put_string (put_list (keyDumpVt d) "") (put_list (valDumpVt d) "");
  dump_in s :=
    '(ks, s') ← get_string s;
    ks ← get_list (String.length ks) ks;
    vs ← get_list (String.length s') s';
    Some (mkSkipListDump ks vs)
}.

#[export] Instance text_dump_laws : DumpArchiveLaws string string.
Proof.
  split.
  - intros [ks vs]. simpl. rewrite get_put_string. simpl. rewrite !get_put_list by done. done.
  - intros [ks vs]. simpl. by destruct ks.
Qed.

Lemma dump_then_load_witness :
  ∃ s l str s' l', sl_inv s l ∧ contents l = {[ "b" := "2" ]} ∧ dump_file s = Ok (str, s) ∧
    load_file str (λ _, 1%nat) (new_SkipList 6) = Ok (tt, s') ∧ sl_inv s' l' ∧ contents l' !! "b" = Some "b".
Proof.
  destruct (insert_set_element_Ok (new_SkipList 6 : SkipList string string) [] "b" "2" 3 (new_inv 6))
    as (s & l & _ & Hinv & _ & Hc).
  destruct (dump_then_load s l 6 (λ _, 1%nat) Hinv) as (str & ks & vs & Hd & _ & _ & _ & _ & s' & l' & Hl & Hinv' & Hk).
  exists s, l, str, s', l'. split_and!; [exact Hinv|rewrite Hc; reflexivity|exact Hd|exact Hl|exact Hinv'|].
  rewrite Hk, Hc. reflexivity.
Defined.

(** The destructor of a well-formed list frees the header and every node
    exactly once: it ends normally and nothing is left in the heap. *)
Theorem destroy_frees_all {K V : Type} `{Countable K} `{KeyOrderLaws K} `{Inhabited K} `{Inhabited V}
  (s : SkipList K V) (l : list (cell K V)) (Hinv : sl_inv s l) :
  ∃ s', destroy s = Ok (tt, s') ∧ heap s' = ∅.
Proof. by eapply destroy_Ok. Qed.

Lemma destroy_frees_all_witness :
  ∃ s', destroy (new_SkipList 6 : SkipList string string) = Ok (tt, s') ∧ heap s' = ∅.
Proof. apply (destroy_frees_all (new_SkipList 6) [] (new_inv 6)). Defined.
