(* ===== verification/KvServer.v ===== *)
(** * KvServer: the key/value server above raft ([raft/raftCore/kvServer.cpp])

    A server holds its raft node, the store, the table of the last request of
    each client and the channels on which the RPC handlers wait for the entry of
    their index.  A handler is cut where it lets others run: [Get_start] (the call of
    raft), [wait_channel] (the channel), and [Get_end] from the end of the wait,
    with an operation or a timeout, on.  Channels are heap objects ([new LockQueue<Op>()]):
    following a deleted one is [BadPointer].  Each piece runs under [m_mtx],
    or touches only the raft node; [serve] interleaves the threads at a finer
    grain, cutting also the loop that applies the messages of raft.  The store is an interface, [KVStore], that the skip list implements. *)

From S2P Require Import Prelude.
From S2P Require Import SkipList.
From S2P Require Import SkipListFacts.
From S2P Require Import SkipListProps.
From S2P Require Import Persister.
From S2P Require Import RaftTypes.
From S2P Require Import Raft.

Class KVStore (T : Type) := {
  st_insert_set : string → string → nat → M T unit;
  st_search : string → M T (option string);
  st_dump : M T string;
  st_load : string → (nat → nat) → M T unit
}.

(** [st_rep t m]: the store [t] holds the map [m]; [st_dumps str ks]: the dump
    [str] lists the keys [ks]. *)
Class KVStoreLaws (T : Type) `{KVStore T} := {
  st_rep : T → gmap string string → Prop;
  st_dumps : string → list string → Prop;
  st_search_Ok t m k : st_rep t m → st_search k t = Ok (m !! k, t);
  st_insert_set_Ok t m k v odd : st_rep t m →
    ∃ t', st_insert_set k v odd t = Ok (tt, t') ∧ st_rep t' (<[k := v]> m);
  st_dump_Ok t m : st_rep t m →
    ∃ str ks, st_dump t = Ok (str, t) ∧ st_dumps str ks ∧ ∀ k, k ∈ ks ↔ is_Some (m !! k);
  st_load_Ok t m str ks odd : st_rep t m → st_dumps str ks →
    ∃ t', st_load str odd t = Ok (tt, t') ∧ st_rep t' (m ∪ self_map ks)
}.

#[export] Instance skip_list_store : KVStore (SkipList string string) := {
  st_insert_set k v odd := insert_set_element k v odd;
  st_search k := search_element k;
  st_dump := dump_file;
  st_load str odd := load_file str odd
}.

#[export] Instance skip_list_store_laws : KVStoreLaws (SkipList string string).
Proof.
  refine {| st_rep s m := ∃ l, sl_inv s l ∧ contents l = m;
            st_dumps str ks := str ≠ "" ∧ ∃ vs, dump_in str = Some (mkSkipListDump ks vs) |}.
  - intros s m k (l & Hinv & <-). by apply search_element_Ok.
  - intros s m k v odd (l & Hinv & <-).
    destruct (insert_set_element_Ok s l k v odd Hinv) as (s' & l' & E & Hinv' & _ & Hc). eauto.
  - intros s m (l & Hinv & <-). eexists _, (map c_key l). split_and!.
    + by apply dump_file_Ok.
    + apply dump_out_nonempty.
    + eexists. apply dump_in_out.
    + intros k. symmetry. by apply contents_key, Hinv.
  - intros s m str ks odd (l & Hinv & <-) (Hne & vs & Hd).
    destruct (load_keys_Ok ks s l odd Hinv) as (s' & l' & E & Hinv' & Hc).
    exists s'. simpl. unfold load_file. rewrite decide_False, Hd by done. simpl. eauto.
Defined.

(** ** Data *)

Definition OK : string := "OK".
Definition ErrNoKey : string := "ErrNoKey".
Definition ErrWrongLeader : string := "ErrWrongLeader".

Record GetArgs := mkGetArgs { ga_key : string; ga_clientid : string; ga_requestid : Z }.
Record GetReply := mkGetReply { gr_err : string; gr_value : string }.
Record PutAppendArgs := mkPutAppendArgs {
  pa_key : string; pa_value : string; pa_op : string; pa_clientid : string; pa_requestid : Z
}.
Record PutAppendReply := mkPutAppendReply { pr_err : string }.

(** The archive of the server: the dump of the store and the table of the last
    requests. *)
Class KvArchive := {
  kv_out : string → gmap string Z → string;
  kv_in : string → option (string * gmap string Z)
}.

Class KvArchiveLaws `{KvArchive} := {
  kv_in_out d m : kv_in (kv_out d m) = Some (d, m);
  kv_out_nonempty d m : kv_out d m ≠ ""
}.

(** [LockQueue]: [Push] at the back, [Pop] at the front. *)
Definition Push {A} (x : A) (q : list A) : list A := q ++ [x].

Definition Pop {A} (q : list A) : option (A * list A) :=
  match q with [] => None | x :: q' => Some (x, q') end.

(** [m_raftNode] and [applyChan] (a member of the raft node's state too),
    [chans] is the memory of the channels. *)
Record KvServer (P T : Type) := mkKvServer {
  m_raftNode : Raft P;
  m_maxRaftState : Z;
  m_skipList : T;
  waitApplyCh : gmap Z positive;
  chans : gmap positive (list Op);
  m_lastRequestId : gmap string Z;
  m_lastSnapShotRaftLogIndex : Z
}.
Arguments mkKvServer {P T}.
Arguments m_raftNode {P T} _.
Arguments m_maxRaftState {P T} _.
Arguments m_skipList {P T} _.
Arguments waitApplyCh {P T} _.
Arguments chans {P T} _.
Arguments m_lastRequestId {P T} _.
Arguments m_lastSnapShotRaftLogIndex {P T} _.

Section server.
Context {P T : Type} `{PersisterOps P} `{RaftArchive} `{KVStore T} `{KvArchive}.
Implicit Types s : KvServer P T.

Abbreviation MK := (M (KvServer P T)).

Definition set_raftNode (r : Raft P) s : KvServer P T :=
  mkKvServer r (m_maxRaftState s) (m_skipList s) (waitApplyCh s) (chans s) (m_lastRequestId s)
    (m_lastSnapShotRaftLogIndex s).
Definition set_skipList (t : T) s : KvServer P T :=
  mkKvServer (m_raftNode s) (m_maxRaftState s) t (waitApplyCh s) (chans s) (m_lastRequestId s)
    (m_lastSnapShotRaftLogIndex s).
Definition set_waitApplyCh (w : gmap Z positive) s : KvServer P T :=
  mkKvServer (m_raftNode s) (m_maxRaftState s) (m_skipList s) w (chans s) (m_lastRequestId s)
    (m_lastSnapShotRaftLogIndex s).
Definition set_chans (c : gmap positive (list Op)) s : KvServer P T :=
  mkKvServer (m_raftNode s) (m_maxRaftState s) (m_skipList s) (waitApplyCh s) c (m_lastRequestId s)
    (m_lastSnapShotRaftLogIndex s).
Definition set_lastRequestId (l : gmap string Z) s : KvServer P T :=
  mkKvServer (m_raftNode s) (m_maxRaftState s) (m_skipList s) (waitApplyCh s) (chans s) l
    (m_lastSnapShotRaftLogIndex s).
Definition set_lastSnapShotRaftLogIndex (i : Z) s : KvServer P T :=
  mkKvServer (m_raftNode s) (m_maxRaftState s) (m_skipList s) (waitApplyCh s) (chans s) (m_lastRequestId s) i.

(** A call on the raft node, resp. on the store. *)
Definition on_raft {A} (m : M (Raft P) A) : MK A := λ s,
  match m (m_raftNode s) with Ok (a, r) => Ok (a, set_raftNode r s) | Fail f => Fail f end.

Definition on_store {A} (m : M T A) : MK A := λ s,
  match m (m_skipList s) with Ok (a, t) => Ok (a, set_skipList t s) | Fail f => Fail f end.

(** ** Executing commands; [odd] is what [rand()] gives (see [SkipList]) *)

Definition ExecutePutOpOnKVDB (op : Op) (odd : nat) : MK unit :=
  on_store (st_insert_set (Key op) (Value op) odd) ;;
  modify (λ s, set_lastRequestId (<[ClientId op := RequestId op]> (m_lastRequestId s)) s).

Definition ExecuteAppendOpOnKVDB (op : Op) (odd : nat) : MK unit :=
  on_store (st_insert_set (Key op) (Value op) odd) ;;
  modify (λ s, set_lastRequestId (<[ClientId op := RequestId op]> (m_lastRequestId s)) s).

(** The value and whether the key exists. *)
Definition ExecuteGetOpOnKVDB (op : Op) : MK (string * bool) :=
  r ← on_store (st_search (Key op));
  modify (λ s, set_lastRequestId (<[ClientId op := RequestId op]> (m_lastRequestId s)) s) ;;
  mret (match r with Some v => (v, true) | None => ("", false) end).

Definition ifRequestDuplicate (client : string) (request : Z) s : bool :=
  match m_lastRequestId s !! client with
  | None => false
  | Some last => request <=? last
  end.

(** ** Snapshots *)

Definition getSnapshotData : MK string :=
  d ← on_store st_dump;
  s ← gets id;
  mret (kv_out d (m_lastRequestId s)).

Definition MakeSnapShot : MK string := getSnapshotData.

(** [ia >> *this] overwrites [m_lastRequestId]; the dump is loaded into the
    store as it is. *)
Definition parseFromString (str : string) (odd : nat → nat) : MK unit :=
  match kv_in str with
  | Some (d, last) => modify (set_lastRequestId last) ;; on_store (st_load d odd)
  | None => fail OutOfRange
  end.

Definition ReadSnapShotToInstall (snapshot : string) (odd : nat → nat) : MK unit :=
  if decide (snapshot = "") then mret tt else parseFromString snapshot odd.

Definition GetSnapShotFromRaft (message : ApplyMsg) (odd : nat → nat) : MK unit :=
  if CondInstallSnapshot (SnapshotTerm message) (SnapshotIndex message) (Snapshot_data message) then
    ReadSnapShotToInstall (Snapshot_data message) odd ;;
    modify (set_lastSnapShotRaftLogIndex (SnapshotIndex message))
  else mret tt.

(** [GetRaftStateSize() > m_maxRaftState / 10.0]; [proportion] is not used. *)
Definition IfNeedToSendSnapShotCommand (raftIndex proportion : Z) : MK unit :=
  size ← on_raft GetRaftStateSize;
  s ← gets id;
  if m_maxRaftState s <? 10 * size then
    snapshot ← MakeSnapShot;
    on_raft (Snapshot raftIndex snapshot)
  else mret tt.

(** ** The messages of raft *)

Definition SendMessageToWaitChan (op : Op) (raftIndex : Z) : MK bool :=
  s ← gets id;
  match waitApplyCh s !! raftIndex with
  | None => mret false
  | Some c =>
      match chans s !! c with
      | Some q => modify (set_chans (<[c := Push op q]> (chans s))) ;; mret true
      | None => fail BadPointer
      end
  end.

Definition GetCommandFromRaft (message : ApplyMsg) (odd : nat) : MK unit :=
  match Op_parseFromString (Command message) with
  | None => fail OutOfRange
  | Some op =>
      s ← gets id;
      if CommandIndex message <=? m_lastSnapShotRaftLogIndex s then mret tt
      else
        (if negb (ifRequestDuplicate (ClientId op) (RequestId op) s) then
           (if decide (Operation op = "Put") then ExecutePutOpOnKVDB op odd else mret tt) ;;
           (if decide (Operation op = "Append") then ExecuteAppendOpOnKVDB op odd else mret tt)
         else mret tt) ;;
        (if negb (m_maxRaftState s =? -1) then IfNeedToSendSnapShotCommand (CommandIndex message) 9
         else mret tt) ;;
        SendMessageToWaitChan op (CommandIndex message) ;;
        mret tt
  end.

(** One turn of [ReadRaftApplyCommandLoop], the channel not being empty. *)
Definition ReadRaftApplyCommandLoop_turn (odd : nat) (odds : nat → nat) : MK unit :=
  s ← gets id;
  match Pop (applyChan (m_raftNode s)) with
  | None => fail NoFuel
  | Some (message, rest) =>
      on_raft (modify (set_applyChan rest)) ;;
      (if CommandValid message then GetCommandFromRaft message odd else mret tt) ;;
      (if SnapshotValid message then GetSnapShotFromRaft message odds else mret tt)
  end.

(** ** The RPC handlers *)

(** [if (waitApplyCh.find(i) == end()) insert(i, new LockQueue<Op>());
    chForRaftIndex = waitApplyCh[i];] *)
Definition wait_channel (raftIndex : Z) : MK positive :=
  s ← gets id;
  match waitApplyCh s !! raftIndex with
  | Some c => mret c
  | None =>
      let c := base.fresh (dom (chans s)) in
      modify (set_chans (<[c := []]> (chans s))) ;;
      modify (set_waitApplyCh (<[raftIndex := c]> (waitApplyCh s))) ;;
      mret c
  end.

(** The end of [timeOutPop]: [None] on a timeout. *)
Definition timeOutPop (c : positive) (timeout : bool) : MK (option Op) :=
  s ← gets id;
  match chans s !! c with
  | None => fail BadPointer
  | Some q =>
      if timeout then mret None
      else match Pop q with
           | Some (op, q') => modify (set_chans (<[c := q']> (chans s))) ;; mret (Some op)
           | None => fail NoFuel
           end
  end.

(** [tmp = waitApplyCh[i]; waitApplyCh.erase(i); delete tmp;]: [operator[]]
    inserts a null pointer when there is no channel, and deleting it is fine. *)
Definition erase_channel (raftIndex : Z) : MK unit :=
  s ← gets id;
  match waitApplyCh s !! raftIndex with
  | None => mret tt
  | Some c =>
      modify (set_waitApplyCh (delete raftIndex (waitApplyCh s))) ;;
      match chans s !! c with
      | Some _ => modify (set_chans (delete c (chans s)))
      | None => fail BadPointer
      end
  end.

Definition Get_op (args : GetArgs) : Op :=
  mkOp "Get" (ga_key args) "" (ga_clientid args) (ga_requestid args).

Definition PutAppend_op (args : PutAppendArgs) : Op :=
  mkOp (pa_op args) (pa_key args) (pa_value args) (pa_clientid args) (pa_requestid args).

(** The call of [Start]: the index of the entry, or [None] when this node is
    not the leader (and the reply is [ErrWrongLeader]).  [wait_channel] comes
    after it, in a critical section of its own. *)
Definition rpc_start (op : Op) : MK (option Z) :=
  r ← on_raft (Start op);
  let '(raftIndex, _, isLeader) := r : Z * Z * bool in
  mret (if negb isLeader then None else Some raftIndex).

Definition Get_start (args : GetArgs) : MK (option Z) := rpc_start (Get_op args).
Definition PutAppend_start (args : PutAppendArgs) : MK (option Z) := rpc_start (PutAppend_op args).

Definition Get_execute (op : Op) : MK GetReply :=
  r ← ExecuteGetOpOnKVDB op;
  let '(value, exists_) := r : string * bool in
  mret (if exists_ then mkGetReply OK value else mkGetReply ErrNoKey "").

(** The two operations have the same client and request. *)
Definition same_request (a b : Op) : bool :=
  String.eqb (ClientId a) (ClientId b) && (RequestId a =? RequestId b).

Definition Get_end (args : GetArgs) (raftIndex : Z) (c : positive) (timeout : bool) : MK GetReply :=
  let op := Get_op args in
  popped ← timeOutPop c timeout;
  reply ← match popped with
    | None =>
        s ← gets id;
        if ifRequestDuplicate (ClientId op) (RequestId op) s && (GetState (m_raftNode s)).2
        then Get_execute op
        else mret (mkGetReply ErrWrongLeader "")
    | Some raftCommitOp =>
        if same_request raftCommitOp op then Get_execute op
        else mret (mkGetReply ErrWrongLeader "")
    end;
  erase_channel raftIndex ;;
  mret reply.

Definition PutAppend_end (args : PutAppendArgs) (raftIndex : Z) (c : positive) (timeout : bool) : MK PutAppendReply :=
  let op := PutAppend_op args in
  popped ← timeOutPop c timeout;
  reply ← match popped with
    | None =>
        s ← gets id;
        mret (mkPutAppendReply
          (if ifRequestDuplicate (ClientId op) (RequestId op) s then OK else ErrWrongLeader))
    | Some raftCommitOp =>
        mret (mkPutAppendReply (if same_request raftCommitOp op then OK else ErrWrongLeader))
    end;
  erase_channel raftIndex ;;
  mret reply.

(** The constructor, once the raft node is initialised and the store is new. *)
Definition new_KvServer (r : Raft P) (maxraftstate : Z) (store : T) (odd : nat → nat) : result (KvServer P T) :=
  let s := mkKvServer r maxraftstate store ∅ ∅ ∅ 0 in
  match (snapshot ← on_raft persister_ReadSnapshot; ReadSnapShotToInstall snapshot odd) s with
  | Ok (_, s') => Ok s'
  | Fail f => Fail f
  end.

End server.

(** ** The server among its threads

    The loop that reads the messages of raft and the handlers of the RPCs run
    on threads of their own and give up the locks between their parts.
    [loop_pc] and [rpc_pc] say which part comes next; what a part does is
    written to a trace of [label]s. *)

Inductive label :=
  | Applied (op : Op) (executed : bool)
  | Installed (snapshot : string)
  | AnsweredPut (args : PutAppendArgs) (reply : PutAppendReply)
  | AnsweredGet (args : GetArgs) (reply : GetReply).

Inductive loop_pc :=
  | Waits
  | Received (message : ApplyMsg)
  | Looked (message : ApplyMsg) (op : Op) (dup : bool)
  | Ran (message : ApplyMsg) (op : Op)
  | Saved (message : ApplyMsg) (op : Op)
  | Commanded (message : ApplyMsg).

Inductive rpc_args := PutRpc (args : PutAppendArgs) | GetRpc (args : GetArgs).

Inductive rpc_pc :=
  | Started (raftIndex : Z)
  | Waiting (raftIndex : Z) (c : positive)
  | Popped (raftIndex : Z) (popped : option Op)
  | Asked (raftIndex : Z) (isLeader : bool)
  | Decided (raftIndex : Z) (execute : bool)
  | Replied (raftIndex : Z).

Record serving (P T : Type) := mkServing {
  sv_server : KvServer P T;
  sv_loop : loop_pc;
  sv_calls : gmap nat (rpc_args * rpc_pc)
}.
Arguments mkServing {P T}.
Arguments sv_server {P T} _.
Arguments sv_loop {P T} _.
Arguments sv_calls {P T} _.

(** What runs next: a part of raft, which may leave the raft node in any state
    and so deliver any messages, a new call, the next part of a call (with
    [timeout], its wait ends without an operation), or of the loop. *)
Inductive scheduled (P : Type) :=
  | RaftRuns (r : Raft P)
  | NewCall (k : nat) (args : rpc_args)
  | CallRuns (k : nat) (timeout : bool)
  | LoopRuns (odd : nat) (odds : nat → nat).
Arguments RaftRuns {P} r.
Arguments NewCall {P} k args.
Arguments CallRuns {P} k timeout.
Arguments LoopRuns {P} odd odds.

Section threads.
Context {P T : Type} `{PersisterOps P} `{RaftArchive} `{KVStore T} `{KvArchive}.

Abbreviation MK := (M (KvServer P T)).

Definition rpc_op (a : rpc_args) : Op :=
  match a with PutRpc args => PutAppend_op args | GetRpc args => Get_op args end.

Definition refused (a : rpc_args) : label :=
  match a with
  | PutRpc args => AnsweredPut args (mkPutAppendReply ErrWrongLeader)
  | GetRpc args => AnsweredGet args (mkGetReply ErrWrongLeader "")
  end.

(** A handler after [Start].  The timed-out Get first asks raft whether this
    node is still the leader, then looks into the table, then executes. *)
Definition rpc_step (timeout : bool) (a : rpc_args) (pc : rpc_pc) : MK (option rpc_pc * list label) :=
  match pc with
  | Started i => c ← wait_channel i; mret (Some (Waiting i c), [])
  | Waiting i c => popped ← timeOutPop c timeout; mret (Some (Popped i popped), [])
  | Popped i popped =>
      match a, popped with
      | PutRpc args, Some raftCommitOp =>
          mret (Some (Replied i), [AnsweredPut args (mkPutAppendReply
            (if same_request raftCommitOp (PutAppend_op args) then OK else ErrWrongLeader))])
      | PutRpc args, None =>
          s ← gets id;
          mret (Some (Replied i), [AnsweredPut args (mkPutAppendReply
            (if ifRequestDuplicate (pa_clientid args) (pa_requestid args) s then OK else ErrWrongLeader))])
      | GetRpc args, Some raftCommitOp =>
          mret (Some (Decided i (same_request raftCommitOp (Get_op args))), [])
      | GetRpc args, None =>
          s ← gets id;
          mret (Some (Asked i (GetState (m_raftNode s)).2), [])
      end
  | Asked i isLeader =>
      s ← gets id;
      mret (Some (Decided i (ifRequestDuplicate (ClientId (rpc_op a)) (RequestId (rpc_op a)) s && isLeader)), [])
  | Decided i execute =>
      match a, execute with
      | GetRpc args, true =>
          reply ← Get_execute (Get_op args);
          mret (Some (Replied i), [AnsweredGet args reply])
      | _, _ => mret (Some (Replied i), [refused a])
      end
  | Replied i => erase_channel i ;; mret (None, [])
  end.

(** [ReadRaftApplyCommandLoop] with [GetCommandFromRaft] and
    [GetSnapShotFromRaft]. *)
Definition apply_step (odd : nat) (odds : nat → nat) (pc : loop_pc) : MK (loop_pc * list label) :=
  match pc with
  | Waits =>
      s ← gets id;
      match Pop (applyChan (m_raftNode s)) with
      | None => fail NoFuel
      | Some (message, rest) => on_raft (modify (set_applyChan rest)) ;; mret (Received message, [])
      end
  | Received message =>
      if CommandValid message then
        match Op_parseFromString (Command message) with
        | None => fail OutOfRange
        | Some op =>
            s ← gets id;
            mret (if CommandIndex message <=? m_lastSnapShotRaftLogIndex s then Commanded message
                  else Looked message op (ifRequestDuplicate (ClientId op) (RequestId op) s), [])
        end
      else mret (Commanded message, [])
  | Looked message op dup =>
      (if negb dup then
         (if decide (Operation op = "Put") then ExecutePutOpOnKVDB op odd else mret tt) ;;
         (if decide (Operation op = "Append") then ExecuteAppendOpOnKVDB op odd else mret tt)
       else mret tt) ;;
      mret (Ran message op,
        [Applied op (negb dup && (String.eqb (Operation op) "Put" || String.eqb (Operation op) "Append"))])
  | Ran message op =>
      s ← gets id;
      (if negb (m_maxRaftState s =? -1) then IfNeedToSendSnapShotCommand (CommandIndex message) 9 else mret tt) ;;
      mret (Saved message op, [])
  | Saved message op => SendMessageToWaitChan op (CommandIndex message) ;; mret (Commanded message, [])
  | Commanded message =>
      if SnapshotValid message then
        GetSnapShotFromRaft message odds ;; mret (Waits, [Installed (Snapshot_data message)])
      else mret (Waits, [])
  end.

(** One part of one thread: what it did, and the server after it; [None] when
    that thread cannot go on. *)
Definition serve (ch : scheduled P) (sv : serving P T) : option (list label * serving P T) :=
  match ch with
  | RaftRuns r => Some ([], mkServing (set_raftNode r (sv_server sv)) (sv_loop sv) (sv_calls sv))
  | NewCall k a =>
      match sv_calls sv !! k, rpc_start (rpc_op a) (sv_server sv) with
      | None, Ok (None, s) => Some ([refused a], mkServing s (sv_loop sv) (sv_calls sv))
      | None, Ok (Some i, s) => Some ([], mkServing s (sv_loop sv) (<[k := (a, Started i)]> (sv_calls sv)))
      | _, _ => None
      end
  | CallRuns k timeout =>
      '(a, pc) ← sv_calls sv !! k;
      match rpc_step timeout a pc (sv_server sv) with
      | Ok ((Some pc', l), s) => Some (l, mkServing s (sv_loop sv) (<[k := (a, pc')]> (sv_calls sv)))
      | Ok ((None, l), s) => Some (l, mkServing s (sv_loop sv) (delete k (sv_calls sv)))
      | Fail _ => None
      end
  | LoopRuns odd odds =>
      match apply_step odd odds (sv_loop sv) (sv_server sv) with
      | Ok ((pc', l), s) => Some (l, mkServing s pc' (sv_calls sv))
      | Fail _ => None
      end
  end.

Fixpoint serve_all (chs : list (scheduled P)) (sv : serving P T) : option (list label * serving P T) :=
  match chs with
  | [] => Some ([], sv)
  | ch :: chs' => '(l, sv1) ← serve ch sv; '(tr, sv2) ← serve_all chs' sv1; Some (l ++ tr, sv2)
  end.

End threads.
