(* ===== verification/KvProps.v ===== *)
(** * KvProps: the properties of the key/value server

    The server's reaction to the messages of raft implements a deterministic
    state machine with duplicate detection ([kv_step]); then the behaviour of
    snapshots and of the channels. *)

From S2P Require Import Prelude.
From S2P Require Import Persister.
From S2P Require Import Fields.
From S2P Require Import RaftTypes.
From S2P Require Import Raft.
From S2P Require Import RaftFacts.
From S2P Require Import RaftHandlers.
From S2P Require Import RaftConcrete.
From S2P Require Import RaftProps.
From S2P Require Import SkipList.
From S2P Require Import SkipListProps.
From S2P Require Import KvServer.
From S2P Require Import KvServer.

(** ** Definitions *)

(** The replicated state machine: the data and the last request of each client. *)
Record kv_state := mkKvState { kv_map : gmap string string; kv_last : gmap string Z }.

Definition duplicate (op : Op) (st : kv_state) : bool :=
  match kv_last st !! ClientId op with None => false | Some last => RequestId op <=? last end.

Definition is_write (op : Op) : bool := String.eqb (Operation op) "Put" || String.eqb (Operation op) "Append".

Definition kv_step (op : Op) (st : kv_state) : kv_state :=
  if duplicate op st || negb (is_write op) then st
  else mkKvState (<[Key op := Value op]> (kv_map st)) (<[ClientId op := RequestId op]> (kv_last st)).

Definition kv_run (ops : list Op) (st : kv_state) : kv_state := fold_left (λ st op, kv_step op st) ops st.

Section defs.
Context {P T : Type} `{PersisterOps P} `{RaftArchive} `{KVStore T} `{!KVStoreLaws T}.
Implicit Types s : KvServer P T.

(** The server's memory is in order. *)
Record kv_inv s : Prop := {
  ki_node : node_wf (m_raftNode s);
  ki_persister : is_Some (m_persister (m_raftNode s));
  ki_chans : ∀ i c, waitApplyCh s !! i = Some c → is_Some (chans s !! c)
}.

Definition kv_rep s (st : kv_state) : Prop :=
  st_rep (m_skipList s) (kv_map st) ∧ m_lastRequestId s = kv_last st.

(** The message carries the operation [op] for an index after the last snapshot. *)
Definition carries s (message : ApplyMsg) (op : Op) : Prop :=
  Op_parseFromString (Command message) = Some op ∧ m_lastSnapShotRaftLogIndex s < CommandIndex message.

(** Messages handled one after the other. *)
Fixpoint handle_all `{KvArchive} (msgs : list (ApplyMsg * nat)) : M (KvServer P T) unit :=
  match msgs with
  | [] => mret tt
  | (m, odd) :: msgs' => GetCommandFromRaft m odd ;; handle_all msgs'
  end.

End defs.

(** ** Lemmas *)

Section lemmas.
Context {P T : Type} `{PersisterLaws P} `{RaftArchive} `{KVStoreLaws T} `{KvArchive}.
Implicit Types s : KvServer P T.

Lemma GetRaftStateSize_Ok (r : Raft P) : is_Some (m_persister r) → ∃ n, GetRaftStateSize r = Ok (n, r).
Proof. intros [p Hp]. unfold GetRaftStateSize, mbind, M_bind, gets. cbn [id]. rewrite Hp. by eexists. Qed.

Lemma Snapshot_total (r : Raft P) i d : node_wf r → is_Some (m_persister r) →
  ∃ r', Snapshot i d r = Ok (tt, r') ∧ node_wf r' ∧ is_Some (m_persister r').
Proof.
  intros Hwf [p Hp]. pose proof (Snapshot_Ok i d r p Hwf Hp) as Hs. destruct (_ || _).
  - exists r. rewrite Hs. split_and!; [done..|by exists p].
  - destruct Hs as (r' & Hr & _ & _ & _ & _ & _ & Hp' & _ & Hwf'). exists r'. rewrite Hp'. split_and!; [done..|by eexists].
Qed.

(** Writing into the store. *)
Lemma execute_Ok s st op odd :
  kv_inv s → kv_rep s st →
  ∃ s', (on_store (st_insert_set (Key op) (Value op) odd) ;;
         modify (λ s, set_lastRequestId (<[ClientId op := RequestId op]> (m_lastRequestId s)) s)) s = Ok (tt, s') ∧
    kv_inv s' ∧ kv_rep s' (mkKvState (<[Key op := Value op]> (kv_map st)) (<[ClientId op := RequestId op]> (kv_last st))) ∧
    m_lastSnapShotRaftLogIndex s' = m_lastSnapShotRaftLogIndex s ∧
    waitApplyCh s' = waitApplyCh s ∧ chans s' = chans s ∧ m_maxRaftState s' = m_maxRaftState s.
Proof.
  intros [Hn Hp Hc] [Hr Hl]. destruct (st_insert_set_Ok _ _ (Key op) (Value op) odd Hr) as (t' & E & Hr').
  unfold mbind, M_bind, on_store, modify. rewrite E. eexists. split; [done|].
  split_and!; [by constructor|split; simpl; [done|by rewrite Hl]|done..].
Qed.

(** The state machine part of [GetCommandFromRaft]. *)
Lemma command_Ok s st op odd :
  kv_inv s → kv_rep s st →
  ∃ s', (if negb (ifRequestDuplicate (ClientId op) (RequestId op) s) then
           (if decide (Operation op = "Put") then ExecutePutOpOnKVDB op odd else mret tt) ;;
           (if decide (Operation op = "Append") then ExecuteAppendOpOnKVDB op odd else mret tt)
         else mret tt) s = Ok (tt, s') ∧
    kv_inv s' ∧ kv_rep s' (kv_step op st) ∧
    m_lastSnapShotRaftLogIndex s' = m_lastSnapShotRaftLogIndex s ∧
    waitApplyCh s' = waitApplyCh s ∧ chans s' = chans s ∧ m_maxRaftState s' = m_maxRaftState s.
Proof.
  intros Hinv Hrep. destruct (execute_Ok s st op odd Hinv Hrep) as (s' & E & Hs').
  assert (ifRequestDuplicate (ClientId op) (RequestId op) s = duplicate op st) as ->.
  { unfold ifRequestDuplicate, duplicate. by destruct Hrep as [_ ->]. }
  unfold kv_step, is_write, ExecutePutOpOnKVDB, ExecuteAppendOpOnKVDB. destruct (duplicate op st); simpl; [by exists s|].
  destruct (String.eqb_spec (Operation op) "Put") as [E1|E1]; simpl.
  - rewrite (decide_True (P := Operation op = "Put")) by done.
    rewrite (decide_False (P := Operation op = "Append")) by (rewrite E1; discriminate).
    exists s'. split; [|done]. unfold mbind at 1, M_bind at 1. by rewrite E.
  - rewrite (decide_False (P := Operation op = "Put")) by done. destruct (String.eqb_spec (Operation op) "Append") as [E2|E2]; simpl.
    + rewrite decide_True by done. exists s'. split; [|done]. unfold mbind at 1, M_bind at 1. simpl. exact E.
    + rewrite decide_False by done. by exists s.
Qed.

Lemma snapshot_Ok s st i n :
  kv_inv s → kv_rep s st →
  ∃ s', (if negb (m_maxRaftState s =? -1) then IfNeedToSendSnapShotCommand i n else mret tt) s = Ok (tt, s') ∧
    kv_inv s' ∧ kv_rep s' st ∧ m_lastSnapShotRaftLogIndex s' = m_lastSnapShotRaftLogIndex s ∧
    waitApplyCh s' = waitApplyCh s ∧ chans s' = chans s.
Proof.
  intros Hinv Hrep. destruct (negb _); [|by exists s]. pose proof Hinv as [Hn Hp Hc]. pose proof Hrep as [Hr Hl].
  destruct (GetRaftStateSize_Ok _ Hp) as [size Hsize].
  unfold IfNeedToSendSnapShotCommand, mbind at 1, M_bind at 1, on_raft at 1. rewrite Hsize.
  assert (set_raftNode (m_raftNode s) s = s) as -> by by destruct s.
  unfold mbind at 1, M_bind at 1, gets. cbn [id]. destruct (_ <? _); [|by exists s].
  unfold MakeSnapShot, getSnapshotData, mbind, M_bind, on_store, gets. cbn [id].
  destruct (st_dump_Ok _ _ Hr) as (str & ks & Hd & _). rewrite Hd. unfold mret, M_ret, on_raft. cbn.
  destruct (Snapshot_total (m_raftNode s) i (kv_out str (m_lastRequestId s)) Hn Hp) as (r' & -> & Hwf' & Hp').
  eexists. split; [done|]. split_and!; [by constructor|done..].
Qed.

Lemma send_Ok s op i :
  kv_inv s → ∃ b s', SendMessageToWaitChan op i s = Ok (b, s') ∧ kv_inv s' ∧
    m_skipList s' = m_skipList s ∧ m_lastRequestId s' = m_lastRequestId s ∧
    m_lastSnapShotRaftLogIndex s' = m_lastSnapShotRaftLogIndex s ∧
    match waitApplyCh s !! i with
    | Some c => chans s' = alter (Push op) c (chans s)
    | None => s' = s
    end.
Proof.
  intros Hinv. pose proof Hinv as [Hn Hp Hc]. unfold SendMessageToWaitChan, mbind, M_bind, gets. cbn [id].
  destruct (waitApplyCh s !! i) as [c|] eqn:E; [|by exists false, s].
  destruct (Hc _ _ E) as [q Hq]. rewrite Hq. unfold modify, mret, M_ret. eexists true, _. split; [done|].
  split_and!; try done.
  - split; simpl; [done..|]. intros j c' Hj. destruct (decide (c' = c)) as [->|].
    + rewrite lookup_insert_eq. eauto.
    + rewrite lookup_insert_ne by done. by eapply Hc.
  - simpl. apply map_eq. intros x. destruct (decide (x = c)) as [->|].
    + by rewrite lookup_insert_eq, lookup_alter_eq, Hq.
    + by rewrite lookup_insert_ne, lookup_alter_ne.
Qed.

Lemma GetCommandFromRaft_Ok s st message op odd :
  kv_inv s → kv_rep s st → carries s message op →
  ∃ s', GetCommandFromRaft message odd s = Ok (tt, s') ∧ kv_inv s' ∧ kv_rep s' (kv_step op st) ∧
    m_lastSnapShotRaftLogIndex s' = m_lastSnapShotRaftLogIndex s ∧
    match waitApplyCh s !! CommandIndex message with
    | Some c => chans s' = alter (Push op) c (chans s)
    | None => chans s' = chans s
    end.
Proof.
  intros Hinv Hrep [Hop Hi].
  destruct (command_Ok s st op odd Hinv Hrep) as (s1 & E1 & Hinv1 & Hrep1 & Hi1 & Hw1 & Hc1 & Hm).
  destruct (snapshot_Ok s1 _ (CommandIndex message) 9 Hinv1 Hrep1) as (s2 & E2 & Hinv2 & Hrep2 & Hi2 & Hw2 & Hc2).
  destruct (send_Ok s2 op (CommandIndex message) Hinv2) as (b & s3 & E3 & Hinv3 & Hsk & Hlr & Hi3 & Hch).
  exists s3. split_and!; [|done| |congruence|].
  - unfold GetCommandFromRaft. rewrite Hop. unfold mbind at 1, M_bind at 1, gets. cbn [id].
    rewrite (proj2 (Z.leb_gt _ _)) by lia. unfold mbind at 1, M_bind at 1. rewrite E1.
    unfold mbind at 1, M_bind at 1.
    rewrite <- Hm, E2. unfold mbind, M_bind. by rewrite E3.
  - destruct Hrep2 as [Hr Hl]. split; [by rewrite Hsk|by rewrite Hlr].
  - rewrite Hw2, Hw1 in Hch. destruct (waitApplyCh s !! _); [by rewrite Hch, Hc2, Hc1|]. subst. by rewrite Hc2, Hc1.
Qed.

Lemma handle_all_Ok s st msgs ops :
  kv_inv s → kv_rep s st →
  Forall2 (λ (m : ApplyMsg * nat) op, carries s m.1 op) msgs ops →
  ∃ s', handle_all msgs s = Ok (tt, s') ∧ kv_inv s' ∧ kv_rep s' (kv_run ops st).
Proof.
  revert ops s st. induction msgs as [|[m odd] msgs IH]; intros ops s st Hinv Hrep Hm.
  { apply Forall2_nil_inv_l in Hm as ->. by exists s. }
  apply Forall2_cons_inv_l in Hm as (op & ops' & Hc & Hm & ->).
  destruct (GetCommandFromRaft_Ok s st m op odd Hinv Hrep Hc) as (s1 & E & Hinv1 & Hrep1 & Hi & _).
  cbn [handle_all]. unfold mbind, M_bind. rewrite E. apply (IH ops' s1 (kv_step op st)); [done..|].
  eapply Forall2_impl; [exact Hm|]. intros m' op' [??]. split; [done|by rewrite Hi].
Qed.

Lemma handle_all_snoc l m s :
  handle_all (l ++ [m]) s =
  match handle_all l s with Ok (_, s') => GetCommandFromRaft m.1 m.2 s' | Fail f => Fail f end.
Proof.
  revert s. induction l as [|[x odd] l IH]; intros s; destruct m as [x' odd']; simpl.
  - unfold mbind, M_bind. destruct (GetCommandFromRaft x' odd' s) as [[[] ?]|]; done.
  - unfold mbind, M_bind. destruct (GetCommandFromRaft x odd s) as [[[] s']|]; [apply IH|done].
Qed.

(** Reading and replacing the table of the last requests. *)
Lemma ExecuteGet_Ok s st op :
  kv_rep s st →
  ExecuteGetOpOnKVDB op s = Ok (match kv_map st !! Key op with Some v => (v, true) | None => ("", false) end,
    set_lastRequestId (<[ClientId op := RequestId op]> (m_lastRequestId s)) s).
Proof.
  intros [Hr Hl]. unfold ExecuteGetOpOnKVDB, mbind, M_bind, on_store.
  rewrite (st_search_Ok _ _ (Key op) Hr). unfold modify, mret, M_ret. by destruct s.
Qed.

Lemma timeOutPop_Ok s c q timeout :
  chans s !! c = Some q → (timeout = false → q ≠ []) →
  timeOutPop c timeout s =
  if timeout then Ok (None, s)
  else Ok (head q, set_chans (<[c := tail q]> (chans s)) s).
Proof.
  intros Hq Hne. unfold timeOutPop, mbind, M_bind, gets. cbn [id]. rewrite Hq.
  destruct timeout; [done|]. destruct q as [|op q]; [by destruct Hne|done].
Qed.

Lemma erase_channel_Ok s i c :
  waitApplyCh s !! i = Some c → is_Some (chans s !! c) →
  erase_channel i s = Ok (tt, set_chans (delete c (chans s)) (set_waitApplyCh (delete i (waitApplyCh s)) s)).
Proof.
  intros Hw [q Hq]. unfold erase_channel, mbind, M_bind, gets, modify. cbn [id]. rewrite Hw. simpl. by rewrite Hq.
Qed.

Lemma PutAppend_end_Ok s args i c q timeout :
  waitApplyCh s !! i = Some c → chans s !! c = Some q → (timeout = false → q ≠ []) →
  ∃ s', PutAppend_end args i c timeout s = Ok (mkPutAppendReply
      (if if timeout then ifRequestDuplicate (pa_clientid args) (pa_requestid args) s
          else match head q with Some op => same_request op (PutAppend_op args) | None => false end
       then OK else ErrWrongLeader), s') ∧
    waitApplyCh s' = delete i (waitApplyCh s) ∧ chans s' = delete c (chans s) ∧
    m_skipList s' = m_skipList s ∧ m_lastRequestId s' = m_lastRequestId s ∧ m_raftNode s' = m_raftNode s.
Proof.
  intros Hw Hq Hne. unfold PutAppend_end, mbind at 1, M_bind at 1. rewrite (timeOutPop_Ok s c q timeout Hq Hne).
  destruct timeout.
  - unfold mbind, M_bind, gets, mret, M_ret. cbn [id].
    rewrite (erase_channel_Ok s i c) by (done || by rewrite Hq). by eexists.
  - destruct q as [|op q]; [by destruct Hne|]. cbn [head]. unfold mbind, M_bind, mret, M_ret.
    rewrite (erase_channel_Ok _ i c); [|done|]; simpl; [|by rewrite lookup_insert_eq].
    eexists. split; [done|]. simpl. split_and!; try done. apply map_eq. intros x.
    destruct (decide (x = c)) as [->|]; [by rewrite !lookup_delete_eq|].
    by rewrite !lookup_delete_ne, lookup_insert_ne.
Qed.

End lemmas.

(** ** The state machine *)

Lemma kv_last_mono op st c r :
  kv_last st !! c = Some r → ∃ r', kv_last (kv_step op st) !! c = Some r' ∧ r <= r'.
Proof.
  intros Hr. unfold kv_step, duplicate. destruct (decide (c = ClientId op)) as [->|Hne].
  - rewrite Hr. destruct (Z.leb_spec (RequestId op) r); simpl; [eauto with lia|].
    destruct (is_write op); simpl; [|eauto with lia]. exists (RequestId op). rewrite lookup_insert_eq. split; [done|lia].
  - destruct (_ || _); simpl; [eauto with lia|]. rewrite lookup_insert_ne by done. eauto with lia.
Qed.

Lemma kv_run_mono ops st c r :
  kv_last st !! c = Some r → ∃ r', kv_last (kv_run ops st) !! c = Some r' ∧ r <= r'.
Proof.
  revert st r. induction ops as [|op ops IH]; intros st r Hr; simpl; [by exists r|].
  destruct (kv_last_mono op st c r Hr) as (r1 & H1 & ?). destruct (IH _ _ H1) as (r2 & ? & ?). exists r2. split; [done|lia].
Qed.

Lemma kv_step_recorded op st :
  is_write op = true → ∃ r, kv_last (kv_step op st) !! ClientId op = Some r ∧ RequestId op <= r.
Proof.
  intros Hw. unfold kv_step. rewrite Hw, orb_false_r. destruct (duplicate op st) eqn:E; simpl.
  - unfold duplicate in E. destruct (kv_last st !! ClientId op) as [r|]; [|done]. exists r. split; [done|by apply Z.leb_le].
  - exists (RequestId op). rewrite lookup_insert_eq. split; [done|lia].
Qed.

Lemma kv_step_duplicate op st r :
  kv_last st !! ClientId op = Some r → RequestId op <= r → kv_step op st = st.
Proof. intros Hr Hle. unfold kv_step, duplicate. rewrite Hr. by rewrite (proj2 (Z.leb_le _ _)). Qed.

(** ** A concrete server *)

Definition request_out (p : string * Z) : string := put_string p.1 (put_Z p.2 "").

Definition request_in (s : string) : option (string * Z) :=
  '(k, s') ← get_string s; '(z, _) ← get_Z s'; Some (k, z).

#[export] Instance text_kv_archive : KvArchive := {
  kv_out d m := put_string d (put_list (map request_out (map_to_list m)) "");
  kv_in s :=
    '(d, s') ← get_string s;
    l ← get_list (String.length s') s';
    kvs ← mapM request_in l;
    Some (d, list_to_map kvs)
}.

Lemma request_in_out p : request_in (request_out p) = Some p.
Proof. unfold request_in, request_out. rewrite get_put_string. simpl. rewrite get_put_Z. by destruct p. Qed.

#[export] Instance text_kv_archive_laws : KvArchiveLaws.
Proof.
  split.
  - intros d m. simpl. rewrite get_put_string. simpl. rewrite get_put_list by done. simpl.
    assert (mapM request_in (map request_out (map_to_list m)) = Some (map_to_list m)) as ->.
    { apply mapM_Some, Forall2_fmap_l, Forall_Forall2_diag, Forall_true. intros p. apply request_in_out. }
    simpl. by rewrite list_to_map_to_list.
  - intros d m. by destruct d.
Qed.

Definition sample_server : KvServer Persister (SkipList string string) :=
  mkKvServer (start_node 1 0) (-1) (new_SkipList 6) ∅ ∅ ∅ 0.

Lemma sample_server_inv : kv_inv sample_server.
Proof.
  split; simpl; [|by eexists|by intros i c].
  constructor; simpl; try done; try lia.
Qed.

Lemma sample_server_rep : kv_rep sample_server (mkKvState ∅ ∅).
Proof. split; [|done]. exists []. split; [apply new_inv|done]. Qed.

Definition command_of (op : Op) (i : Z) : ApplyMsg := command_msg (mkLogEntry (Op_asString op) 1 i) i.

Lemma carries_command (s : KvServer Persister (SkipList string string)) op i :
  m_lastSnapShotRaftLogIndex s < i → carries s (command_of op i) op.
Proof. intros Hi. split; [|done]. apply Op_parse_asString. Qed.

Definition put_b : Op := mkOp "Put" "b" "1" "client" 1.
Definition append_b : Op := mkOp "Append" "b" "2" "client" 2.

(** ** Properties *)

(** (C6) The server implements the replicated state machine: handling a
    sequence of command messages, with whatever snapshots it takes on the way,
    always ends normally, and leaves in the store and in the table of requests
    exactly the state that [kv_step] reaches on the commands in order: a
    command whose client already had a request of that number or a later one
    executed is skipped, Put and Append set the key, Get does nothing. *)
Theorem server_refines_state_machine {P T : Type} `{PersisterLaws P} `{RaftArchive} `{KVStoreLaws T} `{KvArchive}
  (s : KvServer P T) (st : kv_state) (msgs : list (ApplyMsg * nat)) (ops : list Op)
  (Hinv : kv_inv s) (Hrep : kv_rep s st)
  (Hmsgs : Forall2 (λ (m : ApplyMsg * nat) op, carries s m.1 op) msgs ops) :
  ∃ s', handle_all msgs s = Ok (tt, s') ∧ kv_inv s' ∧ kv_rep s' (fold_left (λ st op, kv_step op st) ops st).
Proof. by apply handle_all_Ok. Qed.

Lemma server_refines_state_machine_witness :
  ∃ s', handle_all [(command_of put_b 1, 1%nat); (command_of append_b 2, 0%nat); (command_of put_b 3, 2%nat)] sample_server
          = Ok (tt, s') ∧ kv_rep s' (mkKvState {["b" := "2"]} {["client" := 2]}).
Proof.
  destruct (@server_refines_state_machine Persister (SkipList string string) _ (Persister_laws eager) _ _ _ _
     sample_server (mkKvState ∅ ∅)
     [(command_of put_b 1, 1%nat); (command_of append_b 2, 0%nat); (command_of put_b 3, 2%nat)] [put_b; append_b; put_b])
    as (s' & E & _ & Hr).
  - apply sample_server_inv.
  - apply sample_server_rep.
  - repeat constructor; apply carries_command; done.
  - exists s'. split; [exact E|exact Hr].
Defined.

(** A write is executed at most once per client and request number: once
    a Put or Append of a client was handled, any later command of that client
    with the same or a smaller number leaves the data and the table unchanged,
    whatever was handled in between. *)
Theorem duplicate_request_ignored {P T : Type} `{PersisterLaws P} `{RaftArchive} `{KVStoreLaws T} `{KvArchive}
  (s : KvServer P T) (st : kv_state) (m m' : ApplyMsg * nat) (mid : list (ApplyMsg * nat)) (op op' : Op) (ops : list Op)
  (Hinv : kv_inv s) (Hrep : kv_rep s st)
  (Hm : carries s m.1 op) (Hmid : Forall2 (λ (m : ApplyMsg * nat) op, carries s m.1 op) mid ops) (Hm' : carries s m'.1 op')
  (Hw : is_write op = true) (Hc : ClientId op' = ClientId op) (Hr : RequestId op' <= RequestId op) :
  ∃ s1 s2 st1, handle_all (m :: mid) s = Ok (tt, s1) ∧ GetCommandFromRaft m'.1 m'.2 s1 = Ok (tt, s2) ∧
    kv_rep s1 st1 ∧ kv_rep s2 st1.
Proof.
  destruct (handle_all_Ok s st (m :: mid) (op :: ops) Hinv Hrep) as (s1 & E1 & Hinv1 & Hrep1); [by constructor|].
  destruct (handle_all_Ok s st (m :: mid ++ [m']) (op :: ops ++ [op']) Hinv Hrep) as (s2 & E2 & _ & Hrep2).
  { constructor; [done|]. apply Forall2_app; [done|]. constructor; [done|constructor]. }
  rewrite (app_comm_cons mid), handle_all_snoc, E1 in E2.
  exists s1, s2, (kv_run (op :: ops) st). split_and!; [done..|].
  unfold kv_run in Hrep2. rewrite app_comm_cons, fold_left_app in Hrep2. simpl in Hrep2.
  destruct (kv_step_recorded op st Hw) as (r & Hr1 & Hle).
  destruct (kv_run_mono ops _ _ _ Hr1) as (r2 & Hr2 & Hle2).
  rewrite (kv_step_duplicate op' _ r2) in Hrep2; [done|by rewrite Hc|lia].
Qed.

Lemma duplicate_request_ignored_witness :
  ∃ s1 s2 st1, handle_all [(command_of put_b 1, 1%nat)] sample_server = Ok (tt, s1) ∧
    GetCommandFromRaft (command_of put_b 2) 0 s1 = Ok (tt, s2) ∧ kv_rep s1 st1 ∧ kv_rep s2 st1.
Proof.
  apply (@duplicate_request_ignored Persister (SkipList string string) _ (Persister_laws eager) _ _ _ _
    sample_server (mkKvState ∅ ∅) (command_of put_b 1, 1%nat) (command_of put_b 2, 0%nat) [] put_b put_b []);
    [apply sample_server_inv|apply sample_server_rep|by apply carries_command|constructor|by apply carries_command|done..].
Defined.

(** Append does not append: a fresh Append to a key that holds [old]
    leaves the new value alone under the key. *)
Theorem Append_overwrites {P T : Type} `{PersisterLaws P} `{RaftArchive} `{KVStoreLaws T} `{KvArchive}
  (s : KvServer P T) (st : kv_state) (m : ApplyMsg) (odd : nat) (op : Op) (old : string)
  (Hinv : kv_inv s) (Hrep : kv_rep s st) (Hm : carries s m op)
  (Hop : Operation op = "Append") (Hdup : duplicate op st = false) (Hold : kv_map st !! Key op = Some old) :
  ∃ s', GetCommandFromRaft m odd s = Ok (tt, s') ∧
    st_search (Key op) (m_skipList s') = Ok (Some (Value op), m_skipList s').
Proof.
  destruct (GetCommandFromRaft_Ok s st m op odd Hinv Hrep Hm) as (s' & E & _ & [Hr _] & _).
  exists s'. split; [done|]. rewrite (st_search_Ok _ _ (Key op) Hr).
  unfold kv_step, is_write. rewrite Hdup, Hop. simpl. by rewrite lookup_insert_eq.
Qed.

Lemma Append_overwrites_witness :
  ∃ s1 s', handle_all [(command_of put_b 1, 1%nat)] sample_server = Ok (tt, s1) ∧
    GetCommandFromRaft (command_of append_b 2) 0 s1 = Ok (tt, s') ∧
    st_search "b" (m_skipList s') = Ok (Some "2", m_skipList s').
Proof.
  pose proof (@handle_all_Ok Persister (SkipList string string) _ (Persister_laws eager) _ _ _ _
     sample_server (mkKvState ∅ ∅) [(command_of put_b 1, 1%nat)] [put_b]) as Hall.
  destruct Hall as (s1 & E1 & Hinv1 & Hrep1);
    [apply sample_server_inv|apply sample_server_rep|by repeat constructor; apply carries_command|].
  assert (Hi : m_lastSnapShotRaftLogIndex s1 = 0) by (vm_compute in E1; by injection E1 as <-).
  destruct (@Append_overwrites Persister (SkipList string string) _ (Persister_laws eager) _ _ _ _
     s1 _ (command_of append_b 2) 0 append_b "1" Hinv1 Hrep1) as (s' & E & Hs);
    [by apply carries_command; rewrite Hi|done|done|reflexivity|].
  exists s1, s'. split_and!; [exact E1|exact E|exact Hs].
Defined.

(** Installing a snapshot of one server on another takes over the table
    of requests, but not the data: the keys the receiver already has keep their
    old values, keys the snapshot does not have stay, and every key that is new
    to the receiver gets itself as its value. *)
Theorem snapshot_install {P T : Type} `{PersisterOps P} `{RaftArchive} `{KVStoreLaws T} `{KvArchiveLaws}
  (s1 s2 : KvServer P T) (st1 st2 : kv_state) (term index : Z) (odd : nat → nat)
  (Hrep1 : kv_rep s1 st1) (Hrep2 : kv_rep s2 st2) :
  ∃ snap s1' s2' st, MakeSnapShot s1 = Ok (snap, s1') ∧ kv_rep s1' st1 ∧
    GetSnapShotFromRaft (mkApplyMsg false "" (-1) true snap term index) odd s2 = Ok (tt, s2') ∧
    m_lastSnapShotRaftLogIndex s2' = index ∧ kv_rep s2' st ∧ kv_last st = kv_last st1 ∧
    ∀ k, kv_map st !! k = match kv_map st2 !! k, kv_map st1 !! k with
                          | Some v, _ => Some v
                          | None, Some _ => Some k
                          | None, None => None
                          end.
Proof.
  destruct Hrep1 as [Hr1 Hl1], Hrep2 as [Hr2 Hl2].
  destruct (st_dump_Ok _ _ Hr1) as (str & ks & Hd & Hks & Hk).
  destruct (st_load_Ok (m_skipList s2) (kv_map st2) str ks odd Hr2 Hks) as (t2 & Hload & Hrt2).
  eexists (kv_out str (m_lastRequestId s1)), s1, _, (mkKvState (kv_map st2 ∪ self_map ks) (kv_last st1)).
  split_and!.
  - unfold MakeSnapShot, getSnapshotData, mbind, M_bind, on_store, gets. cbn [id]. rewrite Hd. by destruct s1.
  - by split.
  - unfold GetSnapShotFromRaft, CondInstallSnapshot. cbn [Snapshot_data].
    unfold ReadSnapShotToInstall, parseFromString. rewrite decide_False by apply kv_out_nonempty.
    rewrite kv_in_out. unfold mbind, M_bind, modify, on_store. simpl. rewrite Hload. done.
  - done.
  - split; simpl; [done|by rewrite Hl1].
  - done.
  - intros k. cbn [kv_map]. rewrite lookup_union, lookup_self_map. specialize (Hk k).
    destruct (kv_map st2 !! k); simpl; [by destruct (decide _)|].
    case_decide as D; simpl; [apply Hk in D as [v ->]; done|].
    destruct (kv_map st1 !! k); [destruct D; apply Hk; by eexists|done].
Qed.

Lemma snapshot_install_witness :
  ∃ s1 snap s1' s2' st, handle_all [(command_of put_b 1, 1%nat)] sample_server = Ok (tt, s1) ∧
    MakeSnapShot s1 = Ok (snap, s1') ∧
    GetSnapShotFromRaft (mkApplyMsg false "" (-1) true snap 1 1) (λ _, 0%nat) sample_server = Ok (tt, s2') ∧
    kv_rep s2' st ∧ kv_map st !! "b" = Some "b".
Proof.
  destruct (@handle_all_Ok Persister (SkipList string string) _ (Persister_laws eager) _ _ _ _
     sample_server (mkKvState ∅ ∅) [(command_of put_b 1, 1%nat)] [put_b]) as (s1 & E1 & _ & Hrep1);
    [apply sample_server_inv|apply sample_server_rep|by repeat constructor; apply carries_command|].
  destruct (snapshot_install s1 sample_server _ (mkKvState ∅ ∅) 1 1 (λ _, 0%nat) Hrep1 sample_server_rep)
    as (snap & s1' & s2' & st & Hm & _ & Hg & _ & Hr & _ & Hk).
  exists s1, snap, s1', s2', st. split_and!; [exact E1|exact Hm|exact Hg|exact Hr|by rewrite Hk].
Defined.

(** Executing a Get can undo the protection against duplicates:
    [ExecuteGetOpOnKVDB] sets the client's entry of the table to the number of
    the Get even when it is smaller, so that a write of the client with a number
    in between, already executed, is executed again when it comes a second time. *)
Theorem get_reopens_duplicates {P T : Type} `{PersisterLaws P} `{RaftArchive} `{KVStoreLaws T} `{KvArchive}
  (s : KvServer P T) (st : kv_state) (get w : Op) (m : ApplyMsg) (odd : nat) (last : Z)
  (Hinv : kv_inv s) (Hrep : kv_rep s st) (Hm : carries s m w) (Hw : is_write w = true)
  (Hc : ClientId w = ClientId get) (Hlast : kv_last st !! ClientId w = Some last)
  (Hdone : RequestId w <= last) (Hget : RequestId get < RequestId w) :
  (∃ s0, GetCommandFromRaft m odd s = Ok (tt, s0) ∧ kv_rep s0 st) ∧
  ∃ v s1 s2, ExecuteGetOpOnKVDB get s = Ok (v, s1) ∧ GetCommandFromRaft m odd s1 = Ok (tt, s2) ∧
    kv_rep s2 (mkKvState (<[Key w := Value w]> (kv_map st)) (<[ClientId w := RequestId w]> (kv_last st))).
Proof.
  split.
  - destruct (GetCommandFromRaft_Ok s st m w odd Hinv Hrep Hm) as (s0 & E & _ & Hr & _).
    rewrite (kv_step_duplicate w st last) in Hr by done. eauto.
  - pose proof (ExecuteGet_Ok s st get Hrep) as Hg. destruct Hrep as [Hr Hl].
    set (s1 := set_lastRequestId (<[ClientId get := RequestId get]> (m_lastRequestId s)) s) in *.
    set (st1 := mkKvState (kv_map st) (<[ClientId get := RequestId get]> (kv_last st))).
    assert (Hinv1 : kv_inv s1) by by destruct Hinv; split.
    assert (Hrep1 : kv_rep s1 st1) by (split; simpl; [done|by rewrite Hl]).
    destruct (GetCommandFromRaft_Ok s1 st1 m w odd Hinv1 Hrep1 Hm) as (s2 & E & _ & Hr2 & _).
    eexists _, s1, s2. split; [exact Hg|]. split; [exact E|].
    unfold kv_step, duplicate in Hr2. simpl in Hr2. rewrite Hc, lookup_insert_eq in Hr2.
    rewrite (proj2 (Z.leb_gt _ _)), Hw in Hr2 by done. simpl in Hr2. rewrite insert_insert_eq in Hr2. by rewrite Hc.
Qed.

Definition get_b : Op := mkOp "Get" "b" "" "client" 1.

Lemma get_reopens_duplicates_witness :
  ∃ s s1 s2 v, handle_all [(command_of append_b 1, 1%nat)] sample_server = Ok (tt, s) ∧
    ExecuteGetOpOnKVDB get_b s = Ok (v, s1) ∧ GetCommandFromRaft (command_of append_b 2) 0 s1 = Ok (tt, s2).
Proof.
  destruct (@handle_all_Ok Persister (SkipList string string) _ (Persister_laws eager) _ _ _ _
     sample_server (mkKvState ∅ ∅) [(command_of append_b 1, 1%nat)] [append_b]) as (s & E & Hinv & Hrep);
    [apply sample_server_inv|apply sample_server_rep|by repeat constructor; apply carries_command|].
  assert (Hi : m_lastSnapShotRaftLogIndex s = 0) by (vm_compute in E; by injection E as <-).
  destruct (@get_reopens_duplicates Persister (SkipList string string) _ (Persister_laws eager) _ _ _ _
     s _ get_b append_b (command_of append_b 2) 0 2 Hinv Hrep) as [_ (v & s1 & s2 & Hg & Hr & _)];
    [by apply carries_command; rewrite Hi|done|done|reflexivity|done|done|].
  exists s, s1, s2, v. split_and!; [exact E|exact Hg|exact Hr].
Defined.

(** A PutAppend handler whose channel is alive always ends normally, and
    removes and frees its channel.  It answers OK only when the operation it
    took from the channel is its own request, or, after a timeout, when the
    client already had a request of that number or a later one executed. *)
Theorem PutAppend_end_spec {P T : Type} `{PersisterOps P} `{RaftArchive} `{KVStore T} `{KvArchive}
  (s : KvServer P T) (args : PutAppendArgs) (i : Z) (c : positive) (q : list Op) (timeout : bool)
  (Hw : waitApplyCh s !! i = Some c) (Hq : chans s !! c = Some q) (Hne : timeout = false → q ≠ []) :
  ∃ reply s', PutAppend_end args i c timeout s = Ok (reply, s') ∧
    waitApplyCh s' = delete i (waitApplyCh s) ∧ chans s' = delete c (chans s) ∧
    m_skipList s' = m_skipList s ∧
    (pr_err reply = OK ↔
      if timeout then ifRequestDuplicate (pa_clientid args) (pa_requestid args) s = true
      else ∃ op q', q = op :: q' ∧ ClientId op = pa_clientid args ∧ RequestId op = pa_requestid args).
Proof.
  destruct (PutAppend_end_Ok s args i c q timeout Hw Hq Hne) as (s' & E & Hw' & Hc' & Hs' & _).
  eexists _, s'. split; [exact E|]. split_and!; [done..|]. cbn [pr_err].
  destruct timeout; [by destruct (ifRequestDuplicate _ _ _)|].
  destruct q as [|op q]; simpl; [naive_solver|]. unfold same_request. simpl.
  destruct (String.eqb_spec (ClientId op) (pa_clientid args)), (Z.eqb_spec (RequestId op) (pa_requestid args));
    simpl; naive_solver.
Qed.

Definition put_args : PutAppendArgs := mkPutAppendArgs "b" "1" "Put" "client" 1.

Definition waiting_server : KvServer Persister (SkipList string string) :=
  set_chans {[ 1%positive := [put_b] ]} (set_waitApplyCh {[ 1 := 1%positive ]} sample_server).

Lemma PutAppend_end_spec_witness :
  ∃ reply s', PutAppend_end put_args 1 1 false waiting_server = Ok (reply, s') ∧ pr_err reply = OK.
Proof.
  destruct (PutAppend_end_spec waiting_server put_args 1 1 [put_b] false) as (reply & s' & E & _ & _ & _ & Hok);
    [reflexivity|reflexivity|done|].
  exists reply, s'. split; [exact E|]. apply Hok. by exists put_b, [].
Defined.

(** Two handlers that wait for the same index share one channel, and the
    first to end deletes it: the second then uses a deleted queue. *)
Theorem shared_channel_dangling {P T : Type} `{PersisterOps P} `{RaftArchive} `{KVStore T} `{KvArchive}
  (s : KvServer P T) (a b : PutAppendArgs) (i : Z) (Hfree : waitApplyCh s !! i = None) :
  ∃ c s1 s2 reply, wait_channel i s = Ok (c, s1) ∧ wait_channel i s1 = Ok (c, s1) ∧
    PutAppend_end a i c true s1 = Ok (reply, s2) ∧
    ∀ timeout, PutAppend_end b i c timeout s2 = Fail BadPointer.
Proof.
  set (c := base.fresh (dom (chans s))).
  set (s1 := set_waitApplyCh (<[i := c]> (waitApplyCh s)) (set_chans (<[c := []]> (chans s)) s)).
  destruct (PutAppend_end_Ok s1 a i c [] true) as (s2 & E & _ & Hc & _);
    [apply lookup_insert_eq|apply lookup_insert_eq|done|].
  exists c, s1, s2. eexists. split_and!; [| |exact E|].
  - unfold wait_channel, mbind, M_bind, gets. cbn [id]. by rewrite Hfree.
  - unfold wait_channel, mbind, M_bind, gets. cbn [id]. simpl. by rewrite lookup_insert_eq.
  - intros timeout. unfold PutAppend_end, timeOutPop, mbind, M_bind, gets. cbn [id].
    by rewrite Hc, lookup_delete_eq.
Qed.

Lemma shared_channel_dangling_witness :
  ∃ c s1 s2 reply, wait_channel 1 sample_server = Ok (c, s1) ∧
    PutAppend_end put_args 1 c true s1 = Ok (reply, s2) ∧
    PutAppend_end put_args 1 c true s2 = Fail BadPointer.
Proof.
  destruct (shared_channel_dangling sample_server put_args put_args 1) as (c & s1 & s2 & reply & H1 & _ & H2 & H3);
    [reflexivity|].
  exists c, s1, s2, reply. split_and!; [exact H1|exact H2|apply H3].
Defined.
