(* ===== verification/Clerk.v ===== *)
(** * Clerk: the client of the key/value service ([raft/raftClerk/clerk.cpp])

    A clerk sends each request to the server it last found to be the leader and
    goes round the servers until one answers.  The network and the servers are
    an arbitrary state [W] with one function per remote procedure: it returns
    the reply, or [None] when the call fails.  The [while(true)] loops take
    fuel; the theorems show how much is enough. *)

From S2P Require Import Prelude.
From S2P Require Import RaftTypes.
From S2P Require Import KvServer.

Record Clerk := mkClerk {
  m_servers : nat;
  m_clientId : string;
  m_requestId : Z;
  m_recentLeaderId : nat
}.

Section clerk.
Context {W : Type}.
Context (rpc_Get : nat → GetArgs → W → option GetReply * W).
Context (rpc_PutAppend : nat → PutAppendArgs → W → option PutAppendReply * W).
Abbreviation MC A := (M (Clerk * W) A).

(** The constructor and [Init] with [n] servers; [Uuid()] is an argument. *)
Definition new_Clerk (uuid : string) (n : nat) : Clerk := mkClerk n uuid 0 0.

Definition next_request : MC Z :=
  modify (λ cw : Clerk * W,
    (mkClerk (m_servers cw.1) (m_clientId cw.1) (m_requestId cw.1 + 1) (m_recentLeaderId cw.1), cw.2)) ;;
  gets (λ cw, m_requestId cw.1).

Definition set_recentLeader (server : nat) : MC unit :=
  modify (λ cw : Clerk * W,
    (mkClerk (m_servers cw.1) (m_clientId cw.1) (m_requestId cw.1) server, cw.2)).

(** [m_servers[server]->f(args)] *)
Definition call_server {A R} (rpc : nat → A → W → option R * W) (server : nat) (args : A) : MC (option R) := λ cw,
  if (server <? m_servers cw.1)%nat then
    let '(r, w) := rpc server args cw.2 in Ok (r, (cw.1, w))
  else Fail BadIndex.

(** [server = (server + 1) % m_servers.size()] *)
Definition next_server (server : nat) : MC nat :=
  gets (λ cw, ((server + 1) mod m_servers cw.1)%nat).

Fixpoint Get_loop (fuel : nat) (args : GetArgs) (server : nat) : MC string :=
  match fuel with
  | O => fail NoFuel
  | S fuel' =>
      r ← call_server rpc_Get server args;
      match r with
      | None => s ← next_server server; Get_loop fuel' args s
      | Some reply =>
          if String.eqb (gr_err reply) ErrWrongLeader then s ← next_server server; Get_loop fuel' args s
          else if String.eqb (gr_err reply) ErrNoKey then mret ""
          else if String.eqb (gr_err reply) OK then set_recentLeader server ;; mret (gr_value reply)
          else Get_loop fuel' args server
      end
  end.

Definition Get (fuel : nat) (key : string) : MC string :=
  requestId ← next_request;
  cw ← gets id;
  Get_loop fuel (mkGetArgs key (m_clientId cw.1) requestId) (m_recentLeaderId cw.1).

Fixpoint PutAppend_loop (fuel : nat) (args : PutAppendArgs) (server : nat) : MC unit :=
  match fuel with
  | O => fail NoFuel
  | S fuel' =>
      r ← call_server rpc_PutAppend server args;
      match r with
      | None => s ← next_server server; PutAppend_loop fuel' args s
      | Some reply =>
          if String.eqb (pr_err reply) ErrWrongLeader then s ← next_server server; PutAppend_loop fuel' args s
          else if String.eqb (pr_err reply) OK then set_recentLeader server
          else PutAppend_loop fuel' args server
      end
  end.

Definition PutAppend (fuel : nat) (key value op : string) : MC unit :=
  requestId ← next_request;
  cw ← gets id;
  PutAppend_loop fuel (mkPutAppendArgs key value op (m_clientId cw.1) requestId) (m_recentLeaderId cw.1).

Definition Put (fuel : nat) (key value : string) : MC unit := PutAppend fuel key value "Put".
Definition Append (fuel : nat) (key value : string) : MC unit := PutAppend fuel key value "Append".
End clerk.
