(* ===== verification/ClerkProps.v ===== *)
(** * ClerkProps: the clerk's retries and the server's answers

    [clerk_finds_leader] is the liveness of the clerk's loop.  [server_answers]
    is about the server it talks to, its threads interleaved in every way
    ([serve]): what the answers given mean, and when a write is executed
    exactly once.  The clerk's write ends only with such an answer OK
    ([put_answered]). *)

From S2P Require Import Prelude.
From S2P Require Import RaftTypes.
From S2P Require Import SkipList.
From S2P Require Import SkipListProps.
From S2P Require Import Persister.
From S2P Require Import Raft.
From S2P Require Import Fields.
From S2P Require Import RaftConcrete.
From S2P Require Import KvServer.
From S2P Require Import KvProps.
From S2P Require Import Clerk.

(** ** The loop goes round the servers *)

(** The number of servers between the first one tried and the leader. *)
Definition distance (n from to : nat) : nat := ((to + n - from) mod n)%nat.

Section liveness.
Context {W : Type}.
Context (rpc_Get : nat → GetArgs → W → option GetReply * W).
Context (rpc_PutAppend : nat → PutAppendArgs → W → option PutAppendReply * W).

Definition refuses_put (server : nat) : Prop := ∀ args w,
  (rpc_PutAppend server args w).1 = None ∨
  (rpc_PutAppend server args w).1 = Some (mkPutAppendReply ErrWrongLeader).

Definition accepts_put (server : nat) : Prop := ∀ args w,
  (rpc_PutAppend server args w).1 = Some (mkPutAppendReply OK).

Definition refuses_get (server : nat) : Prop := ∀ args w,
  (rpc_Get server args w).1 = None ∨
  ∃ v, (rpc_Get server args w).1 = Some (mkGetReply ErrWrongLeader v).

Definition accepts_get (server : nat) : Prop := ∀ args w,
  ∃ v, (rpc_Get server args w).1 = Some (mkGetReply OK v).

Lemma distance_0 n from to : (from < n)%nat → (to < n)%nat → distance n from to = 0%nat → from = to.
Proof.
  unfold distance. intros Hf Ht. destruct (Nat.le_gt_cases from to).
  - replace (to + n - from)%nat with (to - from + 1 * n)%nat by lia.
    rewrite Nat.Div0.mod_add, Nat.mod_small by lia. lia.
  - rewrite Nat.mod_small by lia. lia.
Qed.

Lemma distance_next n from to k :
  (from < n)%nat → (to < n)%nat → distance n from to = S k →
  distance n ((from + 1) mod n) to = k ∧ from ≠ to ∧ ((from + 1) mod n < n)%nat.
Proof.
  intros Hf Ht Hd. assert (Hne : from ≠ to).
  { intros ->. unfold distance in Hd. replace (to + n - to)%nat with n in Hd by lia.
    by rewrite Nat.Div0.mod_same in Hd. }
  split_and!; [|done|apply Nat.mod_upper_bound; lia].
  unfold distance in *. destruct (decide (from + 1 = n)%nat) as [E|E].
  - rewrite E, Nat.Div0.mod_same. replace (to + n - 0)%nat with (to + 1 * n)%nat by lia.
    rewrite Nat.Div0.mod_add, Nat.mod_small by lia.
    rewrite Nat.mod_small in Hd by lia. lia.
  - rewrite (Nat.mod_small (from + 1)) by lia. destruct (Nat.le_gt_cases from to).
    + replace (to + n - from)%nat with (to - from + 1 * n)%nat in Hd by lia.
      rewrite Nat.Div0.mod_add, Nat.mod_small in Hd by lia.
      replace (to + n - (from + 1))%nat with (to - (from + 1) + 1 * n)%nat by lia.
      rewrite Nat.Div0.mod_add, Nat.mod_small by lia. lia.
    + rewrite Nat.mod_small in Hd |- * by lia. lia.
Qed.

Lemma put_reaches fuel args server leader (c : Clerk) (w : W) :
  accepts_put leader → (∀ s, s ≠ leader → refuses_put s) →
  (leader < m_servers c)%nat → (server < m_servers c)%nat →
  (distance (m_servers c) server leader < fuel)%nat →
  ∃ w', PutAppend_loop rpc_PutAppend fuel args server (c, w)
        = Ok (tt, (mkClerk (m_servers c) (m_clientId c) (m_requestId c) leader, w')).
Proof.
  intros Hacc Href Hl. revert server w. induction fuel as [|fuel IH]; intros server w Hs Hd; [lia|].
  cbn [PutAppend_loop]. unfold mbind at 1, M_bind at 1, call_server at 1. simpl.
  destruct (Nat.ltb_spec server (m_servers c)); [|lia].
  destruct (rpc_PutAppend server args w) as [r w'] eqn:E.
  destruct (distance (m_servers c) server leader) as [|k] eqn:Hk.
  - apply distance_0 in Hk as ->; [|done|done]. specialize (Hacc args w). rewrite E in Hacc.
    simpl in Hacc. subst r. by exists w'.
  - apply distance_next in Hk as (Hk & Hne & Hlt); [|done|done].
    destruct (IH ((server + 1) mod m_servers c)%nat w') as (w2 & E2); [done|lia|].
    exists w2. destruct (Href server Hne args w) as [Hr|Hr]; rewrite E in Hr; simpl in Hr; subst r; exact E2.
Qed.

Lemma get_reaches fuel args server leader (c : Clerk) (w : W) :
  accepts_get leader → (∀ s, s ≠ leader → refuses_get s) →
  (leader < m_servers c)%nat → (server < m_servers c)%nat →
  (distance (m_servers c) server leader < fuel)%nat →
  ∃ v w0 w', rpc_Get leader args w0 = (Some (mkGetReply OK v), w') ∧
    Get_loop rpc_Get fuel args server (c, w)
    = Ok (v, (mkClerk (m_servers c) (m_clientId c) (m_requestId c) leader, w')).
Proof.
  intros Hacc Href Hl. revert server w. induction fuel as [|fuel IH]; intros server w Hs Hd; [lia|].
  cbn [Get_loop]. unfold mbind at 1, M_bind at 1, call_server at 1. simpl.
  destruct (Nat.ltb_spec server (m_servers c)); [|lia].
  destruct (rpc_Get server args w) as [r w'] eqn:E.
  destruct (distance (m_servers c) server leader) as [|k] eqn:Hk.
  - apply distance_0 in Hk as ->; [|done|done]. destruct (Hacc args w) as [v Hv]. rewrite E in Hv.
    simpl in Hv. subst r. by exists v, w, w'.
  - apply distance_next in Hk as (Hk & Hne & Hlt); [|done|done].
    destruct (IH ((server + 1) mod m_servers c)%nat w') as (v & w0 & w2 & E2 & E3); [done|lia|].
    exists v, w0, w2. split; [done|].
    destruct (Href server Hne args w) as [Hr|[v' Hr]]; rewrite E in Hr; simpl in Hr; subst r; exact E3.
Qed.

(** A write returns only when a server answered it OK; that server is then the
    remembered one. *)
Lemma put_answered_loop fuel args server (c c' : Clerk) (w w' : W) :
  PutAppend_loop rpc_PutAppend fuel args server (c, w) = Ok (tt, (c', w')) →
  ∃ w0, rpc_PutAppend (m_recentLeaderId c') args w0 = (Some (mkPutAppendReply OK), w').
Proof.
  revert server w. induction fuel as [|fuel IH]; intros server w E; [done|]. cbn [PutAppend_loop] in E.
  apply bind_Ok in E as (r & [c1 w1] & Ec & E). unfold call_server in Ec. simpl in Ec.
  destruct (_ <? _)%nat; [|done]. destruct (rpc_PutAppend server args w) as [r' w2] eqn:Er. simplify_eq.
  destruct r as [[err]|]; [|by apply IH in E]. simpl in E.
  destruct (String.eqb err ErrWrongLeader); [by apply IH in E|].
  destruct (String.eqb_spec err OK) as [->|]; [|by apply IH in E].
  unfold set_recentLeader, modify in E. simplify_eq. by exists w.
Qed.

Lemma put_answered fuel key value op (c c' : Clerk) (w w' : W) :
  PutAppend rpc_PutAppend fuel key value op (c, w) = Ok (tt, (c', w')) →
  ∃ w0, rpc_PutAppend (m_recentLeaderId c') (mkPutAppendArgs key value op (m_clientId c) (m_requestId c + 1)) w0
        = (Some (mkPutAppendReply OK), w').
Proof. apply put_answered_loop. Qed.

(** (C10) The clerk finds the leader: if one server accepts and every other one
    fails or says it is not the leader, both operations return after asking
    each server at most once, starting from the one remembered, whichever that
    is, and remember the leader; Get returns the value the leader answered. *)
Theorem clerk_finds_leader (c : Clerk) (w : W) (leader fuel : nat) (key value op : string)
  (Hl : (leader < m_servers c)%nat) (Hr : (m_recentLeaderId c < m_servers c)%nat)
  (Hfuel : (m_servers c <= fuel)%nat)
  (Hput : accepts_put leader) (Hget : accepts_get leader)
  (Hrput : ∀ s, s ≠ leader → refuses_put s) (Hrget : ∀ s, s ≠ leader → refuses_get s) :
  let c' := mkClerk (m_servers c) (m_clientId c) (m_requestId c + 1) leader in
  (∃ w', PutAppend rpc_PutAppend fuel key value op (c, w) = Ok (tt, (c', w'))) ∧
  (∃ v w0 w', rpc_Get leader (mkGetArgs key (m_clientId c) (m_requestId c + 1)) w0
              = (Some (mkGetReply OK v), w') ∧
    Get rpc_Get fuel key (c, w) = Ok (v, (c', w'))).
Proof.
  intros c'. assert (Hd : (distance (m_servers c) (m_recentLeaderId c) leader < fuel)%nat).
  { unfold distance. pose proof (Nat.mod_upper_bound (leader + m_servers c - m_recentLeaderId c) (m_servers c)). lia. }
  set (c1 := mkClerk (m_servers c) (m_clientId c) (m_requestId c + 1) (m_recentLeaderId c)).
  split.
  - by apply (put_reaches fuel _ (m_recentLeaderId c) leader c1 w).
  - by apply (get_reaches fuel _ (m_recentLeaderId c) leader c1 w).
Qed.
End liveness.

(** ** What an answer of a server means *)

(** [each Q tr]: every label of the trace satisfies [Q] with those before it. *)
Definition each (Q : list label → label → Prop) (tr : list label) : Prop :=
  ∀ l1 x l2, tr = l1 ++ x :: l2 → Q l1 x.

Section answers.
Context {P T : Type} `{PersisterOps P} `{RaftArchive} `{KVStoreLaws T} `{KvArchive}.
(** The keys a dump of the store lists. *)
Context (keys : string → list string).
Context (st0 : kv_state).
Implicit Types s : KvServer P T.
Implicit Types tr : list label.

(** What a label does to the data and to the table of requests. *)
Definition label_step (x : label) (st : kv_state) : kv_state :=
  match x with
  | Applied op true =>
      mkKvState (<[Key op := Value op]> (kv_map st)) (<[ClientId op := RequestId op]> (kv_last st))
  | AnsweredGet args reply =>
      if String.eqb (gr_err reply) ErrWrongLeader then st
      else mkKvState (kv_map st) (<[ga_clientid args := ga_requestid args]> (kv_last st))
  | Installed snapshot =>
      match kv_in snapshot with
      | Some (d, last) =>
          if decide (snapshot = "") then st else mkKvState (kv_map st ∪ self_map (keys d)) last
      | None => st
      end
  | _ => st
  end.

Definition state_after tr : kv_state := fold_left (λ st x, label_step x st) tr st0.

(** The snapshots that were installed are such as a server makes. *)
Definition snapshots_ok tr : Prop := ∀ snapshot, Installed snapshot ∈ tr → snapshot ≠ "" →
  ∃ d last, kv_in snapshot = Some (d, last) ∧ st_dumps d (keys d).

(** At some time the table held [r] for the client. *)
Definition table_held tr (client : string) (r : Z) : Prop :=
  ∃ l1 l2, tr = l1 ++ l2 ∧ kv_last (state_after l1) !! client = Some r.

(** Why a label comes where it does. *)
Definition justified tr (x : label) : Prop :=
  match x with
  | Applied op true => is_write op = true
  | Applied op false => is_write op = true → ∃ r, table_held tr (ClientId op) r ∧ RequestId op <= r
  | AnsweredPut args reply => pr_err reply = OK →
      (∃ op b, Applied op b ∈ tr ∧ same_request op (PutAppend_op args) = true) ∨
      ∃ r, kv_last (state_after tr) !! pa_clientid args = Some r ∧ pa_requestid args <= r
  | AnsweredGet args reply => gr_err reply ≠ ErrWrongLeader →
      reply = match kv_map (state_after tr) !! ga_key args with
              | Some v => mkGetReply OK v
              | None => mkGetReply ErrNoKey ""
              end
  | Installed _ => True
  end.

(** The table covers the writes of the client that were executed. *)
Definition covers (client : string) tr (st : kv_state) : Prop :=
  ∀ op, Applied op true ∈ tr → ClientId op = client →
  ∃ r, kv_last st !! client = Some r ∧ RequestId op <= r.

(** No Get and no snapshot takes the client's number in the table below one
    that was executed. *)
Definition never_lowered (client : string) tr : Prop :=
  each (λ l x, match x with Applied _ _ => True | _ => covers client l (state_after (l ++ [x])) end) tr.

Definition new_number (client : string) (r : Z) tr : Prop :=
  ∀ op, Applied op true ∈ tr → ClientId op = client → RequestId op < r.

Definition increasing (client : string) tr (x : label) : Prop :=
  match x with
  | Applied op true => ClientId op = client → new_number client (RequestId op) tr
  | _ => True
  end.

(** The request is the last one of its client so far: every other command of
    the client, every Get, every number in a snapshot and in the table at the
    start is smaller. *)
Definition last_request (args : PutAppendArgs) tr : Prop :=
  (∀ r, kv_last st0 !! pa_clientid args = Some r → r < pa_requestid args) ∧
  ∀ x, x ∈ tr →
  match x with
  | Applied op _ => ClientId op = pa_clientid args → RequestId op < pa_requestid args ∨ op = PutAppend_op args
  | AnsweredGet get _ => ga_clientid get = pa_clientid args → ga_requestid get < pa_requestid args
  | Installed snapshot => ∀ d last r, kv_in snapshot = Some (d, last) →
      last !! pa_clientid args = Some r → r < pa_requestid args
  | _ => True
  end.

(** What holds of a server at work, the trace so far being [tr]. *)
Record serving_inv tr (sv : serving P T) : Prop := {
  si_rep : kv_rep (sv_server sv) (state_after tr);
  si_just : each justified tr;
  si_chans : ∀ c q op, chans (sv_server sv) !! c = Some q → op ∈ q → ∃ b, Applied op b ∈ tr;
  si_loop : match sv_loop sv with
            | Looked _ op true => ∃ r, table_held tr (ClientId op) r ∧ RequestId op <= r
            | Ran _ op | Saved _ op => ∃ b, Applied op b ∈ tr
            | _ => True
            end;
  si_calls : ∀ k a i op, sv_calls sv !! k = Some (a, Popped i (Some op)) → ∃ b, Applied op b ∈ tr;
  si_quiet : ∀ client, never_lowered client tr →
    covers client tr (state_after tr) ∧ each (increasing client) tr ∧
    ∀ m op, sv_loop sv = Looked m op false → ClientId op = client → new_number client (RequestId op) tr
}.

End answers.

(** ** Lemmas: traces *)

Lemma each_nil Q : each Q [].
Proof. intros [|? ?] x l2 [=]. Qed.

Lemma each_snoc Q tr x : each Q (tr ++ [x]) ↔ each Q tr ∧ Q tr x.
Proof.
  split.
  - intros HQ. split; [|by apply (HQ tr x [])]. intros l1 y l2 ->. apply (HQ l1 y (l2 ++ [x])).
    by rewrite <- (assoc_L (++)).
  - intros [HQ Hx] l1 y l2 E. destruct l2 as [|z l2 _] using rev_ind.
    + by apply app_inj_tail in E as [-> ->].
    + rewrite app_comm_cons, (assoc_L (++)) in E. apply app_inj_tail in E as [-> _]. by apply (HQ l1 y l2).
Qed.

(** ** Lemmas: the parts of the threads *)

Section parts.
Context {P T : Type} `{PersisterOps P} `{RaftArchive} `{KVStoreLaws T} `{KvArchive}.
Implicit Types s : KvServer P T.

(** The operation waits in a channel. *)
Definition in_channel s (op : Op) : Prop := ∃ c q, chans s !! c = Some q ∧ op ∈ q.

Definition frames s s' : Prop :=
  m_skipList s' = m_skipList s ∧ m_lastRequestId s' = m_lastRequestId s ∧
  ∀ op, in_channel s' op → in_channel s op.

Lemma frames_refl s : frames s s.
Proof. by split_and!. Qed.

Lemma on_raft_frames {A} (m : M (Raft P) A) s : wp (on_raft m) (λ _ s', frames s s') s.
Proof. intros a s' E. unfold on_raft in E. destruct (m _) as [[]|]; simplify_eq. by split_and!. Qed.

Lemma rpc_start_frames op s : wp (rpc_start op) (λ _ s', frames s s') s.
Proof.
  unfold rpc_start. apply wp_bind. eapply wp_mono; [|apply on_raft_frames].
  intros [[i t] b] s' Hf. by apply wp_ret.
Qed.

Lemma chans_insert_queued s c q op :
  in_channel (set_chans (<[c := q]> (chans s)) s) op → op ∈ q ∨ in_channel s op.
Proof.
  intros (c' & q' & Hq & Hop). simpl in Hq. destruct (decide (c' = c)) as [->|].
  - rewrite lookup_insert_eq in Hq. simplify_eq. by left.
  - rewrite lookup_insert_ne in Hq by done. right. by exists c', q'.
Qed.

Lemma wait_channel_frames i s : wp (wait_channel i) (λ _ s', frames s s') s.
Proof.
  unfold wait_channel. wp_run; [apply frames_refl|]. split_and!; [done..|]. intros op Hop.
  destruct (chans_insert_queued s (base.fresh (dom (chans s))) [] op Hop) as [Hn|]; [by inversion Hn|done].
Qed.

Lemma timeOutPop_frames c timeout s :
  wp (timeOutPop c timeout) (λ r s', frames s s' ∧ ∀ op, r = Some op → in_channel s op) s.
Proof.
  unfold timeOutPop. wp_run.
  - split; [apply frames_refl|done].
  - destruct l as [|x l]; simplify_eq/=. split.
    + split_and!; [done..|]. intros op Hop. destruct (chans_insert_queued _ _ _ _ Hop); [|done].
      eexists c, _. split; [done|by right].
    + intros op [= ->]. eexists c, _. split; [done|left].
Qed.

Lemma erase_channel_frames i s : wp (erase_channel i) (λ _ s', frames s s') s.
Proof.
  unfold erase_channel. wp_run; [|apply frames_refl]. split_and!; [done..|].
  intros op (c' & q & Hq & Hop). simpl in Hq. apply lookup_delete_Some in Hq as [_ Hq]. by exists c', q.
Qed.

Lemma snapshot_frames s st i n : kv_rep s st → wp (IfNeedToSendSnapShotCommand i n) (λ _ s', frames s s') s.
Proof.
  intros [Hr Hl]. unfold IfNeedToSendSnapShotCommand. apply wp_bind. eapply wp_mono; [|apply on_raft_frames].
  intros size s1 Hf. pose proof Hf as (Hs & Hl' & Hq). wp_run; [|done].
  unfold MakeSnapShot, getSnapshotData. apply wp_bind. intros d s2 Hd. unfold on_store in Hd.
  rewrite Hs in Hd. destruct (st_dump_Ok _ _ Hr) as (str & ks & E & _). rewrite E in Hd. simplify_eq.
  wp_run. eapply wp_mono; [|apply on_raft_frames]. intros [] s3 (? & ? & Hq3). split_and!; simpl in *; try congruence.
  intros op Hop. apply Hq. by apply (Hq3 op).
Qed.

Lemma send_queued s op i :
  wp (SendMessageToWaitChan op i) (λ _ s', m_skipList s' = m_skipList s ∧ m_lastRequestId s' = m_lastRequestId s ∧
    ∀ op', in_channel s' op' → op' = op ∨ in_channel s op') s.
Proof.
  unfold SendMessageToWaitChan. wp_run; [|by auto]. split_and!; [done..|]. intros op' Hop.
  destruct (chans_insert_queued s p (Push op l) op' Hop) as [Hin|]; [|auto].
  unfold Push in Hin. apply elem_of_app in Hin as [Hin|Hin%list_elem_of_singleton]; [|auto].
  right. by eexists p, _.
Qed.

(** Executing a command that no request was a duplicate of. *)
Lemma execute_command s st op odd :
  kv_rep s st →
  wp ((if decide (Operation op = "Put") then ExecutePutOpOnKVDB op odd else mret tt) ;;
      (if decide (Operation op = "Append") then ExecuteAppendOpOnKVDB op odd else mret tt))
    (λ _ s', chans s' = chans s ∧ kv_rep s' (if is_write op
       then mkKvState (<[Key op := Value op]> (kv_map st)) (<[ClientId op := RequestId op]> (kv_last st)) else st)) s.
Proof.
  intros [Hr Hl]. destruct (st_insert_set_Ok _ _ (Key op) (Value op) odd Hr) as (t' & E & Hr').
  assert (Hx : wp (on_store (st_insert_set (Key op) (Value op) odd) ;;
       modify (λ s, set_lastRequestId (<[ClientId op := RequestId op]> (m_lastRequestId s)) s))
    (λ _ s', chans s' = chans s ∧ kv_rep s' (mkKvState (<[Key op := Value op]> (kv_map st))
       (<[ClientId op := RequestId op]> (kv_last st)))) s).
  { intros [] s' Hs. unfold mbind, M_bind, on_store, modify in Hs. rewrite E in Hs. simplify_eq/=.
    split; [done|]. split; [done|]. simpl. by rewrite Hl. }
  unfold is_write. destruct (String.eqb_spec (Operation op) "Put") as [E1|E1]; simpl.
  - rewrite (decide_True (P := Operation op = "Put")) by done. rewrite (decide_False (P := Operation op = "Append")) by (rewrite E1; discriminate).
    apply wp_bind. eapply wp_mono; [|exact Hx]. intros [] s' Hs. by apply wp_ret.
  - rewrite (decide_False (P := Operation op = "Put")) by done. apply wp_bind, wp_ret.
    destruct (String.eqb_spec (Operation op) "Append"); simpl.
    + rewrite decide_True by done. exact Hx.
    + rewrite decide_False by done. by apply wp_ret.
Qed.

(** [n] parts of the loop in a row. *)
Fixpoint apply_steps (n : nat) odd odds (pc : loop_pc) : M (KvServer P T) (loop_pc * list label) :=
  match n with
  | O => mret (pc, [])
  | S n' =>
      r1 ← apply_step odd odds pc;
      r2 ← apply_steps n' odd odds r1.1;
      mret (r2.1, r1.2 ++ r2.2)
  end.

Lemma apply_steps_S n odd odds pc pc1 pc2 l1 l2 s s1 s2 :
  apply_step odd odds pc s = Ok ((pc1, l1), s1) → apply_steps n odd odds pc1 s1 = Ok ((pc2, l2), s2) →
  apply_steps (S n) odd odds pc s = Ok ((pc2, l1 ++ l2), s2).
Proof. intros E1 E2. cbn [apply_steps]. run E1. by run E2. Qed.

(** Uninterrupted, the parts of the loop are [GetCommandFromRaft]. *)
Lemma parts_of_GetCommandFromRaft s s' m odd odds :
  CommandValid m = true → GetCommandFromRaft m odd s = Ok (tt, s') →
  ∃ n l, apply_steps n odd odds (Received m) s = Ok ((Commanded m, l), s').
Proof.
  intros Hv E. unfold GetCommandFromRaft in E. destruct (Op_parseFromString (Command m)) as [op|] eqn:Hop; [|done].
  apply bind_Ok in E as (s0 & s1 & [= <- <-] & E). cbn [id] in E.
  assert (Hfirst : apply_step odd odds (Received m) s = Ok ((if CommandIndex m <=? m_lastSnapShotRaftLogIndex s
     then Commanded m else Looked m op (ifRequestDuplicate (ClientId op) (RequestId op) s), []), s))
    by (cbn [apply_step]; by rewrite Hv, Hop).
  destruct (CommandIndex m <=? m_lastSnapShotRaftLogIndex s).
  - injection E as <-. exists 1%nat. eexists. by eapply apply_steps_S.
  - apply bind_Ok in E as ([] & s1 & E1 & E). apply bind_Ok in E as ([] & s2 & E2 & E).
    apply bind_Ok in E as (b & s3 & E3 & [= <-]). exists 4%nat. eexists.
    assert (Hmax : m_maxRaftState s1 = m_maxRaftState s).
    { revert E1. unfold ExecutePutOpOnKVDB, ExecuteAppendOpOnKVDB, on_store. mrun. intros E1.
      repeat case_match; simplify_eq/=; done. }
    rewrite <- Hmax in E2. eapply apply_steps_S; [exact Hfirst|].
    eapply apply_steps_S; [apply bind_Ok; exists tt, s1; split; [exact E1|reflexivity]|].
    eapply apply_steps_S; [apply bind_Ok; exists s1, s1; split; [reflexivity|];
      apply bind_Ok; exists tt, s2; split; [exact E2|reflexivity]|].
    eapply apply_steps_S; [apply bind_Ok; exists b, s3; split; [exact E3|reflexivity]|done].
Qed.

End parts.

(** ** Lemmas: the invariant *)

Section inv.
Context {P T : Type} `{PersisterOps P} `{RaftArchive} `{KVStoreLaws T} `{KvArchive}.
Context (keys : string → list string) (st0 : kv_state).
Implicit Types s : KvServer P T.
Implicit Types tr : list label.

#[local] Abbreviation after := (state_after keys st0).
#[local] Abbreviation recorded := (table_held keys st0).
#[local] Abbreviation inv := (serving_inv keys st0).

Lemma after_snoc tr x : after (tr ++ [x]) = label_step keys x (after tr).
Proof. unfold state_after. by rewrite fold_left_app. Qed.

Lemma recorded_now tr client r : kv_last (after tr) !! client = Some r → recorded tr client r.
Proof. intros Hr. exists tr, []. by rewrite app_nil_r. Qed.

Lemma recorded_snoc tr x client r : recorded tr client r → recorded (tr ++ [x]) client r.
Proof. intros (l1 & l2 & -> & Hr). exists l1, (l2 ++ [x]). by rewrite (assoc_L (++)). Qed.

Lemma applied_snoc tr x (op : Op) :
  (∃ b, Applied op b ∈ tr) → ∃ b, Applied op b ∈ tr ++ [x].
Proof. intros [b Hb]. exists b. apply elem_of_app. by left. Qed.

Lemma never_lowered_snoc client tr x : never_lowered keys st0 client (tr ++ [x]) → never_lowered keys st0 client tr.
Proof. intros Hq. by apply each_snoc in Hq as [Hq _]. Qed.

(** A part that does nothing the trace shows. *)
Lemma inv_silent tr (sv : serving P T) s' pc' calls' :
  inv tr sv → m_skipList s' = m_skipList (sv_server sv) → m_lastRequestId s' = m_lastRequestId (sv_server sv) →
  (∀ op, in_channel s' op → in_channel (sv_server sv) op ∨ ∃ b, Applied op b ∈ tr) →
  (pc' = sv_loop sv ∨
   match pc' with
   | Looked _ op dup => dup = ifRequestDuplicate (ClientId op) (RequestId op) s'
   | Ran _ op | Saved _ op => ∃ b, Applied op b ∈ tr
   | _ => True
   end) →
  (∀ k a i op, calls' !! k = Some (a, Popped i (Some op)) →
     sv_calls sv !! k = Some (a, Popped i (Some op)) ∨ ∃ b, Applied op b ∈ tr) →
  inv tr (mkServing s' pc' calls').
Proof.
  intros [[Hr Hl] Hj Hc Hloop Hcalls Hq] Es El Hch Hpc Hk.
  split; simpl; [split; congruence|done| | | |].
  - intros c q op Hc' Hop. destruct (Hch op) as [(c2 & q2 & ? & ?)|?]; [by exists c, q|by eapply Hc|done].
  - destruct Hpc as [->|Hpc]; [done|]. destruct pc' as [| |m op []| | |]; try done.
    unfold ifRequestDuplicate in Hpc. rewrite El, Hl in Hpc.
    destruct (kv_last _ !! _) as [r|] eqn:E; [|done]. exists r. split; [by apply recorded_now|blia].
  - intros k a i op Hkk. destruct (Hk _ _ _ _ Hkk); eauto.
  - intros client Hqu. destruct (Hq client Hqu) as (Hcov & Hinc & Hlook). split_and!; [done..|].
    intros m op -> Hcl. destruct Hpc as [Hpc|Hpc]; [eauto|]. unfold ifRequestDuplicate in Hpc. rewrite El, Hl in Hpc.
    intros op' Hop' Hcl'. destruct (Hcov op' Hop' Hcl') as (r & Hr' & ?). rewrite Hcl, Hr' in Hpc. blia.
Qed.

(** A part that shows as [x], not being the execution of a command. *)
Lemma inv_answer tr (sv : serving P T) s' pc' calls' x :
  inv tr sv → kv_rep s' (label_step keys x (after tr)) → justified keys st0 tr x →
  (∀ op b, x ≠ Applied op b) →
  (∀ op, in_channel s' op → in_channel (sv_server sv) op) → (pc' = sv_loop sv ∨ pc' = Waits) →
  (∀ k a i op, calls' !! k = Some (a, Popped i (Some op)) → sv_calls sv !! k = Some (a, Popped i (Some op))) →
  inv (tr ++ [x]) (mkServing s' pc' calls').
Proof.
  intros [Hrep Hj Hc Hloop Hcalls Hq] Hrep' Hx Hna Hch Hpc Hk.
  assert (Hnew : ∀ op, Applied op true ∈ tr ++ [x] → Applied op true ∈ tr).
  { intros op [?|E%list_elem_of_singleton]%elem_of_app; [done|]. by destruct (Hna op true). }
  split; simpl; [by rewrite after_snoc|by apply each_snoc| | | |].
  - intros c q op Hc' Hop. destruct (Hch op) as (c2 & q2 & ? & ?); [by exists c, q|].
    apply applied_snoc. by eapply Hc.
  - destruct Hpc as [->| ->]; [|done]. destruct (sv_loop sv) as [| |m op []| | |]; try done;
      [|by apply applied_snoc..]. destruct Hloop as (r & ? & ?). exists r. split; [by apply recorded_snoc|done].
  - intros k a i op Hkk. apply applied_snoc. eauto.
  - intros client Hqu. apply each_snoc in Hqu as [Hqu Hcov']. destruct (Hq client Hqu) as (Hcov & Hinc & Hlook).
    split_and!.
    + intros op Hop Hcl. destruct x; try (by apply Hcov'; auto). by edestruct Hna.
    + apply each_snoc. split; [done|]. destruct x; try done. by edestruct Hna.
    + intros m op -> Hcl. destruct Hpc as [Hpc|Hpc]; [|done]. intros op' Hop'. eapply Hlook; eauto.
Qed.

(** The command of the message was executed, or skipped. *)
Lemma inv_applied tr (sv : serving P T) s' m op dup :
  inv tr sv → sv_loop sv = Looked m op dup →
  kv_rep s' (label_step keys (Applied op (negb dup && is_write op)) (after tr)) →
  chans s' = chans (sv_server sv) →
  inv (tr ++ [Applied op (negb dup && is_write op)]) (mkServing s' (Ran m op) (sv_calls sv)).
Proof.
  intros [Hrep Hj Hc Hloop Hcalls Hq] Hpc Hrep' Hch. rewrite Hpc in Hloop.
  split; simpl; [by rewrite after_snoc| | | | |].
  - apply each_snoc. split; [done|]. destruct dup, (is_write op) eqn:Hw; simpl; rewrite ?Hw; done.
  - intros c q op' Hc' Hop. apply applied_snoc. rewrite Hch in Hc'. by eapply Hc.
  - eexists. apply elem_of_app. right. left.
  - intros k a i op' Hkk. apply applied_snoc. eauto.
  - intros client Hqu. destruct (Hq client (never_lowered_snoc _ _ _ Hqu)) as (Hcov & Hinc & Hlook).
    rewrite after_snoc. destruct (negb dup && is_write op) eqn:Hb; simpl.
    + apply andb_true_iff in Hb as [->%negb_true_iff Hw]. split_and!.
      * intros op' Hop' Hcl. simpl. destruct (decide (ClientId op = client)) as [E|E].
        -- rewrite E, lookup_insert_eq. eexists. split; [done|].
           apply elem_of_app in Hop' as [Hop'|Hop'%list_elem_of_singleton]; [|by simplify_eq].
           specialize (Hlook _ _ Hpc E op' Hop' Hcl). lia.
        -- rewrite lookup_insert_ne by done. apply elem_of_app in Hop' as [?|Hop'%list_elem_of_singleton]; [auto|].
           simplify_eq.
      * apply each_snoc. split; [done|]. intros Hcl. by apply (Hlook _ _ Hpc Hcl).
      * done.
    + assert (Hnew : ∀ op', Applied op' true ∈ tr ++ [Applied op false] → Applied op' true ∈ tr)
        by (intros op' [?|?%list_elem_of_singleton]%elem_of_app; [done|simplify_eq]).
      split_and!; [intros op' ?; apply Hcov; auto|by apply each_snoc|done].
Qed.

Lemma install_rep s tr m odds :
  kv_rep s (after tr) →
  (Snapshot_data m ≠ "" → ∃ d last, kv_in (Snapshot_data m) = Some (d, last) ∧ st_dumps d (keys d)) →
  wp (GetSnapShotFromRaft m odds)
    (λ _ s', chans s' = chans s ∧ kv_rep s' (label_step keys (Installed (Snapshot_data m)) (after tr))) s.
Proof.
  intros [Hr Hl] Hok. unfold GetSnapShotFromRaft, CondInstallSnapshot, ReadSnapShotToInstall, label_step.
  destruct (decide (Snapshot_data m = "")) as [E|Hne].
  - apply wp_bind, wp_ret, wp_modify. split; [done|]. by destruct (kv_in _) as [[]|].
  - destruct (Hok Hne) as (d & last & Hin & Hd). unfold parseFromString. rewrite Hin.
    apply wp_bind, wp_bind, wp_modify. intros [] s2 E. unfold on_store in E. simpl in E.
    destruct (st_load_Ok _ _ _ _ odds Hr Hd) as (t' & E' & Hr'). rewrite E' in E. simplify_eq.
    apply wp_modify. by split.
Qed.

Lemma apply_inv tr (sv : serving P T) odd odds pc' l s' :
  inv tr sv → apply_step odd odds (sv_loop sv) (sv_server sv) = Ok ((pc', l), s') →
  snapshots_ok keys (tr ++ l) → inv (tr ++ l) (mkServing s' pc' (sv_calls sv)).
Proof.
  intros Hinv. pose proof Hinv as [Hrep _ _ Hloop _ _]. intros E. revert pc' l s' E.
  enough (Hwp : wp (apply_step odd odds (sv_loop sv)) (λ r s', snapshots_ok keys (tr ++ r.2) →
    inv (tr ++ r.2) (mkServing s' r.1 (sv_calls sv))) (sv_server sv)) by (intros pc' l s' E; by apply (Hwp _ _ E)).
  destruct (sv_loop sv) as [|m|m op dup|m op|m op|m] eqn:Hpc; cbn [apply_step].
  - wp_run. eapply wp_mono; [|apply on_raft_frames]. intros [] s1 (? & ? & ?). apply wp_ret. intros _.
    cbn [fst snd]. rewrite app_nil_r. eapply inv_silent; eauto.
  - wp_run; intros _; cbn [fst snd]; rewrite app_nil_r; eapply inv_silent; eauto.
    right. by destruct (_ <=? _).
  - apply wp_bind. destruct dup; simpl.
    + apply wp_ret, wp_ret. intros _. by apply (inv_applied tr sv _ m op true).
    + eapply wp_mono; [|by apply execute_command]. intros [] s1 [Hch Hr]. apply wp_ret. intros _.
      by apply (inv_applied tr sv _ m op false).
  - wp_run; [eapply wp_mono; [|by eapply snapshot_frames]; intros [] s1 (? & ? & ?)|]; wp_run; intros _; cbn [fst snd];
      rewrite app_nil_r; eapply inv_silent; eauto.
  - apply wp_bind. eapply wp_mono; [|apply send_queued]. intros b s1 (? & ? & Hq). wp_run. intros _. cbn [fst snd].
    rewrite app_nil_r. eapply inv_silent; eauto. intros op' Hop'. destruct (Hq op' Hop') as [->|]; eauto.
  - destruct (SnapshotValid m).
    + apply wp_bind. intros [] s1 E. apply wp_ret. intros Hok. cbn [fst snd] in *.
      destruct (install_rep _ tr m odds Hrep) with (a := tt) (s' := s1) as [Hch Hr]; [|done|].
      { intros Hne. apply (Hok (Snapshot_data m)); [|done]. apply elem_of_app. right. left. }
      eapply inv_answer; eauto; try done. intros op (c & q & Hq & ?). rewrite Hch in Hq. by exists c, q.
    + apply wp_ret. intros _. cbn [fst snd]. rewrite app_nil_r. eapply inv_silent; eauto.
Qed.

(** The next part [pc] of a call of [a], or its end. *)
Definition next_calls (calls : gmap nat (rpc_args * rpc_pc)) (k : nat) (a : rpc_args) (pc : option rpc_pc) :=
  match pc with Some pc => <[k := (a, pc)]> calls | None => delete k calls end.

Lemma next_calls_popped calls k a pc k' a' i op :
  next_calls calls k a pc !! k' = Some (a', Popped i (Some op)) →
  calls !! k' = Some (a', Popped i (Some op)) ∨ pc = Some (Popped i (Some op)).
Proof.
  unfold next_calls. destruct pc as [pc|].
  - intros [[? [= -> ->]]|[_ ?]]%lookup_insert_Some; auto.
  - intros [_ ?]%lookup_delete_Some. by left.
Qed.

Lemma call_inv tr (sv : serving P T) k a pc timeout pc' l s' :
  inv tr sv → sv_calls sv !! k = Some (a, pc) →
  rpc_step timeout a pc (sv_server sv) = Ok ((pc', l), s') →
  inv (tr ++ l) (mkServing s' (sv_loop sv) (next_calls (sv_calls sv) k a pc')).
Proof.
  intros Hinv Hk E. pose proof Hinv as [Hrep _ Hchans _ Hcalls _]. revert pc' l s' E.
  assert (Hsil : ∀ s' pc', frames (sv_server sv) s' →
    (∀ i op, pc' = Some (Popped i (Some op)) → ∃ b, Applied op b ∈ tr) →
    inv (tr ++ []) (mkServing s' (sv_loop sv) (next_calls (sv_calls sv) k a pc'))).
  { intros s' pc' (? & ? & ?) Hpc'. rewrite app_nil_r. eapply inv_silent; eauto.
    intros k' a' i op [?| ->]%next_calls_popped; eauto. }
  assert (Hans : ∀ s' i x, kv_rep s' (label_step keys x (after tr)) → chans s' = chans (sv_server sv) →
    justified keys st0 tr x → (∀ op b, x ≠ Applied op b) →
    inv (tr ++ [x]) (mkServing s' (sv_loop sv) (next_calls (sv_calls sv) k a (Some (Replied i))))).
  { intros s' i x Hr Hc Hj Hx. eapply inv_answer; eauto.
    - intros op (c & q & Hq & ?). rewrite Hc in Hq. by exists c, q.
    - by intros k' a' i' op [?|?]%next_calls_popped. }
  enough (Hwp : wp (rpc_step timeout a pc) (λ r s',
    inv (tr ++ r.2) (mkServing s' (sv_loop sv) (next_calls (sv_calls sv) k a r.1))) (sv_server sv))
    by (intros pc' l s' E; by apply (Hwp _ _ E)).
  destruct pc as [i|i c|i popped|i leader|i execute|i]; cbn [rpc_step].
  - apply wp_bind. eapply wp_mono; [|apply wait_channel_frames]. intros c s1 Hf. apply wp_ret. by apply Hsil.
  - apply wp_bind. eapply wp_mono; [|apply timeOutPop_frames]. intros r s1 [Hf Hq]. apply wp_ret.
    apply Hsil; [done|]. intros i' op [= _ ->]. destruct (Hq op eq_refl) as (c' & q & ? & ?). by eapply Hchans.
  - destruct a as [args|args], popped as [op|]; wp_run; try (by apply Hsil);
      apply Hans; try done; intros Hok; simpl in Hok.
    + destruct (same_request op (PutAppend_op args)) eqn:Hs; [|done].
      destruct (Hcalls _ _ _ _ Hk) as [b Hb]. left. by exists op, b.
    + right. unfold ifRequestDuplicate in Hok. destruct Hrep as [_ Hl]. rewrite Hl in Hok.
      destruct (kv_last _ !! _) as [r|]; [|done]. exists r. split; [done|].
      destruct (Z.leb_spec (pa_requestid args) r); done.
  - wp_run. by apply Hsil.
  - destruct a as [args|args], execute; try (by wp_run; apply Hans; try done; intros []).
    apply wp_bind. unfold Get_execute. apply wp_bind. intros [v b] s1 E.
    rewrite (ExecuteGet_Ok _ _ _ Hrep) in E. simplify_eq. apply wp_ret, wp_ret. destruct Hrep as [Hr Hl].
    apply Hans; [|done| |done]; simpl in *; destruct (kv_map _ !! _); simplify_eq; simpl; try done;
      split; simpl; by rewrite ?Hl.
  - apply wp_bind. eapply wp_mono; [|apply erase_channel_frames]. intros [] s1 Hf. apply wp_ret. by apply Hsil.
Qed.

Lemma serve_inv tr ch (sv : serving P T) l sv' :
  inv tr sv → serve ch sv = Some (l, sv') → snapshots_ok keys (tr ++ l) → inv (tr ++ l) sv'.
Proof.
  intros Hinv E Hok. pose proof Hinv as [_ _ _ _ Hcalls _]. destruct ch as [r|k a|k timeout|odd odds]; simpl in E.
  - simplify_eq. rewrite app_nil_r. by eapply inv_silent; eauto.
  - destruct (sv_calls sv !! k); [done|]. destruct (rpc_start _ _) as [[o s1]|] eqn:Es; [|done].
    apply rpc_start_frames in Es as (Hs & Hl & Hq). destruct o as [i|]; simplify_eq.
    + rewrite app_nil_r. eapply inv_silent; eauto. intros k' a' i' op [[? ?]|[_ ?]]%lookup_insert_Some; [done|auto].
    + eapply inv_answer; eauto; [|by destruct a; [intros [=]|intros []]|by destruct a].
      pose proof Hinv as [[Hr Hlr] _ _ _ _ _]. destruct a; split; simpl in *; congruence.
  - destruct (sv_calls sv !! k) as [[a pc]|] eqn:Hk; [|done]. simpl in E.
    destruct (rpc_step _ _ _ _) as [[[[pc'|] l'] s1]|] eqn:Es; simplify_eq;
      exact (call_inv _ _ _ _ _ _ _ _ _ Hinv Hk Es).
  - destruct (apply_step _ _ _ _) as [[[pc' l'] s1]|] eqn:Es; simplify_eq. by eapply apply_inv.
Qed.

Lemma serve_all_inv chs tr (sv : serving P T) l sv' :
  inv tr sv → serve_all chs sv = Some (l, sv') → snapshots_ok keys (tr ++ l) → inv (tr ++ l) sv'.
Proof.
  revert tr sv l. induction chs as [|ch chs IH]; intros tr sv l Hinv E Hok; simpl in E.
  { simplify_eq. by rewrite app_nil_r. }
  destruct (serve ch sv) as [[l1 sv1]|] eqn:E1; [|done]. simpl in E.
  destruct (serve_all chs sv1) as [[l2 sv2]|] eqn:E2; [|done]. simplify_eq/=.
  rewrite (assoc_L (++)) in Hok |- *. eapply IH; [|done|done]. eapply serve_inv; [done..|].
  intros sn Hin. apply Hok. apply elem_of_app. by left.
Qed.

Lemma start_inv s : kv_rep s st0 → chans s = ∅ → inv [] (mkServing s Waits ∅).
Proof.
  intros Hrep Hc. split; simpl; [done|apply each_nil| |done| |].
  - intros c q op. by rewrite Hc.
  - intros k a i op. by rewrite lookup_empty.
  - intros client _. split_and!; [|apply each_nil|done]. intros op Hop. by apply elem_of_nil in Hop.
Qed.

(** ** Lemmas: the last request of a client *)

Lemma last_request_prefix args l1 l2 : last_request st0 args (l1 ++ l2) → last_request st0 args l1.
Proof. intros [Hs Hx]. split; [done|]. intros x Hin. apply Hx. apply elem_of_app. by left. Qed.

(** Only its execution brings the number of the last request into the table. *)
Lemma last_request_now args tr r :
  last_request st0 args tr → kv_last (after tr) !! pa_clientid args = Some r → pa_requestid args <= r →
  Applied (PutAppend_op args) true ∈ tr.
Proof.
  revert r. induction tr as [|x tr IH] using rev_ind; intros r Hlast Hr Hle.
  { apply Hlast in Hr. lia. }
  assert (Hold : kv_last (after tr) !! pa_clientid args = Some r → Applied (PutAppend_op args) true ∈ tr ++ [x]).
  { intros Hr'. apply elem_of_app. left. eapply IH; eauto using last_request_prefix. }
  rewrite after_snoc in Hr. pose proof (proj2 Hlast x) as Hx.
  specialize (Hx ltac:(apply elem_of_app; right; left)).
  destruct x as [op []|snap|a rep|a rep]; simpl in Hr; [|auto| |auto|].
  - apply lookup_insert_Some in Hr as [[Hc <-]|[_ Hr]]; [|auto].
    destruct (Hx Hc) as [?| ->]; [lia|]. apply elem_of_app. right. left.
  - destruct (kv_in snap) as [[d last]|] eqn:E; [|auto]. destruct (decide _); [auto|]. simpl in Hr.
    specialize (Hx _ _ _ eq_refl Hr). lia.
  - destruct (String.eqb _ _); [auto|]. simpl in Hr. apply lookup_insert_Some in Hr as [[Hc <-]|[_ Hr]]; [|auto].
    specialize (Hx Hc). lia.
Qed.

(** A write that is answered OK while it is the last request was executed. *)
Lemma answered_executed args tr :
  each (justified keys st0) tr → justified keys st0 tr (AnsweredPut args (mkPutAppendReply OK)) →
  is_write (PutAppend_op args) = true → last_request st0 args tr → Applied (PutAppend_op args) true ∈ tr.
Proof.
  intros Hj Ha Hw Hlast. destruct (Ha eq_refl) as [(op & b & Hop & Hs)|(r & Hr & Hle)];
    [|by eapply last_request_now].
  unfold same_request in Hs. apply andb_true_iff in Hs as [Hc%String.eqb_eq Hn%Z.eqb_eq]. simpl in Hc, Hn.
  destruct (proj2 Hlast _ Hop Hc) as [?| ->]; [lia|]. destruct b; [done|].
  apply list_elem_of_split in Hop as (l1 & l2 & ->). pose proof (Hj _ _ _ eq_refl Hw) as (r & (m1 & m2 & -> & Hr) & Hle).
  apply last_request_prefix, last_request_prefix in Hlast.
  rewrite <- (assoc_L (++)). apply elem_of_app. left. by eapply last_request_now.
Qed.

Lemma increasing_once client tr op l1 l2 :
  each (increasing client) tr → tr = l1 ++ Applied op true :: l2 → ClientId op = client →
  ∀ op', Applied op' true ∈ l1 ++ l2 → ClientId op' = client → RequestId op' ≠ RequestId op.
Proof.
  intros Hinc -> Hc op' [Hop|Hop]%elem_of_app Hc'.
  - specialize (Hinc _ _ _ eq_refl Hc op' Hop Hc'). lia.
  - apply list_elem_of_split in Hop as (m1 & m2 & ->).
    assert (E : l1 ++ Applied op true :: m1 ++ Applied op' true :: m2
              = (l1 ++ Applied op true :: m1) ++ Applied op' true :: m2) by by rewrite <- (assoc_L (++)).
    specialize (Hinc _ _ _ E Hc' op). assert (RequestId op < RequestId op'); [|lia].
    apply Hinc; [apply elem_of_app; right; left|done].
Qed.

End inv.

(** ** A concrete run *)

Definition leader_node : Raft Persister := set_m_status Leader (start_node 1 0).

Definition delivers (ops : list Op) (i : Z) : scheduled Persister :=
  RaftRuns (set_applyChan (map (λ op, command_of op i) ops) leader_node).

(** One turn of the loop for a command. *)
Definition loop_turn : list (scheduled Persister) := replicate 6 (LoopRuns 1 (λ _, 0%nat)).

Definition serves (chs : list (scheduled Persister)) := serve_all chs (mkServing sample_server Waits ∅).

(** (C9) What an answer of a server means, in every interleaving of its threads
    at their critical sections - the loop that applies the log, any number of
    handlers with their time-outs, raft delivering any messages - up to the
    first use of a deleted channel.  Data and table are those the trace gives;
    a Get answers what the data hold; a write is answered OK only after a
    command of its client and number was applied or, timed out, with the table
    at its number; a write is skipped only if the table had reached its number.
    While no Get and no snapshot lowers the client's number in the table below
    an executed one ([never_lowered]; a late Get does,
    [late_get_executes_twice]), the writes of a client are executed on this
    server in increasing order of their numbers, each at most once, and one
    answered OK as its client's last request ([last_request]) was executed
    exactly once, before the answer. *)
Theorem server_answers {P T : Type} `{PersisterOps P} `{RaftArchive} `{KVStoreLaws T} `{KvArchive}
  (keys : string → list string) (st0 : kv_state) (s : KvServer P T) (chs : list (scheduled P))
  (tr : list label) (sv : serving P T)
  (Hrep : kv_rep s st0) (Hchans : chans s = ∅)
  (Hrun : serve_all chs (mkServing s Waits ∅) = Some (tr, sv)) (Hsnap : snapshots_ok keys tr) :
  kv_rep (sv_server sv) (state_after keys st0 tr) ∧
  each (justified keys st0) tr ∧
  ∀ client, never_lowered keys st0 client tr →
    each (increasing client) tr ∧
    ∀ l1 args l2, tr = l1 ++ AnsweredPut args (mkPutAppendReply OK) :: l2 →
      pa_clientid args = client → is_write (PutAppend_op args) = true → last_request st0 args l1 →
      ∃ a b, l1 = a ++ Applied (PutAppend_op args) true :: b ∧
        ∀ op, Applied op true ∈ a ++ b ++ l2 → ClientId op = client → RequestId op ≠ pa_requestid args.
Proof.
  destruct (serve_all_inv keys st0 chs [] _ tr sv (start_inv keys st0 s Hrep Hchans) Hrun Hsnap)
    as [Hr Hj _ _ _ Hq].
  split_and!; [done..|]. intros client Hqu. destruct (Hq client Hqu) as (_ & Hinc & _). split; [done|].
  intros l1 args l2 -> Hc Hw Hlast.
  assert (Hin : Applied (PutAppend_op args) true ∈ l1).
  { eapply answered_executed; [|by eapply Hj|done..]. intros m1 x m2 ->.
    apply (Hj m1 x (m2 ++ AnsweredPut args (mkPutAppendReply OK) :: l2)). by rewrite <- (assoc_L (++)). }
  apply list_elem_of_split in Hin as (a & b & ->). exists a, b. split; [done|]. intros op Hop Hcl.
  eapply (increasing_once client _ (PutAppend_op args) a (b ++ AnsweredPut args (mkPutAppendReply OK) :: l2));
    [exact Hinc|by rewrite <- (assoc_L (++))|done| |done].
  rewrite !elem_of_app in Hop |- *. destruct Hop as [?|[?|?]]; [by left|right; by left|right; right; by right].
Qed.

(** ** Witnesses *)

(** A write whose handler waits while the loop applies the command. *)
Definition put_run : list (scheduled Persister) :=
  [RaftRuns leader_node; NewCall 0 (PutRpc put_args); CallRuns 0 false; delivers [put_b; put_b] 1] ++
  loop_turn ++ [CallRuns 0 false; CallRuns 0 false; CallRuns 0 false] ++ loop_turn.

Lemma server_answers_witness : ∃ sv,
  serves put_run = Some ([Applied put_b true; AnsweredPut put_args (mkPutAppendReply OK); Applied put_b false], sv) ∧
  ∀ op, Applied op true ∈ [Applied put_b false] → ClientId op = "client" → RequestId op ≠ 1.
Proof.
  set (tr := [Applied put_b true; AnsweredPut put_args (mkPutAppendReply OK); Applied put_b false]).
  destruct (serves put_run) as [[tr' sv]|] eqn:E; [|by vm_compute in E].
  assert (tr' = tr) as -> by (vm_compute in E; by injection E as <- _). exists sv. split; [done|].
  destruct (server_answers (λ _, []) (mkKvState ∅ ∅) sample_server put_run tr sv) as (_ & _ & Hq);
    [exact sample_server_rep|reflexivity|exact E| |].
  - intros sn Hin. apply list_elem_of_In in Hin. destruct Hin as [[=]|[[=]|[[=]|[]]]].
  - destruct (Hq "client") as (_ & Hex).
    + apply (each_snoc _ [_; _]). split; [|done]. apply (each_snoc _ [_]). split; [apply (each_snoc _ []); split; [apply each_nil|done]|].
      intros op Hop _. exists 1. split; [reflexivity|]. apply list_elem_of_singleton in Hop. by injection Hop as ->.
    + destruct (Hex [Applied put_b true] put_args [Applied put_b false] eq_refl eq_refl eq_refl) as (a & b & Hab & Huniq).
      * split; [intros r Hr; discriminate|]. intros x ->%list_elem_of_singleton _. by right.
      * intros op Hop. apply (Huniq op). rewrite !elem_of_app. auto.
Defined.

(** The condition is needed: a Get that the client gave up, numbered before
    the write, times out on the server after the write was applied; the second
    copy of the write in the log is then executed again. *)
Definition late_get_run : list (scheduled Persister) :=
  [RaftRuns leader_node; NewCall 0 (GetRpc (mkGetArgs "b" "client" 1)); CallRuns 0 false;
   delivers [append_b; append_b] 5] ++ loop_turn ++
  [CallRuns 0 true; CallRuns 0 false] ++ [RaftRuns leader_node] ++ [CallRuns 0 false; CallRuns 0 false; delivers [append_b] 6] ++ loop_turn.

Example late_get_executes_twice :
  match serves late_get_run with
  | Some (tr, _) => tr = [Applied append_b true; AnsweredGet (mkGetArgs "b" "client" 1) (mkGetReply OK "2");
                          Applied append_b true]
  | None => False
  end.
Proof. vm_compute. reflexivity. Qed.


(** A network of three servers whose second one is the leader. *)
Definition three_put (server : nat) (args : PutAppendArgs) (w : nat) : option PutAppendReply * nat :=
  (Some (mkPutAppendReply (if (server =? 1)%nat then OK else ErrWrongLeader)), S w).

Definition three_get (server : nat) (args : GetArgs) (w : nat) : option GetReply * nat :=
  (if (server =? 1)%nat then Some (mkGetReply OK (ga_key args)) else None, S w).

Lemma clerk_finds_leader_witness :
  ∃ w', PutAppend three_put 3 "k" "v" "Put" (mkClerk 3 "client" 7 2, 0%nat)
        = Ok (tt, (mkClerk 3 "client" 8 1, w')).
Proof.
  refine (proj1 (clerk_finds_leader three_get three_put (mkClerk 3 "client" 7 2) 0%nat 1 3 "k" "v" "Put" _ _ _ _ _ _ _)).
  - simpl; lia.
  - simpl; lia.
  - simpl; lia.
  - intros args w. reflexivity.
  - intros args w. exists (ga_key args). reflexivity.
  - intros [|[|s]] Hs args w; [right; reflexivity|done|right; reflexivity].
  - intros [|[|s]] Hs args w; [left; reflexivity|done|left; reflexivity].
Defined.
