(* ===== verification/ByteArray.v ===== *)
(** * ByteArray: the serialisation buffer ([sylar/bytearray.cc], [bytearray.h], [endian.h])

    The chain of memory blocks that starts at [m_root] is the list [m_nodes] of
    their contents, the size of a block being the length of its content; a
    [Node*] is a position in the chain, or [None] for a null pointer.  Only the
    chain owns the blocks, so a position cannot dangle.  Bytes are integers
    between 0 and 255.

    [size_t] is [nat]; where a subtraction of the source can go below zero the
    64-bit wrap-around is written out ([sub64]).  The byte order of the host and
    the bytes a fresh block happens to hold are variables of the section. *)

From S2P Require Import Prelude.

(** ** Byte order ([endian.h]) *)

Definition SYLAR_LITTLE_ENDIAN : Z := 1.
Definition SYLAR_BIG_ENDIAN : Z := 2.

(** The [n] bytes of an unsigned integer, the low byte first. *)
Fixpoint to_le (n : nat) (v : Z) : list Z :=
  match n with
  | O => []
  | S n' => v mod 256 :: to_le n' (v / 256)
  end.

Fixpoint of_le (l : list Z) : Z :=
  match l with
  | [] => 0
  | b :: l' => b + 256 * of_le l'
  end.

(** [bswap_16], [bswap_32], [bswap_64]: the same bytes in the opposite order. *)
Definition byteswap (n : nat) (v : Z) : Z := of_le (rev (to_le n v)).

(** Conversions between the [n]-byte unsigned and signed integers. *)
Definition to_unsigned (n : nat) (v : Z) : Z := v mod 2 ^ (8 * Z.of_nat n).
Definition to_signed (n : nat) (v : Z) : Z :=
  if v <? 2 ^ (8 * Z.of_nat n - 1) then v else v - 2 ^ (8 * Z.of_nat n).

(** The difference of two values of type [size_t]. *)
Definition sub64 (a b : nat) : Z := (Z.of_nat a - Z.of_nat b) mod 2 ^ 64.

(** ** The buffer *)

Record ByteArray := mkByteArray {
  m_baseSize : nat;
  m_position : nat;
  m_capacity : nat;
  m_size : nat;
  m_endian : Z;
  m_nodes : list (list Z);
  m_cur : option nat
}.

(** An element of the [iovec] array: the block, the offset in it and the length. *)
Record iovec := mkIovec { iov_node : nat; iov_off : nat; iov_len : nat }.

Section bytearray.
Context (host_little : bool) (junk : nat → Z).
Abbreviation MB A := (M ByteArray A).
Implicit Types s : ByteArray.

Definition SYLAR_BYTE_ORDER : Z :=
  if host_little then SYLAR_LITTLE_ENDIAN else SYLAR_BIG_ENDIAN.

Definition set_position (p : nat) s : ByteArray :=
  mkByteArray (m_baseSize s) p (m_capacity s) (m_size s) (m_endian s) (m_nodes s) (m_cur s).

Definition set_capacity (c : nat) s : ByteArray :=
  mkByteArray (m_baseSize s) (m_position s) c (m_size s) (m_endian s) (m_nodes s) (m_cur s).

Definition set_size (n : nat) s : ByteArray :=
  mkByteArray (m_baseSize s) (m_position s) (m_capacity s) n (m_endian s) (m_nodes s) (m_cur s).

Definition set_endian (e : Z) s : ByteArray :=
  mkByteArray (m_baseSize s) (m_position s) (m_capacity s) (m_size s) e (m_nodes s) (m_cur s).

Definition set_nodes (l : list (list Z)) s : ByteArray :=
  mkByteArray (m_baseSize s) (m_position s) (m_capacity s) (m_size s) (m_endian s) l (m_cur s).

Definition set_cur (c : option nat) s : ByteArray :=
  mkByteArray (m_baseSize s) (m_position s) (m_capacity s) (m_size s) (m_endian s) (m_nodes s) c.

(** [new Node(size)]: the block is not initialised. *)
Definition new_node (size : nat) : list Z := map junk (seq 0 size).

Definition new_ByteArray (base_size : nat) : ByteArray :=
  mkByteArray base_size 0 base_size 0 SYLAR_BIG_ENDIAN [new_node base_size] (Some 0%nat).

Definition isLittleEndian s : bool := m_endian s =? SYLAR_LITTLE_ENDIAN.

Definition setIsLittleEndian (val : bool) s : ByteArray :=
  set_endian (if val then SYLAR_LITTLE_ENDIAN else SYLAR_BIG_ENDIAN) s.

Definition getReadSize s : nat := (m_size s - m_position s)%nat.
Definition getCapacity s : nat := (m_capacity s - m_position s)%nat.

(** [*node], [node->next] and [memcpy(m_cur->ptr + npos, data, n)]. *)
Definition deref_node (c : option nat) : MB (list Z) :=
  s ← gets id;
  match c with
  | Some i => match m_nodes s !! i with Some b => mret b | None => fail BadPointer end
  | None => fail BadPointer
  end.

Definition next_node (c : option nat) : MB (option nat) :=
  s ← gets id;
  match c with
  | Some i => if (i + 1 <? length (m_nodes s))%nat then mret (Some (i + 1)%nat) else mret None
  | None => fail BadPointer
  end.

Definition copy_in (npos : nat) (data : list Z) : MB unit :=
  s ← gets id;
  b ← deref_node (m_cur s);
  match m_cur s with
  | Some i =>
      if (npos + length data <=? length b)%nat then
        modify (set_nodes (<[i := take npos b ++ data ++ drop (npos + length data) b]> (m_nodes s)))
      else fail BadIndex
  | None => fail BadPointer
  end.

(** [memcpy(out, node->ptr + npos, n)] *)
Definition copy_out (c : option nat) (npos n : nat) : MB (list Z) :=
  b ← deref_node c;
  if (npos + n <=? length b)%nat then mret (take n (drop npos b)) else fail BadIndex.

(** [m_cur = m_cur->next] *)
Definition cur_next : MB unit :=
  s ← gets id;
  c ← next_node (m_cur s);
  modify (set_cur c).

Definition advance_position (n : nat) : MB unit :=
  modify (λ s, set_position (m_position s + n) s).

(** ** Raw writes and reads *)

Definition addCapacity (size : nat) : MB unit :=
  s ← gets id;
  if (size =? 0)%nat then mret tt else
  let old_cap := getCapacity s in
  if (size <=? old_cap)%nat then mret tt else
  if (m_baseSize s =? 0)%nat then fail BadIndex else
  let count := ((size - old_cap + (m_baseSize s - 1)) / m_baseSize s)%nat in
  modify (set_nodes (m_nodes s ++ repeat (new_node (m_baseSize s)) count)) ;;
  modify (set_capacity (m_capacity s + count * m_baseSize s)) ;;
  if (old_cap =? 0)%nat then modify (set_cur (Some (length (m_nodes s)))) else mret tt.

(** The loop of [write]: [data] is what is left of the buffer. *)
Fixpoint write_loop (fuel npos ncap : nat) (data : list Z) : MB unit :=
  match fuel with
  | O => fail NoFuel
  | S fuel' =>
      if (length data =? 0)%nat then mret tt else
      if (length data <=? ncap)%nat then
        copy_in npos data ;;
        s ← gets id;
        b ← deref_node (m_cur s);
        (if (length b =? npos + length data)%nat then cur_next else mret tt) ;;
        advance_position (length data)
      else
        copy_in npos (take ncap data) ;;
        advance_position ncap ;;
        cur_next ;;
        s ← gets id;
        b ← deref_node (m_cur s);
        write_loop fuel' 0 (length b) (drop ncap data)
  end.

Definition write (data : list Z) : MB unit :=
  if (length data =? 0)%nat then mret tt else
  addCapacity (length data) ;;
  s ← gets id;
  let npos := (m_position s `mod` m_baseSize s)%nat in
  b ← deref_node (m_cur s);
  let ncap := (length b - npos)%nat in
  write_loop (S (length data)) npos ncap data ;;
  modify (λ s, if (m_size s <? m_position s)%nat then set_size (m_position s) s else s).

(** The loop of [read]. *)
Fixpoint read_loop (fuel npos ncap size : nat) : MB (list Z) :=
  match fuel with
  | O => fail NoFuel
  | S fuel' =>
      if (size =? 0)%nat then mret [] else
      s ← gets id;
      if (size <=? ncap)%nat then
        out ← copy_out (m_cur s) npos size;
        b ← deref_node (m_cur s);
        (if (length b =? npos + size)%nat then cur_next else mret tt) ;;
        advance_position size ;;
        mret out
      else
        out ← copy_out (m_cur s) npos ncap;
        advance_position ncap ;;
        cur_next ;;
        s ← gets id;
        b ← deref_node (m_cur s);
        rest ← read_loop fuel' 0 (length b) (size - ncap);
        mret (out ++ rest)
  end.

Definition read (size : nat) : MB (list Z) :=
  s ← gets id;
  if (getReadSize s <? size)%nat then fail OutOfRange else
  if (m_baseSize s =? 0)%nat then fail BadIndex else
  let npos := (m_position s `mod` m_baseSize s)%nat in
  b ← deref_node (m_cur s);
  let ncap := (length b - npos)%nat in
  read_loop (S size) npos ncap size.

(** [while(count > 0) { cur = cur->next; --count; }] *)
Fixpoint walk (count : nat) (cur : option nat) : MB (option nat) :=
  match count with
  | O => mret cur
  | S count' => c ← next_node cur; walk count' c
  end.

(** The loop of the [const] overload of [read], with its local [cur]. *)
Fixpoint read_at_loop (fuel : nat) (cur : option nat) (npos ncap size : nat) : MB (list Z) :=
  match fuel with
  | O => fail NoFuel
  | S fuel' =>
      if (size =? 0)%nat then mret [] else
      if (size <=? ncap)%nat then
        copy_out cur npos size
      else
        out ← copy_out cur npos ncap;
        c ← next_node cur;
        b ← deref_node c;
        rest ← read_at_loop fuel' c 0 (length b) (size - ncap);
        mret (out ++ rest)
  end.

(** [read(buf, size, position) const]: the room of the first block is taken
    from [m_cur], whatever block [position] is in. *)
Definition read_at (size position : nat) : MB (list Z) :=
  s ← gets id;
  if sub64 (m_size s) position <? Z.of_nat size then fail OutOfRange else
  if (m_baseSize s =? 0)%nat then fail BadIndex else
  let npos := (position `mod` m_baseSize s)%nat in
  let count := (position / m_baseSize s)%nat in
  cur ← walk count (Some 0%nat);
  b ← deref_node (m_cur s);
  let ncap := (length b - npos)%nat in
  read_at_loop (S size) cur npos ncap size.

(** The loop of [setPosition]. *)
Fixpoint seek (fuel v : nat) : MB nat :=
  match fuel with
  | O => fail NoFuel
  | S fuel' =>
      s ← gets id;
      b ← deref_node (m_cur s);
      if (length b <? v)%nat then cur_next ;; seek fuel' (v - length b) else mret v
  end.

Definition setPosition (v : nat) : MB unit :=
  s ← gets id;
  if (m_capacity s <? v)%nat then fail OutOfRange else
  modify (set_position v) ;;
  modify (λ s, if (m_size s <? m_position s)%nat then set_size (m_position s) s else s) ;;
  modify (set_cur (Some 0%nat)) ;;
  v' ← seek (S (length (m_nodes s))) v;
  s ← gets id;
  b ← deref_node (m_cur s);
  if (v' =? length b)%nat then cur_next else mret tt.

Definition clear s : ByteArray :=
  mkByteArray (m_baseSize s) 0 (m_baseSize s) 0 (m_endian s) (take 1 (m_nodes s)) (Some 0%nat).

End bytearray.
