(* ===== verification/ByteFacts.v ===== *)
(** * ByteFacts: a byte array is one flat sequence of bytes

    [ba_inv] is the invariant of the chain of blocks; [flat s] the bytes of the
    chain in order.  Every raw operation is characterised by its effect on
    [flat], whatever blocks the range of bytes crosses. *)

From S2P Require Import Prelude ByteArray.

Section defs.
Implicit Types s : ByteArray.

Definition flat s : list Z := concat (m_nodes s).

(** The block a position lies in: null at the end of the capacity. *)
Definition cur_at (base n p : nat) : option nat :=
  if (p / base <? n)%nat then Some (p / base)%nat else None.

(** The chain of blocks and the current block. *)
Record chain_inv s : Prop := {
  inv_base : (0 < m_baseSize s)%nat;
  inv_nodes : Forall (λ b, length b = m_baseSize s) (m_nodes s);
  inv_root : m_nodes s ≠ [];
  inv_capacity : m_capacity s = (length (m_nodes s) * m_baseSize s)%nat;
  inv_cur : m_cur s = cur_at (m_baseSize s) (length (m_nodes s)) (m_position s)
}.

Record ba_inv s : Prop := {
  inv_chain : chain_inv s;
  inv_position : (m_position s <= m_size s)%nat;
  inv_size : (m_size s <= m_capacity s)%nat
}.

(** The bytes [d] written over [l] from position [p] on. *)
Definition splice (l : list Z) (p : nat) (d : list Z) : list Z :=
  take p l ++ d ++ drop (p + length d) l.

(** [s] with other blocks and at another position. *)
Definition moved s (p : nat) (bs : list (list Z)) : ByteArray :=
  set_cur (cur_at (m_baseSize s) (length bs) p) (set_position p (set_nodes bs s)).

(** The bytes [m_position, m_size). *)
Definition unread s : list Z := take (getReadSize s) (drop (m_position s) (flat s)).
End defs.

(** ** Positions and blocks *)

Lemma div_at (base i r : nat) : (r < base)%nat → ((i * base + r) / base)%nat = i.
Proof. intros ?. rewrite Nat.div_add_l by lia. rewrite Nat.div_small; lia. Qed.

Lemma mod_at (base i r : nat) : (r < base)%nat → ((i * base + r) mod base)%nat = r.
Proof. intros ?. rewrite Nat.add_comm, Nat.Div0.mod_add, Nat.mod_small; lia. Qed.

Lemma position_split (base p : nat) :
  (0 < base)%nat → ∃ i r, p = (i * base + r)%nat ∧ (r < base)%nat.
Proof.
  intros ?. exists (p / base)%nat, (p mod base)%nat. pose proof (Nat.div_mod_eq p base).
  pose proof (Nat.mod_upper_bound p base). lia.
Qed.

Lemma cur_at_split (base n i r : nat) :
  (r < base)%nat → cur_at base n (i * base + r) = if (i <? n)%nat then Some i else None.
Proof. intros ?. unfold cur_at. by rewrite div_at. Qed.

Lemma cur_at_block (base n i : nat) :
  (0 < base)%nat → cur_at base n (i * base) = if (i <? n)%nat then Some i else None.
Proof. intros ?. rewrite <- (Nat.add_0_r (i * base)). by apply cur_at_split. Qed.

(** ** The blocks of the flat sequence *)

Lemma length_concat_blocks (base : nat) (bs : list (list Z)) :
  Forall (λ b, length b = base) bs → length (concat bs) = (length bs * base)%nat.
Proof. induction 1 as [|b bs Hb ? IH]; simpl; [done|]. rewrite length_app. lia. Qed.

Lemma concat_split (bs : list (list Z)) i b :
  bs !! i = Some b → concat bs = concat (take i bs) ++ b ++ concat (drop (S i) bs).
Proof.
  intros Hb. rewrite <- (take_drop_middle bs i b Hb) at 1. by rewrite concat_app.
Qed.

Lemma length_concat_take (base : nat) (bs : list (list Z)) i :
  Forall (λ b, length b = base) bs → (i <= length bs)%nat →
  length (concat (take i bs)) = (i * base)%nat.
Proof.
  intros Hbs Hi. rewrite (length_concat_blocks base) by by apply Forall_take.
  rewrite length_take, Nat.min_l by lia. done.
Qed.

Lemma length_splice l p d : (p + length d <= length l)%nat → length (splice l p d) = length l.
Proof. intros ?. unfold splice. rewrite !length_app, length_take, length_drop. lia. Qed.

Lemma splice_app_r l1 l2 p d :
  splice (l1 ++ l2) (length l1 + p) d = l1 ++ splice l2 p d.
Proof.
  unfold splice. rewrite take_app_add, <- app_assoc. do 3 f_equal.
  rewrite <- Nat.add_assoc. apply drop_app_add.
Qed.

Lemma splice_app_l l1 l2 p d :
  (p + length d <= length l1)%nat → splice (l1 ++ l2) p d = splice l1 p d ++ l2.
Proof.
  intros ?. unfold splice. rewrite take_app_le, drop_app_le by lia. by rewrite <- !app_assoc.
Qed.

Lemma splice_splice l p d1 d2 :
  (p + length d1 <= length l)%nat →
  splice (splice l p d1) (p + length d1) d2 = splice l p (d1 ++ d2).
Proof.
  intros ?. unfold splice at 1 2 3.
  assert (E : length (take p l ++ d1) = (p + length d1)%nat)
    by (rewrite length_app, length_take; lia).
  rewrite (app_assoc (take p l)), <- E, take_app_length, drop_app_add, drop_drop, E, length_app.
  rewrite <- !app_assoc. do 3 f_equal. f_equal. lia.
Qed.

Lemma splice_nil l p : splice l p [] = l.
Proof. unfold splice. simpl. rewrite Nat.add_0_r. apply take_drop. Qed.

(** A write inside a block is a write to the flat sequence. *)
Lemma concat_insert (base : nat) (bs : list (list Z)) i b r d :
  Forall (λ b, length b = base) bs → bs !! i = Some b → (r + length d <= length b)%nat →
  concat (<[i := splice b r d]> bs) = splice (concat bs) (i * base + r) d.
Proof.
  intros Hbs Hb Hr. pose proof (lookup_lt_Some _ _ _ Hb) as Hi.
  rewrite (concat_split _ i (splice b r d)) by by rewrite list_lookup_insert_eq.
  rewrite take_insert_ge, drop_insert_lt by lia. rewrite (concat_split bs i b Hb).
  rewrite <- (length_concat_take base bs i) by (done || lia).
  by rewrite splice_app_r, splice_app_l by lia.
Qed.

Lemma Forall_insert_block (base : nat) (bs : list (list Z)) i b r d :
  Forall (λ b, length b = base) bs → bs !! i = Some b → (r + length d <= length b)%nat →
  Forall (λ b, length b = base) (<[i := splice b r d]> bs).
Proof.
  intros Hbs Hb Hr. apply Forall_insert; [done|]. rewrite length_splice by done.
  by eapply (Forall_lookup_1 _ _ _ _ Hbs).
Qed.

(** A read inside a block is a read of the flat sequence. *)
Lemma concat_read (base : nat) (bs : list (list Z)) i b r n :
  Forall (λ b, length b = base) bs → bs !! i = Some b → (r + n <= length b)%nat →
  take n (drop (i * base + r) (concat bs)) = take n (drop r b).
Proof.
  intros Hbs Hb Hr. pose proof (lookup_lt_Some _ _ _ Hb) as Hi.
  rewrite (concat_split bs i b Hb), <- (length_concat_take base bs i) by (done || lia).
  rewrite drop_app_add, drop_app_le, take_app_le by (rewrite ?length_drop; lia). done.
Qed.

(** ** One step of the pointers *)

Section steps.
Context (junk : nat → Z).
Implicit Types s : ByteArray.

Lemma deref_node_Ok s i b : m_nodes s !! i = Some b → deref_node (Some i) s = Ok (b, s).
Proof. intros Hb. unfold deref_node. mrun. by rewrite Hb. Qed.

Lemma next_node_Ok s i :
  next_node (Some i) s = Ok (if (i + 1 <? length (m_nodes s))%nat then Some (i + 1)%nat else None, s).
Proof. unfold next_node. mrun. by case_match. Qed.

Lemma copy_in_Ok s i b r d :
  m_cur s = Some i → m_nodes s !! i = Some b → (r + length d <= length b)%nat →
  copy_in r d s = Ok (tt, set_nodes (<[i := splice b r d]> (m_nodes s)) s).
Proof.
  intros Hc Hb Hr. unfold copy_in, mbind at 1, M_bind at 1, gets. simpl.
  unfold mbind, M_bind. rewrite Hc, (deref_node_Ok s i b Hb).
  by destruct (Nat.leb_spec (r + length d) (length b)); [|lia].
Qed.

Lemma copy_out_Ok s i b r n :
  m_nodes s !! i = Some b → (r + n <= length b)%nat →
  copy_out (Some i) r n s = Ok (take n (drop r b), s).
Proof.
  intros Hb Hr. unfold copy_out, mbind, M_bind. rewrite (deref_node_Ok s i b Hb).
  by destruct (Nat.leb_spec (r + n) (length b)); [|lia].
Qed.

Lemma cur_next_Ok s i :
  m_cur s = Some i →
  cur_next s = Ok (tt, set_cur (if (i + 1 <? length (m_nodes s))%nat then Some (i + 1)%nat else None) s).
Proof.
  intros Hc. unfold cur_next, mbind at 1, M_bind at 1, gets. simpl.
  unfold mbind, M_bind. by rewrite Hc, next_node_Ok.
Qed.

(** The block at a position below the capacity. *)
Lemma chain_block s i r :
  chain_inv s → m_position s = (i * m_baseSize s + r)%nat → (r < m_baseSize s)%nat →
  (m_position s < m_capacity s)%nat →
  m_cur s = Some i ∧ ∃ b, m_nodes s !! i = Some b ∧ length b = m_baseSize s.
Proof.
  intros [] Hp Hr Hlt. assert (i < length (m_nodes s))%nat by nia.
  destruct (lookup_lt_is_Some_2 (m_nodes s) i) as [b Hb]; [done|].
  split; [|exists b; split; [done|by eapply (Forall_lookup_1 _ _ _ _ inv_nodes0)]].
  rewrite inv_cur0, Hp, cur_at_split by done. by destruct (Nat.ltb_spec i (length (m_nodes s))); [|lia].
Qed.

Lemma chain_moved s p bs :
  chain_inv s → Forall (λ b, length b = m_baseSize s) bs → length bs = length (m_nodes s) →
  chain_inv (moved s p bs).
Proof.
  intros [] Hbs Hlen. split; simpl; [done|done| |by rewrite Hlen|done].
  intros ->. destruct (m_nodes s); simpl in *; congruence.
Qed.

Lemma moved_id s : chain_inv s → moved s (m_position s) (m_nodes s) = s.
Proof. intros Hc. unfold moved. rewrite <- (inv_cur s Hc). by destruct s. Qed.

Lemma cur_at_next base n i : (0 < base)%nat →
  (if (i + 1 <? n)%nat then Some (i + 1)%nat else None) = cur_at base n ((i + 1) * base).
Proof. intros. by rewrite cur_at_block. Qed.

Lemma write_loop_spec fuel s i r data :
  chain_inv s → m_position s = (i * m_baseSize s + r)%nat → (r < m_baseSize s)%nat →
  (m_position s + length data <= m_capacity s)%nat → (length data < fuel)%nat →
  ∃ bs, write_loop fuel r (m_baseSize s - r) data s
        = Ok (tt, moved s (m_position s + length data) bs) ∧
    Forall (λ b, length b = m_baseSize s) bs ∧ length bs = length (m_nodes s) ∧
    concat bs = splice (flat s) (m_position s) data.
Proof.
  revert s i r data. induction fuel as [|fuel IH]; intros s i r data Hc Hp Hr Hcap Hfuel; [lia|].
  cbn [write_loop]. destruct (Nat.eqb_spec (length data) 0) as [E|E].
  { apply nil_length_inv in E as ->. exists (m_nodes s).
    rewrite splice_nil, Nat.add_0_r, moved_id by done. split_and!; [done|apply Hc|done|done]. }
  destruct (chain_block s i r) as (Hcur & b & Hb & Hlb); [done|done|done|lia|].
  destruct (Nat.leb_spec (length data) (m_baseSize s - r)).
  - unfold mbind, M_bind. rewrite (copy_in_Ok s i b r data) by (done || lia). unfold gets.
    set (bs := <[i := splice b r data]> (m_nodes s)).
    assert (Hbi : bs !! i = Some (splice b r data))
      by (apply list_lookup_insert_eq; by eapply lookup_lt_Some).
    simpl. rewrite Hcur, (deref_node_Ok _ i (splice b r data)) by done.
    rewrite length_splice, Hlb by lia. exists bs.
    assert (length bs = length (m_nodes s)) as Hlbs by apply length_insert.
    split_and!; [|eapply Forall_insert_block; [apply Hc|done|lia]|done|].
    + destruct (Nat.eqb_spec (m_baseSize s) (r + length data)) as [Eb|Eb].
      * rewrite (cur_next_Ok _ i) by done. unfold advance_position, modify, moved. simpl.
        rewrite (cur_at_next (m_baseSize s)) by apply Hc.
        replace ((i + 1) * m_baseSize s)%nat with (m_position s + length data)%nat by lia. done.
      * unfold advance_position, modify, mret, M_ret, moved. simpl.
        rewrite Hp, <- Nat.add_assoc, cur_at_split by lia. rewrite Hlbs.
        destruct (Nat.ltb_spec i (length (m_nodes s))); [|apply lookup_lt_Some in Hb; lia].
        unfold set_cur, set_position, set_nodes. simpl. by rewrite Hcur.
    + unfold bs, flat. rewrite Hp. eapply concat_insert; [apply Hc|done|lia].
  - set (d := take (m_baseSize s - r) data).
    assert (Hd : length d = (m_baseSize s - r)%nat) by (apply length_take_le; lia).
    unfold mbind, M_bind. rewrite (copy_in_Ok s i b r d) by (done || lia). unfold gets.
    set (bs := <[i := splice b r d]> (m_nodes s)).
    assert (length bs = length (m_nodes s)) as Hlbs by apply length_insert.
    unfold advance_position, modify. simpl. rewrite (cur_next_Ok _ i) by done. simpl.
    rewrite (cur_at_next (m_baseSize s)) by apply Hc.
    assert (Hp' : (m_position s + (m_baseSize s - r) = (i + 1) * m_baseSize s)%nat) by lia.
    set (s1 := set_cur _ _). assert (s1 = moved s ((i + 1) * m_baseSize s) bs) as ->.
    { unfold s1, moved. simpl. by rewrite Hp'. }
    assert (Hbs : Forall (λ b, length b = m_baseSize s) bs)
      by (eapply Forall_insert_block; [apply Hc|done|lia]).
    pose proof (chain_moved s ((i + 1) * m_baseSize s) bs Hc Hbs Hlbs) as Hc1.
    set (s1 := moved _ _ _) in *.
    destruct (chain_block s1 (i + 1) 0) as (Hcur1 & b1 & Hb1 & Hlb1);
      [done|simpl; lia|apply Hc|simpl; lia|].
    change (cur_at (m_baseSize s) (length bs) ((i + 1) * m_baseSize s)) with (m_cur s1).
    rewrite Hcur1, (deref_node_Ok _ _ b1) by done.
    destruct (IH s1 (i + 1)%nat 0%nat (drop (m_baseSize s - r) data)) as (bs2 & E2 & Hbs2 & Hl2 & Hf2);
      [done|simpl; lia|apply Hc|simpl; rewrite length_drop; lia|rewrite length_drop; lia|].
    rewrite Nat.sub_0_r in E2. rewrite Hlb1, E2. exists bs2. split_and!; [|done|by rewrite Hl2|].
    + unfold moved. simpl. rewrite length_drop.
      by replace ((i + 1) * m_baseSize s + (length data - (m_baseSize s - r)))%nat
        with (m_position s + length data)%nat by lia.
    + rewrite Hf2. unfold flat. simpl. unfold bs. erewrite concat_insert; [|apply Hc|done|lia].
      rewrite <- Hp. replace ((i + 1) * m_baseSize s)%nat with (m_position s + length d)%nat by lia.
      rewrite splice_splice; [by unfold d; rewrite take_drop|].
      erewrite length_concat_blocks; [|apply Hc]. destruct Hc. lia.
Qed.

Lemma ceil_div_ge (a b : nat) : (0 < b)%nat → (a <= (a + (b - 1)) / b * b)%nat.
Proof.
  intros Hb. pose proof (Nat.div_mod_eq (a + (b - 1)) b).
  pose proof (Nat.mod_upper_bound (a + (b - 1)) b). nia.
Qed.

(** What an operation that may add blocks keeps. *)
Record grown s s' : Prop := {
  grown_base : m_baseSize s' = m_baseSize s;
  grown_endian : m_endian s' = m_endian s;
  grown_capacity : (m_capacity s <= m_capacity s')%nat
}.

Lemma addCapacity_spec s size :
  chain_inv s → (m_position s <= m_capacity s)%nat →
  ∃ s', addCapacity junk size s = Ok (tt, s') ∧ chain_inv s' ∧ grown s s' ∧
    m_position s' = m_position s ∧ m_size s' = m_size s ∧ (∃ l, flat s' = flat s ++ l) ∧
    (m_position s' + size <= m_capacity s')%nat ∧
    (m_position s + size <= m_capacity s → m_capacity s' = m_capacity s)%nat.
Proof.
  intros Hc Hp. unfold addCapacity, getCapacity, mbind, M_bind, gets. simpl.
  assert (Hsame : (m_position s + size <= m_capacity s)%nat → ∃ s', Ok (tt, s) = Ok (tt, s') ∧
    chain_inv s' ∧ grown s s' ∧ m_position s' = m_position s ∧ m_size s' = m_size s ∧
    (∃ l, flat s' = flat s ++ l) ∧ (m_position s' + size <= m_capacity s')%nat ∧
    (m_position s + size <= m_capacity s → m_capacity s' = m_capacity s)%nat).
  { intros ?. exists s. split_and!; try done; [by exists []; rewrite app_nil_r]. }
  destruct (Nat.eqb_spec size 0) as [->|]; [apply Hsame; lia|].
  destruct (Nat.leb_spec size (m_capacity s - m_position s)); [apply Hsame; lia|]. clear Hsame.
  destruct Hc as [Hb Hns Hr Hcap Hcur].
  destruct (Nat.eqb_spec (m_baseSize s) 0); [lia|].
  set (k := ((size - (m_capacity s - m_position s) + (m_baseSize s - 1)) / m_baseSize s)%nat).
  assert (Hk : (size - (m_capacity s - m_position s) <= k * m_baseSize s)%nat) by (by apply ceil_div_ge).
  set (bs := m_nodes s ++ repeat (new_node junk (m_baseSize s)) k).
  assert (Hbs : Forall (λ b, length b = m_baseSize s) bs).
  { apply Forall_app; split; [done|]. rewrite List.Forall_forall. intros b Hin%repeat_spec.
    subst b. unfold new_node. by rewrite length_map, length_seq. }
  assert (Hlen : length bs = (length (m_nodes s) + k)%nat)
    by (unfold bs; rewrite length_app, repeat_length; done).
  set (s' := set_cur (cur_at (m_baseSize s) (length bs) (m_position s))
    (set_capacity (m_capacity s + k * m_baseSize s) (set_nodes bs s))).
  exists s'. split_and!; [|split; simpl|split; simpl| | | | |]; try done.
  - unfold modify. simpl. destruct (Nat.eqb_spec (m_capacity s - m_position s) 0) as [E|E]; simpl.
    + unfold s'. do 2 f_equal. replace (m_position s) with (length (m_nodes s) * m_baseSize s)%nat by lia.
      rewrite cur_at_block by done. destruct (Nat.ltb_spec (length (m_nodes s)) (length bs)); [done|nia].
    + unfold mret, M_ret, s'. do 2 f_equal. unfold set_cur. simpl. unfold set_capacity, set_nodes. simpl.
      f_equal. rewrite Hcur. unfold cur_at.
      assert (m_position s / m_baseSize s < length (m_nodes s))%nat by (apply Nat.Div0.div_lt_upper_bound; lia).
      destruct (Nat.ltb_spec (m_position s / m_baseSize s) (length (m_nodes s))); [|lia].
      destruct (Nat.ltb_spec (m_position s / m_baseSize s) (length bs)); [done|lia].
  - unfold bs. intros [? _]%app_eq_nil. done.
  - rewrite Hlen. lia.
  - lia.
  - exists (concat (repeat (new_node junk (m_baseSize s)) k)). unfold flat. simpl. unfold bs.
    by rewrite concat_app.
  - simpl. lia.
  - lia.
Qed.

Lemma length_flat s : chain_inv s → length (flat s) = m_capacity s.
Proof. intros []. unfold flat. by rewrite (length_concat_blocks (m_baseSize s)). Qed.

#[global] Arguments write_loop : simpl never.

(** [write]: the bytes replace what was at the position, and are added beyond
    the end; nothing else changes. *)
Lemma write_spec s data :
  ba_inv s →
  ∃ s', write junk data s = Ok (tt, s') ∧ ba_inv s' ∧ grown s s' ∧
    (m_position s + length data <= m_capacity s → m_capacity s' = m_capacity s)%nat ∧
    m_position s' = (m_position s + length data)%nat ∧
    m_size s' = (m_size s `max` (m_position s + length data))%nat ∧
    ∃ l, flat s' = splice (flat s ++ l) (m_position s) data ∧
      (m_position s + length data <= length (flat s ++ l))%nat.
Proof.
  intros [Hc Hp Hs]. unfold write. destruct (Nat.eqb_spec (length data) 0) as [E|E].
  { apply nil_length_inv in E as ->. exists s. simpl. rewrite Nat.add_0_r.
    split_and!; [done|done|done|done|done|lia|]. exists []. rewrite app_nil_r, splice_nil, length_flat by done.
    split; [done|lia]. }
  unfold mbind at 1, M_bind at 1.
  destruct (addCapacity_spec s (length data)) as (s1 & -> & Hc1 & Hg & Hp1 & Hs1 & (l & Hf1) & Hcap1 & Hfit);
    [done|lia|].
  unfold mbind at 1, M_bind at 1, gets. simpl. unfold mbind, M_bind.
  pose proof (inv_base _ Hc1) as Hb.
  destruct (position_split (m_baseSize s1) (m_position s1) Hb) as (i & r & Hir & Hr).
  destruct (chain_block s1 i r) as (Hcur & b & Hbl & Hlb); [done|done|done|lia|].
  rewrite Hcur, (deref_node_Ok _ _ b Hbl), Hlb. rewrite Hir, mod_at by done.
  destruct (write_loop_spec (S (length data)) s1 i r data) as (bs & -> & Hbs & Hlbs & Hf);
    [done|done|done|done|lia|]. unfold modify. simpl.
  rewrite Hs1, Hp1. set (s2 := if (_ <? _)%nat then _ else _).
  assert (E2 : s2 = set_size (m_size s `max` (m_position s + length data))
    (moved s1 (m_position s1 + length data) bs)).
  { unfold s2. destruct (Nat.ltb_spec (m_size s) (m_position s + length data)).
    - unfold moved, set_size. simpl. f_equal; lia || congruence.
    - rewrite Nat.max_l by lia. unfold moved, set_cur, set_position, set_nodes, set_size. simpl.
      f_equal; lia || congruence. }
  rewrite E2. eexists. split; [done|].
  pose proof (chain_moved s1 (m_position s1 + length data) bs Hc1 Hbs Hlbs) as [].
  destruct Hg, Hc. split_and!; [| |by simpl|simpl; lia|done|].
  - split; [by split|simpl; lia|simpl]. simpl in *. lia.
  - by split.
  - exists l. rewrite <- Hf1, <- Hp1. split; [done|]. by rewrite length_flat.
Qed.

Lemma take_drop_add {A} (n k p : nat) (l : list A) :
  take (n + k) (drop p l) = take n (drop p l) ++ take k (drop (p + n) l).
Proof. rewrite <- drop_drop. symmetry. apply take_take_drop. Qed.

Lemma read_loop_spec fuel s i r n :
  chain_inv s → m_position s = (i * m_baseSize s + r)%nat → (r < m_baseSize s)%nat →
  (m_position s + n <= m_capacity s)%nat → (n < fuel)%nat →
  read_loop fuel r (m_baseSize s - r) n s
  = Ok (take n (drop (m_position s) (flat s)), moved s (m_position s + n) (m_nodes s)).
Proof.
  revert s i r n. induction fuel as [|fuel IH]; intros s i r n Hc Hp Hr Hcap Hfuel; [lia|].
  cbn [read_loop]. destruct (Nat.eqb_spec n 0) as [->|E].
  { by rewrite Nat.add_0_r, moved_id. }
  destruct (chain_block s i r) as (Hcur & b & Hb & Hlb); [done|done|done|lia|].
  assert (Hi : (i < length (m_nodes s))%nat) by (by eapply lookup_lt_Some).
  unfold mbind at 1, M_bind at 1, gets. cbn beta iota. unfold id, mbind, M_bind. rewrite Hcur.
  destruct (Nat.leb_spec n (m_baseSize s - r)).
  - rewrite (copy_out_Ok s i b r n), (deref_node_Ok s i b) by (done || lia).
    rewrite <- (concat_read (m_baseSize s) (m_nodes s) i b r n), <- Hp by (done || apply Hc || lia).
    rewrite Hlb. change (concat (m_nodes s)) with (flat s).
    destruct (Nat.eqb_spec (m_baseSize s) (r + n)) as [Eb|Eb].
    + rewrite (cur_next_Ok s i) by done. unfold advance_position, modify, mret, M_ret, moved. simpl.
      rewrite (cur_at_next (m_baseSize s)) by apply Hc.
      by replace ((i + 1) * m_baseSize s)%nat with (m_position s + n)%nat by lia.
    + unfold advance_position, modify, mret, M_ret, moved. simpl.
      rewrite Hp, <- Nat.add_assoc, cur_at_split by lia.
      destruct (Nat.ltb_spec i (length (m_nodes s))); [|lia].
      unfold set_cur, set_position, set_nodes. simpl. by rewrite Hcur.
  - set (k := (m_baseSize s - r)%nat).
    rewrite (copy_out_Ok s i b r k) by (done || lia).
    unfold advance_position, modify. rewrite (cur_next_Ok _ i) by done.
    assert (Hp' : (m_position s + k = (i + 1) * m_baseSize s)%nat) by lia.
    set (s1 := set_cur _ _). assert (s1 = moved s (m_position s + k) (m_nodes s)) as E1.
    { unfold s1, moved. simpl. rewrite (cur_at_next (m_baseSize s)) by apply Hc. by rewrite Hp'. }
    clearbody s1. subst s1.
    pose proof (chain_moved s (m_position s + k) (m_nodes s) Hc (inv_nodes _ Hc) eq_refl) as Hc1.
    set (s1 := moved _ _ _) in *.
    destruct (chain_block s1 (i + 1) 0) as (Hcur1 & b1 & Hb1 & Hlb1);
      [done|simpl; lia|apply Hc|simpl; lia|].
    cbn beta iota. unfold gets, id. cbn beta iota. rewrite Hcur1, (deref_node_Ok _ _ b1) by done.
    specialize (IH s1 (i + 1)%nat 0%nat (n - k)%nat). rewrite Nat.sub_0_r in IH.
    rewrite Hlb1, IH; [|done|simpl; lia|apply Hc|simpl; lia|lia]. unfold mret, M_ret. do 2 f_equal.
    + replace n with (k + (n - k))%nat at 2 by lia. rewrite take_drop_add. f_equal.
      rewrite Hp. unfold flat. symmetry. eapply concat_read; [apply Hc|done|lia].
    + unfold moved. simpl. by replace (m_position s + k + (n - k))%nat with (m_position s + n)%nat by lia.
Qed.

#[global] Arguments read_loop : simpl never.

Lemma ba_moved s p :
  ba_inv s → (p <= m_size s)%nat → ba_inv (moved s p (m_nodes s)).
Proof.
  intros [Hc Hp Hs] Hle. split; [|done|done]. apply chain_moved; [done|apply Hc|done].
Qed.

(** [read] of bytes that are there: it needs a current block even to read nothing. *)
Lemma read_spec s n :
  ba_inv s → (n <= getReadSize s)%nat → (m_position s < m_capacity s)%nat →
  read n s = Ok (take n (drop (m_position s) (flat s)), moved s (m_position s + n) (m_nodes s)).
Proof.
  intros [Hc Hp Hs] Hn Hlt. unfold read, mbind at 1, M_bind at 1, gets. cbn beta iota. unfold id.
  destruct (Nat.ltb_spec (getReadSize s) n); [lia|]. pose proof (inv_base _ Hc) as Hb.
  destruct (Nat.eqb_spec (m_baseSize s) 0); [lia|]. unfold getReadSize in Hn.
  destruct (position_split (m_baseSize s) (m_position s) Hb) as (i & r & Hir & Hr).
  destruct (chain_block s i r) as (Hcur & b & Hbl & Hlb); [done|done|done|lia|].
  unfold mbind, M_bind. rewrite Hcur, (deref_node_Ok _ _ b Hbl), Hlb, Hir, mod_at by done.
  rewrite <- Hir. apply (read_loop_spec _ s i r n); [done|done|done|lia|lia].
Qed.

Lemma read_short s n : (getReadSize s < n)%nat → read n s = Fail OutOfRange.
Proof.
  intros Hn. unfold read, mbind, M_bind, gets. cbn beta iota. unfold id.
  by destruct (Nat.ltb_spec (getReadSize s) n); [|lia].
Qed.

(** At the end of the capacity there is no current block. *)
Lemma read_at_capacity s :
  ba_inv s → m_position s = m_capacity s → read 0 s = Fail BadPointer.
Proof.
  intros [Hc Hp Hs] He. unfold read, mbind, M_bind, gets. cbn beta iota. unfold id. simpl.
  pose proof (inv_base _ Hc) as Hb. destruct (Nat.eqb_spec (m_baseSize s) 0); [lia|].
  rewrite (inv_cur _ Hc), He, (inv_capacity _ Hc), cur_at_block by done.
  by rewrite Nat.ltb_irrefl.
Qed.

(** ** Seeking *)

Lemma seek_spec fuel s i v :
  Forall (λ b, length b = m_baseSize s) (m_nodes s) →
  m_cur s = Some i → (i < length (m_nodes s))%nat →
  (v <= (length (m_nodes s) - i) * m_baseSize s)%nat → (length (m_nodes s) - i < fuel)%nat →
  ∃ j w, seek fuel v s = Ok (w, set_cur (Some j) s) ∧ (j < length (m_nodes s))%nat ∧
    (w <= m_baseSize s)%nat ∧ (i * m_baseSize s + v = j * m_baseSize s + w)%nat.
Proof.
  revert s i v. induction fuel as [|fuel IH]; intros s i v Hns Hcur Hi Hv Hfuel; [lia|].
  destruct (lookup_lt_is_Some_2 (m_nodes s) i Hi) as [b Hb].
  assert (Hlb : length b = m_baseSize s) by by eapply (Forall_lookup_1 _ _ _ _ Hns).
  cbn [seek]. unfold mbind at 1, M_bind at 1, gets. cbn beta iota. unfold id, mbind, M_bind.
  rewrite Hcur, (deref_node_Ok _ _ b Hb), Hlb.
  destruct (Nat.ltb_spec (m_baseSize s) v).
  - rewrite (cur_next_Ok s i) by done. cbn beta iota.
    destruct (Nat.ltb_spec (i + 1) (length (m_nodes s))); [|nia].
    destruct (IH (set_cur (Some (i + 1)%nat) s) (i + 1)%nat (v - m_baseSize s)%nat)
      as (j & w & E & ? & ? & ?); simpl; try done; try nia.
    simpl in *. rewrite E. exists j, w. split_and!; [done|done|done|lia].
  - exists i, v. split_and!; [|done|done|done]. unfold mret, M_ret. rewrite <- Hcur. by destruct s.
Qed.

#[global] Arguments seek : simpl never.

(** [setPosition]: within the capacity, and the size grows up to the position. *)
Lemma setPosition_spec s v :
  ba_inv s → (v <= m_capacity s)%nat →
  setPosition v s = Ok (tt, moved (set_size (m_size s `max` v) s) v (m_nodes s)).
Proof.
  intros [Hc Hp Hs] Hv. unfold setPosition, mbind at 1, M_bind at 1, gets. cbn beta iota. unfold id.
  destruct (Nat.ltb_spec (m_capacity s) v); [lia|].
  unfold mbind, M_bind, modify. simpl. set (s1 := set_cur _ _).
  assert (E1 : s1 = set_cur (Some 0%nat) (set_position v (set_size (m_size s `max` v) s))).
  { unfold s1. destruct (Nat.ltb_spec (m_size s) v).
    - rewrite Nat.max_r by lia. done.
    - rewrite Nat.max_l by lia. by destruct s. }
  clearbody s1. subst s1. destruct Hc as [Hb Hns Hr Hcap Hcur].
  assert (0 < length (m_nodes s))%nat by (destruct (m_nodes s); simpl; [done|lia]).
  destruct (seek_spec (S (length (m_nodes s)))
    (set_cur (Some 0%nat) (set_position v (set_size (m_size s `max` v) s))) 0 v)
    as (j & w & E & Hj & Hw & Hjw); simpl; try done; try lia. simpl in *. rewrite E.
  destruct (lookup_lt_is_Some_2 (m_nodes s) j Hj) as [b Hbj].
  assert (Hlb : length b = m_baseSize s) by by eapply (Forall_lookup_1 _ _ _ _ Hns).
  cbn [m_cur set_cur]. rewrite (deref_node_Ok _ _ b) by done. rewrite Hlb.
  destruct (Nat.eqb_spec w (m_baseSize s)) as [Ew|Ew].
  - rewrite (cur_next_Ok _ j) by done. simpl. rewrite (cur_at_next (m_baseSize s)) by done.
    unfold moved. simpl. by replace ((j + 1) * m_baseSize s)%nat with v by lia.
  - unfold mret, M_ret, moved. simpl. rewrite Hjw, cur_at_split by lia.
    destruct (Nat.ltb_spec j (length (m_nodes s))); [done|lia].
Qed.

Lemma setPosition_inv s v :
  ba_inv s → (v <= m_capacity s)%nat → ba_inv (moved (set_size (m_size s `max` v) s) v (m_nodes s)).
Proof.
  intros [Hc Hp Hs] Hv. split; [|simpl; lia|simpl; lia].
  destruct Hc. by split.
Qed.

Lemma setPosition_out s v : (m_capacity s < v)%nat → setPosition v s = Fail OutOfRange.
Proof.
  intros ?. unfold setPosition, mbind, M_bind, gets. cbn beta iota. unfold id.
  by destruct (Nat.ltb_spec (m_capacity s) v); [|lia].
Qed.

(** ** The [const] read *)

Lemma walk_spec s k i :
  (i + k < length (m_nodes s))%nat → walk k (Some i) s = Ok (Some (i + k)%nat, s).
Proof.
  revert i. induction k as [|k IH]; intros i Hi; simpl; [by rewrite Nat.add_0_r|].
  unfold mbind, M_bind. rewrite next_node_Ok. destruct (Nat.ltb_spec (i + 1) (length (m_nodes s))); [|lia].
  rewrite IH by lia. by rewrite <- Nat.add_assoc.
Qed.

Lemma read_at_loop_spec fuel s i r n :
  chain_inv s → (i < length (m_nodes s))%nat → (r < m_baseSize s)%nat →
  (i * m_baseSize s + r + n <= m_capacity s)%nat → (n < fuel)%nat →
  read_at_loop fuel (Some i) r (m_baseSize s - r) n s
  = Ok (take n (drop (i * m_baseSize s + r) (flat s)), s).
Proof.
  revert i r n. induction fuel as [|fuel IH]; intros i r n Hc Hi Hr Hcap Hfuel; [lia|].
  cbn [read_at_loop]. destruct (Nat.eqb_spec n 0) as [->|E]; [done|].
  destruct (lookup_lt_is_Some_2 (m_nodes s) i Hi) as [b Hb].
  assert (Hlb : length b = m_baseSize s)
    by by eapply (Forall_lookup_1 _ _ _ _ (inv_nodes _ Hc)).
  destruct (Nat.leb_spec n (m_baseSize s - r)).
  - rewrite (copy_out_Ok s i b) by (done || lia). do 2 f_equal. symmetry.
    eapply concat_read; [apply Hc|done|lia].
  - unfold mbind, M_bind. set (k := (m_baseSize s - r)%nat).
    rewrite (copy_out_Ok s i b r k), next_node_Ok by (done || lia). pose proof (inv_capacity _ Hc).
    destruct (Nat.ltb_spec (i + 1) (length (m_nodes s))) as [Hi1|]; [|nia].
    destruct (lookup_lt_is_Some_2 (m_nodes s) (i + 1) Hi1) as [b1 Hb1].
    assert (Hlb1 : length b1 = m_baseSize s)
      by by eapply (Forall_lookup_1 _ _ _ _ (inv_nodes _ Hc)).
    rewrite (deref_node_Ok _ _ b1 Hb1), Hlb1. specialize (IH (i + 1)%nat 0%nat (n - k)%nat).
    rewrite Nat.sub_0_r in IH. rewrite IH by (done || apply Hc || lia).
    unfold mret, M_ret. do 2 f_equal. replace n with (k + (n - k))%nat at 2 by lia.
    rewrite take_drop_add. f_equal; [|f_equal; f_equal; lia].
    symmetry. eapply concat_read; [apply Hc|done|lia].
Qed.

#[global] Arguments read_at_loop : simpl never.

(** The [const] read from a position within the size works as long as the
    array is not positioned at the end of its capacity. *)
Lemma read_at_spec s n p :
  ba_inv s → Z.of_nat (m_capacity s) < 2 ^ 64 → (p <= m_size s)%nat → (p < m_capacity s)%nat →
  (n <= m_size s - p)%nat → (m_position s < m_capacity s)%nat →
  read_at n p s = Ok (take n (drop p (flat s)), s).
Proof.
  intros [Hc Hp Hs] H64 Hps Hpc Hn Hlt. unfold read_at, mbind at 1, M_bind at 1, gets.
  cbn beta iota. unfold id. pose proof (inv_base _ Hc) as Hb.
  unfold sub64. rewrite Z.mod_small by lia. destruct (Z.ltb_spec (Z.of_nat (m_size s) - Z.of_nat p) (Z.of_nat n)); [lia|].
  destruct (Nat.eqb_spec (m_baseSize s) 0); [lia|].
  destruct (position_split (m_baseSize s) p Hb) as (i & r & -> & Hr).
  destruct (position_split (m_baseSize s) (m_position s) Hb) as (i' & r' & Hir & Hr').
  destruct (chain_block s i' r') as (Hcur & b & Hbl & Hlb); [done|done|done|lia|].
  pose proof (inv_capacity _ Hc). assert (Hi : (i < length (m_nodes s))%nat) by nia.
  unfold mbind, M_bind. rewrite div_at, mod_at, walk_spec by (done || lia). simpl.
  rewrite Hcur, (deref_node_Ok _ _ b Hbl), Hlb. apply (read_at_loop_spec _ s i r n); [done|done|done|lia|lia].
Qed.
End steps.
