(* ===== verification/ByteCodec.v ===== *)
(** * ByteCodec: typed values in a byte array ([sylar/bytearray.cc])

    Integers of fixed width in either byte order, variable-length integers with
    zigzag for the signed ones, floats as their bit patterns, strings with a
    length prefix, files, and the scatter/gather views of the buffer.  A
    [std::string] is the list of its bytes. *)

From S2P Require Import Prelude ByteArray.

Section codec.
Context (host_little : bool) (junk : nat → Z).
Abbreviation MB A := (M ByteArray A).
Abbreviation write := (ByteArray.write junk).
Abbreviation SYLAR_BYTE_ORDER := (ByteArray.SYLAR_BYTE_ORDER host_little).
Implicit Types s : ByteArray.

(** ** Fixed width *)

(** The bytes of an [n]-byte integer in the memory of the host, and back. *)
Definition to_memory (n : nat) (v : Z) : list Z :=
  if host_little then to_le n v else rev (to_le n v).

Definition of_memory (l : list Z) : Z :=
  if host_little then of_le l else of_le (rev l).

Definition writeFuint8 (value : Z) : MB unit := write (to_memory 1 value).
Definition writeFint8 (value : Z) : MB unit := write (to_memory 1 (to_unsigned 1 value)).

(** [writeFuint16], [writeFuint32], [writeFuint64] with [n] = 2, 4, 8. *)
Definition writeFuint (n : nat) (value : Z) : MB unit :=
  s ← gets id;
  let value := if m_endian s =? SYLAR_BYTE_ORDER then value else byteswap n value in
  write (to_memory n value).

(** [writeFint16], [writeFint32], [writeFint64]: [byteswap] converts to the
    unsigned type and back. *)
Definition writeFint (n : nat) (value : Z) : MB unit :=
  s ← gets id;
  let value := if m_endian s =? SYLAR_BYTE_ORDER then value
               else to_signed n (byteswap n (to_unsigned n value)) in
  write (to_memory n (to_unsigned n value)).

Definition readFuint8 : MB Z := l ← read 1; mret (of_memory l).
Definition readFint8 : MB Z := l ← read 1; mret (to_signed 1 (of_memory l)).

Definition readFuint (n : nat) : MB Z :=
  l ← read n;
  s ← gets id;
  let v := of_memory l in
  mret (if m_endian s =? SYLAR_BYTE_ORDER then v else byteswap n v).

Definition readFint (n : nat) : MB Z :=
  l ← read n;
  s ← gets id;
  let v := to_signed n (of_memory l) in
  mret (if m_endian s =? SYLAR_BYTE_ORDER then v else to_signed n (byteswap n (to_unsigned n v))).

(** [memcpy] between a [float] ([double]) and the integer of its width: the
    value is represented by its bit pattern. *)
Definition writeFloat (bits : Z) : MB unit := writeFuint 4 bits.
Definition writeDouble (bits : Z) : MB unit := writeFuint 8 bits.
Definition readFloat : MB Z := readFuint 4.
Definition readDouble : MB Z := readFuint 8.

(** ** Variable length *)

(** [EncodeZigzag32] and [EncodeZigzag64] with [w] = 32, 64.  Negating the
    least value and doubling a value of [2 ^ (w - 2)] or more are signed overflows. *)
Definition EncodeZigzag (w v : Z) : MB Z :=
  if v <? 0 then
    if v =? - 2 ^ (w - 1) then fail Overflow
    else mret ((- v * 2 - 1) mod 2 ^ w)
  else if 2 ^ (w - 1) <=? v * 2 then fail Overflow
  else mret (v * 2).

(** [(v >> 1) ^ -(v & 1)] on the unsigned type, converted to the signed one. *)
Definition DecodeZigzag (w v : Z) : Z :=
  let u := Z.lxor (Z.shiftr v 1) ((- Z.land v 1) mod 2 ^ w) in
  if u <? 2 ^ (w - 1) then u else u - 2 ^ w.

(** The array [tmp] of [writeUint32] ([n] = 5) and [writeUint64] ([n] = 10);
    running out of [n] is a write past its end. *)
Fixpoint varint_bytes (n : nat) (value : Z) : MB (list Z) :=
  match n with
  | O => fail BadIndex
  | S n' =>
      if 128 <=? value then
        rest ← varint_bytes n' (Z.shiftr value 7);
        mret (Z.lor (Z.land value 127) 128 :: rest)
      else mret [value]
  end.

Definition writeUint32 (value : Z) : MB unit := tmp ← varint_bytes 5 value; write tmp.
Definition writeUint64 (value : Z) : MB unit := tmp ← varint_bytes 10 value; write tmp.
Definition writeInt32 (value : Z) : MB unit := v ← EncodeZigzag 32 value; writeUint32 v.
Definition writeInt64 (value : Z) : MB unit := v ← EncodeZigzag 64 value; writeUint64 v.

(** The loop [for(i = 0; i < w; i += 7)] of [readUint32] and [readUint64], [n]
    iterations left; a shift drops the bits above [w]. *)
Fixpoint read_varint (w : Z) (n : nat) (i result : Z) : MB Z :=
  match n with
  | O => mret result
  | S n' =>
      b ← readFuint8;
      if b <? 128 then mret (Z.lor result (Z.shiftl b i mod 2 ^ w))
      else read_varint w n' (i + 7) (Z.lor result (Z.shiftl (Z.land b 127) i mod 2 ^ w))
  end.

Definition readUint32 : MB Z := read_varint 32 5 0 0.
Definition readUint64 : MB Z := read_varint 64 10 0 0.
Definition readInt32 : MB Z := v ← readUint32; mret (DecodeZigzag 32 v).
Definition readInt64 : MB Z := v ← readUint64; mret (DecodeZigzag 64 v).

(** ** Strings *)

(** [writeStringF16], [writeStringF32], [writeStringF64]: the length is
    converted to the type of the prefix. *)
Definition writeStringF (n : nat) (value : list Z) : MB unit :=
  writeFuint n (to_unsigned n (Z.of_nat (length value))) ;; write value.

Definition writeStringVint (value : list Z) : MB unit :=
  writeUint64 (to_unsigned 8 (Z.of_nat (length value))) ;; write value.

Definition writeStringWithoutLength (value : list Z) : MB unit := write value.

Definition readStringF (n : nat) : MB (list Z) := len ← readFuint n; read (Z.to_nat len).
Definition readStringVint : MB (list Z) := len ← readUint64; read (Z.to_nat len).

Definition toString : MB (list Z) :=
  s ← gets id;
  if (getReadSize s =? 0)%nat then mret [] else read_at (getReadSize s) (m_position s).

(** ** Files *)

(** The loop of [writeToFile], [out] being what the file holds; a negative
    length, or one past the end of the block, is undefined behaviour of
    [ofs.write]. *)
Fixpoint file_loop (fuel : nat) (cur : option nat) (pos read_size : Z) (out : list Z) : MB (list Z) :=
  match fuel with
  | O => fail NoFuel
  | S fuel' =>
      s ← gets id;
      let base := Z.of_nat (m_baseSize s) in
      if read_size <=? 0 then mret out else
      let diff := pos mod base in
      let len := (if base <? read_size then base else read_size) - diff in
      if len <? 0 then fail BadIndex else
      data ← copy_out cur (Z.to_nat diff) (Z.to_nat len);
      c ← next_node cur;
      file_loop fuel' c (pos + len) (read_size - len) (out ++ data)
  end.

(** [writeToFile]: [None] when the file cannot be opened ([open] = false),
    otherwise the content of the file. *)
Definition writeToFile (open : bool) : MB (option (list Z)) :=
  if open then
    s ← gets id;
    out ← file_loop (S (getReadSize s + length (m_nodes s))) (m_cur s)
      (Z.of_nat (m_position s)) (Z.of_nat (getReadSize s)) [];
    mret (Some out)
  else mret None.

(** [ifs.read] takes a block, or what is left and sets the end-of-file flag. *)
Fixpoint readFromFile_loop (fuel : nat) (content : list Z) : MB unit :=
  match fuel with
  | O => fail NoFuel
  | S fuel' =>
      s ← gets id;
      write (take (m_baseSize s) content) ;;
      if (length content <? m_baseSize s)%nat then mret tt
      else readFromFile_loop fuel' (drop (m_baseSize s) content)
  end.

(** [readFromFile] on a file with the given content, [None] when it cannot be opened. *)
Definition readFromFile (file : option (list Z)) : MB bool :=
  match file with
  | None => mret false
  | Some content => readFromFile_loop (S (length content)) content ;; mret true
  end.

(** ** Scatter/gather views *)

(** The loop the three functions share: the pieces of [len] bytes from offset
    [npos] of the block [cur] on, of which [ncap] bytes are left. *)
Fixpoint iovec_loop (fuel : nat) (cur : option nat) (npos ncap len : nat) : MB (list iovec) :=
  match fuel with
  | O => fail NoFuel
  | S fuel' =>
      if (len =? 0)%nat then mret [] else
      match cur with
      | None => fail BadPointer
      | Some i =>
          if (len <=? ncap)%nat then mret [mkIovec i npos len]
          else
            c ← next_node cur;
            b ← deref_node c;
            rest ← iovec_loop fuel' c 0 (length b) (len - ncap);
            mret (mkIovec i npos ncap :: rest)
      end
  end.

Definition getReadBuffers (buffers : list iovec) (len : nat) : MB (nat * list iovec) :=
  s ← gets id;
  let len := if (getReadSize s <? len)%nat then getReadSize s else len in
  if (len =? 0)%nat then mret (0%nat, buffers) else
  if (m_baseSize s =? 0)%nat then fail BadIndex else
  let npos := (m_position s `mod` m_baseSize s)%nat in
  b ← deref_node (m_cur s);
  l ← iovec_loop (S len) (m_cur s) npos (length b - npos) len;
  mret (len, buffers ++ l).

(** The overload with a position: [len] is cut to what is left after
    [m_position], not after [position]. *)
Definition getReadBuffers_at (buffers : list iovec) (len position : nat) : MB (nat * list iovec) :=
  s ← gets id;
  let len := if (getReadSize s <? len)%nat then getReadSize s else len in
  if (len =? 0)%nat then mret (0%nat, buffers) else
  if (m_baseSize s =? 0)%nat then fail BadIndex else
  let npos := (position `mod` m_baseSize s)%nat in
  cur ← walk (position / m_baseSize s) (Some 0%nat);
  b ← deref_node cur;
  l ← iovec_loop (S len) cur npos (length b - npos) len;
  mret (len, buffers ++ l).

Definition getWriteBuffers (buffers : list iovec) (len : nat) : MB (nat * list iovec) :=
  if (len =? 0)%nat then mret (0%nat, buffers) else
  addCapacity junk len ;;
  s ← gets id;
  let npos := (m_position s `mod` m_baseSize s)%nat in
  b ← deref_node (m_cur s);
  l ← iovec_loop (S len) (m_cur s) npos (length b - npos) len;
  mret (len, buffers ++ l).
End codec.
