(* ===== verification/ByteCodecFacts.v ===== *)
(** * ByteCodecFacts: the bytes of a typed value

    Each typed value has an encoding that depends only on the byte order chosen
    for the array, not on the host; the writers write it, and the readers,
    placed before it, give the value back. *)

From S2P Require Import Prelude ByteArray ByteFacts ByteCodec.

(** ** Encodings *)

Definition enc_fixed (e : Z) (n : nat) (v : Z) : list Z :=
  if e =? SYLAR_LITTLE_ENDIAN then to_le n v else rev (to_le n v).

(** Groups of seven bits, the low one first, the top bit set on all but the last. *)
Fixpoint enc_varint (n : nat) (v : Z) : list Z :=
  match n with
  | O => []
  | S n' => if 128 <=? v then (v mod 128 + 128) :: enc_varint n' (v / 128) else [v]
  end.

Definition zigzag (v : Z) : Z := if v <? 0 then - v * 2 - 1 else v * 2.

Definition endian_ok (e : Z) : Prop := e = SYLAR_LITTLE_ENDIAN ∨ e = SYLAR_BIG_ENDIAN.

(** ** Little-endian bytes *)

Lemma length_to_le n v : length (to_le n v) = n.
Proof. revert v. induction n; simpl; auto. Qed.

Lemma to_le_bytes n v : Forall (λ b, 0 <= b < 256) (to_le n v).
Proof. revert v. induction n; simpl; constructor; [apply Z.mod_pos_bound; lia|done]. Qed.

Lemma pow_256_S n : 2 ^ (8 * Z.of_nat (S n)) = 256 * 2 ^ (8 * Z.of_nat n).
Proof. rewrite Nat2Z.inj_succ, Z.mul_succ_r, Z.add_comm, Z.pow_add_r; lia. Qed.

Lemma of_le_to_le n v : of_le (to_le n v) = v mod 2 ^ (8 * Z.of_nat n).
Proof.
  revert v. induction n as [|n IH]; intros v; [simpl; by rewrite Z.mod_1_r|].
  rewrite pow_256_S. cbn [to_le of_le]. rewrite IH.
  rewrite Z.rem_mul_r by lia. lia.
Qed.

Lemma of_le_to_le_id n v : 0 <= v < 2 ^ (8 * Z.of_nat n) → of_le (to_le n v) = v.
Proof. intros. rewrite of_le_to_le. by apply Z.mod_small. Qed.

Lemma to_le_of_le l : Forall (λ b, 0 <= b < 256) l → to_le (length l) (of_le l) = l.
Proof.
  induction 1 as [|b l Hb Hl IH]; [done|]. cbn [length to_le of_le]. f_equal.
  - rewrite Z.mul_comm, Z.mod_add by lia. by apply Z.mod_small.
  - rewrite Z.mul_comm, Z.div_add by lia. by rewrite (Z.div_small b 256), Z.add_0_l.
Qed.

Lemma to_le_byteswap n v : to_le n (byteswap n v) = rev (to_le n v).
Proof.
  unfold byteswap. rewrite <- (length_to_le n v) at 1. rewrite <- (List.length_rev (to_le n v)).
  apply to_le_of_le, List.Forall_rev, to_le_bytes.
Qed.

Lemma of_le_bound l : Forall (λ b, 0 <= b < 256) l → 0 <= of_le l < 2 ^ (8 * Z.of_nat (length l)).
Proof.
  induction 1 as [|b l Hb Hl IH]; [simpl; lia|]. cbn [length of_le]. rewrite pow_256_S. lia.
Qed.

Lemma byteswap_bound n v : 0 <= byteswap n v < 2 ^ (8 * Z.of_nat n).
Proof.
  pose proof (of_le_bound _ (List.Forall_rev (to_le_bytes n v))) as H.
  by rewrite List.length_rev, length_to_le in H.
Qed.

(** ** Signed and unsigned *)

Lemma to_unsigned_bound n v : 0 <= to_unsigned n v < 2 ^ (8 * Z.of_nat n).
Proof. apply Z.mod_pos_bound. lia. Qed.

Lemma to_signed_unsigned n v :
  (0 < n)%nat → - 2 ^ (8 * Z.of_nat n - 1) <= v < 2 ^ (8 * Z.of_nat n - 1) →
  to_signed n (to_unsigned n v) = v.
Proof.
  intros Hn Hv. unfold to_signed, to_unsigned.
  assert (E : 2 ^ (8 * Z.of_nat n) = 2 * 2 ^ (8 * Z.of_nat n - 1))
    by (rewrite <- Z.pow_succ_r by lia; f_equal; lia).
  destruct (Z.ltb_spec v 0).
  - replace (v mod 2 ^ (8 * Z.of_nat n)) with (v + 2 ^ (8 * Z.of_nat n)).
    + destruct (Z.ltb_spec (v + 2 ^ (8 * Z.of_nat n)) (2 ^ (8 * Z.of_nat n - 1))); lia.
    + rewrite <- (Z.mod_small (v + 2 ^ (8 * Z.of_nat n)) (2 ^ (8 * Z.of_nat n))) by lia.
      rewrite <- (Z.mul_1_l (2 ^ (8 * Z.of_nat n))) at 1. by rewrite Z.mod_add by lia.
  - rewrite Z.mod_small by lia. destruct (Z.ltb_spec v (2 ^ (8 * Z.of_nat n - 1))); lia.
Qed.

Lemma to_unsigned_signed n u :
  (0 < n)%nat → 0 <= u < 2 ^ (8 * Z.of_nat n) → to_unsigned n (to_signed n u) = u.
Proof.
  intros Hn Hu. unfold to_signed, to_unsigned.
  destruct (Z.ltb_spec u (2 ^ (8 * Z.of_nat n - 1))); [by apply Z.mod_small|].
  rewrite <- (Z.mod_small u (2 ^ (8 * Z.of_nat n))) at 2 by lia.
  replace (u - 2 ^ (8 * Z.of_nat n)) with (u + (-1) * 2 ^ (8 * Z.of_nat n)) by lia.
  by rewrite Z.mod_add by lia.
Qed.

(** ** Bits *)

Lemma lor_disjoint a x i : 0 <= a < 2 ^ i → 0 <= i → 0 <= x → Z.lor a (Z.shiftl x i) = a + x * 2 ^ i.
Proof.
  intros Ha Hi Hx. rewrite <- Z.shiftl_mul_pow2 by done. rewrite <- Z.add_lor_land.
  replace (Z.land a (Z.shiftl x i)) with 0; [lia|]. symmetry. apply Z.bits_inj'. intros k Hk.
  rewrite Z.land_spec, Z.bits_0, Z.shiftl_spec by done. destruct (Z.ltb_spec k i).
  - by rewrite (Z.testbit_neg_r x) by lia; rewrite andb_false_r.
  - rewrite <- (Z.mod_small a (2 ^ i)) by done. by rewrite Z.mod_pow2_bits_high by lia.
Qed.

Lemma land_127 v : Z.land v 127 = v mod 128.
Proof. change 127 with (Z.ones 7). by rewrite Z.land_ones. Qed.

Lemma land_1 v : Z.land v 1 = v mod 2.
Proof. change 1 with (Z.ones 1) at 1. by rewrite Z.land_ones. Qed.

Lemma lxor_ones w x : 0 < w → 0 <= x < 2 ^ w → Z.lxor x (2 ^ w - 1) = 2 ^ w - 1 - x.
Proof.
  intros Hw Hx. replace (2 ^ w - 1) with (Z.ones w) by (rewrite Z.ones_equiv; lia).
  rewrite Z.sub_nocarry_ldiff.
  - apply Z.bits_inj'. intros k Hk. rewrite Z.lxor_spec, Z.ldiff_spec.
    destruct (Z.ltb_spec k w).
    + rewrite Z.ones_spec_low by lia. by destruct (Z.testbit x k).
    + rewrite Z.ones_spec_high by lia. rewrite <- (Z.mod_small x (2 ^ w)) by done.
      by rewrite Z.mod_pow2_bits_high by lia.
  - apply Z.ldiff_ones_r_low; [lia|]. destruct (decide (x = 0)) as [->|]; [rewrite Z.log2_nonpos; lia|].
    apply Z.log2_lt_pow2; lia.
Qed.

(** ** Zigzag *)

Lemma zigzag_bound w v : 2 <= w → - 2 ^ (w - 1) <= v < 2 ^ (w - 1) → 0 <= zigzag v < 2 ^ w.
Proof.
  intros Hw Hv. assert (2 ^ w = 2 * 2 ^ (w - 1)) by (rewrite <- Z.pow_succ_r by lia; f_equal; lia).
  unfold zigzag. destruct (Z.ltb_spec v 0); lia.
Qed.

Lemma DecodeZigzag_zigzag w v :
  2 <= w → - 2 ^ (w - 1) <= v < 2 ^ (w - 1) → DecodeZigzag w (zigzag v) = v.
Proof.
  intros Hw Hv. assert (E : 2 ^ w = 2 * 2 ^ (w - 1)) by (rewrite <- Z.pow_succ_r by lia; f_equal; lia).
  assert (H2 : 1 < 2 ^ w) by (apply Z.pow_gt_1; lia).
  unfold DecodeZigzag, zigzag. rewrite land_1.
  rewrite Z.shiftr_div_pow2 by done. change (2 ^ 1) with 2. destruct (Z.ltb_spec v 0).
  - replace (- v * 2 - 1) with (1 + (- v - 1) * 2) by lia. rewrite Z.mod_add, Z.div_add by done.
    change (1 mod 2) with 1. change (1 / 2) with 0. rewrite Z.add_0_l.
    replace ((- (1)) mod 2 ^ w) with (2 ^ w - 1); [rewrite lxor_ones by lia|].
    + destruct (Z.ltb_spec (2 ^ w - 1 - (- v - 1)) (2 ^ (w - 1))); lia.
    + rewrite <- (Z.mod_small (2 ^ w - 1) (2 ^ w)) by lia. rewrite <- (Z.mod_add (- (1)) 1) by lia.
      f_equal. lia.
  - rewrite Z.mod_mul, Z.div_mul by done. simpl. rewrite Z.mod_0_l, Z.lxor_0_r by lia.
    destruct (Z.ltb_spec v (2 ^ (w - 1))); lia.
Qed.

(** The encoder computes it where it has no signed overflow. *)
Lemma EncodeZigzag_spec w v (s : ByteArray) :
  2 <= w → - 2 ^ (w - 1) <= v < 2 ^ (w - 1) →
  EncodeZigzag w v s =
  if (v =? - 2 ^ (w - 1)) || (2 ^ (w - 2) <=? v) then Fail Overflow else Ok (zigzag v, s).
Proof.
  intros Hw Hv. pose proof (zigzag_bound w v Hw Hv) as Hz.
  assert (E : 2 ^ w = 2 * 2 ^ (w - 1)) by (rewrite <- Z.pow_succ_r by lia; f_equal; lia).
  assert (E2 : 2 ^ (w - 1) = 2 * 2 ^ (w - 2)) by (rewrite <- Z.pow_succ_r by lia; f_equal; lia).
  unfold EncodeZigzag, zigzag in *. destruct (Z.ltb_spec v 0).
  - destruct (Z.leb_spec (2 ^ (w - 2)) v); [lia|]. rewrite orb_false_r.
    destruct (v =? _); [done|]. by rewrite Z.mod_small by lia.
  - destruct (Z.eqb_spec v (- 2 ^ (w - 1))); [lia|].
    destruct (Z.leb_spec (2 ^ (w - 1)) (v * 2)), (Z.leb_spec (2 ^ (w - 2)) v); simpl; done || lia.
Qed.

(** ** Variable-length integers *)

Lemma varint_bytes_spec n v (s : ByteArray) :
  (0 < n)%nat → 0 <= v < 2 ^ (7 * Z.of_nat n) → varint_bytes n v s = Ok (enc_varint n v, s).
Proof.
  revert v. induction n as [|n IH]; intros v Hn Hv; [lia|].
  cbn [varint_bytes enc_varint]. destruct (Z.leb_spec 128 v); [|done].
  rewrite Nat2Z.inj_succ, Z.mul_succ_r, Z.pow_add_r in Hv by lia. change (2 ^ 7) with 128 in Hv.
  assert (0 < n)%nat by (destruct n; [simpl in Hv; lia|lia]).
  unfold mbind, M_bind. rewrite Z.shiftr_div_pow2 by done. change (2 ^ 7) with 128.
  rewrite IH; [|done|split; [apply Z.div_pos; lia|apply Z.div_lt_upper_bound; lia]].
  rewrite land_127. pose proof (lor_disjoint (v mod 128) 1 7) as E.
  change (Z.shiftl 1 7) with 128 in E. by rewrite E by (lia || by apply Z.mod_pos_bound).
Qed.

Lemma enc_varint_nonempty n v : (0 < n)%nat → enc_varint n v ≠ [].
Proof. destruct n; simpl; [lia|]. by destruct (128 <=? v). Qed.

(** ** Readers

    [m] decodes [l] to [a]: wherever the bytes [l] are ahead of the position, [m]
    returns [a] and moves past them. *)

Definition ahead (s : ByteArray) (l : list Z) : Prop :=
  (length l <= getReadSize s)%nat ∧ take (length l) (drop (m_position s) (flat s)) = l.

Definition decodes {A} (e : Z) (m : M ByteArray A) (l : list Z) (a : A) : Prop :=
  l ≠ [] ∧ ∀ s, ba_inv s → m_endian s = e → ahead s l →
    m s = Ok (a, moved s (m_position s + length l) (m_nodes s)).

Lemma flat_moved s p : flat (moved s p (m_nodes s)) = flat s.
Proof. done. Qed.

Lemma length_cons_pos {A} (l : list A) : l ≠ [] → (0 < length l)%nat.
Proof. destruct l; simpl; [done|lia]. Qed.

Lemma ahead_room s l : ba_inv s → l ≠ [] → ahead s l → (m_position s < m_capacity s)%nat.
Proof.
  intros [] Hl%length_cons_pos [Hlen _]. unfold getReadSize in Hlen. lia.
Qed.

Lemma ahead_inv s l : ba_inv s → ahead s l → ba_inv (moved s (m_position s + length l) (m_nodes s)).
Proof.
  intros Hi [Hlen _]. apply ba_moved; [done|]. unfold getReadSize in Hlen. destruct Hi. lia.
Qed.

Lemma ahead_app s l1 l2 :
  ahead s (l1 ++ l2) → ahead s l1 ∧ ahead (moved s (m_position s + length l1) (m_nodes s)) l2.
Proof.
  intros [Hlen Ht]. rewrite length_app in *. rewrite take_drop_add in Ht.
  unfold getReadSize in *. assert (Hsz : (m_position s + (length l1 + length l2) <= m_size s)%nat ∨ l1 ++ l2 = []).
  { destruct l1, l2; simpl in *; auto; left; lia. }
  assert (length (take (length l1) (drop (m_position s) (flat s))) = length l1) as E1.
  { apply (f_equal length) in Ht. rewrite !length_app, !length_take, !length_drop in Ht.
    rewrite length_take, length_drop. lia. }
  apply app_inj_1 in Ht as [Ht1 Ht2]; [|done]. split.
  - split; [unfold getReadSize; lia|done].
  - split; [unfold getReadSize; simpl; lia|done].
Qed.

Lemma decodes_read e l : l ≠ [] → decodes e (read (length l)) l l.
Proof.
  intros Hl. split; [done|]. intros s Hi He Ha. rewrite read_spec; [|done|apply Ha|by eapply ahead_room].
  by destruct Ha as [_ ->].
Qed.

Lemma decodes_map {A B} e (m : M ByteArray A) l a (f : A → B) :
  decodes e m l a → decodes e (x ← m; mret (f x)) l (f a).
Proof.
  intros [Hl Hm]. split; [done|]. intros s Hi He Ha. unfold mbind, M_bind. by rewrite Hm.
Qed.

Lemma decodes_bind {A B} e (m : M ByteArray A) (k : A → M ByteArray B) l1 l2 a b :
  decodes e m l1 a → decodes e (k a) l2 b → decodes e (mbind k m) (l1 ++ l2) b.
Proof.
  intros [Hl1 Hm] [Hl2 Hk]. split; [by destruct l1|]. intros s Hi He [Ha1 Ha2]%ahead_app.
  unfold mbind, M_bind. rewrite Hm by done. rewrite Hk; [|by apply ahead_inv|done|done].
  unfold moved. simpl. by rewrite length_app, Nat.add_assoc.
Qed.

Section typed.
Context (host_little : bool) (junk : nat → Z).
Implicit Types s : ByteArray.

Lemma enc_fixed_length e n v : length (enc_fixed e n v) = n.
Proof. unfold enc_fixed. case_match; by rewrite ?List.length_rev, length_to_le. Qed.

(** Whatever the host, the bytes in memory after the conversion are those of
    the byte order of the array; and the same the other way round. *)
Lemma to_memory_enc e n v :
  endian_ok e →
  to_memory host_little n (if e =? SYLAR_BYTE_ORDER host_little then v else byteswap n v)
  = enc_fixed e n v.
Proof.
  intros [->| ->]; unfold to_memory, enc_fixed, SYLAR_BYTE_ORDER; destruct host_little; simpl;
    by rewrite ?to_le_byteswap, ?List.rev_involutive.
Qed.

Lemma of_memory_enc e n v :
  endian_ok e → 0 <= v < 2 ^ (8 * Z.of_nat n) →
  (if e =? SYLAR_BYTE_ORDER host_little then of_memory host_little (enc_fixed e n v)
   else byteswap n (of_memory host_little (enc_fixed e n v))) = v.
Proof.
  intros He Hv.
  assert (Hrev : byteswap n (of_le (rev (to_le n v))) = v).
  { unfold byteswap at 1. fold (byteswap n v).
    by rewrite to_le_byteswap, List.rev_involutive, of_le_to_le_id. }
  destruct He as [->| ->]; unfold of_memory, enc_fixed, SYLAR_BYTE_ORDER; destruct host_little; simpl;
    rewrite ?List.rev_involutive, ?of_le_to_le_id by done; done.
Qed.

Lemma enc_fixed_bytes e n v : Forall (λ b, 0 <= b < 256) (enc_fixed e n v).
Proof. unfold enc_fixed. case_match; [|apply List.Forall_rev]; apply to_le_bytes. Qed.

Lemma of_memory_bound e n v : 0 <= of_memory host_little (enc_fixed e n v) < 2 ^ (8 * Z.of_nat n).
Proof.
  pose proof (of_le_bound _ (enc_fixed_bytes e n v)) as H1.
  pose proof (of_le_bound _ (List.Forall_rev (enc_fixed_bytes e n v))) as H2.
  rewrite List.length_rev, enc_fixed_length in *. unfold of_memory. by case_match.
Qed.

Lemma writeFuint_spec n v s :
  endian_ok (m_endian s) → writeFuint host_little junk n v s = write junk (enc_fixed (m_endian s) n v) s.
Proof.
  intros He. unfold writeFuint, mbind, M_bind, gets. cbn beta iota. unfold id. by rewrite to_memory_enc.
Qed.

Lemma writeFint_spec n v s :
  (0 < n)%nat → endian_ok (m_endian s) →
  writeFint host_little junk n v s = write junk (enc_fixed (m_endian s) n (to_unsigned n v)) s.
Proof.
  intros Hn He. unfold writeFint, mbind, M_bind, gets. cbn beta iota. unfold id.
  rewrite <- (to_memory_enc _ n (to_unsigned n v) He). f_equal. f_equal. case_match; [done|].
  apply to_unsigned_signed; [done|apply byteswap_bound].
Qed.

Lemma decodes_Fuint e n v :
  (0 < n)%nat → endian_ok e → 0 <= v < 2 ^ (8 * Z.of_nat n) →
  decodes e (readFuint host_little n) (enc_fixed e n v) v.
Proof.
  intros Hn He Hv. assert (Hl : enc_fixed e n v ≠ []).
  { intros E%(f_equal length). rewrite enc_fixed_length in E. simpl in E. lia. }
  split; [done|]. intros s Hi Hes Ha. unfold readFuint.
  pose proof (proj2 (decodes_read e _ Hl) s Hi Hes Ha) as Hr. rewrite enc_fixed_length in Hr |- *.
  unfold mbind, M_bind. rewrite Hr. unfold gets, mret, M_ret, id. cbn beta iota.
  change (m_endian (moved _ _ _)) with (m_endian s). rewrite Hes. by rewrite of_memory_enc.
Qed.

Lemma decodes_Fint e n v :
  (0 < n)%nat → endian_ok e → - 2 ^ (8 * Z.of_nat n - 1) <= v < 2 ^ (8 * Z.of_nat n - 1) →
  decodes e (readFint host_little n) (enc_fixed e n (to_unsigned n v)) v.
Proof.
  intros Hn He Hv. pose proof (to_unsigned_bound n v) as Hb.
  destruct (decodes_Fuint e n (to_unsigned n v) Hn He Hb) as [Hl _]. split; [done|].
  intros s Hi Hes Ha. unfold readFint.
  pose proof (proj2 (decodes_read e _ Hl) s Hi Hes Ha) as Hr. rewrite enc_fixed_length in Hr |- *.
  unfold mbind, M_bind. rewrite Hr. unfold gets, mret, M_ret, id. cbn beta iota.
  change (m_endian (moved _ _ _)) with (m_endian s). rewrite Hes. do 2 f_equal.
  pose proof (of_memory_enc e n _ He Hb) as Hv'.
  rewrite (to_unsigned_signed n) by (done || apply of_memory_bound).
  destruct (e =? _); rewrite Hv'; by apply to_signed_unsigned.
Qed.

Lemma of_memory_1 b : of_memory host_little [b] = b.
Proof. unfold of_memory. destruct host_little; simpl; lia. Qed.

Lemma decodes_Fuint8 e b : decodes e (readFuint8 host_little) [b] b.
Proof.
  rewrite <- (of_memory_1 b) at 2. unfold readFuint8.
  by apply (decodes_map e (read 1) [b] [b] (of_memory host_little)), (decodes_read e [b]).
Qed.

Lemma to_memory_1 v : 0 <= v < 256 → to_memory host_little 1 v = [v].
Proof. intros. unfold to_memory. destruct host_little; simpl; by rewrite Z.mod_small. Qed.

Lemma decodes_Fint8 e v :
  -128 <= v < 128 → decodes e (readFint8 host_little) [to_unsigned 1 v] v.
Proof.
  intros Hv. rewrite <- (to_signed_unsigned 1 v) at 2 by (done || lia).
  rewrite <- (of_memory_1 (to_unsigned 1 v)) at 2. unfold readFint8.
  apply (decodes_map e (read 1) [_] [_] (λ l, to_signed 1 (of_memory host_little l))).
  by apply (decodes_read e [_]).
Qed.

Lemma decodes_varint e w n i acc v :
  (0 < n)%nat → 0 <= i → 0 <= acc < 2 ^ i → 0 <= v < 2 ^ (7 * Z.of_nat n) → v * 2 ^ i < 2 ^ w →
  decodes e (read_varint host_little w n i acc) (enc_varint n v) (acc + v * 2 ^ i).
Proof.
  revert i acc v. induction n as [|n IH]; intros i acc v Hn Hi Hacc Hv Hw; [lia|].
  cbn [read_varint enc_varint].
  rewrite Nat2Z.inj_succ, Z.mul_succ_r, Z.pow_add_r in Hv by lia. change (2 ^ 7) with 128 in Hv.
  destruct (Z.leb_spec 128 v).
  - pose proof (Z.mod_pos_bound v 128 eq_refl) as Hm. pose proof (Z.div_mod v 128 ltac:(lia)) as Hdm.
    assert (0 < n)%nat by (destruct n; [simpl in Hv; lia|lia]).
    assert (Hi7 : 2 ^ (i + 7) = 128 * 2 ^ i) by (rewrite Z.pow_add_r by lia; lia).
    assert (v / 128 * 2 ^ (i + 7) < 2 ^ w ∧ v mod 128 * 2 ^ i < 2 ^ w) as [? ?] by (rewrite Hi7; nia).
    apply (decodes_bind e _ _ [v mod 128 + 128] _ (v mod 128 + 128)); [apply decodes_Fuint8|].
    destruct (Z.ltb_spec (v mod 128 + 128) 128); [lia|]. rewrite land_127.
    replace ((v mod 128 + 128) mod 128) with (v mod 128)
      by (rewrite <- (Z.mul_1_l 128) at 3; rewrite Z.mod_add by lia; by rewrite Z.mod_mod by lia).
    rewrite Z.mod_small by (rewrite Z.shiftl_mul_pow2 by done; nia).
    rewrite lor_disjoint by lia.
    replace (acc + v * 2 ^ i) with (acc + v mod 128 * 2 ^ i + v / 128 * 2 ^ (i + 7)) by (rewrite Hi7; nia).
    apply IH; [done|lia|rewrite Hi7; nia| |done].
    split; [apply Z.div_pos; lia|apply Z.div_lt_upper_bound; lia].
  - split; [done|]. intros s Hs Hes Ha. unfold mbind, M_bind.
    rewrite (proj2 (decodes_Fuint8 e v) s Hs Hes Ha). destruct (Z.ltb_spec v 128); [|lia].
    rewrite Z.mod_small by (rewrite Z.shiftl_mul_pow2 by done; nia). by rewrite lor_disjoint by lia.
Qed.

(** ** Writers

    [wrote s s' l]: [s'] is [s] with the bytes [l] written at the position. *)

Record wrote s s' (l : list Z) : Prop := {
  wrote_inv : ba_inv s';
  wrote_grown : grown s s';
  wrote_fits : (m_position s + length l <= m_capacity s → m_capacity s' = m_capacity s)%nat;
  wrote_position : m_position s' = (m_position s + length l)%nat;
  wrote_size : m_size s' = (m_size s `max` (m_position s + length l))%nat;
  wrote_flat : ∃ t, flat s' = splice (flat s ++ t) (m_position s) l ∧
    (m_position s + length l <= length (flat s ++ t))%nat
}.

Definition emits (e : Z) (m : M ByteArray unit) (l : list Z) : Prop :=
  ∀ s, ba_inv s → m_endian s = e → ∃ s', m s = Ok (tt, s') ∧ wrote s s' l.

Lemma emits_write e l : emits e (write junk l) l.
Proof.
  intros s Hi He. destruct (write_spec junk s l Hi) as (s' & E & Hi' & Hg & Hc & Hp & Hs & t & Hf).
  exists s'. split; [done|]. split; [done|done|done|done|done|by exists t].
Qed.

Lemma wrote_app s s1 s2 l1 l2 : wrote s s1 l1 → wrote s1 s2 l2 → wrote s s2 (l1 ++ l2).
Proof.
  intros [Hi1 [] Hc1 Hp1 Hs1 (t1 & Hf1 & Hl1)] [Hi2 [] Hc2 Hp2 Hs2 (t2 & Hf2 & Hl2)].
  split; [done|split; [congruence|congruence|lia]| | | |]; rewrite ?length_app; [lia|lia|lia|].
  exists (t1 ++ t2). rewrite Hp1 in *. rewrite Hf1 in Hf2, Hl2.
  rewrite app_assoc. split.
  - rewrite Hf2, <- splice_app_l by done. apply splice_splice. rewrite length_app. lia.
  - rewrite length_app, length_splice in Hl2 by done. rewrite length_app. lia.
Qed.

Lemma emits_bind e m m' l l' : emits e m l → emits e m' l' → emits e (m ;; m') (l ++ l').
Proof.
  intros Hm Hm' s Hi He. destruct (Hm s Hi He) as (s1 & E1 & H1).
  destruct (Hm' s1) as (s2 & E2 & H2); [apply H1|by rewrite (grown_endian _ _ (wrote_grown _ _ _ H1))|].
  exists s2. unfold mbind, M_bind. rewrite E1, E2. split; [done|by eapply wrote_app].
Qed.

Lemma emits_Fuint e n v : endian_ok e → emits e (writeFuint host_little junk n v) (enc_fixed e n v).
Proof.
  intros He s Hi Hes. rewrite writeFuint_spec by by rewrite Hes. rewrite Hes. by apply (emits_write e).
Qed.

Lemma emits_Fint e n v :
  (0 < n)%nat → endian_ok e →
  emits e (writeFint host_little junk n v) (enc_fixed e n (to_unsigned n v)).
Proof.
  intros Hn He s Hi Hes. rewrite writeFint_spec by (done || by rewrite Hes).
  rewrite Hes. by apply (emits_write e).
Qed.

Lemma emits_varint e n v :
  (0 < n)%nat → 0 <= v < 2 ^ (7 * Z.of_nat n) →
  emits e (tmp ← varint_bytes n v; write junk tmp) (enc_varint n v).
Proof.
  intros Hn Hv s Hi He. unfold mbind, M_bind. rewrite varint_bytes_spec by done.
  by apply (emits_write e).
Qed.

Lemma emits_zigzag e w n v (m : Z → M ByteArray unit) :
  2 <= w → - 2 ^ (w - 1) < v < 2 ^ (w - 2) →
  emits e (m (zigzag v)) (enc_varint n (zigzag v)) →
  emits e (u ← EncodeZigzag w v; m u) (enc_varint n (zigzag v)).
Proof.
  intros Hw Hv Hm s Hi He. unfold mbind, M_bind.
  assert (2 ^ (w - 1) = 2 * 2 ^ (w - 2)) by (rewrite <- Z.pow_succ_r by lia; f_equal; lia).
  rewrite EncodeZigzag_spec by lia.
  destruct (Z.eqb_spec v (- 2 ^ (w - 1))); [lia|].
  destruct (Z.leb_spec (2 ^ (w - 2)) v); [lia|]. simpl. by apply Hm.
Qed.
End typed.

(** What was written is ahead of the position it was written at. *)
Lemma wrote_ahead s s' l :
  ba_inv s → wrote s s' l → ahead (moved s' (m_position s) (m_nodes s')) l.
Proof.
  intros Hi [_ _ _ Hp Hs (t & Hf & Hlen)]. split; [unfold getReadSize; simpl; lia|].
  simpl. rewrite flat_moved, Hf. unfold splice.
  assert (E : length (take (m_position s) (flat s ++ t)) = m_position s) by (rewrite length_take; lia).
  by rewrite drop_app_length' by done; rewrite take_app_length.
Qed.

Lemma wrote_seek s s' l :
  ba_inv s → wrote s s' l →
  setPosition (m_position s) s' = Ok (tt, moved s' (m_position s) (m_nodes s')) ∧
  ba_inv (moved s' (m_position s) (m_nodes s')).
Proof.
  intros Hi Hw. destruct (wrote_inv _ _ _ Hw) as [Hc Hp Hs]. pose proof (wrote_position _ _ _ Hw).
  rewrite setPosition_spec by (done || lia).
  rewrite Nat.max_l by lia. split; [by destruct s'|]. apply ba_moved; [done|lia].
Qed.
