(* ===== verification/ByteProps.v ===== *)
(** * ByteProps: what the byte array guarantees

    It behaves as a growing file with a position, typed values come back as
    they were written, and the cases in which the code fails are exactly
    described. *)

From S2P Require Import Prelude ByteArray ByteFacts ByteCodec ByteCodecFacts.

(** ** Refinement of a file with a position *)

Record file := mkFile { content : list Z; offset : nat }.

Definition f_write (data : list Z) (f : file) : file :=
  mkFile (splice (content f) (offset f) data) (offset f + length data).

Definition f_read (n : nat) (f : file) : option (list Z * file) :=
  if (offset f + n <=? length (content f))%nat
  then Some (take n (drop (offset f) (content f)), mkFile (content f) (offset f + n))
  else None.

Definition ba_file (s : ByteArray) : file := mkFile (take (m_size s) (flat s)) (m_position s).

Section file_lemmas.
Context (junk : nat → Z).
Implicit Types s : ByteArray.

Lemma length_content s : ba_inv s → length (content (ba_file s)) = m_size s.
Proof. intros [Hc Hp Hs]. simpl. rewrite length_take, length_flat by done. lia. Qed.

Lemma take_splice (l t d : list Z) (p n : nat) :
  (p <= n <= length l)%nat → (p + length d <= length (l ++ t))%nat →
  take (n `max` (p + length d)) (splice (l ++ t) p d) = splice (take n l) p d.
Proof.
  intros Hp Hd. unfold splice. rewrite take_take, Nat.min_l by lia.
  rewrite (take_app_le l t p) by lia.
  assert (E : length (take p l) = p) by (rewrite length_take; lia).
  rewrite take_app, E, (take_ge (take p l)) by lia. f_equal.
  rewrite take_app, (take_ge d) by lia. f_equal.
  replace (n `max` (p + length d) - p - length d)%nat with (n - (p + length d))%nat by lia.
  rewrite take_drop_commute. destruct (Nat.le_gt_cases (p + length d) n).
  - replace (p + length d + (n - (p + length d)))%nat with n by lia.
    by rewrite take_app_le by lia.
  - rewrite !drop_ge; [done|rewrite length_take; lia|rewrite length_take; lia].
Qed.

Lemma write_file s s' data : ba_inv s → wrote s s' data → ba_file s' = f_write data (ba_file s).
Proof.
  intros [Hc Hp Hs] [_ _ _ Hp' Hs' (t & Hf & Hlen)]. unfold ba_file, f_write. simpl.
  f_equal; [|done]. rewrite Hf, Hs'. apply take_splice; [rewrite length_flat by done; lia|done].
Qed.

Lemma read_file s n :
  ba_inv s → (n <= getReadSize s)%nat →
  f_read n (ba_file s) = Some (take n (drop (m_position s) (flat s)),
                               ba_file (moved s (m_position s + n) (m_nodes s))).
Proof.
  intros Hi Hn. unfold f_read. rewrite length_content by done. unfold getReadSize in Hn.
  destruct Hi as [Hc Hp Hs]. simpl. destruct (Nat.leb_spec (m_position s + n) (m_size s)); [|lia].
  do 2 f_equal. rewrite take_drop_commute, take_take, take_drop_commute. do 2 f_equal. lia.
Qed.

Lemma clear_inv s : ba_inv s → ba_inv (clear s).
Proof.
  intros [[Hb Hns Hr Hcap Hcur] Hp Hs]. destruct (m_nodes s) as [|b bs] eqn:E; [done|].
  split; [split|simpl; lia|simpl; lia]; simpl; rewrite ?E; simpl; [done| |done|lia|].
  - inversion Hns; subst. by constructor.
  - unfold cur_at. by rewrite Nat.Div0.div_0_l.
Qed.

Lemma new_array_inv base : (0 < base)%nat → ba_inv (new_ByteArray junk base).
Proof.
  intros Hb. split; [split|simpl; lia|simpl; lia]; simpl; [done| |done|lia|].
  - constructor; [|done]. unfold new_node. by rewrite length_map, length_seq.
  - unfold cur_at. by rewrite Nat.Div0.div_0_l.
Qed.

(** (C11) A byte array behaves as a file with a position, however its blocks are
    cut: writing always ends normally and overwrites or extends the file at the
    position; reading bytes that are there returns them and moves on; reading
    more throws; moving within the size keeps the content; moving beyond the
    capacity throws; clearing empties it.  A read while the position is at the
    end of the capacity does not: it uses a null block pointer, even when it is
    asked for no bytes. *)
Theorem byte_array_refines_file s (data : list Z) (n v : nat) (Hi : ba_inv s) :
  (∃ s', write junk data s = Ok (tt, s') ∧ ba_inv s' ∧ ba_file s' = f_write data (ba_file s)) ∧
  (m_position s < m_capacity s → n <= getReadSize s →
    ∃ l s', read n s = Ok (l, s') ∧ ba_inv s' ∧ f_read n (ba_file s) = Some (l, ba_file s'))%nat ∧
  (getReadSize s < n → read n s = Fail OutOfRange ∧ f_read n (ba_file s) = None)%nat ∧
  (v <= m_size s → ∃ s', setPosition v s = Ok (tt, s') ∧ ba_inv s' ∧
    ba_file s' = mkFile (content (ba_file s)) v)%nat ∧
  (m_capacity s < v → setPosition v s = Fail OutOfRange)%nat ∧
  (ba_inv (clear s) ∧ ba_file (clear s) = mkFile [] 0) ∧
  (m_position s = m_capacity s → read 0 s = Fail BadPointer).
Proof.
  pose proof (inv_position _ Hi). pose proof (inv_size _ Hi). split_and!.
  - destruct (emits_write junk (m_endian s) data s Hi eq_refl) as (s' & E & Hw).
    exists s'. split_and!; [done|apply Hw|by apply write_file].
  - intros Hlt Hn. eexists _, _. split_and!; [by apply read_spec| |by apply read_file].
    apply ba_moved; [done|unfold getReadSize in Hn; lia].
  - intros Hn. split; [by apply read_short|]. unfold f_read. rewrite length_content by done.
    unfold getReadSize in Hn. simpl. destruct (Nat.leb_spec (m_position s + n) (m_size s)); [lia|done].
  - intros Hv. eexists. split_and!; [apply setPosition_spec; [done|lia]|apply setPosition_inv; [done|lia]|].
    unfold ba_file. simpl. by rewrite Nat.max_l by lia.
  - apply setPosition_out.
  - by apply clear_inv.
  - done.
  - by apply read_at_capacity.
Qed.
End file_lemmas.

(** ** Round trip of typed values *)

(** A typed value, with the functions that write and read it. *)
Inductive item :=
  | Fuint8 (v : Z)
  | Fint8 (v : Z)
  | Fuint (n : nat) (v : Z)
  | Fint (n : nat) (v : Z)
  | Uint32 (v : Z)
  | Uint64 (v : Z)
  | Int32 (v : Z)
  | Int64 (v : Z)
  | Float (v : Z)
  | Double (v : Z)
  | StringF (n : nat) (v : list Z)
  | StringVint (v : list Z).

Definition width_ok (n : nat) : Prop := n = 2%nat ∨ n = 4%nat ∨ n = 8%nat.

(** The values each type holds; zigzag leaves out the values whose encoding
    overflows, and empty strings are left out because reading them can fail. *)
Definition item_ok (it : item) : Prop :=
  match it with
  | Fuint8 v => 0 <= v < 2 ^ 8
  | Fint8 v => - 2 ^ 7 <= v < 2 ^ 7
  | Fuint n v => width_ok n ∧ 0 <= v < 2 ^ (8 * Z.of_nat n)
  | Fint n v => width_ok n ∧ - 2 ^ (8 * Z.of_nat n - 1) <= v < 2 ^ (8 * Z.of_nat n - 1)
  | Uint32 v | Float v => 0 <= v < 2 ^ 32
  | Uint64 v | Double v => 0 <= v < 2 ^ 64
  | Int32 v => - 2 ^ 31 < v < 2 ^ 30
  | Int64 v => - 2 ^ 63 < v < 2 ^ 62
  | StringF n v => width_ok n ∧ v ≠ [] ∧ Z.of_nat (length v) < 2 ^ (8 * Z.of_nat n)
  | StringVint v => v ≠ [] ∧ Z.of_nat (length v) < 2 ^ 64
  end.

Section items.
Context (host_little : bool) (junk : nat → Z).
Implicit Types s : ByteArray.

Definition write_item (it : item) : M ByteArray unit :=
  match it with
  | Fuint8 v => writeFuint8 host_little junk v
  | Fint8 v => writeFint8 host_little junk v
  | Fuint n v => writeFuint host_little junk n v
  | Fint n v => writeFint host_little junk n v
  | Uint32 v => writeUint32 junk v
  | Uint64 v => writeUint64 junk v
  | Int32 v => writeInt32 junk v
  | Int64 v => writeInt64 junk v
  | Float v => writeFloat host_little junk v
  | Double v => writeDouble host_little junk v
  | StringF n v => writeStringF host_little junk n v
  | StringVint v => writeStringVint junk v
  end.

(** Read a value of the type of [it]. *)
Definition read_item (it : item) : M ByteArray item :=
  match it with
  | Fuint8 _ => v ← readFuint8 host_little; mret (Fuint8 v)
  | Fint8 _ => v ← readFint8 host_little; mret (Fint8 v)
  | Fuint n _ => v ← readFuint host_little n; mret (Fuint n v)
  | Fint n _ => v ← readFint host_little n; mret (Fint n v)
  | Uint32 _ => v ← readUint32 host_little; mret (Uint32 v)
  | Uint64 _ => v ← readUint64 host_little; mret (Uint64 v)
  | Int32 _ => v ← readInt32 host_little; mret (Int32 v)
  | Int64 _ => v ← readInt64 host_little; mret (Int64 v)
  | Float _ => v ← readFloat host_little; mret (Float v)
  | Double _ => v ← readDouble host_little; mret (Double v)
  | StringF n _ => v ← readStringF host_little n; mret (StringF n v)
  | StringVint _ => v ← readStringVint host_little; mret (StringVint v)
  end.

Fixpoint write_items (its : list item) : M ByteArray unit :=
  match its with
  | [] => mret tt
  | it :: its' => write_item it ;; write_items its'
  end.

Fixpoint read_items (its : list item) : M ByteArray (list item) :=
  match its with
  | [] => mret []
  | it :: its' => v ← read_item it; l ← read_items its'; mret (v :: l)
  end.

(** The bytes of a value. *)
Definition enc_item (e : Z) (it : item) : list Z :=
  match it with
  | Fuint8 v => [v]
  | Fint8 v => [to_unsigned 1 v]
  | Fuint n v => enc_fixed e n v
  | Fint n v => enc_fixed e n (to_unsigned n v)
  | Uint32 v => enc_varint 5 v
  | Uint64 v => enc_varint 10 v
  | Int32 v => enc_varint 5 (zigzag v)
  | Int64 v => enc_varint 10 (zigzag v)
  | Float v => enc_fixed e 4 v
  | Double v => enc_fixed e 8 v
  | StringF n v => enc_fixed e n (Z.of_nat (length v)) ++ v
  | StringVint v => enc_varint 10 (Z.of_nat (length v)) ++ v
  end.

Lemma width_pos n : width_ok n → (0 < n)%nat.
Proof. unfold width_ok. lia. Qed.

Lemma emits_item e it : endian_ok e → item_ok it → emits e (write_item it) (enc_item e it).
Proof.
  intros He Hok. destruct it; cbn [item_ok write_item enc_item] in *.
  - unfold writeFuint8. rewrite to_memory_1 by lia. apply emits_write.
  - unfold writeFint8. rewrite to_memory_1 by apply (to_unsigned_bound 1). apply emits_write.
  - by apply emits_Fuint.
  - apply emits_Fint; [apply width_pos, Hok|done].
  - apply (emits_varint _ _ 5); lia.
  - apply (emits_varint _ _ 10); lia.
  - apply (emits_zigzag _ 32 5); [lia|lia|].
    apply (emits_varint _ _ 5); [lia|]. pose proof (zigzag_bound 32 v). lia.
  - apply (emits_zigzag _ 64 10); [lia|lia|].
    apply (emits_varint _ _ 10); [lia|]. pose proof (zigzag_bound 64 v). lia.
  - by apply (emits_Fuint _ _ _ 4).
  - by apply (emits_Fuint _ _ _ 8).
  - destruct Hok as (Hn & Hv & Hl). unfold writeStringF. apply emits_bind; [|apply emits_write].
    unfold to_unsigned. rewrite Z.mod_small by lia. by apply emits_Fuint.
  - destruct Hok as (Hv & Hl). unfold writeStringVint. apply emits_bind; [|apply emits_write].
    unfold to_unsigned. rewrite Z.mod_small by lia. apply (emits_varint _ _ 10); lia.
Qed.

Lemma decodes_string e (m : M ByteArray Z) l v :
  v ≠ [] → decodes e m l (Z.of_nat (length v)) →
  decodes e (len ← m; read (Z.to_nat len)) (l ++ v) v.
Proof.
  intros Hv Hm. eapply decodes_bind; [done|]. rewrite Nat2Z.id. by apply decodes_read.
Qed.

Lemma decodes_item e it : endian_ok e → item_ok it → decodes e (read_item it) (enc_item e it) it.
Proof.
  intros He Hok. destruct it; cbn [item_ok read_item enc_item] in *; apply decodes_map.
  - apply decodes_Fuint8.
  - apply decodes_Fint8. lia.
  - destruct Hok. by apply decodes_Fuint; [apply width_pos| |].
  - destruct Hok. by apply decodes_Fint; [apply width_pos| |].
  - pose proof (decodes_varint host_little e 32 5 0 0 v) as H. rewrite Z.mul_1_r in H. apply H; lia.
  - pose proof (decodes_varint host_little e 64 10 0 0 v) as H. rewrite Z.mul_1_r in H. apply H; lia.
  - rewrite <- (DecodeZigzag_zigzag 32 v) at 2 by lia. pose proof (zigzag_bound 32 v) as Hz. unfold readInt32.
    apply (decodes_map e _ _ (zigzag v)).
    pose proof (decodes_varint host_little e 32 5 0 0 (zigzag v)) as H. rewrite Z.mul_1_r in H. apply H; lia.
  - rewrite <- (DecodeZigzag_zigzag 64 v) at 2 by lia. pose proof (zigzag_bound 64 v) as Hz. unfold readInt64.
    apply (decodes_map e _ _ (zigzag v)).
    pose proof (decodes_varint host_little e 64 10 0 0 (zigzag v)) as H. rewrite Z.mul_1_r in H. apply H; lia.
  - by apply (decodes_Fuint _ e 4); [lia| |].
  - by apply (decodes_Fuint _ e 8); [lia| |].
  - destruct Hok as (Hn & Hv & Hl). apply decodes_string; [done|].
    apply decodes_Fuint; [by apply width_pos|done|lia].
  - destruct Hok as (Hv & Hl). apply decodes_string; [done|].
    pose proof (decodes_varint host_little e 64 10 0 0 (Z.of_nat (length v))) as H.
    rewrite Z.mul_1_r in H. apply H; lia.
Qed.

Lemma emits_items e its :
  endian_ok e → Forall item_ok its → emits e (write_items its) (concat (map (enc_item e) its)).
Proof.
  intros He. induction 1 as [|it its Hit Hits IH]; simpl.
  - intros s Hi Hes. exists s. split; [done|].
    split; [done|by split|done| | |]; simpl; rewrite ?Nat.add_0_r; [done|destruct Hi; lia|].
    exists []. destruct Hi. rewrite splice_nil, app_nil_r, length_flat by done. split; [done|lia].
  - apply emits_bind; [by apply emits_item|done].
Qed.

Lemma read_items_spec e its s :
  endian_ok e → Forall item_ok its → ba_inv s → m_endian s = e →
  ahead s (concat (map (enc_item e) its)) →
  read_items its s
  = Ok (its, moved s (m_position s + length (concat (map (enc_item e) its))) (m_nodes s)).
Proof.
  intros He Hits. revert s. induction Hits as [|it its Hit Hits IH]; intros s Hi Hes Ha; simpl in *.
  - rewrite Nat.add_0_r, moved_id by apply Hi. done.
  - apply ahead_app in Ha as [Ha1 Ha2]. destruct (decodes_item e it He Hit) as [_ Hd].
    unfold mbind, M_bind. rewrite Hd by done.
    rewrite IH; [|by apply ahead_inv|done|done]. unfold mret, M_ret, moved. simpl.
    by rewrite length_app, Nat.add_assoc.
Qed.

Lemma items_come_back (its : list item) s (Hok : Forall item_ok its) (Hi : ba_inv s)
  (He : endian_ok (m_endian s)) :
  ∃ s1 s2, write_items its s = Ok (tt, s1) ∧ ba_inv s1 ∧
    (setPosition (m_position s) ;; read_items its) s1 = Ok (its, s2) ∧ ba_inv s2 ∧
    m_position s2 = m_position s1 ∧ flat s2 = flat s1 ∧
    take (m_position s) (flat s1) = take (m_position s) (flat s) ∧
    (m_position s1 <= m_size s → drop (m_position s1) (ba_file s1).(content)
                               = drop (m_position s1) (ba_file s).(content))%nat.
Proof.
  destruct (emits_items (m_endian s) its He Hok s Hi eq_refl) as (s1 & E1 & Hw).
  destruct (wrote_seek s s1 _ Hi Hw) as [Es Hs]. pose proof (wrote_ahead s s1 _ Hi Hw) as Ha.
  pose proof (read_items_spec _ its _ He Hok Hs (grown_endian _ _ (wrote_grown _ _ _ Hw)) Ha) as Er.
  eexists s1, _. split_and!; [done|apply Hw|unfold mbind, M_bind; rewrite Es; apply Er| | |done| |].
  - apply (ahead_inv _ _ Hs Ha).
  - simpl. by rewrite (wrote_position _ _ _ Hw).
  - destruct (wrote_flat _ _ _ Hw) as (t & -> & _). unfold splice. destruct Hi as [Hc Hp Hsz].
    rewrite take_app_le by (rewrite length_take, length_app, length_flat by done; lia).
    rewrite take_take, Nat.min_id. apply take_app_le. rewrite length_flat by done. lia.
  - intros Hle. rewrite (write_file s s1 _ Hi Hw). unfold f_write. cbn [content offset].
    pose proof (wrote_position _ _ _ Hw) as Hp1. pose proof (length_content s Hi) as Hlc.
    change (offset (ba_file s)) with (m_position s). destruct Hi as [Hc Hp Hsz].
    unfold splice. rewrite Hp1, app_assoc, drop_app_length'; [done|].
    rewrite length_app, length_take. lia.
Qed.

(** The two ways a round trip can fail.  The signed variable-length
    writers overflow a signed integer for every value of at least a quarter of
    the range ([2^30] for 32 bits, [2^62] for 64) and for the least one, and
    write all other values; and an empty string whose length is the last byte
    of the capacity cannot be read back: [readStringVint] dereferences the null
    block pointer although nothing is left to read. *)
Theorem roundtrip_exceptions s (v : Z) (Hi : ba_inv s) :
  (- 2 ^ 31 <= v < 2 ^ 31 →
    if (v =? - 2 ^ 31) || (2 ^ 30 <=? v) then writeInt32 junk v s = Fail Overflow
    else ∃ s', writeInt32 junk v s = Ok (tt, s')) ∧
  (- 2 ^ 63 <= v < 2 ^ 63 →
    if (v =? - 2 ^ 63) || (2 ^ 62 <=? v) then writeInt64 junk v s = Fail Overflow
    else ∃ s', writeInt64 junk v s = Ok (tt, s')) ∧
  ((m_position s + 1 = m_capacity s)%nat →
    ∃ s', writeStringVint junk [] s = Ok (tt, s') ∧
      (setPosition (m_position s) ;; readStringVint host_little) s' = Fail BadPointer).
Proof.
  split_and!.
  - intros Hv. destruct ((v =? - 2 ^ 31) || (2 ^ 30 <=? v)) eqn:Hb.
    + unfold writeInt32, mbind, M_bind. rewrite (EncodeZigzag_spec 32) by lia.
      by change ((v =? - 2 ^ (32 - 1)) || (2 ^ (32 - 2) <=? v)) with ((v =? - 2 ^ 31) || (2 ^ 30 <=? v)); rewrite Hb.
    + zify_bool. destruct (emits_zigzag (m_endian s) 32 5 v (writeUint32 junk)) with s as (s' & E & _);
        [lia|lia| |done|done|by exists s'].
      apply (emits_varint _ _ 5); [lia|]. pose proof (zigzag_bound 32 v). lia.
  - intros Hv. destruct ((v =? - 2 ^ 63) || (2 ^ 62 <=? v)) eqn:Hb.
    + unfold writeInt64, mbind, M_bind. rewrite (EncodeZigzag_spec 64) by lia.
      by change ((v =? - 2 ^ (64 - 1)) || (2 ^ (64 - 2) <=? v)) with ((v =? - 2 ^ 63) || (2 ^ 62 <=? v)); rewrite Hb.
    + zify_bool. destruct (emits_zigzag (m_endian s) 64 10 v (writeUint64 junk)) with s as (s' & E & _);
        [lia|lia| |done|done|by exists s'].
      apply (emits_varint _ _ 10); [lia|]. pose proof (zigzag_bound 64 v). lia.
  - intros Hlast. destruct (emits_varint junk (m_endian s) 10 0) with s as (s' & E & Hw); [lia|lia|done|done|].
    exists s'. split; [unfold writeStringVint, mbind at 1, M_bind at 1; change (to_unsigned 8 _) with 0;
      unfold writeUint64; by rewrite E|].
    change (enc_varint 10 0) with [0] in Hw. destruct (wrote_seek s s' _ Hi Hw) as [Es Hs].
    pose proof (wrote_ahead s s' _ Hi Hw) as Ha. pose proof (wrote_fits _ _ _ Hw) as Hc.
    destruct (decodes_varint host_little (m_endian s') 64 10 0 0 0) as [_ Hd]; [lia..|].
    unfold mbind at 1, M_bind at 1. rewrite Es. unfold readStringVint, readUint64, mbind, M_bind.
    rewrite Hd by done. simpl in *. apply read_at_capacity; [|simpl; lia].
    by apply (ahead_inv _ _ Hs Ha).
Qed.
(** (C8) Round trip of a sequence of typed values, each of those its type holds but for: a 32-bit signed variable-length integer from 2^30 on, a 64-bit
    one from 2^62 on, the least of each, and empty strings. Written anywhere in a byte array of
    either byte order on a host of either byte order, they come back: writing ends normally, moving back to where it began and reading the same types returns the same values and ends
    where the writing ended, and the bytes before and after are untouched. The exceptions are real: each of the signed values left out overflows when it is written,
    and an empty string whose length takes the last byte of the capacity is written, but reading it dereferences the null block pointer. *)
Theorem items_roundtrip (its : list item) s (Hok : Forall item_ok its) (Hi : ba_inv s)
  (He : endian_ok (m_endian s)) :
  (∃ s1 s2, write_items its s = Ok (tt, s1) ∧ ba_inv s1 ∧
    (setPosition (m_position s) ;; read_items its) s1 = Ok (its, s2) ∧ ba_inv s2 ∧
    m_position s2 = m_position s1 ∧ flat s2 = flat s1 ∧
    take (m_position s) (flat s1) = take (m_position s) (flat s) ∧
    (m_position s1 <= m_size s → drop (m_position s1) (ba_file s1).(content)
                               = drop (m_position s1) (ba_file s).(content))%nat) ∧
  (∀ v, - 2 ^ 31 <= v < 2 ^ 31 → ¬ item_ok (Int32 v) → write_item (Int32 v) s = Fail Overflow) ∧
  (∀ v, - 2 ^ 63 <= v < 2 ^ 63 → ¬ item_ok (Int64 v) → write_item (Int64 v) s = Fail Overflow) ∧
  ((m_position s + 1 = m_capacity s)%nat → ∃ s', write_item (StringVint []) s = Ok (tt, s') ∧
     (setPosition (m_position s) ;; read_item (StringVint [])) s' = Fail BadPointer).
Proof.
  split; [by apply items_come_back|]. split_and!.
  - intros v Hv Hno. destruct (roundtrip_exceptions s v Hi) as (H & _). specialize (H Hv). cbn [write_item item_ok] in *. destruct (_ || _) eqn:Hb; [done|]. zify_bool. lia.
  - intros v Hv Hno. destruct (roundtrip_exceptions s v Hi) as (_ & H & _). specialize (H Hv). cbn [write_item item_ok] in *. destruct (_ || _) eqn:Hb; [done|]. zify_bool. lia.
  - intros Hlast. destruct (roundtrip_exceptions s 0 Hi) as (_ & _ & H). destruct (H Hlast) as (s' & E1 & E2). exists s'. split; [exact E1|].
    cbn [read_item]. unfold mbind, M_bind in *.
    destruct (setPosition (m_position s) s') as [[u s2]|f]; [by rewrite E2|by injection E2 as ->].
Qed.
End items.

(** ** Witnesses *)

Definition sample_array : ByteArray :=
  mkByteArray 4 2 8 6 SYLAR_BIG_ENDIAN [[1; 2; 3; 4]; [5; 6; 0; 0]] (Some 0%nat).

Lemma sample_array_inv : ba_inv sample_array.
Proof. split; [split; [simpl; lia|by repeat constructor|done|done|done]|simpl; lia|simpl; lia]. Qed.

Lemma byte_array_refines_file_witness :
  ∃ s', write (λ _, 0) [7; 8; 9] sample_array = Ok (tt, s') ∧
    ba_file s' = mkFile [1; 2; 7; 8; 9; 6] 5.
Proof.
  destruct (byte_array_refines_file (λ _, 0) sample_array [7; 8; 9] 1 0 sample_array_inv)
    as [(s' & E & _ & Hf) _].
  exists s'. split; [exact E|]. rewrite Hf. reflexivity.
Defined.

Definition sample_items : list item :=
  [Fint 2 (-5); StringVint [104; 105]; Int32 (-300); Uint64 (2 ^ 63); Double 12; StringF 4 [0]].

Lemma sample_items_ok : Forall item_ok sample_items.
Proof. repeat (apply Forall_cons; split); try apply Forall_nil_2; simpl; unfold width_ok; repeat split; try lia; done. Qed.

Lemma items_roundtrip_witness :
  ∃ s1 s2, write_items true (λ _, 0) sample_items sample_array = Ok (tt, s1) ∧
    (setPosition 2 ;; read_items true sample_items) s1 = Ok (sample_items, s2).
Proof.
  destruct (items_roundtrip true (λ _, 0) sample_items sample_array sample_items_ok sample_array_inv)
    as [(s1 & s2 & E1 & _ & E2 & _) _]; [right; reflexivity|].
  exists s1, s2. split; [exact E1|exact E2].
Defined.

Lemma roundtrip_exceptions_witness :
  writeInt32 (λ _, 0) (2 ^ 30) sample_array = Fail Overflow.
Proof.
  destruct (roundtrip_exceptions true (λ _, 0) sample_array (2 ^ 30) sample_array_inv) as [H _].
  apply H. lia.
Defined.
