(* ===== verification/ByteBuffers.v ===== *)
(** * ByteBuffers: files, scatter/gather views and failing cases of the byte array *)

From S2P Require Import Prelude ByteArray ByteFacts ByteCodec ByteCodecFacts ByteProps.

(** The flat positions the pieces of a view cover, in order; each piece lies
    within its block. *)
Definition positions (s : ByteArray) (l : list iovec) : list nat :=
  concat (map (λ v, seq (iov_node v * m_baseSize s + iov_off v) (iov_len v)) l).

Definition within_blocks (s : ByteArray) (l : list iovec) : Prop :=
  Forall (λ v, (iov_node v < length (m_nodes s) ∧ iov_off v + iov_len v <= m_baseSize s)%nat) l.

Section buffers.
Context (junk : nat → Z).
Implicit Types s : ByteArray.

Lemma iovec_loop_spec fuel s i r n :
  chain_inv s → (i < length (m_nodes s))%nat → (r < m_baseSize s)%nat →
  (i * m_baseSize s + r + n <= m_capacity s)%nat → (n < fuel)%nat →
  ∃ l, iovec_loop fuel (Some i) r (m_baseSize s - r) n s = Ok (l, s) ∧
    positions s l = seq (i * m_baseSize s + r) n ∧ within_blocks s l.
Proof.
  revert i r n. induction fuel as [|fuel IH]; intros i r n Hc Hi Hr Hcap Hfuel; [lia|].
  cbn [iovec_loop]. destruct (Nat.eqb_spec n 0) as [->|E].
  { exists []. split_and!; [done|done|apply Forall_nil_2]. }
  destruct (Nat.leb_spec n (m_baseSize s - r)).
  - eexists. split_and!; [done|unfold positions; simpl; by rewrite app_nil_r|].
    constructor; [simpl; lia|apply Forall_nil_2].
  - unfold mbind, M_bind. rewrite next_node_Ok. pose proof (inv_capacity _ Hc).
    destruct (Nat.ltb_spec (i + 1) (length (m_nodes s))) as [Hi1|]; [|nia].
    destruct (lookup_lt_is_Some_2 (m_nodes s) (i + 1) Hi1) as [b1 Hb1].
    assert (Hlb1 : length b1 = m_baseSize s)
      by by eapply (Forall_lookup_1 _ _ _ _ (inv_nodes _ Hc)).
    rewrite (deref_node_Ok _ _ b1 Hb1), Hlb1.
    destruct (IH (i + 1)%nat 0%nat (n - (m_baseSize s - r))%nat) as (l & E2 & Hpos & Hin);
      [done|done|apply Hc|lia|lia|]. rewrite Nat.sub_0_r in E2. rewrite E2.
    eexists. split_and!; [done| |constructor; [simpl; lia|done]].
    unfold positions in *. simpl. rewrite Hpos.
    replace n with ((m_baseSize s - r) + (n - (m_baseSize s - r)))%nat at 2 by lia.
    rewrite seq_app. do 2 f_equal. lia.
Qed.

#[local] Arguments iovec_loop : simpl never.

Lemma iovec_from_position s n :
  chain_inv s → (m_position s + n <= m_capacity s)%nat → (0 < n)%nat →
  ∃ b l, deref_node (m_cur s) s = Ok (b, s) ∧
    iovec_loop (S n) (m_cur s) (m_position s `mod` m_baseSize s)
      (length b - m_position s `mod` m_baseSize s) n s = Ok (l, s) ∧
    positions s l = seq (m_position s) n ∧ within_blocks s l.
Proof.
  intros Hc Hcap Hn. pose proof (inv_base _ Hc) as Hb.
  destruct (position_split (m_baseSize s) (m_position s) Hb) as (i & r & Hir & Hr).
  destruct (chain_block s i r) as (Hcur & b & Hbl & Hlb); [done|done|done|lia|].
  exists b. rewrite Hcur, (deref_node_Ok _ _ b Hbl), Hlb, Hir, mod_at by done.
  destruct (iovec_loop_spec (S n) s i r n) as (l & E & Hpos & Hin);
    [done|by eapply lookup_lt_Some|done|lia|lia|]. by exists l.
Qed.

(** The scatter/gather views name exactly the bytes they promise, in
    order, each piece inside one block, and are appended to the caller's
    pieces: [getReadBuffers] the next [len] unread bytes (or all of them),
    without changing the array; [getWriteBuffers] the next [len] bytes of
    room, which it allocates.  The overload of [getReadBuffers] with a position
    cuts [len] to what is unread at the current position instead, so it can
    name bytes beyond the size. *)
Theorem buffers_spec s (buffers : list iovec) (len p : nat) (Hi : ba_inv s) :
  (∃ l, getReadBuffers buffers len s = Ok ((len `min` getReadSize s, buffers ++ l), s) ∧
    positions s l = seq (m_position s) (len `min` getReadSize s) ∧ within_blocks s l)%nat ∧
  (∃ l s', getWriteBuffers junk buffers len s = Ok ((len, buffers ++ l), s') ∧ ba_inv s' ∧
    m_position s' = m_position s ∧ m_size s' = m_size s ∧ (∃ t, flat s' = flat s ++ t) ∧
    positions s' l = seq (m_position s) len ∧ within_blocks s' l)%nat ∧
  (p + len `min` getReadSize s <= m_capacity s → p < m_capacity s →
    ∃ l, getReadBuffers_at buffers len p s = Ok ((len `min` getReadSize s, buffers ++ l), s) ∧
      positions s l = seq p (len `min` getReadSize s) ∧ within_blocks s l)%nat.
Proof.
  destruct Hi as [Hc Hp Hs]. pose proof (inv_base _ Hc) as Hb.
  assert (Hcut : (if (getReadSize s <? len)%nat then getReadSize s else len) = (len `min` getReadSize s)%nat)
    by (destruct (Nat.ltb_spec (getReadSize s) len); lia).
  split_and!.
  - unfold getReadBuffers, mbind at 1, M_bind at 1, gets. cbn beta iota zeta. unfold id. rewrite Hcut.
    destruct (Nat.eqb_spec (len `min` getReadSize s) 0) as [->|E].
    { exists []. rewrite app_nil_r. split_and!; [done|done|apply Forall_nil_2]. }
    destruct (Nat.eqb_spec (m_baseSize s) 0); [lia|]. unfold getReadSize in *.
    destruct (iovec_from_position s (len `min` (m_size s - m_position s)) Hc) as (b & l & Eb & El & Hpos & Hin);
      [lia|lia|]. exists l. unfold mbind, M_bind. by rewrite Eb, El.
  - unfold getWriteBuffers. destruct (Nat.eqb_spec len 0) as [->|E].
    { exists [], s. rewrite app_nil_r. split_and!; try done; [by exists []; rewrite app_nil_r|apply Forall_nil_2]. }
    unfold mbind at 1, M_bind at 1.
    destruct (addCapacity_spec junk s len) as (s1 & -> & Hc1 & Hg & Hp1 & Hs1 & Hf1 & Hcap1 & _); [done|lia|].
    destruct (iovec_from_position s1 len Hc1) as (b & l & Eb & El & Hpos & Hin); [lia|lia|].
    exists l, s1. unfold mbind, M_bind, gets, id. rewrite Eb, El. rewrite <- Hp1.
    split_and!; try done. split; [done|lia|]. destruct Hg. lia.
  - intros Hcap Hlt. unfold getReadBuffers_at, mbind at 1, M_bind at 1, gets. cbn beta iota zeta. unfold id.
    rewrite Hcut. destruct (Nat.eqb_spec (len `min` getReadSize s) 0) as [->|E].
    { exists []. rewrite app_nil_r. split_and!; [done|done|apply Forall_nil_2]. }
    destruct (Nat.eqb_spec (m_baseSize s) 0); [lia|]. pose proof (inv_capacity _ Hc).
    destruct (position_split (m_baseSize s) p Hb) as (i & r & -> & Hr).
    assert (Hi : (i < length (m_nodes s))%nat) by nia.
    destruct (lookup_lt_is_Some_2 (m_nodes s) i Hi) as [b Hbl].
    assert (Hlb : length b = m_baseSize s) by by eapply (Forall_lookup_1 _ _ _ _ (inv_nodes _ Hc)).
    destruct (iovec_loop_spec (S (len `min` getReadSize s)) s i r (len `min` getReadSize s))
      as (l & El & Hpos & Hin); [done|done|done|lia|lia|].
    exists l. unfold mbind, M_bind. rewrite div_at, mod_at, walk_spec by (done || lia). simpl.
    by rewrite (deref_node_Ok _ _ b Hbl), Hlb, El.
Qed.

(** ** Files *)

(** Writing from a block boundary on. *)
Lemma file_loop_aligned fuel s i k out :
  chain_inv s → (i * m_baseSize s + k <= m_capacity s)%nat → (k < fuel)%nat → (0 < fuel)%nat →
  file_loop fuel (cur_at (m_baseSize s) (length (m_nodes s)) (i * m_baseSize s))
    (Z.of_nat (i * m_baseSize s)) (Z.of_nat k) out s
  = Ok (out ++ take k (drop (i * m_baseSize s) (flat s)), s).
Proof.
  revert i k out. induction fuel as [|fuel IH]; intros i k out Hc Hcap Hfuel Hf; [lia|].
  cbn [file_loop]. unfold mbind at 1, M_bind at 1, gets. cbn beta iota zeta. unfold id.
  destruct (Z.leb_spec (Z.of_nat k) 0).
  { replace k with 0%nat by lia. by rewrite app_nil_r. }
  pose proof (inv_base _ Hc) as Hb. pose proof (inv_capacity _ Hc).
  assert (Hi : (i < length (m_nodes s))%nat) by nia.
  rewrite cur_at_block by done. destruct (Nat.ltb_spec i (length (m_nodes s))); [|lia].
  destruct (lookup_lt_is_Some_2 (m_nodes s) i Hi) as [b Hbl].
  assert (Hlb : length b = m_baseSize s) by by eapply (Forall_lookup_1 _ _ _ _ (inv_nodes _ Hc)).
  rewrite Nat2Z.inj_mul, Z.mod_mul by lia. rewrite Z.sub_0_r.
  change (Z.to_nat 0) with 0%nat.
  set (n := (k `min` m_baseSize s)%nat).
  assert (Hn : (if Z.of_nat (m_baseSize s) <? Z.of_nat k then Z.of_nat (m_baseSize s) else Z.of_nat k) = Z.of_nat n)
    by (destruct (Z.ltb_spec (Z.of_nat (m_baseSize s)) (Z.of_nat k)); lia).
  rewrite Hn, Nat2Z.id. destruct (Z.ltb_spec (Z.of_nat n) 0); [lia|].
  unfold mbind, M_bind. rewrite (copy_out_Ok s i b 0 n Hbl), next_node_Ok by lia.
  rewrite (cur_at_next (m_baseSize s)) by done.
  rewrite <- (concat_read (m_baseSize s) (m_nodes s) i b 0 n), Nat.add_0_r by (done || apply Hc || lia).
  change (concat (m_nodes s)) with (flat s).
  destruct (Nat.le_gt_cases k (m_baseSize s)).
  - replace n with k by lia. destruct fuel as [|fuel]; [lia|]. cbn [file_loop].
    unfold mbind, M_bind, gets, mret, M_ret. cbn beta iota zeta. unfold id.
    by destruct (Z.leb_spec (Z.of_nat k - Z.of_nat k) 0); [|lia].
  - replace n with (m_baseSize s) by lia.
    replace (Z.of_nat i * Z.of_nat (m_baseSize s) + Z.of_nat (m_baseSize s))
      with (Z.of_nat ((i + 1) * m_baseSize s)) by lia.
    replace (Z.of_nat k - Z.of_nat (m_baseSize s)) with (Z.of_nat (k - m_baseSize s)) by lia.
    rewrite IH by (done || lia). rewrite <- app_assoc. do 3 f_equal.
    replace k with (m_baseSize s + (k - m_baseSize s))%nat at 2 by lia.
    rewrite take_drop_add. by replace ((i + 1) * m_baseSize s)%nat with (i * m_baseSize s + m_baseSize s)%nat by lia.
Qed.

(** Inside a block, with less than a block to write. *)
Lemma file_loop_stuck fuel s i r pos out :
  chain_inv s → (r < m_baseSize s)%nat → (0 < r)%nat → pos mod Z.of_nat (m_baseSize s) = Z.of_nat r → (length (m_nodes s) - i < fuel)%nat →
  file_loop fuel (cur_at (m_baseSize s) (length (m_nodes s)) (i * m_baseSize s))
    pos (Z.of_nat r) out s = Fail BadPointer.
Proof.
  intros Hc Hr H0 Hpos. pose proof (inv_base _ Hc) as Hb.
  revert i. induction fuel as [|fuel IH]; intros i Hfuel; [lia|].
  cbn [file_loop]. unfold mbind at 1, M_bind at 1, gets. cbn beta iota zeta. unfold id.
  destruct (Z.leb_spec (Z.of_nat r) 0); [lia|].
  destruct (Z.ltb_spec (Z.of_nat (m_baseSize s)) (Z.of_nat r)); [lia|].
  rewrite Hpos, Z.sub_diag. cbn [Z.ltb Z.compare]. change (Z.to_nat 0) with 0%nat. rewrite Nat2Z.id.
  rewrite cur_at_block by done. destruct (Nat.ltb_spec i (length (m_nodes s))) as [Hi|]; [|done].
  destruct (lookup_lt_is_Some_2 (m_nodes s) i Hi) as [b Hbl].
  assert (Hlb : length b = m_baseSize s) by by eapply (Forall_lookup_1 _ _ _ _ (inv_nodes _ Hc)).
  unfold mbind, M_bind. rewrite (copy_out_Ok s i b r 0 Hbl), next_node_Ok by lia.
  rewrite (cur_at_next (m_baseSize s)), Z.add_0_r, Z.sub_0_r by done. simpl take. rewrite app_nil_r.
  apply IH. lia.
Qed.

(** One turn of the loop inside a block. *)
Lemma file_loop_turn fuel s i r k out :
  chain_inv s → (r < m_baseSize s)%nat → (i < length (m_nodes s))%nat → (0 < k)%nat →
  (r <= k `min` m_baseSize s)%nat →
  let n := (k `min` m_baseSize s - r)%nat in
  file_loop (S fuel) (Some i) (Z.of_nat (i * m_baseSize s + r)) (Z.of_nat k) out s
  = file_loop fuel (cur_at (m_baseSize s) (length (m_nodes s)) ((i + 1) * m_baseSize s))
      (Z.of_nat (i * m_baseSize s + r + n)) (Z.of_nat (k - n))
      (out ++ take n (drop (i * m_baseSize s + r) (flat s))) s.
Proof.
  intros Hc Hr Hi Hk Hle n. pose proof (inv_base _ Hc) as Hb. cbn [file_loop].
  unfold mbind at 1, M_bind at 1, gets. cbn beta iota zeta. unfold id.
  destruct (Z.leb_spec (Z.of_nat k) 0); [lia|].
  destruct (lookup_lt_is_Some_2 (m_nodes s) i Hi) as [b Hbl].
  assert (Hlb : length b = m_baseSize s) by by eapply (Forall_lookup_1 _ _ _ _ (inv_nodes _ Hc)).
  assert (Hmod : Z.of_nat (i * m_baseSize s + r) mod Z.of_nat (m_baseSize s) = Z.of_nat r)
    by (rewrite <- Nat2Z.inj_mod, mod_at by done; done).
  rewrite Hmod.
  assert (Hn : (if Z.of_nat (m_baseSize s) <? Z.of_nat k then Z.of_nat (m_baseSize s) else Z.of_nat k)
               - Z.of_nat r = Z.of_nat n)
    by (destruct (Z.ltb_spec (Z.of_nat (m_baseSize s)) (Z.of_nat k)); lia).
  rewrite Hn, !Nat2Z.id. destruct (Z.ltb_spec (Z.of_nat n) 0); [lia|].
  unfold mbind, M_bind. rewrite (copy_out_Ok s i b r n Hbl), next_node_Ok by lia.
  rewrite (cur_at_next (m_baseSize s)) by done.
  rewrite <- (concat_read (m_baseSize s) (m_nodes s) i b r n) by (done || apply Hc || lia).
  change (concat (m_nodes s)) with (flat s). f_equal; lia.
Qed.

(** The loop of [readFromFile] writes the content block by block. *)
Lemma readFromFile_loop_spec fuel content s :
  ba_inv s → (length content < fuel)%nat →
  ∃ s', readFromFile_loop junk fuel content s = Ok (tt, s') ∧ wrote s s' content.
Proof.
  revert content s. induction fuel as [|fuel IH]; intros content s Hi Hfuel; [lia|].
  pose proof (inv_base _ (inv_chain _ Hi)) as Hb.
  cbn [readFromFile_loop]. unfold mbind at 1, M_bind at 1, gets. cbn beta iota zeta. unfold id.
  destruct (emits_write junk (m_endian s) (take (m_baseSize s) content) s Hi eq_refl) as (s1 & E1 & H1).
  unfold mbind, M_bind. rewrite E1. destruct (Nat.ltb_spec (length content) (m_baseSize s)).
  - exists s1. rewrite take_ge in H1 by lia. done.
  - destruct (IH (drop (m_baseSize s) content) s1) as (s2 & E2 & H2);
      [apply H1|rewrite length_drop; lia|].
    exists s2. split; [done|]. rewrite <- (take_drop (m_baseSize s) content). by eapply wrote_app.
Qed.

Lemma writeToFile_good s :
  ba_inv s →
  (m_position s `mod` m_baseSize s = 0 ∨ m_baseSize s <= getReadSize s ∨ getReadSize s = 0)%nat →
  writeToFile true s = Ok (Some (unread s), s).
Proof.
  intros Hi. pose proof (inv_base _ (inv_chain _ Hi)) as Hb.
  destruct Hi as [Hc Hp Hs]. destruct (position_split (m_baseSize s) (m_position s) Hb) as (i & r & Hir & Hr).
  intros Hcase. unfold writeToFile, mbind, M_bind, gets. cbn beta iota zeta. unfold id, unread.
  set (k := getReadSize s) in *. assert (Hk : (m_position s + k <= m_capacity s)%nat) by (unfold k, getReadSize; lia).
  rewrite (inv_cur _ Hc), Hir in *. rewrite mod_at in Hcase by done.
  destruct (decide (r = 0)%nat) as [->|Hr0]; [|destruct (decide (k = 0)%nat) as [Hk0|Hk0]].
  - rewrite Nat.add_0_r in *. rewrite file_loop_aligned by (done || lia). done.
  - rewrite Hk0. done.
  - rewrite cur_at_split by done. pose proof (inv_capacity _ Hc).
    assert (Hin : (i < length (m_nodes s))%nat) by nia.
    destruct (Nat.ltb_spec i (length (m_nodes s))); [|lia]. rewrite file_loop_turn by (done || lia).
    replace (k `min` m_baseSize s - r)%nat with (m_baseSize s - r)%nat by lia.
    replace (i * m_baseSize s + r + (m_baseSize s - r))%nat with ((i + 1) * m_baseSize s)%nat by lia.
    rewrite file_loop_aligned by (done || lia). unfold mret, M_ret. do 3 f_equal. simpl.
    replace k with ((m_baseSize s - r) + (k - (m_baseSize s - r)))%nat at 2 by lia.
    rewrite take_drop_add. do 3 f_equal. lia.
Qed.

Lemma writeToFile_bad s :
  ba_inv s →
  (m_position s `mod` m_baseSize s ≠ 0 ∧ 0 < getReadSize s < m_baseSize s)%nat →
  writeToFile true s = Fail BadIndex ∨ writeToFile true s = Fail BadPointer.
Proof.
  intros Hi. pose proof (inv_base _ (inv_chain _ Hi)) as Hb.
  destruct Hi as [Hc Hp Hs]. destruct (position_split (m_baseSize s) (m_position s) Hb) as (i & r & Hir & Hr).
  intros [Hr0 Hk]. unfold writeToFile, mbind, M_bind, gets. cbn beta iota zeta. unfold id.
  set (k := getReadSize s) in *. assert (Hk' : (m_position s + k <= m_capacity s)%nat) by (unfold k, getReadSize; lia).
  rewrite (inv_cur _ Hc), Hir in *. rewrite mod_at in Hr0 by done.
  rewrite cur_at_split by done. pose proof (inv_capacity _ Hc).
  assert (Hin : (i < length (m_nodes s))%nat) by nia.
  destruct (Nat.ltb_spec i (length (m_nodes s))); [|lia].
  destruct (Nat.lt_trichotomy r k) as [Hrk|[->|Hrk]].
  - left. rewrite file_loop_turn by (done || lia).
    replace (k `min` m_baseSize s - r)%nat with (k - r)%nat by lia.
    replace (i * m_baseSize s + r + (k - r))%nat with (i * m_baseSize s + k)%nat by lia.
    replace (k - (k - r))%nat with r by lia.
    destruct k as [|k'] eqn:Ek; [lia|].
    replace (S k' + length (m_nodes s))%nat with (S (k' + length (m_nodes s))) by lia.
    cbn [file_loop]. unfold mbind, M_bind, gets. cbn beta iota zeta. unfold id.
    destruct (Z.leb_spec (Z.of_nat r) 0); [lia|].
    destruct (Z.ltb_spec (Z.of_nat (m_baseSize s)) (Z.of_nat r)); [lia|].
    rewrite <- Nat2Z.inj_mod, mod_at by lia.
    by destruct (Z.ltb_spec (Z.of_nat r - Z.of_nat (S k')) 0); [|lia].
  - right. pose proof (file_loop_stuck (S (k + length (m_nodes s))) s i k (Z.of_nat (i * m_baseSize s + k)) [] Hc) as Hst.
    rewrite cur_at_block in Hst by done. destruct (Nat.ltb_spec i (length (m_nodes s))); [|lia].
    rewrite Hst; [done|lia|lia| |lia]. by rewrite <- Nat2Z.inj_mod, mod_at by lia.
  - left. cbn [file_loop]. unfold mbind, M_bind, gets. cbn beta iota zeta. unfold id.
    destruct (Z.leb_spec (Z.of_nat k) 0); [lia|].
    destruct (Z.ltb_spec (Z.of_nat (m_baseSize s)) (Z.of_nat k)); [lia|].
    rewrite <- Nat2Z.inj_mod, mod_at by lia.
    by destruct (Z.ltb_spec (Z.of_nat k - Z.of_nat r) 0); [|lia].
Qed.

(** Files: [toString] returns the unread bytes; [readFromFile] writes the
    whole file at the position; and [writeToFile] puts the unread bytes in the
    file exactly when the position is at the start of a block, or at least a
    block is unread, or nothing is: otherwise it computes a length that is
    negative or does not advance, and never ends normally. *)
Theorem files_spec s (content : list Z) (Hi : ba_inv s) (H64 : Z.of_nat (m_capacity s) < 2 ^ 64) :
  toString s = Ok (unread s, s) ∧
  (∃ s', readFromFile junk (Some content) s = Ok (true, s') ∧ ba_inv s' ∧
    ba_file s' = f_write content (ba_file s)) ∧
  ((m_position s `mod` m_baseSize s = 0 ∨ m_baseSize s <= getReadSize s ∨ getReadSize s = 0)%nat →
    writeToFile true s = Ok (Some (unread s), s)) ∧
  ((m_position s `mod` m_baseSize s ≠ 0 ∧ 0 < getReadSize s < m_baseSize s)%nat →
    writeToFile true s = Fail BadIndex ∨ writeToFile true s = Fail BadPointer).
Proof.
  split_and!.
  - unfold toString, mbind, M_bind, gets. cbn beta iota zeta. unfold id, unread.
    destruct (Nat.eqb_spec (getReadSize s) 0) as [->|E]; [done|]. destruct Hi as [Hc Hp Hs].
    unfold getReadSize in *. apply read_at_spec; [done|done|lia|lia|lia|lia].
  - destruct (readFromFile_loop_spec (S (length content)) content s Hi) as (s' & E & Hw); [lia|].
    exists s'. unfold readFromFile, mbind, M_bind. rewrite E. split_and!; [done|apply Hw|by apply write_file].
  - by apply writeToFile_good.
  - by apply writeToFile_bad.
Qed.
End buffers.

(** ** Witnesses *)

Lemma buffers_spec_witness :
  ∃ l, getReadBuffers [] 100 sample_array = Ok ((4%nat, l), sample_array) ∧
    positions sample_array l = [2; 3; 4; 5]%nat.
Proof.
  destruct (buffers_spec (λ _, 0) sample_array [] 100 0 sample_array_inv) as [(l & E & Hp & _) _].
  exists l. split; [exact E|exact Hp].
Defined.

(** Unread from an aligned position: written; from the middle of a block: not. *)
Lemma files_spec_witness :
  toString sample_array = Ok ([3; 4; 5; 6], sample_array) ∧
  writeToFile true sample_array = Ok (Some [3; 4; 5; 6], sample_array).
Proof.
  destruct (files_spec (λ _, 0) sample_array [9] sample_array_inv) as (Ht & _ & Hw & _); [vm_compute; reflexivity|].
  split; [exact Ht|]. apply Hw. right. left. vm_compute. lia.
Defined.
