(* ===== verification/Timer.v ===== *)
(** * Timer: the timer manager ([sylar/timer.cc], [timer.h])

    Timers live in a heap and are shared between their owners and the ordered
    set [m_timers] of the manager, which holds their addresses in the order of
    [Comparator]: by time of execution, then by address.  A function is a
    number, and a callback is a function or [std::bind(&OnTimer, ...)].  The clock ([GetCurrentMS]) and the addresses that [new] returns
    are arguments.  Times are 64-bit unsigned integers. *)

From S2P Require Import Prelude.

Definition add64 (a b : Z) : Z := (a + b) mod 2 ^ 64.
Definition minus64 (a b : Z) : Z := (a - b) mod 2 ^ 64.

(** [std::function<void()>]: a function, or [std::bind(&OnTimer, weak_cond, cb)]
    for the object [weak_cond] watches. *)
Inductive callback :=
  | Callable (f : Z)
  | BindOnTimer (weak_cond : positive) (f : Z).

Record Timer := mkTimer {
  m_recurring : bool;
  m_ms : Z;
  m_next : Z;
  m_cb : option callback
}.

(** [notified] counts the calls of [onTimerInsertedAtFront]. *)
Record TimerManager := mkTimerManager {
  m_timers : list positive;
  timer_heap : gmap positive Timer;
  m_tickled : bool;
  notified : nat
}.

Definition new_TimerManager : TimerManager := mkTimerManager [] ∅ false 0.

Abbreviation MT A := (M TimerManager A).
Implicit Types s : TimerManager.

Definition set_timers (l : list positive) s : TimerManager :=
  mkTimerManager l (timer_heap s) (m_tickled s) (notified s).

Definition set_timer (a : positive) (t : Timer) s : TimerManager :=
  mkTimerManager (m_timers s) (<[a := t]> (timer_heap s)) (m_tickled s) (notified s).

Definition set_tickled (b : bool) s : TimerManager :=
  mkTimerManager (m_timers s) (timer_heap s) b (notified s).

Definition onTimerInsertedAtFront s : TimerManager :=
  mkTimerManager (m_timers s) (timer_heap s) (m_tickled s) (S (notified s)).

Definition get_timer (a : positive) : MT Timer :=
  s ← gets id;
  match timer_heap s !! a with Some t => mret t | None => fail BadPointer end.

(** [Timer::Comparator] on non-null pointers. *)
Definition Comparator (lhs rhs : Timer * positive) : bool :=
  if m_next lhs.1 <? m_next rhs.1 then true
  else if m_next rhs.1 <? m_next lhs.1 then false
  else (lhs.2 <? rhs.2)%positive.

(** The set in the order of its elements: [lower_bound] is the number of
    elements before the key. *)
Fixpoint lower_bound (key : Timer * positive) (l : list positive) : MT nat :=
  match l with
  | [] => mret 0%nat
  | a :: l' =>
      t ← get_timer a;
      if Comparator (t, a) key then n ← lower_bound key l'; mret (S n) else mret 0%nat
  end.

(** [m_timers.find(x)] *)
Definition set_find (x : positive) : MT (option nat) :=
  s ← gets id;
  t ← get_timer x;
  n ← lower_bound (t, x) (m_timers s);
  match m_timers s !! n with
  | None => mret None
  | Some a => ta ← get_timer a; mret (if Comparator (t, x) (ta, a) then None else Some n)
  end.

(** [m_timers.insert(x)]: the position of the element. *)
Definition set_insert (x : positive) : MT nat :=
  s ← gets id;
  t ← get_timer x;
  n ← lower_bound (t, x) (m_timers s);
  r ← match m_timers s !! n with
      | None => mret true
      | Some a => ta ← get_timer a; mret (Comparator (t, x) (ta, a))
      end;
  if r : bool then modify (set_timers (take n (m_timers s) ++ x :: drop n (m_timers s))) ;; mret n
  else mret n.

Definition set_erase (n : nat) : MT unit :=
  s ← gets id;
  if (n <? length (m_timers s))%nat then modify (set_timers (delete n (m_timers s)))
  else fail BadPointer.

(** ** Operations *)

(** [new Timer(ms, cb, recurring, this)] *)
Definition new_Timer (now ms : Z) (cb : callback) (recurring : bool) : Timer :=
  mkTimer recurring ms (add64 now ms) (Some cb).

(** [addTimer(val, lock)] *)
Definition addTimer_locked (val : positive) : MT unit :=
  n ← set_insert val;
  s ← gets id;
  let at_front := (n =? 0)%nat && negb (m_tickled s) in
  if at_front then modify (set_tickled true) ;; modify onTimerInsertedAtFront else mret tt.

Definition addTimer (now : Z) (a : positive) (ms : Z) (cb : callback) (recurring : bool) : MT positive :=
  modify (set_timer a (new_Timer now ms cb recurring)) ;;
  addTimer_locked a ;;
  mret a.

Definition cancel (a : positive) : MT bool :=
  t ← get_timer a;
  match m_cb t with
  | Some _ =>
      modify (set_timer a (mkTimer (m_recurring t) (m_ms t) (m_next t) None)) ;;
      it ← set_find a;
      match it with
      | Some n => set_erase n ;; mret true
      | None => fail BadPointer
      end
  | None => mret false
  end.

Definition refresh (now : Z) (a : positive) : MT bool :=
  t ← get_timer a;
  match m_cb t with
  | None => mret false
  | Some _ =>
      it ← set_find a;
      match it with
      | None => mret false
      | Some n =>
          set_erase n ;;
          modify (set_timer a (mkTimer (m_recurring t) (m_ms t) (add64 now (m_ms t)) (m_cb t))) ;;
          set_insert a ;;
          mret true
      end
  end.

Definition reset (now : Z) (a : positive) (ms : Z) (from_now : bool) : MT bool :=
  t ← get_timer a;
  if (ms =? m_ms t) && negb from_now then mret true else
  match m_cb t with
  | None => mret false
  | Some _ =>
      it ← set_find a;
      match it with
      | None => mret false
      | Some n =>
          set_erase n ;;
          let start := if from_now then now else minus64 (m_next t) (m_ms t) in
          modify (set_timer a (mkTimer (m_recurring t) ms (add64 start ms) (m_cb t))) ;;
          addTimer_locked a ;;
          mret true
      end
  end.

(** [~0ull] when there is no timer. *)
Definition getNextTimer (now_ms : Z) : MT Z :=
  modify (set_tickled false) ;;
  s ← gets id;
  match m_timers s with
  | [] => mret (2 ^ 64 - 1)
  | a :: _ =>
      t ← get_timer a;
      mret (if m_next t <=? now_ms then 0 else m_next t - now_ms)
  end.

(** The iterator [it] moves past the timers due exactly now. *)
Fixpoint skip_equal (now_ms : Z) (n : nat) (l : list positive) : MT nat :=
  match l with
  | [] => mret n
  | a :: l' =>
      t ← get_timer a;
      if m_next t =? now_ms then skip_equal now_ms (S n) l' else mret n
  end.

(** The loop over the expired timers. *)
Fixpoint run_expired (now_ms : Z) (expired : list positive) : MT (list (option callback)) :=
  match expired with
  | [] => mret []
  | a :: expired' =>
      t ← get_timer a;
      (if m_recurring t then
         modify (set_timer a (mkTimer (m_recurring t) (m_ms t) (add64 now_ms (m_ms t)) (m_cb t))) ;;
         set_insert a ;; mret tt
       else modify (set_timer a (mkTimer (m_recurring t) (m_ms t) (m_next t) None))) ;;
      l ← run_expired now_ms expired';
      mret (m_cb t :: l)
  end.

(** [now_addr] is the address of the temporary [now_timer]. *)
Definition listExpiredCb (now_ms : Z) (now_addr : positive) : MT (list (option callback)) :=
  s ← gets id;
  match m_timers s with
  | [] => mret []
  | a :: _ =>
      t ← get_timer a;
      if now_ms <? m_next t then mret [] else
      n ← lower_bound (mkTimer false 0 now_ms None, now_addr) (m_timers s);
      it ← skip_equal now_ms n (drop n (m_timers s));
      let expired := take it (m_timers s) in
      modify (set_timers (drop it (m_timers s))) ;;
      run_expired now_ms expired
  end.

Definition hasTimer s : bool := match m_timers s with [] => false | _ => true end.

(** [OnTimer] runs the function while the watched object is alive ([lock]). *)
Definition OnTimer (alive : positive → bool) (weak_cond : positive) (cb : Z) : option Z :=
  if alive weak_cond then Some cb else None.

Definition addConditionTimer (now : Z) (a : positive) (ms cb : Z) (weak_cond : positive)
    (recurring : bool) : MT positive :=
  addTimer now a ms (BindOnTimer weak_cond cb) recurring.
