(* ===== verification/TimerProps.v ===== *)
(** * TimerProps: timers fire when they are due, and only then

    [timer_inv]: the set is ordered, and a timer is in it exactly while it has a
    callback. *)

From stdpp Require Import sorting.
From Stdlib Require Import Sorting.Sorted.
From S2P Require Import Prelude.
From S2P Require Import Timer.

#[local] Open Scope Z_scope.

Implicit Types (s : TimerManager) (h : gmap positive Timer).

(** ** The order *)

(** [a] is before [b] in the order of the set. *)
Definition before h (a b : positive) : Prop :=
  ∃ ta tb, h !! a = Some ta ∧ h !! b = Some tb ∧ Comparator (ta, a) (tb, b) = true.

Definition ordered h (l : list positive) : Prop :=
  StronglySorted (before h) l ∧ Forall (λ a, is_Some (h !! a)) l.

Record timer_inv s : Prop := {
  ti_ordered : ordered (timer_heap s) (m_timers s);
  ti_armed : ∀ a t, timer_heap s !! a = Some t → (a ∈ m_timers s ↔ m_cb t ≠ None)
}.

(** The timers due at [now]. *)
Definition due h (now : Z) (a : positive) : Prop := ∃ t, h !! a = Some t ∧ m_next t <= now.

#[local] Instance due_dec h now a : Decision (due h now a).
Proof.
  unfold due. destruct (h !! a) as [t|]; [|by right; intros (? & ? & ?)].
  destruct (decide (m_next t <= now)); [left; by exists t|right; intros (? & [= <-] & ?); done].
Defined.

Lemma Comparator_true ta a tb b :
  Comparator (ta, a) (tb, b) = true ↔
  m_next ta < m_next tb ∨ (m_next ta = m_next tb ∧ (a < b)%positive).
Proof.
  unfold Comparator. simpl. destruct (Z.ltb_spec (m_next ta) (m_next tb)); [naive_solver|].
  destruct (Z.ltb_spec (m_next tb) (m_next ta)); [split; [done|lia]|].
  rewrite Pos.ltb_lt. split; [right; lia|lia].
Qed.

Lemma Comparator_irrefl ta tb a : m_next ta = m_next tb → Comparator (ta, a) (tb, a) = false.
Proof. intros E. apply not_true_is_false. rewrite Comparator_true. lia. Qed.

Lemma before_trans h a b c : before h a b → before h b c → before h a c.
Proof.
  intros (ta & tb & Ha & Hb & Hab%Comparator_true) (tb' & tc & Hb' & Hc & Hbc%Comparator_true).
  simplify_eq. exists ta, tc. split_and!; [done|done|]. apply Comparator_true. lia.
Qed.

Lemma before_irrefl h a : ¬ before h a a.
Proof. intros (ta & tb & Ha & Hb & Hab%Comparator_true). simplify_eq. lia. Qed.

Lemma ordered_NoDup h l : ordered h l → NoDup l.
Proof.
  intros [Hs _]. induction Hs as [|a l Hs IH Ha]; constructor; [|done].
  intros Hin. rewrite Forall_forall in Ha. by apply (before_irrefl h a), Ha.
Qed.

Lemma ordered_cons h a l : ordered h (a :: l) ↔
  is_Some (h !! a) ∧ Forall (before h a) l ∧ ordered h l.
Proof.
  unfold ordered. rewrite Forall_cons. split.
  - intros [Hs [Ha Hl]]. apply StronglySorted_inv in Hs as [Hs Hb]. naive_solver.
  - intros (Ha & Hb & Hs & Hl). split; [by constructor|done].
Qed.

Lemma ordered_sub h l l1 l2 : ordered h (l1 ++ l ++ l2) → ordered h l.
Proof.
  intros [Hs Hf]. rewrite !Forall_app in Hf. split; [|naive_solver].
  clear Hf. induction l1 as [|a l1 IH]; simpl in *.
  - by apply StronglySorted_app_1_l in Hs.
  - apply StronglySorted_inv in Hs as [Hs _]. by apply IH.
Qed.

(** The order only looks at the elements of the set. *)
Lemma ordered_agree h h' l :
  (∀ a, a ∈ l → m_next <$> h' !! a = m_next <$> h !! a) → ordered h l → ordered h' l.
Proof.
  intros Hag [Hs Hf]. split.
  - revert Hs. induction l as [|a l IH]; intros Hs; [constructor|].
    apply StronglySorted_inv in Hs as [Hs Hb]. constructor.
    { apply IH; [intros; apply Hag; by right|by apply Forall_cons in Hf as [_ ?]|done]. }
    rewrite Forall_forall in Hb |- *. intros b Hin. destruct (Hb b Hin) as (ta & tb & Ha & Hb' & Hc).
    pose proof (Hag a ltac:(by left)) as Ea. pose proof (Hag b ltac:(by right)) as Eb.
    rewrite Ha in Ea. rewrite Hb' in Eb. simpl in *.
    destruct (h' !! a) as [ta'|] eqn:Ha', (h' !! b) as [tb'|] eqn:Hb''; simplify_eq/=.
    exists ta', tb'. split_and!; [done|done|]. rewrite Comparator_true in *. congruence || lia.
  - rewrite Forall_forall in Hf |- *. intros a Hin. specialize (Hag a Hin). destruct (Hf a Hin) as [t Ht].
    rewrite Ht in Hag. destruct (h' !! a); simplify_eq/=. by eexists.
Qed.

(** ** The set *)

Lemma get_timer_Ok s a t : timer_heap s !! a = Some t → get_timer a s = Ok (t, s).
Proof. intros Ht. unfold get_timer, mbind, M_bind, gets, id. by rewrite Ht. Qed.

Lemma lower_bound_spec s t x l :
  ordered (timer_heap s) l →
  ∃ n, lower_bound (t, x) l s = Ok (n, s) ∧ (n <= length l)%nat ∧
    (∀ a ta, a ∈ take n l → timer_heap s !! a = Some ta → Comparator (ta, a) (t, x) = true) ∧
    (∀ a ta, a ∈ drop n l → timer_heap s !! a = Some ta → Comparator (ta, a) (t, x) = false).
Proof.
  induction l as [|b l IH]; intros Ho.
  - exists 0%nat. split_and!; [done|simpl; lia| |]; intros a ta Hin; by apply not_elem_of_nil in Hin.
  - apply ordered_cons in Ho as ([tb Hb] & Hbl & Ho). cbn [lower_bound].
    unfold mbind, M_bind. rewrite (get_timer_Ok _ _ _ Hb).
    destruct (Comparator (tb, b) (t, x)) eqn:Hc.
    + destruct (IH Ho) as (n & -> & Hn & Ht & Hd). exists (S n). split_and!; [done|simpl; lia| |done].
      intros a ta [->|Hin]%elem_of_cons Ha; [by simplify_eq|by eapply Ht].
    + exists 0%nat. split_and!; [done|lia| |].
      { intros a ta Hin. by apply not_elem_of_nil in Hin. }
      intros a ta [->|Hin]%elem_of_cons Ha; [by simplify_eq|].
      rewrite Forall_forall in Hbl. destruct (Hbl a Hin) as (tb' & ta' & Hb' & Ha' & Hba%Comparator_true).
      simplify_eq. apply not_true_is_false. rewrite <- not_true_iff_false in Hc.
      rewrite Comparator_true in *. lia.
Qed.

Lemma set_find_spec s x t :
  ordered (timer_heap s) (m_timers s) → timer_heap s !! x = Some t → x ∈ m_timers s →
  ∃ n, set_find x s = Ok (Some n, s) ∧ m_timers s !! n = Some x.
Proof.
  intros Ho Hx Hin. destruct (lower_bound_spec s t x _ Ho) as (n & E & Hn & Ht & Hd).
  exists n. assert (Hnx : m_timers s !! n = Some x).
  { rewrite <- (take_drop n (m_timers s)), elem_of_app in Hin. destruct Hin as [Hin|Hin].
    { specialize (Ht x t Hin Hx). by rewrite Comparator_irrefl in Ht. }
    destruct (drop n (m_timers s)) as [|b l] eqn:Edrop; [by apply not_elem_of_nil in Hin|].
    assert (Hb : m_timers s !! n = Some b) by (by rewrite <- (Nat.add_0_r n), <- lookup_drop, Edrop).
    apply elem_of_cons in Hin as [->|Hin]; [done|].
    assert (Ho' : ordered (timer_heap s) (b :: l)).
    { rewrite <- Edrop. apply (ordered_sub _ _ (take n (m_timers s)) []). by rewrite app_nil_r, take_drop. }
    apply ordered_cons in Ho' as ([tb Htb] & Hbl & _). rewrite Forall_forall in Hbl.
    destruct (Hbl x Hin) as (tb' & t' & Htb' & Hx' & Hc). simplify_eq.
    erewrite (Hd b) in Hc; [done|by left|done]. }
  split; [|done]. unfold set_find, mbind at 1, M_bind at 1, gets, id. unfold mbind, M_bind.
  rewrite (get_timer_Ok _ _ _ Hx), E, Hnx, (get_timer_Ok _ _ _ Hx).
  by rewrite Comparator_irrefl.
Qed.

Lemma ordered_insert h x t l n :
  ordered h l → h !! x = Some t → x ∉ l → (n <= length l)%nat →
  (∀ a ta, a ∈ take n l → h !! a = Some ta → Comparator (ta, a) (t, x) = true) →
  (∀ a ta, a ∈ drop n l → h !! a = Some ta → Comparator (ta, a) (t, x) = false) →
  ordered h (take n l ++ x :: drop n l).
Proof.
  intros Ho Hx Hin. revert n. induction l as [|b l IH]; intros n Hn Ht Hd.
  - rewrite take_nil, drop_nil. simpl. apply ordered_cons. split_and!; [by eexists|constructor|done].
  - assert (Hlt : ∀ a, a ∈ b :: l → (∀ ta, h !! a = Some ta → Comparator (ta, a) (t, x) = false) → before h x a).
    { intros a Ha Hf. destruct Ho as [_ Hfo]. rewrite Forall_forall in Hfo.
      destruct (Hfo a Ha) as [ta Hta]. exists t, ta. split_and!; [done|done|].
      specialize (Hf ta Hta). rewrite <- not_true_iff_false, Comparator_true in Hf. apply Comparator_true.
      assert (a ≠ x) by (by intros ->). lia. }
    destruct n as [|n]; simpl in *.
    + apply ordered_cons. split_and!; [by eexists| |done]. apply Forall_forall. intros a Ha.
      apply Hlt; [done|intros ta; by apply Hd].
    + apply ordered_cons in Ho as ([tb Hb] & Hbl & Ho). apply ordered_cons.
      split_and!; [by eexists| |apply IH; [done|set_solver|lia|intros a ta Ha; apply Ht; by right|done]].
      rewrite Forall_forall in Hbl |- *. intros a [Ha|[->|Ha]%elem_of_cons]%elem_of_app.
      * apply Hbl. rewrite <- (take_drop n l). apply elem_of_app. auto.
      * exists tb, t. split_and!; [done|done|]. apply (Ht b tb); [by left|done].
      * apply Hbl. rewrite <- (take_drop n l). apply elem_of_app. auto.
Qed.

Lemma elem_of_inserted (x b : positive) (l : list positive) n :
  b ∈ take n l ++ x :: drop n l ↔ b = x ∨ b ∈ l.
Proof.
  rewrite <- (take_drop n l) at 3. rewrite !elem_of_app, elem_of_cons. naive_solver.
Qed.

Lemma set_insert_spec s x t :
  ordered (timer_heap s) (m_timers s) → timer_heap s !! x = Some t → x ∉ m_timers s →
  ∃ n, set_insert x s = Ok (n, set_timers (take n (m_timers s) ++ x :: drop n (m_timers s)) s) ∧
    ordered (timer_heap s) (take n (m_timers s) ++ x :: drop n (m_timers s)).
Proof.
  intros Ho Hx Hin. destruct (lower_bound_spec s t x _ Ho) as (n & E & Hn & Ht & Hd).
  exists n. split; [|by eapply ordered_insert].
  unfold set_insert, mbind at 1, M_bind at 1, gets, id. unfold mbind, M_bind.
  rewrite (get_timer_Ok _ _ _ Hx), E. destruct (m_timers s !! n) as [a|] eqn:Ha; [|done].
  assert (Had : a ∈ drop n (m_timers s)).
  { apply list_elem_of_lookup. exists 0%nat. by rewrite lookup_drop, Nat.add_0_r. }
  assert (Hal : a ∈ m_timers s) by (by eapply list_elem_of_lookup_2).
  destruct Ho as [_ Hfo]. rewrite Forall_forall in Hfo. destruct (Hfo a Hal) as [ta Hta].
  rewrite (get_timer_Ok _ _ _ Hta). specialize (Hd a ta Had Hta).
  assert (a ≠ x) by (by intros ->).
  assert (Comparator (t, x) (ta, a) = true) as ->; [|done].
  rewrite <- not_true_iff_false, Comparator_true in Hd. apply Comparator_true. lia.
Qed.

Lemma ordered_delete h l n : ordered h l → ordered h (delete n l).
Proof.
  revert n. induction l as [|b l IH]; intros n Ho; [by destruct n|].
  apply ordered_cons in Ho as (Hb & Hbl & Ho). destruct n as [|n]; simpl; [done|].
  apply ordered_cons. split_and!; [done| |by apply IH].
  rewrite Forall_forall in Hbl |- *. intros a Ha. apply Hbl. by eapply sublist_subseteq; [apply sublist_delete|].
Qed.

Lemma elem_of_deleted h l n x b :
  ordered h l → l !! n = Some x → b ∈ delete n l ↔ b ∈ l ∧ b ≠ x.
Proof.
  intros Ho Hn. pose proof (ordered_NoDup _ _ Ho) as Hnd.
  rewrite (delete_Permutation l n x Hn) in Hnd. apply NoDup_cons in Hnd as [Hx _].
  rewrite (delete_Permutation l n x Hn) at 2. rewrite elem_of_cons. split; [|naive_solver].
  intros Hb. split; [auto|]. by intros ->.
Qed.

Lemma set_erase_Ok s n x : m_timers s !! n = Some x →
  set_erase n s = Ok (tt, set_timers (delete n (m_timers s)) s).
Proof.
  intros Hn%lookup_lt_Some. unfold set_erase, mbind, M_bind, gets, id, modify.
  by destruct (Nat.ltb_spec n (length (m_timers s))); [|lia].
Qed.

(** ** One timer *)

(** [s'] is [s] with the timer [a] set to [t'], in the set exactly when it has
    a callback; nothing else changed but the notification flag. *)
Record updated s s' (a : positive) (t' : Timer) : Prop := {
  up_inv : timer_inv s';
  up_heap : timer_heap s' = <[a := t']> (timer_heap s);
  up_others : ∀ b, b ≠ a → (b ∈ m_timers s' ↔ b ∈ m_timers s)
}.

(** Put a timer that is not in the set into it. *)
Lemma arm s (a : positive) (t' : Timer) :
  ordered (timer_heap s) (m_timers s) → a ∉ m_timers s → m_cb t' ≠ None →
  (∀ b t, b ≠ a → timer_heap s !! b = Some t → (b ∈ m_timers s ↔ m_cb t ≠ None)) →
  ∃ n, let s1 := set_timer a t' s in
    set_insert a s1 = Ok (n, set_timers (take n (m_timers s) ++ a :: drop n (m_timers s)) s1) ∧
    updated s (set_timers (take n (m_timers s) ++ a :: drop n (m_timers s)) s1) a t'.
Proof.
  intros Ho Ha Hcb Harm.
  assert (Ho1 : ordered (timer_heap (set_timer a t' s)) (m_timers (set_timer a t' s))).
  { simpl. eapply ordered_agree; [|exact Ho]. intros b Hb. rewrite lookup_insert_ne; [done|]. by intros ->. }
  destruct (set_insert_spec (set_timer a t' s) a t' Ho1) as (n & E & Ho2);
    [simpl; by rewrite lookup_insert_eq|done|].
  exists n. split; [exact E|]. split; [split; [done|]|done|].
  - simpl. intros b t. rewrite elem_of_inserted. destruct (decide (b = a)) as [->|Hb].
    + rewrite lookup_insert_eq. intros [= <-]. naive_solver.
    + rewrite lookup_insert_ne by done. intros Ht. rewrite <- (Harm b t) by done. naive_solver.
  - simpl. intros b Hb. rewrite elem_of_inserted. naive_solver.
Qed.

(** Take an armed timer out of the set. *)
Lemma disarm s a t :
  timer_inv s → timer_heap s !! a = Some t → a ∈ m_timers s →
  ∃ n, set_find a s = Ok (Some n, s) ∧
    set_erase n s = Ok (tt, set_timers (delete n (m_timers s)) s) ∧
    ordered (timer_heap s) (delete n (m_timers s)) ∧
    ∀ b, b ∈ delete n (m_timers s) ↔ b ∈ m_timers s ∧ b ≠ a.
Proof.
  intros [Ho Harm] Ht Ha. destruct (set_find_spec s a t Ho Ht Ha) as (n & E & Hn).
  exists n. split_and!; [done|by eapply set_erase_Ok|by apply ordered_delete|].
  intros b. by eapply elem_of_deleted.
Qed.

Lemma addTimer_locked_spec s a t' :
  ordered (timer_heap s) (m_timers s) → a ∉ m_timers s → m_cb t' ≠ None →
  (∀ b t, b ≠ a → timer_heap s !! b = Some t → (b ∈ m_timers s ↔ m_cb t ≠ None)) →
  ∃ s', addTimer_locked a (set_timer a t' s) = Ok (tt, s') ∧ updated s s' a t'.
Proof.
  intros Ho Ha Hcb Harm. destruct (arm s a t' Ho Ha Hcb Harm) as (n & E & Hup).
  unfold addTimer_locked, mbind, M_bind, gets, id. rewrite E.
  case_match; eexists; (split; [reflexivity|]); [|exact Hup].
  destruct Hup as [[? ?] ? ?]. by split; [split| |].
Qed.

Definition disarmed (t : Timer) : Timer := mkTimer (m_recurring t) (m_ms t) (m_next t) None.
Definition rescheduled (t : Timer) (ms start : Z) : Timer :=
  mkTimer (m_recurring t) ms (add64 start ms) (m_cb t).

Lemma updated_trans s s1 s2 a t t' : updated s s1 a t → updated s1 s2 a t' → updated s s2 a t'.
Proof.
  intros [_ Hh1 Ho1] [Hi Hh2 Ho2]. split; [done|by rewrite Hh2, Hh1, insert_insert_eq|].
  intros b Hb. by rewrite Ho2, Ho1.
Qed.

Lemma cancel_spec s a t :
  timer_inv s → timer_heap s !! a = Some t → m_cb t ≠ None →
  ∃ s', cancel a s = Ok (true, s') ∧ updated s s' a (disarmed t) ∧ a ∉ m_timers s'.
Proof.
  intros Hi Ht Hcb. assert (Ha : a ∈ m_timers s) by (by apply (ti_armed _ Hi a t)).
  destruct Hi as [Ho Harm]. set (s1 := set_timer a (disarmed t) s).
  assert (Ho1 : ordered (timer_heap s1) (m_timers s1)).
  { simpl. eapply ordered_agree; [|exact Ho]. intros b Hb. destruct (decide (b = a)) as [->|].
    - by rewrite lookup_insert_eq, Ht.
    - by rewrite lookup_insert_ne. }
  destruct (set_find_spec s1 a (disarmed t) Ho1) as (n & E & Hn); [simpl; by rewrite lookup_insert_eq|done|].
  assert (Hel : ∀ b, b ∈ delete n (m_timers s) ↔ b ∈ m_timers s ∧ b ≠ a) by (intros b; by eapply elem_of_deleted).
  exists (set_timers (delete n (m_timers s1)) s1). split_and!.
  - unfold cancel, mbind at 1, M_bind at 1. rewrite (get_timer_Ok _ _ _ Ht).
    destruct (m_cb t); [|done]. unfold mbind, M_bind, modify.
    change (set_timer a _ s) with s1. by rewrite E, (set_erase_Ok _ _ _ Hn).
  - split; [split; [by apply ordered_delete|]|done|].
    + simpl. intros b tb. rewrite Hel. simpl. destruct (decide (b = a)) as [->|Hb].
      * rewrite lookup_insert_eq. intros [= <-]. simpl. naive_solver.
      * rewrite lookup_insert_ne by done. intros Htb. rewrite (Harm b tb Htb). naive_solver.
    + simpl. intros b Hb. rewrite Hel. simpl. naive_solver.
  - simpl. rewrite Hel. naive_solver.
Qed.

(** What [refresh] and [reset] share. *)
Lemma reschedule_inv s a t ms start n :
  timer_inv s → timer_heap s !! a = Some t → m_cb t ≠ None →
  ordered (timer_heap s) (delete n (m_timers s)) →
  (∀ b, b ∈ delete n (m_timers s) ↔ b ∈ m_timers s ∧ b ≠ a) →
  let s1 := set_timers (delete n (m_timers s)) s in
  ordered (timer_heap s1) (m_timers s1) ∧ (a ∉ m_timers s1) ∧ m_cb (rescheduled t ms start) ≠ None ∧
  (∀ b t, b ≠ a → timer_heap s1 !! b = Some t → (b ∈ m_timers s1 ↔ m_cb t ≠ None)) ∧
  (∀ s', updated s1 s' a (rescheduled t ms start) → updated s s' a (rescheduled t ms start)).
Proof.
  intros [Ho Harm] Ht Hcb Hod Hel s1. split_and!; try done.
  - simpl. rewrite Hel. naive_solver.
  - intros b tb Hb Htb. simpl. rewrite Hel, (Harm b tb Htb). naive_solver.
  - intros s' [Hi Hh Hot]. split; [done|done|]. intros b Hb. rewrite Hot by done. simpl. rewrite Hel. naive_solver.
Qed.

Lemma refresh_spec s now a t :
  timer_inv s → timer_heap s !! a = Some t → m_cb t ≠ None →
  ∃ s', refresh now a s = Ok (true, s') ∧ updated s s' a (rescheduled t (m_ms t) now).
Proof.
  intros Hi Ht Hcb. assert (Ha : a ∈ m_timers s) by (by apply (ti_armed _ Hi a t)).
  destruct (disarm s a t Hi Ht Ha) as (n & Ef & Ee & Ho & Hel).
  destruct (reschedule_inv s a t (m_ms t) now n Hi Ht Hcb Ho Hel) as (Ho1 & Ha1 & Hcb1 & Harm1 & Hback).
  destruct (arm _ a _ Ho1 Ha1 Hcb1 Harm1) as (k & E & Hup).
  eexists. split; [|exact (Hback _ Hup)].
  unfold refresh, mbind at 1, M_bind at 1. rewrite (get_timer_Ok _ _ _ Ht).
  unfold rescheduled in E. destruct (m_cb t) as [cb|] eqn:Ecb; [|done].
  unfold mbind, M_bind, modify. rewrite Ef, Ee, E. unfold rescheduled. by rewrite ?Ecb.
Qed.

Lemma reset_spec s now a t ms from_now :
  timer_inv s → timer_heap s !! a = Some t → m_cb t ≠ None → (ms =? m_ms t) && negb from_now = false →
  ∃ s', reset now a ms from_now s = Ok (true, s') ∧
    updated s s' a (rescheduled t ms (if from_now then now else minus64 (m_next t) (m_ms t))).
Proof.
  intros Hi Ht Hcb Hms. assert (Ha : a ∈ m_timers s) by (by apply (ti_armed _ Hi a t)).
  set (start := if from_now then now else _).
  destruct (disarm s a t Hi Ht Ha) as (n & Ef & Ee & Ho & Hel).
  destruct (reschedule_inv s a t ms start n Hi Ht Hcb Ho Hel) as (Ho1 & Ha1 & Hcb1 & Harm1 & Hback).
  destruct (addTimer_locked_spec _ a _ Ho1 Ha1 Hcb1 Harm1) as (s' & E & Hup).
  exists s'. split; [|by apply Hback].
  unfold reset, mbind at 1, M_bind at 1. rewrite (get_timer_Ok _ _ _ Ht), Hms.
  fold start. unfold rescheduled in E. destruct (m_cb t) as [cb|] eqn:Ecb; [|done].
  unfold mbind, M_bind, modify. rewrite Ef, Ee, E. unfold rescheduled. by rewrite ?Ecb.
Qed.

Lemma reset_same s now a t :
  timer_heap s !! a = Some t → reset now a (m_ms t) false s = Ok (true, s).
Proof.
  intros Ht. unfold reset, mbind, M_bind. rewrite (get_timer_Ok _ _ _ Ht). by rewrite Z.eqb_refl.
Qed.

(** The first element of the set is the earliest. *)
Lemma first_earliest h a l b :
  ordered h (a :: l) → b ∈ a :: l → ∃ ta tb, h !! a = Some ta ∧ h !! b = Some tb ∧ m_next ta <= m_next tb.
Proof.
  intros ([ta Ha] & Hbl & _)%ordered_cons [->|Hb]%elem_of_cons; [exists ta, ta; auto with lia|].
  rewrite Forall_forall in Hbl. destruct (Hbl b Hb) as (ta' & tb & Ha' & Htb & Hc%Comparator_true).
  exists ta', tb. split_and!; [done|done|lia].
Qed.

Lemma next_timer_spec s now : timer_inv s →
  ∃ v s', getNextTimer now s = Ok (v, s') ∧ timer_inv s' ∧ m_timers s' = m_timers s ∧
    timer_heap s' = timer_heap s ∧
    (m_timers s = [] → v = 2 ^ 64 - 1) ∧
    (m_timers s ≠ [] → (∃ b t, b ∈ m_timers s ∧ timer_heap s !! b = Some t ∧ v = Z.max 0 (m_next t - now)) ∧
      ∀ b t, b ∈ m_timers s → timer_heap s !! b = Some t → v <= Z.max 0 (m_next t - now)).
Proof.
  intros Hi. unfold getNextTimer, mbind, M_bind, modify, gets, id. simpl. destruct Hi as [Ho Harm].
  destruct (m_timers s) as [|b l] eqn:El.
  { eexists _, _. split; [reflexivity|]. split_and!; try done. split; simpl; rewrite El; [done|].
    intros c t Ht. by rewrite (Harm c t Ht). }
  destruct (proj1 (ordered_cons _ _ _) Ho) as ([t Ht] & _ & _).
  rewrite (get_timer_Ok _ b t) by done. eexists _, _. split; [reflexivity|].
  split_and!; [split; simpl; by rewrite ?El|done|done|done|].
  intros _. assert (Hv : (if m_next t <=? now then 0 else m_next t - now) = Z.max 0 (m_next t - now))
    by (destruct (Z.leb_spec (m_next t) now); lia).
  rewrite Hv. split; [exists b, t; split_and!; [by left|done|done]|].
  intros c tc Hc Htc. destruct (first_earliest _ _ _ c Ho Hc) as (? & ? & ? & ? & ?). simplify_eq. lia.
Qed.

(** The operations on one timer.  Adding a timer puts it in the set;
    cancelling removes an armed one, and a refresh or a reset puts it at its
    new time; on a timer that already fired or was cancelled these three return
    false and change nothing - except that a reset to the same period, not from
    now, returns true without looking.  All of them keep the set ordered and
    equal to the armed timers, and leave every other timer alone.
    [getNextTimer] returns how long to wait for the earliest timer, 0 exactly
    when one is due. *)
Theorem timer_operations s (now : Z) (a : positive) (ms : Z) (cb : callback) (recurring from_now : bool)
  (Hi : timer_inv s) :
  (timer_heap s !! a = None →
    ∃ s', addTimer now a ms cb recurring s = Ok (a, s') ∧ updated s s' a (new_Timer now ms cb recurring)) ∧
  (∀ t, timer_heap s !! a = Some t → m_cb t ≠ None →
    (∃ s', cancel a s = Ok (true, s') ∧ updated s s' a (disarmed t) ∧ a ∉ m_timers s') ∧
    (∃ s', refresh now a s = Ok (true, s') ∧ updated s s' a (rescheduled t (m_ms t) now)) ∧
    ((ms =? m_ms t) && negb from_now = false → ∃ s', reset now a ms from_now s = Ok (true, s') ∧
      updated s s' a (rescheduled t ms (if from_now then now else minus64 (m_next t) (m_ms t))))) ∧
  (∀ t, timer_heap s !! a = Some t → m_cb t = None →
    cancel a s = Ok (false, s) ∧ refresh now a s = Ok (false, s) ∧
    reset now a ms from_now s = Ok ((ms =? m_ms t) && negb from_now, s)) ∧
  (∃ v s', getNextTimer now s = Ok (v, s') ∧ timer_inv s' ∧ m_timers s' = m_timers s ∧
    timer_heap s' = timer_heap s ∧
    (m_timers s = [] → v = 2 ^ 64 - 1) ∧
    (m_timers s ≠ [] → (∃ b t, b ∈ m_timers s ∧ timer_heap s !! b = Some t ∧ v = Z.max 0 (m_next t - now)) ∧
      ∀ b t, b ∈ m_timers s → timer_heap s !! b = Some t → v <= Z.max 0 (m_next t - now))).
Proof.
  split_and!.
  - intros Ha. assert (Hn : a ∉ m_timers s).
    { intros Hin. destruct (ti_ordered _ Hi) as [_ Hf]. rewrite Forall_forall in Hf.
      destruct (Hf a Hin) as [t Ht]. by rewrite Ht in Ha. }
    destruct (addTimer_locked_spec s a (new_Timer now ms cb recurring)) as (s' & E & Hup);
      [apply Hi|done|done|intros b t _; apply (ti_armed _ Hi)|].
    exists s'. split; [|done]. unfold addTimer, mbind, M_bind, modify. by rewrite E.
  - intros t Ht Hcb. split_and!; [by apply cancel_spec|by apply refresh_spec|by apply reset_spec].
  - intros t Ht Hcb. unfold cancel, refresh, reset, mbind, M_bind. rewrite (get_timer_Ok _ _ _ Ht), Hcb.
    split_and!; [done|done|]. by destruct (_ && _).
  - by apply next_timer_spec.
Qed.

(** ** Expiry *)

Lemma skip_equal_spec s now n l :
  ordered (timer_heap s) l → (∀ a t, a ∈ l → timer_heap s !! a = Some t → now <= m_next t) →
  ∃ k, skip_equal now n l s = Ok ((n + k)%nat, s) ∧ (k <= length l)%nat ∧
    (∀ a, a ∈ take k l → due (timer_heap s) now a) ∧
    (∀ a, a ∈ drop k l → ¬ due (timer_heap s) now a).
Proof.
  revert n. induction l as [|b l IH]; intros n Ho Hge.
  - exists 0%nat. rewrite Nat.add_0_r. split_and!; [done|simpl; lia| |]; intros a Hin; by apply not_elem_of_nil in Hin.
  - pose proof Ho as ([tb Hb] & Hbl & Ho')%ordered_cons. cbn [skip_equal]. unfold mbind, M_bind.
    rewrite (get_timer_Ok _ _ _ Hb). destruct (Z.eqb_spec (m_next tb) now).
    + destruct (IH (S n) Ho') as (k & E & Hk & Ht & Hd); [intros a t Ha; apply Hge; by right|].
      exists (S k). rewrite E, Nat.add_succ_comm. split_and!; [done|simpl; lia| |done].
      intros a [->|Ha]%elem_of_cons; [exists tb; auto with lia|by apply Ht].
    + exists 0%nat. rewrite Nat.add_0_r. split_and!; [done|lia| |].
      { intros a Hin. by apply not_elem_of_nil in Hin. }
      intros a Ha (ta & Hta & Hle). simpl in Ha.
      destruct (first_earliest _ _ _ a Ho Ha) as (? & ? & ? & ? & ?). simplify_eq.
      pose proof (Hge b tb ltac:(by left) Hb). lia.
Qed.

Definition fired (now : Z) (t : Timer) : Timer :=
  if m_recurring t then rescheduled t (m_ms t) now else disarmed t.

(** What handling the timers of the list [D] does. *)
Record fires s s' (now : Z) (D : list positive) : Prop := {
  fires_ordered : ordered (timer_heap s') (m_timers s');
  fires_due : ∀ a t, a ∈ D → timer_heap s !! a = Some t →
    timer_heap s' !! a = Some (fired now t) ∧ (a ∈ m_timers s' ↔ m_recurring t = true);
  fires_others : ∀ b, b ∉ D → timer_heap s' !! b = timer_heap s !! b ∧ (b ∈ m_timers s' ↔ b ∈ m_timers s)
}.

Lemma run_expired_spec now D s :
  ordered (timer_heap s) (m_timers s) → NoDup D → (∀ a, a ∈ D → a ∉ m_timers s) →
  Forall (λ a, is_Some (timer_heap s !! a)) D →
  ∃ s', run_expired now D s = Ok (map (λ a, t ← timer_heap s !! a; m_cb t) D, s') ∧ fires s s' now D.
Proof.
  revert s. induction D as [|a D IH]; intros s Ho Hnd Hdis Hf.
  { exists s. split; [done|]. split; [done| |done]. intros a t Ha. by apply not_elem_of_nil in Ha. }
  apply NoDup_cons in Hnd as [Ha Hnd]. apply Forall_cons in Hf as [[t Ht] Hf].
  (* one timer *)
  assert (Hone : ∃ s1, (if m_recurring t then
      modify (set_timer a (rescheduled t (m_ms t) now)) ;; set_insert a ;; mret tt
      else modify (set_timer a (disarmed t))) s = Ok (tt, s1) ∧
    ordered (timer_heap s1) (m_timers s1) ∧ timer_heap s1 = <[a := fired now t]> (timer_heap s) ∧
    (∀ b, b ∈ m_timers s1 ↔ b ∈ m_timers s ∨ (b = a ∧ m_recurring t = true))).
  { assert (Ho1 : ∀ t', ordered (timer_heap (set_timer a t' s)) (m_timers (set_timer a t' s))).
    { intros t'. simpl. eapply ordered_agree; [|exact Ho]. intros b Hb. rewrite lookup_insert_ne; [done|].
      intros ->. apply (Hdis b); [by left|done]. }
    unfold fired. destruct (m_recurring t).
    - destruct (set_insert_spec (set_timer a (rescheduled t (m_ms t) now) s) a _ (Ho1 _)
        ltac:(apply lookup_insert_eq) (Hdis a ltac:(by left))) as (n & E & Ho2).
      eexists. split; [unfold mbind, M_bind, modify; by rewrite E|]. split_and!; [done|done|].
      intros b. simpl. rewrite elem_of_inserted. naive_solver.
    - eexists. split; [reflexivity|]. split_and!; [apply Ho1|done|]. intros b. simpl. naive_solver. }
  destruct Hone as (s1 & E1 & Ho1 & Hh1 & Hm1).
  assert (Hlk : ∀ b, b ∈ D → timer_heap s1 !! b = timer_heap s !! b).
  { intros b Hb. rewrite Hh1, lookup_insert_ne; [done|]. by intros ->. }
  destruct (IH s1) as (s2 & E2 & [Ho2 Hd2 Hot2]); [done|done| | |].
  { intros b Hb. rewrite Hm1. intros [Hin|[-> _]]; [|done]. by apply (Hdis b); [right|]. }
  { rewrite Forall_forall in Hf |- *. intros b Hb. rewrite Hlk by done. by apply Hf. }
  exists s2. split.
  - cbn [run_expired map]. unfold mbind at 1, M_bind at 1. rewrite (get_timer_Ok _ _ _ Ht).
    unfold mbind at 1, M_bind at 1. unfold rescheduled, disarmed in E1.
    rewrite E1. unfold mbind, M_bind. rewrite E2.
    unfold mret, M_ret. rewrite Ht. simpl. do 3 f_equal.
    apply map_ext_in; intros b Hb%list_elem_of_In; by rewrite Hlk.
  - split; [done| |].
    + intros b tb [->|Hb]%elem_of_cons Htb.
      * simplify_eq. destruct (Hot2 a Ha) as [-> Hin]. rewrite Hh1, lookup_insert_eq. split; [done|].
        rewrite Hin, Hm1. pose proof (Hdis a ltac:(by left)). naive_solver.
      * apply Hd2; [done|by rewrite Hlk].
    + intros b [Hba HbD]%not_elem_of_cons. destruct (Hot2 b HbD) as [-> Hin].
      rewrite Hh1, lookup_insert_ne by done. split; [done|]. rewrite Hin, Hm1. naive_solver.
Qed.

(** The timers before the iterator are the due ones. *)
Lemma expired_prefix s now now_addr :
  ordered (timer_heap s) (m_timers s) →
  ∃ n k, lower_bound (mkTimer false 0 now None, now_addr) (m_timers s) s = Ok (n, s) ∧
    skip_equal now n (drop n (m_timers s)) s = Ok (k, s) ∧
    ∀ a, a ∈ take k (m_timers s) ↔ a ∈ m_timers s ∧ due (timer_heap s) now a.
Proof.
  intros Ho. pose proof Ho as [_ Hfo]. rewrite Forall_forall in Hfo.
  destruct (lower_bound_spec s (mkTimer false 0 now None) now_addr _ Ho) as (n & E & Hn & Ht & Hd).
  assert (Hod : ordered (timer_heap s) (drop n (m_timers s))).
  { apply (ordered_sub _ _ (take n (m_timers s)) []). by rewrite app_nil_r, take_drop. }
  destruct (skip_equal_spec s now n (drop n (m_timers s)) Hod) as (k & Ek & Hk & Htk & Hdk).
  { intros a t Ha Hta. specialize (Hd a t Ha Hta). rewrite <- not_true_iff_false, Comparator_true in Hd.
    simpl in Hd. lia. }
  exists n, (n + k)%nat. split_and!; [done|done|].
  assert (HtD : ∀ a, a ∈ take (n + k) (m_timers s) → due (timer_heap s) now a).
  { intros a. rewrite <- take_take_drop, elem_of_app. intros [Ha|Ha]; [|by apply Htk].
    destruct (Hfo a) as [t Hta]; [by eapply subseteq_take|].
    specialize (Ht a t Ha Hta). rewrite Comparator_true in Ht. simpl in Ht. exists t. split; [done|lia]. }
  intros a. split; [intros Ha; split; [by eapply subseteq_take|by apply HtD]|]. intros [Ha Hdue].
  rewrite <- (take_drop (n + k) (m_timers s)), elem_of_app in Ha. destruct Ha as [Ha|Ha]; [done|].
  rewrite <- drop_drop in Ha. by apply Hdk in Ha.
Qed.

Lemma fires_none s now : ordered (timer_heap s) (m_timers s) → fires s s now [].
Proof. intros Ho. split; [done| |done]. intros a t Ha. by apply not_elem_of_nil in Ha. Qed.

(** Timers that fire leave the manager in order. *)
Lemma fires_inv s s' now D :
  timer_inv s → (∀ a, a ∈ D → a ∈ m_timers s) → fires s s' now D → timer_inv s'.
Proof.
  intros [Ho Harm] HD Hf. split; [apply Hf|]. intros a t Hta. destruct (decide (a ∈ D)) as [Ha|Ha].
  - destruct Ho as [_ Hfo]. rewrite Forall_forall in Hfo. destruct (Hfo a (HD a Ha)) as [t0 Ht0].
    destruct (fires_due _ _ _ _ Hf a t0 Ha Ht0) as [Hta' ->]. rewrite Hta in Hta'. simplify_eq.
    apply HD in Ha. apply (Harm a t0 Ht0) in Ha. unfold fired. destruct (m_recurring t0); naive_solver.
  - destruct (fires_others _ _ _ _ Hf a Ha) as [Hta' ->]. rewrite Hta in Hta'. by apply Harm.
Qed.

Lemma prefix_split s k : ordered (timer_heap s) (m_timers s) →
  NoDup (take k (m_timers s)) ∧ (∀ a, a ∈ take k (m_timers s) → a ∉ drop k (m_timers s)) ∧
  ordered (timer_heap s) (drop k (m_timers s)).
Proof.
  intros Ho. pose proof (ordered_NoDup _ _ Ho) as Hnd. rewrite <- (take_drop k (m_timers s)) in Hnd.
  apply NoDup_app in Hnd as (? & ? & _). split_and!; [done|done|].
  apply (ordered_sub _ _ (take k (m_timers s)) []). by rewrite app_nil_r, take_drop.
Qed.

(** The expired timers are the first ones of the set. *)
Lemma expired_spec s (now : Z) (now_addr : positive) : timer_inv s →
  ∃ k s', let D := take k (m_timers s) in
    listExpiredCb now now_addr s = Ok (map (λ a, t ← timer_heap s !! a; m_cb t) D, s') ∧
    (∀ a, a ∈ D ↔ a ∈ m_timers s ∧ due (timer_heap s) now a) ∧ timer_inv s' ∧ fires s s' now D.
Proof.
  intros Hi. pose proof Hi as [Ho Harm]. pose proof Ho as [_ Hfo]. rewrite Forall_forall in Hfo.
  unfold listExpiredCb, mbind at 1, M_bind at 1, gets, id.
  assert (Hnone : (∀ a, a ∈ m_timers s → ¬ due (timer_heap s) now a) → ∃ k s',
    Ok ([], s) = Ok (map (λ a, t ← timer_heap s !! a; m_cb t) (take k (m_timers s)), s') ∧
    (∀ a, a ∈ take k (m_timers s) ↔ a ∈ m_timers s ∧ due (timer_heap s) now a) ∧
    timer_inv s' ∧ fires s s' now (take k (m_timers s))).
  { intros Hno. exists 0%nat, s. split_and!; [done| |done|by apply fires_none].
    intros a. split; [by intros ?%not_elem_of_nil|]. intros [Ha Hd]. by apply Hno in Ha. }
  destruct (m_timers s) as [|b l] eqn:El; [apply Hnone; intros a Ha; by apply not_elem_of_nil in Ha|].
  destruct (Hfo b) as [tb Hb]; [by left|].
  unfold mbind at 1, M_bind at 1. rewrite (get_timer_Ok _ _ _ Hb).
  destruct (Z.ltb_spec now (m_next tb)) as [Hlt|Hle].
  { apply Hnone. intros a Ha (ta & Hta & ?).
    destruct (first_earliest _ _ _ a Ho Ha) as (? & ? & ? & ? & ?). simplify_eq. lia. }
  rewrite <- El in *. destruct (expired_prefix s now now_addr Ho) as (n & k & E & Ek & HD).
  destruct (prefix_split s k Ho) as (HndD & Hdisj & Horest). set (D := take k (m_timers s)) in *.
  destruct (run_expired_spec now D (set_timers (drop k (m_timers s)) s)) as (s' & Er & [Hof Hdf Hotf]);
    [done|done|done|apply Forall_forall; intros a Ha; apply Hfo, HD, Ha|].
  exists k, s'. simpl in *. fold D.
  assert (Hfires : fires s s' now D).
  { split; [done|done|]. intros c Hc. destruct (Hotf c Hc) as [-> ->]. split; [done|].
    rewrite <- (take_drop k (m_timers s)) at 2. rewrite elem_of_app. naive_solver. }
  split_and!; [|done| |done].
  - unfold mbind, M_bind. by rewrite E, Ek.
  - eapply fires_inv; [done| |done]. intros a Ha. by apply HD.
Qed.

(** (C40) Timers fire exactly when due.  [listExpiredCb] returns the callbacks
    of the armed timers whose time has come, each once and in the order of
    their times, and no other; afterwards a recurring one is armed again for
    one period from now, any other one is disarmed, so it can never fire
    again, and timers that are not due are unchanged. *)
Theorem timer_expiry s (now : Z) (now_addr : positive) (Hi : timer_inv s) :
  ∃ D s', listExpiredCb now now_addr s = Ok (map (λ a, t ← timer_heap s !! a; m_cb t) D, s') ∧
    (∀ a, a ∈ D ↔ a ∈ m_timers s ∧ due (timer_heap s) now a) ∧ NoDup D ∧
    D `prefix_of` m_timers s ∧ timer_inv s' ∧ fires s s' now D.
Proof.
  destruct (expired_spec s now now_addr Hi) as (k & s' & E & HD & Hi' & Hf).
  exists (take k (m_timers s)), s'. split_and!; try done; [by apply prefix_split, Hi|].
  exists (drop k (m_timers s)). by rewrite take_drop.
Qed.

(** ** Witnesses *)

Definition sample_timers : TimerManager :=
  mkTimerManager [2; 3; 1]%positive
    (<[1%positive := mkTimer false 50 150 (Some (Callable 10))]>
      (<[2%positive := mkTimer true 20 100 (Some (BindOnTimer 5 20))]> {[3%positive := mkTimer false 5 100 (Some (Callable 30))]})) false 0.

Lemma sample_timers_inv : timer_inv sample_timers.
Proof.
  split.
  - split.
    + repeat constructor; eexists _, _; split_and!; reflexivity.
    + repeat constructor; eexists; reflexivity.
  - intros a t. unfold sample_timers. simpl. rewrite !lookup_insert_Some, lookup_singleton_Some.
    intros [[<- <-]|[_ [[<- <-]|[_ [<- <-]]]]]; (split; [done|]); intros _; rewrite !elem_of_cons; auto.
Qed.

Lemma timer_operations_witness :
  (∃ s', cancel 3 sample_timers = Ok (true, s') ∧ (3%positive ∉ m_timers s')) ∧
  (∃ s', addTimer 60 7 30 (Callable 40) false sample_timers = Ok (7%positive, s')).
Proof.
  split.
  - destruct (timer_operations sample_timers 60 3 30 (Callable 40) false false sample_timers_inv) as (_ & H & _).
    destruct (H (mkTimer false 5 100 (Some (Callable 30)))) as [(s' & E & _ & Hn) _]; [reflexivity|discriminate|].
    exists s'. split; [exact E|exact Hn].
  - destruct (timer_operations sample_timers 60 7 30 (Callable 40) false false sample_timers_inv) as (H & _).
    destruct (H eq_refl) as (s' & E & _). exists s'. exact E.
Defined.

Lemma timer_expiry_witness :
  ∃ D s', listExpiredCb 120 9 sample_timers
    = Ok (map (λ a, t ← timer_heap sample_timers !! a; m_cb t) D, s') ∧
    (∀ a, a ∈ D ↔ a ∈ [2; 3; 1]%positive ∧ due (timer_heap sample_timers) 120 a).
Proof.
  destruct (timer_expiry sample_timers 120 9 sample_timers_inv) as (D & s' & E & HD & _).
  exists D, s'. split; [exact E|exact HD].
Defined.
