(* ===== verification/Text.v ===== *)
(** * Text: the functions of [std::string] and [cstdio] that the program uses

    A [std::string] of bytes is a list of characters. *)

From S2P Require Import Prelude.
From Stdlib Require Export Ascii.

Abbreviation text := (list ascii).

(** A string literal. *)
Abbreviation str := String.list_ascii_of_string.

Definition space : ascii := " "%char.
Definition hash : ascii := "#"%char.
Definition equals : ascii := "="%char.
Definition newline : ascii := "010"%char.
Definition nul : ascii := "000"%char.

(** ** The functions of [std::string] and [cstdio] the parser uses *)

(** [s.find(c)] *)
Fixpoint find_char (c : ascii) (s : text) : option nat :=
  match s with
  | [] => None
  | x :: s' => if decide (x = c) then Some 0%nat else S <$> find_char c s'
  end.

(** [s.find_first_not_of(c)] and [s.find_last_not_of(c)] *)
Fixpoint find_first_not_of (c : ascii) (s : text) : option nat :=
  match s with
  | [] => None
  | x :: s' => if decide (x = c) then S <$> find_first_not_of c s' else Some 0%nat
  end.

Definition find_last_not_of (c : ascii) (s : text) : option nat :=
  (λ i, (length s - 1 - i)%nat) <$> find_first_not_of c (reverse s).

(** [fgets]: at most [n] characters, up to a line end; the flag is the
    end-of-file indicator. *)
Fixpoint fgets (n : nat) (rest : text) : text * text * bool :=
  match n, rest with
  | O, _ => ([], rest, false)
  | S _, [] => ([], [], true)
  | S n', c :: rest' =>
      if decide (c = newline) then ([c], rest', false)
      else let '(l, r, eof) := fgets n' rest' in (c :: l, r, eof)
  end.

(** [std::string read_buf(buf)]: up to the first null character. *)
Fixpoint c_str (s : text) : text :=
  match s with
  | [] => []
  | x :: s' => if decide (x = nul) then [] else x :: c_str s'
  end.

Definition digit (d : nat) : ascii := ascii_of_nat (48 + d).

(** [std::to_string] of a non-negative integer. *)
Fixpoint to_string_go (fuel n : nat) (acc : text) : text :=
  match fuel with
  | O => acc
  | S fuel' =>
      if (n <? 10)%nat then digit n :: acc
      else to_string_go fuel' (n / 10)%nat (digit (n mod 10) :: acc)
  end.

Definition to_string (n : nat) : text := to_string_go (S n) n [].

Definition is_digit (c : ascii) : bool := (48 <=? nat_of_ascii c)%nat && (nat_of_ascii c <=? 57)%nat.

Definition is_blank (c : ascii) : bool :=
  (nat_of_ascii c =? 32)%nat || ((9 <=? nat_of_ascii c)%nat && (nat_of_ascii c <=? 13)%nat).

Fixpoint read_digits (acc : Z) (s : text) : Z :=
  match s with
  | c :: s' => if is_digit c then read_digits (acc * 10 + (Z.of_nat (nat_of_ascii c) - 48)) s' else acc
  | [] => acc
  end.

(** [atoi], without its overflow. *)
Fixpoint atoi (s : text) : Z :=
  match s with
  | [] => 0
  | c :: s' =>
      if is_blank c then atoi s'
      else if decide (c = "-"%char) then - read_digits 0 s'
      else if decide (c = "+"%char) then read_digits 0 s'
      else read_digits 0 s
  end.

(** The conversion of an [int] to a 16-bit [short]. *)
Definition to_short (v : Z) : Z := (v + 2 ^ 15) mod 2 ^ 16 - 2 ^ 15.

(** ** Facts *)

Definition digit_value (c : ascii) : Z := Z.of_nat (nat_of_ascii c) - 48.
Definition digits_value (a : Z) (ds : text) : Z := fold_left (λ a c, a * 10 + digit_value c) ds a.

Lemma digit_spec d : (d < 10)%nat → is_digit (digit d) = true ∧ digit_value (digit d) = Z.of_nat d.
Proof. intros Hd. do 10 (destruct d as [|d]; [split; reflexivity|]). lia. Qed.

Lemma read_digits_spec a ds s :
  Forall (λ c, is_digit c = true) ds → (∀ c, head s = Some c → is_digit c = false) →
  read_digits a (ds ++ s) = digits_value a ds.
Proof.
  intros Hds Hs. revert a. induction Hds as [|c ds Hc Hds IH]; intros a; simpl.
  - destruct s as [|c s]; [done|]. simpl. by rewrite Hs.
  - rewrite Hc. apply IH.
Qed.

Lemma to_string_go_spec fuel n acc :
  (n < fuel)%nat → ∃ ds, to_string_go fuel n acc = ds ++ acc ∧ ds ≠ [] ∧
    Forall (λ c, is_digit c = true) ds ∧ digits_value 0 ds = Z.of_nat n.
Proof.
  revert n acc. induction fuel as [|fuel IH]; intros n acc Hn; [lia|]. cbn [to_string_go].
  destruct (Nat.ltb_spec n 10) as [H10|H10].
  - destruct (digit_spec n H10) as [Hd Hv]. exists [digit n].
    split_and!; [done|done|by repeat constructor|unfold digits_value; simpl; lia].
  - pose proof (Nat.mod_upper_bound n 10) as Hm. pose proof (Nat.div_mod_eq n 10).
    destruct (digit_spec (n mod 10)) as [Hd Hv]; [lia|].
    pose proof (Nat.div_lt n 10 ltac:(lia) ltac:(lia)).
    destruct (IH (n / 10)%nat (digit (n mod 10) :: acc)) as (ds & E & Hne & Hds & Hval); [lia|].
    exists (ds ++ [digit (n mod 10)]). rewrite E, <- app_assoc. split_and!; [done|by destruct ds| |].
    + apply Forall_app; by repeat constructor.
    + unfold digits_value in *. rewrite fold_left_app, Hval. cbn [fold_left]. rewrite Hv. lia.
Qed.

Lemma to_string_spec n :
  to_string n ≠ [] ∧ Forall (λ c, is_digit c = true) (to_string n) ∧
  read_digits 0 (to_string n) = Z.of_nat n.
Proof.
  destruct (to_string_go_spec (S n) n []) as (ds & E & Hne & Hds & Hv); [lia|].
  unfold to_string. rewrite E, app_nil_r. split_and!; [done|done|].
  rewrite <- (app_nil_r ds), read_digits_spec; [done|done|by intros].
Qed.

Lemma atoi_to_string n : atoi (to_string n) = Z.of_nat n.
Proof.
  destruct (to_string_spec n) as (Hne & Hds & Hv). destruct (to_string n) as [|c s]; [done|].
  inversion Hds as [|? ? Hc _]; subst. cbn [atoi].
  assert (is_blank c = false ∧ c ≠ "-"%char ∧ c ≠ "+"%char) as (Hb & ? & ?).
  { unfold is_digit in Hc. apply andb_true_iff in Hc as [?%Nat.leb_le ?%Nat.leb_le].
    split_and!; [|intros ->; change (nat_of_ascii _) with 45%nat in *; lia|intros ->; change (nat_of_ascii _) with 43%nat in *; lia]. unfold is_blank.
    apply orb_false_iff; split; [apply Nat.eqb_neq; lia|].
    apply andb_false_iff; right; apply Nat.leb_gt; lia. }
  by rewrite Hb, !decide_False by done.
Qed.

Lemma to_string_inj n m : to_string n = to_string m → n = m.
Proof.
  intros E. destruct (to_string_spec n) as (_ & _ & Hn). destruct (to_string_spec m) as (_ & _ & Hm).
  rewrite E in Hn. lia.
Qed.

Lemma first_not_of_head c l : head l ≠ Some c → l ≠ [] → find_first_not_of c l = Some 0%nat.
Proof. destruct l as [|x l]; intros ? ?; [done|]. simpl in *. by rewrite decide_False by congruence. Qed.

Lemma find_char_app c s1 s2 : c ∉ s1 → find_char c (s1 ++ c :: s2) = Some (length s1).
Proof.
  induction s1 as [|x s1 IH]; simpl; intros Hc; [by rewrite decide_True|].
  apply not_elem_of_cons in Hc as [? ?]. rewrite decide_False by done. by rewrite IH.
Qed.

Lemma find_char_none c s : c ∉ s → find_char c s = None.
Proof.
  induction s as [|x s IH]; intros Hc; [done|]. apply not_elem_of_cons in Hc as [? ?]. simpl.
  rewrite decide_False by done. by rewrite IH.
Qed.

Lemma c_str_id s : nul ∉ s → c_str s = s.
Proof.
  induction s as [|x s IH]; simpl; intros Hc; [done|].
  apply not_elem_of_cons in Hc as [? ?]. rewrite decide_False by done. by rewrite IH.
Qed.
