(* ===== verification/RpcConfigProps.v ===== *)
(** * RpcConfigProps: the configuration file describes the cluster ([rpc/mprpcconfig.cpp])

    The parser of the file, the loops that use it, and what they read back. *)

From S2P Require Import Prelude.
From S2P Require Export Text.
From Stdlib Require Import Ascii.

(** ** The parser *)

Definition Trim (src_buf : text) : text :=
  let src_buf := match find_first_not_of space src_buf with
                 | Some idx => drop idx src_buf
                 | None => src_buf
                 end in
  match find_last_not_of space src_buf with
  | Some idx => take (idx + 1) src_buf
  | None => src_buf
  end.

(** One line: comments, lines without [=] and empty lines are skipped; a key
    that is already there keeps its value ([unordered_map::insert]). *)
Definition parse_line (buf : text) (m_configMap : gmap text text) : gmap text text :=
  let read_buf := Trim (c_str buf) in
  match read_buf with
  | [] => m_configMap
  | c :: _ =>
      if decide (c = hash) then m_configMap else
      match find_char equals read_buf with
      | None => m_configMap
      | Some idx =>
          let key := Trim (take idx read_buf) in
          let rest := drop (idx + 1) read_buf in
          let value := Trim (match find_char newline rest with
                             | Some e => take e rest
                             | None => rest
                             end) in
          match m_configMap !! key with
          | Some _ => m_configMap
          | None => <[key := value]> m_configMap
          end
      end
  end.

Fixpoint load_lines (fuel : nat) (rest : text) (eof : bool) (m : gmap text text) : result (gmap text text) :=
  match fuel with
  | O => Fail NoFuel
  | S fuel' =>
      if eof then Ok m else
      let '(buf, rest', eof') := fgets 511 rest in
      load_lines fuel' rest' eof' (parse_line buf m)
  end.

(** A file that does not exist ([None]) ends the process. *)
Definition LoadConfigFile (config_file : option text) : result (gmap text text) :=
  match config_file with
  | None => Fail AssertFailed
  | Some content => load_lines (length content + 2) content false ∅
  end.

Definition Load (key : text) (m : gmap text text) : text := default [] (m !! key).

(** ** The nodes of the cluster *)

Definition node_key (i : nat) (field : string) : text :=
  String.list_ascii_of_string "node" ++ to_string i ++ String.list_ascii_of_string field.

(** The loop of [Clerk::Init] and of the constructor of [KvServer]. *)
Fixpoint node_loop (fuel i : nat) (m : gmap text text) : result (list (text * Z)) :=
  match fuel with
  | O => Fail NoFuel
  | S fuel' =>
      let nodeIp := Load (node_key i "ip") m in
      let nodePortStr := Load (node_key i "port") m in
      if decide (nodeIp = []) then Ok [] else
      l ← node_loop fuel' (S i) m;
      Ok ((nodeIp, to_short (atoi nodePortStr)) :: l)
  end.

Definition node_list (m : gmap text text) : result (list (text * Z)) := node_loop (S (size m)) 0 m.

Lemma node_key_inj i j field : node_key i field = node_key j field → i = j.
Proof.
  unfold node_key. intros [_ E]%app_inj_1; [|done]. apply app_inj_2 in E as [E _]; [|done].
  by apply to_string_inj.
Qed.

Lemma node_key_ip_port i j : node_key i "ip" ≠ node_key j "port".
Proof.
  unfold node_key. intros E%(f_equal last). rewrite !app_assoc in E. by rewrite !last_app in E.
Qed.

(** ** One line *)

Lemma Trim_id s : head s ≠ Some space → last s ≠ Some space → Trim s = s.
Proof.
  intros Hh Hl. unfold Trim. destruct (decide (s = [])) as [->|Hs]; [done|].
  rewrite (first_not_of_head space s) by done. rewrite drop_0. unfold find_last_not_of.
  rewrite first_not_of_head; [|by rewrite head_reverse|by intros ?%(f_equal reverse); rewrite reverse_involutive in *].
  simpl. apply take_ge. lia.
Qed.

Lemma fgets_line n s rest :
  newline ∉ s → (length s < n)%nat → fgets n (s ++ newline :: rest) = (s ++ [newline], rest, false).
Proof.
  revert n. induction s as [|x s IH]; intros [|n] Hs Hn; simpl in *; try lia; [done|].
  apply not_elem_of_cons in Hs as [? ?]. rewrite decide_False by done. by rewrite IH by (done || lia).
Qed.

(** What a key and a value may be made of. *)
Definition plain (s : text) : Prop :=
  (newline ∉ s) ∧ (nul ∉ s) ∧ head s ≠ Some space ∧ last s ≠ Some space.

Definition key_ok (k : text) : Prop := plain k ∧ k ≠ [] ∧ head k ≠ Some hash ∧ (equals ∉ k).

Definition entry_line (e : text * text) : text := e.1 ++ equals :: e.2 ++ [newline].

Definition entry_ok (e : text * text) : Prop :=
  key_ok e.1 ∧ plain e.2 ∧ (length (entry_line e) <= 511)%nat.

Lemma parse_entry k v m :
  entry_ok (k, v) → parse_line (entry_line (k, v)) m = m ∪ {[k := v]}.
Proof.
  intros (((Hkn & Hk0 & Hkh & Hkl) & Hk & Hhash & Heq) & (Hvn & Hv0 & Hvh & Hvl) & _).
  cbn [fst snd] in *. unfold parse_line.
  assert (E : Trim (c_str (entry_line (k, v))) = entry_line (k, v)).
  { unfold entry_line. cbn [fst snd]. rewrite c_str_id.
    - apply Trim_id; [by destruct k|]. by rewrite app_comm_cons, app_assoc, last_snoc.
    - rewrite !elem_of_app, !elem_of_cons, elem_of_app, list_elem_of_singleton. naive_solver. }
  rewrite E. unfold entry_line. cbn [fst snd].
  destruct k as [|c k]; [done|]. simpl in Hhash. cbn [app].
  rewrite decide_False by congruence.
  rewrite app_comm_cons, find_char_app by done.
  rewrite take_app_length, (Trim_id (c :: k)) by done.
  replace (drop (length (c :: k) + 1) ((c :: k) ++ equals :: v ++ [newline])) with (v ++ [newline]).
  2: { by rewrite drop_app_add. }
  rewrite find_char_app by done. rewrite take_app_length, Trim_id by done.
  destruct (m !! (c :: k)) eqn:Hm.
  - apply map_eq. intros k'. destruct (decide (k' = c :: k)) as [->|].
    + by rewrite (lookup_union_Some_l _ _ _ _ Hm), Hm.
    + destruct (m !! k') eqn:Hk'; [by rewrite (lookup_union_Some_l _ _ _ _ Hk')|].
      rewrite lookup_union_r by done. by rewrite lookup_singleton_ne by done.
  - by rewrite insert_union_singleton_r.
Qed.

Definition render (kvs : list (text * text)) : text := concat (map entry_line kvs).

Lemma load_lines_render kvs fuel m :
  Forall entry_ok kvs → (length kvs + 2 <= fuel)%nat →
  load_lines fuel (render kvs) false m = Ok (m ∪ list_to_map kvs).
Proof.
  intros Hok. revert fuel m. induction Hok as [|[k v] kvs He Hok IH]; intros fuel m Hf.
  - destruct fuel as [|[|fuel]]; [simpl in *; lia..|]. simpl. by rewrite map_union_empty.
  - destruct fuel as [|fuel]; [simpl in *; lia|]. unfold render. cbn [map concat load_lines].
    assert (Hg : fgets 511 (entry_line (k, v) ++ render kvs) = (entry_line (k, v), render kvs, false)).
    { unfold entry_line. cbn [fst snd]. destruct He as (((Hkn & _) & _) & (Hvn & _) & Hl).
      unfold entry_line in Hl. cbn [fst snd] in *. rewrite length_app in Hl. cbn [length] in Hl.
      rewrite length_app in Hl. cbn [length] in Hl.
      rewrite app_comm_cons, app_assoc, <- app_assoc. cbn [app].
      rewrite fgets_line; [by rewrite <- !app_assoc| |rewrite length_app; cbn [length]; lia].
      rewrite elem_of_app, elem_of_cons. naive_solver. }
    unfold render in Hg. rewrite Hg, parse_entry by done. fold (render kvs). rewrite IH by (simpl in *; lia).
    f_equal. rewrite <- map_union_assoc. f_equal. simpl. by rewrite insert_union_singleton_l.
Qed.

(** The parser ends on every file. *)
Lemma fgets_shrinks n rest l r eof :
  (0 < n)%nat → fgets n rest = (l, r, eof) → eof = true ∨ (length r < length rest)%nat.
Proof.
  intros Hn. destruct n as [|n]; [lia|]. destruct rest as [|c rest]; cbn [fgets]; [naive_solver|].
  assert (Hle : ∀ n rest l r eof, fgets n rest = (l, r, eof) → (length r <= length rest)%nat).
  { clear. induction n as [|n IH]; intros [|c rest] l r eof E; simpl in E; simplify_eq; simpl; try lia.
    case_decide; simplify_eq; [lia|]. destruct (fgets n rest) as [[l' r'] eof'] eqn:E'. simplify_eq.
    apply IH in E'. lia. }
  case_decide; [intros [=]; subst; simpl; lia|].
  destruct (fgets n rest) as [[l' r'] eof'] eqn:E'. intros [=]; subst. right.
  apply Hle in E'. simpl. lia.
Qed.

Lemma load_lines_total fuel rest m :
  (length rest + 2 <= fuel)%nat → ∃ m', load_lines fuel rest false m = Ok m'.
Proof.
  revert rest m. induction fuel as [|fuel IH]; intros rest m Hf; [lia|].
  cbn [load_lines]. destruct (fgets 511 rest) as [[l r] eof] eqn:E.
  apply fgets_shrinks in E; [|lia]. destruct E as [->|Hr].
  - destruct fuel; [lia|]. by eexists.
  - destruct eof; [destruct fuel; [lia|by eexists]|]. apply IH. lia.
Qed.

(** ** The nodes *)

Definition node_at (i : nat) (m : gmap text text) : text * Z :=
  (Load (node_key i "ip") m, to_short (atoi (Load (node_key i "port") m))).

Lemma node_loop_spec fuel n i m :
  (∀ j, (j < n)%nat → Load (node_key (i + j) "ip") m ≠ []) →
  Load (node_key (i + n) "ip") m = [] → (n < fuel)%nat →
  node_loop fuel i m = Ok (map (λ j, node_at j m) (seq i n)).
Proof.
  revert fuel i. induction n as [|n IH]; intros fuel i Hne He Hf; (destruct fuel as [|fuel]; [lia|]);
    cbn [node_loop].
  - rewrite Nat.add_0_r in He. by rewrite decide_True.
  - specialize (Hne 0%nat) as H0. rewrite Nat.add_0_r in H0. rewrite decide_False by (apply H0; lia).
    rewrite IH; [done| |by rewrite Nat.add_succ_comm|lia].
    intros j Hj. rewrite Nat.add_succ_comm. apply Hne. lia.
Qed.

(** There are fewer nodes than entries: the loop ends. *)
Lemma node_count m : ∃ n, (n <= size m)%nat ∧
  (∀ j, (j < n)%nat → Load (node_key j "ip") m ≠ []) ∧ Load (node_key n "ip") m = [].
Proof.
  assert (H : ∀ k, (∀ j, (j < k)%nat → Load (node_key j "ip") m ≠ []) → (k <= size m)%nat).
  { intros k Hk. set (ks := map (λ j, node_key j "ip") (seq 0 k)).
    assert (Hs : list_to_set ks ⊆ dom m).
    { intros x. rewrite elem_of_list_to_set. unfold ks. rewrite list_elem_of_fmap.
      intros (j & -> & Hj%elem_of_seq). apply elem_of_dom. unfold Load in Hk.
      destruct (m !! node_key j "ip") eqn:E; [by eexists|]. exfalso. apply (Hk j); [lia|by rewrite E]. }
    apply subseteq_size in Hs. rewrite size_dom, size_list_to_set in Hs.
    - unfold ks in Hs. by rewrite length_map, length_seq in Hs.
    - unfold ks. apply (NoDup_fmap_2_strong (λ j, node_key j "ip") (seq 0 k)); [|apply NoDup_seq].
      intros i j _ _. apply node_key_inj. }
  assert (Hex : ∀ k, (k <= size m + 1)%nat → (∀ j, (j < k)%nat → Load (node_key j "ip") m ≠ []) ∨
    ∃ n, (n < k)%nat ∧ (∀ j, (j < n)%nat → Load (node_key j "ip") m ≠ []) ∧ Load (node_key n "ip") m = []).
  { induction k as [|k IH]; intros Hk; [left; lia|]. destruct IH as [IH|(n & ? & ? & ?)]; [lia| |right; exists n; auto].
    destruct (decide (Load (node_key k "ip") m = [])).
    - right. exists k. auto.
    - left. intros j Hj. destruct (decide (j = k)) as [->|]; [done|]. apply IH. lia. }
  destruct (Hex (size m + 1)%nat) as [Hall|(n & Hn & Hlt & He)]; [lia| |exists n; split_and!; [lia|done|done]].
  apply H in Hall. lia.
Qed.

Definition node_entries (i : nat) (node : text * nat) : list (text * text) :=
  [(node_key i "ip", node.1); (node_key i "port", to_string node.2)].

(** The file that describes the nodes. *)
Definition node_file (nodes : list (text * nat)) : list (text * text) := mjoin (imap node_entries nodes).

Definition node_ok (i : nat) (node : text * nat) : Prop :=
  plain node.1 ∧ node.1 ≠ [] ∧ (node.2 < 2 ^ 15)%nat ∧
  Forall (λ e, length (entry_line e) <= 511)%nat (node_entries i node).

Lemma elem_of_node_file nodes e :
  e ∈ node_file nodes ↔ ∃ i node, nodes !! i = Some node ∧ e ∈ node_entries i node.
Proof.
  unfold node_file. rewrite list_elem_of_join. setoid_rewrite elem_of_lookup_imap. naive_solver.
Qed.

Lemma node_entry_keys i node e : e ∈ node_entries i node →
  e = (node_key i "ip", node.1) ∨ e = (node_key i "port", to_string node.2).
Proof. unfold node_entries. rewrite elem_of_cons, list_elem_of_singleton. done. Qed.

(** An entry of the file is found under its key. *)
Lemma node_file_lookup nodes i node k v :
  nodes !! i = Some node → (k, v) ∈ node_entries i node →
  Load k (list_to_map (node_file nodes)) = v.
Proof.
  intros Hi He. unfold Load. rewrite (elem_of_list_to_map_1' _ k v); [done| |].
  - intros v' (i' & node' & Hi' & He')%elem_of_node_file.
    apply node_entry_keys in He, He'.
    assert (i = i') as <-.
    { destruct He as [E|E], He' as [E'|E']; apply (f_equal fst) in E, E'; simpl in E, E';
        rewrite E in E'; first [by eapply node_key_inj|by apply node_key_ip_port in E'|
          symmetry in E'; by apply node_key_ip_port in E']. }
    simplify_eq. destruct He as [E|E], He' as [E'|E']; pose proof (f_equal fst E) as E1;
      pose proof (f_equal fst E') as E1'; apply (f_equal snd) in E, E'; simpl in *; subst v v'; try done;
      rewrite E1 in E1'; [by apply node_key_ip_port in E1'|symmetry in E1'; by apply node_key_ip_port in E1'].
  - apply elem_of_node_file. eauto.
Qed.

Lemma digits_plain s : Forall (λ c, is_digit c = true) s → plain s ∧ (equals ∉ s) ∧ head s ≠ Some hash.
Proof.
  intros Hs. assert (Hno : ∀ c, is_digit c = false → c ∉ s).
  { intros c Hc Hin. rewrite Forall_forall in Hs. apply Hs in Hin. congruence. }
  assert (Hh : ∀ c, is_digit c = false → head s ≠ Some c).
  { intros c Hc E. apply (Hno c Hc). destruct s; simplify_eq/=. by left. }
  split; [split_and!|split]; try by (apply Hno || apply Hh).
  intros E%last_Some_elem_of. by apply (Hno space).
Qed.

Lemma node_key_ok i field :
  field = "ip" ∨ field = "port" → key_ok (node_key i field).
Proof.
  intros Hf. destruct (to_string_spec i) as (_ & Hds & _).
  apply digits_plain in Hds as [(Hn & H0 & _ & _) [He _]]. unfold node_key.
  split_and!; [split_and!| | |]; try done.
  - rewrite !not_elem_of_app. split_and!; [by apply (bool_decide_unpack _)|done|].
    destruct Hf as [->| ->]; by apply (bool_decide_unpack _).
  - rewrite !not_elem_of_app. split_and!; [by apply (bool_decide_unpack _)|done|].
    destruct Hf as [->| ->]; by apply (bool_decide_unpack _).
  - rewrite app_assoc, last_app. destruct Hf as [->| ->]; by simpl.
  - rewrite !not_elem_of_app. split_and!; [by apply (bool_decide_unpack _)|done|].
    destruct Hf as [->| ->]; by apply (bool_decide_unpack _).
Qed.

Lemma node_file_ok nodes :
  (∀ i node, nodes !! i = Some node → node_ok i node) → Forall entry_ok (node_file nodes).
Proof.
  intros Hok. apply Forall_forall. intros e (i & node & Hi & He)%elem_of_node_file.
  destruct (Hok i node Hi) as (Hp & Hne & Hport & Hlen). rewrite Forall_forall in Hlen.
  specialize (Hlen e He). apply node_entry_keys in He as [->| ->]; (split_and!; [|simpl|done]).
  - apply node_key_ok. auto.
  - done.
  - apply node_key_ok. auto.
  - apply digits_plain, to_string_spec.
Qed.

Lemma length_render kvs : (length kvs <= length (render kvs))%nat.
Proof.
  induction kvs as [|[k v] kvs IH]; [done|]. unfold render in *. cbn [map concat length].
  rewrite length_app. assert (1 <= length (entry_line (k, v)))%nat; [|lia].
  unfold entry_line. rewrite length_app. simpl. lia.
Qed.

Lemma node_list_spec n m :
  (∀ j, (j < n)%nat → Load (node_key j "ip") m ≠ []) → Load (node_key n "ip") m = [] →
  node_list m = Ok (map (λ j, node_at j m) (seq 0 n)).
Proof.
  intros Hlt He. destruct (node_count m) as (n' & Hn' & Hlt' & He').
  assert (n' = n) as ->.
  { destruct (Nat.lt_trichotomy n' n) as [H|[->|H]]; [by apply Hlt in H|done|by apply Hlt' in H]. }
  apply node_loop_spec; [done|done|lia].
Qed.

Lemma to_short_id p : (p < 2 ^ 15)%nat → to_short (Z.of_nat p) = Z.of_nat p.
Proof.
  intros Hp. unfold to_short. assert (Z.of_nat p < 2 ^ 15).
  { apply Nat2Z.inj_lt in Hp. by rewrite Nat2Z.inj_pow in Hp. }
  rewrite Z.mod_small; lia.
Qed.

(** The configuration file determines the cluster.  Every file is parsed
    to its end and yields a finite list of nodes; and the file that names the
    address and the port of each node, in order, yields exactly these nodes,
    for any number of nodes, as long as no line is longer than the 511
    characters [fgets] takes, addresses have no line end and no blank at either
    end, and ports are below 32768 (a larger one is stored in a [short] and
    becomes negative). *)
Theorem cluster_file_roundtrip (nodes : list (text * nat))
  (Hok : ∀ i node, nodes !! i = Some node → node_ok i node) :
  (∀ content, ∃ m l, LoadConfigFile (Some content) = Ok m ∧ node_list m = Ok l) ∧
  (∃ m, LoadConfigFile (Some (render (node_file nodes))) = Ok m ∧
    node_list m = Ok (map (λ n, (n.1, Z.of_nat n.2)) nodes)).
Proof.
  split.
  - intros content. destruct (load_lines_total (length content + 2) content ∅) as [m E]; [lia|].
    destruct (node_count m) as (n & Hn & Hlt & He). exists m. eexists. split; [exact E|].
    apply (node_loop_spec _ n); [done|done|lia].
  - pose proof (node_file_ok _ Hok) as Hf.
    exists (list_to_map (node_file nodes)). split.
    + unfold LoadConfigFile. rewrite load_lines_render; [by rewrite map_empty_union|done|].
      pose proof (length_render (node_file nodes)). lia.
    + assert (Hip : ∀ i node, nodes !! i = Some node →
        Load (node_key i "ip") (list_to_map (node_file nodes)) = node.1 ∧
        Load (node_key i "port") (list_to_map (node_file nodes)) = to_string node.2).
      { intros i node Hi. split; eapply node_file_lookup; try done; unfold node_entries;
          rewrite elem_of_cons, list_elem_of_singleton; auto. }
      rewrite (node_list_spec (length nodes)).
      * f_equal. apply list_eq. intros i. rewrite !list_lookup_fmap.
        destruct (nodes !! i) as [node|] eqn:Hi; simpl.
        -- rewrite lookup_seq_lt by (by eapply lookup_lt_Some). simpl. unfold node_at.
           destruct (Hip i node Hi) as [-> ->]. destruct (Hok i node Hi) as (_ & _ & Hp & _).
           by rewrite atoi_to_string, to_short_id.
        -- rewrite lookup_seq_ge by (by apply lookup_ge_None). done.
      * intros j Hj. destruct (lookup_lt_is_Some_2 nodes j Hj) as [node Hn].
        destruct (Hip j node Hn) as [-> _]. apply (Hok j node Hn).
      * unfold Load. rewrite not_elem_of_list_to_map_1; [done|].
        intros (e & E & (i & node & Hi & He)%elem_of_node_file)%list_elem_of_fmap.
        apply lookup_lt_Some in Hi. apply node_entry_keys in He as [->| ->]; simpl in E.
        -- apply node_key_inj in E. lia.
        -- by apply node_key_ip_port in E.
Qed.

Definition sample_nodes : list (text * nat) :=
  [(String.list_ascii_of_string "127.0.0.1", 443%nat); (String.list_ascii_of_string "10.0.0.7", 80%nat)].

Lemma cluster_file_roundtrip_witness :
  ∃ m, LoadConfigFile (Some (render (node_file sample_nodes))) = Ok m ∧
    node_list m = Ok (map (λ n, (n.1, Z.of_nat n.2)) sample_nodes).
Proof.
  apply cluster_file_roundtrip. intros [|[|i]] node Hi; [| |done]; injection Hi as <-;
    unfold node_ok, plain; split_and!; apply (bool_decide_unpack _); vm_compute; exact I.
Defined.
