(* ===== verification/StringUtil.v ===== *)
(** * StringUtil: URL encoding and trimming ([sylar/util.cc], [StringUtil])

    [UrlEncode] and [UrlDecode] build their result lazily: [ss] is null until
    the first character that changes, and then starts with a copy of what came
    before.  The reference is the plain map of every character. *)

From S2P Require Import Prelude.
From S2P Require Export Text.

(** The value of a byte. *)
Definition code (c : ascii) : nat := nat_of_ascii c.

Definition uri_chars : list Z :=
  [0; 0; 0; 0; 0; 0; 0; 0;   0; 0; 0; 0; 0; 0; 0; 0;
   0; 0; 0; 0; 0; 0; 0; 0;   0; 0; 0; 0; 0; 0; 0; 0;
   0; 0; 0; 0; 0; 0; 0; 0;   0; 0; 0; 0; 0; 1; 1; 0;
   1; 1; 1; 1; 1; 1; 1; 1;   1; 1; 0; 0; 0; 1; 0; 0;
   0; 1; 1; 1; 1; 1; 1; 1;   1; 1; 1; 1; 1; 1; 1; 1;
   1; 1; 1; 1; 1; 1; 1; 1;   1; 1; 1; 0; 0; 0; 0; 1;
   0; 1; 1; 1; 1; 1; 1; 1;   1; 1; 1; 1; 1; 1; 1; 1;
   1; 1; 1; 1; 1; 1; 1; 1;   1; 1; 1; 0; 0; 0; 1; 0] ++ replicate 128 0.

Definition xdigit_chars : list Z :=
  replicate 48 0 ++
  [0;1;2;3;4;5;6;7;8;9;0;0;0;0;0;0;
   0;10;11;12;13;14;15;0;0;0;0;0;0;0;0;0;
   0;0;0;0;0;0;0;0;0;0;0;0;0;0;0;0;
   0;10;11;12;13;14;15;0;0;0;0;0;0;0;0;0] ++ replicate 144 0.

Definition CHAR_IS_UNRESERVED (c : ascii) : bool := negb (nth (code c) uri_chars 0 =? 0).

Definition hexdigits : text := String.list_ascii_of_string "0123456789ABCDEF".

(** [isxdigit] in the C locale. *)
Definition isxdigit (c : ascii) : bool :=
  ((48 <=? code c) && (code c <=? 57) || (65 <=? code c) && (code c <=? 70)
    || (97 <=? code c) && (code c <=? 102))%nat.

(** The hexadecimal digit of the value [n]. *)
Definition hexdigit (n : nat) : ascii := nth n hexdigits nul.

(** [ss->append(1, c)], when there is an [ss]. *)
Definition append1 (ss : option text) (c : ascii) : option text := (λ s, s ++ [c]) <$> ss.

(** The loop of [UrlEncode]: [before] are the characters already passed. *)
Fixpoint UrlEncode_loop (space_as_plus : bool) (before rest : text) (ss : option text) : option text :=
  match rest with
  | [] => ss
  | c :: rest' =>
      let ss :=
        if negb (CHAR_IS_UNRESERVED c) then
          let s := default before ss in
          Some (if bool_decide (c = space) && space_as_plus then s ++ ["+"%char]
                else s ++ ["%"%char; hexdigit (Nat.shiftr (code c) 4); hexdigit (Nat.land (code c) 15)])
        else append1 ss c in
      UrlEncode_loop space_as_plus (before ++ [c]) rest' ss
  end.

Definition UrlEncode (str : text) (space_as_plus : bool) : text :=
  default str (UrlEncode_loop space_as_plus [] str None).

(** [(char)(xdigit_chars[a] << 4 | xdigit_chars[b])] *)
Definition unhex (a b : ascii) : ascii :=
  ascii_of_nat (Z.to_nat (Z.lor (Z.shiftl (nth (code a) xdigit_chars 0) 4) (nth (code b) xdigit_chars 0))).

Fixpoint UrlDecode_loop (space_as_plus : bool) (before rest : text) (ss : option text) : option text :=
  match rest with
  | [] => ss
  | c :: rest' =>
      if bool_decide (c = "+"%char) && space_as_plus then
        UrlDecode_loop space_as_plus (before ++ [c]) rest' (Some (default before ss ++ [space]))
      else
        match rest' with
        | a :: b :: rest'' =>
            if bool_decide (c = "%"%char) && isxdigit a && isxdigit b then
              UrlDecode_loop space_as_plus (before ++ [c; a; b]) rest'' (Some (default before ss ++ [unhex a b]))
            else UrlDecode_loop space_as_plus (before ++ [c]) rest' (append1 ss c)
        | _ => UrlDecode_loop space_as_plus (before ++ [c]) rest' (append1 ss c)
        end
  end.

Definition UrlDecode (str : text) (space_as_plus : bool) : text :=
  default str (UrlDecode_loop space_as_plus [] str None).

(** ** Trimming *)

(** [str.find_first_not_of(delimit)] and [str.find_last_not_of(delimit)] *)
Fixpoint first_not_in (delimit s : text) : option nat :=
  match s with
  | [] => None
  | x :: s' => if decide (x ∈ delimit) then S <$> first_not_in delimit s' else Some 0%nat
  end.

Definition last_not_in (delimit s : text) : option nat :=
  (λ i, (length s - 1 - i)%nat) <$> first_not_in delimit (reverse s).

Definition Trim (str delimit : text) : text :=
  match first_not_in delimit str, last_not_in delimit str with
  | Some b, Some e => take (e - b + 1) (drop b str)
  | _, _ => []
  end.

Definition TrimLeft (str delimit : text) : text :=
  match first_not_in delimit str with Some b => drop b str | None => [] end.

Definition TrimRight (str delimit : text) : text :=
  match last_not_in delimit str with Some e => take e str | None => [] end.

(** The default delimiters. *)
Definition blanks : text := [space; "009"%char; "013"%char; newline].

(** ** The reference *)

Definition escape (space_as_plus : bool) (c : ascii) : text :=
  if CHAR_IS_UNRESERVED c then [c]
  else if bool_decide (c = space) && space_as_plus then ["+"%char]
  else ["%"%char; hexdigit (code c / 16); hexdigit (code c mod 16)].

Definition url_encode (space_as_plus : bool) (s : text) : text := s ≫= escape space_as_plus.

(** The unreserved characters, as the comment above [UrlEncode] lists them. *)
Definition documented : text :=
  String.list_ascii_of_string "-.0123456789ABCDEFGHIJKLMNOPQRSTUVWXYZ_abcdefghijklmnopqrstuvwxyz~".

Fixpoint url_decode (space_as_plus : bool) (s : text) : text :=
  match s with
  | [] => []
  | c :: s' =>
      if bool_decide (c = "+"%char) && space_as_plus then space :: url_decode space_as_plus s'
      else
        match s' with
        | a :: b :: s'' =>
            if bool_decide (c = "%"%char) && isxdigit a && isxdigit b then unhex a b :: url_decode space_as_plus s''
            else c :: url_decode space_as_plus s'
        | _ => c :: url_decode space_as_plus s'
        end
  end.

(** ** Encoding *)

Lemma nibbles c : Nat.shiftr (code c) 4 = (code c / 16)%nat ∧ Nat.land (code c) 15 = (code c mod 16)%nat.
Proof.
  split; [apply Nat.shiftr_div_pow2|]. change 15%nat with (Nat.ones 4). by rewrite Nat.land_ones.
Qed.

(** What the lazy result stands for. *)
Definition built (before : text) (ss : option text) : text := default before ss.

Lemma UrlEncode_loop_spec p rest : ∀ done before ss,
  built before ss = url_encode p done → (ss = None → before = done) →
  default (before ++ rest) (UrlEncode_loop p before rest ss) = url_encode p (done ++ rest).
Proof.
  induction rest as [|c rest IH]; intros dn before ss Hs Hb.
  - simpl. unfold built in Hs. rewrite !app_nil_r. by rewrite Hs.
  - cbn [UrlEncode_loop]. replace (before ++ c :: rest) with ((before ++ [c]) ++ rest) by by rewrite <- app_assoc.
    replace (dn ++ c :: rest) with ((dn ++ [c]) ++ rest) by by rewrite <- app_assoc.
    assert (E : ∀ l, escape p c = l → url_encode p (dn ++ [c]) = url_encode p dn ++ l).
    { intros l <-. unfold url_encode. rewrite bind_app. by rewrite bind_cons, app_nil_r. }
    unfold escape in E. destruct (nibbles c) as [-> ->].
    destruct (CHAR_IS_UNRESERVED c) eqn:Eu; cbn [negb]; apply IH.
    + rewrite (E _ eq_refl), <- Hs. unfold built. by destruct ss.
    + intros Hn. rewrite Hb; [done|by destruct ss].
    + rewrite (E _ eq_refl), <- Hs. unfold built. cbn [default]. by destruct (_ && _).
    + done.
Qed.

Lemma UrlEncode_reference s p : UrlEncode s p = url_encode p s.
Proof. exact (UrlEncode_loop_spec p s [] [] None eq_refl (λ _, eq_refl)). Qed.

(** ** Decoding *)

(** A property of every character, checked on all of them. *)
Definition all_chars (f : ascii → bool) : bool := forallb (λ n, f (ascii_of_nat n)) (seq 0 256).

Lemma all_chars_spec f c : all_chars f = true → f c = true.
Proof.
  unfold all_chars. rewrite forallb_forall. intros H. rewrite <- (ascii_nat_embedding c).
  apply H. apply in_seq. pose proof (nat_ascii_bounded c). lia.
Qed.

Lemma escaped_digits c : isxdigit (hexdigit (code c / 16)) = true ∧ isxdigit (hexdigit (code c mod 16)) = true ∧
  unhex (hexdigit (code c / 16)) (hexdigit (code c mod 16)) = c.
Proof.
  pose (f := λ c, isxdigit (hexdigit (code c / 16)) && isxdigit (hexdigit (code c mod 16)) &&
    Ascii.eqb (unhex (hexdigit (code c / 16)) (hexdigit (code c mod 16))) c).
  assert (H : f c = true) by (apply all_chars_spec; by vm_compute). unfold f in H.
  apply andb_true_iff in H as [[? ?]%andb_true_iff ?%Ascii.eqb_eq]. by split_and!.
Qed.

Lemma unreserved_plain c : CHAR_IS_UNRESERVED c = true → c ≠ "+"%char ∧ c ≠ "%"%char.
Proof. intros H. by split; intros ->. Qed.

(** Decoding one escaped character. *)
Lemma UrlDecode_escape p q c rest before ss :
  (p = true → q = true) →
  ∃ ss', UrlDecode_loop q before (escape p c ++ rest) ss = UrlDecode_loop q (before ++ escape p c) rest ss' ∧
    built (before ++ escape p c) ss' = built before ss ++ [c].
Proof.
  intros Hpq. unfold escape. destruct (CHAR_IS_UNRESERVED c) eqn:Eu.
  - destruct (unreserved_plain c Eu) as [Hp Hc]. exists (append1 ss c). split; [|unfold built; by destruct ss].
    cbn [app UrlDecode_loop]. rewrite bool_decide_eq_false_2 by done. cbn [andb].
    rewrite (bool_decide_eq_false_2 (c = "%"%char)) by done. cbn [andb]. by destruct rest as [|? [|? ?]].
  - destruct (bool_decide (c = space) && p) eqn:Ep.
    + apply andb_true_iff in Ep as [->%bool_decide_eq_true Hp]. rewrite (Hpq Hp).
      exists (Some (default before ss ++ [space])). by split.
    + destruct (escaped_digits c) as (Ha & Hb & Hu).
      exists (Some (default before ss ++ [c])). split; [|done].
      cbn [app UrlDecode_loop]. rewrite (bool_decide_eq_false_2 ("%"%char = "+"%char)) by done. cbn [andb].
      rewrite bool_decide_eq_true_2, Ha, Hb, Hu by done. done.
Qed.

Lemma UrlDecode_loop_spec p q s : (p = true → q = true) → ∀ done before ss,
  built before ss = done →
  default (before ++ url_encode p s) (UrlDecode_loop q before (url_encode p s) ss) = done ++ s.
Proof.
  intros Hpq. induction s as [|c s IH]; intros dn before ss Hs.
  - simpl. by rewrite !app_nil_r.
  - unfold url_encode in *. rewrite bind_cons.
    destruct (UrlDecode_escape p q c (s ≫= escape p) before ss Hpq) as (ss' & -> & Hs').
    rewrite app_assoc. change (c :: s) with ([c] ++ s). rewrite (app_assoc dn). apply IH. by rewrite Hs', Hs.
Qed.

Lemma UrlDecode_UrlEncode s p q : (p = true → q = true) → UrlDecode (UrlEncode s p) q = s.
Proof. intros Hpq. rewrite UrlEncode_reference. by apply (UrlDecode_loop_spec p q s Hpq [] [] None). Qed.

(** An encoded text has no character that separates. *)
Definition url_safe (c : ascii) : bool :=
  CHAR_IS_UNRESERVED c || bool_decide (c = "%"%char) || bool_decide (c = "+"%char).

Lemma escape_safe p c : forallb url_safe (escape p c) = true.
Proof.
  apply (all_chars_spec (λ c, forallb url_safe (escape p c))). by destruct p; vm_compute.
Qed.

Lemma UrlEncode_safe s p : forallb url_safe (UrlEncode s p) = true.
Proof.
  rewrite UrlEncode_reference. unfold url_encode. induction s as [|c s IH]; [done|].
  by rewrite bind_cons, forallb_app, escape_safe, IH.
Qed.

(** The branches of the loop, and of the reference. *)
Definition is_plus (q : bool) (c : ascii) : bool := bool_decide (c = "+"%char) && q.

Definition hex_ahead (c : ascii) (rest : text) : option (ascii * ascii * text) :=
  match rest with
  | a :: b :: rest' => if bool_decide (c = "%"%char) && isxdigit a && isxdigit b then Some (a, b, rest') else None
  | _ => None
  end.

Lemma UrlDecode_loop_cons q before c rest ss : UrlDecode_loop q before (c :: rest) ss =
  if is_plus q c then UrlDecode_loop q (before ++ [c]) rest (Some (default before ss ++ [space]))
  else match hex_ahead c rest with
       | Some (a, b, rest') => UrlDecode_loop q (before ++ [c; a; b]) rest' (Some (default before ss ++ [unhex a b]))
       | None => UrlDecode_loop q (before ++ [c]) rest (append1 ss c)
       end.
Proof.
  unfold is_plus, hex_ahead. destruct rest as [|a [|b rest]]; [done|done|].
  simpl. by destruct (_ && q), (_ && isxdigit b).
Qed.

Lemma url_decode_cons q c rest : url_decode q (c :: rest) =
  if is_plus q c then space :: url_decode q rest
  else match hex_ahead c rest with
       | Some (a, b, rest') => unhex a b :: url_decode q rest'
       | None => c :: url_decode q rest
       end.
Proof.
  unfold is_plus, hex_ahead. destruct rest as [|a [|b rest]]; [done|done|].
  simpl. by destruct (_ && q), (_ && isxdigit b).
Qed.

Lemma hex_ahead_Some c rest a b rest' : hex_ahead c rest = Some (a, b, rest') → rest = a :: b :: rest'.
Proof. unfold hex_ahead. destruct rest as [|? [|? ?]]; [done|done|]. case_match; intros; by simplify_eq. Qed.

(** The lazy decoder computes the reference, whatever it has built so far. *)
Lemma UrlDecode_loop_reference q n : ∀ s before ss, (length s ≤ n)%nat →
  default (before ++ s) (UrlDecode_loop q before s ss) = built before ss ++ url_decode q s.
Proof.
  induction n as [|n IH]; intros s before ss Hn.
  { destruct s; [|simpl in Hn; lia]. simpl. by rewrite !app_nil_r. }
  destruct s as [|c s]; [simpl; by rewrite !app_nil_r|]. rewrite UrlDecode_loop_cons, url_decode_cons.
  assert (Hstep : ∀ l rest s1 x, c :: s = l ++ rest → l ≠ [] → built (before ++ l) s1 = built before ss ++ [x] →
    default (before ++ c :: s) (UrlDecode_loop q (before ++ l) rest s1) = built before ss ++ x :: url_decode q rest).
  { intros l rest s1 x E Hl Hb. rewrite E in *. rewrite app_assoc, IH.
    - rewrite Hb. by rewrite <- app_assoc.
    - rewrite length_app in Hn. destruct l; [done|]. simpl in Hn. lia. }
  destruct (is_plus q c); [by apply Hstep|].
  destruct (hex_ahead c s) as [[[a b] rest]|] eqn:E.
  - apply hex_ahead_Some in E as ->. by apply (Hstep [c; a; b]).
  - apply (Hstep [c]); [done|done|]. unfold built. by destruct ss.
Qed.

Lemma UrlDecode_reference s q : UrlDecode s q = url_decode q s.
Proof. exact (UrlDecode_loop_reference q (length s) s [] None ltac:(lia)). Qed.

(** ** Trimming *)

Lemma first_not_in_app d l x r : Forall (λ c, c ∈ d) l → x ∉ d → first_not_in d (l ++ x :: r) = Some (length l).
Proof.
  intros Hl Hx. induction Hl as [|y l Hy Hl IH]; cbn [app first_not_in].
  - by rewrite decide_False.
  - rewrite decide_True by done. by rewrite IH.
Qed.

Lemma first_not_in_none d l : Forall (λ c, c ∈ d) l → first_not_in d l = None.
Proof. induction 1 as [|y l Hy Hl IH]; [done|]. simpl. rewrite decide_True by done. by rewrite IH. Qed.

Lemma last_not_in_app d l x r : Forall (λ c, c ∈ d) r → x ∉ d → last_not_in d (l ++ x :: r) = Some (length l).
Proof.
  intros Hr Hx. unfold last_not_in. rewrite reverse_app, reverse_cons, <- app_assoc. cbn [app].
  rewrite first_not_in_app by (done || by apply Forall_reverse). simpl. f_equal.
  rewrite length_app, length_reverse. simpl. lia.
Qed.

Lemma last_not_in_none d l : Forall (λ c, c ∈ d) l → last_not_in d l = None.
Proof. intros Hl. unfold last_not_in. by rewrite first_not_in_none by by apply Forall_reverse. Qed.

(** ** The claims *)

(** URL encoding.  The two functions, which copy the text only from the
    first character that changes, compute the plain character by character
    encoding and decoding.  Decoding gives back what was encoded, for every
    text of bytes, as long as a plus that stands for a space is also read as
    one; and what is encoded consists of unreserved characters, percent signs
    and plus signs only, so it can be put between separators.  The comment
    above [UrlEncode] lists the unreserved characters; the table has one more,
    the equals sign. *)
Theorem url_codec (s : text) (p q : bool) :
  UrlEncode s p = url_encode p s ∧ UrlDecode s q = url_decode q s ∧
  ((p = true → q = true) → UrlDecode (UrlEncode s p) q = s) ∧
  Forall (λ c, url_safe c = true) (UrlEncode s p) ∧
  ∀ c, CHAR_IS_UNRESERVED c = bool_decide (c ∈ documented) || bool_decide (c = equals).
Proof.
  split_and!; [apply UrlEncode_reference|apply UrlDecode_reference|by apply UrlDecode_UrlEncode| |].
  2: { intros c. apply eqb_prop.
       pose (f := λ c, Bool.eqb (CHAR_IS_UNRESERVED c) (bool_decide (c ∈ documented) || bool_decide (c = equals))).
       change (f c = true). apply all_chars_spec. by vm_compute. }
  pose proof (UrlEncode_safe s p) as H. rewrite forallb_forall in H.
  apply Forall_forall. intros c Hc. apply H. by apply list_elem_of_In.
Qed.

(** Trimming.  [Trim] gives the text between the first and the
    last character that is no delimiter, [TrimLeft] what starts with the first
    one; a text of delimiters gives the empty text.  [TrimRight] ends its
    substring one character too early: it also drops the last character that
    is no delimiter. *)
Theorem trim_spec (d l m r : text) (x y : ascii) (Hl : Forall (λ c, c ∈ d) l) (Hr : Forall (λ c, c ∈ d) r)
  (Hx : x ∉ d) (Hy : y ∉ d) (Hm : head m = Some x) (Hm' : last m = Some y) :
  Trim (l ++ m ++ r) d = m ∧ TrimLeft (l ++ m ++ r) d = m ++ r ∧
  TrimRight (l ++ m ++ r) d = l ++ removelast m ∧
  Trim l d = [] ∧ TrimLeft l d = [] ∧ TrimRight l d = [].
Proof.
  apply last_Some in Hm' as [m1 ->]. assert (Hr2 : removelast (m1 ++ [y]) = m1) by apply removelast_last.
  assert (Hf : first_not_in d (l ++ (m1 ++ [y]) ++ r) = Some (length l)).
  { destruct m1 as [|z m1]; simpl in Hm; simplify_eq; [by apply first_not_in_app|].
    cbn [app]. by apply first_not_in_app. }
  assert (He : last_not_in d (l ++ (m1 ++ [y]) ++ r) = Some (length l + length m1)%nat).
  { rewrite <- (app_assoc m1), app_assoc. cbn [app]. rewrite last_not_in_app by done. by rewrite length_app. }
  unfold Trim, TrimLeft, TrimRight. rewrite Hf, He, !first_not_in_none, !last_not_in_none by done.
  rewrite drop_app_length, Hr2. split_and!; try done.
  - rewrite <- (app_assoc m1). replace (length l + length m1 - length l + 1)%nat with (length (m1 ++ [y]))
      by (rewrite length_app; simpl; lia). rewrite app_assoc. apply take_app_length.
  - rewrite take_app_add, <- app_assoc. by rewrite take_app_length.
Qed.

(** ** Witnesses *)

Lemma url_codec_witness :
  let s := String.list_ascii_of_string "a b/c%20+&=" in
  UrlDecode (UrlEncode s true) true = s ∧ UrlEncode s true = String.list_ascii_of_string "a+b%2Fc%2520%2B%26=".
Proof. intros s. split; [|by vm_compute]. destruct (url_codec s true true) as (_ & _ & H & _). by apply H. Defined.

Lemma trim_spec_witness :
  TrimRight (String.list_ascii_of_string " ab ") blanks = String.list_ascii_of_string " a".
Proof.
  destruct (trim_spec blanks [space] (String.list_ascii_of_string "ab") [space] "a" "b")
    as (_ & _ & H & _); [by repeat constructor|by repeat constructor| | |done|done|exact H];
    apply (bool_decide_unpack _); vm_compute; exact I.
Defined.
