(* ===== verification/Http.v ===== *)
(** * Http: requests and responses ([sylar/http/http.cc], [http.h])

    The data of a request and of a response, their header maps with keys
    compared regardless of case, the parameters parsed on demand from the
    query, the body and the cookies, and the text that is sent. *)

From S2P Require Import Prelude.
From S2P Require Export Text.
From S2P Require StringUtil.

(** ** Methods and statuses *)

Inductive HttpMethod :=
  | DELETE | GET | HEAD | POST | PUT | CONNECT | OPTIONS | TRACE | COPY | LOCK | MKCOL | MOVE | PROPFIND
  | PROPPATCH | SEARCH | UNLOCK | BIND | REBIND | UNBIND | ACL | REPORT | MKACTIVITY | CHECKOUT | MERGE
  | MSEARCH | NOTIFY | SUBSCRIBE | UNSUBSCRIBE | PATCH | PURGE | MKCALENDAR | LINK | UNLINK | SOURCE
  | INVALID_METHOD.

#[export] Instance HttpMethod_eq_dec : EqDecision HttpMethod.
Proof. solve_decision. Defined.

(** The enumerators in the order of their numbers, with their texts. *)
Definition HTTP_METHOD_MAP : list (HttpMethod * text) :=
  [(DELETE, str "DELETE"); (GET, str "GET"); (HEAD, str "HEAD"); (POST, str "POST"); (PUT, str "PUT");
   (CONNECT, str "CONNECT"); (OPTIONS, str "OPTIONS"); (TRACE, str "TRACE"); (COPY, str "COPY");
   (LOCK, str "LOCK"); (MKCOL, str "MKCOL"); (MOVE, str "MOVE"); (PROPFIND, str "PROPFIND");
   (PROPPATCH, str "PROPPATCH"); (SEARCH, str "SEARCH"); (UNLOCK, str "UNLOCK"); (BIND, str "BIND");
   (REBIND, str "REBIND"); (UNBIND, str "UNBIND"); (ACL, str "ACL"); (REPORT, str "REPORT");
   (MKACTIVITY, str "MKACTIVITY"); (CHECKOUT, str "CHECKOUT"); (MERGE, str "MERGE");
   (MSEARCH, str "M-SEARCH"); (NOTIFY, str "NOTIFY"); (SUBSCRIBE, str "SUBSCRIBE");
   (UNSUBSCRIBE, str "UNSUBSCRIBE"); (PATCH, str "PATCH"); (PURGE, str "PURGE");
   (MKCALENDAR, str "MKCALENDAR"); (LINK, str "LINK"); (UNLINK, str "UNLINK"); (SOURCE, str "SOURCE")].

(** A status is its code: the parser of responses casts any number to it. *)
Abbreviation HttpStatus := Z.

Definition HTTP_STATUS_MAP : list (Z * text) :=
  [(100, str "Continue"); (101, str "Switching Protocols"); (102, str "Processing"); (200, str "OK");
   (201, str "Created"); (202, str "Accepted"); (203, str "Non-Authoritative Information");
   (204, str "No Content"); (205, str "Reset Content"); (206, str "Partial Content");
   (207, str "Multi-Status"); (208, str "Already Reported"); (226, str "IM Used");
   (300, str "Multiple Choices"); (301, str "Moved Permanently"); (302, str "Found"); (303, str "See Other");
   (304, str "Not Modified"); (305, str "Use Proxy"); (307, str "Temporary Redirect");
   (308, str "Permanent Redirect"); (400, str "Bad Request"); (401, str "Unauthorized");
   (402, str "Payment Required"); (403, str "Forbidden"); (404, str "Not Found");
   (405, str "Method Not Allowed"); (406, str "Not Acceptable"); (407, str "Proxy Authentication Required");
   (408, str "Request Timeout"); (409, str "Conflict"); (410, str "Gone"); (411, str "Length Required");
   (412, str "Precondition Failed"); (413, str "Payload Too Large"); (414, str "URI Too Long");
   (415, str "Unsupported Media Type"); (416, str "Range Not Satisfiable"); (417, str "Expectation Failed");
   (421, str "Misdirected Request"); (422, str "Unprocessable Entity"); (423, str "Locked");
   (424, str "Failed Dependency"); (426, str "Upgrade Required"); (428, str "Precondition Required");
   (429, str "Too Many Requests"); (431, str "Request Header Fields Too Large");
   (451, str "Unavailable For Legal Reasons"); (500, str "Internal Server Error");
   (501, str "Not Implemented"); (502, str "Bad Gateway"); (503, str "Service Unavailable");
   (504, str "Gateway Timeout"); (505, str "HTTP Version Not Supported");
   (506, str "Variant Also Negotiates"); (507, str "Insufficient Storage"); (508, str "Loop Detected");
   (510, str "Not Extended"); (511, str "Network Authentication Required")].

Definition OK : HttpStatus := 200.
Definition FOUND : HttpStatus := 302.
Definition BAD_REQUEST : HttpStatus := 400.
Definition NOT_FOUND : HttpStatus := 404.
Definition METHOD_NOT_ALLOWED : HttpStatus := 405.
Definition INTERNAL_SERVER_ERROR : HttpStatus := 500.

Definition StringToHttpMethod (m : text) : HttpMethod :=
  match find (λ p, bool_decide (p.2 = c_str m)) HTTP_METHOD_MAP with
  | Some p => p.1
  | None => INVALID_METHOD
  end.

(** [strncmp(s, m, strlen(s)) == 0] for each name [s] in turn. *)
Definition CharsToHttpMethod (m : text) : HttpMethod :=
  match find (λ p, bool_decide (p.2 = take (length p.2) (c_str m))) HTTP_METHOD_MAP with
  | Some p => p.1
  | None => INVALID_METHOD
  end.

Definition HttpMethodToString (m : HttpMethod) : text :=
  match find (λ p, bool_decide (p.1 = m)) HTTP_METHOD_MAP with
  | Some p => p.2
  | None => str "<unknown>"
  end.

Definition HttpStatusToString (s : HttpStatus) : text :=
  match find (λ p, p.1 =? s) HTTP_STATUS_MAP with
  | Some p => p.2
  | None => str "<unknown>"
  end.

(** ** Keys regardless of case *)

Definition tolower (c : ascii) : ascii :=
  let n := nat_of_ascii c in if ((65 <=? n) && (n <=? 90))%nat then ascii_of_nat (n + 32) else c.

(** [strcasecmp] on the characters before the null. *)
Fixpoint strcasecmp (a b : text) : Z :=
  match a, b with
  | [], [] => 0
  | [], y :: _ => - Z.of_nat (nat_of_ascii (tolower y))
  | x :: _, [] => Z.of_nat (nat_of_ascii (tolower x))
  | x :: a', y :: b' =>
      let d := Z.of_nat (nat_of_ascii (tolower x)) - Z.of_nat (nat_of_ascii (tolower y)) in
      if d =? 0 then strcasecmp a' b' else d
  end.

Fixpoint has_prefix (needle s : text) : bool :=
  match needle, s with
  | [], _ => true
  | _, [] => false
  | x :: needle', y :: s' => bool_decide (tolower x = tolower y) && has_prefix needle' s'
  end.

(** [strcasestr(s, needle) != nullptr] *)
Fixpoint strcasestr (s needle : text) : bool :=
  has_prefix needle s || match s with [] => false | _ :: s' => strcasestr s' needle end.

Definition CaseInsensitiveLess (lhs rhs : text) : bool := strcasecmp (c_str lhs) (c_str rhs) <? 0.

(** [std::map<std::string, std::string, CaseInsensitiveLess>], in its order. *)
Abbreviation MapType := (list (text * text)).

Definition same_key (a b : text) : bool := negb (CaseInsensitiveLess a b) && negb (CaseInsensitiveLess b a).

Fixpoint map_find (key : text) (m : MapType) : option text :=
  match m with
  | [] => None
  | (k, v) :: m' => if same_key k key then Some v else map_find key m'
  end.

(** [m[key] = val], and [m.insert({key, val})] which keeps what is there. *)
Fixpoint map_put (overwrite : bool) (key val : text) (m : MapType) : MapType :=
  match m with
  | [] => [(key, val)]
  | (k, v) :: m' =>
      if same_key k key then (k, if overwrite then val else v) :: m'
      else if CaseInsensitiveLess key k then (key, val) :: m
      else (k, v) :: map_put overwrite key val m'
  end.

Fixpoint map_erase (key : text) (m : MapType) : MapType :=
  match m with
  | [] => []
  | (k, v) :: m' => if same_key k key then m' else (k, v) :: map_erase key m'
  end.

(** ** Requests *)

Record HttpRequest := mkRequest {
  m_method : HttpMethod;
  m_version : Z;
  m_close : bool;
  m_websocket : bool;
  m_parserParamFlag : Z;
  m_path : text;
  m_query : text;
  m_fragment : text;
  m_body : text;
  m_headers : MapType;
  m_params : MapType;
  m_cookies : MapType
}.

Definition new_HttpRequest (version : Z) (close : bool) : HttpRequest :=
  mkRequest GET version close false 0 (str "/") [] [] [] [] [] [].

Implicit Types r : HttpRequest.

Definition setMethod v r := mkRequest v (m_version r) (m_close r) (m_websocket r) (m_parserParamFlag r)
  (m_path r) (m_query r) (m_fragment r) (m_body r) (m_headers r) (m_params r) (m_cookies r).
Definition setPath v r := mkRequest (m_method r) (m_version r) (m_close r) (m_websocket r) (m_parserParamFlag r)
  v (m_query r) (m_fragment r) (m_body r) (m_headers r) (m_params r) (m_cookies r).
Definition setVersion v r := mkRequest (m_method r) v (m_close r) (m_websocket r) (m_parserParamFlag r)
  (m_path r) (m_query r) (m_fragment r) (m_body r) (m_headers r) (m_params r) (m_cookies r).
Definition setFragment v r := mkRequest (m_method r) (m_version r) (m_close r) (m_websocket r) (m_parserParamFlag r)
  (m_path r) (m_query r) v (m_body r) (m_headers r) (m_params r) (m_cookies r).
Definition setQuery v r := mkRequest (m_method r) (m_version r) (m_close r) (m_websocket r) (m_parserParamFlag r)
  (m_path r) v (m_fragment r) (m_body r) (m_headers r) (m_params r) (m_cookies r).
Definition setBody v r := mkRequest (m_method r) (m_version r) (m_close r) (m_websocket r) (m_parserParamFlag r)
  (m_path r) (m_query r) (m_fragment r) v (m_headers r) (m_params r) (m_cookies r).
Definition setClose v r := mkRequest (m_method r) (m_version r) v (m_websocket r) (m_parserParamFlag r)
  (m_path r) (m_query r) (m_fragment r) (m_body r) (m_headers r) (m_params r) (m_cookies r).
Definition setHeaders v r := mkRequest (m_method r) (m_version r) (m_close r) (m_websocket r) (m_parserParamFlag r)
  (m_path r) (m_query r) (m_fragment r) (m_body r) v (m_params r) (m_cookies r).
Definition setParams v r := mkRequest (m_method r) (m_version r) (m_close r) (m_websocket r) (m_parserParamFlag r)
  (m_path r) (m_query r) (m_fragment r) (m_body r) (m_headers r) v (m_cookies r).
Definition setCookies v r := mkRequest (m_method r) (m_version r) (m_close r) (m_websocket r) (m_parserParamFlag r)
  (m_path r) (m_query r) (m_fragment r) (m_body r) (m_headers r) (m_params r) v.
Definition set_flag v r := mkRequest (m_method r) (m_version r) (m_close r) (m_websocket r) (Z.lor (m_parserParamFlag r) v)
  (m_path r) (m_query r) (m_fragment r) (m_body r) (m_headers r) (m_params r) (m_cookies r).

Definition getHeader (key def : text) r : text := default def (map_find key (m_headers r)).
Definition setHeader (key val : text) r := setHeaders (map_put true key val (m_headers r)) r.
Definition setParam (key val : text) r := setParams (map_put true key val (m_params r)) r.
Definition setCookie (key val : text) r := setCookies (map_put true key val (m_cookies r)) r.
Definition delHeader (key : text) r := setHeaders (map_erase key (m_headers r)) r.
Definition delParam (key : text) r := setParams (map_erase key (m_params r)) r.
Definition delCookie (key : text) r := setCookies (map_erase key (m_cookies r)) r.

(** [hasHeader(key, &val)]: the value, or nothing. *)
Definition hasHeader (key : text) r : option text := map_find key (m_headers r).

(** [checkGetAs] and [getAs], [cast] being [boost::lexical_cast<T>]. *)
Definition checkGetAs {T} (cast : text → option T) (m : MapType) (key : text) (def : T) : bool * T :=
  match map_find key m with
  | None => (false, def)
  | Some v => match cast v with Some x => (true, x) | None => (false, def) end
  end.

Definition getAs {T} (cast : text → option T) (m : MapType) (key : text) (def : T) : T :=
  match map_find key m with
  | None => def
  | Some v => default def (cast v)
  end.

(** ** Parameters *)

(** The loop of [PARSE_PARAM(str, m, flag, trim)] on what is left of [str]. *)
Fixpoint PARSE_PARAM (fuel : nat) (flag : ascii) (trim : text → text) (s : text) (m : MapType) : result MapType :=
  match fuel with
  | O => Fail NoFuel
  | S fuel' =>
      match find_char equals s with
      | None => Ok m
      | Some key =>
          match find_char flag (drop key s) with
          | None => Ok (map_put false (trim (take key s)) (StringUtil.UrlDecode (drop (key + 1) s) true) m)
          | Some n =>
              let m := map_put false (trim (take key s))
                (StringUtil.UrlDecode (take (n - 1) (drop (key + 1) s)) true) m in
              PARSE_PARAM fuel' flag trim (drop (key + n + 1) s) m
          end
      end
  end.

Abbreviation MR A := (M HttpRequest A).

Definition lift {A} (x : result A) : MR A := λ r, match x with Ok a => Ok (a, r) | Fail f => Fail f end.

Definition ampersand : ascii := "&"%char.
Definition semicolon : ascii := ";"%char.

Definition initQueryParam : MR unit :=
  r ← gets id;
  if negb (Z.land (m_parserParamFlag r) 1 =? 0) then mret tt
  else
    m ← lift (PARSE_PARAM (S (length (m_query r))) ampersand id (m_query r) (m_params r));
    modify (setParams m) ;; modify (set_flag 1).

Definition initBodyParam : MR unit :=
  r ← gets id;
  if negb (Z.land (m_parserParamFlag r) 2 =? 0) then mret tt
  else
    let content_type := getHeader (str "content-type") [] r in
    if negb (strcasestr (c_str content_type) (str "application/x-www-form-urlencoded")) then modify (set_flag 2)
    else
      m ← lift (PARSE_PARAM (S (length (m_body r))) ampersand id (m_body r) (m_params r));
      modify (setParams m) ;; modify (set_flag 2).

Definition initCookies : MR unit :=
  r ← gets id;
  if negb (Z.land (m_parserParamFlag r) 4 =? 0) then mret tt
  else
    let cookie := getHeader (str "cookie") [] r in
    if decide (cookie = []) then modify (set_flag 4)
    else
      m ← lift (PARSE_PARAM (S (length cookie)) semicolon (λ k, StringUtil.Trim k StringUtil.blanks) cookie (m_cookies r));
      modify (setCookies m) ;; modify (set_flag 4).

Definition initParam : MR unit := initQueryParam ;; initBodyParam ;; initCookies.

Definition hasParam (key : text) : MR (option text) :=
  initQueryParam ;; initBodyParam ;; gets (λ r, map_find key (m_params r)).

Definition getParam (key def : text) : MR text :=
  initQueryParam ;; initBodyParam ;; gets (λ r, default def (map_find key (m_params r))).

Definition hasCookie (key : text) : MR (option text) :=
  initCookies ;; gets (λ r, map_find key (m_cookies r)).

Definition getCookie (key def : text) : MR text :=
  initCookies ;; gets (λ r, default def (map_find key (m_cookies r))).

(** [init()]: the connection header decides whether to close. *)
Definition HttpRequest_init r : HttpRequest :=
  let conn := getHeader (str "connection") [] r in
  if decide (conn = []) then r
  else setClose (negb (strcasecmp (c_str conn) (str "keep-alive") =? 0)) r.

(** ** Responses *)

Record HttpResponse := mkResponse {
  m_status : HttpStatus;
  rsp_version : Z;
  rsp_close : bool;
  rsp_websocket : bool;
  rsp_body : text;
  m_reason : text;
  rsp_headers : MapType;
  rsp_cookies : list text
}.

Definition new_HttpResponse (version : Z) (close : bool) : HttpResponse :=
  mkResponse OK version close false [] [] [] [].

Implicit Types p : HttpResponse.

Definition createResponse r : HttpResponse := new_HttpResponse (m_version r) (m_close r).

Definition rsp_setStatus v p := mkResponse v (rsp_version p) (rsp_close p) (rsp_websocket p) (rsp_body p)
  (m_reason p) (rsp_headers p) (rsp_cookies p).
Definition rsp_setVersion v p := mkResponse (m_status p) v (rsp_close p) (rsp_websocket p) (rsp_body p)
  (m_reason p) (rsp_headers p) (rsp_cookies p).
Definition rsp_setReason v p := mkResponse (m_status p) (rsp_version p) (rsp_close p) (rsp_websocket p) (rsp_body p)
  v (rsp_headers p) (rsp_cookies p).
Definition rsp_setBody v p := mkResponse (m_status p) (rsp_version p) (rsp_close p) (rsp_websocket p) v
  (m_reason p) (rsp_headers p) (rsp_cookies p).
Definition rsp_setHeaders v p := mkResponse (m_status p) (rsp_version p) (rsp_close p) (rsp_websocket p) (rsp_body p)
  (m_reason p) v (rsp_cookies p).
Definition rsp_getHeader (key def : text) p : text := default def (map_find key (rsp_headers p)).
Definition rsp_setHeader (key val : text) p := rsp_setHeaders (map_put true key val (rsp_headers p)) p.
Definition rsp_delHeader (key : text) p := rsp_setHeaders (map_erase key (rsp_headers p)) p.
Definition setRedirect (uri : text) p := rsp_setHeader (str "Location") uri (rsp_setStatus FOUND p).

(** [setCookie]; [expires] is the formatted time, when there is one. *)
Definition rsp_setCookie (key val : text) (expires : option text) (path domain : text) (secure : bool) p :=
  let ss := key ++ [equals] ++ val ++
    match expires with Some t => str ";expires=" ++ t ++ str " GMT" | None => [] end ++
    (if decide (domain = []) then [] else str ";domain=" ++ domain) ++
    (if decide (path = []) then [] else str ";path=" ++ path) ++
    (if secure then str ";secure" else []) in
  mkResponse (m_status p) (rsp_version p) (rsp_close p) (rsp_websocket p) (rsp_body p)
    (m_reason p) (rsp_headers p) (rsp_cookies p ++ [ss]).

(** ** The text that is sent *)

Definition crlf : text := ["013"%char; newline].
Definition number (z : Z) : text := to_string (Z.to_nat z).

Definition version_text (v : Z) : text := number (Z.shiftr v 4) ++ str "." ++ number (Z.land v 15).

Definition connection_text (close : bool) : text :=
  str "connection: " ++ (if close then str "close" else str "keep-alive") ++ crlf.

(** The header lines: the connection header is left out, except for a web socket. *)
Definition header_lines (websocket : bool) (m : MapType) : text :=
  m ≫= λ i, if negb websocket && (strcasecmp (c_str i.1) (str "connection") =? 0) then []
            else i.1 ++ str ": " ++ i.2 ++ crlf.

Definition body_text (body : text) : text :=
  if decide (body = []) then crlf
  else str "content-length: " ++ to_string (length body) ++ crlf ++ crlf ++ body.

Definition dump r : text :=
  HttpMethodToString (m_method r) ++ str " " ++ m_path r ++
  (if decide (m_query r = []) then [] else str "?") ++ m_query r ++
  (if decide (m_fragment r = []) then [] else str "#") ++ m_fragment r ++
  str " HTTP/" ++ version_text (m_version r) ++ crlf ++
  (if m_websocket r then [] else connection_text (m_close r)) ++
  header_lines (m_websocket r) (m_headers r) ++ body_text (m_body r).

Definition rsp_dump p : text :=
  str "HTTP/" ++ version_text (rsp_version p) ++ str " " ++ number (m_status p) ++ str " " ++
  (if decide (m_reason p = []) then HttpStatusToString (m_status p) else m_reason p) ++ crlf ++
  header_lines (rsp_websocket p) (rsp_headers p) ++
  (rsp_cookies p ≫= λ i, str "Set-Cookie: " ++ i ++ crlf) ++
  (if rsp_websocket p then [] else connection_text (rsp_close p)) ++ body_text (rsp_body p).
