(* ===== verification/HttpProps.v ===== *)
(** * HttpProps: header maps and parameters

    The ordered maps with keys regardless of case are finite maps on folded
    keys, and what a client puts into a query, a form or a cookie header is
    what the parameters give back. *)

From Stdlib Require Import Sorting.Sorted.
From S2P Require Import Prelude Http.
From S2P Require StringUtil.

(** ** Keys regardless of case *)

(** A key as the maps see it. *)
Definition fold_key (k : text) : text := map tolower (c_str k).

Definition weight (c : ascii) : Z := Z.of_nat (nat_of_ascii (tolower c)).

Lemma weight_inj x y : weight x = weight y → tolower x = tolower y.
Proof.
  unfold weight. intros E%Nat2Z.inj%(f_equal ascii_of_nat). by rewrite !ascii_nat_embedding in E.
Qed.

Lemma weight_nonneg x : 0 <= weight x.
Proof. unfold weight. lia. Qed.

Lemma weight_pos x : x ≠ nul → 0 < weight x.
Proof.
  intros Hx. destruct (decide (weight x = 0)) as [E|]; [|pose proof (weight_nonneg x); lia].
  destruct x as [[] [] [] [] [] [] [] []]; vm_compute in E; try done; by destruct Hx.
Qed.

Lemma strcasecmp_antisym a b : strcasecmp b a = - strcasecmp a b.
Proof.
  revert b. induction a as [|x a IH]; intros [|y b]; try done; cbn [strcasecmp]; [lia|].
  fold (weight x) (weight y). rewrite IH.
  destruct (Z.eqb_spec (weight x - weight y) 0), (Z.eqb_spec (weight y - weight x) 0); lia.
Qed.

Lemma strcasecmp_zero a b : nul ∉ a → nul ∉ b → strcasecmp a b = 0 ↔ map tolower a = map tolower b.
Proof.
  revert b. induction a as [|x a IH]; intros [|y b] Ha Hb; cbn [strcasecmp map]; try done.
  - fold (weight y). assert (0 < weight y) by (apply weight_pos; intros ->; apply Hb; by left). split; [lia|done].
  - fold (weight x). assert (0 < weight x) by (apply weight_pos; intros ->; apply Ha; by left). split; [lia|done].
  - fold (weight x) (weight y). apply not_elem_of_cons in Ha as [_ Ha], Hb as [_ Hb].
    destruct (Z.eqb_spec (weight x - weight y) 0) as [E|E].
    + rewrite IH by done. rewrite (weight_inj x y) by lia. split; [by intros ->|by intros [= ->]].
    + split; [lia|]. intros [= E' _]. exfalso. apply E. unfold weight. rewrite E'. lia.
Qed.

Lemma c_str_nul s : nul ∉ c_str s.
Proof.
  induction s as [|x s IH]; [by apply not_elem_of_nil|]. simpl. case_decide; [by apply not_elem_of_nil|].
  by apply not_elem_of_cons.
Qed.

Lemma strcasecmp_trans a b c : strcasecmp a b < 0 → strcasecmp b c < 0 → strcasecmp a c < 0.
Proof.
  revert b c. induction a as [|x a IH]; intros [|y b] [|z c]; cbn [strcasecmp]; try lia;
    repeat match goal with |- context [Z.of_nat (nat_of_ascii (tolower ?u))] => fold (weight u) end;
    pose proof weight_nonneg as Hw.
  - destruct (Z.eqb_spec (weight y - weight z) 0); pose proof (Hw y); lia.
  - destruct (Z.eqb_spec (weight x - weight y) 0), (Z.eqb_spec (weight y - weight z) 0),
      (Z.eqb_spec (weight x - weight z) 0); try lia. by apply IH.
Qed.

Definition less (a b : text) : Prop := CaseInsensitiveLess a b = true.

Lemma less_iff a b : less a b ↔ strcasecmp (c_str a) (c_str b) < 0.
Proof. unfold less, CaseInsensitiveLess. apply Z.ltb_lt. Qed.

Lemma less_trans a b c : less a b → less b c → less a c.
Proof. rewrite !less_iff. apply strcasecmp_trans. Qed.

Lemma same_key_spec a b : same_key a b = bool_decide (fold_key a = fold_key b).
Proof.
  unfold same_key, CaseInsensitiveLess, fold_key. rewrite (strcasecmp_antisym (c_str a) (c_str b)).
  pose proof (strcasecmp_zero _ _ (c_str_nul a) (c_str_nul b)) as Hz.
  case_bool_decide as E; [apply Hz in E as ->; done|].
  destruct (Z.ltb_spec (strcasecmp (c_str a) (c_str b)) 0), (Z.ltb_spec (- strcasecmp (c_str a) (c_str b)) 0); try done.
  exfalso. apply E, Hz. lia.
Qed.

Lemma less_fold a b : less a b → fold_key a ≠ fold_key b.
Proof.
  intros Hl E. rewrite less_iff in Hl.
  pose proof (proj2 (strcasecmp_zero _ _ (c_str_nul a) (c_str_nul b)) E). lia.
Qed.

Lemma less_total a b : ¬ less a b → fold_key b ≠ fold_key a → less b a.
Proof.
  rewrite !less_iff. rewrite (strcasecmp_antisym (c_str a) (c_str b)). intros Hl Hne.
  pose proof (strcasecmp_zero _ _ (c_str_nul a) (c_str_nul b)) as Hz.
  destruct (decide (strcasecmp (c_str a) (c_str b) = 0)) as [E|E]; [|lia]. destruct Hne. symmetry. by apply Hz.
Qed.

(** ** The maps *)

Definition sorted_map (m : MapType) : Prop := StronglySorted (λ p q, less p.1 q.1) m.

(** The finite map a [MapType] stands for. *)
Definition fields (m : MapType) : gmap text text := list_to_map (map (λ p, (fold_key p.1, p.2)) m).

Lemma fields_cons k v m : fields ((k, v) :: m) = <[fold_key k := v]> (fields m).
Proof. done. Qed.

Lemma fields_above k m : Forall (λ q, less k q.1) m → fields m !! fold_key k = None.
Proof.
  induction 1 as [|[k' v'] m Hk _ IH]; [done|]. rewrite fields_cons, lookup_insert_ne; [done|].
  intros E. by apply (less_fold k k').
Qed.

Lemma map_find_spec k m : map_find k m = fields m !! fold_key k.
Proof.
  induction m as [|[k' v'] m IH]; [done|]. cbn [map_find]. rewrite fields_cons, same_key_spec.
  case_bool_decide as E; [by rewrite E, lookup_insert_eq|by rewrite lookup_insert_ne].
Qed.

Lemma map_put_spec ow k v m : sorted_map m →
  sorted_map (map_put ow k v m) ∧
  fields (map_put ow k v m) = <[fold_key k := if ow then v else default v (fields m !! fold_key k)]> (fields m) ∧
  ∀ x, less x k → Forall (λ q, less x q.1) m → Forall (λ q, less x q.1) (map_put ow k v m).
Proof.
  induction 1 as [|[k' v'] m Hs IH Hk']; cbn [map_put].
  { split_and!; [by repeat constructor| |by repeat constructor]. by destruct ow. }
  destruct IH as (Hs' & Hf & Hx). rewrite same_key_spec, fields_cons. case_bool_decide as E.
  - split_and!; [by constructor| |].
    + rewrite fields_cons, E, lookup_insert_eq, insert_insert_eq. by destruct ow.
    + by intros x Hxk [? ?]%Forall_cons; constructor.
  - destruct (CaseInsensitiveLess k k') eqn:El.
    + assert (Hall : Forall (λ q, less k q.1) ((k', v') :: m)).
      { constructor; [done|]. eapply Forall_impl; [exact Hk'|]. intros q Hq. by eapply less_trans. }
      split_and!; [by constructor; [constructor|]| |by constructor].
      rewrite fields_cons, fields_cons, <- (fields_cons k' v' m), (fields_above _ _ Hall). by destruct ow.
    + split_and!.
      * constructor; [done|]. apply Hx; [|done]. simpl. apply less_total; [unfold less; congruence|done].
      * rewrite fields_cons, Hf, lookup_insert_ne by done. by apply insert_insert_ne.
      * intros x Hxk [? ?]%Forall_cons. constructor; [done|]. by apply Hx.
Qed.

Lemma map_erase_spec k m : sorted_map m →
  sorted_map (map_erase k m) ∧ fields (map_erase k m) = delete (fold_key k) (fields m) ∧
  ∀ x, Forall (λ q, less x q.1) m → Forall (λ q, less x q.1) (map_erase k m).
Proof.
  induction 1 as [|[k' v'] m Hs IH Hk']; cbn [map_erase].
  { split_and!; [constructor|by rewrite delete_id|done]. }
  destruct IH as (Hs' & Hf & Hx). rewrite same_key_spec, fields_cons. case_bool_decide as E.
  - split_and!; [done| |by intros x [? ?]%Forall_cons].
    rewrite <- E, delete_insert_eq. symmetry. apply delete_id. by apply fields_above.
  - split_and!; [by constructor; [|apply Hx]| |].
    + by rewrite fields_cons, Hf, delete_insert_ne.
    + intros x [? ?]%Forall_cons. constructor; [done|]. by apply Hx.
Qed.

(** ** Parameters *)

(** One parameter as it is written: the name, and the encoded value. *)
Definition segment (p : text * text) : text := p.1 ++ equals :: StringUtil.UrlEncode p.2 true.

Fixpoint join (flag : ascii) (ps : list (text * text)) : text :=
  match ps with
  | [] => []
  | [p] => segment p
  | p :: ps' => segment p ++ flag :: join flag ps'
  end.

(** What parsing does to a map, name by name: the first value stays. *)
Definition add_params (trim : text → text) (m : MapType) (ps : list (text * text)) : MapType :=
  foldl (λ m p, map_put false (trim p.1) p.2 m) m ps.

Lemma url_safe_char flag s : StringUtil.url_safe flag = false → flag ∉ StringUtil.UrlEncode s true.
Proof.
  intros Hf Hin. pose proof (StringUtil.UrlEncode_safe s true) as H. rewrite forallb_forall in H.
  rewrite (H flag) in Hf; [done|]. by apply list_elem_of_In.
Qed.

Lemma find_char_segment flag v rest : flag ≠ equals → flag ∉ StringUtil.UrlEncode v true →
  find_char flag (equals :: StringUtil.UrlEncode v true ++ flag :: rest)
    = Some (S (length (StringUtil.UrlEncode v true))).
Proof. intros Hf Hv. cbn [find_char]. rewrite decide_False by done. by rewrite find_char_app. Qed.

(** The first segment of a text. *)
Lemma parse_segment fuel flag trim p rest m : flag ≠ equals → StringUtil.url_safe flag = false → equals ∉ p.1 →
  PARSE_PARAM (S fuel) flag trim (segment p ++ flag :: rest) m =
    PARSE_PARAM fuel flag trim rest (map_put false (trim p.1) p.2 m) ∧
  PARSE_PARAM (S fuel) flag trim (segment p) m = Ok (map_put false (trim p.1) p.2 m).
Proof.
  intros Hf Hsafe Hk. destruct p as [k v]. unfold segment. cbn [fst snd] in *.
  pose proof (url_safe_char flag v Hsafe) as Hv. pose proof (find_char_segment flag v rest Hf Hv) as Hfind.
  set (e := StringUtil.UrlEncode v true) in *. assert (Hdec : StringUtil.UrlDecode e true = v) by by apply StringUtil.UrlDecode_UrlEncode.
  rewrite <- app_assoc. cbn [app PARSE_PARAM]. rewrite !find_char_app by done. rewrite !drop_app_length.
  rewrite Hfind, find_char_none by (intros [?|?]%elem_of_cons; congruence). rewrite !take_app_length. split.
  - assert (Erest : drop (length k + S (length e) + 1) (k ++ equals :: e ++ flag :: rest) = rest).
    { replace (k ++ equals :: e ++ flag :: rest) with ((k ++ equals :: e ++ [flag]) ++ rest)
        by (rewrite <- !app_assoc; cbn [app]; by rewrite <- app_assoc).
      apply drop_app_length'. rewrite length_app. cbn [length]. rewrite length_app. simpl. lia. }
    assert (Eval : drop (length k + 1) (k ++ equals :: e ++ flag :: rest) = e ++ flag :: rest)
      by by rewrite drop_app_add.
    rewrite Erest, Eval. replace (S (length e) - 1)%nat with (length e) by lia. by rewrite take_app_length, Hdec.
  - assert (Eval : drop (length k + 1) (k ++ equals :: e) = e) by by rewrite drop_app_add.
    by rewrite Eval, Hdec.
Qed.

Lemma parse_join flag trim ps : ∀ fuel m, flag ≠ equals → StringUtil.url_safe flag = false →
  Forall (λ p, equals ∉ p.1) ps → (length (join flag ps) < fuel)%nat →
  PARSE_PARAM fuel flag trim (join flag ps) m = Ok (add_params trim m ps).
Proof.
  induction ps as [|p ps IH]; intros [|fuel] m Hf Hsafe Hps Hfuel; try lia; [done|].
  apply Forall_cons in Hps as [Hp Hps]. destruct ps as [|q ps].
  - exact (proj2 (parse_segment fuel flag trim p [] m Hf Hsafe Hp)).
  - change (join flag (p :: q :: ps)) with (segment p ++ flag :: join flag (q :: ps)) in *.
    rewrite (proj1 (parse_segment fuel flag trim p (join flag (q :: ps)) m Hf Hsafe Hp)).
    apply IH; try done. rewrite length_app in Hfuel. cbn [length] in Hfuel. lia.
Qed.

(** The finite map of named values, the first of equal names winning. *)
Definition named (trim : text → text) (ps : list (text * text)) : gmap text text :=
  list_to_map (map (λ p, (fold_key (trim p.1), p.2)) ps).

Lemma add_params_spec trim ps m : sorted_map m →
  sorted_map (add_params trim m ps) ∧ fields (add_params trim m ps) = fields m ∪ named trim ps.
Proof.
  revert m. induction ps as [|p ps IH]; intros m Hm; [split; [done|symmetry; apply map_union_empty]|].
  destruct (map_put_spec false (trim p.1) p.2 m Hm) as (Hs & Hf & _).
  destruct (IH _ Hs) as [Hs' Hf']. split; [exact Hs'|]. cbn [add_params foldl]. fold (add_params trim).
  unfold add_params in Hf'. cbn [foldl]. rewrite Hf', Hf. unfold named. cbn [map list_to_map foldr].
  apply map_eq. intros x. rewrite !lookup_union. cbn [fst snd].
  destruct (decide (x = fold_key (trim p.1))) as [->|Hne].
  - rewrite lookup_insert_eq. cbn [list_to_map foldr]. rewrite lookup_insert_eq.
    destruct (fields m !! _), (list_to_map _ !! _); done.
  - rewrite lookup_insert_ne by done. cbn [list_to_map foldr]. by rewrite lookup_insert_ne.
Qed.

(** ** The claims *)

(** Header, parameter and cookie maps.  A map ordered without regard to
    case is a finite map from folded keys: a search finds the value of the
    folded key, assignment and [insert] change that key only (an insertion
    keeps a value that is there), erasing removes it, and the order, on which
    the text that is sent depends, is kept.  Two keys are the same exactly
    when they fold to the same text. *)
Theorem header_map_refines (m : MapType) (k v : text) (Hm : sorted_map m) :
  map_find k m = fields m !! fold_key k ∧
  (sorted_map (map_put true k v m) ∧ fields (map_put true k v m) = <[fold_key k := v]> (fields m)) ∧
  (sorted_map (map_put false k v m) ∧
    fields (map_put false k v m) = <[fold_key k := default v (fields m !! fold_key k)]> (fields m)) ∧
  (sorted_map (map_erase k m) ∧ fields (map_erase k m) = delete (fold_key k) (fields m)) ∧
  ∀ k', same_key k k' = true ↔ fold_key k = fold_key k'.
Proof.
  split_and!; [apply map_find_spec|apply (map_put_spec true k v m Hm)..|apply (map_put_spec false k v m Hm)|
    apply (map_put_spec false k v m Hm)|apply (map_erase_spec k m Hm)|apply (map_erase_spec k m Hm)|].
  intros k'. rewrite same_key_spec. apply bool_decide_eq_true.
Qed.

Definition trim_blanks (k : text) : text := StringUtil.Trim k StringUtil.blanks.

Definition is_form r : bool :=
  strcasestr (c_str (getHeader (str "content-type") [] r)) (str "application/x-www-form-urlencoded").

(** What the parameters become, in one step each. *)
Lemma query_run r ps : Z.land (m_parserParamFlag r) 1 = 0 → m_query r = join ampersand ps →
  Forall (λ p, equals ∉ p.1) ps →
  initQueryParam r = Ok (tt, set_flag 1 (setParams (add_params id (m_params r) ps) r)).
Proof.
  intros Hf Hq Hps. unfold initQueryParam. run gets_run. unfold id at 1 2. rewrite Hf. cbn [negb Z.eqb].
  assert (E : lift (PARSE_PARAM (S (length (m_query r))) ampersand id (m_query r) (m_params r)) r
    = Ok (add_params id (m_params r) ps, r)).
  { unfold lift. rewrite Hq, (parse_join ampersand id ps); [done|done|done|done|lia]. }
  by run E.
Qed.

Lemma form_run r ps : Z.land (m_parserParamFlag r) 2 = 0 → is_form r = true → m_body r = join ampersand ps →
  Forall (λ p, equals ∉ p.1) ps →
  initBodyParam r = Ok (tt, set_flag 2 (setParams (add_params id (m_params r) ps) r)).
Proof.
  intros Hf Hform Hq Hps. unfold initBodyParam. run gets_run. unfold id at 1 2. rewrite Hf. cbn [negb Z.eqb].
  unfold is_form in Hform. unfold id at 1. rewrite Hform. cbn [negb].
  assert (E : lift (PARSE_PARAM (S (length (m_body r))) ampersand id (m_body r) (m_params r)) r
    = Ok (add_params id (m_params r) ps, r)).
  { unfold lift. rewrite Hq, (parse_join ampersand id ps); [done|done|done|done|lia]. }
  by run E.
Qed.

Lemma join_nil flag ps : join flag ps = [] → ps = [].
Proof. destruct ps as [|p [|q ps]]; [done|..]; simpl; unfold segment; intros E; by destruct p.1. Qed.

Lemma cookies_run r ps : Z.land (m_parserParamFlag r) 4 = 0 →
  getHeader (str "cookie") [] r = join semicolon ps → Forall (λ p, equals ∉ p.1) ps →
  initCookies r = Ok (tt, set_flag 4 (setCookies (add_params trim_blanks (m_cookies r) ps) r)).
Proof.
  intros Hf Hq Hps. unfold initCookies. run gets_run. unfold id at 1. rewrite Hf. cbn [negb Z.eqb]. unfold id.
  rewrite Hq. case_decide as E; [apply join_nil in E as ->; by destruct r|].
  assert (El : lift (PARSE_PARAM (S (length (join semicolon ps))) semicolon
    (λ k, StringUtil.Trim k StringUtil.blanks) (join semicolon ps) (m_cookies r)) r
    = Ok (add_params trim_blanks (m_cookies r) ps, r)).
  { unfold lift. rewrite (parse_join semicolon trim_blanks ps); [done|done|done|done|lia]. }
  by run El.
Qed.

(** (C39) Parameters round trip.  A client that writes named values, encoded
    and separated by ampersands, into the query and into the body of a form,
    and cookies separated by semicolons, is read back: [initParam] terminates,
    the parameters are those of the query, then those of the body for other
    names, the cookies those of the header with the blanks around their names
    trimmed, the first of equal names winning and names compared without
    regard to case; asking again parses nothing twice.  Names are not decoded,
    and only need to be free of equals signs: a parameter written without one
    becomes part of the next name. *)
Theorem request_parameters r (qs bs cs : list (text * text))
  (Hflag : m_parserParamFlag r = 0) (Hp : sorted_map (m_params r)) (Hc : sorted_map (m_cookies r))
  (Hq : m_query r = join ampersand qs) (Hb : m_body r = join ampersand bs) (Hform : is_form r = true)
  (Hck : getHeader (str "cookie") [] r = join semicolon cs)
  (Hn : Forall (λ p, equals ∉ p.1) (qs ++ bs ++ cs)) :
  ∃ r', initParam r = Ok (tt, r') ∧ initParam r' = Ok (tt, r') ∧
    fields (m_params r') = (fields (m_params r) ∪ named id qs) ∪ named id bs ∧
    fields (m_cookies r') = fields (m_cookies r) ∪ named trim_blanks cs ∧
    (∀ key def, getParam key def r' = Ok (default def (fields (m_params r') !! fold_key key), r')) ∧
    (∀ key def, getCookie key def r' = Ok (default def (fields (m_cookies r') !! fold_key key), r')) ∧
    ∀ key def, ∃ r1, getParam key def r = Ok (default def (fields (m_params r') !! fold_key key), r1).
Proof.
  rewrite !Forall_app in Hn. destruct Hn as (Hnq & Hnb & Hnc).
  pose proof (query_run r qs ltac:(by rewrite Hflag) Hq Hnq) as E1. set (r1 := set_flag 1 _) in E1.
  pose proof (form_run r1 bs ltac:(simpl; by rewrite Hflag) Hform Hb Hnb) as E2. set (r2 := set_flag 2 _) in E2.
  pose proof (cookies_run r2 cs ltac:(simpl; by rewrite Hflag) Hck Hnc) as E3. set (r3 := set_flag 4 _) in E3.
  assert (Hfl : m_parserParamFlag r3 = 7) by (simpl; by rewrite Hflag).
  assert (Eq : initQueryParam r3 = Ok (tt, r3)) by (unfold initQueryParam; run gets_run; unfold id at 1; by rewrite Hfl).
  assert (Eb : initBodyParam r3 = Ok (tt, r3)) by (unfold initBodyParam; run gets_run; unfold id at 1; by rewrite Hfl).
  assert (Ec : initCookies r3 = Ok (tt, r3)) by (unfold initCookies; run gets_run; unfold id at 1; by rewrite Hfl).
  destruct (add_params_spec id qs _ Hp) as [Hs1 F1]. destruct (add_params_spec id bs _ Hs1) as [_ F2].
  destruct (add_params_spec trim_blanks cs _ Hc) as [_ F3]. exists r3. split_and!.
  - unfold initParam. run E1. run E2. exact E3.
  - unfold initParam. run Eq. run Eb. exact Ec.
  - rewrite <- F1. exact F2.
  - exact F3.
  - intros key def. unfold getParam. run Eq. run Eb. unfold gets. by rewrite map_find_spec.
  - intros key def. unfold getCookie. run Ec. unfold gets. by rewrite map_find_spec.
  - intros key def. eexists. unfold getParam. run E1. run E2. unfold gets. by rewrite map_find_spec.
Qed.

(** ** Witnesses *)

Lemma header_map_refines_witness :
  map_find (str "CONTENT-type") (map_put true (str "content-Type") (str "x") [(str "Content-Type", str "y")])
    = Some (str "x").
Proof.
  destruct (header_map_refines [(str "Content-Type", str "y")] (str "content-Type") (str "x"))
    as (_ & (Hs & Hf) & _); [by repeat constructor|].
  destruct (header_map_refines _ (str "CONTENT-type") [] Hs) as (-> & _). by rewrite Hf.
Defined.

Definition sample_request : HttpRequest :=
  setHeader (str "Cookie") (str "id=7; Lang=en+us")
    (setHeader (str "Content-Type") (str "Application/X-WWW-form-urlencoded; charset=utf-8")
      (setBody (str "a=1&b=x+y") (setQuery (str "A=2&q==") (new_HttpRequest 17 true)))).

Lemma request_parameters_witness :
  ∃ r', initParam sample_request = Ok (tt, r') ∧ getParam (str "B") [] r' = Ok (str "x y", r') ∧
    getParam (str "a") [] r' = Ok (str "2", r') ∧ getCookie (str "lang") [] r' = Ok (str "en us", r').
Proof.
  destruct (request_parameters sample_request
    [(str "A", str "2"); (str "q", str "=")]
    [(str "a", str "1"); (str "b", str "x y")] [(str "id", str "7"); (str " Lang", str "en us")])
    as (r' & E & _ & Hp & Hc & Hg & Hk & _); [done|constructor|constructor|by vm_compute..| |].
  { repeat constructor; apply (bool_decide_unpack _); vm_compute; exact I. }
  exists r'. rewrite !Hg, Hk, Hp, Hc. split_and!; [exact E|by vm_compute..].
Defined.
