(* ===== verification/Ragel.v ===== *)
(** * Ragel: the automata that ragel generates

    The parsers of HTTP are compiled by ragel to a [switch] on the state whose
    cases test the current byte and jump to a transition: some actions, then
    the next state.  A state is here a list of edges, an automaton a function
    from states to their edges, and [run_machine] is the generated loop. *)

From S2P Require Import Prelude Text.

(** A transition: the bytes it is taken on (as [char], which is signed), the
    actions, and the next state. [relaxed_only]: under [when { uri_relaxed }]. *)
Record edge (A : Type) := mkEdge {
  edge_lo : Z;
  edge_hi : Z;
  relaxed_only : bool;
  edge_actions : list A;
  edge_target : Z
}.
Arguments mkEdge {A}.
Arguments edge_lo {A}.
Arguments edge_hi {A}.
Arguments relaxed_only {A}.
Arguments edge_actions {A}.
Arguments edge_target {A}.

(** The edges as the tables write them. *)
Definition E {A} (lo hi : Z) (actions : list A) (target : Z) : edge A := mkEdge lo hi false actions target.
Definition R {A} (c : Z) (actions : list A) (target : Z) : edge A := mkEdge c c true actions target.

(** [*p] as a [char]. *)
Definition signed_char (c : ascii) : Z :=
  let n := Z.of_nat (nat_of_ascii c) in if n <? 128 then n else n - 256.

Definition edge_on {A} (relaxed : bool) (c : ascii) (e : edge A) : bool :=
  (edge_lo e <=? signed_char c) && (signed_char c <=? edge_hi e) && (negb (relaxed_only e) || relaxed).

Definition find_edge {A} (relaxed : bool) (es : list (edge A)) (c : ascii) : option (edge A) :=
  List.find (edge_on relaxed c) es.

(** A table in blocks of states. *)
Fixpoint first_row {A} (blocks : list (Z → option (list (edge A)))) (cs : Z) : list (edge A) :=
  match blocks with
  | [] => []
  | block :: blocks' => match block cs with Some es => es | None => first_row blocks' cs end
  end.

Section machine.
Context {A S : Type} (row : Z → list (edge A)) (relaxed : bool).
(** [act p a]: the action at position [p]; [stops]: it ends in [fbreak]. *)
Context (act : nat → A → M S unit) (stops : A → bool).

(** From position [p] on, [rest] being what is left before [pe]: the state and
    the position at the end.  State 0 is the error state. *)
Fixpoint run_machine (rest : text) (p : nat) (cs : Z) : M S (Z * nat) :=
  match rest with
  | [] => mret (cs, p)
  | c :: rest' =>
      match find_edge relaxed (row cs) c with
      | None => mret (0, p)
      | Some e =>
          for_each (edge_actions e) (act p) ;;
          if existsb stops (edge_actions e) then mret (edge_target e, (p + 1)%nat)
          else run_machine rest' (p + 1) (edge_target e)
      end
  end.
End machine.

(** ** Facts

    [scan] is the automaton on a part of the input in which it neither stops
    nor fails; [moves] checks a table: from the states of a list, the bytes of
    a class lead to the states of another, with actions of a given form. *)

Definition all_bytes : list ascii := ascii_of_nat <$> seq 0 256.

Lemma elem_of_all_bytes c : c ∈ all_bytes.
Proof.
  apply list_elem_of_fmap. exists (nat_of_ascii c). rewrite ascii_nat_embedding. split; [done|].
  apply elem_of_seq. pose proof (nat_ascii_bounded c). lia.
Qed.

Section scan.
Context {A S : Type} (row : Z → list (edge A)) (relaxed : bool) (act : nat → A → M S unit) (stops : A → bool).
Implicit Types (s t : Z) (w : text) (p : nat).

Fixpoint scan w p s : M S Z :=
  match w with
  | [] => mret s
  | c :: w' =>
      match find_edge relaxed (row s) c with
      | None => fail BadIndex
      | Some e =>
          for_each (edge_actions e) (act p) ;;
          if existsb stops (edge_actions e) then fail BadIndex else scan w' (p + 1) (edge_target e)
      end
  end.

Lemma scan_run w rest p s o t o' : scan w p s o = Ok (t, o') →
  run_machine row relaxed act stops (w ++ rest) p s o = run_machine row relaxed act stops rest (p + length w) t o'.
Proof.
  revert p s o. induction w as [|c w IH]; intros p s o; cbn [scan run_machine app length].
  - intros [= -> ->]. by rewrite Nat.add_0_r.
  - destruct (find_edge _ _ _) as [e|]; [|done]. intros ([] & o1 & E1 & E2)%bind_Ok.
    rewrite (bind_run _ _ _ _ _ E1). destruct (existsb _ _); [done|]. rewrite (IH _ _ _ E2).
    f_equal. lia.
Qed.

(** An invariant of the actions that do not stop. *)
Lemma scan_inv (I : S → Prop) w p s o t o' :
  (∀ q a o1 o2, stops a = false → I o1 → act q a o1 = Ok (tt, o2) → I o2) → I o → scan w p s o = Ok (t, o') → I o'.
Proof.
  intros Hact. revert p s o. induction w as [|c w IH]; intros p s o HI; cbn [scan].
  - by intros [= _ <-].
  - destruct (find_edge _ _ _) as [e|]; [|done]. intros ([] & o1 & E1 & E2)%bind_Ok.
    destruct (existsb stops (edge_actions e)) eqn:Hst; [done|]. eapply IH; [|exact E2].
    eapply (for_each_inv I); [|exact HI|exact E1]. intros a s1 s2 Ha H1 H2. eapply Hact; [|exact H1|exact H2].
    apply not_true_is_false. intros Hs. apply not_true_iff_false in Hst. apply Hst, existsb_exists.
    exists a. split; [|exact Hs]. by apply list_elem_of_In.
Qed.

Lemma scan_app w1 w2 p s o t o1 r : scan w1 p s o = Ok (t, o1) → scan w2 (p + length w1) t o1 = Ok r →
  scan (w1 ++ w2) p s o = Ok r.
Proof.
  revert p s o. induction w1 as [|c w IH]; intros p s o; cbn [scan app length].
  - intros [= -> ->]. by rewrite Nat.add_0_r.
  - destruct (find_edge _ _ _) as [e|]; [|done]. intros ([] & o2 & E1 & E2)%bind_Ok H2.
    rewrite (bind_run _ _ _ _ _ E1). destruct (existsb _ _); [done|]. eapply IH; [exact E2|].
    by replace (p + 1 + length w)%nat with (p + Datatypes.S (length w))%nat by lia.
Qed.

Definition moves_check (from : list Z) (ok : ascii → bool) (acts : list A → bool) (to_ : list Z) : bool :=
  forallb (λ s, forallb (λ c,
    if ok c then
      match find_edge relaxed (row s) c with
      | Some e => acts (edge_actions e) && negb (existsb stops (edge_actions e)) && existsb (Z.eqb (edge_target e)) to_
      | None => false
      end
    else true) all_bytes) from.

Variant moves (from : list Z) (ok : ascii → bool) (acts : list A → bool) (to_ : list Z) : Prop :=
  moves_intro (_ : moves_check from ok acts to_ = true).

Lemma moves_edge from ok acts to_ s c : moves from ok acts to_ → s ∈ from → ok c = true →
  ∃ e, find_edge relaxed (row s) c = Some e ∧ acts (edge_actions e) = true ∧
    existsb stops (edge_actions e) = false ∧ edge_target e ∈ to_.
Proof.
  intros [Hm] Hs Hc. unfold moves_check in Hm. rewrite forallb_forall in Hm. apply list_elem_of_In in Hs. specialize (Hm _ Hs).
  rewrite forallb_forall in Hm. specialize (Hm c). rewrite Hc in Hm.
  destruct (find_edge _ _ _) as [e|]; [|discriminate Hm; apply list_elem_of_In, elem_of_all_bytes].
  specialize (Hm ltac:(apply list_elem_of_In, elem_of_all_bytes)).
  apply andb_true_iff in Hm as [[Ha Hs']%andb_true_iff Ht]. apply negb_true_iff in Hs'.
  apply existsb_exists in Ht as (t & Ht & Heq%Z.eqb_eq). exists e. split_and!; [done..|].
  rewrite Heq. by apply list_elem_of_In.
Qed.

(** The actions are these. *)
Definition exactly `{EqDecision A} (l a : list A) : bool := bool_decide (a = l).

Definition silent (l : list A) : bool := match l with [] => true | _ => false end.

(** Characters that keep a set of states and do nothing. *)
Lemma scan_loop from ok w p s o : moves from ok silent from → s ∈ from →
  Forall (λ c, ok c = true) w → ∃ t, scan w p s o = Ok (t, o) ∧ t ∈ from.
Proof.
  intros Hm Hs Hw. revert p s Hs. induction Hw as [|c w Hc Hw IH]; intros p s Hs; [by exists s|].
  destruct (moves_edge _ _ _ _ _ _ Hm Hs Hc) as (e & He & Ha & Hst & Ht). cbn [scan]. rewrite He.
  destruct (edge_actions e); [|done]. cbn [for_each existsb]. run ret_run. by apply IH.
Qed.

(** One character with its actions. *)
Lemma scan_step from ok acts to_ c p s o : moves from ok acts to_ → s ∈ from → ok c = true →
  ∃ l t, acts l = true ∧ t ∈ to_ ∧ ∀ o', for_each l (act p) o = Ok (tt, o') → scan [c] p s o = Ok (t, o').
Proof.
  intros Hm Hs Hc. destruct (moves_edge _ _ _ _ _ _ Hm Hs Hc) as (e & He & Ha & Hst & Ht).
  exists (edge_actions e), (edge_target e). split_and!; [done|done|]. intros o' E. cbn [scan]. rewrite He.
  rewrite (bind_run _ _ _ _ _ E), Hst. done.
Qed.
End scan.
