(* ===== verification/Http11Machine.v ===== *)
(** * Http11Machine: the automaton of requests ([http/parser11/http11_parser.rl.cc])

    One entry per [case] of the generated [switch], in the order of the source;
    an edge [E lo hi actions target] stands for the tests on [*p] and the
    transition ([tr...] or [st...]) they jump to, an edge [R c actions target]
    for the characters that only a relaxed parser takes.  Bytes without an edge
    go to the error state [st0].  The first final state is 348. *)

From S2P Require Import Prelude Text.
From S2P Require Export Ragel.

(** The actions of [http11_parser.rl]. *)
Inductive http_action :=
  | act_mark | act_start_field | act_write_field | act_start_value | act_write_value
  | act_request_method | act_request_uri | act_fragment | act_start_query | act_query_string
  | act_http_version | act_request_path | act_done | act_xml | act_json.

#[export] Instance http_action_eq_dec : EqDecision http_action.
Proof. solve_decision. Defined.

(** ** The states, in the order of the source *)

Definition http_states_1 (cs : Z) : option (list (edge http_action)) :=
  match cs with
  | 1 => Some [E 48 57 [act_mark] 2; E 60 60 [act_mark] 194; E 64 64 [act_mark] 198; E 65 90 [act_mark] 2]
  | 2 => Some [E 32 32 [act_request_method] 3; E 48 57 [] 175; E 65 90 [] 175]
  | 3 => Some [E 32 32 [act_mark; act_request_path; act_request_uri] 4; E 33 33 [act_mark] 19;
      E 35 35 [act_mark; act_request_path; act_request_uri] 20; E 36 36 [act_mark] 19; E 37 37 [act_mark] 24;
      E 38 46 [act_mark] 19; E 47 47 [act_mark] 33; E 48 57 [act_mark] 19; E 59 59 [act_mark] 19;
      E 61 61 [act_mark] 19; E 63 63 [act_mark; act_request_path] 29; E 64 64 [act_mark] 19;
      E 65 90 [act_mark] 173; R 94 [act_mark] 19; E 95 95 [act_mark] 19; E 97 122 [act_mark] 173;
      R 123 [act_mark] 19; R 125 [act_mark] 19; E 126 126 [act_mark] 19]
  | _ => None
  end.

Definition http_states_4 (cs : Z) : option (list (edge http_action)) :=
  match cs with
  | 4 => Some [E 72 72 [act_mark] 5]
  | 5 => Some [E 84 84 [] 6]
  | 6 => Some [E 84 84 [] 7]
  | 7 => Some [E 80 80 [] 8]
  | 8 => Some [E 47 47 [] 9]
  | 9 => Some [E 49 49 [] 10]
  | 10 => Some [E 46 46 [] 11]
  | 11 => Some [E 48 49 [] 12]
  | 12 => Some [E 10 10 [act_http_version] 13; E 13 13 [act_http_version] 17]
  | _ => None
  end.

Definition http_states_13 (cs : Z) : option (list (edge http_action)) :=
  match cs with
  | 13 => Some [E 1 8 [act_start_field] 14; E 10 10 [act_start_field; act_done] 348;
      E 11 12 [act_start_field] 14; E 13 13 [act_start_field] 18; E 14 31 [act_start_field] 14;
      E 33 33 [act_start_field] 14; E 35 39 [act_start_field] 14; E 42 43 [act_start_field] 14;
      E 45 46 [act_start_field] 14; E 48 57 [act_start_field] 14; E 65 90 [act_start_field] 14;
      E 94 122 [act_start_field] 14; E 124 124 [act_start_field] 14; E 126 126 [act_start_field] 14]
  | 14 => Some [E 1 8 [] 14; E 10 31 [] 14; E 33 33 [] 14; E 35 39 [] 14; E 42 43 [] 14; E 45 46 [] 14;
      E 48 57 [] 14; E 58 58 [act_write_field] 15; E 65 90 [] 14; E 94 122 [] 14; E 124 124 [] 14;
      E 126 126 [] 14]
  | 15 => Some [E (-128) (-1) [act_start_value] 16; E 1 8 [act_start_value] 16; E 9 9 [act_start_value] 15;
      E 10 10 [act_start_value; act_write_value] 13; E 11 12 [act_start_value] 16;
      E 13 13 [act_start_value; act_write_value] 17; E 14 31 [act_start_value] 16;
      E 32 32 [act_start_value] 15; E 33 126 [act_start_value] 16]
  | 16 => Some [E (-128) (-1) [] 16; E 1 9 [] 16; E 10 10 [act_write_value] 13; E 11 12 [] 16;
      E 13 13 [act_write_value] 17; E 14 126 [] 16]
  | _ => None
  end.

Definition http_states_17 (cs : Z) : option (list (edge http_action)) :=
  match cs with
  | 17 => Some [E 10 10 [] 13]
  | 348 => Some [E 1 8 [] 14; E 10 31 [] 14; E 33 33 [] 14; E 35 39 [] 14; E 42 43 [] 14; E 45 46 [] 14;
      E 48 57 [] 14; E 58 58 [act_write_field] 15; E 65 90 [] 14; E 94 122 [] 14; E 124 124 [] 14;
      E 126 126 [] 14]
  | 18 => Some [E 1 8 [] 14; E 10 10 [act_done] 348; E 11 31 [] 14; E 33 33 [] 14; E 35 39 [] 14;
      E 42 43 [] 14; E 45 46 [] 14; E 48 57 [] 14; E 58 58 [act_write_field] 15; E 65 90 [] 14;
      E 94 122 [] 14; E 124 124 [] 14; E 126 126 [] 14]
  | _ => None
  end.

Definition http_states_19 (cs : Z) : option (list (edge http_action)) :=
  match cs with
  | 19 => Some [E 32 32 [act_request_path; act_request_uri] 4; E 33 33 [] 19;
      E 35 35 [act_request_path; act_request_uri] 20; E 36 36 [] 19; E 37 37 [] 24; E 38 46 [] 19;
      E 47 47 [] 26; E 48 57 [] 19; E 59 59 [] 19; E 61 61 [] 19; E 63 63 [act_request_path] 29;
      E 64 90 [] 19; R 94 [] 19; E 95 95 [] 19; E 97 122 [] 19; R 123 [] 19; R 125 [] 19; E 126 126 [] 19]
  | _ => None
  end.

Definition http_states_20 (cs : Z) : option (list (edge http_action)) :=
  match cs with
  | 20 => Some [E 32 32 [act_mark; act_fragment] 4; E 33 33 [act_mark] 21; E 36 36 [act_mark] 21;
      E 37 37 [act_mark] 22; E 38 59 [act_mark] 21; E 61 61 [act_mark] 21; E 63 90 [act_mark] 21;
      E 94 95 [act_mark] 21; E 97 123 [act_mark] 21; E 125 126 [act_mark] 21]
  | _ => None
  end.

Definition http_states_21 (cs : Z) : option (list (edge http_action)) :=
  match cs with
  | 21 => Some [E 32 32 [act_fragment] 4; E 33 33 [] 21; E 36 36 [] 21; E 37 37 [] 22; E 38 59 [] 21;
      E 61 61 [] 21; E 63 90 [] 21; E 94 95 [] 21; E 97 123 [] 21; E 125 126 [] 21]
  | 22 => Some [E 48 57 [] 23; E 65 70 [] 23; E 97 102 [] 23]
  | 23 => Some [E 48 57 [] 21; E 65 70 [] 21; E 97 102 [] 21]
  | 24 => Some [E 48 57 [] 25; E 65 70 [] 25; E 97 102 [] 25]
  | 25 => Some [E 48 57 [] 19; E 65 70 [] 19; E 97 102 [] 19]
  | _ => None
  end.

Definition http_states_26 (cs : Z) : option (list (edge http_action)) :=
  match cs with
  | 26 => Some [E 32 32 [act_request_path; act_request_uri] 4; E 33 33 [] 26;
      E 35 35 [act_request_path; act_request_uri] 20; E 36 36 [] 26; E 37 37 [] 27; E 38 59 [] 26;
      E 61 61 [] 26; E 63 63 [act_request_path] 29; E 64 90 [] 26; E 94 95 [] 26; E 97 123 [] 26;
      E 125 126 [] 26]
  | 27 => Some [E 48 57 [] 28; E 65 70 [] 28; E 97 102 [] 28]
  | 28 => Some [E 48 57 [] 26; E 65 70 [] 26; E 97 102 [] 26]
  | _ => None
  end.

Definition http_states_29 (cs : Z) : option (list (edge http_action)) :=
  match cs with
  | 29 => Some [E 32 32 [act_start_query; act_query_string; act_request_uri] 4; E 33 33 [act_start_query] 30;
      E 35 35 [act_start_query; act_query_string; act_request_uri] 20; E 36 36 [act_start_query] 30;
      E 37 37 [act_start_query] 31; E 38 59 [act_start_query] 30; E 61 61 [act_start_query] 30;
      E 63 90 [act_start_query] 30; E 94 95 [act_start_query] 30; E 97 123 [act_start_query] 30;
      E 125 126 [act_start_query] 30]
  | 30 => Some [E 32 32 [act_query_string; act_request_uri] 4; E 33 33 [] 30;
      E 35 35 [act_query_string; act_request_uri] 20; E 36 36 [] 30; E 37 37 [] 31; E 38 59 [] 30;
      E 61 61 [] 30; E 63 90 [] 30; E 94 95 [] 30; E 97 123 [] 30; E 125 126 [] 30]
  | 31 => Some [E 48 57 [] 32; E 65 70 [] 32; E 97 102 [] 32]
  | _ => None
  end.

Definition http_states_32 (cs : Z) : option (list (edge http_action)) :=
  match cs with
  | 32 => Some [E 48 57 [] 30; E 65 70 [] 30; E 97 102 [] 30]
  | 33 => Some [E 32 32 [act_request_path; act_request_uri] 4; E 33 33 [] 26;
      E 35 35 [act_request_path; act_request_uri] 20; E 36 36 [] 26; E 37 37 [] 27; E 38 46 [] 26;
      E 47 47 [] 34; E 48 59 [] 26; E 61 61 [] 26; E 63 63 [act_request_path] 29; E 64 90 [] 26;
      E 94 95 [] 26; E 97 123 [] 26; E 125 126 [] 26]
  | 34 => Some [E 32 32 [act_request_path; act_request_uri] 4; E 33 33 [] 35;
      E 35 35 [act_request_path; act_request_uri] 20; E 36 36 [] 35; E 37 37 [] 36; E 38 46 [] 35;
      E 47 47 [] 26; E 48 57 [] 35; E 58 58 [] 38; E 59 59 [] 35; E 61 61 [] 35;
      E 63 63 [act_request_path] 29; E 64 64 [] 42; E 65 90 [] 35; E 91 91 [] 47; R 94 [] 35; E 95 95 [] 35;
      E 97 122 [] 35; R 123 [] 35; R 125 [] 35; E 126 126 [] 35]
  | _ => None
  end.

Definition http_states_35 (cs : Z) : option (list (edge http_action)) :=
  match cs with
  | 35 => Some [E 32 32 [act_request_path; act_request_uri] 4; E 33 33 [] 35;
      E 35 35 [act_request_path; act_request_uri] 20; E 36 36 [] 35; E 37 37 [] 36; E 38 46 [] 35;
      E 47 47 [] 26; E 48 57 [] 35; E 58 58 [] 38; E 59 59 [] 35; E 61 61 [] 35;
      E 63 63 [act_request_path] 29; E 64 64 [] 42; E 65 90 [] 35; R 94 [] 35; E 95 95 [] 35; E 97 122 [] 35;
      R 123 [] 35; R 125 [] 35; E 126 126 [] 35]
  | 36 => Some [E 48 57 [] 37; E 65 70 [] 37; E 97 102 [] 37]
  | 37 => Some [E 48 57 [] 35; E 65 70 [] 35; E 97 102 [] 35]
  | 38 => Some [E 32 32 [act_request_path; act_request_uri] 4; E 33 33 [] 39;
      E 35 35 [act_request_path; act_request_uri] 20; E 36 36 [] 39; E 37 37 [] 40; E 38 46 [] 39;
      E 47 47 [] 26; E 48 57 [] 38; E 58 59 [] 39; E 61 61 [] 39; E 63 63 [act_request_path] 29;
      E 64 64 [] 42; E 65 90 [] 39; R 94 [] 39; E 95 95 [] 39; E 97 122 [] 39; R 123 [] 39; R 125 [] 39;
      E 126 126 [] 39]
  | _ => None
  end.

Definition http_states_39 (cs : Z) : option (list (edge http_action)) :=
  match cs with
  | 39 => Some [E 33 33 [] 39; E 36 36 [] 39; E 37 37 [] 40; E 38 46 [] 39; E 48 59 [] 39; E 61 61 [] 39;
      E 64 64 [] 42; E 65 90 [] 39; R 94 [] 39; E 95 95 [] 39; E 97 122 [] 39; R 123 [] 39; R 125 [] 39;
      E 126 126 [] 39]
  | 40 => Some [E 48 57 [] 41; E 65 70 [] 41; E 97 102 [] 41]
  | 41 => Some [E 48 57 [] 39; E 65 70 [] 39; E 97 102 [] 39]
  | 42 => Some [E 32 32 [act_request_path; act_request_uri] 4; E 33 33 [] 43;
      E 35 35 [act_request_path; act_request_uri] 20; E 36 36 [] 43; E 37 37 [] 44; E 38 46 [] 43;
      E 47 47 [] 26; E 48 57 [] 43; E 58 58 [] 46; E 59 59 [] 43; E 61 61 [] 43;
      E 63 63 [act_request_path] 29; E 65 90 [] 43; E 91 91 [] 47; R 94 [] 43; E 95 95 [] 43; E 97 122 [] 43;
      R 123 [] 43; R 125 [] 43; E 126 126 [] 43]
  | _ => None
  end.

Definition http_states_43 (cs : Z) : option (list (edge http_action)) :=
  match cs with
  | 43 => Some [E 32 32 [act_request_path; act_request_uri] 4; E 33 33 [] 43;
      E 35 35 [act_request_path; act_request_uri] 20; E 36 36 [] 43; E 37 37 [] 44; E 38 46 [] 43;
      E 47 47 [] 26; E 48 57 [] 43; E 58 58 [] 46; E 59 59 [] 43; E 61 61 [] 43;
      E 63 63 [act_request_path] 29; E 65 90 [] 43; R 94 [] 43; E 95 95 [] 43; E 97 122 [] 43; R 123 [] 43;
      R 125 [] 43; E 126 126 [] 43]
  | 44 => Some [E 48 57 [] 45; E 65 70 [] 45; E 97 102 [] 45]
  | 45 => Some [E 48 57 [] 43; E 65 70 [] 43; E 97 102 [] 43]
  | 46 => Some [E 32 32 [act_request_path; act_request_uri] 4;
      E 35 35 [act_request_path; act_request_uri] 20; E 47 47 [] 26; E 48 57 [] 46;
      E 63 63 [act_request_path] 29]
  | 47 => Some [E 6 6 [] 48; E 48 57 [] 91; E 58 58 [] 167; E 65 70 [] 91; E 97 102 [] 91; E 118 118 [] 169]
  | 48 => Some [E 48 57 [] 49; E 65 70 [] 49; E 97 102 [] 49]
  | 49 => Some [E 48 57 [] 50; E 58 58 [] 53; E 65 70 [] 50; E 97 102 [] 50]
  | 50 => Some [E 48 57 [] 51; E 58 58 [] 53; E 65 70 [] 51; E 97 102 [] 51]
  | _ => None
  end.

Definition http_states_51 (cs : Z) : option (list (edge http_action)) :=
  match cs with
  | 51 => Some [E 48 57 [] 52; E 58 58 [] 53; E 65 70 [] 52; E 97 102 [] 52]
  | 52 => Some [E 58 58 [] 53]
  | 53 => Some [E 48 48 [] 54; E 49 49 [] 84; E 50 50 [] 87; E 51 57 [] 54; E 65 70 [] 90; E 97 102 [] 90]
  | 54 => Some [E 46 46 [] 55; E 48 57 [] 77; E 58 58 [] 80; E 65 70 [] 77; E 97 102 [] 77]
  | 55 => Some [E 48 48 [] 56; E 49 49 [] 72; E 50 50 [] 74; E 51 57 [] 56]
  | 56 => Some [E 46 46 [] 57]
  | 57 => Some [E 48 48 [] 58; E 49 49 [] 67; E 50 50 [] 69; E 51 57 [] 58]
  | 58 => Some [E 46 46 [] 59]
  | 59 => Some [E 48 48 [] 60; E 49 49 [] 62; E 50 50 [] 64; E 51 57 [] 60]
  | 60 => Some [E 93 93 [] 61]
  | 61 => Some [E 32 32 [act_request_path; act_request_uri] 4;
      E 35 35 [act_request_path; act_request_uri] 20; E 47 47 [] 26; E 58 58 [] 46;
      E 63 63 [act_request_path] 29]
  | 62 => Some [E 48 57 [] 63; E 93 93 [] 61]
  | 63 => Some [E 48 57 [] 60; E 93 93 [] 61]
  | 64 => Some [E 48 48 [] 65; E 53 53 [] 66; E 93 93 [] 61]
  | _ => None
  end.

Definition http_states_65 (cs : Z) : option (list (edge http_action)) :=
  match cs with
  | 65 => Some [E 48 57 [] 60]
  | 66 => Some [E 48 48 [] 60]
  | 67 => Some [E 46 46 [] 59; E 48 57 [] 68]
  | 68 => Some [E 46 46 [] 59; E 48 57 [] 58]
  | 69 => Some [E 46 46 [] 59; E 48 48 [] 70; E 53 53 [] 71]
  | 70 => Some [E 48 57 [] 58]
  | 71 => Some [E 48 48 [] 58]
  | 72 => Some [E 46 46 [] 57; E 48 57 [] 73]
  | 73 => Some [E 46 46 [] 57; E 48 57 [] 56]
  | 74 => Some [E 46 46 [] 57; E 48 48 [] 75; E 53 53 [] 76]
  | 75 => Some [E 48 57 [] 56]
  | 76 => Some [E 48 48 [] 56]
  | 77 => Some [E 48 57 [] 78; E 58 58 [] 80; E 65 70 [] 78; E 97 102 [] 78]
  | 78 => Some [E 48 57 [] 79; E 58 58 [] 80; E 65 70 [] 79; E 97 102 [] 79]
  | 79 => Some [E 58 58 [] 80]
  | 80 => Some [E 48 57 [] 81; E 65 70 [] 81; E 97 102 [] 81]
  | _ => None
  end.

Definition http_states_81 (cs : Z) : option (list (edge http_action)) :=
  match cs with
  | 81 => Some [E 48 57 [] 82; E 65 70 [] 82; E 93 93 [] 61; E 97 102 [] 82]
  | 82 => Some [E 48 57 [] 83; E 65 70 [] 83; E 93 93 [] 61; E 97 102 [] 83]
  | 83 => Some [E 48 57 [] 60; E 65 70 [] 60; E 93 93 [] 61; E 97 102 [] 60]
  | 84 => Some [E 46 46 [] 55; E 48 57 [] 85; E 58 58 [] 80; E 65 70 [] 77; E 97 102 [] 77]
  | 85 => Some [E 46 46 [] 55; E 48 57 [] 86; E 58 58 [] 80; E 65 70 [] 78; E 97 102 [] 78]
  | 86 => Some [E 46 46 [] 55; E 48 57 [] 79; E 58 58 [] 80; E 65 70 [] 79; E 97 102 [] 79]
  | 87 => Some [E 46 46 [] 55; E 48 48 [] 88; E 49 52 [] 77; E 53 53 [] 89; E 54 57 [] 77; E 58 58 [] 80;
      E 65 70 [] 77; E 97 102 [] 77]
  | 88 => Some [E 48 57 [] 86; E 58 58 [] 80; E 65 70 [] 78; E 97 102 [] 78]
  | 89 => Some [E 48 48 [] 86; E 49 57 [] 78; E 58 58 [] 80; E 65 70 [] 78; E 97 102 [] 78]
  | _ => None
  end.

Definition http_states_90 (cs : Z) : option (list (edge http_action)) :=
  match cs with
  | 90 => Some [E 48 57 [] 77; E 58 58 [] 80; E 65 70 [] 77; E 97 102 [] 77]
  | 91 => Some [E 48 57 [] 92; E 58 58 [] 95; E 65 70 [] 92; E 97 102 [] 92]
  | 92 => Some [E 48 57 [] 93; E 58 58 [] 95; E 65 70 [] 93; E 97 102 [] 93]
  | 93 => Some [E 48 57 [] 94; E 58 58 [] 95; E 65 70 [] 94; E 97 102 [] 94]
  | 94 => Some [E 58 58 [] 95]
  | 95 => Some [E 48 57 [] 96; E 58 58 [] 166; E 65 70 [] 96; E 97 102 [] 96]
  | 96 => Some [E 48 57 [] 97; E 58 58 [] 100; E 65 70 [] 97; E 97 102 [] 97]
  | 97 => Some [E 48 57 [] 98; E 58 58 [] 100; E 65 70 [] 98; E 97 102 [] 98]
  | 98 => Some [E 48 57 [] 99; E 58 58 [] 100; E 65 70 [] 99; E 97 102 [] 99]
  | 99 => Some [E 58 58 [] 100]
  | 100 => Some [E 48 57 [] 101; E 58 58 [] 165; E 65 70 [] 101; E 97 102 [] 101]
  | _ => None
  end.

Definition http_states_101 (cs : Z) : option (list (edge http_action)) :=
  match cs with
  | 101 => Some [E 48 57 [] 102; E 58 58 [] 105; E 65 70 [] 102; E 97 102 [] 102]
  | 102 => Some [E 48 57 [] 103; E 58 58 [] 105; E 65 70 [] 103; E 97 102 [] 103]
  | 103 => Some [E 48 57 [] 104; E 58 58 [] 105; E 65 70 [] 104; E 97 102 [] 104]
  | 104 => Some [E 58 58 [] 105]
  | 105 => Some [E 48 57 [] 106; E 58 58 [] 164; E 65 70 [] 106; E 97 102 [] 106]
  | 106 => Some [E 48 57 [] 107; E 58 58 [] 110; E 65 70 [] 107; E 97 102 [] 107]
  | 107 => Some [E 48 57 [] 108; E 58 58 [] 110; E 65 70 [] 108; E 97 102 [] 108]
  | 108 => Some [E 48 57 [] 109; E 58 58 [] 110; E 65 70 [] 109; E 97 102 [] 109]
  | 109 => Some [E 58 58 [] 110]
  | 110 => Some [E 48 57 [] 111; E 58 58 [] 163; E 65 70 [] 111; E 97 102 [] 111]
  | 111 => Some [E 48 57 [] 112; E 58 58 [] 115; E 65 70 [] 112; E 97 102 [] 112]
  | _ => None
  end.

Definition http_states_112 (cs : Z) : option (list (edge http_action)) :=
  match cs with
  | 112 => Some [E 48 57 [] 113; E 58 58 [] 115; E 65 70 [] 113; E 97 102 [] 113]
  | 113 => Some [E 48 57 [] 114; E 58 58 [] 115; E 65 70 [] 114; E 97 102 [] 114]
  | 114 => Some [E 58 58 [] 115]
  | 115 => Some [E 48 57 [] 116; E 58 58 [] 151; E 65 70 [] 116; E 97 102 [] 116]
  | 116 => Some [E 48 57 [] 117; E 58 58 [] 120; E 65 70 [] 117; E 97 102 [] 117]
  | 117 => Some [E 48 57 [] 118; E 58 58 [] 120; E 65 70 [] 118; E 97 102 [] 118]
  | 118 => Some [E 48 57 [] 119; E 58 58 [] 120; E 65 70 [] 119; E 97 102 [] 119]
  | 119 => Some [E 58 58 [] 120]
  | 120 => Some [E 48 57 [] 121; E 58 58 [] 150; E 65 70 [] 121; E 97 102 [] 121]
  | 121 => Some [E 48 57 [] 122; E 58 58 [] 125; E 65 70 [] 122; E 97 102 [] 122]
  | 122 => Some [E 48 57 [] 123; E 58 58 [] 125; E 65 70 [] 123; E 97 102 [] 123]
  | _ => None
  end.

Definition http_states_123 (cs : Z) : option (list (edge http_action)) :=
  match cs with
  | 123 => Some [E 48 57 [] 124; E 58 58 [] 125; E 65 70 [] 124; E 97 102 [] 124]
  | 124 => Some [E 58 58 [] 125]
  | 125 => Some [E 48 57 [] 121; E 58 58 [] 126; E 65 70 [] 121; E 97 102 [] 121]
  | 126 => Some [E 2 3 [] 48; E 48 48 [] 127; E 49 49 [] 143; E 50 50 [] 146; E 51 57 [] 127; E 65 70 [] 149;
      E 93 93 [] 61; E 97 102 [] 149]
  | 127 => Some [E 46 46 [] 55; E 48 57 [] 128; E 58 58 [] 131; E 65 70 [] 128; E 93 93 [] 61;
      E 97 102 [] 128]
  | 128 => Some [E 48 57 [] 129; E 58 58 [] 131; E 65 70 [] 129; E 93 93 [] 61; E 97 102 [] 129]
  | 129 => Some [E 48 57 [] 130; E 58 58 [] 131; E 65 70 [] 130; E 93 93 [] 61; E 97 102 [] 130]
  | 130 => Some [E 58 58 [] 131; E 93 93 [] 61]
  | 131 => Some [E 48 48 [] 132; E 49 49 [] 136; E 50 50 [] 139; E 51 57 [] 132; E 65 70 [] 142;
      E 97 102 [] 142]
  | _ => None
  end.

Definition http_states_132 (cs : Z) : option (list (edge http_action)) :=
  match cs with
  | 132 => Some [E 46 46 [] 55; E 48 57 [] 133; E 58 58 [] 80; E 65 70 [] 133; E 93 93 [] 61;
      E 97 102 [] 133]
  | 133 => Some [E 48 57 [] 134; E 58 58 [] 80; E 65 70 [] 134; E 93 93 [] 61; E 97 102 [] 134]
  | 134 => Some [E 48 57 [] 135; E 58 58 [] 80; E 65 70 [] 135; E 93 93 [] 61; E 97 102 [] 135]
  | 135 => Some [E 58 58 [] 80; E 93 93 [] 61]
  | 136 => Some [E 46 46 [] 55; E 48 57 [] 137; E 58 58 [] 80; E 65 70 [] 133; E 93 93 [] 61;
      E 97 102 [] 133]
  | 137 => Some [E 46 46 [] 55; E 48 57 [] 138; E 58 58 [] 80; E 65 70 [] 134; E 93 93 [] 61;
      E 97 102 [] 134]
  | 138 => Some [E 46 46 [] 55; E 48 57 [] 135; E 58 58 [] 80; E 65 70 [] 135; E 93 93 [] 61;
      E 97 102 [] 135]
  | 139 => Some [E 46 46 [] 55; E 48 48 [] 140; E 49 52 [] 133; E 53 53 [] 141; E 54 57 [] 133;
      E 58 58 [] 80; E 65 70 [] 133; E 93 93 [] 61; E 97 102 [] 133]
  | _ => None
  end.

Definition http_states_140 (cs : Z) : option (list (edge http_action)) :=
  match cs with
  | 140 => Some [E 48 57 [] 138; E 58 58 [] 80; E 65 70 [] 134; E 93 93 [] 61; E 97 102 [] 134]
  | 141 => Some [E 48 48 [] 138; E 49 57 [] 134; E 58 58 [] 80; E 65 70 [] 134; E 93 93 [] 61;
      E 97 102 [] 134]
  | 142 => Some [E 48 57 [] 133; E 58 58 [] 80; E 65 70 [] 133; E 93 93 [] 61; E 97 102 [] 133]
  | 143 => Some [E 46 46 [] 55; E 48 57 [] 144; E 58 58 [] 131; E 65 70 [] 128; E 93 93 [] 61;
      E 97 102 [] 128]
  | 144 => Some [E 46 46 [] 55; E 48 57 [] 145; E 58 58 [] 131; E 65 70 [] 129; E 93 93 [] 61;
      E 97 102 [] 129]
  | 145 => Some [E 46 46 [] 55; E 48 57 [] 130; E 58 58 [] 131; E 65 70 [] 130; E 93 93 [] 61;
      E 97 102 [] 130]
  | 146 => Some [E 46 46 [] 55; E 48 48 [] 147; E 49 52 [] 128; E 53 53 [] 148; E 54 57 [] 128;
      E 58 58 [] 131; E 65 70 [] 128; E 93 93 [] 61; E 97 102 [] 128]
  | 147 => Some [E 48 57 [] 145; E 58 58 [] 131; E 65 70 [] 129; E 93 93 [] 61; E 97 102 [] 129]
  | _ => None
  end.

Definition http_states_148 (cs : Z) : option (list (edge http_action)) :=
  match cs with
  | 148 => Some [E 48 48 [] 145; E 49 57 [] 129; E 58 58 [] 131; E 65 70 [] 129; E 93 93 [] 61;
      E 97 102 [] 129]
  | 149 => Some [E 48 57 [] 128; E 58 58 [] 131; E 65 70 [] 128; E 93 93 [] 61; E 97 102 [] 128]
  | 150 => Some [E 2 3 [] 48; E 48 48 [] 127; E 49 49 [] 143; E 50 50 [] 146; E 51 57 [] 127; E 65 70 [] 149;
      E 97 102 [] 149]
  | 151 => Some [E 2 3 [] 48; E 48 48 [] 152; E 49 49 [] 156; E 50 50 [] 159; E 51 57 [] 152; E 65 70 [] 162;
      E 97 102 [] 162]
  | 152 => Some [E 46 46 [] 55; E 48 57 [] 153; E 58 58 [] 131; E 65 70 [] 153; E 97 102 [] 153]
  | 153 => Some [E 48 57 [] 154; E 58 58 [] 131; E 65 70 [] 154; E 97 102 [] 154]
  | 154 => Some [E 48 57 [] 155; E 58 58 [] 131; E 65 70 [] 155; E 97 102 [] 155]
  | 155 => Some [E 58 58 [] 131]
  | 156 => Some [E 46 46 [] 55; E 48 57 [] 157; E 58 58 [] 131; E 65 70 [] 153; E 97 102 [] 153]
  | _ => None
  end.

Definition http_states_157 (cs : Z) : option (list (edge http_action)) :=
  match cs with
  | 157 => Some [E 46 46 [] 55; E 48 57 [] 158; E 58 58 [] 131; E 65 70 [] 154; E 97 102 [] 154]
  | 158 => Some [E 46 46 [] 55; E 48 57 [] 155; E 58 58 [] 131; E 65 70 [] 155; E 97 102 [] 155]
  | 159 => Some [E 46 46 [] 55; E 48 48 [] 160; E 49 52 [] 153; E 53 53 [] 161; E 54 57 [] 153;
      E 58 58 [] 131; E 65 70 [] 153; E 97 102 [] 153]
  | 160 => Some [E 48 57 [] 158; E 58 58 [] 131; E 65 70 [] 154; E 97 102 [] 154]
  | 161 => Some [E 48 48 [] 158; E 49 57 [] 154; E 58 58 [] 131; E 65 70 [] 154; E 97 102 [] 154]
  | 162 => Some [E 48 57 [] 153; E 58 58 [] 131; E 65 70 [] 153; E 97 102 [] 153]
  | 163 => Some [E 2 3 [] 48; E 48 57 [] 49; E 65 70 [] 49; E 97 102 [] 49]
  | 164 => Some [E 2 3 [] 48]
  | 165 => Some [E 3 3 [] 48]
  | 166 => Some [E 4 4 [] 48]
  | 167 => Some [E 58 58 [] 168]
  | _ => None
  end.

Definition http_states_168 (cs : Z) : option (list (edge http_action)) :=
  match cs with
  | 168 => Some [E 2 5 [] 48; E 48 48 [] 127; E 49 49 [] 143; E 50 50 [] 146; E 51 57 [] 127; E 65 70 [] 149;
      E 93 93 [] 61; E 97 102 [] 149]
  | 169 => Some [E 48 57 [] 170; E 65 70 [] 170; E 97 102 [] 170]
  | 170 => Some [E 46 46 [] 171; E 48 57 [] 170; E 65 70 [] 170; E 97 102 [] 170]
  | 171 => Some [E 33 33 [] 172; E 36 36 [] 172; E 38 46 [] 172; E 48 59 [] 172; E 61 61 [] 172;
      E 65 90 [] 172; R 94 [] 172; E 95 95 [] 172; E 97 122 [] 172; R 123 [] 172; R 125 [] 172;
      E 126 126 [] 172]
  | 172 => Some [E 33 33 [] 172; E 36 36 [] 172; E 38 46 [] 172; E 48 59 [] 172; E 61 61 [] 172;
      E 65 90 [] 172; E 93 93 [] 61; R 94 [] 172; E 95 95 [] 172; E 97 122 [] 172; R 123 [] 172;
      R 125 [] 172; E 126 126 [] 172]
  | _ => None
  end.

Definition http_states_173 (cs : Z) : option (list (edge http_action)) :=
  match cs with
  | 173 => Some [E 32 32 [act_request_path; act_request_uri] 4; E 33 33 [] 19;
      E 35 35 [act_request_path; act_request_uri] 20; E 36 36 [] 19; E 37 37 [] 24; E 38 42 [] 19;
      E 43 43 [] 173; E 44 44 [] 19; E 45 46 [] 173; E 47 47 [] 26; E 48 57 [] 173; E 58 58 [] 174;
      E 59 59 [] 19; E 61 61 [] 19; E 63 63 [act_request_path] 29; E 64 64 [] 19; E 65 90 [] 173; R 94 [] 19;
      E 95 95 [] 19; E 97 122 [] 173; R 123 [] 19; R 125 [] 19; E 126 126 [] 19]
  | 174 => Some [E 32 32 [act_mark; act_request_path; act_request_uri] 4; E 33 33 [act_mark] 26;
      E 35 35 [act_mark; act_request_path; act_request_uri] 20; E 36 36 [act_mark] 26; E 37 37 [act_mark] 27;
      E 38 46 [act_mark] 26; E 47 47 [act_mark] 33; E 48 59 [act_mark] 26; E 61 61 [act_mark] 26;
      E 63 63 [act_mark; act_request_path] 29; E 64 90 [act_mark] 26; E 94 95 [act_mark] 26;
      E 97 123 [act_mark] 26; E 125 126 [act_mark] 26]
  | 175 => Some [E 32 32 [act_request_method] 3; E 48 57 [] 176; E 65 90 [] 176]
  | 176 => Some [E 32 32 [act_request_method] 3; E 48 57 [] 177; E 65 90 [] 177]
  | 177 => Some [E 32 32 [act_request_method] 3; E 48 57 [] 178; E 65 90 [] 178]
  | _ => None
  end.

Definition http_states_178 (cs : Z) : option (list (edge http_action)) :=
  match cs with
  | 178 => Some [E 32 32 [act_request_method] 3; E 48 57 [] 179; E 65 90 [] 179]
  | 179 => Some [E 32 32 [act_request_method] 3; E 48 57 [] 180; E 65 90 [] 180]
  | 180 => Some [E 32 32 [act_request_method] 3; E 48 57 [] 181; E 65 90 [] 181]
  | 181 => Some [E 32 32 [act_request_method] 3; E 48 57 [] 182; E 65 90 [] 182]
  | 182 => Some [E 32 32 [act_request_method] 3; E 48 57 [] 183; E 65 90 [] 183]
  | 183 => Some [E 32 32 [act_request_method] 3; E 48 57 [] 184; E 65 90 [] 184]
  | 184 => Some [E 32 32 [act_request_method] 3; E 48 57 [] 185; E 65 90 [] 185]
  | 185 => Some [E 32 32 [act_request_method] 3; E 48 57 [] 186; E 65 90 [] 186]
  | 186 => Some [E 32 32 [act_request_method] 3; E 48 57 [] 187; E 65 90 [] 187]
  | 187 => Some [E 32 32 [act_request_method] 3; E 48 57 [] 188; E 65 90 [] 188]
  | 188 => Some [E 32 32 [act_request_method] 3; E 48 57 [] 189; E 65 90 [] 189]
  | 189 => Some [E 32 32 [act_request_method] 3; E 48 57 [] 190; E 65 90 [] 190]
  | _ => None
  end.

Definition http_states_190 (cs : Z) : option (list (edge http_action)) :=
  match cs with
  | 190 => Some [E 32 32 [act_request_method] 3; E 48 57 [] 191; E 65 90 [] 191]
  | 191 => Some [E 32 32 [act_request_method] 3; E 48 57 [] 192; E 65 90 [] 192]
  | 192 => Some [E 32 32 [act_request_method] 3; E 48 57 [] 193; E 65 90 [] 193]
  | 193 => Some [E 32 32 [act_request_method] 3]
  | 194 => Some [E 45 46 [] 195; E 48 57 [] 195; E 65 90 [] 195; E 97 122 [] 195]
  | 195 => Some [E 9 13 [act_request_path] 196; E 32 32 [act_request_path] 196; E 45 46 [] 195;
      E 47 47 [act_request_path] 196; E 48 57 [] 195; E 62 62 [act_request_path] 196; E 65 90 [] 195;
      E 97 122 [] 195]
  | 196 => Some [E (-128) 61 [] 196; E 62 62 [] 197; E 63 127 [] 196]
  | 197 => Some [E (-128) (-1) [] 196; E 0 0 [act_xml; act_done] 349; E 1 61 [] 196; E 62 62 [] 197;
      E 63 127 [] 196]
  | _ => None
  end.

Definition http_states_349 (cs : Z) : option (list (edge http_action)) :=
  match cs with
  | 349 => Some []
  | 198 => Some [E 32 32 [act_request_path] 199; E 33 33 [] 202; E 36 36 [] 202; E 37 37 [] 203;
      E 38 46 [] 202; E 47 47 [] 208; E 48 57 [] 202; E 59 59 [] 202; E 61 61 [] 202; E 64 90 [] 202;
      R 94 [] 202; E 95 95 [] 202; E 97 122 [] 202; R 123 [] 202; R 125 [] 202; E 126 126 [] 202]
  | 199 => Some [E 123 123 [act_mark] 200]
  | 200 => Some [E (-128) 124 [] 200; E 125 125 [] 201; E 126 127 [] 200]
  | 201 => Some [E (-128) (-1) [] 200; E 0 0 [act_json; act_done] 349; E 1 124 [] 200; E 125 125 [] 201;
      E 126 127 [] 200]
  | _ => None
  end.

Definition http_states_202 (cs : Z) : option (list (edge http_action)) :=
  match cs with
  | 202 => Some [E 32 32 [act_request_path] 199; E 33 33 [] 202; E 36 36 [] 202; E 37 37 [] 203;
      E 38 46 [] 202; E 47 47 [] 205; E 48 57 [] 202; E 59 59 [] 202; E 61 61 [] 202; E 64 90 [] 202;
      R 94 [] 202; E 95 95 [] 202; E 97 122 [] 202; R 123 [] 202; R 125 [] 202; E 126 126 [] 202]
  | 203 => Some [E 48 57 [] 204; E 65 70 [] 204; E 97 102 [] 204]
  | 204 => Some [E 48 57 [] 202; E 65 70 [] 202; E 97 102 [] 202]
  | 205 => Some [E 32 32 [act_request_path] 199; E 33 33 [] 205; E 36 36 [] 205; E 37 37 [] 206;
      E 38 59 [] 205; E 61 61 [] 205; E 64 90 [] 205; E 94 95 [] 205; E 97 123 [] 205; E 125 126 [] 205]
  | 206 => Some [E 48 57 [] 207; E 65 70 [] 207; E 97 102 [] 207]
  | 207 => Some [E 48 57 [] 205; E 65 70 [] 205; E 97 102 [] 205]
  | _ => None
  end.

Definition http_states_208 (cs : Z) : option (list (edge http_action)) :=
  match cs with
  | 208 => Some [E 32 32 [act_request_path] 199; E 33 33 [] 205; E 36 36 [] 205; E 37 37 [] 206;
      E 38 46 [] 205; E 47 47 [] 209; E 48 59 [] 205; E 61 61 [] 205; E 64 90 [] 205; E 94 95 [] 205;
      E 97 123 [] 205; E 125 126 [] 205]
  | 209 => Some [E 32 32 [act_request_path] 199; E 33 33 [] 210; E 36 36 [] 210; E 37 37 [] 211;
      E 38 46 [] 210; E 47 47 [] 205; E 48 57 [] 210; E 58 58 [] 213; E 59 59 [] 210; E 61 61 [] 210;
      E 64 64 [] 217; E 65 90 [] 210; E 91 91 [] 222; R 94 [] 210; E 95 95 [] 210; E 97 122 [] 210;
      R 123 [] 210; R 125 [] 210; E 126 126 [] 210]
  | 210 => Some [E 32 32 [act_request_path] 199; E 33 33 [] 210; E 36 36 [] 210; E 37 37 [] 211;
      E 38 46 [] 210; E 47 47 [] 205; E 48 57 [] 210; E 58 58 [] 213; E 59 59 [] 210; E 61 61 [] 210;
      E 64 64 [] 217; E 65 90 [] 210; R 94 [] 210; E 95 95 [] 210; E 97 122 [] 210; R 123 [] 210;
      R 125 [] 210; E 126 126 [] 210]
  | _ => None
  end.

Definition http_states_211 (cs : Z) : option (list (edge http_action)) :=
  match cs with
  | 211 => Some [E 48 57 [] 212; E 65 70 [] 212; E 97 102 [] 212]
  | 212 => Some [E 48 57 [] 210; E 65 70 [] 210; E 97 102 [] 210]
  | 213 => Some [E 32 32 [act_request_path] 199; E 33 33 [] 214; E 36 36 [] 214; E 37 37 [] 215;
      E 38 46 [] 214; E 47 47 [] 205; E 48 57 [] 213; E 58 59 [] 214; E 61 61 [] 214; E 64 64 [] 217;
      E 65 90 [] 214; R 94 [] 214; E 95 95 [] 214; E 97 122 [] 214; R 123 [] 214; R 125 [] 214;
      E 126 126 [] 214]
  | 214 => Some [E 33 33 [] 214; E 36 36 [] 214; E 37 37 [] 215; E 38 46 [] 214; E 48 59 [] 214;
      E 61 61 [] 214; E 64 64 [] 217; E 65 90 [] 214; R 94 [] 214; E 95 95 [] 214; E 97 122 [] 214;
      R 123 [] 214; R 125 [] 214; E 126 126 [] 214]
  | 215 => Some [E 48 57 [] 216; E 65 70 [] 216; E 97 102 [] 216]
  | _ => None
  end.

Definition http_states_216 (cs : Z) : option (list (edge http_action)) :=
  match cs with
  | 216 => Some [E 48 57 [] 214; E 65 70 [] 214; E 97 102 [] 214]
  | 217 => Some [E 32 32 [act_request_path] 199; E 33 33 [] 218; E 36 36 [] 218; E 37 37 [] 219;
      E 38 46 [] 218; E 47 47 [] 205; E 48 57 [] 218; E 58 58 [] 221; E 59 59 [] 218; E 61 61 [] 218;
      E 65 90 [] 218; E 91 91 [] 222; R 94 [] 218; E 95 95 [] 218; E 97 122 [] 218; R 123 [] 218;
      R 125 [] 218; E 126 126 [] 218]
  | 218 => Some [E 32 32 [act_request_path] 199; E 33 33 [] 218; E 36 36 [] 218; E 37 37 [] 219;
      E 38 46 [] 218; E 47 47 [] 205; E 48 57 [] 218; E 58 58 [] 221; E 59 59 [] 218; E 61 61 [] 218;
      E 65 90 [] 218; R 94 [] 218; E 95 95 [] 218; E 97 122 [] 218; R 123 [] 218; R 125 [] 218;
      E 126 126 [] 218]
  | 219 => Some [E 48 57 [] 220; E 65 70 [] 220; E 97 102 [] 220]
  | 220 => Some [E 48 57 [] 218; E 65 70 [] 218; E 97 102 [] 218]
  | 221 => Some [E 32 32 [act_request_path] 199; E 47 47 [] 205; E 48 57 [] 221]
  | _ => None
  end.

Definition http_states_222 (cs : Z) : option (list (edge http_action)) :=
  match cs with
  | 222 => Some [E 6 6 [] 223; E 48 57 [] 266; E 58 58 [] 342; E 65 70 [] 266; E 97 102 [] 266;
      E 118 118 [] 344]
  | 223 => Some [E 48 57 [] 224; E 65 70 [] 224; E 97 102 [] 224]
  | 224 => Some [E 48 57 [] 225; E 58 58 [] 228; E 65 70 [] 225; E 97 102 [] 225]
  | 225 => Some [E 48 57 [] 226; E 58 58 [] 228; E 65 70 [] 226; E 97 102 [] 226]
  | 226 => Some [E 48 57 [] 227; E 58 58 [] 228; E 65 70 [] 227; E 97 102 [] 227]
  | 227 => Some [E 58 58 [] 228]
  | 228 => Some [E 48 48 [] 229; E 49 49 [] 259; E 50 50 [] 262; E 51 57 [] 229; E 65 70 [] 265;
      E 97 102 [] 265]
  | 229 => Some [E 46 46 [] 230; E 48 57 [] 252; E 58 58 [] 255; E 65 70 [] 252; E 97 102 [] 252]
  | 230 => Some [E 48 48 [] 231; E 49 49 [] 247; E 50 50 [] 249; E 51 57 [] 231]
  | 231 => Some [E 46 46 [] 232]
  | 232 => Some [E 48 48 [] 233; E 49 49 [] 242; E 50 50 [] 244; E 51 57 [] 233]
  | _ => None
  end.

Definition http_states_233 (cs : Z) : option (list (edge http_action)) :=
  match cs with
  | 233 => Some [E 46 46 [] 234]
  | 234 => Some [E 48 48 [] 235; E 49 49 [] 237; E 50 50 [] 239; E 51 57 [] 235]
  | 235 => Some [E 93 93 [] 236]
  | 236 => Some [E 32 32 [act_request_path] 199; E 47 47 [] 205; E 58 58 [] 221]
  | 237 => Some [E 48 57 [] 238; E 93 93 [] 236]
  | 238 => Some [E 48 57 [] 235; E 93 93 [] 236]
  | 239 => Some [E 48 48 [] 240; E 53 53 [] 241; E 93 93 [] 236]
  | 240 => Some [E 48 57 [] 235]
  | 241 => Some [E 48 48 [] 235]
  | 242 => Some [E 46 46 [] 234; E 48 57 [] 243]
  | 243 => Some [E 46 46 [] 234; E 48 57 [] 233]
  | 244 => Some [E 46 46 [] 234; E 48 48 [] 245; E 53 53 [] 246]
  | 245 => Some [E 48 57 [] 233]
  | 246 => Some [E 48 48 [] 233]
  | 247 => Some [E 46 46 [] 232; E 48 57 [] 248]
  | 248 => Some [E 46 46 [] 232; E 48 57 [] 231]
  | 249 => Some [E 46 46 [] 232; E 48 48 [] 250; E 53 53 [] 251]
  | _ => None
  end.

Definition http_states_250 (cs : Z) : option (list (edge http_action)) :=
  match cs with
  | 250 => Some [E 48 57 [] 231]
  | 251 => Some [E 48 48 [] 231]
  | 252 => Some [E 48 57 [] 253; E 58 58 [] 255; E 65 70 [] 253; E 97 102 [] 253]
  | 253 => Some [E 48 57 [] 254; E 58 58 [] 255; E 65 70 [] 254; E 97 102 [] 254]
  | 254 => Some [E 58 58 [] 255]
  | 255 => Some [E 48 57 [] 256; E 65 70 [] 256; E 97 102 [] 256]
  | 256 => Some [E 48 57 [] 257; E 65 70 [] 257; E 93 93 [] 236; E 97 102 [] 257]
  | 257 => Some [E 48 57 [] 258; E 65 70 [] 258; E 93 93 [] 236; E 97 102 [] 258]
  | 258 => Some [E 48 57 [] 235; E 65 70 [] 235; E 93 93 [] 236; E 97 102 [] 235]
  | 259 => Some [E 46 46 [] 230; E 48 57 [] 260; E 58 58 [] 255; E 65 70 [] 252; E 97 102 [] 252]
  | 260 => Some [E 46 46 [] 230; E 48 57 [] 261; E 58 58 [] 255; E 65 70 [] 253; E 97 102 [] 253]
  | _ => None
  end.

Definition http_states_261 (cs : Z) : option (list (edge http_action)) :=
  match cs with
  | 261 => Some [E 46 46 [] 230; E 48 57 [] 254; E 58 58 [] 255; E 65 70 [] 254; E 97 102 [] 254]
  | 262 => Some [E 46 46 [] 230; E 48 48 [] 263; E 49 52 [] 252; E 53 53 [] 264; E 54 57 [] 252;
      E 58 58 [] 255; E 65 70 [] 252; E 97 102 [] 252]
  | 263 => Some [E 48 57 [] 261; E 58 58 [] 255; E 65 70 [] 253; E 97 102 [] 253]
  | 264 => Some [E 48 48 [] 261; E 49 57 [] 253; E 58 58 [] 255; E 65 70 [] 253; E 97 102 [] 253]
  | 265 => Some [E 48 57 [] 252; E 58 58 [] 255; E 65 70 [] 252; E 97 102 [] 252]
  | 266 => Some [E 48 57 [] 267; E 58 58 [] 270; E 65 70 [] 267; E 97 102 [] 267]
  | 267 => Some [E 48 57 [] 268; E 58 58 [] 270; E 65 70 [] 268; E 97 102 [] 268]
  | 268 => Some [E 48 57 [] 269; E 58 58 [] 270; E 65 70 [] 269; E 97 102 [] 269]
  | 269 => Some [E 58 58 [] 270]
  | 270 => Some [E 48 57 [] 271; E 58 58 [] 341; E 65 70 [] 271; E 97 102 [] 271]
  | _ => None
  end.

Definition http_states_271 (cs : Z) : option (list (edge http_action)) :=
  match cs with
  | 271 => Some [E 48 57 [] 272; E 58 58 [] 275; E 65 70 [] 272; E 97 102 [] 272]
  | 272 => Some [E 48 57 [] 273; E 58 58 [] 275; E 65 70 [] 273; E 97 102 [] 273]
  | 273 => Some [E 48 57 [] 274; E 58 58 [] 275; E 65 70 [] 274; E 97 102 [] 274]
  | 274 => Some [E 58 58 [] 275]
  | 275 => Some [E 48 57 [] 276; E 58 58 [] 340; E 65 70 [] 276; E 97 102 [] 276]
  | 276 => Some [E 48 57 [] 277; E 58 58 [] 280; E 65 70 [] 277; E 97 102 [] 277]
  | 277 => Some [E 48 57 [] 278; E 58 58 [] 280; E 65 70 [] 278; E 97 102 [] 278]
  | 278 => Some [E 48 57 [] 279; E 58 58 [] 280; E 65 70 [] 279; E 97 102 [] 279]
  | 279 => Some [E 58 58 [] 280]
  | 280 => Some [E 48 57 [] 281; E 58 58 [] 339; E 65 70 [] 281; E 97 102 [] 281]
  | 281 => Some [E 48 57 [] 282; E 58 58 [] 285; E 65 70 [] 282; E 97 102 [] 282]
  | _ => None
  end.

Definition http_states_282 (cs : Z) : option (list (edge http_action)) :=
  match cs with
  | 282 => Some [E 48 57 [] 283; E 58 58 [] 285; E 65 70 [] 283; E 97 102 [] 283]
  | 283 => Some [E 48 57 [] 284; E 58 58 [] 285; E 65 70 [] 284; E 97 102 [] 284]
  | 284 => Some [E 58 58 [] 285]
  | 285 => Some [E 48 57 [] 286; E 58 58 [] 338; E 65 70 [] 286; E 97 102 [] 286]
  | 286 => Some [E 48 57 [] 287; E 58 58 [] 290; E 65 70 [] 287; E 97 102 [] 287]
  | 287 => Some [E 48 57 [] 288; E 58 58 [] 290; E 65 70 [] 288; E 97 102 [] 288]
  | 288 => Some [E 48 57 [] 289; E 58 58 [] 290; E 65 70 [] 289; E 97 102 [] 289]
  | 289 => Some [E 58 58 [] 290]
  | 290 => Some [E 48 57 [] 291; E 58 58 [] 326; E 65 70 [] 291; E 97 102 [] 291]
  | 291 => Some [E 48 57 [] 292; E 58 58 [] 295; E 65 70 [] 292; E 97 102 [] 292]
  | 292 => Some [E 48 57 [] 293; E 58 58 [] 295; E 65 70 [] 293; E 97 102 [] 293]
  | _ => None
  end.

Definition http_states_293 (cs : Z) : option (list (edge http_action)) :=
  match cs with
  | 293 => Some [E 48 57 [] 294; E 58 58 [] 295; E 65 70 [] 294; E 97 102 [] 294]
  | 294 => Some [E 58 58 [] 295]
  | 295 => Some [E 48 57 [] 296; E 58 58 [] 325; E 65 70 [] 296; E 97 102 [] 296]
  | 296 => Some [E 48 57 [] 297; E 58 58 [] 300; E 65 70 [] 297; E 97 102 [] 297]
  | 297 => Some [E 48 57 [] 298; E 58 58 [] 300; E 65 70 [] 298; E 97 102 [] 298]
  | 298 => Some [E 48 57 [] 299; E 58 58 [] 300; E 65 70 [] 299; E 97 102 [] 299]
  | 299 => Some [E 58 58 [] 300]
  | 300 => Some [E 48 57 [] 296; E 58 58 [] 301; E 65 70 [] 296; E 97 102 [] 296]
  | 301 => Some [E 2 3 [] 223; E 48 48 [] 302; E 49 49 [] 318; E 50 50 [] 321; E 51 57 [] 302;
      E 65 70 [] 324; E 93 93 [] 236; E 97 102 [] 324]
  | 302 => Some [E 46 46 [] 230; E 48 57 [] 303; E 58 58 [] 306; E 65 70 [] 303; E 93 93 [] 236;
      E 97 102 [] 303]
  | _ => None
  end.

Definition http_states_303 (cs : Z) : option (list (edge http_action)) :=
  match cs with
  | 303 => Some [E 48 57 [] 304; E 58 58 [] 306; E 65 70 [] 304; E 93 93 [] 236; E 97 102 [] 304]
  | 304 => Some [E 48 57 [] 305; E 58 58 [] 306; E 65 70 [] 305; E 93 93 [] 236; E 97 102 [] 305]
  | 305 => Some [E 58 58 [] 306; E 93 93 [] 236]
  | 306 => Some [E 48 48 [] 307; E 49 49 [] 311; E 50 50 [] 314; E 51 57 [] 307; E 65 70 [] 317;
      E 97 102 [] 317]
  | 307 => Some [E 46 46 [] 230; E 48 57 [] 308; E 58 58 [] 255; E 65 70 [] 308; E 93 93 [] 236;
      E 97 102 [] 308]
  | 308 => Some [E 48 57 [] 309; E 58 58 [] 255; E 65 70 [] 309; E 93 93 [] 236; E 97 102 [] 309]
  | 309 => Some [E 48 57 [] 310; E 58 58 [] 255; E 65 70 [] 310; E 93 93 [] 236; E 97 102 [] 310]
  | 310 => Some [E 58 58 [] 255; E 93 93 [] 236]
  | 311 => Some [E 46 46 [] 230; E 48 57 [] 312; E 58 58 [] 255; E 65 70 [] 308; E 93 93 [] 236;
      E 97 102 [] 308]
  | _ => None
  end.

Definition http_states_312 (cs : Z) : option (list (edge http_action)) :=
  match cs with
  | 312 => Some [E 46 46 [] 230; E 48 57 [] 313; E 58 58 [] 255; E 65 70 [] 309; E 93 93 [] 236;
      E 97 102 [] 309]
  | 313 => Some [E 46 46 [] 230; E 48 57 [] 310; E 58 58 [] 255; E 65 70 [] 310; E 93 93 [] 236;
      E 97 102 [] 310]
  | 314 => Some [E 46 46 [] 230; E 48 48 [] 315; E 49 52 [] 308; E 53 53 [] 316; E 54 57 [] 308;
      E 58 58 [] 255; E 65 70 [] 308; E 93 93 [] 236; E 97 102 [] 308]
  | 315 => Some [E 48 57 [] 313; E 58 58 [] 255; E 65 70 [] 309; E 93 93 [] 236; E 97 102 [] 309]
  | 316 => Some [E 48 48 [] 313; E 49 57 [] 309; E 58 58 [] 255; E 65 70 [] 309; E 93 93 [] 236;
      E 97 102 [] 309]
  | 317 => Some [E 48 57 [] 308; E 58 58 [] 255; E 65 70 [] 308; E 93 93 [] 236; E 97 102 [] 308]
  | 318 => Some [E 46 46 [] 230; E 48 57 [] 319; E 58 58 [] 306; E 65 70 [] 303; E 93 93 [] 236;
      E 97 102 [] 303]
  | 319 => Some [E 46 46 [] 230; E 48 57 [] 320; E 58 58 [] 306; E 65 70 [] 304; E 93 93 [] 236;
      E 97 102 [] 304]
  | _ => None
  end.

Definition http_states_320 (cs : Z) : option (list (edge http_action)) :=
  match cs with
  | 320 => Some [E 46 46 [] 230; E 48 57 [] 305; E 58 58 [] 306; E 65 70 [] 305; E 93 93 [] 236;
      E 97 102 [] 305]
  | 321 => Some [E 46 46 [] 230; E 48 48 [] 322; E 49 52 [] 303; E 53 53 [] 323; E 54 57 [] 303;
      E 58 58 [] 306; E 65 70 [] 303; E 93 93 [] 236; E 97 102 [] 303]
  | 322 => Some [E 48 57 [] 320; E 58 58 [] 306; E 65 70 [] 304; E 93 93 [] 236; E 97 102 [] 304]
  | 323 => Some [E 48 48 [] 320; E 49 57 [] 304; E 58 58 [] 306; E 65 70 [] 304; E 93 93 [] 236;
      E 97 102 [] 304]
  | 324 => Some [E 48 57 [] 303; E 58 58 [] 306; E 65 70 [] 303; E 93 93 [] 236; E 97 102 [] 303]
  | 325 => Some [E 2 3 [] 223; E 48 48 [] 302; E 49 49 [] 318; E 50 50 [] 321; E 51 57 [] 302;
      E 65 70 [] 324; E 97 102 [] 324]
  | 326 => Some [E 2 3 [] 223; E 48 48 [] 327; E 49 49 [] 331; E 50 50 [] 334; E 51 57 [] 327;
      E 65 70 [] 337; E 97 102 [] 337]
  | 327 => Some [E 46 46 [] 230; E 48 57 [] 328; E 58 58 [] 306; E 65 70 [] 328; E 97 102 [] 328]
  | _ => None
  end.

Definition http_states_328 (cs : Z) : option (list (edge http_action)) :=
  match cs with
  | 328 => Some [E 48 57 [] 329; E 58 58 [] 306; E 65 70 [] 329; E 97 102 [] 329]
  | 329 => Some [E 48 57 [] 330; E 58 58 [] 306; E 65 70 [] 330; E 97 102 [] 330]
  | 330 => Some [E 58 58 [] 306]
  | 331 => Some [E 46 46 [] 230; E 48 57 [] 332; E 58 58 [] 306; E 65 70 [] 328; E 97 102 [] 328]
  | 332 => Some [E 46 46 [] 230; E 48 57 [] 333; E 58 58 [] 306; E 65 70 [] 329; E 97 102 [] 329]
  | 333 => Some [E 46 46 [] 230; E 48 57 [] 330; E 58 58 [] 306; E 65 70 [] 330; E 97 102 [] 330]
  | 334 => Some [E 46 46 [] 230; E 48 48 [] 335; E 49 52 [] 328; E 53 53 [] 336; E 54 57 [] 328;
      E 58 58 [] 306; E 65 70 [] 328; E 97 102 [] 328]
  | 335 => Some [E 48 57 [] 333; E 58 58 [] 306; E 65 70 [] 329; E 97 102 [] 329]
  | 336 => Some [E 48 48 [] 333; E 49 57 [] 329; E 58 58 [] 306; E 65 70 [] 329; E 97 102 [] 329]
  | _ => None
  end.

Definition http_states_337 (cs : Z) : option (list (edge http_action)) :=
  match cs with
  | 337 => Some [E 48 57 [] 328; E 58 58 [] 306; E 65 70 [] 328; E 97 102 [] 328]
  | 338 => Some [E 2 3 [] 223; E 48 57 [] 224; E 65 70 [] 224; E 97 102 [] 224]
  | 339 => Some [E 2 3 [] 223]
  | 340 => Some [E 3 3 [] 223]
  | 341 => Some [E 4 4 [] 223]
  | 342 => Some [E 58 58 [] 343]
  | 343 => Some [E 2 5 [] 223; E 48 48 [] 302; E 49 49 [] 318; E 50 50 [] 321; E 51 57 [] 302;
      E 65 70 [] 324; E 93 93 [] 236; E 97 102 [] 324]
  | 344 => Some [E 48 57 [] 345; E 65 70 [] 345; E 97 102 [] 345]
  | 345 => Some [E 46 46 [] 346; E 48 57 [] 345; E 65 70 [] 345; E 97 102 [] 345]
  | _ => None
  end.

Definition http_states_346 (cs : Z) : option (list (edge http_action)) :=
  match cs with
  | 346 => Some [E 33 33 [] 347; E 36 36 [] 347; E 38 46 [] 347; E 48 59 [] 347; E 61 61 [] 347;
      E 65 90 [] 347; R 94 [] 347; E 95 95 [] 347; E 97 122 [] 347; R 123 [] 347; R 125 [] 347;
      E 126 126 [] 347]
  | 347 => Some [E 33 33 [] 347; E 36 36 [] 347; E 38 46 [] 347; E 48 59 [] 347; E 61 61 [] 347;
      E 65 90 [] 347; E 93 93 [] 236; R 94 [] 347; E 95 95 [] 347; E 97 122 [] 347; R 123 [] 347;
      R 125 [] 347; E 126 126 [] 347]
  | _ => None
  end.

Definition http_parser_row : Z → list (edge http_action) := first_row
  [http_states_1; http_states_4; http_states_13; http_states_17; http_states_19; http_states_20;
   http_states_21; http_states_26; http_states_29; http_states_32; http_states_35; http_states_39;
   http_states_43; http_states_51; http_states_65; http_states_81; http_states_90; http_states_101;
   http_states_112; http_states_123; http_states_132; http_states_140; http_states_148;
   http_states_157; http_states_168; http_states_173; http_states_178; http_states_190;
   http_states_349; http_states_202; http_states_208; http_states_211; http_states_216;
   http_states_222; http_states_233; http_states_250; http_states_261; http_states_271;
   http_states_282; http_states_293; http_states_303; http_states_312; http_states_320;
   http_states_328; http_states_337; http_states_346].
