(* ===== verification/HttpClientMachine.v ===== *)
(** * HttpClientMachine: the automaton of responses ([http/parser11/httpclient_parser.rl.cc])

    As in [Http11Machine]; the first final state is 120.  The same automaton
    parses the head of a response and the head of a chunk. *)

From S2P Require Import Prelude Text.
From S2P Require Export Ragel.

(** The actions of [httpclient_parser.rl]. *)
Inductive client_action :=
  | cl_mark | cl_start_field | cl_write_field | cl_start_value | cl_write_content_len
  | cl_write_connection_close | cl_write_value | cl_reason_phrase | cl_status_code | cl_http_version
  | cl_chunk_size | cl_trans_chunked | cl_done.

#[export] Instance client_action_eq_dec : EqDecision client_action.
Proof. solve_decision. Defined.

(** ** The states, in the order of the source *)

Definition client_states_1 (cs : Z) : option (list (edge client_action)) :=
  match cs with
  | 1 => Some [E 48 57 [cl_mark] 2; E 65 70 [cl_mark] 2; E 72 72 [cl_mark] 8; E 97 102 [cl_mark] 2]
  | 2 => Some [E 10 10 [cl_chunk_size; cl_done] 120; E 13 13 [cl_chunk_size] 3; E 48 57 [] 2;
      E 59 59 [cl_chunk_size] 4; E 65 70 [] 2; E 97 102 [] 2]
  | 120 => Some []
  | _ => None
  end.

Definition client_states_3 (cs : Z) : option (list (edge client_action)) :=
  match cs with
  | 3 => Some [E 10 10 [cl_done] 120]
  | 4 => Some [E 33 33 [cl_start_field] 5; E 35 39 [cl_start_field] 5; E 42 43 [cl_start_field] 5;
      E 45 46 [cl_start_field] 5; E 48 57 [cl_start_field] 5; E 65 90 [cl_start_field] 5;
      E 94 122 [cl_start_field] 5; E 124 124 [cl_start_field] 5; E 126 126 [cl_start_field] 5]
  | 5 => Some [E 10 10 [cl_write_field; cl_start_value; cl_write_value; cl_done] 120;
      E 13 13 [cl_write_field; cl_start_value; cl_write_value] 3; E 33 33 [] 5; E 35 39 [] 5; E 42 43 [] 5;
      E 45 46 [] 5; E 48 57 [] 5; E 59 59 [cl_write_field; cl_start_value; cl_write_value] 4;
      E 61 61 [cl_write_field; cl_start_value] 6; E 65 90 [] 5; E 94 122 [] 5; E 124 124 [] 5;
      E 126 126 [] 5]
  | _ => None
  end.

Definition client_states_6 (cs : Z) : option (list (edge client_action)) :=
  match cs with
  | 6 => Some [E 33 33 [cl_start_value] 7; E 35 39 [cl_start_value] 7; E 42 43 [cl_start_value] 7;
      E 45 46 [cl_start_value] 7; E 48 57 [cl_start_value] 7; E 65 90 [cl_start_value] 7;
      E 94 122 [cl_start_value] 7; E 124 124 [cl_start_value] 7; E 126 126 [cl_start_value] 7]
  | 7 => Some [E 10 10 [cl_write_value; cl_done] 120; E 13 13 [cl_write_value] 3; E 33 33 [] 7; E 35 39 [] 7;
      E 42 43 [] 7; E 45 46 [] 7; E 48 57 [] 7; E 59 59 [cl_write_value] 4; E 65 90 [] 7; E 94 122 [] 7;
      E 124 124 [] 7; E 126 126 [] 7]
  | 8 => Some [E 84 84 [] 9]
  | 9 => Some [E 84 84 [] 10]
  | 10 => Some [E 80 80 [] 11]
  | 11 => Some [E 47 47 [] 12]
  | 12 => Some [E 48 57 [] 13]
  | 13 => Some [E 46 46 [] 14; E 48 57 [] 13]
  | 14 => Some [E 48 57 [] 15]
  | 15 => Some [E 32 32 [cl_http_version] 16; E 48 57 [] 15]
  | _ => None
  end.

Definition client_states_16 (cs : Z) : option (list (edge client_action)) :=
  match cs with
  | 16 => Some [E 48 57 [cl_mark] 17]
  | 17 => Some [E 32 32 [cl_status_code] 18; E 48 57 [] 17]
  | 18 => Some [E (-128) 9 [cl_mark] 19; E 11 127 [cl_mark] 19]
  | 19 => Some [E (-128) 9 [] 19; E 10 10 [cl_reason_phrase] 20; E 11 12 [] 19;
      E 13 13 [cl_reason_phrase] 24; E 14 127 [] 19]
  | 20 => Some [E 10 10 [cl_done] 120; E 13 13 [] 3; E 33 33 [cl_start_field] 21;
      E 35 39 [cl_start_field] 21; E 42 43 [cl_start_field] 21; E 45 46 [cl_start_field] 21;
      E 48 57 [cl_start_field] 21; E 65 66 [cl_start_field] 21; E 67 67 [cl_start_field] 25;
      E 68 83 [cl_start_field] 21; E 84 84 [cl_start_field] 44; E 85 90 [cl_start_field] 21;
      E 94 98 [cl_start_field] 21; E 99 99 [cl_start_field] 25; E 100 115 [cl_start_field] 21;
      E 116 116 [cl_start_field] 44; E 117 122 [cl_start_field] 21; E 124 124 [cl_start_field] 21;
      E 126 126 [cl_start_field] 21]
  | _ => None
  end.

Definition client_states_21 (cs : Z) : option (list (edge client_action)) :=
  match cs with
  | 21 => Some [E 33 33 [] 21; E 35 39 [] 21; E 42 43 [] 21; E 45 46 [] 21; E 48 57 [] 21;
      E 58 58 [cl_write_field] 22; E 65 90 [] 21; E 94 122 [] 21; E 124 124 [] 21; E 126 126 [] 21]
  | 22 => Some [E (-128) 8 [cl_start_value] 23; E 9 9 [cl_start_value] 22;
      E 10 10 [cl_start_value; cl_write_value] 20; E 11 12 [cl_start_value] 22;
      E 13 13 [cl_start_value; cl_write_value] 24; E 14 31 [cl_start_value] 23; E 32 32 [cl_start_value] 22;
      E 33 127 [cl_start_value] 23]
  | 23 => Some [E (-128) 9 [] 23; E 10 10 [cl_write_value] 20; E 11 12 [] 23; E 13 13 [cl_write_value] 24;
      E 14 127 [] 23]
  | 24 => Some [E 10 10 [] 20]
  | _ => None
  end.

Definition client_states_25 (cs : Z) : option (list (edge client_action)) :=
  match cs with
  | 25 => Some [E 33 33 [] 21; E 35 39 [] 21; E 42 43 [] 21; E 45 46 [] 21; E 48 57 [] 21;
      E 58 58 [cl_write_field] 22; E 65 78 [] 21; E 79 79 [] 26; E 80 90 [] 21; E 94 110 [] 21;
      E 111 111 [] 26; E 112 122 [] 21; E 124 124 [] 21; E 126 126 [] 21]
  | 26 => Some [E 33 33 [] 21; E 35 39 [] 21; E 42 43 [] 21; E 45 46 [] 21; E 48 57 [] 21;
      E 58 58 [cl_write_field] 22; E 65 77 [] 21; E 78 78 [] 27; E 79 90 [] 21; E 94 109 [] 21;
      E 110 110 [] 27; E 111 122 [] 21; E 124 124 [] 21; E 126 126 [] 21]
  | 27 => Some [E 33 33 [] 21; E 35 39 [] 21; E 42 43 [] 21; E 45 46 [] 21; E 48 57 [] 21;
      E 58 58 [cl_write_field] 22; E 65 77 [] 21; E 78 78 [] 28; E 79 83 [] 21; E 84 84 [] 101;
      E 85 90 [] 21; E 94 109 [] 21; E 110 110 [] 28; E 111 115 [] 21; E 116 116 [] 101; E 117 122 [] 21;
      E 124 124 [] 21; E 126 126 [] 21]
  | 28 => Some [E 33 33 [] 21; E 35 39 [] 21; E 42 43 [] 21; E 45 46 [] 21; E 48 57 [] 21;
      E 58 58 [cl_write_field] 22; E 65 68 [] 21; E 69 69 [] 29; E 70 90 [] 21; E 94 100 [] 21;
      E 101 101 [] 29; E 102 122 [] 21; E 124 124 [] 21; E 126 126 [] 21]
  | _ => None
  end.

Definition client_states_29 (cs : Z) : option (list (edge client_action)) :=
  match cs with
  | 29 => Some [E 33 33 [] 21; E 35 39 [] 21; E 42 43 [] 21; E 45 46 [] 21; E 48 57 [] 21;
      E 58 58 [cl_write_field] 22; E 65 66 [] 21; E 67 67 [] 30; E 68 90 [] 21; E 94 98 [] 21; E 99 99 [] 30;
      E 100 122 [] 21; E 124 124 [] 21; E 126 126 [] 21]
  | 30 => Some [E 33 33 [] 21; E 35 39 [] 21; E 42 43 [] 21; E 45 46 [] 21; E 48 57 [] 21;
      E 58 58 [cl_write_field] 22; E 65 83 [] 21; E 84 84 [] 31; E 85 90 [] 21; E 94 115 [] 21;
      E 116 116 [] 31; E 117 122 [] 21; E 124 124 [] 21; E 126 126 [] 21]
  | 31 => Some [E 33 33 [] 21; E 35 39 [] 21; E 42 43 [] 21; E 45 46 [] 21; E 48 57 [] 21;
      E 58 58 [cl_write_field] 22; E 65 72 [] 21; E 73 73 [] 32; E 74 90 [] 21; E 94 104 [] 21;
      E 105 105 [] 32; E 106 122 [] 21; E 124 124 [] 21; E 126 126 [] 21]
  | 32 => Some [E 33 33 [] 21; E 35 39 [] 21; E 42 43 [] 21; E 45 46 [] 21; E 48 57 [] 21;
      E 58 58 [cl_write_field] 22; E 65 78 [] 21; E 79 79 [] 33; E 80 90 [] 21; E 94 110 [] 21;
      E 111 111 [] 33; E 112 122 [] 21; E 124 124 [] 21; E 126 126 [] 21]
  | 33 => Some [E 33 33 [] 21; E 35 39 [] 21; E 42 43 [] 21; E 45 46 [] 21; E 48 57 [] 21;
      E 58 58 [cl_write_field] 22; E 65 77 [] 21; E 78 78 [] 34; E 79 90 [] 21; E 94 109 [] 21;
      E 110 110 [] 34; E 111 122 [] 21; E 124 124 [] 21; E 126 126 [] 21]
  | _ => None
  end.

Definition client_states_34 (cs : Z) : option (list (edge client_action)) :=
  match cs with
  | 34 => Some [E 33 33 [] 21; E 35 39 [] 21; E 42 43 [] 21; E 45 46 [] 21; E 48 57 [] 21;
      E 58 58 [cl_write_field] 35; E 65 90 [] 21; E 94 122 [] 21; E 124 124 [] 21; E 126 126 [] 21]
  | 35 => Some [E (-128) 8 [cl_start_value] 23; E 9 9 [cl_start_value] 35;
      E 10 10 [cl_start_value; cl_write_value] 36; E 11 12 [cl_start_value] 35;
      E 13 13 [cl_start_value; cl_write_value] 95; E 14 31 [cl_start_value] 23; E 32 32 [cl_start_value] 35;
      E 33 66 [cl_start_value] 23; E 67 67 [cl_start_value] 96; E 68 98 [cl_start_value] 23;
      E 99 99 [cl_start_value] 96; E 100 127 [cl_start_value] 23]
  | 36 => Some [E 9 9 [] 37; E 10 10 [cl_done] 122; E 11 12 [] 37; E 13 13 [] 89; E 32 32 [] 37;
      E 33 33 [cl_start_field] 21; E 35 39 [cl_start_field] 21; E 42 43 [cl_start_field] 21;
      E 45 46 [cl_start_field] 21; E 48 57 [cl_start_field] 21; E 65 66 [cl_start_field] 21;
      E 67 67 [cl_start_field] 90; E 68 83 [cl_start_field] 21; E 84 84 [cl_start_field] 44;
      E 85 90 [cl_start_field] 21; E 94 98 [cl_start_field] 21; E 99 99 [cl_start_field] 90;
      E 100 115 [cl_start_field] 21; E 116 116 [cl_start_field] 44; E 117 122 [cl_start_field] 21;
      E 124 124 [cl_start_field] 21; E 126 126 [cl_start_field] 21]
  | 37 => Some [E 9 13 [] 37; E 32 32 [] 37; E 67 67 [] 38; E 99 99 [] 38]
  | 38 => Some [E 76 76 [] 39; E 108 108 [] 39]
  | 39 => Some [E 79 79 [] 40; E 111 111 [] 40]
  | 40 => Some [E 83 83 [] 41; E 115 115 [] 41]
  | 41 => Some [E 69 69 [] 42; E 101 101 [] 42]
  | _ => None
  end.

Definition client_states_42 (cs : Z) : option (list (edge client_action)) :=
  match cs with
  | 42 => Some [E 10 10 [] 43; E 13 13 [] 88]
  | 43 => Some [E 10 10 [cl_write_connection_close; cl_done] 120; E 13 13 [cl_write_connection_close] 3;
      E 33 33 [cl_write_connection_close; cl_start_field] 21;
      E 35 39 [cl_write_connection_close; cl_start_field] 21;
      E 42 43 [cl_write_connection_close; cl_start_field] 21;
      E 45 46 [cl_write_connection_close; cl_start_field] 21;
      E 48 57 [cl_write_connection_close; cl_start_field] 21;
      E 65 66 [cl_write_connection_close; cl_start_field] 21;
      E 67 67 [cl_write_connection_close; cl_start_field] 25;
      E 68 83 [cl_write_connection_close; cl_start_field] 21;
      E 84 84 [cl_write_connection_close; cl_start_field] 44;
      E 85 90 [cl_write_connection_close; cl_start_field] 21;
      E 94 98 [cl_write_connection_close; cl_start_field] 21;
      E 99 99 [cl_write_connection_close; cl_start_field] 25;
      E 100 115 [cl_write_connection_close; cl_start_field] 21;
      E 116 116 [cl_write_connection_close; cl_start_field] 44;
      E 117 122 [cl_write_connection_close; cl_start_field] 21;
      E 124 124 [cl_write_connection_close; cl_start_field] 21;
      E 126 126 [cl_write_connection_close; cl_start_field] 21]
  | 44 => Some [E 33 33 [] 21; E 35 39 [] 21; E 42 43 [] 21; E 45 46 [] 21; E 48 57 [] 21;
      E 58 58 [cl_write_field] 22; E 65 81 [] 21; E 82 82 [] 45; E 83 90 [] 21; E 94 113 [] 21;
      E 114 114 [] 45; E 115 122 [] 21; E 124 124 [] 21; E 126 126 [] 21]
  | 45 => Some [E 33 33 [] 21; E 35 39 [] 21; E 42 43 [] 21; E 45 46 [] 21; E 48 57 [] 21;
      E 58 58 [cl_write_field] 22; E 65 65 [] 46; E 66 90 [] 21; E 94 96 [] 21; E 97 97 [] 46;
      E 98 122 [] 21; E 124 124 [] 21; E 126 126 [] 21]
  | _ => None
  end.

Definition client_states_46 (cs : Z) : option (list (edge client_action)) :=
  match cs with
  | 46 => Some [E 33 33 [] 21; E 35 39 [] 21; E 42 43 [] 21; E 45 46 [] 21; E 48 57 [] 21;
      E 58 58 [cl_write_field] 22; E 65 77 [] 21; E 78 78 [] 47; E 79 90 [] 21; E 94 109 [] 21;
      E 110 110 [] 47; E 111 122 [] 21; E 124 124 [] 21; E 126 126 [] 21]
  | 47 => Some [E 33 33 [] 21; E 35 39 [] 21; E 42 43 [] 21; E 45 46 [] 21; E 48 57 [] 21;
      E 58 58 [cl_write_field] 22; E 65 82 [] 21; E 83 83 [] 48; E 84 90 [] 21; E 94 114 [] 21;
      E 115 115 [] 48; E 116 122 [] 21; E 124 124 [] 21; E 126 126 [] 21]
  | 48 => Some [E 33 33 [] 21; E 35 39 [] 21; E 42 43 [] 21; E 45 46 [] 21; E 48 57 [] 21;
      E 58 58 [cl_write_field] 22; E 65 69 [] 21; E 70 70 [] 49; E 71 90 [] 21; E 94 101 [] 21;
      E 102 102 [] 49; E 103 122 [] 21; E 124 124 [] 21; E 126 126 [] 21]
  | 49 => Some [E 33 33 [] 21; E 35 39 [] 21; E 42 43 [] 21; E 45 46 [] 21; E 48 57 [] 21;
      E 58 58 [cl_write_field] 22; E 65 68 [] 21; E 69 69 [] 50; E 70 90 [] 21; E 94 100 [] 21;
      E 101 101 [] 50; E 102 122 [] 21; E 124 124 [] 21; E 126 126 [] 21]
  | 50 => Some [E 33 33 [] 21; E 35 39 [] 21; E 42 43 [] 21; E 45 46 [] 21; E 48 57 [] 21;
      E 58 58 [cl_write_field] 22; E 65 81 [] 21; E 82 82 [] 51; E 83 90 [] 21; E 94 113 [] 21;
      E 114 114 [] 51; E 115 122 [] 21; E 124 124 [] 21; E 126 126 [] 21]
  | _ => None
  end.

Definition client_states_51 (cs : Z) : option (list (edge client_action)) :=
  match cs with
  | 51 => Some [E 33 33 [] 21; E 35 39 [] 21; E 42 43 [] 21; E 45 45 [] 52; E 46 46 [] 21; E 48 57 [] 21;
      E 58 58 [cl_write_field] 22; E 65 90 [] 21; E 94 122 [] 21; E 124 124 [] 21; E 126 126 [] 21]
  | 52 => Some [E 33 33 [] 21; E 35 39 [] 21; E 42 43 [] 21; E 45 46 [] 21; E 48 57 [] 21;
      E 58 58 [cl_write_field] 22; E 65 68 [] 21; E 69 69 [] 53; E 70 90 [] 21; E 94 100 [] 21;
      E 101 101 [] 53; E 102 122 [] 21; E 124 124 [] 21; E 126 126 [] 21]
  | 53 => Some [E 33 33 [] 21; E 35 39 [] 21; E 42 43 [] 21; E 45 46 [] 21; E 48 57 [] 21;
      E 58 58 [cl_write_field] 22; E 65 77 [] 21; E 78 78 [] 54; E 79 90 [] 21; E 94 109 [] 21;
      E 110 110 [] 54; E 111 122 [] 21; E 124 124 [] 21; E 126 126 [] 21]
  | 54 => Some [E 33 33 [] 21; E 35 39 [] 21; E 42 43 [] 21; E 45 46 [] 21; E 48 57 [] 21;
      E 58 58 [cl_write_field] 22; E 65 66 [] 21; E 67 67 [] 55; E 68 90 [] 21; E 94 98 [] 21; E 99 99 [] 55;
      E 100 122 [] 21; E 124 124 [] 21; E 126 126 [] 21]
  | 55 => Some [E 33 33 [] 21; E 35 39 [] 21; E 42 43 [] 21; E 45 46 [] 21; E 48 57 [] 21;
      E 58 58 [cl_write_field] 22; E 65 78 [] 21; E 79 79 [] 56; E 80 90 [] 21; E 94 110 [] 21;
      E 111 111 [] 56; E 112 122 [] 21; E 124 124 [] 21; E 126 126 [] 21]
  | _ => None
  end.

Definition client_states_56 (cs : Z) : option (list (edge client_action)) :=
  match cs with
  | 56 => Some [E 33 33 [] 21; E 35 39 [] 21; E 42 43 [] 21; E 45 46 [] 21; E 48 57 [] 21;
      E 58 58 [cl_write_field] 22; E 65 67 [] 21; E 68 68 [] 57; E 69 90 [] 21; E 94 99 [] 21;
      E 100 100 [] 57; E 101 122 [] 21; E 124 124 [] 21; E 126 126 [] 21]
  | 57 => Some [E 33 33 [] 21; E 35 39 [] 21; E 42 43 [] 21; E 45 46 [] 21; E 48 57 [] 21;
      E 58 58 [cl_write_field] 22; E 65 72 [] 21; E 73 73 [] 58; E 74 90 [] 21; E 94 104 [] 21;
      E 105 105 [] 58; E 106 122 [] 21; E 124 124 [] 21; E 126 126 [] 21]
  | 58 => Some [E 33 33 [] 21; E 35 39 [] 21; E 42 43 [] 21; E 45 46 [] 21; E 48 57 [] 21;
      E 58 58 [cl_write_field] 22; E 65 77 [] 21; E 78 78 [] 59; E 79 90 [] 21; E 94 109 [] 21;
      E 110 110 [] 59; E 111 122 [] 21; E 124 124 [] 21; E 126 126 [] 21]
  | 59 => Some [E 33 33 [] 21; E 35 39 [] 21; E 42 43 [] 21; E 45 46 [] 21; E 48 57 [] 21;
      E 58 58 [cl_write_field] 22; E 65 70 [] 21; E 71 71 [] 60; E 72 90 [] 21; E 94 102 [] 21;
      E 103 103 [] 60; E 104 122 [] 21; E 124 124 [] 21; E 126 126 [] 21]
  | 60 => Some [E 33 33 [] 21; E 35 39 [] 21; E 42 43 [] 21; E 45 46 [] 21; E 48 57 [] 21;
      E 58 58 [cl_write_field] 61; E 65 90 [] 21; E 94 122 [] 21; E 124 124 [] 21; E 126 126 [] 21]
  | _ => None
  end.

Definition client_states_61 (cs : Z) : option (list (edge client_action)) :=
  match cs with
  | 61 => Some [E (-128) 8 [cl_start_value] 23; E 9 9 [cl_start_value] 61;
      E 10 10 [cl_start_value; cl_write_value] 62; E 11 12 [cl_start_value] 61;
      E 13 13 [cl_start_value; cl_write_value] 80; E 14 31 [cl_start_value] 23; E 32 32 [cl_start_value] 61;
      E 33 66 [cl_start_value] 23; E 67 67 [cl_start_value] 81; E 68 98 [cl_start_value] 23;
      E 99 99 [cl_start_value] 81; E 100 127 [cl_start_value] 23]
  | 62 => Some [E 9 9 [] 63; E 10 10 [cl_done] 121; E 11 12 [] 63; E 13 13 [] 72; E 32 32 [] 63;
      E 33 33 [cl_start_field] 21; E 35 39 [cl_start_field] 21; E 42 43 [cl_start_field] 21;
      E 45 46 [cl_start_field] 21; E 48 57 [cl_start_field] 21; E 65 66 [cl_start_field] 21;
      E 67 67 [cl_start_value; cl_start_field] 73; E 68 83 [cl_start_field] 21; E 84 84 [cl_start_field] 44;
      E 85 90 [cl_start_field] 21; E 94 98 [cl_start_field] 21; E 99 99 [cl_start_value; cl_start_field] 73;
      E 100 115 [cl_start_field] 21; E 116 116 [cl_start_field] 44; E 117 122 [cl_start_field] 21;
      E 124 124 [cl_start_field] 21; E 126 126 [cl_start_field] 21]
  | 63 => Some [E 9 13 [] 63; E 32 32 [] 63; E 67 67 [cl_start_value] 64; E 99 99 [cl_start_value] 64]
  | 64 => Some [E 72 72 [] 65; E 104 104 [] 65]
  | 65 => Some [E 85 85 [] 66; E 117 117 [] 66]
  | 66 => Some [E 78 78 [] 67; E 110 110 [] 67]
  | 67 => Some [E 75 75 [] 68; E 107 107 [] 68]
  | 68 => Some [E 69 69 [] 69; E 101 101 [] 69]
  | 69 => Some [E 68 68 [] 70; E 100 100 [] 70]
  | _ => None
  end.

Definition client_states_70 (cs : Z) : option (list (edge client_action)) :=
  match cs with
  | 70 => Some [E 10 10 [cl_write_value; cl_trans_chunked] 20; E 13 13 [cl_write_value] 71]
  | 71 => Some [E 10 10 [cl_trans_chunked] 20]
  | 121 => Some [E 9 13 [] 63; E 32 32 [] 63; E 67 67 [cl_start_value] 64; E 99 99 [cl_start_value] 64]
  | 72 => Some [E 9 9 [] 63; E 10 10 [cl_done] 121; E 11 13 [] 63; E 32 32 [] 63;
      E 67 67 [cl_start_value] 64; E 99 99 [cl_start_value] 64]
  | 73 => Some [E 33 33 [] 21; E 35 39 [] 21; E 42 43 [] 21; E 45 46 [] 21; E 48 57 [] 21;
      E 58 58 [cl_write_field] 22; E 65 71 [] 21; E 72 72 [] 74; E 73 78 [] 21; E 79 79 [] 26; E 80 90 [] 21;
      E 94 103 [] 21; E 104 104 [] 74; E 105 110 [] 21; E 111 111 [] 26; E 112 122 [] 21; E 124 124 [] 21;
      E 126 126 [] 21]
  | 74 => Some [E 33 33 [] 21; E 35 39 [] 21; E 42 43 [] 21; E 45 46 [] 21; E 48 57 [] 21;
      E 58 58 [cl_write_field] 22; E 65 84 [] 21; E 85 85 [] 75; E 86 90 [] 21; E 94 116 [] 21;
      E 117 117 [] 75; E 118 122 [] 21; E 124 124 [] 21; E 126 126 [] 21]
  | _ => None
  end.

Definition client_states_75 (cs : Z) : option (list (edge client_action)) :=
  match cs with
  | 75 => Some [E 33 33 [] 21; E 35 39 [] 21; E 42 43 [] 21; E 45 46 [] 21; E 48 57 [] 21;
      E 58 58 [cl_write_field] 22; E 65 77 [] 21; E 78 78 [] 76; E 79 90 [] 21; E 94 109 [] 21;
      E 110 110 [] 76; E 111 122 [] 21; E 124 124 [] 21; E 126 126 [] 21]
  | 76 => Some [E 33 33 [] 21; E 35 39 [] 21; E 42 43 [] 21; E 45 46 [] 21; E 48 57 [] 21;
      E 58 58 [cl_write_field] 22; E 65 74 [] 21; E 75 75 [] 77; E 76 90 [] 21; E 94 106 [] 21;
      E 107 107 [] 77; E 108 122 [] 21; E 124 124 [] 21; E 126 126 [] 21]
  | 77 => Some [E 33 33 [] 21; E 35 39 [] 21; E 42 43 [] 21; E 45 46 [] 21; E 48 57 [] 21;
      E 58 58 [cl_write_field] 22; E 65 68 [] 21; E 69 69 [] 78; E 70 90 [] 21; E 94 100 [] 21;
      E 101 101 [] 78; E 102 122 [] 21; E 124 124 [] 21; E 126 126 [] 21]
  | 78 => Some [E 33 33 [] 21; E 35 39 [] 21; E 42 43 [] 21; E 45 46 [] 21; E 48 57 [] 21;
      E 58 58 [cl_write_field] 22; E 65 67 [] 21; E 68 68 [] 79; E 69 90 [] 21; E 94 99 [] 21;
      E 100 100 [] 79; E 101 122 [] 21; E 124 124 [] 21; E 126 126 [] 21]
  | 79 => Some [E 10 10 [cl_write_value; cl_trans_chunked] 20; E 13 13 [cl_write_value] 71; E 33 33 [] 21;
      E 35 39 [] 21; E 42 43 [] 21; E 45 46 [] 21; E 48 57 [] 21; E 58 58 [cl_write_field] 22; E 65 90 [] 21;
      E 94 122 [] 21; E 124 124 [] 21; E 126 126 [] 21]
  | _ => None
  end.

Definition client_states_80 (cs : Z) : option (list (edge client_action)) :=
  match cs with
  | 80 => Some [E 9 9 [] 63; E 10 10 [] 62; E 11 13 [] 63; E 32 32 [] 63; E 67 67 [cl_start_value] 64;
      E 99 99 [cl_start_value] 64]
  | 81 => Some [E (-128) 9 [] 23; E 10 10 [cl_write_value] 20; E 11 12 [] 23; E 13 13 [cl_write_value] 24;
      E 14 71 [] 23; E 72 72 [] 82; E 73 103 [] 23; E 104 104 [] 82; E 105 127 [] 23]
  | 82 => Some [E (-128) 9 [] 23; E 10 10 [cl_write_value] 20; E 11 12 [] 23; E 13 13 [cl_write_value] 24;
      E 14 84 [] 23; E 85 85 [] 83; E 86 116 [] 23; E 117 117 [] 83; E 118 127 [] 23]
  | 83 => Some [E (-128) 9 [] 23; E 10 10 [cl_write_value] 20; E 11 12 [] 23; E 13 13 [cl_write_value] 24;
      E 14 77 [] 23; E 78 78 [] 84; E 79 109 [] 23; E 110 110 [] 84; E 111 127 [] 23]
  | 84 => Some [E (-128) 9 [] 23; E 10 10 [cl_write_value] 20; E 11 12 [] 23; E 13 13 [cl_write_value] 24;
      E 14 74 [] 23; E 75 75 [] 85; E 76 106 [] 23; E 107 107 [] 85; E 108 127 [] 23]
  | 85 => Some [E (-128) 9 [] 23; E 10 10 [cl_write_value] 20; E 11 12 [] 23; E 13 13 [cl_write_value] 24;
      E 14 68 [] 23; E 69 69 [] 86; E 70 100 [] 23; E 101 101 [] 86; E 102 127 [] 23]
  | 86 => Some [E (-128) 9 [] 23; E 10 10 [cl_write_value] 20; E 11 12 [] 23; E 13 13 [cl_write_value] 24;
      E 14 67 [] 23; E 68 68 [] 87; E 69 99 [] 23; E 100 100 [] 87; E 101 127 [] 23]
  | 87 => Some [E (-128) 9 [] 23; E 10 10 [cl_write_value; cl_trans_chunked] 20; E 11 12 [] 23;
      E 13 13 [cl_write_value] 71; E 14 127 [] 23]
  | 88 => Some [E 10 10 [] 43]
  | 122 => Some [E 9 13 [] 37; E 32 32 [] 37; E 67 67 [] 38; E 99 99 [] 38]
  | _ => None
  end.

Definition client_states_89 (cs : Z) : option (list (edge client_action)) :=
  match cs with
  | 89 => Some [E 9 9 [] 37; E 10 10 [cl_done] 122; E 11 13 [] 37; E 32 32 [] 37; E 67 67 [] 38;
      E 99 99 [] 38]
  | 90 => Some [E 33 33 [] 21; E 35 39 [] 21; E 42 43 [] 21; E 45 46 [] 21; E 48 57 [] 21;
      E 58 58 [cl_write_field] 22; E 65 75 [] 21; E 76 76 [] 91; E 77 78 [] 21; E 79 79 [] 26; E 80 90 [] 21;
      E 94 107 [] 21; E 108 108 [] 91; E 109 110 [] 21; E 111 111 [] 26; E 112 122 [] 21; E 124 124 [] 21;
      E 126 126 [] 21]
  | 91 => Some [E 33 33 [] 21; E 35 39 [] 21; E 42 43 [] 21; E 45 46 [] 21; E 48 57 [] 21;
      E 58 58 [cl_write_field] 22; E 65 78 [] 21; E 79 79 [] 92; E 80 90 [] 21; E 94 110 [] 21;
      E 111 111 [] 92; E 112 122 [] 21; E 124 124 [] 21; E 126 126 [] 21]
  | 92 => Some [E 33 33 [] 21; E 35 39 [] 21; E 42 43 [] 21; E 45 46 [] 21; E 48 57 [] 21;
      E 58 58 [cl_write_field] 22; E 65 82 [] 21; E 83 83 [] 93; E 84 90 [] 21; E 94 114 [] 21;
      E 115 115 [] 93; E 116 122 [] 21; E 124 124 [] 21; E 126 126 [] 21]
  | 93 => Some [E 33 33 [] 21; E 35 39 [] 21; E 42 43 [] 21; E 45 46 [] 21; E 48 57 [] 21;
      E 58 58 [cl_write_field] 22; E 65 68 [] 21; E 69 69 [] 94; E 70 90 [] 21; E 94 100 [] 21;
      E 101 101 [] 94; E 102 122 [] 21; E 124 124 [] 21; E 126 126 [] 21]
  | _ => None
  end.

Definition client_states_94 (cs : Z) : option (list (edge client_action)) :=
  match cs with
  | 94 => Some [E 10 10 [] 43; E 13 13 [] 88; E 33 33 [] 21; E 35 39 [] 21; E 42 43 [] 21; E 45 46 [] 21;
      E 48 57 [] 21; E 58 58 [cl_write_field] 22; E 65 90 [] 21; E 94 122 [] 21; E 124 124 [] 21;
      E 126 126 [] 21]
  | 95 => Some [E 9 9 [] 37; E 10 10 [] 36; E 11 13 [] 37; E 32 32 [] 37; E 67 67 [] 38; E 99 99 [] 38]
  | 96 => Some [E (-128) 9 [] 23; E 10 10 [cl_write_value] 20; E 11 12 [] 23; E 13 13 [cl_write_value] 24;
      E 14 75 [] 23; E 76 76 [] 97; E 77 107 [] 23; E 108 108 [] 97; E 109 127 [] 23]
  | 97 => Some [E (-128) 9 [] 23; E 10 10 [cl_write_value] 20; E 11 12 [] 23; E 13 13 [cl_write_value] 24;
      E 14 78 [] 23; E 79 79 [] 98; E 80 110 [] 23; E 111 111 [] 98; E 112 127 [] 23]
  | 98 => Some [E (-128) 9 [] 23; E 10 10 [cl_write_value] 20; E 11 12 [] 23; E 13 13 [cl_write_value] 24;
      E 14 82 [] 23; E 83 83 [] 99; E 84 114 [] 23; E 115 115 [] 99; E 116 127 [] 23]
  | 99 => Some [E (-128) 9 [] 23; E 10 10 [cl_write_value] 20; E 11 12 [] 23; E 13 13 [cl_write_value] 24;
      E 14 68 [] 23; E 69 69 [] 100; E 70 100 [] 23; E 101 101 [] 100; E 102 127 [] 23]
  | 100 => Some [E (-128) 9 [] 23; E 10 10 [cl_write_value] 43; E 11 12 [] 23; E 13 13 [cl_write_value] 88;
      E 14 127 [] 23]
  | 101 => Some [E 33 33 [] 21; E 35 39 [] 21; E 42 43 [] 21; E 45 46 [] 21; E 48 57 [] 21;
      E 58 58 [cl_write_field] 22; E 65 68 [] 21; E 69 69 [] 102; E 70 90 [] 21; E 94 100 [] 21;
      E 101 101 [] 102; E 102 122 [] 21; E 124 124 [] 21; E 126 126 [] 21]
  | _ => None
  end.

Definition client_states_102 (cs : Z) : option (list (edge client_action)) :=
  match cs with
  | 102 => Some [E 33 33 [] 21; E 35 39 [] 21; E 42 43 [] 21; E 45 46 [] 21; E 48 57 [] 21;
      E 58 58 [cl_write_field] 22; E 65 77 [] 21; E 78 78 [] 103; E 79 90 [] 21; E 94 109 [] 21;
      E 110 110 [] 103; E 111 122 [] 21; E 124 124 [] 21; E 126 126 [] 21]
  | 103 => Some [E 33 33 [] 21; E 35 39 [] 21; E 42 43 [] 21; E 45 46 [] 21; E 48 57 [] 21;
      E 58 58 [cl_write_field] 22; E 65 83 [] 21; E 84 84 [] 104; E 85 90 [] 21; E 94 115 [] 21;
      E 116 116 [] 104; E 117 122 [] 21; E 124 124 [] 21; E 126 126 [] 21]
  | 104 => Some [E 33 33 [] 21; E 35 39 [] 21; E 42 43 [] 21; E 45 45 [] 105; E 46 46 [] 21; E 48 57 [] 21;
      E 58 58 [cl_write_field] 22; E 65 90 [] 21; E 94 122 [] 21; E 124 124 [] 21; E 126 126 [] 21]
  | 105 => Some [E 33 33 [] 21; E 35 39 [] 21; E 42 43 [] 21; E 45 46 [] 21; E 48 57 [] 21;
      E 58 58 [cl_write_field] 22; E 65 75 [] 21; E 76 76 [] 106; E 77 90 [] 21; E 94 107 [] 21;
      E 108 108 [] 106; E 109 122 [] 21; E 124 124 [] 21; E 126 126 [] 21]
  | 106 => Some [E 33 33 [] 21; E 35 39 [] 21; E 42 43 [] 21; E 45 46 [] 21; E 48 57 [] 21;
      E 58 58 [cl_write_field] 22; E 65 68 [] 21; E 69 69 [] 107; E 70 90 [] 21; E 94 100 [] 21;
      E 101 101 [] 107; E 102 122 [] 21; E 124 124 [] 21; E 126 126 [] 21]
  | _ => None
  end.

Definition client_states_107 (cs : Z) : option (list (edge client_action)) :=
  match cs with
  | 107 => Some [E 33 33 [] 21; E 35 39 [] 21; E 42 43 [] 21; E 45 46 [] 21; E 48 57 [] 21;
      E 58 58 [cl_write_field] 22; E 65 77 [] 21; E 78 78 [] 108; E 79 90 [] 21; E 94 109 [] 21;
      E 110 110 [] 108; E 111 122 [] 21; E 124 124 [] 21; E 126 126 [] 21]
  | 108 => Some [E 33 33 [] 21; E 35 39 [] 21; E 42 43 [] 21; E 45 46 [] 21; E 48 57 [] 21;
      E 58 58 [cl_write_field] 22; E 65 70 [] 21; E 71 71 [] 109; E 72 90 [] 21; E 94 102 [] 21;
      E 103 103 [] 109; E 104 122 [] 21; E 124 124 [] 21; E 126 126 [] 21]
  | 109 => Some [E 33 33 [] 21; E 35 39 [] 21; E 42 43 [] 21; E 45 46 [] 21; E 48 57 [] 21;
      E 58 58 [cl_write_field] 22; E 65 83 [] 21; E 84 84 [] 110; E 85 90 [] 21; E 94 115 [] 21;
      E 116 116 [] 110; E 117 122 [] 21; E 124 124 [] 21; E 126 126 [] 21]
  | 110 => Some [E 33 33 [] 21; E 35 39 [] 21; E 42 43 [] 21; E 45 46 [] 21; E 48 57 [] 21;
      E 58 58 [cl_write_field] 22; E 65 71 [] 21; E 72 72 [] 111; E 73 90 [] 21; E 94 103 [] 21;
      E 104 104 [] 111; E 105 122 [] 21; E 124 124 [] 21; E 126 126 [] 21]
  | 111 => Some [E 33 33 [] 21; E 35 39 [] 21; E 42 43 [] 21; E 45 46 [] 21; E 48 57 [] 21;
      E 58 58 [cl_write_field] 112; E 65 90 [] 21; E 94 122 [] 21; E 124 124 [] 21; E 126 126 [] 21]
  | _ => None
  end.

Definition client_states_112 (cs : Z) : option (list (edge client_action)) :=
  match cs with
  | 112 => Some [E (-128) 8 [cl_start_value] 23; E 9 9 [cl_start_value] 112;
      E 10 10 [cl_start_value; cl_write_value] 113; E 11 12 [cl_start_value] 112;
      E 13 13 [cl_start_value; cl_write_value] 118; E 14 31 [cl_start_value] 23;
      E 32 32 [cl_start_value] 112; E 33 47 [cl_start_value] 23; E 48 57 [cl_start_value] 119;
      E 58 127 [cl_start_value] 23]
  | 113 => Some [E 9 9 [] 114; E 10 10 [cl_done] 123; E 11 12 [] 114; E 13 13 [] 116; E 32 32 [] 114;
      E 33 33 [cl_start_field] 21; E 35 39 [cl_start_field] 21; E 42 43 [cl_start_field] 21;
      E 45 46 [cl_start_field] 21; E 48 57 [cl_start_value; cl_start_field] 117; E 65 66 [cl_start_field] 21;
      E 67 67 [cl_start_field] 25; E 68 83 [cl_start_field] 21; E 84 84 [cl_start_field] 44;
      E 85 90 [cl_start_field] 21; E 94 98 [cl_start_field] 21; E 99 99 [cl_start_field] 25;
      E 100 115 [cl_start_field] 21; E 116 116 [cl_start_field] 44; E 117 122 [cl_start_field] 21;
      E 124 124 [cl_start_field] 21; E 126 126 [cl_start_field] 21]
  | 114 => Some [E 9 13 [] 114; E 32 32 [] 114; E 48 57 [cl_start_value] 115]
  | 115 => Some [E 10 10 [cl_write_content_len; cl_write_value] 20;
      E 13 13 [cl_write_content_len; cl_write_value] 24; E 48 57 [] 115]
  | 123 => Some [E 9 13 [] 114; E 32 32 [] 114; E 48 57 [cl_start_value] 115]
  | 116 => Some [E 9 9 [] 114; E 10 10 [cl_done] 123; E 11 13 [] 114; E 32 32 [] 114;
      E 48 57 [cl_start_value] 115]
  | _ => None
  end.

Definition client_states_117 (cs : Z) : option (list (edge client_action)) :=
  match cs with
  | 117 => Some [E 10 10 [cl_write_content_len; cl_write_value] 20;
      E 13 13 [cl_write_content_len; cl_write_value] 24; E 33 33 [] 21; E 35 39 [] 21; E 42 43 [] 21;
      E 45 46 [] 21; E 48 57 [] 117; E 58 58 [cl_write_field] 22; E 65 90 [] 21; E 94 122 [] 21;
      E 124 124 [] 21; E 126 126 [] 21]
  | 118 => Some [E 9 9 [] 114; E 10 10 [] 113; E 11 13 [] 114; E 32 32 [] 114; E 48 57 [cl_start_value] 115]
  | 119 => Some [E (-128) 9 [] 23; E 10 10 [cl_write_content_len; cl_write_value] 20; E 11 12 [] 23;
      E 13 13 [cl_write_content_len; cl_write_value] 24; E 14 47 [] 23; E 48 57 [] 119; E 58 127 [] 23]
  | _ => None
  end.

Definition httpclient_parser_row : Z → list (edge client_action) := first_row
  [client_states_1; client_states_3; client_states_6; client_states_16; client_states_21;
   client_states_25; client_states_29; client_states_34; client_states_42; client_states_46;
   client_states_51; client_states_56; client_states_61; client_states_70; client_states_75;
   client_states_80; client_states_89; client_states_94; client_states_102; client_states_107;
   client_states_112; client_states_117].
