(* ===== verification/HttpParser.v ===== *)
(** * HttpParser: the parsers of requests and responses ([http/http_parser.cc], [http/parser11/*.rl])

    The automata of [Http11Machine] and [HttpClientMachine] with their actions,
    the callbacks that fill a request or a response, and the objects
    [HttpRequestParser] and [HttpResponseParser].  [execute] works on the buffer
    of the caller and moves what it did not parse to the front. *)

From S2P Require Import Prelude.
From S2P Require Export Http.
From S2P Require Export Http11Machine HttpClientMachine.

(** ** Texts at an address of the buffer *)

(** [std::string(buffer + at, len)]: a [size_t] that wrapped below zero is a
    length that the constructor refuses with an exception. *)
Definition std_string {S} (buffer : text) (at_ : nat) (len : Z) : M S text :=
  if len <? 0 then fail OutOfRange else mret (take (Z.to_nat len) (drop at_ buffer)).

(** [LEN(AT, FPC)] *)
Definition LEN (at_ p : nat) : Z := Z.of_nat p - Z.of_nat at_.

(** [strncmp(a, b, n) == 0] *)
Definition strncmp_eq (a b : text) (n : nat) : bool := bool_decide (take n (c_str a) = take n (c_str b)).

(** The conversion of a [long] to [int]. *)
Definition long_to_int (v : Z) : Z := (v + 2 ^ 31) mod 2 ^ 32 - 2 ^ 31.

Definition digit_of (base : Z) (c : ascii) : option Z :=
  let n := Z.of_nat (nat_of_ascii c) in
  let d := if (48 <=? n) && (n <=? 57) then n - 48
           else if (97 <=? n) && (n <=? 122) then n - 87
           else if (65 <=? n) && (n <=? 90) then n - 55 else 99 in
  if d <? base then Some d else None.

Fixpoint strtol_digits (base acc : Z) (s : text) : Z :=
  match s with
  | c :: s' => match digit_of base c with Some d => strtol_digits base (acc * base + d) s' | None => acc end
  | [] => acc
  end.

(** [strtol(s, NULL, base)] on digits: the result is the greatest [long] when it does not fit. *)
Definition strtol (base : Z) (s : text) : Z := Z.min (strtol_digits base 0 s) (2 ^ 63 - 1).

(** ** Requests *)

Record http_parser := mkHttpParser {
  cs : Z;
  body_start : nat;
  content_len : Z;
  nread : nat;
  mark : nat;
  field_start : nat;
  field_len : Z;
  query_start : nat;
  xml_sent : bool;
  json_sent : bool;
  uri_relaxed : bool
}.

Implicit Types q : http_parser.

Definition http_parser_error : Z := 0.
Definition http_parser_first_final : Z := 348.

(** [query_start] and [uri_relaxed] are not initialised: the arguments. *)
Definition http_parser_init (garbage : nat) (relaxed : bool) : http_parser :=
  mkHttpParser 1 0 0 0 0 0 0 garbage false false relaxed.

Definition set_cs v q := mkHttpParser v (body_start q) (content_len q) (nread q) (mark q) (field_start q) (field_len q)
  (query_start q) (xml_sent q) (json_sent q) (uri_relaxed q).
Definition set_body v len q := mkHttpParser (cs q) v len (nread q) (mark q) (field_start q) (field_len q)
  (query_start q) (xml_sent q) (json_sent q) (uri_relaxed q).
Definition set_nread v q := mkHttpParser (cs q) (body_start q) (content_len q) v (mark q) (field_start q) (field_len q)
  (query_start q) (xml_sent q) (json_sent q) (uri_relaxed q).
Definition set_mark v q := mkHttpParser (cs q) (body_start q) (content_len q) (nread q) v (field_start q) (field_len q)
  (query_start q) (xml_sent q) (json_sent q) (uri_relaxed q).
Definition set_field_start v q := mkHttpParser (cs q) (body_start q) (content_len q) (nread q) (mark q) v (field_len q)
  (query_start q) (xml_sent q) (json_sent q) (uri_relaxed q).
Definition set_field_len v q := mkHttpParser (cs q) (body_start q) (content_len q) (nread q) (mark q) (field_start q) v
  (query_start q) (xml_sent q) (json_sent q) (uri_relaxed q).
Definition set_query_start v q := mkHttpParser (cs q) (body_start q) (content_len q) (nread q) (mark q) (field_start q)
  (field_len q) v (xml_sent q) (json_sent q) (uri_relaxed q).
Definition set_sent xml json q := mkHttpParser (cs q) (body_start q) (content_len q) (nread q) (mark q) (field_start q)
  (field_len q) (query_start q) xml json (uri_relaxed q).

Record HttpRequestParser := mkRequestParser { req_parser : http_parser; req_data : HttpRequest; req_error : Z }.

Abbreviation MQ A := (M HttpRequestParser A).

Definition on_parser (f : http_parser → http_parser) : MQ unit :=
  modify (λ o, mkRequestParser (f (req_parser o)) (req_data o) (req_error o)).
Definition on_data (f : HttpRequest → HttpRequest) : MQ unit :=
  modify (λ o, mkRequestParser (req_parser o) (f (req_data o)) (req_error o)).
Definition setError (v : Z) : MQ unit := modify (λ o, mkRequestParser (req_parser o) (req_data o) v).

(** The constructor; [new HttpRequest] has version 1.1 and closes. *)
Definition new_HttpRequestParser (garbage : nat) (relaxed : bool) : HttpRequestParser :=
  mkRequestParser (http_parser_init garbage relaxed) (new_HttpRequest 17 true) 0.

(** *** The callbacks *)

Definition on_request_method (at_ : text) : MQ unit :=
  let m := CharsToHttpMethod at_ in
  if decide (m = INVALID_METHOD) then setError 1000 else on_data (setMethod m).

Definition on_request_fragment (s : text) : MQ unit := on_data (setFragment s).
Definition on_request_path (s : text) : MQ unit := on_data (setPath s).
Definition on_request_query (s : text) : MQ unit := on_data (setQuery s).

Definition on_request_version (at_ : text) (length : Z) : MQ unit :=
  if strncmp_eq at_ (str "HTTP/1.1") (Z.to_nat length) then on_data (setVersion 17)
  else if strncmp_eq at_ (str "HTTP/1.0") (Z.to_nat length) then on_data (setVersion 16)
  else setError 1001.

Definition on_request_http_field (flen : Z) (field value : MQ text) : MQ unit :=
  if flen =? 0 then mret tt
  else f ← field; v ← value; on_data (setHeader f v).

(** *** The actions, [p] being the position in the buffer *)

Definition http_act (buffer : text) (p : nat) (a : http_action) : MQ unit :=
  o ← gets id;
  let q := req_parser o in
  match a with
  | act_mark | act_start_value => on_parser (set_mark p)
  | act_start_field => on_parser (set_field_start p)
  | act_write_field => on_parser (set_field_len (LEN (field_start q) p))
  | act_write_value =>
      on_request_http_field (field_len q) (std_string buffer (field_start q) (field_len q))
        (std_string buffer (mark q) (LEN (mark q) p))
  | act_request_method => on_request_method (drop (mark q) buffer)
  | act_request_uri => mret tt
  | act_fragment => s ← std_string buffer (mark q) (LEN (mark q) p); on_request_fragment s
  | act_start_query => on_parser (set_query_start p)
  | act_query_string => s ← std_string buffer (query_start q) (LEN (query_start q) p); on_request_query s
  | act_http_version => on_request_version (drop (mark q) buffer) (LEN (mark q) p)
  | act_request_path => s ← std_string buffer (mark q) (LEN (mark q) p); on_request_path s
  | act_done =>
      if xml_sent q || json_sent q then on_parser (set_body (mark q) (LEN (mark q) p + 1))
      else on_parser (set_body (p + 1) (content_len q))
  | act_xml => on_parser (set_sent true (json_sent q))
  | act_json => on_parser (set_sent (xml_sent q) true)
  end.

Definition http_stops (a : http_action) : bool := bool_decide (a = act_done).

(** [http_parser_execute(parser, buffer, len, 0)] *)
Definition http_parser_execute (buffer : text) : MQ nat :=
  if decide (buffer = []) then mret 0%nat
  else
    let len := length buffer in
    on_parser (λ q, set_field_start 0 (set_field_len 0 (set_mark 0 (set_nread 0 q)))) ;;
    o ← gets id;
    r ← run_machine http_parser_row (uri_relaxed (req_parser o)) (http_act buffer) http_stops buffer 0 (cs (req_parser o));
    (if cs (req_parser o) =? http_parser_error then mret tt else on_parser (set_cs (r : Z * nat).1)) ;;
    on_parser (set_nread r.2) ;;
    o ← gets id;
    assert_that (nread (req_parser o) <=? len)%nat ;;
    assert_that (body_start (req_parser o) <=? len)%nat ;;
    assert_that (mark (req_parser o) <? len)%nat ;;
    assert_that (field_len (req_parser o) <=? Z.of_nat len) ;;
    assert_that (field_start (req_parser o) <? len)%nat ;;
    mret r.2.

(** [execute]: what was parsed, and the buffer after the [memmove]. *)
Definition request_execute (data : text) : MQ (nat * text) :=
  offset ← http_parser_execute data; mret (offset, drop offset data).

Definition request_isFinished (o : HttpRequestParser) : Z :=
  if cs (req_parser o) =? http_parser_error then -1
  else if http_parser_first_final <=? cs (req_parser o) then 1 else 0.

Definition request_hasError (o : HttpRequestParser) : bool :=
  negb (req_error o =? 0) || (cs (req_parser o) =? http_parser_error).

(** [getHeaderAs<uint64_t>("content-length", 0)], [cast] being [boost::lexical_cast]. *)
Definition request_getContentLength (cast : text → option Z) (o : HttpRequestParser) : Z :=
  getAs cast (m_headers (req_data o)) (str "content-length") 0.

(** ** Responses *)

Record httpclient_parser := mkClientParser {
  c_cs : Z;
  c_body_start : nat;
  c_content_len : Z;
  c_status : Z;
  c_chunked : bool;
  c_chunks_done : bool;
  c_close : bool;
  c_nread : nat;
  c_mark : nat;
  c_field_start : nat;
  c_field_len : Z
}.

Implicit Types c : httpclient_parser.

Definition httpclient_parser_error : Z := 0.
Definition httpclient_parser_first_final : Z := 120.

(** [httpclient_parser_init]: everything but the status. *)
Definition httpclient_parser_init (status : Z) : httpclient_parser :=
  mkClientParser 1 0 (-1) status false false false 0 0 0 0.

Definition set_c_cs v c := mkClientParser v (c_body_start c) (c_content_len c) (c_status c) (c_chunked c) (c_chunks_done c)
  (c_close c) (c_nread c) (c_mark c) (c_field_start c) (c_field_len c).
Definition set_c_body_start v c := mkClientParser (c_cs c) v (c_content_len c) (c_status c) (c_chunked c) (c_chunks_done c)
  (c_close c) (c_nread c) (c_mark c) (c_field_start c) (c_field_len c).
Definition set_c_content_len v c := mkClientParser (c_cs c) (c_body_start c) v (c_status c) (c_chunked c) (c_chunks_done c)
  (c_close c) (c_nread c) (c_mark c) (c_field_start c) (c_field_len c).
Definition set_c_status v c := mkClientParser (c_cs c) (c_body_start c) (c_content_len c) v (c_chunked c) (c_chunks_done c)
  (c_close c) (c_nread c) (c_mark c) (c_field_start c) (c_field_len c).
Definition set_c_chunked v c := mkClientParser (c_cs c) (c_body_start c) (c_content_len c) (c_status c) v (c_chunks_done c)
  (c_close c) (c_nread c) (c_mark c) (c_field_start c) (c_field_len c).
Definition set_c_chunks_done v c := mkClientParser (c_cs c) (c_body_start c) (c_content_len c) (c_status c) (c_chunked c) v
  (c_close c) (c_nread c) (c_mark c) (c_field_start c) (c_field_len c).
Definition set_c_close v c := mkClientParser (c_cs c) (c_body_start c) (c_content_len c) (c_status c) (c_chunked c)
  (c_chunks_done c) v (c_nread c) (c_mark c) (c_field_start c) (c_field_len c).
Definition set_c_nread v c := mkClientParser (c_cs c) (c_body_start c) (c_content_len c) (c_status c) (c_chunked c)
  (c_chunks_done c) (c_close c) v (c_mark c) (c_field_start c) (c_field_len c).
Definition set_c_mark v c := mkClientParser (c_cs c) (c_body_start c) (c_content_len c) (c_status c) (c_chunked c)
  (c_chunks_done c) (c_close c) (c_nread c) v (c_field_start c) (c_field_len c).
Definition set_c_field_start v c := mkClientParser (c_cs c) (c_body_start c) (c_content_len c) (c_status c) (c_chunked c)
  (c_chunks_done c) (c_close c) (c_nread c) (c_mark c) v (c_field_len c).
Definition set_c_field_len v c := mkClientParser (c_cs c) (c_body_start c) (c_content_len c) (c_status c) (c_chunked c)
  (c_chunks_done c) (c_close c) (c_nread c) (c_mark c) (c_field_start c) v.

Record HttpResponseParser := mkResponseParser { rsp_parser : httpclient_parser; rsp_data : HttpResponse; rsp_error : Z }.

Abbreviation MP A := (M HttpResponseParser A).

Definition on_client (f : httpclient_parser → httpclient_parser) : MP unit :=
  modify (λ o, mkResponseParser (f (rsp_parser o)) (rsp_data o) (rsp_error o)).
Definition on_response (f : HttpResponse → HttpResponse) : MP unit :=
  modify (λ o, mkResponseParser (rsp_parser o) (f (rsp_data o)) (rsp_error o)).
Definition rsp_setError (v : Z) : MP unit := modify (λ o, mkResponseParser (rsp_parser o) (rsp_data o) v).

Definition new_HttpResponseParser (garbage : Z) : HttpResponseParser :=
  mkResponseParser (httpclient_parser_init garbage) (new_HttpResponse 17 true) 0.

(** *** The callbacks *)

Definition on_response_reason (s : text) : MP unit := on_response (rsp_setReason s).
Definition on_response_status (at_ : text) : MP unit := on_response (rsp_setStatus (atoi at_)).

Definition on_response_version (at_ : text) (length : Z) : MP unit :=
  if strncmp_eq at_ (str "HTTP/1.1") (Z.to_nat length) then on_response (rsp_setVersion 17)
  else if strncmp_eq at_ (str "HTTP/1.0") (Z.to_nat length) then on_response (rsp_setVersion 16)
  else rsp_setError 1001.

Definition on_response_http_field (flen : Z) (field value : MP text) : MP unit :=
  if flen =? 0 then mret tt
  else f ← field; v ← value; on_response (rsp_setHeader f v).

(** *** The actions *)

Definition client_act (buffer : text) (p : nat) (a : client_action) : MP unit :=
  o ← gets id;
  let c := rsp_parser o in
  match a with
  | cl_mark | cl_start_value => on_client (set_c_mark p)
  | cl_start_field => on_client (set_c_field_start p)
  | cl_write_field => on_client (set_c_field_len (LEN (c_field_start c) p))
  | cl_write_content_len => on_client (set_c_content_len (long_to_int (strtol 10 (drop (c_mark c) buffer))))
  | cl_write_connection_close => on_client (set_c_close true)
  | cl_write_value =>
      on_response_http_field (c_field_len c) (std_string buffer (c_field_start c) (c_field_len c))
        (std_string buffer (c_mark c) (LEN (c_mark c) p))
  | cl_reason_phrase => s ← std_string buffer (c_mark c) (LEN (c_mark c) p); on_response_reason s
  | cl_status_code =>
      on_client (set_c_status (long_to_int (strtol 10 (drop (c_mark c) buffer)))) ;;
      on_response_status (drop (c_mark c) buffer)
  | cl_http_version => on_response_version (drop (c_mark c) buffer) (LEN (c_mark c) p)
  | cl_chunk_size =>
      let len := long_to_int (strtol 16 (drop (c_mark c) buffer)) in
      on_client (λ c, set_c_chunks_done (len <=? 0) (set_c_content_len len (set_c_chunked true c)))
  | cl_trans_chunked => on_client (set_c_chunked true)
  | cl_done => on_client (set_c_body_start (p + 1))
  end.

Definition client_stops (a : client_action) : bool := bool_decide (a = cl_done).

(** [httpclient_parser_execute]: -1 when a check fails. *)
Definition httpclient_parser_execute (buffer : text) : MP Z :=
  let len := length buffer in
  on_client (λ c, set_c_field_start 0 (set_c_field_len 0 (set_c_mark 0 (set_c_nread 0 c)))) ;;
  o ← gets id;
  r ← run_machine httpclient_parser_row false (client_act buffer) client_stops buffer 0 (c_cs (rsp_parser o));
  on_client (λ c, set_c_nread (r : Z * nat).2 (set_c_cs r.1 c)) ;;
  o ← gets id;
  let c := rsp_parser o in
  assert_that (r.2 <=? len)%nat ;;
  assert_that (c_nread c <=? len)%nat ;;
  assert_that (c_body_start c <=? len)%nat ;;
  if (c_mark c <? len)%nat && (c_field_len c <=? Z.of_nat len) && (c_field_start c <? len)%nat then mret (Z.of_nat r.2)
  else mret (-1).

(** [execute]: a negative result makes the [memmove] leave the buffer. *)
Definition response_execute (data : text) (chunck : bool) : MP (nat * text) :=
  (if chunck then on_client (λ c, httpclient_parser_init (c_status c)) else mret tt) ;;
  offset ← httpclient_parser_execute data;
  if offset <? 0 then fail BadPointer else mret (Z.to_nat offset, drop (Z.to_nat offset) data).

Definition response_hasError (o : HttpResponseParser) : bool :=
  negb (rsp_error o =? 0) || (c_cs (rsp_parser o) =? httpclient_parser_error).

(** [httpclient_parser_is_finished] compares with [==]. *)
Definition response_isFinished (o : HttpResponseParser) : Z :=
  if c_cs (rsp_parser o) =? httpclient_parser_error then -1
  else if c_cs (rsp_parser o) =? httpclient_parser_first_final then 1 else 0.

Definition response_getContentLength (cast : text → option Z) (o : HttpResponseParser) : Z :=
  getAs cast (rsp_headers (rsp_data o)) (str "content-length") 0.
