(* ===== verification/HttpRequestFacts.v ===== *)
(** * HttpRequestFacts: the text of a request through its parser

    The parts of the text that [dump] writes, one lemma each: the method, the
    path, the query, the fragment, the version, a header line, the empty line.
    Each says from which states of the automaton to which, and what the
    callbacks set. *)

From S2P Require Import Prelude.
From S2P Require Export HttpParser.

(** ** Classes of characters *)

Definition byte_in (l : text) (c : ascii) : bool := existsb (λ x, bool_decide (x = c)) l.

Definition is_alnum (c : ascii) : bool :=
  let n := nat_of_ascii c in
  ((48 <=? n) && (n <=? 57) || (65 <=? n) && (n <=? 90) || (97 <=? n) && (n <=? 122))%nat.

(** [unreserved], [sub_delims], [":"] and ["@"] of the grammar. *)
Definition uri_char (c : ascii) : bool := is_alnum c || byte_in (str "-._~!$&'()*+,;=:@") c.
Definition path_char (c : ascii) : bool := uri_char c || bool_decide (c = "/"%char).
Definition query_char (c : ascii) : bool := path_char c || bool_decide (c = "?"%char).

Definition percent (c : ascii) : bool := bool_decide (c = "%"%char).

(** Characters of a class and escapes. *)
Fixpoint uri_text (ok : ascii → bool) (s : text) : bool :=
  match s with
  | [] => true
  | c :: s' =>
      if ok c then uri_text ok s'
      else match s' with
           | a :: b :: s'' => percent c && StringUtil.isxdigit a && StringUtil.isxdigit b && uri_text ok s''
           | _ => false
           end
  end.

(** An absolute path that does not begin with two slashes. *)
Definition path_ok (s : text) : bool :=
  match s with
  | c :: s' => bool_decide (c = "/"%char) && uri_text path_char s' && negb (bool_decide (head s' = Some "/"%char))
  | [] => false
  end.

(** The printable characters of [token]. *)
Definition token_char (c : ascii) : bool := is_alnum c || byte_in (str "!#$%&'*+-.^_`|~") c.

Definition value_char (c : ascii) : bool := negb (byte_in [nul; "010"; "013"; "127"]%char c).
Definition blank_char (c : ascii) : bool := byte_in ["009"; "011"; "012"; " "]%char c.

Definition name_ok (k : text) : bool := forallb token_char k && negb (bool_decide (k = [])).
Definition value_ok (v : text) : bool :=
  forallb value_char v && match v with c :: _ => negb (blank_char c) | [] => true end.

Lemma forallb_Forall {A} (f : A → bool) l : forallb f l = true ↔ Forall (λ c, f c = true) l.
Proof. rewrite forallb_forall, Forall_forall. by setoid_rewrite list_elem_of_In. Qed.

(** ** Pieces of the buffer *)

Lemma std_string_piece {S} (pre w rest : text) (o : S) :
  std_string (pre ++ w ++ rest) (length pre) (LEN (length pre) (length pre + length w)) o = Ok (w, o).
Proof.
  unfold std_string, LEN. destruct (Z.ltb_spec (Z.of_nat (length pre + length w) - Z.of_nat (length pre)) 0); [lia|].
  replace (Z.to_nat _) with (length w) by lia. by rewrite drop_app_length, take_app_length.
Qed.

(** ** Scanning a URI *)

Section uri.
Context {A S : Type} (row : Z → list (edge A)) (relaxed : bool) (act : nat → A → M S unit) (stops : A → bool).
Implicit Types (w : text) (o : S).

Lemma scan_cons (from to_ : list Z) cls acts c w p s o : moves row relaxed stops from cls acts to_ →
  s ∈ from → cls c = true →
  ∃ l t, acts l = true ∧ t ∈ to_ ∧
    ∀ o', for_each l (act p) o = Ok (tt, o') →
      scan row relaxed act stops (c :: w) p s o = scan row relaxed act stops w (p + 1) t o'.
Proof.
  intros Hm Hs Hc. destruct (moves_edge _ _ _ _ _ _ _ _ _ Hm Hs Hc) as (e & He & Ha & Hst & Ht).
  exists (edge_actions e), (edge_target e). split_and!; [done|done|]. intros o' E1. cbn [scan].
  rewrite He, (bind_run _ _ _ _ _ E1), Hst. done.
Qed.

Lemma scan_silent (from to_ : list Z) cls c w p s o : moves row relaxed stops from cls silent to_ →
  s ∈ from → cls c = true →
  ∃ t, t ∈ to_ ∧ scan row relaxed act stops (c :: w) p s o = scan row relaxed act stops w (p + 1) t o.
Proof.
  intros Hm Hs Hc. destruct (scan_cons _ _ _ _ _ w p _ o Hm Hs Hc) as (l & t & Hl & Ht & Hr).
  destruct l; [|done]. exists t. split; [done|]. by apply Hr.
Qed.

Context (from mid1 mid2 : list Z) (ok : ascii → bool).
Context (Hok : moves row relaxed stops from ok silent from).
Context (H1 : moves row relaxed stops from percent silent mid1).
Context (H2 : moves row relaxed stops mid1 StringUtil.isxdigit silent mid2).
Context (H3 : moves row relaxed stops mid2 StringUtil.isxdigit silent from).

Lemma scan_uri n w p s o : (length w <= n)%nat → uri_text ok w = true → s ∈ from →
  ∃ t, t ∈ from ∧ scan row relaxed act stops w p s o = Ok (t, o).
Proof.
  revert w p s. induction n as [|n IH]; intros [|c w] p s Hn Hw Hs; [by exists s|simpl in Hn; lia|by exists s|].
  cbn [uri_text length] in Hw, Hn. destruct (ok c) eqn:Hc.
  - destruct (scan_silent _ _ _ _ w p _ o Hok Hs Hc) as (t & Ht & ->). apply IH; [lia|done|done].
  - destruct w as [|a [|b w]]; [done|done|]. cbn [length] in Hn.
    apply andb_true_iff in Hw as [[[Hp Ha]%andb_true_iff Hb]%andb_true_iff Hw].
    destruct (scan_silent _ _ _ _ (a :: b :: w) p _ o H1 Hs Hp) as (t1 & Ht1 & ->).
    destruct (scan_silent _ _ _ _ (b :: w) (p + 1) _ o H2 Ht1 Ha) as (t2 & Ht2 & ->).
    destruct (scan_silent _ _ _ _ w (p + 1 + 1) _ o H3 Ht2 Hb) as (t3 & Ht3 & ->).
    apply IH; [lia|done|done].
Qed.

(** The same from a state whose first character runs the actions [l]. *)
Context `{EqDecision A} (entry : list Z) (ok1 : ascii → bool) (l : list A).
Context (Hok1 : moves row relaxed stops entry ok1 (exactly l) from).
Context (H1' : moves row relaxed stops entry percent (exactly l) mid1).

Lemma scan_uri_entry w p s o o' : uri_text ok w = true → w ≠ [] → s ∈ entry →
  (∀ c, head w = Some c → ok c = true → ok1 c = true) → for_each l (act p) o = Ok (tt, o') →
  ∃ t, t ∈ from ∧ scan row relaxed act stops w p s o = Ok (t, o').
Proof.
  destruct w as [|c w]; [done|]. intros Hw _ Hs Hhd Hl. cbn [uri_text] in Hw. destruct (ok c) eqn:Hc.
  - destruct (scan_cons _ _ _ _ _ w p _ o Hok1 Hs (Hhd c eq_refl Hc)) as (l' & t & ->%bool_decide_eq_true & Ht & Hr).
    rewrite (Hr _ Hl). by eapply scan_uri.
  - destruct w as [|a [|b w]]; [done|done|].
    apply andb_true_iff in Hw as [[[Hp Ha]%andb_true_iff Hb]%andb_true_iff Hw].
    destruct (scan_cons _ _ _ _ _ (a :: b :: w) p _ o H1' Hs Hp) as (l' & t1 & ->%bool_decide_eq_true & Ht1 & Hr).
    rewrite (Hr _ Hl).
    destruct (scan_silent _ _ _ _ (b :: w) (p + 1) _ o' H2 Ht1 Ha) as (t2 & Ht2 & ->).
    destruct (scan_silent _ _ _ _ w (p + 1 + 1) _ o' H3 Ht2 Hb) as (t3 & Ht3 & ->). by eapply scan_uri.
Qed.
End uri.

(** ** The tables *)

Abbreviation req_moves relaxed := (moves http_parser_row relaxed http_stops).

Lemma path_moves relaxed :
  req_moves relaxed [26] path_char silent [26] ∧ req_moves relaxed [26] percent silent [27] ∧
  req_moves relaxed [27] StringUtil.isxdigit silent [28] ∧
  req_moves relaxed [28] StringUtil.isxdigit silent [26] ∧
  req_moves relaxed [33] uri_char (exactly []) [26] ∧
  req_moves relaxed [33] percent (exactly []) [27].
Proof. destruct relaxed; split_and!; constructor; by vm_compute. Qed.

Lemma query_moves relaxed :
  req_moves relaxed [30] query_char silent [30] ∧ req_moves relaxed [30] percent silent [31] ∧
  req_moves relaxed [31] StringUtil.isxdigit silent [32] ∧
  req_moves relaxed [32] StringUtil.isxdigit silent [30] ∧
  req_moves relaxed [29] query_char (exactly [act_start_query]) [30] ∧
  req_moves relaxed [29] percent (exactly [act_start_query]) [31].
Proof. destruct relaxed; split_and!; constructor; by vm_compute. Qed.

Lemma fragment_moves relaxed :
  req_moves relaxed [21] query_char silent [21] ∧ req_moves relaxed [21] percent silent [22] ∧
  req_moves relaxed [22] StringUtil.isxdigit silent [23] ∧
  req_moves relaxed [23] StringUtil.isxdigit silent [21] ∧
  req_moves relaxed [20] query_char (exactly [act_mark]) [21] ∧
  req_moves relaxed [20] percent (exactly [act_mark]) [22].
Proof. destruct relaxed; split_and!; constructor; by vm_compute. Qed.

(** ** The parts of a request *)

Definition method_ok (m : HttpMethod) : bool :=
  negb (bool_decide (m = INVALID_METHOD)) && negb (bool_decide (m = MSEARCH)).

(** What a part of the text does to the object: the data it sets, nothing else that matters. *)
Definition becomes (o : HttpRequestParser) (f : HttpRequest → HttpRequest) (o' : HttpRequestParser) : Prop :=
  req_data o' = f (req_data o) ∧ req_error o' = req_error o.

Section parts.
Context (relaxed : bool).
Implicit Types (o : HttpRequestParser) (buffer pre w rest : text).

Abbreviation req_scan buffer := (scan http_parser_row relaxed (http_act buffer) http_stops).

Lemma method_part m buffer rest o : method_ok m = true → buffer = HttpMethodToString m ++ str " " ++ rest →
  ∃ o', req_scan buffer (HttpMethodToString m ++ str " ") 0 1 o = Ok (3, o') ∧ becomes o (setMethod m) o'.
Proof.
  intros Hm ->. eexists (mkRequestParser (set_mark 0 (req_parser o)) (setMethod m (req_data o)) (req_error o)).
  split; [|done]. destruct o as [q d e]. destruct m; try done; vm_compute; reflexivity.
Qed.

(** The last character of the path, the query or the fragment. *)
Definition on_char (x c : ascii) : bool := bool_decide (c = x).

Lemma path_end_moves :
  req_moves relaxed [26; 33] (on_char " ") (exactly [act_request_path; act_request_uri]) [4] ∧
  req_moves relaxed [26; 33] (on_char "#") (exactly [act_request_path; act_request_uri]) [20] ∧
  req_moves relaxed [26; 33] (on_char "?") (exactly [act_request_path]) [29] ∧
  req_moves relaxed [30] (on_char " ") (exactly [act_query_string; act_request_uri]) [4] ∧
  req_moves relaxed [30] (on_char "#") (exactly [act_query_string; act_request_uri]) [20] ∧
  req_moves relaxed [21] (on_char " ") (exactly [act_fragment]) [4] ∧
  req_moves relaxed [3] (on_char "/") (exactly [act_mark]) [33].
Proof. destruct relaxed; split_and!; constructor; by vm_compute. Qed.

(** One character whose actions are known. *)
Lemma scan_char (from : list Z) x l t buffer w p s o o' :
  req_moves relaxed from (on_char x) (exactly l) [t] → s ∈ from →
  for_each l (http_act buffer p) o = Ok (tt, o') →
  req_scan buffer (x :: w) p s o = req_scan buffer w (p + 1) t o'.
Proof.
  intros Hm Hs Hl.
  destruct (scan_cons http_parser_row relaxed (http_act buffer) http_stops from [t] _ _ x w p s o Hm Hs)
    as (l' & t' & ->%bool_decide_eq_true & Ht & Hr); [by apply bool_decide_eq_true|].
  apply list_elem_of_singleton in Ht as ->. by apply Hr.
Qed.

(** The piece of the buffer from the mark on. *)
Lemma marked_piece pre w rest o : mark (req_parser o) = length pre →
  std_string (pre ++ w ++ rest) (mark (req_parser o))
    (LEN (mark (req_parser o)) (length pre + length w)) o = Ok (w, o).
Proof. intros ->. apply std_string_piece. Qed.

Lemma path_part pre path c rest o : path_ok path = true → c ∈ [" "; "?"; "#"]%char →
  ∃ o', req_scan (pre ++ path ++ c :: rest) (path ++ [c]) (length pre) 3 o =
      Ok (if decide (c = " "%char) then 4 else if decide (c = "?"%char) then 29 else 20, o') ∧
    becomes o (setPath path) o'.
Proof.
  intros Hp Hc. destruct path_end_moves as (Hsp & Hhash & Hq & _ & _ & _ & Hslash).
  set (buffer := pre ++ path ++ c :: rest).
  set (o1 := mkRequestParser (set_mark (length pre) (req_parser o)) (req_data o) (req_error o)).
  assert (Hscan : ∃ t, t ∈ [26; 33] ∧ req_scan buffer path (length pre) 3 o = Ok (t, o1)).
  { destruct path as [|c0 w]; [done|]. simpl in Hp.
    apply andb_true_iff in Hp as [[->%bool_decide_eq_true Hw]%andb_true_iff Hhd].
    apply negb_true_iff, bool_decide_eq_false in Hhd.
    rewrite (scan_char [3] "/" [act_mark] 33 buffer w (length pre) 3 o o1 Hslash) by (done || by left).
    destruct w as [|x w]; [by exists 33; split; [right; left|]|].
    destruct (path_moves relaxed) as (M1 & M2 & M3 & M4 & M5 & M6).
    destruct (scan_uri_entry http_parser_row relaxed (http_act buffer) http_stops [26] [27] [28] path_char M1 M2 M3 M4
      [33] uri_char [] M5 M6 (x :: w) (length pre + 1) 33 o1 o1) as (t & Ht & E1); [done|done|by left| |done|].
    - intros y [= <-] Hy. unfold path_char in Hy. apply orb_true_iff in Hy as [Hy|Hy%bool_decide_eq_true]; [done|].
      by subst.
    - exists t. split; [|done]. apply list_elem_of_singleton in Ht as ->. by left. }
  destruct Hscan as (t & Ht & E1).
  set (o2 := mkRequestParser (req_parser o1) (setPath path (req_data o)) (req_error o)).
  exists o2. split; [|done]. eapply scan_app; [exact E1|].
  assert (Hact : http_act buffer (length pre + length path) act_request_path o1 = Ok (tt, o2)).
  { unfold http_act. run gets_run. unfold id. run marked_piece. done. }
  assert (Hact2 : for_each [act_request_path; act_request_uri] (http_act buffer (length pre + length path)) o1 = Ok (tt, o2)).
  { cbn [for_each]. by rewrite (bind_run _ _ _ _ _ Hact). }
  assert (Hact1 : for_each [act_request_path] (http_act buffer (length pre + length path)) o1 = Ok (tt, o2)).
  { cbn [for_each]. by rewrite (bind_run _ _ _ _ _ Hact). }
  rewrite !elem_of_cons in Hc. destruct Hc as [-> | [-> | [-> | Hn]]]; [| | |by apply not_elem_of_nil in Hn].
  - by rewrite (scan_char _ _ _ _ _ [] _ _ _ _ Hsp Ht Hact2).
  - by rewrite (scan_char _ _ _ _ _ [] _ _ _ _ Hq Ht Hact1).
  - by rewrite (scan_char _ _ _ _ _ [] _ _ _ _ Hhash Ht Hact2).
Qed.
(** Running one action after another. *)
Lemma acts_one buffer p a o o' : http_act buffer p a o = Ok (tt, o') → for_each [a] (http_act buffer p) o = Ok (tt, o').
Proof. intros Ha. cbn [for_each]. by rewrite (bind_run _ _ _ _ _ Ha). Qed.

Lemma acts_two buffer p a b o o1 o' : http_act buffer p a o = Ok (tt, o1) → http_act buffer p b o1 = Ok (tt, o') →
  for_each [a; b] (http_act buffer p) o = Ok (tt, o').
Proof. intros Ha Hb. cbn [for_each]. rewrite (bind_run _ _ _ _ _ Ha), (bind_run _ _ _ _ _ Hb). done. Qed.

Lemma query_part pre query c rest o : uri_text query_char query = true → query ≠ [] → c ∈ [" "; "#"]%char →
  ∃ o', req_scan (pre ++ query ++ c :: rest) (query ++ [c]) (length pre) 29 o =
      Ok (if decide (c = " "%char) then 4 else 20, o') ∧ becomes o (setQuery query) o'.
Proof.
  intros Hw Hne Hc. destruct path_end_moves as (_ & _ & _ & Hsp & Hhash & _ & _).
  set (buffer := pre ++ query ++ c :: rest).
  set (o1 := mkRequestParser (set_query_start (length pre) (req_parser o)) (req_data o) (req_error o)).
  set (o2 := mkRequestParser (req_parser o1) (setQuery query (req_data o)) (req_error o)).
  destruct (query_moves relaxed) as (M1 & M2 & M3 & M4 & M5 & M6).
  destruct (scan_uri_entry http_parser_row relaxed (http_act buffer) http_stops [30] [31] [32] query_char M1 M2 M3 M4
    [29] query_char [act_start_query] M5 M6 query (length pre) 29 o o1) as (t & Ht & E1);
    [done|done|by left|done|by apply acts_one|].
  exists o2. split; [|done]. eapply scan_app; [exact E1|].
  assert (Hact : for_each [act_query_string; act_request_uri] (http_act buffer (length pre + length query)) o1 = Ok (tt, o2)).
  { apply (acts_two _ _ _ _ _ o2); [|done]. unfold http_act. run gets_run. unfold id. change (query_start (req_parser o1)) with (length pre).
    run std_string_piece. done. }
  rewrite !elem_of_cons in Hc. destruct Hc as [-> | [-> | Hn]]; [| |by apply not_elem_of_nil in Hn].
  - by rewrite (scan_char _ _ _ _ _ [] _ _ _ _ Hsp Ht Hact).
  - by rewrite (scan_char _ _ _ _ _ [] _ _ _ _ Hhash Ht Hact).
Qed.

Lemma fragment_part pre fragment rest o : uri_text query_char fragment = true → fragment ≠ [] →
  ∃ o', req_scan (pre ++ fragment ++ " "%char :: rest) (fragment ++ [" "%char]) (length pre) 20 o = Ok (4, o') ∧
    becomes o (setFragment fragment) o'.
Proof.
  intros Hw Hne. destruct path_end_moves as (_ & _ & _ & _ & _ & Hsp & _).
  set (buffer := pre ++ fragment ++ " "%char :: rest).
  set (o1 := mkRequestParser (set_mark (length pre) (req_parser o)) (req_data o) (req_error o)).
  set (o2 := mkRequestParser (req_parser o1) (setFragment fragment (req_data o)) (req_error o)).
  destruct (fragment_moves relaxed) as (M1 & M2 & M3 & M4 & M5 & M6).
  destruct (scan_uri_entry http_parser_row relaxed (http_act buffer) http_stops [21] [22] [23] query_char M1 M2 M3 M4
    [20] query_char [act_mark] M5 M6 fragment (length pre) 20 o o1) as (t & Ht & E1);
    [done|done|by left|done|by apply acts_one|].
  exists o2. split; [|done]. eapply scan_app; [exact E1|].
  assert (Hact : for_each [act_fragment] (http_act buffer (length pre + length fragment)) o1 = Ok (tt, o2)).
  { apply acts_one. unfold http_act. run gets_run. unfold id. run marked_piece. done. }
  by rewrite (scan_char _ _ _ _ _ [] _ _ _ _ Hsp Ht Hact).
Qed.

(** The version and the end of the request line. *)
Lemma version_moves :
  req_moves relaxed [4] (on_char "H") (exactly [act_mark]) [5] ∧
  req_moves relaxed [12] (on_char "013") (exactly [act_http_version]) [17] ∧
  req_moves relaxed [17] (on_char newline) (exactly []) [13].
Proof. destruct relaxed; split_and!; constructor; by vm_compute. Qed.

Lemma version_part pre v rest o : v = 16 ∨ v = 17 →
  ∃ o', req_scan (pre ++ (str "HTTP/" ++ version_text v) ++ crlf ++ rest) ((str "HTTP/" ++ version_text v) ++ crlf)
      (length pre) 4 o = Ok (13, o') ∧ becomes o (setVersion v) o'.
Proof.
  intros Hv. destruct version_moves as (Hh & Hcr & Hlf).
  set (buffer := pre ++ (str "HTTP/" ++ version_text v) ++ crlf ++ rest).
  set (o1 := mkRequestParser (set_mark (length pre) (req_parser o)) (req_data o) (req_error o)).
  set (o2 := mkRequestParser (req_parser o1) (setVersion v (req_data o)) (req_error o)).
  exists o2. split; [|done].
  assert (E1 : req_scan buffer (str "HTTP/" ++ version_text v) (length pre) 4 o = Ok (12, o1)).
  { assert (Ew : ∃ w, str "HTTP/" ++ version_text v = "H"%char :: w ∧ ∀ p, req_scan buffer w p 5 o1 = Ok (12, o1)).
    { destruct Hv as [-> | ->]; eexists; (split; [reflexivity|]); intros p; reflexivity. }
    destruct Ew as (w & -> & Hr).
    by rewrite (scan_char [4] "H" [act_mark] 5 buffer w (length pre) 4 o o1 Hh ltac:(by left)). }
  eapply scan_app; [exact E1|].
  assert (Hact : for_each [act_http_version] (http_act buffer (length pre + length (str "HTTP/" ++ version_text v))) o1 = Ok (tt, o2)).
  { apply acts_one. unfold http_act. run gets_run. unfold id. change (mark (req_parser o1)) with (length pre).
    unfold buffer. rewrite drop_app_length. unfold on_request_version, LEN.
    replace (Z.to_nat _) with (length (str "HTTP/" ++ version_text v)) by lia. destruct Hv as [-> | ->]; reflexivity. }
  unfold crlf. rewrite (scan_char _ _ _ _ _ [newline] _ _ _ _ Hcr ltac:(by left) Hact).
  by rewrite (scan_char _ _ _ _ _ [] _ _ _ _ Hlf ltac:(by left) eq_refl).
Qed.
(** *** Header lines *)

Definition header_line (k v : text) : text := k ++ str ": " ++ v ++ crlf.

Definition first_value_char (c : ascii) : bool := value_char c && negb (blank_char c).

Lemma header_moves :
  req_moves relaxed [13] token_char (exactly [act_start_field]) [14] ∧
  req_moves relaxed [14] token_char silent [14] ∧
  req_moves relaxed [14] (on_char ":") (exactly [act_write_field]) [15] ∧
  req_moves relaxed [15] (on_char " ") (exactly [act_start_value]) [15] ∧
  req_moves relaxed [15] (on_char "013") (exactly [act_start_value; act_write_value]) [17] ∧
  req_moves relaxed [15] first_value_char (exactly [act_start_value]) [16] ∧
  req_moves relaxed [16] value_char silent [16] ∧
  req_moves relaxed [16] (on_char "013") (exactly [act_write_value]) [17] ∧
  req_moves relaxed [17] (on_char newline) (exactly []) [13] ∧
  req_moves relaxed [13] (on_char "013") (exactly [act_start_field]) [18].
Proof. destruct relaxed; split_and!; constructor; by vm_compute. Qed.

(** A name: where it starts and, after the colon, its length. *)
Lemma name_part buffer pre k o : name_ok k = true →
  req_scan buffer (k ++ [":"%char]) (length pre) 13 o =
    Ok (15, mkRequestParser (set_field_len (Z.of_nat (length k)) (set_field_start (length pre) (req_parser o)))
              (req_data o) (req_error o)).
Proof.
  intros [Hk Hne]%andb_true_iff. apply negb_true_iff, bool_decide_eq_false in Hne.
  destruct header_moves as (M1 & M2 & M3 & _). apply forallb_Forall in Hk.
  destruct k as [|c k]; [done|]. inversion Hk as [|? ? Hc Hk']; subst.
  set (o1 := mkRequestParser (set_field_start (length pre) (req_parser o)) (req_data o) (req_error o)).
  eapply (scan_app _ _ _ _ (c :: k) [":"%char] _ _ _ 14 o1).
  - destruct (scan_cons http_parser_row relaxed (http_act buffer) http_stops _ _ _ _ c k (length pre) _ o M1
      ltac:(by left) Hc) as (l & t & ->%bool_decide_eq_true & ->%list_elem_of_singleton & Hr).
    rewrite (Hr o1) by done.
    destruct (scan_loop http_parser_row relaxed (http_act buffer) http_stops [14] token_char k (length pre + 1) 14 o1
      M2 ltac:(by left) Hk') as (t & E1 & ->%list_elem_of_singleton). done.
  - rewrite (scan_char [14] ":" [act_write_field] 15 buffer [] _ 14 o1
      (mkRequestParser (set_field_len (Z.of_nat (length (c :: k))) (req_parser o1)) (req_data o) (req_error o)) M3
      ltac:(by left)); [done|].
    apply acts_one. unfold http_act. run gets_run. unfold id, on_parser, modify, LEN.
    change (field_start (req_parser o1)) with (length pre). by replace (Z.of_nat _ - _) with (Z.of_nat (length (c :: k))) by lia.
Qed.

(** A value and the line end after it: the callback gets both pieces. *)
Lemma value_part buffer pre k mid v rest o : value_ok v = true → k ≠ [] →
  buffer = pre ++ k ++ mid ++ v ++ crlf ++ rest →
  field_start (req_parser o) = length pre → field_len (req_parser o) = Z.of_nat (length k) →
  ∃ o', req_scan buffer (v ++ crlf) (length (pre ++ k ++ mid)) 15 o = Ok (13, o') ∧ becomes o (setHeader k v) o'.
Proof.
  intros Hv Hk Hb Hfs Hfl. destruct header_moves as (_ & _ & _ & _ & M5 & M6 & M7 & M8 & M9 & _).
  set (p := length (pre ++ k ++ mid)).
  set (o1 := mkRequestParser (set_mark p (req_parser o)) (req_data o) (req_error o)).
  set (o2 := mkRequestParser (req_parser o1) (setHeader k v (req_data o)) (req_error o)).
  exists o2. split; [|done].
  assert (Hact : http_act buffer (p + length v) act_write_value o1 = Ok (tt, o2)).
  { unfold http_act. run gets_run. unfold id. change (field_len (req_parser o1)) with (field_len (req_parser o)).
    change (field_start (req_parser o1)) with (field_start (req_parser o)). change (mark (req_parser o1)) with p.
    unfold on_request_http_field. rewrite Hfl, Hfs.
    destruct (Z.eqb_spec (Z.of_nat (length k)) 0) as [Hk0|_]; [by destruct k|].
    replace (Z.of_nat (length k)) with (LEN (length pre) (length pre + length k)) by (unfold LEN; lia).
    assert (Hb' : buffer = (pre ++ k ++ mid) ++ v ++ crlf ++ rest) by (by rewrite Hb, <- !app_assoc).
    rewrite Hb at 1. run std_string_piece. rewrite Hb'. unfold p. run std_string_piece. done. }
  assert (Hend : req_scan buffer [newline] (p + length v + 1) 17 o2 = Ok (13, o2)).
  { by rewrite (scan_char [17] newline [] 13 buffer [] _ 17 o2 o2 M9 ltac:(by left)). }
  apply andb_true_iff in Hv as [Hv Hhd]. destruct v as [|c v].
  - rewrite Nat.add_0_r in Hact, Hend.
    unfold crlf. cbn [app]. rewrite (scan_char [15] _ _ 17 buffer [newline] p 15 o o2 M5 ltac:(by left)); [done|].
    by apply (acts_two _ _ _ _ _ o1).
  - apply forallb_Forall in Hv. inversion Hv as [|? ? Hc Hv']; subst.
    eapply (scan_app _ _ _ _ (c :: v) crlf _ _ _ 16 o1).
    + destruct (scan_cons http_parser_row relaxed (http_act (pre ++ k ++ mid ++ (c :: v) ++ crlf ++ rest)) http_stops
        _ _ _ _ c v p _ o M6 ltac:(by left)) as (l & t & ->%bool_decide_eq_true & ->%list_elem_of_singleton & Hr).
      { unfold first_value_char. by rewrite Hc. }
      rewrite (Hr o1) by done.
      destruct (scan_loop http_parser_row relaxed (http_act (pre ++ k ++ mid ++ (c :: v) ++ crlf ++ rest)) http_stops
        [16] value_char v (p + 1) 16 o1 M7 ltac:(by left) Hv') as (t & E1 & ->%list_elem_of_singleton). done.
    + unfold crlf at 2.
      rewrite (scan_char [16] _ _ 17 _ [newline] _ 16 o1 o2 M8 ltac:(by left)); [done|]. by apply acts_one.
Qed.

Lemma header_part pre k v rest o : name_ok k = true → value_ok v = true →
  ∃ o', req_scan (pre ++ header_line k v ++ rest) (header_line k v) (length pre) 13 o = Ok (13, o') ∧
    becomes o (setHeader k v) o'.
Proof.
  intros Hk Hv. destruct header_moves as (_ & _ & _ & M4 & _).
  set (buffer := pre ++ header_line k v ++ rest).
  set (o1 := mkRequestParser (set_field_len (Z.of_nat (length k)) (set_field_start (length pre) (req_parser o)))
    (req_data o) (req_error o)).
  set (o2 := mkRequestParser (set_mark (length pre + length (k ++ [":"%char])) (req_parser o1)) (req_data o) (req_error o)).
  assert (Hne : k ≠ []) by (intros ->; done).
  destruct (value_part buffer pre k (str ": ") v rest o2) as (o' & E1 & Ho'); [done|done| |done|done|].
  { unfold buffer, header_line. by rewrite <- !app_assoc. }
  exists o'. split; [|exact Ho']. unfold header_line.
  replace (k ++ str ": " ++ v ++ crlf) with ((k ++ [":"%char]) ++ " "%char :: (v ++ crlf)) by by rewrite <- app_assoc.
  eapply scan_app; [by apply (name_part buffer pre k o)|].
  rewrite (scan_char [15] " " _ 15 buffer (v ++ crlf) _ 15 _ o2 M4 ltac:(by left)) by done.
  replace (length pre + length (k ++ [":"%char]) + 1)%nat with (length (pre ++ k ++ str ": ")); [done|].
  rewrite !length_app. simpl. lia.
Qed.

(** The empty line ends the parse. *)
Lemma end_part buffer pre body o :
  ∃ o', run_machine http_parser_row relaxed (http_act buffer) http_stops (crlf ++ body) (length pre) 13 o =
      Ok ((348, (length pre + 2)%nat), o') ∧ becomes o id o'.
Proof.
  destruct header_moves as (_ & _ & _ & _ & _ & _ & _ & _ & _ & M10).
  set (o1 := mkRequestParser (set_field_start (length pre) (req_parser o)) (req_data o) (req_error o)).
  assert (E1 : req_scan buffer ["013"%char] (length pre) 13 o = Ok (18, o1)).
  { by rewrite (scan_char [13] _ _ 18 buffer [] _ 13 o o1 M10 ltac:(by left)). }
  change (crlf ++ body) with (["013"%char] ++ newline :: body).
  rewrite (scan_run _ _ _ _ _ _ _ _ _ _ _ E1). cbn [run_machine length].
  assert (Ee : find_edge relaxed (http_parser_row 18) newline = Some (E 10 10 [act_done] 348)) by (by destruct relaxed).
  rewrite Ee. change (edge_actions (E 10 10 [act_done] 348)) with [act_done]. change (existsb http_stops [act_done]) with true.
  cbv iota. assert (Hd : ∃ o', http_act buffer (length pre + 1) act_done o1 = Ok (tt, o') ∧ becomes o1 id o').
  { unfold http_act. run gets_run. unfold id, on_parser, modify. destruct (xml_sent _ || json_sent _); by eexists. }
  destruct Hd as (o' & Ed & Ho'). rewrite (bind_run _ _ _ _ _ (acts_one _ _ _ _ _ Ed)).
  exists o'. split; [|exact Ho']. change (edge_target (E 10 10 [act_done] 348)) with 348. unfold mret, M_ret. do 3 f_equal. lia.
Qed.
End parts.

(** ** A whole request *)

Lemma becomes_trans o f o1 g o2 : becomes o f o1 → becomes o1 g o2 → becomes o (λ d, g (f d)) o2.
Proof. intros [H1 H2] [H3 H4]. split; [by rewrite H3, H1|by rewrite H4]. Qed.

(** The target of the request line with the space after it. *)
Definition query_text (q : text) : text := if decide (q = []) then [] else str "?" ++ q.
Definition fragment_text (f : text) : text := if decide (f = []) then [] else str "#" ++ f.
Definition uri_of (path q f : text) : text := path ++ query_text q ++ fragment_text f ++ str " ".

Definition set_some (set : text → HttpRequest → HttpRequest) (v : text) (d : HttpRequest) : HttpRequest :=
  if decide (v = []) then d else set v d.

Section whole.
Context (relaxed : bool).
Implicit Types (o : HttpRequestParser) (buffer pre w rest : text) (r : HttpRequest).

Abbreviation req_scan buffer := (scan http_parser_row relaxed (http_act buffer) http_stops).

(** [w] at the end of [pre] takes the automaton from [s] to [t] and sets [f]. *)
Definition reads buffer pre w s o t f : Prop :=
  ∃ o', req_scan buffer w (length pre) s o = Ok (t, o') ∧ becomes o f o'.

Lemma reads_app buffer pre w1 w2 s o t f u g :
  reads buffer pre w1 s o t f → (∀ o1, becomes o f o1 → reads buffer (pre ++ w1) w2 t o1 u g) →
  reads buffer pre (w1 ++ w2) s o u (λ d, g (f d)).
Proof.
  intros (o1 & E1 & B1) H2. destruct (H2 o1 B1) as (o2 & E2 & B2). rewrite length_app in E2. exists o2.
  split; [by eapply scan_app|by eapply becomes_trans].
Qed.

Lemma fragment_reads buffer pre f rest o : buffer = pre ++ (f ++ str " ") ++ rest →
  uri_text query_char f = true → f ≠ [] → reads buffer pre (f ++ str " ") 20 o 4 (setFragment f).
Proof.
  intros -> Hf Hne. rewrite <- app_assoc. by apply fragment_part.
Qed.

Lemma query_reads buffer pre q f rest o : buffer = pre ++ (q ++ fragment_text f ++ str " ") ++ rest →
  uri_text query_char q = true → q ≠ [] → uri_text query_char f = true →
  reads buffer pre (q ++ fragment_text f ++ str " ") 29 o 4 (λ d, set_some setFragment f (setQuery q d)).
Proof.
  unfold fragment_text, set_some. intros Hb Hq Hne Hf. destruct (decide (f = [])) as [->|Hfe].
  - subst buffer. cbn [app]. rewrite <- app_assoc. exact (query_part relaxed pre q _ rest o Hq Hne ltac:(by left)).
  - assert (E1 : q ++ (str "#" ++ f) ++ str " " = (q ++ str "#") ++ f ++ str " ") by by rewrite <- !app_assoc.
    rewrite E1 in *. eapply reads_app.
    + assert (Hb' : buffer = pre ++ q ++ "#"%char :: (f ++ str " ") ++ rest) by by rewrite Hb, <- !app_assoc.
      rewrite Hb'. exact (query_part relaxed pre q "#" _ o Hq Hne ltac:(by right; left)).
    + intros o1 _. eapply fragment_reads; [by rewrite Hb, <- !app_assoc|done|done].
Qed.

(** Whatever the state from which the path is read. *)
Lemma uri_reads_from buffer pre path q f rest (s : Z) o : buffer = pre ++ uri_of path q f ++ rest →
  (∀ c rest, c ∈ [" "; "?"; "#"]%char → buffer = pre ++ path ++ c :: rest →
    reads buffer pre (path ++ [c]) s o (if decide (c = " "%char) then 4 else if decide (c = "?"%char) then 29 else 20) (setPath path)) →
  uri_text query_char q = true → uri_text query_char f = true →
  reads buffer pre (uri_of path q f) s o 4 (λ d, set_some setFragment f (set_some setQuery q (setPath path d))).
Proof.
  unfold uri_of, query_text. intros Hb Hp Hq Hf. destruct (decide (q = [])) as [->|Hqe].
  - unfold fragment_text in *. unfold set_some. cbn [decide list_eq_nil_dec app] in *.
    destruct (decide (f = [])) as [->|Hfe].
    + exact (Hp " "%char rest ltac:(by left) ltac:(by rewrite Hb, <- app_assoc)).
    + assert (E1 : path ++ (str "#" ++ f) ++ str " " = (path ++ str "#") ++ f ++ str " ") by by rewrite <- !app_assoc.
      rewrite E1 in *. eapply reads_app.
      * exact (Hp "#"%char ((f ++ str " ") ++ rest) ltac:(by right; right; left) ltac:(by rewrite Hb, <- !app_assoc)).
      * intros o1 _. eapply fragment_reads; [by rewrite Hb, <- !app_assoc|done|done].
  - assert (E1 : path ++ (str "?" ++ q) ++ fragment_text f ++ str " " = (path ++ str "?") ++ q ++ fragment_text f ++ str " ")
      by by rewrite <- !app_assoc.
    assert (E2 : ∀ d, set_some setQuery q d = setQuery q d) by (intros d; unfold set_some; by rewrite decide_False).
    rewrite E1 in *. eapply (reads_app _ _ _ _ _ _ _ _ _ (λ d, set_some setFragment f (set_some setQuery q d))).
    + exact (Hp "?"%char ((q ++ fragment_text f ++ str " ") ++ rest) ltac:(by right; left) ltac:(by rewrite Hb, <- !app_assoc)).
    + intros o1 _. destruct (query_reads buffer (pre ++ path ++ str "?") q f rest o1) as (o' & E & Ho');
        [by rewrite Hb, <- !app_assoc|done|done|done|]. exists o'. split; [done|].
      destruct Ho' as [H1 H2]. split; [by rewrite E2|done].
Qed.

Lemma uri_reads buffer pre path q f rest o : buffer = pre ++ uri_of path q f ++ rest →
  path_ok path = true → uri_text query_char q = true → uri_text query_char f = true →
  reads buffer pre (uri_of path q f) 3 o 4 (λ d, set_some setFragment f (set_some setQuery q (setPath path d))).
Proof.
  intros Hb Hp. apply (uri_reads_from _ _ _ _ _ rest); [exact Hb|]. intros c rest' Hc ->. by apply path_part.
Qed.

Definition add_lines (ls : MapType) (d : HttpRequest) : HttpRequest := foldl (λ d l, setHeader l.1 l.2 d) d ls.

Definition line_ok (l : text * text) : bool := name_ok l.1 && value_ok l.2.

Lemma headers_read buffer pre ls rest o : buffer = pre ++ (ls ≫= λ l, header_line l.1 l.2) ++ rest →
  forallb line_ok ls = true → reads buffer pre (ls ≫= λ l, header_line l.1 l.2) 13 o 13 (add_lines ls).
Proof.
  revert pre o. induction ls as [|[k v] ls IH]; intros pre o Hb Hls; [by exists o|].
  apply andb_true_iff in Hls as [[Hk Hv]%andb_true_iff Hls]. rewrite bind_cons in *.
  change (add_lines ((k, v) :: ls)) with (λ d, add_lines ls (setHeader k v d)). eapply reads_app.
  - rewrite Hb, <- app_assoc. by apply header_part.
  - intros o1 _. apply IH; [by rewrite Hb, <- !app_assoc|done].
Qed.

(** *** The text of a request, its head and its body *)

Definition request_line r : text :=
  (HttpMethodToString (m_method r) ++ str " ") ++ uri_of (m_path r) (m_query r) (m_fragment r) ++
  (str "HTTP/" ++ version_text (m_version r)) ++ crlf.

Definition is_connection (l : text * text) : bool := strcasecmp (c_str l.1) (str "connection") =? 0.

(** The lines that are sent after the request line. *)
Definition request_lines r : MapType :=
  (str "connection", if m_close r then str "close" else str "keep-alive") ::
  filter (λ l, is_connection l = false) (m_headers r) ++
  (if decide (m_body r = []) then [] else [(str "content-length", to_string (length (m_body r)))]).

Definition request_head r : text := request_line r ++ (request_lines r ≫= λ l, header_line l.1 l.2) ++ crlf.

Lemma header_lines_filter m :
  header_lines false m = (filter (λ l, is_connection l = false) m ≫= λ l, header_line l.1 l.2).
Proof.
  induction m as [|[k v] m IH]; [done|]. unfold header_lines. rewrite bind_cons, filter_cons.
  fold (header_lines false m). rewrite IH. cbn [negb andb fst].
  destruct (is_connection (k, v)) eqn:Hc; unfold is_connection in Hc; cbn [fst] in Hc; rewrite Hc.
  - by rewrite decide_False.
  - by rewrite decide_True, bind_cons.
Qed.

Lemma text_after (sep x rest : text) :
  (if decide (x = []) then [] else sep) ++ x ++ rest = (if decide (x = []) then [] else sep ++ x) ++ rest.
Proof. destruct (decide (x = [])) as [->|]; [done|by rewrite app_assoc]. Qed.

Lemma dump_split r : m_websocket r = false → dump r = request_head r ++ m_body r.
Proof.
  intros Hw. unfold dump, request_head, request_line, request_lines, uri_of.
  rewrite Hw, header_lines_filter, bind_cons, bind_app, !text_after. fold (query_text (m_query r)) (fragment_text (m_fragment r)).
  assert (Ec : connection_text (m_close r) =
    header_line (str "connection") (if m_close r then str "close" else str "keep-alive")) by by destruct (m_close r).
  assert (Eb : body_text (m_body r) = ((if decide (m_body r = []) then [] else
    [(str "content-length", to_string (length (m_body r)))]) ≫= λ l, header_line l.1 l.2) ++ crlf ++ m_body r).
  { unfold body_text. destruct (decide (m_body r = [])) as [->|Hb]; [done|].
    rewrite bind_singleton. unfold header_line. cbn [fst snd]. by rewrite <- !app_assoc. }
  rewrite Ec, Eb. change (str " HTTP/") with (str " " ++ str "HTTP/"). cbn [fst snd]. by rewrite <- !app_assoc.
Qed.

Lemma digits_value_ok ds : Forall (λ c, is_digit c = true) ds → value_ok ds = true.
Proof.
  intros Hds. assert (Hc : ∀ c, is_digit c = true → value_char c = true ∧ blank_char c = false).
  { intros c. destruct c as [[] [] [] [] [] [] [] []]; vm_compute; by intros. }
  unfold value_ok. apply andb_true_iff. split.
  - apply forallb_Forall. eapply Forall_impl; [exact Hds|]. intros c H. by apply Hc.
  - destruct Hds as [|c ds H _]; [done|]. by rewrite (proj2 (Hc _ H)).
Qed.

(** A request whose text the parser reads back. *)
Record sendable r : Prop := {
  sendable_method : method_ok (m_method r) = true;
  sendable_version : m_version r = 16 ∨ m_version r = 17;
  sendable_path : path_ok (m_path r) = true;
  sendable_query : uri_text query_char (m_query r) = true;
  sendable_fragment : uri_text query_char (m_fragment r) = true;
  sendable_websocket : m_websocket r = false;
  sendable_headers : forallb line_ok (filter (λ l, is_connection l = false) (m_headers r)) = true
}.
End whole.
