(* ===== verification/HttpStream.v ===== *)
(** * HttpStream: requests and responses over a connection

    [sylar/stream.cc], [streams/socket_stream.cc], [http/http_session.cc],
    [http/http_connection.cc]: the loops that read and write a whole message,
    the receiving of a request and of a response, chunked bodies included.  A
    socket is what the kernel will deliver and accept. *)

From S2P Require Import Prelude.
From S2P Require Export HttpParser.

(** ** The socket *)

(** [incoming]: the pieces in which the bytes of the peer will arrive, none of
    them empty; [at_end]: what [recv] returns after the last one, 0 or -1;
    [window]: what each [send] will accept; [sent]: what was accepted. *)
Record Socket := mkSocket {
  sock_isConnected : bool;
  incoming : list text;
  at_end : Z;
  window : list Z;
  sent : text
}.

Implicit Types s : Socket.

Abbreviation MS A := (M Socket A).

Definition sock_close : MS unit :=
  modify (λ s, mkSocket false (incoming s) (at_end s) (window s) (sent s)).

(** [Socket::recv(buffer, length)]: at most [length] bytes of what has arrived. *)
Definition sock_recv (length_ : nat) : MS (Z * text) :=
  s ← gets id;
  if negb (sock_isConnected s) then mret (-1, [])
  else
    match incoming s with
    | [] => mret (at_end s, [])
    | piece :: rest =>
        let bytes := take length_ piece in
        let left := drop length_ piece in
        modify (λ s, mkSocket (sock_isConnected s) (if decide (left = []) then rest else left :: rest)
          (at_end s) (window s) (sent s)) ;;
        mret (Z.of_nat (length bytes), bytes)
    end.

(** [Socket::send(buffer, length)] *)
Definition sock_send (buffer : text) : MS Z :=
  s ← gets id;
  if negb (sock_isConnected s) then mret (-1)
  else
    match window s with
    | [] => mret (-1)
    | w :: rest =>
        let n := Z.min w (Z.of_nat (length buffer)) in
        modify (λ s, mkSocket (sock_isConnected s) (incoming s) (at_end s) rest (sent s ++ take (Z.to_nat n) buffer)) ;;
        mret n
    end.

(** ** Streams *)

(** [SocketStream::read] and [write] on memory; [m_socket] is not null here. *)
Definition SocketStream_read (length_ : nat) : MS (Z * text) :=
  s ← gets id; if negb (sock_isConnected s) then mret (-1, []) else sock_recv length_.

Definition SocketStream_write (buffer : text) : MS Z :=
  s ← gets id; if negb (sock_isConnected s) then mret (-1) else sock_send buffer.

(** [Stream::readFixSize(buffer, length)]: the result as an [int], and what was read. *)
Fixpoint readFixSize_loop (fuel left : nat) (buffer : text) : MS (option Z * text) :=
  match fuel with
  | O => fail NoFuel
  | S fuel' =>
      if (left =? 0)%nat then mret (None, buffer)
      else
        r ← SocketStream_read left;
        if (r : Z * text).1 <=? 0 then mret (Some r.1, buffer)
        else readFixSize_loop fuel' (left - Z.to_nat r.1) (buffer ++ r.2)
  end.

Definition readFixSize (length_ : nat) : MS (Z * text) :=
  r ← readFixSize_loop (S length_) length_ [];
  mret (match (r : option Z * text).1 with Some len => len | None => long_to_int (Z.of_nat length_) end, r.2).

(** [Stream::writeFixSize(buffer, length)] *)
Fixpoint writeFixSize_loop (fuel : nat) (buffer : text) : MS (option Z) :=
  match fuel with
  | O => fail NoFuel
  | S fuel' =>
      if decide (buffer = []) then mret None
      else
        len ← SocketStream_write buffer;
        if len <=? 0 then mret (Some len) else writeFixSize_loop fuel' (drop (Z.to_nat len) buffer)
  end.

Definition writeFixSize (buffer : text) : MS Z :=
  r ← writeFixSize_loop (S (length buffer)) buffer;
  mret (match (r : option Z) with Some len => len | None => long_to_int (Z.of_nat (length buffer)) end).

(** ** Receiving *)

(** Run the parser on its own state, inside an operation of the stream. *)
Definition with_parser {P A} (m : M P A) (p : P) : MS (A * P) := λ s,
  match m p with Ok x => Ok (x, s) | Fail f => Fail f end.

(** All the bytes that can still be read. *)
Definition pending (s : Socket) : nat := length (concat (incoming s)).

Section receive.
(** [cast]: [boost::lexical_cast<uint64_t>]; [memory]: the longest string that can be allocated. *)
Context (cast : text → option Z) (memory : Z).
(** [http.request.buffer_size] *)
Context (buff_size : nat).

(** The part of a body that came with the head, and what is read after it:
    [length] is the content length as an [int64_t], [data] the rest of the buffer. *)
Definition read_body (length_ : Z) (data : text) : MS (option text) :=
  if memory <? length_ then fail OutOfRange
  else
    let offset := Z.of_nat (length data) in
    if length_ >? offset then
      r ← readFixSize (Z.to_nat (length_ - offset));
      if (r : Z * text).1 <=? 0 then sock_close ;; mret None else mret (Some (data ++ r.2))
    else mret (Some (take (Z.to_nat length_) data)).

(** [uint64_t] to [int64_t] *)
Definition to_int64 (v : Z) : Z := (v + 2 ^ 63) mod 2 ^ 64 - 2 ^ 63.

(** *** [HttpSession::recvRequest] *)

(** The loop over the head; [data]: what the buffer holds. *)
Fixpoint recv_head (fuel : nat) (parser : HttpRequestParser) (data : text) : MS (option (HttpRequestParser * text)) :=
  match fuel with
  | O => fail NoFuel
  | S fuel' =>
      r ← SocketStream_read (buff_size - length data);
      if (r : Z * text).1 <=? 0 then sock_close ;; mret None
      else
        x ← with_parser (request_execute (data ++ r.2)) parser;
        let '(_, data, parser) := (x : nat * text * HttpRequestParser) in
        if request_hasError parser then sock_close ;; mret None
        else if (length data =? buff_size)%nat then sock_close ;; mret None
        else if negb (request_isFinished parser =? 0) then mret (Some (parser, data))
        else recv_head fuel' parser data
  end.

(** [parser]: the new parser, whose uninitialised fields are arguments. *)
Definition recvRequest (parser : HttpRequestParser) : MS (option HttpRequest) :=
  s ← gets id;
  r ← recv_head (S (pending s)) parser [];
  match r with
  | None => mret None
  | Some (parser, data) =>
      let length_ := to_int64 (request_getContentLength cast parser) in
      let req := req_data parser in
      if length_ >? 0 then
        b ← read_body length_ data;
        match b with
        | None => mret None
        | Some body => mret (Some (HttpRequest_init (setBody body req)))
        end
      else mret (Some (HttpRequest_init req))
  end.

Definition sendResponse (rsp : HttpResponse) : MS Z := writeFixSize (rsp_dump rsp).

(** *** [HttpConnection::recvResponse] *)

Fixpoint recv_response_head (fuel : nat) (parser : HttpResponseParser) (data : text) :
    MS (option (HttpResponseParser * text)) :=
  match fuel with
  | O => fail NoFuel
  | S fuel' =>
      r ← SocketStream_read (buff_size - length data);
      if (r : Z * text).1 <=? 0 then sock_close ;; mret None
      else
        x ← with_parser (response_execute (data ++ r.2) false) parser;
        let '(_, data, parser) := (x : nat * text * HttpResponseParser) in
        if response_hasError parser then sock_close ;; mret None
        else if (length data =? buff_size)%nat then sock_close ;; mret None
        else if negb (response_isFinished parser =? 0) then mret (Some (parser, data))
        else recv_response_head fuel' parser data
  end.

(** The inner loop over the head of a chunk; [begin_]: as in the code. *)
Fixpoint recv_chunk_head (fuel : nat) (begin_ : bool) (parser : HttpResponseParser) (data : text) :
    MS (option (HttpResponseParser * text)) :=
  match fuel with
  | O => fail NoFuel
  | S fuel' =>
      more ← (if negb begin_ || (length data =? 0)%nat then
                r ← SocketStream_read (buff_size - length data);
                if (r : Z * text).1 <=? 0 then mret None else mret (Some (data ++ r.2))
              else mret (Some data));
      match more with
      | None => sock_close ;; mret None
      | Some data =>
          x ← with_parser (response_execute data true) parser;
          let '(_, data, parser) := (x : nat * text * HttpResponseParser) in
          if response_hasError parser then sock_close ;; mret None
          else if (length data =? buff_size)%nat then sock_close ;; mret None
          else if negb (response_isFinished parser =? 0) then mret (Some (parser, data))
          else recv_chunk_head fuel' false parser data
      end
  end.

(** [while(left > 0)]: the rest of a chunk and the line end after it. *)
Fixpoint recv_chunk_rest (fuel : nat) (left : Z) (body : text) : MS (option text) :=
  match fuel with
  | O => fail NoFuel
  | S fuel' =>
      if left <=? 0 then mret (Some body)
      else
        r ← SocketStream_read (if left >? Z.of_nat buff_size then buff_size else Z.to_nat left);
        if (r : Z * text).1 <=? 0 then sock_close ;; mret None
        else recv_chunk_rest fuel' (left - r.1) (body ++ r.2)
  end.

(** [body.append(data, n)], [n] a negative number being a huge [size_t]. *)
Definition append_data (body data : text) (n : Z) : MS text :=
  if n <? 0 then fail OutOfRange else mret (body ++ take (Z.to_nat n) data).

(** [body.resize(body.size() - 2)] *)
Definition drop_line_end (body : text) : MS text :=
  if (length body <? 2)%nat then fail OutOfRange else mret (take (length body - 2) body).

(** The loop over the chunks. *)
Fixpoint recv_chunks (fuel : nat) (parser : HttpResponseParser) (data body : text) :
    MS (option (HttpResponseParser * text)) :=
  match fuel with
  | O => fail NoFuel
  | S fuel' =>
      s ← gets id;
      h ← recv_chunk_head (S (S (pending s))) true parser data;
      match h with
      | None => mret None
      | Some (parser, data) =>
          let content_len := c_content_len (rsp_parser parser) in
          if 2 ^ 31 - 3 <? content_len then fail Overflow
          else
            r ← (if content_len + 2 <=? Z.of_nat (length data) then
                   body ← append_data body data content_len;
                   mret (Some (body, drop (Z.to_nat (content_len + 2)) data))
                 else
                   s ← gets id;
                   b ← recv_chunk_rest (S (pending s)) (content_len - Z.of_nat (length data) + 2) (body ++ data);
                   match b with
                   | None => mret None
                   | Some body => body ← drop_line_end body; mret (Some (body, []))
                   end);
            match r with
            | None => mret None
            | Some (body, data) =>
                if c_chunks_done (rsp_parser parser) then mret (Some (parser, body))
                else recv_chunks fuel' parser data body
            end
      end
  end.

Definition recvResponse (parser : HttpResponseParser) : MS (option HttpResponse) :=
  s ← gets id;
  r ← recv_response_head (S (pending s)) parser [];
  match r with
  | None => mret None
  | Some (parser, data) =>
      b ← (if c_chunked (rsp_parser parser) then
             s ← gets id;
             recv_chunks (S (pending s + length data)) parser data []
           else
             let length_ := to_int64 (response_getContentLength cast parser) in
             if length_ >? 0 then
               b ← read_body length_ data;
               mret (match b with None => None | Some body => Some (parser, body) end)
             else mret (Some (parser, [])));
      match (b : option (HttpResponseParser * text)) with
      | None => mret None
      | Some (parser, body) =>
          mret (Some (if decide (body = []) then rsp_data parser else rsp_setBody body (rsp_data parser)))
      end
  end.

Definition sendRequest (req : HttpRequest) : MS Z := writeFixSize (dump req).
End receive.
