(* ===== verification/HttpWire.v ===== *)
(** * HttpWire: a request that is sent is received

    Reading and writing however the kernel cuts the bytes.

    The text of a whole request through the parser, the loop of
    [HttpSession::recvRequest] over the pieces of a connection, and what
    happens when the head of a request does not arrive in one piece. *)

From S2P Require Import Prelude HttpProps.
From S2P Require Export HttpStream.
From S2P Require Export HttpRequestFacts.

(** An open connection whose pieces are not empty. *)
Record alive (s : Socket) : Prop := {
  alive_connected : sock_isConnected s = true;
  alive_pieces : Forall (λ p, p ≠ []) (incoming s)
}.

(** The bytes still to come. *)
Definition bytes (s : Socket) : text := concat (incoming s).

(** [n] bytes were read, nothing else happened. *)
Record took (n : nat) (s s' : Socket) : Prop := {
  took_alive : alive s';
  took_bytes : bytes s' = drop n (bytes s);
  took_at_end : at_end s' = at_end s;
  took_window : window s' = window s;
  took_sent : sent s' = sent s
}.

Lemma took_trans n m s1 s2 s3 : took n s1 s2 → took m s2 s3 → took (n + m) s1 s3.
Proof.
  intros [A1 B1 C1 D1 E1] [A2 B2 C2 D2 E2]. split; [done| |congruence..]. by rewrite B2, B1, drop_drop.
Qed.

Lemma took_none s : alive s → took 0 s s.
Proof. by split. Qed.

(** One [read] gives between one byte and [n] bytes. *)
Lemma read_step n s : alive s → (0 < n)%nat → bytes s ≠ [] →
  ∃ k s', (1 <= k <= n)%nat ∧ (k <= length (bytes s))%nat ∧
    SocketStream_read n s = Ok ((Z.of_nat k, take k (bytes s)), s') ∧ took k s s' ∧
    (∀ piece rest, incoming s = piece :: rest → k = Nat.min n (length piece)).
Proof.
  intros [Hc Hp] Hn Hb. unfold SocketStream_read. run gets_run. unfold id. rewrite Hc. cbn [negb].
  unfold sock_recv. run gets_run. unfold id. rewrite Hc. cbn [negb].
  destruct (incoming s) as [|piece rest] eqn:Ei; [by unfold bytes in Hb; rewrite Ei in Hb|].
  inversion Hp as [|? ? Hpiece Hrest]; subst.
  assert (Hk : length (take n piece) = Nat.min n (length piece)) by by rewrite length_take.
  assert (0 < length piece)%nat by (destruct piece; [done|simpl; lia]).
  assert (Eb : bytes s = piece ++ concat rest) by (unfold bytes; by rewrite Ei).
  assert (Et : take n piece = take (Nat.min n (length piece)) (bytes s)).
  { rewrite Eb, take_app_le by lia. destruct (Nat.le_gt_cases n (length piece)).
    - by rewrite Nat.min_l.
    - by rewrite Nat.min_r, !take_ge by lia. }
  exists (Nat.min n (length piece)). eexists. split_and!; [lia|lia| | | |].
  - rewrite Eb, length_app. lia.
  - rewrite <- Et, <- Hk. reflexivity.
  - split; [split; [done|]| |done..].
    + cbn. case_decide; [done|]. by constructor.
    + rewrite Eb. unfold bytes. cbn [incoming]. rewrite drop_app_le by lia.
      destruct (Nat.le_gt_cases n (length piece)) as [Hle|Hgt].
      * rewrite Nat.min_l by done. case_decide as E; [by rewrite E|done].
      * rewrite Nat.min_r by lia. rewrite (drop_ge piece n) by lia. rewrite decide_True by done. by rewrite drop_all.
  - intros piece' rest' [= -> ->]. done.
Qed.

(** A whole piece that fits. *)
Lemma read_piece n s piece rest : alive s → incoming s = piece :: rest → (length piece <= n)%nat →
  ∃ s', SocketStream_read n s = Ok ((Z.of_nat (length piece), piece), s') ∧ took (length piece) s s' ∧ incoming s' = rest.
Proof.
  intros [Hc Hp] Hi Hn. rewrite Hi in Hp. inversion Hp as [|? ? _ Hrest]; subst.
  exists (mkSocket true rest (at_end s) (window s) (sent s)). split; [|split; [|done]].
  - unfold SocketStream_read. run gets_run. unfold id. rewrite Hc. cbn [negb]. unfold sock_recv. run gets_run. unfold id.
    rewrite Hc, Hi. cbn [negb]. rewrite (take_ge piece n), (drop_ge piece n) by done. by rewrite decide_True, <- Hc.
  - split; [by split| |done..]. unfold bytes. rewrite Hi. cbn [concat incoming]. by rewrite drop_app_length.
Qed.

(** A prefix that fits is at the front of what was taken. *)
Lemma head_of_take (w h rest : text) (n : nat) : w = h ++ rest → (length h <= n)%nat → take n w = h ++ drop (length h) (take n w).
Proof. intros -> Hn. rewrite take_app_ge, drop_app_length by done. done. Qed.

Lemma length_bytes_pending s : length (bytes s) = pending s.
Proof. done. Qed.

(** [readFixSize] gives the next [n] bytes, when they come. *)
Lemma readFixSize_loop_spec fuel left buffer s : alive s → (left < fuel)%nat → (left <= length (bytes s))%nat →
  ∃ s', readFixSize_loop fuel left buffer s = Ok ((None, buffer ++ take left (bytes s)), s') ∧ took left s s'.
Proof.
  revert left buffer s. induction fuel as [|fuel IH]; intros left buffer s Ha Hf Hl; [lia|]. cbn [readFixSize_loop].
  destruct (Nat.eqb_spec left 0) as [->|Hne].
  - exists s. split; [by rewrite app_nil_r|by apply took_none].
  - destruct (read_step left s Ha) as (k & s1 & Hk & Hkb & E1 & Ht & _); [lia|by destruct (bytes s); [simpl in Hl; lia|]|].
    rewrite (bind_run _ _ _ _ _ E1). cbn [fst snd].
    destruct (Z.leb_spec (Z.of_nat k) 0); [lia|]. rewrite Nat2Z.id.
    destruct (IH (left - k)%nat (buffer ++ take k (bytes s)) s1) as (s2 & E2 & Ht2); [apply Ht|lia| |].
    { rewrite (took_bytes _ _ _ Ht), length_drop. lia. }
    exists s2. split; [|replace left with (k + (left - k))%nat by lia; by eapply took_trans].
    assert (Et : take left (bytes s) = take k (bytes s) ++ take (left - k) (bytes s1)).
    { rewrite (took_bytes _ _ _ Ht). replace left with (k + (left - k))%nat at 1 by lia. by rewrite <- take_take_drop. }
    by rewrite E2, Et, <- app_assoc.
Qed.

Lemma readFixSize_spec n s : alive s → (n <= length (bytes s))%nat →
  ∃ s', readFixSize n s = Ok ((long_to_int (Z.of_nat n), take n (bytes s)), s') ∧ took n s s'.
Proof.
  intros Ha Hn. destruct (readFixSize_loop_spec (S n) n [] s Ha) as (s' & E & Ht); [lia|done|].
  exists s'. split; [|done]. unfold readFixSize. by rewrite (bind_run _ _ _ _ _ E).
Qed.

(** [writeFixSize] sends a prefix of the buffer, and everything unless it says so. *)
Lemma writeFixSize_loop_spec fuel buffer s : (length buffer < fuel)%nat →
  ∃ r k s', writeFixSize_loop fuel buffer s = Ok (r, s') ∧ (k <= length buffer)%nat ∧ sent s' = sent s ++ take k buffer ∧
    match r with None => k = length buffer | Some len => len <= 0 end ∧
    sock_isConnected s' = sock_isConnected s ∧ incoming s' = incoming s.
Proof.
  revert buffer s. induction fuel as [|fuel IH]; intros buffer s Hf; [lia|]. cbn [writeFixSize_loop].
  destruct (decide (buffer = [])) as [->|Hne].
  - exists None, 0%nat, s. rewrite app_nil_r. by split_and!.
  - assert (Hfail : ∀ v, v <= 0 → ∃ r k s', (mret (Some v) : MS (option Z)) s = Ok (r, s') ∧ (k <= length buffer)%nat ∧
      sent s' = sent s ++ take k buffer ∧ match r with None => k = length buffer | Some len => len <= 0 end ∧
      sock_isConnected s' = sock_isConnected s ∧ incoming s' = incoming s).
    { intros v Hv. exists (Some v), 0%nat, s. rewrite app_nil_r. split_and!; try done. lia. }
    unfold SocketStream_write, sock_send. rewrite bind_assoc. run gets_run. unfold id.
    destruct (sock_isConnected s) eqn:Hc; cbn [negb]; [|run ret_run; apply (Hfail (-1)); lia].
    rewrite bind_assoc. run gets_run. unfold id. rewrite Hc. cbn [negb].
    destruct (window s) as [|w ws] eqn:Hw; [run ret_run; apply (Hfail (-1)); lia|].
    set (n := Z.min w (Z.of_nat (length buffer))). rewrite bind_assoc.
    set (s1 := mkSocket (sock_isConnected s) (incoming s) (at_end s) ws (sent s ++ take (Z.to_nat n) buffer)).
    rewrite (bind_run _ _ s tt s1) by done. run ret_run.
    destruct (Z.leb_spec n 0) as [Hn|Hn].
    + exists (Some n), 0%nat, s1. unfold s1. replace (Z.to_nat n) with 0%nat by lia. cbn. rewrite Hc. split_and!; try done. lia.
    + destruct (IH (drop (Z.to_nat n) buffer) s1) as (r & k & s2 & E & Hk & Hs & Hr & H1 & H2); [rewrite length_drop; lia|].
      rewrite length_drop in Hk, Hr. exists r, (Z.to_nat n + k)%nat, s2. split_and!; [exact E|lia| | |by rewrite H1|done].
      * rewrite Hs. cbn [sent s1]. rewrite <- app_assoc. f_equal. by rewrite <- take_take_drop.
      * destruct r; [done|]. lia.
Qed.

Lemma writeFixSize_spec buffer s :
  ∃ r k s', writeFixSize buffer s = Ok (r, s') ∧ (k <= length buffer)%nat ∧ sent s' = sent s ++ take k buffer ∧
    (r = long_to_int (Z.of_nat (length buffer)) ∧ k = length buffer ∨ r <= 0).
Proof.
  destruct (writeFixSize_loop_spec (S (length buffer)) buffer s) as (r & k & s' & E & Hk & Hs & Hr & _); [lia|].
  unfold writeFixSize. rewrite (bind_run _ _ _ _ _ E). destruct r as [v|]; (eexists _, k, s'; split_and!; [reflexivity|done|done|auto]).
Qed.

(** ** The head of a request *)

(** What the callbacks make of the data, line by line. *)
Definition parsed (r d : HttpRequest) : HttpRequest :=
  add_lines (request_lines r) (setVersion (m_version r)
    (set_some setFragment (m_fragment r) (set_some setQuery (m_query r) (setPath (m_path r) (setMethod (m_method r) d))))).

Lemma request_lines_ok r : sendable r → forallb line_ok (request_lines r) = true.
Proof.
  intros Hr. unfold request_lines. cbn [forallb]. apply andb_true_iff. split; [by destruct (m_close r)|].
  rewrite forallb_app. apply andb_true_iff. split; [exact (sendable_headers r Hr)|].
  destruct (decide (m_body r = [])); [done|]. cbn [forallb]. rewrite andb_true_r. unfold line_ok.
  apply andb_true_iff. split; [done|]. apply digits_value_ok. by destruct (to_string_spec (length (m_body r))) as (_ & ? & _).
Qed.

Section head.
Context (relaxed : bool).
Implicit Types (o : HttpRequestParser) (r : HttpRequest).

Abbreviation req_run buffer := (run_machine http_parser_row relaxed (http_act buffer) http_stops).

Lemma request_line_reads r rest o : sendable r →
  reads relaxed (request_line r ++ rest) [] (request_line r) 1 o 13 (λ d, setVersion (m_version r)
    (set_some setFragment (m_fragment r) (set_some setQuery (m_query r) (setPath (m_path r) (setMethod (m_method r) d))))).
Proof.
  intros Hr. set (buffer := request_line r ++ rest). unfold request_line.
  eapply (reads_app _ _ _ _ _ _ _ _ (setMethod (m_method r)) _ (λ d, setVersion (m_version r)
    (set_some setFragment (m_fragment r) (set_some setQuery (m_query r) (setPath (m_path r) d))))).
  { destruct (method_part relaxed (m_method r) buffer
      (uri_of (m_path r) (m_query r) (m_fragment r) ++ ((str "HTTP/" ++ version_text (m_version r)) ++ crlf) ++ rest) o)
      as (o' & E1 & Ho'); [exact (sendable_method r Hr)|unfold buffer, request_line; by rewrite <- !app_assoc|by exists o']. }
  intros o1 _. eapply (reads_app _ _ _ _ _ _ _ _ (λ d, set_some setFragment (m_fragment r)
    (set_some setQuery (m_query r) (setPath (m_path r) d))) _ (setVersion (m_version r))).
  { apply (uri_reads relaxed _ _ _ _ _ (((str "HTTP/" ++ version_text (m_version r)) ++ crlf) ++ rest));
      [unfold buffer, request_line; by rewrite <- !app_assoc|exact (sendable_path r Hr)|exact (sendable_query r Hr)
      |exact (sendable_fragment r Hr)]. }
  intros o2 _. match goal with |- reads _ _ ?pre _ _ _ _ _ =>
    assert (Hb : buffer = pre ++ (str "HTTP/" ++ version_text (m_version r)) ++ crlf ++ rest) end.
  { unfold buffer, request_line. by rewrite <- !app_assoc. }
  rewrite Hb. apply version_part. exact (sendable_version r Hr).
Qed.

(** The parser stops exactly after the lines. *)
Lemma lines_run r buffer pre rest o : sendable r →
  buffer = pre ++ (request_lines r ≫= λ l, header_line l.1 l.2) ++ crlf ++ rest →
  ∃ o', req_run buffer ((request_lines r ≫= λ l, header_line l.1 l.2) ++ crlf ++ rest) (length pre) 13 o =
      Ok ((348, length (pre ++ (request_lines r ≫= λ l, header_line l.1 l.2) ++ crlf)), o') ∧
    becomes o (add_lines (request_lines r)) o'.
Proof.
  intros Hr Hb. set (lines := request_lines r ≫= λ l, header_line l.1 l.2) in *.
  destruct (headers_read relaxed buffer pre (request_lines r) (crlf ++ rest) o Hb (request_lines_ok r Hr)) as (o1 & E1 & B1).
  fold lines in E1. destruct (end_part relaxed buffer (pre ++ lines) rest o1) as (o2 & E2 & B2).
  exists o2. split; [|exact (becomes_trans _ _ _ _ _ B1 B2)].
  rewrite (scan_run _ _ _ _ _ _ _ _ _ _ _ E1). rewrite <- length_app, E2. do 3 f_equal.
  rewrite !length_app. change (length crlf) with 2%nat. lia.
Qed.

(** The parser stops exactly after the head. *)
Lemma head_run r rest o : sendable r →
  ∃ o', req_run (request_head r ++ rest) (request_head r ++ rest) 0 1 o = Ok ((348, length (request_head r)), o') ∧
    becomes o (parsed r) o'.
Proof.
  intros Hr. set (buffer := request_head r ++ rest).
  set (lines := request_lines r ≫= λ l, header_line l.1 l.2).
  assert (Hb : buffer = request_line r ++ lines ++ crlf ++ rest) by (unfold buffer, request_head; by rewrite <- !app_assoc).
  destruct (request_line_reads r (lines ++ crlf ++ rest) o Hr) as (o1 & E1 & B1). rewrite <- Hb in E1.
  destruct (lines_run r buffer (request_line r) rest o1 Hr Hb) as (o2 & E2 & B2).  fold lines in E2.
  exists o2. split; [|exact (becomes_trans _ _ _ _ _ B1 B2)].
  rewrite Hb at 2. by rewrite (scan_run _ _ _ _ _ _ _ _ _ _ _ E1), Nat.add_0_l, E2.
Qed.
End head.

(** ** The assertions of [execute] *)

Definition marks_ok (len : nat) (o : HttpRequestParser) : Prop :=
  (body_start (req_parser o) <= len ∧ mark (req_parser o) < len ∧ field_start (req_parser o) < len)%nat ∧
  field_len (req_parser o) <= Z.of_nat len.

(** An invariant of the actions is one of the automaton. *)
Lemma run_machine_inv {A S} (row : Z → list (edge A)) relaxed act stops (I : S → Prop) len :
  (∀ p a o o', (p < len)%nat → I o → act p a o = Ok (tt, o') → I o') →
  ∀ rest p s o t p' o', (p + length rest = len)%nat → I o →
    run_machine row relaxed act stops rest p s o = Ok ((t, p'), o') → I o' ∧ (p' <= len)%nat.
Proof.
  intros Hact. induction rest as [|c rest IH]; intros p s o t p' o' Hp HI; cbn [run_machine length] in *.
  - intros [= <- <- <-]. split; [done|lia].
  - destruct (find_edge _ _ _) as [e|]; [|intros [= <- <- <-]; split; [done|lia]].
    intros ([] & o1 & E1 & E2)%bind_Ok.
    assert (I o1) as HI1.
    { eapply (for_each_inv I); [|exact HI|exact E1]. intros a s1 s2 _ H1 H2. by eapply (Hact p); [lia|..]. }
    destruct (existsb _ _); [injection E2 as <- <- <-; split; [done|lia]|].
    eapply (IH (p + 1)%nat); [lia|done|exact E2].
Qed.

Lemma http_act_marks buffer len p a o o' : (p < len)%nat → marks_ok len o → http_act buffer p a o = Ok (tt, o') → marks_ok len o'.
Proof.
  intros Hp Hm. unfold marks_ok in *. destruct Hm as [(Hb & Hmk & Hf) Hl].
  assert (Hwp : wp (http_act buffer p a) (λ _, marks_ok len) o); [|intros E; exact (Hwp tt o' E)].
  unfold http_act, on_request_http_field, on_request_version, on_request_method, on_request_fragment, on_request_path,
    on_request_query, std_string, on_data, on_parser, setError, LEN.
  wp_run; unfold marks_ok; cbn; split_and!; try lia; try done.
Qed.

Lemma assert_run {S A} b (k : M S A) s : b = true → (assert_that b ;; k) s = k s.
Proof. by intros ->. Qed.

Definition cleared (o : HttpRequestParser) : HttpRequestParser :=
  mkRequestParser (set_field_start 0 (set_field_len 0 (set_mark 0 (set_nread 0 (req_parser o))))) (req_data o) (req_error o).

(** [execute] on a parse that can go on is the run of the automaton: the
    assertions after it hold. *)
Lemma execute_run buffer o t p o1 : buffer ≠ [] → cs (req_parser o) ≠ 0 → body_start (req_parser o) = 0%nat →
  run_machine http_parser_row (uri_relaxed (req_parser o)) (http_act buffer) http_stops buffer 0 (cs (req_parser o)) (cleared o)
    = Ok ((t, p), o1) →
  http_parser_execute buffer o = Ok (p, mkRequestParser (set_nread p (set_cs t (req_parser o1))) (req_data o1) (req_error o1)).
Proof.
  intros Hne Hcs Hbs E1.
  destruct (run_machine_inv http_parser_row (uri_relaxed (req_parser o)) (http_act buffer) http_stops (marks_ok (length buffer)) (length buffer)
    (λ p a o o', http_act_marks buffer (length buffer) p a o o') buffer 0 (cs (req_parser o)) (cleared o) t p o1) as [Hm Hp];
    [lia| |exact E1|].
  { unfold marks_ok, cleared. cbn. rewrite Hbs. destruct buffer; [done|]. cbn [length]. lia. }
  unfold http_parser_execute. rewrite decide_False by done.
  rewrite (bind_run _ _ o tt (cleared o)) by done. run gets_run. unfold id.
  change (uri_relaxed (req_parser (cleared o))) with (uri_relaxed (req_parser o)).
  change (cs (req_parser (cleared o))) with (cs (req_parser o)). rewrite (bind_run _ _ _ _ _ E1).
  destruct (Z.eqb_spec (cs (req_parser o)) http_parser_error) as [E|_]; [done|].
  rewrite (bind_run _ _ _ tt (mkRequestParser (set_cs t (req_parser o1)) (req_data o1) (req_error o1))) by done.
  rewrite (bind_run _ _ _ tt (mkRequestParser (set_nread p (set_cs t (req_parser o1))) (req_data o1) (req_error o1))) by done.
  run gets_run. unfold id. destruct Hm as [(Hb & Hmk & Hf) Hl].
  rewrite !assert_run by (first [apply Nat.leb_le | apply Nat.ltb_lt | apply Z.leb_le]; assumption). done.
Qed.

Lemma head_execute garbage relaxed r rest : sendable r →
  ∃ o', request_execute (request_head r ++ rest) (new_HttpRequestParser garbage relaxed)
      = Ok ((length (request_head r), rest), o') ∧
    req_data o' = parsed r (new_HttpRequest 17 true) ∧ request_hasError o' = false ∧ request_isFinished o' = 1.
Proof.
  intros Hr. set (o := new_HttpRequestParser garbage relaxed).
  destruct (head_run relaxed r rest (cleared o) Hr) as (o1 & E1 & [Hd He]).
  assert (Hne : request_head r ++ rest ≠ []).
  { unfold request_head, request_line. pose proof (sendable_method r Hr) as Hm. destruct (m_method r); try done. }
  exists (mkRequestParser (set_nread (length (request_head r)) (set_cs 348 (req_parser o1))) (req_data o1) (req_error o1)).
  split; [|split; [exact Hd|]].
  - unfold request_execute. rewrite (bind_run _ _ _ _ _ (execute_run _ o _ _ _ Hne ltac:(done) eq_refl E1)).
    cbn beta. rewrite drop_app_length. reflexivity.
  - unfold request_hasError, request_isFinished. cbn [req_parser req_error]. by rewrite He.
Qed.

(** ** The headers *)

Definition put_lines (m ls : MapType) : MapType := foldl (λ m l, map_put true l.1 l.2 m) m ls.

Lemma add_lines_eq ls d : add_lines ls d = setHeaders (put_lines (m_headers d) ls) d.
Proof. revert d. induction ls as [|l ls IH]; intros d; [by destruct d|]. cbn [add_lines put_lines foldl]. apply (IH (setHeader l.1 l.2 d)). Qed.

Lemma put_lines_spec ls m : sorted_map m → sorted_map (put_lines m ls) ∧
  fields (put_lines m ls) = foldl (λ g l, <[fold_key l.1 := l.2]> g) (fields m) ls.
Proof.
  revert m. induction ls as [|l ls IH]; intros m Hm; [done|]. cbn [put_lines foldl].
  destruct (map_put_spec true l.1 l.2 m Hm) as (Hs & Hf & _). destruct (IH _ Hs) as [H1 H2].
  split; [exact H1|]. etransitivity; [exact H2|]. by rewrite Hf.
Qed.

(** Different names: the order of the lines does not matter. *)
Lemma insert_lines (ls : MapType) (g : gmap text text) : sorted_map ls →
  foldl (λ g l, <[fold_key l.1 := l.2]> g) g ls = fields ls ∪ g.
Proof.
  revert g. induction ls as [|[k v] ls IH]; intros g Hls; [change (fields []) with (∅ : gmap text text); by rewrite (left_id_L ∅ (∪))|].
  inversion Hls as [|? ? Hls' Hk]; subst. cbn [foldl fst snd]. rewrite IH by done. rewrite fields_cons.
  rewrite <- insert_union_r by (by apply fields_above). by rewrite insert_union_l.
Qed.

Definition connection_key : text := fold_key (str "connection").
Definition length_key : text := fold_key (str "content-length").

Lemma is_connection_spec l : is_connection l = bool_decide (fold_key l.1 = connection_key).
Proof.
  unfold is_connection, connection_key. change (fold_key (str "connection")) with (map tolower (str "connection")).
  assert (Hn : nul ∉ str "connection") by (apply (bool_decide_unpack _); by vm_compute).
  pose proof (strcasecmp_zero (c_str l.1) (str "connection") (c_str_nul _) Hn) as Hz.
  case_bool_decide as E; [by apply Z.eqb_eq, Hz|]. apply Z.eqb_neq. intros H. by apply E, Hz.
Qed.

Lemma filter_fields (m : MapType) : sorted_map m → sorted_map (filter (λ l, is_connection l = false) m) ∧
  fields (filter (λ l, is_connection l = false) m) = delete connection_key (fields m).
Proof.
  induction 1 as [|[k v] m Hm IH Hk]; [by split; [exact (Sorted.SSorted_nil _)|symmetry; apply delete_empty]|]. destruct IH as [IH1 IH2].
  rewrite filter_cons, fields_cons, is_connection_spec. cbn [fst]. case_bool_decide as E.
  - rewrite decide_False by done. split; [done|]. by rewrite IH2, <- E, delete_insert_eq.
  - rewrite decide_True by done. split.
    + constructor; [done|]. rewrite Forall_forall in *. intros x [_ Hx]%list_elem_of_filter. by apply Hk.
    + by rewrite fields_cons, IH2, delete_insert_ne.
Qed.

(** The header map that is received. *)
Definition received_headers (r : HttpRequest) : gmap text text :=
  let h := <[connection_key := if m_close r then str "close" else str "keep-alive"]> (fields (m_headers r)) in
  if decide (m_body r = []) then h else <[length_key := to_string (length (m_body r))]> h.

Lemma put_lines_app m a b : put_lines m (a ++ b) = put_lines (put_lines m a) b.
Proof. apply foldl_app. Qed.

Lemma parsed_headers r d : sorted_map (m_headers r) → m_headers d = [] →
  fields (m_headers (parsed r d)) = received_headers r.
Proof.
  intros Hs Hd. unfold parsed. rewrite add_lines_eq.
  assert (E : ∀ set v d', (∀ x y, m_headers (set x y) = m_headers y) → m_headers (set_some set v d') = m_headers d').
  { intros set v d' Hset. unfold set_some. case_decide; [done|by apply Hset]. }
  cbn [m_headers setHeaders setVersion]. rewrite !E by done. cbn [m_headers setPath setMethod]. rewrite Hd.
  destruct (filter_fields _ Hs) as [Hfs Hff].
  unfold request_lines. set (c := if m_close r then str "close" else str "keep-alive").
  change (put_lines [] ?l) with (put_lines [] l).
  rewrite (proj2 (put_lines_spec _ [] ltac:(constructor))). cbn [foldl fst snd]. rewrite foldl_app.
  rewrite (insert_lines (filter _ _)), Hff by exact Hfs. unfold received_headers. fold c connection_key.
  change (fields []) with (∅ : gmap text text).
  rewrite <- insert_union_r by apply lookup_delete_eq. rewrite (right_id_L ∅ (∪)), insert_delete_eq.
  by case_decide.
Qed.

(** ** Receiving a request *)

(** What arrives of a request: all of it, the headers as a map. *)
Record received (r r' : HttpRequest) : Prop := {
  received_method : m_method r' = m_method r;
  received_version : m_version r' = m_version r;
  received_close : m_close r' = m_close r;
  received_path : m_path r' = m_path r;
  received_query : m_query r' = m_query r;
  received_fragment : m_fragment r' = m_fragment r;
  received_body : m_body r' = m_body r;
  received_fields : fields (m_headers r') = received_headers r
}.

Lemma parsed_data r : let d := parsed r (new_HttpRequest 17 true) in
  m_method d = m_method r ∧ m_version d = m_version r ∧ m_path d = m_path r ∧ m_query d = m_query r ∧
  m_fragment d = m_fragment r ∧ m_body d = [].
Proof.
  unfold parsed. rewrite add_lines_eq. unfold set_some.
  destruct (decide (m_fragment r = [])) as [->|]; destruct (decide (m_query r = [])) as [->|]; done.
Qed.

Lemma init_received r d body : sorted_map (m_headers r) → d = parsed r (new_HttpRequest 17 true) → body = m_body r →
  received r (HttpRequest_init (setBody body d)).
Proof.
  intros Hs -> ->. destruct (parsed_data r) as (H1 & H2 & H3 & H4 & H5 & _).
  set (d := parsed r (new_HttpRequest 17 true)) in *.
  assert (Hf : fields (m_headers d) = received_headers r) by (by apply parsed_headers).
  assert (Hc : getHeader (str "connection") [] (setBody (m_body r) d) = if m_close r then str "close" else str "keep-alive").
  { unfold getHeader. cbn [m_headers setBody]. rewrite map_find_spec, Hf. fold connection_key. unfold received_headers.
    assert (Hne : length_key ≠ connection_key) by by vm_compute.
    case_decide; [by rewrite lookup_insert_eq|]. by rewrite lookup_insert_ne, lookup_insert_eq. }
  unfold HttpRequest_init. rewrite Hc. destruct (m_close r) eqn:Hcl; split; try done; by rewrite ?Hcl.
Qed.

Section receiving.
Context (cast : text → option Z) (memory : Z) (buff_size : nat).
(** [lexical_cast] reads decimal numbers that fit. *)
Context (Hcast : ∀ n, Z.of_nat n < 2 ^ 64 → cast (to_string n) = Some (Z.of_nat n)).

Lemma to_int64_id v : 0 <= v < 2 ^ 63 → to_int64 v = v.
Proof. intros Hv. unfold to_int64. rewrite Z.mod_small; lia. Qed.

Lemma long_to_int_id v : 0 <= v < 2 ^ 31 → long_to_int v = v.
Proof. intros Hv. unfold long_to_int. rewrite Z.mod_small; lia. Qed.

Lemma content_length_absent (o : option text) : default (to_string 0) o = to_string 0 →
  to_int64 (match o with Some v => default 0 (cast v) | None => 0 end) = 0.
Proof.
  destruct o as [v|]; [|done]. intros Hv. change (v = to_string 0) in Hv. subst v.
  assert (E : cast (to_string 0) = Some 0) by (by apply (Hcast 0)). by rewrite E.
Qed.

(** A body of which [data] has arrived: the rest is read, what is too much is dropped. *)
Lemma read_body_spec (body extra data : text) s : alive s → data ++ bytes s = body ++ extra →
  (0 < length body)%nat → Z.of_nat (length body) < 2 ^ 31 → Z.of_nat (length body) <= memory →
  ∃ s', read_body memory (Z.of_nat (length body)) data s = Ok (Some body, s') ∧ took (length body - length data) s s'.
Proof.
  intros Ha Hb Hpos Hsmall Hmem. unfold read_body.
  destruct (Z.ltb_spec memory (Z.of_nat (length body))); [lia|].
  assert (Hlen : (length data + length (bytes s) = length body + length extra)%nat) by (rewrite <- !length_app; by rewrite Hb).
  destruct (Z.gtb_spec (Z.of_nat (length body)) (Z.of_nat (length data))) as [Hgt|Hle].
  - replace (Z.to_nat _) with (length body - length data)%nat by lia.
    destruct (readFixSize_spec (length body - length data) s Ha) as (s' & E & Ht); [lia|].
    exists s'. split; [|done]. rewrite (bind_run _ _ _ _ _ E). cbn [fst snd].
    rewrite long_to_int_id by lia. destruct (Z.leb_spec (Z.of_nat (length body - length data)) 0); [lia|].
    unfold mret, M_ret. do 3 f_equal.
    transitivity (take (length body) (data ++ bytes s)); [by rewrite take_app_ge by lia|]. by rewrite Hb, take_app_length.
  - exists s. split; [|by replace (length body - length data)%nat with 0%nat by lia; apply took_none].
    unfold mret, M_ret. do 3 f_equal. rewrite Nat2Z.id.
    transitivity (take (length body) (data ++ bytes s)); [by rewrite take_app_le by lia|]. by rewrite Hb, take_app_length.
Qed.

(** What the receiver needs apart from the text: header names that differ, no
    content length but 0 without a body, and a size that it takes. *)
Record storable (r : HttpRequest) : Prop := {
  storable_sorted : sorted_map (m_headers r);
  storable_empty : m_body r = [] → default (to_string 0) (fields (m_headers r) !! length_key) = to_string 0;
  storable_size : Z.of_nat (length (m_body r)) < 2 ^ 31;
  storable_memory : Z.of_nat (length (m_body r)) <= memory
}.

(** A request that can be sent. *)
Record transferable (r : HttpRequest) : Prop := {
  transferable_text : sendable r;
  transferable_storable : storable r
}.

Lemma request_head_pos r : sendable r → (0 < length (request_head r))%nat.
Proof.
  intros Hr. unfold request_head, request_line. rewrite !length_app. change (length (str " ")) with 1%nat. lia.
Qed.

(** The first [read] brings the whole head. *)
Lemma recv_head_spec garbage relaxed r s piece rest extra fuel : sendable r → alive s →
  incoming s = piece :: rest → bytes s = dump r ++ extra → (length (request_head r) <= length piece)%nat →
  (length (request_head r) <= buff_size)%nat →
  let n := Nat.min buff_size (length piece) in
  ∃ parser s', recv_head buff_size (S fuel) (new_HttpRequestParser garbage relaxed) [] s =
      Ok (Some (parser, drop (length (request_head r)) (take n (bytes s))), s') ∧ took n s s' ∧
    req_data parser = parsed r (new_HttpRequest 17 true).
Proof.
  intros Hr Ha Hi Hb Hpiece Hbuf n. pose proof (request_head_pos r Hr) as Hpos.
  destruct (read_step buff_size s Ha) as (k & s1 & Hk & Hkb & E1 & Ht & Hkn); [lia| |].
  { unfold bytes. rewrite Hi. destruct piece; [simpl in Hpiece; lia|done]. }
  specialize (Hkn _ _ Hi). fold n in Hkn. subst k. cbn [recv_head length]. rewrite Nat.sub_0_r.
  rewrite (bind_run _ _ _ _ _ E1). cbn [fst snd app]. destruct (Z.leb_spec (Z.of_nat n) 0); [lia|].
  assert (Hd : take n (bytes s) = request_head r ++ drop (length (request_head r)) (take n (bytes s))).
  { apply (head_of_take _ _ (m_body r ++ extra)); [|lia].
    by rewrite Hb, (dump_split r (sendable_websocket r Hr)), <- app_assoc. }
  set (data := drop (length (request_head r)) (take n (bytes s))) in *.
  destruct (head_execute garbage relaxed r data Hr) as (parser & E2 & Hdata & Herr & Hfin).
  rewrite Hd. unfold mbind at 1, M_bind at 1, with_parser. rewrite E2. cbn beta iota zeta. rewrite Herr, Hfin.
  assert (Hlen : (length data <? buff_size)%nat = true).
  { apply Nat.ltb_lt. unfold data. rewrite length_drop, length_take. lia. }
  destruct (Nat.eqb_spec (length data) buff_size) as [E|_]; [apply Nat.ltb_lt in Hlen; lia|].
  exists parser, s1. by split_and!.
Qed.

(** After the head, the body; [n] bytes were taken for the head and [data]. *)
Lemma recvRequest_body r parser0 parser data s s1 n extra : storable r →
  recv_head buff_size (S (pending s)) parser0 [] s = Ok (Some (parser, data), s1) → took n s s1 →
  data ++ bytes s1 = m_body r ++ extra → req_data parser = parsed r (new_HttpRequest 17 true) →
  ∃ r' s', recvRequest cast memory buff_size parser0 s = Ok (Some r', s') ∧ received r r' ∧
    took (n + (length (m_body r) - length data)) s s'.
Proof.
  intros [Hs Hempty Hsize Hmem] E1 Ht Hdata Hd.
  assert (Hf : fields (m_headers (req_data parser)) = received_headers r) by (rewrite Hd; by apply parsed_headers).
  assert (Hcl : to_int64 (request_getContentLength cast parser) = Z.of_nat (length (m_body r))).
  { unfold request_getContentLength, getAs. rewrite map_find_spec, Hf. fold length_key. unfold received_headers.
    destruct (decide (m_body r = [])) as [Eb|Eb].
    - rewrite lookup_insert_ne, Eb by (by vm_compute). by apply content_length_absent, Hempty.
    - rewrite lookup_insert_eq. rewrite Hcast by lia. apply to_int64_id. lia. }
  unfold recvRequest. run gets_run. unfold id. rewrite (bind_run _ _ _ _ _ E1). rewrite Hcl.
  destruct (Z.gtb_spec (Z.of_nat (length (m_body r))) 0) as [Hpos|Hz].
  - destruct (read_body_spec (m_body r) extra data s1) as (s2 & E2 & Ht2); [apply Ht|done|lia|done|done|].
    rewrite (bind_run _ _ _ _ _ E2). eexists _, s2. split; [reflexivity|]. split; [by apply init_received|].
    by eapply took_trans.
  - assert (m_body r = []) as Eb by (apply length_nil_inv; lia). rewrite Eb. cbn [length].
    eexists _, s1. split; [reflexivity|]. split; [|by rewrite Nat.add_0_r].
    rewrite Hd. destruct (parsed_data r) as (_ & _ & _ & _ & _ & Hbody).
    set (d := parsed r (new_HttpRequest 17 true)) in *.
    replace d with (setBody (m_body r) d); [by apply init_received|]. rewrite Eb, <- Hbody. by destruct d.
Qed.

(** When the bytes of the connection are
    the text of a request and what follows it, in any pieces of which the first
    holds the head, and the head fits the buffer, [recvRequest] gives a request
    with the same method, version, path, query, fragment, body and decision to
    close, whose header map is the map that was sent with the connection and
    length lines of the text.  It has then taken the bytes of the request,
    and those after it that came with the first read: these are lost. *)
Lemma recvRequest_spec garbage relaxed r s piece rest extra
  (Hr : transferable r) (Ha : alive s) (Hi : incoming s = piece :: rest) (Hb : bytes s = dump r ++ extra)
  (Hpiece : (length (request_head r) <= length piece)%nat) (Hbuf : (length (request_head r) <= buff_size)%nat) :
  ∃ r' s', recvRequest cast memory buff_size (new_HttpRequestParser garbage relaxed) s = Ok (Some r', s') ∧
    received r r' ∧
    took (length (dump r) + (Nat.min buff_size (length piece) - length (dump r))) s s'.
Proof.
  destruct Hr as [Hr Hst]. set (n := Nat.min buff_size (length piece)).
  destruct (recv_head_spec garbage relaxed r s piece rest extra (pending s) Hr Ha Hi Hb Hpiece Hbuf)
    as (parser & s1 & E1 & Ht & Hd). fold n in E1, Ht.
  set (data := drop (length (request_head r)) (take n (bytes s))) in *.
  pose proof (dump_split r (sendable_websocket r Hr)) as Hds.
  assert (Hnb : (n <= length (bytes s))%nat).
  { unfold bytes. rewrite Hi. cbn [concat]. rewrite length_app. lia. }
  assert (Hdata : data ++ bytes s1 = m_body r ++ extra).
  { rewrite (took_bytes _ _ _ Ht). unfold data. rewrite <- drop_app_le by (rewrite length_take; lia).
    by rewrite take_drop, Hb, Hds, <- app_assoc, drop_app_length. }
  assert (Hld : length data = (n - length (request_head r))%nat).
  { unfold data. rewrite length_drop, length_take. lia. }
  destruct (recvRequest_body r _ _ _ _ _ n extra Hst E1 Ht Hdata Hd) as (r' & s' & E & Hrec & Htook).
  exists r', s'. split; [done|]. split; [done|].
  replace (length (dump r) + (n - length (dump r)))%nat with (n + (length (m_body r) - length data))%nat; [done|].
  rewrite Hds, length_app. lia.
Qed.
End receiving.
