(* ===== verification/HttpResponseFacts.v ===== *)
(** * HttpResponseFacts: the text of a response through its parser

    As [HttpRequestFacts].  The automaton of responses follows the names of
    three headers (content-length, connection, transfer-encoding) in states of
    their own, so a part of the text leads from a set of states to another. *)

From S2P Require Import Prelude HttpProps.
From S2P Require Export HttpRequestFacts.

(** ** Sets of states *)

(** At the start of a header line. *)
Definition line_states : list Z := [20; 36; 43; 62; 113].
(** Inside a name; 44 to 60 follow the name of transfer-encoding. *)
Definition plain_name_states : list Z :=
  [21; 25; 26; 27; 28; 29; 30; 31; 32; 33; 34; 73; 74; 75; 76; 77; 78; 79; 90; 91; 92; 93; 94;
   101; 102; 103; 104; 105; 106; 107; 108; 109; 110; 111; 117].
Definition transfer_states : list Z := [44; 45; 46; 47; 48; 49; 50; 51; 52; 53; 54; 55; 56; 57; 58; 59; 60].
Definition name_states : list Z := plain_name_states ++ transfer_states.
Definition other_name_states : list Z := plain_name_states ++ take 16 transfer_states.
Definition before_value_states : list Z := [22; 35; 112].
Definition value_states : list Z := [23; 96; 97; 98; 99; 100; 119].

Definition reason_char (c : ascii) : bool := negb (byte_in ["010"; "013"]%char c).

Abbreviation rsp_moves := (moves httpclient_parser_row false client_stops).

(** One of these lists of actions. *)
Definition one_of (ls : list (list client_action)) (a : list client_action) : bool := existsb (λ l, exactly l a) ls.

Lemma line_moves :
  rsp_moves line_states token_char (one_of [[cl_start_field]; [cl_write_connection_close; cl_start_field];
    [cl_start_value; cl_start_field]]) name_states ∧
  rsp_moves name_states token_char silent name_states ∧
  rsp_moves other_name_states (on_char ":") (exactly [cl_write_field]) before_value_states ∧
  rsp_moves before_value_states (on_char " ") (exactly [cl_start_value]) before_value_states ∧
  rsp_moves before_value_states first_value_char (exactly [cl_start_value]) value_states ∧
  rsp_moves value_states value_char silent value_states ∧
  rsp_moves before_value_states (on_char "013") (exactly [cl_start_value; cl_write_value]) [24; 95; 118] ∧
  rsp_moves value_states (on_char "013") (one_of [[cl_write_value]; [cl_write_content_len; cl_write_value]]) [24; 88] ∧
  rsp_moves [24; 95; 118] (on_char newline) silent [20; 36; 113] ∧
  rsp_moves [24; 88] (on_char newline) silent [20; 43].
Proof. split_and!; constructor; by vm_compute. Qed.

Lemma status_moves :
  rsp_moves [16] is_digit (exactly [cl_mark]) [17] ∧
  rsp_moves [17] is_digit silent [17] ∧
  rsp_moves [17] (on_char " ") (exactly [cl_status_code]) [18] ∧
  rsp_moves [18] reason_char (exactly [cl_mark]) [19] ∧
  rsp_moves [19] reason_char silent [19] ∧
  rsp_moves [19] (on_char "013") (exactly [cl_reason_phrase]) [24] ∧
  rsp_moves [24] (on_char newline) silent [20] ∧
  rsp_moves [20; 43] (on_char "013") (one_of [[]; [cl_write_connection_close]]) [3] ∧
  rsp_moves [1] (on_char "H") (exactly [cl_mark]) [8] ∧
  rsp_moves [15] (on_char " ") (exactly [cl_http_version]) [16].
Proof. split_and!; constructor; by vm_compute. Qed.

(** ** The name of transfer-encoding *)

Definition transfer_encoding : text := str "transfer-encoding".

(** After [w] of a name the automaton is in state [t]: if that is one of those
    that follow transfer-encoding, [w] is so much of it. *)
Definition follows (w : text) (t : Z) : Prop :=
  44 <= t <= 60 → map tolower w = take (Z.to_nat (t - 43)) transfer_encoding.

Definition follows_edge (first : bool) (s : Z) (c : ascii) : bool :=
  match find_edge false (httpclient_parser_row s) c with
  | Some e =>
      let t := edge_target e in
      if (44 <=? t) && (t <=? 60) then
        (if first then t =? 44 else (s =? t - 1) && (44 <=? s)) &&
        bool_decide (transfer_encoding !! Z.to_nat (t - 44) = Some (tolower c))
      else true
  | None => true
  end.

Definition follows_check (first : bool) : bool :=
  forallb (λ s, forallb (λ c, implb (token_char c) (follows_edge first s c)) all_bytes)
    (if first then line_states else name_states).

Lemma follows_table first : follows_check first = true.
Proof. destruct first; vm_compute; reflexivity. Qed.

Lemma follows_edge_spec (first : bool) (s : Z) c : s ∈ (if first then line_states else name_states) → token_char c = true →
  follows_edge first s c = true.
Proof.
  intros Hs Hc. pose proof (follows_table first) as H. unfold follows_check in H.
  rewrite forallb_forall in H. apply list_elem_of_In in Hs. specialize (H _ Hs). rewrite forallb_forall in H.
  specialize (H c). rewrite Hc in H. apply H, list_elem_of_In, elem_of_all_bytes.
Qed.

Lemma follows_step (first : bool) (w : text) (s : Z) c e : s ∈ (if first then line_states else name_states) → token_char c = true →
  (if first then w = [] else follows w s) → find_edge false (httpclient_parser_row s) c = Some e →
  follows (w ++ [c]) (edge_target e).
Proof.
  intros Hs Hc Hw He. pose proof (follows_edge_spec first s c Hs Hc) as Hf. unfold follows_edge in Hf. rewrite He in Hf.
  intros [Hlo Hhi]. rewrite (proj2 (Z.leb_le _ _) Hlo), (proj2 (Z.leb_le _ _) Hhi) in Hf. cbn [andb] in Hf.
  apply andb_true_iff in Hf as [Hf Hch%bool_decide_eq_true].
  rewrite map_app. cbn [map].
  replace (Z.to_nat (edge_target e - 43)) with (S (Z.to_nat (edge_target e - 44))) by lia.
  rewrite (take_S_r _ _ _ Hch). f_equal. destruct first.
  - apply Z.eqb_eq in Hf. rewrite Hw, Hf. done.
  - apply andb_true_iff in Hf as [Hf%Z.eqb_eq Hs'%Z.leb_le]. rewrite (Hw ltac:(lia)). f_equal. lia.
Qed.

(** ** The parts of a response *)

(** The response that the callbacks set; the message stays unchunked. *)
Record sets (o : HttpResponseParser) (f : HttpResponse → HttpResponse) (o' : HttpResponseParser) : Prop := {
  sets_data : rsp_data o' = f (rsp_data o);
  sets_error : rsp_error o' = rsp_error o;
  sets_chunked : c_chunked (rsp_parser o') = c_chunked (rsp_parser o)
}.

Lemma sets_trans o f o1 g o2 : sets o f o1 → sets o1 g o2 → sets o (λ d, g (f d)) o2.
Proof. intros [H1 H2 H3] [H4 H5 H6]. split; [by rewrite H4, H1|congruence|congruence]. Qed.

Abbreviation rsp_scan buffer := (scan httpclient_parser_row false (client_act buffer) client_stops).

Implicit Types (o : HttpResponseParser) (buffer pre w rest k v : text).

Lemma client_one buffer p a o o' : client_act buffer p a o = Ok (tt, o') → for_each [a] (client_act buffer p) o = Ok (tt, o').
Proof. intros Ha. cbn [for_each]. by rewrite (bind_run _ _ _ _ _ Ha). Qed.

(** One character from a set of states, its actions in a list of lists. *)
Lemma rsp_char (from to_ : list Z) cls acts buffer c w p s o : rsp_moves from cls acts to_ → s ∈ from → cls c = true →
  ∃ l t, acts l = true ∧ t ∈ to_ ∧
    ∀ o', for_each l (client_act buffer p) o = Ok (tt, o') → rsp_scan buffer (c :: w) p s o = rsp_scan buffer w (p + 1) t o'.
Proof. exact (scan_cons httpclient_parser_row false (client_act buffer) client_stops from to_ cls acts c w p s o). Qed.

(** *** Names *)

Lemma name_rest buffer w0 w p (s : Z) o : Forall (λ c, token_char c = true) w → s ∈ name_states → follows w0 s →
  ∃ t, rsp_scan buffer w p s o = Ok (t, o) ∧ t ∈ name_states ∧ follows (w0 ++ w) t.
Proof.
  destruct line_moves as (_ & M & _). intros Hw. revert w0 p s. induction Hw as [|c w Hc Hw IH]; intros w0 p s Hs Hf.
  - exists s. split; [reflexivity|]. split; [exact Hs|]. rewrite app_nil_r. exact Hf.
  - destruct (moves_edge _ _ _ _ _ _ _ _ _ M Hs Hc) as (e & He & Ha & Hst & Ht).
    cbn [scan]. rewrite He. destruct (edge_actions e); [|discriminate Ha]. cbn [for_each existsb]. run ret_run.
    destruct (IH (w0 ++ [c]) (p + 1)%nat (edge_target e)) as (t & E & H1 & H2); [done|by apply (follows_step false w0 s)|].
    exists t. split; [exact E|]. split; [exact H1|]. rewrite <- app_assoc in H2. exact H2.
Qed.

Lemma not_transfer (t : Z) k : t ∈ name_states → follows k t → map tolower k ≠ transfer_encoding → t ∈ other_name_states.
Proof.
  intros Ht Hf Hk. destruct (decide (t = 60)) as [->|Hne].
  - destruct Hk. unfold follows in Hf. etransitivity; [apply Hf; split; by vm_compute|by vm_compute].
  - assert (Hall : forallb (λ t, (t =? 60) || existsb (Z.eqb t) other_name_states) name_states = true) by by vm_compute.
    rewrite forallb_forall in Hall. apply list_elem_of_In in Ht. specialize (Hall _ Ht).
    apply orb_true_iff in Hall as [?%Z.eqb_eq|(x & Hx & ->%Z.eqb_eq)%existsb_exists]; [done|]. by apply list_elem_of_In.
Qed.

(** The actions at the start of a line. *)
Lemma line_start buffer p l o : one_of [[cl_start_field]; [cl_write_connection_close; cl_start_field];
    [cl_start_value; cl_start_field]] l = true →
  ∃ o', for_each l (client_act buffer p) o = Ok (tt, o') ∧ sets o id o' ∧ c_field_start (rsp_parser o') = p.
Proof.
  unfold one_of, exactly. cbn [existsb]. rewrite !orb_true_iff, !bool_decide_eq_true.
  intros [-> | [-> | [-> | ?]]]; [| | |done]; eexists; (split; [reflexivity|]); by split.
Qed.

Lemma rsp_name_part buffer pre k (s : Z) o : name_ok k = true → map tolower k ≠ transfer_encoding → s ∈ line_states →
  ∃ t o', rsp_scan buffer (k ++ [":"%char]) (length pre) s o = Ok (t, o') ∧ t ∈ before_value_states ∧ sets o id o' ∧
    c_field_start (rsp_parser o') = length pre ∧ c_field_len (rsp_parser o') = Z.of_nat (length k).
Proof.
  intros [Hk Hne]%andb_true_iff Hte Hs. apply negb_true_iff, bool_decide_eq_false in Hne. apply forallb_Forall in Hk.
  destruct line_moves as (M1 & _ & M3 & _). destruct k as [|c k]; [done|]. inversion Hk as [|? ? Hc Hk']; subst.
  destruct (moves_edge _ _ _ _ _ _ _ _ _ M1 Hs Hc) as (e & He & Ha & Hst & Ht).
  destruct (line_start buffer (length pre) _ o Ha) as (o1 & E1 & S1 & F1).
  destruct (name_rest buffer [c] k (length pre + 1) (edge_target e) o1) as (t & E2 & Ht2 & Hf2);
    [done|done|by apply (follows_step true [] s)|].
  pose proof (not_transfer t (c :: k) Ht2 Hf2 Hte) as Ht3.
  assert (E3 : rsp_scan buffer (c :: k) (length pre) s o = Ok (t, o1)).
  { cbn [scan]. by rewrite He, (bind_run _ _ _ _ _ E1), Hst. }
  destruct (rsp_char _ _ _ _ buffer ":" [] (length pre + length (c :: k)) t o1 M3 Ht3 ltac:(done))
    as (l & u & ->%bool_decide_eq_true & Hu & Hr).
  set (o2 := mkResponseParser (set_c_field_len (Z.of_nat (length (c :: k))) (rsp_parser o1)) (rsp_data o1) (rsp_error o1)).
  exists u, o2. split_and!; [|done|by destruct S1; split|done|done].
  eapply scan_app; [exact E3|]. rewrite (Hr o2); [done|]. apply client_one.
  unfold client_act. run gets_run. unfold id, on_client, modify, LEN. rewrite F1.
  by replace (Z.of_nat _ - _) with (Z.of_nat (length (c :: k))) by lia.
Qed.

(** *** Values *)

(** The callback for a header gets the two pieces of the buffer. *)
Lemma write_value_run buffer pre k mid v rest p o : k ≠ [] → buffer = pre ++ k ++ mid ++ v ++ rest →
  c_field_start (rsp_parser o) = length pre → c_field_len (rsp_parser o) = Z.of_nat (length k) →
  c_mark (rsp_parser o) = length (pre ++ k ++ mid) → p = (length (pre ++ k ++ mid) + length v)%nat →
  client_act buffer p cl_write_value o =
    Ok (tt, mkResponseParser (rsp_parser o) (rsp_setHeader k v (rsp_data o)) (rsp_error o)).
Proof.
  intros Hk Hb Hfs Hfl Hm ->. unfold client_act. run gets_run. unfold id. rewrite Hfl, Hfs, Hm. unfold on_response_http_field.
  destruct (Z.eqb_spec (Z.of_nat (length k)) 0) as [Hk0|_]; [by destruct k|].
  replace (Z.of_nat (length k)) with (LEN (length pre) (length pre + length k)) by (unfold LEN; lia).
  assert (Hb' : buffer = (pre ++ k ++ mid) ++ v ++ rest) by by rewrite Hb, <- !app_assoc.
  rewrite Hb at 1. run std_string_piece. rewrite Hb'. run std_string_piece. done.
Qed.

(** The states after a line: the empty line ends the parse only from 20 and 43. *)
Definition after_line (v : text) : list Z := if decide (v = []) then [20; 36; 113] else [20; 43].

Lemma after_line_states v t : t ∈ after_line v → t ∈ line_states.
Proof. unfold after_line, line_states. case_decide; rewrite !elem_of_cons, elem_of_nil; intuition. Qed.

Lemma rsp_value_part buffer pre k mid v rest (s : Z) o : value_ok v = true → k ≠ [] →
  buffer = pre ++ k ++ mid ++ v ++ crlf ++ rest → s ∈ before_value_states →
  c_field_start (rsp_parser o) = length pre → c_field_len (rsp_parser o) = Z.of_nat (length k) →
  ∃ t o', rsp_scan buffer (v ++ crlf) (length (pre ++ k ++ mid)) s o = Ok (t, o') ∧ t ∈ after_line v ∧
    sets o (rsp_setHeader k v) o'.
Proof.
  intros Hv Hk Hb Hs Hfs Hfl. destruct line_moves as (_ & _ & _ & _ & M5 & M6 & M7 & M8 & M9 & M10).
  set (p := length (pre ++ k ++ mid)).
  set (o1 := mkResponseParser (set_c_mark p (rsp_parser o)) (rsp_data o) (rsp_error o)).
  apply andb_true_iff in Hv as [Hv Hhd]. destruct v as [|c v].
  - set (o2 := mkResponseParser (rsp_parser o1) (rsp_setHeader k [] (rsp_data o)) (rsp_error o)).
    assert (Hact : client_act buffer p cl_write_value o1 = Ok (tt, o2)).
    { apply (write_value_run buffer pre k mid [] (crlf ++ rest)); try done; unfold p; simpl; lia. }
    destruct (rsp_char _ _ _ _ buffer "013" [newline] p s o M7 Hs ltac:(done)) as (l & t & ->%bool_decide_eq_true & Ht & Hr).
    change ([] ++ crlf) with ["013"%char; newline]. rewrite (Hr o2) by (cbn [for_each]; rewrite (bind_run _ _ o tt o1) by done; by rewrite (bind_run _ _ _ _ _ Hact)).
    destruct (scan_silent httpclient_parser_row false (client_act buffer) client_stops _ _ _ newline [] (p + 1) t o2 M9 Ht
      ltac:(done)) as (u & Hu & ->). exists u, o2. by split_and!.
  - apply forallb_Forall in Hv. inversion Hv as [|? ? Hc Hv']; subst.
    set (buffer := pre ++ k ++ mid ++ (c :: v) ++ crlf ++ rest).
    destruct (rsp_char _ _ _ _ buffer c v p s o M5 Hs) as (l & t & ->%bool_decide_eq_true & Ht & Hr).
    { unfold first_value_char. by rewrite Hc. }
    destruct (scan_loop httpclient_parser_row false (client_act buffer) client_stops value_states value_char v (p + 1) t o1
      M6 Ht Hv') as (t2 & E2 & Ht2).
    assert (E3 : rsp_scan buffer (c :: v) p s o = Ok (t2, o1)) by (rewrite (Hr o1) by done; exact E2).
    destruct (rsp_char _ _ _ _ buffer "013" [newline] (p + length (c :: v)) t2 o1 M8 Ht2 ltac:(done)) as (l & t3 & Hl & Ht3 & Hr3).
    assert (Hacts : ∃ o2, for_each l (client_act buffer (p + length (c :: v))) o1 = Ok (tt, o2) ∧ sets o1 (rsp_setHeader k (c :: v)) o2).
    { unfold one_of, exactly in Hl. cbn [existsb] in Hl. rewrite !orb_true_iff, !bool_decide_eq_true in Hl.
      destruct Hl as [-> | [-> | Hl]]; [| |done].
      - eexists. split; [apply client_one, (write_value_run buffer pre k mid (c :: v) (crlf ++ rest)); done|by split].
      - cbn [for_each]. set (o1' := mkResponseParser (set_c_content_len (long_to_int (strtol 10 (drop (c_mark (rsp_parser o1)) buffer)))
          (rsp_parser o1)) (rsp_data o1) (rsp_error o1)).
        rewrite (bind_run _ _ o1 tt o1') by done.
        rewrite (bind_run _ _ _ _ _ (write_value_run buffer pre k mid (c :: v) (crlf ++ rest) _ o1' Hk eq_refl Hfs Hfl eq_refl eq_refl)).
        eexists. split; [reflexivity|by split]. }
    destruct Hacts as (o2 & Ea & S2).
    destruct (scan_silent httpclient_parser_row false (client_act buffer) client_stops _ _ _ newline []
      (p + length (c :: v) + 1) t3 o2 M10 Ht3 ltac:(done)) as (u & Hu & E4).
    exists u, o2. split; [|split; [exact Hu|by destruct S2; split]].
    eapply scan_app; [exact E3|]. unfold crlf. rewrite (Hr3 o2 Ea), E4. done.
Qed.

Lemma rsp_header_part pre k v rest (s : Z) o : name_ok k = true → value_ok v = true → map tolower k ≠ transfer_encoding →
  s ∈ line_states →
  ∃ t o', rsp_scan (pre ++ header_line k v ++ rest) (header_line k v) (length pre) s o = Ok (t, o') ∧ t ∈ after_line v ∧
    sets o (rsp_setHeader k v) o'.
Proof.
  intros Hk Hv Hte Hs. destruct line_moves as (_ & _ & _ & M4 & _).
  set (buffer := pre ++ header_line k v ++ rest).
  destruct (rsp_name_part buffer pre k s o Hk Hte Hs) as (t1 & o1 & E1 & Ht1 & S1 & F1 & L1).
  set (p1 := (length pre + length (k ++ [":"%char]))%nat) in *.
  set (o2 := mkResponseParser (set_c_mark p1 (rsp_parser o1)) (rsp_data o1) (rsp_error o1)).
  destruct (rsp_char _ _ _ _ buffer " " (v ++ crlf) p1 t1 o1 M4 Ht1 ltac:(done)) as (l & t2 & ->%bool_decide_eq_true & Ht2 & Hr).
  assert (Hne : k ≠ []) by (intros ->; discriminate Hk).
  destruct (rsp_value_part buffer pre k (str ": ") v rest t2 o2) as (t3 & o3 & E3 & Ht3 & S3); [done|done| |done|done|done|].
  { unfold buffer, header_line. by rewrite <- !app_assoc. }
  exists t3, o3. split; [|split; [exact Ht3|]].
  - unfold header_line.
    replace (k ++ str ": " ++ v ++ crlf) with ((k ++ [":"%char]) ++ " "%char :: (v ++ crlf)) by by rewrite <- app_assoc.
    eapply scan_app; [exact E1|]. fold p1. rewrite (Hr o2) by done.
    replace (p1 + 1)%nat with (length (pre ++ k ++ str ": ")); [exact E3|]. unfold p1. rewrite !length_app. simpl. lia.
  - destruct S1, S3. split; cbn in *; congruence.
Qed.

(** *** The status line *)

(** [f]: what reading [w] after [pre] does to the response. *)
Definition rreads buffer pre w (s : Z) o (to_ : list Z) (f : HttpResponse → HttpResponse) : Prop :=
  ∃ t o', rsp_scan buffer w (length pre) s o = Ok (t, o') ∧ t ∈ to_ ∧ sets o f o'.

Lemma rreads_app buffer pre w1 w2 s o to1 f to2 g :
  rreads buffer pre w1 s o to1 f → (∀ t o1, t ∈ to1 → rreads buffer (pre ++ w1) w2 t o1 to2 g) →
  rreads buffer pre (w1 ++ w2) s o to2 (λ d, g (f d)).
Proof.
  intros (t & o1 & E1 & Ht & S1) H2. destruct (H2 t o1 Ht) as (u & o2 & E2 & Hu & S2). rewrite length_app in E2.
  exists u, o2. split; [by eapply scan_app|]. split; [done|by eapply sets_trans].
Qed.

Lemma read_digits_stop ds rest : Forall (λ c, is_digit c = true) ds → (∀ c, head rest = Some c → is_digit c = false) →
  ds ≠ [] → atoi (ds ++ rest) = read_digits 0 ds.
Proof.
  intros Hds Hr Hne. destruct ds as [|c ds]; [done|]. inversion Hds as [|? ? Hc Hds']; subst.
  assert (is_blank c = false ∧ c ≠ "-"%char ∧ c ≠ "+"%char) as (Hb & H1 & H2).
  { clear -Hc. destruct c as [[] [] [] [] [] [] [] []]; vm_compute in Hc; done. }
  change ((c :: ds) ++ rest) with (c :: (ds ++ rest)). cbn [atoi]. rewrite Hb, !decide_False by done.
  change (c :: ds ++ rest) with ((c :: ds) ++ rest). rewrite read_digits_spec by done.
  rewrite <- (app_nil_r (c :: ds)) at 2. by rewrite read_digits_spec.
Qed.

Lemma version_reads buffer pre (ver : Z) rest o : ver = 16 ∨ ver = 17 → buffer = pre ++ (str "HTTP/" ++ version_text ver) ++ str " " ++ rest →
  rreads buffer pre ((str "HTTP/" ++ version_text ver) ++ str " ") 1 o [16] (rsp_setVersion ver).
Proof.
  intros Hv Hb. destruct status_moves as (_ & _ & _ & _ & _ & _ & _ & _ & M1 & M2).
  set (o1 := mkResponseParser (set_c_mark (length pre) (rsp_parser o)) (rsp_data o) (rsp_error o)).
  set (o2 := mkResponseParser (rsp_parser o1) (rsp_setVersion ver (rsp_data o)) (rsp_error o)).
  assert (E1 : rsp_scan buffer (str "HTTP/" ++ version_text ver) (length pre) 1 o = Ok (15, o1)).
  { assert (Ew : ∃ w, str "HTTP/" ++ version_text ver = "H"%char :: w ∧ ∀ p, rsp_scan buffer w p 8 o1 = Ok (15, o1)).
    { destruct Hv as [-> | ->]; eexists; (split; [reflexivity|]); intros p; reflexivity. }
    destruct Ew as (w & -> & Hr).
    destruct (rsp_char _ _ _ _ buffer "H" w (length pre) 1 o M1 ltac:(by left) ltac:(done))
      as (l & t & ->%bool_decide_eq_true & ->%list_elem_of_singleton & Hr1). by rewrite (Hr1 o1). }
  destruct (rsp_char _ _ _ _ buffer " " [] (length pre + length (str "HTTP/" ++ version_text ver)) 15 o1 M2 ltac:(by left) ltac:(done))
    as (l & t & ->%bool_decide_eq_true & Ht & Hr2).
  exists t, o2. split; [|split; [done|by split]]. eapply scan_app; [exact E1|]. change (str " ") with [" "%char].
  rewrite (Hr2 o2); [done|]. apply client_one. unfold client_act. run gets_run. unfold id.
  change (c_mark (rsp_parser o1)) with (length pre). rewrite Hb, drop_app_length.
  unfold on_response_version, LEN. replace (Z.to_nat _) with (length (str "HTTP/" ++ version_text ver)) by lia.
  destruct Hv as [-> | ->]; reflexivity.
Qed.

Lemma status_reads buffer pre (n : nat) rest o : buffer = pre ++ to_string n ++ str " " ++ rest →
  rreads buffer pre (to_string n ++ str " ") 16 o [18] (rsp_setStatus (Z.of_nat n)).
Proof.
  intros Hb. destruct status_moves as (M1 & M2 & M3 & _). destruct (to_string_spec n) as (Hne & Hds & Hval).
  set (o1 := mkResponseParser (set_c_mark (length pre) (rsp_parser o)) (rsp_data o) (rsp_error o)).
  assert (E1 : rsp_scan buffer (to_string n) (length pre) 16 o = Ok (17, o1)).
  { destruct (to_string n) as [|c ds]; [done|]. inversion Hds as [|? ? Hc Hds']; subst.
    destruct (rsp_char _ _ _ _ (pre ++ (c :: ds) ++ str " " ++ rest) c ds (length pre) 16 o M1 ltac:(by left) Hc)
      as (l & t & ->%bool_decide_eq_true & ->%list_elem_of_singleton & Hr1).
    destruct (scan_loop httpclient_parser_row false (client_act (pre ++ (c :: ds) ++ str " " ++ rest)) client_stops [17] is_digit ds
      (length pre + 1) 17 o1 M2 ltac:(by left) Hds') as (t & E & ->%list_elem_of_singleton).
    rewrite (Hr1 o1) by done. exact E. }
  destruct (rsp_char _ _ _ _ buffer " " [] (length pre + length (to_string n)) 17 o1 M3 ltac:(by left) ltac:(done))
    as (l & t & ->%bool_decide_eq_true & Ht & Hr2).
  set (o2 := mkResponseParser (set_c_status (long_to_int (strtol 10 (drop (length pre) buffer))) (rsp_parser o1))
    (rsp_setStatus (Z.of_nat n) (rsp_data o)) (rsp_error o)).
  assert (Ha : atoi (drop (length pre) buffer) = Z.of_nat n).
  { rewrite Hb, drop_app_length, read_digits_stop; [done|done| |done]. by intros c [= <-]. }
  exists t, o2. split; [|split; [done|by split]]. eapply scan_app; [exact E1|]. change (str " ") with [" "%char].
  rewrite (Hr2 o2); [done|]. apply client_one. unfold client_act. run gets_run. unfold id.
  change (c_mark (rsp_parser o1)) with (length pre). unfold mbind, M_bind, on_client, modify, on_response_status, on_response.
  cbn [rsp_parser rsp_data rsp_error]. by rewrite Ha.
Qed.

Definition reason_ok (w : text) : bool := forallb reason_char w && negb (bool_decide (w = [])).

Lemma reason_reads buffer pre w rest o : reason_ok w = true → buffer = pre ++ w ++ crlf ++ rest →
  rreads buffer pre (w ++ crlf) 18 o [20] (rsp_setReason w).
Proof.
  intros [Hw Hne]%andb_true_iff Hb. apply negb_true_iff, bool_decide_eq_false in Hne. apply forallb_Forall in Hw.
  destruct status_moves as (_ & _ & _ & M4 & M5 & M6 & M7 & _).
  set (o1 := mkResponseParser (set_c_mark (length pre) (rsp_parser o)) (rsp_data o) (rsp_error o)).
  assert (E1 : rsp_scan buffer w (length pre) 18 o = Ok (19, o1)).
  { clear Hb. destruct w as [|c w]; [done|]. inversion Hw as [|? ? Hc Hw']; subst.
    destruct (rsp_char _ _ _ _ buffer c w (length pre) 18 o M4 ltac:(by left) Hc)
      as (l & t & ->%bool_decide_eq_true & ->%list_elem_of_singleton & Hr1).
    destruct (scan_loop httpclient_parser_row false (client_act buffer) client_stops [19] reason_char w
      (length pre + 1) 19 o1 M5 ltac:(by left) Hw') as (t & E & ->%list_elem_of_singleton).
    rewrite (Hr1 o1) by done. exact E. }
  set (o2 := mkResponseParser (rsp_parser o1) (rsp_setReason w (rsp_data o)) (rsp_error o)).
  destruct (rsp_char _ _ _ _ buffer "013" [newline] (length pre + length w) 19 o1 M6 ltac:(by left) ltac:(done))
    as (l & t & ->%bool_decide_eq_true & ->%list_elem_of_singleton & Hr2).
  destruct (scan_silent httpclient_parser_row false (client_act buffer) client_stops _ _ _ newline []
    (length pre + length w + 1) 24 o2 M7 ltac:(by left) ltac:(done)) as (u & Hu & E4).
  exists u, o2. split; [|split; [done|by split]]. eapply scan_app; [exact E1|]. unfold crlf. rewrite (Hr2 o2), E4; [done|].
  apply client_one. unfold client_act. run gets_run. unfold id. change (c_mark (rsp_parser o1)) with (length pre).
  rewrite Hb. run std_string_piece. done.
Qed.

(** *** Lines and the end *)

Definition rsp_add_lines (ls : MapType) (d : HttpResponse) : HttpResponse := foldl (λ d l, rsp_setHeader l.1 l.2 d) d ls.

Definition rsp_line_ok (l : text * text) : bool := line_ok l && negb (bool_decide (map tolower l.1 = transfer_encoding)).

Definition lines_text (ls : MapType) : text := ls ≫= λ l, header_line l.1 l.2.

Lemma rsp_line_reads buffer pre l rest (s : Z) o : rsp_line_ok l = true → s ∈ line_states →
  buffer = pre ++ header_line l.1 l.2 ++ rest →
  rreads buffer pre (header_line l.1 l.2) s o (after_line l.2) (rsp_setHeader l.1 l.2).
Proof.
  intros [[Hk Hv]%andb_true_iff Ht]%andb_true_iff Hs ->. apply negb_true_iff, bool_decide_eq_false in Ht.
  by apply rsp_header_part.
Qed.

Lemma rsp_lines_read buffer pre ls rest (s : Z) o : buffer = pre ++ lines_text ls ++ rest →
  forallb rsp_line_ok ls = true → s ∈ line_states → rreads buffer pre (lines_text ls) s o line_states (rsp_add_lines ls).
Proof.
  unfold lines_text. revert pre s o. induction ls as [|l ls IH]; intros pre s o Hb Hls Hs.
  - exists s, o. split; [done|]. split; [exact Hs|by split].
  - apply andb_true_iff in Hls as [Hl Hls]. rewrite bind_cons in *.
    change (rsp_add_lines (l :: ls)) with (λ d, rsp_add_lines ls (rsp_setHeader l.1 l.2 d)). eapply rreads_app.
    + apply (rsp_line_reads _ _ _ ((ls ≫= λ l, header_line l.1 l.2) ++ rest)); [done|done|by rewrite Hb, <- app_assoc].
    + intros t o1 Ht. apply IH; [by rewrite Hb, <- !app_assoc|done|by eapply after_line_states].
Qed.

Lemma rsp_end_part buffer pre body (s : Z) o : s ∈ [20; 43] →
  ∃ o', run_machine httpclient_parser_row false (client_act buffer) client_stops (crlf ++ body) (length pre) s o =
      Ok ((120, (length pre + 2)%nat), o') ∧ sets o id o'.
Proof.
  intros Hs. destruct status_moves as (_ & _ & _ & _ & _ & _ & _ & M & _).
  destruct (rsp_char _ _ _ _ buffer "013" [] (length pre) s o M Hs ltac:(done)) as (l & t & Hl & ->%list_elem_of_singleton & Hr).
  assert (Ha : ∃ o1, for_each l (client_act buffer (length pre)) o = Ok (tt, o1) ∧ sets o id o1).
  { unfold one_of, exactly in Hl. cbn [existsb] in Hl. rewrite !orb_true_iff, !bool_decide_eq_true in Hl.
    destruct Hl as [-> | [-> | Hl]]; [| |done]; (eexists; split; [reflexivity|by split]). }
  destruct Ha as (o1 & Ea & S1). change (crlf ++ body) with (["013"%char] ++ newline :: body).
  rewrite (scan_run _ _ _ _ ["013"%char] _ _ _ _ 3 o1) by (by rewrite (Hr o1 Ea)).
  cbn [run_machine length].
  assert (Ee : find_edge false (httpclient_parser_row 3) newline = Some (E 10 10 [cl_done] 120)) by done.
  rewrite Ee. change (edge_actions (E 10 10 [cl_done] 120)) with [cl_done]. change (existsb client_stops [cl_done]) with true.
  cbv iota. set (o2 := mkResponseParser (set_c_body_start (length pre + 1 + 1) (rsp_parser o1)) (rsp_data o1) (rsp_error o1)).
  rewrite (bind_run _ _ o1 tt o2) by done. exists o2. split; [|by destruct S1; split].
  change (edge_target (E 10 10 [cl_done] 120)) with 120. unfold mret, M_ret. do 3 f_equal. lia.
Qed.

(** ** A whole response *)

Definition reason_of (d : HttpResponse) : text :=
  if decide (m_reason d = []) then HttpStatusToString (m_status d) else m_reason d.

Definition status_line (d : HttpResponse) : text :=
  ((str "HTTP/" ++ version_text (rsp_version d)) ++ str " ") ++ (to_string (Z.to_nat (m_status d)) ++ str " ") ++
  reason_of d ++ crlf.

Definition connection_line (close : bool) : text * text := (str "connection", if close then str "close" else str "keep-alive").
Definition length_line (body : text) : text * text := (str "content-length", to_string (length body)).

(** The lines that are sent, the last of them apart. *)
Definition first_lines (d : HttpResponse) : MapType :=
  filter (λ l, is_connection l = false) (rsp_headers d) ++ map (λ c, (str "Set-Cookie", c)) (rsp_cookies d) ++
  (if decide (rsp_body d = []) then [] else [connection_line (rsp_close d)]).
Definition last_line (d : HttpResponse) : text * text :=
  if decide (rsp_body d = []) then connection_line (rsp_close d) else length_line (rsp_body d).

Definition response_lines (d : HttpResponse) : MapType := first_lines d ++ [last_line d].
Definition response_head (d : HttpResponse) : text := status_line d ++ lines_text (response_lines d) ++ crlf.

Lemma rsp_dump_split d : rsp_websocket d = false → rsp_dump d = response_head d ++ rsp_body d.
Proof.
  intros Hw. unfold rsp_dump, response_head, response_lines, first_lines, last_line, lines_text, status_line, reason_of, number.
  rewrite Hw, header_lines_filter.
  assert (Ec : connection_text (rsp_close d) = header_line (connection_line (rsp_close d)).1 (connection_line (rsp_close d)).2)
    by by destruct (rsp_close d).
  assert (Es : (rsp_cookies d ≫= λ i, str "Set-Cookie: " ++ i ++ crlf) =
    (map (λ c, (str "Set-Cookie", c)) (rsp_cookies d) ≫= λ l, header_line l.1 l.2)).
  { induction (rsp_cookies d) as [|c l IH]; [done|]. rewrite bind_cons, IH. done. }
  assert (Eb : connection_text (rsp_close d) ++ body_text (rsp_body d) =
    (((if decide (rsp_body d = []) then [] else [connection_line (rsp_close d)]) ++
      [if decide (rsp_body d = []) then connection_line (rsp_close d) else length_line (rsp_body d)])
      ≫= λ l, header_line l.1 l.2) ++ crlf ++ rsp_body d).
  { rewrite bind_app, bind_singleton, Ec. unfold body_text. destruct (decide (rsp_body d = [])) as [->|Hb]; [done|].
    rewrite bind_singleton. unfold length_line. cbn [fst snd]. unfold header_line. by rewrite <- !app_assoc. }
  rewrite Es, Eb, !bind_app. by rewrite <- !app_assoc.
Qed.

(** A response whose text the parser reads back. *)
Record rsp_sendable (d : HttpResponse) : Prop := {
  rsp_sendable_version : rsp_version d = 16 ∨ rsp_version d = 17;
  rsp_sendable_status : 0 <= m_status d;
  rsp_sendable_reason : reason_ok (reason_of d) = true;
  rsp_sendable_websocket : rsp_websocket d = false;
  rsp_sendable_headers : forallb rsp_line_ok (filter (λ l, is_connection l = false) (rsp_headers d)) = true;
  rsp_sendable_cookies : forallb value_ok (rsp_cookies d) = true
}.

Lemma first_lines_ok d : rsp_sendable d → forallb rsp_line_ok (first_lines d) = true.
Proof.
  intros Hd. unfold first_lines. rewrite !forallb_app. rewrite (rsp_sendable_headers d Hd). cbn [andb].
  apply andb_true_iff. split.
  - pose proof (rsp_sendable_cookies d Hd) as Hc. induction (rsp_cookies d) as [|c l IH]; [done|].
    apply andb_true_iff in Hc as [Hc Hl]. cbn [map forallb]. rewrite IH by done. rewrite andb_true_r.
    unfold rsp_line_ok, line_ok. cbn [fst snd]. by rewrite Hc.
  - destruct (decide _); [done|]. by destruct (rsp_close d).
Qed.

Lemma last_line_ok d : rsp_line_ok (last_line d) = true ∧ (last_line d).2 ≠ [].
Proof.
  unfold last_line. destruct (decide _); [by destruct (rsp_close d)|].
  destruct (to_string_spec (length (rsp_body d))) as (Hne & Hds & _). split; [|done].
  unfold rsp_line_ok, line_ok, length_line. cbn [fst snd]. by rewrite (digits_value_ok _ Hds).
Qed.

(** What the callbacks make of the data. *)
Definition rsp_parsed (r d : HttpResponse) : HttpResponse :=
  rsp_add_lines (response_lines r) (rsp_setReason (reason_of r) (rsp_setStatus (m_status r) (rsp_setVersion (rsp_version r) d))).

Lemma status_line_reads d rest o : rsp_sendable d →
  rreads (status_line d ++ rest) [] (status_line d) 1 o [20]
    (λ x, rsp_setReason (reason_of d) (rsp_setStatus (m_status d) (rsp_setVersion (rsp_version d) x))).
Proof.
  intros Hd. set (buffer := status_line d ++ rest). unfold status_line.
  eapply (rreads_app _ _ _ _ _ _ _ _ _ (λ x, rsp_setReason (reason_of d) (rsp_setStatus (m_status d) x))).
  { apply (version_reads _ _ _ ((to_string (Z.to_nat (m_status d)) ++ str " ") ++ reason_of d ++ crlf ++ rest));
      [exact (rsp_sendable_version d Hd)|unfold buffer, status_line; by rewrite <- !app_assoc]. }
  intros t o1 ->%list_elem_of_singleton. eapply (rreads_app _ _ _ _ _ _ _ _ _ (rsp_setReason (reason_of d))).
  { pose proof (status_reads buffer (str "HTTP/" ++ version_text (rsp_version d) ++ str " ") (Z.to_nat (m_status d))
      (reason_of d ++ crlf ++ rest) o1) as H. rewrite Z2Nat.id in H by exact (rsp_sendable_status d Hd).
    rewrite <- app_assoc in *. apply H. unfold buffer, status_line. by rewrite <- !app_assoc. }
  intros t o2 ->%list_elem_of_singleton. apply (reason_reads _ _ _ rest); [exact (rsp_sendable_reason d Hd)|].
  unfold buffer, status_line. by rewrite <- !app_assoc.
Qed.

(** The parser stops exactly after the head. *)
Lemma rsp_head_run d rest o : rsp_sendable d →
  ∃ o', run_machine httpclient_parser_row false (client_act (response_head d ++ rest)) client_stops
      (response_head d ++ rest) 0 1 o = Ok ((120, length (response_head d)), o') ∧ sets o (rsp_parsed d) o'.
Proof.
  intros Hd. set (buffer := response_head d ++ rest). destruct (last_line_ok d) as [Hlast Hne].
  assert (Hreads : rreads buffer [] (status_line d ++ lines_text (response_lines d)) 1 o [20; 43] (rsp_parsed d)).
  { assert (Hb : buffer = (status_line d ++ lines_text (first_lines d)) ++
      header_line (last_line d).1 (last_line d).2 ++ crlf ++ rest).
    { unfold buffer, response_head, response_lines, lines_text. rewrite bind_app, bind_singleton. by rewrite <- !app_assoc. }
    eapply (rreads_app _ _ _ _ _ _ _ _ _ (rsp_add_lines (response_lines d))).
    - unfold buffer, response_head. rewrite <- app_assoc. by apply status_line_reads.
    - intros t o1 ->%list_elem_of_singleton. unfold response_lines, lines_text. rewrite bind_app, bind_singleton.
      assert (Ea : ∀ x, rsp_add_lines (first_lines d ++ [last_line d]) x =
        rsp_setHeader (last_line d).1 (last_line d).2 (rsp_add_lines (first_lines d) x)).
      { intros x. unfold rsp_add_lines. by rewrite foldl_app. }
      destruct (rreads_app buffer ([] ++ status_line d) (lines_text (first_lines d)) (header_line (last_line d).1 (last_line d).2)
        20 o1 line_states (rsp_add_lines (first_lines d)) [20; 43] (rsp_setHeader (last_line d).1 (last_line d).2))
        as (u & o' & E1 & Hu & S1).
      + apply (rsp_lines_read _ _ _ (header_line (last_line d).1 (last_line d).2 ++ crlf ++ rest));
          [by rewrite Hb, <- !app_assoc|by apply first_lines_ok|by left].
      + intros t o2 Ht. pose proof (rsp_line_reads buffer (([] ++ status_line d) ++ lines_text (first_lines d)) (last_line d)
          (crlf ++ rest) t o2 Hlast Ht Hb) as H. unfold after_line in H. by rewrite decide_False in H.
      + exists u, o'. split; [exact E1|]. split; [exact Hu|]. destruct S1 as [S1 S2 S3]. split; [by rewrite Ea|done|done]. }
  destruct Hreads as (t & o1 & E1 & Ht & S1).
  destruct (rsp_end_part buffer (status_line d ++ lines_text (response_lines d)) rest t o1 Ht) as (o2 & E2 & S2).
  exists o2. split; [|exact (sets_trans _ _ _ _ _ S1 S2)].
  assert (Hb : buffer = (status_line d ++ lines_text (response_lines d)) ++ crlf ++ rest).
  { unfold buffer, response_head. by rewrite <- !app_assoc. }
  rewrite Hb at 2. rewrite (scan_run _ _ _ _ _ _ _ _ _ _ _ E1), Nat.add_0_l, E2. do 3 f_equal.
  unfold response_head. rewrite !length_app. change (length crlf) with 2%nat. lia.
Qed.
