(* ===== verification/HttpResponseWire.v ===== *)
(** * HttpResponseWire: a response that is sent is received

    As [HttpWire], for [HttpConnection::recvResponse] and a body that is not
    chunked, which is what the servers of the repository send. *)

From S2P Require Import Prelude HttpProps.
From S2P Require Export HttpWire HttpResponseFacts.

(** ** The checks of [execute] *)

Definition client_marks_ok (len : nat) (o : HttpResponseParser) : Prop :=
  (c_body_start (rsp_parser o) <= len ∧ c_mark (rsp_parser o) < len ∧ c_field_start (rsp_parser o) < len)%nat ∧
  c_field_len (rsp_parser o) <= Z.of_nat len.

Definition client_cleared (o : HttpResponseParser) : HttpResponseParser :=
  mkResponseParser (set_c_field_start 0 (set_c_field_len 0 (set_c_mark 0 (set_c_nread 0 (rsp_parser o))))) (rsp_data o) (rsp_error o).

Lemma client_act_marks buffer len p a o o' : (p < len)%nat → client_marks_ok len o →
  client_act buffer p a o = Ok (tt, o') → client_marks_ok len o'.
Proof.
  intros Hp Hm. unfold client_marks_ok in *. destruct Hm as [(Hb & Hmk & Hf) Hl].
  assert (Hwp : wp (client_act buffer p a) (λ _, client_marks_ok len) o); [|intros E; exact (Hwp tt o' E)].
  unfold client_act, on_response_http_field, on_response_version, on_response_status, on_response_reason,
    std_string, on_response, on_client, rsp_setError, LEN.
  wp_run; unfold client_marks_ok; cbn; split_and!; try lia; try done.
Qed.

(** The checks after the run hold on every buffer that is not empty. *)
Lemma client_execute_run buffer o t p o1 : buffer ≠ [] → c_body_start (rsp_parser o) = 0%nat →
  run_machine httpclient_parser_row false (client_act buffer) client_stops buffer 0 (c_cs (rsp_parser o)) (client_cleared o)
    = Ok ((t, p), o1) →
  httpclient_parser_execute buffer o =
    Ok (Z.of_nat p, mkResponseParser (set_c_nread p (set_c_cs t (rsp_parser o1))) (rsp_data o1) (rsp_error o1)).
Proof.
  intros Hne Hbs E1.
  destruct (run_machine_inv httpclient_parser_row false (client_act buffer) client_stops (client_marks_ok (length buffer))
    (length buffer) (λ p a o o', client_act_marks buffer (length buffer) p a o o') buffer 0 (c_cs (rsp_parser o))
    (client_cleared o) t p o1) as [Hm Hp]; [lia| |exact E1|].
  { unfold client_marks_ok, client_cleared. cbn. rewrite Hbs. destruct buffer; [done|]. cbn [length]. lia. }
  unfold httpclient_parser_execute. rewrite (bind_run _ _ o tt (client_cleared o)) by done. run gets_run. unfold id.
  change (c_cs (rsp_parser (client_cleared o))) with (c_cs (rsp_parser o)). rewrite (bind_run _ _ _ _ _ E1).
  set (o2 := mkResponseParser (set_c_nread p (set_c_cs t (rsp_parser o1))) (rsp_data o1) (rsp_error o1)).
  rewrite (bind_run _ _ o1 tt o2) by done. run gets_run. unfold id. destruct Hm as [(Hb & Hmk & Hf) Hl].
  rewrite !assert_run by (apply Nat.leb_le; assumption).
  cbn [rsp_parser o2 set_c_nread set_c_cs c_mark c_field_len c_field_start].
  rewrite (proj2 (Nat.ltb_lt _ _) Hmk), (proj2 (Nat.ltb_lt _ _) Hf), (proj2 (Z.leb_le _ _) Hl). done.
Qed.

Lemma response_head_pos d : (0 < length (response_head d))%nat.
Proof. unfold response_head. rewrite !length_app. change (length crlf) with 2%nat. lia. Qed.

Lemma response_head_execute garbage d rest : rsp_sendable d →
  ∃ o', response_execute (response_head d ++ rest) false (new_HttpResponseParser garbage)
      = Ok ((length (response_head d), rest), o') ∧
    rsp_data o' = rsp_parsed d (new_HttpResponse 17 true) ∧ response_hasError o' = false ∧ response_isFinished o' = 1 ∧
    c_chunked (rsp_parser o') = false.
Proof.
  intros Hd. set (o := new_HttpResponseParser garbage).
  destruct (rsp_head_run d rest (client_cleared o) Hd) as (o1 & E1 & [Hdata He Hch]).
  assert (Hne : response_head d ++ rest ≠ []).
  { pose proof (response_head_pos d) as H. intros E. apply (f_equal length) in E. rewrite length_app in E. simpl in E. lia. }
  exists (mkResponseParser (set_c_nread (length (response_head d)) (set_c_cs 120 (rsp_parser o1))) (rsp_data o1) (rsp_error o1)).
  split; [|split; [exact Hdata|]].
  - unfold response_execute. rewrite (bind_run _ _ o tt o) by done.
    rewrite (bind_run _ _ _ _ _ (client_execute_run _ o _ _ _ Hne eq_refl E1)). cbn beta.
    destruct (Z.ltb_spec (Z.of_nat (length (response_head d))) 0); [lia|].
    rewrite Nat2Z.id, drop_app_length. reflexivity.
  - unfold response_hasError, response_isFinished. cbn. rewrite He. split_and!; [done..|exact Hch].
Qed.

(** ** The headers *)

Definition cookie_key : text := fold_key (str "Set-Cookie").

(** The header map that is received: of several cookies the last. *)
Definition received_rsp_headers (d : HttpResponse) : gmap text text :=
  let h := delete connection_key (fields (rsp_headers d)) in
  let h := match last (rsp_cookies d) with Some c => <[cookie_key := c]> h | None => h end in
  let h := <[connection_key := if rsp_close d then str "close" else str "keep-alive"]> h in
  if decide (rsp_body d = []) then h else <[length_key := to_string (length (rsp_body d))]> h.

Lemma rsp_add_lines_eq ls d : rsp_add_lines ls d = rsp_setHeaders (put_lines (rsp_headers d) ls) d.
Proof.
  revert d. induction ls as [|l ls IH]; intros d; [by destruct d|]. unfold rsp_add_lines, put_lines. cbn [foldl].
  apply (IH (rsp_setHeader l.1 l.2 d)).
Qed.

Lemma cookie_lines (cookies : list text) (g : gmap text text) :
  foldl (λ g l, <[fold_key l.1 := l.2]> g) g (map (λ c, (str "Set-Cookie", c)) cookies) =
  match last cookies with Some c => <[cookie_key := c]> g | None => g end.
Proof.
  revert g. induction cookies as [|c l IH]; intros g; [done|]. cbn [map foldl fst snd]. rewrite IH. fold cookie_key.
  rewrite last_cons. destruct (last l); [|done]. by rewrite insert_insert_eq.
Qed.

Lemma rsp_parsed_headers r d : sorted_map (rsp_headers r) → rsp_headers d = [] →
  fields (rsp_headers (rsp_parsed r d)) = received_rsp_headers r.
Proof.
  intros Hs Hd. unfold rsp_parsed. rewrite rsp_add_lines_eq.
  cbn [rsp_headers rsp_setHeaders rsp_setReason rsp_setStatus rsp_setVersion]. rewrite Hd.
  destruct (filter_fields _ Hs) as [Hfs Hff].
  rewrite (proj2 (put_lines_spec _ [] ltac:(constructor))). unfold response_lines, first_lines, last_line.
  rewrite !foldl_app, (insert_lines (filter _ _)), Hff by exact Hfs. change (fields []) with (∅ : gmap text text).
  rewrite (right_id_L ∅ (∪)), cookie_lines. unfold received_rsp_headers, connection_line, length_line.
  by case_decide.
Qed.

(** ** Receiving a response *)

(** What arrives of a response; the reason is never empty, and the decision to
    close is not read from the text. *)
Record rsp_received (d d' : HttpResponse) : Prop := {
  rsp_received_status : m_status d' = m_status d;
  rsp_received_version : rsp_version d' = rsp_version d;
  rsp_received_reason : m_reason d' = reason_of d;
  rsp_received_body : rsp_body d' = rsp_body d;
  rsp_received_close : rsp_close d' = true;
  rsp_received_fields : fields (rsp_headers d') = received_rsp_headers d
}.

(** A response that can be received, as [transferable]. *)
Record rsp_transferable (memory : Z) (d : HttpResponse) : Prop := {
  rsp_transferable_text : rsp_sendable d;
  rsp_transferable_status : m_status d < 2 ^ 31;
  rsp_transferable_sorted : sorted_map (rsp_headers d);
  rsp_transferable_empty : rsp_body d = [] → default (to_string 0) (fields (rsp_headers d) !! length_key) = to_string 0;
  rsp_transferable_size : Z.of_nat (length (rsp_body d)) < 2 ^ 31;
  rsp_transferable_memory : Z.of_nat (length (rsp_body d)) <= memory
}.

Lemma parsed_received d body d' : sorted_map (rsp_headers d) → d' = rsp_parsed d (new_HttpResponse 17 true) → body = rsp_body d →
  rsp_received d (if decide (body = []) then d' else rsp_setBody body d').
Proof.
  intros Hs -> ->. pose proof (rsp_parsed_headers d (new_HttpResponse 17 true) Hs eq_refl) as Hf.
  unfold rsp_parsed in *. rewrite rsp_add_lines_eq in *. case_decide as Hb; by split.
Qed.

Section receiving.
Context (cast : text → option Z) (memory : Z) (buff_size : nat).
Context (Hcast : ∀ n, Z.of_nat n < 2 ^ 64 → cast (to_string n) = Some (Z.of_nat n)).

Lemma rsp_content_length d parser : rsp_transferable memory d →
  rsp_data parser = rsp_parsed d (new_HttpResponse 17 true) →
  to_int64 (response_getContentLength cast parser) = Z.of_nat (length (rsp_body d)).
Proof.
  intros [_ _ Hs Hempty Hsize _] Hd. unfold response_getContentLength, getAs.
  rewrite map_find_spec, Hd, rsp_parsed_headers by done. fold length_key. unfold received_rsp_headers.
  destruct (decide (rsp_body d = [])) as [Eb|Eb].
  - rewrite lookup_insert_ne, Eb by (by vm_compute). apply (content_length_absent cast Hcast).
    destruct (last (rsp_cookies d)); rewrite ?(lookup_insert_ne _ cookie_key), lookup_delete_ne by (by vm_compute); by apply Hempty.
  - rewrite lookup_insert_eq. rewrite Hcast by lia. apply to_int64_id. lia.
Qed.

(** The first [read] brings the whole head. *)
Lemma recv_response_head_spec garbage d s piece rest extra fuel : rsp_sendable d → alive s →
  incoming s = piece :: rest → bytes s = rsp_dump d ++ extra → (length (response_head d) <= length piece)%nat →
  (length (response_head d) <= buff_size)%nat →
  let n := Nat.min buff_size (length piece) in
  ∃ parser s', recv_response_head buff_size (S fuel) (new_HttpResponseParser garbage) [] s =
      Ok (Some (parser, drop (length (response_head d)) (take n (bytes s))), s') ∧ took n s s' ∧
    rsp_data parser = rsp_parsed d (new_HttpResponse 17 true) ∧ c_chunked (rsp_parser parser) = false.
Proof.
  intros Hr Ha Hi Hb Hpiece Hbuf n. pose proof (response_head_pos d) as Hpos.
  destruct (read_step buff_size s Ha) as (k & s1 & Hk & Hkb & E1 & Ht & Hkn); [lia| |].
  { unfold bytes. rewrite Hi. destruct piece; [simpl in Hpiece; lia|done]. }
  specialize (Hkn _ _ Hi). fold n in Hkn. subst k. cbn [recv_response_head length]. rewrite Nat.sub_0_r.
  rewrite (bind_run _ _ _ _ _ E1). cbn [fst snd app]. destruct (Z.leb_spec (Z.of_nat n) 0); [lia|].
  assert (Hd : take n (bytes s) = response_head d ++ drop (length (response_head d)) (take n (bytes s))).
  { apply (head_of_take _ _ (rsp_body d ++ extra)); [|lia].
    by rewrite Hb, (rsp_dump_split d (rsp_sendable_websocket d Hr)), <- app_assoc. }
  set (data := drop (length (response_head d)) (take n (bytes s))) in *.
  destruct (response_head_execute garbage d data Hr) as (parser & E2 & Hdata & Herr & Hfin & Hch).
  rewrite Hd. unfold mbind at 1, M_bind at 1, with_parser. rewrite E2. cbn beta iota zeta. rewrite Herr, Hfin.
  assert (Hlen : (length data <? buff_size)%nat = true).
  { apply Nat.ltb_lt. unfold data. rewrite length_drop, length_take. lia. }
  destruct (Nat.eqb_spec (length data) buff_size) as [E|_]; [apply Nat.ltb_lt in Hlen; lia|].
  exists parser, s1. by split_and!.
Qed.

(** When the bytes of the connection
    are the text of a response and what follows it, in any pieces of which the
    first holds the head, and the head fits the buffer, [recvResponse] gives a
    response with the same status, version and body and the reason of the
    text; of several cookies the last is left, and the decision to close is
    always yes. *)
Lemma recvResponse_spec garbage d s piece rest extra
  (Hr : rsp_transferable memory d) (Ha : alive s) (Hi : incoming s = piece :: rest) (Hb : bytes s = rsp_dump d ++ extra)
  (Hpiece : (length (response_head d) <= length piece)%nat) (Hbuf : (length (response_head d) <= buff_size)%nat) :
  ∃ d' s', recvResponse cast memory buff_size (new_HttpResponseParser garbage) s = Ok (Some d', s') ∧
    rsp_received d d' ∧
    took (length (rsp_dump d) + (Nat.min buff_size (length piece) - length (rsp_dump d))) s s'.
Proof.
  set (n := Nat.min buff_size (length piece)).
  destruct (recv_response_head_spec garbage d s piece rest extra (pending s) (rsp_transferable_text _ d Hr) Ha Hi Hb Hpiece Hbuf)
    as (parser & s1 & E1 & Ht & Hd & Hch). fold n in E1, Ht.
  set (data := drop (length (response_head d)) (take n (bytes s))) in *.
  pose proof (rsp_content_length d parser Hr Hd) as Hcl. destruct Hr as [Hr _ Hs _ Hsize Hmem].
  pose proof (rsp_dump_split d (rsp_sendable_websocket d Hr)) as Hds.
  assert (Hnb : (n <= length (bytes s))%nat).
  { unfold bytes. rewrite Hi. cbn [concat]. rewrite length_app. lia. }
  assert (Hdata : data ++ bytes s1 = rsp_body d ++ extra).
  { rewrite (took_bytes _ _ _ Ht). unfold data. rewrite <- drop_app_le by (rewrite length_take; lia).
    by rewrite take_drop, Hb, Hds, <- app_assoc, drop_app_length. }
  assert (Hld : length data = (n - length (response_head d))%nat).
  { unfold data. rewrite length_drop, length_take. lia. }
  unfold recvResponse. run gets_run. unfold id. rewrite (bind_run _ _ _ _ _ E1). rewrite Hch, Hcl.
  rewrite Hds, length_app. destruct (Z.gtb_spec (Z.of_nat (length (rsp_body d))) 0) as [Hpos|Hz].
  - destruct (read_body_spec memory (rsp_body d) extra data s1) as (s2 & E2 & Ht2); [apply Ht|done|lia|done|done|].
    rewrite bind_assoc, (bind_run _ _ _ _ _ E2). run ret_run. eexists _, s2. split; [reflexivity|].
    split; [by apply parsed_received|].
    replace (length (response_head d) + length (rsp_body d) + (n - (length (response_head d) + length (rsp_body d))))%nat
      with (n + (length (rsp_body d) - length data))%nat by lia. by eapply took_trans.
  - assert (rsp_body d = []) as Eb by (apply length_nil_inv; lia). rewrite Eb. cbn [length]. run ret_run.
    eexists _, s1. split; [reflexivity|]. split; [by apply parsed_received|].
    by replace (length (response_head d) + 0 + (n - (length (response_head d) + 0)))%nat with n by lia.
Qed.
End receiving.
