(* ===== verification/HttpLink.v ===== *)
(** * HttpLink: a message from one end of a connection to the other

    What is sent with [sendRequest] or [sendResponse] is received with
    [recvRequest] or [recvResponse], whatever the pieces in which the kernel
    accepts and delivers the bytes, provided the first delivers the head. *)

From S2P Require Import Prelude HttpProps.
From S2P Require Export HttpWire HttpResponseWire.

(** ** Sending everything *)

(** The kernel accepts [n] bytes, some at each [send]. *)
Record accepts (n : nat) (ws : list Z) : Prop := {
  accepts_some : Forall (λ w, 0 < w) ws;
  accepts_all : Z.of_nat n <= foldr Z.add 0 ws
}.

(** [w] was sent, nothing was received. *)
Record gave (w : text) (s s' : Socket) : Prop := {
  gave_connected : sock_isConnected s' = true;
  gave_sent : sent s' = sent s ++ w;
  gave_incoming : incoming s' = incoming s;
  gave_at_end : at_end s' = at_end s
}.

(** The cutting [pieces] of what is on the way: nothing is lost, and the first
    piece has [least] bytes where there are so many. *)
Record cutting (pieces : text → list text) (least : nat) : Prop := {
  cutting_all w : concat (pieces w) = w;
  cutting_pieces w : Forall (λ p, p ≠ []) (pieces w);
  cutting_first w p l : pieces w = p :: l → (Nat.min least (length w) <= length p)%nat
}.

(** The socket of the receiver. *)
Definition delivered (pieces : text → list text) (w : text) : Socket := mkSocket true (pieces w) 0 [] [].

(** A cutting into pieces of one size. *)
Fixpoint cut_every (n fuel : nat) (w : text) : list text :=
  match fuel with
  | O => []
  | S fuel' => if decide (w = []) then [] else take n w :: cut_every n fuel' (drop n w)
  end.

Lemma sum_positive (ws : list Z) : Forall (λ w, 0 < w) ws → 0 <= foldr Z.add 0 ws.
Proof. induction 1; cbn; lia. Qed.

Lemma writeFixSize_all_loop fuel buffer s : (length buffer < fuel)%nat → sock_isConnected s = true →
  accepts (length buffer) (window s) →
  ∃ s', writeFixSize_loop fuel buffer s = Ok (None, s') ∧ gave buffer s s'.
Proof.
  revert buffer s. induction fuel as [|fuel IH]; intros buffer s Hf Hc [Hpos Hsum]; [lia|]. cbn [writeFixSize_loop].
  destruct (decide (buffer = [])) as [->|Hne].
  - exists s. split; [done|]. split; [done| |done..]. by rewrite app_nil_r.
  - unfold SocketStream_write, sock_send. rewrite bind_assoc. run gets_run. unfold id. rewrite Hc. cbn [negb].
    rewrite bind_assoc. run gets_run. unfold id. rewrite Hc. cbn [negb].
    destruct (window s) as [|w ws] eqn:Hw.
    { cbn in Hsum. destruct buffer; [done|cbn [length] in Hsum; lia]. }
    inversion Hpos as [|? ? Hw0 Hws]; subst. set (n := Z.min w (Z.of_nat (length buffer))). rewrite bind_assoc.
    assert (0 < length buffer)%nat by (destruct buffer; [done|cbn [length]; lia]).
    set (s1 := mkSocket (sock_isConnected s) (incoming s) (at_end s) ws (sent s ++ take (Z.to_nat n) buffer)).
    rewrite (bind_run _ _ s tt s1) by done. run ret_run. destruct (Z.leb_spec n 0); [lia|].
    destruct (IH (drop (Z.to_nat n) buffer) s1) as (s2 & E & [G1 G2 G3 G4]).
    + rewrite length_drop. lia.
    + exact Hc.
    + split; [exact Hws|]. rewrite length_drop. pose proof (sum_positive ws Hws). cbn [window s1]. cbn [foldr] in Hsum. lia.
    + exists s2. split; [exact E|]. split; [done| |done..]. rewrite G2. unfold s1. cbn [sent]. by rewrite <- app_assoc, take_drop.
Qed.

Lemma writeFixSize_all buffer s : sock_isConnected s = true → accepts (length buffer) (window s) →
  ∃ s', writeFixSize buffer s = Ok (long_to_int (Z.of_nat (length buffer)), s') ∧ gave buffer s s'.
Proof.
  intros Hc Hw. destruct (writeFixSize_all_loop (S (length buffer)) buffer s) as (s' & E & G); [lia|done|done|].
  exists s'. split; [|done]. unfold writeFixSize. by rewrite (bind_run _ _ _ _ _ E).
Qed.

Lemma delivered_first pieces least w h rest : cutting pieces least → w = h ++ rest → h ≠ [] → (length h <= least)%nat →
  alive (delivered pieces w) ∧ bytes (delivered pieces w) = w ∧
  ∃ p l, incoming (delivered pieces w) = p :: l ∧ (length h <= length p)%nat.
Proof.
  intros [Hall Hpcs Hfirst] Hw Hh Hl. split; [split; [done|apply Hpcs]|]. split; [by apply Hall|]. cbn [incoming delivered].
  destruct (pieces w) as [|p l] eqn:E.
  - pose proof (Hall w) as Ew. rewrite E in Ew. cbn in Ew. rewrite <- Ew in Hw. destruct h; [done|discriminate Hw].
  - exists p, l. split; [done|]. specialize (Hfirst w p l E). rewrite Hw, length_app in Hfirst. lia.
Qed.

Lemma cut_every_cutting n fuel : (0 < n)%nat → ∀ w, (length w < fuel)%nat →
  concat (cut_every n fuel w) = w ∧ Forall (λ p, p ≠ []) (cut_every n fuel w) ∧
  (∀ p l, cut_every n fuel w = p :: l → (Nat.min n (length w) <= length p)%nat).
Proof.
  intros Hn. induction fuel as [|fuel IH]; intros w Hw; [lia|]. cbn [cut_every].
  destruct (decide (w = [])) as [->|Hne]; [by split_and!|].
  assert (0 < length w)%nat by (destruct w; [done|cbn [length]; lia]).
  destruct (IH (drop n w)) as (H1 & H2 & _); [rewrite length_drop; lia|]. split_and!.
  - cbn [concat]. by rewrite H1, take_drop.
  - constructor; [|done]. intros E. apply (f_equal length) in E. rewrite length_take in E. cbn [length] in E. lia.
  - intros p l [= <- <-]. by rewrite length_take.
Qed.

(** ** The two claims *)

Section link.
Context (cast : text → option Z) (memory : Z) (buff_size least : nat) (pieces : text → list text).
Context (Hcast : ∀ n, Z.of_nat n < 2 ^ 64 → cast (to_string n) = Some (Z.of_nat n)).
Context (Hcut : cutting pieces least).

Lemma request_sent r client : sock_isConnected client = true → accepts (length (dump r)) (window client) →
  ∃ client', sendRequest r client = Ok (long_to_int (Z.of_nat (length (dump r))), client') ∧ gave (dump r) client client'.
Proof. apply writeFixSize_all. Qed.

Lemma request_delivered garbage relaxed r : transferable memory r → (length (request_head r) <= Nat.min least buff_size)%nat →
  ∃ r' s', recvRequest cast memory buff_size (new_HttpRequestParser garbage relaxed) (delivered pieces (dump r)) = Ok (Some r', s') ∧
    received r r' ∧ bytes s' = [] ∧ alive s'.
Proof.
  intros Hr Hl. pose proof (transferable_text _ _ Hr) as Hs.
  pose proof (request_head_pos r Hs) as Hpos.
  destruct (delivered_first pieces least (dump r) (request_head r) (m_body r) Hcut) as (Ha & Hb & p & l & Hi & Hp);
    [by apply dump_split, Hs|intros E; rewrite E in Hpos; cbn in Hpos; lia|lia|].
  destruct (recvRequest_spec cast memory buff_size Hcast garbage relaxed r _ p l [] Hr Ha Hi ltac:(by rewrite app_nil_r) Hp ltac:(lia))
    as (r' & s' & E & Hrec & Ht).
  exists r', s'. split_and!; [done|done| |apply Ht]. rewrite (took_bytes _ _ _ Ht), Hb. apply drop_ge. lia.
Qed.

Lemma response_delivered garbage d : rsp_transferable memory d → (length (response_head d) <= Nat.min least buff_size)%nat →
  ∃ d' s', recvResponse cast memory buff_size (new_HttpResponseParser garbage) (delivered pieces (rsp_dump d)) = Ok (Some d', s') ∧
    rsp_received d d' ∧ bytes s' = [] ∧ alive s'.
Proof.
  intros Hr Hl. pose proof (rsp_transferable_text _ _ Hr) as Hs. pose proof (response_head_pos d) as Hpos.
  destruct (delivered_first pieces least (rsp_dump d) (response_head d) (rsp_body d) Hcut) as (Ha & Hb & p & l & Hi & Hp);
    [by apply rsp_dump_split, Hs|intros E; rewrite E in Hpos; cbn in Hpos; lia|lia|].
  destruct (recvResponse_spec cast memory buff_size Hcast garbage d _ p l [] Hr Ha Hi ltac:(by rewrite app_nil_r) Hp ltac:(lia))
    as (d' & s' & E & Hrec & Ht).
  exists d', s'. split_and!; [done|done| |apply Ht]. rewrite (took_bytes _ _ _ Ht), Hb. apply drop_ge. lia.
Qed.

(** (C18) A request of the grammar that is sent is received. It has version 1.0 or 1.1, a method but M-SEARCH and the invalid one, a path that begins with one slash, path, query and
    fragment of the characters and escapes of the grammar, no websocket; header names of token characters, different without regard to case, values without line ends, null or DEL
    that begin with no blank; without a body no length but 0, and a body below 2^31 bytes that fits the memory. Its head fits the buffer and arrives in one piece.
    Then [sendRequest] gives the kernel all the bytes, however many it accepts at a time, and [recvRequest] makes of them, in any such pieces, a request with the same method, version, path, query,
    fragment, body and decision to close, whose header map is the one that was sent with the connection and length lines of the text. Nothing is left over. Outside this it can fail: M-SEARCH is not read, a head
    cut inside a token is misread (findings at http.cc:17, http_parser.cc:167). *)
Theorem request_roundtrip garbage relaxed r client
  (Hr : transferable memory r) (Hfit : (length (request_head r) <= Nat.min least buff_size)%nat)
  (Hc : sock_isConnected client = true) (Hw : accepts (length (dump r)) (window client)) :
  ∃ client', sendRequest r client = Ok (long_to_int (Z.of_nat (length (dump r))), client') ∧ gave (dump r) client client' ∧
  ∃ r' server', recvRequest cast memory buff_size (new_HttpRequestParser garbage relaxed) (delivered pieces (dump r)) = Ok (Some r', server') ∧
    received r r' ∧ bytes server' = [].
Proof.
  destruct (request_sent r client Hc Hw) as (client' & E & G). exists client'. split_and!; [exact E|exact G|].
  destruct (request_delivered garbage relaxed r Hr Hfit) as (r' & s' & E' & Hrec & Hbytes & _). by exists r', s'.
Qed.

(** (C19) A response of the grammar that is sent is received. It has version 1.0 or 1.1, a status below 2^31, a reason of the grammar, not empty, no websocket, cookies and header
    lines as for requests, none of them transfer-encoding, header names different without regard to case; without a body no length but 0, and a body below 2^31 bytes that fits the memory. Its head fits the
    buffer and arrives in one piece. Then [recvResponse] makes of the bytes that [sendResponse] gave the kernel a response with the same status, version and body, the reason of the text, and the headers
    that were sent with the connection, cookie and length lines of the text: of several cookies the last is left. The decision to close is not read: it is always yes. A head cut inside a token is misread
    (finding at http_parser.cc:167), and chunked bodies are left out. *)
Theorem response_roundtrip garbage d server
  (Hr : rsp_transferable memory d) (Hfit : (length (response_head d) <= Nat.min least buff_size)%nat)
  (Hc : sock_isConnected server = true) (Hw : accepts (length (rsp_dump d)) (window server)) :
  ∃ server', sendResponse d server = Ok (long_to_int (Z.of_nat (length (rsp_dump d))), server') ∧ gave (rsp_dump d) server server' ∧
  ∃ d' client', recvResponse cast memory buff_size (new_HttpResponseParser garbage) (delivered pieces (rsp_dump d)) = Ok (Some d', client') ∧
    rsp_received d d' ∧ bytes client' = [].
Proof.
  destruct (writeFixSize_all (rsp_dump d) server Hc Hw) as (server' & E & G). exists server'.
  split_and!; [exact E|exact G|].
  destruct (response_delivered garbage d Hr Hfit) as (d' & s' & E' & Hrec & Hbytes & _). by exists d', s'.
Qed.
End link.

(** ** Witnesses *)

(** [lexical_cast] on decimal digits. *)
Definition decimal (s : text) : option Z :=
  if forallb is_digit s && negb (bool_decide (s = [])) then Some (read_digits 0 s) else None.

Lemma decimal_to_string n : decimal (to_string n) = Some (Z.of_nat n).
Proof.
  destruct (to_string_spec n) as (Hne & Hds & Hv). unfold decimal.
  rewrite (proj2 (forallb_Forall _ _) Hds), bool_decide_eq_false_2 by done. by rewrite Hv.
Qed.

Definition big_pieces (w : text) : list text := cut_every 200 (S (length w)) w.

Lemma big_pieces_cutting : cutting big_pieces 200.
Proof.
  split; intros w; [|..|intros p l]; destruct (cut_every_cutting 200 (S (length w)) ltac:(lia) w ltac:(lia)) as (H1 & H2 & H3);
    [exact H1|exact H2|]. exact (H3 p l).
Qed.

Definition sample_post : HttpRequest :=
  setHeader (str "Host") (str "localhost") (setBody (str "a=1&b=2") (setQuery (str "x=%20")
    (setPath (str "/rpc/Echo/Say") (setMethod POST (new_HttpRequest 17 false))))).

Definition sample_answer : HttpResponse :=
  rsp_setHeader (str "Content-Type") (str "text/plain") (rsp_setBody (str "hello") (new_HttpResponse 17 false)).

Definition sample_client : Socket := mkSocket true [] 0 [50; 100; 200] [].

Lemma sample_sorted (m : MapType) : length m = 1%nat → sorted_map m.
Proof. destruct m as [|x [|]]; [done| |done]. intros _. repeat constructor. Qed.

Lemma sample_transferable : transferable 1000 sample_post.
Proof.
  split; [|split].
  - split; [done|by right|done|done|done|done|done].
  - by apply sample_sorted.
  - by vm_compute.
  - by vm_compute.
  - by vm_compute.
Qed.

Lemma request_roundtrip_witness :
  ∃ r' server', recvRequest decimal 1000 300 (new_HttpRequestParser 7 false) (delivered big_pieces (dump sample_post))
      = Ok (Some r', server') ∧ received sample_post r'.
Proof.
  destruct (request_roundtrip decimal 1000 300 200 big_pieces (λ n _, decimal_to_string n) big_pieces_cutting 7 false
    sample_post sample_client) as (client' & _ & _ & r' & server' & E' & Hr & _).
  - exact sample_transferable.
  - apply Nat.leb_le. by vm_compute.
  - done.
  - split; [repeat constructor|by vm_compute].
  - exists r', server'. exact (conj E' Hr).
Defined.

Lemma response_roundtrip_witness :
  ∃ d' client', recvResponse decimal 1000 300 (new_HttpResponseParser 7) (delivered big_pieces (rsp_dump sample_answer))
      = Ok (Some d', client') ∧ rsp_received sample_answer d'.
Proof.
  destruct (response_roundtrip decimal 1000 300 200 big_pieces (λ n _, decimal_to_string n) big_pieces_cutting 7
    sample_answer sample_client) as (server' & _ & _ & d' & client' & E' & Hr & _).
  - split; [split|..]; [by right|done|by vm_compute|done|by vm_compute|done|done|by apply sample_sorted|done|done|done].
  - apply Nat.leb_le. by vm_compute.
  - done.
  - split; [repeat constructor|by vm_compute].
  - exists d', client'. exact (conj E' Hr).
Defined.
