(* ===== verification/HttpSplit.v ===== *)
(** * HttpSplit: a head that does not arrive in one piece

    [execute] moves what it parsed out of the buffer and the next [execute]
    sets the marks to zero, so a part of the head that was begun in one piece
    and ended in another is read as if it began with the second piece. *)

From S2P Require Import Prelude HttpProps.
From S2P Require Export HttpLink.

(** ** The path in two pieces *)

(** A path of which [u] arrives with a slash before it, and [w] after. *)
Record path_cut (r : HttpRequest) (u w : text) : Prop := {
  path_cut_whole : m_path r = str "/" ++ u ++ w;
  path_cut_first : uri_text path_char u = true;
  path_cut_some : u ≠ [];
  path_cut_second : uri_text path_char w = true
}.

Definition first_piece (r : HttpRequest) (u : text) : text := (HttpMethodToString (m_method r) ++ str " ") ++ str "/" ++ u.

(** The rest of the head, after the second part of the path. *)
Definition head_rest (r : HttpRequest) (w : text) : text :=
  uri_of w (m_query r) (m_fragment r) ++ (str "HTTP/" ++ version_text (m_version r)) ++ crlf ++
  (request_lines r ≫= λ l, header_line l.1 l.2) ++ crlf.

Lemma head_cut r u w : path_cut r u w → request_head r = first_piece r u ++ head_rest r w.
Proof.
  intros [Hp _ _ _]. unfold request_head, request_line, first_piece, head_rest, uri_of. rewrite Hp. by rewrite <- !app_assoc.
Qed.

(** ** The first piece *)

Section split.
Context (relaxed : bool).
Implicit Types (o : HttpRequestParser) (r : HttpRequest) (u w : text).

Abbreviation req_scan buffer := (scan http_parser_row relaxed (http_act buffer) http_stops).
Abbreviation req_run buffer := (run_machine http_parser_row relaxed (http_act buffer) http_stops).

Lemma first_piece_scan r u w o : sendable r → path_cut r u w →
  ∃ o', req_scan (first_piece r u) (first_piece r u) 0 1 o = Ok (26, o') ∧ becomes o (setMethod (m_method r)) o'.
Proof.
  intros Hr [Hp Hu Hne Hw]. set (buffer := first_piece r u).
  destruct (method_part relaxed (m_method r) buffer (str "/" ++ u) o) as (o1 & E1 & B1);
    [exact (sendable_method r Hr)|unfold buffer, first_piece; by rewrite <- app_assoc|].
  set (n := length (HttpMethodToString (m_method r) ++ str " ")).
  set (o2 := mkRequestParser (set_mark n (req_parser o1)) (req_data o1) (req_error o1)).
  exists o2. split; [|by destruct B1; split].
  eapply scan_app; [exact E1|]. fold n. rewrite Nat.add_0_l.
  destruct (path_end_moves relaxed) as (_ & _ & _ & _ & _ & _ & Hslash).
  change (str "/" ++ u) with ("/"%char :: u).
  rewrite (scan_char relaxed [3] "/" [act_mark] 33 buffer u n 3 o1 o2 Hslash) by (done || by left).
  destruct (path_moves relaxed) as (M1 & M2 & M3 & M4 & M5 & M6).
  destruct (scan_uri_entry http_parser_row relaxed (http_act buffer) http_stops [26] [27] [28] path_char M1 M2 M3 M4
    [33] uri_char [] M5 M6 u (n + 1) 33 o2 o2) as (t & ->%list_elem_of_singleton & E2); [done|done|by left| |done|done].
  intros y Hy Hc. unfold path_char in Hc. apply orb_true_iff in Hc as [Hc|Hc%bool_decide_eq_true]; [done|]. subst y.
  pose proof (sendable_path r Hr) as Hok. rewrite Hp in Hok. destruct u as [|y u]; [done|]. injection Hy as ->.
  apply andb_true_iff in Hok as [_ Hh%negb_true_iff%bool_decide_eq_false]. by destruct Hh.
Qed.

(** ** The second piece *)

(** The path that is read in the second piece: the mark is zero. *)
Lemma path_rest_reads w c rest o : uri_text path_char w = true → mark (req_parser o) = 0%nat → c ∈ [" "; "?"; "#"]%char →
  reads relaxed (w ++ c :: rest) [] (w ++ [c]) 26 o
    (if decide (c = " "%char) then 4 else if decide (c = "?"%char) then 29 else 20) (setPath w).
Proof.
  intros Hw Hmark Hc. destruct (path_end_moves relaxed) as (Hsp & Hhash & Hq & _).
  set (buffer := w ++ c :: rest). destruct (path_moves relaxed) as (M1 & M2 & M3 & M4 & _).
  destruct (scan_uri http_parser_row relaxed (http_act buffer) http_stops [26] [27] [28] path_char M1 M2 M3 M4
    (length w) w 0 26 o) as (t & ->%list_elem_of_singleton & E1); [done|done|by left|].
  set (o2 := mkRequestParser (req_parser o) (setPath w (req_data o)) (req_error o)).
  exists o2. split; [|done]. eapply scan_app; [exact E1|].
  assert (Hact : http_act buffer (length w) act_request_path o = Ok (tt, o2)).
  { unfold http_act. run gets_run. unfold id. run (marked_piece [] w (c :: rest) o Hmark). done. }
  assert (Hact2 : for_each [act_request_path; act_request_uri] (http_act buffer (length w)) o = Ok (tt, o2)).
  { cbn [for_each]. by rewrite (bind_run _ _ _ _ _ Hact). }
  assert (Hact1 : for_each [act_request_path] (http_act buffer (length w)) o = Ok (tt, o2)) by by apply acts_one.
  cbn [length]. rewrite Nat.add_0_l. rewrite !elem_of_cons in Hc. destruct Hc as [-> | [-> | [-> | Hn]]];
    [| | |by apply not_elem_of_nil in Hn].
  - by rewrite (scan_char relaxed _ _ _ _ _ [] _ _ _ _ Hsp ltac:(by left) Hact2).
  - by rewrite (scan_char relaxed _ _ _ _ _ [] _ _ _ _ Hq ltac:(by left) Hact1).
  - by rewrite (scan_char relaxed _ _ _ _ _ [] _ _ _ _ Hhash ltac:(by left) Hact2).
Qed.

Lemma head_rest_run r w rest o : sendable r → uri_text path_char w = true → mark (req_parser o) = 0%nat →
  ∃ o', req_run (head_rest r w ++ rest) (head_rest r w ++ rest) 0 26 o = Ok ((348, length (head_rest r w)), o') ∧
    becomes o (λ d, add_lines (request_lines r) (setVersion (m_version r)
      (set_some setFragment (m_fragment r) (set_some setQuery (m_query r) (setPath w d))))) o'.
Proof.
  intros Hr Hw Hmark. set (buffer := head_rest r w ++ rest).
  set (lines := request_lines r ≫= λ l, header_line l.1 l.2).
  set (uri := uri_of w (m_query r) (m_fragment r)). set (version := (str "HTTP/" ++ version_text (m_version r)) ++ crlf).
  assert (Hb : buffer = (uri ++ version) ++ lines ++ crlf ++ rest).
  { unfold buffer, head_rest, version. by rewrite <- !app_assoc. }
  assert (Hreads : reads relaxed buffer [] (uri ++ version) 26 o 13 (λ d, setVersion (m_version r)
      (set_some setFragment (m_fragment r) (set_some setQuery (m_query r) (setPath w d))))).
  { eapply reads_app.
    - apply (uri_reads_from relaxed buffer [] w (m_query r) (m_fragment r) (version ++ lines ++ crlf ++ rest));
        [by rewrite Hb, <- app_assoc| |exact (sendable_query r Hr)|exact (sendable_fragment r Hr)].
      intros c rest' Hc ->. by apply path_rest_reads.
    - intros o1 _. assert (Hb' : buffer = ([] ++ uri) ++ (str "HTTP/" ++ version_text (m_version r)) ++ crlf ++ lines ++ crlf ++ rest).
      { rewrite Hb. unfold version. by rewrite <- !app_assoc. }
      rewrite Hb'. apply version_part. exact (sendable_version r Hr). }
  destruct Hreads as (o1 & E1 & B1).
  destruct (lines_run relaxed r buffer (uri ++ version) rest o1 Hr Hb) as (o2 & E2 & B2). fold lines in E2.
  exists o2. split; [|exact (becomes_trans _ _ _ _ _ B1 B2)].
  rewrite Hb at 2. rewrite (scan_run _ _ _ _ _ _ _ _ _ _ _ E1), Nat.add_0_l, E2. do 3 f_equal.
  unfold head_rest, version. by rewrite <- !app_assoc.
Qed.
End split.

(** ** The two calls of [execute] *)

Lemma http_act_keeps buffer relaxed p a o o' : http_stops a = false →
  body_start (req_parser o) = 0%nat ∧ uri_relaxed (req_parser o) = relaxed → http_act buffer p a o = Ok (tt, o') →
  body_start (req_parser o') = 0%nat ∧ uri_relaxed (req_parser o') = relaxed.
Proof.
  intros Ha Hk.
  assert (Hwp : wp (http_act buffer p a) (λ _ o', body_start (req_parser o') = 0%nat ∧ uri_relaxed (req_parser o') = relaxed) o);
    [|intros E; exact (Hwp tt o' E)].
  unfold http_act, on_request_http_field, on_request_version, on_request_method, on_request_fragment, on_request_path,
    on_request_query, std_string, on_data, on_parser, setError.
  destruct a; try discriminate Ha; wp_run; cbn; try exact Hk.
Qed.

(** After the first piece the parser is inside the path. *)
Lemma first_execute garbage relaxed r u w : sendable r → path_cut r u w →
  ∃ o', request_execute (first_piece r u) (new_HttpRequestParser garbage relaxed)
      = Ok ((length (first_piece r u), []), o') ∧
    req_data o' = setMethod (m_method r) (new_HttpRequest 17 true) ∧ req_error o' = 0 ∧
    cs (req_parser o') = 26 ∧ body_start (req_parser o') = 0%nat ∧ uri_relaxed (req_parser o') = relaxed.
Proof.
  intros Hr Hc. set (o := new_HttpRequestParser garbage relaxed). set (buffer := first_piece r u).
  destruct (first_piece_scan relaxed r u w (cleared o) Hr Hc) as (o1 & E1 & [Hd He]). fold buffer in E1.
  assert (HI : body_start (req_parser (cleared o)) = 0%nat ∧ uri_relaxed (req_parser (cleared o)) = relaxed) by done.
  destruct (scan_inv http_parser_row relaxed (http_act buffer) http_stops
    (λ o, body_start (req_parser o) = 0%nat ∧ uri_relaxed (req_parser o) = relaxed) _ _ _ _ _ _
    (λ q a x y, http_act_keeps buffer relaxed q a x y) HI E1) as [Hbs Hrel].
  pose proof (scan_run _ _ _ _ buffer [] _ _ _ _ _ E1) as E2. rewrite app_nil_r in E2. cbn [run_machine] in E2.
  assert (Hne : buffer ≠ []).
  { unfold buffer, first_piece. pose proof (sendable_method r Hr) as Hm. by destruct (m_method r). }
  exists (mkRequestParser (set_nread (length buffer) (set_cs 26 (req_parser o1))) (req_data o1) (req_error o1)).
  split; [|by split_and!].
  unfold request_execute. rewrite (bind_run _ _ _ _ _ (execute_run buffer o 26 (length buffer) o1 Hne ltac:(done) eq_refl E2)).
  cbn beta. by rewrite drop_all.
Qed.

(** The second piece ends the head. *)
Lemma second_execute relaxed r w rest o : sendable r → uri_text path_char w = true →
  cs (req_parser o) = 26 → body_start (req_parser o) = 0%nat → uri_relaxed (req_parser o) = relaxed → req_error o = 0 →
  req_data o = setMethod (m_method r) (new_HttpRequest 17 true) →
  ∃ o', request_execute (head_rest r w ++ rest) o = Ok ((length (head_rest r w), rest), o') ∧
    req_data o' = parsed (setPath w r) (new_HttpRequest 17 true) ∧ request_hasError o' = false ∧ request_isFinished o' = 1.
Proof.
  intros Hr Hw Hcs Hbs Hrel He Hd.
  destruct (head_rest_run relaxed r w rest (cleared o) Hr Hw eq_refl) as (o1 & E1 & [Hd1 He1]).
  assert (Hne : head_rest r w ++ rest ≠ []).
  { unfold head_rest, uri_of. intros E. apply (f_equal length) in E. rewrite !length_app in E. cbn in E. lia. }
  exists (mkRequestParser (set_nread (length (head_rest r w)) (set_cs 348 (req_parser o1))) (req_data o1) (req_error o1)).
  split; [|split].
  - assert (Hcs0 : cs (req_parser o) ≠ 0) by lia. unfold request_execute. rewrite <- Hrel, <- Hcs in E1.
    rewrite (bind_run _ _ _ _ _ (execute_run _ o _ _ _ Hne Hcs0 Hbs E1)).
    cbn beta. rewrite drop_app_length. reflexivity.
  - cbn [req_data]. rewrite Hd1. cbn [req_data cleared]. by rewrite Hd.
  - unfold request_hasError, request_isFinished. cbn [req_parser req_error cs set_nread set_cs]. change (req_error (cleared o)) with (req_error o) in He1. by rewrite He1, He.
Qed.

Section receiving.
Context (cast : text → option Z) (memory : Z) (buff_size : nat).
Context (Hcast : ∀ n, Z.of_nat n < 2 ^ 64 → cast (to_string n) = Some (Z.of_nat n)).

Lemma recv_split_head garbage relaxed r u w s piece rest extra fuel : sendable r → path_cut r u w → alive s →
  incoming s = first_piece r u :: piece :: rest → bytes s = dump r ++ extra →
  (length (head_rest r w) <= length piece)%nat → (length (request_head r) <= buff_size)%nat →
  let n := Nat.min buff_size (length piece) in
  ∃ parser s', recv_head buff_size (S (S fuel)) (new_HttpRequestParser garbage relaxed) [] s =
      Ok (Some (parser, drop (length (head_rest r w)) (take n (head_rest r w ++ m_body r ++ extra))), s') ∧
    took (length (first_piece r u) + n) s s' ∧ req_data parser = parsed (setPath w r) (new_HttpRequest 17 true).
Proof.
  intros Hr Hc Ha Hi Hb Hpiece Hbuf n. pose proof (head_cut r u w Hc) as Hcut.
  rewrite Hcut, length_app in Hbuf.
  destruct (read_piece buff_size s _ _ Ha Hi) as (s1 & E1 & Ht1 & Hi1); [lia|].
  destruct (first_execute garbage relaxed r u w Hr Hc) as (p1 & X1 & Hd1 & He1 & Hcs & Hbs & Hrel).
  assert (Hlen : (0 < length (first_piece r u))%nat).
  { unfold first_piece. rewrite !length_app. change (length (str " ")) with 1%nat. lia. }
  assert (Hb1 : bytes s1 = head_rest r w ++ m_body r ++ extra).
  { rewrite (took_bytes _ _ _ Ht1), Hb, (dump_split r (sendable_websocket r Hr)), Hcut, <- !app_assoc. by rewrite drop_app_length. }
  assert (Hrest : (0 < length (head_rest r w))%nat).
  { unfold head_rest, uri_of. rewrite !length_app. change (length (str " ")) with 1%nat. lia. }
  cbn [recv_head length]. rewrite Nat.sub_0_r, (bind_run _ _ _ _ _ E1). cbn [fst snd app].
  destruct (Z.leb_spec (Z.of_nat (length (first_piece r u))) 0); [lia|].
  unfold mbind at 1, M_bind at 1, with_parser at 1. rewrite X1. cbn beta iota zeta.
  assert (He : request_hasError p1 = false) by (unfold request_hasError; by rewrite He1, Hcs).
  assert (Hf : request_isFinished p1 = 0) by (unfold request_isFinished; by rewrite Hcs).
  rewrite He, Hf. cbn [length]. destruct (Nat.eqb_spec 0 buff_size); [lia|]. cbn [negb Z.eqb].
  destruct (read_step buff_size s1 (took_alive _ _ _ Ht1)) as (k & s2 & Hk & Hkb & E2 & Ht2 & Hkn); [lia| |].
  { rewrite Hb1. intros E. apply (f_equal length) in E. rewrite length_app in E. cbn in E. lia. }
  specialize (Hkn _ _ Hi1). fold n in Hkn. subst k. rewrite Nat.sub_0_r, (bind_run _ _ _ _ _ E2). cbn [fst snd app].
  destruct (Z.leb_spec (Z.of_nat n) 0); [lia|]. rewrite Hb1.
  assert (Hn : (length (head_rest r w) <= n)%nat) by lia.
  pose proof (head_of_take _ _ (m_body r ++ extra) n eq_refl Hn) as Hd.
  set (data := drop (length (head_rest r w)) (take n (head_rest r w ++ m_body r ++ extra))) in *. rewrite Hd.
  destruct (second_execute relaxed r w data p1 Hr (path_cut_second _ _ _ Hc) Hcs Hbs Hrel He1 Hd1) as (p2 & X2 & Hd2 & He2 & Hf2).
  unfold mbind at 1, M_bind at 1, with_parser. rewrite X2. cbn beta iota zeta. rewrite He2, Hf2.
  destruct (Nat.eqb_spec (length data) buff_size) as [E|_].
  { unfold data in E. rewrite length_drop, length_take in E. lia. }
  exists p2, s2. split_and!; [done|by eapply took_trans|done].
Qed.

(** A head that is cut is misread.  When the head of a request reaches
    [recvRequest] in two pieces and the cut is inside the path, the parse
    does not fail: the request that is received is the one that was sent, but
    for its path, of which only the part after the cut is left. *)
Theorem split_path_misread garbage relaxed r u w s piece rest extra
  (Hr : transferable memory r) (Hc : path_cut r u w) (Ha : alive s)
  (Hi : incoming s = first_piece r u :: piece :: rest) (Hb : bytes s = dump r ++ extra)
  (Hpiece : (length (head_rest r w) <= length piece)%nat) (Hbuf : (length (request_head r) <= buff_size)%nat) :
  ∃ r' s', recvRequest cast memory buff_size (new_HttpRequestParser garbage relaxed) s = Ok (Some r', s') ∧
    received (setPath w r) r' ∧ m_path r' ≠ m_path r.
Proof.
  destruct Hr as [Hr Hst]. set (n := Nat.min buff_size (length piece)).
  assert (Hfuel : ∃ fuel, pending s = S fuel).
  { unfold pending. rewrite Hi. cbn [concat]. unfold first_piece. rewrite !length_app. change (length (str " ")) with 1%nat.
    eexists (pred _). rewrite Nat.succ_pred; [reflexivity|lia]. }
  destruct Hfuel as [fuel Hfuel].
  destruct (recv_split_head garbage relaxed r u w s piece rest extra fuel Hr Hc Ha Hi Hb Hpiece Hbuf)
    as (parser & s1 & E1 & Ht & Hd). fold n in E1, Ht. rewrite <- Hfuel in E1.
  set (whole := head_rest r w ++ m_body r ++ extra) in *. set (data := drop (length (head_rest r w)) (take n whole)) in *.
  assert (Hrest : (length (head_rest r w) <= n)%nat).
  { pose proof (head_cut r u w Hc) as Hcut. rewrite Hcut, length_app in Hbuf. lia. }
  assert (Hdata : data ++ bytes s1 = m_body (setPath w r) ++ extra).
  { rewrite (took_bytes _ _ _ Ht), Hb, (dump_split r (sendable_websocket r Hr)), (head_cut r u w Hc), <- !app_assoc.
    fold whole. rewrite drop_app_add. unfold data.
    assert (length (take n whole) = n) as Hn.
    { rewrite length_take. assert (n <= length whole)%nat; [|lia]. unfold whole, n.
      assert (Hw : bytes s = first_piece r u ++ piece ++ concat rest) by (unfold bytes; by rewrite Hi).
      rewrite Hb, (dump_split r (sendable_websocket r Hr)), (head_cut r u w Hc), <- !app_assoc in Hw.
      apply app_inv_head in Hw. rewrite Hw, length_app. lia. }
    rewrite <- drop_app_le by lia. rewrite take_drop. unfold whole. by rewrite drop_app_length. }
  destruct (recvRequest_body cast memory buff_size Hcast (setPath w r) _ _ _ _ _ _ extra ltac:(destruct Hst; by split) E1 Ht Hdata Hd)
    as (r' & s' & E & Hrec & _).
  exists r', s'. split_and!; [exact E|exact Hrec|]. rewrite (received_path _ _ Hrec), (path_cut_whole _ _ _ Hc). cbn [m_path setPath].
  intros Heq. apply (f_equal length) in Heq. rewrite !length_app in Heq. cbn in Heq. lia.
Qed.
End receiving.

(** ** Witnesses *)

Definition split_post : Socket :=
  let first := first_piece sample_post (str "rpc/Ec") in
  mkSocket true [first; drop (length first) (dump sample_post)] 0 [] [].

Lemma split_path_misread_witness :
  ∃ r' s', recvRequest decimal 1000 300 (new_HttpRequestParser 7 false) split_post = Ok (Some r', s') ∧ m_path r' = str "ho/Say".
Proof.
  destruct (split_path_misread decimal 1000 300 (λ n _, decimal_to_string n) 7 false sample_post (str "rpc/Ec") (str "ho/Say")
    split_post (drop (length (first_piece sample_post (str "rpc/Ec"))) (dump sample_post)) [] [])
    as (r' & s' & E & Hr & _).
  - exact sample_transferable.
  - split; [done|done|done|done].
  - split; [done|]. apply (bool_decide_unpack _). by vm_compute.
  - reflexivity.
  - by vm_compute.
  - apply Nat.leb_le. by vm_compute.
  - apply Nat.leb_le. by vm_compute.
  - exists r', s'. exact (conj E (received_path _ _ Hr)).
Defined.
