(* ===== verification/UriMachine.v ===== *)
(** * UriMachine: the automaton of URIs ([sylar/uri.rl.cc])

    As in [Http11Machine].  The initial state and the first final one is 451;
    [uri_eof_actions] are the actions at the end of the text. *)

From S2P Require Import Prelude Text.
From S2P Require Export Ragel.

(** The actions of [uri.rl]. *)
Inductive uri_action :=
  | uri_marku | uri_markh | uri_save_scheme | uri_save_port | uri_save_userinfo | uri_save_host
  | uri_save_path | uri_save_query | uri_save_fragment.

#[export] Instance uri_action_eq_dec : EqDecision uri_action.
Proof. solve_decision. Defined.

(** ** The states, in the order of the source *)

Definition uri_states_451 (cs : Z) : option (list (edge uri_action)) :=
  match cs with
  | 451 => Some [E (-128) (-1) [] 452; E 33 33 [] 452; E 35 35 [] 453; E 36 36 [] 452; E 37 37 [] 3;
      E 38 46 [] 452; E 47 47 [] 458; E 48 57 [] 452; E 59 59 [] 452; E 61 61 [] 452; E 63 63 [] 456;
      E 64 64 [] 452; E 65 90 [uri_marku] 508; E 95 95 [] 452; E 97 122 [uri_marku] 508; E 126 126 [] 452]
  | 452 => Some [E (-128) (-1) [] 452; E 33 33 [] 452; E 35 35 [] 453; E 36 36 [] 452; E 37 37 [] 3;
      E 38 46 [] 452; E 47 47 [] 455; E 48 57 [] 452; E 59 59 [] 452; E 61 61 [] 452; E 63 63 [] 456;
      E 64 90 [] 452; E 95 95 [] 452; E 97 122 [] 452; E 126 126 [] 452]
  | _ => None
  end.

Definition uri_states_453 (cs : Z) : option (list (edge uri_action)) :=
  match cs with
  | 453 => Some [E (-128) (-1) [uri_marku] 454; E 33 33 [uri_marku] 454; E 36 36 [uri_marku] 454;
      E 37 37 [uri_marku] 1; E 38 59 [uri_marku] 454; E 61 61 [uri_marku] 454; E 63 90 [uri_marku] 454;
      E 95 95 [uri_marku] 454; E 97 122 [uri_marku] 454; E 126 126 [uri_marku] 454]
  | _ => None
  end.

Definition uri_states_454 (cs : Z) : option (list (edge uri_action)) :=
  match cs with
  | 454 => Some [E (-128) (-1) [] 454; E 33 33 [] 454; E 36 36 [] 454; E 37 37 [] 1; E 38 59 [] 454;
      E 61 61 [] 454; E 63 90 [] 454; E 95 95 [] 454; E 97 122 [] 454; E 126 126 [] 454]
  | 1 => Some [E 48 57 [] 2; E 65 70 [] 2; E 97 102 [] 2]
  | 2 => Some [E 48 57 [] 454; E 65 70 [] 454; E 97 102 [] 454]
  | 3 => Some [E 48 57 [] 4; E 65 70 [] 4; E 97 102 [] 4]
  | 4 => Some [E 48 57 [] 452; E 65 70 [] 452; E 97 102 [] 452]
  | 455 => Some [E (-128) (-1) [] 455; E 33 33 [] 455; E 35 35 [] 453; E 36 36 [] 455; E 37 37 [] 5;
      E 38 59 [] 455; E 61 61 [] 455; E 63 63 [] 456; E 64 90 [] 455; E 95 95 [] 455; E 97 122 [] 455;
      E 126 126 [] 455]
  | _ => None
  end.

Definition uri_states_5 (cs : Z) : option (list (edge uri_action)) :=
  match cs with
  | 5 => Some [E 48 57 [] 6; E 65 70 [] 6; E 97 102 [] 6]
  | 6 => Some [E 48 57 [] 455; E 65 70 [] 455; E 97 102 [] 455]
  | _ => None
  end.

Definition uri_states_456 (cs : Z) : option (list (edge uri_action)) :=
  match cs with
  | 456 => Some [E (-128) (-1) [uri_marku] 457; E 33 33 [uri_marku] 457;
      E 35 35 [uri_marku; uri_save_query] 453; E 36 36 [uri_marku] 457; E 37 37 [uri_marku] 7;
      E 38 59 [uri_marku] 457; E 61 61 [uri_marku] 457; E 63 90 [uri_marku] 457; E 95 95 [uri_marku] 457;
      E 97 122 [uri_marku] 457; E 126 126 [uri_marku] 457]
  | _ => None
  end.

Definition uri_states_457 (cs : Z) : option (list (edge uri_action)) :=
  match cs with
  | 457 => Some [E (-128) (-1) [] 457; E 33 33 [] 457; E 35 35 [uri_save_query] 453; E 36 36 [] 457;
      E 37 37 [] 7; E 38 59 [] 457; E 61 61 [] 457; E 63 90 [] 457; E 95 95 [] 457; E 97 122 [] 457;
      E 126 126 [] 457]
  | 7 => Some [E 48 57 [] 8; E 65 70 [] 8; E 97 102 [] 8]
  | 8 => Some [E 48 57 [] 457; E 65 70 [] 457; E 97 102 [] 457]
  | 458 => Some [E (-128) (-1) [] 455; E 33 33 [] 455; E 35 35 [] 453; E 36 36 [] 455; E 37 37 [] 5;
      E 38 46 [] 455; E 47 47 [] 459; E 48 59 [] 455; E 61 61 [] 455; E 63 63 [] 456; E 64 90 [] 455;
      E 95 95 [] 455; E 97 122 [] 455; E 126 126 [] 455]
  | 459 => Some [E 2 2 [uri_markh] 9; E 33 33 [uri_markh] 467; E 35 35 [uri_markh; uri_save_host] 453;
      E 36 36 [uri_markh] 467; E 37 37 [uri_markh] 31; E 38 46 [uri_markh] 467;
      E 47 47 [uri_markh; uri_save_host] 455; E 48 48 [uri_markh] 490; E 49 49 [uri_markh] 504;
      E 50 50 [uri_markh] 506; E 51 57 [uri_markh] 505; E 58 58 [uri_markh; uri_save_host] 468;
      E 59 59 [uri_markh] 467; E 61 61 [uri_markh] 467; E 63 63 [uri_markh; uri_save_host] 456;
      E 64 64 [uri_markh; uri_save_userinfo] 469; E 65 90 [uri_markh] 467; E 91 91 [uri_markh] 38;
      E 95 95 [uri_markh] 467; E 97 122 [uri_markh] 467; E 126 126 [uri_markh] 467]
  | 9 => Some [E 48 52 [] 10]
  | 10 => Some [E 48 57 [] 11]
  | 11 => Some [E 46 46 [] 12]
  | _ => None
  end.

Definition uri_states_12 (cs : Z) : option (list (edge uri_action)) :=
  match cs with
  | 12 => Some [E 2 2 [] 13; E 48 48 [] 15; E 49 49 [] 27; E 50 50 [] 29; E 51 57 [] 28]
  | 13 => Some [E 48 52 [] 14]
  | 14 => Some [E 48 57 [] 15]
  | 15 => Some [E 46 46 [] 16]
  | 16 => Some [E 2 2 [] 17; E 48 48 [] 19; E 49 49 [] 23; E 50 50 [] 25; E 51 57 [] 24]
  | 17 => Some [E 48 52 [] 18]
  | 18 => Some [E 48 57 [] 19]
  | 19 => Some [E 46 46 [] 20]
  | 20 => Some [E 2 2 [] 21; E 48 48 [] 460; E 49 49 [] 463; E 50 50 [] 465; E 51 57 [] 464]
  | 21 => Some [E 48 52 [] 22]
  | 22 => Some [E 48 57 [] 460]
  | 460 => Some [E 35 35 [uri_save_host] 453; E 47 47 [uri_save_host] 455; E 58 58 [uri_save_host] 461;
      E 63 63 [uri_save_host] 456]
  | 461 => Some [E 35 35 [uri_markh; uri_save_port] 453; E 47 47 [uri_markh; uri_save_port] 455;
      E 48 57 [uri_markh] 462; E 63 63 [uri_markh; uri_save_port] 456]
  | _ => None
  end.

Definition uri_states_462 (cs : Z) : option (list (edge uri_action)) :=
  match cs with
  | 462 => Some [E 35 35 [uri_save_port] 453; E 47 47 [uri_save_port] 455; E 48 57 [] 462;
      E 63 63 [uri_save_port] 456]
  | 463 => Some [E 35 35 [uri_save_host] 453; E 47 47 [uri_save_host] 455; E 48 57 [] 464;
      E 58 58 [uri_save_host] 461; E 63 63 [uri_save_host] 456]
  | 464 => Some [E 35 35 [uri_save_host] 453; E 47 47 [uri_save_host] 455; E 48 57 [] 460;
      E 58 58 [uri_save_host] 461; E 63 63 [uri_save_host] 456]
  | 465 => Some [E 35 35 [uri_save_host] 453; E 47 47 [uri_save_host] 455; E 48 52 [] 460; E 53 53 [] 466;
      E 54 57 [] 460; E 58 58 [uri_save_host] 461; E 63 63 [uri_save_host] 456]
  | 466 => Some [E 35 35 [uri_save_host] 453; E 47 47 [uri_save_host] 455; E 48 53 [] 460;
      E 58 58 [uri_save_host] 461; E 63 63 [uri_save_host] 456]
  | 23 => Some [E 46 46 [] 20; E 48 57 [] 24]
  | 24 => Some [E 46 46 [] 20; E 48 57 [] 19]
  | 25 => Some [E 46 46 [] 20; E 48 52 [] 19; E 53 53 [] 26; E 54 57 [] 19]
  | 26 => Some [E 46 46 [] 20; E 48 53 [] 19]
  | 27 => Some [E 46 46 [] 16; E 48 57 [] 28]
  | 28 => Some [E 46 46 [] 16; E 48 57 [] 15]
  | 29 => Some [E 46 46 [] 16; E 48 52 [] 15; E 53 53 [] 30; E 54 57 [] 15]
  | 30 => Some [E 46 46 [] 16; E 48 53 [] 15]
  | _ => None
  end.

Definition uri_states_467 (cs : Z) : option (list (edge uri_action)) :=
  match cs with
  | 467 => Some [E 33 33 [] 467; E 35 35 [uri_save_host] 453; E 36 36 [] 467; E 37 37 [] 31; E 38 46 [] 467;
      E 47 47 [uri_save_host] 455; E 48 57 [] 467; E 58 58 [uri_save_host] 468; E 59 59 [] 467;
      E 61 61 [] 467; E 63 63 [uri_save_host] 456; E 64 64 [uri_save_userinfo] 469; E 65 90 [] 467;
      E 95 95 [] 467; E 97 122 [] 467; E 126 126 [] 467]
  | 31 => Some [E 48 57 [] 32; E 65 70 [] 32; E 97 102 [] 32]
  | 32 => Some [E 48 57 [] 467; E 65 70 [] 467; E 97 102 [] 467]
  | 468 => Some [E 33 33 [] 33; E 35 35 [uri_markh; uri_save_port] 453; E 36 36 [] 33; E 37 37 [] 34;
      E 38 46 [] 33; E 47 47 [uri_markh; uri_save_port] 455; E 48 57 [uri_markh] 489; E 58 59 [] 33;
      E 61 61 [] 33; E 63 63 [uri_markh; uri_save_port] 456; E 64 64 [uri_save_userinfo] 469; E 65 90 [] 33;
      E 95 95 [] 33; E 97 122 [] 33; E 126 126 [] 33]
  | 33 => Some [E 33 33 [] 33; E 36 36 [] 33; E 37 37 [] 34; E 38 46 [] 33; E 48 59 [] 33; E 61 61 [] 33;
      E 64 64 [uri_save_userinfo] 469; E 65 90 [] 33; E 95 95 [] 33; E 97 122 [] 33; E 126 126 [] 33]
  | 34 => Some [E 48 57 [] 35; E 65 70 [] 35; E 97 102 [] 35]
  | _ => None
  end.

Definition uri_states_35 (cs : Z) : option (list (edge uri_action)) :=
  match cs with
  | 35 => Some [E 48 57 [] 33; E 65 70 [] 33; E 97 102 [] 33]
  | 469 => Some [E 2 2 [uri_markh] 9; E 33 33 [uri_markh] 470; E 35 35 [uri_markh; uri_save_host] 453;
      E 36 36 [uri_markh] 470; E 37 37 [uri_markh] 36; E 38 46 [uri_markh] 470;
      E 47 47 [uri_markh; uri_save_host] 455; E 48 48 [uri_markh] 471; E 49 49 [uri_markh] 485;
      E 50 50 [uri_markh] 487; E 51 57 [uri_markh] 486; E 58 58 [uri_markh; uri_save_host] 461;
      E 59 59 [uri_markh] 470; E 61 61 [uri_markh] 470; E 63 63 [uri_markh; uri_save_host] 456;
      E 65 90 [uri_markh] 470; E 91 91 [uri_markh] 38; E 95 95 [uri_markh] 470; E 97 122 [uri_markh] 470;
      E 126 126 [uri_markh] 470]
  | 470 => Some [E 33 33 [] 470; E 35 35 [uri_save_host] 453; E 36 36 [] 470; E 37 37 [] 36; E 38 46 [] 470;
      E 47 47 [uri_save_host] 455; E 48 57 [] 470; E 58 58 [uri_save_host] 461; E 59 59 [] 470;
      E 61 61 [] 470; E 63 63 [uri_save_host] 456; E 65 90 [] 470; E 95 95 [] 470; E 97 122 [] 470;
      E 126 126 [] 470]
  | 36 => Some [E 48 57 [] 37; E 65 70 [] 37; E 97 102 [] 37]
  | 37 => Some [E 48 57 [] 470; E 65 70 [] 470; E 97 102 [] 470]
  | _ => None
  end.

Definition uri_states_471 (cs : Z) : option (list (edge uri_action)) :=
  match cs with
  | 471 => Some [E 33 33 [] 470; E 35 35 [uri_save_host] 453; E 36 36 [] 470; E 37 37 [] 36; E 38 45 [] 470;
      E 46 46 [] 472; E 47 47 [uri_save_host] 455; E 48 57 [] 470; E 58 58 [uri_save_host] 461;
      E 59 59 [] 470; E 61 61 [] 470; E 63 63 [uri_save_host] 456; E 65 90 [] 470; E 95 95 [] 470;
      E 97 122 [] 470; E 126 126 [] 470]
  | 472 => Some [E 2 2 [] 13; E 33 33 [] 470; E 35 35 [uri_save_host] 453; E 36 36 [] 470; E 37 37 [] 36;
      E 38 46 [] 470; E 47 47 [uri_save_host] 455; E 48 48 [] 473; E 49 49 [] 481; E 50 50 [] 483;
      E 51 57 [] 482; E 58 58 [uri_save_host] 461; E 59 59 [] 470; E 61 61 [] 470;
      E 63 63 [uri_save_host] 456; E 65 90 [] 470; E 95 95 [] 470; E 97 122 [] 470; E 126 126 [] 470]
  | 473 => Some [E 33 33 [] 470; E 35 35 [uri_save_host] 453; E 36 36 [] 470; E 37 37 [] 36; E 38 45 [] 470;
      E 46 46 [] 474; E 47 47 [uri_save_host] 455; E 48 57 [] 470; E 58 58 [uri_save_host] 461;
      E 59 59 [] 470; E 61 61 [] 470; E 63 63 [uri_save_host] 456; E 65 90 [] 470; E 95 95 [] 470;
      E 97 122 [] 470; E 126 126 [] 470]
  | 474 => Some [E 2 2 [] 17; E 33 33 [] 470; E 35 35 [uri_save_host] 453; E 36 36 [] 470; E 37 37 [] 36;
      E 38 46 [] 470; E 47 47 [uri_save_host] 455; E 48 48 [] 475; E 49 49 [] 477; E 50 50 [] 479;
      E 51 57 [] 478; E 58 58 [uri_save_host] 461; E 59 59 [] 470; E 61 61 [] 470;
      E 63 63 [uri_save_host] 456; E 65 90 [] 470; E 95 95 [] 470; E 97 122 [] 470; E 126 126 [] 470]
  | 475 => Some [E 33 33 [] 470; E 35 35 [uri_save_host] 453; E 36 36 [] 470; E 37 37 [] 36; E 38 45 [] 470;
      E 46 46 [] 476; E 47 47 [uri_save_host] 455; E 48 57 [] 470; E 58 58 [uri_save_host] 461;
      E 59 59 [] 470; E 61 61 [] 470; E 63 63 [uri_save_host] 456; E 65 90 [] 470; E 95 95 [] 470;
      E 97 122 [] 470; E 126 126 [] 470]
  | _ => None
  end.

Definition uri_states_476 (cs : Z) : option (list (edge uri_action)) :=
  match cs with
  | 476 => Some [E 2 2 [] 21; E 33 33 [] 470; E 35 35 [uri_save_host] 453; E 36 36 [] 470; E 37 37 [] 36;
      E 38 46 [] 470; E 47 47 [uri_save_host] 455; E 48 57 [] 470; E 58 58 [uri_save_host] 461;
      E 59 59 [] 470; E 61 61 [] 470; E 63 63 [uri_save_host] 456; E 65 90 [] 470; E 95 95 [] 470;
      E 97 122 [] 470; E 126 126 [] 470]
  | 477 => Some [E 33 33 [] 470; E 35 35 [uri_save_host] 453; E 36 36 [] 470; E 37 37 [] 36; E 38 45 [] 470;
      E 46 46 [] 476; E 47 47 [uri_save_host] 455; E 48 57 [] 478; E 58 58 [uri_save_host] 461;
      E 59 59 [] 470; E 61 61 [] 470; E 63 63 [uri_save_host] 456; E 65 90 [] 470; E 95 95 [] 470;
      E 97 122 [] 470; E 126 126 [] 470]
  | 478 => Some [E 33 33 [] 470; E 35 35 [uri_save_host] 453; E 36 36 [] 470; E 37 37 [] 36; E 38 45 [] 470;
      E 46 46 [] 476; E 47 47 [uri_save_host] 455; E 48 57 [] 475; E 58 58 [uri_save_host] 461;
      E 59 59 [] 470; E 61 61 [] 470; E 63 63 [uri_save_host] 456; E 65 90 [] 470; E 95 95 [] 470;
      E 97 122 [] 470; E 126 126 [] 470]
  | 479 => Some [E 33 33 [] 470; E 35 35 [uri_save_host] 453; E 36 36 [] 470; E 37 37 [] 36; E 38 45 [] 470;
      E 46 46 [] 476; E 47 47 [uri_save_host] 455; E 48 52 [] 475; E 53 53 [] 480; E 54 57 [] 475;
      E 58 58 [uri_save_host] 461; E 59 59 [] 470; E 61 61 [] 470; E 63 63 [uri_save_host] 456;
      E 65 90 [] 470; E 95 95 [] 470; E 97 122 [] 470; E 126 126 [] 470]
  | 480 => Some [E 33 33 [] 470; E 35 35 [uri_save_host] 453; E 36 36 [] 470; E 37 37 [] 36; E 38 45 [] 470;
      E 46 46 [] 476; E 47 47 [uri_save_host] 455; E 48 53 [] 475; E 54 57 [] 470;
      E 58 58 [uri_save_host] 461; E 59 59 [] 470; E 61 61 [] 470; E 63 63 [uri_save_host] 456;
      E 65 90 [] 470; E 95 95 [] 470; E 97 122 [] 470; E 126 126 [] 470]
  | _ => None
  end.

Definition uri_states_481 (cs : Z) : option (list (edge uri_action)) :=
  match cs with
  | 481 => Some [E 33 33 [] 470; E 35 35 [uri_save_host] 453; E 36 36 [] 470; E 37 37 [] 36; E 38 45 [] 470;
      E 46 46 [] 474; E 47 47 [uri_save_host] 455; E 48 57 [] 482; E 58 58 [uri_save_host] 461;
      E 59 59 [] 470; E 61 61 [] 470; E 63 63 [uri_save_host] 456; E 65 90 [] 470; E 95 95 [] 470;
      E 97 122 [] 470; E 126 126 [] 470]
  | 482 => Some [E 33 33 [] 470; E 35 35 [uri_save_host] 453; E 36 36 [] 470; E 37 37 [] 36; E 38 45 [] 470;
      E 46 46 [] 474; E 47 47 [uri_save_host] 455; E 48 57 [] 473; E 58 58 [uri_save_host] 461;
      E 59 59 [] 470; E 61 61 [] 470; E 63 63 [uri_save_host] 456; E 65 90 [] 470; E 95 95 [] 470;
      E 97 122 [] 470; E 126 126 [] 470]
  | 483 => Some [E 33 33 [] 470; E 35 35 [uri_save_host] 453; E 36 36 [] 470; E 37 37 [] 36; E 38 45 [] 470;
      E 46 46 [] 474; E 47 47 [uri_save_host] 455; E 48 52 [] 473; E 53 53 [] 484; E 54 57 [] 473;
      E 58 58 [uri_save_host] 461; E 59 59 [] 470; E 61 61 [] 470; E 63 63 [uri_save_host] 456;
      E 65 90 [] 470; E 95 95 [] 470; E 97 122 [] 470; E 126 126 [] 470]
  | 484 => Some [E 33 33 [] 470; E 35 35 [uri_save_host] 453; E 36 36 [] 470; E 37 37 [] 36; E 38 45 [] 470;
      E 46 46 [] 474; E 47 47 [uri_save_host] 455; E 48 53 [] 473; E 54 57 [] 470;
      E 58 58 [uri_save_host] 461; E 59 59 [] 470; E 61 61 [] 470; E 63 63 [uri_save_host] 456;
      E 65 90 [] 470; E 95 95 [] 470; E 97 122 [] 470; E 126 126 [] 470]
  | _ => None
  end.

Definition uri_states_485 (cs : Z) : option (list (edge uri_action)) :=
  match cs with
  | 485 => Some [E 33 33 [] 470; E 35 35 [uri_save_host] 453; E 36 36 [] 470; E 37 37 [] 36; E 38 45 [] 470;
      E 46 46 [] 472; E 47 47 [uri_save_host] 455; E 48 57 [] 486; E 58 58 [uri_save_host] 461;
      E 59 59 [] 470; E 61 61 [] 470; E 63 63 [uri_save_host] 456; E 65 90 [] 470; E 95 95 [] 470;
      E 97 122 [] 470; E 126 126 [] 470]
  | 486 => Some [E 33 33 [] 470; E 35 35 [uri_save_host] 453; E 36 36 [] 470; E 37 37 [] 36; E 38 45 [] 470;
      E 46 46 [] 472; E 47 47 [uri_save_host] 455; E 48 57 [] 471; E 58 58 [uri_save_host] 461;
      E 59 59 [] 470; E 61 61 [] 470; E 63 63 [uri_save_host] 456; E 65 90 [] 470; E 95 95 [] 470;
      E 97 122 [] 470; E 126 126 [] 470]
  | 487 => Some [E 33 33 [] 470; E 35 35 [uri_save_host] 453; E 36 36 [] 470; E 37 37 [] 36; E 38 45 [] 470;
      E 46 46 [] 472; E 47 47 [uri_save_host] 455; E 48 52 [] 471; E 53 53 [] 488; E 54 57 [] 471;
      E 58 58 [uri_save_host] 461; E 59 59 [] 470; E 61 61 [] 470; E 63 63 [uri_save_host] 456;
      E 65 90 [] 470; E 95 95 [] 470; E 97 122 [] 470; E 126 126 [] 470]
  | 488 => Some [E 33 33 [] 470; E 35 35 [uri_save_host] 453; E 36 36 [] 470; E 37 37 [] 36; E 38 45 [] 470;
      E 46 46 [] 472; E 47 47 [uri_save_host] 455; E 48 53 [] 471; E 54 57 [] 470;
      E 58 58 [uri_save_host] 461; E 59 59 [] 470; E 61 61 [] 470; E 63 63 [uri_save_host] 456;
      E 65 90 [] 470; E 95 95 [] 470; E 97 122 [] 470; E 126 126 [] 470]
  | _ => None
  end.

Definition uri_states_38 (cs : Z) : option (list (edge uri_action)) :=
  match cs with
  | 38 => Some [E 48 57 [] 39; E 58 58 [] 146; E 65 70 [] 39; E 97 102 [] 39; E 118 118 [] 225]
  | 39 => Some [E 48 57 [] 40; E 58 58 [] 43; E 65 70 [] 40; E 97 102 [] 40]
  | 40 => Some [E 48 57 [] 41; E 58 58 [] 43; E 65 70 [] 41; E 97 102 [] 41]
  | 41 => Some [E 48 57 [] 42; E 58 58 [] 43; E 65 70 [] 42; E 97 102 [] 42]
  | 42 => Some [E 58 58 [] 43]
  | 43 => Some [E 48 57 [] 44; E 58 58 [] 141; E 65 70 [] 44; E 97 102 [] 44]
  | 44 => Some [E 48 57 [] 45; E 58 58 [] 48; E 65 70 [] 45; E 97 102 [] 45]
  | 45 => Some [E 48 57 [] 46; E 58 58 [] 48; E 65 70 [] 46; E 97 102 [] 46]
  | 46 => Some [E 48 57 [] 47; E 58 58 [] 48; E 65 70 [] 47; E 97 102 [] 47]
  | 47 => Some [E 58 58 [] 48]
  | _ => None
  end.

Definition uri_states_48 (cs : Z) : option (list (edge uri_action)) :=
  match cs with
  | 48 => Some [E 48 57 [] 49; E 58 58 [] 136; E 65 70 [] 49; E 97 102 [] 49]
  | 49 => Some [E 48 57 [] 50; E 58 58 [] 53; E 65 70 [] 50; E 97 102 [] 50]
  | 50 => Some [E 48 57 [] 51; E 58 58 [] 53; E 65 70 [] 51; E 97 102 [] 51]
  | 51 => Some [E 48 57 [] 52; E 58 58 [] 53; E 65 70 [] 52; E 97 102 [] 52]
  | 52 => Some [E 58 58 [] 53]
  | 53 => Some [E 48 57 [] 54; E 58 58 [] 131; E 65 70 [] 54; E 97 102 [] 54]
  | 54 => Some [E 48 57 [] 55; E 58 58 [] 58; E 65 70 [] 55; E 97 102 [] 55]
  | 55 => Some [E 48 57 [] 56; E 58 58 [] 58; E 65 70 [] 56; E 97 102 [] 56]
  | 56 => Some [E 48 57 [] 57; E 58 58 [] 58; E 65 70 [] 57; E 97 102 [] 57]
  | 57 => Some [E 58 58 [] 58]
  | 58 => Some [E 48 57 [] 59; E 58 58 [] 126; E 65 70 [] 59; E 97 102 [] 59]
  | _ => None
  end.

Definition uri_states_59 (cs : Z) : option (list (edge uri_action)) :=
  match cs with
  | 59 => Some [E 48 57 [] 60; E 58 58 [] 63; E 65 70 [] 60; E 97 102 [] 60]
  | 60 => Some [E 48 57 [] 61; E 58 58 [] 63; E 65 70 [] 61; E 97 102 [] 61]
  | 61 => Some [E 48 57 [] 62; E 58 58 [] 63; E 65 70 [] 62; E 97 102 [] 62]
  | 62 => Some [E 58 58 [] 63]
  | 63 => Some [E 48 57 [] 64; E 58 58 [] 113; E 65 70 [] 64; E 97 102 [] 64]
  | 64 => Some [E 48 57 [] 65; E 58 58 [] 68; E 65 70 [] 65; E 97 102 [] 65]
  | 65 => Some [E 48 57 [] 66; E 58 58 [] 68; E 65 70 [] 66; E 97 102 [] 66]
  | 66 => Some [E 48 57 [] 67; E 58 58 [] 68; E 65 70 [] 67; E 97 102 [] 67]
  | 67 => Some [E 58 58 [] 68]
  | 68 => Some [E 2 2 [] 69; E 48 48 [] 96; E 49 49 [] 104; E 50 50 [] 107; E 51 57 [] 110; E 58 58 [] 111;
      E 65 70 [] 112; E 97 102 [] 112]
  | 69 => Some [E 48 52 [] 70]
  | _ => None
  end.

Definition uri_states_70 (cs : Z) : option (list (edge uri_action)) :=
  match cs with
  | 70 => Some [E 48 57 [] 71]
  | 71 => Some [E 46 46 [] 72]
  | 72 => Some [E 2 2 [] 73; E 48 48 [] 75; E 49 49 [] 92; E 50 50 [] 94; E 51 57 [] 93]
  | 73 => Some [E 48 52 [] 74]
  | 74 => Some [E 48 57 [] 75]
  | 75 => Some [E 46 46 [] 76]
  | 76 => Some [E 2 2 [] 77; E 48 48 [] 79; E 49 49 [] 88; E 50 50 [] 90; E 51 57 [] 89]
  | 77 => Some [E 48 52 [] 78]
  | 78 => Some [E 48 57 [] 79]
  | 79 => Some [E 46 46 [] 80]
  | 80 => Some [E 2 2 [] 81; E 48 48 [] 83; E 49 49 [] 84; E 50 50 [] 86; E 51 57 [] 85]
  | 81 => Some [E 48 52 [] 82]
  | 82 => Some [E 48 57 [] 83]
  | 83 => Some [E 93 93 [] 460]
  | 84 => Some [E 48 57 [] 85; E 93 93 [] 460]
  | 85 => Some [E 48 57 [] 83; E 93 93 [] 460]
  | 86 => Some [E 48 52 [] 83; E 53 53 [] 87; E 54 57 [] 83; E 93 93 [] 460]
  | _ => None
  end.

Definition uri_states_87 (cs : Z) : option (list (edge uri_action)) :=
  match cs with
  | 87 => Some [E 48 53 [] 83; E 93 93 [] 460]
  | 88 => Some [E 46 46 [] 80; E 48 57 [] 89]
  | 89 => Some [E 46 46 [] 80; E 48 57 [] 79]
  | 90 => Some [E 46 46 [] 80; E 48 52 [] 79; E 53 53 [] 91; E 54 57 [] 79]
  | 91 => Some [E 46 46 [] 80; E 48 53 [] 79]
  | 92 => Some [E 46 46 [] 76; E 48 57 [] 93]
  | 93 => Some [E 46 46 [] 76; E 48 57 [] 75]
  | 94 => Some [E 46 46 [] 76; E 48 52 [] 75; E 53 53 [] 95; E 54 57 [] 75]
  | 95 => Some [E 46 46 [] 76; E 48 53 [] 75]
  | 96 => Some [E 46 46 [] 72; E 48 57 [] 97; E 58 58 [] 100; E 65 70 [] 97; E 97 102 [] 97]
  | 97 => Some [E 48 57 [] 98; E 58 58 [] 100; E 65 70 [] 98; E 97 102 [] 98]
  | 98 => Some [E 48 57 [] 99; E 58 58 [] 100; E 65 70 [] 99; E 97 102 [] 99]
  | 99 => Some [E 58 58 [] 100]
  | _ => None
  end.

Definition uri_states_100 (cs : Z) : option (list (edge uri_action)) :=
  match cs with
  | 100 => Some [E 48 57 [] 101; E 58 58 [] 83; E 65 70 [] 101; E 97 102 [] 101]
  | 101 => Some [E 48 57 [] 102; E 65 70 [] 102; E 93 93 [] 460; E 97 102 [] 102]
  | 102 => Some [E 48 57 [] 103; E 65 70 [] 103; E 93 93 [] 460; E 97 102 [] 103]
  | 103 => Some [E 48 57 [] 83; E 65 70 [] 83; E 93 93 [] 460; E 97 102 [] 83]
  | 104 => Some [E 46 46 [] 72; E 48 57 [] 105; E 58 58 [] 100; E 65 70 [] 97; E 97 102 [] 97]
  | 105 => Some [E 46 46 [] 72; E 48 57 [] 106; E 58 58 [] 100; E 65 70 [] 98; E 97 102 [] 98]
  | 106 => Some [E 46 46 [] 72; E 48 57 [] 99; E 58 58 [] 100; E 65 70 [] 99; E 97 102 [] 99]
  | 107 => Some [E 46 46 [] 72; E 48 52 [] 108; E 53 53 [] 109; E 54 57 [] 108; E 58 58 [] 100;
      E 65 70 [] 97; E 97 102 [] 97]
  | 108 => Some [E 46 46 [] 72; E 48 57 [] 98; E 58 58 [] 100; E 65 70 [] 98; E 97 102 [] 98]
  | _ => None
  end.

Definition uri_states_109 (cs : Z) : option (list (edge uri_action)) :=
  match cs with
  | 109 => Some [E 46 46 [] 72; E 48 53 [] 106; E 54 57 [] 98; E 58 58 [] 100; E 65 70 [] 98; E 97 102 [] 98]
  | 110 => Some [E 46 46 [] 72; E 48 57 [] 108; E 58 58 [] 100; E 65 70 [] 97; E 97 102 [] 97]
  | 111 => Some [E 48 57 [] 101; E 65 70 [] 101; E 97 102 [] 101]
  | 112 => Some [E 48 57 [] 97; E 58 58 [] 100; E 65 70 [] 97; E 97 102 [] 97]
  | 113 => Some [E 2 2 [] 69; E 48 48 [] 114; E 49 49 [] 118; E 50 50 [] 121; E 51 57 [] 124; E 65 70 [] 125;
      E 97 102 [] 125]
  | 114 => Some [E 46 46 [] 72; E 48 57 [] 115; E 58 58 [] 111; E 65 70 [] 115; E 97 102 [] 115]
  | 115 => Some [E 48 57 [] 116; E 58 58 [] 111; E 65 70 [] 116; E 97 102 [] 116]
  | 116 => Some [E 48 57 [] 117; E 58 58 [] 111; E 65 70 [] 117; E 97 102 [] 117]
  | 117 => Some [E 58 58 [] 111]
  | _ => None
  end.

Definition uri_states_118 (cs : Z) : option (list (edge uri_action)) :=
  match cs with
  | 118 => Some [E 46 46 [] 72; E 48 57 [] 119; E 58 58 [] 111; E 65 70 [] 115; E 97 102 [] 115]
  | 119 => Some [E 46 46 [] 72; E 48 57 [] 120; E 58 58 [] 111; E 65 70 [] 116; E 97 102 [] 116]
  | 120 => Some [E 46 46 [] 72; E 48 57 [] 117; E 58 58 [] 111; E 65 70 [] 117; E 97 102 [] 117]
  | 121 => Some [E 46 46 [] 72; E 48 52 [] 122; E 53 53 [] 123; E 54 57 [] 122; E 58 58 [] 111;
      E 65 70 [] 115; E 97 102 [] 115]
  | 122 => Some [E 46 46 [] 72; E 48 57 [] 116; E 58 58 [] 111; E 65 70 [] 116; E 97 102 [] 116]
  | 123 => Some [E 46 46 [] 72; E 48 53 [] 120; E 54 57 [] 116; E 58 58 [] 111; E 65 70 [] 116;
      E 97 102 [] 116]
  | 124 => Some [E 46 46 [] 72; E 48 57 [] 122; E 58 58 [] 111; E 65 70 [] 115; E 97 102 [] 115]
  | 125 => Some [E 48 57 [] 115; E 58 58 [] 111; E 65 70 [] 115; E 97 102 [] 115]
  | _ => None
  end.

Definition uri_states_126 (cs : Z) : option (list (edge uri_action)) :=
  match cs with
  | 126 => Some [E 48 57 [] 127; E 65 70 [] 127; E 97 102 [] 127]
  | 127 => Some [E 48 57 [] 128; E 58 58 [] 113; E 65 70 [] 128; E 97 102 [] 128]
  | 128 => Some [E 48 57 [] 129; E 58 58 [] 113; E 65 70 [] 129; E 97 102 [] 129]
  | 129 => Some [E 48 57 [] 130; E 58 58 [] 113; E 65 70 [] 130; E 97 102 [] 130]
  | 130 => Some [E 58 58 [] 113]
  | 131 => Some [E 48 57 [] 132; E 65 70 [] 132; E 97 102 [] 132]
  | 132 => Some [E 48 57 [] 133; E 58 58 [] 126; E 65 70 [] 133; E 97 102 [] 133]
  | 133 => Some [E 48 57 [] 134; E 58 58 [] 126; E 65 70 [] 134; E 97 102 [] 134]
  | 134 => Some [E 48 57 [] 135; E 58 58 [] 126; E 65 70 [] 135; E 97 102 [] 135]
  | 135 => Some [E 58 58 [] 126]
  | 136 => Some [E 48 57 [] 137; E 65 70 [] 137; E 97 102 [] 137]
  | _ => None
  end.

Definition uri_states_137 (cs : Z) : option (list (edge uri_action)) :=
  match cs with
  | 137 => Some [E 48 57 [] 138; E 58 58 [] 131; E 65 70 [] 138; E 97 102 [] 138]
  | 138 => Some [E 48 57 [] 139; E 58 58 [] 131; E 65 70 [] 139; E 97 102 [] 139]
  | 139 => Some [E 48 57 [] 140; E 58 58 [] 131; E 65 70 [] 140; E 97 102 [] 140]
  | 140 => Some [E 58 58 [] 131]
  | 141 => Some [E 48 57 [] 142; E 65 70 [] 142; E 97 102 [] 142]
  | 142 => Some [E 48 57 [] 143; E 58 58 [] 136; E 65 70 [] 143; E 97 102 [] 143]
  | 143 => Some [E 48 57 [] 144; E 58 58 [] 136; E 65 70 [] 144; E 97 102 [] 144]
  | 144 => Some [E 48 57 [] 145; E 58 58 [] 136; E 65 70 [] 145; E 97 102 [] 145]
  | 145 => Some [E 58 58 [] 136]
  | 146 => Some [E 58 58 [] 147]
  | 147 => Some [E 2 2 [] 69; E 48 48 [] 148; E 49 49 [] 217; E 50 50 [] 220; E 51 57 [] 223; E 65 70 [] 224;
      E 93 93 [] 460; E 97 102 [] 224]
  | _ => None
  end.

Definition uri_states_148 (cs : Z) : option (list (edge uri_action)) :=
  match cs with
  | 148 => Some [E 46 46 [] 72; E 48 57 [] 149; E 58 58 [] 152; E 65 70 [] 149; E 93 93 [] 460;
      E 97 102 [] 149]
  | 149 => Some [E 48 57 [] 150; E 58 58 [] 152; E 65 70 [] 150; E 93 93 [] 460; E 97 102 [] 150]
  | 150 => Some [E 48 57 [] 151; E 58 58 [] 152; E 65 70 [] 151; E 93 93 [] 460; E 97 102 [] 151]
  | 151 => Some [E 58 58 [] 152; E 93 93 [] 460]
  | 152 => Some [E 2 2 [] 69; E 48 48 [] 153; E 49 49 [] 209; E 50 50 [] 212; E 51 57 [] 215; E 65 70 [] 216;
      E 97 102 [] 216]
  | 153 => Some [E 46 46 [] 72; E 48 57 [] 154; E 58 58 [] 157; E 65 70 [] 154; E 93 93 [] 460;
      E 97 102 [] 154]
  | 154 => Some [E 48 57 [] 155; E 58 58 [] 157; E 65 70 [] 155; E 93 93 [] 460; E 97 102 [] 155]
  | 155 => Some [E 48 57 [] 156; E 58 58 [] 157; E 65 70 [] 156; E 93 93 [] 460; E 97 102 [] 156]
  | 156 => Some [E 58 58 [] 157; E 93 93 [] 460]
  | _ => None
  end.

Definition uri_states_157 (cs : Z) : option (list (edge uri_action)) :=
  match cs with
  | 157 => Some [E 2 2 [] 69; E 48 48 [] 158; E 49 49 [] 201; E 50 50 [] 204; E 51 57 [] 207; E 65 70 [] 208;
      E 97 102 [] 208]
  | 158 => Some [E 46 46 [] 72; E 48 57 [] 159; E 58 58 [] 162; E 65 70 [] 159; E 93 93 [] 460;
      E 97 102 [] 159]
  | 159 => Some [E 48 57 [] 160; E 58 58 [] 162; E 65 70 [] 160; E 93 93 [] 460; E 97 102 [] 160]
  | 160 => Some [E 48 57 [] 161; E 58 58 [] 162; E 65 70 [] 161; E 93 93 [] 460; E 97 102 [] 161]
  | 161 => Some [E 58 58 [] 162; E 93 93 [] 460]
  | 162 => Some [E 2 2 [] 69; E 48 48 [] 163; E 49 49 [] 193; E 50 50 [] 196; E 51 57 [] 199; E 65 70 [] 200;
      E 97 102 [] 200]
  | 163 => Some [E 46 46 [] 72; E 48 57 [] 164; E 58 58 [] 167; E 65 70 [] 164; E 93 93 [] 460;
      E 97 102 [] 164]
  | 164 => Some [E 48 57 [] 165; E 58 58 [] 167; E 65 70 [] 165; E 93 93 [] 460; E 97 102 [] 165]
  | _ => None
  end.

Definition uri_states_165 (cs : Z) : option (list (edge uri_action)) :=
  match cs with
  | 165 => Some [E 48 57 [] 166; E 58 58 [] 167; E 65 70 [] 166; E 93 93 [] 460; E 97 102 [] 166]
  | 166 => Some [E 58 58 [] 167; E 93 93 [] 460]
  | 167 => Some [E 2 2 [] 69; E 48 48 [] 168; E 49 49 [] 185; E 50 50 [] 188; E 51 57 [] 191; E 65 70 [] 192;
      E 97 102 [] 192]
  | 168 => Some [E 46 46 [] 72; E 48 57 [] 169; E 58 58 [] 172; E 65 70 [] 169; E 93 93 [] 460;
      E 97 102 [] 169]
  | 169 => Some [E 48 57 [] 170; E 58 58 [] 172; E 65 70 [] 170; E 93 93 [] 460; E 97 102 [] 170]
  | 170 => Some [E 48 57 [] 171; E 58 58 [] 172; E 65 70 [] 171; E 93 93 [] 460; E 97 102 [] 171]
  | 171 => Some [E 58 58 [] 172; E 93 93 [] 460]
  | 172 => Some [E 2 2 [] 69; E 48 48 [] 173; E 49 49 [] 177; E 50 50 [] 180; E 51 57 [] 183; E 65 70 [] 184;
      E 97 102 [] 184]
  | 173 => Some [E 46 46 [] 72; E 48 57 [] 174; E 58 58 [] 111; E 65 70 [] 174; E 93 93 [] 460;
      E 97 102 [] 174]
  | _ => None
  end.

Definition uri_states_174 (cs : Z) : option (list (edge uri_action)) :=
  match cs with
  | 174 => Some [E 48 57 [] 175; E 58 58 [] 111; E 65 70 [] 175; E 93 93 [] 460; E 97 102 [] 175]
  | 175 => Some [E 48 57 [] 176; E 58 58 [] 111; E 65 70 [] 176; E 93 93 [] 460; E 97 102 [] 176]
  | 176 => Some [E 58 58 [] 111; E 93 93 [] 460]
  | 177 => Some [E 46 46 [] 72; E 48 57 [] 178; E 58 58 [] 111; E 65 70 [] 174; E 93 93 [] 460;
      E 97 102 [] 174]
  | 178 => Some [E 46 46 [] 72; E 48 57 [] 179; E 58 58 [] 111; E 65 70 [] 175; E 93 93 [] 460;
      E 97 102 [] 175]
  | 179 => Some [E 46 46 [] 72; E 48 57 [] 176; E 58 58 [] 111; E 65 70 [] 176; E 93 93 [] 460;
      E 97 102 [] 176]
  | 180 => Some [E 46 46 [] 72; E 48 52 [] 181; E 53 53 [] 182; E 54 57 [] 181; E 58 58 [] 111;
      E 65 70 [] 174; E 93 93 [] 460; E 97 102 [] 174]
  | 181 => Some [E 46 46 [] 72; E 48 57 [] 175; E 58 58 [] 111; E 65 70 [] 175; E 93 93 [] 460;
      E 97 102 [] 175]
  | _ => None
  end.

Definition uri_states_182 (cs : Z) : option (list (edge uri_action)) :=
  match cs with
  | 182 => Some [E 46 46 [] 72; E 48 53 [] 179; E 54 57 [] 175; E 58 58 [] 111; E 65 70 [] 175;
      E 93 93 [] 460; E 97 102 [] 175]
  | 183 => Some [E 46 46 [] 72; E 48 57 [] 181; E 58 58 [] 111; E 65 70 [] 174; E 93 93 [] 460;
      E 97 102 [] 174]
  | 184 => Some [E 48 57 [] 174; E 58 58 [] 111; E 65 70 [] 174; E 93 93 [] 460; E 97 102 [] 174]
  | 185 => Some [E 46 46 [] 72; E 48 57 [] 186; E 58 58 [] 172; E 65 70 [] 169; E 93 93 [] 460;
      E 97 102 [] 169]
  | 186 => Some [E 46 46 [] 72; E 48 57 [] 187; E 58 58 [] 172; E 65 70 [] 170; E 93 93 [] 460;
      E 97 102 [] 170]
  | 187 => Some [E 46 46 [] 72; E 48 57 [] 171; E 58 58 [] 172; E 65 70 [] 171; E 93 93 [] 460;
      E 97 102 [] 171]
  | 188 => Some [E 46 46 [] 72; E 48 52 [] 189; E 53 53 [] 190; E 54 57 [] 189; E 58 58 [] 172;
      E 65 70 [] 169; E 93 93 [] 460; E 97 102 [] 169]
  | 189 => Some [E 46 46 [] 72; E 48 57 [] 170; E 58 58 [] 172; E 65 70 [] 170; E 93 93 [] 460;
      E 97 102 [] 170]
  | _ => None
  end.

Definition uri_states_190 (cs : Z) : option (list (edge uri_action)) :=
  match cs with
  | 190 => Some [E 46 46 [] 72; E 48 53 [] 187; E 54 57 [] 170; E 58 58 [] 172; E 65 70 [] 170;
      E 93 93 [] 460; E 97 102 [] 170]
  | 191 => Some [E 46 46 [] 72; E 48 57 [] 189; E 58 58 [] 172; E 65 70 [] 169; E 93 93 [] 460;
      E 97 102 [] 169]
  | 192 => Some [E 48 57 [] 169; E 58 58 [] 172; E 65 70 [] 169; E 93 93 [] 460; E 97 102 [] 169]
  | 193 => Some [E 46 46 [] 72; E 48 57 [] 194; E 58 58 [] 167; E 65 70 [] 164; E 93 93 [] 460;
      E 97 102 [] 164]
  | 194 => Some [E 46 46 [] 72; E 48 57 [] 195; E 58 58 [] 167; E 65 70 [] 165; E 93 93 [] 460;
      E 97 102 [] 165]
  | 195 => Some [E 46 46 [] 72; E 48 57 [] 166; E 58 58 [] 167; E 65 70 [] 166; E 93 93 [] 460;
      E 97 102 [] 166]
  | 196 => Some [E 46 46 [] 72; E 48 52 [] 197; E 53 53 [] 198; E 54 57 [] 197; E 58 58 [] 167;
      E 65 70 [] 164; E 93 93 [] 460; E 97 102 [] 164]
  | 197 => Some [E 46 46 [] 72; E 48 57 [] 165; E 58 58 [] 167; E 65 70 [] 165; E 93 93 [] 460;
      E 97 102 [] 165]
  | _ => None
  end.

Definition uri_states_198 (cs : Z) : option (list (edge uri_action)) :=
  match cs with
  | 198 => Some [E 46 46 [] 72; E 48 53 [] 195; E 54 57 [] 165; E 58 58 [] 167; E 65 70 [] 165;
      E 93 93 [] 460; E 97 102 [] 165]
  | 199 => Some [E 46 46 [] 72; E 48 57 [] 197; E 58 58 [] 167; E 65 70 [] 164; E 93 93 [] 460;
      E 97 102 [] 164]
  | 200 => Some [E 48 57 [] 164; E 58 58 [] 167; E 65 70 [] 164; E 93 93 [] 460; E 97 102 [] 164]
  | 201 => Some [E 46 46 [] 72; E 48 57 [] 202; E 58 58 [] 162; E 65 70 [] 159; E 93 93 [] 460;
      E 97 102 [] 159]
  | 202 => Some [E 46 46 [] 72; E 48 57 [] 203; E 58 58 [] 162; E 65 70 [] 160; E 93 93 [] 460;
      E 97 102 [] 160]
  | 203 => Some [E 46 46 [] 72; E 48 57 [] 161; E 58 58 [] 162; E 65 70 [] 161; E 93 93 [] 460;
      E 97 102 [] 161]
  | 204 => Some [E 46 46 [] 72; E 48 52 [] 205; E 53 53 [] 206; E 54 57 [] 205; E 58 58 [] 162;
      E 65 70 [] 159; E 93 93 [] 460; E 97 102 [] 159]
  | 205 => Some [E 46 46 [] 72; E 48 57 [] 160; E 58 58 [] 162; E 65 70 [] 160; E 93 93 [] 460;
      E 97 102 [] 160]
  | _ => None
  end.

Definition uri_states_206 (cs : Z) : option (list (edge uri_action)) :=
  match cs with
  | 206 => Some [E 46 46 [] 72; E 48 53 [] 203; E 54 57 [] 160; E 58 58 [] 162; E 65 70 [] 160;
      E 93 93 [] 460; E 97 102 [] 160]
  | 207 => Some [E 46 46 [] 72; E 48 57 [] 205; E 58 58 [] 162; E 65 70 [] 159; E 93 93 [] 460;
      E 97 102 [] 159]
  | 208 => Some [E 48 57 [] 159; E 58 58 [] 162; E 65 70 [] 159; E 93 93 [] 460; E 97 102 [] 159]
  | 209 => Some [E 46 46 [] 72; E 48 57 [] 210; E 58 58 [] 157; E 65 70 [] 154; E 93 93 [] 460;
      E 97 102 [] 154]
  | 210 => Some [E 46 46 [] 72; E 48 57 [] 211; E 58 58 [] 157; E 65 70 [] 155; E 93 93 [] 460;
      E 97 102 [] 155]
  | 211 => Some [E 46 46 [] 72; E 48 57 [] 156; E 58 58 [] 157; E 65 70 [] 156; E 93 93 [] 460;
      E 97 102 [] 156]
  | 212 => Some [E 46 46 [] 72; E 48 52 [] 213; E 53 53 [] 214; E 54 57 [] 213; E 58 58 [] 157;
      E 65 70 [] 154; E 93 93 [] 460; E 97 102 [] 154]
  | 213 => Some [E 46 46 [] 72; E 48 57 [] 155; E 58 58 [] 157; E 65 70 [] 155; E 93 93 [] 460;
      E 97 102 [] 155]
  | _ => None
  end.

Definition uri_states_214 (cs : Z) : option (list (edge uri_action)) :=
  match cs with
  | 214 => Some [E 46 46 [] 72; E 48 53 [] 211; E 54 57 [] 155; E 58 58 [] 157; E 65 70 [] 155;
      E 93 93 [] 460; E 97 102 [] 155]
  | 215 => Some [E 46 46 [] 72; E 48 57 [] 213; E 58 58 [] 157; E 65 70 [] 154; E 93 93 [] 460;
      E 97 102 [] 154]
  | 216 => Some [E 48 57 [] 154; E 58 58 [] 157; E 65 70 [] 154; E 93 93 [] 460; E 97 102 [] 154]
  | 217 => Some [E 46 46 [] 72; E 48 57 [] 218; E 58 58 [] 152; E 65 70 [] 149; E 93 93 [] 460;
      E 97 102 [] 149]
  | 218 => Some [E 46 46 [] 72; E 48 57 [] 219; E 58 58 [] 152; E 65 70 [] 150; E 93 93 [] 460;
      E 97 102 [] 150]
  | 219 => Some [E 46 46 [] 72; E 48 57 [] 151; E 58 58 [] 152; E 65 70 [] 151; E 93 93 [] 460;
      E 97 102 [] 151]
  | 220 => Some [E 46 46 [] 72; E 48 52 [] 221; E 53 53 [] 222; E 54 57 [] 221; E 58 58 [] 152;
      E 65 70 [] 149; E 93 93 [] 460; E 97 102 [] 149]
  | 221 => Some [E 46 46 [] 72; E 48 57 [] 150; E 58 58 [] 152; E 65 70 [] 150; E 93 93 [] 460;
      E 97 102 [] 150]
  | _ => None
  end.

Definition uri_states_222 (cs : Z) : option (list (edge uri_action)) :=
  match cs with
  | 222 => Some [E 46 46 [] 72; E 48 53 [] 219; E 54 57 [] 150; E 58 58 [] 152; E 65 70 [] 150;
      E 93 93 [] 460; E 97 102 [] 150]
  | 223 => Some [E 46 46 [] 72; E 48 57 [] 221; E 58 58 [] 152; E 65 70 [] 149; E 93 93 [] 460;
      E 97 102 [] 149]
  | 224 => Some [E 48 57 [] 149; E 58 58 [] 152; E 65 70 [] 149; E 93 93 [] 460; E 97 102 [] 149]
  | 225 => Some [E 48 57 [] 226; E 65 70 [] 226; E 97 102 [] 226]
  | 226 => Some [E 46 46 [] 227; E 48 57 [] 226; E 65 70 [] 226; E 97 102 [] 226]
  | 227 => Some [E 33 33 [] 228; E 36 36 [] 228; E 38 46 [] 228; E 48 59 [] 228; E 61 61 [] 228;
      E 65 90 [] 228; E 95 95 [] 228; E 97 122 [] 228; E 126 126 [] 228]
  | 228 => Some [E 33 33 [] 228; E 36 36 [] 228; E 38 46 [] 228; E 48 59 [] 228; E 61 61 [] 228;
      E 65 90 [] 228; E 93 93 [] 460; E 95 95 [] 228; E 97 122 [] 228; E 126 126 [] 228]
  | _ => None
  end.

Definition uri_states_489 (cs : Z) : option (list (edge uri_action)) :=
  match cs with
  | 489 => Some [E 33 33 [] 33; E 35 35 [uri_save_port] 453; E 36 36 [] 33; E 37 37 [] 34; E 38 46 [] 33;
      E 47 47 [uri_save_port] 455; E 48 57 [] 489; E 58 59 [] 33; E 61 61 [] 33; E 63 63 [uri_save_port] 456;
      E 64 64 [uri_save_userinfo] 469; E 65 90 [] 33; E 95 95 [] 33; E 97 122 [] 33; E 126 126 [] 33]
  | 490 => Some [E 33 33 [] 467; E 35 35 [uri_save_host] 453; E 36 36 [] 467; E 37 37 [] 31; E 38 45 [] 467;
      E 46 46 [] 491; E 47 47 [uri_save_host] 455; E 48 57 [] 467; E 58 58 [uri_save_host] 468;
      E 59 59 [] 467; E 61 61 [] 467; E 63 63 [uri_save_host] 456; E 64 64 [uri_save_userinfo] 469;
      E 65 90 [] 467; E 95 95 [] 467; E 97 122 [] 467; E 126 126 [] 467]
  | 491 => Some [E 2 2 [] 13; E 33 33 [] 467; E 35 35 [uri_save_host] 453; E 36 36 [] 467; E 37 37 [] 31;
      E 38 46 [] 467; E 47 47 [uri_save_host] 455; E 48 48 [] 492; E 49 49 [] 500; E 50 50 [] 502;
      E 51 57 [] 501; E 58 58 [uri_save_host] 468; E 59 59 [] 467; E 61 61 [] 467;
      E 63 63 [uri_save_host] 456; E 64 64 [uri_save_userinfo] 469; E 65 90 [] 467; E 95 95 [] 467;
      E 97 122 [] 467; E 126 126 [] 467]
  | 492 => Some [E 33 33 [] 467; E 35 35 [uri_save_host] 453; E 36 36 [] 467; E 37 37 [] 31; E 38 45 [] 467;
      E 46 46 [] 493; E 47 47 [uri_save_host] 455; E 48 57 [] 467; E 58 58 [uri_save_host] 468;
      E 59 59 [] 467; E 61 61 [] 467; E 63 63 [uri_save_host] 456; E 64 64 [uri_save_userinfo] 469;
      E 65 90 [] 467; E 95 95 [] 467; E 97 122 [] 467; E 126 126 [] 467]
  | _ => None
  end.

Definition uri_states_493 (cs : Z) : option (list (edge uri_action)) :=
  match cs with
  | 493 => Some [E 2 2 [] 17; E 33 33 [] 467; E 35 35 [uri_save_host] 453; E 36 36 [] 467; E 37 37 [] 31;
      E 38 46 [] 467; E 47 47 [uri_save_host] 455; E 48 48 [] 494; E 49 49 [] 496; E 50 50 [] 498;
      E 51 57 [] 497; E 58 58 [uri_save_host] 468; E 59 59 [] 467; E 61 61 [] 467;
      E 63 63 [uri_save_host] 456; E 64 64 [uri_save_userinfo] 469; E 65 90 [] 467; E 95 95 [] 467;
      E 97 122 [] 467; E 126 126 [] 467]
  | 494 => Some [E 33 33 [] 467; E 35 35 [uri_save_host] 453; E 36 36 [] 467; E 37 37 [] 31; E 38 45 [] 467;
      E 46 46 [] 495; E 47 47 [uri_save_host] 455; E 48 57 [] 467; E 58 58 [uri_save_host] 468;
      E 59 59 [] 467; E 61 61 [] 467; E 63 63 [uri_save_host] 456; E 64 64 [uri_save_userinfo] 469;
      E 65 90 [] 467; E 95 95 [] 467; E 97 122 [] 467; E 126 126 [] 467]
  | 495 => Some [E 2 2 [] 21; E 33 33 [] 467; E 35 35 [uri_save_host] 453; E 36 36 [] 467; E 37 37 [] 31;
      E 38 46 [] 467; E 47 47 [uri_save_host] 455; E 48 57 [] 467; E 58 58 [uri_save_host] 468;
      E 59 59 [] 467; E 61 61 [] 467; E 63 63 [uri_save_host] 456; E 64 64 [uri_save_userinfo] 469;
      E 65 90 [] 467; E 95 95 [] 467; E 97 122 [] 467; E 126 126 [] 467]
  | 496 => Some [E 33 33 [] 467; E 35 35 [uri_save_host] 453; E 36 36 [] 467; E 37 37 [] 31; E 38 45 [] 467;
      E 46 46 [] 495; E 47 47 [uri_save_host] 455; E 48 57 [] 497; E 58 58 [uri_save_host] 468;
      E 59 59 [] 467; E 61 61 [] 467; E 63 63 [uri_save_host] 456; E 64 64 [uri_save_userinfo] 469;
      E 65 90 [] 467; E 95 95 [] 467; E 97 122 [] 467; E 126 126 [] 467]
  | 497 => Some [E 33 33 [] 467; E 35 35 [uri_save_host] 453; E 36 36 [] 467; E 37 37 [] 31; E 38 45 [] 467;
      E 46 46 [] 495; E 47 47 [uri_save_host] 455; E 48 57 [] 494; E 58 58 [uri_save_host] 468;
      E 59 59 [] 467; E 61 61 [] 467; E 63 63 [uri_save_host] 456; E 64 64 [uri_save_userinfo] 469;
      E 65 90 [] 467; E 95 95 [] 467; E 97 122 [] 467; E 126 126 [] 467]
  | _ => None
  end.

Definition uri_states_498 (cs : Z) : option (list (edge uri_action)) :=
  match cs with
  | 498 => Some [E 33 33 [] 467; E 35 35 [uri_save_host] 453; E 36 36 [] 467; E 37 37 [] 31; E 38 45 [] 467;
      E 46 46 [] 495; E 47 47 [uri_save_host] 455; E 48 52 [] 494; E 53 53 [] 499; E 54 57 [] 494;
      E 58 58 [uri_save_host] 468; E 59 59 [] 467; E 61 61 [] 467; E 63 63 [uri_save_host] 456;
      E 64 64 [uri_save_userinfo] 469; E 65 90 [] 467; E 95 95 [] 467; E 97 122 [] 467; E 126 126 [] 467]
  | 499 => Some [E 33 33 [] 467; E 35 35 [uri_save_host] 453; E 36 36 [] 467; E 37 37 [] 31; E 38 45 [] 467;
      E 46 46 [] 495; E 47 47 [uri_save_host] 455; E 48 53 [] 494; E 54 57 [] 467;
      E 58 58 [uri_save_host] 468; E 59 59 [] 467; E 61 61 [] 467; E 63 63 [uri_save_host] 456;
      E 64 64 [uri_save_userinfo] 469; E 65 90 [] 467; E 95 95 [] 467; E 97 122 [] 467; E 126 126 [] 467]
  | 500 => Some [E 33 33 [] 467; E 35 35 [uri_save_host] 453; E 36 36 [] 467; E 37 37 [] 31; E 38 45 [] 467;
      E 46 46 [] 493; E 47 47 [uri_save_host] 455; E 48 57 [] 501; E 58 58 [uri_save_host] 468;
      E 59 59 [] 467; E 61 61 [] 467; E 63 63 [uri_save_host] 456; E 64 64 [uri_save_userinfo] 469;
      E 65 90 [] 467; E 95 95 [] 467; E 97 122 [] 467; E 126 126 [] 467]
  | 501 => Some [E 33 33 [] 467; E 35 35 [uri_save_host] 453; E 36 36 [] 467; E 37 37 [] 31; E 38 45 [] 467;
      E 46 46 [] 493; E 47 47 [uri_save_host] 455; E 48 57 [] 492; E 58 58 [uri_save_host] 468;
      E 59 59 [] 467; E 61 61 [] 467; E 63 63 [uri_save_host] 456; E 64 64 [uri_save_userinfo] 469;
      E 65 90 [] 467; E 95 95 [] 467; E 97 122 [] 467; E 126 126 [] 467]
  | _ => None
  end.

Definition uri_states_502 (cs : Z) : option (list (edge uri_action)) :=
  match cs with
  | 502 => Some [E 33 33 [] 467; E 35 35 [uri_save_host] 453; E 36 36 [] 467; E 37 37 [] 31; E 38 45 [] 467;
      E 46 46 [] 493; E 47 47 [uri_save_host] 455; E 48 52 [] 492; E 53 53 [] 503; E 54 57 [] 492;
      E 58 58 [uri_save_host] 468; E 59 59 [] 467; E 61 61 [] 467; E 63 63 [uri_save_host] 456;
      E 64 64 [uri_save_userinfo] 469; E 65 90 [] 467; E 95 95 [] 467; E 97 122 [] 467; E 126 126 [] 467]
  | 503 => Some [E 33 33 [] 467; E 35 35 [uri_save_host] 453; E 36 36 [] 467; E 37 37 [] 31; E 38 45 [] 467;
      E 46 46 [] 493; E 47 47 [uri_save_host] 455; E 48 53 [] 492; E 54 57 [] 467;
      E 58 58 [uri_save_host] 468; E 59 59 [] 467; E 61 61 [] 467; E 63 63 [uri_save_host] 456;
      E 64 64 [uri_save_userinfo] 469; E 65 90 [] 467; E 95 95 [] 467; E 97 122 [] 467; E 126 126 [] 467]
  | 504 => Some [E 33 33 [] 467; E 35 35 [uri_save_host] 453; E 36 36 [] 467; E 37 37 [] 31; E 38 45 [] 467;
      E 46 46 [] 491; E 47 47 [uri_save_host] 455; E 48 57 [] 505; E 58 58 [uri_save_host] 468;
      E 59 59 [] 467; E 61 61 [] 467; E 63 63 [uri_save_host] 456; E 64 64 [uri_save_userinfo] 469;
      E 65 90 [] 467; E 95 95 [] 467; E 97 122 [] 467; E 126 126 [] 467]
  | 505 => Some [E 33 33 [] 467; E 35 35 [uri_save_host] 453; E 36 36 [] 467; E 37 37 [] 31; E 38 45 [] 467;
      E 46 46 [] 491; E 47 47 [uri_save_host] 455; E 48 57 [] 490; E 58 58 [uri_save_host] 468;
      E 59 59 [] 467; E 61 61 [] 467; E 63 63 [uri_save_host] 456; E 64 64 [uri_save_userinfo] 469;
      E 65 90 [] 467; E 95 95 [] 467; E 97 122 [] 467; E 126 126 [] 467]
  | _ => None
  end.

Definition uri_states_506 (cs : Z) : option (list (edge uri_action)) :=
  match cs with
  | 506 => Some [E 33 33 [] 467; E 35 35 [uri_save_host] 453; E 36 36 [] 467; E 37 37 [] 31; E 38 45 [] 467;
      E 46 46 [] 491; E 47 47 [uri_save_host] 455; E 48 52 [] 490; E 53 53 [] 507; E 54 57 [] 490;
      E 58 58 [uri_save_host] 468; E 59 59 [] 467; E 61 61 [] 467; E 63 63 [uri_save_host] 456;
      E 64 64 [uri_save_userinfo] 469; E 65 90 [] 467; E 95 95 [] 467; E 97 122 [] 467; E 126 126 [] 467]
  | 507 => Some [E 33 33 [] 467; E 35 35 [uri_save_host] 453; E 36 36 [] 467; E 37 37 [] 31; E 38 45 [] 467;
      E 46 46 [] 491; E 47 47 [uri_save_host] 455; E 48 53 [] 490; E 54 57 [] 467;
      E 58 58 [uri_save_host] 468; E 59 59 [] 467; E 61 61 [] 467; E 63 63 [uri_save_host] 456;
      E 64 64 [uri_save_userinfo] 469; E 65 90 [] 467; E 95 95 [] 467; E 97 122 [] 467; E 126 126 [] 467]
  | 508 => Some [E (-128) (-1) [] 452; E 33 33 [] 452; E 35 35 [] 453; E 36 36 [] 452; E 37 37 [] 3;
      E 38 42 [] 452; E 43 43 [] 508; E 44 44 [] 452; E 45 46 [] 508; E 47 47 [] 455; E 48 57 [] 508;
      E 58 58 [uri_save_scheme] 509; E 59 59 [] 452; E 61 61 [] 452; E 63 63 [] 456; E 64 64 [] 452;
      E 65 90 [] 508; E 95 95 [] 452; E 97 122 [] 508; E 126 126 [] 452]
  | 509 => Some [E (-128) (-1) [] 455; E 33 33 [] 455; E 35 35 [] 453; E 36 36 [] 455; E 37 37 [] 5;
      E 38 46 [] 455; E 47 47 [] 510; E 48 59 [] 455; E 61 61 [] 455; E 63 63 [] 456; E 64 90 [] 455;
      E 95 95 [] 455; E 97 122 [] 455; E 126 126 [] 455]
  | _ => None
  end.

Definition uri_states_510 (cs : Z) : option (list (edge uri_action)) :=
  match cs with
  | 510 => Some [E (-128) (-1) [] 455; E 33 33 [] 455; E 35 35 [] 453; E 36 36 [] 455; E 37 37 [] 5;
      E 38 46 [] 455; E 47 47 [] 511; E 48 59 [] 455; E 61 61 [] 455; E 63 63 [] 456; E 64 90 [] 455;
      E 95 95 [] 455; E 97 122 [] 455; E 126 126 [] 455]
  | 511 => Some [E 2 2 [uri_markh] 229; E 33 33 [uri_markh] 520;
      E 35 35 [uri_markh; uri_save_host; uri_save_path] 453; E 36 36 [uri_markh] 520;
      E 37 37 [uri_markh] 253; E 38 46 [uri_markh] 520; E 47 47 [uri_markh; uri_save_host] 513;
      E 48 48 [uri_markh] 543; E 49 49 [uri_markh] 557; E 50 50 [uri_markh] 559; E 51 57 [uri_markh] 558;
      E 58 58 [uri_markh; uri_save_host] 521; E 59 59 [uri_markh] 520; E 61 61 [uri_markh] 520;
      E 63 63 [uri_markh; uri_save_host; uri_save_path] 456; E 64 64 [uri_markh; uri_save_userinfo] 522;
      E 65 90 [uri_markh] 520; E 91 91 [uri_markh] 260; E 95 95 [uri_markh] 520; E 97 122 [uri_markh] 520;
      E 126 126 [uri_markh] 520]
  | 229 => Some [E 48 52 [] 230]
  | 230 => Some [E 48 57 [] 231]
  | 231 => Some [E 46 46 [] 232]
  | 232 => Some [E 2 2 [] 233; E 48 48 [] 235; E 49 49 [] 249; E 50 50 [] 251; E 51 57 [] 250]
  | 233 => Some [E 48 52 [] 234]
  | 234 => Some [E 48 57 [] 235]
  | 235 => Some [E 46 46 [] 236]
  | 236 => Some [E 2 2 [] 237; E 48 48 [] 239; E 49 49 [] 245; E 50 50 [] 247; E 51 57 [] 246]
  | 237 => Some [E 48 52 [] 238]
  | 238 => Some [E 48 57 [] 239]
  | _ => None
  end.

Definition uri_states_239 (cs : Z) : option (list (edge uri_action)) :=
  match cs with
  | 239 => Some [E 46 46 [] 240]
  | 240 => Some [E 2 2 [] 241; E 48 48 [] 512; E 49 49 [] 516; E 50 50 [] 518; E 51 57 [] 517]
  | 241 => Some [E 48 52 [] 242]
  | 242 => Some [E 48 57 [] 512]
  | 512 => Some [E 35 35 [uri_save_host; uri_markh; uri_save_path] 453;
      E 47 47 [uri_save_host; uri_markh] 513; E 58 58 [uri_save_host] 514;
      E 63 63 [uri_save_host; uri_markh; uri_save_path] 456]
  | 513 => Some [E (-128) (-1) [] 513; E 33 33 [] 513; E 35 35 [uri_save_path] 453; E 36 36 [] 513;
      E 37 37 [] 243; E 38 59 [] 513; E 61 61 [] 513; E 63 63 [uri_save_path] 456; E 64 90 [] 513;
      E 95 95 [] 513; E 97 122 [] 513; E 126 126 [] 513]
  | 243 => Some [E 48 57 [] 244; E 65 70 [] 244; E 97 102 [] 244]
  | 244 => Some [E 48 57 [] 513; E 65 70 [] 513; E 97 102 [] 513]
  | _ => None
  end.

Definition uri_states_514 (cs : Z) : option (list (edge uri_action)) :=
  match cs with
  | 514 => Some [E 35 35 [uri_markh; uri_save_port; uri_save_path] 453;
      E 47 47 [uri_markh; uri_save_port] 513; E 48 57 [uri_markh] 515;
      E 63 63 [uri_markh; uri_save_port; uri_save_path] 456]
  | 515 => Some [E 35 35 [uri_save_port; uri_markh; uri_save_path] 453;
      E 47 47 [uri_save_port; uri_markh] 513; E 48 57 [] 515;
      E 63 63 [uri_save_port; uri_markh; uri_save_path] 456]
  | 516 => Some [E 35 35 [uri_save_host; uri_markh; uri_save_path] 453;
      E 47 47 [uri_save_host; uri_markh] 513; E 48 57 [] 517; E 58 58 [uri_save_host] 514;
      E 63 63 [uri_save_host; uri_markh; uri_save_path] 456]
  | 517 => Some [E 35 35 [uri_save_host; uri_markh; uri_save_path] 453;
      E 47 47 [uri_save_host; uri_markh] 513; E 48 57 [] 512; E 58 58 [uri_save_host] 514;
      E 63 63 [uri_save_host; uri_markh; uri_save_path] 456]
  | 518 => Some [E 35 35 [uri_save_host; uri_markh; uri_save_path] 453;
      E 47 47 [uri_save_host; uri_markh] 513; E 48 52 [] 512; E 53 53 [] 519; E 54 57 [] 512;
      E 58 58 [uri_save_host] 514; E 63 63 [uri_save_host; uri_markh; uri_save_path] 456]
  | 519 => Some [E 35 35 [uri_save_host; uri_markh; uri_save_path] 453;
      E 47 47 [uri_save_host; uri_markh] 513; E 48 53 [] 512; E 58 58 [uri_save_host] 514;
      E 63 63 [uri_save_host; uri_markh; uri_save_path] 456]
  | 245 => Some [E 46 46 [] 240; E 48 57 [] 246]
  | 246 => Some [E 46 46 [] 240; E 48 57 [] 239]
  | 247 => Some [E 46 46 [] 240; E 48 52 [] 239; E 53 53 [] 248; E 54 57 [] 239]
  | 248 => Some [E 46 46 [] 240; E 48 53 [] 239]
  | 249 => Some [E 46 46 [] 236; E 48 57 [] 250]
  | _ => None
  end.

Definition uri_states_250 (cs : Z) : option (list (edge uri_action)) :=
  match cs with
  | 250 => Some [E 46 46 [] 236; E 48 57 [] 235]
  | 251 => Some [E 46 46 [] 236; E 48 52 [] 235; E 53 53 [] 252; E 54 57 [] 235]
  | 252 => Some [E 46 46 [] 236; E 48 53 [] 235]
  | 520 => Some [E 33 33 [] 520; E 35 35 [uri_save_host; uri_markh; uri_save_path] 453; E 36 36 [] 520;
      E 37 37 [] 253; E 38 46 [] 520; E 47 47 [uri_save_host; uri_markh] 513; E 48 57 [] 520;
      E 58 58 [uri_save_host] 521; E 59 59 [] 520; E 61 61 [] 520;
      E 63 63 [uri_save_host; uri_markh; uri_save_path] 456; E 64 64 [uri_save_userinfo] 522; E 65 90 [] 520;
      E 95 95 [] 520; E 97 122 [] 520; E 126 126 [] 520]
  | 253 => Some [E 48 57 [] 254; E 65 70 [] 254; E 97 102 [] 254]
  | 254 => Some [E 48 57 [] 520; E 65 70 [] 520; E 97 102 [] 520]
  | 521 => Some [E 33 33 [] 255; E 35 35 [uri_markh; uri_save_port; uri_save_path] 453; E 36 36 [] 255;
      E 37 37 [] 256; E 38 46 [] 255; E 47 47 [uri_markh; uri_save_port] 513; E 48 57 [uri_markh] 542;
      E 58 59 [] 255; E 61 61 [] 255; E 63 63 [uri_markh; uri_save_port; uri_save_path] 456;
      E 64 64 [uri_save_userinfo] 522; E 65 90 [] 255; E 95 95 [] 255; E 97 122 [] 255; E 126 126 [] 255]
  | _ => None
  end.

Definition uri_states_255 (cs : Z) : option (list (edge uri_action)) :=
  match cs with
  | 255 => Some [E 33 33 [] 255; E 36 36 [] 255; E 37 37 [] 256; E 38 46 [] 255; E 48 59 [] 255;
      E 61 61 [] 255; E 64 64 [uri_save_userinfo] 522; E 65 90 [] 255; E 95 95 [] 255; E 97 122 [] 255;
      E 126 126 [] 255]
  | 256 => Some [E 48 57 [] 257; E 65 70 [] 257; E 97 102 [] 257]
  | 257 => Some [E 48 57 [] 255; E 65 70 [] 255; E 97 102 [] 255]
  | 522 => Some [E 2 2 [uri_markh] 229; E 33 33 [uri_markh] 523;
      E 35 35 [uri_markh; uri_save_host; uri_save_path] 453; E 36 36 [uri_markh] 523;
      E 37 37 [uri_markh] 258; E 38 46 [uri_markh] 523; E 47 47 [uri_markh; uri_save_host] 513;
      E 48 48 [uri_markh] 524; E 49 49 [uri_markh] 538; E 50 50 [uri_markh] 540; E 51 57 [uri_markh] 539;
      E 58 58 [uri_markh; uri_save_host] 514; E 59 59 [uri_markh] 523; E 61 61 [uri_markh] 523;
      E 63 63 [uri_markh; uri_save_host; uri_save_path] 456; E 65 90 [uri_markh] 523;
      E 91 91 [uri_markh] 260; E 95 95 [uri_markh] 523; E 97 122 [uri_markh] 523; E 126 126 [uri_markh] 523]
  | 523 => Some [E 33 33 [] 523; E 35 35 [uri_save_host; uri_markh; uri_save_path] 453; E 36 36 [] 523;
      E 37 37 [] 258; E 38 46 [] 523; E 47 47 [uri_save_host; uri_markh] 513; E 48 57 [] 523;
      E 58 58 [uri_save_host] 514; E 59 59 [] 523; E 61 61 [] 523;
      E 63 63 [uri_save_host; uri_markh; uri_save_path] 456; E 65 90 [] 523; E 95 95 [] 523; E 97 122 [] 523;
      E 126 126 [] 523]
  | _ => None
  end.

Definition uri_states_258 (cs : Z) : option (list (edge uri_action)) :=
  match cs with
  | 258 => Some [E 48 57 [] 259; E 65 70 [] 259; E 97 102 [] 259]
  | 259 => Some [E 48 57 [] 523; E 65 70 [] 523; E 97 102 [] 523]
  | 524 => Some [E 33 33 [] 523; E 35 35 [uri_save_host; uri_markh; uri_save_path] 453; E 36 36 [] 523;
      E 37 37 [] 258; E 38 45 [] 523; E 46 46 [] 525; E 47 47 [uri_save_host; uri_markh] 513; E 48 57 [] 523;
      E 58 58 [uri_save_host] 514; E 59 59 [] 523; E 61 61 [] 523;
      E 63 63 [uri_save_host; uri_markh; uri_save_path] 456; E 65 90 [] 523; E 95 95 [] 523; E 97 122 [] 523;
      E 126 126 [] 523]
  | 525 => Some [E 2 2 [] 233; E 33 33 [] 523; E 35 35 [uri_save_host; uri_markh; uri_save_path] 453;
      E 36 36 [] 523; E 37 37 [] 258; E 38 46 [] 523; E 47 47 [uri_save_host; uri_markh] 513; E 48 48 [] 526;
      E 49 49 [] 534; E 50 50 [] 536; E 51 57 [] 535; E 58 58 [uri_save_host] 514; E 59 59 [] 523;
      E 61 61 [] 523; E 63 63 [uri_save_host; uri_markh; uri_save_path] 456; E 65 90 [] 523; E 95 95 [] 523;
      E 97 122 [] 523; E 126 126 [] 523]
  | 526 => Some [E 33 33 [] 523; E 35 35 [uri_save_host; uri_markh; uri_save_path] 453; E 36 36 [] 523;
      E 37 37 [] 258; E 38 45 [] 523; E 46 46 [] 527; E 47 47 [uri_save_host; uri_markh] 513; E 48 57 [] 523;
      E 58 58 [uri_save_host] 514; E 59 59 [] 523; E 61 61 [] 523;
      E 63 63 [uri_save_host; uri_markh; uri_save_path] 456; E 65 90 [] 523; E 95 95 [] 523; E 97 122 [] 523;
      E 126 126 [] 523]
  | 527 => Some [E 2 2 [] 237; E 33 33 [] 523; E 35 35 [uri_save_host; uri_markh; uri_save_path] 453;
      E 36 36 [] 523; E 37 37 [] 258; E 38 46 [] 523; E 47 47 [uri_save_host; uri_markh] 513; E 48 48 [] 528;
      E 49 49 [] 530; E 50 50 [] 532; E 51 57 [] 531; E 58 58 [uri_save_host] 514; E 59 59 [] 523;
      E 61 61 [] 523; E 63 63 [uri_save_host; uri_markh; uri_save_path] 456; E 65 90 [] 523; E 95 95 [] 523;
      E 97 122 [] 523; E 126 126 [] 523]
  | _ => None
  end.

Definition uri_states_528 (cs : Z) : option (list (edge uri_action)) :=
  match cs with
  | 528 => Some [E 33 33 [] 523; E 35 35 [uri_save_host; uri_markh; uri_save_path] 453; E 36 36 [] 523;
      E 37 37 [] 258; E 38 45 [] 523; E 46 46 [] 529; E 47 47 [uri_save_host; uri_markh] 513; E 48 57 [] 523;
      E 58 58 [uri_save_host] 514; E 59 59 [] 523; E 61 61 [] 523;
      E 63 63 [uri_save_host; uri_markh; uri_save_path] 456; E 65 90 [] 523; E 95 95 [] 523; E 97 122 [] 523;
      E 126 126 [] 523]
  | 529 => Some [E 2 2 [] 241; E 33 33 [] 523; E 35 35 [uri_save_host; uri_markh; uri_save_path] 453;
      E 36 36 [] 523; E 37 37 [] 258; E 38 46 [] 523; E 47 47 [uri_save_host; uri_markh] 513; E 48 57 [] 523;
      E 58 58 [uri_save_host] 514; E 59 59 [] 523; E 61 61 [] 523;
      E 63 63 [uri_save_host; uri_markh; uri_save_path] 456; E 65 90 [] 523; E 95 95 [] 523; E 97 122 [] 523;
      E 126 126 [] 523]
  | 530 => Some [E 33 33 [] 523; E 35 35 [uri_save_host; uri_markh; uri_save_path] 453; E 36 36 [] 523;
      E 37 37 [] 258; E 38 45 [] 523; E 46 46 [] 529; E 47 47 [uri_save_host; uri_markh] 513; E 48 57 [] 531;
      E 58 58 [uri_save_host] 514; E 59 59 [] 523; E 61 61 [] 523;
      E 63 63 [uri_save_host; uri_markh; uri_save_path] 456; E 65 90 [] 523; E 95 95 [] 523; E 97 122 [] 523;
      E 126 126 [] 523]
  | 531 => Some [E 33 33 [] 523; E 35 35 [uri_save_host; uri_markh; uri_save_path] 453; E 36 36 [] 523;
      E 37 37 [] 258; E 38 45 [] 523; E 46 46 [] 529; E 47 47 [uri_save_host; uri_markh] 513; E 48 57 [] 528;
      E 58 58 [uri_save_host] 514; E 59 59 [] 523; E 61 61 [] 523;
      E 63 63 [uri_save_host; uri_markh; uri_save_path] 456; E 65 90 [] 523; E 95 95 [] 523; E 97 122 [] 523;
      E 126 126 [] 523]
  | 532 => Some [E 33 33 [] 523; E 35 35 [uri_save_host; uri_markh; uri_save_path] 453; E 36 36 [] 523;
      E 37 37 [] 258; E 38 45 [] 523; E 46 46 [] 529; E 47 47 [uri_save_host; uri_markh] 513; E 48 52 [] 528;
      E 53 53 [] 533; E 54 57 [] 528; E 58 58 [uri_save_host] 514; E 59 59 [] 523; E 61 61 [] 523;
      E 63 63 [uri_save_host; uri_markh; uri_save_path] 456; E 65 90 [] 523; E 95 95 [] 523; E 97 122 [] 523;
      E 126 126 [] 523]
  | _ => None
  end.

Definition uri_states_533 (cs : Z) : option (list (edge uri_action)) :=
  match cs with
  | 533 => Some [E 33 33 [] 523; E 35 35 [uri_save_host; uri_markh; uri_save_path] 453; E 36 36 [] 523;
      E 37 37 [] 258; E 38 45 [] 523; E 46 46 [] 529; E 47 47 [uri_save_host; uri_markh] 513; E 48 53 [] 528;
      E 54 57 [] 523; E 58 58 [uri_save_host] 514; E 59 59 [] 523; E 61 61 [] 523;
      E 63 63 [uri_save_host; uri_markh; uri_save_path] 456; E 65 90 [] 523; E 95 95 [] 523; E 97 122 [] 523;
      E 126 126 [] 523]
  | 534 => Some [E 33 33 [] 523; E 35 35 [uri_save_host; uri_markh; uri_save_path] 453; E 36 36 [] 523;
      E 37 37 [] 258; E 38 45 [] 523; E 46 46 [] 527; E 47 47 [uri_save_host; uri_markh] 513; E 48 57 [] 535;
      E 58 58 [uri_save_host] 514; E 59 59 [] 523; E 61 61 [] 523;
      E 63 63 [uri_save_host; uri_markh; uri_save_path] 456; E 65 90 [] 523; E 95 95 [] 523; E 97 122 [] 523;
      E 126 126 [] 523]
  | 535 => Some [E 33 33 [] 523; E 35 35 [uri_save_host; uri_markh; uri_save_path] 453; E 36 36 [] 523;
      E 37 37 [] 258; E 38 45 [] 523; E 46 46 [] 527; E 47 47 [uri_save_host; uri_markh] 513; E 48 57 [] 526;
      E 58 58 [uri_save_host] 514; E 59 59 [] 523; E 61 61 [] 523;
      E 63 63 [uri_save_host; uri_markh; uri_save_path] 456; E 65 90 [] 523; E 95 95 [] 523; E 97 122 [] 523;
      E 126 126 [] 523]
  | 536 => Some [E 33 33 [] 523; E 35 35 [uri_save_host; uri_markh; uri_save_path] 453; E 36 36 [] 523;
      E 37 37 [] 258; E 38 45 [] 523; E 46 46 [] 527; E 47 47 [uri_save_host; uri_markh] 513; E 48 52 [] 526;
      E 53 53 [] 537; E 54 57 [] 526; E 58 58 [uri_save_host] 514; E 59 59 [] 523; E 61 61 [] 523;
      E 63 63 [uri_save_host; uri_markh; uri_save_path] 456; E 65 90 [] 523; E 95 95 [] 523; E 97 122 [] 523;
      E 126 126 [] 523]
  | 537 => Some [E 33 33 [] 523; E 35 35 [uri_save_host; uri_markh; uri_save_path] 453; E 36 36 [] 523;
      E 37 37 [] 258; E 38 45 [] 523; E 46 46 [] 527; E 47 47 [uri_save_host; uri_markh] 513; E 48 53 [] 526;
      E 54 57 [] 523; E 58 58 [uri_save_host] 514; E 59 59 [] 523; E 61 61 [] 523;
      E 63 63 [uri_save_host; uri_markh; uri_save_path] 456; E 65 90 [] 523; E 95 95 [] 523; E 97 122 [] 523;
      E 126 126 [] 523]
  | _ => None
  end.

Definition uri_states_538 (cs : Z) : option (list (edge uri_action)) :=
  match cs with
  | 538 => Some [E 33 33 [] 523; E 35 35 [uri_save_host; uri_markh; uri_save_path] 453; E 36 36 [] 523;
      E 37 37 [] 258; E 38 45 [] 523; E 46 46 [] 525; E 47 47 [uri_save_host; uri_markh] 513; E 48 57 [] 539;
      E 58 58 [uri_save_host] 514; E 59 59 [] 523; E 61 61 [] 523;
      E 63 63 [uri_save_host; uri_markh; uri_save_path] 456; E 65 90 [] 523; E 95 95 [] 523; E 97 122 [] 523;
      E 126 126 [] 523]
  | 539 => Some [E 33 33 [] 523; E 35 35 [uri_save_host; uri_markh; uri_save_path] 453; E 36 36 [] 523;
      E 37 37 [] 258; E 38 45 [] 523; E 46 46 [] 525; E 47 47 [uri_save_host; uri_markh] 513; E 48 57 [] 524;
      E 58 58 [uri_save_host] 514; E 59 59 [] 523; E 61 61 [] 523;
      E 63 63 [uri_save_host; uri_markh; uri_save_path] 456; E 65 90 [] 523; E 95 95 [] 523; E 97 122 [] 523;
      E 126 126 [] 523]
  | 540 => Some [E 33 33 [] 523; E 35 35 [uri_save_host; uri_markh; uri_save_path] 453; E 36 36 [] 523;
      E 37 37 [] 258; E 38 45 [] 523; E 46 46 [] 525; E 47 47 [uri_save_host; uri_markh] 513; E 48 52 [] 524;
      E 53 53 [] 541; E 54 57 [] 524; E 58 58 [uri_save_host] 514; E 59 59 [] 523; E 61 61 [] 523;
      E 63 63 [uri_save_host; uri_markh; uri_save_path] 456; E 65 90 [] 523; E 95 95 [] 523; E 97 122 [] 523;
      E 126 126 [] 523]
  | 541 => Some [E 33 33 [] 523; E 35 35 [uri_save_host; uri_markh; uri_save_path] 453; E 36 36 [] 523;
      E 37 37 [] 258; E 38 45 [] 523; E 46 46 [] 525; E 47 47 [uri_save_host; uri_markh] 513; E 48 53 [] 524;
      E 54 57 [] 523; E 58 58 [uri_save_host] 514; E 59 59 [] 523; E 61 61 [] 523;
      E 63 63 [uri_save_host; uri_markh; uri_save_path] 456; E 65 90 [] 523; E 95 95 [] 523; E 97 122 [] 523;
      E 126 126 [] 523]
  | _ => None
  end.

Definition uri_states_260 (cs : Z) : option (list (edge uri_action)) :=
  match cs with
  | 260 => Some [E 48 57 [] 261; E 58 58 [] 368; E 65 70 [] 261; E 97 102 [] 261; E 118 118 [] 447]
  | 261 => Some [E 48 57 [] 262; E 58 58 [] 265; E 65 70 [] 262; E 97 102 [] 262]
  | 262 => Some [E 48 57 [] 263; E 58 58 [] 265; E 65 70 [] 263; E 97 102 [] 263]
  | 263 => Some [E 48 57 [] 264; E 58 58 [] 265; E 65 70 [] 264; E 97 102 [] 264]
  | 264 => Some [E 58 58 [] 265]
  | 265 => Some [E 48 57 [] 266; E 58 58 [] 363; E 65 70 [] 266; E 97 102 [] 266]
  | 266 => Some [E 48 57 [] 267; E 58 58 [] 270; E 65 70 [] 267; E 97 102 [] 267]
  | 267 => Some [E 48 57 [] 268; E 58 58 [] 270; E 65 70 [] 268; E 97 102 [] 268]
  | 268 => Some [E 48 57 [] 269; E 58 58 [] 270; E 65 70 [] 269; E 97 102 [] 269]
  | 269 => Some [E 58 58 [] 270]
  | _ => None
  end.

Definition uri_states_270 (cs : Z) : option (list (edge uri_action)) :=
  match cs with
  | 270 => Some [E 48 57 [] 271; E 58 58 [] 358; E 65 70 [] 271; E 97 102 [] 271]
  | 271 => Some [E 48 57 [] 272; E 58 58 [] 275; E 65 70 [] 272; E 97 102 [] 272]
  | 272 => Some [E 48 57 [] 273; E 58 58 [] 275; E 65 70 [] 273; E 97 102 [] 273]
  | 273 => Some [E 48 57 [] 274; E 58 58 [] 275; E 65 70 [] 274; E 97 102 [] 274]
  | 274 => Some [E 58 58 [] 275]
  | 275 => Some [E 48 57 [] 276; E 58 58 [] 353; E 65 70 [] 276; E 97 102 [] 276]
  | 276 => Some [E 48 57 [] 277; E 58 58 [] 280; E 65 70 [] 277; E 97 102 [] 277]
  | 277 => Some [E 48 57 [] 278; E 58 58 [] 280; E 65 70 [] 278; E 97 102 [] 278]
  | 278 => Some [E 48 57 [] 279; E 58 58 [] 280; E 65 70 [] 279; E 97 102 [] 279]
  | 279 => Some [E 58 58 [] 280]
  | 280 => Some [E 48 57 [] 281; E 58 58 [] 348; E 65 70 [] 281; E 97 102 [] 281]
  | _ => None
  end.

Definition uri_states_281 (cs : Z) : option (list (edge uri_action)) :=
  match cs with
  | 281 => Some [E 48 57 [] 282; E 58 58 [] 285; E 65 70 [] 282; E 97 102 [] 282]
  | 282 => Some [E 48 57 [] 283; E 58 58 [] 285; E 65 70 [] 283; E 97 102 [] 283]
  | 283 => Some [E 48 57 [] 284; E 58 58 [] 285; E 65 70 [] 284; E 97 102 [] 284]
  | 284 => Some [E 58 58 [] 285]
  | 285 => Some [E 48 57 [] 286; E 58 58 [] 335; E 65 70 [] 286; E 97 102 [] 286]
  | 286 => Some [E 48 57 [] 287; E 58 58 [] 290; E 65 70 [] 287; E 97 102 [] 287]
  | 287 => Some [E 48 57 [] 288; E 58 58 [] 290; E 65 70 [] 288; E 97 102 [] 288]
  | 288 => Some [E 48 57 [] 289; E 58 58 [] 290; E 65 70 [] 289; E 97 102 [] 289]
  | 289 => Some [E 58 58 [] 290]
  | 290 => Some [E 2 2 [] 291; E 48 48 [] 318; E 49 49 [] 326; E 50 50 [] 329; E 51 57 [] 332;
      E 58 58 [] 333; E 65 70 [] 334; E 97 102 [] 334]
  | 291 => Some [E 48 52 [] 292]
  | _ => None
  end.

Definition uri_states_292 (cs : Z) : option (list (edge uri_action)) :=
  match cs with
  | 292 => Some [E 48 57 [] 293]
  | 293 => Some [E 46 46 [] 294]
  | 294 => Some [E 2 2 [] 295; E 48 48 [] 297; E 49 49 [] 314; E 50 50 [] 316; E 51 57 [] 315]
  | 295 => Some [E 48 52 [] 296]
  | 296 => Some [E 48 57 [] 297]
  | 297 => Some [E 46 46 [] 298]
  | 298 => Some [E 2 2 [] 299; E 48 48 [] 301; E 49 49 [] 310; E 50 50 [] 312; E 51 57 [] 311]
  | 299 => Some [E 48 52 [] 300]
  | 300 => Some [E 48 57 [] 301]
  | 301 => Some [E 46 46 [] 302]
  | 302 => Some [E 2 2 [] 303; E 48 48 [] 305; E 49 49 [] 306; E 50 50 [] 308; E 51 57 [] 307]
  | 303 => Some [E 48 52 [] 304]
  | 304 => Some [E 48 57 [] 305]
  | 305 => Some [E 93 93 [] 512]
  | 306 => Some [E 48 57 [] 307; E 93 93 [] 512]
  | 307 => Some [E 48 57 [] 305; E 93 93 [] 512]
  | 308 => Some [E 48 52 [] 305; E 53 53 [] 309; E 54 57 [] 305; E 93 93 [] 512]
  | _ => None
  end.

Definition uri_states_309 (cs : Z) : option (list (edge uri_action)) :=
  match cs with
  | 309 => Some [E 48 53 [] 305; E 93 93 [] 512]
  | 310 => Some [E 46 46 [] 302; E 48 57 [] 311]
  | 311 => Some [E 46 46 [] 302; E 48 57 [] 301]
  | 312 => Some [E 46 46 [] 302; E 48 52 [] 301; E 53 53 [] 313; E 54 57 [] 301]
  | 313 => Some [E 46 46 [] 302; E 48 53 [] 301]
  | 314 => Some [E 46 46 [] 298; E 48 57 [] 315]
  | 315 => Some [E 46 46 [] 298; E 48 57 [] 297]
  | 316 => Some [E 46 46 [] 298; E 48 52 [] 297; E 53 53 [] 317; E 54 57 [] 297]
  | 317 => Some [E 46 46 [] 298; E 48 53 [] 297]
  | 318 => Some [E 46 46 [] 294; E 48 57 [] 319; E 58 58 [] 322; E 65 70 [] 319; E 97 102 [] 319]
  | 319 => Some [E 48 57 [] 320; E 58 58 [] 322; E 65 70 [] 320; E 97 102 [] 320]
  | 320 => Some [E 48 57 [] 321; E 58 58 [] 322; E 65 70 [] 321; E 97 102 [] 321]
  | 321 => Some [E 58 58 [] 322]
  | _ => None
  end.

Definition uri_states_322 (cs : Z) : option (list (edge uri_action)) :=
  match cs with
  | 322 => Some [E 48 57 [] 323; E 58 58 [] 305; E 65 70 [] 323; E 97 102 [] 323]
  | 323 => Some [E 48 57 [] 324; E 65 70 [] 324; E 93 93 [] 512; E 97 102 [] 324]
  | 324 => Some [E 48 57 [] 325; E 65 70 [] 325; E 93 93 [] 512; E 97 102 [] 325]
  | 325 => Some [E 48 57 [] 305; E 65 70 [] 305; E 93 93 [] 512; E 97 102 [] 305]
  | 326 => Some [E 46 46 [] 294; E 48 57 [] 327; E 58 58 [] 322; E 65 70 [] 319; E 97 102 [] 319]
  | 327 => Some [E 46 46 [] 294; E 48 57 [] 328; E 58 58 [] 322; E 65 70 [] 320; E 97 102 [] 320]
  | 328 => Some [E 46 46 [] 294; E 48 57 [] 321; E 58 58 [] 322; E 65 70 [] 321; E 97 102 [] 321]
  | 329 => Some [E 46 46 [] 294; E 48 52 [] 330; E 53 53 [] 331; E 54 57 [] 330; E 58 58 [] 322;
      E 65 70 [] 319; E 97 102 [] 319]
  | 330 => Some [E 46 46 [] 294; E 48 57 [] 320; E 58 58 [] 322; E 65 70 [] 320; E 97 102 [] 320]
  | _ => None
  end.

Definition uri_states_331 (cs : Z) : option (list (edge uri_action)) :=
  match cs with
  | 331 => Some [E 46 46 [] 294; E 48 53 [] 328; E 54 57 [] 320; E 58 58 [] 322; E 65 70 [] 320;
      E 97 102 [] 320]
  | 332 => Some [E 46 46 [] 294; E 48 57 [] 330; E 58 58 [] 322; E 65 70 [] 319; E 97 102 [] 319]
  | 333 => Some [E 48 57 [] 323; E 65 70 [] 323; E 97 102 [] 323]
  | 334 => Some [E 48 57 [] 319; E 58 58 [] 322; E 65 70 [] 319; E 97 102 [] 319]
  | 335 => Some [E 2 2 [] 291; E 48 48 [] 336; E 49 49 [] 340; E 50 50 [] 343; E 51 57 [] 346;
      E 65 70 [] 347; E 97 102 [] 347]
  | 336 => Some [E 46 46 [] 294; E 48 57 [] 337; E 58 58 [] 333; E 65 70 [] 337; E 97 102 [] 337]
  | 337 => Some [E 48 57 [] 338; E 58 58 [] 333; E 65 70 [] 338; E 97 102 [] 338]
  | 338 => Some [E 48 57 [] 339; E 58 58 [] 333; E 65 70 [] 339; E 97 102 [] 339]
  | 339 => Some [E 58 58 [] 333]
  | _ => None
  end.

Definition uri_states_340 (cs : Z) : option (list (edge uri_action)) :=
  match cs with
  | 340 => Some [E 46 46 [] 294; E 48 57 [] 341; E 58 58 [] 333; E 65 70 [] 337; E 97 102 [] 337]
  | 341 => Some [E 46 46 [] 294; E 48 57 [] 342; E 58 58 [] 333; E 65 70 [] 338; E 97 102 [] 338]
  | 342 => Some [E 46 46 [] 294; E 48 57 [] 339; E 58 58 [] 333; E 65 70 [] 339; E 97 102 [] 339]
  | 343 => Some [E 46 46 [] 294; E 48 52 [] 344; E 53 53 [] 345; E 54 57 [] 344; E 58 58 [] 333;
      E 65 70 [] 337; E 97 102 [] 337]
  | 344 => Some [E 46 46 [] 294; E 48 57 [] 338; E 58 58 [] 333; E 65 70 [] 338; E 97 102 [] 338]
  | 345 => Some [E 46 46 [] 294; E 48 53 [] 342; E 54 57 [] 338; E 58 58 [] 333; E 65 70 [] 338;
      E 97 102 [] 338]
  | 346 => Some [E 46 46 [] 294; E 48 57 [] 344; E 58 58 [] 333; E 65 70 [] 337; E 97 102 [] 337]
  | 347 => Some [E 48 57 [] 337; E 58 58 [] 333; E 65 70 [] 337; E 97 102 [] 337]
  | _ => None
  end.

Definition uri_states_348 (cs : Z) : option (list (edge uri_action)) :=
  match cs with
  | 348 => Some [E 48 57 [] 349; E 65 70 [] 349; E 97 102 [] 349]
  | 349 => Some [E 48 57 [] 350; E 58 58 [] 335; E 65 70 [] 350; E 97 102 [] 350]
  | 350 => Some [E 48 57 [] 351; E 58 58 [] 335; E 65 70 [] 351; E 97 102 [] 351]
  | 351 => Some [E 48 57 [] 352; E 58 58 [] 335; E 65 70 [] 352; E 97 102 [] 352]
  | 352 => Some [E 58 58 [] 335]
  | 353 => Some [E 48 57 [] 354; E 65 70 [] 354; E 97 102 [] 354]
  | 354 => Some [E 48 57 [] 355; E 58 58 [] 348; E 65 70 [] 355; E 97 102 [] 355]
  | 355 => Some [E 48 57 [] 356; E 58 58 [] 348; E 65 70 [] 356; E 97 102 [] 356]
  | 356 => Some [E 48 57 [] 357; E 58 58 [] 348; E 65 70 [] 357; E 97 102 [] 357]
  | 357 => Some [E 58 58 [] 348]
  | 358 => Some [E 48 57 [] 359; E 65 70 [] 359; E 97 102 [] 359]
  | _ => None
  end.

Definition uri_states_359 (cs : Z) : option (list (edge uri_action)) :=
  match cs with
  | 359 => Some [E 48 57 [] 360; E 58 58 [] 353; E 65 70 [] 360; E 97 102 [] 360]
  | 360 => Some [E 48 57 [] 361; E 58 58 [] 353; E 65 70 [] 361; E 97 102 [] 361]
  | 361 => Some [E 48 57 [] 362; E 58 58 [] 353; E 65 70 [] 362; E 97 102 [] 362]
  | 362 => Some [E 58 58 [] 353]
  | 363 => Some [E 48 57 [] 364; E 65 70 [] 364; E 97 102 [] 364]
  | 364 => Some [E 48 57 [] 365; E 58 58 [] 358; E 65 70 [] 365; E 97 102 [] 365]
  | 365 => Some [E 48 57 [] 366; E 58 58 [] 358; E 65 70 [] 366; E 97 102 [] 366]
  | 366 => Some [E 48 57 [] 367; E 58 58 [] 358; E 65 70 [] 367; E 97 102 [] 367]
  | 367 => Some [E 58 58 [] 358]
  | 368 => Some [E 58 58 [] 369]
  | 369 => Some [E 2 2 [] 291; E 48 48 [] 370; E 49 49 [] 439; E 50 50 [] 442; E 51 57 [] 445;
      E 65 70 [] 446; E 93 93 [] 512; E 97 102 [] 446]
  | _ => None
  end.

Definition uri_states_370 (cs : Z) : option (list (edge uri_action)) :=
  match cs with
  | 370 => Some [E 46 46 [] 294; E 48 57 [] 371; E 58 58 [] 374; E 65 70 [] 371; E 93 93 [] 512;
      E 97 102 [] 371]
  | 371 => Some [E 48 57 [] 372; E 58 58 [] 374; E 65 70 [] 372; E 93 93 [] 512; E 97 102 [] 372]
  | 372 => Some [E 48 57 [] 373; E 58 58 [] 374; E 65 70 [] 373; E 93 93 [] 512; E 97 102 [] 373]
  | 373 => Some [E 58 58 [] 374; E 93 93 [] 512]
  | 374 => Some [E 2 2 [] 291; E 48 48 [] 375; E 49 49 [] 431; E 50 50 [] 434; E 51 57 [] 437;
      E 65 70 [] 438; E 97 102 [] 438]
  | 375 => Some [E 46 46 [] 294; E 48 57 [] 376; E 58 58 [] 379; E 65 70 [] 376; E 93 93 [] 512;
      E 97 102 [] 376]
  | 376 => Some [E 48 57 [] 377; E 58 58 [] 379; E 65 70 [] 377; E 93 93 [] 512; E 97 102 [] 377]
  | 377 => Some [E 48 57 [] 378; E 58 58 [] 379; E 65 70 [] 378; E 93 93 [] 512; E 97 102 [] 378]
  | 378 => Some [E 58 58 [] 379; E 93 93 [] 512]
  | _ => None
  end.

Definition uri_states_379 (cs : Z) : option (list (edge uri_action)) :=
  match cs with
  | 379 => Some [E 2 2 [] 291; E 48 48 [] 380; E 49 49 [] 423; E 50 50 [] 426; E 51 57 [] 429;
      E 65 70 [] 430; E 97 102 [] 430]
  | 380 => Some [E 46 46 [] 294; E 48 57 [] 381; E 58 58 [] 384; E 65 70 [] 381; E 93 93 [] 512;
      E 97 102 [] 381]
  | 381 => Some [E 48 57 [] 382; E 58 58 [] 384; E 65 70 [] 382; E 93 93 [] 512; E 97 102 [] 382]
  | 382 => Some [E 48 57 [] 383; E 58 58 [] 384; E 65 70 [] 383; E 93 93 [] 512; E 97 102 [] 383]
  | 383 => Some [E 58 58 [] 384; E 93 93 [] 512]
  | 384 => Some [E 2 2 [] 291; E 48 48 [] 385; E 49 49 [] 415; E 50 50 [] 418; E 51 57 [] 421;
      E 65 70 [] 422; E 97 102 [] 422]
  | 385 => Some [E 46 46 [] 294; E 48 57 [] 386; E 58 58 [] 389; E 65 70 [] 386; E 93 93 [] 512;
      E 97 102 [] 386]
  | 386 => Some [E 48 57 [] 387; E 58 58 [] 389; E 65 70 [] 387; E 93 93 [] 512; E 97 102 [] 387]
  | _ => None
  end.

Definition uri_states_387 (cs : Z) : option (list (edge uri_action)) :=
  match cs with
  | 387 => Some [E 48 57 [] 388; E 58 58 [] 389; E 65 70 [] 388; E 93 93 [] 512; E 97 102 [] 388]
  | 388 => Some [E 58 58 [] 389; E 93 93 [] 512]
  | 389 => Some [E 2 2 [] 291; E 48 48 [] 390; E 49 49 [] 407; E 50 50 [] 410; E 51 57 [] 413;
      E 65 70 [] 414; E 97 102 [] 414]
  | 390 => Some [E 46 46 [] 294; E 48 57 [] 391; E 58 58 [] 394; E 65 70 [] 391; E 93 93 [] 512;
      E 97 102 [] 391]
  | 391 => Some [E 48 57 [] 392; E 58 58 [] 394; E 65 70 [] 392; E 93 93 [] 512; E 97 102 [] 392]
  | 392 => Some [E 48 57 [] 393; E 58 58 [] 394; E 65 70 [] 393; E 93 93 [] 512; E 97 102 [] 393]
  | 393 => Some [E 58 58 [] 394; E 93 93 [] 512]
  | 394 => Some [E 2 2 [] 291; E 48 48 [] 395; E 49 49 [] 399; E 50 50 [] 402; E 51 57 [] 405;
      E 65 70 [] 406; E 97 102 [] 406]
  | 395 => Some [E 46 46 [] 294; E 48 57 [] 396; E 58 58 [] 333; E 65 70 [] 396; E 93 93 [] 512;
      E 97 102 [] 396]
  | _ => None
  end.

Definition uri_states_396 (cs : Z) : option (list (edge uri_action)) :=
  match cs with
  | 396 => Some [E 48 57 [] 397; E 58 58 [] 333; E 65 70 [] 397; E 93 93 [] 512; E 97 102 [] 397]
  | 397 => Some [E 48 57 [] 398; E 58 58 [] 333; E 65 70 [] 398; E 93 93 [] 512; E 97 102 [] 398]
  | 398 => Some [E 58 58 [] 333; E 93 93 [] 512]
  | 399 => Some [E 46 46 [] 294; E 48 57 [] 400; E 58 58 [] 333; E 65 70 [] 396; E 93 93 [] 512;
      E 97 102 [] 396]
  | 400 => Some [E 46 46 [] 294; E 48 57 [] 401; E 58 58 [] 333; E 65 70 [] 397; E 93 93 [] 512;
      E 97 102 [] 397]
  | 401 => Some [E 46 46 [] 294; E 48 57 [] 398; E 58 58 [] 333; E 65 70 [] 398; E 93 93 [] 512;
      E 97 102 [] 398]
  | 402 => Some [E 46 46 [] 294; E 48 52 [] 403; E 53 53 [] 404; E 54 57 [] 403; E 58 58 [] 333;
      E 65 70 [] 396; E 93 93 [] 512; E 97 102 [] 396]
  | 403 => Some [E 46 46 [] 294; E 48 57 [] 397; E 58 58 [] 333; E 65 70 [] 397; E 93 93 [] 512;
      E 97 102 [] 397]
  | _ => None
  end.

Definition uri_states_404 (cs : Z) : option (list (edge uri_action)) :=
  match cs with
  | 404 => Some [E 46 46 [] 294; E 48 53 [] 401; E 54 57 [] 397; E 58 58 [] 333; E 65 70 [] 397;
      E 93 93 [] 512; E 97 102 [] 397]
  | 405 => Some [E 46 46 [] 294; E 48 57 [] 403; E 58 58 [] 333; E 65 70 [] 396; E 93 93 [] 512;
      E 97 102 [] 396]
  | 406 => Some [E 48 57 [] 396; E 58 58 [] 333; E 65 70 [] 396; E 93 93 [] 512; E 97 102 [] 396]
  | 407 => Some [E 46 46 [] 294; E 48 57 [] 408; E 58 58 [] 394; E 65 70 [] 391; E 93 93 [] 512;
      E 97 102 [] 391]
  | 408 => Some [E 46 46 [] 294; E 48 57 [] 409; E 58 58 [] 394; E 65 70 [] 392; E 93 93 [] 512;
      E 97 102 [] 392]
  | 409 => Some [E 46 46 [] 294; E 48 57 [] 393; E 58 58 [] 394; E 65 70 [] 393; E 93 93 [] 512;
      E 97 102 [] 393]
  | 410 => Some [E 46 46 [] 294; E 48 52 [] 411; E 53 53 [] 412; E 54 57 [] 411; E 58 58 [] 394;
      E 65 70 [] 391; E 93 93 [] 512; E 97 102 [] 391]
  | 411 => Some [E 46 46 [] 294; E 48 57 [] 392; E 58 58 [] 394; E 65 70 [] 392; E 93 93 [] 512;
      E 97 102 [] 392]
  | _ => None
  end.

Definition uri_states_412 (cs : Z) : option (list (edge uri_action)) :=
  match cs with
  | 412 => Some [E 46 46 [] 294; E 48 53 [] 409; E 54 57 [] 392; E 58 58 [] 394; E 65 70 [] 392;
      E 93 93 [] 512; E 97 102 [] 392]
  | 413 => Some [E 46 46 [] 294; E 48 57 [] 411; E 58 58 [] 394; E 65 70 [] 391; E 93 93 [] 512;
      E 97 102 [] 391]
  | 414 => Some [E 48 57 [] 391; E 58 58 [] 394; E 65 70 [] 391; E 93 93 [] 512; E 97 102 [] 391]
  | 415 => Some [E 46 46 [] 294; E 48 57 [] 416; E 58 58 [] 389; E 65 70 [] 386; E 93 93 [] 512;
      E 97 102 [] 386]
  | 416 => Some [E 46 46 [] 294; E 48 57 [] 417; E 58 58 [] 389; E 65 70 [] 387; E 93 93 [] 512;
      E 97 102 [] 387]
  | 417 => Some [E 46 46 [] 294; E 48 57 [] 388; E 58 58 [] 389; E 65 70 [] 388; E 93 93 [] 512;
      E 97 102 [] 388]
  | 418 => Some [E 46 46 [] 294; E 48 52 [] 419; E 53 53 [] 420; E 54 57 [] 419; E 58 58 [] 389;
      E 65 70 [] 386; E 93 93 [] 512; E 97 102 [] 386]
  | 419 => Some [E 46 46 [] 294; E 48 57 [] 387; E 58 58 [] 389; E 65 70 [] 387; E 93 93 [] 512;
      E 97 102 [] 387]
  | _ => None
  end.

Definition uri_states_420 (cs : Z) : option (list (edge uri_action)) :=
  match cs with
  | 420 => Some [E 46 46 [] 294; E 48 53 [] 417; E 54 57 [] 387; E 58 58 [] 389; E 65 70 [] 387;
      E 93 93 [] 512; E 97 102 [] 387]
  | 421 => Some [E 46 46 [] 294; E 48 57 [] 419; E 58 58 [] 389; E 65 70 [] 386; E 93 93 [] 512;
      E 97 102 [] 386]
  | 422 => Some [E 48 57 [] 386; E 58 58 [] 389; E 65 70 [] 386; E 93 93 [] 512; E 97 102 [] 386]
  | 423 => Some [E 46 46 [] 294; E 48 57 [] 424; E 58 58 [] 384; E 65 70 [] 381; E 93 93 [] 512;
      E 97 102 [] 381]
  | 424 => Some [E 46 46 [] 294; E 48 57 [] 425; E 58 58 [] 384; E 65 70 [] 382; E 93 93 [] 512;
      E 97 102 [] 382]
  | 425 => Some [E 46 46 [] 294; E 48 57 [] 383; E 58 58 [] 384; E 65 70 [] 383; E 93 93 [] 512;
      E 97 102 [] 383]
  | 426 => Some [E 46 46 [] 294; E 48 52 [] 427; E 53 53 [] 428; E 54 57 [] 427; E 58 58 [] 384;
      E 65 70 [] 381; E 93 93 [] 512; E 97 102 [] 381]
  | 427 => Some [E 46 46 [] 294; E 48 57 [] 382; E 58 58 [] 384; E 65 70 [] 382; E 93 93 [] 512;
      E 97 102 [] 382]
  | _ => None
  end.

Definition uri_states_428 (cs : Z) : option (list (edge uri_action)) :=
  match cs with
  | 428 => Some [E 46 46 [] 294; E 48 53 [] 425; E 54 57 [] 382; E 58 58 [] 384; E 65 70 [] 382;
      E 93 93 [] 512; E 97 102 [] 382]
  | 429 => Some [E 46 46 [] 294; E 48 57 [] 427; E 58 58 [] 384; E 65 70 [] 381; E 93 93 [] 512;
      E 97 102 [] 381]
  | 430 => Some [E 48 57 [] 381; E 58 58 [] 384; E 65 70 [] 381; E 93 93 [] 512; E 97 102 [] 381]
  | 431 => Some [E 46 46 [] 294; E 48 57 [] 432; E 58 58 [] 379; E 65 70 [] 376; E 93 93 [] 512;
      E 97 102 [] 376]
  | 432 => Some [E 46 46 [] 294; E 48 57 [] 433; E 58 58 [] 379; E 65 70 [] 377; E 93 93 [] 512;
      E 97 102 [] 377]
  | 433 => Some [E 46 46 [] 294; E 48 57 [] 378; E 58 58 [] 379; E 65 70 [] 378; E 93 93 [] 512;
      E 97 102 [] 378]
  | 434 => Some [E 46 46 [] 294; E 48 52 [] 435; E 53 53 [] 436; E 54 57 [] 435; E 58 58 [] 379;
      E 65 70 [] 376; E 93 93 [] 512; E 97 102 [] 376]
  | 435 => Some [E 46 46 [] 294; E 48 57 [] 377; E 58 58 [] 379; E 65 70 [] 377; E 93 93 [] 512;
      E 97 102 [] 377]
  | _ => None
  end.

Definition uri_states_436 (cs : Z) : option (list (edge uri_action)) :=
  match cs with
  | 436 => Some [E 46 46 [] 294; E 48 53 [] 433; E 54 57 [] 377; E 58 58 [] 379; E 65 70 [] 377;
      E 93 93 [] 512; E 97 102 [] 377]
  | 437 => Some [E 46 46 [] 294; E 48 57 [] 435; E 58 58 [] 379; E 65 70 [] 376; E 93 93 [] 512;
      E 97 102 [] 376]
  | 438 => Some [E 48 57 [] 376; E 58 58 [] 379; E 65 70 [] 376; E 93 93 [] 512; E 97 102 [] 376]
  | 439 => Some [E 46 46 [] 294; E 48 57 [] 440; E 58 58 [] 374; E 65 70 [] 371; E 93 93 [] 512;
      E 97 102 [] 371]
  | 440 => Some [E 46 46 [] 294; E 48 57 [] 441; E 58 58 [] 374; E 65 70 [] 372; E 93 93 [] 512;
      E 97 102 [] 372]
  | 441 => Some [E 46 46 [] 294; E 48 57 [] 373; E 58 58 [] 374; E 65 70 [] 373; E 93 93 [] 512;
      E 97 102 [] 373]
  | 442 => Some [E 46 46 [] 294; E 48 52 [] 443; E 53 53 [] 444; E 54 57 [] 443; E 58 58 [] 374;
      E 65 70 [] 371; E 93 93 [] 512; E 97 102 [] 371]
  | 443 => Some [E 46 46 [] 294; E 48 57 [] 372; E 58 58 [] 374; E 65 70 [] 372; E 93 93 [] 512;
      E 97 102 [] 372]
  | _ => None
  end.

Definition uri_states_444 (cs : Z) : option (list (edge uri_action)) :=
  match cs with
  | 444 => Some [E 46 46 [] 294; E 48 53 [] 441; E 54 57 [] 372; E 58 58 [] 374; E 65 70 [] 372;
      E 93 93 [] 512; E 97 102 [] 372]
  | 445 => Some [E 46 46 [] 294; E 48 57 [] 443; E 58 58 [] 374; E 65 70 [] 371; E 93 93 [] 512;
      E 97 102 [] 371]
  | 446 => Some [E 48 57 [] 371; E 58 58 [] 374; E 65 70 [] 371; E 93 93 [] 512; E 97 102 [] 371]
  | 447 => Some [E 48 57 [] 448; E 65 70 [] 448; E 97 102 [] 448]
  | 448 => Some [E 46 46 [] 449; E 48 57 [] 448; E 65 70 [] 448; E 97 102 [] 448]
  | 449 => Some [E 33 33 [] 450; E 36 36 [] 450; E 38 46 [] 450; E 48 59 [] 450; E 61 61 [] 450;
      E 65 90 [] 450; E 95 95 [] 450; E 97 122 [] 450; E 126 126 [] 450]
  | 450 => Some [E 33 33 [] 450; E 36 36 [] 450; E 38 46 [] 450; E 48 59 [] 450; E 61 61 [] 450;
      E 65 90 [] 450; E 93 93 [] 512; E 95 95 [] 450; E 97 122 [] 450; E 126 126 [] 450]
  | _ => None
  end.

Definition uri_states_542 (cs : Z) : option (list (edge uri_action)) :=
  match cs with
  | 542 => Some [E 33 33 [] 255; E 35 35 [uri_save_port; uri_markh; uri_save_path] 453; E 36 36 [] 255;
      E 37 37 [] 256; E 38 46 [] 255; E 47 47 [uri_save_port; uri_markh] 513; E 48 57 [] 542; E 58 59 [] 255;
      E 61 61 [] 255; E 63 63 [uri_save_port; uri_markh; uri_save_path] 456; E 64 64 [uri_save_userinfo] 522;
      E 65 90 [] 255; E 95 95 [] 255; E 97 122 [] 255; E 126 126 [] 255]
  | 543 => Some [E 33 33 [] 520; E 35 35 [uri_save_host; uri_markh; uri_save_path] 453; E 36 36 [] 520;
      E 37 37 [] 253; E 38 45 [] 520; E 46 46 [] 544; E 47 47 [uri_save_host; uri_markh] 513; E 48 57 [] 520;
      E 58 58 [uri_save_host] 521; E 59 59 [] 520; E 61 61 [] 520;
      E 63 63 [uri_save_host; uri_markh; uri_save_path] 456; E 64 64 [uri_save_userinfo] 522; E 65 90 [] 520;
      E 95 95 [] 520; E 97 122 [] 520; E 126 126 [] 520]
  | 544 => Some [E 2 2 [] 233; E 33 33 [] 520; E 35 35 [uri_save_host; uri_markh; uri_save_path] 453;
      E 36 36 [] 520; E 37 37 [] 253; E 38 46 [] 520; E 47 47 [uri_save_host; uri_markh] 513; E 48 48 [] 545;
      E 49 49 [] 553; E 50 50 [] 555; E 51 57 [] 554; E 58 58 [uri_save_host] 521; E 59 59 [] 520;
      E 61 61 [] 520; E 63 63 [uri_save_host; uri_markh; uri_save_path] 456; E 64 64 [uri_save_userinfo] 522;
      E 65 90 [] 520; E 95 95 [] 520; E 97 122 [] 520; E 126 126 [] 520]
  | 545 => Some [E 33 33 [] 520; E 35 35 [uri_save_host; uri_markh; uri_save_path] 453; E 36 36 [] 520;
      E 37 37 [] 253; E 38 45 [] 520; E 46 46 [] 546; E 47 47 [uri_save_host; uri_markh] 513; E 48 57 [] 520;
      E 58 58 [uri_save_host] 521; E 59 59 [] 520; E 61 61 [] 520;
      E 63 63 [uri_save_host; uri_markh; uri_save_path] 456; E 64 64 [uri_save_userinfo] 522; E 65 90 [] 520;
      E 95 95 [] 520; E 97 122 [] 520; E 126 126 [] 520]
  | _ => None
  end.

Definition uri_states_546 (cs : Z) : option (list (edge uri_action)) :=
  match cs with
  | 546 => Some [E 2 2 [] 237; E 33 33 [] 520; E 35 35 [uri_save_host; uri_markh; uri_save_path] 453;
      E 36 36 [] 520; E 37 37 [] 253; E 38 46 [] 520; E 47 47 [uri_save_host; uri_markh] 513; E 48 48 [] 547;
      E 49 49 [] 549; E 50 50 [] 551; E 51 57 [] 550; E 58 58 [uri_save_host] 521; E 59 59 [] 520;
      E 61 61 [] 520; E 63 63 [uri_save_host; uri_markh; uri_save_path] 456; E 64 64 [uri_save_userinfo] 522;
      E 65 90 [] 520; E 95 95 [] 520; E 97 122 [] 520; E 126 126 [] 520]
  | 547 => Some [E 33 33 [] 520; E 35 35 [uri_save_host; uri_markh; uri_save_path] 453; E 36 36 [] 520;
      E 37 37 [] 253; E 38 45 [] 520; E 46 46 [] 548; E 47 47 [uri_save_host; uri_markh] 513; E 48 57 [] 520;
      E 58 58 [uri_save_host] 521; E 59 59 [] 520; E 61 61 [] 520;
      E 63 63 [uri_save_host; uri_markh; uri_save_path] 456; E 64 64 [uri_save_userinfo] 522; E 65 90 [] 520;
      E 95 95 [] 520; E 97 122 [] 520; E 126 126 [] 520]
  | 548 => Some [E 2 2 [] 241; E 33 33 [] 520; E 35 35 [uri_save_host; uri_markh; uri_save_path] 453;
      E 36 36 [] 520; E 37 37 [] 253; E 38 46 [] 520; E 47 47 [uri_save_host; uri_markh] 513; E 48 57 [] 520;
      E 58 58 [uri_save_host] 521; E 59 59 [] 520; E 61 61 [] 520;
      E 63 63 [uri_save_host; uri_markh; uri_save_path] 456; E 64 64 [uri_save_userinfo] 522; E 65 90 [] 520;
      E 95 95 [] 520; E 97 122 [] 520; E 126 126 [] 520]
  | 549 => Some [E 33 33 [] 520; E 35 35 [uri_save_host; uri_markh; uri_save_path] 453; E 36 36 [] 520;
      E 37 37 [] 253; E 38 45 [] 520; E 46 46 [] 548; E 47 47 [uri_save_host; uri_markh] 513; E 48 57 [] 550;
      E 58 58 [uri_save_host] 521; E 59 59 [] 520; E 61 61 [] 520;
      E 63 63 [uri_save_host; uri_markh; uri_save_path] 456; E 64 64 [uri_save_userinfo] 522; E 65 90 [] 520;
      E 95 95 [] 520; E 97 122 [] 520; E 126 126 [] 520]
  | 550 => Some [E 33 33 [] 520; E 35 35 [uri_save_host; uri_markh; uri_save_path] 453; E 36 36 [] 520;
      E 37 37 [] 253; E 38 45 [] 520; E 46 46 [] 548; E 47 47 [uri_save_host; uri_markh] 513; E 48 57 [] 547;
      E 58 58 [uri_save_host] 521; E 59 59 [] 520; E 61 61 [] 520;
      E 63 63 [uri_save_host; uri_markh; uri_save_path] 456; E 64 64 [uri_save_userinfo] 522; E 65 90 [] 520;
      E 95 95 [] 520; E 97 122 [] 520; E 126 126 [] 520]
  | _ => None
  end.

Definition uri_states_551 (cs : Z) : option (list (edge uri_action)) :=
  match cs with
  | 551 => Some [E 33 33 [] 520; E 35 35 [uri_save_host; uri_markh; uri_save_path] 453; E 36 36 [] 520;
      E 37 37 [] 253; E 38 45 [] 520; E 46 46 [] 548; E 47 47 [uri_save_host; uri_markh] 513; E 48 52 [] 547;
      E 53 53 [] 552; E 54 57 [] 547; E 58 58 [uri_save_host] 521; E 59 59 [] 520; E 61 61 [] 520;
      E 63 63 [uri_save_host; uri_markh; uri_save_path] 456; E 64 64 [uri_save_userinfo] 522; E 65 90 [] 520;
      E 95 95 [] 520; E 97 122 [] 520; E 126 126 [] 520]
  | 552 => Some [E 33 33 [] 520; E 35 35 [uri_save_host; uri_markh; uri_save_path] 453; E 36 36 [] 520;
      E 37 37 [] 253; E 38 45 [] 520; E 46 46 [] 548; E 47 47 [uri_save_host; uri_markh] 513; E 48 53 [] 547;
      E 54 57 [] 520; E 58 58 [uri_save_host] 521; E 59 59 [] 520; E 61 61 [] 520;
      E 63 63 [uri_save_host; uri_markh; uri_save_path] 456; E 64 64 [uri_save_userinfo] 522; E 65 90 [] 520;
      E 95 95 [] 520; E 97 122 [] 520; E 126 126 [] 520]
  | 553 => Some [E 33 33 [] 520; E 35 35 [uri_save_host; uri_markh; uri_save_path] 453; E 36 36 [] 520;
      E 37 37 [] 253; E 38 45 [] 520; E 46 46 [] 546; E 47 47 [uri_save_host; uri_markh] 513; E 48 57 [] 554;
      E 58 58 [uri_save_host] 521; E 59 59 [] 520; E 61 61 [] 520;
      E 63 63 [uri_save_host; uri_markh; uri_save_path] 456; E 64 64 [uri_save_userinfo] 522; E 65 90 [] 520;
      E 95 95 [] 520; E 97 122 [] 520; E 126 126 [] 520]
  | 554 => Some [E 33 33 [] 520; E 35 35 [uri_save_host; uri_markh; uri_save_path] 453; E 36 36 [] 520;
      E 37 37 [] 253; E 38 45 [] 520; E 46 46 [] 546; E 47 47 [uri_save_host; uri_markh] 513; E 48 57 [] 545;
      E 58 58 [uri_save_host] 521; E 59 59 [] 520; E 61 61 [] 520;
      E 63 63 [uri_save_host; uri_markh; uri_save_path] 456; E 64 64 [uri_save_userinfo] 522; E 65 90 [] 520;
      E 95 95 [] 520; E 97 122 [] 520; E 126 126 [] 520]
  | _ => None
  end.

Definition uri_states_555 (cs : Z) : option (list (edge uri_action)) :=
  match cs with
  | 555 => Some [E 33 33 [] 520; E 35 35 [uri_save_host; uri_markh; uri_save_path] 453; E 36 36 [] 520;
      E 37 37 [] 253; E 38 45 [] 520; E 46 46 [] 546; E 47 47 [uri_save_host; uri_markh] 513; E 48 52 [] 545;
      E 53 53 [] 556; E 54 57 [] 545; E 58 58 [uri_save_host] 521; E 59 59 [] 520; E 61 61 [] 520;
      E 63 63 [uri_save_host; uri_markh; uri_save_path] 456; E 64 64 [uri_save_userinfo] 522; E 65 90 [] 520;
      E 95 95 [] 520; E 97 122 [] 520; E 126 126 [] 520]
  | 556 => Some [E 33 33 [] 520; E 35 35 [uri_save_host; uri_markh; uri_save_path] 453; E 36 36 [] 520;
      E 37 37 [] 253; E 38 45 [] 520; E 46 46 [] 546; E 47 47 [uri_save_host; uri_markh] 513; E 48 53 [] 545;
      E 54 57 [] 520; E 58 58 [uri_save_host] 521; E 59 59 [] 520; E 61 61 [] 520;
      E 63 63 [uri_save_host; uri_markh; uri_save_path] 456; E 64 64 [uri_save_userinfo] 522; E 65 90 [] 520;
      E 95 95 [] 520; E 97 122 [] 520; E 126 126 [] 520]
  | 557 => Some [E 33 33 [] 520; E 35 35 [uri_save_host; uri_markh; uri_save_path] 453; E 36 36 [] 520;
      E 37 37 [] 253; E 38 45 [] 520; E 46 46 [] 544; E 47 47 [uri_save_host; uri_markh] 513; E 48 57 [] 558;
      E 58 58 [uri_save_host] 521; E 59 59 [] 520; E 61 61 [] 520;
      E 63 63 [uri_save_host; uri_markh; uri_save_path] 456; E 64 64 [uri_save_userinfo] 522; E 65 90 [] 520;
      E 95 95 [] 520; E 97 122 [] 520; E 126 126 [] 520]
  | 558 => Some [E 33 33 [] 520; E 35 35 [uri_save_host; uri_markh; uri_save_path] 453; E 36 36 [] 520;
      E 37 37 [] 253; E 38 45 [] 520; E 46 46 [] 544; E 47 47 [uri_save_host; uri_markh] 513; E 48 57 [] 543;
      E 58 58 [uri_save_host] 521; E 59 59 [] 520; E 61 61 [] 520;
      E 63 63 [uri_save_host; uri_markh; uri_save_path] 456; E 64 64 [uri_save_userinfo] 522; E 65 90 [] 520;
      E 95 95 [] 520; E 97 122 [] 520; E 126 126 [] 520]
  | _ => None
  end.

Definition uri_states_559 (cs : Z) : option (list (edge uri_action)) :=
  match cs with
  | 559 => Some [E 33 33 [] 520; E 35 35 [uri_save_host; uri_markh; uri_save_path] 453; E 36 36 [] 520;
      E 37 37 [] 253; E 38 45 [] 520; E 46 46 [] 544; E 47 47 [uri_save_host; uri_markh] 513; E 48 52 [] 543;
      E 53 53 [] 560; E 54 57 [] 543; E 58 58 [uri_save_host] 521; E 59 59 [] 520; E 61 61 [] 520;
      E 63 63 [uri_save_host; uri_markh; uri_save_path] 456; E 64 64 [uri_save_userinfo] 522; E 65 90 [] 520;
      E 95 95 [] 520; E 97 122 [] 520; E 126 126 [] 520]
  | 560 => Some [E 33 33 [] 520; E 35 35 [uri_save_host; uri_markh; uri_save_path] 453; E 36 36 [] 520;
      E 37 37 [] 253; E 38 45 [] 520; E 46 46 [] 544; E 47 47 [uri_save_host; uri_markh] 513; E 48 53 [] 543;
      E 54 57 [] 520; E 58 58 [uri_save_host] 521; E 59 59 [] 520; E 61 61 [] 520;
      E 63 63 [uri_save_host; uri_markh; uri_save_path] 456; E 64 64 [uri_save_userinfo] 522; E 65 90 [] 520;
      E 95 95 [] 520; E 97 122 [] 520; E 126 126 [] 520]
  | _ => None
  end.

Definition uri_parser_row : Z → list (edge uri_action) := first_row
  [uri_states_451; uri_states_453; uri_states_454; uri_states_5; uri_states_456; uri_states_457;
   uri_states_12; uri_states_462; uri_states_467; uri_states_35; uri_states_471; uri_states_476;
   uri_states_481; uri_states_485; uri_states_38; uri_states_48; uri_states_59; uri_states_70;
   uri_states_87; uri_states_100; uri_states_109; uri_states_118; uri_states_126; uri_states_137;
   uri_states_148; uri_states_157; uri_states_165; uri_states_174; uri_states_182; uri_states_190;
   uri_states_198; uri_states_206; uri_states_214; uri_states_222; uri_states_489; uri_states_493;
   uri_states_498; uri_states_502; uri_states_506; uri_states_510; uri_states_239; uri_states_514;
   uri_states_250; uri_states_255; uri_states_258; uri_states_528; uri_states_533; uri_states_538;
   uri_states_260; uri_states_270; uri_states_281; uri_states_292; uri_states_309; uri_states_322;
   uri_states_331; uri_states_340; uri_states_348; uri_states_359; uri_states_370; uri_states_379;
   uri_states_387; uri_states_396; uri_states_404; uri_states_412; uri_states_420; uri_states_428;
   uri_states_436; uri_states_444; uri_states_542; uri_states_546; uri_states_551; uri_states_555;
   uri_states_559].

(** The actions at the end, by the state. *)
Definition uri_eof_actions (cs : Z) : list uri_action :=
  match cs with
  | 462 | 489 => [uri_save_port]
  | 460 | 463 | 464 | 465 | 466 | 467 | 470 | 471 | 472 | 473 | 474 | 475 | 476 | 477 | 478 | 479
  | 480 | 481 | 482 | 483 | 484 | 485 | 486 | 487 | 488 | 490 | 491 | 492 | 493 | 494 | 495 | 496
  | 497 | 498 | 499 | 500 | 501 | 502 | 503 | 504 | 505 | 506 | 507 => [uri_save_host]
  | 513 => [uri_save_path]
  | 457 => [uri_save_query]
  | 454 => [uri_save_fragment]
  | 456 => [uri_marku; uri_save_query]
  | 453 => [uri_marku; uri_save_fragment]
  | 461 | 468 => [uri_markh; uri_save_port]
  | 459 | 469 => [uri_markh; uri_save_host]
  | 514 | 521 => [uri_markh; uri_save_port; uri_save_path]
  | 511 | 522 => [uri_markh; uri_save_host; uri_save_path]
  | 515 | 542 => [uri_save_port; uri_markh; uri_save_path]
  | 512 | 516 | 517 | 518 | 519 | 520 | 523 | 524 | 525 | 526 | 527 | 528 | 529 | 530 | 531 | 532
  | 533 | 534 | 535 | 536 | 537 | 538 | 539 | 540 | 541 | 543 | 544 | 545 | 546 | 547 | 548 | 549
  | 550 | 551 | 552 | 553 | 554 | 555 | 556 | 557 | 558 | 559 | 560 => [uri_save_host; uri_markh; uri_save_path]
  | _ => []
  end.
