(* ===== verification/Uri.v ===== *)
(** * Uri: URIs ([sylar/uri.rl.cc], [uri.h])

    [Create] runs the automaton of [UriMachine] over the text; the actions keep
    the start of the current part in [mark], which they also reset to null.
    [toString] writes the parts back. *)

From S2P Require Import Prelude.
From S2P Require Export HttpParser UriMachine.

Record Uri := mkUri {
  uri_scheme : text;
  uri_userinfo : text;
  uri_host : text;
  uri_path : text;
  uri_query : text;
  uri_fragment : text;
  uri_port : Z
}.

Implicit Types u : Uri.

(** [Uri::Uri] *)
Definition new_Uri : Uri := mkUri [] [] [] [] [] [] 0.

Definition setScheme v u := mkUri v (uri_userinfo u) (uri_host u) (uri_path u) (uri_query u) (uri_fragment u) (uri_port u).
Definition setUserinfo v u := mkUri (uri_scheme u) v (uri_host u) (uri_path u) (uri_query u) (uri_fragment u) (uri_port u).
Definition setHost v u := mkUri (uri_scheme u) (uri_userinfo u) v (uri_path u) (uri_query u) (uri_fragment u) (uri_port u).
Definition uri_setPath v u := mkUri (uri_scheme u) (uri_userinfo u) (uri_host u) v (uri_query u) (uri_fragment u) (uri_port u).
Definition uri_setQuery v u := mkUri (uri_scheme u) (uri_userinfo u) (uri_host u) (uri_path u) v (uri_fragment u) (uri_port u).
Definition uri_setFragment v u := mkUri (uri_scheme u) (uri_userinfo u) (uri_host u) (uri_path u) (uri_query u) v (uri_port u).
Definition setPort v u := mkUri (uri_scheme u) (uri_userinfo u) (uri_host u) (uri_path u) (uri_query u) (uri_fragment u) v.

(** ** Parsing *)

(** The URI that is built, and [mark], null or a position. *)
Record UriParse := mkUriParse { parse_uri : Uri; parse_mark : option nat }.

Abbreviation MU A := (M UriParse A).

Definition set_uri (f : Uri → Uri) : MU unit := modify (λ o, mkUriParse (f (parse_uri o)) (parse_mark o)).
Definition set_uri_mark (v : option nat) : MU unit := modify (λ o, mkUriParse (parse_uri o) v).

(** [std::string(mark, p - mark)]: a null pointer is refused with an exception. *)
Definition mark_string (buffer : text) (p : nat) : MU text :=
  o ← gets id;
  match parse_mark o with
  | Some m => std_string buffer m (LEN m p)
  | None => fail BadPointer
  end.

Definition uri_act (buffer : text) (p : nat) (a : uri_action) : MU unit :=
  o ← gets id;
  match a with
  | uri_marku | uri_markh => set_uri_mark (Some p)
  | uri_save_scheme => s ← mark_string buffer p; set_uri (setScheme s) ;; set_uri_mark None
  | uri_save_port =>
      (if decide (parse_mark o = Some p) then mret tt
       else
         match parse_mark o with
         | Some m =>
             let port := atoi (drop m buffer) in
             if (- 2 ^ 31 <=? port) && (port <? 2 ^ 31) then set_uri (setPort port) else fail Overflow
         | None => fail BadPointer
         end) ;;
      set_uri_mark None
  | uri_save_userinfo =>
      (match parse_mark o with
       | Some _ => s ← mark_string buffer p; set_uri (setUserinfo s)
       | None => mret tt
       end) ;;
      set_uri_mark None
  | uri_save_host =>
      match parse_mark o with
      | Some _ => s ← mark_string buffer p; set_uri (setHost s)
      | None => mret tt
      end
  | uri_save_path => s ← mark_string buffer p; set_uri (uri_setPath s) ;; set_uri_mark None
  | uri_save_query => s ← mark_string buffer p; set_uri (uri_setQuery s) ;; set_uri_mark None
  | uri_save_fragment => s ← mark_string buffer p; set_uri (uri_setFragment s) ;; set_uri_mark None
  end.

Definition uri_parser_start : Z := 451.
Definition uri_parser_first_final : Z := 451.
Definition uri_parser_error : Z := 0.

Definition uri_no_stop (a : uri_action) : bool := false.

(** The automaton and, when it read everything, the actions at the end. *)
Definition uri_exec (uristr : text) : MU Z :=
  r ← run_machine uri_parser_row false (uri_act uristr) uri_no_stop uristr 0 uri_parser_start;
  let '(cs, p) := (r : Z * nat) in
  (if cs =? uri_parser_error then mret tt else for_each (uri_eof_actions cs) (uri_act uristr p)) ;;
  mret cs.

(** [Uri::Create]: a null pointer for a text that is not a URI. *)
Definition Create (uristr : text) : result (option Uri) :=
  match uri_exec uristr (mkUriParse new_Uri None) with
  | Ok (cs, o) =>
      Ok (if cs =? uri_parser_error then None
          else if uri_parser_first_final <=? cs then Some (parse_uri o)
          else None)
  | Fail f => Fail f
  end.

(** ** Reading and writing *)

Definition isDefaultPort u : bool :=
  if uri_port u =? 0 then true
  else if decide (uri_scheme u = str "http" ∨ uri_scheme u = str "ws") then uri_port u =? 80
  else if decide (uri_scheme u = str "https" ∨ uri_scheme u = str "wss") then uri_port u =? 443
  else false.

Definition getPath u : text := if decide (uri_path u = []) then str "/" else uri_path u.

Definition getPort u : Z :=
  if negb (uri_port u =? 0) then uri_port u
  else if decide (uri_scheme u = str "http" ∨ uri_scheme u = str "ws") then 80
  else if decide (uri_scheme u = str "https" ∨ uri_scheme u = str "wss") then 443
  else uri_port u.

(** [std::to_string] of an [int]. *)
Definition int_text (v : Z) : text := if v <? 0 then str "-" ++ to_string (Z.to_nat (- v)) else to_string (Z.to_nat v).

(** [dump] and [toString] *)
Definition toString u : text :=
  uri_scheme u ++ str "://" ++ uri_userinfo u ++ (if decide (uri_userinfo u = []) then [] else str "@") ++ uri_host u ++
  (if isDefaultPort u then [] else str ":" ++ int_text (uri_port u)) ++ getPath u ++
  (if decide (uri_query u = []) then [] else str "?") ++ uri_query u ++
  (if decide (uri_fragment u = []) then [] else str "#") ++ uri_fragment u.

Example create_sample : Create (str "http://user@rsylar.com:8042/over/there?name=ferret#nose") =
  Ok (Some (mkUri (str "http") (str "user") (str "rsylar.com") (str "/over/there") (str "name=ferret") (str "nose") 8042)).
Proof. by vm_compute. Qed.

