(* ===== verification/Address.v ===== *)
(** * Address: socket addresses ([sylar/address.cc], [address.h])

    An address is the memory of its [sockaddr]: words in the byte order of the
    network, read through [byteswapOnLittleEndian] on a host of either byte
    order.  The resolver and the list of interfaces are the class [Resolver]. *)

From S2P Require Import Prelude ByteArray ByteCodec.
From S2P Require Export Text.

(** ** Data *)

(** The family of a [sockaddr_in] is always [AF_INET], that of a
    [sockaddr_in6] [AF_INET6]. *)
Record sockaddr_in := mkIn { sin_port : Z; s_addr : Z; sin_zero : list Z }.

Record sockaddr_in6 := mkIn6 { sin6_port : Z; sin6_flowinfo : Z; s6_addr : list Z; sin6_scope_id : Z }.

Inductive sockaddr :=
  | sa_in (a : sockaddr_in)
  | sa_in6 (a : sockaddr_in6)
  | sa_other (sa_family : Z) (sa_data : list Z).

(** [UnixAddress]: the 108 characters of [sun_path], and the length. *)
Record UnixAddress := mkUnix { sun_path : text; m_length : Z }.

Inductive Address :=
  | IPv4Address (m_addr : sockaddr_in)
  | IPv6Address (m_addr : sockaddr_in6)
  | AUnixAddress (u : UnixAddress)
  | UnknownAddress (sa_family : Z) (sa_data : list Z).

Definition AF_UNSPEC : Z := 0.
Definition AF_UNIX : Z := 1.
Definition AF_INET : Z := 2.
Definition AF_INET6 : Z := 10.

(** An interface with its address and its mask; either can be null. *)
Record ifaddrs := mkIfaddrs { ifa_name : text; ifa_addr : option sockaddr; ifa_netmask : option sockaddr }.

(** [getaddrinfo] with flags, node, service, family, type and protocol; [inet_pton]: the bytes; [getifaddrs]. *)
Class Resolver := {
  getaddrinfo : Z → text → option text → Z → Z → Z → option (list sockaddr);
  inet_pton : Z → text → option (list Z);
  getifaddrs : option (list ifaddrs)
}.

(** ** Masks *)

(** [CreateMask<T>] for a [T] of [width] bits; [1] is an [int]: a shift by 32 or
    more, and the subtraction after a shift by 31, are undefined. *)
Definition CreateMask (width bits : Z) : result Z :=
  let shift := (width - bits) mod 2 ^ 64 in
  if 31 <=? shift then Fail Overflow
  else Ok ((Z.shiftl 1 shift - 1) mod 2 ^ width).

Fixpoint CountBytes_loop (fuel : nat) (value result_ : Z) : result Z :=
  if value =? 0 then Ok result_
  else match fuel with
       | O => Fail NoFuel
       | S fuel' => CountBytes_loop fuel' (Z.land value (value - 1)) (result_ + 1)
       end.

(** [CountBytes<T>]: one turn for each bit that is set. *)
Definition CountBytes (width : nat) (value : Z) : result Z := CountBytes_loop width value 0.

(** The complement of an [n]-byte unsigned integer. *)
Definition complement (n : nat) (v : Z) : Z := Z.lxor v (2 ^ (8 * Z.of_nat n) - 1).

(** ** Text *)

Definition hex_digit (d : nat) : ascii := if (d <? 10)%nat then ascii_of_nat (48 + d) else ascii_of_nat (87 + d).

(** [os << std::hex << n] *)
Fixpoint to_hex_go (fuel n : nat) (acc : text) : text :=
  match fuel with
  | O => acc
  | S fuel' =>
      if (n <? 16)%nat then hex_digit n :: acc
      else to_hex_go fuel' (n / 16)%nat (hex_digit (n mod 16) :: acc)
  end.

Definition to_hex (z : Z) : text := to_hex_go (S (Z.to_nat z)) (Z.to_nat z) [].

Definition dec (z : Z) : text := to_string (Z.to_nat z).

Section address.
Context (host_little : bool).

Definition byteswapOnLittleEndian (n : nat) (v : Z) : Z := if host_little then byteswap n v else v.
Abbreviation swapped := byteswapOnLittleEndian.

(** ** IPv4 *)

Definition new_IPv4Address (address port : Z) : sockaddr_in :=
  mkIn (swapped 2 port) (swapped 4 address) (replicate 8 0).

Definition IPv4_getPort (a : sockaddr_in) : Z := swapped 2 (sin_port a).
Definition IPv4_setPort (v : Z) (a : sockaddr_in) : sockaddr_in := mkIn (swapped 2 v) (s_addr a) (sin_zero a).

Definition IPv4_insert (a : sockaddr_in) : text :=
  let addr := swapped 4 (s_addr a) in
  dec (Z.land (Z.shiftr addr 24) 255) ++ str "." ++ dec (Z.land (Z.shiftr addr 16) 255) ++ str "." ++
  dec (Z.land (Z.shiftr addr 8) 255) ++ str "." ++ dec (Z.land addr 255) ++ str ":" ++ dec (swapped 2 (sin_port a)).

Definition IPv4_broadcastAddress (prefix_len : Z) (a : sockaddr_in) : result (option sockaddr_in) :=
  if prefix_len >? 32 then Ok None
  else
    mask ← CreateMask 32 prefix_len;
    Ok (Some (mkIn (sin_port a) (Z.lor (s_addr a) (swapped 4 mask)) (sin_zero a))).

Definition IPv4_networdAddress (prefix_len : Z) (a : sockaddr_in) : result (option sockaddr_in) :=
  if prefix_len >? 32 then Ok None
  else
    mask ← CreateMask 32 prefix_len;
    Ok (Some (mkIn (sin_port a) (Z.land (s_addr a) (swapped 4 mask)) (sin_zero a))).

Definition IPv4_subnetMask (prefix_len : Z) : result sockaddr_in :=
  mask ← CreateMask 32 prefix_len;
  Ok (mkIn 0 (complement 4 (swapped 4 mask)) (replicate 8 0)).

(** ** IPv6 *)

Definition new_IPv6Address : sockaddr_in6 := mkIn6 0 0 (replicate 16 0) 0.

(** From 16 bytes. *)
Definition IPv6_of_bytes (address : list Z) (port : Z) : sockaddr_in6 := mkIn6 (swapped 2 port) 0 address 0.

Definition IPv6_getPort (a : sockaddr_in6) : Z := swapped 2 (sin6_port a).
Definition set_s6_addr (l : list Z) (a : sockaddr_in6) : sockaddr_in6 :=
  mkIn6 (sin6_port a) (sin6_flowinfo a) l (sin6_scope_id a).
Definition IPv6_setPort (v : Z) (a : sockaddr_in6) : sockaddr_in6 :=
  mkIn6 (swapped 2 v) (sin6_flowinfo a) (s6_addr a) (sin6_scope_id a).

(** [(uint16_t* )s6_addr]: the words as the host reads them. *)
Fixpoint words (l : list Z) : list Z :=
  match l with
  | b0 :: b1 :: l' => of_memory host_little [b0; b1] :: words l'
  | _ => []
  end.

(** The loop over the words: [i] is the index, [prev] is [addr[i - 1]] and [addr] the words from [i] on. *)
Fixpoint insert_words (i : nat) (prev : Z) (addr : list Z) (used_zeros : bool) (os : text) : text * bool :=
  match addr with
  | [] => (os, used_zeros)
  | w :: addr' =>
      if (w =? 0) && negb used_zeros then insert_words (S i) w addr' used_zeros os
      else
        let '(os, used_zeros) :=
          if negb (i =? 0)%nat && (prev =? 0) && negb used_zeros then (os ++ str ":", true) else (os, used_zeros) in
        let os := if (i =? 0)%nat then os else os ++ str ":" in
        insert_words (S i) w addr' used_zeros (os ++ to_hex (swapped 2 w))
  end.

Definition IPv6_insert (a : sockaddr_in6) : text :=
  let addr := words (s6_addr a) in
  let '(os, used_zeros) := insert_words 0 0 addr false (str "[") in
  let os := if negb used_zeros && (default 0 (addr !! 7%nat) =? 0) then os ++ str "::" else os in
  os ++ str "]:" ++ dec (swapped 2 (sin6_port a)).

(** [s6_addr[i] = v]; outside the array it is undefined. *)
Definition set_byte (i : Z) (v : Z) (l : list Z) : result (list Z) :=
  if i <? Z.of_nat (length l) then Ok (<[Z.to_nat i := v]> l) else Fail BadIndex.

Definition get_byte (i : Z) (l : list Z) : result Z :=
  match l !! Z.to_nat i with Some b => Ok b | None => Fail BadIndex end.

(** [for(int i = from; i < to; ++i) s6_addr[i] = v], within the array. *)
Fixpoint fill_bytes (from n : nat) (v : Z) (l : list Z) : list Z :=
  match n with O => l | S n' => fill_bytes (S from) n' v (<[from := v]> l) end.

(** The last two arguments are what happens to the byte of the prefix, and what the bytes after it become. *)
Definition IPv6_masked (prefix_len : Z) (a : sockaddr_in6) (op : Z → Z → Z) (v : Z) : result sockaddr_in6 :=
  let q := prefix_len / 8 in
  mask ← CreateMask 8 (prefix_len mod 8);
  b ← get_byte q (s6_addr a);
  l ← set_byte q (op b mask) (s6_addr a);
  Ok (set_s6_addr (fill_bytes (Z.to_nat q + 1) (16 - (Z.to_nat q + 1)) v l) a).

Definition IPv6_broadcastAddress (prefix_len : Z) (a : sockaddr_in6) : result sockaddr_in6 :=
  IPv6_masked prefix_len a Z.lor 255.

Definition IPv6_networdAddress (prefix_len : Z) (a : sockaddr_in6) : result sockaddr_in6 :=
  IPv6_masked prefix_len a (λ b mask, Z.land b (Z.lnot mask)) 0.

Definition IPv6_subnetMask (prefix_len : Z) : result sockaddr_in6 :=
  let q := prefix_len / 8 in
  mask ← CreateMask 8 (prefix_len mod 8);
  l ← set_byte q (Z.lnot mask mod 256) (replicate 16 0);
  Ok (mkIn6 0 0 (fill_bytes 0 (Z.to_nat q) 255 l) 0).

(** ** Unix addresses *)

Definition sun_offset : Z := 2.
Definition sun_path_size : Z := 108.

Definition default_UnixAddress : UnixAddress := mkUnix (replicate 108 nul) (sun_offset + (sun_path_size - 1)).

(** A path that is too long throws. *)
Definition new_UnixAddress (path : text) : result UnixAddress :=
  let m_length := Z.of_nat (length path) + 1 in
  let m_length := match path with c :: _ => if decide (c = nul) then m_length - 1 else m_length | [] => m_length end in
  if m_length >? sun_path_size then Fail OutOfRange
  else Ok (mkUnix (path ++ replicate (108 - length path) nul) (m_length + sun_offset)).

Definition setAddrLen (v : Z) (u : UnixAddress) : UnixAddress := mkUnix (sun_path u) v.

(** [getPath] and [insert]; a length past the end of the memory is undefined. *)
Definition unix_getPath (u : UnixAddress) : result text :=
  if (m_length u >? sun_offset) && bool_decide (head (sun_path u) = Some nul) then
    let n := m_length u - sun_offset - 1 in
    if n >? sun_path_size - 1 then Fail BadIndex
    else Ok (str "\0" ++ take (Z.to_nat n) (drop 1 (sun_path u)))
  else Ok (c_str (sun_path u)).

(** ** Addresses *)

Definition getFamily (a : Address) : Z :=
  match a with
  | IPv4Address _ => AF_INET
  | IPv6Address _ => AF_INET6
  | AUnixAddress _ => AF_UNIX
  | UnknownAddress f _ => f
  end.

Definition char_byte (c : ascii) : Z := Z.of_nat (nat_of_ascii c).

(** The memory that [getAddr] points to. *)
Definition getAddr (a : Address) : list Z :=
  to_memory host_little 2 (getFamily a) ++
  match a with
  | IPv4Address m => to_memory host_little 2 (sin_port m) ++ to_memory host_little 4 (s_addr m) ++ sin_zero m
  | IPv6Address m => to_memory host_little 2 (sin6_port m) ++ to_memory host_little 4 (sin6_flowinfo m) ++ s6_addr m ++
      to_memory host_little 4 (sin6_scope_id m)
  | AUnixAddress u => map char_byte (sun_path u)
  | UnknownAddress _ data => data
  end.

Definition getAddrLen (a : Address) : Z :=
  match a with IPv4Address _ => 16 | IPv6Address _ => 28 | AUnixAddress u => m_length u | UnknownAddress _ _ => 16 end.

(** [toString], through [insert]. *)
Definition Address_toString (a : Address) : result text :=
  match a with
  | IPv4Address m => Ok (IPv4_insert m)
  | IPv6Address m => Ok (IPv6_insert m)
  | AUnixAddress u => unix_getPath u
  | UnknownAddress f _ => Ok (str "[UnknownAddress family=" ++ dec f ++ str "]")
  end.

(** [memcmp] of [n] bytes. *)
Fixpoint memcmp (n : nat) (l1 l2 : list Z) : Z :=
  match n, l1, l2 with
  | S n', x :: l1', y :: l2' => if x <? y then -1 else if y <? x then 1 else memcmp n' l1' l2'
  | _, _, _ => 0
  end.

(** [operator<] and [operator==] *)
Definition addr_less (a rhs : Address) : bool :=
  let minlen := Z.min (getAddrLen a) (getAddrLen rhs) in
  let result_ := memcmp (Z.to_nat minlen) (getAddr a) (getAddr rhs) in
  if result_ <? 0 then true
  else if result_ >? 0 then false
  else getAddrLen a <? getAddrLen rhs.

Definition addr_equal (a rhs : Address) : bool :=
  (getAddrLen a =? getAddrLen rhs) && (memcmp (Z.to_nat (getAddrLen a)) (getAddr a) (getAddr rhs) =? 0).

(** [Address::Create] from a [sockaddr] that is not null. *)
Definition Address_Create (addr : sockaddr) : Address :=
  match addr with
  | sa_in a => IPv4Address a
  | sa_in6 a => IPv6Address a
  | sa_other f data => UnknownAddress f data
  end.

Definition is_IPAddress (a : Address) : bool :=
  match a with IPv4Address _ | IPv6Address _ => true | _ => false end.

(** [setPort], of the two classes of IP addresses. *)
Definition IP_setPort (v : Z) (a : Address) : Address :=
  match a with
  | IPv4Address m => IPv4Address (IPv4_setPort v m)
  | IPv6Address m => IPv6Address (IPv6_setPort v m)
  | a => a
  end.

(** ** Looking up *)

Section lookup.
Context `{Resolver}.

(** The node and the service of [host]. *)
Definition Lookup_split (host : text) : text * option text :=
  let '(node, service) :=
    match host with
    | c :: rest =>
        if decide (c = "["%char) then
          match find_char "]"%char rest with
          | Some k => (take k rest, match drop (k + 1) rest with c :: s => if decide (c = ":"%char) then Some s else None | [] => None end)
          | None => ([], None)
          end
        else ([], None)
    | [] => ([], None)
    end in
  let '(node, service) :=
    match node with
    | [] =>
        match find_char ":"%char host with
        | Some j =>
            let rest := drop (j + 1) host in
            match find_char ":"%char rest with Some _ => (node, Some (drop j host)) | None => (take j host, Some rest) end
        | None => (node, None)
        end
    | _ => (node, service)
    end in
  (match node with [] => host | _ => node end, service).

(** [Lookup]: the addresses, or nothing when it returns false. *)
Definition Lookup (host : text) (family type_ protocol : Z) : option (list Address) :=
  let '(node, service) := Lookup_split host in
  match getaddrinfo 0 (c_str node) (c_str <$> service) family type_ protocol with
  | None => None
  | Some results =>
      match map Address_Create results with
      | [] => None
      | result_ => Some result_
      end
  end.

Definition LookupAny (host : text) (family type_ protocol : Z) : option Address :=
  match Lookup host family type_ protocol with Some result_ => head result_ | None => None end.

Definition LookupAnyIP (host : text) (family type_ protocol : Z) : option Address :=
  match Lookup host family type_ protocol with
  | Some result_ => head (filter (λ a, is_IPAddress a = true) result_)
  | None => None
  end.

Definition AI_NUMERICHOST : Z := 4.

(** [IPAddress::Create]; [getaddrinfo] that succeeds has a first result. *)
Definition IPAddress_Create (address : text) (port : Z) : result (option Address) :=
  match getaddrinfo AI_NUMERICHOST (c_str address) None AF_UNSPEC 0 0 with
  | None => Ok None
  | Some [] => Fail BadPointer
  | Some (results :: _) =>
      let result_ := Address_Create results in
      if is_IPAddress result_ then Ok (Some (IP_setPort port result_)) else Ok None
  end.

Definition IPv4_Create (address : text) (port : Z) : option sockaddr_in :=
  match inet_pton AF_INET (c_str address) with
  | None => None
  | Some l => Some (mkIn (swapped 2 port) (of_memory host_little l) (sin_zero (new_IPv4Address 0 0)))
  end.

Definition IPv6_Create (address : text) (port : Z) : option sockaddr_in6 :=
  match inet_pton AF_INET6 (c_str address) with
  | None => None
  | Some l => Some (IPv6_of_bytes l port)
  end.

(** ** Interfaces *)

(** The sum of the bits of the bytes of an IPv6 mask. *)
Fixpoint count_bytes (l : list Z) : result Z :=
  match l with
  | [] => Ok 0
  | b :: l' => n ← CountBytes 8 b; m ← count_bytes l'; Ok (n + m)
  end.

Definition sa_family_of (a : sockaddr) : Z := getFamily (Address_Create a).

(** One turn of the loop: nothing, or an address with the length of its prefix. *)
Definition interface_address (family : Z) (next : ifaddrs) : result (option (text * (Address * Z))) :=
  match ifa_addr next with
  | None => Fail BadPointer
  | Some addr =>
      if negb (family =? AF_UNSPEC) && negb (family =? sa_family_of addr) then Ok None
      else
        match addr with
        | sa_in _ =>
            match ifa_netmask next with
            | Some (sa_in netmask) => prefix_len ← CountBytes 32 (s_addr netmask); Ok (Some (ifa_name next, (Address_Create addr, prefix_len)))
            | _ => Fail BadPointer
            end
        | sa_in6 _ =>
            match ifa_netmask next with
            | Some (sa_in6 netmask) => prefix_len ← count_bytes (s6_addr netmask); Ok (Some (ifa_name next, (Address_Create addr, prefix_len)))
            | _ => Fail BadPointer
            end
        | sa_other _ _ => Ok None
        end
  end.

Fixpoint interface_addresses (family : Z) (l : list ifaddrs) : result (list (text * (Address * Z))) :=
  match l with
  | [] => Ok []
  | next :: l' => r ← interface_address family next; rest ← interface_addresses family l'; Ok (option_list r ++ rest)
  end.

(** [GetInterfaceAddresses] of all interfaces: the [multimap] in the order of
    insertion, which the values of one key keep. *)
Definition GetInterfaceAddresses_all (family : Z) : result (option (list (text * (Address * Z)))) :=
  match getifaddrs with
  | None => Ok None
  | Some results =>
      result_ ← interface_addresses family results;
      Ok (match result_ with [] => None | _ => Some result_ end)
  end.

(** [GetInterfaceAddresses] of one interface. *)
Definition GetInterfaceAddresses (iface : text) (family : Z) : result (option (list (Address * Z))) :=
  if bool_decide (iface = [] ∨ iface = str "*") then
    Ok (Some ((if (family =? AF_INET) || (family =? AF_UNSPEC) then [(IPv4Address (new_IPv4Address 0 0), 0)] else []) ++
              (if (family =? AF_INET6) || (family =? AF_UNSPEC) then [(IPv6Address new_IPv6Address, 0)] else [])))
  else
    results ← GetInterfaceAddresses_all family;
    Ok (match results with
        | None => None
        | Some results =>
            match map snd (filter (λ x : text * (Address * Z), x.1 = iface) results) with [] => None | result_ => Some result_ end
        end).
End lookup.
End address.
