(* ===== verification/AddressText.v ===== *)
(** * AddressText: the text of an address, read by an independent reader

    A reader of the numeric notations (dotted decimals; groups of hexadecimal
    digits with one gap of zeros), and what the code prints seen by it; before it, masks and swapped bytes as numbers. *)

From S2P Require Import Prelude ByteArray ByteCodec ByteCodecFacts.
From S2P Require Export Address.

(** ** Bitwise operations, byte by byte *)

Section bitwise.
Context (op : Z → Z → Z) (f : bool → bool → bool).
Context (Hop : ∀ a b i, Z.testbit (op a b) i = f (Z.testbit a i) (Z.testbit b i)) (Hf : f false false = false).

Lemma bitwise_mod n a b : 0 <= n → op a b mod 2 ^ n = op (a mod 2 ^ n) (b mod 2 ^ n).
Proof.
  intros Hn. apply Z.bits_inj'. intros i Hi. rewrite Hop. destruct (decide (i < n)).
  - by rewrite !Z.mod_pow2_bits_low, Hop by lia.
  - by rewrite !Z.mod_pow2_bits_high, Hf by lia.
Qed.

Lemma bitwise_div n a b : 0 <= n → op a b / 2 ^ n = op (a / 2 ^ n) (b / 2 ^ n).
Proof.
  intros Hn. apply Z.bits_inj'. intros i Hi. by rewrite Hop, !Z.div_pow2_bits, Hop by lia.
Qed.

Lemma bitwise_bound n a b : 0 <= n → 0 <= a < 2 ^ n → 0 <= b < 2 ^ n → 0 <= op a b < 2 ^ n.
Proof.
  intros Hn Ha Hb. pose proof (bitwise_mod n a b Hn) as E. rewrite (Z.mod_small a), (Z.mod_small b) in E by lia.
  rewrite <- E. apply Z.mod_pos_bound. lia.
Qed.

Lemma to_le_bitwise n a b : to_le n (op a b) = zip_with op (to_le n a) (to_le n b).
Proof.
  revert a b. induction n as [|n IH]; intros a b; [done|]. cbn [to_le zip_with]. change 256 with (2 ^ 8).
  by rewrite bitwise_mod, bitwise_div, IH by lia.
Qed.

Lemma of_le_bitwise l1 l2 : length l1 = length l2 → Forall (λ b, 0 <= b < 256) l1 → Forall (λ b, 0 <= b < 256) l2 →
  of_le (zip_with op l1 l2) = op (of_le l1) (of_le l2).
Proof.
  intros Hlen H1 H2. pose proof (of_le_bound l1 H1). pose proof (of_le_bound l2 H2) as Hb2. rewrite <- Hlen in Hb2.
  rewrite <- (to_le_of_le l1 H1) at 1. rewrite <- (to_le_of_le l2 H2) at 1. rewrite <- Hlen, <- to_le_bitwise.
  apply of_le_to_le_id, bitwise_bound; lia.
Qed.

Lemma rev_zip_with (l1 l2 : list Z) : length l1 = length l2 → rev (zip_with op l1 l2) = zip_with op (rev l1) (rev l2).
Proof.
  revert l2. induction l1 as [|x l1 IH]; intros [|y l2] Hlen; try done. injection Hlen as Hlen. cbn [zip_with rev].
  rewrite IH, zip_with_app by (rewrite ?List.length_rev; done). done.
Qed.

Lemma byteswap_bitwise n a b : byteswap n (op a b) = op (byteswap n a) (byteswap n b).
Proof.
  unfold byteswap. rewrite to_le_bitwise, rev_zip_with by (by rewrite !length_to_le).
  apply of_le_bitwise; [by rewrite !List.length_rev, !length_to_le|apply List.Forall_rev, to_le_bytes..].
Qed.

Lemma swapped_bitwise h n a b : byteswapOnLittleEndian h n (op a b) = op (byteswapOnLittleEndian h n a) (byteswapOnLittleEndian h n b).
Proof. unfold byteswapOnLittleEndian. destruct h; [apply byteswap_bitwise|done]. Qed.
End bitwise.

Definition swapped_land h n := swapped_bitwise Z.land andb Z.land_spec eq_refl h n.
Definition swapped_lor h n := swapped_bitwise Z.lor orb Z.lor_spec eq_refl h n.
Definition swapped_lxor h n := swapped_bitwise Z.lxor xorb Z.lxor_spec eq_refl h n.

(** ** Words in the order of the network *)

Lemma swapped_bound h n v : 0 <= v < 2 ^ (8 * Z.of_nat n) → 0 <= byteswapOnLittleEndian h n v < 2 ^ (8 * Z.of_nat n).
Proof. unfold byteswapOnLittleEndian. destruct h; [intros _; apply byteswap_bound|done]. Qed.

Lemma swapped_swapped h n v : 0 <= v < 2 ^ (8 * Z.of_nat n) → byteswapOnLittleEndian h n (byteswapOnLittleEndian h n v) = v.
Proof.
  unfold byteswapOnLittleEndian. destruct h; [|done]. intros Hv. unfold byteswap at 1.
  by rewrite to_le_byteswap, List.rev_involutive, of_le_to_le_id.
Qed.

(** ** Masks *)

Lemma mask_ones k : 0 <= k → 2 ^ k - 1 = Z.ones k.
Proof. intros Hk. rewrite Z.ones_equiv. lia. Qed.

Lemma low_land a k : 0 <= k → Z.land a (2 ^ k - 1) = a mod 2 ^ k.
Proof. intros Hk. by rewrite mask_ones, Z.land_ones. Qed.

Lemma low_lor a k : 0 <= k → Z.lor a (2 ^ k - 1) = a - a mod 2 ^ k + (2 ^ k - 1).
Proof. intros Hk. pose proof (Z.add_lor_land a (2 ^ k - 1)) as E. rewrite low_land in E by done. lia. Qed.

Lemma ldiff_mask a k : 0 <= k → Z.land a (Z.lnot (2 ^ k - 1)) = a - a mod 2 ^ k.
Proof.
  intros Hk. rewrite mask_ones by done. rewrite <- Z.ldiff_land, Z.ldiff_ones_r, Z.shiftr_div_pow2, Z.shiftl_mul_pow2 by done.
  pose proof (Z.div_mod a (2 ^ k)). lia.
Qed.

Lemma lxor_mask a k : 0 <= a < 2 ^ k → Z.lxor a (2 ^ k - 1) = 2 ^ k - 1 - a.
Proof.
  intros Ha. assert (Hk : 0 <= k) by (destruct (Z.neg_nonneg_cases k); [rewrite Z.pow_neg_r in Ha by done; lia|done]).
  set (w := Z.lxor a (2 ^ k - 1)). assert (E : a + w = Z.lxor a w).
  { apply Z.add_nocarry_lxor. unfold w. apply Z.bits_inj'. intros i Hi.
    rewrite Z.land_spec, Z.lxor_spec, Z.bits_0, mask_ones by done. destruct (decide (i < k)).
    - rewrite Z.ones_spec_low by lia. by destruct (Z.testbit a i).
    - rewrite <- (Z.mod_small a (2 ^ k)) by done. by rewrite Z.mod_pow2_bits_high by lia. }
  unfold w in E at 2. rewrite <- Z.lxor_assoc, Z.lxor_nilpotent, Z.lxor_0_l in E. lia.
Qed.

Lemma create_mask width bits : 0 <= width < 2 ^ 63 → 0 <= bits → width - 30 <= bits <= width →
  CreateMask width bits = Ok (2 ^ (width - bits) - 1).
Proof.
  intros Hw H0 Hb. unfold CreateMask. rewrite (Z.mod_small (width - bits)) by lia.
  destruct (Z.leb_spec 31 (width - bits)); [lia|]. rewrite Z.shiftl_1_l, Z.mod_small; [done|].
  pose proof (Z.pow_pos_nonneg 2 (width - bits) ltac:(lia) ltac:(lia)).
  pose proof (Z.pow_le_mono_r 2 (width - bits) width ltac:(lia)). lia.
Qed.

Lemma create_mask_fails width bits : 0 <= width <= 32 → 0 <= bits < 2 ^ 32 → width - bits < 0 ∨ 30 < width - bits →
  CreateMask width bits = Fail Overflow.
Proof.
  intros Hw Hb Hc. unfold CreateMask. destruct (Z.leb_spec 31 ((width - bits) mod 2 ^ 64)) as [|Hlt]; [done|].
  destruct Hc as [Hc|Hc]; [|rewrite Z.mod_small in Hlt; lia].
  rewrite <- (Z.mod_add _ 1), Z.mod_small in Hlt; lia.
Qed.

(** ** IPv4 addresses as numbers *)

Definition ip4 (h : bool) (a : sockaddr_in) : Z := byteswapOnLittleEndian h 4 (s_addr a).

Record in_ok (a : sockaddr_in) : Prop := {
  in_port : 0 <= sin_port a < 2 ^ 16;
  in_word : 0 <= s_addr a < 2 ^ 32;
  in_zero : length (sin_zero a) = 8%nat ∧ Forall (λ b, 0 <= b < 256) (sin_zero a)
}.

Lemma ip4_bound h a : in_ok a → 0 <= ip4 h a < 2 ^ 32.
Proof. intros Ha. apply (swapped_bound h 4), Ha. Qed.

Lemma mask4_bound p : 2 <= p <= 32 → 0 <= 2 ^ (32 - p) - 1 < 2 ^ 32.
Proof.
  intros Hp. pose proof (Z.pow_pos_nonneg 2 (32 - p) ltac:(lia) ltac:(lia)).
  pose proof (Z.pow_le_mono_r 2 (32 - p) 32 ltac:(lia)). lia.
Qed.

Lemma broadcast4 h a p : in_ok a → 2 <= p <= 32 → ∃ b, IPv4_broadcastAddress h p a = Ok (Some b) ∧ in_ok b ∧
  sin_port b = sin_port a ∧ ip4 h b = ip4 h a - ip4 h a mod 2 ^ (32 - p) + (2 ^ (32 - p) - 1).
Proof.
  intros [Hp1 Hw Hz] Hp. unfold IPv4_broadcastAddress. destruct (Z.gtb_spec p 32); [lia|].
  rewrite create_mask by lia. pose proof (mask4_bound p Hp) as Hm. pose proof (swapped_bound h 4 _ Hm) as Hm'.
  eexists. split; [reflexivity|]. split; [split; [done| |done]|split; [done|]].
  - cbn [s_addr]. by apply (bitwise_bound Z.lor orb Z.lor_spec eq_refl).
  - unfold ip4. cbn [s_addr]. rewrite swapped_lor, (swapped_swapped h 4) by done. apply low_lor. lia.
Qed.

Lemma network4 h a p : in_ok a → 2 <= p <= 32 → ∃ b, IPv4_networdAddress h p a = Ok (Some b) ∧ in_ok b ∧
  sin_port b = sin_port a ∧ ip4 h b = ip4 h a mod 2 ^ (32 - p).
Proof.
  intros [Hp1 Hw Hz] Hp. unfold IPv4_networdAddress. destruct (Z.gtb_spec p 32); [lia|].
  rewrite create_mask by lia. pose proof (mask4_bound p Hp) as Hm. pose proof (swapped_bound h 4 _ Hm) as Hm'.
  eexists. split; [reflexivity|]. split; [split; [done| |done]|split; [done|]].
  - cbn [s_addr]. by apply (bitwise_bound Z.land andb Z.land_spec eq_refl).
  - unfold ip4. cbn [s_addr]. rewrite swapped_land, (swapped_swapped h 4) by done. apply low_land. lia.
Qed.

Lemma subnet4 h p : 2 <= p <= 32 → ∃ b, IPv4_subnetMask h p = Ok b ∧ in_ok b ∧ ip4 h b = 2 ^ 32 - 2 ^ (32 - p).
Proof.
  intros Hp. unfold IPv4_subnetMask. rewrite create_mask by lia.
  pose proof (mask4_bound p Hp) as Hm. pose proof (swapped_bound h 4 _ Hm) as Hm'.
  eexists. split; [reflexivity|]. unfold complement. change (8 * Z.of_nat 4) with 32 in *. split; [split; [done| |by repeat constructor]|].
  - cbn [s_addr]. by apply (bitwise_bound Z.lxor xorb Z.lxor_spec eq_refl).
  - unfold ip4. cbn [s_addr]. rewrite swapped_lxor, (swapped_swapped h 4) by done.
    replace (byteswapOnLittleEndian h 4 (2 ^ 32 - 1)) with (2 ^ 32 - 1) by (by destruct h). rewrite lxor_mask by done. lia.
Qed.

(** ** IPv6 addresses as numbers *)

Definition be (l : list Z) : Z := of_le (rev l).

Lemma be_app l1 l2 : be (l1 ++ l2) = be l1 * 2 ^ (8 * Z.of_nat (length l2)) + be l2.
Proof.
  unfold be. rewrite rev_app_distr. generalize (rev l1). intros r. rewrite <- (List.length_rev l2). induction (rev l2) as [|b l IH].
  - cbn [app length of_le]. rewrite Z.mul_1_r. lia.
  - cbn [app of_le length]. rewrite IH, pow_256_S. lia.
Qed.

Lemma be_bound l : Forall (λ b, 0 <= b < 256) l → 0 <= be l < 2 ^ (8 * Z.of_nat (length l)).
Proof. intros H. pose proof (of_le_bound _ (List.Forall_rev H)) as Hb. by rewrite List.length_rev in Hb. Qed.

Lemma be_one b : be [b] = b.
Proof. unfold be. cbn. lia. Qed.

Lemma be_zeros n : be (replicate n 0) = 0.
Proof. induction n as [|n IH]; [done|]. rewrite replicate_S_end, be_app, IH, be_one. lia. Qed.

Lemma be_ones n : be (replicate n 255) = 2 ^ (8 * Z.of_nat n) - 1.
Proof.
  induction n as [|n IH]; [done|]. rewrite replicate_S_end, be_app, IH, be_one, pow_256_S. cbn [length].
  change (2 ^ (8 * Z.of_nat 1)) with 256. lia.
Qed.

Lemma fill_bytes_spec n v l : ∀ from, (from + n = length l)%nat → fill_bytes from n v l = take from l ++ replicate n v.
Proof.
  revert l. induction n as [|n IH]; intros l from Hlen; cbn [fill_bytes].
  - rewrite take_ge, app_nil_r by lia. done.
  - rewrite IH by (rewrite length_insert; lia). rewrite (take_S_r _ from v) by (rewrite list_lookup_insert_eq; lia||done).
    rewrite take_insert_ge by lia. rewrite <- app_assoc. done.
Qed.

Record in6_ok (a : sockaddr_in6) : Prop := {
  in6_port : 0 <= sin6_port a < 2 ^ 16;
  in6_length : length (s6_addr a) = 16%nat;
  in6_bytes : Forall (λ b, 0 <= b < 256) (s6_addr a);
  in6_flow : 0 <= sin6_flowinfo a < 2 ^ 32;
  in6_scope : 0 <= sin6_scope_id a < 2 ^ 32
}.

Definition ip6 (a : sockaddr_in6) : Z := be (s6_addr a).

(** The byte that the prefix ends in. *)
Lemma cut6 (l : list Z) q : length l = 16%nat → (q < 16)%nat → ∃ b, l !! q = Some b ∧ l = take q l ++ b :: drop (q + 1) l.
Proof.
  intros Hl Hq. destruct (lookup_lt_is_Some_2 l q) as [b Hb]; [lia|]. exists b. split; [done|].
  rewrite Nat.add_1_r, <- (drop_S l b q Hb). by rewrite take_drop.
Qed.

(** The value of 16 bytes around the byte [b] at [q], and the parts of the number. *)
Lemma be_cut (l1 l2 : list Z) b : be (l1 ++ b :: l2) = (be l1 * 256 + b) * 2 ^ (8 * Z.of_nat (length l2)) + be l2.
Proof.
  change (b :: l2) with ([b] ++ l2). rewrite !be_app, be_one, length_app, Nat.add_1_l, pow_256_S. lia.
Qed.

Lemma mod_cut A b C P m : 0 < m → (m | 256) → 0 <= C < P → ((A * 256 + b) * P + C) mod (m * P) = b mod m * P + C.
Proof.
  intros Hm [t Ht] HC. symmetry. pose proof (Z.mod_pos_bound b m Hm) as Hr. pose proof (Z.div_mod b m ltac:(lia)) as Hb.
  apply (Z.mod_unique_pos _ _ (A * t + b / m)); [nia|]. rewrite Ht. rewrite Hb at 1. ring.
Qed.

Definition prefix_unit (q : nat) : Z := 2 ^ (8 * Z.of_nat (15 - q)).

Lemma prefix_power p : 0 <= p < 128 →
  2 ^ (128 - p) = 2 ^ (8 - p mod 8) * prefix_unit (Z.to_nat (p / 8)) ∧ 0 < 2 ^ (8 - p mod 8) ∧
  (2 ^ (8 - p mod 8) | 256) ∧ 0 < prefix_unit (Z.to_nat (p / 8)).
Proof.
  intros Hp. pose proof (Z.mod_pos_bound p 8 ltac:(lia)). pose proof (Z.div_mod p 8 ltac:(lia)).
  assert (0 <= p / 8 < 16) by lia. unfold prefix_unit. split_and!; [|apply Z.pow_pos_nonneg; lia| |apply Z.pow_pos_nonneg; lia].
  - rewrite <- Z.pow_add_r by lia. f_equal. lia.
  - exists (2 ^ (p mod 8)). rewrite <- Z.pow_add_r by lia. change 256 with (2 ^ 8). f_equal. lia.
Qed.

Lemma masked6 a p op v b : in6_ok a → 0 <= p < 128 → s6_addr a !! Z.to_nat (p / 8) = Some b →
  let q := Z.to_nat (p / 8) in
  IPv6_masked p a op v =
    Ok (set_s6_addr (take q (s6_addr a) ++ op b (2 ^ (8 - p mod 8) - 1) :: replicate (15 - q) v) a).
Proof.
  intros [_ Hlen _ _ _] Hp Hb q. pose proof (Z.mod_pos_bound p 8 ltac:(lia)). pose proof (Z.div_mod p 8 ltac:(lia)).
  unfold IPv6_masked. rewrite create_mask by lia. cbn [mbind result_bind]. unfold get_byte, set_byte. rewrite Hb. cbn [mbind result_bind].
  destruct (Z.ltb_spec (p / 8) (Z.of_nat (length (s6_addr a)))); [|lia]. cbn [mbind result_bind]. fold q. do 2 f_equal.
  rewrite fill_bytes_spec by (rewrite length_insert; unfold q; lia). rewrite Nat.add_1_r, (take_S_r _ q (op b (2 ^ (8 - p mod 8) - 1))).
  - rewrite take_insert_ge by lia. rewrite <- app_assoc. cbn [app]. by replace (16 - S q)%nat with (15 - q)%nat by lia.
  - apply list_lookup_insert_eq. unfold q. lia.
Qed.

Lemma number6 a p b : in6_ok a → 0 <= p < 128 → s6_addr a !! Z.to_nat (p / 8) = Some b →
  let q := Z.to_nat (p / 8) in
  ∃ A C, be (take q (s6_addr a)) = A ∧ ip6 a = (A * 256 + b) * prefix_unit q + C ∧ 0 <= b < 256 ∧
    ip6 a mod 2 ^ (128 - p) = b mod 2 ^ (8 - p mod 8) * prefix_unit q + C.
Proof.
  intros [_ Hlen Hby _ _] Hp Hb q. destruct (prefix_power p Hp) as (Hpow & Hm & Hdiv & HP).
  assert (Hq : (q < 16)%nat).
  { pose proof (Z.mod_pos_bound p 8 ltac:(lia)). pose proof (Z.div_mod p 8 ltac:(lia)). unfold q. lia. }
  destruct (cut6 _ q Hlen Hq) as (b' & Hb' & Hcut). change (s6_addr a !! q = Some b) in Hb. rewrite Hb in Hb'. injection Hb' as <-.
  set (A := be (take q (s6_addr a))). set (C := be (drop (q + 1) (s6_addr a))). exists A, C.
  assert (HC : 0 <= C < prefix_unit q).
  { pose proof (be_bound (drop (q + 1) (s6_addr a)) (Forall_drop _ _ _ Hby)) as Hbd. rewrite length_drop, Hlen in Hbd.
    unfold prefix_unit. by replace (15 - q)%nat with (16 - (q + 1))%nat by lia. }
  assert (E : ip6 a = (A * 256 + b) * prefix_unit q + C).
  { unfold ip6. rewrite Hcut at 1. rewrite be_cut, length_drop, Hlen. unfold prefix_unit.
    by replace (16 - (q + 1))%nat with (15 - q)%nat by lia. }
  split; [done|]. split; [done|]. split; [by apply (proj1 (Forall_lookup _ _) Hby q)|]. by rewrite E, Hpow, mod_cut.
Qed.

Lemma masked6_value a p op v b : in6_ok a → 0 <= p < 128 → s6_addr a !! Z.to_nat (p / 8) = Some b →
  (v = 0 ∨ v = 255) → 0 <= op b (2 ^ (8 - p mod 8) - 1) < 256 →
  ∃ a', IPv6_masked p a op v = Ok a' ∧ in6_ok a' ∧ sin6_port a' = sin6_port a ∧
    ip6 a' = (be (take (Z.to_nat (p / 8)) (s6_addr a)) * 256 + op b (2 ^ (8 - p mod 8) - 1)) * prefix_unit (Z.to_nat (p / 8)) +
             (if decide (v = 0) then 0 else prefix_unit (Z.to_nat (p / 8)) - 1).
Proof.
  intros Ha Hp Hb Hv Hop. rewrite (masked6 a p op v b Ha Hp Hb). eexists.
  assert (Hq : (Z.to_nat (p / 8) < 16)%nat) by (rewrite <- (in6_length a Ha); by eapply lookup_lt_Some). split; [reflexivity|].
  destruct Ha as [H1 H2 H3 H4 H5]. split; [split; cbn [set_s6_addr sin6_port sin6_flowinfo s6_addr sin6_scope_id]; try done|split; [done|]].
  - rewrite length_app, length_take. cbn [length]. rewrite length_replicate. lia.
  - apply Forall_app. split; [by apply Forall_take|]. apply Forall_cons. split; [done|]. apply Forall_replicate. lia.
  - unfold ip6. cbn [s6_addr set_s6_addr]. rewrite be_cut, length_replicate. unfold prefix_unit.
    destruct Hv as [-> | ->]; [by rewrite be_zeros|by rewrite be_ones].
Qed.

Lemma network6 a p : in6_ok a → 0 <= p < 128 → ∃ b, IPv6_networdAddress p a = Ok b ∧ in6_ok b ∧
  sin6_port b = sin6_port a ∧ ip6 b = ip6 a - ip6 a mod 2 ^ (128 - p).
Proof.
  intros Ha Hp. destruct (prefix_power p Hp) as (Hpow & Hm & Hdiv & HP).
  destruct (lookup_lt_is_Some_2 (s6_addr a) (Z.to_nat (p / 8))) as [b Hb].
  { rewrite (in6_length a Ha). pose proof (Z.div_mod p 8 ltac:(lia)). pose proof (Z.mod_pos_bound p 8 ltac:(lia)). lia. }
  destruct (number6 a p b Ha Hp Hb) as (A & C & HA & E & Hbb & Emod). pose proof (Z.mod_pos_bound p 8 ltac:(lia)).
  assert (Hop : Z.land b (Z.lnot (2 ^ (8 - p mod 8) - 1)) = b - b mod 2 ^ (8 - p mod 8)) by (apply ldiff_mask; lia).
  pose proof (Z.mod_pos_bound b _ Hm). pose proof (Z.mod_le b _ ltac:(lia) Hm).
  destruct (masked6_value a p (λ b mask, Z.land b (Z.lnot mask)) 0 b Ha Hp Hb) as (a' & Ea & Ha' & Hport & Hv); [by left|lia|].
  exists a'. split_and!; [exact Ea|done..|]. rewrite Hv, Hop, HA, Emod, E. rewrite decide_True by done. ring.
Qed.

Lemma broadcast6 a p : in6_ok a → 0 <= p < 128 → ∃ b, IPv6_broadcastAddress p a = Ok b ∧ in6_ok b ∧
  sin6_port b = sin6_port a ∧ ip6 b = ip6 a - ip6 a mod 2 ^ (128 - p) + (2 ^ (128 - p) - 1).
Proof.
  intros Ha Hp. destruct (prefix_power p Hp) as (Hpow & Hm & Hdiv & HP).
  destruct (lookup_lt_is_Some_2 (s6_addr a) (Z.to_nat (p / 8))) as [b Hb].
  { rewrite (in6_length a Ha). pose proof (Z.div_mod p 8 ltac:(lia)). pose proof (Z.mod_pos_bound p 8 ltac:(lia)). lia. }
  destruct (number6 a p b Ha Hp Hb) as (A & C & HA & E & Hbb & Emod). pose proof (Z.mod_pos_bound p 8 ltac:(lia)).
  assert (Hop : Z.lor b (2 ^ (8 - p mod 8) - 1) = b - b mod 2 ^ (8 - p mod 8) + (2 ^ (8 - p mod 8) - 1)) by (apply low_lor; lia).
  pose proof (Z.pow_le_mono_r 2 (8 - p mod 8) 8 ltac:(lia) ltac:(lia)).
  assert (0 <= Z.lor b (2 ^ (8 - p mod 8) - 1) < 2 ^ 8) by (apply (bitwise_bound Z.lor orb Z.lor_spec eq_refl); lia).
  destruct (masked6_value a p Z.lor 255 b Ha Hp Hb) as (a' & Ea & Ha' & Hport & Hv); [by right|lia|].
  exists a'. split_and!; [exact Ea|done..|]. rewrite Hv, Hop, HA, Emod, Hpow, E. rewrite decide_False by done. ring.
Qed.

Lemma fill_front q v : (q < 16)%nat → fill_bytes 0 q 255 (<[q := v]> (replicate 16 0)) = replicate q 255 ++ v :: replicate (15 - q) 0.
Proof. intros Hq. do 16 (destruct q as [|q]; [reflexivity|]). lia. Qed.

Lemma subnet6 p : 0 <= p < 128 → ∃ b, IPv6_subnetMask p = Ok b ∧ in6_ok b ∧ ip6 b = 2 ^ 128 - 2 ^ (128 - p).
Proof.
  intros Hp. destruct (prefix_power p Hp) as (Hpow & Hm & _ & HP). pose proof (Z.mod_pos_bound p 8 ltac:(lia)).
  pose proof (Z.div_mod p 8 ltac:(lia)). set (q := Z.to_nat (p / 8)) in *. assert (Hq : (q < 16)%nat) by (unfold q; lia).
  pose proof (Z.pow_le_mono_r 2 (8 - p mod 8) 8 ltac:(lia) ltac:(lia)).
  unfold IPv6_subnetMask. rewrite create_mask by lia. cbn [mbind result_bind]. unfold set_byte.
  destruct (Z.ltb_spec (p / 8) (Z.of_nat (length (replicate 16 0)))); [|rewrite length_replicate in *; lia]. cbn [mbind result_bind].
  fold q. set (m := 2 ^ (8 - p mod 8)) in *.
  assert (Ec : Z.lnot (m - 1) mod 256 = 256 - m).
  { unfold Z.lnot. rewrite <- (Z.mod_add _ 1) by done. rewrite Z.mod_small; lia. }
  rewrite Ec, fill_front by done. eexists. split; [reflexivity|]. split; [split; cbn [sin6_port sin6_flowinfo s6_addr sin6_scope_id]; try done|].
  - rewrite length_app. cbn [length]. rewrite !length_replicate. lia.
  - apply Forall_app. split; [apply Forall_replicate; lia|]. apply Forall_cons. split; [lia|apply Forall_replicate; lia].
  - unfold ip6. cbn [s6_addr]. rewrite be_cut, be_ones, be_zeros, length_replicate, Hpow. fold (prefix_unit q).
    assert (E128 : 2 ^ 128 = 2 ^ (8 * Z.of_nat q) * 256 * prefix_unit q).
    { unfold prefix_unit. change 256 with (2 ^ 8). rewrite <- !Z.pow_add_r by lia. f_equal. lia. }
    rewrite E128. ring.
Qed.

(** Outside the address, and where the shift of the mask is undefined. *)
Lemma outside6 p a : length (s6_addr a) = 16%nat → 128 <= p → IPv6_broadcastAddress p a = Fail BadIndex ∧
  IPv6_networdAddress p a = Fail BadIndex ∧ IPv6_subnetMask p = Fail BadIndex.
Proof.
  intros Hlen Hp. pose proof (Z.mod_pos_bound p 8 ltac:(lia)). pose proof (Z.div_mod p 8 ltac:(lia)).
  assert (Hn : s6_addr a !! Z.to_nat (p / 8) = None) by (apply lookup_ge_None_2; lia).
  unfold IPv6_broadcastAddress, IPv6_networdAddress, IPv6_subnetMask, IPv6_masked. rewrite create_mask by lia.
  cbn [mbind result_bind]. unfold get_byte, set_byte. rewrite Hn. split; [done|]. split; [done|].
  destruct (Z.ltb_spec (p / 8) (Z.of_nat (length (replicate 16 0)))); [rewrite length_replicate in *; lia|done].
Qed.

(** ** Counting bits *)

Fixpoint ones (p : positive) : Z := match p with xH => 1 | xO p => ones p | xI p => ones p + 1 end.

(** The number of bits that are set. *)
Definition bit_count (v : Z) : Z := match v with Zpos p => ones p | _ => 0 end.

Lemma drop_low_bit p : Z.land (Zpos p) (Zpos p - 1) = match p with xH => 0 | xI p => Zpos (xO p) | xO p => 2 * Z.land (Zpos p) (Zpos p - 1) end.
Proof.
  destruct p as [p|p|]; [| |done]; apply Z.bits_inj'; intros i Hi; rewrite Z.land_spec.
  - replace (Z.pos p~1) with (2 * Z.pos p + 1) by lia. replace (2 * Z.pos p + 1 - 1) with (2 * Z.pos p) by lia.
    change (Z.pos p~0) with (2 * Z.pos p). destruct (decide (i = 0)) as [->|Hne].
    + by rewrite Z.testbit_even_0, andb_false_r.
    + replace i with (Z.succ (i - 1)) by lia. rewrite Z.testbit_odd_succ, Z.testbit_even_succ by lia. by rewrite andb_diag.
  - replace (Z.pos p~0 - 1) with (2 * (Z.pos p - 1) + 1) by lia. change (Z.pos p~0) with (2 * Z.pos p).
    destruct (decide (i = 0)) as [->|Hne].
    + by rewrite !Z.testbit_even_0.
    + replace i with (Z.succ (i - 1)) by lia. rewrite Z.testbit_odd_succ, !Z.testbit_even_succ, Z.land_spec by lia. done.
Qed.

Lemma drop_low_count p : 0 <= Z.land (Zpos p) (Zpos p - 1) ∧ bit_count (Z.land (Zpos p) (Zpos p - 1)) + 1 = ones p.
Proof.
  induction p as [p IH|p IH|]; rewrite drop_low_bit; [cbn; lia| |by cbn].
  destruct IH as [H1 H2]. destruct (Z.land (Zpos p) (Zpos p - 1)) as [|q|q]; [by cbn in *|by cbn in *|lia].
Qed.

Lemma ones_bound n p : Zpos p < 2 ^ Z.of_nat n → 0 < ones p <= Z.of_nat n.
Proof.
  revert p. induction n as [|n IH]; intros p Hp; [lia|]. rewrite Nat2Z.inj_succ, Z.pow_succ_r in Hp by lia.
  destruct p as [p|p|]; cbn [ones]; [| |lia]; specialize (IH p ltac:(lia)); lia.
Qed.

Lemma bit_count_nonneg v : 0 <= bit_count v.
Proof. destruct v as [|p|p]; [done| |done]. cbn. induction p; cbn [ones]; lia. Qed.

Lemma count_loop fuel v acc : 0 <= v → bit_count v <= Z.of_nat fuel → CountBytes_loop fuel v acc = Ok (acc + bit_count v).
Proof.
  revert v acc. induction fuel as [|fuel IH]; intros v acc Hv Hf; (destruct v as [|p|p]; [cbn; by rewrite Z.add_0_r| |lia]).
  - destruct (drop_low_count p) as [H1 H2]. pose proof (bit_count_nonneg (Z.land (Zpos p) (Zpos p - 1))). cbn in Hf. lia.
  - cbn [CountBytes_loop Z.eqb]. destruct (drop_low_count p) as [H1 H2]. cbn [bit_count] in Hf |- *.
    rewrite IH by lia. f_equal. lia.
Qed.

(** [CountBytes] ends for every value and counts the bits. *)
Lemma count_bytes_spec width v : 0 <= v < 2 ^ Z.of_nat width → CountBytes width v = Ok (bit_count v).
Proof.
  intros Hv. unfold CountBytes. rewrite count_loop; [done|lia|]. destruct v as [|p|p]; [cbn; lia| |lia]. cbn [bit_count].
  by apply (proj2 (ones_bound _ _ (proj2 Hv))).
Qed.

(** ** The reader *)

Definition colon : ascii := ":"%char.
Definition dot : ascii := "."%char.

Fixpoint split_at (sep : ascii) (t : text) : list text :=
  match t with
  | [] => [[]]
  | c :: t' =>
      if decide (c = sep) then [] :: split_at sep t'
      else match split_at sep t' with x :: xs => (c :: x) :: xs | [] => [[c]] end
  end.

Definition hex_value_of (c : ascii) : option Z :=
  let n := nat_of_ascii c in
  if ((48 <=? n) && (n <=? 57))%nat then Some (Z.of_nat n - 48)
  else if ((97 <=? n) && (n <=? 102))%nat then Some (Z.of_nat n - 87)
  else None.

Fixpoint hex_values (acc : Z) (t : text) : option Z :=
  match t with
  | [] => Some acc
  | c :: t' => d ← hex_value_of c; hex_values (acc * 16 + d) t'
  end.

(** A group: one to four digits. *)
Definition read_group (t : text) : option Z :=
  if (1 <=? length t)%nat && (length t <=? 4)%nat then hex_values 0 t else None.

Definition read_groups (t : text) : option (list Z) :=
  match t with [] => Some [] | _ => mapM read_group (split_at colon t) end.

(** The first two colons in a row, and what is on both sides of them. *)
Fixpoint find_gap (t : text) : option (text * text) :=
  match t with
  | [] => None
  | c :: t' =>
      match t' with
      | d :: r =>
          if bool_decide (c = colon ∧ d = colon) then Some ([], r)
          else x ← find_gap t'; Some (c :: x.1, x.2)
      | [] => None
      end
  end.

(** The eight groups of an IPv6 address. *)
Definition read_ipv6 (t : text) : option (list Z) :=
  match find_gap t with
  | None => gs ← read_groups t; if (length gs =? 8)%nat then Some gs else None
  | Some (l, r) =>
      gl ← read_groups l; gr ← read_groups r;
      if (length gl + length gr <? 8)%nat then Some (gl ++ replicate (8 - length gl - length gr) 0 ++ gr) else None
  end.

(** A decimal number without superfluous zeros, which [inet_pton] refuses and other readers take for octal. *)
Definition read_decimal (bound : Z) (t : text) : option Z :=
  if bool_decide (t ≠ []) && forallb is_digit t && (bool_decide (head t ≠ Some "0"%char) || (length t =? 1)%nat) && (digits_value 0 t <? bound)
  then Some (digits_value 0 t) else None.

(** The four bytes of an IPv4 address. *)
Definition read_ipv4 (t : text) : option (list Z) :=
  bs ← mapM (read_decimal 256) (split_at dot t); if (length bs =? 4)%nat then Some bs else None.

Definition read_port : text → option Z := read_decimal (2 ^ 16).

(** ** Numbers *)

Lemma hex_digit_spec d : (d < 16)%nat → hex_value_of (hex_digit d) = Some (Z.of_nat d).
Proof. intros Hd. do 16 (destruct d as [|d]; [reflexivity|]). lia. Qed.

Lemma hex_values_app acc t1 t2 : hex_values acc (t1 ++ t2) = (v ← hex_values acc t1; hex_values v t2).
Proof.
  revert acc. induction t1 as [|c t1 IH]; intros acc; [done|]. cbn [app hex_values]. destruct (hex_value_of c); [|done].
  cbn [mbind option_bind]. apply IH.
Qed.

Lemma to_hex_go_spec fuel n acc : (n < fuel)%nat →
  ∃ ds, to_hex_go fuel n acc = ds ++ acc ∧ ds ≠ [] ∧ hex_values 0 ds = Some (Z.of_nat n).
Proof.
  revert n acc. induction fuel as [|fuel IH]; intros n acc Hn; [lia|]. cbn [to_hex_go].
  destruct (Nat.ltb_spec n 16) as [H16|H16].
  - exists [hex_digit n]. split_and!; [done|done|]. cbn [hex_values]. rewrite hex_digit_spec by done. done.
  - pose proof (Nat.mod_upper_bound n 16). pose proof (Nat.div_mod_eq n 16).
    pose proof (Nat.div_lt n 16 ltac:(lia) ltac:(lia)).
    destruct (IH (n / 16)%nat (hex_digit (n mod 16) :: acc)) as (ds & E & Hne & Hv); [lia|].
    exists (ds ++ [hex_digit (n mod 16)]). rewrite E, <- app_assoc. split_and!; [done|by destruct ds|].
    rewrite hex_values_app, Hv. cbn [mbind option_bind hex_values]. rewrite hex_digit_spec by lia.
    cbn [mbind option_bind]. f_equal. lia.
Qed.

Lemma hex_values_chars acc t v c : hex_values acc t = Some v → c ∈ t → hex_value_of c ≠ None.
Proof.
  revert acc. induction t as [|d t IH]; intros acc E Hin; [by apply elem_of_nil in Hin|]. cbn [hex_values] in E.
  destruct (hex_value_of d) as [x|] eqn:Ed; [|done]. apply elem_of_cons in Hin as [->|Hin]; [by rewrite Ed|by eapply IH].
Qed.

Lemma to_hex_length k fuel n acc : (n < 16 ^ S k)%nat → (length (to_hex_go fuel n acc) <= S k + length acc)%nat.
Proof.
  revert fuel n acc. induction k as [|k IH]; intros [|fuel] n acc Hn; cbn [to_hex_go]; [lia| |lia|].
  - destruct (Nat.ltb_spec n 16); [cbn; lia|]. cbn in Hn. lia.
  - destruct (Nat.ltb_spec n 16); [cbn; lia|]. pose proof (IH fuel (n / 16)%nat (hex_digit (n mod 16) :: acc)) as H'.
    assert (n / 16 < 16 ^ S k)%nat by (apply Nat.Div0.div_lt_upper_bound; cbn in *; lia). specialize (H' ltac:(done)). cbn [length] in H'. lia.
Qed.

Lemma to_hex_group v : 0 <= v < 2 ^ 16 → to_hex v ≠ [] ∧ read_group (to_hex v) = Some v ∧ ∀ c, hex_value_of c = None → c ∉ to_hex v.
Proof.
  intros Hv. destruct (to_hex_go_spec (S (Z.to_nat v)) (Z.to_nat v) []) as (ds & E & Hne & Hval); [lia|].
  unfold to_hex. rewrite E, app_nil_r. split; [done|]. split.
  - pose proof (to_hex_length 3 (S (Z.to_nat v)) (Z.to_nat v) []) as Hl. rewrite E, app_nil_r in Hl.
    assert (length ds <= 4)%nat by (apply Hl; change (16 ^ 4)%nat with (Z.to_nat (2 ^ 16)); lia).
    unfold read_group. rewrite Hval. replace (length ds <=? 4)%nat with true by (symmetry; by apply Nat.leb_le).
    destruct ds; [done|]. cbn. f_equal. lia.
  - intros c Hc Hin. by apply (hex_values_chars 0 ds _ c Hval Hin).
Qed.

(** A number is printed without superfluous zeros. *)
Lemma to_string_zeros fuel n acc : (n < fuel)%nat → (0 < n)%nat → head (to_string_go fuel n acc) ≠ Some "0"%char.
Proof.
  revert n acc. induction fuel as [|fuel IH]; intros n acc Hn H0; [lia|]. cbn [to_string_go]. destruct (Nat.ltb_spec n 10) as [H10|H10].
  - do 10 (destruct n as [|n]; [first [lia|by vm_compute]|]). lia.
  - pose proof (Nat.div_lt n 10 ltac:(lia) ltac:(lia)). apply IH; [lia|]. apply Nat.div_str_pos. lia.
Qed.

Lemma dec_zeros v : bool_decide (head (dec v) ≠ Some "0"%char) || (length (dec v) =? 1)%nat = true.
Proof.
  unfold dec, to_string. destruct (Z.to_nat v) as [|n] eqn:En; [done|]. rewrite bool_decide_true; [done|]. apply to_string_zeros; lia.
Qed.

Lemma dec_spec bound v : 0 <= v < bound → read_decimal bound (dec v) = Some v ∧ ∀ c, is_digit c = false → c ∉ dec v.
Proof.
  intros Hv. pose proof (dec_zeros v) as Hz. unfold dec in *. destruct (to_string_spec (Z.to_nat v)) as (Hne & Hds & Hread). split.
  - unfold read_decimal. rewrite Hz, bool_decide_true by done. rewrite <- (app_nil_r (to_string _)), read_digits_spec in Hread by done.
    rewrite Hread. replace (forallb is_digit (to_string (Z.to_nat v))) with true.
    + destruct (Z.ltb_spec (Z.of_nat (Z.to_nat v)) bound); [cbn; f_equal; lia|lia].
    + symmetry. apply forallb_forall. intros c Hc. rewrite Forall_forall in Hds. by apply Hds, list_elem_of_In.
  - intros c Hc Hin. rewrite Forall_forall in Hds. apply Hds in Hin. congruence.
Qed.

(** ** Parts between separators *)

(** Texts with a separator between them. *)
Fixpoint sep_join (sep : ascii) (ts : list text) : text :=
  match ts with
  | [] => []
  | [t] => t
  | t :: ts' => t ++ sep :: sep_join sep ts'
  end.

Lemma split_at_part sep t rest : sep ∉ t → split_at sep (t ++ sep :: rest) = t :: split_at sep rest.
Proof.
  induction t as [|c t IH]; intros Hs; cbn [app split_at]; [by rewrite decide_True|].
  apply not_elem_of_cons in Hs as [Hc Hs]. by rewrite decide_False, IH by done.
Qed.

Lemma split_at_last sep t : sep ∉ t → split_at sep t = [t].
Proof.
  induction t as [|c t IH]; intros Hs; [done|]. cbn [split_at]. apply not_elem_of_cons in Hs as [Hc Hs].
  by rewrite decide_False, IH by done.
Qed.

Lemma split_at_join sep ts : ts ≠ [] → Forall (λ t, sep ∉ t) ts → split_at sep (sep_join sep ts) = ts.
Proof.
  intros Hne Hts. induction ts as [|t ts IH]; [done|]. apply Forall_cons in Hts as [Ht Hts]. destruct ts as [|t' ts].
  - by apply split_at_last.
  - change (sep_join sep (t :: t' :: ts)) with (t ++ sep :: sep_join sep (t' :: ts)). rewrite split_at_part by done. f_equal. by apply IH.
Qed.

(** ** The gap *)

Lemma find_gap_part t c rest : colon ∉ t → t ≠ [] → c ≠ colon →
  find_gap (t ++ colon :: c :: rest) = (x ← find_gap (c :: rest); Some (t ++ colon :: x.1, x.2)).
Proof.
  intros Ht Hne Hc. induction t as [|d t IH]; [done|]. apply not_elem_of_cons in Ht as [Hd Ht].
  assert (Hskip : ∀ u, u ≠ [] → find_gap (d :: u) = (x ← find_gap u; Some (d :: x.1, x.2))).
  { intros [|e u] Hu; [done|]. cbn [find_gap]. rewrite bool_decide_false; [done|]. intros [-> _]. done. }
  destruct t as [|e t].
  - cbn [app]. rewrite Hskip by done. change (find_gap (colon :: c :: rest)) with
      (if bool_decide (colon = colon ∧ c = colon) then Some ([], rest) else x ← find_gap (c :: rest); Some (colon :: x.1, x.2)).
    rewrite bool_decide_false by naive_solver. by destruct (find_gap (c :: rest)).
  - cbn [app]. rewrite Hskip by done. cbn [app] in IH. rewrite IH by done. by destruct (find_gap (c :: rest)).
Qed.

Lemma find_gap_end t r : colon ∉ t → find_gap (t ++ colon :: colon :: r) = Some (t, r).
Proof.
  induction t as [|d t IH]; intros Ht; [done|]. apply not_elem_of_cons in Ht as [Hd Ht]. cbn [app]. specialize (IH Ht).
  destruct (t ++ colon :: colon :: r) as [|e u] eqn:Eu; [by destruct t|]. cbn [find_gap] in IH |- *.
  rewrite bool_decide_false by (intros [E _]; by apply Hd). by rewrite IH.
Qed.

Lemma find_gap_none t : colon ∉ t → find_gap t = None.
Proof.
  induction t as [|d t IH]; intros Ht; [done|]. apply not_elem_of_cons in Ht as [Hd Ht]. destruct t as [|e t]; [done|].
  cbn [find_gap] in IH |- *. rewrite bool_decide_false by (intros [E _]; by apply Hd). by rewrite IH.
Qed.

(** Texts of groups: not empty and without colons. *)
Definition group_texts (ts : list text) : Prop := Forall (λ t, t ≠ [] ∧ colon ∉ t) ts.

Lemma join_head ts : group_texts ts → ts ≠ [] → ∃ c u, sep_join colon ts = c :: u ∧ c ≠ colon.
Proof.
  destruct 1 as [|t ts [Hne Hc] _]; [done|]. intros _. destruct t as [|c t]; [done|]. apply not_elem_of_cons in Hc as [Hc _].
  destruct ts; by eexists _, _.
Qed.

Lemma gap_of_join ts r : group_texts ts → find_gap (sep_join colon ts ++ colon :: colon :: r) = Some (sep_join colon ts, r).
Proof.
  intros Hts. induction Hts as [|t ts [Hne Hc] Hts IH]; [done|]. destruct ts as [|t' ts]; [by apply find_gap_end|].
  change (sep_join colon (t :: t' :: ts)) with (t ++ colon :: sep_join colon (t' :: ts)).
  destruct (join_head (t' :: ts)) as (c & u & E & Hcu); [done|done|]. rewrite E in IH |- *.
  rewrite <- app_assoc. cbn [app]. rewrite find_gap_part by done. cbn [app] in IH. by rewrite IH.
Qed.

Lemma no_gap_in_join ts : group_texts ts → find_gap (sep_join colon ts) = None.
Proof.
  intros Hts. induction Hts as [|t ts [Hne Hc] Hts IH]; [done|]. destruct ts as [|t' ts]; [by apply find_gap_none|].
  change (sep_join colon (t :: t' :: ts)) with (t ++ colon :: sep_join colon (t' :: ts)).
  destruct (join_head (t' :: ts)) as (c & u & E & Hcu); [done|done|]. rewrite E in IH |- *.
  by rewrite find_gap_part, IH by done.
Qed.

(** Groups of 16 bits, printed and read. *)
Definition groups_ok (gs : list Z) : Prop := Forall (λ g, 0 <= g < 2 ^ 16) gs.

Lemma groups_texts gs : groups_ok gs → group_texts (map to_hex gs).
Proof.
  intros H. apply Forall_map. eapply Forall_impl; [exact H|]. intros g Hg. destruct (to_hex_group g Hg) as (Hne & _ & Hc).
  split; [done|by apply Hc].
Qed.

Lemma read_join gs : groups_ok gs → read_groups (sep_join colon (map to_hex gs)) = Some gs.
Proof.
  intros H. destruct gs as [|g gs]; [done|]. pose proof (groups_texts _ H) as Ht.
  destruct (join_head _ Ht) as (c & u & E & _); [done|]. unfold read_groups. rewrite E, <- E.
  rewrite split_at_join; [|done|by eapply Forall_impl; [exact Ht|intros ? []]].
  apply mapM_Some. apply Forall2_fmap_l. clear -H. induction H as [|x l Hx H IH]; constructor; [by apply to_hex_group|done].
Qed.

(** ** What the loop prints *)

Section print.
Context (h : bool).
Abbreviation swap := (byteswapOnLittleEndian h 2).

(** Each group with a colon before it. *)
Definition colon_each (ws : list Z) : text := concat (map (λ w, colon :: to_hex (swap w)) ws).

Definition group_join (ws : list Z) : text := sep_join colon (map to_hex (map swap ws)).

Lemma group_join_cons w ws : group_join (w :: ws) = to_hex (swap w) ++ colon_each ws.
Proof.
  revert w. induction ws as [|v ws IH]; intros w; [symmetry; apply app_nil_r|].
  change (group_join (w :: v :: ws)) with (to_hex (swap w) ++ colon :: group_join (v :: ws)). by rewrite IH.
Qed.

Lemma print_used i prev ws os : i ≠ 0%nat → insert_words h i prev ws true os = (os ++ colon_each ws, true).
Proof.
  intros Hi. revert i Hi prev os. induction ws as [|w ws IH]; intros i Hi prev os; cbn [insert_words]; [by rewrite app_nil_r|].
  rewrite (proj2 (Nat.eqb_neq i 0) Hi), !andb_false_r. cbn [negb]. rewrite IH by done. unfold colon_each. cbn [map concat].
  by rewrite <- !app_assoc.
Qed.

Definition ends_run (post : list Z) : Prop := head post ≠ Some 0.

Lemma print_zeros k i post os : i ≠ 0%nat → ends_run post →
  insert_words h i 0 (replicate k 0 ++ post) false os =
    match post with [] => (os, false) | _ => (os ++ colon :: colon_each post, true) end.
Proof.
  intros Hi Hpost. revert i Hi. induction k as [|k IH]; intros i Hi; cbn [replicate app]; [|cbn [insert_words]; cbn; by apply IH].
  destruct post as [|w post]; [done|]. assert (Hw : w ≠ 0) by (intros ->; by apply Hpost). cbn [insert_words].
  rewrite (proj2 (Z.eqb_neq w 0) Hw), (proj2 (Nat.eqb_neq i 0) Hi). cbn [negb andb Z.eqb]. rewrite print_used by done.
  unfold colon_each. cbn [map concat]. by rewrite <- !app_assoc.
Qed.

Lemma print_prefix nz : Forall (λ w, w ≠ 0) nz → ∀ i prev rest os, i ≠ 0%nat → prev ≠ 0 →
  insert_words h i prev (nz ++ 0 :: rest) false os = insert_words h (i + length nz + 1) 0 rest false (os ++ colon_each nz) ∧
  insert_words h i prev nz false os = (os ++ colon_each nz, false).
Proof.
  induction 1 as [|w nz Hw Hnz IH]; intros i prev rest os Hi Hp.
  - cbn. rewrite app_nil_r. by replace (i + 0 + 1)%nat with (S i) by lia.
  - cbn [app insert_words]. rewrite (proj2 (Z.eqb_neq w 0) Hw), (proj2 (Z.eqb_neq prev 0) Hp), (proj2 (Nat.eqb_neq i 0) Hi).
    cbn [negb andb]. destruct (IH (S i) w rest ((os ++ str ":") ++ to_hex (swap w))) as [E1 E2]; [done|done|]. rewrite E1, E2.
    unfold colon_each. cbn [map concat length]. rewrite <- !app_assoc. split; [f_equal; lia|done].
Qed.

Lemma cut_zeros (ws : list Z) : ∃ nz k post, ws = nz ++ replicate k 0 ++ post ∧ Forall (λ w, w ≠ 0) nz ∧
  (k = 0%nat → post = []) ∧ ends_run post.
Proof.
  induction ws as [|w ws (nz & k & post & -> & Hnz & Hk & Hpost)]; [by exists [], 0%nat, []|].
  destruct (decide (w = 0)) as [->|Hw].
  - destruct nz as [|v nz].
    + exists [], (S k), post. by split_and!.
    + exists [], 1%nat, (v :: nz ++ replicate k 0 ++ post). split_and!; [done|constructor|done|].
      apply Forall_cons in Hnz as [Hv _]. intros [=]. done.
  - exists (w :: nz), k, post. split_and!; [done|by constructor|done|done].
Qed.

(** The text between the brackets. *)
Lemma print_groups nz k post : Forall (λ w, w ≠ 0) nz → (k = 0%nat → post = []) → ends_run post →
  insert_words h 0 0 (nz ++ replicate k 0 ++ post) false (str "[") =
    (str "[" ++ group_join nz ++ match post with [] => [] | _ => str "::" ++ group_join post end, bool_decide (post ≠ [])).
Proof.
  intros Hnz Hk Hpost. destruct nz as [|w nz].
  - destruct k as [|k]; [by rewrite (Hk eq_refl)|]. cbn [app replicate insert_words]. cbn [Z.eqb negb andb].
    rewrite print_zeros by done. destruct post as [|v post]; [done|]. rewrite group_join_cons. cbn [group_join map sep_join app].
    rewrite bool_decide_true by done. done.
  - apply Forall_cons in Hnz as [Hw Hnz]. rewrite group_join_cons. cbn [app insert_words].
    rewrite (proj2 (Z.eqb_neq w 0) Hw). cbn [Nat.eqb negb andb].
    destruct k as [|k].
    + rewrite (Hk eq_refl). cbn [replicate app]. rewrite app_nil_r.
      destruct (print_prefix nz Hnz 1 w [] (str "[" ++ to_hex (swap w))) as [_ E]; [done|done|]. cbn [app] in E. rewrite E.
      rewrite app_nil_r, <- app_assoc. done.
    + cbn [replicate app]. destruct (print_prefix nz Hnz 1 w (replicate k 0 ++ post) (str "[" ++ to_hex (swap w))) as [E _]; [done|done|].
      cbn [app] in E. rewrite E. rewrite print_zeros by (lia || done).
      destruct post as [|v post]; [by rewrite app_nil_r|]. rewrite group_join_cons, bool_decide_true by done.
      cbn [app]. by rewrite <- !app_assoc.
Qed.
End print.

(** ** The text of an IPv6 address *)

(** The bytes of a list of groups, in the order of the network. *)
Definition group_bytes (gs : list Z) : list Z := gs ≫= λ g, [g / 256; g mod 256].

Definition ip6_groups (h : bool) (a : sockaddr_in6) : list Z := map (byteswapOnLittleEndian h 2) (words h (s6_addr a)).

Lemma word_value h b0 b1 : 0 <= b0 < 256 → 0 <= b1 < 256 →
  byteswapOnLittleEndian h 2 (of_memory h [b0; b1]) = b0 * 256 + b1.
Proof.
  intros H0 H1. unfold byteswapOnLittleEndian, of_memory. destruct h; [|cbn; lia].
  unfold byteswap. change 2%nat with (length [b0; b1]). rewrite to_le_of_le by (by rewrite !Forall_cons, Forall_nil). cbn. lia.
Qed.

Lemma word_bound h b0 b1 : 0 <= b0 < 256 → 0 <= b1 < 256 → 0 <= of_memory h [b0; b1] < 2 ^ 16.
Proof. intros H0 H1. change (2 ^ 16) with 65536. unfold of_memory. destruct h; cbn; lia. Qed.

Lemma word_zero h w : 0 <= w < 2 ^ 16 → byteswapOnLittleEndian h 2 w = 0 → w = 0.
Proof. intros Hw E. rewrite <- (swapped_swapped h 2 w Hw), E. by destruct h. Qed.

(** Induction on bytes in pairs. *)
Lemma pairs_ind (P : list Z → Prop) : P [] → (∀ x y l, P l → P (x :: y :: l)) → ∀ l, Nat.Even (length l) → P l.
Proof.
  intros H0 H2 l. remember (length l) as n eqn:En. revert l En. induction n as [n IH] using lt_wf_ind. intros l En Hn. subst n.
  destruct l as [|x [|y l]]; [done|by destruct Hn as [m Hm]; cbn in Hm; lia|]. apply H2. apply (IH (length l)); [cbn; lia|done|].
  destruct Hn as [m Hm]. exists (m - 1)%nat. cbn in Hm. lia.
Qed.

Lemma words_bytes h l : Nat.Even (length l) → Forall (λ b, 0 <= b < 256) l →
  group_bytes (map (byteswapOnLittleEndian h 2) (words h l)) = l ∧ Forall (λ w, 0 <= w < 2 ^ 16) (words h l) ∧
  length (words h l) = Nat.div2 (length l).
Proof.
  intros He. pattern l. apply pairs_ind; [done| |done]. intros x y l' IH [Hx [Hy Hl]%Forall_cons]%Forall_cons.
  destruct (IH Hl) as (E & Hb & Hlen). cbn [words map length Nat.div2]. split; [|split; [constructor; [by apply word_bound|done]|by rewrite Hlen]].
  unfold group_bytes in *. rewrite bind_cons, E, word_value by done.
  rewrite Z.div_add_l, Z.div_small, Z.add_0_r by lia. rewrite Z.add_comm, Z.mod_add, Z.mod_small by lia. done.
Qed.

Lemma groups_of h a : in6_ok a → groups_ok (ip6_groups h a) ∧ length (ip6_groups h a) = 8%nat ∧ group_bytes (ip6_groups h a) = s6_addr a ∧
  Forall (λ w, 0 <= w < 2 ^ 16) (words h (s6_addr a)).
Proof.
  intros [_ Hlen Hb _ _]. destruct (words_bytes h (s6_addr a)) as (E & Hw & Hn); [rewrite Hlen; by exists 8%nat|done|].
  split_and!; [|unfold ip6_groups; by rewrite length_map, Hn, Hlen|done|done].
  apply Forall_map. eapply Forall_impl; [exact Hw|]. intros w. apply (swapped_bound h 2).
Qed.

(** Characters of the text: hexadecimal digits and colons. *)
Definition ip6_char (c : ascii) : Prop := c = colon ∨ hex_value_of c ≠ None.

Lemma join_chars gs c : groups_ok gs → c ∈ sep_join colon (map to_hex gs) → ip6_char c.
Proof.
  induction 1 as [|g gs Hg Hgs IH]; intros Hc; [by apply elem_of_nil in Hc|].
  assert (Hhex : c ∈ to_hex g → ip6_char c).
  { intros Hin. right. intros Hn. by apply (proj2 (proj2 (to_hex_group g Hg)) c Hn). }
  destruct gs as [|g' gs]; [by apply Hhex|].
  change (sep_join colon (map to_hex (g :: g' :: gs))) with (to_hex g ++ colon :: sep_join colon (map to_hex (g' :: gs))) in Hc.
  apply elem_of_app in Hc as [Hc|Hc]; [by apply Hhex|]. apply elem_of_cons in Hc as [->|Hc]; [by left|by apply IH].
Qed.

Lemma last_of_eight (l : list Z) x : length l = 8%nat → last l = Some x → default 0 (l !! 7%nat) = x.
Proof. intros Hl Hx. rewrite last_lookup, Hl in Hx. cbn in Hx. by rewrite Hx. Qed.

Lemma insert6_text h a : in6_ok a → ∃ t, IPv6_insert h a = str "[" ++ t ++ str "]:" ++ dec (IPv6_getPort h a) ∧
  read_ipv6 t = Some (ip6_groups h a) ∧ t ≠ [] ∧ (∀ c, c ∈ t → ip6_char c).
Proof.
  intros Ha. destruct (groups_of h a Ha) as (Hg & Hlen & _ & Hw). unfold IPv6_insert. unfold ip6_groups in Hg, Hlen |- *.
  rewrite length_map in Hlen. destruct (cut_zeros (words h (s6_addr a))) as (nz & k & post & E & Hnz & Hk & Hpost).
  rewrite E in *. rewrite print_groups by done. rewrite !map_app in Hg |- *.
  apply Forall_app in Hg as [Hg1 [_ Hg2]%Forall_app].
  assert (Hz : map (byteswapOnLittleEndian h 2) (replicate k 0) = replicate k 0).
  { clear. induction k as [|k IH]; [done|]. cbn [replicate map]. rewrite IH. by destruct h. }
  rewrite Hz. pose proof (read_join _ Hg1) as Hr1. pose proof (read_join _ Hg2) as Hr2.
  pose proof (groups_texts _ Hg1) as Ht1. pose proof (groups_texts _ Hg2) as Ht2.
  assert (Hgap : k ≠ 0%nat → read_ipv6 (group_join h nz ++ str "::" ++ group_join h post) =
    Some (map (byteswapOnLittleEndian h 2) nz ++ replicate k 0 ++ map (byteswapOnLittleEndian h 2) post)).
  { intros Hk0. unfold read_ipv6. change (str "::" ++ group_join h post) with (colon :: colon :: group_join h post).
    unfold group_join. rewrite gap_of_join by done. rewrite Hr1. cbn [mbind option_bind]. rewrite Hr2. cbn [mbind option_bind].
    rewrite !length_map. rewrite !length_app, length_replicate in Hlen.
    destruct (Nat.ltb_spec (length nz + length post) 8); [|lia]. by replace (8 - length nz - length post)%nat with k by lia. }
  assert (Hchars : ∀ c, c ∈ group_join h nz ++ str "::" ++ group_join h post → ip6_char c).
  { intros c Hc. apply elem_of_app in Hc as [Hc|Hc]; [by apply (join_chars _ c Hg1)|].
    do 2 (apply elem_of_cons in Hc as [->|Hc]; [by left|]). by apply (join_chars _ c Hg2). }
  destruct post as [|v post].
  - rewrite bool_decide_false by (intros C; by apply C). cbn [negb andb]. rewrite app_nil_r in *. destruct k as [|k].
    + cbn [replicate app] in *. rewrite app_nil_r in *. destruct (last nz) as [w|] eqn:El; [|apply last_None in El; by rewrite El in Hlen].
      rewrite (last_of_eight nz w Hlen El).
      apply last_Some in El as [nz' ->]. apply Forall_app in Hnz as [_ [Hw0 _]%Forall_cons]. rewrite (proj2 (Z.eqb_neq w 0) Hw0).
      exists (group_join h (nz' ++ [w])).
      rewrite <- !app_assoc. split_and!; [done| | |intros c; apply (join_chars _ c Hg1)].
      * cbn [map]. rewrite app_nil_r. unfold read_ipv6, group_join. rewrite no_gap_in_join, Hr1 by done. cbn [mbind option_bind]. by rewrite !length_map, Hlen.
      * intros En. unfold group_join in En. rewrite En in Hr1. injection Hr1 as Hr1. symmetry in Hr1. apply map_eq_nil in Hr1. by destruct nz'.
    + rewrite (last_of_eight _ 0 Hlen) by (rewrite replicate_S_end, app_assoc; by rewrite last_snoc). cbn [Z.eqb].
      exists (group_join h nz ++ str "::"). rewrite <- !app_assoc. cbn [group_join map sep_join app] in Hgap, Hchars.
      split_and!; [done| |by destruct (group_join h nz)|done]. cbn [map] in Hgap |- *. rewrite app_nil_r in Hgap |- *. by apply Hgap.
  - rewrite bool_decide_true by done. cbn [negb andb].
    exists (group_join h nz ++ str "::" ++ group_join h (v :: post)). split_and!; [by rewrite <- !app_assoc| |by destruct (group_join h nz)|done].
    apply Hgap. intros ->. by specialize (Hk eq_refl).
Qed.
