(* ===== verification/AddressProps.v ===== *)
(** * AddressProps: subnets, and looking up an address that was printed *)

From S2P Require Import Prelude ByteArray ByteCodec ByteCodecFacts.
From S2P Require Export AddressText.

(** ** The text of an IPv4 address *)

(** The four bytes, in the order of the network. *)
Definition ip4_bytes (h : bool) (a : sockaddr_in) : list Z := rev (to_le 4 (ip4 h a)).

Lemma byte_at v k : 0 <= k → Z.land (Z.shiftr v k) 255 = v / 2 ^ k mod 256.
Proof. intros Hk. change 255 with (2 ^ 8 - 1). by rewrite low_land, Z.shiftr_div_pow2. Qed.

Lemma insert4_text h a : in_ok a → ∃ t, IPv4_insert h a = t ++ str ":" ++ dec (IPv4_getPort h a) ∧
  read_ipv4 t = Some (ip4_bytes h a) ∧ ∀ c, c ∈ t → c = dot ∨ is_digit c = true.
Proof.
  intros Ha. pose proof (ip4_bound h a Ha) as Hb. pose proof (to_le_bytes 4 (ip4 h a)) as Hbytes.
  exists (sep_join dot (map dec (ip4_bytes h a))). unfold ip4_bytes. cbn [to_le rev app map sep_join] in Hbytes |- *.
  set (b0 := ip4 h a mod 256) in *. set (b1 := ip4 h a / 256 mod 256) in *.
  set (b2 := ip4 h a / 256 / 256 mod 256) in *. set (b3 := ip4 h a / 256 / 256 / 256 mod 256) in *.
  apply Forall_cons in Hbytes as [H0 [H1 [H2 [H3 _]%Forall_cons]%Forall_cons]%Forall_cons].
  destruct (dec_spec 256 b0 H0) as [R0 C0], (dec_spec 256 b1 H1) as [R1 C1], (dec_spec 256 b2 H2) as [R2 C2], (dec_spec 256 b3 H3) as [R3 C3].
  split; [|split].
  - unfold IPv4_insert. fold (ip4 h a). rewrite !byte_at by lia. change 255 with (2 ^ 8 - 1). rewrite low_land by lia.
    change (2 ^ 8) with 256. change (2 ^ 24) with (256 * (256 * 256)). change (2 ^ 16) with (256 * 256).
    rewrite <- !Z.div_div by lia. fold b0 b1 b2 b3. unfold IPv4_getPort. repeat (rewrite <- app_assoc; cbn [app]). done.
  - unfold read_ipv4. change (dec b3 ++ dot :: dec b2 ++ dot :: dec b1 ++ dot :: dec b0) with (sep_join dot [dec b3; dec b2; dec b1; dec b0]).
    rewrite split_at_join; [|done|rewrite !Forall_cons; split_and!; try constructor; by auto].
    cbn [mapM]. rewrite R3, R2, R1, R0. done.
  - assert (Hd : ∀ v c, (∀ c, is_digit c = false → c ∉ dec v) → c ∈ dec v → c = dot ∨ is_digit c = true).
    { intros v c Hc Hin. right. destruct (is_digit c) eqn:E; [done|]. by destruct (Hc c E). }
    intros c. repeat (rewrite elem_of_app || rewrite elem_of_cons). intros [Hc|[->|[Hc|[->|[Hc|[->|Hc]]]]]]; eauto.
Qed.

(** ** Ports *)

Lemma port_memory h v : 0 <= v < 2 ^ 16 → of_memory h (rev (to_le 2 (byteswapOnLittleEndian h 2 v))) = v.
Proof.
  intros Hv. unfold of_memory, byteswapOnLittleEndian. destruct h.
  - rewrite to_le_byteswap, List.rev_involutive. by apply of_le_to_le_id.
  - rewrite List.rev_involutive. by apply of_le_to_le_id.
Qed.

Lemma word_memory h a : in_ok a → of_memory h (ip4_bytes h a) = s_addr a.
Proof.
  intros [_ Hw _]. unfold ip4_bytes, ip4, of_memory, byteswapOnLittleEndian. destruct h.
  - rewrite to_le_byteswap, List.rev_involutive. by apply of_le_to_le_id.
  - rewrite List.rev_involutive. by apply of_le_to_le_id.
Qed.

(** ** Splitting a host *)

(** Without a bracket in front, the first colon decides. *)
Lemma split_unbracketed host : head host ≠ Some "["%char →
  Lookup_split host =
    match find_char colon host with
    | Some j =>
        if decide (find_char colon (drop (j + 1) host) = None) then
          (match take j host with [] => host | node => node end, Some (drop (j + 1) host))
        else (host, Some (drop j host))
    | None => (host, None)
    end.
Proof.
  intros Hb. unfold Lookup_split. fold colon.
  assert (E : match host with
    | c :: rest =>
        if decide (c = "["%char) then
          match find_char "]"%char rest with
          | Some k => (take k rest, match drop (k + 1) rest with c :: s => if decide (c = colon) then Some s else None | [] => None end)
          | None => ([], None)
          end
        else ([], None)
    | [] => ([], None)
    end = ([], None)).
  { destruct host as [|c rest]; [done|]. rewrite decide_False; [done|]. intros ->. by apply Hb. }
  rewrite E. destruct (find_char colon host) as [j|]; [|done].
  destruct (find_char colon (drop (j + 1) host)); [by rewrite decide_False|rewrite decide_True by done].
  by destruct (take j host).
Qed.

Lemma drop_past (t s : text) c : drop (length t + 1) (t ++ c :: s) = s.
Proof. change (c :: s) with ([c] ++ s). rewrite app_assoc. apply drop_app_length'. by rewrite length_app. Qed.

Lemma split_plain t service : t ≠ [] → head t ≠ Some "["%char → colon ∉ t → colon ∉ service →
  Lookup_split (t ++ str ":" ++ service) = (t, Some service).
Proof.
  intros Hne Hb Ht Hs. change (str ":" ++ service) with (colon :: service). rewrite split_unbracketed; [|by destruct t].
  rewrite find_char_app, drop_past, find_char_none, decide_True, take_app_length by done. by destruct t.
Qed.

Lemma split_bracketed t service : t ≠ [] → "]"%char ∉ t → Lookup_split (str "[" ++ t ++ str "]:" ++ service) = (t, Some service).
Proof.
  intros Hne Ht. unfold Lookup_split. change (str "[" ++ t ++ str "]:" ++ service) with ("["%char :: t ++ "]"%char :: colon :: service).
  cbv beta iota zeta. rewrite decide_True, find_char_app, take_app_length, drop_past by done. cbv beta iota.
  rewrite decide_True by done. by destruct t.
Qed.

(** With two colons and no brackets, everything from the first colon on is taken for the service. *)
Lemma split_two_colons t1 t2 t3 : head (t1 ++ colon :: t2) ≠ Some "["%char → colon ∉ t1 →
  Lookup_split (t1 ++ colon :: t2 ++ colon :: t3) = (t1 ++ colon :: t2 ++ colon :: t3, Some (colon :: t2 ++ colon :: t3)).
Proof.
  intros Hb Ht. rewrite split_unbracketed; [|by destruct t1]. rewrite find_char_app, drop_past by done. rewrite decide_False.
  - by rewrite drop_app_length.
  - induction t2 as [|c t2 IH]; cbn [app find_char]; [by rewrite decide_True|]. destruct (decide (c = colon)); [done|].
    assert (Hh : head (t1 ++ [colon]) ≠ Some "["%char) by (by destruct t1). specialize (IH ltac:(by destruct t1)).
    by destruct (find_char colon (t2 ++ colon :: t3)).
Qed.

Lemma find_gap_Some t l r : find_gap t = Some (l, r) → t = l ++ colon :: colon :: r.
Proof.
  revert l r. induction t as [|c t IH]; intros l r E; [done|]. destruct t as [|d t]; [done|].
  change (find_gap (c :: d :: t)) with
    (if bool_decide (c = colon ∧ d = colon) then Some ([], t) else x ← find_gap (d :: t); Some (c :: x.1, x.2)) in E.
  case_bool_decide as Hcd; [destruct Hcd as [-> ->]; by injection E as <- <-|].
  destruct (find_gap (d :: t)) as [[l' r']|]; [|done]. injection E as <- <-. cbn [app]. f_equal. by apply IH.
Qed.

(** An IPv6 address has two colons. *)
Lemma ipv6_two_colons t gs : read_ipv6 t = Some gs → ∃ t1 t2 t3, t = t1 ++ colon :: t2 ++ colon :: t3 ∧ colon ∉ t1.
Proof.
  unfold read_ipv6. destruct (find_gap t) as [[l r]|] eqn:Eg; intros E.
  - apply find_gap_Some in Eg. destruct (decide (colon ∈ l)) as [(l1 & l2 & -> & Hl)%list_elem_of_split_l|Hl].
    + exists l1, l2, (colon :: r). split; [|done]. by rewrite Eg, <- app_assoc.
    + exists l, [], r. by rewrite Eg.
  - destruct (decide (colon ∈ t)) as [(t1 & t2 & -> & Ht1)%list_elem_of_split_l|Ht].
    + destruct (decide (colon ∈ t2)) as [(t3 & t4 & -> & Ht2)%list_elem_of_split_l|Ht2]; [by eexists t1, t3, t4|].
      exfalso. unfold read_groups in E. destruct (t1 ++ colon :: t2) as [|c u] eqn:Et; [by destruct t1|]. rewrite <- Et in E.
      rewrite split_at_part, split_at_last in E by done. cbn [mapM] in E. destruct (read_group t1), (read_group t2); done.
    + exfalso. unfold read_groups in E. destruct t as [|c u] eqn:Et; [done|]. rewrite <- Et in E, Ht.
      rewrite split_at_last in E by done. cbn [mapM] in E. by destruct (read_group t).
Qed.

(** ** The resolver *)

(** Any type of socket, streams or datagrams, with the default protocol. *)
Definition usual_type (type_ protocol : Z) : Prop := (type_ = 0 ∨ type_ = 1 ∨ type_ = 2) ∧ protocol = 0.

(** What [getaddrinfo] and [inet_pton] do with numeric notations, whatever they do with names: a numeric node and port of
    a family that was asked for give that address, once for each type of socket asked for. *)
Class ResolverLaws (h : bool) `{Resolver} := {
  numeric_ipv4 node service family type_ protocol bs port : usual_type type_ protocol →
    read_ipv4 node = Some bs → read_port service = Some port → family = AF_INET ∨ family = AF_UNSPEC →
    ∃ n, getaddrinfo 0 node (Some service) family type_ protocol =
      Some (replicate (S n) (sa_in (mkIn (of_memory h (rev (to_le 2 port))) (of_memory h bs) (replicate 8 0))));
  numeric_ipv6 node service family type_ protocol gs port : usual_type type_ protocol →
    read_ipv6 node = Some gs → read_port service = Some port → family = AF_INET6 ∨ family = AF_UNSPEC →
    ∃ n, getaddrinfo 0 node (Some service) family type_ protocol =
      Some (replicate (S n) (sa_in6 (mkIn6 (of_memory h (rev (to_le 2 port))) 0 (group_bytes gs) 0)));
  pton_ipv4 t bs : read_ipv4 t = Some bs → inet_pton AF_INET t = Some bs;
  pton_ipv6 t gs : read_ipv6 t = Some gs → inet_pton AF_INET6 t = Some (group_bytes gs)
}.

Section lookup.
Context (h : bool) `{R : Resolver} `{!ResolverLaws h}.

Lemma lookup_all node service host sa n family type_ protocol : Lookup_split host = (node, Some service) →
  nul ∉ node → nul ∉ service → getaddrinfo 0 node (Some service) family type_ protocol = Some (replicate (S n) sa) →
  is_IPAddress (Address_Create sa) = true →
  LookupAny host family type_ protocol = Some (Address_Create sa) ∧ LookupAnyIP host family type_ protocol = Some (Address_Create sa).
Proof.
  intros Es Hn Hs Eg Hip. assert (El : Lookup host family type_ protocol = Some (map Address_Create (replicate (S n) sa))).
  { unfold Lookup. rewrite Es, c_str_id by done. change (c_str <$> Some service) with (Some (c_str service)).
    rewrite c_str_id by done. by rewrite Eg. }
  unfold LookupAny, LookupAnyIP. rewrite El. split; [done|]. cbn [replicate map]. rewrite filter_cons_True by done. done.
Qed.

Lemma port_plain v c : c = nul ∨ c = colon ∨ c = "]"%char ∨ c = "["%char ∨ c = dot → c ∉ dec v.
Proof.
  intros Hc Hin. unfold dec in Hin. destruct (to_string_spec (Z.to_nat v)) as (_ & Hds & _). rewrite Forall_forall in Hds.
  apply Hds in Hin. destruct Hc as [-> | [-> | [-> | [-> | ->]]]]; done.
Qed.

Lemma dot_or_digit (c : ascii) (t : text) : (∀ c, c ∈ t → c = dot ∨ is_digit c = true) → c = nul ∨ c = colon ∨ c = "["%char → c ∉ t.
Proof. intros Ht Hc Hin. apply Ht in Hin. destruct Hin as [->|Hin], Hc as [Hc|[Hc|Hc]]; subst; done. Qed.

Lemma ip6_plain (c : ascii) (t : text) : (∀ c, c ∈ t → ip6_char c) → c = nul ∨ c = "]"%char ∨ c = "["%char → c ∉ t.
Proof. intros Ht Hc Hin. apply Ht in Hin. destruct Hin as [->|Hin], Hc as [Hc|[Hc|Hc]]; subst; done. Qed.

Lemma head_in (t : text) c : c ∉ t → head t ≠ Some c.
Proof. destruct t as [|d t]; [done|]. intros Hc [= ->]. by apply Hc; left. Qed.

Lemma lookup_ipv4 type_ protocol : usual_type type_ protocol →
  ∀ a family, in_ok a → sin_zero a = replicate 8 0 → family = AF_INET ∨ family = AF_UNSPEC →
    let host := IPv4_insert h a in
    LookupAny host family type_ protocol = Some (IPv4Address a) ∧ LookupAnyIP host family type_ protocol = Some (IPv4Address a) ∧
    ∃ node, host = node ++ str ":" ++ dec (IPv4_getPort h a) ∧ IPv4_Create h node (IPv4_getPort h a) = Some a.
Proof.
  intros Hty a family Ha Hz Hfam host. destruct (insert4_text h a Ha) as (t & Et & Hr & Hc).
  pose proof (swapped_bound h 2 _ (in_port a Ha)) as Hport. fold (IPv4_getPort h a) in Hport.
  assert (Hne : t ≠ []) by (by intros ->).
  destruct (numeric_ipv4 t (dec (IPv4_getPort h a)) family type_ protocol _ _ Hty Hr (proj1 (dec_spec (2 ^ 16) _ Hport)) Hfam) as (n & Eg).
  unfold IPv4_getPort in Eg at 2. rewrite port_memory, word_memory, <- Hz in Eg by (apply Ha || done).
  replace (mkIn (sin_port a) (s_addr a) (sin_zero a)) with a in Eg by (by destruct a).
  assert (Es : Lookup_split host = (t, Some (dec (IPv4_getPort h a)))).
  { unfold host. rewrite Et. apply split_plain; [done|apply head_in|..|apply port_plain; auto]; apply dot_or_digit; auto. }
  destruct (lookup_all _ _ _ _ _ _ _ _ Es ltac:(apply dot_or_digit; auto) ltac:(apply port_plain; auto) Eg eq_refl) as [E1 E2].
  split; [done|]. split; [done|]. exists t. split; [done|]. unfold IPv4_Create.
  rewrite c_str_id by (apply dot_or_digit; auto). rewrite (pton_ipv4 t _ Hr), word_memory by done.
  unfold IPv4_getPort. rewrite (swapped_swapped h 2) by apply Ha. cbn [new_IPv4Address sin_zero]. rewrite <- Hz. by destruct a.
Qed.

Lemma lookup_ipv6 type_ protocol : usual_type type_ protocol →
  ∀ a family, in6_ok a → sin6_flowinfo a = 0 → sin6_scope_id a = 0 → family = AF_INET6 ∨ family = AF_UNSPEC →
    let host := IPv6_insert h a in
    LookupAny host family type_ protocol = Some (IPv6Address a) ∧ LookupAnyIP host family type_ protocol = Some (IPv6Address a) ∧
    ∃ node, host = str "[" ++ node ++ str "]:" ++ dec (IPv6_getPort h a) ∧ IPv6_Create h node (IPv6_getPort h a) = Some a ∧
      ∃ rest, Lookup_split node = (node, Some (colon :: rest)).
Proof.
  intros Hty a family Ha Hflow Hscope Hfam host. destruct (insert6_text h a Ha) as (t & Et & Hr & Hne & Hc).
  pose proof (swapped_bound h 2 _ (in6_port a Ha)) as Hport. fold (IPv6_getPort h a) in Hport.
  destruct (groups_of h a Ha) as (_ & _ & Hbytes & _).
  destruct (numeric_ipv6 t (dec (IPv6_getPort h a)) family type_ protocol _ _ Hty Hr (proj1 (dec_spec (2 ^ 16) _ Hport)) Hfam) as (n & Eg).
  unfold IPv6_getPort in Eg at 2. rewrite port_memory, Hbytes in Eg by apply Ha.
  replace (mkIn6 (sin6_port a) 0 (s6_addr a) 0) with a in Eg by (destruct a; cbn in *; by subst).
  assert (Es : Lookup_split host = (t, Some (dec (IPv6_getPort h a)))).
  { unfold host. rewrite Et. apply split_bracketed; [done|apply ip6_plain; auto]. }
  destruct (lookup_all _ _ _ _ _ _ _ _ Es ltac:(apply ip6_plain; auto) ltac:(apply port_plain; auto) Eg eq_refl) as [E1 E2].
  split; [done|]. split; [done|]. exists t. split; [done|]. split.
  - unfold IPv6_Create. rewrite c_str_id by (apply ip6_plain; auto). rewrite (pton_ipv6 t _ Hr), Hbytes.
    unfold IPv6_of_bytes, IPv6_getPort. rewrite (swapped_swapped h 2) by apply Ha. destruct a; cbn in *; by subst.
  - destruct (ipv6_two_colons t _ Hr) as (t1 & t2 & t3 & -> & Ht1). exists (t2 ++ colon :: t3).
    apply split_two_colons; [|done]. assert (Hb : "["%char ∉ t1 ++ colon :: t2 ++ colon :: t3) by (apply ip6_plain; auto).
    apply head_in. intros Hin. apply Hb. rewrite !elem_of_app, elem_of_cons in Hin |- *. rewrite elem_of_app. naive_solver.
Qed.

(** (C22) An address that is printed is looked up again.  For an IPv4 address, and
    for an IPv6 address without flow and scope, [Lookup] cuts the printed text
    into the address and the port (the brackets of IPv6 dropped), so that
    [LookupAny] and [LookupAnyIPAddress] give the address back, and so does
    [Create] from the two parts (for streams, datagrams or any type of socket,
    and the default protocol; numbers are read in the plain notation, without
    leading zeros and with groups of one to four digits).  The zeros that IPv6 leaves out (the first run
    of zero groups) are found by a reader written from the notation.  But the
    text of an IPv6 address without brackets is cut at its first colon, and
    what follows is passed to the resolver as the service. *)
Theorem address_text_roundtrip type_ protocol (Hty : usual_type type_ protocol) :
  (∀ a family, in_ok a → sin_zero a = replicate 8 0 → family = AF_INET ∨ family = AF_UNSPEC →
    let host := IPv4_insert h a in
    LookupAny host family type_ protocol = Some (IPv4Address a) ∧ LookupAnyIP host family type_ protocol = Some (IPv4Address a) ∧
    ∃ node, host = node ++ str ":" ++ dec (IPv4_getPort h a) ∧ IPv4_Create h node (IPv4_getPort h a) = Some a) ∧
  (∀ a family, in6_ok a → sin6_flowinfo a = 0 → sin6_scope_id a = 0 → family = AF_INET6 ∨ family = AF_UNSPEC →
    let host := IPv6_insert h a in
    LookupAny host family type_ protocol = Some (IPv6Address a) ∧ LookupAnyIP host family type_ protocol = Some (IPv6Address a) ∧
    ∃ node, host = str "[" ++ node ++ str "]:" ++ dec (IPv6_getPort h a) ∧ IPv6_Create h node (IPv6_getPort h a) = Some a ∧
      ∃ rest, Lookup_split node = (node, Some (colon :: rest))).
Proof. exact (conj (lookup_ipv4 type_ protocol Hty) (lookup_ipv6 type_ protocol Hty)). Qed.
End lookup.

(** ** Subnets *)

Definition prefix_found {A} (count : A → result Z) (mask : result A) (p : Z) : bool :=
  match mask with Ok m => match count m with Ok n => n =? p | Fail _ => false end | Fail _ => false end.

Lemma prefix_found_true {A} (count : A → result Z) mask p m : prefix_found count mask p = true → mask = Ok m → count m = Ok p.
Proof.
  unfold prefix_found. intros H ->. destruct (count m) as [n|]; [|done]. by apply Z.eqb_eq in H as ->.
Qed.

(** The bits of the mask give the length of its prefix back. *)
Lemma prefix4 h p m : 2 <= p <= 32 → IPv4_subnetMask h p = Ok m → CountBytes 32 (s_addr m) = Ok p.
Proof.
  intros Hp. apply (prefix_found_true (λ m, CountBytes 32 (s_addr m))).
  assert (Hall : forallb (λ p, prefix_found (λ m, CountBytes 32 (s_addr m)) (IPv4_subnetMask h p) p) (seqZ 2 31) = true).
  { destruct h; by vm_compute. }
  rewrite forallb_forall in Hall. apply (Hall p), list_elem_of_In, elem_of_seqZ. lia.
Qed.

Lemma prefix6 p m : 0 <= p < 128 → IPv6_subnetMask p = Ok m → count_bytes (s6_addr m) = Ok p.
Proof.
  intros Hp. apply (prefix_found_true (λ m, count_bytes (s6_addr m))).
  assert (Hall : forallb (λ p, prefix_found (λ m, count_bytes (s6_addr m)) (IPv6_subnetMask p) p) (seqZ 0 128) = true) by (by vm_compute).
  rewrite forallb_forall in Hall. apply (Hall p), list_elem_of_In, elem_of_seqZ. lia.
Qed.

Lemma outside4 h a p : 0 <= p < 2 ^ 32 → 
  (p <= 1 → IPv4_broadcastAddress h p a = Fail Overflow ∧ IPv4_networdAddress h p a = Fail Overflow) ∧
  (32 < p → IPv4_broadcastAddress h p a = Ok None ∧ IPv4_networdAddress h p a = Ok None) ∧
  (p <= 1 ∨ 32 < p → IPv4_subnetMask h p = Fail Overflow).
Proof.
  intros Hp. unfold IPv4_broadcastAddress, IPv4_networdAddress, IPv4_subnetMask. split_and!.
  - intros H. destruct (Z.gtb_spec p 32); [lia|]. by rewrite create_mask_fails by lia.
  - intros H. by destruct (Z.gtb_spec p 32); [|lia].
  - intros H. by rewrite create_mask_fails by lia.
Qed.

(** (C23) Subnets.  Reading addresses as numbers: for a prefix of 2 to 32 bits the
    IPv4 mask, and for 0 to 127 bits the IPv6 mask, is the one with that many
    leading ones, and [CountBytes], which [GetInterfaceAddresses] applies to
    masks, counts them back; the broadcast address has ones after the prefix;
    the IPv6 network address has zeros there.  But [networdAddress] of IPv4
    keeps the bits after the prefix and clears the prefix.  Prefixes outside
    are answered with null (IPv4 above 32), or are undefined: the mask shifts
    an [int] too far (IPv4 below 2), or a byte beyond the address is written
    (IPv6 from 128). *)
Theorem subnets h a a6 p (Ha : in_ok a) (Ha6 : in6_ok a6) (Hp : 0 <= p < 2 ^ 32) :
  (2 <= p <= 32 → ∃ b n m, IPv4_broadcastAddress h p a = Ok (Some b) ∧ IPv4_networdAddress h p a = Ok (Some n) ∧
    IPv4_subnetMask h p = Ok m ∧ ip4 h b = ip4 h a - ip4 h a mod 2 ^ (32 - p) + (2 ^ (32 - p) - 1) ∧
    ip4 h n = ip4 h a mod 2 ^ (32 - p) ∧ ip4 h m = 2 ^ 32 - 2 ^ (32 - p) ∧ CountBytes 32 (s_addr m) = Ok p) ∧
  (p <= 1 → IPv4_broadcastAddress h p a = Fail Overflow ∧ IPv4_networdAddress h p a = Fail Overflow) ∧
  (32 < p → IPv4_broadcastAddress h p a = Ok None ∧ IPv4_networdAddress h p a = Ok None) ∧
  (p <= 1 ∨ 32 < p → IPv4_subnetMask h p = Fail Overflow) ∧
  (p < 128 → ∃ b n m, IPv6_broadcastAddress p a6 = Ok b ∧ IPv6_networdAddress p a6 = Ok n ∧ IPv6_subnetMask p = Ok m ∧
    ip6 b = ip6 a6 - ip6 a6 mod 2 ^ (128 - p) + (2 ^ (128 - p) - 1) ∧ ip6 n = ip6 a6 - ip6 a6 mod 2 ^ (128 - p) ∧
    ip6 m = 2 ^ 128 - 2 ^ (128 - p) ∧ count_bytes (s6_addr m) = Ok p) ∧
  (128 <= p → IPv6_broadcastAddress p a6 = Fail BadIndex ∧ IPv6_networdAddress p a6 = Fail BadIndex ∧
    IPv6_subnetMask p = Fail BadIndex).
Proof.
  destruct (outside4 h a p Hp) as (O1 & O2 & O3). split; [|split; [done|split; [done|split; [done|split]]]].
  - intros H. destruct (broadcast4 h a p Ha H) as (b & Eb & _ & _ & Hb), (network4 h a p Ha H) as (n & En & _ & _ & Hn),
      (subnet4 h p H) as (m & Em & _ & Hm). exists b, n, m. pose proof (prefix4 h p m H Em). by split_and!.
  - intros H. destruct (broadcast6 a6 p Ha6) as (b & Eb & _ & _ & Hb), (network6 a6 p Ha6) as (n & En & _ & _ & Hn),
      (subnet6 p) as (m & Em & _ & Hm); [lia..|]. exists b, n, m. pose proof (prefix6 p m ltac:(lia) Em). by split_and!.
  - intros H. apply outside6; [apply Ha6|done].
Qed.

(** ** Well-formed addresses *)

Lemma masked4_ok h a p n : in_ok a → 0 <= p < 2 ^ 32 →
  IPv4_broadcastAddress h p a = Ok (Some n) ∨ IPv4_networdAddress h p a = Ok (Some n) → in_ok n ∧ sin_port n = sin_port a.
Proof.
  intros Ha Hp Hn. destruct (outside4 h a p Hp) as (O1 & O2 & _). destruct (decide (2 <= p <= 32)) as [H|H].
  - destruct (broadcast4 h a p Ha H) as (b & Eb & Hb & Pb & _), (network4 h a p Ha H) as (b' & En & Hb' & Pb' & _).
    rewrite Eb, En in Hn. by destruct Hn as [[= <-]|[= <-]].
  - exfalso. destruct (decide (p <= 1)); [destruct O1 as [E1 E2]; [done|]|destruct O2 as [E1 E2]; [lia|]]; rewrite E1, E2 in Hn; by destruct Hn.
Qed.

Lemma masked6_ok a p n : in6_ok a → 0 <= p →
  IPv6_broadcastAddress p a = Ok n ∨ IPv6_networdAddress p a = Ok n → in6_ok n ∧ sin6_port n = sin6_port a.
Proof.
  intros Ha Hp Hn. destruct (decide (p < 128)) as [H|H].
  - destruct (broadcast6 a p Ha) as (b & Eb & Hb & Pb & _), (network6 a p Ha) as (b' & En & Hb' & Pb' & _); [lia..|].
    rewrite Eb, En in Hn. by destruct Hn as [[= <-]|[= <-]].
  - exfalso. destruct (outside6 p a) as (E1 & E2 & _); [apply Ha|lia|]. rewrite E1, E2 in Hn. by destruct Hn.
Qed.

Lemma subnet4_ok h p n : 0 <= p < 2 ^ 32 → IPv4_subnetMask h p = Ok n → in_ok n.
Proof.
  intros Hp Hn. destruct (decide (2 <= p <= 32)) as [H|H].
  - destruct (subnet4 h p H) as (m & Em & Hm & _). rewrite Em in Hn. by injection Hn as <-.
  - destruct (outside4 h (new_IPv4Address h 0 0) p Hp) as (_ & _ & O). rewrite O in Hn by lia. done.
Qed.

Lemma subnet6_ok p n : 0 <= p → IPv6_subnetMask p = Ok n → in6_ok n.
Proof.
  intros Hp Hn. destruct (decide (p < 128)) as [H|H].
  - destruct (subnet6 p) as (m & Em & Hm & _); [lia|]. rewrite Em in Hn. by injection Hn as <-.
  - destruct (outside6 p new_IPv6Address) as (_ & _ & E); [done|lia|]. by rewrite E in Hn.
Qed.

Lemma zeros_ok n : Forall (λ b, 0 <= b < 256) (replicate n 0).
Proof. apply Forall_replicate. lia. Qed.

(** Every operation of the IP addresses gives a well-formed address: words
    and bytes within their widths, sixteen bytes in an IPv6 address.  The
    constructors and [setPort] store the port and the address so that
    [getPort] and the number of the address give them back, on a host of
    either byte order; the broadcast and network addresses keep the port. *)
Theorem address_types h a a6 address bytes_ v p (Ha : in_ok a) (Ha6 : in6_ok a6) (Haddr : 0 <= address < 2 ^ 32)
    (Hbytes : length bytes_ = 16%nat ∧ Forall (λ b, 0 <= b < 256) bytes_) (Hv : 0 <= v < 2 ^ 16) (Hp : 0 <= p < 2 ^ 32) :
  (let n := new_IPv4Address h address v in in_ok n ∧ ip4 h n = address ∧ IPv4_getPort h n = v) ∧
  (let n := IPv4_setPort h v a in in_ok n ∧ ip4 h n = ip4 h a ∧ IPv4_getPort h n = v) ∧
  (let n := IPv6_of_bytes h bytes_ v in in6_ok n ∧ s6_addr n = bytes_ ∧ IPv6_getPort h n = v) ∧
  (let n := IPv6_setPort h v a6 in in6_ok n ∧ ip6 n = ip6 a6 ∧ IPv6_getPort h n = v) ∧
  in6_ok new_IPv6Address ∧
  (∀ n, IPv4_broadcastAddress h p a = Ok (Some n) ∨ IPv4_networdAddress h p a = Ok (Some n) → in_ok n ∧ sin_port n = sin_port a) ∧
  (∀ n, IPv6_broadcastAddress p a6 = Ok n ∨ IPv6_networdAddress p a6 = Ok n → in6_ok n ∧ sin6_port n = sin6_port a6) ∧
  (∀ n, IPv4_subnetMask h p = Ok n → in_ok n) ∧ (∀ n, IPv6_subnetMask p = Ok n → in6_ok n).
Proof.
  pose proof (swapped_bound h 2 v Hv) as Hv'. pose proof (swapped_bound h 4 address Haddr) as Haddr'.
  pose proof (swapped_swapped h 2 v Hv) as Ev. pose proof (swapped_swapped h 4 address Haddr) as Ea.
  split; [|split; [|split; [|split; [|split; [|split; [|split; [|split]]]]]]].
  - split; [split; [done|done|split; [done|apply (zeros_ok 8)]]|by split].
  - split; [split; [done|apply Ha..]|by split].
  - split; [split; [done|apply Hbytes..|done|done]|by split].
  - split; [split; [done|apply Ha6..]|by split].
  - split; [done|done|apply (zeros_ok 16)|done|done].
  - intros n. by apply masked4_ok.
  - intros n. apply masked6_ok; [done|apply Hp].
  - intros n. by apply subnet4_ok.
  - intros n. apply subnet6_ok, Hp.
Qed.

(** ** The order of addresses *)

(** The memory of an address that is compared. *)
Definition memory_of (h : bool) (a : Address) : list Z := take (Z.to_nat (getAddrLen a)) (getAddr h a).

(** The lexicographic order of byte strings. *)
Fixpoint bytes_lt (l1 l2 : list Z) : bool :=
  match l1, l2 with
  | x :: l1', y :: l2' => (x <? y) || ((x =? y) && bytes_lt l1' l2')
  | [], _ :: _ => true
  | _, [] => false
  end.

Lemma bytes_lt_irrefl l : bytes_lt l l = false.
Proof. induction l as [|x l IH]; [done|]. cbn [bytes_lt]. by rewrite Z.ltb_irrefl, Z.eqb_refl, IH. Qed.

Lemma bytes_lt_trans l1 l2 l3 : bytes_lt l1 l2 = true → bytes_lt l2 l3 = true → bytes_lt l1 l3 = true.
Proof.
  revert l2 l3. induction l1 as [|x l1 IH]; intros [|y l2] [|z l3]; cbn [bytes_lt]; try done.
  intros H1 H2. apply orb_true_iff in H1 as [H1|[H1 H1']%andb_true_iff], H2 as [H2|[H2 H2']%andb_true_iff].
  1-3: apply orb_true_iff; left; blia.
  apply orb_true_iff; right. apply andb_true_iff. split; [blia|by eapply IH].
Qed.

Lemma bytes_lt_total l1 l2 : bytes_lt l1 l2 = true ∨ l1 = l2 ∨ bytes_lt l2 l1 = true.
Proof.
  revert l2. induction l1 as [|x l1 IH]; intros [|y l2]; cbn [bytes_lt]; [by auto..|].
  destruct (Z.lt_trichotomy x y) as [H|[->|H]].
  - left. by rewrite (proj2 (Z.ltb_lt x y) H).
  - rewrite Z.ltb_irrefl, Z.eqb_refl. cbn [orb andb]. destruct (IH l2) as [?|[->|?]]; auto.
  - right. right. by rewrite (proj2 (Z.ltb_lt y x) H).
Qed.

(** [memcmp] of the shorter length, then the lengths, is that order. *)
Lemma memcmp_lt l1 l2 n1 n2 : (n1 <= length l1)%nat → (n2 <= length l2)%nat →
  (let r := memcmp (Nat.min n1 n2) l1 l2 in if r <? 0 then true else if r >? 0 then false else (n1 <? n2)%nat) =
  bytes_lt (take n1 l1) (take n2 l2).
Proof.
  revert l1 l2 n2. induction n1 as [|n1 IH]; intros l1 l2 n2 H1 H2.
  - cbn [Nat.min memcmp take]. destruct n2 as [|n2]; [done|]. destruct l2 as [|y l2]; [cbn in H2; lia|done].
  - destruct l1 as [|x l1]; [cbn in H1; lia|]. destruct n2 as [|n2]; [done|]. destruct l2 as [|y l2]; [cbn in H2; lia|].
    cbn [length] in H1, H2. cbn [Nat.min memcmp take bytes_lt].
    destruct (Z.ltb_spec x y); [done|]. destruct (Z.ltb_spec y x).
    + by rewrite (proj2 (Z.eqb_neq x y)) by lia.
    + rewrite (proj2 (Z.eqb_eq x y)) by lia. cbn [orb andb]. rewrite <- IH by lia. done.
Qed.

Lemma memcmp_eq l1 l2 n : (n <= length l1)%nat → (n <= length l2)%nat → memcmp n l1 l2 = 0 ↔ take n l1 = take n l2.
Proof.
  revert l1 l2. induction n as [|n IH]; intros l1 l2 H1 H2; [by destruct l1, l2|].
  destruct l1 as [|x l1]; [cbn in H1; lia|]. destruct l2 as [|y l2]; [cbn in H2; lia|]. cbn [length] in H1, H2. cbn [memcmp take].
  destruct (Z.ltb_spec x y); [|destruct (Z.ltb_spec y x)].
  - split; [done|intros [= -> _]; lia].
  - split; [done|intros [= -> _]; lia].
  - rewrite IH by lia. replace y with x by lia. split; [by intros ->|by intros [= ->]].
Qed.

(** The length of an address lies within its memory. *)
Definition length_ok (h : bool) (a : Address) : Prop := 0 <= getAddrLen a <= Z.of_nat (length (getAddr h a)).

Definition address_ok (a : Address) : Prop :=
  match a with IPv4Address m => in_ok m | IPv6Address m => in6_ok m | AUnixAddress _ | UnknownAddress _ _ => False end.

Lemma less_is_lt h a b : length_ok h a → length_ok h b → addr_less h a b = bytes_lt (memory_of h a) (memory_of h b).
Proof.
  intros Ha Hb. unfold length_ok in *. unfold memory_of. rewrite <- memcmp_lt by lia. unfold addr_less.
  rewrite Z2Nat.inj_min. cbv zeta. destruct (memcmp _ _ _ <? 0); [done|]. destruct (memcmp _ _ _ >? 0); [done|].
  destruct (Z.ltb_spec (getAddrLen a) (getAddrLen b)), (Nat.ltb_spec (Z.to_nat (getAddrLen a)) (Z.to_nat (getAddrLen b))); try done; lia.
Qed.

Lemma equal_is_eq h a b : length_ok h a → length_ok h b → addr_equal h a b = true ↔ memory_of h a = memory_of h b.
Proof.
  intros Ha Hb. unfold length_ok in *. unfold addr_equal, memory_of. rewrite andb_true_iff, !Z.eqb_eq. split.
  - intros [E H]. rewrite <- E in Hb |- *. apply memcmp_eq; [lia..|done].
  - intros E. assert (El : getAddrLen a = getAddrLen b) by (apply (f_equal length) in E; rewrite !length_take in E; lia).
    split; [done|]. rewrite <- El in E, Hb. apply memcmp_eq; [lia..|done].
Qed.

Lemma to_memory_length h n v : length (to_memory h n v) = n.
Proof. unfold to_memory. destruct h; by rewrite ?List.length_rev, length_to_le. Qed.

Lemma to_memory_inj h n v w : 0 <= v < 2 ^ (8 * Z.of_nat n) → 0 <= w < 2 ^ (8 * Z.of_nat n) → to_memory h n v = to_memory h n w → v = w.
Proof.
  intros Hv Hw E. rewrite <- (of_le_to_le_id n v), <- (of_le_to_le_id n w) by done. f_equal. unfold to_memory in E. destruct h; [done|].
  by rewrite <- (List.rev_involutive (to_le n v)), E, List.rev_involutive.
Qed.

Lemma ip_length h a : address_ok a → length_ok h a ∧ memory_of h a = getAddr h a.
Proof.
  intros Ha. unfold length_ok, memory_of. destruct a as [m|m|u|f d]; cbn [address_ok] in Ha; [| |done|done].
  - assert (E : length (getAddr h (IPv4Address m)) = 16%nat).
    { unfold getAddr. rewrite !length_app, !to_memory_length. by rewrite (proj1 (in_zero m Ha)). }
    rewrite E. split; [done|]. apply take_ge. by rewrite E.
  - assert (E : length (getAddr h (IPv6Address m)) = 28%nat).
    { unfold getAddr. rewrite !length_app, !to_memory_length. by rewrite (in6_length m Ha). }
    rewrite E. split; [done|]. apply take_ge. by rewrite E.
Qed.

Lemma getAddr_inj h a b : address_ok a → address_ok b → getAddr h a = getAddr h b → a = b.
Proof.
  intros Ha Hb E. unfold getAddr in E. apply app_inj_1 in E as [Ef E]; [|by rewrite !to_memory_length].
  destruct a as [m|m|u|f d], b as [m'|m'|u'|f' d']; try done; cbn [address_ok getFamily] in *; try by destruct h.
  - apply app_inj_1 in E as [E1 E]; [|by rewrite !to_memory_length]. apply app_inj_1 in E as [E2 E3]; [|by rewrite !to_memory_length].
    apply (to_memory_inj h 2) in E1; [|apply Ha|apply Hb]. apply (to_memory_inj h 4) in E2; [|apply Ha|apply Hb].
    destruct m, m'; cbn in *; by subst.
  - apply app_inj_1 in E as [E1 E]; [|by rewrite !to_memory_length]. apply app_inj_1 in E as [E2 E]; [|by rewrite !to_memory_length].
    apply app_inj_1 in E as [E3 E4]; [|by rewrite (in6_length m Ha), (in6_length m' Hb)].
    apply (to_memory_inj h 2) in E1; [|apply Ha|apply Hb]. apply (to_memory_inj h 4) in E2; [|apply Ha|apply Hb].
    apply (to_memory_inj h 4) in E4; [|apply Ha|apply Hb]. destruct m, m'; cbn in *; by subst.
Qed.

(** Comparing addresses.  [operator<] is the lexicographic order of the bytes
    of the addresses (with lengths within their memory): a strict total order
    up to [operator==], which holds exactly when the bytes are the same.  On
    IP addresses, of either family, [operator==] is equality. *)
Theorem address_order h a b c (Ha : length_ok h a) (Hb : length_ok h b) (Hc : length_ok h c) :
  addr_less h a b = bytes_lt (memory_of h a) (memory_of h b) ∧
  addr_less h a a = false ∧ (addr_less h a b = true → addr_less h b c = true → addr_less h a c = true) ∧
  (addr_less h a b = true ∨ addr_equal h a b = true ∨ addr_less h b a = true) ∧
  (addr_equal h a b = true ↔ memory_of h a = memory_of h b) ∧
  (address_ok a → address_ok b → addr_equal h a b = true ↔ a = b).
Proof.
  rewrite !less_is_lt, equal_is_eq by done. split_and!; [done|apply bytes_lt_irrefl|apply bytes_lt_trans|apply bytes_lt_total|done..|].
  intros Ha' Hb'. rewrite (proj2 (ip_length h a Ha')), (proj2 (ip_length h b Hb')). split; [by apply getAddr_inj|by intros ->].
Qed.

(** ** Unix paths *)

(** A path is stored and given back, a name of the abstract space with its null character shown as [\0]; an empty path
    is shown as such a name too. *)
Lemma unix_paths path : nul ∉ path →
  (path ≠ [] → (length path <= 107)%nat → ∃ u, new_UnixAddress path = Ok u ∧ unix_getPath u = Ok path) ∧
  ((length path <= 107)%nat → ∃ u, new_UnixAddress (nul :: path) = Ok u ∧ unix_getPath u = Ok (str "\0" ++ path)) ∧
  ((108 <= length path)%nat → new_UnixAddress path = Fail OutOfRange) ∧
  ∃ u, new_UnixAddress [] = Ok u ∧ unix_getPath u = Ok (str "\0").
Proof.
  intros Hn. assert (Hc : ∀ n, c_str (path ++ replicate (S n) nul) = path).
  { intros n. clear -Hn. induction path as [|c path IH]; [done|]. apply not_elem_of_cons in Hn as [Hc Hn]. cbn [app c_str].
    rewrite decide_False by done. f_equal. by apply IH. }
  split; [|split; [|split]].
  - intros Hne Hlen. destruct path as [|c path]; [done|]. unfold new_UnixAddress, sun_path_size, sun_offset.
    apply not_elem_of_cons in Hn as [Hcn Hn]. rewrite decide_False by done.
    destruct (Z.gtb_spec (Z.of_nat (length (c :: path)) + 1) 108); [lia|]. eexists. split; [reflexivity|].
    unfold unix_getPath. cbn [sun_path]. rewrite (bool_decide_false (head _ = _)) by (cbn; congruence). rewrite andb_false_r.
    replace (108 - length (c :: path))%nat with (S (107 - length (c :: path))) by lia. by rewrite Hc.
  - intros Hlen. unfold new_UnixAddress, sun_path_size, sun_offset. rewrite decide_True by done.
    destruct (Z.gtb_spec (Z.of_nat (length (nul :: path)) + 1 - 1) 108); [cbn [length] in *; lia|]. eexists. split; [reflexivity|].
    unfold unix_getPath, sun_path_size, sun_offset. cbn [sun_path m_length app head]. rewrite bool_decide_true by done.
    destruct (Z.gtb_spec (Z.of_nat (length (nul :: path)) + 1 - 1 + 2) 2); [|cbn [length] in *; lia]. cbn [andb].
    replace (Z.of_nat (length (nul :: path)) + 1 - 1 + 2 - 2 - 1) with (Z.of_nat (length path)) by (cbn [length]; lia).
    destruct (Z.gtb_spec (Z.of_nat (length path)) (108 - 1)); [lia|]. rewrite Nat2Z.id.
    rewrite skipn_cons, drop_0. by rewrite take_app_length.
  - intros Hlen. destruct path as [|c path]; [cbn in Hlen; lia|]. unfold new_UnixAddress, sun_path_size.
    apply not_elem_of_cons in Hn as [Hcn Hn]. rewrite decide_False by done.
    by destruct (Z.gtb_spec (Z.of_nat (length (c :: path)) + 1) 108); [|lia].
  - by eexists.
Qed.

(** ** A numeric resolver *)

Definition numeric_results (h : bool) (node : text) (port family : Z) : option (list sockaddr) :=
  let p := of_memory h (rev (to_le 2 port)) in
  if decide (colon ∈ node) then
    if decide (family = AF_INET6 ∨ family = AF_UNSPEC) then
      gs ← read_ipv6 node; Some (replicate 3 (sa_in6 (mkIn6 p 0 (group_bytes gs) 0)))
    else None
  else
    if decide (family = AF_INET ∨ family = AF_UNSPEC) then
      bs ← read_ipv4 node; Some (replicate 3 (sa_in (mkIn p (of_memory h bs) (replicate 8 0))))
    else None.

(** A resolver of numeric notations, and a machine with one interface of each family. *)
Definition numeric_resolver (h : bool) : Resolver := {|
  getaddrinfo flags node service family type_ protocol :=
    match service with
    | Some service => port ← read_port service; numeric_results h node port family
    | None => numeric_results h node 0 family
    end;
  inet_pton family t := if decide (family = AF_INET) then read_ipv4 t else group_bytes <$> read_ipv6 t;
  getifaddrs := Some [mkIfaddrs (str "eth0") (Some (sa_in (new_IPv4Address h (10 * 2 ^ 24 + 7) 0)))
    (Some (sa_in (new_IPv4Address h (2 ^ 32 - 2 ^ 8) 0)))]
|}.

Lemma split_at_chars sep t c : c ∈ t → c = sep ∨ Exists (λ x, c ∈ x) (split_at sep t).
Proof.
  induction t as [|d t IH]; intros Hc; [by apply elem_of_nil in Hc|]. cbn [split_at]. destruct (decide (d = sep)) as [->|Hd].
  - apply elem_of_cons in Hc as [->|Hc]; [by left|]. destruct (IH Hc) as [?|?]; [by left|right; by constructor 2].
  - apply elem_of_cons in Hc as [->|Hc].
    + right. destruct (split_at sep t) as [|x xs]; constructor 1; by left.
    + destruct (IH Hc) as [?|He]; [by left|]. right. destruct (split_at sep t) as [|x xs]; [by inversion He|].
      inversion He; subst; [constructor 1; by right|by constructor 2].
Qed.

Lemma ipv4_no_colon t bs : read_ipv4 t = Some bs → colon ∉ t.
Proof.
  unfold read_ipv4. destruct (mapM (read_decimal 256) (split_at dot t)) as [l|] eqn:E; [|done]. intros _ Hc.
  destruct (split_at_chars dot t colon Hc) as [?|He]; [done|]. apply mapM_Some in E.
  apply Exists_exists in He as (x & Hx & Hcx). apply list_elem_of_lookup in Hx as [i Hi].
  destruct (Forall2_lookup_l _ _ _ _ _ E Hi) as (v & _ & Hv). unfold read_decimal in Hv.
  destruct (bool_decide (x ≠ [])); [|done]. destruct (forallb is_digit x) eqn:Ed; [|done].
  rewrite forallb_forall in Ed. apply list_elem_of_In in Hcx. by apply Ed in Hcx.
Qed.

Lemma numeric_resolver_laws h : ResolverLaws (H := numeric_resolver h) h.
Proof.
  split.
  - intros node service family ty pr bs port _ Hb Hp Hf. exists 2%nat. cbn [getaddrinfo numeric_resolver]. rewrite Hp.
    cbn [mbind option_bind]. unfold numeric_results. rewrite decide_False by (by eapply ipv4_no_colon). by rewrite decide_True, Hb.
  - intros node service family ty pr gs port _ Hg Hp Hf. exists 2%nat. cbn [getaddrinfo numeric_resolver]. rewrite Hp.
    cbn [mbind option_bind]. unfold numeric_results. rewrite decide_True; [by rewrite decide_True, Hg|].
    destruct (ipv6_two_colons _ _ Hg) as (t1 & t2 & t3 & -> & _). rewrite elem_of_app, elem_of_cons. auto.
  - intros t bs Hb. cbn. by rewrite Hb.
  - intros t gs Hg. cbn. by rewrite Hg.
Qed.

(** ** Witnesses *)

Definition sample_in : sockaddr_in := new_IPv4Address true (192 * 2 ^ 24 + 168 * 2 ^ 16 + 5) 8080.
Definition sample_in6 : sockaddr_in6 := IPv6_of_bytes true [254; 128; 0; 0; 0; 0; 0; 0; 1; 2; 3; 4; 0; 0; 0; 7] 80.

Lemma sample_in_ok : in_ok sample_in.
Proof. split; [by vm_compute|by vm_compute|split; [done|apply (zeros_ok 8)]]. Qed.

Lemma sample_in6_ok : in6_ok sample_in6.
Proof. split; [by vm_compute|done| |done|done]. cbn. by rewrite !Forall_cons, Forall_nil. Qed.

Lemma address_text_roundtrip_witness :
  LookupAny (H := numeric_resolver true) (str "192.168.0.5:8080") AF_INET 0 0 = Some (IPv4Address sample_in) ∧
  LookupAny (H := numeric_resolver true) (str "[fe80::102:304:0:7]:80") AF_INET6 0 0 = Some (IPv6Address sample_in6).
Proof.
  destruct (@address_text_roundtrip true (numeric_resolver true) (numeric_resolver_laws true) 0 0 (conj (or_introl eq_refl) eq_refl)) as [H4 H6]. split.
  - destruct (H4 sample_in AF_INET sample_in_ok eq_refl (or_introl eq_refl)) as (E & _). exact E.
  - destruct (H6 sample_in6 AF_INET6 sample_in6_ok eq_refl eq_refl (or_introl eq_refl)) as (E & _). exact E.
Defined.

(** 192.168.0.5 with 24 bits: the broadcast address is 192.168.0.255, but the network address comes out as 0.0.0.5. *)
Lemma subnets_witness : ∃ b n, IPv4_broadcastAddress true 24 sample_in = Ok (Some b) ∧ IPv4_networdAddress true 24 sample_in = Ok (Some n) ∧
  ip4 true b = 192 * 2 ^ 24 + 168 * 2 ^ 16 + 255 ∧ ip4 true n = 5.
Proof.
  destruct (subnets true sample_in sample_in6 24 sample_in_ok sample_in6_ok) as (H & _); [split; [done|reflexivity]|].
  destruct H as (b & n & m & Eb & En & _ & Hb & Hn & _); [split; done|]. exists b, n.
  split; [exact Eb|split; [exact En|split; [rewrite Hb; reflexivity|rewrite Hn; reflexivity]]].
Defined.

Lemma address_types_witness : IPv4_getPort true (IPv4_setPort true 443 sample_in) = 443 ∧ in6_ok new_IPv6Address.
Proof.
  destruct (address_types true sample_in sample_in6 7 (s6_addr sample_in6) 443 24 sample_in_ok sample_in6_ok)
    as (_ & (_ & _ & E) & _ & _ & E6 & _).
  - split; [done|reflexivity].
  - split; [reflexivity|]. apply sample_in6_ok.
  - split; [done|reflexivity].
  - split; [done|reflexivity].
  - exact (conj E E6).
Defined.

Lemma address_order_witness : addr_equal true (IPv4Address sample_in) (IPv4Address sample_in) = true ∧
  addr_less true (IPv4Address sample_in) (IPv4Address sample_in) = false.
Proof.
  pose proof (proj1 (ip_length true (IPv4Address sample_in) sample_in_ok)) as Hl.
  destruct (address_order true (IPv4Address sample_in) (IPv4Address sample_in) (IPv4Address sample_in) Hl Hl Hl) as (_ & E & _ & _ & _ & H).
  split; [|exact E]. apply H; [exact sample_in_ok|exact sample_in_ok|reflexivity].
Defined.
