(* ===== verification/Log.v ===== *)
(** * Log: levels, patterns and loggers ([sylar/log.cc], [log.h])

    A pattern is parsed once into the items that print the parts of an event;
    a logger passes an event to its appenders, or to the root logger when it
    has none.  Loggers are kept by name, appenders by their address. *)

From S2P Require Import Prelude.
From S2P Require Export Text.

(** ** Levels *)

Inductive LogLevel := UNKNOW | DEBUG | INFO | WARN | ERROR | FATAL.

#[export] Instance level_eq_dec : EqDecision LogLevel.
Proof. solve_decision. Defined.

Definition level_number (l : LogLevel) : Z :=
  match l with UNKNOW => 0 | DEBUG => 1 | INFO => 2 | WARN => 3 | ERROR => 4 | FATAL => 5 end.

Definition LogLevel_ToString (level : LogLevel) : text :=
  match level with
  | DEBUG => str "DEBUG" | INFO => str "INFO" | WARN => str "WARN" | ERROR => str "ERROR" | FATAL => str "FATAL"
  | UNKNOW => str "UNKNOW"
  end.

Definition LogLevel_FromString (s : text) : LogLevel :=
  if decide (s = str "debug") then DEBUG else if decide (s = str "info") then INFO
  else if decide (s = str "warn") then WARN else if decide (s = str "error") then ERROR
  else if decide (s = str "fatal") then FATAL
  else if decide (s = str "DEBUG") then DEBUG else if decide (s = str "INFO") then INFO
  else if decide (s = str "WARN") then WARN else if decide (s = str "ERROR") then ERROR
  else if decide (s = str "FATAL") then FATAL
  else UNKNOW.

(** ** Events and items *)

(** [LogEvent]; its logger is known by its name. *)
Record LogEvent := mkLogEvent {
  m_file : text;
  m_line : Z;
  m_elapse : Z;
  m_threadId : Z;
  m_fiberId : Z;
  m_time : Z;
  m_threadName : text;
  m_content : text;
  m_logger : text;
  ev_level : LogLevel
}.

Inductive FormatItem :=
  | MessageFormatItem | LevelFormatItem | ElapseFormatItem | NameFormatItem | ThreadIdFormatItem | NewLineFormatItem
  | DateTimeFormatItem (format : text) | FilenameFormatItem | LineFormatItem | TabFormatItem | FiberIdFormatItem
  | ThreadNameFormatItem | StringFormatItem (s : text).

Definition signed_text (v : Z) : text := if v <? 0 then str "-" ++ to_string (Z.to_nat (- v)) else to_string (Z.to_nat v).

(** [FormatItem::format]; [strftime] of the local time is an argument. *)
Definition item_format (strftime : text → Z → text) (item : FormatItem) (level : LogLevel) (event : LogEvent) : text :=
  match item with
  | MessageFormatItem => m_content event
  | LevelFormatItem => LogLevel_ToString level
  | ElapseFormatItem => signed_text (m_elapse event)
  | NameFormatItem => m_logger event
  | ThreadIdFormatItem => signed_text (m_threadId event)
  | NewLineFormatItem => [newline]
  | DateTimeFormatItem format => strftime format (m_time event)
  | FilenameFormatItem => m_file event
  | LineFormatItem => signed_text (m_line event)
  | TabFormatItem => ["009"%char]
  | FiberIdFormatItem => signed_text (m_fiberId event)
  | ThreadNameFormatItem => m_threadName event
  | StringFormatItem s => s
  end.

(** ** Patterns *)

Definition percent_sign : ascii := "%"%char.
Definition open_brace : ascii := "{"%char.
Definition close_brace : ascii := "}"%char.

Definition isalpha (c : ascii) : bool :=
  let n := nat_of_ascii c in ((65 <=? n) && (n <=? 90) || (97 <=? n) && (n <=? 122))%nat.

(** [s.substr(pos, len)] *)
Definition substr (pos len : nat) (s : text) : text := take len (drop pos s).

(** The inner loop of [init], after the [%] at [i]: [rest] is the pattern from [n] on. *)
Fixpoint scan_directive (m_pattern : text) (i : nat) (rest : text) (n : nat) (fmt_status : Z) (fmt_begin : nat) (s fmt : text) :
    text * text * Z * nat :=
  match rest with
  | [] => (s, fmt, fmt_status, n)
  | c :: rest' =>
      if (fmt_status =? 0) && negb (isalpha c) && bool_decide (c ≠ open_brace) && bool_decide (c ≠ close_brace) then
        (substr (i + 1) (n - i - 1) m_pattern, fmt, fmt_status, n)
      else if (fmt_status =? 0) && bool_decide (c = open_brace) then
        scan_directive m_pattern i rest' (n + 1) 1 n (substr (i + 1) (n - i - 1) m_pattern) fmt
      else if (fmt_status =? 1) && bool_decide (c = close_brace) then
        (s, substr (fmt_begin + 1) (n - fmt_begin - 1) m_pattern, 0, (n + 1)%nat)
      else
        let n := (n + 1)%nat in
        let s := if (n =? length m_pattern)%nat && bool_decide (s = []) then drop (i + 1) m_pattern else s in
        scan_directive m_pattern i rest' n fmt_status fmt_begin s fmt
  end.

(** What the outer loop collects: a literal (0), or a directive (1) with its format. *)
Record pattern_part := mkPart { part_str : text; part_fmt : text; part_type : Z }.

Definition flush (nstr : text) : list pattern_part := if decide (nstr = []) then [] else [mkPart nstr [] 0].

(** The outer loop from [i] on, with the literal so far; the flag is [m_error]. *)
Fixpoint parse_pattern (fuel : nat) (m_pattern : text) (i : nat) (nstr : text) (vec : list pattern_part) (m_error : bool) :
    result (list pattern_part * bool) :=
  match m_pattern !! i with
  | None => Ok (vec ++ flush nstr, m_error)
  | Some c =>
      match fuel with
      | O => Fail NoFuel
      | S fuel' =>
          if bool_decide (c ≠ percent_sign) then parse_pattern fuel' m_pattern (i + 1) (nstr ++ [c]) vec m_error
          else if bool_decide (m_pattern !! (i + 1)%nat = Some percent_sign) then
            parse_pattern fuel' m_pattern (i + 1) (nstr ++ [percent_sign]) vec m_error
          else
            let '(s, fmt, fmt_status, n) := scan_directive m_pattern i (drop (i + 1) m_pattern) (i + 1) 0 0 [] [] in
            if fmt_status =? 0 then
              parse_pattern fuel' m_pattern n [] (vec ++ flush nstr ++ [mkPart s fmt 1]) m_error
            else
              parse_pattern fuel' m_pattern (i + 1) nstr (vec ++ [mkPart (str "<<pattern_error>>") fmt 0]) true
      end
  end.

(** [s_format_items] *)
Definition s_format_items (name fmt : text) : option FormatItem :=
  match name with
  | [c] =>
      if decide (c = "m"%char) then Some MessageFormatItem else if decide (c = "p"%char) then Some LevelFormatItem
      else if decide (c = "r"%char) then Some ElapseFormatItem else if decide (c = "c"%char) then Some NameFormatItem
      else if decide (c = "t"%char) then Some ThreadIdFormatItem else if decide (c = "n"%char) then Some NewLineFormatItem
      else if decide (c = "d"%char) then
        Some (DateTimeFormatItem (if decide (fmt = []) then str "%Y-%m-%d %H:%M:%S" else fmt))
      else if decide (c = "f"%char) then Some FilenameFormatItem else if decide (c = "l"%char) then Some LineFormatItem
      else if decide (c = "T"%char) then Some TabFormatItem else if decide (c = "F"%char) then Some FiberIdFormatItem
      else if decide (c = "N"%char) then Some ThreadNameFormatItem
      else None
  | _ => None
  end.

(** The item of a part, and whether it is an error. *)
Definition part_item (p : pattern_part) : FormatItem * bool :=
  if part_type p =? 0 then (StringFormatItem (part_str p), false)
  else match s_format_items (part_str p) (part_fmt p) with
       | None => (StringFormatItem (str "<<error_format %" ++ part_str p ++ str ">>"), true)
       | Some item => (item, false)
       end.

Record LogFormatter := mkLogFormatter { m_pattern : text; m_items : list FormatItem; m_error : bool }.

(** The constructor, with [init]. *)
Definition new_LogFormatter (pattern : text) : result LogFormatter :=
  r ← parse_pattern (length pattern) pattern 0 [] [] false;
  let '(vec, err) := (r : list pattern_part * bool) in
  Ok (mkLogFormatter pattern (map (λ p, (part_item p).1) vec) (err || existsb (λ p, (part_item p).2) vec)).

(** [format] *)
Definition formatter_format (strftime : text → Z → text) (f : LogFormatter) (level : LogLevel) (event : LogEvent) : text :=
  concat (map (λ item, item_format strftime item level event) (m_items f)).

(** ** Appenders and loggers *)

Inductive appender_kind := StdoutLogAppender | FileLogAppender (m_filename : text).

(** [LogAppender]; [m_lastTime] is used by files only. *)
Record LogAppender := mkAppender {
  ap_kind : appender_kind;
  ap_level : LogLevel;
  m_hasFormatter : bool;
  ap_formatter : option LogFormatter;
  m_lastTime : Z
}.

(** [Logger]; [m_root] is null or the root logger. *)
Record Logger := mkLogger {
  m_name : text;
  m_level : LogLevel;
  m_appenders : list positive;
  lg_formatter : option LogFormatter;
  m_root : bool
}.

Record LoggerManager := mkManager {
  m_loggers : gmap text Logger;
  m_async : bool;
  log_appenders : gmap positive LogAppender
}.

Abbreviation ML A := (M LoggerManager A).

Definition new_LogAppender (kind : appender_kind) : LogAppender := mkAppender kind DEBUG false None 0.

Definition root_name : text := str "root".

Definition default_pattern : text := str "%d{%Y-%m-%d %H:%M:%S}%T%t%T%N:%F%T[%p]%T[%c]%T%f:%l%T%m%n".

Definition new_Logger (name : text) : result Logger :=
  match new_LogFormatter default_pattern with
  | Ok f => Ok (mkLogger name DEBUG [] (Some f) false)
  | Fail e => Fail e
  end.

Definition deref_logger (name : text) : ML Logger :=
  s ← gets id; match m_loggers s !! name with Some l => mret l | None => fail BadPointer end.

Definition deref_appender (a : positive) : ML LogAppender :=
  s ← gets id; match log_appenders s !! a with Some x => mret x | None => fail BadPointer end.

Definition put_logger (name : text) (l : Logger) : ML unit :=
  modify (λ s, mkManager (<[name := l]> (m_loggers s)) (m_async s) (log_appenders s)).

Definition put_appender (a : positive) (x : LogAppender) : ML unit :=
  modify (λ s, mkManager (m_loggers s) (m_async s) (<[a := x]> (log_appenders s))).

Definition set_ap_formatter (f : option LogFormatter) (x : LogAppender) : LogAppender :=
  mkAppender (ap_kind x) (ap_level x) (m_hasFormatter x) f (m_lastTime x).

Definition set_appenders (l : list positive) (lg : Logger) : Logger :=
  mkLogger (m_name lg) (m_level lg) l (lg_formatter lg) (m_root lg).

(** [LogAppender::setFormatter] and [setLevel] *)
Definition appender_setFormatter (a : positive) (val : option LogFormatter) : ML unit :=
  x ← deref_appender a;
  put_appender a (mkAppender (ap_kind x) (ap_level x) (match val with Some _ => true | None => false end) val (m_lastTime x)).

Definition appender_setLevel (a : positive) (val : LogLevel) : ML unit :=
  x ← deref_appender a; put_appender a (mkAppender (ap_kind x) val (m_hasFormatter x) (ap_formatter x) (m_lastTime x)).

Definition logger_setLevel (name : text) (val : LogLevel) : ML unit :=
  l ← deref_logger name; put_logger name (mkLogger (m_name l) val (m_appenders l) (lg_formatter l) (m_root l)).

Definition addAppender (name : text) (a : positive) : ML unit :=
  l ← deref_logger name;
  x ← deref_appender a;
  match ap_formatter x with
  | None => put_appender a (set_ap_formatter (lg_formatter l) x)
  | Some _ => mret tt
  end ;;
  put_logger name (set_appenders (m_appenders l ++ [a]) l).

Fixpoint erase_first (a : positive) (l : list positive) : list positive :=
  match l with
  | [] => []
  | x :: l' => if decide (x = a) then l' else x :: erase_first a l'
  end.

Definition delAppender (name : text) (a : positive) : ML unit :=
  l ← deref_logger name; put_logger name (set_appenders (erase_first a (m_appenders l)) l).

Definition clearAppenders (name : text) : ML unit :=
  l ← deref_logger name; put_logger name (set_appenders [] l).

(** [Logger::setFormatter(LogFormatter::ptr)]: also for the appenders that have none of their own. *)
Definition logger_setFormatter (name : text) (val : option LogFormatter) : ML unit :=
  l ← deref_logger name;
  put_logger name (mkLogger (m_name l) (m_level l) (m_appenders l) val (m_root l)) ;;
  for_each (m_appenders l) (λ a,
    x ← deref_appender a;
    if m_hasFormatter x then mret tt else put_appender a (set_ap_formatter val x)).

(** [Logger::setFormatter(const std::string&)]: a pattern with errors is refused. *)
Definition logger_setPattern (name val : text) : ML unit :=
  match new_LogFormatter val with
  | Ok new_val => if m_error new_val then mret tt else logger_setFormatter name (Some new_val)
  | Fail e => fail e
  end.

(** [LoggerManager::getLogger] *)
Definition getLogger (name : text) : ML Logger :=
  s ← gets id;
  match m_loggers s !! name with
  | Some l => mret l
  | None =>
      match new_Logger name with
      | Ok l => let l := mkLogger (m_name l) (m_level l) (m_appenders l) (lg_formatter l) true in
                put_logger name l ;; mret l
      | Fail e => fail e
      end
  end.

(** ** Logging *)

Section logging.
Context (strftime : text → Z → text).

(** [LogAppender::log] of both classes: what is written. *)
Definition appender_log (a : positive) (level : LogLevel) (event : LogEvent) : ML (list (positive * text)) :=
  x ← deref_appender a;
  if level_number level >=? level_number (ap_level x) then
    match ap_kind x with
    | FileLogAppender _ =>
        if m_time event >=? (m_lastTime x + 3) mod 2 ^ 64 then
          put_appender a (mkAppender (ap_kind x) (ap_level x) (m_hasFormatter x) (ap_formatter x) (m_time event))
        else mret tt
    | StdoutLogAppender => mret tt
    end ;;
    match ap_formatter x with
    | Some f => mret [(a, formatter_format strftime f level event)]
    | None => fail BadPointer
    end
  else mret [].

Fixpoint log_to (appenders : list positive) (level : LogLevel) (event : LogEvent) : ML (list (positive * text)) :=
  match appenders with
  | [] => mret []
  | a :: appenders' => out ← appender_log a level event; rest ← log_to appenders' level event; mret (out ++ rest)
  end.

(** [logInternal]; the root logger has no root. *)
Definition logInternal (name : text) (level : LogLevel) (event : LogEvent) : ML (list (positive * text)) :=
  l ← deref_logger name;
  match m_appenders l with
  | _ :: _ => log_to (m_appenders l) level event
  | [] =>
      if m_root l then
        root ← deref_logger root_name;
        if level_number level >=? level_number (m_level root) then log_to (m_appenders root) level event else mret []
      else mret []
  end.

(** [Logger::log]: dropped, handed to the asynchronous logger, or written. *)
Inductive log_outcome := Dropped | Dispatched (event : LogEvent) | Written (out : list (positive * text)).

Definition Logger_log (name : text) (level : LogLevel) (event : LogEvent) : ML log_outcome :=
  l ← deref_logger name;
  if level_number level <? level_number (m_level l) then mret Dropped
  else
    s ← gets id;
    if m_async s then mret (Dispatched event)
    else out ← logInternal name level event; mret (Written out).
End logging.

(** The constructor of [LoggerManager]: the root logger with its appender at the address 1, and [setAsync(true)]. *)
Definition new_LoggerManager : result LoggerManager :=
  root ← new_Logger root_name;
  let out := set_ap_formatter (lg_formatter root) (new_LogAppender StdoutLogAppender) in
  Ok (mkManager {[root_name := set_appenders [1%positive] root]} true {[1%positive := out]}).

(** [setAsync]: the call made on the asynchronous logger, if any. *)
Inductive async_call := call_start | call_stop.

Definition setAsync (val : bool) : ML (option async_call) :=
  s ← gets id;
  if Bool.eqb val (m_async s) then mret None
  else modify (λ s, mkManager (m_loggers s) val (log_appenders s)) ;; mret (Some (if val then call_start else call_stop)).

(** ** The configuration of the loggers *)

(** [type]: 1 for a file, 2 for the standard output. *)
Record LogAppenderDefine := mkAppenderDefine {
  lad_type : Z;
  lad_level : LogLevel;
  lad_formatter : text;
  lad_file : text
}.

Record LogDefine := mkLogDefine {
  ld_name : text;
  ld_level : LogLevel;
  ld_formatter : text;
  ld_appenders : list LogAppenderDefine
}.

#[export] Instance appender_define_eq_dec : EqDecision LogAppenderDefine.
Proof. solve_decision. Defined.
#[export] Instance log_define_eq_dec : EqDecision LogDefine.
Proof. solve_decision. Defined.

Definition find_define (name : text) (l : list LogDefine) : option LogDefine := head (filter (λ d, ld_name d = name) l).

(** A new appender with its level and, when the pattern is valid, its formatter. *)
Definition make_appender (ap : positive) (kind : appender_kind) (a : LogAppenderDefine) : ML unit :=
  put_appender ap (new_LogAppender kind) ;;
  appender_setLevel ap (lad_level a) ;;
  if decide (lad_formatter a = []) then mret tt
  else match new_LogFormatter (lad_formatter a) with
       | Ok fmt => if m_error fmt then mret tt else appender_setFormatter ap (Some fmt)
       | Fail e => fail e
       end.

(** [d] is whether the process runs as a daemon, without standard output; an unknown type leaves a null pointer. *)
Definition apply_appender (d : bool) (name : text) (a : LogAppenderDefine) : ML unit :=
  s ← gets id;
  let ap := fresh (dom (log_appenders s)) in
  if lad_type a =? 1 then make_appender ap (FileLogAppender (lad_file a)) a ;; addAppender name ap
  else if lad_type a =? 2 then if d then mret tt else make_appender ap StdoutLogAppender a ;; addAppender name ap
  else fail BadPointer.

(** A definition that is new or changed. *)
Definition apply_define (d : bool) (i : LogDefine) : ML unit :=
  getLogger (ld_name i) ;;
  logger_setLevel (ld_name i) (ld_level i) ;;
  (if decide (ld_formatter i = []) then mret tt else logger_setPattern (ld_name i) (ld_formatter i)) ;;
  clearAppenders (ld_name i) ;;
  for_each (ld_appenders i) (apply_appender d (ld_name i)).

(** The listener of the configuration variable [logs]. *)
Definition on_logs_changed (d : bool) (old_value new_value : list LogDefine) : ML unit :=
  for_each new_value (λ i,
    match find_define (ld_name i) old_value with
    | None => apply_define d i
    | Some it => if decide (i = it) then mret tt else apply_define d i
    end) ;;
  for_each old_value (λ i,
    match find_define (ld_name i) new_value with
    | None => getLogger (ld_name i) ;; logger_setLevel (ld_name i) UNKNOW ;; clearAppenders (ld_name i)
    | Some _ => mret tt
    end).
