(* ===== verification/LogProps.v ===== *)
(** * LogProps: patterns, where events go, and the configuration of loggers *)

From S2P Require Import Prelude.
From S2P Require Export Log.

(** Concatenations in one normal form. *)
Ltac flat_app := repeat first [rewrite <- app_assoc | progress cbn [app]].

(** ** Patterns made of pieces *)

(** A literal, or a directive with its name and perhaps a format in braces. *)
Inductive piece := Lit (t : text) | Dir (name : text) (fmt : option text).

Definition piece_render (p : piece) : text :=
  match p with
  | Lit t => t
  | Dir name None => percent_sign :: name
  | Dir name (Some f) => percent_sign :: name ++ open_brace :: f ++ [close_brace]
  end.

Definition render (ps : list piece) : text := concat (map piece_render ps).

(** A character that ends the name of a directive. *)
Definition ends_name (c : ascii) : Prop := isalpha c = false ∧ c ≠ open_brace ∧ c ≠ close_brace.

(** Literals without percent signs, names of letters, formats without closing braces; a name without a format is not
    followed by a letter or a brace. *)
Fixpoint pieces_ok (ps : list piece) : Prop :=
  match ps with
  | [] => True
  | Lit t :: ps' => t ≠ [] ∧ (percent_sign ∉ t) ∧ match ps' with Lit _ :: _ => False | _ => True end ∧ pieces_ok ps'
  | Dir name fmt :: ps' =>
      name ≠ [] ∧ Forall (λ c, isalpha c = true) name ∧
      match fmt with
      | Some f => close_brace ∉ f
      | None => ∀ c, head (render ps') = Some c → ends_name c
      end ∧ pieces_ok ps'
  end.

Definition piece_part (p : piece) : pattern_part :=
  match p with Lit t => mkPart t [] 0 | Dir name fmt => mkPart name (default [] fmt) 1 end.

(** What a piece prints, and whether it is not known. *)
Definition piece_text (strftime : text → Z → text) (level : LogLevel) (event : LogEvent) (p : piece) : text :=
  match p with
  | Lit t => t
  | Dir name fmt =>
      match s_format_items name (default [] fmt) with
      | Some item => item_format strftime item level event
      | None => str "<<error_format %" ++ name ++ str ">>"
      end
  end.

Definition unknown (p : piece) : bool :=
  match p with Lit _ => false | Dir name fmt => bool_decide (s_format_items name (default [] fmt) = None) end.

(** ** The inner loop *)

Lemma substr_mid (pre t post : text) : substr (length pre) (length t) (pre ++ t ++ post) = t.
Proof. unfold substr. rewrite drop_app_length. apply take_app_length. Qed.

Lemma isalpha_braces c : isalpha c = true → c ≠ open_brace ∧ c ≠ close_brace ∧ c ≠ percent_sign.
Proof. intros H. split_and!; intros ->; done. Qed.

(** Letters are passed over; at the end of the pattern they are the name. *)
Lemma scan_letters P i name : Forall (λ c, isalpha c = true) name → ∀ rest n fb fmt,
  (n + length name + length rest = length P)%nat → rest ≠ [] →
  scan_directive P i (name ++ rest) n 0 fb [] fmt = scan_directive P i rest (n + length name) 0 fb [] fmt.
Proof.
  induction 1 as [|c name Hc Hname IH]; intros rest n fb fmt Hlen Hrest; cbn [app length]; [by rewrite Nat.add_0_r|].
  destruct (isalpha_braces c Hc) as (Ho & Hcl & _). cbn [scan_directive]. rewrite Hc, (bool_decide_false (c = open_brace)) by done.
  cbn [Z.eqb negb andb]. cbn [length] in Hlen. destruct rest as [|d rest]; [done|].
  rewrite (proj2 (Nat.eqb_neq (n + 1) (length P))) by (cbn [length] in Hlen; lia). cbn [andb].
  rewrite IH; [f_equal; lia|lia|done].
Qed.

Lemma scan_to_end P i name : Forall (λ c, isalpha c = true) name → name ≠ [] → ∀ n fb fmt,
  (n + length name = length P)%nat → scan_directive P i name n 0 fb [] fmt = (drop (i + 1) P, fmt, 0, length P).
Proof.
  intros Hname Hne n fb fmt Hlen. destruct (exists_last Hne) as (name' & c & ->).
  apply Forall_app in Hname as [Hname [Hc _]%Forall_cons]. rewrite length_app in Hlen. cbn [length] in Hlen.
  rewrite scan_letters by (done || (cbn [length]; lia)). destruct (isalpha_braces c Hc) as (Ho & Hcl & _). cbn [scan_directive].
  rewrite Hc, (bool_decide_false (c = open_brace)) by done. cbn [Z.eqb negb andb].
  rewrite (proj2 (Nat.eqb_eq (n + length name' + 1) (length P))) by lia. cbn [andb].
  rewrite bool_decide_true by done. by replace (n + length name' + 1)%nat with (length P) by lia.
Qed.

Lemma scan_format P i f : close_brace ∉ f → ∀ rest n fb s fmt, (n + length f + 1 + length rest = length P)%nat →
  scan_directive P i (f ++ close_brace :: rest) n 1 fb s fmt =
    (s, substr (fb + 1) (n + length f - fb - 1) P, 0, (n + length f + 1)%nat).
Proof.
  induction f as [|c f IH]; intros Hf rest n fb s fmt Hlen; cbn [app length].
  - cbn [scan_directive]. rewrite !bool_decide_true by done. cbn [Z.eqb negb andb]. by rewrite Nat.add_0_r.
  - apply not_elem_of_cons in Hf as [Hc Hf]. cbn [scan_directive]. rewrite (bool_decide_false (c = close_brace)) by done.
    cbn [Z.eqb negb andb]. cbn [length] in Hlen. rewrite (proj2 (Nat.eqb_neq (n + 1) (length P))) by lia. cbn [andb].
    rewrite IH by (done || lia). f_equal; [f_equal; f_equal; f_equal; lia|lia].
Qed.

(** The directive at the end of [pre]. *)
Lemma scan_piece pre name fmt rest : name ≠ [] → Forall (λ c, isalpha c = true) name →
  match fmt with Some f => close_brace ∉ f | None => ∀ c, head rest = Some c → ends_name c end →
  let P := pre ++ piece_render (Dir name fmt) ++ rest in
  scan_directive P (length pre) (drop (length pre + 1) P) (length pre + 1) 0 0 [] [] =
    (name, default [] fmt, 0, length (pre ++ piece_render (Dir name fmt))).
Proof.
  intros Hne Hname Hfmt P. assert (Hmid : ∀ post, P = pre ++ percent_sign :: name ++ post → substr (length pre + 1) (length name) P = name).
  { intros post ->. change (pre ++ percent_sign :: name ++ post) with (pre ++ [percent_sign] ++ name ++ post). rewrite app_assoc.
    replace (length pre + 1)%nat with (length (pre ++ [percent_sign])) by (rewrite length_app; done). apply substr_mid. }
  assert (Hdrop : ∀ u, P = pre ++ percent_sign :: u → drop (length pre + 1) P = u).
  { intros u ->. change (percent_sign :: u) with ([percent_sign] ++ u). rewrite app_assoc. apply drop_app_length'. by rewrite length_app. }
  destruct fmt as [f|]; unfold P in *; cbn [piece_render app] in *.
  - specialize (Hmid _ ltac:(by rewrite <- app_assoc)). rewrite (Hdrop _ eq_refl).
    set (Q := pre ++ percent_sign :: (name ++ open_brace :: f ++ [close_brace]) ++ rest) in *.
    assert (Hlen : length Q = (length pre + 1 + length name + 1 + length f + 1 + length rest)%nat).
    { unfold Q. rewrite !length_app. cbn [length]. rewrite !length_app. cbn [length]. rewrite !length_app. cbn. lia. }
    rewrite <- app_assoc. rewrite scan_letters; [|done| |done]; [|cbn [app length]; rewrite !length_app; cbn [length]; lia].
    cbn [app scan_directive]. rewrite (bool_decide_false (open_brace ≠ open_brace)) by (intros C; by apply C).
    rewrite (bool_decide_true (open_brace = open_brace)) by done. cbn [Z.eqb negb andb]. rewrite andb_false_r. cbn [andb].
    rewrite <- app_assoc. cbn [app]. rewrite scan_format by (done || lia).
    replace (length pre + 1 + length name - length pre - 1)%nat with (length name) by lia. rewrite Hmid.
    replace (length pre + 1 + length name + 1 + length f - (length pre + 1 + length name) - 1)%nat with (length f) by lia.
    assert (Hf : substr (length pre + 1 + length name + 1) (length f) Q = f).
    { unfold Q. replace (pre ++ percent_sign :: (name ++ open_brace :: f ++ [close_brace]) ++ rest)
        with ((pre ++ percent_sign :: name ++ [open_brace]) ++ f ++ close_brace :: rest).
      - replace (length pre + 1 + length name + 1)%nat with (length (pre ++ percent_sign :: name ++ [open_brace])).
        + apply substr_mid.
        + rewrite length_app. cbn [length]. rewrite length_app. cbn. lia.
      - by flat_app. }
    rewrite Hf. cbn [default]. f_equal. rewrite length_app. cbn [length]. rewrite length_app. cbn [length]. rewrite length_app. cbn. lia.
  - rewrite (Hdrop (name ++ rest)) by (by flat_app).
    set (Q := pre ++ percent_sign :: name ++ rest) in *.
    assert (Hlen : length Q = (length pre + 1 + length name + length rest)%nat).
    { unfold Q. rewrite length_app. cbn [length]. rewrite length_app. lia. }
    assert (Hend : length (pre ++ percent_sign :: name) = (length pre + 1 + length name)%nat).
    { rewrite length_app. cbn. lia. }
    rewrite Hend. destruct rest as [|c rest].
    + rewrite app_nil_r. cbn [length] in Hlen. rewrite scan_to_end by (done || lia). cbn [default].
      rewrite (Hdrop name) by (unfold Q; by rewrite app_nil_r). f_equal. lia.
    + rewrite scan_letters by (done || lia). destruct (Hfmt c eq_refl) as (Ha & Ho & Hcl). cbn [scan_directive].
      rewrite Ha, !bool_decide_true by done. cbn [Z.eqb negb andb].
      replace (length pre + 1 + length name - length pre - 1)%nat with (length name) by lia. by rewrite (Hmid (c :: rest)).
Qed.

(** ** The outer loop *)

Lemma parse_literal P pre t rest fuel nstr vec err : P = pre ++ t ++ rest → percent_sign ∉ t → (length t <= fuel)%nat →
  parse_pattern fuel P (length pre) nstr vec err = parse_pattern (fuel - length t) P (length (pre ++ t)) (nstr ++ t) vec err.
Proof.
  revert pre fuel nstr. induction t as [|c t IH]; intros pre fuel nstr EP Ht Hf.
  - by rewrite !app_nil_r, Nat.sub_0_r.
  - apply not_elem_of_cons in Ht as [Hc Ht]. destruct fuel as [|fuel]; [cbn in Hf; lia|].
    assert (Hat : P !! length pre = Some c) by (rewrite EP; cbn [app]; apply list_lookup_middle; done).
    cbn [parse_pattern]. rewrite Hat, bool_decide_true by done.
    replace (length pre + 1)%nat with (length (pre ++ [c])) by (rewrite length_app; done).
    rewrite IH; [|rewrite EP; by flat_app|done|cbn in Hf; lia]. cbn [length Nat.sub]. by flat_app.
Qed.

Lemma parse_end P fuel nstr vec err : parse_pattern fuel P (length P) nstr vec err = Ok (vec ++ flush nstr, err).
Proof. destruct fuel; cbn [parse_pattern]; by rewrite lookup_ge_None_2. Qed.

Lemma render_head_dir name fmt ps c : head (render (Dir name fmt :: ps)) = Some c → c = percent_sign.
Proof. destruct fmt; cbn; congruence. Qed.

Lemma parse_pieces ps : pieces_ok ps → ∀ P pre fuel nstr vec err, P = pre ++ render ps → (length (render ps) <= fuel)%nat →
  (nstr = [] ∨ match ps with Lit _ :: _ => False | _ => True end) →
  parse_pattern fuel P (length pre) nstr vec err = Ok (vec ++ flush nstr ++ map piece_part ps, err).
Proof.
  induction ps as [|[t|name fmt] ps IH]; intros Hok P pre fuel nstr vec err EP Hf Hn.
  - unfold render in EP. cbn in EP. rewrite app_nil_r in EP. subst P. rewrite parse_end. by rewrite app_nil_r.
  - destruct Hok as (Hne & Ht & Hnext & Hok). destruct Hn as [-> | []].
    change (render (Lit t :: ps)) with (t ++ render ps) in *. rewrite length_app in Hf.
    rewrite (parse_literal P pre t (render ps)) by (done || lia). rewrite IH; [|done|subst P; by flat_app|lia|by right].
    unfold flush. rewrite decide_False by done. rewrite (decide_True (P := [] = [])) by done. done.
  - destruct Hok as (Hne & Hname & Hfmt & Hok). change (render (Dir name fmt :: ps)) with (piece_render (Dir name fmt) ++ render ps) in *.
    assert (Hhead : ∃ u, piece_render (Dir name fmt) = percent_sign :: name ++ u) by
      (destruct fmt as [f|]; [by exists (open_brace :: f ++ [close_brace])|exists []; by rewrite app_nil_r]).
    destruct Hhead as [u Hu]. rewrite length_app, Hu in Hf. cbn [length] in Hf. rewrite length_app in Hf.
    destruct fuel as [|fuel]; [lia|]. destruct name as [|c name]; [done|].
    pose proof (Forall_inv Hname) as Hc. cbn beta in Hc.
    assert (Hat : P !! length pre = Some percent_sign) by (rewrite EP, Hu; cbn [app]; by apply list_lookup_middle).
    assert (Hat1 : P !! (length pre + 1)%nat = Some c).
    { rewrite EP, Hu. cbn [app]. change (percent_sign :: c :: (name ++ u) ++ render ps) with ([percent_sign] ++ c :: (name ++ u) ++ render ps).
      rewrite app_assoc. apply list_lookup_middle. by rewrite length_app. }
    cbn [parse_pattern]. rewrite Hat, Hat1. rewrite bool_decide_false by (intros C; by apply C).
    rewrite bool_decide_false by (intros [= ->]; done).
    pose proof (scan_piece pre (c :: name) fmt (render ps) Hne Hname Hfmt) as Hs. cbv zeta in Hs. rewrite <- EP in Hs. rewrite Hs.
    cbn [Z.eqb]. rewrite IH; [|done|rewrite EP; by flat_app|cbn [length] in Hf; lia|by left].
    f_equal. f_equal. rewrite <- !app_assoc. unfold flush at 2. rewrite (decide_True (P := [] = [])) by done. done.
Qed.

(** ** Every pattern is parsed to its end *)

Lemma scan_progress P i rest : ∀ n st fb s fmt, (n <= (scan_directive P i rest n st fb s fmt).2)%nat.
Proof.
  induction rest as [|c rest IH]; intros n st fb s fmt; cbn [scan_directive]; [done|].
  destruct (_ && _ && _ && _); [done|]. destruct (_ && _); [specialize (IH (n + 1)%nat 1 n (substr (i + 1) (n - i - 1) P) fmt); lia|].
  destruct (_ && _); [cbn; lia|]. match goal with |- (_ <= (scan_directive P i rest ?n' ?a ?b ?s' ?f).2)%nat => specialize (IH n' a b s' f) end. lia.
Qed.

Lemma parse_total fuel P i nstr vec err : (length P <= i + fuel)%nat → ∃ r, parse_pattern fuel P i nstr vec err = Ok r.
Proof.
  revert i nstr vec err. induction fuel as [|fuel IH]; intros i nstr vec err Hf.
  - cbn [parse_pattern]. rewrite lookup_ge_None_2 by lia. by eexists.
  - cbn [parse_pattern]. destruct (P !! i) as [c|]; [|by eexists].
    destruct (bool_decide _); [apply IH; lia|]. destruct (bool_decide _); [apply IH; lia|].
    pose proof (scan_progress P i (drop (i + 1) P) (i + 1) 0 0 [] []) as Hp.
    destruct (scan_directive _ _ _ _ _ _ _ _) as [[[s fmt] st] n]. cbn in Hp. destruct (st =? 0); apply IH; lia.
Qed.

Lemma new_formatter_total pattern : ∃ f, new_LogFormatter pattern = Ok f.
Proof.
  unfold new_LogFormatter. destruct (parse_total (length pattern) pattern 0 [] [] false) as [[vec err] E]; [lia|].
  rewrite E. by eexists.
Qed.

Lemma item_text strftime level event p : item_format strftime (part_item (piece_part p)).1 level event = piece_text strftime level event p.
Proof. destruct p as [t|name fmt]; [done|]. unfold part_item. cbn. by destruct (s_format_items name (default [] fmt)). Qed.

Lemma item_unknown p : (part_item (piece_part p)).2 = unknown p.
Proof. destruct p as [t|name fmt]; [done|]. unfold part_item. cbn. by destruct (s_format_items name (default [] fmt)). Qed.

(** (C27) Patterns.  Every pattern is parsed to its end.  A pattern written as
    literals without percent signs and directives [%name] or [%name{format}],
    where a name without a format is not followed by a letter or a brace, is
    parsed into just these pieces: what the formatter prints for an event is
    the literals and the parts of the event that the directives name, in
    order, and the pattern is an error exactly when some name is not known. *)
Theorem pattern_pieces strftime :
  (∀ pattern, ∃ f, new_LogFormatter pattern = Ok f) ∧
  ∀ ps, pieces_ok ps → ∃ f, new_LogFormatter (render ps) = Ok f ∧ m_pattern f = render ps ∧ m_error f = existsb unknown ps ∧
    ∀ level event, formatter_format strftime f level event = concat (map (piece_text strftime level event) ps).
Proof.
  split; [exact new_formatter_total|]. intros ps Hok. unfold new_LogFormatter.
  pose proof (parse_pieces ps Hok (render ps) [] (length (render ps)) [] [] false eq_refl (le_n _) (or_introl eq_refl)) as E.
  cbn [length] in E. rewrite E. cbn [mbind result_bind]. eexists. split; [reflexivity|]. cbn [m_pattern m_error m_items app].
  unfold flush. rewrite (decide_True (P := [] = [])) by done. cbn [app]. split; [done|]. split.
  - clear. induction ps as [|p ps IH]; [done|]. cbn [map existsb orb] in *. by rewrite item_unknown, IH.
  - intros level event. unfold formatter_format. cbn [m_items]. f_equal. rewrite !map_map. apply map_ext. intros p. apply item_text.
Qed.

(** ** Well-formed loggers *)

(** Every appender of a logger exists and has a formatter, no appender belongs to two loggers or twice to one, and the
    root logger is there. *)
Record log_wf (s : LoggerManager) : Prop := {
  wf_appenders name l a : m_loggers s !! name = Some l → a ∈ m_appenders l →
    ∃ x, log_appenders s !! a = Some x ∧ is_Some (ap_formatter x);
  wf_formatter name l : m_loggers s !! name = Some l → is_Some (lg_formatter l);
  wf_disjoint n1 l1 n2 l2 a : m_loggers s !! n1 = Some l1 → m_loggers s !! n2 = Some l2 →
    a ∈ m_appenders l1 → a ∈ m_appenders l2 → n1 = n2;
  wf_once name l : m_loggers s !! name = Some l → NoDup (m_appenders l);
  wf_root : is_Some (m_loggers s !! root_name)
}.

(** ** Where events go *)

(** What an appender writes; [m_lastTime] does not matter. *)
Definition output (strftime : text → Z → text) (s : LoggerManager) (level : LogLevel) (event : LogEvent) (a : positive) :
    option (positive * text) :=
  x ← log_appenders s !! a;
  f ← ap_formatter x;
  if level_number level >=? level_number (ap_level x) then Some (a, formatter_format strftime f level event) else None.

(** The appenders an event of a logger goes to. *)
Definition sinks (s : LoggerManager) (level : LogLevel) (l : Logger) : list positive :=
  match m_appenders l with
  | [] =>
      match m_loggers s !! root_name with
      | Some root => if m_root l && (level_number level >=? level_number (m_level root)) then m_appenders root else []
      | None => []
      end
  | l => l
  end.

Section routing.
Context (strftime : text → Z → text).

(** Only the times at which files were opened again differ. *)
Definition same_but_times (s s' : LoggerManager) : Prop :=
  m_loggers s' = m_loggers s ∧ m_async s' = m_async s ∧ ∀ a,
  (λ x, (ap_kind x, ap_level x, m_hasFormatter x, ap_formatter x)) <$> log_appenders s' !! a =
  (λ x, (ap_kind x, ap_level x, m_hasFormatter x, ap_formatter x)) <$> log_appenders s !! a.

Lemma same_refl s : same_but_times s s.
Proof. by split_and!. Qed.

Lemma same_trans s1 s2 s3 : same_but_times s1 s2 → same_but_times s2 s3 → same_but_times s1 s3.
Proof. intros (A1 & A2 & A3) (B1 & B2 & B3). split_and!; [congruence|congruence|]. intros a. by rewrite B3. Qed.

Lemma same_output s s' level event a : same_but_times s s' → output strftime s' level event a = output strftime s level event a.
Proof.
  intros (_ & _ & H). specialize (H a). unfold output.
  destruct (log_appenders s' !! a) as [x'|], (log_appenders s !! a) as [x|]; try done.
  injection H as H1 H2 H3 H4. cbn [mbind option_bind]. by rewrite H2, H4.
Qed.

Lemma deref_appender_run a x (s : LoggerManager) : log_appenders s !! a = Some x → deref_appender a s = Ok (x, s).
Proof. intros E. unfold deref_appender. run gets_run. unfold id. by rewrite E. Qed.

Lemma deref_logger_run name l (s : LoggerManager) : m_loggers s !! name = Some l → deref_logger name s = Ok (l, s).
Proof. intros E. unfold deref_logger. run gets_run. unfold id. by rewrite E. Qed.

Lemma appender_log_spec s level event a x : log_appenders s !! a = Some x → is_Some (ap_formatter x) →
  ∃ s', appender_log strftime a level event s = Ok (option_list (output strftime s level event a), s') ∧ same_but_times s s'.
Proof.
  intros Hx [f Hf].
  assert (Hput : same_but_times s (mkManager (m_loggers s) (m_async s)
    (<[a := mkAppender (ap_kind x) (ap_level x) (m_hasFormatter x) (ap_formatter x) (m_time event)]> (log_appenders s)))).
  { split_and!; [done|done|]. intros b. cbn [log_appenders]. destruct (decide (b = a)) as [->|Hne].
    - by rewrite lookup_insert_eq, Hx.
    - by rewrite lookup_insert_ne. }
  unfold appender_log. run (deref_appender_run a x s Hx). unfold output. rewrite Hx. cbn [mbind option_bind]. rewrite Hf.
  cbn [mbind option_bind]. destruct (level_number level >=? level_number (ap_level x)); [|by eexists; split; [done|apply same_refl]].
  destruct (ap_kind x) eqn:Ek; [eexists; split; [done|apply same_refl]|].
  destruct (m_time event >=? (m_lastTime x + 3) mod 2 ^ 64); (eexists; split; [reflexivity|]); [rewrite Hf in Hput; exact Hput|apply same_refl].
Qed.

Lemma log_to_spec s level event l : (∀ a, a ∈ l → ∃ x, log_appenders s !! a = Some x ∧ is_Some (ap_formatter x)) →
  ∃ s', log_to strftime l level event s = Ok (omap (output strftime s level event) l, s') ∧ same_but_times s s'.
Proof.
  revert s. induction l as [|a l IH]; intros s Hl; [by exists s; split; [|apply same_refl]|]. cbn [log_to].
  destruct (Hl a) as (x & Hx & Hf); [by left|]. destruct (appender_log_spec s level event a x Hx Hf) as (s1 & E1 & Hs1).
  rewrite (bind_run _ _ _ _ _ E1). destruct (IH s1) as (s2 & E2 & Hs2).
  { intros b Hb. destruct (Hl b) as (y & Hy & Hfy); [by right|]. destruct Hs1 as (_ & _ & H1). specialize (H1 b). rewrite Hy in H1.
    destruct (log_appenders s1 !! b) as [y'|]; [|done]. exists y'. split; [done|]. injection H1 as _ _ _ ->. done. }
  rewrite (bind_run _ _ _ _ _ E2). exists s2. split; [|by eapply same_trans].
  assert (Eo : omap (output strftime s1 level event) l = omap (output strftime s level event) l).
  { apply list_omap_ext, Forall_Forall2_diag, Forall_true. intros b. by apply same_output. }
  rewrite Eo. cbn [omap list_omap]. by destruct (output strftime s level event a).
Qed.

(** (C37) Where an event goes.  On well-formed loggers: below the level of the
    logger it is dropped; in asynchronous mode it is handed over, unchanged;
    otherwise the appenders of the logger, in the order in which they were
    added, write it with their formatters if its level reaches theirs, and a
    logger without appenders passes it to those of the root logger, provided
    the event also reaches the level of the root logger.  Logging changes no
    logger and no appender, except for the time at which a file was opened
    again. *)
Theorem event_routing s name l level event (Hwf : log_wf s) (Hl : m_loggers s !! name = Some l) :
  (level_number level < level_number (m_level l) → Logger_log strftime name level event s = Ok (Dropped, s)) ∧
  (level_number (m_level l) <= level_number level → m_async s = true →
    Logger_log strftime name level event s = Ok (Dispatched event, s)) ∧
  (level_number (m_level l) <= level_number level → m_async s = false →
    ∃ s', Logger_log strftime name level event s =
      Ok (Written (omap (output strftime s level event) (sinks s level l)), s') ∧ same_but_times s s') ∧
  ∃ s', logInternal strftime name level event s = Ok (omap (output strftime s level event) (sinks s level l), s') ∧
    same_but_times s s'.
Proof.
  assert (Hint : ∃ s', logInternal strftime name level event s =
    Ok (omap (output strftime s level event) (sinks s level l), s') ∧ same_but_times s s').
  { unfold logInternal. run (deref_logger_run name l s Hl). unfold sinks. pose proof (wf_appenders s Hwf name l) as Ha.
    destruct (m_appenders l) as [|a la] eqn:El.
    - destruct (wf_root s Hwf) as [root Hroot]. rewrite Hroot. destruct (m_root l); [|by exists s; split; [|apply same_refl]].
      run (deref_logger_run root_name root s Hroot). cbn [andb].
      destruct (level_number level >=? level_number (m_level root)); [|by exists s; split; [|apply same_refl]].
      apply log_to_spec. intros a. by apply (wf_appenders s Hwf root_name root).
    - apply log_to_spec. intros b Hb. by apply Ha. }
  unfold Logger_log. split_and!; [| | |done].
  - intros H. run (deref_logger_run name l s Hl). by rewrite (proj2 (Z.ltb_lt _ _) H).
  - intros H Has. run (deref_logger_run name l s Hl). rewrite (proj2 (Z.ltb_ge _ _) H). run gets_run. unfold id. by rewrite Has.
  - intros H Has. destruct Hint as (s' & E & Hs). exists s'. split; [|done]. run (deref_logger_run name l s Hl).
    rewrite (proj2 (Z.ltb_ge _ _) H). run gets_run. unfold id. rewrite Has. by rewrite (bind_run _ _ _ _ _ E).
Qed.
End routing.
