(* ===== verification/LogConfig.v ===== *)
(** * LogConfig: what the configuration makes of the loggers

    The listener of [logs] ([LogIniter] of [sylar/log.cc]), from the sets of
    definitions before and after a change. *)

From S2P Require Import Prelude.
From S2P Require Export LogProps.

(** ** What a definition asks for *)

(** The formatter of a pattern, unless it is empty or an error. *)
Definition own_formatter (pattern : text) : option LogFormatter :=
  if decide (pattern = []) then None
  else match new_LogFormatter pattern with Ok f => if m_error f then None else Some f | Fail _ => None end.

(** A daemon has no standard output. *)
Definition kept (d : bool) (a : LogAppenderDefine) : Prop := lad_type a = 1 ∨ (lad_type a = 2 ∧ d = false).

#[export] Instance kept_dec d a : Decision (kept d a).
Proof. unfold kept. apply _. Defined.

Definition types_ok (i : LogDefine) : Prop := Forall (λ a, lad_type a = 1 ∨ lad_type a = 2) (ld_appenders i).

Definition kind_of (a : LogAppenderDefine) : appender_kind :=
  if lad_type a =? 1 then FileLogAppender (lad_file a) else StdoutLogAppender.

(** An appender as defined; without a pattern of its own it has the formatter of the logger. *)
Definition made_from (lf : option LogFormatter) (a : LogAppenderDefine) (x : LogAppender) : Prop :=
  ap_kind x = kind_of a ∧ ap_level x = lad_level a ∧
  match own_formatter (lad_formatter a) with
  | Some f => m_hasFormatter x = true ∧ ap_formatter x = Some f
  | None => m_hasFormatter x = false ∧ ap_formatter x = lf
  end.

Definition appenders_from (s : LoggerManager) (lf : option LogFormatter) : list positive → list LogAppenderDefine → Prop :=
  Forall2 (λ a def, ∃ x, log_appenders s !! a = Some x ∧ made_from lf def x).

(** A logger as defined. *)
Definition agrees (d : bool) (s : LoggerManager) (i : LogDefine) : Prop :=
  ∃ l, m_loggers s !! ld_name i = Some l ∧ m_level l = ld_level i ∧
    (∀ f, own_formatter (ld_formatter i) = Some f → lg_formatter l = Some f) ∧
    appenders_from s (lg_formatter l) (m_appenders l) (filter (kept d) (ld_appenders i)).

(** What a change of the logger [name] leaves as it was. *)
Record others_same (name : text) (s s' : LoggerManager) : Prop := {
  same_loggers n : n ≠ name → m_loggers s' !! n = m_loggers s !! n;
  same_appenders n l a : n ≠ name → m_loggers s !! n = Some l → a ∈ m_appenders l → log_appenders s' !! a = log_appenders s !! a;
  same_async : m_async s' = m_async s
}.

(** ** Well-formedness *)

Lemma wf_put s name l l' heap : log_wf s → m_loggers s !! name = Some l → (∀ a, a ∈ m_appenders l' → a ∈ m_appenders l) →
  NoDup (m_appenders l') → is_Some (lg_formatter l') →
  (∀ a x, log_appenders s !! a = Some x → is_Some (ap_formatter x) → ∃ x', heap !! a = Some x' ∧ is_Some (ap_formatter x')) →
  log_wf (mkManager (<[name := l']> (m_loggers s)) (m_async s) heap).
Proof.
  intros [H1 H2 H3 H4 H5] Hl Hsub Hnd Hf Hheap.
  assert (Hin : ∀ n k a, <[name := l']> (m_loggers s) !! n = Some k → a ∈ m_appenders k → ∃ k0, m_loggers s !! n = Some k0 ∧ a ∈ m_appenders k0).
  { intros n k a. rewrite lookup_insert_Some. intros [[<- <-]|[_ Hk]] Ha; [by exists l; split; [|apply Hsub]|by exists k]. }
  split; cbn [m_loggers log_appenders].
  - intros n k a Hk Ha. destruct (Hin n k a Hk Ha) as (k0 & Hk0 & Ha0). destruct (H1 n k0 a Hk0 Ha0) as (x & Hx & Hxf). by apply (Hheap a x).
  - intros n k. rewrite lookup_insert_Some. intros [[<- <-]|[_ Hk]]; [done|by apply (H2 n)].
  - intros n1 k1 n2 k2 a Hk1 Hk2 Ha1 Ha2. destruct (Hin _ _ _ Hk1 Ha1) as (? & ? & ?), (Hin _ _ _ Hk2 Ha2) as (? & ? & ?). by eapply H3.
  - intros n k. rewrite lookup_insert_Some. intros [[<- <-]|[_ Hk]]; [done|by apply (H4 n)].
  - destruct (decide (name = root_name)) as [->|Hne]; [by rewrite lookup_insert_eq; eexists|by rewrite lookup_insert_ne].
Qed.

Lemma wf_add s name l a x : log_wf s → m_loggers s !! name = Some l → log_appenders s !! a = None → is_Some (ap_formatter x) →
  log_wf (mkManager (<[name := set_appenders (m_appenders l ++ [a]) l]> (m_loggers s)) (m_async s) (<[a := x]> (log_appenders s))).
Proof.
  intros [H1 H2 H3 H4 H5] Hl Hnone Hx.
  assert (Hnew : ∀ n k, m_loggers s !! n = Some k → a ∉ m_appenders k).
  { intros n k Hk Ha. destruct (H1 n k a Hk Ha) as (y & Hy & _). congruence. }
  assert (Hcase : ∀ n k b, <[name := set_appenders (m_appenders l ++ [a]) l]> (m_loggers s) !! n = Some k → b ∈ m_appenders k →
    (b = a ∧ n = name) ∨ (b ≠ a ∧ ∃ k0, m_loggers s !! n = Some k0 ∧ b ∈ m_appenders k0)).
  { intros n k b. rewrite lookup_insert_Some. intros [[<- <-]|[Hn Hk]] Hb.
    - cbn [m_appenders set_appenders] in Hb. apply elem_of_app in Hb as [Hb|Hb%list_elem_of_singleton]; [|by left].
      right. split; [intros ->; by apply (Hnew name l)|by exists l].
    - right. split; [intros ->; by apply (Hnew n k)|by exists k]. }
  split; cbn [m_loggers log_appenders].
  - intros n k b Hk Hb. destruct (Hcase n k b Hk Hb) as [[-> ->]|(Hne & k0 & Hk0 & Hb0)].
    + exists x. by rewrite lookup_insert_eq.
    + rewrite lookup_insert_ne by done. by apply (H1 n k0).
  - intros n k. rewrite lookup_insert_Some. intros [[<- <-]|[_ Hk]]; [by apply (H2 name l)|by apply (H2 n)].
  - intros n1 k1 n2 k2 b Hk1 Hk2 Hb1 Hb2.
    destruct (Hcase _ _ _ Hk1 Hb1) as [[-> ->]|(Hne & k & Hk & Hb)], (Hcase _ _ _ Hk2 Hb2) as [[E ->]|(Hne' & k' & Hk' & Hb')]; try done.
    by eapply H3.
  - intros n k. rewrite lookup_insert_Some. intros [[<- <-]|[_ Hk]]; [|by apply (H4 n)]. cbn [m_appenders set_appenders].
    apply NoDup_app. split; [by apply (H4 name)|]. split; [|apply NoDup_singleton]. intros b Hb ->%list_elem_of_singleton. by apply (Hnew name l).
  - destruct (decide (name = root_name)) as [->|Hne]; [by rewrite lookup_insert_eq; eexists|by rewrite lookup_insert_ne].
Qed.

(** ** One appender *)

Lemma own_formatter_case pattern :
  (pattern = [] ∧ own_formatter pattern = None) ∨
  (pattern ≠ [] ∧ ∃ f, new_LogFormatter pattern = Ok f ∧ own_formatter pattern = if m_error f then None else Some f).
Proof.
  unfold own_formatter. destruct (decide (pattern = [])) as [E|E]; [by left|right]. split; [done|].
  destruct (new_formatter_total pattern) as [f Hf]. exists f. by rewrite Hf.
Qed.

(** What [apply_appender] makes. *)
Definition made_appender (lf : option LogFormatter) (a : LogAppenderDefine) : LogAppender :=
  match own_formatter (lad_formatter a) with
  | Some f => mkAppender (kind_of a) (lad_level a) true (Some f) 0
  | None => mkAppender (kind_of a) (lad_level a) false lf 0
  end.

Lemma made_appender_ok lf a : made_from lf a (made_appender lf a).
Proof. unfold made_from, made_appender. by destruct (own_formatter (lad_formatter a)). Qed.

Section runs.
Context (s : LoggerManager).

Definition with_appender (a : positive) (x : LogAppender) : LoggerManager :=
  mkManager (m_loggers s) (m_async s) (<[a := x]> (log_appenders s)).

Definition with_logger (name : text) (l : Logger) : LoggerManager :=
  mkManager (<[name := l]> (m_loggers s)) (m_async s) (log_appenders s).

Lemma setLevel_run a x val : log_appenders s !! a = Some x →
  appender_setLevel a val s = Ok (tt, with_appender a (mkAppender (ap_kind x) val (m_hasFormatter x) (ap_formatter x) (m_lastTime x))).
Proof. intros Hx. unfold appender_setLevel. by run (deref_appender_run a x s Hx). Qed.

Lemma setFormatter_run a x f : log_appenders s !! a = Some x →
  appender_setFormatter a (Some f) s = Ok (tt, with_appender a (mkAppender (ap_kind x) (ap_level x) true (Some f) (m_lastTime x))).
Proof. intros Hx. unfold appender_setFormatter. by run (deref_appender_run a x s Hx). Qed.

Lemma addAppender_run name l a x : m_loggers s !! name = Some l → log_appenders s !! a = Some x →
  addAppender name a s = Ok (tt, mkManager (<[name := set_appenders (m_appenders l ++ [a]) l]> (m_loggers s)) (m_async s)
    (<[a := match ap_formatter x with None => set_ap_formatter (lg_formatter l) x | Some _ => x end]> (log_appenders s))).
Proof.
  intros Hl Hx. unfold addAppender. run (deref_logger_run name l s Hl). run (deref_appender_run a x s Hx).
  destruct (ap_formatter x); [|done]. rewrite (bind_run _ _ s tt s) by done. by rewrite (insert_id (log_appenders s) a x).
Qed.

Lemma logger_setLevel_run name l val : m_loggers s !! name = Some l →
  logger_setLevel name val s = Ok (tt, with_logger name (mkLogger (m_name l) val (m_appenders l) (lg_formatter l) (m_root l))).
Proof. intros Hl. unfold logger_setLevel. by run (deref_logger_run name l s Hl). Qed.

Lemma clearAppenders_run name l : m_loggers s !! name = Some l →
  clearAppenders name s = Ok (tt, with_logger name (set_appenders [] l)).
Proof. intros Hl. unfold clearAppenders. by run (deref_logger_run name l s Hl). Qed.
End runs.

(** A new appender with its level and, when its pattern is one, its formatter. *)
Lemma make_appender_run s ap a kind : kind = kind_of a →
  make_appender ap kind a s = Ok (tt, with_appender s ap (made_appender None a)).
Proof.
  intros ->. unfold make_appender. set (s1 := with_appender s ap (new_LogAppender (kind_of a))). rewrite (bind_run _ _ s tt s1) by done.
  assert (H1 : log_appenders s1 !! ap = Some (new_LogAppender (kind_of a))) by apply lookup_insert_eq.
  run (setLevel_run s1 ap _ (lad_level a) H1). set (s2 := with_appender s1 ap _).
  assert (E2 : s2 = with_appender s ap (mkAppender (kind_of a) (lad_level a) false None 0)).
  { unfold s2, s1, with_appender. cbn [m_loggers m_async log_appenders]. by rewrite insert_insert_eq. }
  rewrite E2. unfold made_appender. destruct (own_formatter_case (lad_formatter a)) as [[E Eo]|[E (f & Ef & Eo)]]; rewrite Eo.
  - by rewrite decide_True.
  - rewrite decide_False, Ef by done. destruct (m_error f); [done|]. erewrite setFormatter_run by apply lookup_insert_eq.
    unfold with_appender. cbn [m_loggers m_async log_appenders]. by rewrite insert_insert_eq.
Qed.

Lemma apply_appender_run d name s l a : m_loggers s !! name = Some l → lad_type a = 1 ∨ lad_type a = 2 →
  apply_appender d name a s = Ok (tt,
    if decide (kept d a) then
      let ap := fresh (dom (log_appenders s)) in
      mkManager (<[name := set_appenders (m_appenders l ++ [ap]) l]> (m_loggers s)) (m_async s)
        (<[ap := made_appender (lg_formatter l) a]> (log_appenders s))
    else s).
Proof.
  intros Hl Ht. unfold apply_appender. set (ap := fresh (dom (log_appenders s))).
  assert (Hadd : addAppender name ap (with_appender s ap (made_appender None a)) =
    Ok (tt, mkManager (<[name := set_appenders (m_appenders l ++ [ap]) l]> (m_loggers s)) (m_async s)
      (<[ap := made_appender (lg_formatter l) a]> (log_appenders s)))).
  { erewrite addAppender_run; [|exact Hl|apply lookup_insert_eq]. unfold with_appender. cbn [m_loggers m_async log_appenders].
    rewrite insert_insert_eq. unfold made_appender. by destruct (own_formatter (lad_formatter a)). }
  run gets_run. unfold id. fold ap. cbv zeta. destruct Ht as [Ht|Ht].
  - rewrite decide_True by (by left). rewrite (proj2 (Z.eqb_eq _ _) Ht).
    rewrite (bind_run _ _ _ _ _ (make_appender_run s ap a (FileLogAppender (lad_file a)) ltac:(unfold kind_of; by rewrite Ht))).
    exact Hadd.
  - rewrite (proj2 (Z.eqb_neq (lad_type a) 1)), (proj2 (Z.eqb_eq _ _) Ht) by lia. destruct d.
    + rewrite decide_False by (intros [?|[? ?]]; [lia|done]). done.
    + rewrite decide_True by (by right).
      rewrite (bind_run _ _ _ _ _ (make_appender_run s ap a StdoutLogAppender ltac:(unfold kind_of; by rewrite Ht))). exact Hadd.
Qed.

(** ** All appenders of a definition *)

Lemma set_appenders_twice k k' l : set_appenders k (set_appenders k' l) = set_appenders k l.
Proof. done. Qed.

Lemma apply_appenders d name defs : Forall (λ a, lad_type a = 1 ∨ lad_type a = 2) defs →
  ∀ s l, log_wf s → m_loggers s !! name = Some l → ∃ new heap,
    let s' := mkManager (<[name := set_appenders (m_appenders l ++ new) l]> (m_loggers s)) (m_async s) heap in
    for_each defs (apply_appender d name) s = Ok (tt, s') ∧ log_wf s' ∧
    (∀ a x, log_appenders s !! a = Some x → heap !! a = Some x) ∧
    appenders_from s' (lg_formatter l) new (filter (kept d) defs).
Proof.
  induction 1 as [|a defs Ha Hdefs IH]; intros s l Hwf Hl; cbn [for_each].
  - exists [], (log_appenders s). cbv zeta.
    assert (E : mkManager (<[name := set_appenders (m_appenders l ++ []) l]> (m_loggers s)) (m_async s) (log_appenders s) = s).
    { rewrite app_nil_r. replace (set_appenders (m_appenders l) l) with l by (by destruct l). rewrite insert_id by done. by destruct s. }
    rewrite E. split_and!; [done|done|done|constructor].
  - pose proof (apply_appender_run d name s l a Hl Ha) as Erun. rewrite (bind_run _ _ _ _ _ Erun). rewrite filter_cons.
    destruct (decide (kept d a)) as [Hk|Hk]; [|by apply IH].
    set (ap := fresh (dom (log_appenders s))). cbv zeta. set (x := made_appender (lg_formatter l) a).
    set (l1 := set_appenders (m_appenders l ++ [ap]) l). set (s1 := mkManager _ _ _).
    assert (Hnone : log_appenders s !! ap = None) by (apply not_elem_of_dom, is_fresh).
    assert (Hwf1 : log_wf s1).
    { apply wf_add; [done|done|done|]. pose proof (wf_formatter s Hwf name l Hl) as Hf. unfold x, made_appender.
      by destruct (own_formatter (lad_formatter a)). }
    destruct (IH s1 l1 Hwf1) as (new & heap & E & Hwf2 & Hkeep & Hnew); [apply lookup_insert_eq|].
    cbn [m_loggers m_async s1] in E, Hwf2, Hnew. rewrite insert_insert_eq in E, Hwf2, Hnew. unfold l1 in E, Hwf2, Hnew.
    rewrite set_appenders_twice in E, Hwf2, Hnew. cbn [m_appenders set_appenders] in E, Hwf2, Hnew. rewrite <- app_assoc in E, Hwf2, Hnew.
    exists (ap :: new), heap. split_and!; [done|done| |].
    + intros b y Hy. apply Hkeep. cbn [s1 log_appenders]. rewrite lookup_insert_ne; [done|]. intros ->. congruence.
    + constructor; [|done]. exists x. split; [|apply made_appender_ok]. apply Hkeep, lookup_insert_eq.
Qed.

(** ** The formatter of a logger *)

(** Every appender of the list gets the formatter, unless it has its own. *)
Lemma setFormatter_loop f l : ∀ s, (∀ a, a ∈ l → is_Some (log_appenders s !! a)) → ∃ heap,
  for_each l (λ a, x ← deref_appender a; if m_hasFormatter x then mret tt else put_appender a (set_ap_formatter (Some f) x)) s =
    Ok (tt, mkManager (m_loggers s) (m_async s) heap) ∧
  (∀ a, a ∉ l → heap !! a = log_appenders s !! a) ∧
  (∀ a x, log_appenders s !! a = Some x → is_Some (ap_formatter x) → ∃ x', heap !! a = Some x' ∧ is_Some (ap_formatter x')).
Proof.
  induction l as [|a l IH]; intros s Hin; cbn [for_each].
  - exists (log_appenders s). split_and!; [by destruct s|done|]. intros a x Hx Hf. by exists x.
  - destruct (Hin a) as [x Hx]; [by left|]. rewrite (bind_assoc (deref_appender a)). run (deref_appender_run a x s Hx).
    destruct (m_hasFormatter x).
    + rewrite (bind_run _ _ s tt s) by done. destruct (IH s) as (heap & E & Hout & Hf); [intros b Hb; apply Hin; by right|].
      exists heap. split_and!; [done| |done]. intros b Hb. apply Hout. intros Hbl. apply Hb. by right.
    + set (s1 := with_appender s a (set_ap_formatter (Some f) x)). rewrite (bind_run _ _ s tt s1) by done.
      destruct (IH s1) as (heap & E & Hout & Hf).
      { intros b Hb. cbn [s1 with_appender log_appenders]. destruct (decide (b = a)) as [->|Hne].
        - rewrite lookup_insert_eq. by eexists.
        - rewrite lookup_insert_ne by done. apply Hin. by right. }
      exists heap. split_and!; [done| |].
      * intros b Hb. apply not_elem_of_cons in Hb as [Hne Hb]. rewrite Hout by done. cbn [s1 with_appender log_appenders].
        by rewrite lookup_insert_ne.
      * intros b y Hy Hyf. destruct (decide (b = a)) as [->|Hne].
        -- apply (Hf a (set_ap_formatter (Some f) x)); [apply lookup_insert_eq|by eexists].
        -- apply (Hf b y); [|done]. cbn [s1 with_appender log_appenders]. by rewrite lookup_insert_ne.
Qed.

Definition with_formatter (pattern : text) (l : Logger) : Logger :=
  match own_formatter pattern with
  | Some f => mkLogger (m_name l) (m_level l) (m_appenders l) (Some f) (m_root l)
  | None => l
  end.

Lemma setPattern_run s name l pattern : log_wf s → m_loggers s !! name = Some l → ∃ heap,
  (if decide (pattern = []) then mret tt else logger_setPattern name pattern) s =
    Ok (tt, mkManager (<[name := with_formatter pattern l]> (m_loggers s)) (m_async s) heap) ∧
  (∀ a, a ∉ m_appenders l → heap !! a = log_appenders s !! a) ∧
  (∀ a x, log_appenders s !! a = Some x → is_Some (ap_formatter x) → ∃ x', heap !! a = Some x' ∧ is_Some (ap_formatter x')).
Proof.
  intros Hwf Hl. unfold with_formatter. assert (Hsame : own_formatter pattern = None → ∃ heap, Ok (tt, s) =
    Ok (tt, mkManager (<[name := l]> (m_loggers s)) (m_async s) heap) ∧ (∀ a, a ∉ m_appenders l → heap !! a = log_appenders s !! a) ∧
    (∀ a x, log_appenders s !! a = Some x → is_Some (ap_formatter x) → ∃ x', heap !! a = Some x' ∧ is_Some (ap_formatter x'))).
  { intros _. exists (log_appenders s). rewrite insert_id by done. split_and!; [by destruct s|done|]. intros a x Hx Hf. by exists x. }
  destruct (own_formatter_case pattern) as [[E Eo]|[E (f & Ef & Eo)]]; rewrite Eo in Hsame |- *.
  - rewrite decide_True by done. by apply Hsame.
  - rewrite decide_False by done. unfold logger_setPattern. rewrite Ef. destruct (m_error f); [by apply Hsame|].
    unfold logger_setFormatter. run (deref_logger_run name l s Hl).
    set (s1 := with_logger s name (mkLogger (m_name l) (m_level l) (m_appenders l) (Some f) (m_root l))).
    rewrite (bind_run _ _ s tt s1) by done. destruct (setFormatter_loop f (m_appenders l) s1) as (heap & Erun & Hout & Hf).
    { intros a Ha. destruct (wf_appenders s Hwf name l a Hl Ha) as (x & Hx & _). by exists x. }
    by exists heap.
Qed.

(** ** A definition that is applied *)

Lemma getLogger_run s name : log_wf s → ∃ l, getLogger name s = Ok (l, with_logger s name l) ∧ log_wf (with_logger s name l) ∧
  (m_loggers s !! name = Some l ∨ (m_loggers s !! name = None ∧ m_appenders l = [])).
Proof.
  intros Hwf. unfold getLogger. run gets_run. unfold id. destruct (m_loggers s !! name) as [l|] eqn:El.
  - exists l. assert (E : with_logger s name l = s) by (unfold with_logger; rewrite insert_id by done; by destruct s).
    rewrite E. split_and!; [done|done|by left].
  - unfold new_Logger. destruct (new_formatter_total default_pattern) as [f ->]. cbn [m_name m_level m_appenders lg_formatter].
    set (l := mkLogger name DEBUG [] (Some f) true). exists l. split_and!; [done| |by right].
    destruct Hwf as [H1 H2 H3 H4 H5]. assert (Hcase : ∀ n k, m_loggers (with_logger s name l) !! n = Some k →
      (n = name ∧ k = l) ∨ m_loggers s !! n = Some k).
    { intros n k. cbn [with_logger m_loggers]. rewrite lookup_insert_Some. intros [[-> ->]|[_ Hk]]; [by left|by right]. }
    split.
    + intros n k a Hk Ha. destruct (Hcase n k Hk) as [[-> ->]|Hk']; [by apply elem_of_nil in Ha|by apply (H1 n k)].
    + intros n k Hk. destruct (Hcase n k Hk) as [[-> ->]|Hk']; [by eexists|by apply (H2 n)].
    + intros n1 k1 n2 k2 a Hk1 Hk2 Ha1 Ha2.
      destruct (Hcase _ _ Hk1) as [[-> ->]|Hk1']; [by apply elem_of_nil in Ha1|].
      destruct (Hcase _ _ Hk2) as [[-> ->]|Hk2']; [by apply elem_of_nil in Ha2|]. by eapply H3.
    + intros n k Hk. destruct (Hcase n k Hk) as [[-> ->]|Hk']; [constructor|by apply (H4 n)].
    + cbn [with_logger m_loggers]. destruct (decide (name = root_name)) as [->|Hne]; [by rewrite lookup_insert_eq; eexists|by rewrite lookup_insert_ne].
Qed.

Lemma with_logger_twice s name l l' : with_logger (with_logger s name l) name l' = with_logger s name l'.
Proof. unfold with_logger. cbn [m_loggers m_async log_appenders]. by rewrite insert_insert_eq. Qed.

Lemma wf_with s name l l' : log_wf s → m_loggers s !! name = Some l → (m_appenders l' = m_appenders l ∨ m_appenders l' = []) →
  is_Some (lg_formatter l') → log_wf (with_logger s name l').
Proof.
  intros Hwf Hl Ha Hf. apply (wf_put s name l); [done|done| | |done|intros a x Hx Hxf; by exists x].
  - intros a. destruct Ha as [-> | ->]; [done|]. by intros ?%elem_of_nil.
  - destruct Ha as [-> | ->]; [by apply (wf_once s Hwf name)|constructor].
Qed.

Lemma apply_define_spec d i s : log_wf s → types_ok i →
  ∃ s', apply_define d i s = Ok (tt, s') ∧ log_wf s' ∧ agrees d s' i ∧ others_same (ld_name i) s s'.
Proof.
  intros Hwf Htypes. unfold apply_define. set (name := ld_name i). destruct (getLogger_run s name Hwf) as (l & E1 & Hwf1 & Hl).
  rewrite (bind_run _ _ _ _ _ E1). assert (Hl1 : m_loggers (with_logger s name l) !! name = Some l) by apply lookup_insert_eq.
  rewrite (bind_run _ _ _ _ _ (logger_setLevel_run _ name l (ld_level i) Hl1)). rewrite with_logger_twice.
  set (l2 := mkLogger (m_name l) (ld_level i) (m_appenders l) (lg_formatter l) (m_root l)). set (s2 := with_logger s name l2).
  assert (Hl2 : m_loggers s2 !! name = Some l2) by apply lookup_insert_eq.
  assert (Hf : is_Some (lg_formatter l)) by apply (wf_formatter _ Hwf1 name l Hl1).
  assert (Hwf2 : log_wf s2).
  { unfold s2. rewrite <- (with_logger_twice s name l l2). apply (wf_with _ name l); [done|done|by left|done]. }
  destruct (setPattern_run s2 name l2 (ld_formatter i) Hwf2 Hl2) as (heap & E3 & Hout & Hheap). rewrite (bind_run _ _ _ _ _ E3).
  set (l3 := with_formatter (ld_formatter i) l2) in *. set (s3 := mkManager _ _ heap) in *.
  assert (Ha3 : m_appenders l3 = m_appenders l) by (unfold l3, with_formatter; by destruct (own_formatter (ld_formatter i))).
  assert (Hf3 : is_Some (lg_formatter l3)) by (unfold l3, with_formatter; by destruct (own_formatter (ld_formatter i))).
  assert (Hl3 : m_loggers s3 !! name = Some l3) by apply lookup_insert_eq.
  assert (Hwf3 : log_wf s3).
  { apply (wf_put s2 name l2); [done|done|by rewrite Ha3| |done|exact Hheap]. rewrite Ha3. by apply (wf_once _ Hwf1 name). }
  rewrite (bind_run _ _ _ _ _ (clearAppenders_run s3 name l3 Hl3)). set (s4 := with_logger s3 name (set_appenders [] l3)).
  assert (Hwf4 : log_wf s4) by (apply (wf_with s3 name l3); [done|done|by right|done]).
  destruct (apply_appenders d name (ld_appenders i) Htypes s4 (set_appenders [] l3) Hwf4) as (new & heap' & E5 & Hwf5 & Hkeep & Hnew);
    [apply lookup_insert_eq|]. cbn [m_appenders set_appenders app] in E5, Hwf5, Hnew.
  eexists. split; [exact E5|]. split; [exact Hwf5|]. split.
  - exists (set_appenders new l3). split; [apply lookup_insert_eq|]. split; [|split; [|exact Hnew]].
    + unfold l3, with_formatter. cbn. by destruct (own_formatter (ld_formatter i)).
    + intros f Hown. cbn. unfold l3, with_formatter. by rewrite Hown.
  - split; [| |done].
    + intros n Hn. cbn [m_loggers s4 with_logger s3 s2]. by rewrite !lookup_insert_ne by done.
    + intros n k a Hn Hk Ha. cbn [log_appenders]. assert (Hnl : a ∉ m_appenders l).
      { intros Hal. destruct Hl as [Hl|[_ Hl]]; [|rewrite Hl in Hal; by apply elem_of_nil in Hal]. by apply Hn, (wf_disjoint s Hwf n k name l a). }
      destruct (wf_appenders s Hwf n k a Hk Ha) as (x & Hx & _). rewrite Hx. apply Hkeep. cbn [log_appenders s4 with_logger s3].
      rewrite Hout by done. done.
Qed.

(** ** A change of the configuration *)

Lemma agrees_same d s s' i : agrees d s i → m_loggers s' !! ld_name i = m_loggers s !! ld_name i →
  (∀ l a, m_loggers s !! ld_name i = Some l → a ∈ m_appenders l → log_appenders s' !! a = log_appenders s !! a) → agrees d s' i.
Proof.
  intros (l & Hl & Hlev & Hfmt & Hall) Elog Eapp. exists l. rewrite Elog. split_and!; [done|done|done|].
  unfold appenders_from in *. assert (Hsame : ∀ a, a ∈ m_appenders l → log_appenders s' !! a = log_appenders s !! a) by (intros a; by apply Eapp).
  clear Eapp. revert Hsame. induction Hall as [|a def la ld (x & Hx & Hm) Hall IH]; intros Hsame; constructor.
  - exists x. split; [|done]. rewrite Hsame; [done|by left].
  - apply IH. intros b Hb. apply Hsame. by right.
Qed.

(** Loggers that no change is about. *)
Record untouched (names : list text) (s s' : LoggerManager) : Prop := {
  untouched_loggers n : n ∉ names → m_loggers s' !! n = m_loggers s !! n;
  untouched_appenders n l a : n ∉ names → m_loggers s !! n = Some l → a ∈ m_appenders l → log_appenders s' !! a = log_appenders s !! a;
  untouched_async : m_async s' = m_async s
}.

Lemma untouched_refl names s : untouched names s s.
Proof. by split. Qed.

Lemma untouched_step name names s1 s2 s3 : others_same name s1 s2 → untouched names s2 s3 → untouched (name :: names) s1 s3.
Proof.
  intros [H1 H2 H3] [K1 K2 K3]. split; [| |congruence].
  - intros n [Hn Hns]%not_elem_of_cons. by rewrite K1, H1.
  - intros n l a [Hn Hns]%not_elem_of_cons Hl Ha. rewrite (K2 n l); [by apply (H2 n l)|done|by rewrite H1|done].
Qed.

Lemma untouched_weaken name names s1 s2 : untouched names s1 s2 → untouched (name :: names) s1 s2.
Proof. intros [K1 K2 K3]. split; [| |done]; intros n; [intros [? ?]%not_elem_of_cons; by apply K1|intros l a [? ?]%not_elem_of_cons; by apply K2]. Qed.

Lemma agrees_untouched d s s' i names : agrees d s i → untouched names s s' → ld_name i ∉ names → agrees d s' i.
Proof.
  intros Hag [K1 K2 K3] Hn. apply (agrees_same d s); [done|by apply K1|]. intros l a. by apply K2.
Qed.

Lemma find_define_Some name l i : find_define name l = Some i → i ∈ l ∧ ld_name i = name.
Proof.
  unfold find_define. intros E. assert (Hin : i ∈ filter (λ d, ld_name d = name) l).
  { destruct (filter (λ d, ld_name d = name) l) as [|j k]; [done|]. injection E as ->. by left. }
  by apply list_elem_of_filter in Hin as [? ?].
Qed.

(** The definitions that are new or changed. *)
Lemma change_new d old new : NoDup (map ld_name new) → Forall types_ok new → ∀ s, log_wf s →
  (∀ i, i ∈ new → i ∈ old → agrees d s i) →
  ∃ s', for_each new (λ i,
      match find_define (ld_name i) old with
      | None => apply_define d i
      | Some it => if decide (i = it) then mret tt else apply_define d i
      end) s = Ok (tt, s') ∧ log_wf s' ∧ (∀ i, i ∈ new → agrees d s' i) ∧ untouched (map ld_name new) s s'.
Proof.
  intros Hnd Htypes. induction Htypes as [|i new Hi Htypes IH]; intros s Hwf Hag; cbn [for_each map].
  - exists s. split_and!; [done|done|by intros i ?%elem_of_nil|apply untouched_refl].
  - apply NoDup_cons in Hnd as [Hni Hnd]. specialize (IH Hnd).
    assert (Hstep : ∃ s1, match find_define (ld_name i) old with
        | None => apply_define d i
        | Some it => if decide (i = it) then mret tt else apply_define d i
        end s = Ok (tt, s1) ∧ log_wf s1 ∧ agrees d s1 i ∧ others_same (ld_name i) s s1).
    { destruct (find_define (ld_name i) old) as [it|] eqn:Ef; [|by apply apply_define_spec].
      destruct (decide (i = it)) as [<-|Hne]; [|by apply apply_define_spec]. exists s.
      split; [done|]. split; [done|]. split; [|by split]. apply Hag; [by left|by apply find_define_Some in Ef as [? _]]. }
    destruct Hstep as (s1 & E1 & Hwf1 & Hag1 & Hsame1). rewrite (bind_run _ _ _ _ _ E1).
    assert (Hne : ∀ j, j ∈ new → ld_name j ≠ ld_name i).
    { intros j Hj Ej. apply Hni. rewrite <- Ej. by apply list_elem_of_fmap_2. }
    destruct (IH s1 Hwf1) as (s2 & E2 & Hwf2 & Hag2 & Hun2).
    { intros j Hj Hold. apply (agrees_same d s); [apply Hag; [by right|done]|apply Hsame1; by apply Hne|].
      intros l a. apply (same_appenders _ _ _ Hsame1). by apply Hne. }
    exists s2. split_and!; [done|done| |by eapply untouched_step].
    intros j [->|Hj]%elem_of_cons; [by apply (agrees_untouched d s1 s2 i (map ld_name new))|by apply Hag2].
Qed.

(** A logger that is switched off. *)
Definition switched_off (s : LoggerManager) (name : text) : Prop :=
  ∃ l, m_loggers s !! name = Some l ∧ m_level l = UNKNOW ∧ m_appenders l = [].

Lemma switch_off s name : log_wf s → ∃ s', (getLogger name ;; logger_setLevel name UNKNOW ;; clearAppenders name) s = Ok (tt, s') ∧
  log_wf s' ∧ switched_off s' name ∧ others_same name s s'.
Proof.
  intros Hwf. destruct (getLogger_run s name Hwf) as (l & E1 & Hwf1 & _). rewrite (bind_run _ _ _ _ _ E1).
  assert (Hl1 : m_loggers (with_logger s name l) !! name = Some l) by apply lookup_insert_eq.
  rewrite (bind_run _ _ _ _ _ (logger_setLevel_run _ name l UNKNOW Hl1)). rewrite with_logger_twice.
  set (l2 := mkLogger (m_name l) UNKNOW (m_appenders l) (lg_formatter l) (m_root l)).
  assert (Hl2 : m_loggers (with_logger s name l2) !! name = Some l2) by apply lookup_insert_eq.
  rewrite (clearAppenders_run _ name l2 Hl2), with_logger_twice. eexists. split; [reflexivity|]. split; [|split].
  - rewrite <- (with_logger_twice s name l). apply (wf_with _ name l); [done|done|by right|]. by apply (wf_formatter _ Hwf1 name l Hl1).
  - eexists. split; [apply lookup_insert_eq|done].
  - split; [|done|done]. intros n Hn. cbn. by rewrite lookup_insert_ne.
Qed.

(** The definitions that are gone. *)
Lemma change_old new old : ∀ s, log_wf s →
  ∃ s', for_each old (λ i,
      match find_define (ld_name i) new with
      | None => getLogger (ld_name i) ;; logger_setLevel (ld_name i) UNKNOW ;; clearAppenders (ld_name i)
      | Some _ => mret tt
      end) s = Ok (tt, s') ∧ log_wf s' ∧
    (∀ n, switched_off s n → switched_off s' n) ∧
    (∀ i, i ∈ old → find_define (ld_name i) new = None → switched_off s' (ld_name i)) ∧
    untouched (map ld_name (filter (λ i, find_define (ld_name i) new = None) old)) s s'.
Proof.
  induction old as [|i old IH]; intros s Hwf; cbn [for_each].
  - exists s. split_and!; [done|done|done|by intros i ?%elem_of_nil|apply untouched_refl].
  - destruct (find_define (ld_name i) new) as [it|] eqn:Ef.
    + rewrite (bind_run _ _ s tt s) by done. destruct (IH s Hwf) as (s' & E & Hwf' & Hkeep & Hoff & Hun). exists s'.
      split_and!; [done|done|done| |].
      * intros j [->|Hj]%elem_of_cons; [congruence|by apply Hoff].
      * rewrite filter_cons_False by congruence. done.
    + destruct (switch_off s (ld_name i) Hwf) as (s1 & E1 & Hwf1 & Hoff1 & Hsame1). rewrite (bind_run _ _ _ _ _ E1).
      destruct (IH s1 Hwf1) as (s' & E & Hwf' & Hkeep & Hoff & Hun). exists s'. split_and!; [done|done| | |].
      * intros n Hn. apply Hkeep. destruct (decide (n = ld_name i)) as [->|Hne]; [done|]. destruct Hn as (l & Hl & Hn).
        exists l. by rewrite (same_loggers _ _ _ Hsame1 n Hne).
      * intros j [->|Hj]%elem_of_cons Hf; [by apply Hkeep|by apply Hoff].
      * rewrite filter_cons_True by done. by eapply untouched_step.
Qed.

(** (C28) The configuration of the loggers.  Let the loggers be as the old set of
    definitions says.  After the listener of [logs] has seen a new set, each
    logger named in it has the level of its definition and, one for each
    definition of an appender (none on the standard output for a daemon), in
    order, appenders of that kind and level, with the formatter of the
    definition's pattern if that is valid and else the logger's, which is the
    one of its own definition if that is valid; a logger that is named no more
    has level 0 and no appenders; other loggers and their appenders are as
    before, and all stay well formed. *)
Theorem logs_configured d old new s (Hwf : log_wf s) (Hnd : NoDup (map ld_name new)) (Htypes : Forall types_ok new)
    (Hold : Forall (agrees d s) old) :
  ∃ s', on_logs_changed d old new s = Ok (tt, s') ∧ log_wf s' ∧ Forall (agrees d s') new ∧
    (∀ i, i ∈ old → ld_name i ∉ map ld_name new → switched_off s' (ld_name i)) ∧
    untouched (map ld_name old ++ map ld_name new) s s'.
Proof.
  rewrite Forall_forall in Hold. unfold on_logs_changed.
  destruct (change_new d old new Hnd Htypes s Hwf) as (s1 & E1 & Hwf1 & Hag1 & Hun1); [by auto|]. rewrite (bind_run _ _ _ _ _ E1).
  destruct (change_old new old s1 Hwf1) as (s2 & E2 & Hwf2 & _ & Hoff & Hun2). exists s2.
  assert (Hfind : ∀ name, find_define name new = None ↔ name ∉ map ld_name new).
  { intros name. unfold find_define. split.
    - intros E Hin. apply list_elem_of_fmap_1 in Hin as (i & -> & Hi). assert (Hf : i ∈ filter (λ d, ld_name d = ld_name i) new) by (by apply list_elem_of_filter).
      destruct (filter (λ d, ld_name d = ld_name i) new); [by apply elem_of_nil in Hf|done].
    - intros Hn. destruct (head _) as [i|] eqn:E; [|done]. exfalso. apply Hn. change (find_define name new = Some i) in E.
      apply find_define_Some in E as [Hi <-]. by apply list_elem_of_fmap_2. }
  assert (Hgone : ∀ n, n ∈ map ld_name (filter (λ i, find_define (ld_name i) new = None) old) → n ∈ map ld_name old ∧ n ∉ map ld_name new).
  { intros n (i & -> & [Hf Hi]%list_elem_of_filter)%list_elem_of_fmap_1. split; [by apply list_elem_of_fmap_2|by apply Hfind]. }
  split_and!; [done|done| | |].
  - apply Forall_forall. intros i Hi. eapply (agrees_untouched d s1 s2 i); [by apply Hag1|exact Hun2|].
    intros Hn. apply (proj2 (Hgone _ Hn)). by apply list_elem_of_fmap_2.
  - intros i Hi Hn. apply Hoff; [done|by apply Hfind].
  - destruct Hun1 as [K1 K2 K3], Hun2 as [L1 L2 L3]. split; [| |congruence].
    + intros n [Hn1 Hn2]%not_elem_of_app. rewrite L1, K1; [done|done|]. intros Hin. by apply Hgone in Hin as [? _].
    + intros n l a [Hn1 Hn2]%not_elem_of_app Hl Ha. rewrite (L2 n l); [by apply (K2 n l)| |by rewrite K1|done].
      intros Hin. by apply Hgone in Hin as [? _].
Qed.

(** ** The start *)

(** The manager that is constructed is well formed: the root logger with its appender. *)
Lemma new_manager_wf : ∃ s, new_LoggerManager = Ok s ∧ log_wf s ∧ m_async s = true.
Proof.
  unfold new_LoggerManager, new_Logger. destruct (new_formatter_total default_pattern) as [f ->]. eexists. split; [reflexivity|].
  split; [|done]. cbn [mbind result_bind lg_formatter]. split; cbn [m_loggers log_appenders].
  - intros name l a. rewrite lookup_singleton_Some. intros [<- <-] ->%list_elem_of_singleton. eexists. by rewrite lookup_singleton_eq.
  - intros name l. rewrite lookup_singleton_Some. intros [<- <-]. by eexists.
  - intros n1 l1 n2 l2 a. rewrite !lookup_singleton_Some. intros [<- <-] [<- <-]. done.
  - intros name l. rewrite lookup_singleton_Some. intros [<- <-]. apply NoDup_singleton.
  - rewrite lookup_singleton_eq. by eexists.
Qed.

(** ** Witnesses *)

Definition no_time (format : text) (time : Z) : text := format.

Definition sample_pieces : list piece :=
  [Dir (str "d") (Some (str "%H:%M")); Lit (str " ["); Dir (str "p") None; Lit (str "] "); Dir (str "m") None; Dir (str "n") None].

Definition sample_event : LogEvent := mkLogEvent (str "a.cc") 3 0 1 2 100 (str "main") (str "hello") (str "web") WARN.

Lemma pattern_pieces_witness : ∃ f, new_LogFormatter (str "%d{%H:%M} [%p] %m%n") = Ok f ∧
  formatter_format no_time f WARN sample_event = str "%H:%M [WARN] hello" ++ [newline].
Proof.
  destruct (pattern_pieces no_time) as [_ H]. destruct (H sample_pieces) as (f & E & _ & _ & Ef).
  - cbn. split_and!; try done; try (by repeat constructor); try (by apply (bool_decide_unpack _)).
    + intros c [= <-]. by vm_compute.
    + intros c [= <-]. by vm_compute.
  - exists f. split; [exact E|]. rewrite Ef. reflexivity.
Defined.

Definition sample_define : LogDefine :=
  mkLogDefine (str "web") INFO [] [mkAppenderDefine 1 ERROR (str "%m%n") (str "web.log"); mkAppenderDefine 2 INFO [] []].

Lemma logs_configured_witness : ∃ s s', new_LoggerManager = Ok s ∧ on_logs_changed false [] [sample_define] s = Ok (tt, s') ∧
  agrees false s' sample_define.
Proof.
  destruct new_manager_wf as (s & E & Hwf & _). destruct (logs_configured false [] [sample_define] s Hwf) as (s' & E' & _ & Hag & _).
  - apply NoDup_singleton.
  - constructor; [|constructor]. constructor; [by left|constructor; [by right|constructor]].
  - constructor.
  - exists s, s'. split; [exact E|split; [exact E'|]]. exact (Forall_inv Hag).
Defined.

Lemma event_routing_witness : ∃ s l, new_LoggerManager = Ok s ∧ m_loggers s !! root_name = Some l ∧
  Logger_log no_time root_name WARN sample_event s = Ok (Dispatched sample_event, s).
Proof.
  destruct new_manager_wf as (s & E & Hwf & Has). destruct (wf_root s Hwf) as [l Hl].
  assert (Hlev : level_number (m_level l) <= level_number WARN).
  { unfold new_LoggerManager, new_Logger in E. destruct (new_LogFormatter default_pattern); [|done]. injection E as <-.
    cbn [m_loggers] in Hl. rewrite lookup_singleton_eq in Hl. injection Hl as <-. by cbn. }
  exists s, l. split; [exact E|split; [exact Hl|]].
  exact (proj1 (proj2 (event_routing no_time s root_name l WARN sample_event Hwf Hl)) Hlev Has).
Defined.
