(* ===== verification/AsyncLog.v ===== *)
(** * AsyncLog: the asynchronous logger ([AsyncLogger] of [sylar/log.cc])

    The thread that logs, the threads that push events and the one that starts
    and stops it, interleaved at their critical sections and atomic accesses.
    Calls of [start] and [stop] do not overlap. *)

From S2P Require Import Prelude.

(** ** The program counters *)

Section async.
Context {E : Type}.

(** Inside [push], after [m_running] was read as true: before and after the critical section. *)
Inductive pusher := Enqueue (event : E) | Notify.

(** The thread in [run]: at the semaphore, before the swap, logging, before the test of [m_stopping], before the test of
    the queue, and the same after the loop. *)
Inductive run_pc := R_wait | R_swap | R_log (events : list E) | R_check | R_empty | R_last_swap | R_last_log (events : list E) | R_done.

(** The thread that calls [start] and [stop]: between calls, and before each of their steps. *)
Inductive control_pc := C_idle | C_create | C_stopping | C_notify | C_join | C_reset.

(** [pushers] are the threads inside [push]; the last five fields record what
    happened: the events pushed to the queue, in order, those of them pushed
    while [m_running] was false, the events the thread logged, those that were
    logged by [push] itself, and the events [push] was called with. *)
Record AsyncLogger := mkAsync {
  m_queue : list E;
  m_sem : nat;
  m_running : bool;
  m_stopping : bool;
  m_thread : option run_pc;
  control : control_pc;
  pushers : list pusher;
  enqueued : list E;
  late : list E;
  logged : list E;
  direct : list E;
  pushed : list E
}.

Implicit Types w : AsyncLogger.

(** The constructor. *)
Definition new_AsyncLogger : AsyncLogger := mkAsync [] 0 false false None C_idle [] [] [] [] [] [].

Definition set_pushers (l : list pusher) w : AsyncLogger :=
  mkAsync (m_queue w) (m_sem w) (m_running w) (m_stopping w) (m_thread w) (control w) l (enqueued w) (late w) (logged w) (direct w) (pushed w).

(** ** [push] *)

(** The load of [m_running]: without a running thread the event is logged at once. *)
Definition push_load (event : E) w : AsyncLogger :=
  mkAsync (m_queue w) (m_sem w) (m_running w) (m_stopping w) (m_thread w) (control w)
    (if m_running w then Enqueue event :: pushers w else pushers w) (enqueued w) (late w) (logged w)
    (if m_running w then direct w else direct w ++ [event]) (pushed w ++ [event]).

(** The critical section. *)
Definition push_back (event : E) w : AsyncLogger :=
  mkAsync (m_queue w ++ [event]) (m_sem w) (m_running w) (m_stopping w) (m_thread w) (control w) (pushers w) (enqueued w ++ [event])
    (if m_running w then late w else late w ++ [event]) (logged w) (direct w) (pushed w).

Definition sem_notify w : AsyncLogger :=
  mkAsync (m_queue w) (S (m_sem w)) (m_running w) (m_stopping w) (m_thread w) (control w) (pushers w) (enqueued w) (late w) (logged w) (direct w) (pushed w).

(** ** [run] *)

Definition set_run (pc : run_pc) w : AsyncLogger :=
  mkAsync (m_queue w) (m_sem w) (m_running w) (m_stopping w) (Some pc) (control w) (pushers w) (enqueued w) (late w) (logged w) (direct w) (pushed w).

Definition swap_queue w : AsyncLogger :=
  mkAsync [] (m_sem w) (m_running w) (m_stopping w) (m_thread w) (control w) (pushers w) (enqueued w) (late w) (logged w) (direct w) (pushed w).

Definition log_event (event : E) w : AsyncLogger :=
  mkAsync (m_queue w) (m_sem w) (m_running w) (m_stopping w) (m_thread w) (control w) (pushers w) (enqueued w) (late w) (logged w ++ [event])
    (direct w) (pushed w).

Definition sem_wait w : AsyncLogger :=
  mkAsync (m_queue w) (Nat.pred (m_sem w)) (m_running w) (m_stopping w) (m_thread w) (control w) (pushers w) (enqueued w) (late w) (logged w)
    (direct w) (pushed w).

(** A step of the thread; none when it waits or has ended. *)
Definition run_turn w : option AsyncLogger :=
  match m_thread w with
  | None | Some R_done => None
  | Some R_wait => if (m_sem w =? 0)%nat then None else Some (set_run R_swap (sem_wait w))
  | Some R_swap => Some (set_run (R_log (m_queue w)) (swap_queue w))
  | Some (R_log []) => Some (set_run R_check w)
  | Some (R_log (event :: events)) => Some (set_run (R_log events) (log_event event w))
  | Some R_check => Some (set_run (if m_stopping w then R_empty else R_wait) w)
  | Some R_empty => Some (set_run (match m_queue w with [] => R_last_swap | _ => R_wait end) w)
  | Some R_last_swap => Some (set_run (R_last_log (m_queue w)) (swap_queue w))
  | Some (R_last_log []) => Some (set_run R_done w)
  | Some (R_last_log (event :: events)) => Some (set_run (R_last_log events) (log_event event w))
  end.

(** ** [start] and [stop] *)

Definition set_control (running stopping : bool) (thread : option run_pc) (pc : control_pc) w : AsyncLogger :=
  mkAsync (m_queue w) (m_sem w) running stopping thread pc (pushers w) (enqueued w) (late w) (logged w) (direct w) (pushed w).

(** A call of [start] (the compare-and-exchange) or of [stop] (the exchange). *)
Definition start_exchange w : AsyncLogger :=
  if m_running w then w else set_control true (m_stopping w) (m_thread w) C_create w.

Definition stop_exchange w : AsyncLogger :=
  if m_running w then set_control false (m_stopping w) (m_thread w) C_stopping w else w.

(** The steps after it; [join] waits for the thread. *)
Definition control_turn w : option AsyncLogger :=
  match control w with
  | C_idle => None
  | C_create => Some (set_control (m_running w) false (Some R_wait) C_idle w)
  | C_stopping => Some (set_control (m_running w) true (m_thread w) C_notify w)
  | C_notify => Some (set_control (m_running w) (m_stopping w) (m_thread w) C_join (sem_notify w))
  | C_join => match m_thread w with
              | Some R_done => Some (set_control (m_running w) (m_stopping w) None C_reset w)
              | Some _ => None
              | None => Some (set_control (m_running w) (m_stopping w) None C_reset w)
              end
  | C_reset => Some (set_control (m_running w) false (m_thread w) C_idle w)
  end.

(** ** Executions *)

Inductive async_step : AsyncLogger → AsyncLogger → Prop :=
  | step_push event w : async_step w (push_load event w)
  | step_enqueue event w l1 l2 : pushers w = l1 ++ Enqueue event :: l2 →
      async_step w (set_pushers (l1 ++ Notify :: l2) (push_back event w))
  | step_notify w l1 l2 : pushers w = l1 ++ Notify :: l2 → async_step w (set_pushers (l1 ++ l2) (sem_notify w))
  | step_run w w' : run_turn w = Some w' → async_step w w'
  | step_start w : control w = C_idle → async_step w (start_exchange w)
  | step_stop w : control w = C_idle → async_step w (stop_exchange w)
  | step_control w w' : control_turn w = Some w' → async_step w w'.

Definition async_reachable w : Prop := rtc async_step new_AsyncLogger w.

(** The events the thread has in its hands. *)
Definition in_hand w : list E :=
  match m_thread w with Some (R_log l) | Some (R_last_log l) => l | _ => [] end.

(** The events of the threads on their way to the queue. *)
Definition on_their_way w : list E := omap (λ p, match p with Enqueue event => Some event | Notify => None end) (pushers w).

(** ** The invariant *)

(** Where the thread gets only after it saw [m_stopping]. *)
Definition ending (pc : run_pc) : bool :=
  match pc with R_empty | R_last_swap | R_last_log _ | R_done => true | _ => false end.

(** What [m_running], [m_stopping] and the thread are at each point of the control. *)
Definition control_ok w : Prop :=
  match control w with
  | C_idle => m_stopping w = false ∧
      match m_thread w with Some pc => m_running w = true ∧ ending pc = false | None => m_running w = false end
  | C_create => m_running w = true ∧ m_stopping w = false ∧ m_thread w = None
  | C_stopping => m_running w = false ∧ m_stopping w = false ∧ match m_thread w with Some pc => ending pc = false | None => False end
  | C_notify | C_join => m_running w = false ∧ m_stopping w = true ∧ m_thread w ≠ None
  | C_reset => m_running w = false ∧ m_stopping w = true ∧ m_thread w = None
  end.

(** A token of the semaphore is there or on its way. *)
Definition token w : Prop := (0 < m_sem w)%nat ∨ Notify ∈ pushers w.

(** No thread will look at the queue again. *)
Definition past_swap w : Prop :=
  match m_thread w with None => m_running w = false | Some (R_last_log _) | Some R_done => True | _ => False end.

Record async_inv w : Prop := {
  inv_order : enqueued w = logged w ++ in_hand w ++ m_queue w;
  inv_control : control_ok w;
  inv_token : m_thread w ≠ Some R_swap → m_queue w ≠ [] → token w;
  inv_join : control w = C_join → m_thread w = Some R_wait → (0 < m_sem w)%nat ∨ m_queue w ≠ [];
  inv_late : past_swap w → m_queue w `sublist_of` late w;
  inv_pushed : pushed w ≡ₚ direct w ++ enqueued w ++ on_their_way w
}.

(** ** Every step keeps it *)

Lemma push_keeps event w : async_inv w → async_inv (push_load event w).
Proof.
  intros [H1 H2 H3 H4 H5 H6]. split; try done; cbn.
  - intros Ht Hq. destruct (H3 Ht Hq) as [?|?]; [by left|right; cbn]. destruct (m_running w); [by right|done].
  - unfold on_their_way in *. cbn. rewrite H6. destruct (m_running w); cbn; solve_Permutation.
Qed.

Lemma past_not_running w : control_ok w → past_swap w → m_running w = false.
Proof.
  unfold control_ok, past_swap. destruct (m_thread w) as [pc|] eqn:Et; [|done]. destruct (control w); intros Hc Hp; destruct_and?; try done.
  by destruct pc.
Qed.

Lemma enqueue_keeps event w l1 l2 : async_inv w → pushers w = l1 ++ Enqueue event :: l2 →
  async_inv (set_pushers (l1 ++ Notify :: l2) (push_back event w)).
Proof.
  intros [H1 H2 H3 H4 H5 H6] Hp. split; try done.
  - unfold in_hand in *. cbn. rewrite H1, <- !app_assoc. done.
  - intros _ _. right. cbn. rewrite elem_of_app. right. by left.
  - intros _ _. right. cbn. by destruct (m_queue w).
  - intros Hpast. change (past_swap w) in Hpast. cbn. rewrite (past_not_running w H2 Hpast). apply sublist_app; [by apply H5|done].
  - unfold on_their_way in *. rewrite Hp in H6. cbn. rewrite H6, !omap_app. cbn. solve_Permutation.
Qed.

Lemma notify_keeps w l1 l2 : async_inv w → pushers w = l1 ++ Notify :: l2 → async_inv (set_pushers (l1 ++ l2) (sem_notify w)).
Proof.
  intros [H1 H2 H3 H4 H5 H6] Hp. split; try done; try (intros _ _; left; cbn; lia).
  unfold on_their_way in *. rewrite Hp in H6. cbn. by rewrite H6, !omap_app.
Qed.

(** The thread may move among the points of the same kind, and to the ending ones when it is to stop. *)
Lemma control_moves w pc pc' q sem lg : control_ok w → m_thread w = Some pc → (ending pc' = true → ending pc = true ∨ m_stopping w = true) →
  control_ok (mkAsync q sem (m_running w) (m_stopping w) (Some pc') (control w) (pushers w) (enqueued w) (late w) lg (direct w) (pushed w)).
Proof.
  unfold control_ok. intros Hc Ht Hpc. rewrite Ht in Hc. cbn. destruct (control w); destruct_and?; split_and?; try done.
  all: destruct (ending pc') eqn:Ee; [|done]; destruct (Hpc eq_refl); congruence.
Qed.

Lemma run_keeps w w' : async_inv w → run_turn w = Some w' → async_inv w'.
Proof.
  intros [H1 H2 H3 H4 H5 H6] Erun. unfold run_turn in Erun. destruct (m_thread w) as [pc|] eqn:Ht; [|done].
  assert (Hmove : ∀ pc' q sem lg, (ending pc' = true → ending pc = true ∨ m_stopping w = true) →
    control_ok (mkAsync q sem (m_running w) (m_stopping w) (Some pc') (control w) (pushers w) (enqueued w) (late w) lg (direct w) (pushed w))).
  { intros pc' q sem lg. by apply (control_moves w pc). }
  unfold in_hand, past_swap in *. rewrite Ht in H1, H5.
  destruct pc as [| |[|e l]| | | |[|e l]|]; try done.
  - destruct (Nat.eqb_spec (m_sem w) 0); [done|]. injection Erun as <-. split; try done. by apply Hmove.
  - injection Erun as <-. split; try done; [cbn; by rewrite app_nil_r|by apply Hmove].
  - injection Erun as <-. split; try done; [by apply Hmove|]. intros _. by apply H3.
  - injection Erun as <-. split; try done; [cbn; by rewrite H1, <- app_assoc|by apply Hmove|]. intros _. by apply H3.
  - assert (Hb : m_stopping w = true ∨ m_stopping w = false) by (destruct (m_stopping w); auto).
    destruct Hb as [Es|Es]; rewrite Es in Erun; injection Erun as <-.
    + split; try done; [apply Hmove; by right|]. intros _. by apply H3.
    + split; try done; [by apply Hmove| |].
      * intros _. by apply H3.
      * intros Hj _. cbn in Hj. unfold control_ok in H2. rewrite Hj in H2. destruct H2 as (_ & ? & _). congruence.
  - remember (m_queue w) as q eqn:Eq in Erun. destruct q as [|e q]; injection Erun as <-.
    + split; try done; cbn; try (by rewrite <- Eq); try done. apply Hmove; by left.
    + split; try done; cbn; rewrite <- ?Eq; [by apply Hmove| |by right].
      intros _ _. apply H3; [done|by rewrite <- Eq].
  - injection Erun as <-. split; try done; cbn; [by rewrite app_nil_r|apply Hmove; by left|]. intros _. apply sublist_nil_l.
  - injection Erun as <-. split; try done; [apply Hmove; by left|]. intros _. by apply H3.
  - injection Erun as <-. split; try done; [cbn; by rewrite H1, <- app_assoc|apply Hmove; by left|]. intros _. by apply H3.
Qed.

Lemma exchange_keeps w : async_inv w → control w = C_idle → async_inv (start_exchange w) ∧ async_inv (stop_exchange w).
Proof.
  intros [H1 H2 H3 H4 H5 H6] Hc. unfold start_exchange, stop_exchange. unfold control_ok, past_swap, in_hand in *. rewrite Hc in *.
  destruct (m_running w) eqn:Er; (split; [|]); try (split; try done; unfold control_ok, past_swap, in_hand; rewrite ?Hc, ?Er; done).
  - split; try done; unfold control_ok, past_swap; cbn; destruct (m_thread w) as [pc|]; destruct_and?; try done.
  - split; try done; unfold control_ok, past_swap; cbn; destruct (m_thread w) as [pc|]; destruct_and?; try done.
Qed.

(** The control thread moves without touching the queue or the events. *)
Lemma control_moved w st th pc : async_inv w →
  (th = m_thread w ∨ (∃ l, th = Some l ∧ in_hand w = [] ∧ m_thread w = None ∧ l = R_wait) ∨ (th = None ∧ m_thread w = Some R_done)) →
  control_ok (set_control (m_running w) st th pc w) →
  (pc = C_join → th = Some R_wait → (0 < m_sem w)%nat ∨ m_queue w ≠ []) → async_inv (set_control (m_running w) st th pc w).
Proof.
  intros [H1 H2 H3 H4 H5 H6] Hth Hok Hj. split; try done; unfold in_hand, past_swap in *; cbn in *.
  - destruct Hth as [->|[(l & -> & Hh & _ & ->)|[-> Ht]]]; [done|by rewrite Hh in H1|by rewrite Ht in H1].
  - intros Ht Hq. apply H3; [|done]. destruct Hth as [->|[(l & -> & Hh & Hn & ->)|[-> Hn]]]; congruence.
  - destruct Hth as [->|[(l & -> & Hh & Hn & ->)|[-> Hn]]]; [done|done|].
    intros _. apply H5. by rewrite Hn.
Qed.

Lemma control_keeps w w' : async_inv w → control_turn w = Some w' → async_inv w'.
Proof.
  intros Hinv E1. pose proof (inv_control _ Hinv) as H2. unfold control_turn in E1. unfold control_ok in H2.
  destruct (control w) eqn:Hc; [done|..].
  - injection E1 as <-. destruct H2 as (Hr & Hs & Ht). apply control_moved; [done| |by unfold control_ok; cbn; rewrite Hr|done].
    right. left. exists R_wait. unfold in_hand. by rewrite Ht.
  - injection E1 as <-. destruct H2 as (Hr & Hs & Ht). apply control_moved; [done|by left| |done].
    unfold control_ok. cbn. split_and!; [done|done|]. by destruct (m_thread w).
  - injection E1 as <-. destruct H2 as (Hr & Hs & Ht). apply (control_moved (sem_notify w)); [|by left|done|left; cbn; lia].
    destruct Hinv as [H1 H2 H3 H4 H5 H6]. split; try done; intros _ _; left; cbn; lia.
  - destruct H2 as (Hr & Hs & Ht). destruct (m_thread w) as [[]|] eqn:Et; try done; injection E1 as <-.
    apply control_moved; [done|right; right; done|done|done].
  - injection E1 as <-. destruct H2 as (Hr & Hs & Ht). apply control_moved; [done|by left| |done].
    unfold control_ok. cbn. by rewrite Ht.
Qed.

Lemma reachable_async_inv w : async_reachable w → async_inv w.
Proof.
  unfold async_reachable. intros H. assert (H0 : async_inv new_AsyncLogger) by (split; done).
  revert H0. induction H as [w|w1 w2 w3 Hstep _ IH]; [done|]. intros H0. apply IH. destruct Hstep.
  - by apply push_keeps.
  - by apply enqueue_keeps.
  - by apply notify_keeps.
  - by eapply run_keeps.
  - by apply exchange_keeps.
  - by apply exchange_keeps.
  - by eapply control_keeps.
Qed.

(** ** The end of the thread *)

(** The thread alone, for at most the given number of steps. *)
Fixpoint run_alone (fuel : nat) w : AsyncLogger :=
  match fuel with O => w | S fuel => match run_turn w with Some w' => run_alone fuel w' | None => w end end.

(** How many steps it has left once [m_stopping] is set. *)
Definition steps_left w : nat :=
  let q := length (m_queue w) in
  let again := match m_queue w with [] => 0%nat | _ => (10 + q)%nat end in
  match m_thread w with
  | Some R_wait => 9 + q
  | Some R_swap => 8 + q
  | Some (R_log l) => 6 + length l + again
  | Some R_check => 5 + again
  | Some R_empty => 4 + again
  | Some R_last_swap => 3 + q
  | Some (R_last_log l) => 1 + length l
  | Some R_done | None => 0
  end%nat.

Lemma run_turn_left w w' : m_stopping w = true → run_turn w = Some w' → (steps_left w' < steps_left w)%nat.
Proof.
  intros Hs E1. unfold run_turn in E1. unfold steps_left.
  destruct (m_thread w) as [[| |[|e l]| | | |[|e l]|]|] eqn:Ht; try done.
  - destruct (Nat.eqb_spec (m_sem w) 0); [done|]. injection E1 as <-. cbn. lia.
  - injection E1 as <-. cbn. lia.
  - injection E1 as <-. cbn. lia.
  - injection E1 as <-. cbn. lia.
  - rewrite Hs in E1. injection E1 as <-. cbn. lia.
  - destruct (m_queue w) eqn:Eq; injection E1 as <-; cbn; rewrite Eq; cbn; lia.
  - injection E1 as <-. cbn. lia.
  - injection E1 as <-. cbn. lia.
  - injection E1 as <-. cbn. lia.
Qed.

(** What the thread leaves alone. *)
Lemma run_turn_frame w w' : run_turn w = Some w' →
  control w' = control w ∧ pushers w' = pushers w ∧ enqueued w' = enqueued w ∧ late w' = late w ∧
  m_running w' = m_running w ∧ m_stopping w' = m_stopping w ∧ direct w' = direct w ∧ pushed w' = pushed w.
Proof.
  unfold run_turn. destruct (m_thread w) as [[| |[|e l]| | | |[|e l]|]|]; intros E1; try done.
  all: try (destruct (m_sem w =? 0)%nat; [done|]); by injection E1 as <-.
Qed.

(** Between [join]'s start and its end the thread is never stuck, whatever the others do, but for a thread that has yet to
    notify. *)
Lemma join_not_stuck w : async_inv w → control w = C_join → run_turn w = None → m_thread w = Some R_done ∨ Notify ∈ pushers w.
Proof.
  intros [H1 H2 H3 H4 H5 H6] Hc E1. unfold control_ok in H2. rewrite Hc in H2. destruct H2 as (_ & _ & H2). unfold run_turn in E1.
  destruct (m_thread w) as [[| |[|e l]| | | |[|e l]|]|]; try done; [|by left].
  destruct (Nat.eqb_spec (m_sem w) 0) as [E2|]; [|done]. right. destruct (H4 Hc eq_refl) as [?|Hq]; [lia|].
  destruct (H3 ltac:(done) Hq) as [?|?]; [lia|done].
Qed.

Lemma run_alone_ends fuel w : async_inv w → control w = C_join → Notify ∉ pushers w → (steps_left w <= fuel)%nat →
  m_thread (run_alone fuel w) = Some R_done ∧ async_inv (run_alone fuel w) ∧ rtc async_step w (run_alone fuel w) ∧
  enqueued (run_alone fuel w) = enqueued w ∧ late (run_alone fuel w) = late w ∧ control (run_alone fuel w) = C_join.
Proof.
  revert w. induction fuel as [|fuel IH]; intros w Hinv Hc Hp Hleft; cbn.
  - destruct (run_turn w) as [w'|] eqn:E1.
    + apply run_turn_left in E1; [lia|]. pose proof (inv_control _ Hinv) as H. unfold control_ok in H. rewrite Hc in H. tauto.
    + destruct (join_not_stuck w Hinv Hc E1); [|done]. by split_and!.
  - destruct (run_turn w) as [w'|] eqn:E1.
    + destruct (run_turn_frame _ _ E1) as (F1 & F2 & F3 & F4 & _). rewrite <- F3, <- F4.
      assert (Hl : (steps_left w' < steps_left w)%nat).
      { apply run_turn_left; [|done]. pose proof (inv_control _ Hinv) as H. unfold control_ok in H. rewrite Hc in H. tauto. }
      destruct (IH w') as (I1 & I2 & I3 & I4); [by eapply run_keeps|congruence|congruence|lia|].
      split_and!; try tauto. eapply rtc_l; [by apply step_run|done].
    + destruct (join_not_stuck w Hinv Hc E1); [|done]. by split_and!.
Qed.
(** ** Schedules *)

(** A move of one of the threads; [A_inside] is that of the thread that entered [push] last. *)
Inductive act := A_push (event : E) | A_inside | A_run | A_start | A_stop | A_control.

Definition play1 (a : act) w : option AsyncLogger :=
  match a with
  | A_push event => Some (push_load event w)
  | A_inside => match pushers w with
                | Enqueue event :: l => Some (set_pushers (Notify :: l) (push_back event w))
                | Notify :: l => Some (set_pushers l (sem_notify w))
                | [] => None
                end
  | A_run => run_turn w
  | A_start => match control w with C_idle => Some (start_exchange w) | _ => None end
  | A_stop => match control w with C_idle => Some (stop_exchange w) | _ => None end
  | A_control => control_turn w
  end.

Fixpoint play (l : list act) w : option AsyncLogger :=
  match l with [] => Some w | a :: l => match play1 a w with Some w' => play l w' | None => None end end.

Lemma play1_step a w w' : play1 a w = Some w' → async_step w w'.
Proof.
  destruct a; cbn; intros E1.
  - injection E1 as <-. constructor.
  - destruct (pushers w) as [|[e|] l] eqn:Ep; [done|..]; injection E1 as <-; [by apply (step_enqueue e w [] l)|by apply (step_notify w [] l)].
  - by constructor.
  - destruct (control w) eqn:Ec; try done. injection E1 as <-. by constructor.
  - destruct (control w) eqn:Ec; try done. injection E1 as <-. by constructor.
  - by constructor.
Qed.

Lemma play_reachable l w : play l new_AsyncLogger = Some w → async_reachable w.
Proof.
  unfold async_reachable. generalize new_AsyncLogger. induction l as [|a l IH]; cbn; intros w0 E1; [injection E1 as <-; constructor|].
  destruct (play1 a w0) as [w1|] eqn:E2; [|done]. eapply rtc_l; [by eapply play1_step|by apply IH].
Qed.
End async.

(** ** Two states *)

(** A thread that read [m_running] as true before [stop] cleared it may put its event in the queue when the thread has ended: it waits there,
    and is not logged before another [start]. *)
Definition stopped_late : AsyncLogger :=
  mkAsync [7%nat] 1 false false None C_idle [] [7%nat] [7%nat] [] [] [7%nat].

Lemma push_after_stop : async_reachable stopped_late.
Proof.
  apply (play_reachable ([A_start; A_control; A_push 7%nat; A_stop; A_control; A_control] ++ replicate 7 A_run ++
    [A_control; A_control; A_inside; A_inside])). reflexivity.
Qed.

(** [stop] at its [join], with two events in the queue. *)
Definition joining : AsyncLogger := mkAsync [7%nat; 8%nat] 3 false true (Some R_wait) C_join [] [7%nat; 8%nat] [] [] [] [7%nat; 8%nat].

Lemma joining_reachable : async_reachable joining.
Proof.
  apply (play_reachable [A_start; A_control; A_push 7%nat; A_inside; A_inside; A_push 8%nat; A_inside; A_inside; A_stop; A_control; A_control]).
  reflexivity.
Qed.

(** ** The theorems *)

(** (C29) Whatever the interleaving, no event is lost or repeated and the order of the queue is kept: the events pushed are
    those that [push] logged itself, those that were put in the queue and those of the threads still inside [push];
    and what was put in the queue is, in order, what the thread has logged, then what it has in its hands, then the queue. An event
    that waits in the queue has a token of the semaphore there or on its way, unless the thread is about to take it. When no
    thread runs, what is left in the queue was put there after [stop] had cleared [m_running]. *)
Theorem async_events {E : Type} (w : AsyncLogger (E := E)) : async_reachable w →
  pushed w ≡ₚ direct w ++ enqueued w ++ on_their_way w ∧
  enqueued w = logged w ++ in_hand w ++ m_queue w ∧
  (m_thread w ≠ Some R_swap → m_queue w ≠ [] → (0 < m_sem w)%nat ∨ Notify ∈ pushers w) ∧
  (m_running w = false → m_thread w = None → m_queue w `sublist_of` late w).
Proof.
  intros H. apply reachable_async_inv in H. destruct H as [H1 H2 H3 H4 H5 H6]. split_and!; [done|done|done|].
  intros Hr Ht. apply H5. unfold past_swap. by rewrite Ht.
Qed.

(** (C30) [stop] ends: from its [join] on, whatever the others do, the thread has ended or can take a step or a thread inside
    [push] is about to wake it; and when nobody is, the thread alone ends in the number of steps that [steps_left] counts, having logged
    in order all that was put in the queue, but for what was put there after [m_running] was cleared; then
    [join] returns and [stop] leaves the logger as it was before [start], ready for another. *)
Theorem stop_ends {E : Type} (w : AsyncLogger (E := E)) : async_reachable w → control w = C_join →
  (m_thread w = Some R_done ∨ run_turn w ≠ None ∨ Notify ∈ pushers w) ∧
  (Notify ∉ pushers w → let w' := run_alone (steps_left w) w in
   m_thread w' = Some R_done ∧ async_reachable w' ∧ enqueued w = logged w' ++ m_queue w' ∧ m_queue w' `sublist_of` late w ∧
   ∃ w'', control_turn w' = Some w'' ∧ m_thread w'' = None ∧
     ∃ w3, control_turn w'' = Some w3 ∧ control w3 = C_idle ∧ m_running w3 = false ∧ m_stopping w3 = false).
Proof.
  intros Hreach Hc. pose proof (reachable_async_inv w Hreach) as Hinv. split.
  - destruct (run_turn w) eqn:E1; [by right; left|]. destruct (join_not_stuck w Hinv Hc E1); auto.
  - intros Hp. destruct (run_alone_ends (steps_left w) w Hinv Hc Hp (le_n _)) as (I1 & I2 & I3 & I4 & I5 & I6).
    cbv zeta. destruct I2 as [H1 H2 H3 H4 H5 H6]. unfold in_hand, past_swap in *. rewrite I1 in H1, H5.
    split_and!; [done|by eapply rtc_trans|by rewrite <- I4, H1|rewrite <- I5; by apply H5|].
    unfold control_turn at 1. rewrite I6, I1. eexists. split; [done|]. split; [done|]. eexists. split; [done|]. cbn.
    unfold control_ok in H2. rewrite I6 in H2. tauto.
Qed.

Lemma async_events_witness : async_reachable stopped_late ∧ m_queue stopped_late `sublist_of` late stopped_late.
Proof.
  split; [exact push_after_stop|].
  destruct (async_events stopped_late push_after_stop) as (_ & _ & _ & H). apply H; reflexivity.
Defined.

Lemma stop_ends_witness : async_reachable joining ∧ m_thread (run_alone (steps_left joining) joining) = Some R_done ∧
  logged (run_alone (steps_left joining) joining) = [7%nat; 8%nat].
Proof.
  split; [exact joining_reachable|].
  destruct (stop_ends joining joining_reachable eq_refl) as (_ & H). split; [|reflexivity].
  apply H. cbn. apply not_elem_of_nil.
Defined.
