(* ===== verification/HookIO.v ===== *)
(** * HookIO: a hooked call waits for its descriptor ([do_io] and [connect_with_timeout] of [sylar/hook.cc])

    One call of a fiber on a managed, blocking socket, interleaved with what
    other threads do to it: the event of the descriptor, the expiry of a
    timer, and the callback of an expired timer, which first marks the call
    as timed out and then cancels the event. *)

From S2P Require Import Prelude.

(** ** The call *)

Definition EINTR : Z := 4.
Definition EAGAIN : Z := 11.
Definition ETIMEDOUT : Z := 110.
Definition EINPROGRESS : Z := 115.

(** [(uint64_t)-1] *)
Definition no_timeout : Z := 2 ^ 64 - 1.

(** Where the fiber is: before the system call, before arming the timer, before [addEvent], in [yield], behind it, before
    [getsockopt], and behind the call with its value and [errno]. *)
Inductive call_pc := C_call | C_arm | C_add | C_yield | C_resumed | C_sockopt | C_done (n errno : Z).

(** [armed]: the timer of this round is in the manager; [callbacks]: callbacks of expired timers that have not begun;
    [cancelling]: those between their store and [cancelEvent]; [cancelled]: [tinfo->cancelled] is set; [registered]: the
    event of the descriptor holds the fiber; [runnable]: the fiber has been scheduled.  The last three are a record of
    what happened: whether [addEvent] failed, the last value and [errno] of the system call, and what [getsockopt] said. *)
Record hooked_call := mkCall {
  pc : call_pc;
  armed : bool;
  callbacks : nat;
  cancelling : nat;
  cancelled : bool;
  registered : bool;
  runnable : bool;
  add_failed : bool;
  last_ret : option (Z * Z);
  asked : option (Z * Z * Z)
}.

Implicit Types w : hooked_call.

(** A call begins. *)
Definition new_call : hooked_call := mkCall C_call false 0 0 false false false false None None.

Definition at_pc (p : call_pc) w : hooked_call :=
  mkCall p (armed w) (callbacks w) (cancelling w) (cancelled w) (registered w) (runnable w) (add_failed w) (last_ret w) (asked w).

Definition set_ret (n errno : Z) w : hooked_call :=
  mkCall (pc w) (armed w) (callbacks w) (cancelling w) (cancelled w) (registered w) (runnable w) (add_failed w) (Some (n, errno)) (asked w).

(** [timer->cancel()] and the registration. *)
Definition set_armed (b : bool) w : hooked_call :=
  mkCall (pc w) b (callbacks w) (cancelling w) (cancelled w) (registered w) (runnable w) (add_failed w) (last_ret w) (asked w).

Definition set_asked (rt error errno : Z) w : hooked_call :=
  mkCall (pc w) (armed w) (callbacks w) (cancelling w) (cancelled w) (registered w) (runnable w) (add_failed w) (last_ret w)
    (Some (rt, error, errno)).

Definition set_registered w : hooked_call :=
  mkCall (pc w) (armed w) (callbacks w) (cancelling w) (cancelled w) true (runnable w) (add_failed w) (last_ret w) (asked w).

Definition set_add_failed w : hooked_call :=
  mkCall (pc w) (armed w) (callbacks w) (cancelling w) (cancelled w) (registered w) (runnable w) true (last_ret w) (asked w).

(** The fiber leaves the event and is scheduled. *)
Definition wake w : hooked_call :=
  if registered w then mkCall (pc w) (armed w) (callbacks w) (cancelling w) (cancelled w) false true (add_failed w) (last_ret w) (asked w) else w.

(** What happens: the system call returns, [addEvent] returns, [getsockopt] returns a value and an error,
    any other step of the fiber; the event of the descriptor, the expiry of the timer, the test of a callback, and its
    [cancelEvent]. *)
Inductive happening := H_ret (n errno : Z) | H_add (rt : Z) (errno : Z) | H_sockopt (rt error errno : Z) | H_fiber |
  H_event | H_expire | H_test | H_cancel.

Section call.
(** Whether the call is [connect_with_timeout], and its time-out. *)
Context (conn : bool) (to : Z).

(** After the system call. *)
Definition after_call (n errno : Z) : call_pc :=
  if conn then
    if n =? 0 then C_done 0 errno else if negb (n =? -1) || negb (errno =? EINPROGRESS) then C_done n errno else C_arm
  else if (n =? -1) && (errno =? EINTR) then C_call
  else if (n =? -1) && (errno =? EAGAIN) then C_arm
  else C_done n errno.

(** After [addEvent]: the failure of [addEvent] ends [do_io], not [connect_with_timeout]. *)
Definition after_add (rt errno : Z) w : hooked_call :=
  if rt =? 0 then at_pc C_yield (set_registered w)
  else at_pc (if conn then C_sockopt else C_done (-1) errno) (set_armed false (set_add_failed w)).

(** After [yield]. *)
Definition after_yield w : hooked_call :=
  at_pc (if cancelled w then C_done (-1) ETIMEDOUT else if conn then C_sockopt else C_call) (set_armed false w).

Definition after_sockopt (rt error errno : Z) : call_pc :=
  if rt =? -1 then C_done (-1) errno else if error =? 0 then C_done 0 errno else C_done (-1) error.

Definition happens (a : happening) w : option hooked_call :=
  match a, pc w with
  | H_ret n errno, C_call => Some (at_pc (after_call n errno) (set_ret n errno w))
  | H_fiber, C_arm => Some (at_pc C_add (set_armed (negb (to =? no_timeout)) w))
  | H_add rt errno, C_add => Some (after_add rt errno w)
  | H_fiber, C_yield =>
      if runnable w then
        Some (at_pc C_resumed (mkCall (pc w) (armed w) (callbacks w) (cancelling w) (cancelled w) (registered w) false
          (add_failed w) (last_ret w) (asked w)))
      else None
  | H_fiber, C_resumed => Some (after_yield w)
  | H_sockopt rt error errno, C_sockopt => Some (at_pc (after_sockopt rt error errno) (set_asked rt error errno w))
  | H_event, _ => if registered w then Some (wake w) else None
  | H_expire, _ =>
      if armed w then
        Some (mkCall (pc w) false (S (callbacks w)) (cancelling w) (cancelled w) (registered w) (runnable w) (add_failed w) (last_ret w) (asked w))
      else None
  | H_test, C_done _ _ => None
  | H_test, _ =>
      match callbacks w with
      | O => None
      | S k => Some (mkCall (pc w) (armed w) k (if cancelled w then cancelling w else S (cancelling w)) true (registered w) (runnable w)
                 (add_failed w) (last_ret w) (asked w))
      end
  | H_cancel, _ =>
      match cancelling w with
      | O => None
      | S k => Some (wake (mkCall (pc w) (armed w) (callbacks w) k (cancelled w) (registered w) (runnable w) (add_failed w) (last_ret w) (asked w)))
      end
  | _, _ => None
  end.

Fixpoint happen (l : list happening) w : option hooked_call :=
  match l with [] => Some w | a :: l => match happens a w with Some w' => happen l w' | None => None end end.

Definition call_step w w' : Prop := ∃ a, happens a w = Some w'.
Definition call_reachable w : Prop := rtc call_step new_call w.

(** ** The invariant *)

(** Why the call ended as it did. *)
Definition explained w (n errno : Z) : Prop :=
  (last_ret w = Some (n, errno) ∧ asked w = None ∧ n ≠ -1) ∨
  (last_ret w = Some (n, errno) ∧ asked w = None ∧ if conn then errno ≠ EINPROGRESS else errno ≠ EINTR ∧ errno ≠ EAGAIN) ∨
  (n = -1 ∧ errno = ETIMEDOUT ∧ cancelled w = true ∧ to ≠ no_timeout) ∨
  (n = -1 ∧ conn = false ∧ add_failed w = true) ∨
  (∃ rt error e, conn = true ∧ asked w = Some (rt, error, e) ∧
     ((rt = -1 ∧ n = -1 ∧ errno = e) ∨ (rt ≠ -1 ∧ error = 0 ∧ n = 0) ∨ (rt ≠ -1 ∧ error ≠ 0 ∧ n = -1 ∧ errno = error))).

(** The time-out of this round will come. *)
Definition time_out_due w : Prop := to ≠ no_timeout → cancelled w = false → armed w = true ∨ (0 < callbacks w)%nat.

Definition pc_ok w : Prop :=
  match pc w with
  | C_call | C_arm => armed w = false ∧ registered w = false ∧ runnable w = false ∧ asked w = None
  | C_add => registered w = false ∧ runnable w = false ∧ time_out_due w ∧ asked w = None
  | C_yield => registered w ≠ runnable w ∧ (registered w = true → time_out_due w) ∧ asked w = None
  | C_resumed => registered w = false ∧ runnable w = false ∧ asked w = None
  | C_sockopt => armed w = false ∧ registered w = false ∧ runnable w = false ∧ asked w = None ∧ conn = true
  | C_done n errno => armed w = false ∧ registered w = false ∧ runnable w = false ∧ explained w n errno
  end.

Record call_inv w : Prop := {
  inv_pc : pc_ok w;
  inv_timed : armed w = true ∨ (0 < callbacks w)%nat ∨ (0 < cancelling w)%nat ∨ cancelled w = true → to ≠ no_timeout;
  inv_cancelling : (0 < cancelling w)%nat → cancelled w = true
}.

Lemma wake_inv w : call_inv w → registered w = true → call_inv (wake w).
Proof.
  intros [H1 H2 H3] Hr. unfold wake. rewrite Hr. split; [|done|done]. unfold pc_ok in *. cbn.
  destruct (pc w); destruct_and?; try congruence. split_and!; [done|done|done].
Qed.

(** The system call, [getsockopt] and [addEvent] return. *)
Lemma ret_keeps n errno w : call_inv w → pc w = C_call → call_inv (at_pc (after_call n errno) (set_ret n errno w)).
Proof.
  intros [H1 H2 H3] Hp. split; [|done|done]. unfold pc_ok in *. rewrite Hp in H1. destruct H1 as (Ha & Hr & Hu & Hk).
  unfold after_call, at_pc, set_ret. cbn. destruct conn eqn:Ec.
  - destruct (Z.eqb_spec n 0) as [->|]; [split_and!; try done; by left|].
    destruct (Z.eqb_spec n (-1)) as [->|]; cbn; [|split_and!; try done; by left].
    destruct (Z.eqb_spec errno EINPROGRESS) as [->|]; cbn; [done|]. split_and!; try done. right. left. by rewrite Ec.
  - destruct (Z.eqb_spec n (-1)) as [->|]; cbn; [|split_and!; try done; by left].
    destruct (Z.eqb_spec errno EINTR) as [->|]; [done|]. destruct (Z.eqb_spec errno EAGAIN) as [->|]; [done|]. cbn. split_and!; try done.
    right. left. by rewrite Ec.
Qed.

Lemma sockopt_keeps rt error errno w : call_inv w → pc w = C_sockopt →
  call_inv (at_pc (after_sockopt rt error errno) (set_asked rt error errno w)).
Proof.
  intros [H1 H2 H3] Hp. split; [|done|done]. unfold pc_ok in *. rewrite Hp in H1. destruct H1 as (Ha & Hr & Hu & Hk & Hc).
  unfold after_sockopt, at_pc, set_asked. cbn.
  destruct (Z.eqb_spec rt (-1)) as [->|]; [|destruct (Z.eqb_spec error 0) as [->|]]; split_and!; try done; do 4 right; do 3 eexists.
  all: split; [done|split; [done|]]; tauto.
Qed.

Lemma add_keeps rt errno w : call_inv w → pc w = C_add → call_inv (after_add rt errno w).
Proof.
  intros [H1 H2 H3] Hp. unfold pc_ok in H1. rewrite Hp in H1. destruct H1 as (Hr & Hu & Ht & Hk). unfold after_add.
  destruct (rt =? 0); [split; [|done|done]; unfold pc_ok; cbn; rewrite Hu; split_and!; done|].
  split; [|unfold set_armed, set_add_failed; cbn; naive_solver|done].
  unfold pc_ok, at_pc, set_armed, set_add_failed. cbn. destruct conn eqn:Ec; cbn; split_and!; try done.
  do 3 right. left. by rewrite Ec.
Qed.

Lemma fiber_keeps w w' : call_inv w → happens H_fiber w = Some w' → call_inv w'.
Proof.
  intros [H1 H2 H3] E1. unfold pc_ok in H1. cbn in E1. destruct (pc w) eqn:Hp; try done.
  - injection E1 as <-. destruct H1 as (Ha & Hr & Hu & Hk). destruct (Z.eqb_spec to no_timeout) as [Et|Et]; (split; [|unfold set_armed; cbn; naive_solver|done]);
      unfold pc_ok, set_armed, time_out_due; cbn; split_and!; try done. by left.
  - destruct H1 as (H1 & Ht & Hk). destruct (runnable w) eqn:Hu; [|done]. injection E1 as <-. split; [|done|done].
    unfold pc_ok. cbn. split_and!; try done. by destruct (registered w).
  - injection E1 as <-. destruct H1 as (Hr & Hu & Hk). unfold after_yield.
    split; [|unfold set_armed; cbn; naive_solver|done]. unfold pc_ok, set_armed. cbn.
    destruct (cancelled w) eqn:Ecc; [|destruct conn eqn:Ec]; cbn; split_and!; try done.
    do 2 right. left. cbn. split_and!; try done. apply H2. auto.
Qed.

(** The others. *)
Lemma expire_keeps w w' : call_inv w → happens H_expire w = Some w' → call_inv w'.
Proof.
  intros [H1 H2 H3] E1. cbn in E1. destruct (armed w) eqn:Ha; [|by destruct (pc w)].
  assert (E2 : w' = mkCall (pc w) false (S (callbacks w)) (cancelling w) (cancelled w) (registered w) (runnable w) (add_failed w) (last_ret w) (asked w)) by (destruct (pc w); congruence).
  subst w'. split; [|cbn; intros _; apply H2; by left|done]. unfold pc_ok, time_out_due in *. cbn.
  destruct (pc w); destruct_and?; try congruence; split_and!; try done; intros; right; cbn; lia.
Qed.

Lemma test_keeps w w' : call_inv w → happens H_test w = Some w' → call_inv w'.
Proof.
  intros [H1 H2 H3] E1. unfold pc_ok in H1. cbn in E1.
  destruct (callbacks w) as [|k] eqn:Ek; [by destruct (pc w)|].
  assert (Ht : to ≠ no_timeout) by (apply H2; right; left; lia).
  destruct (pc w) eqn:Hp; try done; injection E1 as <-; (split; [|done|done]); unfold pc_ok, time_out_due; cbn; destruct_and?;
    split_and!; try done.
Qed.

Lemma cancel_keeps w w' : call_inv w → happens H_cancel w = Some w' → call_inv w'.
Proof.
  intros Hinv E1. cbn in E1. destruct (cancelling w) as [|k] eqn:Ek; [by destruct (pc w)|].
  set (w1 := mkCall (pc w) (armed w) (callbacks w) k (cancelled w) (registered w) (runnable w) (add_failed w) (last_ret w) (asked w)) in *.
  assert (E2 : w' = wake w1) by (destruct (pc w); congruence). subst w'.
  assert (H1 : call_inv w1).
  { destruct Hinv as [H1 H2 H3]. split; [done| |intros _; apply H3; lia]. unfold w1. cbn. rewrite Ek in H2. intros H. apply H2. destruct H as [?|[?|[?|?]]]; auto.
    right. right. left. lia. }
  destruct (registered w1) eqn:Hr; [by apply wake_inv|]. unfold wake. by rewrite Hr.
Qed.

Lemma call_keeps a w w' : call_inv w → happens a w = Some w' → call_inv w'.
Proof.
  intros Hinv E1. destruct a.
  - cbn in E1. destruct (pc w) eqn:Hp; try done. injection E1 as <-. by apply ret_keeps.
  - cbn in E1. destruct (pc w) eqn:Hp; try done. injection E1 as <-. by apply add_keeps.
  - cbn in E1. destruct (pc w) eqn:Hp; try done. injection E1 as <-. by apply sockopt_keeps.
  - by eapply fiber_keeps.
  - cbn in E1. destruct (registered w) eqn:Hr; [|by destruct (pc w)].
    assert (w' = wake w) as -> by (destruct (pc w); congruence). by apply wake_inv.
  - by eapply expire_keeps.
  - by eapply test_keeps.
  - by eapply cancel_keeps.
Qed.

Lemma reachable_call_inv w : call_reachable w → call_inv w.
Proof.
  unfold call_reachable. intros H. assert (H0 : call_inv new_call).
  { split; [done| |cbn; lia]. cbn. intros [?|[?|[?|?]]]; try done; lia. }
  revert H0. induction H as [w|w1 w2 w3 [a Ha] _ IH]; [done|]. intros H0. apply IH. by eapply call_keeps.
Qed.

Lemma happen_reachable l w : happen l new_call = Some w → call_reachable w.
Proof.
  unfold call_reachable. generalize new_call. induction l as [|a l IH]; cbn; intros w0 E1; [injection E1 as <-; constructor|].
  destruct (happens a w0) as [w1|] eqn:E2; [|done]. eapply rtc_l; [by exists a|by apply IH].
Qed.

(** ** Waiting *)

(** What the passing of time and the fiber do. *)
Definition timely (a : happening) : bool :=
  match a with H_expire | H_test | H_cancel | H_fiber => true | _ => false end.

(** The event of the descriptor ends the wait. *)
Lemma event_wakes w : call_inv w → pc w = C_yield → registered w = true → ∃ w', happen [H_event; H_fiber; H_fiber] w = Some w' ∧
  pc w' = if cancelled w then C_done (-1) ETIMEDOUT else if conn then C_sockopt else C_call.
Proof.
  intros Hinv Hp Hr. cbn. rewrite Hr. unfold wake. rewrite Hr. cbn. rewrite Hp. cbn. eexists. split; [reflexivity|]. done.
Qed.

(** So does its time-out, unless it passed too early. *)
Lemma time_out_wakes w : call_inv w → pc w = C_yield → registered w = true → to ≠ no_timeout → cancelled w = false →
  ∃ l w', forallb timely l = true ∧ happen l w = Some w' ∧ pc w' = C_done (-1) ETIMEDOUT.
Proof.
  intros [H1 H2 H3] Hp Hr Hto Hc. unfold pc_ok in H1. rewrite Hp in H1. destruct H1 as (_ & Hdue & _). specialize (Hdue Hr Hto Hc).
  assert (Hgo : ∀ v k, pc v = C_yield → registered v = true → cancelled v = false → callbacks v = S k →
    ∃ w', happen [H_test; H_cancel; H_fiber; H_fiber] v = Some w' ∧ pc w' = C_done (-1) ETIMEDOUT).
  { intros v k Hpv Hrv Hcv Hk. cbn. rewrite Hk, Hcv, Hpv. unfold wake. cbn. rewrite Hrv. cbn.
    by eexists. }
  destruct (callbacks w) as [|k] eqn:Ek.
  - destruct Hdue as [Ha|]; [|lia]. eexists (H_expire :: [H_test; H_cancel; H_fiber; H_fiber]).
    assert (Hx : happens H_expire w = Some (mkCall (pc w) false 1 (cancelling w) (cancelled w) (registered w) (runnable w) (add_failed w) (last_ret w) (asked w)))
      by (cbn; by rewrite Ha, Ek).
    cbn [happen]. rewrite Hx. edestruct Hgo as (w' & E1 & E2); [| | | |exists w'; split; [reflexivity|split; [exact E1|exact E2]]]; done.
  - destruct (Hgo w k) as (w' & E1 & E2); [done..|]. by exists [H_test; H_cancel; H_fiber; H_fiber], w'.
Qed.
End call.

(** ** The theorems *)

(** (C24) A hooked call on a managed socket, in every interleaving with the event, the timers and their callbacks. When it ends, it has
    returned what the system call returned last, which was no interruption and no try-again ([connect]: no operation in progress), or what [getsockopt] said, or a
    failure of [addEvent], or ETIMEDOUT after a time-out that the caller had asked for; and no timer is armed for it and nothing holds its
    fiber. While it waits, its fiber is either held by the event or scheduled, never both: the event then ends the wait, and so does
    the time-out, if there is one, unless it passed before the event was registered. *)
Theorem hooked_call_spec conn to w : call_reachable conn to w →
  (∀ n errno, pc w = C_done n errno → explained conn to w n errno ∧ armed w = false ∧ registered w = false ∧ runnable w = false) ∧
  (pc w = C_yield → registered w ≠ runnable w) ∧
  (pc w = C_yield → registered w = true →
    (∃ w', happen conn to [H_event; H_fiber; H_fiber] w = Some w' ∧
       pc w' = if cancelled w then C_done (-1) ETIMEDOUT else if conn then C_sockopt else C_call) ∧
    (to ≠ no_timeout → cancelled w = false →
       ∃ l w', forallb timely l = true ∧ happen conn to l w = Some w' ∧ pc w' = C_done (-1) ETIMEDOUT)).
Proof.
  intros Hreach. pose proof (reachable_call_inv conn to w Hreach) as Hinv. pose proof (inv_pc _ _ _ Hinv) as Hpc. unfold pc_ok in Hpc.
  split_and!.
  - intros n errno Hp. rewrite Hp in Hpc. tauto.
  - intros Hp. rewrite Hp in Hpc. tauto.
  - intros Hp Hr. split; [by apply event_wakes|]. intros Hto Hc. by apply time_out_wakes.
Qed.

(** (C26) Two races of the time-out. When the timer expires and its callback ends before the event is registered, the call
    then waits without a time-out: nothing but the event can happen. And when the callback of one round has been scheduled but the event comes first, it
    may run in the next round, after a call that has to be tried again: the call ends with ETIMEDOUT while the new timer
    has not expired. *)
Theorem hooked_call_races to : to ≠ no_timeout →
  (∀ conn, ∃ w, call_reachable conn to w ∧ pc w = C_yield ∧ registered w = true ∧
     ∀ a w', happens conn to a w = Some w' → a = H_event) ∧
  ∃ w w', call_reachable false to w ∧ pc w = C_yield ∧ registered w = true ∧ armed w = true ∧
    happen false to [H_test; H_cancel; H_fiber; H_fiber] w = Some w' ∧ pc w' = C_done (-1) ETIMEDOUT.
Proof.
  intros Hto. apply Z.eqb_neq in Hto as Eto. split.
  - intros conn. destruct conn; eexists; split.
    1: apply (happen_reachable true to [H_ret (-1) EINPROGRESS; H_fiber; H_expire; H_test; H_cancel; H_add 0 0]).
    3: apply (happen_reachable false to [H_ret (-1) EAGAIN; H_fiber; H_expire; H_test; H_cancel; H_add 0 0]).
    1, 3: cbn; rewrite Eto; cbn; reflexivity.
    all: cbn; split_and!; [done|done|]; intros a w'; by destruct a.
  - eexists. eexists. split.
    + apply (happen_reachable false to [H_ret (-1) EAGAIN; H_fiber; H_add 0 0; H_expire; H_event; H_fiber; H_fiber;
        H_ret (-1) EAGAIN; H_fiber; H_add 0 0]).
      cbn. rewrite Eto. cbn. reflexivity.
    + cbn. split_and!; reflexivity.
Qed.

(** ** Witnesses *)

(** A call that waits with its timer armed. *)
Definition waiting_call : hooked_call := mkCall C_yield true 0 0 false true false false (Some (-1, EAGAIN)) None.

Lemma waiting_reachable : call_reachable false 1000 waiting_call.
Proof. apply (happen_reachable false 1000 [H_ret (-1) EAGAIN; H_fiber; H_add 0 0]). reflexivity. Qed.

Lemma hooked_call_spec_witness : call_reachable false 1000 waiting_call ∧
  ∃ l w', forallb timely l = true ∧ happen false 1000 l waiting_call = Some w' ∧ pc w' = C_done (-1) ETIMEDOUT.
Proof.
  split; [exact waiting_reachable|].
  destruct (hooked_call_spec false 1000 waiting_call waiting_reachable) as (_ & _ & H). apply H; done.
Defined.

Lemma hooked_call_races_witness : 1000 ≠ no_timeout ∧ ∃ w, call_reachable true 1000 w ∧ pc w = C_yield ∧ registered w = true.
Proof.
  split; [done|]. destruct (hooked_call_races 1000 ltac:(done)) as (H & _). destruct (H true) as (w & H1 & H2 & H3 & _). by exists w.
Defined.
