(* ===== verification/Hook.v ===== *)
(** * Hook: the table of descriptors and the hooked calls ([sylar/fd_manager.cc], [hook.cc])

    [FdManager] keeps what is known of each descriptor; the hooks consult it.
    The system calls themselves are a parameter, the class [Kernel]. *)

From S2P Require Import Prelude.
From S2P Require Export HookIO.

(** ** The kernel *)

Definition F_GETFL : Z := 3.
Definition F_SETFL : Z := 4.
Definition FIONBIO : Z := 21537.
Definition SOL_SOCKET : Z := 1.
Definition SO_RCVTIMEO : Z := 20.
Definition SO_SNDTIMEO : Z := 21.
Definition EBADF : Z := 9.

(** [O_NONBLOCK] *)
Definition O_NONBLOCK : Z := 2048.

(** The system calls on a state [K]: [fstat] tells whether a descriptor is a socket, or fails; [fcntl] may come without its third
    argument. *)
Class Kernel (K : Type) := {
  k_fstat : Z → K → option bool;
  k_fcntl : Z → Z → option Z → K → Z * K;
  k_ioctl : Z → Z → Z → K → Z * K;
  k_socket : K → Z * K;
  k_close : Z → K → Z * K;
  k_setsockopt : Z → Z → Z → K → Z * K
}.

(** Bit 11 of the flags. *)
Definition non_blocking (flags : Z) : bool := negb (Z.land flags O_NONBLOCK =? 0).

(** ** [FdCtx] and [FdManager] *)

Record FdCtx := mkFdCtx {
  m_isInit : bool;
  m_isSocket : bool;
  m_sysNonblock : bool;
  m_userNonblock : bool;
  m_isClosed : bool;
  m_fd : Z;
  m_recvTimeout : Z;
  m_sendTimeout : Z
}.

Record Hooks (K : Type) := mkHooks { m_datas : list (option FdCtx); kernel : K }.
Arguments mkHooks {K} m_datas kernel.
Arguments m_datas {K} h.
Arguments kernel {K} h.

(** [v->tv_sec * 1000 + v->tv_usec / 1000], kept as [uint64_t] *)
Definition timeout_ms (tv_sec tv_usec : Z) : Z := (tv_sec * 1000 + Z.quot tv_usec 1000) mod 2 ^ 64.

Definition setTimeout (type v : Z) (c : FdCtx) : FdCtx :=
  if type =? SO_RCVTIMEO
  then mkFdCtx (m_isInit c) (m_isSocket c) (m_sysNonblock c) (m_userNonblock c) (m_isClosed c) (m_fd c) v (m_sendTimeout c)
  else mkFdCtx (m_isInit c) (m_isSocket c) (m_sysNonblock c) (m_userNonblock c) (m_isClosed c) (m_fd c) (m_recvTimeout c) v.

Definition getTimeout (type : Z) (c : FdCtx) : Z := if type =? SO_RCVTIMEO then m_recvTimeout c else m_sendTimeout c.

Definition setUserNonblock (v : bool) (c : FdCtx) : FdCtx :=
  mkFdCtx (m_isInit c) (m_isSocket c) (m_sysNonblock c) v (m_isClosed c) (m_fd c) (m_recvTimeout c) (m_sendTimeout c).

Section hooks.
Context {K : Type} `{!Kernel K}.

Abbreviation MH A := (M (Hooks K) A).

Definition set_kernel (k : K) (s : Hooks K) : Hooks K := mkHooks (m_datas s) k.
Definition set_datas (l : list (option FdCtx)) (s : Hooks K) : Hooks K := mkHooks l (kernel s).

(** A call of the kernel. *)
Definition system (f : K → Z * K) : MH Z := λ s, let '(rt, k) := f (kernel s) in Ok (rt, set_kernel k s).

(** The constructor of [FdCtx], with [init]: a socket is made non-blocking. *)
Definition new_FdCtx (fd : Z) : MH FdCtx :=
  s ← gets id;
  let isSocket := match k_fstat fd (kernel s) with Some b => b | None => false end in
  let isInit := match k_fstat fd (kernel s) with Some _ => true | None => false end in
  (if isSocket : bool then
     flags ← system (k_fcntl fd F_GETFL (Some 0));
     if negb (non_blocking flags) then system (k_fcntl fd F_SETFL (Some (Z.lor flags O_NONBLOCK))) ;; mret tt else mret tt
   else mret tt) ;;
  mret (mkFdCtx isInit isSocket isSocket false false fd no_timeout no_timeout).

Definition new_FdManager (k : K) : Hooks K := mkHooks (replicate 64 None) k.

(** [m_datas.resize(n)] *)
Definition resized (n : nat) (l : list (option FdCtx)) : list (option FdCtx) := take n l ++ replicate (n - length l) None.

(** [get]: an existing descriptor, or a new one if asked for. *)
Definition FdManager_get (fd : Z) (auto_create : bool) : MH (option FdCtx) :=
  if fd =? -1 then mret None
  else
    s ← gets id;
    found ← (if Z.of_nat (length (m_datas s)) <=? fd then mret (if auto_create then None else Some None)
             else c ← vec_at (m_datas s) fd;
                  mret (match c with Some _ => Some c | None => if auto_create then None else Some None end));
    match found with
    | Some c => mret c
    | None =>
        ctx ← new_FdCtx fd;
        s ← gets id;
        let datas := if Z.of_nat (length (m_datas s)) <=? fd then resized (Z.to_nat (fd * 3 / 2)) (m_datas s) else m_datas s in
        datas ← vec_set datas fd (Some ctx);
        modify (set_datas datas) ;;
        mret (Some ctx)
    end.

Definition FdManager_del (fd : Z) : MH unit :=
  s ← gets id;
  if Z.of_nat (length (m_datas s)) <=? fd then mret tt
  else datas ← vec_set (m_datas s) fd None; modify (set_datas datas).

(** A method of the [FdCtx] that [get] returned. *)
Definition update_ctx (fd : Z) (f : FdCtx → FdCtx) : MH unit :=
  s ← gets id;
  c ← vec_at (m_datas s) fd;
  match c with
  | Some c => datas ← vec_set (m_datas s) fd (Some (f c)); modify (set_datas datas)
  | None => fail BadPointer
  end.

(** ** The hooks *)

(** How [do_io] and [connect_with_timeout] begin: the call goes to the kernel, is refused with [EBADF], or waits as a
    [hooked_call] with this time-out. *)
Inductive io_entry := Direct | Refused | Hooked (to : Z).

Definition do_io_entry (hook_enable : bool) (fd timeout_so : Z) : MH io_entry :=
  if negb hook_enable then mret Direct
  else
    ctx ← FdManager_get fd false;
    match ctx with
    | None => mret Direct
    | Some ctx =>
        if m_isClosed ctx then mret Refused
        else if negb (m_isSocket ctx) || m_userNonblock ctx then mret Direct
        else mret (Hooked (getTimeout timeout_so ctx))
    end.

Definition connect_entry (hook_enable : bool) (fd timeout_ms : Z) : MH io_entry :=
  if negb hook_enable then mret Direct
  else
    ctx ← FdManager_get fd false;
    match ctx with
    | None => mret Refused
    | Some ctx =>
        if m_isClosed ctx then mret Refused
        else if negb (m_isSocket ctx) || m_userNonblock ctx then mret Direct
        else mret (Hooked timeout_ms)
    end.

(** [socket], and [accept] once the descriptor is there. *)
Definition hook_socket (hook_enable : bool) : MH Z :=
  fd ← system k_socket;
  if negb hook_enable then mret fd
  else if fd =? -1 then mret fd else FdManager_get fd true ;; mret fd.

Definition hook_accepted (fd : Z) : MH Z := if fd >=? 0 then FdManager_get fd true ;; mret fd else mret fd.

(** [close]; the flag is whether the IO manager, if there is one, is told to cancel the events of the descriptor. *)
Definition hook_close (hook_enable : bool) (fd : Z) : MH (bool * Z) :=
  if negb hook_enable then rt ← system (k_close fd); mret (false, rt)
  else
    ctx ← FdManager_get fd false;
    match ctx with
    | Some _ => FdManager_del fd ;; rt ← system (k_close fd); mret (true, rt)
    | None => rt ← system (k_close fd); mret (false, rt)
    end.

(** A context through which the non-blocking mode is managed. *)
Definition manages (ctx : option FdCtx) : bool :=
  match ctx with Some ctx => negb (m_isClosed ctx) && m_isSocket ctx | None => false end.

(** The commands of [fcntl] that take an argument: F_DUPFD, F_DUPFD_CLOEXEC, F_SETFD, F_SETOWN, F_SETSIG, F_SETLEASE, F_NOTIFY,
    F_SETPIPE_SZ, the locks, F_GETOWN_EX and F_SETOWN_EX. *)
Definition with_argument (cmd : Z) : bool :=
  bool_decide (cmd ∈ [0; 1030; 2; 8; 10; 1024; 1026; 1031; 6; 7; 5; 16; 15]).

Definition hook_fcntl (fd cmd arg : Z) : MH Z :=
  if cmd =? F_SETFL then
    ctx ← FdManager_get fd false;
    if manages ctx then
      update_ctx fd (setUserNonblock (non_blocking arg)) ;;
      let sys := match ctx with Some ctx => m_sysNonblock ctx | None => false end in
      system (k_fcntl fd cmd (Some (if sys then Z.lor arg O_NONBLOCK else Z.ldiff arg O_NONBLOCK)))
    else system (k_fcntl fd cmd (Some arg))
  else if cmd =? F_GETFL then
    flags ← system (k_fcntl fd cmd None);
    ctx ← FdManager_get fd false;
    if manages ctx then
      let user := match ctx with Some ctx => m_userNonblock ctx | None => false end in
      mret (if user then Z.lor flags O_NONBLOCK else Z.ldiff flags O_NONBLOCK)
    else mret flags
  else if with_argument cmd then system (k_fcntl fd cmd (Some arg))
  else system (k_fcntl fd cmd None).

(** [ioctl] with an [int] behind its pointer. *)
Definition hook_ioctl (d request arg : Z) : MH Z :=
  (if request =? FIONBIO then
     ctx ← FdManager_get d false;
     if manages ctx then update_ctx d (setUserNonblock (negb (arg =? 0))) else mret tt
   else mret tt) ;;
  system (k_ioctl d request arg).

(** [setsockopt]; for the time-outs the value is a [timeval]. *)
Definition hook_setsockopt (hook_enable : bool) (sockfd level optname tv_sec tv_usec : Z) : MH Z :=
  (if hook_enable && (level =? SOL_SOCKET) && ((optname =? SO_RCVTIMEO) || (optname =? SO_SNDTIMEO)) then
     ctx ← FdManager_get sockfd false;
     match ctx with
     | Some _ => update_ctx sockfd (setTimeout optname (timeout_ms tv_sec tv_usec))
     | None => mret tt
     end
   else mret tt) ;;
  system (k_setsockopt sockfd level optname).
End hooks.

(** ** The sleeping hooks: the milliseconds of the timer *)

Definition sleep_ms (seconds : Z) : Z := (seconds * 1000) mod 2 ^ 32.
Definition usleep_ms (usec : Z) : Z := usec / 1000.

(** The sum is stored in an [int], which [addTimer] takes as [uint64_t]. *)
Definition nanosleep_ms (tv_sec tv_nsec : Z) : Z :=
  let v := (tv_sec * 1000 + Z.quot (Z.quot tv_nsec 1000) 1000) mod 2 ^ 32 in
  (if v >=? 2 ^ 31 then v - 2 ^ 32 else v) mod 2 ^ 64.
