(* ===== verification/HookProps.v ===== *)
(** * HookProps: what the hooks show of the non-blocking mode, and how long they sleep *)

From S2P Require Import Prelude.
From S2P Require Export Hook.

(** ** The laws of the kernel *)

(** The flags belong to the open file, [k_file], which duplicated descriptors share.  [F_GETFL] reads them and changes nothing; [F_SETFL] and
    [FIONBIO] on an open descriptor set the mode of its file, or are refused and change nothing; the flags of an open socket with [O_NONBLOCK] added
    are not refused.  A new socket has a number that was not open. *)
Class KernelLaws (K : Type) `{!Kernel K} := {
  k_flags : Z → K → Z;
  k_file : Z → K → Z;
  getfl_law : ∀ fd a k, k_fstat fd k ≠ None → k_fcntl fd F_GETFL a k = (k_flags fd k, k);
  setfl_law : ∀ fd v k, k_fstat fd k ≠ None → let '(rt, k') := k_fcntl fd F_SETFL (Some v) k in
    (∀ fd', k_fstat fd' k' = k_fstat fd' k) ∧
    ∀ fd', k_fstat fd' k ≠ None →
      if decide (rt ≠ -1 ∧ k_file fd' k = k_file fd k) then non_blocking (k_flags fd' k') = non_blocking v else k_flags fd' k' = k_flags fd' k;
  setfl_accepted : ∀ fd k, k_fstat fd k = Some true → (k_fcntl fd F_SETFL (Some (Z.lor (k_flags fd k) O_NONBLOCK)) k).1 ≠ -1;
  fionbio_law : ∀ fd v k, k_fstat fd k ≠ None → let '(rt, k') := k_ioctl fd FIONBIO v k in
    (∀ fd', k_fstat fd' k' = k_fstat fd' k) ∧
    ∀ fd', k_fstat fd' k ≠ None →
      if decide (rt ≠ -1 ∧ k_file fd' k = k_file fd k) then non_blocking (k_flags fd' k') = negb (v =? 0) else k_flags fd' k' = k_flags fd' k;
  socket_law : ∀ k, let '(fd, k') := k_socket k in
    (fd = -1 ∧ ∀ fd', k_fstat fd' k' = k_fstat fd' k ∧ k_flags fd' k' = k_flags fd' k) ∨
    (0 <= fd ∧ k_fstat fd k = None ∧ k_fstat fd k' = Some true ∧
       ∀ fd', fd' ≠ fd → k_fstat fd' k' = k_fstat fd' k ∧ k_flags fd' k' = k_flags fd' k);
  close_law : ∀ fd k, let k' := (k_close fd k).2 in
    ∀ fd', fd' ≠ fd → k_fstat fd' k' = k_fstat fd' k ∧ k_flags fd' k' = k_flags fd' k;
  setsockopt_law : ∀ fd level name k, let k' := (k_setsockopt fd level name k).2 in
    ∀ fd', k_fstat fd' k' = k_fstat fd' k ∧ k_flags fd' k' = k_flags fd' k
}.

Section props.
Context {K : Type} `{!Kernel K, !KernelLaws K}.

Implicit Types s : Hooks K.

(** ** The table as a map *)

Definition slot s (fd : Z) : option FdCtx := if fd <? 0 then None else mjoin (m_datas s !! Z.to_nat fd).

(** What the user of a socket sees: whether it is non-blocking and its time-outs. *)
Definition view s (fd : Z) : option (bool * Z * Z) :=
  match slot s fd with
  | Some c => if m_isSocket c then Some (m_userNonblock c, m_recvTimeout c, m_sendTimeout c) else None
  | None => None
  end.

(** What is known of a descriptor is true: it is open, and a socket is non-blocking for the kernel. *)
Record ctx_ok (k : K) (fd : Z) (c : FdCtx) : Prop := {
  ok_fd : m_fd c = fd;
  ok_open : m_isClosed c = false;
  ok_stat : k_fstat fd k = Some (m_isSocket c);
  ok_sys : m_sysNonblock c = m_isSocket c;
  ok_kernel : m_isSocket c = true → non_blocking (k_flags fd k) = true
}.

Record hooks_ok s : Prop := {
  ok_size : (64 ≤ length (m_datas s))%nat;
  ok_ctx : ∀ fd c, slot s fd = Some c → ctx_ok (kernel s) fd c
}.

Definition put_slot (fd : Z) (x : option FdCtx) s : Hooks K := set_datas (<[Z.to_nat fd := x]> (m_datas s)) s.

Lemma slot_put fd x s fd' : 0 <= fd < Z.of_nat (length (m_datas s)) → slot (put_slot fd x s) fd' = if decide (fd' = fd) then x else slot s fd'.
Proof.
  intros Hfd. unfold slot, put_slot, set_datas. cbn. destruct (decide (fd' = fd)) as [->|Hne].
  - destruct (Z.ltb_spec fd 0); [lia|]. rewrite list_lookup_insert_eq by lia. done.
  - destruct (Z.ltb_spec fd' 0); [done|]. rewrite list_lookup_insert_ne by lia. done.
Qed.

Lemma slot_range s fd c : slot s fd = Some c → 0 <= fd < Z.of_nat (length (m_datas s)).
Proof.
  unfold slot. destruct (Z.ltb_spec fd 0); [done|]. destruct (m_datas s !! Z.to_nat fd) as [[x|]|] eqn:E1; try done.
  intros _. apply lookup_lt_Some in E1. lia.
Qed.

(** ** The operations of the table *)

Lemma get_run fd s : -1 <= fd → FdManager_get fd false s = Ok (slot s fd, s).
Proof.
  intros Hfd. unfold FdManager_get, slot. destruct (Z.eqb_spec fd (-1)) as [->|]; [done|]. run @gets_run. cbn [id].
  destruct (Z.ltb_spec fd 0); [lia|]. destruct (Z.leb_spec (Z.of_nat (length (m_datas s))) fd).
  - cbn. rewrite lookup_ge_None_2 by lia. done.
  - unfold vec_at. destruct (Z.leb_spec 0 fd); [|lia].
    destruct (lookup_lt_is_Some_2 (m_datas s) (Z.to_nat fd)) as [c E1]; [lia|]. rewrite E1. by destruct c.
Qed.

Lemma update_run fd f s c : slot s fd = Some c → update_ctx fd f s = Ok (tt, put_slot fd (Some (f c)) s).
Proof.
  intros Hc. pose proof (slot_range _ _ _ Hc) as Hr. unfold update_ctx. run @gets_run. cbn [id].
  unfold slot in Hc. destruct (Z.ltb_spec fd 0); [lia|]. destruct (m_datas s !! Z.to_nat fd) as [x|] eqn:E1; [|done]. cbn in Hc. subst x.
  assert (E2 : vec_at (m_datas s) fd s = Ok (Some c, s)) by (apply vec_at_Ok; split_and!; [lia|done|done]). run E2.
  assert (E3 : vec_set (m_datas s) fd (Some (f c)) s = Ok (<[Z.to_nat fd := Some (f c)]> (m_datas s), s)) by (apply vec_set_Ok; done).
  run E3. done.
Qed.

Lemma del_run fd s c : slot s fd = Some c → FdManager_del fd s = Ok (tt, put_slot fd None s).
Proof.
  intros Hc. pose proof (slot_range _ _ _ Hc) as Hr. unfold FdManager_del. run @gets_run. cbn [id].
  destruct (Z.leb_spec (Z.of_nat (length (m_datas s))) fd); [lia|].
  assert (E3 : vec_set (m_datas s) fd None s = Ok (<[Z.to_nat fd := None]> (m_datas s), s)) by (apply vec_set_Ok; done).
  run E3. done.
Qed.

(** ** A new descriptor *)

Lemma non_blocking_lor v : non_blocking (Z.lor v O_NONBLOCK) = true.
Proof.
  unfold non_blocking, O_NONBLOCK. apply negb_true_iff, Z.eqb_neq. intros E1. apply (f_equal (λ z, Z.testbit z 11)) in E1.
  rewrite Z.land_spec, Z.lor_spec, Z.bits_0 in E1. by destruct (Z.testbit v 11).
Qed.

Lemma non_blocking_ldiff v : non_blocking (Z.ldiff v O_NONBLOCK) = false.
Proof.
  unfold non_blocking. apply negb_false_iff, Z.eqb_eq. apply Z.bits_inj_0. intros n. rewrite Z.land_spec, Z.ldiff_spec.
  by destruct (Z.testbit v n), (Z.testbit O_NONBLOCK n).
Qed.

(** The other descriptors stay open and in their mode, or come to be non-blocking. *)
Definition same_elsewhere (fd : Z) (k k' : K) : Prop :=
  ∀ fd', fd' ≠ fd → k_fstat fd' k' = k_fstat fd' k ∧ (k_fstat fd' k ≠ None → k_flags fd' k' = k_flags fd' k ∨ non_blocking (k_flags fd' k') = true).

(** [F_SETFL] with [O_NONBLOCK]: whoever shares the file becomes non-blocking too, or nothing changes. *)
Lemma setfl_non_blocking fd v k : k_fstat fd k ≠ None → let '(rt, k') := k_fcntl fd F_SETFL (Some (Z.lor v O_NONBLOCK)) k in
  (∀ fd', k_fstat fd' k' = k_fstat fd' k) ∧ same_elsewhere fd k k' ∧
  (rt ≠ -1 ∨ non_blocking (k_flags fd k) = true → non_blocking (k_flags fd k') = true).
Proof.
  intros Hfd. pose proof (setfl_law fd (Z.lor v O_NONBLOCK) k Hfd) as H. destruct (k_fcntl fd F_SETFL _ k) as [rt k']. destruct H as [H1 H2].
  split_and!; [done| |].
  - intros fd' _. split; [done|]. intros Ho. specialize (H2 fd' Ho). case_decide; [right; by rewrite H2, non_blocking_lor|by left].
  - intros Hrt. specialize (H2 fd Hfd). case_decide as Hd; [by rewrite H2, non_blocking_lor|]. rewrite H2. destruct Hrt as [Hrt|?]; [|done]. by destruct Hd.
Qed.

(** What a new descriptor is. *)
Definition fresh_ctx (fd : Z) (b : bool) : FdCtx := mkFdCtx true b b false false fd no_timeout no_timeout.

Lemma system_run (f : K → Z * K) s : system f s = Ok ((f (kernel s)).1, set_kernel (f (kernel s)).2 s).
Proof. unfold system. by destruct (f (kernel s)). Qed.

Lemma new_ctx_run fd s b : k_fstat fd (kernel s) = Some b →
  ∃ k', new_FdCtx fd s = Ok (fresh_ctx fd b, set_kernel k' s) ∧ ctx_ok k' fd (fresh_ctx fd b) ∧ same_elsewhere fd (kernel s) k'.
Proof.
  intros Hst. unfold new_FdCtx. run @gets_run. cbn [id]. rewrite Hst. destruct b.
  - run @system_run. rewrite getfl_law by (by rewrite Hst). cbn [fst snd]. destruct (non_blocking (k_flags fd (kernel s))) eqn:Enb; cbn [negb].
    + eexists. split; [reflexivity|]. split; [by split|]. intros fd' _. split; [done|by left].
    + run @system_run. cbn. eexists. split; [reflexivity|].
      pose proof (setfl_non_blocking fd (k_flags fd (kernel s)) (kernel s) ltac:(by rewrite Hst)) as H.
      pose proof (setfl_accepted fd (kernel s) Hst) as Hacc. destruct (k_fcntl fd F_SETFL _ (kernel s)) as [rt k']. destruct H as (H1 & H2 & H3).
      split; [|done]. split; try done; cbn; [by rewrite H1|]. intros _. apply H3. by left.
  - eexists (kernel s). split; [by destruct s|]. split; [by split|]. intros fd' _. split; [done|by left].
Qed.

Lemma resized_lookup n l i : (length l ≤ n)%nat → mjoin (resized n l !! i) = mjoin (l !! i).
Proof.
  intros Hn. unfold resized. rewrite take_ge by done. destruct (decide (i < length l)%nat) as [Hi|Hi].
  - by rewrite lookup_app_l.
  - rewrite lookup_app_r, (lookup_ge_None_2 l) by lia. destruct (decide (i - length l < n - length l)%nat).
    + by rewrite lookup_replicate_2.
    + by rewrite lookup_ge_None_2 by (rewrite length_replicate; lia).
Qed.

(** The table with room for a descriptor. *)
Definition grown (fd : Z) s : Hooks K :=
  if Z.of_nat (length (m_datas s)) <=? fd then set_datas (resized (Z.to_nat (fd * 3 / 2)) (m_datas s)) s else s.

Lemma grown_slot fd s fd' : 0 <= fd → slot (grown fd s) fd' = slot s fd'.
Proof.
  intros H0. unfold grown. destruct (Z.leb_spec (Z.of_nat (length (m_datas s))) fd); [|done].
  unfold slot, set_datas. cbn. destruct (fd' <? 0); [done|]. apply resized_lookup.
  assert (fd <= fd * 3 / 2) by (apply Z.div_le_lower_bound; lia). lia.
Qed.

Lemma grown_length fd s : (64 ≤ length (m_datas s))%nat → 0 <= fd →
  fd < Z.of_nat (length (m_datas (grown fd s))) ∧ (64 ≤ length (m_datas (grown fd s)))%nat.
Proof.
  intros H64 H0. unfold grown. destruct (Z.leb_spec (Z.of_nat (length (m_datas s))) fd); [|lia].
  assert (fd < fd * 3 / 2) by (apply Z.div_lt_upper_bound || (apply Z.lt_le_trans with (fd + 1); [lia|apply Z.div_le_lower_bound; lia])).
  unfold set_datas, resized. cbn. rewrite length_app, length_take, length_replicate. lia.
Qed.

Lemma get_create fd s b : hooks_ok s → 0 <= fd → slot s fd = None → k_fstat fd (kernel s) = Some b →
  ∃ k', FdManager_get fd true s = Ok (Some (fresh_ctx fd b), put_slot fd (Some (fresh_ctx fd b)) (set_kernel k' (grown fd s))) ∧
    ctx_ok k' fd (fresh_ctx fd b) ∧ same_elsewhere fd (kernel s) k'.
Proof.
  intros Hok H0 Hnone Hst. destruct (new_ctx_run fd s b Hst) as (k' & E1 & Hc & Hsame). exists k'. split; [|done].
  unfold FdManager_get. destruct (Z.eqb_spec fd (-1)); [lia|]. run @gets_run. cbn [id].
  assert (E2 : (if Z.of_nat (length (m_datas s)) <=? fd then mret None
             else c ← vec_at (m_datas s) fd; mret (match c with Some _ => Some c | None => None end)) s = Ok (None, s)).
  { unfold slot in Hnone. destruct (Z.ltb_spec fd 0); [lia|]. destruct (Z.leb_spec (Z.of_nat (length (m_datas s))) fd); [done|].
    destruct (lookup_lt_is_Some_2 (m_datas s) (Z.to_nat fd)) as [c E2]; [lia|]. rewrite E2 in Hnone. cbn in Hnone. subst c.
    assert (E3 : vec_at (m_datas s) fd s = Ok (None, s)) by (apply vec_at_Ok; split_and!; [lia|done|done]). by run E3. }
  run E2. run E1. run @gets_run. cbn [id]. cbn [m_datas set_kernel].
  destruct (grown_length fd s (ok_size s Hok) H0) as [Hl _]. unfold grown in *.
  destruct (Z.of_nat (length (m_datas s)) <=? fd).
  all: erewrite bind_run by (apply vec_set_Ok; split_and!; [exact H0|exact Hl|reflexivity|reflexivity]); cbn beta; reflexivity.
Qed.

(** ** The hooks keep it *)

Lemma ok_put fd x s k' : hooks_ok s → 0 <= fd → same_elsewhere fd (kernel s) k' → (∀ c, x = Some c → ctx_ok k' fd c) →
  fd < Z.of_nat (length (m_datas s)) → hooks_ok (put_slot fd x (set_kernel k' s)).
Proof.
  intros [H1 H2] H0 Hsame Hx Hl. split; [unfold put_slot, set_datas; cbn; by rewrite length_insert|].
  intros fd' c. rewrite (slot_put fd x (set_kernel k' s)) by (cbn; lia). change (slot (set_kernel k' s) fd') with (slot s fd').
  destruct (decide (fd' = fd)) as [->|Hne]; [intros E1; by apply Hx|]. intros E1. destruct (H2 fd' c E1) as [G1 G2 G3 G4 G5].
  destruct (Hsame fd' Hne) as [E2 E3]. cbn. split; [done|done|by rewrite E2|done|]. intros Hs. destruct E3 as [->|?]; [congruence|auto|done].
Qed.

Lemma ok_grown fd s : hooks_ok s → 0 <= fd → hooks_ok (grown fd s).
Proof.
  intros Hok H0. split; [by apply grown_length, H0; apply Hok|]. intros fd' c. rewrite grown_slot by done.
  replace (kernel (grown fd s)) with (kernel s) by (unfold grown; by case_match). apply Hok.
Qed.

(** A kernel that agrees everywhere. *)
Lemma ok_kernel_same s k' : hooks_ok s → (∀ fd', k_fstat fd' k' = k_fstat fd' (kernel s) ∧ k_flags fd' k' = k_flags fd' (kernel s)) →
  hooks_ok (set_kernel k' s).
Proof.
  intros [H1 H2] Hsame. split; [done|]. intros fd c E1. destruct (H2 fd c E1) as [G1 G2 G3 G4 G5].
  destruct (Hsame fd) as [E2 E3]. cbn. split; [done|done|by rewrite E2|done|by rewrite E3].
Qed.

Lemma view_of s fd c : slot s fd = Some c →
  view s fd = if m_isSocket c then Some (m_userNonblock c, m_recvTimeout c, m_sendTimeout c) else None.
Proof. intros E1. unfold view. by rewrite E1. Qed.

Lemma view_put fd x s fd' : 0 <= fd < Z.of_nat (length (m_datas s)) → fd' ≠ fd → view (put_slot fd x s) fd' = view s fd'.
Proof. intros Hfd Hne. unfold view. rewrite slot_put by done. by rewrite decide_False. Qed.

(** The new descriptor [fd]. *)
Definition opened (fd : Z) s s' : Prop :=
  hooks_ok s' ∧ slot s' fd = Some (fresh_ctx fd true) ∧ ∀ fd', fd' ≠ fd → slot s' fd' = slot s fd'.

Lemma get_opens fd s : hooks_ok s → 0 <= fd → slot s fd = None → k_fstat fd (kernel s) = Some true →
  ∃ s' c, FdManager_get fd true s = Ok (c, s') ∧ opened fd s s'.
Proof.
  intros Hok H0 Hnone Hst. destruct (get_create fd s true Hok H0 Hnone Hst) as (k' & E1 & Hc & Hsame).
  eexists _, _. split; [exact E1|]. pose proof (ok_grown fd s Hok H0) as Hg. destruct (grown_length fd s (ok_size s Hok) H0) as [Hl _].
  split; [|split].
  - apply ok_put; [done|done| |intros c [= <-]; done|done].
    replace (kernel (grown fd s)) with (kernel s) by (unfold grown; by case_match). done.
  - rewrite (slot_put fd _ (set_kernel k' (grown fd s))) by (cbn; lia). by rewrite decide_True.
  - intros fd' Hne. rewrite (slot_put fd _ (set_kernel k' (grown fd s))) by (cbn; lia). rewrite decide_False by done.
    change (slot (set_kernel k' (grown fd s)) fd') with (slot (grown fd s) fd'). by apply grown_slot.
Qed.

Lemma socket_opens s : hooks_ok s → ∃ fd s', hook_socket true s = Ok (fd, s') ∧
  (if decide (fd = -1) then hooks_ok s' ∧ ∀ fd', slot s' fd' = slot s fd' else 0 <= fd ∧ opened fd s s').
Proof.
  intros Hok. unfold hook_socket. run @system_run. pose proof (socket_law (kernel s)) as Hlaw.
  destruct (k_socket (kernel s)) as [fd k1] eqn:Es. cbn [fst snd negb]. destruct Hlaw as [[-> Hsame]|(H0 & Hnone & Hst & Hsame)].
  - eexists _, _. split; [reflexivity|]. cbn. split; [by apply ok_kernel_same|done].
  - destruct (Z.eqb_spec fd (-1)); [lia|]. assert (Hsl : slot s fd = None).
    { destruct (slot s fd) as [c|] eqn:Ec; [|done]. destruct (ok_ctx s Hok fd c Ec) as [_ _ Hs _ _]. congruence. }
    assert (Hok1 : hooks_ok (set_kernel k1 s)).
    { destruct Hok as [H1 H2]. split; [done|]. intros fd' c Ec. change (slot s fd' = Some c) in Ec.
      destruct (decide (fd' = fd)) as [->|Hne]; [congruence|]. destruct (H2 fd' c Ec) as [G1 G2 G3 G4 G5].
      destruct (Hsame fd' Hne) as [E2 E3]. cbn. split; [done|done|by rewrite E2|done|by rewrite E3]. }
    destruct (get_opens fd (set_kernel k1 s) Hok1 H0 Hsl Hst) as (s' & c & E1 & Ho). exists fd, s'.
    rewrite (bind_run _ _ _ _ _ E1). split; [done|]. by rewrite decide_False.
Qed.

(** The mode and the time-outs of a managed socket change, not the kernel's non-blocking mode. *)
Lemma setfl_run fd arg s c : hooks_ok s → slot s fd = Some c → m_isSocket c = true →
  ∃ rt s', hook_fcntl fd F_SETFL arg s = Ok (rt, s') ∧ hooks_ok s' ∧ slot s' fd = Some (setUserNonblock (non_blocking arg) c) ∧
    ∀ fd', fd' ≠ fd → slot s' fd' = slot s fd'.
Proof.
  intros Hok Hc Hsock. pose proof (slot_range _ _ _ Hc) as Hr. destruct (ok_ctx s Hok fd c Hc) as [G1 G2 G3 G4 G5].
  unfold hook_fcntl. change (F_SETFL =? F_SETFL) with true. cbn iota. erewrite bind_run by (apply get_run; lia).
  rewrite Hc. unfold manages. rewrite G2, Hsock. cbn [negb andb]. erewrite bind_run by (by eapply update_run). cbn zeta.
  rewrite system_run, G4, Hsock. eexists _, _. split; [reflexivity|].
  change (kernel (put_slot fd (Some (setUserNonblock (non_blocking arg) c)) s)) with (kernel s).
  pose proof (setfl_non_blocking fd arg (kernel s) ltac:(by rewrite G3)) as L.
  destruct (k_fcntl fd F_SETFL (Some (Z.lor arg O_NONBLOCK)) (kernel s)) as [rt k']. destruct L as (L1 & L2 & L3). cbn [snd].
  change (set_kernel k' (put_slot fd (Some (setUserNonblock (non_blocking arg) c)) s))
    with (put_slot fd (Some (setUserNonblock (non_blocking arg) c)) (set_kernel k' s)).
  split; [|split].
  - apply ok_put; [done|lia|done| |lia]. intros x [= <-]. split; cbn; [done|done|by rewrite L1|done|]. intros _. apply L3. right. by apply G5.
  - rewrite (slot_put fd _ (set_kernel k' s)) by (cbn; lia). by rewrite decide_True.
  - intros fd' Hne. rewrite (slot_put fd _ (set_kernel k' s)) by (cbn; lia). by rewrite decide_False.
Qed.

Lemma getfl_run fd arg s c : hooks_ok s → slot s fd = Some c → m_isSocket c = true →
  ∃ flags, hook_fcntl fd F_GETFL arg s = Ok (flags, s) ∧ non_blocking flags = m_userNonblock c.
Proof.
  intros Hok Hc Hsock. pose proof (slot_range _ _ _ Hc) as Hr. destruct (ok_ctx s Hok fd c Hc) as [G1 G2 G3 G4 G5].
  unfold hook_fcntl. change (F_GETFL =? F_SETFL) with false. change (F_GETFL =? F_GETFL) with true. cbn iota.
  run @system_run. rewrite getfl_law by (by rewrite G3). cbn [fst snd]. replace (set_kernel (kernel s) s) with s by (by destruct s).
  erewrite bind_run by (apply get_run; lia). rewrite Hc. unfold manages. rewrite G2, Hsock. cbn [negb andb]. cbn zeta.
  eexists. split; [reflexivity|]. destruct (m_userNonblock c); [apply non_blocking_lor|apply non_blocking_ldiff].
Qed.

Lemma setsockopt_run fd name sec usec s c : hooks_ok s → slot s fd = Some c → name = SO_RCVTIMEO ∨ name = SO_SNDTIMEO →
  ∃ rt s', hook_setsockopt true fd SOL_SOCKET name sec usec s = Ok (rt, s') ∧ hooks_ok s' ∧
    slot s' fd = Some (setTimeout name (timeout_ms sec usec) c) ∧ ∀ fd', fd' ≠ fd → slot s' fd' = slot s fd'.
Proof.
  intros Hok Hc Hname. pose proof (slot_range _ _ _ Hc) as Hr. pose proof (ok_ctx s Hok fd c Hc) as G.
  unfold hook_setsockopt. assert (E1 : (name =? SO_RCVTIMEO) || (name =? SO_SNDTIMEO) = true) by (by destruct Hname as [-> | ->]).
  rewrite E1. cbn [andb]. change (SOL_SOCKET =? SOL_SOCKET) with true. cbn [andb]. cbn iota. rewrite bind_assoc.
  erewrite bind_run by (apply get_run; lia). rewrite Hc. erewrite bind_run by (by eapply update_run). rewrite system_run.
  eexists _, _. split; [reflexivity|]. set (c' := setTimeout name (timeout_ms sec usec) c).
  change (kernel (put_slot fd (Some c') s)) with (kernel s). pose proof (setsockopt_law fd SOL_SOCKET name (kernel s)) as L.
  set (k' := (k_setsockopt fd SOL_SOCKET name (kernel s)).2) in *. cbv zeta in L.
  change (set_kernel k' (put_slot fd (Some c') s)) with (put_slot fd (Some c') (set_kernel k' s)). split; [|split].
  - apply ok_put; [done|lia|intros fd' _; destruct (L fd'); auto| |lia]. intros x [= <-]. destruct G as [G1 G2 G3 G4 G5]. destruct (L fd) as [L1 L2].
    unfold c', setTimeout. destruct (name =? SO_RCVTIMEO); split; cbn; rewrite ?L1, ?L2; done.
  - rewrite (slot_put fd _ (set_kernel k' s)) by (cbn; lia). by rewrite decide_True.
  - intros fd' Hne. rewrite (slot_put fd _ (set_kernel k' s)) by (cbn; lia). by rewrite decide_False.
Qed.

Lemma close_run fd s c : hooks_ok s → slot s fd = Some c →
  ∃ rt s', hook_close true fd s = Ok ((true, rt), s') ∧ hooks_ok s' ∧ slot s' fd = None ∧ ∀ fd', fd' ≠ fd → slot s' fd' = slot s fd'.
Proof.
  intros Hok Hc. pose proof (slot_range _ _ _ Hc) as Hr. unfold hook_close. cbn [negb].
  erewrite bind_run by (apply get_run; lia). rewrite Hc. erewrite bind_run by (by eapply del_run). run @system_run.
  eexists _, _. split; [reflexivity|]. change (kernel (put_slot fd None s)) with (kernel s).
  pose proof (close_law fd (kernel s)) as L. set (k' := (k_close fd (kernel s)).2) in *. cbv zeta in L.
  change (set_kernel k' (put_slot fd None s)) with (put_slot fd None (set_kernel k' s)). split; [|split].
  - apply ok_put; [done|lia|intros fd' Hne; destruct (L fd' Hne); auto|done|lia].
  - rewrite (slot_put fd _ (set_kernel k' s)) by (cbn; lia). by rewrite decide_True.
  - intros fd' Hne. rewrite (slot_put fd _ (set_kernel k' s)) by (cbn; lia). by rewrite decide_False.
Qed.

(** [FIONBIO] reaches the kernel as it is. *)
Lemma ioctl_run fd arg s c : hooks_ok s → slot s fd = Some c → m_isSocket c = true →
  ∃ rt s', hook_ioctl fd FIONBIO arg s = Ok (rt, s') ∧ slot s' fd = Some (setUserNonblock (negb (arg =? 0)) c) ∧
    (rt = -1 ∨ non_blocking (k_flags fd (kernel s')) = negb (arg =? 0)).
Proof.
  intros Hok Hc Hsock. pose proof (slot_range _ _ _ Hc) as Hr. destruct (ok_ctx s Hok fd c Hc) as [G1 G2 G3 G4 G5].
  unfold hook_ioctl. change (FIONBIO =? FIONBIO) with true. cbn iota. rewrite bind_assoc. erewrite bind_run by (apply get_run; lia).
  rewrite Hc. unfold manages. rewrite G2, Hsock. cbn [negb andb]. erewrite bind_run by (by eapply update_run). rewrite system_run.
  eexists _, _. split; [reflexivity|]. set (c' := setUserNonblock (negb (arg =? 0)) c).
  change (kernel (put_slot fd (Some c') s)) with (kernel s). pose proof (fionbio_law fd arg (kernel s) ltac:(by rewrite G3)) as L.
  destruct (k_ioctl fd FIONBIO arg (kernel s)) as [rt k']. destruct L as [_ L]. specialize (L fd ltac:(by rewrite G3)). cbn [fst snd].
  split; [|destruct (decide (rt = -1)); [by left|right; by rewrite decide_True in L by done]]. match goal with |- slot (set_kernel ?k _) _ = _ => change (slot (put_slot fd (Some c') (set_kernel k s)) fd = Some c') end.
  rewrite slot_put by (cbn; lia). by rewrite decide_True.
Qed.

Lemma entry_run fd so s c : hooks_ok s ∨ m_isClosed c = false → slot s fd = Some c → m_isSocket c = true →
  do_io_entry true fd so s = Ok (if m_userNonblock c then Direct else Hooked (getTimeout so c), s).
Proof.
  intros Hok Hc Hsock. pose proof (slot_range _ _ _ Hc) as Hr. assert (G2 : m_isClosed c = false).
  { destruct Hok as [Hok|]; [by apply (ok_ctx s Hok fd c Hc)|done]. }
  unfold do_io_entry. cbn [negb]. erewrite bind_run by (apply get_run; lia). rewrite Hc, G2, Hsock. cbn [negb orb]. by destruct (m_userNonblock c).
Qed.

(** The user's view of one descriptor is replaced. *)
Definition changes (fd : Z) (v : option (bool * Z * Z)) s s' : Prop := ∀ fd', view s' fd' = if decide (fd' = fd) then v else view s fd'.

Lemma changes_slot fd x s s' v : slot s' fd = x → (∀ fd', fd' ≠ fd → slot s' fd' = slot s fd') → view s' fd = v → changes fd v s s'.
Proof. intros Hx Hs Hv fd'. destruct (decide (fd' = fd)) as [->|Hne]; [done|]. unfold view. by rewrite Hs. Qed.

Lemma view_Some s fd u r t : view s fd = Some (u, r, t) →
  ∃ c, slot s fd = Some c ∧ m_isSocket c = true ∧ m_userNonblock c = u ∧ m_recvTimeout c = r ∧ m_sendTimeout c = t.
Proof.
  unfold view. destruct (slot s fd) as [c|]; [|done]. destruct (m_isSocket c) eqn:E1; [|done]. intros [= <- <- <-]. by exists c.
Qed.

(** (C25) The hooks keep two views of a socket apart.  For the kernel every socket they know is non-blocking; the user sees a map from sockets to a mode and two
    time-outs: [socket] adds a blocking one without time-outs, F_SETFL sets the mode and F_GETFL reads it back, [setsockopt] sets a time-out, [close] removes the
    socket; mode and time-outs are recorded even when the kernel refuses the call. A system call on a socket that is blocking for its user waits with the time-out of its direction, any other
    goes to the kernel. This departs from the documented calls in four ways: the record of what was refused; a time-out of zero, for the kernel none, stays a time-out of zero, which ends the call at once; FIONBIO with
    zero, unless refused, makes the socket blocking for the kernel too, while the hooks wait for it as if it were not; and a duplicated descriptor shares the flags of its file but is not in the map. *)
Theorem hooked_descriptors s (Hok : hooks_ok s) :
  (∃ fd s', hook_socket true s = Ok (fd, s') ∧ hooks_ok s' ∧
     if decide (fd = -1) then ∀ fd', view s' fd' = view s fd' else changes fd (Some (false, no_timeout, no_timeout)) s s') ∧
  ∀ fd u r t, view s fd = Some (u, r, t) →
    non_blocking (k_flags fd (kernel s)) = true ∧
    (∀ arg, ∃ rt s', hook_fcntl fd F_SETFL arg s = Ok (rt, s') ∧ hooks_ok s' ∧ changes fd (Some (non_blocking arg, r, t)) s s') ∧
    (∀ arg, ∃ flags, hook_fcntl fd F_GETFL arg s = Ok (flags, s) ∧ non_blocking flags = u) ∧
    (∀ sec usec, ∃ rt s', hook_setsockopt true fd SOL_SOCKET SO_RCVTIMEO sec usec s = Ok (rt, s') ∧ hooks_ok s' ∧
       changes fd (Some (u, timeout_ms sec usec, t)) s s') ∧
    (∀ sec usec, ∃ rt s', hook_setsockopt true fd SOL_SOCKET SO_SNDTIMEO sec usec s = Ok (rt, s') ∧ hooks_ok s' ∧
       changes fd (Some (u, r, timeout_ms sec usec)) s s') ∧
    (∃ rt s', hook_close true fd s = Ok ((true, rt), s') ∧ hooks_ok s' ∧ changes fd None s s') ∧
    (∀ so, do_io_entry true fd so s = Ok (if u then Direct else Hooked (if so =? SO_RCVTIMEO then r else t), s)) ∧
    (∃ rt s', hook_setsockopt true fd SOL_SOCKET SO_RCVTIMEO 0 0 s = Ok (rt, s') ∧
       do_io_entry true fd SO_RCVTIMEO s' = Ok (if u then Direct else Hooked 0, s')) ∧
    (∃ rt s', hook_ioctl fd FIONBIO 0 s = Ok (rt, s') ∧ (rt = -1 ∨ non_blocking (k_flags fd (kernel s')) = false) ∧
       do_io_entry true fd SO_RCVTIMEO s' = Ok (Hooked r, s')) ∧
    (∀ arg, ∃ rt s', hook_fcntl fd 0 (* F_DUPFD *) arg s = Ok (rt, s') ∧ ∀ fd', view s' fd' = view s fd').
Proof.
  split.
  - destruct (socket_opens s Hok) as (fd & s' & E1 & H). exists fd, s'. split; [done|]. destruct (decide (fd = -1)).
    + destruct H as [H1 H2]. split; [done|]. intros fd'. unfold view. by rewrite H2.
    + destruct H as (_ & H1 & H2 & H3). split; [done|]. eapply changes_slot; [done|done|]. by rewrite (view_of _ _ _ H2).
  - intros fd u r t (c & Hc & Hsock & <- & <- & <-)%view_Some. split; [by apply (ok_ctx s Hok fd c Hc)|].
    assert (Hview : ∀ s' c', slot s' fd = Some c' → m_isSocket c' = true → (∀ fd', fd' ≠ fd → slot s' fd' = slot s fd') →
      changes fd (Some (m_userNonblock c', m_recvTimeout c', m_sendTimeout c')) s s').
    { intros s' c' H1 H2 H3. eapply changes_slot; [done|done|]. by rewrite (view_of _ _ _ H1), H2. }
    split_and!.
    + intros arg. destruct (setfl_run fd arg s c Hok Hc Hsock) as (rt & s' & E1 & H1 & H2 & H3). exists rt, s'. split_and!; [done|done|].
      by apply (Hview _ _ H2).
    + intros arg. by apply getfl_run.
    + intros sec usec. destruct (setsockopt_run fd SO_RCVTIMEO sec usec s c Hok Hc) as (rt & s' & E1 & H1 & H2 & H3); [by left|].
      exists rt, s'. split_and!; [done|done|]. by apply (Hview _ _ H2).
    + intros sec usec. destruct (setsockopt_run fd SO_SNDTIMEO sec usec s c Hok Hc) as (rt & s' & E1 & H1 & H2 & H3); [by right|].
      exists rt, s'. split_and!; [done|done|]. by apply (Hview _ _ H2).
    + destruct (close_run fd s c Hok Hc) as (rt & s' & E1 & H1 & H2 & H3). exists rt, s'. split_and!; [done|done|].
      eapply changes_slot; [done|done|]. unfold view. by rewrite H2.
    + intros so. rewrite (entry_run fd so s c); [done|by left|done|done].
    + destruct (setsockopt_run fd SO_RCVTIMEO 0 0 s c Hok Hc) as (rt & s' & E1 & H1 & H2 & _); [by left|]. exists rt, s'. split; [done|].
      rewrite (entry_run fd SO_RCVTIMEO s' (setTimeout SO_RCVTIMEO (timeout_ms 0 0) c)); [done|by left|exact H2|done].
    + destruct (ioctl_run fd 0 s c Hok Hc Hsock) as (rt & s' & E1 & H1 & H2). exists rt, s'. split_and!; [done|done|].
      rewrite (entry_run fd SO_RCVTIMEO s' (setUserNonblock (negb (0 =? 0)) c)); [done| |exact H1|done]. right. by apply (ok_ctx s Hok fd c Hc).
    + intros arg. change (hook_fcntl fd 0 arg s) with (system (k_fcntl fd 0 (Some arg)) s). rewrite system_run. by eexists _, _.
Qed.
End props.

(** How long the sleeping hooks arm their timer, in milliseconds. [sleep] is exact up to 4294967 seconds and shorter than asked for above; [usleep]
    is cut to whole milliseconds, so that less than one is no wait at all; [nanosleep] is cut likewise and right up to 2147482 seconds; from 2147484 seconds on a
    negative [int] becomes a time of more than 500 million years, and from 4294968 on the time wraps to a short one. *)
Theorem sleep_lengths seconds usec nsec (Hs : 0 <= seconds < 2 ^ 32) (Hu : 0 <= usec < 2 ^ 32) (Hn : 0 <= nsec < 10 ^ 9) :
  (seconds <= 4294967 → sleep_ms seconds = seconds * 1000) ∧
  (4294967 < seconds → sleep_ms seconds < seconds * 1000) ∧
  (usleep_ms usec * 1000 <= usec < (usleep_ms usec + 1) * 1000) ∧ (usec < 1000 → usleep_ms usec = 0) ∧
  (seconds <= 2147482 → nanosleep_ms seconds nsec = seconds * 1000 + nsec / 10 ^ 6) ∧
  (2147484 <= seconds <= 4294966 → 2 ^ 64 - 2 ^ 31 <= nanosleep_ms seconds nsec) ∧
  (4294968 <= seconds <= 6442449 → nanosleep_ms seconds nsec = seconds * 1000 + nsec / 10 ^ 6 - 2 ^ 32).
Proof.
  unfold sleep_ms, usleep_ms, nanosleep_ms.
  rewrite (Z.quot_div_nonneg nsec), (Z.quot_div_nonneg (nsec / 1000)), Z.div_div by (try apply Z.div_pos; lia).
  change (1000 * 1000) with (10 ^ 6). assert (Hd : 0 <= nsec / 10 ^ 6 < 1000).
  { split; [apply Z.div_pos; lia|apply Z.div_lt_upper_bound; lia]. }
  set (q := nsec / 10 ^ 6) in *. cbv zeta. split_and!.
  - intros ?. apply Z.mod_small. lia.
  - intros ?. rewrite Z.mod_eq by lia. assert (0 < seconds * 1000 / 2 ^ 32) by (apply Z.div_str_pos; lia). lia.
  - pose proof (Z.div_mod usec 1000 ltac:(lia)). pose proof (Z.mod_pos_bound usec 1000 ltac:(lia)). lia.
  - pose proof (Z.div_mod usec 1000 ltac:(lia)). pose proof (Z.mod_pos_bound usec 1000 ltac:(lia)). lia.
  - intros ?. apply Z.div_small. lia.
  - intros ?. rewrite (Z.mod_small (seconds * 1000 + q)) by lia. destruct (Z.geb_spec (seconds * 1000 + q) (2 ^ 31)); [lia|].
    apply Z.mod_small. lia.
  - intros ?. rewrite (Z.mod_small (seconds * 1000 + q)) by lia. destruct (Z.geb_spec (seconds * 1000 + q) (2 ^ 31)); [|lia].
    rewrite <- (Z.mod_unique _ (2 ^ 64) (-1) (seconds * 1000 + q - 2 ^ 32 + 2 ^ 64)); lia.
  - intros ?. rewrite <- (Z.mod_unique (seconds * 1000 + q) (2 ^ 32) 1 (seconds * 1000 + q - 2 ^ 32)) by lia.
    destruct (Z.geb_spec (seconds * 1000 + q - 2 ^ 32) (2 ^ 31)); [lia|]. apply Z.mod_small. lia.
Qed.

(** ** Witnesses *)

(** A kernel of descriptors that are sockets or not, with their flags, by number. *)
Definition toy_kernel : Type := list (option (bool * Z)).

Definition toy_lookup (fd : Z) (k : list (option (bool * Z))) : option (bool * Z) := if fd <? 0 then None else mjoin (k !! Z.to_nat fd).

Definition toy_set (fd : Z) (x : option (bool * Z)) (k : list (option (bool * Z))) : list (option (bool * Z)) := if fd <? 0 then k else <[Z.to_nat fd := x]> k.

Definition toy_flags (fd : Z) (k : list (option (bool * Z))) : Z := match toy_lookup fd k with Some (_, f) => f | None => 0 end.

Definition toy_set_flags (fd v : Z) (k : list (option (bool * Z))) : list (option (bool * Z)) :=
  match toy_lookup fd k with Some (b, _) => toy_set fd (Some (b, v)) k | None => k end.

#[export] Instance toy_Kernel : Kernel toy_kernel := {
  k_fstat fd k := fst <$> toy_lookup fd k;
  k_fcntl fd cmd arg k := if cmd =? F_GETFL then (toy_flags fd k, k) else if cmd =? F_SETFL then (0, toy_set_flags fd (default 0 arg) k) else (0, k);
  k_ioctl fd request arg k := if request =? FIONBIO
    then (0, toy_set_flags fd (if arg =? 0 then Z.ldiff (toy_flags fd k) O_NONBLOCK else Z.lor (toy_flags fd k) O_NONBLOCK) k) else (0, k);
  k_socket k := (Z.of_nat (length k), k ++ [Some (true, 2)]);
  k_close fd k := (0, toy_set fd None k);
  k_setsockopt fd level optname k := (0, k)
}.

Lemma toy_lookup_set fd x k fd' : toy_lookup fd k ≠ None ∨ x = None →
  toy_lookup fd' (toy_set fd x k) = if decide (fd' = fd) then x else toy_lookup fd' k.
Proof.
  intros Hin. unfold toy_lookup, toy_set in *. destruct (Z.ltb_spec fd 0); destruct (decide (fd' = fd)) as [->|Hne].
  - destruct (Z.ltb_spec fd 0); [|lia]. by destruct Hin.
  - done.
  - destruct (Z.ltb_spec fd 0); [lia|]. destruct (decide (Z.to_nat fd < length k)%nat).
    + by rewrite list_lookup_insert_eq.
    + rewrite lookup_ge_None_2 by (rewrite length_insert; lia). rewrite lookup_ge_None_2 in Hin by lia. by destruct Hin.
  - destruct (Z.ltb_spec fd' 0); [done|]. by rewrite list_lookup_insert_ne by lia.
Qed.

(** Setting the flags of an open descriptor. *)
Lemma toy_flags_set fd v k : toy_lookup fd k ≠ None → let k' := toy_set_flags fd v k in
  toy_flags fd k' = v ∧ (∀ fd', fd' ≠ fd → toy_flags fd' k' = toy_flags fd' k) ∧ ∀ fd', fst <$> toy_lookup fd' k' = fst <$> toy_lookup fd' k.
Proof.
  intros Hin. unfold toy_set_flags, toy_flags. destruct (toy_lookup fd k) as [[b f]|] eqn:E1; [|done]. cbv zeta. split_and!.
  - rewrite toy_lookup_set by (left; congruence). by rewrite decide_True.
  - intros fd' Hne. rewrite toy_lookup_set by (left; congruence). by rewrite decide_False.
  - intros fd'. rewrite toy_lookup_set by (left; congruence). destruct (decide (fd' = fd)) as [->|]; [by rewrite E1|done].
Qed.

(** Every descriptor has a file of its own. *)
#[export] Instance toy_KernelLaws : KernelLaws toy_kernel.
Proof.
  refine {| k_flags := toy_flags; k_file fd _ := fd |}.
  - done.
  - intros fd v k Hin. assert (Hin' : toy_lookup fd k ≠ None) by (intros E1; apply Hin; cbn; by rewrite E1).
    destruct (toy_flags_set fd v k Hin') as (H1 & H2 & H3). cbn. split; [done|]. intros fd' _. case_decide as Hd; [destruct Hd as [_ ->]; by rewrite H1|].
    apply H2. intros ->. by destruct Hd.
  - done.
  - intros fd v k Hin. assert (Hin' : toy_lookup fd k ≠ None) by (intros E1; apply Hin; cbn; by rewrite E1). cbn.
    destruct (v =? 0); (edestruct (toy_flags_set fd) as (H1 & H2 & H3); [exact Hin'|]; split; [exact H3|]; intros fd' _; case_decide as Hd;
      [destruct Hd as [_ ->]; rewrite H1; first [apply non_blocking_ldiff|apply non_blocking_lor]|apply H2; intros ->; by destruct Hd]).
  - intros k. cbn. right. assert (Hlook : ∀ fd', toy_lookup fd' (k ++ [Some (true, 2)]) =
      if decide (fd' = Z.of_nat (length k)) then Some (true, 2) else toy_lookup fd' k).
    { intros fd'. unfold toy_lookup. destruct (Z.ltb_spec fd' 0); destruct (decide (fd' = Z.of_nat (length k))) as [->|Hne]; try lia; [done| |].
      - rewrite Nat2Z.id, lookup_app_r, Nat.sub_diag by done. done.
      - destruct (decide (Z.to_nat fd' < length k)%nat); [by rewrite lookup_app_l|].
        rewrite (lookup_ge_None_2 k), lookup_ge_None_2 by (rewrite ?length_app; cbn; lia). done. }
    split_and!; [lia| | |].
    + unfold toy_lookup. destruct (Z.ltb_spec (Z.of_nat (length k)) 0); [done|]. by rewrite lookup_ge_None_2 by lia.
    + rewrite Hlook. by rewrite decide_True.
    + intros fd' Hne. unfold toy_flags. rewrite Hlook. by rewrite decide_False.
  - intros fd k. cbn. intros fd' Hne. unfold toy_flags. rewrite toy_lookup_set by (by right). by rewrite decide_False.
  - done.
Qed.

(** Three open descriptors that are not sockets, and a socket made by the hook. *)
Definition sample_hooks : Hooks toy_kernel :=
  match hook_socket true (new_FdManager [Some (false, 2); Some (false, 2); Some (false, 2)]) with
  | Ok (_, s) => s
  | Fail _ => new_FdManager []
  end.

Lemma new_hooks_ok {K} `{!Kernel K, !KernelLaws K} (k : K) : hooks_ok (new_FdManager k).
Proof.
  split; [by vm_compute|]. intros fd c. unfold slot, new_FdManager. cbn [m_datas]. destruct (fd <? 0); [done|].
  destruct (replicate 64 (A := option FdCtx) None !! Z.to_nat fd) as [x|] eqn:E1; [|done]. apply lookup_replicate in E1 as [-> _]. done.
Qed.

Lemma sample_ok : hooks_ok sample_hooks.
Proof.
  unfold sample_hooks. destruct (socket_opens _ (new_hooks_ok [Some (false, 2); Some (false, 2); Some (false, 2)])) as (fd & s' & E1 & H).
  rewrite E1. destruct (decide (fd = -1)); [by destruct H|]. by destruct H as (_ & ? & _).
Qed.

Lemma hooked_descriptors_witness : hooks_ok sample_hooks ∧ view sample_hooks 3 = Some (false, no_timeout, no_timeout) ∧
  non_blocking (k_flags 3 (kernel sample_hooks)) = true.
Proof.
  split; [exact sample_ok|]. split; [vm_compute; reflexivity|].
  destruct (hooked_descriptors sample_hooks sample_ok) as (_ & H). eapply (H 3). vm_compute. reflexivity.
Defined.

Lemma sleep_lengths_witness : sleep_ms 5 = 5000 ∧ nanosleep_ms 5 1500000 = 5001 ∧ usleep_ms 999 = 0.
Proof.
  destruct (sleep_lengths 5 999 1500000 ltac:(lia) ltac:(lia) ltac:(lia)) as (H1 & _ & _ & H2 & H3 & _).
  split; [|split]; [rewrite H1; lia|rewrite H3; [reflexivity|lia]|apply H2; lia].
Defined.
