(* ===== verification/Config.v ===== *)
(** * Config: configuration variables ([sylar/config.h], [config.cc])

    Variables of several types, kept by name, with listeners; they are loaded
    from a YAML document.  YAML itself is a parameter, the class [Yaml]; the
    conversions of containers are those of [config.h]. *)

From S2P Require Import Prelude.
From S2P Require Export Text.
From S2P Require Import Http Log.

(** ** YAML *)

(** Nodes of type [N]: [y_load] parses a text or throws, [y_emit] prints; [y_items] are [node[0]], ..., [node[size - 1]], [y_pairs] what
    the iteration over a node yields, a key by its scalar; [y_seq] and [y_map] build a sequence and a map; [y_depth] is the depth of the nesting, for a node
    that no alias inside it refers to. *)
Class Yaml (N : Type) := {
  y_load : text → option N;
  y_emit : N → text;
  y_scalar : N → option text;
  y_items : N → list N;
  y_is_map : N → bool;
  y_pairs : N → list (text * N);
  y_seq : list N → N;
  y_map : list (text * N) → N;
  y_text : text → N;
  y_depth : N → nat
}.

(** ** [LexicalCast] *)

(** The conversions of a type from and to a string; [None] is an exception. *)
Class LexicalCast (T : Type) := { from_str : text → option T; to_str : T → option text }.

Section containers.
Context {N : Type} `{!Yaml N}.

(** Each item is printed and converted. *)
Definition items_from {T} `{!LexicalCast T} (l : list N) : option (list T) := mapM (λ i, from_str (y_emit i)) l.

(** Each item is converted and parsed. *)
Definition items_to {T} `{!LexicalCast T} (l : list T) : option (list N) := mapM (λ i, to_str i ≫= y_load) l.

(** [std::vector] and [std::list] *)
Definition list_cast {T} `{!LexicalCast T} : LexicalCast (list T) := {|
  from_str v := node ← y_load v; items_from (y_items node);
  to_str v := l ← items_to v; Some (y_emit (y_seq l))
|}.

(** [std::set] and [std::unordered_set]: the order of iteration is an argument. *)
Definition set_cast {T} `{!LexicalCast T, Countable T} (iteration : gset T → list T) : LexicalCast (gset T) := {|
  from_str v := node ← y_load v; l ← items_from (y_items node); Some (list_to_set l);
  to_str v := l ← items_to (iteration v); Some (y_emit (y_seq l))
|}.

(** [std::map] and [std::unordered_map]; [insert] keeps the first value of a key. *)
Definition insert_first {T} (m : gmap text T) (kv : text * T) : gmap text T :=
  match m !! kv.1 with Some _ => m | None => <[kv.1 := kv.2]> m end.

Definition map_cast {T} `{!LexicalCast T} (iteration : gmap text T → list (text * T)) : LexicalCast (gmap text T) := {|
  from_str v :=
    node ← y_load v;
    l ← mapM (λ kv : text * N, x ← from_str (y_emit kv.2); Some (kv.1, x)) (y_pairs node);
    Some (fold_left insert_first l ∅);
  to_str v :=
    l ← mapM (λ kv : text * T, n ← to_str kv.2 ≫= y_load; Some (kv.1, n)) (iteration v);
    Some (y_emit (y_map l))
|}.
End containers.
#[export] Existing Instance list_cast.

(** ** Variables *)

(** The types of variables have numbers. *)
Class Types := {
  El : positive → Type;
  El_eq_dec : ∀ t, EqDecision (El t);
  El_cast : ∀ t, LexicalCast (El t)
}.
#[export] Existing Instance El_eq_dec.
#[export] Existing Instance El_cast.

Section config.
Context {N : Type} `{!Yaml N, !Types}.

(** [ConfigVar]; a listener is a number, its key the one [addListener] returned. *)
Record ConfigVar := mkVar {
  v_type : positive;
  v_name : text;
  m_description : text;
  m_val : El v_type;
  m_cbs : list (Z * Z)
}.

(** A call of a listener. *)
Record cb_call := mkCb { cb_type : positive; cb_name : text; cb_fn : Z; cb_old : El cb_type; cb_new : El cb_type }.

(** [s_datas], [s_fun_id] of each type, and the calls of listeners so far. *)
Record Config := mkConfig { s_datas : gmap text ConfigVar; s_fun_id : gmap positive Z; cb_calls : list cb_call }.

Implicit Types c : Config.

Definition valid_char (a : ascii) : bool :=
  bool_decide (a ∈ str "abcdefghikjlmnopqrstuvwxyz._012345678").

(** [find_first_not_of(...) == npos] *)
Definition valid_name (name : text) : bool := forallb valid_char name.

Definition to_lower (name : text) : text := map tolower name.

Definition new_ConfigVar (t : positive) (name : text) (default_value : El t) (description : text) : ConfigVar :=
  mkVar t (to_lower name) description default_value [].

(** A variable found, a null pointer, or [std::invalid_argument]. *)
Inductive looked_up := Found (name : text) | Null | Invalid.

Definition put_var (name : text) (x : ConfigVar) c : Config := mkConfig (<[name := x]> (s_datas c)) (s_fun_id c) (cb_calls c).

(** [Lookup] with a default value *)
Definition Config_Lookup (t : positive) (name : text) (default_value : El t) (description : text) c : looked_up * Config :=
  match s_datas c !! name with
  | Some x => (if decide (v_type x = t) then Found name else Null, c)
  | None => if valid_name name then (Found name, put_var name (new_ConfigVar t name default_value description) c) else (Invalid, c)
  end.

(** [Lookup] without *)
Definition Lookup_existing (t : positive) (name : text) c : looked_up :=
  match s_datas c !! name with Some x => if decide (v_type x = t) then Found name else Null | None => Null end.

Definition LookupBase (name : text) c : option ConfigVar := s_datas c !! name.

Definition set_val (x : ConfigVar) (v : El (v_type x)) : ConfigVar := mkVar (v_type x) (v_name x) (m_description x) v (m_cbs x).

Definition set_cbs (l : list (Z * Z)) (x : ConfigVar) : ConfigVar := mkVar (v_type x) (v_name x) (m_description x) (m_val x) l.

(** [setValue]: the listeners are called, in the order of their keys, before the value changes. *)
Definition setValue (x : ConfigVar) (v : El (v_type x)) : ConfigVar * list cb_call :=
  if decide (v = m_val x) then (x, [])
  else (set_val x v, map (λ i : Z * Z, mkCb (v_type x) (v_name x) i.2 (m_val x) v) (m_cbs x)).

(** [fromString]: a text that cannot be converted changes nothing. *)
Definition fromString (x : ConfigVar) (val : text) : ConfigVar * list cb_call * bool :=
  match from_str val with Some v => (setValue x v, true) | None => (x, [], false) end.

Definition var_toString (x : ConfigVar) : text := match to_str (m_val x) with Some s => s | None => [] end.

(** [addListener] on the variable of a name: keys are counted for each type. *)
Definition addListener (name : text) (cb : Z) c : option (Z * Config) :=
  match s_datas c !! name with
  | Some x =>
      let id := (default 0 (s_fun_id c !! v_type x) + 1) mod 2 ^ 64 in
      Some (id, mkConfig (<[name := set_cbs (m_cbs x ++ [(id, cb)]) x]> (s_datas c)) (<[v_type x := id]> (s_fun_id c)) (cb_calls c))
  | None => None
  end.

Definition delListener (key : Z) (x : ConfigVar) : ConfigVar := set_cbs (filter (λ i : Z * Z, i.1 ≠ key) (m_cbs x)) x.

Definition clearListener (x : ConfigVar) : ConfigVar := set_cbs [] x.

(** [getListener] *)
Definition getListener (key : Z) (x : ConfigVar) : option Z := snd <$> head (filter (λ i : Z * Z, i.1 = key) (m_cbs x)).

(** ** Loading *)

Definition name_dot : ascii := "."%char.

Definition member_name (prefix key : text) : text := if decide (prefix = []) then key else prefix ++ name_dot :: key.

(** The fuel is the depth of the node. *)
Fixpoint ListAllMember (fuel : nat) (prefix : text) (node : N) : list (text * N) :=
  if negb (valid_name prefix) then []
  else (prefix, node) ::
    match fuel with
    | O => []
    | S fuel => if y_is_map node then concat (map (λ it : text * N, ListAllMember fuel (member_name prefix it.1) it.2) (y_pairs node)) else []
    end.

(** The text of a node. *)
Definition node_text (node : N) : text := match y_scalar node with Some s => s | None => y_emit node end.

(** The body of the loop. *)
Definition load_node (c : Config) (i : text * N) : Config :=
  if decide (i.1 = []) then c
  else
    let key := to_lower i.1 in
    match LookupBase key c with
    | Some var =>
        let '(var', calls, _) := fromString var (node_text i.2) in
        mkConfig (<[key := var']> (s_datas c)) (s_fun_id c) (cb_calls c ++ calls)
    | None => c
    end.

Definition LoadFromYaml (root : N) (c : Config) : Config := fold_left load_node (ListAllMember (y_depth root) [] root) c.

(** [LoadFromConfDir] for one file, with its time of modification and what [YAML::LoadFile] yields; the first component is
    [s_file2modifytime]. *)
Definition load_conf_file (force : bool) (st : gmap text Z * Config) (f : text * Z * option N) : gmap text Z * Config :=
  let '(name, mtime, root) := f in
  if negb force && (default 0 (st.1 !! name) =? mtime) then (<[name := mtime]> st.1, st.2)
  else (<[name := mtime]> st.1, match root with Some root => LoadFromYaml root st.2 | None => st.2 end).

Definition LoadFromConfDir (force : bool) (files : list (text * Z * option N)) (st : gmap text Z * Config) : gmap text Z * Config :=
  fold_left (load_conf_file force) files st.

(** [Visit]: what it does for every variable. *)
Definition Visit {A} (cb : ConfigVar → A) c : list A := map (λ kx : text * ConfigVar, cb kx.2) (map_to_list (s_datas c)).
End config.

(** ** Definitions of loggers ([LexicalCast<std::string, LogDefine>] of [sylar/log.cc] and its inverse) *)

Section log_define.
Context {N : Type} `{!Yaml N}.

(** [node[key]], if it is defined. *)
Definition y_get (key : text) (node : N) : option N := snd <$> head (filter (λ kv : text * N, kv.1 = key) (y_pairs node)).

(** [as<std::string>()] of a member, or a default; a node that is no scalar throws. *)
Definition y_string (key default_value : text) (node : N) : option text :=
  match y_get key node with Some n => y_scalar n | None => Some default_value end.

(** The loop over the appenders; the inner option is [continue]. *)
Definition read_appender (a : N) : option (option LogAppenderDefine) :=
  match y_get (str "type") a with
  | None => Some None
  | Some t =>
      type ← y_scalar t;
      if decide (type = str "FileLogAppender") then
        match y_get (str "file") a with
        | None => Some None
        | Some f => file ← y_scalar f; formatter ← y_string (str "formatter") [] a; Some (Some (mkAppenderDefine 1 UNKNOW formatter file))
        end
      else if decide (type = str "StdoutLogAppender") then
        formatter ← y_string (str "formatter") [] a; Some (Some (mkAppenderDefine 2 UNKNOW formatter []))
      else Some None
  end.

Definition LogDefine_from (v : text) : option LogDefine :=
  n ← y_load v;
  match y_get (str "name") n with
  | None => None
  | Some name =>
      name ← y_scalar name;
      level ← y_string (str "level") [] n;
      formatter ← y_string (str "formatter") [] n;
      appenders ← (match y_get (str "appenders") n with Some l => mapM read_appender (y_items l) | None => Some [] end);
      Some (mkLogDefine name (LogLevel_FromString level) formatter (omap id appenders))
  end.

(** What is assigned for a level and for a formatter. *)
Definition level_member (level : LogLevel) : list (text * N) :=
  if decide (level = UNKNOW) then [] else [(str "level", y_text (LogLevel_ToString level))].

Definition text_member (key t : text) : list (text * N) := if decide (t = []) then [] else [(key, y_text t)].

Definition write_appender (a : LogAppenderDefine) : N :=
  y_map ((if lad_type a =? 1 then [(str "type", y_text (str "FileLogAppender")); (str "file", y_text (lad_file a))]
          else if lad_type a =? 2 then [(str "type", y_text (str "StdoutLogAppender"))] else []) ++
         level_member (lad_level a) ++ text_member (str "formatter") (lad_formatter a)).

Definition LogDefine_to (i : LogDefine) : text :=
  y_emit (y_map ((str "name", y_text (ld_name i)) :: level_member (ld_level i) ++ text_member (str "formatter") (ld_formatter i) ++
    match ld_appenders i with [] => [] | l => [(str "appenders", y_seq (map write_appender l))] end)).
End log_define.
