(* ===== verification/ConfigProps.v ===== *)
(** * ConfigProps: looking up and loading configuration variables *)

From S2P Require Import Prelude.
From S2P Require Import Http Log.
From S2P Require Export Config.

(** A node that is parsed again from what is printed of it. *)
Definition plain {N} `{!Yaml N} (n : N) : Prop := y_load (y_emit n) = Some n.

(** A node whose maps are nested at most [fuel] deep. *)
Fixpoint nested {N} `{!Yaml N} (fuel : nat) (n : N) : Prop :=
  y_is_map n = true → match fuel with O => y_pairs n = [] | S fuel => Forall (λ kv : text * N, nested fuel kv.2) (y_pairs n) end.

Definition letter (a : ascii) : bool :=
  let n := nat_of_ascii a in ((65 <=? n) && (n <=? 90) || (97 <=? n) && (n <=? 122))%nat.

(** Containers have the items they were made of; words and containers of plain nodes are plain. *)
Class YamlLaws (N : Type) `{!Yaml N} := {
  items_seq : ∀ l, y_items (y_seq l) = l;
  pairs_map : ∀ l, NoDup (map fst l) → y_pairs (y_map l) = l;
  scalar_text : ∀ t, y_scalar (y_text t) = Some t;
  plain_word : ∀ t, t ≠ [] → forallb letter t = true → plain (y_text t);
  plain_seq : ∀ l, Forall plain l → plain (y_seq l);
  plain_map : ∀ l, NoDup (map fst l) → Forall (λ kv : text * N, plain (y_text kv.1) ∧ plain kv.2) l → plain (y_map l)
}.

(** A value that is read back from its string, at once and through a node. *)
Definition survives {N} `{!Yaml N} {T} `{!LexicalCast T} (x : T) : Prop :=
  ∃ s n, to_str x = Some s ∧ y_load s = Some n ∧ plain n ∧ from_str s = Some x ∧ from_str (y_emit n) = Some x.

(** ** Containers *)

Section containers.
Context {N : Type} `{!Yaml N, !YamlLaws N} {T : Type} `{!LexicalCast T}.

Lemma items_cast (l : list T) : Forall (survives (N := N)) l →
  ∃ ns : list N, items_to l = Some ns ∧ items_from ns = Some l ∧ Forall plain ns.
Proof.
  unfold items_to, items_from. induction 1 as [|x l (s & n & H1 & H2 & H3 & _ & H4) _ (ns & E1 & E2 & E3)]; [by exists []|].
  exists (n :: ns). cbn. rewrite H1. cbn. rewrite H2. cbn. rewrite E1, H4. cbn. rewrite E2. by split_and!; [| |constructor].
Qed.

(** A container that prints a plain node and reads it. *)
Lemma survives_plain {U} {C : LexicalCast U} (x : U) (n : N) : to_str x = Some (y_emit n) → plain n → from_str (y_emit n) = Some x → survives (N := N) x.
Proof. intros H1 H2 H3. by exists (y_emit n), n. Qed.

Lemma list_survives (l : list T) : Forall (survives (N := N)) l → survives (N := N) (LexicalCast0 := list_cast) l.
Proof.
  intros (ns & E1 & E2 & E3)%items_cast. pose proof (plain_seq ns E3) as Hp. apply (survives_plain l (y_seq ns)); [cbn; by rewrite E1|done|].
  cbn. rewrite Hp. cbn. by rewrite items_seq, E2.
Qed.

Lemma set_survives `{Countable T} (iteration : gset T → list T) (X : gset T) : iteration X ≡ₚ elements X → set_Forall (survives (N := N)) X →
  survives (N := N) (LexicalCast0 := set_cast (N := N) iteration) X.
Proof.
  intros Hit HX. assert (Hl : Forall (survives (N := N)) (iteration X)) by (rewrite Hit; by apply set_Forall_elements).
  destruct (items_cast _ Hl) as (ns & E1 & E2 & E3). pose proof (plain_seq ns E3) as Hp.
  apply (survives_plain (C := set_cast (N := N) iteration) X (y_seq ns)); [cbn; by rewrite E1|done|].
  cbn. rewrite Hp. cbn. rewrite items_seq, E2. cbn. f_equal. rewrite Hit.
  apply set_eq. intros x. by rewrite elem_of_list_to_set, elem_of_elements.
Qed.

(** The first value of a key counts. *)
Lemma insert_first_lookup (l : list (text * T)) (m : gmap text T) k : fold_left insert_first l m !! k =
  match m !! k with Some x => Some x | None => snd <$> head (filter (λ kv : text * T, kv.1 = k) l) end.
Proof.
  revert m. induction l as [|[k' x] l IH]; intros m; cbn [fold_left]; [by destruct (m !! k)|]. rewrite IH, filter_cons. unfold insert_first. cbn [fst snd].
  destruct (m !! k') eqn:E1; [destruct (decide (k' = k)) as [->|]; [by rewrite E1|done]|]. rewrite lookup_insert.
  destruct (decide (k' = k)) as [->|]; [by rewrite E1|done].
Qed.

Lemma insert_first_all (l : list (text * T)) (m : gmap text T) : l ≡ₚ map_to_list m → fold_left insert_first l ∅ = m.
Proof.
  intros Hl. apply map_eq. intros k. rewrite insert_first_lookup, lookup_empty.
  destruct (m !! k) as [x|] eqn:Ek.
  - apply elem_of_map_to_list in Ek. assert (Hin : (k, x) ∈ filter (λ kv : text * T, kv.1 = k) l) by (apply list_elem_of_filter; by rewrite Hl).
    destruct (filter _ l) as [|[k' y] l'] eqn:Ef; [by apply elem_of_nil in Hin|]. assert (Hy : (k', y) ∈ filter (λ kv : text * T, kv.1 = k) l) by (rewrite Ef; by left).
    apply list_elem_of_filter in Hy as [E1 Hy]. cbn in *. subst k'. rewrite Hl in Hy. f_equal. apply elem_of_map_to_list in Hy, Ek. congruence.
  - destruct (filter _ l) as [|[k' y] l'] eqn:Ef; [done|]. assert (Hy : (k', y) ∈ filter (λ kv : text * T, kv.1 = k) l) by (rewrite Ef; by left).
    apply list_elem_of_filter in Hy as [E1 Hy]. cbn in *. subst k'. rewrite Hl in Hy. apply elem_of_map_to_list in Hy. congruence.
Qed.

Lemma pairs_cast (l : list (text * T)) : Forall (λ kv, plain (N := N) (y_text kv.1) ∧ survives (N := N) kv.2) l →
  ∃ ns : list (text * N), mapM (λ kv : text * T, n ← to_str kv.2 ≫= y_load; Some (kv.1, n)) l = Some ns ∧ map fst ns = map fst l ∧
    mapM (λ kv : text * N, x ← from_str (y_emit kv.2); Some (kv.1, x)) ns = Some l ∧ Forall (λ kv : text * N, plain (y_text kv.1) ∧ plain kv.2) ns.
Proof.
  induction 1 as [|[k x] l [Hk (s & n & H1 & H2 & H3 & _ & H4)] _ (ns & E1 & E2 & E3 & E4)]; [by exists []|].
  exists ((k, n) :: ns). cbn in *. rewrite H1. cbn. rewrite H2. cbn. rewrite E1. cbn. rewrite H4. cbn. rewrite E3, E2. cbn. by split_and!; [| | |constructor].
Qed.

Lemma map_survives (iteration : gmap text T → list (text * T)) (m : gmap text T) : iteration m ≡ₚ map_to_list m →
  map_Forall (λ k x, plain (N := N) (y_text k) ∧ survives (N := N) x) m → survives (N := N) (LexicalCast0 := map_cast (N := N) iteration) m.
Proof.
  intros Hit Hm. assert (Hl : Forall (λ kv, plain (N := N) (y_text kv.1) ∧ survives (N := N) kv.2) (iteration m)).
  { rewrite Hit. apply Forall_forall. intros [k x] Hin%elem_of_map_to_list. by apply Hm. }
  destruct (pairs_cast _ Hl) as (ns & E1 & E2 & E3 & E4).
  assert (Hnd : NoDup (map fst ns)).
  { rewrite E2. assert (Hp : map fst (iteration m) ≡ₚ map fst (map_to_list m)) by (by apply fmap_Permutation). rewrite Hp. apply NoDup_fst_map_to_list. }
  pose proof (plain_map ns Hnd E4) as Hp. apply (survives_plain (C := map_cast (N := N) iteration) m (y_map ns)); [cbn; by rewrite E1|done|].
  cbn. rewrite Hp. cbn. rewrite pairs_map, E3 by done. cbn. f_equal. by apply insert_first_all.
Qed.

(** ** Failures *)

Lemma items_from_fails (l : list N) : items_from (T := T) l = None ↔ ∃ i, i ∈ l ∧ from_str (T := T) (y_emit i) = None.
Proof. unfold items_from. rewrite mapM_None, Exists_exists. done. Qed.

Lemma pairs_from_fails (l : list (text * N)) : mapM (λ kv : text * N, x ← from_str (T := T) (y_emit kv.2); Some (kv.1, x)) l = None ↔
  ∃ kv, kv ∈ l ∧ from_str (T := T) (y_emit kv.2) = None.
Proof.
  rewrite mapM_None, Exists_exists. split; intros (kv & Hin & H); exists kv; (split; [done|]); cbn in *; [by destruct (from_str (y_emit kv.2))|by rewrite H].
Qed.

Lemma pairs_from_lookup (ns : list (text * N)) (l : list (text * T)) k :
  mapM (λ kv : text * N, x ← from_str (T := T) (y_emit kv.2); Some (kv.1, x)) ns = Some l →
  snd <$> head (filter (λ kv : text * T, kv.1 = k) l) = head (filter (λ kv : text * N, kv.1 = k) ns) ≫= λ kv, from_str (y_emit kv.2).
Proof.
  intros H%mapM_Some. induction H as [|[k1 n] [k2 x] ns l H _ IH]; [done|]. apply bind_Some in H as (y & E1 & [= <- <-]).
  rewrite !filter_cons. cbn [fst snd] in *. destruct (decide (k1 = k)); [by cbn; rewrite E1|done].
Qed.
End containers.

(** ** Names *)

(** Lower-case letters, the name_dot, the underscore, and the digits but 9. *)
Definition name_char (a : ascii) : bool :=
  let n := nat_of_ascii a in ((97 <=? n) && (n <=? 122) || (n =? 46) || (n =? 95) || (48 <=? n) && (n <=? 56))%nat.

Lemma valid_name_char name : valid_name name = forallb name_char name.
Proof.
  unfold valid_name. induction name as [|a name IH]; [done|]. cbn [forallb]. rewrite IH. f_equal.
  destruct a as [[] [] [] [] [] [] [] []]; by vm_compute.
Qed.

Lemma valid_lower a : valid_char a = true → tolower a = a.
Proof. destruct a as [[] [] [] [] [] [] [] []]; by vm_compute. Qed.

Lemma to_lower_valid name : valid_name name = true → to_lower name = name.
Proof.
  unfold valid_name, to_lower. induction name as [|a name IH]; cbn; [done|]. intros [H1 H2]%andb_true_iff. by rewrite valid_lower, IH.
Qed.

Lemma member_valid prefix key : valid_name (member_name prefix key) = valid_name prefix && valid_name key.
Proof.
  unfold member_name, valid_name. destruct (decide (prefix = [])) as [->|]; [done|]. by rewrite forallb_app.
Qed.

Section config.
Context {N : Type} `{!Yaml N, !YamlLaws N, !Types}.

Implicit Types c : Config.

(** ** The nodes of a document *)

(** The node at the end of a path of keys. *)
Inductive at_path : N → list text → N → Prop :=
  | path_here n : at_path n [] n
  | path_member n key m keys n' : y_is_map n = true → (key, m) ∈ y_pairs n → at_path m keys n' → at_path n (key :: keys) n'.

Definition path_name (prefix : text) (keys : list text) : text := fold_left member_name keys prefix.

Lemma path_valid prefix keys : valid_name (path_name prefix keys) = true → valid_name prefix = true.
Proof.
  unfold path_name. revert prefix. induction keys as [|key keys IH]; intros prefix; cbn; [done|].
  intros Hm%IH. rewrite member_valid in Hm. by apply andb_true_iff in Hm as [? _].
Qed.

Lemma list_member_path fuel prefix node p n : (p, n) ∈ ListAllMember fuel prefix node →
  ∃ keys, at_path node keys n ∧ p = path_name prefix keys ∧ valid_name p = true.
Proof.
  revert prefix node. induction fuel as [|fuel IH]; intros prefix node; cbn [ListAllMember];
    (destruct (valid_name prefix) eqn:Ev; cbn [negb]; [|by intros ?%elem_of_nil]); rewrite elem_of_cons.
  - intros [[= -> ->]|?%elem_of_nil]; [|done]. exists []. split_and!; [constructor|done|done].
  - intros [[= -> ->]|Hin]; [exists []; split_and!; [constructor|done|done]|].
    destruct (y_is_map node) eqn:Em; [|by apply elem_of_nil in Hin]. apply list_elem_of_In, in_concat in Hin as (l & Hl & Hin).
    apply in_map_iff in Hl as ([key m] & <- & Hkm). cbn in Hin. apply list_elem_of_In in Hin, Hkm.
    apply IH in Hin as (keys & Hp & -> & Hv). exists (key :: keys). split_and!; [by econstructor|done|done].
Qed.

Lemma list_member_all fuel prefix node keys n : nested fuel node → at_path node keys n → valid_name (path_name prefix keys) = true →
  (path_name prefix keys, n) ∈ ListAllMember fuel prefix node.
Proof.
  revert prefix node keys. induction fuel as [|fuel IH]; intros prefix node keys Hd Hp Hv; cbn [ListAllMember];
    rewrite (path_valid _ _ Hv); cbn [negb]; rewrite elem_of_cons; destruct Hp as [|n0 key m keys n' Hm Hin Hp]; try (by left); right.
  - specialize (Hd Hm). cbn in Hd. rewrite Hd in Hin. by apply elem_of_nil in Hin.
  - rewrite Hm. apply list_elem_of_In, in_concat. exists (ListAllMember fuel (member_name prefix key) m). split.
    + apply in_map_iff. exists (key, m). split; [done|by apply list_elem_of_In].
    + apply list_elem_of_In. specialize (Hd Hm). rewrite Forall_forall in Hd. apply (IH _ _ keys); [by apply (Hd (key, m))|done|done].
Qed.

(** ** Loading *)

(** Names are valid, and each variable has its name. *)
Definition config_ok c : Prop := ∀ name x, s_datas c !! name = Some x → v_name x = name ∧ valid_name name = true.

(** The texts that a document has for a name, in order. *)
Definition texts_at (l : list (text * N)) (name : text) : list text := map (λ i, node_text i.2) (filter (λ i, i.1 = name) l).

(** One text after the other is converted; one that cannot be converted is skipped. *)
Definition assign (x : ConfigVar) (t : text) : ConfigVar := match from_str t with Some v => set_val x v | None => x end.

(** What the listeners hear of it: every change, once for each of them, with the values before and after. *)
Fixpoint heard (x : ConfigVar) (ts : list text) : list cb_call :=
  match ts with
  | [] => []
  | t :: ts =>
      match from_str t with
      | Some v => if decide (v = m_val x) then [] else map (λ i : Z * Z, mkCb (v_type x) (v_name x) i.2 (m_val x) v) (m_cbs x)
      | None => []
      end ++ heard (assign x t) ts
  end.

Lemma set_same x : set_val x (m_val x) = x.
Proof. by destruct x. Qed.

Lemma fromString_run x t : (fromString x t).1.1 = assign x t ∧ (fromString x t).1.2 = heard x [t].
Proof.
  unfold fromString, assign, heard. destruct (from_str t) as [v|]; [|done]. unfold setValue.
  destruct (decide (v = m_val x)) as [->|]; cbn; [by rewrite set_same|by rewrite app_nil_r].
Qed.

Lemma assign_name x t : v_name (assign x t) = v_name x.
Proof. unfold assign. by destruct (from_str t). Qed.

(** One node. *)
Lemma load_node_run c p n : config_ok c → valid_name p = true →
  load_node c (p, n) =
    match s_datas c !! p with
    | Some x => if decide (p = []) then c
                else mkConfig (<[p := assign x (node_text n)]> (s_datas c)) (s_fun_id c) (cb_calls c ++ heard x [node_text n])
    | None => c
    end.
Proof.
  intros Hok Hv. unfold load_node. cbn [fst snd]. destruct (decide (p = [])); [by destruct (s_datas c !! p)|].
  cbv zeta. rewrite to_lower_valid by done. unfold LookupBase. destruct (s_datas c !! p) as [x|]; [|done].
  destruct (fromString_run x (node_text n)) as [E1 E2]. destruct (fromString x (node_text n)) as [[x' calls] b]. cbn in E1, E2. by subst.
Qed.

Lemma load_keeps_ok c p n : config_ok c → valid_name p = true → config_ok (load_node c (p, n)).
Proof.
  intros Hok Hv. rewrite load_node_run by done. destruct (s_datas c !! p) as [x|] eqn:Ex; [|done]. destruct (decide (p = [])); [done|].
  intros name y. cbn. rewrite lookup_insert. destruct (decide (p = name)) as [->|]; [|by apply Hok]. intros [= <-].
  rewrite assign_name. by apply Hok.
Qed.

Lemma heard_names x ts : Forall (λ k, cb_name k = v_name x) (heard x ts).
Proof.
  revert x. induction ts as [|t ts IH]; intros x; cbn; [done|]. apply Forall_app. split.
  - destruct (from_str t) as [v|]; [|done]. destruct (decide (v = m_val x)); [done|]. by apply Forall_map, Forall_true.
  - rewrite <- (assign_name x t). apply IH.
Qed.

Lemma heard_app x ts ts' : heard x (ts ++ ts') = heard x ts ++ heard (fold_left assign ts x) ts'.
Proof. revert x. induction ts as [|t ts IH]; intros x; cbn; [done|]. by rewrite IH, app_assoc. Qed.

Lemma texts_cons p n l name : texts_at ((p, n) :: l) name = if decide (p = name) then node_text n :: texts_at l name else texts_at l name.
Proof. unfold texts_at. rewrite filter_cons. cbn. by destruct (decide (p = name)). Qed.

(** The calls for one name among those of a variable. *)
Lemma heard_filter x ts name : filter (λ k, cb_name k = name) (heard x ts) = if decide (v_name x = name) then heard x ts else [].
Proof.
  pose proof (heard_names x ts) as Hn. induction (heard x ts) as [|k l IH]; [by case_decide|].
  inversion_clear Hn as [|? ? Hk Hl]. rewrite filter_cons, Hk, IH by done. by case_decide.
Qed.

(** A list of nodes with valid names. *)
Lemma load_nodes l c : config_ok c → Forall (λ i, valid_name i.1 = true) l → let c' := fold_left load_node l c in
  config_ok c' ∧ s_fun_id c' = s_fun_id c ∧ ∃ calls, cb_calls c' = cb_calls c ++ calls ∧
  ∀ name, match s_datas c !! name with
          | Some x => let ts := if decide (name = []) then [] else texts_at l name in
                      s_datas c' !! name = Some (fold_left assign ts x) ∧ filter (λ k, cb_name k = name) calls = heard x ts
          | None => s_datas c' !! name = None ∧ filter (λ k, cb_name k = name) calls = []
          end.
Proof.
  revert c. induction l as [|[p n] l IH]; intros c Hok Hl; cbv zeta; cbn [fold_left].
  - split_and!; [done|done|]. exists []. split; [by rewrite app_nil_r|]. intros name. unfold texts_at. cbn. by destruct (s_datas c !! name), (decide (name = [])).
  - inversion_clear Hl as [|? ? Hv Hl']. cbn in Hv. pose proof (load_keeps_ok c p n Hok Hv) as Hok1.
    destruct (IH (load_node c (p, n)) Hok1 Hl') as (H1 & H2 & calls & H3 & H4). rewrite (load_node_run c p n Hok Hv) in *.
    assert (Hother : ∀ name, s_datas c !! p = None ∨ p = [] → (if decide (name = []) then [] else texts_at ((p, n) :: l) name) =
      (if decide (name = []) then [] else texts_at l name) ∨ s_datas c !! name = None).
    { intros name Hp. rewrite texts_cons. destruct (decide (p = name)) as [->|]; [|by left]. destruct Hp as [?| ->]; [by right|by left]. }
    destruct (s_datas c !! p) as [x|] eqn:Ex; [destruct (decide (p = [])) as [Ep|Hp]|].
    + split_and!; [done|done|]. exists calls. split; [done|]. intros name. specialize (H4 name).
      destruct (Hother name (or_intror Ep)) as [-> | E1]; [done|by rewrite E1 in *].
    + cbn [s_fun_id cb_calls] in H2, H3. split_and!; [done|done|]. exists (heard x [node_text n] ++ calls). split; [by rewrite app_assoc|].
      intros name. specialize (H4 name). rewrite filter_app, heard_filter, (proj1 (Hok p x Ex)), texts_cons. cbn [s_datas] in H4.
      rewrite lookup_insert in H4. destruct (decide (p = name)) as [->|Hne]; [|done]. rewrite Ex. cbv zeta.
      rewrite !(decide_False (P := name = [])) in * by done. destruct H4 as [H4 H5]. rewrite H4, H5.
      split; [done|]. exact (eq_sym (heard_app x [node_text n] _)).
    + split_and!; [done|done|]. exists calls. split; [done|]. intros name. specialize (H4 name).
      destruct (Hother name (or_introl eq_refl)) as [-> | E1]; [done|by rewrite E1 in *].
Qed.

(** A text may be assigned twice; the second time nobody hears of it. *)
Lemma assign_again x t : assign (assign x t) t = assign x t ∧ heard (assign x t) [t] = [].
Proof.
  assert (Ea : assign x t = match from_str t with Some v => set_val x v | None => x end) by done.
  destruct (from_str t) as [v|] eqn:E1; rewrite Ea; unfold assign, heard; cbn; rewrite E1; [|done].
  split; [done|]. by rewrite decide_True.
Qed.

(** The last text that can be converted counts. *)
Lemma assign_last x ts : fold_left assign ts x = match last (omap from_str ts) with Some v => set_val x v | None => x end.
Proof.
  induction ts as [|t ts IH] using rev_ind; [done|]. rewrite fold_left_app, omap_app, IH. cbn.
  destruct (last (omap from_str ts)) as [v0|] eqn:E0; unfold assign; cbn; destruct (from_str t) as [v|] eqn:E1; cbn.
  - by rewrite last_snoc.
  - by rewrite app_nil_r, E0.
  - by rewrite last_snoc.
  - by rewrite app_nil_r, E0.
Qed.

Lemma nodes_valid root : Forall (λ i, valid_name i.1 = true) (ListAllMember (y_depth root) [] root).
Proof. apply Forall_forall. intros [p n] (keys & _ & -> & Hv)%list_member_path; done. Qed.

(** The nodes of a document. *)
Definition all_nodes (root : N) : list (text * N) := ListAllMember (y_depth root) [] root.

Lemma texts_paths root name t : nested (y_depth root) root → t ∈ texts_at (all_nodes root) name ↔
  ∃ keys n, at_path root keys n ∧ path_name [] keys = name ∧ valid_name name = true ∧ t = node_text n.
Proof.
  intros Hd. unfold texts_at. rewrite list_elem_of_fmap. split.
  - intros ([p n] & -> & Hin). apply list_elem_of_filter in Hin as [E1 Hin]. cbn in *. subst p.
    apply list_member_path in Hin as (keys & Hp & -> & Hv). by exists keys, n.
  - intros (keys & n & Hp & <- & Hv & ->). exists (path_name [] keys, n). split; [done|].
    apply list_elem_of_filter. split; [done|]. by apply list_member_all.
Qed.

(** Loading again what was loaded. *)
Lemma load_again root c : config_ok c → (∀ name, (length (texts_at (all_nodes root) name) <= 1)%nat) →
  LoadFromYaml root (LoadFromYaml root c) = LoadFromYaml root c.
Proof.
  intros Hok Hone. destruct (load_nodes _ c Hok (nodes_valid root)) as (Hok1 & _ & calls1 & _ & Hvars1).
  change (fold_left load_node _ c) with (LoadFromYaml root c) in *. remember (LoadFromYaml root c) as c1 eqn:Ec1.
  destruct (load_nodes _ c1 Hok1 (nodes_valid root)) as (_ & Hid & calls2 & Hcalls & Hvars2).
  change (fold_left load_node _ c1) with (LoadFromYaml root c1) in *.
  assert (Hone' : ∀ name x, s_datas c1 !! name = Some x → s_datas (LoadFromYaml root c1) !! name = Some x ∧ filter (λ k, cb_name k = name) calls2 = []).
  { intros name x E1. specialize (Hvars1 name). specialize (Hvars2 name). rewrite E1 in Hvars2. cbv zeta in *.
    destruct (s_datas c !! name) as [x0|]; [|by destruct Hvars1; congruence]. destruct Hvars1 as [E2 _]. rewrite E1 in E2. injection E2 as ->.
    specialize (Hone name). unfold all_nodes in Hone. destruct (decide (name = [])) as [->|]; [done|].
    destruct (texts_at (ListAllMember (y_depth root) [] root) name) as [|t [|t' ts]]; cbn [length] in Hone; [done| |lia].
    destruct Hvars2 as [-> ->]. cbn [fold_left] in *. destruct (assign_again x0 t) as [-> ->]. done. }
  assert (Hnone : calls2 = []).
  { destruct calls2 as [|k calls2]; [done|]. exfalso. specialize (Hvars2 (cb_name k)). cbv zeta in Hvars2.
    assert (Hk : filter (λ k0, cb_name k0 = cb_name k) (k :: calls2) = []).
    { destruct (s_datas c1 !! cb_name k) as [x|] eqn:E1; [by apply (Hone' _ x)|by destruct Hvars2]. }
    rewrite filter_cons, decide_True in Hk by done. done. }
  subst calls2. rewrite app_nil_r in Hcalls.
  assert (Hd : s_datas (LoadFromYaml root c1) = s_datas c1).
  { apply map_eq. intros name. destruct (s_datas c1 !! name) as [x|] eqn:E1; [by destruct (Hone' name x E1)|].
    specialize (Hvars2 name). rewrite E1 in Hvars2. by destruct Hvars2. }
  destruct (LoadFromYaml root c1) as [d i l], c1 as [d1 i1 l1]. cbn in *. congruence.
Qed.

(** ** The theorems *)

(** (C31) Loading a document in which no alias refers to a node around it. The names of the nodes are the keys on the way to them, joined by dots, as long as all are of
    lower-case letters, dots, underscores and the digits up to 8. A variable gets the last of the texts at its name that can be
    converted to its type, and keeps its value if there is none; its type and its listeners stay. The
    listeners hear of each change of it, in the order of the texts and of their keys, with the values before and after, and of nothing else. No
    variable is added. Loading a document that has no name twice again changes nothing and calls no listener. *)
Theorem config_load root c (Hok : config_ok c) (Hnested : nested (y_depth root) root) : let c' := LoadFromYaml root c in
  config_ok c' ∧ s_fun_id c' = s_fun_id c ∧
  (∀ name t, t ∈ texts_at (all_nodes root) name ↔
     ∃ keys n, at_path root keys n ∧ path_name [] keys = name ∧ valid_name name = true ∧ t = node_text n) ∧
  (∃ calls, cb_calls c' = cb_calls c ++ calls ∧ ∀ name, name ≠ [] →
     match s_datas c !! name with
     | Some x => let ts := texts_at (all_nodes root) name in
         s_datas c' !! name = Some (match last (omap from_str ts) with Some v => set_val x v | None => x end) ∧
         filter (λ k, cb_name k = name) calls = heard x ts
     | None => s_datas c' !! name = None ∧ filter (λ k, cb_name k = name) calls = []
     end) ∧
  ((∀ name, (length (texts_at (all_nodes root) name) <= 1)%nat) → LoadFromYaml root c' = c').
Proof.
  destruct (load_nodes _ c Hok (nodes_valid root)) as (H1 & H2 & calls & H3 & H4). cbv zeta. split_and!; [done|done|by intros; apply texts_paths| |].
  - exists calls. split; [done|]. intros name Hn. specialize (H4 name). cbv zeta in H4. rewrite decide_False in H4 by done.
    destruct (s_datas c !! name) as [x|]; [|done]. rewrite <- assign_last. exact H4.
  - by apply load_again.
Qed.

(** (C33) Looking up. A name is found with the type it was registered with and no other, and stays with it: the first look-up
    of a valid name with a default value makes the variable, with that value; later ones find it as it is, or yield null when they ask
    for another type; a name with another character, among them capitals and the digit 9, is refused with an exception. Looking up changes no other variable. *)
Theorem config_lookup t name (default_value : El t) description c (Hok : config_ok c) :
  let '(r, c') := Config_Lookup t name default_value description c in
  config_ok c' ∧ (∀ other, other ≠ name → s_datas c' !! other = s_datas c !! other) ∧
  match s_datas c !! name with
  | Some x => c' = c ∧ r = if decide (v_type x = t) then Found name else Null
  | None =>
      if forallb name_char name
      then r = Found name ∧ s_datas c' !! name = Some (mkVar t name description default_value []) ∧ Lookup_existing t name c' = Found name ∧
        (∀ t' d descr, Config_Lookup t' name d descr c' = (if decide (t = t') then Found name else Null, c'))
      else r = Invalid ∧ c' = c
  end.
Proof.
  unfold Config_Lookup. destruct (s_datas c !! name) as [x|] eqn:Ex; [done|]. rewrite <- valid_name_char.
  destruct (valid_name name) eqn:Ev; [|done]. unfold put_var, new_ConfigVar. cbn [s_datas]. rewrite (to_lower_valid name Ev).
  split_and!; [|by intros other Hne; rewrite lookup_insert_ne|done|by rewrite lookup_insert_eq| |].
  - intros other x. cbn. rewrite lookup_insert. destruct (decide (name = other)) as [->|]; [intros [= <-]; done|apply Hok].
  - unfold Lookup_existing. cbn. rewrite lookup_insert_eq. cbn. by rewrite decide_True.
  - intros t' d descr. rewrite lookup_insert_eq. done.
Qed.
End config.


(** ** Definitions of loggers *)

Section log_define.
Context {N : Type} `{!Yaml N, !YamlLaws N}.

(** Compares the keys. *)
Ltac keys := repeat (cbn; match goal with
  | |- context [decide ?P] => first [rewrite (decide_True (P := P)) by done | rewrite (decide_False (P := P)) by done]
  | |- context [y_scalar (y_text _)] => rewrite scalar_text
  end); cbn.

Lemma level_roundtrip level : LogLevel_FromString (LogLevel_ToString level) = level.
Proof. by destruct level. Qed.

Lemma get_map key (l : list (text * N)) : NoDup (map fst l) → y_get key (y_map l) = snd <$> head (filter (λ kv : text * N, kv.1 = key) l).
Proof. intros H. unfold y_get. by rewrite pairs_map. Qed.

(** What is left of an appender's definition: its level is lost, and the file of a standard output. *)
Definition kept_appender (a : LogAppenderDefine) : option LogAppenderDefine :=
  if decide (lad_type a = 1) then Some (mkAppenderDefine 1 UNKNOW (lad_formatter a) (lad_file a))
  else if decide (lad_type a = 2) then Some (mkAppenderDefine 2 UNKNOW (lad_formatter a) [])
  else None.

Lemma read_written a : read_appender (write_appender (N := N) a) = Some (kept_appender a).
Proof.
  destruct a as [type level formatter file]. unfold read_appender, write_appender, y_string, kept_appender, level_member, text_member.
  cbn [lad_type lad_level lad_formatter lad_file]. destruct (Z.eqb_spec type 1) as [->|]; [|destruct (Z.eqb_spec type 2) as [->|]].
  all: destruct (decide (level = UNKNOW)), (decide (formatter = [])) as [->|].
  all: rewrite !get_map by (cbn; apply (bool_decide_unpack _); by vm_compute); keys; try done.
Qed.

(** The texts of an appender that are printed. *)
Definition appender_plain (a : LogAppenderDefine) : Prop :=
  plain (N := N) (y_text (lad_file a)) ∧ plain (N := N) (y_text (lad_formatter a)).

Definition member_plain (kv : text * N) : Prop := plain (y_text kv.1) ∧ plain kv.2.

Lemma member_word key (n : N) : key ≠ [] → forallb letter key = true → plain n → member_plain (key, n).
Proof. intros. split; [by apply plain_word|done]. Qed.

Lemma level_plain level : Forall member_plain (level_member (N := N) level).
Proof. destruct level; repeat constructor; by apply plain_word. Qed.

Lemma formatter_plain t : plain (N := N) (y_text t) → Forall member_plain (text_member (N := N) (str "formatter") t).
Proof. intros H. unfold text_member. case_decide; repeat constructor; [by apply plain_word|done]. Qed.

Lemma appender_written a : appender_plain a → plain (write_appender (N := N) a).
Proof.
  intros [Hf Hm]. destruct a as [type level formatter file]. unfold write_appender. cbn [lad_type lad_level lad_formatter lad_file] in *.
  pose proof (level_plain level) as Hl. pose proof (formatter_plain _ Hm) as Ht. apply plain_map.
  - unfold level_member, text_member. destruct (type =? 1), (type =? 2), (decide (level = UNKNOW)), (decide (formatter = [])) as [->|];
      cbn; apply (bool_decide_unpack _); by vm_compute.
  - apply Forall_app. split; [|by apply Forall_app]. destruct (type =? 1); [|destruct (type =? 2)]; repeat constructor; try (by apply plain_word); done.
Qed.

(** What is printed of a definition. *)
Lemma log_plain (name : text) level formatter apps : plain (N := N) (y_text name) → plain (N := N) (y_text formatter) → Forall appender_plain apps →
  plain (N := N) (y_map ((str "name", y_text name) :: level_member level ++ text_member (str "formatter") formatter ++
    match apps with [] => [] | a :: l => [(str "appenders", y_seq (map write_appender (a :: l)))] end)).
Proof.
  intros Hn Hf Ha. pose proof (level_plain level) as Hl. pose proof (formatter_plain _ Hf) as Ht.
  assert (Hs : plain (N := N) (y_seq (map write_appender apps))).
  { apply plain_seq, Forall_map. eapply Forall_impl; [exact Ha|apply appender_written]. }
  apply plain_map.
  - unfold level_member, text_member. destruct (decide (level = UNKNOW)), (decide (formatter = [])) as [->|], apps;
      cbn; apply (bool_decide_unpack _); by vm_compute.
  - constructor; [by apply member_word|]. apply Forall_app. split; [done|]. apply Forall_app. split; [done|].
    destruct apps; repeat constructor; [by apply plain_word|done].
Qed.

(** A definition of texts that YAML prints faithfully, when it is written and read back, is the same, but for the appenders of unknown type and for the levels of the others. *)
Lemma log_define_roundtrip i (Hname : plain (N := N) (y_text (ld_name i))) (Hformatter : plain (N := N) (y_text (ld_formatter i)))
    (Happenders : Forall appender_plain (ld_appenders i)) :
  LogDefine_from (LogDefine_to (N := N) i) = Some (mkLogDefine (ld_name i) (ld_level i) (ld_formatter i) (omap kept_appender (ld_appenders i))).
Proof.
  destruct i as [name level formatter apps]. unfold LogDefine_from, LogDefine_to, y_string.
  cbn [ld_name ld_level ld_formatter ld_appenders] in *.
  pose proof (log_plain name level formatter apps Hname Hformatter Happenders) as Hp. unfold plain in Hp. rewrite Hp. cbn [mbind option_bind]. clear Hp. unfold level_member, text_member.
  assert (Happs : mapM read_appender (map write_appender apps) = Some (map kept_appender apps : list (option LogAppenderDefine))).
  { clear -YamlLaws0. induction apps as [|a apps IH]; [done|]. cbn [map]. cbn. rewrite (read_written a). cbn. by rewrite IH. }
  assert (Hkept : omap id (map kept_appender apps) = omap kept_appender apps).
  { clear. induction apps as [|a apps IH]; [done|]. cbn. destruct (kept_appender a); cbn; by rewrite IH. }
  destruct (decide (level = UNKNOW)) as [->|], (decide (formatter = [])) as [->|], apps as [|a apps].
  all: rewrite !get_map by (cbn; apply (bool_decide_unpack _); by vm_compute); keys; rewrite ?items_seq, ?level_roundtrip; try done.
  all: change (write_appender a :: map write_appender apps) with (map write_appender (a :: apps)); rewrite Happs; cbn [mbind option_bind];
    by rewrite Hkept.
Qed.
End log_define.

(** ** Witnesses *)

(** YAML by trees of texts, printed as their codes in binary. *)
Definition tree : Type := gen_tree text.

Fixpoint pos_text (p : positive) : text :=
  match p with xH => [] | xO p => "0"%char :: pos_text p | xI p => "1"%char :: pos_text p end.

Fixpoint text_pos (s : text) : option positive :=
  match s with
  | [] => Some xH
  | c :: s =>
      p ← text_pos s;
      if decide (c = "0"%char) then Some (xO p) else if decide (c = "1"%char) then Some (xI p) else None
  end.

Lemma text_pos_text p : text_pos (pos_text p) = Some p.
Proof. induction p as [p IH|p IH|]; cbn; [by rewrite IH|by rewrite IH|done]. Qed.

Fixpoint tree_depth (t : tree) : nat :=
  match t with GenLeaf _ => O | GenNode _ l => S (fold_right Nat.max O (map tree_depth l)) end.

Definition tree_pair (t : tree) : text * tree := match t with GenNode _ [GenLeaf k; v] => (k, v) | _ => ([], t) end.

#[export] Instance tree_Yaml : Yaml tree := {
  y_load s := text_pos s ≫= decode;
  y_emit n := pos_text (encode n);
  y_scalar n := match n with GenLeaf s => Some s | _ => None end;
  y_items n := match n with GenNode 0 l => l | _ => [] end;
  y_is_map n := match n with GenNode 1 _ => true | _ => false end;
  y_pairs n := match n with GenNode 1 l => map tree_pair l | _ => [] end;
  y_seq l := GenNode 0 l;
  y_text s := GenLeaf s;
  y_map l := GenNode 1 (map (λ kv : text * tree, GenNode 2 [GenLeaf kv.1; kv.2]) l);
  y_depth := tree_depth
}.

Lemma tree_plain (n : tree) : plain n.
Proof. unfold plain. cbn [y_load y_emit tree_Yaml]. rewrite text_pos_text. cbn. apply decode_encode. Qed.

#[export] Instance tree_YamlLaws : YamlLaws tree.
Proof.
  split.
  - done.
  - intros l _. cbn. induction l as [|[k v] l IH]; cbn; [done|]. by rewrite IH.
  - done.
  - intros t _ _. apply tree_plain.
  - intros l _. apply tree_plain.
  - intros l _ _. apply tree_plain.
Qed.

(** Texts as scalars, and decimal numbers. *)
Definition text_cast : LexicalCast text :=
  {| from_str s := y_load s ≫= λ n : tree, y_scalar n; to_str s := Some (y_emit (N := tree) (GenLeaf s)) |}.

Definition number_cast : LexicalCast Z :=
  {| from_str s := if forallb is_digit s then Some (digits_value 0 s) else None; to_str z := Some (to_string (Z.to_nat z)) |}.

Lemma text_survives (s : text) : survives (N := tree) (LexicalCast0 := text_cast) s.
Proof.
  exists (y_emit (N := tree) (GenLeaf s)), (GenLeaf s). pose proof (tree_plain (GenLeaf s)) as H. unfold plain in H.
  cbn [to_str from_str text_cast]. rewrite H. by split_and!.
Qed.

#[export] Instance toy_Types : Types := {| El _ := Z; El_eq_dec _ := _; El_cast _ := number_cast |}.

(** A variable with a listener, and a document that sets it. *)
Definition sample_config : Config :=
  mkConfig {[str "tcp.timeout" := mkVar 1 (str "tcp.timeout") [] (5000 : El 1) [(1, 7)]]} {[1%positive := 1]} [].

Definition sample_document : tree := y_map [(str "tcp", y_map [(str "timeout", GenLeaf (str "300"))]); (str "Name", GenLeaf (str "x"))].

Lemma sample_config_ok : config_ok sample_config.
Proof.
  intros name x. unfold sample_config. cbn [s_datas]. intros [<- <-]%lookup_singleton_Some. done.
Qed.

Lemma sample_nested : nested (y_depth sample_document) sample_document.
Proof. intros _. repeat constructor. Qed.

Lemma config_load_witness : config_ok sample_config ∧
  cb_calls (LoadFromYaml sample_document sample_config) = [mkCb 1 (str "tcp.timeout") 7 (5000 : El 1) (300 : El 1)] ∧
  config_ok (LoadFromYaml sample_document sample_config).
Proof.
  split; [exact sample_config_ok|]. split; [vm_compute; reflexivity|].
  destruct (config_load sample_document sample_config sample_config_ok sample_nested) as (H & _). exact H.
Defined.

Definition zero_value : El 1 := 0.

Lemma config_lookup_witness : config_ok sample_config ∧ Config_Lookup 1 (str "port9") zero_value [] sample_config = (Invalid, sample_config).
Proof.
  split; [exact sample_config_ok|].
  pose proof (config_lookup 1 (str "port9") zero_value [] sample_config sample_config_ok) as H.
  destruct (Config_Lookup 1 (str "port9") zero_value [] sample_config) as [r c]. destruct H as (_ & _ & H).
  assert (E : s_datas sample_config !! str "port9" = None) by reflexivity. rewrite E in H.
  assert (E2 : forallb name_char (str "port9") = false) by reflexivity. rewrite E2 in H. destruct H as [-> ->]. reflexivity.
Defined.

