(* ===== verification/Env.v ===== *)
(** * Env: the arguments of the process ([sylar/env.cc])

    [-key value] and [-key] options, help texts and paths.  The link of the
    running program is an argument. *)

From S2P Require Import Prelude.
From S2P Require Export Text.

Record Env := mkEnv {
  m_args : gmap text text;
  m_helps : list (text * text);
  m_program : text;
  m_exe : text;
  m_cwd : text
}.

Definition new_Env : Env := mkEnv ∅ [] [] [] [].

Definition path_slash : ascii := "/"%char.
Definition dash : ascii := "-"%char.

(** ** Options *)

Definition Env_add (key val : text) (e : Env) : Env := mkEnv (<[key := val]> (m_args e)) (m_helps e) (m_program e) (m_exe e) (m_cwd e).

Definition Env_has (key : text) (e : Env) : bool := match m_args e !! key with Some _ => true | None => false end.

Definition Env_del (key : text) (e : Env) : Env := mkEnv (delete key (m_args e)) (m_helps e) (m_program e) (m_exe e) (m_cwd e).

Definition Env_get (key default_value : text) (e : Env) : text := match m_args e !! key with Some v => v | None => default_value end.

(** [find_last_of] a character: what precedes its last occurrence, or everything. *)
Fixpoint before_last (c : ascii) (s : text) : text :=
  match s with
  | [] => []
  | x :: s' => if decide (x = c ∧ c ∉ s') then [] else x :: before_last c s'
  end.

(** The loop over the arguments; the flag is what [init] returns. *)
Fixpoint init_args (args : list text) (now_key : option text) (e : Env) : bool * Env :=
  match args with
  | [] => (true, match now_key with Some k => Env_add k [] e | None => e end)
  | arg :: args' =>
      match arg with
      | c :: rest =>
          if decide (c = dash) then
            match rest with
            | _ :: _ => init_args args' (Some rest) (match now_key with Some k => Env_add k [] e | None => e end)
            | [] => (false, e)
            end
          else match now_key with Some k => init_args args' None (Env_add k arg e) | None => (false, e) end
      | [] => match now_key with Some k => init_args args' None (Env_add k arg e) | None => (false, e) end
      end
  end.

(** [init]: the link of the program is empty when it cannot be read; an argument is a C string. *)
Definition Env_init (link : text) (argv : list text) (e : Env) : bool * Env :=
  match link with
  | [] => (false, e)
  | _ =>
      match argv with
      | program :: args =>
          init_args args None (mkEnv (m_args e) (m_helps e) program link (before_last path_slash link ++ [path_slash]))
      | [] => (false, e)
      end
  end.

(** ** Help texts *)

Definition removeHelp (key : text) (e : Env) : Env :=
  mkEnv (m_args e) (filter (λ i : text * text, i.1 ≠ key) (m_helps e)) (m_program e) (m_exe e) (m_cwd e).

Definition addHelp (key desc : text) (e : Env) : Env :=
  let e := removeHelp key e in mkEnv (m_args e) (m_helps e ++ [(key, desc)]) (m_program e) (m_exe e) (m_cwd e).

(** [printHelp]; [setw(5)] is for the dash. *)
Definition printHelp (e : Env) : text :=
  str "Usage: " ++ m_program e ++ str " [options]" ++ [newline] ++
  concat (map (λ i : text * text, replicate 4 space ++ [dash] ++ i.1 ++ str " : " ++ i.2 ++ [newline]) (m_helps e)).

(** ** Paths *)

Definition absolute (base path : text) : text :=
  match path with
  | [] => [path_slash]
  | c :: _ => if decide (c = path_slash) then path else base ++ path
  end.

Definition getAbsolutePath (path : text) (e : Env) : text := absolute (m_cwd e) path.

(** The value of the variable [server.work_path] is an argument. *)
Definition getAbsoluteWorkPath (work_path path : text) : text := absolute (work_path ++ [path_slash]) path.

Definition getConfigPath (e : Env) : text := getAbsolutePath (Env_get (str "c") (str "conf") e) e.

(** ** Command lines *)

(** An option with its value, if it has one. *)
Definition option_args (o : text * option text) : list text :=
  match o.2 with Some v => [dash :: o.1; v] | None => [dash :: o.1] end.

Definition command_line (os : list (text * option text)) : list text := concat (map option_args os).

Definition option_ok (o : text * option text) : Prop :=
  o.1 ≠ [] ∧ match o.2 with Some v => head v ≠ Some dash | None => True end.

Definition add_option (e : Env) (o : text * option text) : Env := Env_add o.1 (default [] o.2) e.

(** What is pending, and then the options. *)
Definition now_pending (now_key : option text) : list (text * option text) := match now_key with Some k => [(k, None)] | None => [] end.

Lemma init_pending k args e : (∀ a, head args = Some a → ∃ x rest, a = dash :: x :: rest) →
  init_args args (Some k) e = init_args args None (Env_add k [] e).
Proof. destruct args as [|a args]; intros Hh; [done|]. by destruct (Hh a eq_refl) as (x & rest & ->). Qed.

Lemma command_head os a : Forall option_ok os → head (command_line os) = Some a → ∃ x rest, a = dash :: x :: rest.
Proof.
  destruct 1 as [|[[|x k] v] os [Hk _] _]; [done|done|]. destruct v; intros [= <-]; by exists x, k.
Qed.

Lemma command_init os : Forall option_ok os → ∀ e, init_args (command_line os) None e = (true, fold_left add_option os e).
Proof.
  induction 1 as [|[k v] os [Hk Hv] Hos IH]; intros e; [done|]. cbn in Hk, Hv. destruct k as [|x k]; [done|].
  unfold command_line in *. cbn [map concat]. unfold option_args at 1. cbn [fst snd]. destruct v as [v|].
  - cbn [app init_args]. rewrite decide_True by done. destruct v as [|c v]; cbn [init_args].
    + rewrite IH. done.
    + rewrite decide_False by (intros ->; done). rewrite IH. done.
  - cbn [app init_args]. rewrite decide_True by done. rewrite init_pending by (intros a; by apply (command_head os)). rewrite IH. done.
Qed.

(** Nothing else is accepted. *)
Lemma init_command args now_key e e' : match now_key with Some k => k ≠ [] | None => True end → init_args args now_key e = (true, e') →
  match now_key with
  | Some k => ∃ v os, Forall option_ok ((k, v) :: os) ∧ args = match v with Some v => [v] | None => [] end ++ command_line os
  | None => ∃ os, Forall option_ok os ∧ args = command_line os
  end.
Proof.
  revert now_key e. induction args as [|a args IH]; intros now_key e Hk E1.
  - destruct now_key as [k|]; [|by exists []]. exists None, []. split; [|done]. by repeat constructor.
  - assert (Hvalue : ∀ k, now_key = Some k → head a ≠ Some dash → init_args args None (Env_add k a e) = (true, e') →
      ∃ v os, Forall option_ok ((k, v) :: os) ∧ a :: args = match v with Some v => [v] | None => [] end ++ command_line os).
    { intros k -> Ha E2. destruct (IH None _ I E2) as (os & Hos & ->). exists (Some a), os. split; [|done]. by constructor. }
    cbn in E1. destruct a as [|c rest]; [destruct now_key as [k|]; [|done]; by apply Hvalue|].
    destruct (decide (c = dash)) as [->|Hc]; [|destruct now_key as [k|]; [|done]; apply Hvalue; [done|by intros [= ?]|done]].
    destruct rest as [|x rest]; [done|]. destruct (IH (Some (x :: rest)) _ ltac:(done) E1) as (v & os & Hos & ->).
    assert (Ho : (dash :: x :: rest) :: match v with Some v => [v] | None => [] end ++ command_line os = command_line ((x :: rest, v) :: os))
      by (by destruct v).
    rewrite Ho. destruct now_key as [k|]; [|by eexists]. exists None, ((x :: rest, v) :: os). split; [|done]. by constructor.
Qed.

Lemma options_frame os e : m_helps (fold_left add_option os e) = m_helps e ∧ m_program (fold_left add_option os e) = m_program e ∧
  m_exe (fold_left add_option os e) = m_exe e.
Proof. revert e. induction os as [|o os IH]; intros e; cbn; [done|]. by destruct (IH (add_option e o)) as (-> & -> & ->). Qed.

Lemma options_last os e key : m_args (fold_left add_option os e) !! key =
  match last (filter (λ o : text * option text, o.1 = key) os) with Some o => Some (default [] o.2) | None => m_args e !! key end.
Proof.
  induction os as [|o os IH] using rev_ind; [done|]. rewrite fold_left_app, filter_app. cbn. rewrite lookup_insert.
  destruct (decide (o.1 = key)) as [E1|E1].
  - by rewrite last_snoc.
  - by rewrite app_nil_r.
Qed.

Lemma filter_keys (key : text) (l : list (text * text)) : NoDup (map fst l) → NoDup (map fst (filter (λ i : text * text, i.1 ≠ key) l)).
Proof. intros H. eapply sublist_NoDup; [exact H|]. apply (fmap_sublist fst), sublist_filter. Qed.

(** The arguments of a process. [init] accepts exactly the sequences of options [-key] and [-key value] with keys that are not empty and values that do not
    begin with a dash, and then each key has the value of its last option, or the empty one if that has none, and others what they had; help texts
    have one entry for each key, the last, and the directory of the program ends at its last slash. *)
Theorem env_arguments link program args e (Hl : link ≠ []) :
  ((Env_init link (program :: args) e).1 = true ↔ ∃ os, Forall option_ok os ∧ args = command_line os) ∧
  (∀ os, Forall option_ok os → let e' := (Env_init link (program :: command_line os) e).2 in
     (∀ key, m_args e' !! key = match last (filter (λ o : text * option text, o.1 = key) os) with
                                | Some o => Some (default [] o.2)
                                | None => m_args e !! key
                                end) ∧ m_helps e' = m_helps e ∧ m_program e' = program ∧ m_exe e' = link) ∧
  (∀ key desc, NoDup (map fst (m_helps e)) → NoDup (map fst (m_helps (addHelp key desc e))) ∧ (key, desc) ∈ m_helps (addHelp key desc e)) ∧
  (∀ dir name, path_slash ∉ name → before_last path_slash (dir ++ path_slash :: name) = dir).
Proof.
  unfold Env_init. destruct link as [|l0 link]; [done|]. set (e0 := mkEnv _ _ _ _ _). split_and!.
  - split.
    + destruct (init_args args None e0) as [b e'] eqn:E1. cbn. intros ->. by apply (init_command args None e0 e').
    + intros (os & Hos & ->). by rewrite (command_init os Hos).
  - intros os Hos. cbv zeta. rewrite (command_init os Hos). cbn [snd]. destruct (options_frame os e0) as (-> & -> & ->). split_and!; [|done..].
    intros key. exact (options_last os e0 key).
  - intros key desc Hnd. unfold addHelp, removeHelp. cbn [m_helps]. split; [|apply elem_of_app; right; by left].
    rewrite map_app. apply NoDup_app. split_and!.
    + by apply filter_keys.
    + intros k Hk Hin. cbn in Hin. apply list_elem_of_singleton in Hin. apply list_elem_of_fmap in Hk as ([k' d] & E1 & Hk).
      apply list_elem_of_filter in Hk as [Hne _]. cbn in *. congruence.
    + apply NoDup_singleton.
  - intros dir name Hn. induction dir as [|x dir IH]; cbn; [by rewrite decide_True|].
    rewrite decide_False; [by rewrite IH|]. intros [_ Hin]. apply Hin. rewrite elem_of_app. right. by left.
Qed.

Definition sample_options : list (text * option text) := [(str "c", Some (str "conf")); (str "d", None); (str "c", Some (str "/etc"))].

Lemma env_arguments_witness : str "/bin/server" ≠ [] ∧ Forall option_ok sample_options ∧
  (Env_init (str "/bin/server") (str "server" :: command_line sample_options) new_Env).1 = true.
Proof.
  assert (Hos : Forall option_ok sample_options) by (unfold sample_options; repeat constructor; cbn; discriminate).
  split; [discriminate|]. split; [exact Hos|].
  destruct (env_arguments (str "/bin/server") (str "server") (command_line sample_options) new_Env ltac:(discriminate)) as (H & _).
  apply H. exists sample_options. split; [exact Hos|reflexivity].
Defined.
