(* ===== verification/Socket.v ===== *)
(** * Socket: sockets and the TCP server ([sylar/socket.cc], [tcp_server.cc])

    A socket owns a descriptor; the system calls, with their hooks, are a
    parameter, the class [Net].  A TLS socket adds a handshake whose outcomes
    OpenSSL decides.  The server binds, accepts and stops. *)

From S2P Require Import Prelude.
From S2P Require Export Address.

(** ** The network *)

(** The hooked system calls on a state [W]; a flag is whether the call succeeded.  [n_managed]: the table of descriptors knows it as an
    open socket. *)
Class Net (W : Type) := {
  n_socket : Z → Z → Z → W → Z * W;
  n_bind : Z → Address → W → bool * W;
  n_listen : Z → Z → W → bool * W;
  n_connect : Z → Address → Z → W → bool * W;
  n_accept : Z → W → Z * W;
  n_close : Z → W → W;
  n_setsockopt : Z → Z → Z → Z → W → bool * W;
  n_getsockname : Z → W → option Address;
  n_getpeername : Z → W → option Address;
  n_managed : Z → W → bool;
  n_unlink : text → W → W
}.

Definition SOCK_STREAM : Z := 1.
Definition SOCK_DGRAM : Z := 2.
Definition SOL_SOCKET_level : Z := 1.
Definition SO_REUSEADDR : Z := 2.
Definition IPPROTO_TCP : Z := 6.
Definition TCP_NODELAY : Z := 1.

Record SocketObject := mkSocket {
  m_sock : Z;
  m_family : Z;
  m_type : Z;
  m_protocol : Z;
  m_isConnected : bool;
  m_localAddress : option Address;
  m_remoteAddress : option Address
}.

Definition new_Socket (family type protocol : Z) : SocketObject := mkSocket (-1) family type protocol false None None.

Definition isValid (s : SocketObject) : bool := negb (m_sock s =? -1).

Definition set_sock (fd : Z) (s : SocketObject) : SocketObject :=
  mkSocket fd (m_family s) (m_type s) (m_protocol s) (m_isConnected s) (m_localAddress s) (m_remoteAddress s).

Definition set_connected (b : bool) (s : SocketObject) : SocketObject :=
  mkSocket (m_sock s) (m_family s) (m_type s) (m_protocol s) b (m_localAddress s) (m_remoteAddress s).

Definition set_local (a : option Address) (s : SocketObject) : SocketObject :=
  mkSocket (m_sock s) (m_family s) (m_type s) (m_protocol s) (m_isConnected s) a (m_remoteAddress s).

Definition set_remote (a : option Address) (s : SocketObject) : SocketObject :=
  mkSocket (m_sock s) (m_family s) (m_type s) (m_protocol s) (m_isConnected s) (m_localAddress s) a.

Section sockets.
Context {W : Type} `{!Net W}.

(** A call of the network whose result is not looked at. *)
Definition initSock (s : SocketObject) (w : W) : W :=
  let w := (n_setsockopt (m_sock s) SOL_SOCKET_level SO_REUSEADDR 1 w).2 in
  if m_type s =? SOCK_STREAM then (n_setsockopt (m_sock s) IPPROTO_TCP TCP_NODELAY 1 w).2 else w.

Definition newSock (s : SocketObject) (w : W) : SocketObject * W :=
  let '(fd, w) := n_socket (m_family s) (m_type s) (m_protocol s) w in
  let s := set_sock fd s in
  (s, if negb (fd =? -1) then initSock s w else w).

(** [getRemoteAddress] and [getLocalAddress]: an unknown address is returned but not kept. *)
Definition getRemoteAddress (s : SocketObject) (w : W) : Address * SocketObject :=
  match m_remoteAddress s with
  | Some a => (a, s)
  | None => match n_getpeername (m_sock s) w with
            | Some a => (a, set_remote (Some a) s)
            | None => (UnknownAddress (m_family s) [], s)
            end
  end.

Definition getLocalAddress (s : SocketObject) (w : W) : Address * SocketObject :=
  match m_localAddress s with
  | Some a => (a, s)
  | None => match n_getsockname (m_sock s) w with
            | Some a => (a, set_local (Some a) s)
            | None => (UnknownAddress (m_family s) [], s)
            end
  end.

Definition Socket_close (s : SocketObject) (w : W) : bool * SocketObject * W :=
  if negb (m_isConnected s) && (m_sock s =? -1) then (true, s, w)
  else (false, set_sock (-1) (set_connected false s), if negb (m_sock s =? -1) then n_close (m_sock s) w else w).

(** The destructor. *)
Definition delete_Socket (s : SocketObject) (w : W) : W := (Socket_close s w).2.

(** [connect]; the time-out of -1 is the configured one, here an argument of the network like any other. *)
Definition Socket_connect (addr : Address) (timeout_ms : Z) (s : SocketObject) (w : W) : bool * SocketObject * W :=
  let s := set_remote (Some addr) s in
  let '(s, w) := if negb (isValid s) then newSock s w else (s, w) in
  if negb (isValid s) then (false, s, w)
  else if negb (getFamily addr =? m_family s) then (false, s, w)
  else
    let '(ok, w) := n_connect (m_sock s) addr timeout_ms w in
    if negb (ok : bool) then let '(_, s, w) := Socket_close s w in (false, s, w)
    else
      let s := set_connected true s in
      let s := (getRemoteAddress s w).2 in
      (true, (getLocalAddress s w).2, w).

Definition Socket_reconnect (timeout_ms : Z) (s : SocketObject) (w : W) : bool * SocketObject * W :=
  match m_remoteAddress s with
  | None => (false, s, w)
  | Some addr => Socket_connect addr timeout_ms (set_local None s) w
  end.

(** [bind]; for a unix address it looks whether somebody listens there, and removes the file if nobody does. *)
Definition Socket_bind (path : UnixAddress → text) (addr : Address) (s : SocketObject) (w : W) : bool * SocketObject * W :=
  let '(s, w) := if negb (isValid s) then newSock s w else (s, w) in
  if negb (isValid s) then (false, s, w)
  else if negb (getFamily addr =? m_family s) then (false, s, w)
  else
    let '(taken, w) :=
      match addr with
      | AUnixAddress u =>
          let '(ok, sock, w) := Socket_connect addr (2 ^ 64 - 1) (new_Socket AF_UNIX SOCK_STREAM 0) w in
          (ok, delete_Socket sock (if ok : bool then w else n_unlink (path u) w))
      | _ => (false, w)
      end in
    if (taken : bool) then (false, s, w)
    else
      let '(ok, w) := n_bind (m_sock s) addr w in
      if negb (ok : bool) then (false, s, w) else (true, (getLocalAddress s w).2, w).

Definition Socket_listen (backlog : Z) (s : SocketObject) (w : W) : bool * W :=
  if negb (isValid s) then (false, w) else n_listen (m_sock s) backlog w.

(** [init]: an accepted descriptor. *)
Definition Socket_init (sock : Z) (s : SocketObject) (w : W) : bool * SocketObject * W :=
  if n_managed sock w then
    let s := set_connected true (set_sock sock s) in
    let w := initSock s w in
    let s := (getLocalAddress s w).2 in
    (true, (getRemoteAddress s w).2, w)
  else (false, s, w).

(** [accept]: the new socket dies when [init] refuses the descriptor. *)
Definition Socket_accept (s : SocketObject) (w : W) : option SocketObject * W :=
  let sock := new_Socket (m_family s) (m_type s) (m_protocol s) in
  let '(newsock, w) := n_accept (m_sock s) w in
  if newsock =? -1 then (None, delete_Socket sock w)
  else
    let '(ok, sock, w) := Socket_init newsock sock w in
    if (ok : bool) then (Some sock, w) else (None, delete_Socket sock w).

(** [CreateTCP] and the others: a datagram socket is made at once and counts as connected. *)
Definition CreateTCP (family : Z) : SocketObject := new_Socket family SOCK_STREAM 0.

Definition CreateUDP (family : Z) (w : W) : SocketObject * W :=
  let '(s, w) := newSock (new_Socket family SOCK_DGRAM 0) w in (set_connected true s, w).

(** ** The server *)

(** [bind] of all addresses, on the sockets of [m_socks], each with the number of the other owners of its shared pointer (the tasks and the loops
    of [startAccept]), and on the addresses that failed. A socket that fails dies. *)
Fixpoint bind_all (path : UnixAddress → text) (addrs : list Address) (socks : list (SocketObject * nat)) (fails : list Address) (w : W) :
    list (SocketObject * nat) * list Address * W :=
  match addrs with
  | [] => (socks, fails, w)
  | addr :: addrs =>
      let '(ok, sock, w) := Socket_bind path addr (CreateTCP (getFamily addr)) w in
      if negb (ok : bool) then bind_all path addrs socks (fails ++ [addr]) (delete_Socket sock w)
      else
        let '(ok, w) := Socket_listen 4096 sock w in
        if negb (ok : bool) then bind_all path addrs socks (fails ++ [addr]) (delete_Socket sock w)
        else bind_all path addrs (socks ++ [(sock, 0%nat)]) fails w
  end.

(** [m_socks.clear()]: a socket dies with its last owner. *)
Definition delete_sockets (socks : list (SocketObject * nat)) (w : W) : W :=
  fold_left (λ w '(s, owners), if (owners =? 0)%nat then delete_Socket s w else w) socks w.

(** [TcpServer::bind]; [fails] is in and out: what is in it when the call begins counts as a failure. *)
Definition TcpServer_bind (path : UnixAddress → text) (addrs : list Address) (m_socks : list (SocketObject * nat)) (fails : list Address) (w : W) :
    bool * list (SocketObject * nat) * list Address * W :=
  let '(socks, fails, w) := bind_all path addrs m_socks fails w in
  match fails with
  | [] => (true, socks, fails, w)
  | _ => (false, [], fails, delete_sockets socks w)
  end.
End sockets.

(** ** TLS sockets *)

(** What [SSL_accept] and [SSL_get_error] say in a round: done, wait for reading or writing, or failed; with the result of [addEvent] and the time after the wait. *)
Inductive ssl_round := S_done | S_want (add_event : Z) (now : Z) | S_fatal.

(** The time-out of the handshake: that of the descriptor, if it has a positive one. *)
Definition handshake_timeout (recv_timeout : option Z) : Z :=
  match recv_timeout with Some t => if t >? 0 then t else 60 * 1000 | None => 60 * 1000 end.

(** [handshake] once [m_ssl] exists; [None] while it still waits. *)
Fixpoint handshake (timeout_ms start : Z) (rounds : list ssl_round) : option bool :=
  match rounds with
  | [] => None
  | S_done :: _ => Some true
  | S_fatal :: _ => Some false
  | S_want rt now :: rounds =>
      if negb (rt =? 0) then Some false
      else if (now - start) mod 2 ^ 64 >=? timeout_ms then Some false
      else handshake timeout_ms start rounds
  end.

(** [send] and [recv] of several buffers: the lengths with what [SSL_write] or [SSL_read] returned for each. *)
Fixpoint ssl_buffers (total : Z) (l : list (Z * Z)) : Z :=
  match l with
  | [] => total
  | (len, tmp) :: l =>
      if tmp <=? 0 then tmp else if negb (tmp =? len) then total + tmp else ssl_buffers (total + tmp) l
  end.

(** ** Accepting *)

(** A task of the accepting workers: [startAccept] of a socket, the closing of all, or a fiber of [startAccept] that was woken. *)
Inductive server_task := T_accept (sock : nat) | T_close | T_resume (sock : nat).

(** Where a running loop of [startAccept] is: before the test of [m_isStop]; in [accept], before the table of descriptors is asked; before
    the call of the kernel, by a hooked [accept] or by one that does not wait; before [addEvent]. *)
Inductive accept_pc := L_test | L_accept | L_direct | L_call | L_add.

(** Where the closing of a socket is: before [cancelAll]; in the hooked [close], before its own [cancelAll]; before the table
    forgets the descriptor; before the kernel closes it. *)
Inductive close_pc := C_cancel | C_hook | C_del | C_close.

(** What a worker is at: a loop of [startAccept], or the task of [stop] with the sockets that it still has to close. *)
Inductive activity := A_loop (sock : nat) (pc : accept_pc) | A_close (pc : close_pc) (socks : list nat).

(** [TcpServer] and its accepting workers: the flag, the sockets by number, those the kernel has open and those the table of descriptors knows,
    the scheduled tasks, what the busy workers are at, the loops that wait for an event, by socket, and the number of clients. *)
Record TcpServer := mkServer {
  m_isStop : bool;
  m_socks : list nat;
  open_socks : gset nat;
  managed : gset nat;
  tasks : list server_task;
  running : list activity;
  waiting : list nat;
  clients : nat
}.

Definition TcpServer_start (w : TcpServer) : TcpServer :=
  if negb (m_isStop w) then w
  else mkServer false (m_socks w) (open_socks w) (managed w) (tasks w ++ map T_accept (m_socks w)) (running w) (waiting w) (clients w).

Definition TcpServer_stop (w : TcpServer) : TcpServer :=
  mkServer true (m_socks w) (open_socks w) (managed w) (tasks w ++ [T_close]) (running w) (waiting w) (clients w).

(** A free worker takes a task, [rest] being the others. *)
Definition run_task (t : server_task) (rest : list server_task) (w : TcpServer) : TcpServer :=
  let a := match t with T_accept sock => A_loop sock L_test | T_close => A_close C_cancel (m_socks w) | T_resume sock => A_loop sock L_call end in
  mkServer (m_isStop w) (m_socks w) (open_socks w) (managed w) rest (a :: running w) (waiting w) (clients w).

(** The event of a socket is triggered: the fiber that waits for it is scheduled. *)
Definition trigger_accept (sock : nat) (w : TcpServer) : TcpServer :=
  mkServer (m_isStop w) (m_socks w) (open_socks w) (managed w) (tasks w ++ [T_resume sock]) (running w)
    (filter (λ s, s ≠ sock) (waiting w)) (clients w).

(** [cancelAll] of the descriptor of a socket: nothing without an event, or when [epoll_ctl] finds the descriptor closed. *)
Definition cancel_accept (sock : nat) (w : TcpServer) : TcpServer :=
  if decide (sock ∈ waiting w ∧ sock ∈ open_socks w) then trigger_accept sock w else w.

Definition set_running (l : list activity) (w : TcpServer) : TcpServer :=
  mkServer (m_isStop w) (m_socks w) (open_socks w) (managed w) (tasks w) l (waiting w) (clients w).

(** A step of a loop of [startAccept], between the activities [l1] and [l2] of other workers; [client]: somebody can be accepted.
    A hooked [accept] on a descriptor the table does not know calls the kernel once; else it waits for an event when there is nobody,
    unless [addEvent] fails, because the descriptor is closed or somebody waits for it already. *)
Definition loop_step (client : bool) (sock : nat) (pc : accept_pc) (l1 l2 : list activity) (w : TcpServer) : TcpServer :=
  let goto pc := set_running (l1 ++ A_loop sock pc :: l2) w in
  let accepted := mkServer (m_isStop w) (m_socks w) (open_socks w) (managed w) (tasks w) (l1 ++ A_loop sock L_test :: l2) (waiting w) (S (clients w)) in
  match pc with
  | L_test => if m_isStop w then set_running (l1 ++ l2) w else goto L_accept
  | L_accept => goto (if decide (sock ∈ managed w) then L_call else L_direct)
  | L_direct => if decide (sock ∈ open_socks w) then if client then accepted else goto L_test else goto L_test
  | L_call => if decide (sock ∈ open_socks w) then if client then accepted else goto L_add else goto L_test
  | L_add =>
      if decide (sock ∈ open_socks w ∧ sock ∉ waiting w) then
        mkServer (m_isStop w) (m_socks w) (open_socks w) (managed w) (tasks w) (l1 ++ l2) (waiting w ++ [sock]) (clients w)
      else goto L_test
  end.

(** A step of the task of [stop]. *)
Definition close_step (pc : close_pc) (socks : list nat) (l1 l2 : list activity) (w : TcpServer) : TcpServer :=
  let goto pc socks w := set_running (l1 ++ A_close pc socks :: l2) w in
  match socks with
  | [] => mkServer (m_isStop w) [] (open_socks w) (managed w) (tasks w) (l1 ++ l2) (waiting w) (clients w)
  | sock :: rest =>
      match pc with
      | C_cancel => goto C_hook socks (cancel_accept sock w)
      | C_hook => if decide (sock ∈ managed w) then goto C_del socks (cancel_accept sock w) else goto C_close socks w
      | C_del => goto C_close socks
                   (mkServer (m_isStop w) (m_socks w) (open_socks w) (managed w ∖ {[sock]}) (tasks w) (running w) (waiting w) (clients w))
      | C_close => goto C_cancel rest
                   (mkServer (m_isStop w) (m_socks w) (open_socks w ∖ {[sock]}) (managed w) (tasks w) (running w) (waiting w) (clients w))
      end
  end.

Definition run_activity (client : bool) (a : activity) (l1 l2 : list activity) (w : TcpServer) : TcpServer :=
  match a with A_loop sock pc => loop_step client sock pc l1 l2 w | A_close pc socks => close_step pc socks l1 l2 w end.

(** What the [workers] do: a free one takes a task, a busy one goes on until its fiber waits or ends. *)
Inductive server_work (workers : nat) (client : bool) : TcpServer → TcpServer → Prop :=
  | work_take w l1 t l2 : tasks w = l1 ++ t :: l2 → (length (running w) < workers)%nat → server_work workers client w (run_task t (l1 ++ l2) w)
  | work_run w l1 a l2 : running w = l1 ++ a :: l2 → server_work workers client w (run_activity client a l1 l2 w).

(** A client makes the kernel report an event to a worker that is free; a closed descriptor has left [epoll]. *)
Inductive client_wakes (workers : nat) : TcpServer → TcpServer → Prop :=
  | wakes w sock : sock ∈ waiting w → sock ∈ open_socks w → (length (running w) < workers)%nat → client_wakes workers w (trigger_accept sock w).

Inductive server_step (workers : nat) : TcpServer → TcpServer → Prop :=
  | step_start w : server_step workers w (TcpServer_start w)
  | step_stop w : server_step workers w (TcpServer_stop w)
  | step_work client w w' : server_work workers client w w' → server_step workers w w'
  | step_wakes w w' : client_wakes workers w w' → server_step workers w w'.

(** What the workers and the clients do without [start] and [stop]. *)
Definition server_move (workers : nat) (w w' : TcpServer) : Prop := (∃ client, server_work workers client w w') ∨ client_wakes workers w w'.

(** A server that has bound some sockets. *)
Definition bound_server (n : nat) : TcpServer := mkServer true (seq 0 n) (list_to_set (seq 0 n)) (list_to_set (seq 0 n)) [] [] [] 0.

Definition server_reachable (workers : nat) (w : TcpServer) : Prop := ∃ n, rtc (server_step workers) (bound_server n) w.
