(* ===== verification/SocketProps.v ===== *)
(** * SocketProps: descriptors are neither lost nor closed twice, and the server stops *)

From S2P Require Import Prelude.
From S2P Require Export Socket.

Lemma sublist_same_length {A} (l k : list A) : l `sublist_of` k → length l = length k → l = k.
Proof.
  intros H. induction H as [|x l k Hl IH|x l k Hl IH]; cbn; [done|intros [= E1]; by rewrite IH|].
  intros E1. apply sublist_length in Hl. lia.
Qed.

(** ** The laws of the network *)

(** What the laws look at: the open descriptors, the addresses that [bind] granted them, and those that listen. *)
Class NetView (W : Type) := {
  n_open : W → gset Z;
  n_bound : W → gmap Z Address;
  n_listening : W → gset Z
}.

(** The descriptors of [Y] are bound and listen as before. *)
Definition kept_on {W : Type} `{!NetView W} (Y : gset Z) (w w' : W) : Prop :=
  ∀ fd, fd ∈ Y → (∀ a, n_bound w !! fd = Some a → n_bound w' !! fd = Some a) ∧ (fd ∈ n_listening w → fd ∈ n_listening w').

(** New descriptors are not open yet; only [close] closes one and takes a listener away; a bound socket is not bound again; a
    listener cannot be connected (an address without family would reset it). *)
Class NetLaws (W : Type) `{!Net W, !NetView W} := {
  open_nonneg : ∀ w fd, fd ∈ n_open w → 0 <= fd;
  open_socket : ∀ f t p w, let '(fd, w') := n_socket f t p w in
    (fd = -1 ∧ n_open w' = n_open w) ∨ (0 <= fd ∧ (fd ∉ n_open w) ∧ n_open w' = n_open w ∪ {[fd]});
  open_accept : ∀ s w, let '(fd, w') := n_accept s w in
    (fd = -1 ∧ n_open w' = n_open w) ∨ (0 <= fd ∧ (fd ∉ n_open w) ∧ n_open w' = n_open w ∪ {[fd]});
  open_close : ∀ fd w, n_open (n_close fd w) = n_open w ∖ {[fd]};
  open_bind : ∀ fd a w, n_open (n_bind fd a w).2 = n_open w;
  open_listen : ∀ fd n w, n_open (n_listen fd n w).2 = n_open w;
  open_connect : ∀ fd a t w, n_open (n_connect fd a t w).2 = n_open w;
  open_setsockopt : ∀ fd l o v w, n_open (n_setsockopt fd l o v w).2 = n_open w;
  open_unlink : ∀ p w, n_open (n_unlink p w) = n_open w;
  kept_socket : ∀ Y f t p w, kept_on Y w (n_socket f t p w).2;
  kept_close : ∀ Y fd w, (fd ∉ Y) → kept_on Y w (n_close fd w);
  kept_bind : ∀ Y fd a w, kept_on Y w (n_bind fd a w).2;
  kept_listen : ∀ Y fd n w, kept_on Y w (n_listen fd n w).2;
  kept_connect : ∀ Y fd a t w, getFamily a ≠ 0 → kept_on Y w (n_connect fd a t w).2;
  kept_setsockopt : ∀ Y fd l o v w, kept_on Y w (n_setsockopt fd l o v w).2;
  kept_unlink : ∀ Y p w, kept_on Y w (n_unlink p w);
  bind_granted : ∀ fd a w, (n_bind fd a w).1 = true → n_bound (n_bind fd a w).2 !! fd = Some a;
  listen_granted : ∀ fd n w, (n_listen fd n w).1 = true → fd ∈ n_listening (n_listen fd n w).2
}.

#[export] Instance kept_on_preorder {W : Type} `{!NetView W} Y : PreOrder (kept_on Y).
Proof.
  split; [by intros w fd Hin; split|]. intros w1 w2 w3 H1 H2 fd Hin. destruct (H1 fd Hin) as [A1 A2], (H2 fd Hin) as [B1 B2]. split; auto.
Qed.

Section sockets.
Context {W : Type} `{!Net W, !NetView W, !NetLaws W}.

Implicit Types (s : SocketObject) (w : W) (X : gset Z).

(** The descriptor of a socket, if it has one. *)
Definition descr s : gset Z := if decide (m_sock s = -1) then ∅ else {[m_sock s]}.

(** The open descriptors are those of others and that of the socket. *)
Definition owns X s w : Prop := n_open w = X ∪ descr s ∧ X ## descr s.

Lemma owns_same X s s' w w' : owns X s w → m_sock s' = m_sock s → n_open w' = n_open w → owns X s' w'.
Proof. unfold owns, descr. intros [H1 H2] -> ->. done. Qed.

Lemma initSock_open s w : n_open (initSock s w) = n_open w.
Proof. unfold initSock. case_match; by rewrite ?open_setsockopt. Qed.

Lemma getRemote_sock s w : m_sock (getRemoteAddress s w).2 = m_sock s ∧ m_isConnected (getRemoteAddress s w).2 = m_isConnected s ∧
  m_localAddress (getRemoteAddress s w).2 = m_localAddress s ∧ (∀ a, m_remoteAddress s = Some a → m_remoteAddress (getRemoteAddress s w).2 = Some a).
Proof. unfold getRemoteAddress. destruct (m_remoteAddress s) eqn:E1; [split_and!; [done|done|done|by intros ? [= <-]]|]. by destruct (n_getpeername (m_sock s) w). Qed.

Lemma getLocal_sock s w : m_sock (getLocalAddress s w).2 = m_sock s ∧ m_isConnected (getLocalAddress s w).2 = m_isConnected s ∧
  m_remoteAddress (getLocalAddress s w).2 = m_remoteAddress s.
Proof. unfold getLocalAddress. destruct (m_localAddress s) eqn:E1; [done|]. by destruct (n_getsockname (m_sock s) w). Qed.

(** ** The operations *)

Lemma newSock_owns X s w : m_sock s = -1 → owns X s w → let '(s', w') := newSock s w in
  owns X s' w' ∧ m_isConnected s' = m_isConnected s ∧ m_family s' = m_family s ∧ m_remoteAddress s' = m_remoteAddress s.
Proof.
  intros Hs [H1 H2]. unfold newSock. pose proof (open_socket (m_family s) (m_type s) (m_protocol s) w) as Ho.
  destruct (n_socket _ _ _ w) as [fd w1]. split_and!; [|done|done|done]. unfold owns, descr in *. cbn. rewrite decide_True in H1, H2 by done.
  destruct Ho as [[-> Ho]|(H0 & Hn & Ho)].
  - cbn. rewrite decide_True by done. split; set_solver.
  - destruct (Z.eqb_spec fd (-1)); [lia|]. cbn [negb]. rewrite initSock_open, decide_False by lia. split; set_solver.
Qed.

Lemma close_owns X s w : owns X s w → let '(b, s', w') := Socket_close s w in
  m_sock s' = -1 ∧ m_isConnected s' = false ∧ n_open w' = X ∧ owns X s' w'.
Proof.
  intros [H1 H2]. unfold Socket_close, owns, descr in *.
  destruct (m_isConnected s) eqn:Ec; destruct (Z.eqb_spec (m_sock s) (-1)) as [E1|E1]; cbn; rewrite ?decide_True in * by done;
    rewrite ?(decide_False (P := m_sock s = -1)) in * by done; split_and!; try done; rewrite ?open_close; set_solver.
Qed.

Lemma delete_owns X s w : owns X s w → n_open (delete_Socket s w) = X.
Proof. intros Ho. unfold delete_Socket. pose proof (close_owns X s w Ho) as H. destruct (Socket_close s w) as [[b s'] w']. cbn. tauto. Qed.

(** A socket with a descriptor, if it can be had. *)
Lemma valid_owns X s w : owns X s w → let '(s', w') := if negb (isValid s) then newSock s w else (s, w) in
  owns X s' w' ∧ m_isConnected s' = m_isConnected s ∧ m_family s' = m_family s ∧ m_remoteAddress s' = m_remoteAddress s ∧
  (m_sock s ≠ -1 → m_sock s' = m_sock s).
Proof.
  intros Ho. unfold isValid. destruct (Z.eqb_spec (m_sock s) (-1)) as [E1|E1]; cbn [negb]; [|done].
  pose proof (newSock_owns X s w E1 Ho) as H. destruct (newSock s w) as [s1 w1]. tauto.
Qed.

(** What a failed [connect] leaves: no descriptor could be made; the address is of another family, and the descriptor, made now if there was none, and
    the state are kept; or the connection failed, and the descriptor is closed. *)
Definition connect_failed (addr : Address) (s s' : SocketObject) : Prop :=
  (m_sock s = -1 ∧ m_sock s' = -1 ∧ m_isConnected s' = m_isConnected s) ∨
  (getFamily addr ≠ m_family s ∧ m_sock s' ≠ -1 ∧ (m_sock s ≠ -1 → m_sock s' = m_sock s) ∧ m_isConnected s' = m_isConnected s) ∨
  (getFamily addr = m_family s ∧ m_sock s' = -1 ∧ m_isConnected s' = false).

Lemma connect_owns X s w addr timeout : owns X s w → let '(b, s', w') := Socket_connect addr timeout s w in
  owns X s' w' ∧ m_remoteAddress s' = Some addr ∧
  (if (b : bool) then m_sock s' ≠ -1 ∧ m_isConnected s' = true else connect_failed addr s s').
Proof.
  intros Ho. unfold Socket_connect. assert (Ho0 : owns X (set_remote (Some addr) s) w) by done.
  pose proof (valid_owns X _ w Ho0) as Hv. destruct (if negb (isValid (set_remote (Some addr) s)) then _ else _) as [s1 w1].
  destruct Hv as (Ho1 & Hc & Hf & Hr & Hsame). cbn in Hc, Hr, Hf, Hsame. unfold isValid at 1. destruct (Z.eqb_spec (m_sock s1) (-1)) as [E1|E1]; cbn [negb].
  { split_and!; [done|done|left]. split_and!; [|done|done]. destruct (decide (m_sock s = -1)) as [?|E2]; [done|]. by rewrite Hsame in E1. }
  destruct (Z.eqb_spec (getFamily addr) (m_family s1)) as [Ef|Ef]; cbn [negb].
  2:{ split_and!; [done|done|right; left]. split_and!; [congruence|done|done|done]. }
  pose proof (open_connect (m_sock s1) addr timeout w1) as Hopen. destruct (n_connect (m_sock s1) addr timeout w1) as [[] w2]; cbn [negb snd] in *.
  - destruct (getRemote_sock (set_connected true s1) w2) as (R1 & R2 & R3 & R4).
    destruct (getLocal_sock (getRemoteAddress (set_connected true s1) w2).2 w2) as (L1 & L2 & L3). cbn in R1, R2.
    split_and!; [|by rewrite L3, (R4 addr)|by rewrite L1, R1|by rewrite L2, R2].
    apply (owns_same X s1 _ w1); [done|by rewrite L1, R1|done].
  - assert (Ho2 : owns X s1 w2) by (by apply (owns_same X s1 _ w1)). pose proof (close_owns X s1 w2 Ho2) as Hcl.
    assert (Hrem : m_remoteAddress (Socket_close s1 w2).1.2 = m_remoteAddress s1) by (unfold Socket_close; by destruct (_ && _)).
    destruct (Socket_close s1 w2) as [[b s3] w3]. cbn in Hrem. destruct Hcl as (C1 & C2 & _ & C4).
    split_and!; [done|congruence|right; right]. split_and!; [congruence|done|done].
Qed.

(** What [bind] does for a unix address: it opens nothing. *)
Lemma probe_open path u w : let '(ok, sock, w1) := Socket_connect (AUnixAddress u) (2 ^ 64 - 1) (new_Socket AF_UNIX SOCK_STREAM 0) w in
  n_open (delete_Socket sock (if ok : bool then w1 else n_unlink (path u) w1)) = n_open w.
Proof.
  assert (Ho : owns (n_open w) (new_Socket AF_UNIX SOCK_STREAM 0) w) by (unfold owns, descr; cbn; rewrite decide_True by done; set_solver).
  pose proof (connect_owns _ _ w (AUnixAddress u) (2 ^ 64 - 1) Ho) as H. destruct (Socket_connect _ _ _ w) as [[ok sock] w1].
  destruct H as (H1 & _). apply delete_owns. destruct ok; [done|]. apply (owns_same _ sock _ w1); [done|done|apply open_unlink].
Qed.

Lemma bind_owns X path addr s w : owns X s w → let '(b, s', w') := Socket_bind path addr s w in
  owns X s' w' ∧ m_isConnected s' = m_isConnected s ∧ ((b : bool) = true → m_sock s' ≠ -1).
Proof.
  intros Ho. unfold Socket_bind. pose proof (valid_owns X s w Ho) as Hv. destruct (if negb (isValid s) then _ else _) as [s1 w1].
  destruct Hv as (Ho1 & Hc & Hf & _ & _). unfold isValid. destruct (Z.eqb_spec (m_sock s1) (-1)) as [E1|E1]; cbn [negb]; [done|].
  destruct (getFamily addr =? m_family s1); cbn [negb]; [|done].
  set (p := match addr with AUnixAddress u => _ | _ => _ end).
  assert (Hp : n_open p.2 = n_open w1).
  { unfold p. destruct addr as [| |u|]; try done. pose proof (probe_open path u w1) as Hu. by destruct (Socket_connect _ _ _ w1) as [[ok sock] w2]. }
  destruct p as [taken w2]. cbn in Hp. assert (Ho2 : owns X s1 w2) by (by apply (owns_same X s1 _ w1)). destruct taken; [done|].
  pose proof (open_bind (m_sock s1) addr w2) as Hb. destruct (n_bind (m_sock s1) addr w2) as [[] w3]; cbn [negb snd] in *.
  - destruct (getLocal_sock s1 w3) as (L1 & L2 & L3). split_and!; [by apply (owns_same X s1 _ w2)|congruence|congruence].
  - split_and!; [by apply (owns_same X s1 _ w2)|done|done].
Qed.

Lemma listen_open n s w : n_open (Socket_listen n s w).2 = n_open w.
Proof. unfold Socket_listen. case_match; [done|apply open_listen]. Qed.

(** A refused descriptor stays open and nobody's. *)
Lemma accept_owns s w : let '(r, w') := Socket_accept s w in
  match r with
  | Some c => owns (n_open w) c w' ∧ m_sock c ≠ -1 ∧ m_isConnected c = true
  | None => n_open w' = n_open w ∨ ∃ fd w1, (fd ∉ n_open w) ∧ n_managed fd w1 = false ∧ n_open w' = n_open w ∪ {[fd]}
  end.
Proof.
  unfold Socket_accept. pose proof (open_accept (m_sock s) w) as Ha. destruct (n_accept (m_sock s) w) as [fd w1].
  assert (Hfresh : ∀ w2, delete_Socket (new_Socket (m_family s) (m_type s) (m_protocol s)) w2 = w2) by done.
  destruct Ha as [[-> Ha]|(H0 & Hn & Ha)]; [rewrite Hfresh; by left|]. destruct (Z.eqb_spec fd (-1)); [lia|].
  unfold Socket_init. destruct (n_managed fd w1) eqn:Em; [|rewrite Hfresh; right; by exists fd, w1].
  set (c0 := set_connected true (set_sock fd (new_Socket (m_family s) (m_type s) (m_protocol s)))).
  destruct (getLocal_sock c0 (initSock c0 w1)) as (L1 & L2 & _).
  destruct (getRemote_sock (getLocalAddress c0 (initSock c0 w1)).2 (initSock c0 w1)) as (R1 & R2 & _).
  split_and!; [|by rewrite R1, L1|by rewrite R2, L2]. unfold owns, descr. rewrite R1, L1, initSock_open, Ha. cbn. rewrite decide_False by lia.
  split; set_solver.
Qed.

(** ** What stays bound *)

Lemma initSock_kept Y s w : kept_on Y w (initSock s w).
Proof. unfold initSock. case_match; [etrans; apply kept_setsockopt|apply kept_setsockopt]. Qed.

Lemma valid_kept Y s w : kept_on Y w (if negb (isValid s) then newSock s w else (s, w)).2.
Proof.
  destruct (negb (isValid s)); cbn [snd]; [|done]. unfold newSock. pose proof (kept_socket Y (m_family s) (m_type s) (m_protocol s) w) as H.
  destruct (n_socket _ _ _ w) as [fd w1]. cbn [snd] in *. destruct (negb (fd =? -1)); [|done]. etrans; [exact H|apply initSock_kept].
Qed.

(** Closing a socket takes away its own descriptor only. *)
Lemma close_kept X Y s w : owns X s w → Y ⊆ X → kept_on Y w (Socket_close s w).2.
Proof.
  unfold owns, descr. intros [_ Hd] HY. unfold Socket_close. destruct (_ && _); [done|]. cbn [snd].
  destruct (Z.eqb_spec (m_sock s) (-1)) as [E1|E1]; cbn [negb]; [done|]. rewrite decide_False in Hd by done. apply kept_close. set_solver.
Qed.

Lemma connect_kept X Y s w addr timeout : owns X s w → Y ⊆ X → getFamily addr ≠ 0 → kept_on Y w (Socket_connect addr timeout s w).2.
Proof.
  intros Ho HY Hf. unfold Socket_connect. assert (Ho0 : owns X (set_remote (Some addr) s) w) by done.
  pose proof (valid_owns X _ w Ho0) as Hv. pose proof (valid_kept Y (set_remote (Some addr) s) w) as Hk.
  destruct (if negb (isValid (set_remote (Some addr) s)) then _ else _) as [s1 w1]. destruct Hv as (Ho1 & _). cbn [snd] in Hk.
  destruct (negb (isValid s1)); [done|]. destruct (negb (getFamily addr =? m_family s1)); [done|].
  pose proof (open_connect (m_sock s1) addr timeout w1) as Hopen. pose proof (kept_connect Y (m_sock s1) addr timeout w1 Hf) as Hc.
  destruct (n_connect (m_sock s1) addr timeout w1) as [[] w2]; cbn [negb snd] in *; [by etrans|].
  assert (Ho2 : owns X s1 w2) by (by apply (owns_same X s1 _ w1)). pose proof (close_kept X Y s1 w2 Ho2 HY) as Hcl.
  destruct (Socket_close s1 w2) as [[b s3] w3]. cbn [snd] in *. etrans; [exact Hk|]. by etrans.
Qed.

Lemma probe_kept Y path u w : Y ⊆ n_open w →
  let '(ok, sock, w1) := Socket_connect (AUnixAddress u) (2 ^ 64 - 1) (new_Socket AF_UNIX SOCK_STREAM 0) w in
  kept_on Y w (delete_Socket sock (if ok : bool then w1 else n_unlink (path u) w1)).
Proof.
  intros HY. assert (Ho : owns (n_open w) (new_Socket AF_UNIX SOCK_STREAM 0) w) by (unfold owns, descr; cbn; rewrite decide_True by done; set_solver).
  pose proof (connect_owns _ _ w (AUnixAddress u) (2 ^ 64 - 1) Ho) as H.
  pose proof (connect_kept _ Y _ w (AUnixAddress u) (2 ^ 64 - 1) Ho HY ltac:(done)) as Hk. destruct (Socket_connect _ _ _ w) as [[ok sock] w1].
  destruct H as (H1 & _). cbn [snd] in Hk. etrans; [exact Hk|]. unfold delete_Socket. destruct ok; [by apply (close_kept (n_open w))|].
  etrans; [apply kept_unlink|]. apply (close_kept (n_open w)); [|done]. apply (owns_same _ sock _ w1); [done|done|apply open_unlink].
Qed.

Lemma bind_kept X Y path addr s w : owns X s w → Y ⊆ X → let '(b, s', w') := Socket_bind path addr s w in
  kept_on Y w w' ∧ ((b : bool) = true → n_bound w' !! m_sock s' = Some addr).
Proof.
  intros Ho HY. unfold Socket_bind. pose proof (valid_owns X s w Ho) as Hv. pose proof (valid_kept Y s w) as Hk.
  destruct (if negb (isValid s) then _ else _) as [s1 w1]. destruct Hv as ((Ho1 & _) & _). cbn [snd] in Hk.
  destruct (negb (isValid s1)); [done|]. destruct (negb (getFamily addr =? m_family s1)); [done|].
  set (p := match addr with AUnixAddress u => _ | _ => _ end).
  assert (Hp : kept_on Y w1 p.2).
  { unfold p. destruct addr as [| |u|]; try done. assert (HY1 : Y ⊆ n_open w1) by set_solver.
    pose proof (probe_kept Y path u w1 HY1) as Hu. by destruct (Socket_connect _ _ _ w1) as [[ok sock] w2]. }
  destruct p as [taken w2]. cbn [snd] in Hp. assert (Hk2 : kept_on Y w w2) by (by etrans). destruct taken; [done|].
  pose proof (kept_bind Y (m_sock s1) addr w2) as Hb. pose proof (bind_granted (m_sock s1) addr w2) as Hg.
  destruct (n_bind (m_sock s1) addr w2) as [[] w3]; cbn [negb fst snd] in *; (split; [by etrans|]); [|done].
  destruct (getLocal_sock s1 w3) as (L1 & _). intros _. rewrite L1. by apply Hg.
Qed.

Lemma listen_kept Y n s w : kept_on Y w (Socket_listen n s w).2.
Proof. unfold Socket_listen. case_match; [done|apply kept_listen]. Qed.

Lemma listen_listens n s w : (Socket_listen n s w).1 = true → m_sock s ∈ n_listening (Socket_listen n s w).2.
Proof. unfold Socket_listen. case_match; [done|apply listen_granted]. Qed.

(** ** Many sockets *)

Fixpoint descr_all (l : list SocketObject) : gset Z := match l with [] => ∅ | s :: l => descr s ∪ descr_all l end.

Fixpoint disjoint_all (l : list SocketObject) : Prop := match l with [] => True | s :: l => (descr s ## descr_all l) ∧ disjoint_all l end.

Definition owns_all X (l : list SocketObject) w : Prop := n_open w = X ∪ descr_all l ∧ X ## descr_all l ∧ disjoint_all l.

Lemma descr_all_app l1 l2 : descr_all (l1 ++ l2) = descr_all l1 ∪ descr_all l2.
Proof. induction l1 as [|s l1 IH]; cbn; [set_solver|]. rewrite IH. set_solver. Qed.

Lemma owns_all_snoc X l s w : owns (X ∪ descr_all l) s w → (X ## descr_all l) → disjoint_all l → owns_all X (l ++ [s]) w.
Proof.
  unfold owns, owns_all. intros [H1 H2] H3 H4. rewrite descr_all_app. cbn. split_and!; [set_solver|set_solver|].
  assert (H5 : descr_all l ## descr s) by set_solver. clear -NetLaws0 H4 H5. induction l as [|s' l IH]; cbn in *; [set_solver|].
  rewrite descr_all_app. cbn. split; [set_solver|]. apply IH; [tauto|set_solver].
Qed.

(** The sockets that have another owner. *)
Definition held (l : list (SocketObject * nat)) : list SocketObject := (filter (λ p, p.2 ≠ 0%nat) l).*1.

Lemma held_cons s n l : held ((s, n) :: l) = if (n =? 0)%nat then held l else s :: held l.
Proof. unfold held. rewrite filter_cons. cbn. destruct n as [|n]; cbn; [by rewrite decide_False by tauto|by rewrite decide_True by done]. Qed.

Lemma held_subset l : descr_all (held l) ⊆ descr_all l.*1.
Proof. induction l as [|[s n] l IH]; [done|]. rewrite held_cons. cbn. destruct (n =? 0)%nat; cbn; set_solver. Qed.

Lemma held_disjoint l : disjoint_all l.*1 → disjoint_all (held l).
Proof.
  induction l as [|[s n] l IH]; [done|]. rewrite held_cons. cbn. pose proof (held_subset l). destruct (n =? 0)%nat; cbn; [tauto|].
  intros [? ?]. split; [set_solver|tauto].
Qed.

(** [clear] closes the sockets that nobody else has, and touches no other. *)
Lemma delete_sockets_owns X l w : owns_all X l.*1 w →
  owns_all X (held l) (delete_sockets l w) ∧ kept_on (X ∪ descr_all (held l)) w (delete_sockets l w).
Proof.
  unfold owns_all, delete_sockets. revert X w. induction l as [|[s n] l IH]; intros X w (H1 & H2 & H3); [split; [done|reflexivity]|].
  rewrite held_cons. cbn [fmap list_fmap fst fold_left descr_all disjoint_all] in *. pose proof (held_subset l) as Hs. destruct (n =? 0)%nat.
  - assert (Ho : owns (X ∪ descr_all l.*1) s w) by (unfold owns; split; set_solver).
    pose proof (close_kept _ (X ∪ descr_all (held l)) _ _ Ho ltac:(set_solver)) as Hc.
    destruct (IH X (delete_Socket s w)) as [I1 I2]; [split_and!; [by rewrite (delete_owns _ _ _ Ho)|set_solver|tauto]|].
    split; [done|]. by etrans.
  - destruct (IH (X ∪ descr s) w) as [(I1 & I2 & I3) I4]; [split_and!; [set_solver|set_solver|tauto]|]. cbn [descr_all disjoint_all]. split_and!; [set_solver|set_solver|set_solver|done|].
    intros fd Hin. apply I4. set_solver.
Qed.

(** A socket that listens at an address, with a descriptor of its own. *)
Definition listens_at (w : W) (addr : Address) (s : SocketObject) : Prop :=
  m_sock s ≠ -1 ∧ n_bound w !! m_sock s = Some addr ∧ m_sock s ∈ n_listening w.

Lemma listens_kept w w' Y addr s : listens_at w addr s → descr s ⊆ Y → kept_on Y w w' → listens_at w' addr s.
Proof.
  intros (H1 & H2 & H3) HY Hk. unfold descr in HY. rewrite decide_False in HY by done. destruct (Hk (m_sock s)) as [K1 K2]; [set_solver|].
  split_and!; auto.
Qed.

(** What binding [addrs] comes to: new sockets that listen at the addresses that did not fail. *)
Definition bound_all X path addrs (socks : list (SocketObject * nat)) fails w : Prop :=
  let '(socks', fails', w') := bind_all path addrs socks fails w in
  ∃ new oks more, socks' = socks ++ map (λ s, (s, 0%nat)) new ∧ fails' = fails ++ more ∧ addrs ≡ₚ oks ++ more ∧ oks `sublist_of` addrs ∧ more `sublist_of` addrs ∧
    Forall2 (listens_at w') oks new ∧ owns_all X socks'.*1 w' ∧ kept_on (X ∪ descr_all socks.*1) w w'.

(** An address that fails leaves the sockets as they were. *)
Lemma bound_all_fails X path addr addrs socks fails w w1 : bound_all X path addrs socks (fails ++ [addr]) w1 →
  bind_all path (addr :: addrs) socks fails w = bind_all path addrs socks (fails ++ [addr]) w1 → kept_on (X ∪ descr_all socks.*1) w w1 →
  bound_all X path (addr :: addrs) socks fails w.
Proof.
  unfold bound_all. intros H -> Hk. destruct (bind_all path addrs socks (fails ++ [addr]) w1) as [[socks' fails'] w'].
  destruct H as (new & oks & more & -> & -> & I3 & I4 & I5 & I6 & I7 & I8). exists new, oks, (addr :: more). rewrite <- app_assoc.
  split_and!; [done|done|rewrite I3; by rewrite Permutation_middle|by apply sublist_cons|by apply sublist_skip|done|done|by etrans].
Qed.

Lemma bind_all_owns X path addrs socks fails w : owns_all X socks.*1 w → bound_all X path addrs socks fails w.
Proof.
  revert socks fails w. induction addrs as [|addr addrs IH]; intros socks fails w Hall.
  { exists [], [], []. cbn. rewrite !app_nil_r. by split_and!. }
  set (Y := X ∪ descr_all socks.*1). destruct Hall as (H1 & H2 & H3).
  assert (Ho : owns Y (CreateTCP (getFamily addr)) w) by (unfold Y, owns, descr; cbn; rewrite decide_True by done; split; set_solver).
  pose proof (bind_owns _ path addr _ w Ho) as Hb. pose proof (bind_kept _ Y path addr _ w Ho ltac:(done)) as Hk.
  destruct (Socket_bind path addr (CreateTCP (getFamily addr)) w) as [[b sock] w1] eqn:Eb. destruct Hb as (Hb & _ & Hv). destruct Hk as [Hk Hg].
  assert (Hfail : ∀ w2, owns Y sock w2 → kept_on Y w w2 →
    bind_all path (addr :: addrs) socks fails w = bind_all path addrs socks (fails ++ [addr]) (delete_Socket sock w2) → bound_all X path (addr :: addrs) socks fails w).
  { intros w2 Ho2 Hk2 E2. eapply bound_all_fails; [apply IH|exact E2|]; [split_and!; [by apply (delete_owns Y)|done|done]|].
    etrans; [exact Hk2|by apply (close_kept Y)]. }
  destruct b; [|apply (Hfail w1); [done|done|cbn [bind_all]; by rewrite Eb]].
  pose proof (listen_open 4096 sock w1) as Hl. pose proof (listen_kept (Y ∪ descr sock) 4096 sock w1) as Hlk. pose proof (listen_listens 4096 sock w1) as Hll.
  destruct (Socket_listen 4096 sock w1) as [b w2] eqn:El. cbn [fst snd] in *.
  assert (Ho2 : owns Y sock w2) by (by apply (owns_same _ sock _ w1)).
  assert (Hk2 : kept_on Y w w2) by (etrans; [exact Hk|]; intros fd Hin; apply Hlk; set_solver).
  destruct b; [|apply (Hfail w2); [done|done|cbn [bind_all]; by rewrite Eb; cbn [negb]; rewrite El]].
  assert (Hd : owns_all X (socks ++ [(sock, 0%nat)]).*1 w2) by (rewrite fmap_app; by apply owns_all_snoc).
  specialize (IH (socks ++ [(sock, 0%nat)]) fails _ Hd). unfold bound_all in *. cbn [bind_all]. rewrite Eb. cbn [negb]. rewrite El. cbn [negb].
  destruct (bind_all _ _ _ _ _) as [[socks' fails'] w']. destruct IH as (new & oks & more & -> & -> & I3 & I4 & I5 & I6 & I7 & I8).
  rewrite fmap_app, descr_all_app in I8. cbn in I8. exists (sock :: new), (addr :: oks), more. rewrite <- app_assoc in *.
  assert (Hs : listens_at w2 addr sock).
  { assert (Hn : m_sock sock ≠ -1) by auto. split_and!; [done| |by apply Hll]. apply (Hlk (m_sock sock)); [|by apply Hg].
    unfold descr. rewrite decide_False by done. set_solver. }
  split_and!; [done|done|by rewrite I3|by apply sublist_skip|by apply sublist_cons| |done|].
  - constructor; [|done]. eapply listens_kept; [exact Hs| |exact I8]. set_solver.
  - etrans; [exact Hk2|]. intros fd Hin. apply I8. unfold Y in Hin. set_solver.
Qed.

(** (C34) Descriptors. The open ones are always those of others and the one of the socket, whatever [connect], [bind] and [close] do. A successful
    [connect] leaves the socket connected, with a descriptor; a failed one leaves it, when no descriptor could be made, without one; when the address is of another family, with its
    descriptor, made if there was none, and its state as it was; when the connection is refused or in vain, without descriptor and unconnected: it is closed. [close] closes exactly the socket's own. [accept]
    makes a socket that owns a new descriptor; its only leak is a descriptor that the table does not know as a socket, which stays open and is nobody's. *)
Theorem socket_descriptors X s w (Ho : owns X s w) :
  (∀ addr timeout, let '(b, s', w') := Socket_connect addr timeout s w in
     owns X s' w' ∧ m_remoteAddress s' = Some addr ∧
     (if (b : bool) then m_sock s' ≠ -1 ∧ m_isConnected s' = true
      else (m_sock s = -1 ∧ m_sock s' = -1 ∧ m_isConnected s' = m_isConnected s) ∨
           (getFamily addr ≠ m_family s ∧ m_sock s' ≠ -1 ∧ (m_sock s ≠ -1 → m_sock s' = m_sock s) ∧ m_isConnected s' = m_isConnected s) ∨
           (getFamily addr = m_family s ∧ m_sock s' = -1 ∧ m_isConnected s' = false))) ∧
  (∀ path addr, let '(b, s', w') := Socket_bind path addr s w in
     owns X s' w' ∧ m_isConnected s' = m_isConnected s ∧ ((b : bool) = true → m_sock s' ≠ -1)) ∧
  (let '(b, s', w') := Socket_close s w in m_sock s' = -1 ∧ m_isConnected s' = false ∧ n_open w' = X) ∧
  (let '(r, w') := Socket_accept s w in
   match r with
   | Some c => owns (X ∪ descr s) c w' ∧ m_sock c ≠ -1 ∧ m_isConnected c = true
   | None => n_open w' = X ∪ descr s ∨ ∃ fd w1, (fd ∉ X ∪ descr s) ∧ n_managed fd w1 = false ∧ n_open w' = X ∪ descr s ∪ {[fd]}
   end).
Proof.
  split_and!.
  - intros addr timeout. exact (connect_owns X s w addr timeout Ho).
  - intros path addr. by apply bind_owns.
  - pose proof (close_owns X s w Ho) as H. destruct (Socket_close s w) as [[b s'] w']. tauto.
  - pose proof (accept_owns s w) as H. destruct Ho as [Ho _]. rewrite Ho in H. by destruct (Socket_accept s w) as [[c|] w'].
Qed.

(** (C36) The server binds all of its addresses or none. When [bind] succeeds, which needs an empty list of failures, there is for each address in turn one more
    socket, with a descriptor of its own, bound to that address and listening, and the earlier sockets stay as they are. When an address
    fails it is reported, [m_socks] is emptied, and every socket is closed that has no other owner, those of earlier calls too; a socket that a task or a loop of [startAccept]
    still owns stays open and listens on, though the server has forgotten it. *)
Theorem server_binds X path addrs socks fails w (Ho : owns_all X socks.*1 w) :
  let '(b, socks', fails', w') := TcpServer_bind path addrs socks fails w in
  if (b : bool) then
    fails = [] ∧ fails' = [] ∧ ∃ new, socks' = socks ++ map (λ s, (s, 0%nat)) new ∧ Forall2 (listens_at w') addrs new ∧
      owns_all X socks'.*1 w' ∧ kept_on (X ∪ descr_all socks.*1) w w'
  else
    socks' = [] ∧ fails' ≠ [] ∧ (∃ more, fails' = fails ++ more ∧ more `sublist_of` addrs) ∧
    owns_all X (held socks) w' ∧ kept_on (X ∪ descr_all (held socks)) w w'.
Proof.
  unfold TcpServer_bind. pose proof (bind_all_owns X path addrs socks fails w Ho) as H. unfold bound_all in H.
  destruct (bind_all path addrs socks fails w) as [[socks' fails'] w']. destruct H as (new & oks & more & -> & -> & H3 & H4 & H5 & H6 & H7 & H8).
  destruct (fails ++ more) as [|a l] eqn:Ef.
  - apply app_eq_nil in Ef as [-> ->]. rewrite app_nil_r in H3. split_and!; [done|done|]. exists new. split_and!; try done.
    replace addrs with oks; [done|]. apply sublist_same_length; [done|by rewrite H3].
  - destruct (delete_sockets_owns X _ _ H7) as [D1 D2].
    assert (Eh : held (socks ++ map (λ s, (s, 0%nat)) new) = held socks).
    { unfold held. rewrite filter_app. replace (filter _ (map _ new)) with (@nil (SocketObject * nat)); [by rewrite app_nil_r|].
      clear. induction new as [|s new IH]; [done|]. cbn [map]. by rewrite filter_cons_False by (cbn; tauto). }
    rewrite Eh in *. split_and!; [done|done|by exists more|done|]. etrans; [|exact D2].
    intros fd Hin. apply H8. pose proof (held_subset socks). set_solver.
Qed.
End sockets.

(** ** The server stops *)

(** What is left to do; [n] is the number of the server's sockets. Each [cancelAll] may schedule a loop that waits. *)
Definition pc_work (pc : accept_pc) : nat := match pc with L_test => 1 | L_accept => 4 | L_direct => 2 | L_call => 3 | L_add => 2 end.
Definition close_work (pc : close_pc) : nat := match pc with C_cancel => 12 | C_hook => 7 | C_del => 2 | C_close => 1 end.
Definition activity_work (a : activity) : nat :=
  match a with A_loop _ pc => pc_work pc | A_close _ [] => 1 | A_close pc (_ :: l) => 1 + close_work pc + 12 * length l end.
Definition task_work (n : nat) (t : server_task) : nat := match t with T_accept _ => 2 | T_resume _ => 4 | T_close => 2 + 12 * n end.
Definition work_left (w : TcpServer) : nat :=
  sum_list_with (task_work (length (m_socks w))) (tasks w) + sum_list_with activity_work (running w).

(** ** A server with one worker *)

(** The task of [stop] is under way: the sockets still open are those left to close, and once cancelled nobody waits for the first. *)
Definition closing (w : TcpServer) (pc : close_pc) (socks : list nat) : Prop :=
  NoDup socks ∧ open_socks w = list_to_set socks ∧ (pc ≠ C_cancel → match socks with [] => False | s :: _ => s ∉ waiting w end).

(** Its sockets are closed, or will be. *)
Definition about_to_close (w : TcpServer) : Prop := T_close ∈ tasks w ∨ (∃ pc socks, running w = [A_close pc socks]) ∨ m_socks w = [].

(** What holds with one worker: it does one thing at a time; who waits waits for an open socket; between the tasks of [stop]
    the open sockets are those of the server; once it is to stop they are closed or about to be, or it never ran. *)
Record server_inv (w : TcpServer) : Prop := {
  inv_waiting : ∀ s, s ∈ waiting w → s ∈ open_socks w;
  inv_socks : NoDup (m_socks w);
  inv_running : match running w with
                | [] | [A_loop _ _] => open_socks w = list_to_set (m_socks w)
                | [A_close pc socks] => closing w pc socks
                | _ => False
                end;
  inv_stop : m_isStop w = true → about_to_close w ∨ (running w = [] ∧ tasks w = [] ∧ waiting w = [])
}.

Lemma bound_inv n : server_inv (bound_server n).
Proof. split; cbn; [intros s Hs; by apply elem_of_nil in Hs|apply NoDup_ListNoDup, seq_NoDup|done|by right]. Qed.

Lemma run_single w l1 a l2 : server_inv w → running w = l1 ++ a :: l2 → l1 = [] ∧ l2 = [].
Proof. intros [_ _ H _] E1. rewrite E1 in H. destruct l1 as [|b [|c l1]]; [by destruct l2; [|destruct a]|by destruct b|by destruct b]. Qed.

(** What [cancelAll] does to the loops that wait. *)
Lemma cancel_waiting sock w : (∀ s, s ∈ waiting (cancel_accept sock w) → s ∈ waiting w) ∧ (sock ∈ open_socks w → sock ∉ waiting (cancel_accept sock w)).
Proof.
  unfold cancel_accept. case_decide as Hd; cbn; [|split; [done|tauto]].
  split; [intros s Hs; by apply list_elem_of_filter in Hs as [_ ?]|intros _ Hs; by apply list_elem_of_filter in Hs as [? _]].
Qed.

(** [cancelAll] touches tasks and waiting loops only, and withdraws no task. *)
Lemma cancel_same sock w : m_isStop (cancel_accept sock w) = m_isStop w ∧ m_socks (cancel_accept sock w) = m_socks w ∧
  open_socks (cancel_accept sock w) = open_socks w ∧ managed (cancel_accept sock w) = managed w ∧ running (cancel_accept sock w) = running w ∧
  (tasks (cancel_accept sock w) = tasks w ∨ tasks (cancel_accept sock w) = tasks w ++ [T_resume sock]).
Proof. unfold cancel_accept. case_decide; cbn; auto 10. Qed.

Lemma about_keeps w w' : server_inv w → about_to_close w → server_step 1 w w' → about_to_close w'.
Proof.
  intros Hinv H Hstep. destruct Hstep as [w|w|client w w' Hwork|w w' Hwake].
  - unfold TcpServer_start. destruct (negb (m_isStop w)); [done|]. destruct H as [?|[?|?]]; [left; cbn; set_solver|right; by left|right; by right].
  - left. cbn. set_solver.
  - destruct Hwork as [w l1 t l2 Et Hl|w l1 a l2 Er].
    + destruct (running w) as [|b l] eqn:Eb; [|cbn in Hl; lia]. destruct t; [|right; left; cbn; rewrite Eb; by eexists _, _|];
        (destruct H as [H|[(pc & socks & E1)|?]]; [left; cbn; rewrite Et in H; set_solver|congruence|by right; right]).
    + destruct (run_single _ _ _ _ Hinv Er) as [-> ->]. cbn [app] in Er. destruct a as [sock pc|pc socks]; cbn [run_activity].
      * destruct H as [H|[(pc' & socks & E1)|H]]; [left|congruence|right; right]; unfold loop_step; destruct pc; repeat case_match; done.
      * unfold close_step. destruct socks as [|s socks]; [by right; right|]. right; left. destruct pc; cbn; repeat case_match; by eexists _, _.
  - destruct Hwake. destruct H as [?|[?|?]]; [left; cbn; set_solver|right; by left|right; by right].
Qed.

(** A loop of [startAccept] that runs alone. *)
Lemma loop_keeps client sock pc w : server_inv w → running w = [A_loop sock pc] →
  let w' := loop_step client sock pc [] [] w in
  (∀ s, s ∈ waiting w' → s ∈ open_socks w') ∧ m_socks w' = m_socks w ∧ open_socks w' = open_socks w ∧ (running w' = [] ∨ ∃ pc', running w' = [A_loop sock pc']).
Proof.
  intros [H1 _ _ _] Er. unfold loop_step. destruct pc; cbn; repeat case_match; cbn; eauto 10. destruct_and!.
  split_and!; eauto. intros s. rewrite elem_of_app, list_elem_of_singleton. intros [?| ->]; auto.
Qed.

Lemma closing_cons w pc sock rest : NoDup (sock :: rest) → open_socks w = list_to_set (sock :: rest) → (sock ∉ waiting w) → closing w pc (sock :: rest).
Proof. by intros. Qed.

(** A step of the task of [stop] when it runs alone. *)
Lemma close_keeps pc socks w : server_inv w → running w = [A_close pc socks] →
  let w' := close_step pc socks [] [] w in
  (∀ s, s ∈ waiting w' → s ∈ open_socks w') ∧
  ((running w' = [] ∧ m_socks w' = [] ∧ open_socks w' = ∅) ∨ ∃ pc' socks', running w' = [A_close pc' socks'] ∧ m_socks w' = m_socks w ∧ closing w' pc' socks').
Proof.
  intros [H1 _ Hc _] Er. rewrite Er in Hc. destruct Hc as (C1 & C2 & C3). unfold close_step.
  destruct socks as [|sock rest]; cbn; [split; [done|by left]|].
  destruct (cancel_waiting sock w) as [K1 K2]. destruct (cancel_same sock w) as (S1 & S2 & S3 & S4 & S5 & _).
  assert (Hin : sock ∈ open_socks w) by (rewrite C2; cbn; set_solver). apply NoDup_cons in C1 as [Hn C1].
  destruct pc; cbn; [| |specialize (C3 ltac:(done))|specialize (C3 ltac:(done))].
  - rewrite S3. split; [by auto|right]. exists C_hook, (sock :: rest). split_and!; [done|done|apply closing_cons; cbn; [by apply NoDup_cons|by rewrite S3|by apply K2]].
  - specialize (C3 ltac:(done)). case_decide; cbn.
    + rewrite S3. split; [by auto|right]. exists C_del, (sock :: rest). split_and!; [done|done|apply closing_cons; cbn; [by apply NoDup_cons|by rewrite S3|by apply K2]].
    + split; [done|right]. exists C_close, (sock :: rest). split_and!; [done|done|apply closing_cons; cbn; [by apply NoDup_cons|done|done]].
  - split; [done|right]. exists C_close, (sock :: rest). split_and!; [done|done|apply closing_cons; cbn; [by apply NoDup_cons|done|done]].
  - split.
    + intros s Hs. apply elem_of_difference. split; [by apply H1|]. intros ->%elem_of_singleton. done.
    + right. exists C_cancel, rest. split_and!; [done|done|]. split_and!; [done| |done]. cbn. rewrite C2. cbn.
      apply set_eq. intros x. rewrite elem_of_difference, elem_of_union, elem_of_singleton, elem_of_list_to_set. naive_solver.
Qed.

Lemma server_keeps w w' : server_inv w → server_step 1 w w' → server_inv w'.
Proof.
  intros Hinv Hstep. pose proof (λ H, about_keeps w w' Hinv H Hstep) as Habout. pose proof Hinv as [H1 H2 H3 H4].
  destruct Hstep as [w|w|client w w' Hwork|w w' Hwake].
  - unfold TcpServer_start in *. destruct (m_isStop w) eqn:Es; cbn [negb] in *; [split; cbn; try done|done]. 
  - split; cbn; try done. intros _. left; left. cbn. set_solver.
  - destruct Hwork as [w l1 t l2 Et Hl|w l1 a l2 Er].
    + destruct (running w) as [|b l] eqn:Eb; [|cbn in Hl; lia]. split; cbn; [done|done| |].
      * rewrite Eb. by destruct t.
      * intros Hs. destruct (H4 Hs) as [?|(_ & E1 & _)]; [left; by apply Habout|by rewrite E1 in Et; destruct l1].
    + destruct (run_single _ _ _ _ Hinv Er) as [-> ->]. cbn [app] in Er.
      assert (Hab : m_isStop w = true → about_to_close (run_activity client a [] [] w)).
      { intros Hs. apply Habout. destruct (H4 Hs) as [?|(E1 & _)]; [done|congruence]. }
      assert (Hstop : m_isStop (run_activity client a [] [] w) = m_isStop w).
      { destruct a as [sock pc|pc [|s socks]]; cbn [run_activity]; unfold loop_step, close_step; destruct pc; repeat case_match; try done;
          cbn; by destruct (cancel_same s w). }
      destruct a as [sock pc|pc socks]; cbn [run_activity] in *.
      * destruct (loop_keeps client sock pc w Hinv Er) as (L1 & L2 & L3 & L4). rewrite Er in H3.
        split; [done|by rewrite L2|by destruct L4 as [->|[pc' ->]]; rewrite L2, L3|rewrite Hstop; by left; apply Hab].
      * destruct (close_keeps pc socks w Hinv Er) as (L1 & [(L2 & L3 & L4)|(pc' & socks' & L2 & L3 & L4)]);
          (split; [done|rewrite L3; first [done|constructor]|rewrite L2, ?L3; try done|rewrite Hstop; by left; apply Hab]).
  - destruct Hwake as [w s Hs Ho Hl]. destruct (running w) as [|b l] eqn:Eb; [|cbn in Hl; lia]. split; cbn; [|done|by rewrite Eb|].
    + intros x Hx. apply list_elem_of_filter in Hx as [_ Hx]. by apply H1.
    + intros Es. destruct (H4 Es) as [?|(_ & _ & E1)]; [left; by apply Habout|by rewrite E1 in Hs; apply elem_of_nil in Hs].
Qed.

Lemma reachable_server_inv w : server_reachable 1 w → server_inv w.
Proof.
  intros [n H]. pose proof (bound_inv n) as H0. revert H0. induction H as [w|w1 w2 w3 Hstep _ IH]; [done|]. intros H0. apply IH. by eapply server_keeps.
Qed.

Lemma move_step workers w w' : server_move workers w w' → server_step workers w w'.
Proof. intros [[client H]|H]; by econstructor. Qed.

(** At rest everything is closed. *)
Lemma rest_closed w : server_inv w → about_to_close w → tasks w = [] → running w = [] → waiting w = [] ∧ m_socks w = [] ∧ open_socks w = ∅.
Proof.
  intros [H1 _ H3 _] Hab Et Er. rewrite Er in H3. destruct Hab as [H|[(pc & socks & H)|H]]; [rewrite Et in H; by apply elem_of_nil in H|congruence|].
  rewrite H in H3. cbn in H3. split_and!; [|done|done]. destruct (waiting w) as [|s l]; [done|]. specialize (H1 s). rewrite H3 in H1. set_solver.
Qed.

Lemma moves_keep w w' : server_inv w → about_to_close w → rtc (server_move 1) w w' → server_inv w' ∧ about_to_close w'.
Proof.
  intros H1 H2 H. induction H as [w|w1 w2 w3 Hm _ IH]; [done|]. apply move_step in Hm.
  apply IH; [by eapply server_keeps|by eapply about_keeps].
Qed.

(** ** Termination *)

Lemma task_work_mono n tl : (sum_list_with (task_work 0) tl <= sum_list_with (task_work n) tl)%nat.
Proof. induction tl as [|t tl IH]; cbn; [lia|]. destruct t; cbn [task_work]; lia. Qed.

Lemma cancel_work sock w l : (work_left (set_running l (cancel_accept sock w)) <= work_left (set_running l w) + 4)%nat.
Proof. unfold cancel_accept. case_decide; [|lia]. unfold work_left. cbn. rewrite sum_list_with_app. cbn. lia. Qed.

Lemma work_running w l1 a l2 : running w = l1 ++ a :: l2 → (work_left w = work_left (set_running (l1 ++ l2) w) + activity_work a)%nat.
Proof. intros Er. unfold work_left. cbn. rewrite Er, !sum_list_with_app. cbn. lia. Qed.

Lemma loop_lowers client sock pc l1 l2 w : m_isStop w = true → running w = l1 ++ A_loop sock pc :: l2 →
  (work_left (loop_step client sock pc l1 l2 w) < work_left w)%nat.
Proof.
  intros Hs Er. rewrite (work_running _ _ _ _ Er). unfold loop_step, work_left, set_running.
  destruct pc; rewrite ?Hs; repeat case_match; cbn; rewrite ?sum_list_with_app; cbn; lia.
Qed.

Lemma close_lowers pc socks l1 l2 w : running w = l1 ++ A_close pc socks :: l2 → (work_left (close_step pc socks l1 l2 w) < work_left w)%nat.
Proof.
  intros Er. rewrite (work_running _ _ _ _ Er). unfold close_step. destruct socks as [|sock rest].
  { unfold work_left. cbn. rewrite !sum_list_with_app. pose proof (task_work_mono (length (m_socks w)) (tasks w)). lia. }
  assert (Hc : ∀ pc', (work_left (set_running (l1 ++ A_close pc' (sock :: rest) :: l2) (cancel_accept sock w)) <=
    work_left (set_running (l1 ++ l2) w) + activity_work (A_close pc' (sock :: rest)) + 4)%nat).
  { intros pc'. etrans; [apply cancel_work|]. unfold work_left. cbn. rewrite !sum_list_with_app. cbn. lia. }
  pose proof (Hc C_hook) as Hc1. pose proof (Hc C_del) as Hc2. clear Hc.
  destruct pc; [|case_decide| |]; cbn [activity_work close_work] in *; try lia; clear Hc1 Hc2;
    unfold work_left; cbn; rewrite ?sum_list_with_app; cbn; try lia. destruct rest; cbn; lia.
Qed.

Lemma work_lowers workers client w w' : m_isStop w = true → server_work workers client w w' → m_isStop w' = true ∧ (work_left w' < work_left w)%nat.
Proof.
  intros Hs Hwork. destruct Hwork as [w l1 t l2 Et Hl|w l1 a l2 Er].
  - split; [done|]. unfold work_left. cbn. rewrite Et, !sum_list_with_app. destruct t; cbn; try lia. destruct (m_socks w); cbn; lia.
  - destruct a as [sock pc|pc socks]; cbn [run_activity]; (split; [|by first [apply loop_lowers|apply close_lowers]]).
    + unfold loop_step. destruct pc; rewrite ?Hs; repeat case_match; done.
    + unfold close_step. destruct socks as [|sock rest]; [done|]. destruct (cancel_same sock w) as [E1 _]. destruct pc; repeat case_match; cbn; congruence.
Qed.

Lemma work_possible workers w : (0 < workers)%nat → (tasks w = [] ∧ running w = []) ∨ ∃ w', server_work workers false w w'.
Proof.
  intros Hw. destruct (running w) as [|a l] eqn:Er; [|right; eexists; by apply (work_run _ _ _ [] a l)].
  destruct (tasks w) as [|t l] eqn:Et; [by left|]. right. eexists. apply (work_take _ _ _ [] t l Et). by rewrite Er.
Qed.

Lemma work_ends workers w : (0 < workers)%nat → m_isStop w = true → ∃ w', rtc (server_work workers false) w w' ∧ tasks w' = [] ∧ running w' = [].
Proof.
  intros Hw. remember (work_left w) as n eqn:En. revert w En. induction (lt_wf n) as [n _ IH]. intros w -> Hs.
  destruct (work_possible workers w Hw) as [[? ?]|[w1 Hw1]]; [exists w; split_and!; [constructor|done|done]|].
  destruct (work_lowers _ _ _ _ Hs Hw1) as [Hs1 Hl]. destruct (IH _ Hl w1 eq_refl Hs1) as (w' & Hr & H1 & H2).
  exists w'. split_and!; [by eapply rtc_l|done|done].
Qed.

(** ** Two runs *)

(** A choice of what happens next, tasks and workers by position. *)
Inductive choice := Ch_start | Ch_stop | Ch_take (i : nat) | Ch_run (client : bool) (i : nat).

Definition choose (workers : nat) (c : choice) (w : TcpServer) : option TcpServer :=
  match c with
  | Ch_start => Some (TcpServer_start w)
  | Ch_stop => Some (TcpServer_stop w)
  | Ch_take i => t ← tasks w !! i; if (length (running w) <? workers)%nat then Some (run_task t (take i (tasks w) ++ drop (S i) (tasks w)) w) else None
  | Ch_run client i => a ← running w !! i; Some (run_activity client a (take i (running w)) (drop (S i) (running w)) w)
  end.

Fixpoint choose_all (workers : nat) (cs : list choice) (w : TcpServer) : option TcpServer :=
  match cs with [] => Some w | c :: cs => choose workers c w ≫= choose_all workers cs end.

Lemma choose_steps workers cs w w' : choose_all workers cs w = Some w' → rtc (server_step workers) w w'.
Proof.
  revert w. induction cs as [|c cs IH]; intros w; [by intros [= ->]|]. cbn [choose_all]. intros (w1 & E1 & E2)%bind_Some.
  eapply rtc_l; [|by apply IH]. clear -E1. destruct c as [| |i|client i]; cbn [choose] in E1.
  - injection E1 as <-. constructor.
  - injection E1 as <-. constructor.
  - apply bind_Some in E1 as (t & Et & E1). destruct (Nat.ltb_spec (length (running w)) workers); [|discriminate]. injection E1 as <-.
    apply (step_work _ false). apply work_take; [symmetry; by apply take_drop_middle|done].
  - apply bind_Some in E1 as (a & Ea & E1). injection E1 as <-. apply (step_work _ client). apply work_run. symmetry. by apply take_drop_middle.
Qed.

(** A loop waits on a closed socket that the server has forgotten. *)
Definition stuck (w : TcpServer) : Prop :=
  m_socks w = [] ∧ open_socks w = ∅ ∧ 0%nat ∈ waiting w ∧ Forall (eq T_close) (tasks w) ∧ Forall (λ a, ∃ pc, a = A_close pc []) (running w).

Lemma stuck_keeps workers w w' : stuck w → server_step workers w w' → stuck w'.
Proof.
  intros (H1 & H2 & H3 & H4 & H5) Hstep. destruct Hstep as [w|w|client w w' Hwork|w w' Hwake].
  - unfold TcpServer_start. destruct (negb (m_isStop w)); [done|]. split_and!; cbn; try done. rewrite H1. cbn. by rewrite app_nil_r.
  - split_and!; cbn; try done. apply Forall_app. by split; [|constructor].
  - destruct Hwork as [w l1 t l2 Et Hl|w l1 a l2 Er].
    + rewrite Et in H4. apply Forall_app in H4 as [H41 H42]. apply Forall_cons in H42 as [<- H42]. split_and!; cbn; try done.
      * by apply Forall_app.
      * constructor; [exists C_cancel; by rewrite H1|done].
    + rewrite Er in H5. apply Forall_app in H5 as [H51 H52]. apply Forall_cons in H52 as [(pc & ->) H52]. cbn.
      split_and!; cbn; try done. by apply Forall_app.
  - destruct Hwake as [w s Hs Ho Hl]. rewrite H2 in Ho. by apply elem_of_empty in Ho.
Qed.

(** [addEvent] comes after the last [cancelAll] and before the kernel closes the descriptor: two workers are enough. *)
Lemma stuck_reachable workers : (2 <= workers)%nat → server_reachable workers (mkServer true [] ∅ ∅ [] [] [0%nat] 0).
Proof.
  intros Hw. destruct workers as [|[|k]]; [lia|lia|]. exists 1%nat.
  apply (choose_steps _ [Ch_start; Ch_take 0; Ch_run false 0; Ch_run false 0; Ch_run false 0; Ch_stop; Ch_take 0; Ch_run false 0; Ch_run false 0;
                         Ch_run false 1; Ch_run false 0; Ch_run false 0; Ch_run false 0]).
  vm_compute. reflexivity.
Qed.

(** The only worker accepts on a closed socket, again and again. *)
Definition spinning (pc : accept_pc) : TcpServer := mkServer false [] ∅ ∅ [T_accept 0] [A_loop 0 pc] [] 0.

Definition spins (w : TcpServer) : Prop := w = spinning L_test ∨ w = spinning L_accept ∨ w = spinning L_direct.

Lemma spin_possible w : spins w → ∃ w', server_work 1 false w w'.
Proof. intros [-> | [-> | ->]]; eexists; by eapply (work_run _ _ _ []). Qed.

Lemma spin_keeps w w' : spins w → server_move 1 w w' → spins w'.
Proof.
  intros Hs [[client Hwork]|Hwake].
  - destruct Hwork as [w l1 t l2 Et Hl|w l1 a l2 Er]; [destruct Hs as [-> | [-> | ->]]; cbn in Hl; lia|].
    assert (E1 : l1 = [] ∧ l2 = [] ∧ ∃ pc, a = A_loop 0 pc ∧ w = spinning pc).
    { destruct Hs as [-> | [-> | ->]]; cbn in Er; (destruct l1 as [|b [|c l1]]; [|done|done]); injection Er as <- <-; eauto. }
    destruct E1 as (-> & -> & pc & -> & ->). destruct Hs as [E1|[E1|E1]]; injection E1 as ->; [right; left|right; right|left]; done.
  - destruct Hwake as [w s Hs' Ho Hl]. destruct Hs as [-> | [-> | ->]]; by apply elem_of_nil in Hs'.
Qed.

(** [start], [stop] and [start] again before the task of [stop] has run. *)
Lemma spin_reachable : server_reachable 1 (spinning L_test).
Proof.
  exists 1%nat.
  apply (choose_steps _ [Ch_start; Ch_take 0; Ch_run false 0; Ch_run false 0; Ch_run false 0; Ch_run false 0; Ch_stop; Ch_start; Ch_take 0;
                         Ch_run false 0; Ch_run false 0; Ch_run false 0; Ch_run false 0; Ch_run false 0; Ch_take 1; Ch_run false 0]).
  vm_compute. reflexivity.
Qed.

(** (C35) Stopping, until [start] is called again. Each step of the accepting workers, with or without clients, leaves less to do, and a client that wakes a loop adds
    four steps at most; a step is possible until no task and no running loop is left. With one worker all then ends: after [stop] the workers always can, without any client, come to a state
    where no loop of [startAccept] runs, waits or is scheduled and every socket is closed, and they rest in no other.
    With several workers it need not: when [addEvent] of a waiting [accept] comes between the last [cancelAll] and the closing of the descriptor, the loop
    waits for ever, whatever is called or happens later. And when [start] comes before the task of [stop] has run, the
    worker accepts on a closed socket again and again: it accepts nobody and takes no other task. *)
Theorem server_stops :
  (∀ workers w, m_isStop w = true →
    (∀ client w', server_work workers client w w' → m_isStop w' = true ∧ (work_left w' < work_left w)%nat) ∧
    (∀ w', client_wakes workers w w' → m_isStop w' = true ∧ work_left w' = (work_left w + 4)%nat) ∧
    ((0 < workers)%nat → (tasks w = [] ∧ running w = []) ∨ ∃ w', server_work workers false w w')) ∧
  (∀ w w', server_reachable 1 w → rtc (server_move 1) (TcpServer_stop w) w' →
    (∃ w'', rtc (server_work 1 false) w' w'' ∧ tasks w'' = [] ∧ running w'' = []) ∧
    (tasks w' = [] → running w' = [] → waiting w' = [] ∧ m_socks w' = [] ∧ open_socks w' = ∅)) ∧
  (∀ workers, (2 <= workers)%nat → ∃ w, server_reachable workers w ∧ m_isStop w = true ∧ tasks w = [] ∧ running w = [] ∧
    ∀ w', rtc (server_step workers) w w' → 0%nat ∈ waiting w' ∧ (0%nat ∉ open_socks w') ∧ m_socks w' = []) ∧
  ∃ w, server_reachable 1 w ∧ m_isStop w = false ∧ m_socks w = [] ∧
    ∀ w', rtc (server_move 1) w w' → (∃ w'', server_work 1 false w' w'') ∧ tasks w' = [T_accept 0] ∧ open_socks w' = ∅ ∧ clients w' = 0%nat.
Proof.
  split; [|split; [|split]].
  - intros workers w Hs. split_and!; [intros client w'; by apply work_lowers| |apply work_possible].
    intros w' Hw. destruct Hw as [w s _ _ _]. split; [done|]. unfold work_left. cbn. rewrite sum_list_with_app. cbn. lia.
  - intros w w' Hreach Hrun. destruct (moves_keep (TcpServer_stop w) w') as [Hinv Hab]; [|left; cbn; set_solver|done|].
    { eapply server_keeps; [by apply reachable_server_inv|constructor]. }
    assert (Hs : m_isStop w' = true).
    { clear -Hrun. remember (TcpServer_stop w) as w0 eqn:E0. assert (H0 : m_isStop w0 = true) by (by subst). clear E0 w.
      induction Hrun as [|w1 w2 w3 [[client Hm]|Hm] _ IH]; [done|apply IH; by eapply work_lowers|apply IH; by destruct Hm]. }
    split; [apply work_ends; [lia|done]|by apply rest_closed].
  - intros workers Hw. exists (mkServer true [] ∅ ∅ [] [] [0%nat] 0). split_and!; try done; [by apply stuck_reachable|].
    intros w' Hrun. assert (Hst : stuck w').
    { assert (H0 : stuck (mkServer true [] ∅ ∅ [] [] [0%nat] 0)) by (split_and!; cbn; [done|done|by left|constructor|constructor]).
      induction Hrun as [|w1 w2 w3 Hm _ IH]; [done|]. apply IH. by eapply stuck_keeps. }
    destruct Hst as (H1 & H2 & H3 & _). rewrite H2. split_and!; [done|apply not_elem_of_empty|done].
  - exists (spinning L_test). split_and!; try done; [exact spin_reachable|]. intros w' Hrun. assert (Hsp : spins w').
    { assert (H0 : spins (spinning L_test)) by (by left). induction Hrun as [|w1 w2 w3 Hm _ IH]; [done|]. apply IH. by eapply spin_keeps. }
    split; [by apply spin_possible|]. by destruct Hsp as [-> | [-> | ->]].
Qed.

(** ** TLS *)

(** A round that makes the handshake go on. *)
Definition goes_on (timeout_ms start : Z) (r : ssl_round) : Prop :=
  match r with S_want rt now => rt = 0 ∧ (now - start) mod 2 ^ 64 < timeout_ms | _ => False end.

(** The handshake succeeds when OpenSSL is done after rounds that could wait and were in time. *)
Lemma handshake_succeeds timeout_ms start rounds : handshake timeout_ms start rounds = Some true ↔
  ∃ l rest, rounds = l ++ S_done :: rest ∧ Forall (goes_on timeout_ms start) l.
Proof.
  split.
  - induction rounds as [|[|rt now|] rounds IH]; cbn; intros E1; try done; [by exists [], rounds|].
    destruct (Z.eqb_spec rt 0) as [->|]; [|done]. cbn in E1. destruct (Z.geb_spec ((now - start) mod 2 ^ 64) timeout_ms); [done|].
    destruct (IH E1) as (l & rest & -> & Hl). exists (S_want 0 now :: l), rest. split; [done|]. by constructor.
  - intros (l & rest & -> & Hl). induction Hl as [|r l Hr _ IH]; [done|]. destruct r as [|rt now|]; try done.
    destruct Hr as [-> Ht]. cbn.
    destruct (Z.geb_spec ((now - start) mod 2 ^ 64) timeout_ms); [lia|done].
Qed.

(** A managed descriptor without a time-out has the value 2^64 - 1: the handshake then has no time-out in effect, not that of a minute. *)
Lemma handshake_without_timeout : handshake_timeout (Some (2 ^ 64 - 1)) = 2 ^ 64 - 1 ∧ handshake_timeout None = 60000.
Proof. done. Qed.

(** All buffers sent: the sum of their lengths; but an error after some were sent hides them. *)
Lemma ssl_buffers_all total l : Forall (λ b : Z * Z, b.2 = b.1 ∧ 0 < b.1) l → ssl_buffers total l = total + fold_right (λ b z, b.1 + z) 0 l.
Proof.
  intros H. revert total. induction H as [|[len tmp] l [Ht Hp] _ IH]; intros total; cbn in *; [lia|]. subst tmp.
  destruct (Z.leb_spec len 0); [lia|]. rewrite Z.eqb_refl. cbn. rewrite IH. lia.
Qed.

(** ** Witnesses *)

(** Descriptors by number: the next one, those not closed, the addresses they are bound to, and those that listen. *)
Record toy_net := mkToy { toy_next : nat; toy_fds : gset Z; toy_bound : gmap Z Address; toy_listening : gset Z }.

Definition toy_new (w : toy_net) : Z * toy_net :=
  (Z.of_nat (toy_next w), mkToy (S (toy_next w)) (toy_fds w ∪ {[Z.of_nat (toy_next w)]}) (toy_bound w) (toy_listening w)).

Definition toy_bind (fd : Z) (a : Address) (w : toy_net) : bool * toy_net :=
  match toy_bound w !! fd with
  | Some _ => (false, w)
  | None => (true, mkToy (toy_next w) (toy_fds w) (<[fd := a]> (toy_bound w)) (toy_listening w))
  end.

#[export] Instance toy_Net : Net toy_net := {
  n_socket f t p w := toy_new w;
  n_bind := toy_bind;
  n_listen fd n w := (true, mkToy (toy_next w) (toy_fds w) (toy_bound w) (toy_listening w ∪ {[fd]}));
  n_connect fd a t w := (t >? 0, w);
  n_accept fd w := toy_new w;
  n_close fd w := mkToy (toy_next w) (toy_fds w ∖ {[fd]}) (delete fd (toy_bound w)) (toy_listening w ∖ {[fd]});
  n_setsockopt fd l o v w := (true, w);
  n_getsockname fd w := None;
  n_getpeername fd w := None;
  n_managed fd w := true;
  n_unlink p w := w
}.

Definition toy_open (w : toy_net) : gset Z := filter (λ fd, 0 <= fd < Z.of_nat (toy_next w)) (toy_fds w).

#[export] Instance toy_NetView : NetView toy_net := {| n_open := toy_open; n_bound := toy_bound; n_listening := toy_listening |}.

Lemma toy_new_open w : let '(fd, w') := toy_new w in
  (fd = -1 ∧ toy_open w' = toy_open w) ∨ (0 <= fd ∧ (fd ∉ toy_open w) ∧ toy_open w' = toy_open w ∪ {[fd]}).
Proof.
  destruct w as [n X b l]. cbn. right. unfold toy_open. cbn. split_and!; [lia|rewrite elem_of_filter; lia|].
  apply set_eq. intros fd. rewrite elem_of_union, !elem_of_filter, elem_of_union, elem_of_singleton.
  split; [intros [? [?| ->]]; [destruct (decide (fd = Z.of_nat n)); [by right|left; split; [lia|done]]|by right]|].
  intros [[? ?]| ->]; split; try lia; auto.
Qed.

#[export] Instance toy_NetLaws : NetLaws toy_net.
Proof.
  split; try done.
  - intros w fd. cbn. unfold toy_open. rewrite elem_of_filter. lia.
  - intros f t p w. apply toy_new_open.
  - intros s w. apply toy_new_open.
  - intros fd [n X b l]. cbn. unfold toy_open. cbn. apply set_eq. intros x. rewrite elem_of_difference, !elem_of_filter, elem_of_difference. tauto.
  - intros fd a w. cbn. unfold toy_bind. by case_match.
  - intros Y fd w Hfd x Hx. cbn. split; [intros a; rewrite lookup_delete_ne by (intros ->; done); done|]. intros Hl. set_solver.
  - intros Y fd a w x Hx. cbn. unfold toy_bind. destruct (toy_bound w !! fd) eqn:E1; [done|]. cbn. split; [|done].
    intros b Hb. rewrite lookup_insert_ne; [done|congruence].
  - intros Y fd n w x Hx. cbn. split; [done|set_solver].
  - intros fd a w. cbn. unfold toy_bind. case_match; [done|]. intros _. cbn. by rewrite lookup_insert_eq.
  - intros fd n w. cbn. set_solver.
Defined.

Definition no_path (u : UnixAddress) : text := [].

Definition sample_addresses : list Address := [IPv4Address (new_IPv4Address true 0 80); IPv4Address (new_IPv4Address true 0 81)].

Definition no_net : toy_net := mkToy 0 ∅ ∅ ∅.

Lemma none_owned s : m_sock s = -1 → owns ∅ s no_net.
Proof. intros H. unfold owns, descr. rewrite decide_True by done. split; [|set_solver]. change (toy_open no_net = ∅ ∪ ∅). unfold toy_open. set_solver. Qed.

Lemma socket_descriptors_witness : owns ∅ (CreateTCP AF_INET) no_net ∧
  m_remoteAddress (Socket_connect (IPv4Address (new_IPv4Address true 0 80)) 100 (CreateTCP AF_INET) no_net).1.2 =
    Some (IPv4Address (new_IPv4Address true 0 80)).
Proof.
  split; [by apply none_owned|].
  destruct (socket_descriptors ∅ (CreateTCP AF_INET) no_net (none_owned (CreateTCP AF_INET) eq_refl)) as (H & _).
  specialize (H (IPv4Address (new_IPv4Address true 0 80)) 100).
  destruct (Socket_connect (IPv4Address (new_IPv4Address true 0 80)) 100 (CreateTCP AF_INET) no_net) as [[b s'] w']. apply H.
Defined.

Lemma none_owned_all : owns_all ∅ [] no_net.
Proof. split; [change (toy_open no_net = ∅ ∪ ∅); unfold toy_open; set_solver|]. split; [set_solver|exact I]. Qed.

Lemma server_binds_witness : owns_all ∅ [] no_net ∧
  ∃ socks w, TcpServer_bind no_path sample_addresses [] [] no_net = (true, socks, [], w) ∧ owns_all ∅ socks.*1 w ∧ Forall2 (listens_at w) sample_addresses socks.*1.
Proof.
  split; [exact none_owned_all|].
  pose proof (server_binds ∅ no_path sample_addresses [] [] no_net none_owned_all) as H.
  assert (Hb : (TcpServer_bind no_path sample_addresses [] [] no_net).1.1.1 = true) by reflexivity.
  destruct (TcpServer_bind no_path sample_addresses [] [] no_net) as [[[b socks] fails] w]. cbn in Hb. subst b.
  destruct H as (_ & -> & new & -> & H3 & H4 & _). exists (map (λ s, (s, 0%nat)) new), w. split; [reflexivity|]. split; [exact H4|].
  replace ((map (λ s : SocketObject, (s, 0%nat)) new).*1) with new; [exact H3|]. clear. induction new as [|s new IH]; [reflexivity|]. cbn. by rewrite <- IH.
Defined.

Lemma server_stops_witness : ∃ w', rtc (server_work 1 false) (TcpServer_stop (bound_server 2)) w' ∧ tasks w' = [] ∧ running w' = [].
Proof.
  destruct (proj1 (proj2 server_stops) (bound_server 2) (TcpServer_stop (bound_server 2))) as [H _]; [exists 2%nat; constructor|constructor|exact H].
Defined.
