(* ===== verification/HttpClient.v ===== *)
(** * HttpClient: requests on a connection of their own ([http/http_connection.cc])

    [DoRequest] and its variants: the URL, the headers, the connection, and a
    result code for each thing that can fail.  Looking a host up, creating a
    socket and connecting are the class [Dialer]. *)

From S2P Require Import Prelude HttpProps.
From S2P Require Export HttpStream Uri.

(** ** Results *)

(** [HttpResult::Error] *)
Inductive HttpError :=
  | Error_OK | INVALID_URL | INVALID_HOST | CONNECT_FAIL | SEND_CLOSE_BY_PEER | SEND_SOCKET_ERROR | TIMEOUT
  | CREATE_SOCKET_ERROR | POOL_GET_CONNECTION | POOL_INVALID_CONNECTION.

#[export] Instance http_error_eq_dec : EqDecision HttpError.
Proof. solve_decision. Defined.

(** The text that describes the error is left out. *)
Record HttpResult := mkHttpResult { http_result : HttpError; http_response : option HttpResponse }.

Definition failed (e : HttpError) : HttpResult := mkHttpResult e None.

(** ** The network *)

(** [LookupAnyIPAddress]; [CreateTCP] then [connect]: no socket, no connection, or a connected socket. *)
Inductive Dialed := NoSocket | NotConnected | Dialed_to (s : Socket).

Class Dialer (A : Type) := {
  LookupAnyIPAddress : text → option A;
  addr_setPort : Z → A → A;
  dial : bool → A → Dialed
}.

(** ** The request *)

(** The loop over [headers]: the request, and whether a host was among them. *)
Fixpoint apply_headers (headers : list (text * text)) (has_host : bool) (req : HttpRequest) : HttpRequest * bool :=
  match headers with
  | [] => (req, has_host)
  | (k, v) :: headers' =>
      if strcasecmp (c_str k) (str "connection") =? 0 then
        apply_headers headers' has_host
          (if strcasecmp (c_str v) (str "keep-alive") =? 0 then setClose false req else req)
      else
        let has_host := if negb has_host && (strcasecmp (c_str k) (str "host") =? 0) then negb (bool_decide (v = [])) else has_host in
        apply_headers headers' has_host (setHeader k v req)
  end.

Definition with_headers (headers : list (text * text)) (host body : text) (req : HttpRequest) : HttpRequest :=
  let '(req, has_host) := apply_headers headers false req in
  setBody body (if has_host then req else setHeader (str "Host") host req).

Definition uri_request (method : HttpMethod) (uri : Uri) (headers : list (text * text)) (body : text) : HttpRequest :=
  let req := setMethod method (setFragment (uri_fragment uri) (setQuery (uri_query uri) (setPath (getPath uri) (new_HttpRequest 17 true)))) in
  with_headers headers (uri_host uri) body req.

Section client.
Context {A : Type} `{Dialer A}.
Context (cast : text → option Z) (memory : Z) (buff_size : nat) (garbage : Z).

(** [Uri::createAddress] *)
Definition createAddress (uri : Uri) : option A :=
  addr_setPort (getPort uri) <$> LookupAnyIPAddress (uri_host uri).

(** What [DoRequest] does with a connection: send, then receive. *)
Definition exchange (req : HttpRequest) : MS HttpResult :=
  rt ← sendRequest req;
  if rt =? 0 then mret (failed SEND_CLOSE_BY_PEER)
  else if rt <? 0 then mret (failed SEND_SOCKET_ERROR)
  else
    rsp ← recvResponse cast memory buff_size (new_HttpResponseParser garbage);
    match rsp with
    | None => mret (failed TIMEOUT)
    | Some rsp => mret (mkHttpResult Error_OK (Some rsp))
    end.

(** [DoRequest(req, uri, timeout_ms)]; the connection is closed when it returns. *)
Definition DoRequest_on (req : HttpRequest) (uri : Uri) : result HttpResult :=
  let is_ssl := bool_decide (uri_scheme uri = str "https") in
  match createAddress uri with
  | None => Ok (failed INVALID_HOST)
  | Some addr =>
      match dial is_ssl addr with
      | NoSocket => Ok (failed CREATE_SOCKET_ERROR)
      | NotConnected => Ok (failed CONNECT_FAIL)
      | Dialed_to s => match exchange req s with Ok (r, _) => Ok r | Fail f => Fail f end
      end
  end.

(** [DoRequest(method, uri, ...)] *)
Definition DoRequest (method : HttpMethod) (uri : Uri) (headers : list (text * text)) (body : text) : result HttpResult :=
  DoRequest_on (uri_request method uri headers body) uri.

(** [DoRequest(method, url, ...)] *)
Definition DoRequest_url (method : HttpMethod) (url : text) (headers : list (text * text)) (body : text) : result HttpResult :=
  match Create url with
  | Ok (Some uri) => DoRequest method uri headers body
  | Ok None => Ok (failed INVALID_URL)
  | Fail f => Fail f
  end.

Definition DoGet (url : text) (headers : list (text * text)) (body : text) : result HttpResult :=
  DoRequest_url GET url headers body.
Definition DoPost (url : text) (headers : list (text * text)) (body : text) : result HttpResult :=
  DoRequest_url POST url headers body.
End client.
