(* ===== verification/HttpClientProps.v ===== *)
(** * HttpClientProps: what [DoRequest] gives

    The result of a request for each thing that can happen to it, and the
    headers it is sent with. *)

From S2P Require Import Prelude HttpProps.
From S2P Require Export HttpClient HttpLink UriProps.

(** ** The headers *)

Definition is_header (name : text) (h : text * text) : bool := strcasecmp (c_str h.1) name =? 0.

(** The caller asks to keep the connection. *)
Definition keeps_alive (headers : list (text * text)) : bool :=
  existsb (λ h, is_header (str "connection") h && (strcasecmp (c_str h.2) (str "keep-alive") =? 0)) headers.

(** The caller names a host. *)
Definition names_host (headers : list (text * text)) : bool :=
  existsb (λ h, is_header (str "host") h && negb (bool_decide (h.2 = []))) headers.

Lemma not_both h : is_header (str "connection") h = true → is_header (str "host") h = false.
Proof.
  unfold is_header. intros Hc. apply Z.eqb_neq. intros Hh. apply Z.eqb_eq in Hc.
  assert (Hn1 : nul ∉ str "connection") by (apply (bool_decide_unpack _); by vm_compute).
  assert (Hn2 : nul ∉ str "host") by (apply (bool_decide_unpack _); by vm_compute).
  apply strcasecmp_zero in Hc; [|apply c_str_nul|exact Hn1]. apply strcasecmp_zero in Hh; [|apply c_str_nul|exact Hn2].
  rewrite Hc in Hh. discriminate Hh.
Qed.

Lemma apply_headers_spec headers has req : let '(req', has') := apply_headers headers has req in
  has' = has || names_host headers ∧ m_close req' = m_close req && negb (keeps_alive headers) ∧
  m_headers req' = put_lines (m_headers req) (filter (λ h, is_header (str "connection") h = false) headers) ∧
  m_path req' = m_path req ∧ m_query req' = m_query req ∧ m_fragment req' = m_fragment req ∧ m_method req' = m_method req.
Proof.
  revert has req. induction headers as [|[k v] headers IH]; intros has req; cbn [apply_headers].
  - by rewrite orb_false_r, andb_true_r.
  - unfold names_host, keeps_alive in *. cbn [existsb fst snd].
    rewrite filter_cons. change (strcasecmp (c_str k) (str "connection") =? 0) with (is_header (str "connection") (k, v)).
    change (strcasecmp (c_str k) (str "host") =? 0) with (is_header (str "host") (k, v)).
    assert (Hb : is_header (str "connection") (k, v) = true ∨ is_header (str "connection") (k, v) = false)
      by (by destruct (is_header (str "connection") (k, v)); [left|right]).
    destruct Hb as [Hc|Hc]; rewrite !Hc.
    + rewrite (not_both (k, v) Hc). cbn [andb orb].
      rewrite decide_False by done.
      specialize (IH has (if strcasecmp (c_str v) (str "keep-alive") =? 0 then setClose false req else req)).
      destruct (apply_headers _ _ _) as [req' has']. destruct IH as (-> & -> & -> & -> & -> & -> & ->).
      destruct (strcasecmp (c_str v) (str "keep-alive") =? 0); cbn; by rewrite ?andb_false_r.
    + cbn [andb orb]. rewrite decide_True by done. cbn [put_lines foldl fst snd].
      specialize (IH (if negb has && is_header (str "host") (k, v) then negb (bool_decide (v = [])) else has) (setHeader k v req)).
      destruct (apply_headers _ _ _) as [req' has']. destruct IH as (-> & -> & -> & -> & -> & -> & ->).
      split_and!; try done. by destruct has, (is_header (str "host") (k, v)), (bool_decide (v = [])).
Qed.

(** The request for a URI. *)
Lemma uri_request_spec method uri headers body : let req := uri_request method uri headers body in
  m_method req = method ∧ m_path req = getPath uri ∧ m_query req = uri_query uri ∧ m_fragment req = uri_fragment uri ∧
  m_body req = body ∧ m_close req = negb (keeps_alive headers) ∧
  m_headers req = (let lines := put_lines [] (filter (λ h, is_header (str "connection") h = false) headers) in
    if names_host headers then lines else map_put true (str "Host") (uri_host uri) lines).
Proof.
  unfold uri_request, with_headers.
  match goal with |- context [apply_headers headers false ?r] => pose proof (apply_headers_spec headers false r) as Hs end.
  destruct (apply_headers _ _ _) as [req has]. destruct Hs as (-> & Hc & Hh & Hp & Hq & Hf & Hm). cbn [orb].
  destruct (names_host headers); cbn; split_and!; try done. by rewrite Hh.
Qed.

(** ** The exchange *)

Lemma dump_some req : (0 < length (dump req))%nat.
Proof. unfold dump. rewrite !length_app. change (length (str " HTTP/")) with 6%nat. lia. Qed.

Section client.
Context {A : Type} `{Dialer A}.
Context (cast : text → option Z) (memory : Z) (buff_size : nat) (garbage : Z).
Context (Hcast : ∀ n, Z.of_nat n < 2 ^ 64 → cast (to_string n) = Some (Z.of_nat n)).

Abbreviation exch := (exchange cast memory buff_size garbage).

(** The connection takes no byte. *)
Lemma exchange_refused req s : sock_isConnected s = true →
  match window s with [] => True | w :: _ => w = 0 end →
  ∃ s', exch req s = Ok (failed (match window s with [] => SEND_SOCKET_ERROR | _ => SEND_CLOSE_BY_PEER end), s').
Proof.
  intros Hc Hw. pose proof (dump_some req) as Hpos.
  assert (Es : ∃ s', sendRequest req s = Ok (match window s with [] => -1 | _ => 0 end, s')).
  { unfold sendRequest, writeFixSize. set (w := dump req) in *. cbn [writeFixSize_loop].
    rewrite decide_False by (intros E; rewrite E in Hpos; cbn in Hpos; lia).
    unfold SocketStream_write, sock_send. rewrite !bind_assoc. run gets_run. unfold id. rewrite Hc. cbn [negb].
    rewrite !bind_assoc. run gets_run. unfold id. rewrite Hc. cbn [negb].
    destruct (window s) as [|x ws]; [by eexists|]. subst x. rewrite Z.min_l by lia. by eexists. }
  destruct Es as (s' & E). unfold exchange. rewrite (bind_run _ _ _ _ _ E). destruct (window s); by eexists.
Qed.

Lemma exchange_sent req s : sock_isConnected s = true → accepts (length (dump req)) (window s) →
  Z.of_nat (length (dump req)) < 2 ^ 31 →
  ∃ s1, gave (dump req) s s1 ∧ exch req s =
    (rsp ← recvResponse cast memory buff_size (new_HttpResponseParser garbage);
     match rsp with None => mret (failed TIMEOUT) | Some rsp => mret (mkHttpResult Error_OK (Some rsp)) end) s1.
Proof.
  intros Hc Hw Hlen. pose proof (dump_some req) as Hpos. destruct (writeFixSize_all (dump req) s Hc Hw) as (s1 & E & G).
  exists s1. split; [done|]. unfold exchange, sendRequest. rewrite (bind_run _ _ _ _ _ E), long_to_int_id by lia.
  destruct (Z.eqb_spec (Z.of_nat (length (dump req))) 0); [lia|]. by destruct (Z.ltb_spec (Z.of_nat (length (dump req))) 0); [lia|].
Qed.

(** The connection ends before a response. *)
Lemma exchange_timeout req s : sock_isConnected s = true → accepts (length (dump req)) (window s) →
  Z.of_nat (length (dump req)) < 2 ^ 31 → incoming s = [] → at_end s <= 0 → ∃ s', exch req s = Ok (failed TIMEOUT, s').
Proof.
  intros Hc Hw Hlen Hi He. destruct (exchange_sent req s Hc Hw Hlen) as (s1 & [G1 G2 G3 G4] & ->).
  assert (Er : ∃ s', recvResponse cast memory buff_size (new_HttpResponseParser garbage) s1 = Ok (None, s')).
  { unfold recvResponse. run gets_run. unfold id. cbn [recv_response_head].
    unfold SocketStream_read, sock_recv. rewrite !bind_assoc. run gets_run. unfold id. rewrite G1. cbn [negb].
    rewrite !bind_assoc. run gets_run. unfold id. rewrite G1, G3, Hi, G4. cbn [negb].
    run ret_run. cbn [fst snd]. destruct (Z.leb_spec (at_end s) 0); [|lia]. by eexists. }
  destruct Er as (s' & E). rewrite (bind_run _ _ _ _ _ E). by eexists.
Qed.

(** A response arrives. *)
Lemma exchange_answered req s d piece rest extra : sock_isConnected s = true → accepts (length (dump req)) (window s) →
  Z.of_nat (length (dump req)) < 2 ^ 31 → alive s → incoming s = piece :: rest → bytes s = rsp_dump d ++ extra →
  rsp_transferable memory d → (length (response_head d) <= length piece)%nat → (length (response_head d) <= buff_size)%nat →
  ∃ d' s', exch req s = Ok (mkHttpResult Error_OK (Some d'), s') ∧ rsp_received d d' ∧ sent s' = sent s ++ dump req.
Proof.
  intros Hc Hw Hlen [_ Hp] Hi Hb Hd Hpiece Hbuf. destruct (exchange_sent req s Hc Hw Hlen) as (s1 & [G1 G2 G3 G4] & ->).
  assert (Hb1 : bytes s1 = rsp_dump d ++ extra) by (unfold bytes; by rewrite G3).
  destruct (recvResponse_spec cast memory buff_size Hcast garbage d s1 piece rest extra Hd) as (d' & s' & E & Hrec & Ht);
    [split; [done|by rewrite G3]|by rewrite G3|done|done|done|].
  exists d', s'. rewrite (bind_run _ _ _ _ _ E). split_and!; [done|done|]. by rewrite (took_sent _ _ _ Ht).
Qed.

End client.

(** ** Witnesses *)

(** A peer that answers [sample_answer]. *)
Definition answering : Socket := mkSocket true (big_pieces (rsp_dump sample_answer)) 0 [100; 100] [].

Definition sample_dialer : Dialer (text * Z) := {|
  LookupAnyIPAddress h := if decide (h = str "localhost") then Some (h, 0) else None;
  addr_setPort p a := (a.1, p);
  dial ssl a := if decide (a.2 = 8080) then Dialed_to answering else NotConnected
|}.

Definition sample_uri : Uri := mkUri (str "http") [] (str "localhost") (str "/hello") [] [] 8080.

Lemma sample_answer_transferable : rsp_transferable 1000 sample_answer.
Proof. split; [split|..]; [by right|done|by vm_compute|done|by vm_compute|done|done|by apply sample_sorted|done|done|done]. Qed.

