(* ===== verification/HttpPool.v ===== *)
(** * HttpPool: the pool of connections ([http/http_connection.cc], [HttpConnectionPool])

    [getConnection] takes an idle connection under the lock, then deletes the
    ones it rejected and, when it found none, opens a new one; the deleter of
    the pointer it returns, [ReleasePtr], gives the connection back.  Threads
    run these parts in any order. *)

From S2P Require Import Prelude.
From S2P Require Export HttpClient.

(** ** Connections *)

(** [HttpConnection]; the socket is never null here. *)
Record HttpConnection := mkConnection { conn_socket : Socket; m_createTime : Z; m_request : Z }.

(** A new connection: [m_createTime] and [m_request] keep their initial zeros. *)
Definition new_HttpConnection (sock : Socket) : HttpConnection := mkConnection sock 0 0.

Definition conn_isConnected (x : HttpConnection) : bool := sock_isConnected (conn_socket x).

(** The pool, [m_conns] in the order of the list, and the connections that
    exist, by their address. *)
Record HttpConnectionPool := mkPool {
  pool_host : text;
  pool_vhost : text;
  pool_port : Z;
  pool_isHttps : bool;
  m_maxSize : Z;
  m_maxAliveTime : Z;
  m_maxRequest : Z;
  m_conns : list positive;
  m_total : Z;
  conn_heap : gmap positive HttpConnection
}.

Implicit Types p : HttpConnectionPool.

Abbreviation MPool A := (M HttpConnectionPool A).

Definition pool_set (conns : list positive) (total : Z) (heap : gmap positive HttpConnection) p : HttpConnectionPool :=
  mkPool (pool_host p) (pool_vhost p) (pool_port p) (pool_isHttps p) (m_maxSize p) (m_maxAliveTime p) (m_maxRequest p)
    conns total heap.

(** The constructor. *)
Definition new_HttpConnectionPool (host vhost : text) (port : Z) (is_https : bool) (max_size max_alive_time max_request : Z) :
    HttpConnectionPool :=
  mkPool host vhost (if negb (port =? 0) then port else if is_https then 443 else 80) is_https
    max_size max_alive_time max_request [] 0 ∅.

(** [HttpConnectionPool::Create]: a URI that does not parse is logged, then dereferenced. *)
Definition pool_Create (uri vhost : text) (max_size max_alive_time max_request : Z) : result HttpConnectionPool :=
  match Create uri with
  | Ok (Some turi) =>
      Ok (new_HttpConnectionPool (uri_host turi) vhost (getPort turi) (bool_decide (uri_scheme turi = str "https"))
        max_size max_alive_time max_request)
  | Ok None => Fail BadPointer
  | Fail f => Fail f
  end.

Definition deref_conn (c : positive) : MPool HttpConnection :=
  p ← gets id; match conn_heap p !! c with Some x => mret x | None => fail BadPointer end.

(** ** [getConnection] *)

(** [m_createTime + m_maxAliveTime], a [uint64_t]. *)
Definition expires (p : HttpConnectionPool) (x : HttpConnection) : Z := (m_createTime x + m_maxAliveTime p) mod 2 ^ 64.

(** The loop under the lock: the rejected connections, and the one that was taken. *)
Fixpoint take_conn (now_ms : Z) (conns : list positive) (invalid_conns : list positive) : MPool (list positive * option positive) :=
  p ← gets id;
  match conns with
  | [] => modify (λ p, pool_set [] (m_total p) (conn_heap p) p) ;; mret (invalid_conns, None)
  | c :: conns' =>
      conn ← deref_conn c;
      if negb (conn_isConnected conn) then take_conn now_ms conns' (invalid_conns ++ [c])
      else if expires p conn >? now_ms then take_conn now_ms conns' (invalid_conns ++ [c])
      else modify (λ p, pool_set conns' (m_total p) (conn_heap p) p) ;; mret (invalid_conns, Some c)
  end.

Definition getConnection_search (now_ms : Z) : MPool (list positive * option positive) :=
  p ← gets id; take_conn now_ms (m_conns p) [].

Definition delete_conn (c : positive) : MPool unit :=
  deref_conn c ;; modify (λ p, pool_set (m_conns p) (m_total p) (delete c (conn_heap p)) p).

(** The rejected ones are deleted and counted off. *)
Definition getConnection_settle (invalid_conns : list positive) : MPool unit :=
  for_each invalid_conns delete_conn ;;
  modify (λ p, pool_set (m_conns p) (m_total p - Z.of_nat (length invalid_conns)) (conn_heap p) p).

Section dialing.
Context {A : Type} `{Dialer A}.

(** Whether a new connection can be opened. *)
Definition pool_dials p : option Socket :=
  match LookupAnyIPAddress (pool_host p) with
  | None => None
  | Some addr => match dial (pool_isHttps p) (addr_setPort (pool_port p) addr) with Dialed_to s => Some s | _ => None end
  end.

(** A new connection at the address [c]. *)
Definition getConnection_open (c : positive) : MPool (option positive) :=
  p ← gets id;
  match pool_dials p with
  | Some sock =>
      modify (λ p, pool_set (m_conns p) (m_total p + 1) (<[c := new_HttpConnection sock]> (conn_heap p)) p) ;; mret (Some c)
  | None => mret None
  end.

(** The whole of [getConnection], when no other thread comes between. *)
Definition getConnection (now_ms : Z) (c : positive) : MPool (option positive) :=
  r ← getConnection_search now_ms;
  getConnection_settle (r : list positive * option positive).1 ;;
  match r.2 with
  | Some ptr => mret (Some ptr)
  | None => getConnection_open c
  end.
(** ** [ReleasePtr] *)

Definition ReleasePtr (now_ms : Z) (c : positive) : MPool unit :=
  conn ← deref_conn c;
  let conn := mkConnection (conn_socket conn) (m_createTime conn) (m_request conn + 1) in
  modify (λ p, pool_set (m_conns p) (m_total p) (<[c := conn]> (conn_heap p)) p) ;;
  p ← gets id;
  if negb (conn_isConnected conn) || (expires p conn >=? now_ms) || (m_request conn >=? m_maxRequest p) then
    delete_conn c ;; modify (λ p, pool_set (m_conns p) (m_total p - 1) (conn_heap p) p)
  else modify (λ p, pool_set (m_conns p ++ [c]) (m_total p) (conn_heap p) p).

(** ** Requests *)

(** The path of the variants that take a [Uri]: with the query and the fragment in it. *)
Definition uri_target (uri : Uri) : text :=
  getPath uri ++ (if decide (uri_query uri = []) then [] else str "?") ++ uri_query uri ++
  (if decide (uri_fragment uri = []) then [] else str "#") ++ uri_fragment uri.

(** The request of [doRequest(method, url, ...)]. *)
Definition pool_request p (method : HttpMethod) (url : text) (headers : list (text * text)) (body : text) : HttpRequest :=
  let req := setClose false (setMethod method (setPath url (new_HttpRequest 17 true))) in
  with_headers headers (if decide (pool_vhost p = []) then pool_host p else pool_vhost p) body req.

Context (cast : text → option Z) (memory : Z) (buff_size : nat) (garbage : Z).

(** [doRequest(req, timeout_ms)]: [now_ms] and [later_ms] are the times of
    taking the connection and of giving it back.  An exception is passed on. *)
Definition pool_doRequest (now_ms later_ms : Z) (c : positive) (req : HttpRequest) : MPool HttpResult :=
  got ← getConnection now_ms c;
  match got with
  | None => mret (failed POOL_GET_CONNECTION)
  | Some ptr =>
      conn ← deref_conn ptr;
      match exchange cast memory buff_size garbage req (conn_socket conn) with
      | Ok (r, sock) =>
          modify (λ p, pool_set (m_conns p) (m_total p) (<[ptr := mkConnection sock (m_createTime conn) (m_request conn)]> (conn_heap p)) p) ;;
          ReleasePtr later_ms ptr ;;
          mret r
      | Fail f => fail f
      end
  end.
End dialing.
