(* ===== verification/HttpPoolProps.v ===== *)
(** * HttpPoolProps: the accounts of the pool

    Threads in [getConnection] and in the deleter, and the users of the
    connections, in any interleaving of the critical sections: no connection
    is lost, used twice or deleted in use, and [m_total] counts them. *)

From S2P Require Import Prelude.
From S2P Require Export HttpPool HttpClientProps.

(** ** The threads *)

(** A thread inside [getConnection], after the search. *)
Inductive pool_call :=
  | Settling (invalid_conns : list positive) (ptr : option positive)
  | Opening.

Record pool_world := mkPoolWorld {
  w_pool : HttpConnectionPool;
  w_calls : list pool_call;
  w_held : list positive
}.

Definition got_list (o : option positive) : list positive := match o with Some c => [c] | None => [] end.

Definition call_conns (k : pool_call) : list positive :=
  match k with Settling invalid ptr => invalid ++ got_list ptr | Opening => [] end.

(** Where connections are: idle, held by a user, or with a thread. *)
Definition places (w : pool_world) : list positive := m_conns (w_pool w) ++ w_held w ++ (w_calls w ≫= call_conns).

Section steps.
Context {A : Type} `{Dialer A}.

(** Anything may happen to a socket, at any time; a new address is not in use. *)
Inductive pool_step : pool_world → pool_world → Prop :=
  | step_search w now_ms invalid ptr p' :
      getConnection_search now_ms (w_pool w) = Ok ((invalid, ptr), p') →
      pool_step w (mkPoolWorld p' (Settling invalid ptr :: w_calls w) (w_held w))
  | step_settle w l1 l2 invalid ptr p' :
      w_calls w = l1 ++ Settling invalid ptr :: l2 → getConnection_settle invalid (w_pool w) = Ok (tt, p') →
      pool_step w (mkPoolWorld p' (l1 ++ match ptr with Some _ => [] | None => [Opening] end ++ l2) (got_list ptr ++ w_held w))
  | step_open w l1 l2 c r p' :
      w_calls w = l1 ++ Opening :: l2 → conn_heap (w_pool w) !! c = None → getConnection_open c (w_pool w) = Ok (r, p') →
      pool_step w (mkPoolWorld p' (l1 ++ l2) (got_list r ++ w_held w))
  | step_socket w c x sock :
      conn_heap (w_pool w) !! c = Some x →
      pool_step w (mkPoolWorld (pool_set (m_conns (w_pool w)) (m_total (w_pool w))
        (<[c := mkConnection sock (m_createTime x) (m_request x)]> (conn_heap (w_pool w))) (w_pool w)) (w_calls w) (w_held w))
  | step_release w l1 l2 c now_ms p' :
      w_held w = l1 ++ c :: l2 → ReleasePtr now_ms c (w_pool w) = Ok (tt, p') →
      pool_step w (mkPoolWorld p' (w_calls w) (l1 ++ l2)).

(** A pool that was just made. *)
Definition pool_start (w : pool_world) : Prop :=
  m_conns (w_pool w) = [] ∧ m_total (w_pool w) = 0 ∧ conn_heap (w_pool w) = ∅ ∧ w_calls w = [] ∧ w_held w = [].

Definition pool_reachable (w0 w : pool_world) : Prop := pool_start w0 ∧ rtc pool_step w0 w.
End steps.

(** ** The invariant *)

(** The connections of [L] are those that exist, each once, and [total] counts them. *)
Record accounted (heap : gmap positive HttpConnection) (total : Z) (L : list positive) : Prop := {
  accounted_once : NoDup L;
  accounted_exist c : c ∈ L ↔ is_Some (heap !! c);
  accounted_total : total = Z.of_nat (length L)
}.

(** The idle ones have served fewer requests than allowed. *)
Definition idle_ok (p : HttpConnectionPool) : Prop :=
  Forall (λ c, ∀ x, conn_heap p !! c = Some x → m_request x < m_maxRequest p) (m_conns p).

(** Nothing sets [m_createTime]. *)
Definition never_dated (heap : gmap positive HttpConnection) : Prop := ∀ c x, heap !! c = Some x → m_createTime x = 0.

Record pool_inv (w : pool_world) : Prop := {
  pool_accounted : accounted (conn_heap (w_pool w)) (m_total (w_pool w)) (places w);
  pool_idle : idle_ok (w_pool w);
  pool_dates : never_dated (conn_heap (w_pool w))
}.

Lemma accounted_perm heap total L L' : L ≡ₚ L' → accounted heap total L → accounted heap total L'.
Proof. intros E [H1 H2 H3]. split; [by rewrite <- E|intros c; by rewrite <- E|by rewrite <- E]. Qed.

Lemma accounted_same heap heap' total L : (∀ c, is_Some (heap' !! c) ↔ is_Some (heap !! c)) → accounted heap total L →
  accounted heap' total L.
Proof. intros Hd [H1 H2 H3]. split; [done|intros c; by rewrite Hd|done]. Qed.

Lemma accounted_new heap total L c x : heap !! c = None → accounted heap total L →
  accounted (<[c := x]> heap) (total + 1) (c :: L).
Proof.
  intros Hc [H1 H2 H3]. split.
  - constructor; [|done]. rewrite H2, Hc. by intros [? ?].
  - intros d. rewrite elem_of_cons, H2. destruct (decide (d = c)) as [->|Hne].
    + rewrite lookup_insert_eq. split; [by eexists|by left].
    + rewrite lookup_insert_ne by done. split; [by intros [?|?]|by right].
  - cbn [length]. lia.
Qed.

Lemma accounted_delete heap total L c : accounted heap total (c :: L) → accounted (delete c heap) (total - 1) L.
Proof.
  intros [H1 H2 H3]. apply NoDup_cons in H1 as [Hc Hnd]. split; [done| |cbn [length] in H3; lia].
  intros d. destruct (decide (d = c)) as [->|Hne].
  - rewrite lookup_delete_eq. split; [done|by intros [? ?]].
  - rewrite lookup_delete_ne by done. rewrite <- H2, elem_of_cons. split; [by right|by intros [?|?]].
Qed.

(** ** The operations *)

Lemma deref_conn_run c x p : conn_heap p !! c = Some x → deref_conn c p = Ok (x, p).
Proof. intros E. unfold deref_conn. run gets_run. unfold id. by rewrite E. Qed.

Lemma take_conn_spec now_ms conns acc p : (∀ c, c ∈ conns → is_Some (conn_heap p !! c)) →
  ∃ invalid ptr rest, take_conn now_ms conns acc p = Ok ((acc ++ invalid, ptr), pool_set rest (m_total p) (conn_heap p) p) ∧
    conns = invalid ++ got_list ptr ++ rest ∧
    Forall (λ c, ∀ x, conn_heap p !! c = Some x → conn_isConnected x = false ∨ now_ms < expires p x) invalid ∧
    (∀ c x, ptr = Some c → conn_heap p !! c = Some x → conn_isConnected x = true ∧ expires p x <= now_ms) ∧
    (ptr = None → rest = []).
Proof.
  revert acc. induction conns as [|c conns IH]; intros acc Hin; cbn [take_conn].
  - run gets_run. exists [], None, []. rewrite app_nil_r. by split_and!.
  - run gets_run. unfold id. destruct (Hin c) as [x Hx]; [by left|]. run (deref_conn_run c x p Hx).
    assert (Hskip : conn_isConnected x = false ∨ now_ms < expires p x →
      ∃ invalid ptr rest, take_conn now_ms conns (acc ++ [c]) p = Ok ((acc ++ invalid, ptr), pool_set rest (m_total p) (conn_heap p) p) ∧
      c :: conns = invalid ++ got_list ptr ++ rest ∧
      Forall (λ c, ∀ x, conn_heap p !! c = Some x → conn_isConnected x = false ∨ now_ms < expires p x) invalid ∧
      (∀ c x, ptr = Some c → conn_heap p !! c = Some x → conn_isConnected x = true ∧ expires p x <= now_ms) ∧ (ptr = None → rest = [])).
    { intros Hbad. destruct (IH (acc ++ [c])) as (inv & ptr & rest & E & -> & Hinv & Hptr & Hrest); [intros d Hd; apply Hin; by right|].
      exists (c :: inv), ptr, rest. rewrite <- app_assoc in E. split_and!; [done|done| |done|done].
      constructor; [|done]. intros y Hy. rewrite Hx in Hy. by injection Hy as <-. }
    destruct (conn_isConnected x) eqn:Hc; cbn [negb]; [|apply Hskip; by left].
    destruct (Z.gtb_spec (expires p x) now_ms); [apply Hskip; by right|].
    exists [], (Some c), conns. rewrite app_nil_r. split_and!; try done.
    intros d y [= <-] Hy. rewrite Hx in Hy. by injection Hy as <-.
Qed.

Lemma delete_conns_spec l p total L : accounted (conn_heap p) total (l ++ L) →
  ∃ heap, for_each l delete_conn p = Ok (tt, pool_set (m_conns p) (m_total p) heap p) ∧
    accounted heap (total - Z.of_nat (length l)) L ∧ (∀ c x, heap !! c = Some x → conn_heap p !! c = Some x).
Proof.
  revert p total. induction l as [|c l IH]; intros p total Hacc; cbn [for_each].
  - exists (conn_heap p). split_and!; [by destruct p| |done]. by rewrite Z.sub_0_r.
  - destruct (proj1 (accounted_exist _ _ _ Hacc c)) as [x Hx]; [by left|].
    set (p1 := pool_set (m_conns p) (m_total p) (delete c (conn_heap p)) p).
    assert (E1 : delete_conn c p = Ok (tt, p1)) by (unfold delete_conn; by run (deref_conn_run c x p Hx)).
    rewrite (bind_run _ _ _ _ _ E1). destruct (IH p1 (total - 1)) as (heap & E2 & Hacc2 & Hsub); [by apply accounted_delete|].
    exists heap. rewrite E2. split_and!; [done| |].
    + replace (total - Z.of_nat (length (c :: l))) with (total - 1 - Z.of_nat (length l)) by (cbn [length]; lia). done.
    + intros d y Hy. apply Hsub in Hy. cbn [conn_heap p1 pool_set] in Hy. by apply lookup_delete_Some in Hy as [_ ?].
Qed.

Lemma settle_spec invalid p L : accounted (conn_heap p) (m_total p) (invalid ++ L) →
  ∃ heap, getConnection_settle invalid p =
      Ok (tt, pool_set (m_conns p) (m_total p - Z.of_nat (length invalid)) heap p) ∧
    accounted heap (m_total p - Z.of_nat (length invalid)) L ∧ (∀ c x, heap !! c = Some x → conn_heap p !! c = Some x).
Proof.
  intros Hacc. destruct (delete_conns_spec invalid p _ L Hacc) as (heap & E & Hacc2 & Hsub).
  exists heap. split_and!; [|done|done]. unfold getConnection_settle. by rewrite (bind_run _ _ _ _ _ E).
Qed.

(** Giving a connection back: it is deleted, or it goes to the end of the idle ones. *)
Lemma release_spec now_ms c x p : conn_heap p !! c = Some x →
  let x' := mkConnection (conn_socket x) (m_createTime x) (m_request x + 1) in
  let heap := <[c := x']> (conn_heap p) in
  ReleasePtr now_ms c p = Ok (tt,
    if negb (conn_isConnected x) || (expires p x >=? now_ms) || (m_request x + 1 >=? m_maxRequest p)
    then pool_set (m_conns p) (m_total p - 1) (delete c heap) p
    else pool_set (m_conns p ++ [c]) (m_total p) heap p).
Proof.
  intros Hx x' heap. unfold ReleasePtr. run (deref_conn_run c x p Hx). fold x'.
  set (p1 := pool_set (m_conns p) (m_total p) heap p). rewrite (bind_run _ _ p tt p1) by done. run gets_run. unfold id.
  change (conn_isConnected x') with (conn_isConnected x). change (expires p1 x') with (expires p x).
  change (m_request x') with (m_request x + 1). change (m_maxRequest p1) with (m_maxRequest p).
  destruct (negb (conn_isConnected x) || (expires p x >=? now_ms) || (m_request x + 1 >=? m_maxRequest p)); [|done].
  assert (Hx' : conn_heap p1 !! c = Some x') by apply lookup_insert_eq.
  assert (E1 : delete_conn c p1 = Ok (tt, pool_set (m_conns p1) (m_total p1) (delete c (conn_heap p1)) p1))
    by (unfold delete_conn; by run (deref_conn_run c x' p1 Hx')).
  by rewrite (bind_run _ _ _ _ _ E1).
Qed.

Lemma idle_sub p conns heap total : idle_ok p → (∀ c, c ∈ conns → c ∈ m_conns p) →
  (∀ c x, c ∈ conns → heap !! c = Some x → ∃ y, conn_heap p !! c = Some y ∧ m_request x = m_request y) →
  idle_ok (pool_set conns total heap p).
Proof.
  unfold idle_ok. rewrite !Forall_forall. intros Hp Hin Hh c Hc x Hx. cbn [pool_set conn_heap m_conns m_maxRequest] in *.
  destruct (Hh c x Hc Hx) as (y & Hy & ->). by apply (Hp c (Hin c Hc)).
Qed.

Lemma search_keeps w now_ms invalid ptr p' : pool_inv w →
  getConnection_search now_ms (w_pool w) = Ok ((invalid, ptr), p') →
  pool_inv (mkPoolWorld p' (Settling invalid ptr :: w_calls w) (w_held w)).
Proof.
  intros [Hacc Hidle Hdates] E. unfold getConnection_search in E. unfold mbind, M_bind, gets in E. cbn in E.
  destruct (take_conn_spec now_ms (m_conns (w_pool w)) [] (w_pool w)) as (inv & got & rest & E' & Hl & _ & _ & _).
  { intros c Hc. apply (accounted_exist _ _ _ Hacc). unfold places. rewrite elem_of_app. by left. }
  rewrite E' in E. injection E as <- <- <-. split; [| |done].
  - cbn [w_pool pool_set conn_heap m_total]. eapply accounted_perm; [|exact Hacc]. unfold places.
    cbn [w_pool pool_set m_conns w_held w_calls]. rewrite bind_cons, Hl. cbn [call_conns app]. solve_Permutation.
  - apply (idle_sub _ _ _ _ Hidle); [intros c Hc; rewrite Hl, !elem_of_app; auto|]. intros c x _ Hx. by exists x.
Qed.

Lemma settle_keeps w l1 l2 invalid ptr : pool_inv w → w_calls w = l1 ++ Settling invalid ptr :: l2 →
  ∃ p', getConnection_settle invalid (w_pool w) = Ok (tt, p') ∧
    pool_inv (mkPoolWorld p' (l1 ++ match ptr with Some _ => [] | None => [Opening] end ++ l2) (got_list ptr ++ w_held w)).
Proof.
  intros [Hacc Hidle Hdates] Hcalls.
  set (L := m_conns (w_pool w) ++ (got_list ptr ++ w_held w) ++ ((l1 ++ match ptr with Some _ => [] | None => [Opening] end ++ l2) ≫= call_conns)).
  assert (Hperm : places w ≡ₚ invalid ++ L).
  { unfold places, L. rewrite Hcalls, !bind_app, bind_cons. cbn [call_conns]. destruct ptr; cbn [mbind list_bind call_conns app]; solve_Permutation. }
  destruct (settle_spec invalid (w_pool w) L) as (heap & E & Hacc2 & Hsub); [by eapply accounted_perm|].
  eexists. split; [exact E|]. split; [exact Hacc2| |].
  - apply (idle_sub _ _ _ _ Hidle); [done|]. intros c x _ Hx. exists x. split; [by apply Hsub|done].
  - intros c x Hx. apply (Hdates c). by apply Hsub.
Qed.

Lemma release_keeps w l1 l2 c now_ms : pool_inv w → w_held w = l1 ++ c :: l2 →
  ∃ p', ReleasePtr now_ms c (w_pool w) = Ok (tt, p') ∧ pool_inv (mkPoolWorld p' (w_calls w) (l1 ++ l2)).
Proof.
  intros [Hacc Hidle Hdates] Hheld. set (p := w_pool w) in *.
  assert (Hperm : places w ≡ₚ c :: m_conns p ++ (l1 ++ l2) ++ (w_calls w ≫= call_conns)).
  { unfold places. fold p. rewrite Hheld. solve_Permutation. }
  pose proof (accounted_perm _ _ _ _ Hperm Hacc) as Hacc'.
  destruct (proj1 (accounted_exist _ _ _ Hacc' c)) as [x Hx]; [by left|].
  eexists. split; [exact (release_spec now_ms c x p Hx)|].
  set (x' := mkConnection (conn_socket x) (m_createTime x) (m_request x + 1)). set (heap := <[c := x']> (conn_heap p)).
  assert (Hdom : ∀ d, is_Some (heap !! d) ↔ is_Some (conn_heap p !! d)).
  { intros d. unfold heap. rewrite lookup_insert_is_Some'. split; [intros [<- | ?]; [by eexists|done]|by right]. }
  assert (Hdates' : never_dated heap).
  { intros d y. unfold heap. rewrite lookup_insert_Some. intros [[<- <-]|[_ Hy]]; [exact (Hdates c x Hx)|by apply (Hdates d)]. }
  assert (Hnew : c ∉ m_conns p).
  { pose proof (accounted_once _ _ _ Hacc') as Hnd. apply NoDup_cons in Hnd as [Hnd _]. rewrite elem_of_app in Hnd. tauto. }
  assert (Hold : ∀ d y, d ∈ m_conns p → heap !! d = Some y → conn_heap p !! d = Some y).
  { intros d y Hd. unfold heap. rewrite lookup_insert_ne; [done|]. intros <-. done. }
  destruct (negb (conn_isConnected x) || (expires p x >=? now_ms) || (m_request x + 1 >=? m_maxRequest p)) eqn:Hb.
  - split.
    + apply (accounted_delete _ _ _ c). by apply (accounted_same (conn_heap p)).
    + apply (idle_sub _ _ _ _ Hidle); [done|]. intros d y Hd Hy. apply lookup_delete_Some in Hy as [_ Hy].
      exists y. split; [by apply Hold|done].
    + intros d y Hy. cbn [w_pool conn_heap pool_set] in Hy. apply lookup_delete_Some in Hy as [_ Hy]. by apply (Hdates' d).
  - apply orb_false_iff in Hb as [_ Hreq]. split; [| |exact Hdates'].
    + apply (accounted_same (conn_heap p)); [done|]. eapply accounted_perm; [|exact Hacc]. unfold places. fold p.
      cbn [w_pool m_conns pool_set w_held w_calls]. rewrite Hheld. solve_Permutation.
    + unfold idle_ok. cbn [w_pool pool_set conn_heap m_conns m_maxRequest]. rewrite Forall_app. split.
      * pose proof Hidle as Hi. unfold idle_ok in Hi. rewrite Forall_forall in *. intros d Hd y Hy. by apply (Hi d Hd y), Hold.
      * apply Forall_singleton. intros y. unfold heap. rewrite lookup_insert_eq. intros [= <-]. cbn.
        destruct (Z.geb_spec (m_request x + 1) (m_maxRequest p)); [done|lia].
Qed.

Section run.
Context {A : Type} `{Dialer A}.

Lemma open_keeps w l1 l2 c r p' : pool_inv w → w_calls w = l1 ++ Opening :: l2 → conn_heap (w_pool w) !! c = None →
  getConnection_open c (w_pool w) = Ok (r, p') → pool_inv (mkPoolWorld p' (l1 ++ l2) (got_list r ++ w_held w)).
Proof.
  intros [Hacc Hidle Hdates] Hcalls Hc E. set (p := w_pool w) in *.
  assert (Hperm : places w ≡ₚ m_conns p ++ w_held w ++ ((l1 ++ l2) ≫= call_conns)).
  { unfold places. fold p. by rewrite Hcalls, !bind_app, bind_cons. }
  apply (accounted_perm _ _ _ _ Hperm) in Hacc.
  unfold getConnection_open, mbind, M_bind, gets, id in E. destruct (pool_dials p) as [sock|].
  - injection E as <- <-. split.
    + eapply accounted_perm; [|exact (accounted_new _ _ _ c (new_HttpConnection sock) Hc Hacc)]. unfold places.
      cbn [w_pool m_conns pool_set w_held w_calls got_list]. solve_Permutation.
    + apply (idle_sub _ _ _ _ Hidle); [done|]. intros d x Hd. rewrite lookup_insert_ne; [intros Hx; by exists x|].
      intros <-. assert (Hs : is_Some (conn_heap p !! c)) by (apply (accounted_exist _ _ _ Hacc); rewrite elem_of_app; by left).
      rewrite Hc in Hs. by destruct Hs.
    + intros d x. cbn [w_pool conn_heap pool_set]. rewrite lookup_insert_Some. intros [[<- <-]|[_ Hx]]; [done|by apply (Hdates d)].
  - injection E as <- <-. by split.
Qed.

Lemma socket_keeps w c x sock : pool_inv w → conn_heap (w_pool w) !! c = Some x →
  pool_inv (mkPoolWorld (pool_set (m_conns (w_pool w)) (m_total (w_pool w))
    (<[c := mkConnection sock (m_createTime x) (m_request x)]> (conn_heap (w_pool w))) (w_pool w)) (w_calls w) (w_held w)).
Proof.
  intros [Hacc Hidle Hdates] Hx. split.
  - apply (accounted_same (conn_heap (w_pool w))); [|exact Hacc]. intros d. cbn [w_pool conn_heap pool_set].
    rewrite lookup_insert_is_Some'. split; [intros [<- | ?]; [by eexists|done]|by right].
  - apply (idle_sub _ _ _ _ Hidle); [done|]. intros d y _. rewrite lookup_insert_Some.
    intros [[<- <-]|[_ Hy]]; [by exists x|by exists y].
  - intros d y. cbn [w_pool conn_heap pool_set]. rewrite lookup_insert_Some.
    intros [[<- <-]|[_ Hy]]; [exact (Hdates c x Hx)|by apply (Hdates d)].
Qed.

Lemma pool_reachable_inv w0 w : pool_reachable w0 w → pool_inv w.
Proof.
  intros [Hstart Hrun]. assert (H0 : pool_inv w0).
  { destruct w0 as [p calls held], Hstart as (H1 & H2 & H3 & H4 & H5). cbn in *. subst calls held. split.
    - unfold places. cbn. rewrite H1, H2, H3. split; [constructor| |done].
      intros c. rewrite lookup_empty, elem_of_nil. split; [done|by intros [? ?]].
    - unfold idle_ok. cbn. by rewrite H1.
    - unfold never_dated. cbn. rewrite H3. intros c x. by rewrite lookup_empty. }
  clear Hstart. induction Hrun as [w|w1 w2 w3 Hstep _ IH]; [done|]. apply IH.
  destruct Hstep as [w now_ms invalid ptr p' E|w l1 l2 invalid ptr p' Hc E|w l1 l2 c r p' Hc Hn E|w c x sock Hx|w l1 l2 c now_ms p' Hh E].
  - by eapply search_keeps.
  - destruct (settle_keeps w l1 l2 invalid ptr H0 Hc) as (p'' & E' & Hinv). rewrite E in E'. by injection E' as <-.
  - by eapply open_keeps.
  - by apply socket_keeps.
  - destruct (release_keeps w l1 l2 c now_ms H0 Hh) as (p'' & E' & Hinv). rewrite E in E'. by injection E' as <-.
Qed.

(** (C20) The accounts of the pool.  Whatever the threads and the peers do and in
    whatever order, [m_total] is the number of the connections that exist;
    each of them is at one place only: idle in the list, held by one user, or
    with one thread that is about to delete it or hand it out.  So none is lost,
    given to two users or deleted in use, and no thread in [getConnection] or
    in the deleter touches one that was deleted.  The idle ones have served
    fewer requests than [m_maxRequest]. *)
Theorem pool_accounts w0 w (Hr : pool_reachable w0 w) :
  m_total (w_pool w) = Z.of_nat (length (places w)) ∧ NoDup (places w) ∧
  (∀ c, c ∈ places w ↔ is_Some (conn_heap (w_pool w) !! c)) ∧
  (∀ c x, c ∈ m_conns (w_pool w) → conn_heap (w_pool w) !! c = Some x → m_request x < m_maxRequest (w_pool w)) ∧
  (∀ now_ms, ∃ r p', getConnection_search now_ms (w_pool w) = Ok (r, p')) ∧
  (∀ invalid ptr, Settling invalid ptr ∈ w_calls w → ∃ p', getConnection_settle invalid (w_pool w) = Ok (tt, p')) ∧
  (∀ now_ms c, c ∈ w_held w → ∃ p', ReleasePtr now_ms c (w_pool w) = Ok (tt, p')).
Proof.
  pose proof (pool_reachable_inv w0 w Hr) as Hinv. pose proof Hinv as [[Hnd Hex Htot] Hidle _]. split_and!; try done.
  - intros c x Hc. unfold idle_ok in Hidle. rewrite Forall_forall in Hidle. by apply Hidle.
  - intros now_ms. destruct (take_conn_spec now_ms (m_conns (w_pool w)) [] (w_pool w)) as (inv & ptr & rest & E & _).
    { intros c Hc. apply Hex. unfold places. rewrite elem_of_app. by left. }
    unfold getConnection_search. run gets_run. unfold id. rewrite E. by eexists _, _.
  - intros invalid ptr (l1 & l2 & Hc)%list_elem_of_split. destruct (settle_keeps w l1 l2 invalid ptr Hinv Hc) as (p' & E & _).
    by exists p'.
  - intros now_ms c (l1 & l2 & Hh)%list_elem_of_split. destruct (release_keeps w l1 l2 c now_ms Hinv Hh) as (p' & E & _).
    by exists p'.
Qed.
End run.


(** ** Limits without effect *)

Section limits.
Context {A : Type} `{Dialer A}.

(** A connection that was not used yet. *)
Definition unused (sock : Socket) (heap : gmap positive HttpConnection) (c : positive) : Prop :=
  heap !! c = Some (new_HttpConnection sock).

Lemma expires_never p x : m_createTime x = 0 → 0 <= m_maxAliveTime p < 2 ^ 32 → expires p x = m_maxAliveTime p.
Proof. intros E Ha. unfold expires. rewrite E, Z.mod_small; lia. Qed.

(** The limits are fixed when the pool is made. *)
Definition same_limits (p p' : HttpConnectionPool) : Prop :=
  m_maxSize p' = m_maxSize p ∧ m_maxAliveTime p' = m_maxAliveTime p ∧ m_maxRequest p' = m_maxRequest p.

Lemma take_conn_limits now_ms conns acc p p' : same_limits p p' → wp (take_conn now_ms conns acc) (λ _, same_limits p) p'.
Proof.
  intros Hp. revert acc. induction conns as [|c conns IH]; intros acc; cbn [take_conn]; [by wp_run|].
  unfold deref_conn. wp_run; done || apply IH.
Qed.

Lemma delete_conn_limits c p p' : same_limits p p' → wp (delete_conn c) (λ _, same_limits p) p'.
Proof. intros Hp. unfold delete_conn, deref_conn. by wp_run. Qed.

Lemma pool_step_limits w w' : pool_step w w' → same_limits (w_pool w) (w_pool w').
Proof.
  destruct 1 as [w now_ms invalid ptr p' E|w l1 l2 invalid ptr p' Hc E|w l1 l2 c r p' Hc Hn E|w c x sock Hx|w l1 l2 c now_ms p' Hh E];
    cbn [w_pool]; try done.
  - by eapply (take_conn_limits now_ms (m_conns (w_pool w)) [] (w_pool w) (w_pool w)).
  - assert (Hwp : wp (getConnection_settle invalid) (λ _, same_limits (w_pool w)) (w_pool w)).
    { unfold getConnection_settle. apply wp_bind. apply (wp_for_each (same_limits (w_pool w))); [done| |].
      - intros c s _ Hs. by apply delete_conn_limits.
      - intros s Hs. by wp_run. }
    exact (Hwp _ _ E).
  - unfold getConnection_open, mbind, M_bind, gets, id in E. by destruct (pool_dials (w_pool w)); injection E as <- <-.
  - assert (Hwp : wp (ReleasePtr now_ms c) (λ _, same_limits (w_pool w)) (w_pool w)).
    { unfold ReleasePtr, delete_conn, deref_conn. by wp_run. }
    exact (Hwp _ _ E).
Qed.

Lemma pool_reachable_limits w0 w : pool_reachable w0 w → same_limits (w_pool w0) (w_pool w).
Proof.
  intros [_ Hrun]. induction Hrun as [w|w1 w2 w3 Hstep _ IH]; [done|].
  destruct (pool_step_limits _ _ Hstep) as (E1 & E2 & E3), IH as (F1 & F2 & F3). split_and!; congruence.
Qed.

Lemma open_one w sock : m_conns (w_pool w) = [] → w_calls w = [] → pool_dials (w_pool w) = Some sock →
  ∃ c, conn_heap (w_pool w) !! c = None ∧ rtc pool_step w
    (mkPoolWorld (pool_set [] (m_total (w_pool w) + 1) (<[c := new_HttpConnection sock]> (conn_heap (w_pool w))) (w_pool w))
       [] (c :: w_held w)).
Proof.
  destruct w as [p calls held]. cbn [w_pool w_calls w_held]. intros Hconns -> Hd.
  exists (fresh (dom (conn_heap p))). assert (Hc : conn_heap p !! fresh (dom (conn_heap p)) = None).
  { apply not_elem_of_dom, is_fresh. }
  split; [done|]. set (p1 := pool_set [] (m_total p) (conn_heap p) p).
  set (p2 := pool_set [] (m_total p - 0) (conn_heap p) p).
  eapply rtc_l; [apply (step_search (mkPoolWorld p [] held) 0 [] None p1)|].
  { unfold getConnection_search. run gets_run. unfold id. cbn [w_pool]. by rewrite Hconns. }
  eapply rtc_l; [by apply (step_settle (mkPoolWorld p1 [Settling [] None] held) [] [] [] None p2)|].
  eapply rtc_l; [|apply rtc_refl]. cbn [app got_list].
  replace (m_total p + 1) with (m_total p2 + 1) by (cbn [m_total p2 pool_set]; lia).
  eapply (step_open (mkPoolWorld p2 [Opening] held) [] [] (fresh (dom (conn_heap p))) (Some (fresh (dom (conn_heap p))))); [done|done|].
  unfold getConnection_open. run gets_run. unfold id. change (pool_dials (w_pool (mkPoolWorld p2 [Opening] held))) with (pool_dials p).
  by rewrite Hd.
Qed.

Lemma open_many sock n w : m_conns (w_pool w) = [] → w_calls w = [] → w_held w = [] → pool_dials (w_pool w) = Some sock →
  ∃ cs total heap, length cs = n ∧ rtc pool_step w (mkPoolWorld (pool_set [] total heap (w_pool w)) [] cs) ∧
    Forall (unused sock heap) cs ∧ NoDup cs.
Proof.
  intros Hconns Hcalls Hheld Hd. induction n as [|n (cs & total & heap & Hlen & Hrun & Hall & Hnd)].
  - exists [], (m_total (w_pool w)), (conn_heap (w_pool w)). split_and!; [done| |constructor|constructor].
    destruct w as [p calls held]. cbn in *. subst calls held. destruct p. cbn in *. subst. apply rtc_refl.
  - destruct (open_one (mkPoolWorld (pool_set [] total heap (w_pool w)) [] cs) sock) as (c & Hc & Hone); [done..|].
    cbn [w_pool conn_heap pool_set m_total w_held] in *. eexists (c :: cs), _, _. split_and!; [by f_equal/=|by etrans| |].
    + constructor; [apply lookup_insert_eq|]. eapply Forall_impl; [exact Hall|]. intros d Hdd. unfold unused.
      rewrite lookup_insert_ne; [done|]. intros ->. unfold unused in Hdd. congruence.
    + constructor; [|done]. intros Hin. rewrite Forall_forall in Hall. specialize (Hall _ Hin). unfold unused in Hall. congruence.
Qed.

Lemma release_many sock now_ms p cs : sock_isConnected sock = true → Forall (unused sock (conn_heap p)) cs → NoDup cs →
  m_maxAliveTime p mod 2 ^ 64 < now_ms → 1 < m_maxRequest p →
  ∃ heap, rtc pool_step (mkPoolWorld p [] cs) (mkPoolWorld (pool_set (m_conns p ++ cs) (m_total p) heap p) [] []).
Proof.
  intros Hs Hall Hnd Hage Hmax. revert p Hall Hage Hmax. induction cs as [|c cs IH]; intros p Hall Hage Hmax.
  - exists (conn_heap p). rewrite app_nil_r. destruct p. apply rtc_refl.
  - apply Forall_cons in Hall as [Hc Hall]. apply NoDup_cons in Hnd as [Hnin Hnd].
    set (heap := <[c := mkConnection sock 0 1]> (conn_heap p)).
    destruct (IH Hnd (pool_set (m_conns p ++ [c]) (m_total p) heap p)) as (heap' & Hrun); [|done|done|].
    { rewrite Forall_forall in *. intros d Hd. unfold unused, heap. cbn [conn_heap pool_set].
      rewrite lookup_insert_ne; [by apply Hall|by intros ->]. }
    exists heap'. cbn [m_conns pool_set m_total] in Hrun. rewrite <- app_assoc in Hrun. cbn [app] in Hrun.
    eapply rtc_l; [|exact Hrun].
    eapply (step_release (mkPoolWorld p [] (c :: cs)) [] cs c now_ms); [done|].
    cbn [w_pool]. rewrite (release_spec now_ms c _ p Hc). cbv zeta. do 2 f_equal.
    unfold conn_isConnected, expires. cbn [conn_socket new_HttpConnection m_createTime m_request]. rewrite Hs, Z.add_0_l.
    destruct (Z.geb_spec (m_maxAliveTime p mod 2 ^ 64) now_ms); [lia|].
    by destruct (Z.geb_spec (0 + 1) (m_maxRequest p)); [lia|].
Qed.

(** The limits of the pool that have no effect.  Nothing sets the creation
    time of a connection, so that once the clock is past [m_maxAliveTime] a
    thread takes the first idle connection that is connected, however old it
    is.  And nothing compares with [m_maxSize]: whatever it is, [n] threads
    that open a connection each and give it back leave [n] idle ones. *)
Theorem pool_unlimited host vhost port is_https max_size max_alive max_request sock n
    (Ha : 0 <= max_alive < 2 ^ 32) (Hr : 1 < max_request) (Hc : sock_isConnected sock = true)
    (Hd : pool_dials (new_HttpConnectionPool host vhost port is_https max_size max_alive max_request) = Some sock) :
  let w0 := mkPoolWorld (new_HttpConnectionPool host vhost port is_https max_size max_alive max_request) [] [] in
  (∀ w c conns x now_ms, pool_reachable w0 w → max_alive <= now_ms →
    m_conns (w_pool w) = c :: conns → conn_heap (w_pool w) !! c = Some x → conn_isConnected x = true →
    ∃ p', getConnection_search now_ms (w_pool w) = Ok (([], Some c), p')) ∧
  ∃ w, pool_reachable w0 w ∧ length (m_conns (w_pool w)) = n ∧ w_held w = [] ∧ m_maxSize (w_pool w) = max_size.
Proof.
  intros w0. split.
  - intros w c conns x now_ms Hw Hnow Hcs Hx Hx'. destruct (pool_reachable_limits _ _ Hw) as (_ & Hma & _). cbn in Hma.
    pose proof (pool_dates _ (pool_reachable_inv _ _ Hw) c x Hx) as Hdate.
    eexists. unfold getConnection_search. run gets_run. unfold id. rewrite Hcs. cbn [take_conn]. run gets_run. unfold id.
    run (deref_conn_run c x _ Hx). rewrite Hx'. cbn [negb]. rewrite (expires_never _ x Hdate); [|by rewrite Hma].
    by destruct (Z.gtb_spec (m_maxAliveTime (w_pool w)) now_ms); [lia|].
  - destruct (open_many sock n w0) as (cs & total & heap & Hlen & Hrun & Hall & Hnd); [done..|].
    destruct (release_many sock (max_alive + 1) (pool_set [] total heap (w_pool w0)) cs Hc Hall Hnd) as (heap' & Hrun2).
    { cbn. rewrite Z.mod_small; lia. } { done. }
    eexists. split; [split; [done|by etrans]|]. cbn. by split_and!.
Qed.
End limits.

(** ** Witnesses *)

Definition sample_pool : HttpConnectionPool := new_HttpConnectionPool (str "localhost") [] 8080 false 2 1000 5.

Lemma pool_accounts_witness : ∃ w, pool_reachable (H:=sample_dialer) (mkPoolWorld sample_pool [] []) w ∧
  w_calls w = [Settling [] None] ∧ m_total (w_pool w) = Z.of_nat (length (places w)).
Proof.
  pose (w := mkPoolWorld sample_pool [Settling [] None] []).
  assert (Hr : pool_reachable (H:=sample_dialer) (mkPoolWorld sample_pool [] []) w).
  { split; [done|]. apply rtc_once. by apply (step_search (mkPoolWorld sample_pool [] []) 7 [] None sample_pool). }
  exists w. split; [exact Hr|split; [reflexivity|]]. exact (proj1 (pool_accounts (H:=sample_dialer) _ w Hr)).
Defined.

(** A pool of at most two, with ten idle ones. *)
Lemma pool_unlimited_witness : ∃ w, pool_reachable (H:=sample_dialer) (mkPoolWorld sample_pool [] []) w ∧
  length (m_conns (w_pool w)) = 10%nat ∧ m_maxSize (w_pool w) = 2.
Proof.
  destruct (pool_unlimited (H:=sample_dialer) (str "localhost") [] 8080 false 2 1000 5 answering 10) as [_ (w & Hw & Hlen & _ & Hmax)].
  - split; [by vm_compute|reflexivity].
  - reflexivity.
  - reflexivity.
  - reflexivity.
  - exists w. exact (conj Hw (conj Hlen Hmax)).
Defined.
