(* ===== verification/Servlet.v ===== *)
(** * Servlet: dispatching requests ([sylar/http/servlet.cc], [servlet.h], [http_server.cc])

    A servlet acts on a world [W] and fills the response it is given.  The
    dispatcher finds one by the path of the request: an exact entry, or else
    the first glob pattern that matches.  [fnmatch] is libc's.  A server
    answers the requests of a connection one after the other. *)

From S2P Require Import Prelude.
From S2P Require Export Http.

Section servlets.
Context {W : Type}.

(** [handle(request, response, session)]: the return value and the response. *)
Definition Servlet : Type := HttpRequest → HttpResponse → M W (Z * HttpResponse).

(** [HoldServletCreator] keeps one servlet, [ServletCreator<T>] makes a new one. *)
Inductive IServletCreator :=
  | HoldServletCreator (slt : Servlet)
  | ServletCreator (new : Servlet).

Definition creator_get (c : IServletCreator) : Servlet :=
  match c with HoldServletCreator slt => slt | ServletCreator new => new end.

Record ServletDispatch := mkServletDispatch {
  m_datas : gmap text IServletCreator;
  m_globs : list (text * IServletCreator);
  m_default : Servlet
}.

Implicit Types d : ServletDispatch.

Definition not_found_content (name : text) : text :=
  str "<html><head><title>404 Not Found</title></head><body><center><h1>404 Not Found</h1></center><hr><center>"
  ++ name ++ str "</center></body></html>".

Definition NotFoundServlet (name : text) : Servlet := λ _ response,
  mret (0, rsp_setBody (not_found_content name)
    (rsp_setHeader (str "Content-Type") (str "text/html")
      (rsp_setHeader (str "Server") (str "sylar/1.0.0") (rsp_setStatus NOT_FOUND response)))).

Definition new_ServletDispatch : ServletDispatch :=
  mkServletDispatch ∅ [] (NotFoundServlet (str "sylar/1.0")).

Definition setDefault (v : Servlet) d := mkServletDispatch (m_datas d) (m_globs d) v.

Definition addServletCreator (uri : text) (c : IServletCreator) d :=
  mkServletDispatch (<[uri := c]> (m_datas d)) (m_globs d) (m_default d).

Definition addServlet (uri : text) (slt : Servlet) d := addServletCreator uri (HoldServletCreator slt) d.

(** The loop that erases the first pair of a pattern. *)
Fixpoint erase_glob (uri : text) (l : list (text * IServletCreator)) : list (text * IServletCreator) :=
  match l with
  | [] => []
  | it :: l' => if decide (it.1 = uri) then l' else it :: erase_glob uri l'
  end.

Definition addGlobServletCreator (uri : text) (c : IServletCreator) d :=
  mkServletDispatch (m_datas d) (erase_glob uri (m_globs d) ++ [(uri, c)]) (m_default d).

Definition addGlobServlet (uri : text) (slt : Servlet) d := addGlobServletCreator uri (HoldServletCreator slt) d.

Definition delServlet (uri : text) d := mkServletDispatch (delete uri (m_datas d)) (m_globs d) (m_default d).

Definition delGlobServlet (uri : text) d := mkServletDispatch (m_datas d) (erase_glob uri (m_globs d)) (m_default d).

Definition getServlet (uri : text) d : option Servlet := creator_get <$> m_datas d !! uri.

Fixpoint find_glob (test : text → bool) (l : list (text * IServletCreator)) : option Servlet :=
  match l with
  | [] => None
  | it :: l' => if test it.1 then Some (creator_get it.2) else find_glob test l'
  end.

Definition getGlobServlet (uri : text) d : option Servlet := find_glob (λ g, bool_decide (g = uri)) (m_globs d).

(** [fnmatch pattern s]: whether [fnmatch(pattern, s, 0)] returns 0. *)
Context (fnmatch : text → text → bool).

Definition getMatchedServlet (uri : text) d : Servlet :=
  match m_datas d !! uri with
  | Some c => creator_get c
  | None => default (m_default d) (find_glob (λ g, fnmatch (c_str g) (c_str uri)) (m_globs d))
  end.

(** [ServletDispatch::handle]: the value of the servlet is ignored. *)
Definition dispatch_handle d : Servlet := λ request response,
  r ← getMatchedServlet (m_path request) d request response;
  mret (0, (r : Z * HttpResponse).2).

(** ** The server *)

Record HttpServer := mkHttpServer {
  m_isKeepalive : bool;
  server_name : text;
  m_dispatch : ServletDispatch
}.

(** [setName] *)
Definition HttpServer_setName (v : text) (s : HttpServer) : HttpServer :=
  mkHttpServer (m_isKeepalive s) v (setDefault (NotFoundServlet v) (m_dispatch s)).

(** One turn of the loop of [handleClient] after a request was received: the response sent. *)
Definition answer_request (s : HttpServer) (req : HttpRequest) : M W HttpResponse :=
  let rsp := rsp_setHeader (str "Server") (server_name s)
    (new_HttpResponse (m_version req) (m_close req || negb (m_isKeepalive s))) in
  r ← dispatch_handle (m_dispatch s) req rsp;
  mret (r : Z * HttpResponse).2.

(** [handleClient] on the requests that arrive; [None] is a failed receive.
    The result is what was sent, and what was not read any more. *)
Fixpoint handleClient (s : HttpServer) (incoming : list (option HttpRequest)) :
    M W (list HttpResponse * list (option HttpRequest)) :=
  match incoming with
  | [] => mret ([], [])
  | None :: rest => mret ([], rest)
  | Some req :: rest =>
      rsp ← answer_request s req;
      if negb (m_isKeepalive s) || m_close req then mret ([rsp], rest)
      else r ← handleClient s rest; mret (rsp :: (r : list HttpResponse * list (option HttpRequest)).1, r.2)
  end.

(** ** Facts *)

Definition globs_ok d : Prop := NoDup (m_globs d).*1.

Definition without (uri : text) (l : list (text * IServletCreator)) := filter (λ it, it.1 ≠ uri) l.

Lemma without_absent uri l : uri ∉ l.*1 → without uri l = l.
Proof.
  induction l as [|it l IH]; [done|]. rewrite fmap_cons, not_elem_of_cons. intros [Hne Hni].
  unfold without in *. rewrite filter_cons, decide_True by congruence. by rewrite IH.
Qed.

Lemma erase_glob_spec uri l : NoDup l.*1 → erase_glob uri l = without uri l.
Proof.
  intros Hnd. induction l as [|it l IH]; [done|]. apply NoDup_cons in Hnd as [Hni Hnd].
  cbn [erase_glob]. unfold without. rewrite filter_cons. fold (without uri l).
  destruct (decide (it.1 = uri)) as [E|E].
  - rewrite decide_False by auto. symmetry. apply without_absent. by rewrite <- E.
  - rewrite decide_True by done. by rewrite IH.
Qed.

Lemma without_keys uri l : NoDup l.*1 → NoDup (without uri l).*1 ∧ uri ∉ (without uri l).*1.
Proof.
  intros Hnd. split.
  - eapply sublist_NoDup; [exact Hnd|]. apply fmap_sublist. apply sublist_filter.
  - intros (it & -> & [Hne _]%list_elem_of_filter)%list_elem_of_fmap. done.
Qed.

Lemma find_glob_Some test l slt : find_glob test l = Some slt ↔
  ∃ pre g c post, l = pre ++ (g, c) :: post ∧ test g = true ∧ creator_get c = slt ∧ Forall (λ it, test it.1 = false) pre.
Proof.
  split.
  - induction l as [|[g c] l IH]; cbn [find_glob fst snd]; [done|]. destruct (test g) eqn:E.
    + intros [= <-]. by exists [], g, c, l.
    + intros (pre & g' & c' & post & -> & ? & ? & ?)%IH. exists ((g, c) :: pre), g', c', post.
      split_and!; try done. by constructor.
  - intros (pre & g & c & post & -> & Ht & <- & Hpre). induction Hpre as [|it pre Hit _ IH]; cbn [app find_glob fst snd].
    + by rewrite Ht.
    + by rewrite Hit.
Qed.

Lemma find_glob_None test l : find_glob test l = None ↔ Forall (λ it, test it.1 = false) l.
Proof.
  induction l as [|it l IH]; cbn [find_glob]; [by split|]. rewrite Forall_cons.
  destruct (test it.1); [split; [done|by intros [? _]]|]. rewrite IH. naive_solver.
Qed.

(** Dispatch.  The globs stay free of duplicates: adding one removes the
    old entry of its pattern and goes to the end, deleting removes the only
    entry, and exact entries are a finite map.  A request goes to the exact
    entry of its path; without one to the first glob, in the order in which
    they were last added, whose pattern matches; and otherwise to the default
    servlet, which answers 404. *)
Theorem dispatch_spec d (uri path : text) (c : IServletCreator) (Hd : globs_ok d) :
  (let d' := addGlobServletCreator uri c d in globs_ok d' ∧ m_globs d' = without uri (m_globs d) ++ [(uri, c)] ∧
    m_datas d' = m_datas d ∧ getGlobServlet uri d' = Some (creator_get c)) ∧
  (let d' := delGlobServlet uri d in globs_ok d' ∧ m_globs d' = without uri (m_globs d) ∧
    m_datas d' = m_datas d ∧ getGlobServlet uri d' = None) ∧
  (∀ u, getServlet u (addServletCreator uri c d) = if decide (u = uri) then Some (creator_get c) else getServlet u d) ∧
  (∀ u, getServlet u (delServlet uri d) = if decide (u = uri) then None else getServlet u d) ∧
  (∀ slt, getServlet path d = Some slt → getMatchedServlet path d = slt) ∧
  (getServlet path d = None →
    (∀ pre g c' post, m_globs d = pre ++ (g, c') :: post → fnmatch (c_str g) (c_str path) = true →
      Forall (λ it, fnmatch (c_str it.1) (c_str path) = false) pre → getMatchedServlet path d = creator_get c') ∧
    (Forall (λ it, fnmatch (c_str it.1) (c_str path) = false) (m_globs d) → getMatchedServlet path d = m_default d)).
Proof.
  destruct (without_keys uri (m_globs d) Hd) as [Hnd Hni].
  assert (Hno : Forall (λ it, bool_decide (it.1 = uri) = false) (without uri (m_globs d))).
  { apply Forall_forall. intros it [? _]%list_elem_of_filter. by apply bool_decide_eq_false. }
  unfold globs_ok, getGlobServlet, getServlet, getMatchedServlet. simpl. rewrite erase_glob_spec by done.
  split_and!; try done.
  - rewrite fmap_app. apply NoDup_app. split_and!; [done| |apply NoDup_singleton].
    by intros u Hu ->%list_elem_of_singleton.
  - apply find_glob_Some. exists (without uri (m_globs d)), uri, c, []. split_and!; try done.
    by apply bool_decide_eq_true.
  - by apply find_glob_None.
  - intros u. case_decide as E; [by rewrite E, lookup_insert_eq|by rewrite lookup_insert_ne].
  - intros u. case_decide as E; [by rewrite E, lookup_delete_eq|by rewrite lookup_delete_ne].
  - intros slt (c' & E & ->)%fmap_Some. by rewrite E.
  - intros E%fmap_None. rewrite E. split.
    + intros pre g c' post Eg Hm Hpre.
      assert (Ef : find_glob (λ g, fnmatch (c_str g) (c_str path)) (m_globs d) = Some (creator_get c'))
        by (apply find_glob_Some; by exists pre, g, c', post). by rewrite Ef.
    + intros Hall. by rewrite (proj2 (find_glob_None (λ g, fnmatch (c_str g) (c_str path)) _) Hall).
Qed.
End servlets.
Arguments Servlet : clear implicits.
Arguments IServletCreator : clear implicits.
Arguments ServletDispatch : clear implicits.
Arguments HttpServer : clear implicits.

Lemma dispatch_spec_witness :
  getMatchedServlet (λ g _, bool_decide (g = str "/a/*")) (str "/a/x")
    (addGlobServlet (str "/a/*") (NotFoundServlet (W:=unit) (str "n")) new_ServletDispatch)
  = NotFoundServlet (str "n").
Proof.
  set (d := addGlobServlet (str "/a/*") (NotFoundServlet (W:=unit) (str "n")) new_ServletDispatch).
  destruct (dispatch_spec (λ g _, bool_decide (g = str "/a/*")) d [] (str "/a/x") (ServletCreator (NotFoundServlet [])))
    as (_ & _ & _ & _ & _ & H); [apply NoDup_singleton|].
  destruct (H eq_refl) as [H1 _]. exact (H1 [] (str "/a/*") (HoldServletCreator (NotFoundServlet (str "n"))) [] eq_refl
    ltac:(by vm_compute) ltac:(constructor)).
Defined.
