(* ===== verification/Rpc.v ===== *)
(** * Rpc: remote calls over HTTP ([rpc/rpcprovider.cpp], [mprpcchannel.cpp], [mprpccontroller.cpp])

    A provider registers protobuf services and answers requests for
    [/rpc/<Service>/<Method>]; a channel turns a call into such a request.
    Protobuf is the class [Protobuf]: messages of a type of messages [Msg] with
    their serialisation.  A service acts on the world [W] of the server.  The
    connection of the channel is a state [N] with the operations of [Network]. *)

From S2P Require Import Prelude.
From S2P Require Export Servlet.

(** ** Protobuf *)

(** The type of a message is a number.  [ParseFromString] on a fresh message:
    whether it succeeded, and what the message became. *)
Class Protobuf (Msg : Type) := {
  new_message : positive → Msg;
  SerializeToString : Msg → option text;
  ParseFromString : text → Msg → bool * Msg
}.

Record MethodDescriptor := mkMethod {
  md_service : text;
  md_name : text;
  input_type : positive;
  output_type : positive
}.

(** A service: its name, its methods, and [CallMethod(method, _, request, response, _)],
    which fills the response. *)
Record Service (W Msg : Type) := mkService {
  sd_name : text;
  sd_methods : list MethodDescriptor;
  sd_CallMethod : MethodDescriptor → Msg → Msg → M W Msg
}.
Arguments mkService {W Msg}.
Arguments sd_name {W Msg}.
Arguments sd_methods {W Msg}.
Arguments sd_CallMethod {W Msg}.

Section provider.
Context {W Msg : Type} `{Protobuf Msg}.

Record ServiceInfo := mkServiceInfo {
  m_service : Service W Msg;
  m_methodMap : gmap text MethodDescriptor
}.

Abbreviation service_map := (gmap text ServiceInfo).

(** [insert] of an [unordered_map]: a key that is there keeps its value. *)
Definition insert_new {V} (k : text) (v : V) (m : gmap text V) : gmap text V :=
  match m !! k with Some _ => m | None => <[k := v]> m end.

Fixpoint method_map (l : list MethodDescriptor) (m : gmap text MethodDescriptor) : gmap text MethodDescriptor :=
  match l with
  | [] => m
  | md :: l' => method_map l' (insert_new (md_name md) md m)
  end.

Definition NotifyService (service : Service W Msg) (m_serviceMap : service_map) : service_map :=
  insert_new (sd_name service) (mkServiceInfo service (method_map (sd_methods service) ∅)) m_serviceMap.

Definition prefix : text := str "/rpc/".
Definition slash : ascii := "/"%char.

Definition fill (status : HttpStatus) (body : text) (rsp : HttpResponse) : HttpResponse :=
  rsp_setBody body (rsp_setStatus status rsp).

(** The servlet of [RpcProvider::Run]. *)
Definition rpc_servlet (m_serviceMap : service_map) : Servlet W := λ req rsp,
  if negb (bool_decide (m_method req = POST)) then mret (0, fill METHOD_NOT_ALLOWED (str "Only POST allowed" ++ [newline]) rsp)
  else
    let path := m_path req in
    if ((length path <=? length prefix)%nat || negb (bool_decide (take (length prefix) path = prefix))) then
      mret (0, fill BAD_REQUEST (str "invalid rpc path, expected /rpc/<Service>/<Method>") rsp)
    else
      let rest := drop (length prefix) path in
      match find_char slash rest with
      | None => mret (0, fill BAD_REQUEST (str "invalid rpc path, missing method") rsp)
      | Some pos =>
          let service_name := take pos rest in
          let method_name := drop (pos + 1) rest in
          match m_serviceMap !! service_name with
          | None => mret (0, fill NOT_FOUND (str "service not found") rsp)
          | Some it =>
              match m_methodMap it !! method_name with
              | None => mret (0, fill NOT_FOUND (str "method not found") rsp)
              | Some method =>
                  let '(ok, request) := ParseFromString (m_body req) (new_message (input_type method)) in
                  if negb ok then mret (0, fill BAD_REQUEST (str "request parse error") rsp)
                  else
                    response ← sd_CallMethod (m_service it) method request (new_message (output_type method));
                    match SerializeToString response with
                    | Some response_str =>
                        mret (0, rsp_setBody response_str
                          (rsp_setHeader (str "Content-Type") (str "application/octet-stream") (rsp_setStatus OK rsp)))
                    | None => mret (0, fill INTERNAL_SERVER_ERROR (str "serialize response error") rsp)
                    end
              end
          end
      end.

(** [Run]: the server with the servlet at its glob. *)
Definition Run (m_serviceMap : service_map) : HttpServer W :=
  let server := HttpServer_setName (str "sylar_rpc_server") (mkHttpServer true (str "sylar/1.0.0") new_ServletDispatch) in
  mkHttpServer (m_isKeepalive server) (server_name server)
    (addGlobServlet (str "/rpc/*") (rpc_servlet m_serviceMap) (m_dispatch server)).
End provider.
Arguments ServiceInfo : clear implicits.

(** ** The controller *)

Record MprpcController := mkController { m_failed : bool; m_errText : text }.

Definition new_MprpcController : MprpcController := mkController false [].
Definition Controller_Reset (c : MprpcController) : MprpcController := mkController false [].
Definition Failed (c : MprpcController) : bool := m_failed c.
Definition ErrorText (c : MprpcController) : text := m_errText c.
Definition SetFailed (reason : text) (c : MprpcController) : MprpcController := mkController true reason.

(** ** The channel *)

(** The connections of the channel: [HttpConnection::isConnected],
    looking up the address and connecting, [sendRequest] and [recvResponse]. *)
Class Network (N : Type) := {
  net_isConnected : N → bool;
  net_connect : N → bool * N;
  net_send : HttpRequest → N → N;
  net_recv : N → option HttpResponse * N
}.

Section channel.
Context {N Msg : Type} `{Network N} `{Protobuf Msg}.

(** [m_isConnected], and the network with [m_httpconn]. *)
Record MprpcChannel := mkChannel { m_isConnected : bool; m_httpconn : N }.

Abbreviation MC A := (M MprpcChannel A).

Definition connect : MC bool :=
  c ← gets id;
  if m_isConnected c && net_isConnected (m_httpconn c) then mret true
  else
    let '(ok, n) := net_connect (m_httpconn c) in
    if ok then modify (λ _, mkChannel true n) ;; mret true
    else modify (λ _, mkChannel (m_isConnected c) n) ;; mret false.

(** The constructor: a first attempt to connect, whose failure is ignored. *)
Definition new_MprpcChannel (n : N) (connectNow : bool) : result MprpcChannel :=
  if connectNow then
    match connect (mkChannel false n) with Ok (_, c) => Ok c | Fail f => Fail f end
  else Ok (mkChannel false n).

Definition rpc_request (method : MethodDescriptor) (req_str : text) : HttpRequest :=
  let req := new_HttpRequest 17 true in
  let req := setMethod POST req in
  let req := setPath (str "/rpc/" ++ md_service method ++ str "/" ++ md_name method) req in
  let req := setHeader (str "Content-Type") (str "application/octet-stream") req in
  let req := setClose false req in
  let req := setBody req_str req in
  setHeader (str "Content-Length") (to_string (length req_str)) req.

(** [CallMethod]: the controller and the response afterwards. *)
Definition CallMethod (method : MethodDescriptor) (controller : MprpcController) (request response : Msg) :
    MC (MprpcController * Msg) :=
  ok ← connect;
  if negb ok then mret (SetFailed (str "connect to server failed!") controller, response)
  else
    match SerializeToString request with
    | None => mret (SetFailed (str "serialize request error!") controller, response)
    | Some req_str =>
        modify (λ c, mkChannel (m_isConnected c) (net_send (rpc_request method req_str) (m_httpconn c))) ;;
        c ← gets id;
        let '(rsp, n) := net_recv (m_httpconn c) in
        modify (λ c, mkChannel (m_isConnected c) n) ;;
        match rsp with
        | None =>
            modify (λ c, mkChannel false (m_httpconn c)) ;;
            mret (SetFailed (str "recv response error!") controller, response)
        | Some rsp => mret (controller, (ParseFromString (rsp_body rsp) response).2)
        end
    end.
End channel.
Arguments MprpcChannel : clear implicits.
