(* ===== verification/RpcProps.v ===== *)
(** * RpcProps: a remote call is the local call

    The channel, the HTTP server, the dispatcher and the provider composed over
    a connection that carries method, path and body: a call gives what the
    service gives, and what happens when it cannot. *)

From S2P Require Import Prelude Rpc.

(** ** What the code relies on *)

(** Parsing what was serialised gives the message back. *)
Class ProtobufLaws (Msg : Type) `{Protobuf Msg} := {
  has_type : positive → Msg → Prop;
  new_message_type t : has_type t (new_message t);
  parse_serialize t m fresh s :
    has_type t m → has_type t fresh → SerializeToString m = Some s → ParseFromString s fresh = (true, m)
}.

(** Characters that [fnmatch] and the request line treat as themselves. *)
Definition id_char (c : ascii) : bool :=
  let n := nat_of_ascii c in
  ((48 <=? n) && (n <=? 57) || (65 <=? n) && (n <=? 90) || (97 <=? n) && (n <=? 122) || (n =? 95))%nat.

Definition plain_char (c : ascii) : bool := id_char c || bool_decide (c = slash).

Definition identifier (s : text) : Prop := Forall (λ c, id_char c = true) s ∧ s ≠ [].

(** A star at the end of a plain pattern matches any rest. *)
Definition fnmatch_star (fnmatch : text → text → bool) : Prop :=
  ∀ p s, Forall (λ c, plain_char c = true) p → fnmatch (p ++ ["*"%char]) s = bool_decide (p `prefix_of` s).

(** ** A connection to a server *)

(** [reachable]: a connection can be opened; [up]: one is open; [inbox]: the
    response that was sent back. *)
Record wire (S : Type) := mkWire { reachable : bool; up : bool; server_world : S; inbox : option HttpResponse }.
Arguments mkWire {S}.
Arguments reachable {S}.
Arguments up {S}.
Arguments server_world {S}.
Arguments inbox {S}.

Section wire.
Context {S : Type} (fnmatch : text → text → bool) (server : HttpServer S).
(** The request as the server receives it, the response as the client does, if they do. *)
Context (deliver : HttpRequest → option HttpRequest) (reply : HttpResponse → option HttpResponse).

(** Sending runs the server on the request as it is received; a server that
    fails, or does not receive a request, closes the connection. *)
Definition wire_send (req : HttpRequest) (w : wire S) : wire S :=
  let closed := mkWire (reachable w) false (server_world w) None in
  if up w then
    match deliver req with
    | None => closed
    | Some received =>
        match answer_request fnmatch server received (server_world w) with
        | Ok (rsp, s) => mkWire (reachable w) true s (reply rsp)
        | Fail _ => closed
        end
    end
  else closed.

Definition wire_network : Network (wire S) := {|
  net_isConnected := up;
  net_connect w := (reachable w, mkWire (reachable w) (reachable w) (server_world w) None);
  net_send := wire_send;
  net_recv w := (inbox w, mkWire (reachable w) (up w) (server_world w) None)
|}.

(** The connection carries what fits: of a request what the server looks at,
    of a response the body. *)
Record carries (fits : HttpRequest → Prop) (fits_rsp : HttpResponse → Prop) : Prop := {
  carries_request req : fits req →
    ∃ r, deliver req = Some r ∧ m_method r = m_method req ∧ m_version r = m_version req ∧ m_close r = m_close req ∧
      m_path r = m_path req ∧ m_body r = m_body req;
  carries_response rsp : fits_rsp rsp → ∃ r, reply rsp = Some r ∧ rsp_body r = rsp_body rsp
}.
End wire.

(** What the provider answers to a request for version 1.1 that does not close. *)
Definition rpc_answer : HttpResponse := rsp_setHeader (str "Server") (str "sylar_rpc_server") (new_HttpResponse 17 false).

Definition rpc_success (body : text) : HttpResponse :=
  rsp_setBody body (rsp_setHeader (str "Content-Type") (str "application/octet-stream") (rsp_setStatus OK rpc_answer)).

Definition rpc_refusal (body : text) : HttpResponse := fill NOT_FOUND body rpc_answer.

(** ** The tables of the provider *)

Section tables.
Context {W Msg : Type} `{Protobuf Msg}.

Lemma insert_new_lookup {V} k (v : V) m k' :
  insert_new k v m !! k' = match m !! k' with Some x => Some x | None => if decide (k = k') then Some v else None end.
Proof.
  unfold insert_new. destruct (decide (k = k')) as [->|Hne].
  - destruct (m !! k') as [x|] eqn:E; [by rewrite E|by rewrite lookup_insert_eq].
  - destruct (m !! k); [by destruct (m !! k')|]. rewrite lookup_insert_ne by done. by destruct (m !! k').
Qed.

Lemma method_map_lookup l m k : method_map l m !! k =
  match m !! k with Some x => Some x | None => snd <$> list_find (λ md, md_name md = k) l end.
Proof.
  revert m. induction l as [|md l IH]; intros m; cbn [method_map list_find]; [by destruct (m !! k)|].
  rewrite IH, insert_new_lookup. destruct (m !! k); [done|].
  destruct (decide (md_name md = k)); [done|]. by destruct (list_find _ l) as [[]|].
Qed.

(** The services registered in turn. *)
Definition register (svs : list (Service W Msg)) : gmap text (ServiceInfo W Msg) :=
  foldl (λ m sv, NotifyService sv m) ∅ svs.

Lemma register_lookup_from (svs : list (Service W Msg)) (m : gmap text (ServiceInfo W Msg)) k : foldl (λ m sv, NotifyService sv m) m svs !! k =
  match m !! k with
  | Some x => Some x
  | None => (λ p, mkServiceInfo p.2 (method_map (sd_methods p.2) ∅)) <$> list_find (λ sv, sd_name sv = k) svs
  end.
Proof.
  revert m. induction svs as [|sv svs IH]; intros m; cbn [foldl list_find]; [by destruct (m !! k)|].
  rewrite IH. unfold NotifyService. rewrite insert_new_lookup. destruct (m !! k); [done|].
  destruct (decide (sd_name sv = k)); [done|]. by destruct (list_find _ svs) as [[]|].
Qed.

Lemma find_named {A} (name : A → text) (l : list A) x : NoDup (name <$> l) → x ∈ l →
  snd <$> list_find (λ y, name y = name x) l = Some x.
Proof.
  intros Hnd Hx. destruct (list_find (λ y, name y = name x) l) as [[i y]|] eqn:E.
  - apply list_find_Some in E as (Hi & Hn & _). simpl. f_equal.
    apply list_elem_of_lookup in Hx as [j Hj].
    assert (i = j) as ->; [|congruence].
    eapply NoDup_lookup; [exact Hnd|by rewrite list_lookup_fmap, Hi|by rewrite list_lookup_fmap, Hj, Hn].
  - apply list_find_None in E. rewrite Forall_forall in E. by destruct (E x Hx).
Qed.

Lemma registered_method (svs : list (Service W Msg)) sv md : NoDup (sd_name <$> svs) → sv ∈ svs →
  NoDup (md_name <$> sd_methods sv) → md ∈ sd_methods sv →
  ∃ info, register svs !! sd_name sv = Some info ∧ m_service info = sv ∧ m_methodMap info !! md_name md = Some md.
Proof.
  intros Hns Hsv Hnm Hmd. pose proof (find_named sd_name svs sv Hns Hsv) as Es.
  pose proof (find_named md_name (sd_methods sv) md Hnm Hmd) as Em. unfold register.
  rewrite register_lookup_from, lookup_empty.
  destruct (list_find _ svs) as [[i sv']|] eqn:E; simpl in Es; [|done]. injection Es as ->.
  eexists. split; [reflexivity|]. split; [done|]. simpl. by rewrite method_map_lookup, lookup_empty.
Qed.
End tables.

(** ** The way of a request *)

Lemma id_plain s : Forall (λ c, id_char c = true) s → Forall (λ c, plain_char c = true) s.
Proof. intros Hs. eapply Forall_impl; [exact Hs|]. intros c Hc. unfold plain_char. by rewrite Hc. Qed.

Lemma plain_no_nul s : Forall (λ c, plain_char c = true) s → nul ∉ s.
Proof. rewrite Forall_forall. intros Hs Hin. by specialize (Hs _ Hin). Qed.

Lemma id_no_slash s : Forall (λ c, id_char c = true) s → slash ∉ s.
Proof. rewrite Forall_forall. intros Hs Hin. by specialize (Hs _ Hin). Qed.

Definition rpc_path (s m : text) : text := str "/rpc/" ++ s ++ str "/" ++ m.

Lemma rpc_path_plain s m : identifier s → identifier m → Forall (λ c, plain_char c = true) (rpc_path s m).
Proof.
  intros [Hs _] [Hm _]. unfold rpc_path. rewrite !Forall_app. split_and!; [by repeat constructor|by apply id_plain
    |by repeat constructor|by apply id_plain].
Qed.

Section calls.
Context {W Msg : Type} `{ProtobufLaws Msg}.
Implicit Types svs : list (Service W Msg).

(** The servlet on a well-formed path, up to the tables. *)
Lemma servlet_route (tables : gmap text (ServiceInfo W Msg)) req rsp s m :
  m_method req = POST → m_path req = rpc_path s m → slash ∉ s →
  rpc_servlet tables req rsp =
    match tables !! s with
    | None => mret (0, fill NOT_FOUND (str "service not found") rsp)
    | Some it =>
        match m_methodMap it !! m with
        | None => mret (0, fill NOT_FOUND (str "method not found") rsp)
        | Some method =>
            let '(ok, request) := ParseFromString (m_body req) (new_message (input_type method)) in
            if negb ok then mret (0, fill BAD_REQUEST (str "request parse error") rsp)
            else
              response ← sd_CallMethod (m_service it) method request (new_message (output_type method));
              match SerializeToString response with
              | Some response_str =>
                  mret (0, rsp_setBody response_str
                    (rsp_setHeader (str "Content-Type") (str "application/octet-stream") (rsp_setStatus OK rsp)))
              | None => mret (0, fill INTERNAL_SERVER_ERROR (str "serialize response error") rsp)
              end
        end
    end.
Proof.
  intros Hm Hp Hs. unfold rpc_servlet. rewrite Hm, Hp. cbn [negb bool_decide].
  rewrite bool_decide_eq_true_2 by done. cbn [negb]. unfold rpc_path. change (str "/") with [slash].
  assert (Hlen : (length (str "/rpc/" ++ s ++ [slash] ++ m) <=? length prefix)%nat = false).
  { apply Nat.leb_gt. rewrite !length_app. simpl. lia. }
  rewrite Hlen. cbn [orb]. change (length prefix) with (length (str "/rpc/")).
  rewrite take_app_length, drop_app_length, bool_decide_eq_true_2 by done. cbn [negb app].
  rewrite find_char_app by done. rewrite take_app_length.
  assert (Ed : drop (length s + 1) (s ++ slash :: m) = m) by by rewrite drop_app_add. by rewrite Ed.
Qed.

(** The server hands the request to the servlet. *)
Lemma server_route (fnmatch : text → text → bool) (tables : gmap text (ServiceInfo W Msg)) req s m w :
  fnmatch_star fnmatch → m_path req = rpc_path s m → identifier s → identifier m →
  answer_request fnmatch (Run tables) req w =
    match rpc_servlet tables req (rsp_setHeader (str "Server") (str "sylar_rpc_server")
      (new_HttpResponse (m_version req) (m_close req))) w with
    | Ok ((_, rsp), w') => Ok (rsp, w')
    | Fail f => Fail f
    end.
Proof.
  intros Hf Hp Hs Hm. unfold answer_request, dispatch_handle, getMatchedServlet. rewrite Hp.
  change (m_datas (m_dispatch (Run tables))) with (∅ : gmap text (IServletCreator W)). rewrite lookup_empty.
  change (m_globs (m_dispatch (Run tables))) with [(str "/rpc/*", HoldServletCreator (rpc_servlet tables))].
  cbn [find_glob fst snd creator_get].
  pose proof (rpc_path_plain s m Hs Hm) as Hplain. rewrite (c_str_id (rpc_path s m)) by by apply plain_no_nul.
  change (c_str (str "/rpc/*")) with (prefix ++ ["*"%char]).
  rewrite Hf by by repeat constructor. rewrite bool_decide_eq_true_2 by (by exists (s ++ str "/" ++ m)).
  cbn [default from_option]. unfold mbind, M_bind. rewrite orb_false_r.
  change (server_name (Run tables)) with (str "sylar_rpc_server").
  unfold id. by destruct (rpc_servlet tables req _ w) as [[[? ?] ?]|].
Qed.

(** ** The claims *)

Context (fnmatch : text → text → bool) (deliver : HttpRequest → option HttpRequest) (reply : HttpResponse → option HttpResponse).
Context (fits : HttpRequest → Prop) (fits_rsp : HttpResponse → Prop).

(** The connection of a channel to the provider of the services [svs]. *)
Local Instance provider_network svs : Network (wire W) := wire_network fnmatch (Run (register svs)) deliver reply.

(** The state of the channel when its call is sent: the connection is open, or
    it can be opened. *)
Definition can_connect (c : MprpcChannel (wire W)) : Prop :=
  (m_isConnected c = true ∧ up (m_httpconn c) = true) ∨ reachable (m_httpconn c) = true.

Definition world_of (c : MprpcChannel (wire W)) : W := server_world (m_httpconn c).

Lemma connect_run svs c : can_connect c →
  ∃ c1, connect (H:=provider_network svs) c = Ok (true, c1) ∧ m_isConnected c1 = true ∧ up (m_httpconn c1) = true ∧
    world_of c1 = world_of c.
Proof.
  intros Hc. unfold connect. run gets_run. unfold id. simpl.
  destruct (m_isConnected c && up (m_httpconn c)) eqn:E.
  - apply andb_true_iff in E as [? ?]. exists c. by split_and!.
  - destruct Hc as [[Hc Hu]|Hr]; [by rewrite Hc, Hu in E|]. rewrite Hr. by eexists.
Qed.

(** What a call does once the request is serialised and received. *)
Lemma call_run svs md ctl req resp0 c req_str rq rsp rsp' s' : can_connect c → SerializeToString req = Some req_str →
  deliver (rpc_request md req_str) = Some rq → answer_request fnmatch (Run (register svs)) rq (world_of c) = Ok (rsp, s') →
  reply rsp = Some rsp' →
  ∃ c', CallMethod (H:=provider_network svs) md ctl req resp0 c = Ok (ctl, (ParseFromString (rsp_body rsp') resp0).2, c') ∧
    world_of c' = s' ∧ m_isConnected c' = true.
Proof.
  intros Hc Hser Hd Ha Hrep. destruct (connect_run svs c Hc) as (c1 & E1 & H1 & Hup & Hw).
  unfold CallMethod. rewrite (bind_run _ _ _ _ _ E1). cbn [negb]. rewrite Hser. unfold world_of in *.
  unfold mbind at 1, M_bind at 1, modify at 1. unfold mbind at 1, M_bind at 1, gets at 1, id. simpl.
  unfold wire_send. rewrite Hup, Hd, Hw, Ha. simpl. rewrite Hrep. eexists. by split_and!.
Qed.

(** What a call does when the server fails. *)
Lemma call_lost svs md ctl req resp0 c req_str rq f : can_connect c → SerializeToString req = Some req_str →
  deliver (rpc_request md req_str) = Some rq → answer_request fnmatch (Run (register svs)) rq (world_of c) = Fail f →
  ∃ c', CallMethod (H:=provider_network svs) md ctl req resp0 c = Ok (SetFailed (str "recv response error!") ctl, resp0, c') ∧
    world_of c' = world_of c ∧ m_isConnected c' = false.
Proof.
  intros Hc Hser Hd Ha. destruct (connect_run svs c Hc) as (c1 & E1 & H1 & Hup & Hw).
  unfold CallMethod. rewrite (bind_run _ _ _ _ _ E1). cbn [negb]. rewrite Hser. unfold world_of in *.
  unfold mbind at 1, M_bind at 1, modify at 1. unfold mbind at 1, M_bind at 1, gets at 1, id. simpl.
  unfold wire_send. rewrite Hup, Hd, Hw, Ha. simpl. eexists. by split_and!.
Qed.

(** A request that fits reaches the servlet of the provider. *)
Lemma call_received svs md req_str w : fnmatch_star fnmatch → carries deliver reply fits fits_rsp →
  identifier (md_service md) → identifier (md_name md) → fits (rpc_request md req_str) →
  ∃ rq, deliver (rpc_request md req_str) = Some rq ∧ m_method rq = POST ∧
    m_path rq = rpc_path (md_service md) (md_name md) ∧ m_body rq = req_str ∧
    answer_request fnmatch (Run (register svs)) rq w =
      match rpc_servlet (register svs) rq rpc_answer w with Ok ((_, rsp), w') => Ok (rsp, w') | Fail f => Fail f end.
Proof.
  intros Hf [Hcq _] Hid Hid' Hfit. destruct (Hcq _ Hfit) as (rq & Hd & Hm & Hv & Hcl & Hp & Hb).
  exists rq. split_and!; [done|done|done|done|].
  rewrite (server_route fnmatch _ _ (md_service md) (md_name md) w Hf Hp Hid Hid'). by rewrite Hv, Hcl.
Qed.

(** A remote call is the local call, over any connection that carries it. *)
Lemma remote_call_run svs sv md (ctl : MprpcController) (req resp0 r : Msg) c (req_str rs : text) (s' : W)
  (Hf : fnmatch_star fnmatch) (Hcar : carries deliver reply fits fits_rsp)
  (Hns : NoDup (sd_name <$> svs)) (Hsv : sv ∈ svs) (Hnm : NoDup (md_name <$> sd_methods sv)) (Hmd : md ∈ sd_methods sv)
  (Hsd : md_service md = sd_name sv) (Hid : identifier (sd_name sv)) (Hid' : identifier (md_name md))
  (Hreq : has_type (input_type md) req) (Hser : SerializeToString req = Some req_str)
  (Hcall : sd_CallMethod sv md req (new_message (output_type md)) (world_of c) = Ok (r, s'))
  (Hr : has_type (output_type md) r) (Hrs : SerializeToString r = Some rs) (Hresp : has_type (output_type md) resp0)
  (Hfit : fits (rpc_request md req_str)) (Hfit' : fits_rsp (rpc_success rs))
  (Hc : can_connect c) :
  ∃ c', CallMethod (H:=provider_network svs) md ctl req resp0 c = Ok (ctl, r, c') ∧
    world_of c' = s' ∧ m_isConnected c' = true.
Proof.
  destruct (registered_method svs sv md Hns Hsv Hnm Hmd) as (info & Hinfo & Hisv & Him). rewrite <- Hsd in Hid, Hinfo.
  destruct (call_received svs md req_str (world_of c) Hf Hcar Hid Hid' Hfit) as (rq & Hd & Hm & Hp & Hb & Ea).
  assert (Es : rpc_servlet (register svs) rq rpc_answer (world_of c) = Ok ((0, rpc_success rs), s')).
  { rewrite (servlet_route _ _ _ _ _ Hm Hp (id_no_slash _ (proj1 Hid))), Hinfo, Him, Hb, Hisv.
    rewrite (parse_serialize (input_type md) req _ req_str Hreq (new_message_type _) Hser). cbn [negb].
    run Hcall. by rewrite Hrs. }
  rewrite Es in Ea. destruct (carries_response _ _ _ _ Hcar _ Hfit') as (rsp' & Hrep & Hbody).
  destruct (call_run svs md ctl req resp0 c req_str rq _ rsp' s' Hc Hser Hd Ea Hrep) as (c' & E & Hw & Hcon).
  exists c'. split_and!; [|done|done]. rewrite E, Hbody. change (rsp_body (rpc_success rs)) with rs.
  by rewrite (parse_serialize (output_type md) r resp0 rs Hr Hresp Hrs).
Qed.

(** (C17) Calls that cannot be made.  Without a connection, or when the request
    cannot be serialised, the controller is marked failed and neither the
    response nor the server's world changes.  When the service aborts, the
    connection is lost: the controller is marked failed and the channel
    connects again next time.  But the channel never looks at the status of
    the response: when the provider refuses the call because it does not know
    the service or the method, nothing runs on the server, yet the controller
    is not marked failed, and the words of the error page are parsed as if
    they were the response. *)
Theorem remote_call_failures svs md (ctl : MprpcController) (req resp0 : Msg) c
  (Hf : fnmatch_star fnmatch) (Hcar : carries deliver reply fits fits_rsp)
  (Hid : identifier (md_service md)) (Hid' : identifier (md_name md))
  (Hfit : ∀ req_str, SerializeToString req = Some req_str → fits (rpc_request md req_str))
  (Hfit' : ∀ body, body ∈ [str "service not found"; str "method not found"] → fits_rsp (rpc_refusal body)) :
  (¬ can_connect c → ∃ c', CallMethod (H:=provider_network svs) md ctl req resp0 c
    = Ok (SetFailed (str "connect to server failed!") ctl, resp0, c') ∧ world_of c' = world_of c) ∧
  (can_connect c → SerializeToString req = None → ∃ c', CallMethod (H:=provider_network svs) md ctl req resp0 c
    = Ok (SetFailed (str "serialize request error!") ctl, resp0, c') ∧ world_of c' = world_of c) ∧
  (can_connect c → is_Some (SerializeToString req) → register svs !! md_service md = None →
    ∃ c', CallMethod (H:=provider_network svs) md ctl req resp0 c
      = Ok (ctl, (ParseFromString (str "service not found") resp0).2, c') ∧ world_of c' = world_of c) ∧
  (can_connect c → is_Some (SerializeToString req) →
    ∀ info, register svs !! md_service md = Some info → m_methodMap info !! md_name md = None →
    ∃ c', CallMethod (H:=provider_network svs) md ctl req resp0 c
      = Ok (ctl, (ParseFromString (str "method not found") resp0).2, c') ∧ world_of c' = world_of c) ∧
  (can_connect c → ∀ req_str info md' request f, SerializeToString req = Some req_str →
    register svs !! md_service md = Some info → m_methodMap info !! md_name md = Some md' →
    ParseFromString req_str (new_message (input_type md')) = (true, request) →
    sd_CallMethod (m_service info) md' request (new_message (output_type md')) (world_of c) = Fail f →
    ∃ c', CallMethod (H:=provider_network svs) md ctl req resp0 c
      = Ok (SetFailed (str "recv response error!") ctl, resp0, c') ∧ world_of c' = world_of c ∧ m_isConnected c' = false).
Proof.
  pose proof (λ req_str w Hser, call_received svs md req_str w Hf Hcar Hid Hid' (Hfit req_str Hser)) as Hroute.
  assert (Hslash : slash ∉ md_service md) by apply id_no_slash, Hid.
  split_and!.
  - intros Hno. unfold CallMethod.
    assert (E : connect (H:=provider_network svs) c = Ok (false,
      mkChannel (m_isConnected c) (mkWire false false (world_of c) None))).
    { unfold connect. run gets_run. unfold id. simpl. unfold can_connect in Hno.
      destruct (m_isConnected c), (up (m_httpconn c)), (reachable (m_httpconn c)) eqn:Er; simpl; try done;
        exfalso; apply Hno; auto. }
    rewrite (bind_run _ _ _ _ _ E). by eexists.
  - intros Hc Hn. destruct (connect_run svs c Hc) as (c1 & E1 & _ & _ & Hw).
    unfold CallMethod. rewrite (bind_run _ _ _ _ _ E1). cbn [negb]. rewrite Hn. by exists c1.
  - intros Hc [req_str Hser] Hno. destruct (Hroute req_str (world_of c) Hser) as (rq & Hd & Hm & Hp & _ & Ea).
    rewrite (servlet_route _ _ _ _ _ Hm Hp Hslash), Hno in Ea. simpl in Ea.
    destruct (carries_response _ _ _ _ Hcar (rpc_refusal (str "service not found")) ltac:(apply Hfit'; by left)) as (rsp' & Hrep & Hbody).
    destruct (call_run svs md ctl req resp0 c req_str rq _ rsp' _ Hc Hser Hd Ea Hrep) as (c' & E & Hw' & _).
    exists c'. by rewrite E, Hbody.
  - intros Hc [req_str Hser] info Hin Hno. destruct (Hroute req_str (world_of c) Hser) as (rq & Hd & Hm & Hp & _ & Ea).
    rewrite (servlet_route _ _ _ _ _ Hm Hp Hslash), Hin, Hno in Ea. simpl in Ea.
    destruct (carries_response _ _ _ _ Hcar (rpc_refusal (str "method not found")) ltac:(apply Hfit'; by right; left)) as (rsp' & Hrep & Hbody).
    destruct (call_run svs md ctl req resp0 c req_str rq _ rsp' _ Hc Hser Hd Ea Hrep) as (c' & E & Hw' & _).
    exists c'. by rewrite E, Hbody.
  - intros Hc req_str info md' request f Hser Hin Hmm Hparse Hfail.
    destruct (Hroute req_str (world_of c) Hser) as (rq & Hd & Hm & Hp & Hb & Ea).
    rewrite (servlet_route _ _ _ _ _ Hm Hp Hslash), Hin, Hmm, Hb, Hparse in Ea. cbn [negb] in Ea.
    unfold mbind, M_bind in Ea. rewrite Hfail in Ea. by apply (call_lost svs md ctl req resp0 c req_str rq f).
Qed.
End calls.

(** ** Witnesses *)

(** Messages of one text each, with the number of their type. *)
#[export] Instance text_protobuf : Protobuf (positive * text) := {|
  new_message t := (t, []);
  SerializeToString m := Some m.2;
  ParseFromString s m := (true, (m.1, s))
|}.

#[export] Instance text_protobuf_laws : ProtobufLaws (positive * text).
Proof.
  refine {| has_type t m := m.1 = t |}; [done|]. intros t [? ?] [? ?] s. simpl. by intros -> -> [= ->].
Defined.

Definition sample_fnmatch (p s : text) : bool :=
  match last p with
  | Some "*"%char => bool_decide (removelast p `prefix_of` s)
  | _ => bool_decide (p = s)
  end.

Lemma sample_fnmatch_star : fnmatch_star sample_fnmatch.
Proof. intros p s _. unfold sample_fnmatch. by rewrite last_snoc, removelast_last. Qed.

Lemma sample_carries : carries Some Some (λ _, True) (λ _, True).
Proof. split; [intros req _; by exists req|intros rsp _; by exists rsp]. Qed.

(** A service that remembers what it was sent, and gives it back. *)
Definition echo_method : MethodDescriptor := mkMethod (str "Echo") (str "Say") 1 2.

Definition echo : Service (list text) (positive * text) :=
  mkService (str "Echo") [echo_method] (λ _ req resp, modify (λ w, req.2 :: w) ;; mret (resp.1, req.2)).

Definition sample_channel : MprpcChannel (wire (list text)) := mkChannel false (mkWire true false [] None).

Lemma remote_call_failures_witness :
  let md := mkMethod (str "Echo") (str "Shout") 1 2 in
  ∃ c', CallMethod (H:=provider_network sample_fnmatch Some Some [echo]) md new_MprpcController
      (1%positive, str "hello") (2%positive, []) sample_channel
    = Ok (new_MprpcController, (2%positive, str "method not found"), c') ∧ world_of c' = [].
Proof.
  intros md. destruct (remote_call_failures sample_fnmatch Some Some (λ _, True) (λ _, True) [echo] md new_MprpcController
    (1%positive, str "hello") (2%positive, []) sample_channel sample_fnmatch_star sample_carries)
    as (_ & _ & _ & H & _); [by split; [repeat constructor|]|by split; [repeat constructor|]|done|done|].
  apply (H ltac:(by right) ltac:(by eexists) (mkServiceInfo echo (method_map [echo_method] ∅))); by vm_compute.
Defined.
