(* ===== verification/RpcWire.v ===== *)
(** * RpcWire: remote calls over the bytes of a connection

    The connection of [RpcProps] put together from its parts: the request
    is dumped, sent, cut into pieces, received and parsed, and so is the
    response.  It carries every call whose names and messages fit. *)

From S2P Require Import Prelude HttpProps.
From S2P Require Import HttpLink RpcProps Rpc.

(** ** A connection made of bytes *)

Section bytes.
Context (cast : text → option Z) (memory : Z) (buff_size least : nat).
(** How the bytes on the way are cut, and what each [send] accepts of so many bytes. *)
Context (pieces : text → list text) (windows : nat → list Z).
(** The memory that the parsers do not initialise. *)
Context (garbage : nat) (relaxed : bool) (garbage_status : Z).

Definition sender (n : nat) : Socket := mkSocket true [] 0 (windows n) [].

Definition request_over_bytes (req : HttpRequest) : option HttpRequest :=
  match sendRequest req (sender (length (dump req))) with
  | Ok (_, s) =>
      match recvRequest cast memory buff_size (new_HttpRequestParser garbage relaxed) (delivered pieces (sent s)) with
      | Ok (r, _) => r
      | Fail _ => None
      end
  | Fail _ => None
  end.

Definition response_over_bytes (rsp : HttpResponse) : option HttpResponse :=
  match sendResponse rsp (sender (length (rsp_dump rsp))) with
  | Ok (_, s) =>
      match recvResponse cast memory buff_size (new_HttpResponseParser garbage_status) (delivered pieces (sent s)) with
      | Ok (r, _) => r
      | Fail _ => None
      end
  | Fail _ => None
  end.

(** Messages that can be sent and whose heads fit the first piece and the buffer. *)
Definition fits_bytes (req : HttpRequest) : Prop :=
  transferable memory req ∧ (length (request_head req) <= Nat.min least buff_size)%nat.
Definition rsp_fits_bytes (rsp : HttpResponse) : Prop :=
  rsp_transferable memory rsp ∧ (length (response_head rsp) <= Nat.min least buff_size)%nat.

Context (Hcast : ∀ n, Z.of_nat n < 2 ^ 64 → cast (to_string n) = Some (Z.of_nat n)).
Context (Hcut : cutting pieces least) (Hwin : ∀ n, accepts n (windows n)).

Lemma bytes_carry : carries request_over_bytes response_over_bytes fits_bytes rsp_fits_bytes.
Proof.
  split.
  - intros req [Ht Hl]. destruct (writeFixSize_all (dump req) (sender (length (dump req))) eq_refl (Hwin _)) as (s & E & [_ Hs _ _]).
    destruct (request_delivered cast memory buff_size least pieces Hcast Hcut garbage relaxed req Ht Hl) as (r & s' & E' & Hr & _).
    exists r. unfold request_over_bytes, sendRequest. rewrite E, Hs. cbn [sender sent app]. rewrite E'. by destruct Hr.
  - intros rsp [Ht Hl]. destruct (writeFixSize_all (rsp_dump rsp) (sender (length (rsp_dump rsp))) eq_refl (Hwin _)) as (s & E & [_ Hs _ _]).
    destruct (response_delivered cast memory buff_size least pieces Hcast Hcut garbage_status rsp Ht Hl) as (r & s' & E' & Hr & _).
    exists r. unfold response_over_bytes, sendResponse. rewrite E, Hs. cbn [sender sent app]. rewrite E'. by destruct Hr.
Qed.
End bytes.

(** ** The messages of a call fit *)

Lemma to_string_go_length fuel n k acc : (n < 10 ^ S k)%nat → (length (to_string_go fuel n acc) <= S k + length acc)%nat.
Proof.
  revert n k acc. induction fuel as [|fuel IH]; intros n k acc Hn; cbn [to_string_go]; [lia|].
  destruct (Nat.ltb_spec n 10); [cbn [length]; lia|]. destruct k as [|k]; [simpl in Hn; lia|].
  specialize (IH (n / 10)%nat k (digit (n mod 10) :: acc)). cbn [length] in IH.
  assert (n / 10 < 10 ^ S k)%nat by (apply Nat.Div0.div_lt_upper_bound; by rewrite <- Nat.pow_succ_r'). lia.
Qed.

Lemma to_string_length n : Z.of_nat n < 2 ^ 31 → (length (to_string n) <= 10)%nat.
Proof.
  intros Hn. apply (to_string_go_length _ n 9 []). apply Nat2Z.inj_lt. rewrite Nat2Z.inj_pow.
  change (Z.of_nat 10 ^ Z.of_nat 10) with 10000000000. lia.
Qed.

Lemma plain_path w : Forall (λ c, plain_char c = true) w → uri_text path_char w = true.
Proof.
  intros Hw. assert (Hc : ∀ c, plain_char c = true → path_char c = true).
  { intros c. destruct c as [[] [] [] [] [] [] [] []]; vm_compute; by intros. }
  induction Hw as [|c w H _ IH]; [done|]. cbn [uri_text]. by rewrite (Hc c H).
Qed.

Lemma lines_length ls : length (lines_text ls) = foldr (λ l n, length l.1 + length l.2 + 4 + n)%nat 0%nat ls.
Proof.
  unfold lines_text. induction ls as [|l ls IH]; [done|]. rewrite bind_cons, length_app, IH. cbn [foldr].
  unfold header_line. rewrite !length_app. change (length (str ": ")) with 2%nat. change (length crlf) with 2%nat. lia.
Qed.

Lemma rpc_headers md body : m_headers (rpc_request md body) =
  [(str "Content-Length", to_string (length body)); (str "Content-Type", str "application/octet-stream")].
Proof. reflexivity. Qed.

Lemma rpc_request_sendable md body : identifier (md_service md) → identifier (md_name md) → sendable (rpc_request md body).
Proof.
  intros Hs Hm. split; [done|by right| |done|done|done|].
  - change (m_path (rpc_request md body)) with (rpc_path (md_service md) (md_name md)).
    pose proof (plain_path _ (rpc_path_plain _ _ Hs Hm)) as Hp. unfold rpc_path in *.
    change (uri_text path_char (str "rpc/" ++ md_service md ++ str "/" ++ md_name md) = true) in Hp.
    unfold path_ok. change (str "/rpc/" ++ ?x) with ("/"%char :: (str "rpc/" ++ x)). cbv iota beta. by rewrite Hp.
  - rewrite rpc_headers. change (filter _ _) with
      [(str "Content-Length", to_string (length body)); (str "Content-Type", str "application/octet-stream")].
    cbn [forallb]. unfold line_ok. cbn [fst snd].
    rewrite (digits_value_ok (to_string (length body))) by (by destruct (to_string_spec (length body)) as (_ & ? & _)). done.
Qed.

Lemma rpc_request_storable memory md body : Z.of_nat (length body) < 2 ^ 31 → Z.of_nat (length body) <= memory →
  storable memory (rpc_request md body).
Proof.
  intros Hb Hm. split; [| |exact Hb|exact Hm].
  - rewrite rpc_headers. repeat constructor.
  - intros Hbody. change (body = []) in Hbody. subst body. by vm_compute.
Qed.

Lemma rpc_request_head md body : Z.of_nat (length body) < 2 ^ 31 →
  (length (request_head (rpc_request md body)) <= length (md_service md) + length (md_name md) + 150)%nat.
Proof.
  intros Hb. pose proof (to_string_length _ Hb) as Hd. unfold request_head. fold (lines_text (request_lines (rpc_request md body))).
  rewrite !length_app, lines_length. unfold request_lines. rewrite rpc_headers.
  change (filter _ _) with [(str "Content-Length", to_string (length body)); (str "Content-Type", str "application/octet-stream")].
  change (m_body (rpc_request md body)) with body. change (m_close (rpc_request md body)) with false.
  unfold request_line, uri_of. change (m_path (rpc_request md body)) with (rpc_path (md_service md) (md_name md)).
  unfold rpc_path. rewrite !length_app. destruct (decide (body = [])); cbn [foldr app fst snd]; cbn -[to_string] in *;
    change (length (HttpMethodToString POST)) with 4%nat; change (length (query_text [])) with 0%nat;
    change (length (fragment_text [])) with 0%nat; change (length (version_text 17)) with 3%nat; lia.
Qed.

(** Responses whose head has only headers of the provider. *)
Lemma rpc_answer_fits memory d : m_status d ∈ [200; 404] → rsp_version d = 17 → rsp_websocket d = false → m_reason d = [] →
  rsp_cookies d = [] →
  rsp_headers d ∈ [rsp_headers rpc_answer; rsp_headers (rpc_success [])] →
  Z.of_nat (length (rsp_body d)) < 2 ^ 31 → Z.of_nat (length (rsp_body d)) <= memory →
  rsp_transferable memory d ∧ (length (response_head d) <= 200)%nat.
Proof.
  intros Hst Hv Hw Hre Hco Hh Hb Hm. pose proof (to_string_length _ Hb) as Hd.
  destruct d as [st ver cl ws body re hs co]. cbn [m_status rsp_version rsp_websocket rsp_body m_reason rsp_headers rsp_cookies] in *. subst ver ws re co.
  assert (Hst' : (st = 200 ∨ st = 404)) by (rewrite !elem_of_cons, elem_of_nil in Hst; tauto).
  assert (Hh' : hs = rsp_headers rpc_answer ∨ hs = rsp_headers (rpc_success [])) by (rewrite !elem_of_cons, elem_of_nil in Hh; tauto).
  split.
  - split; [split| | | |exact Hb|exact Hm]; cbn; [by right|lia| |done| |done|lia| |].
    + by destruct Hst' as [-> | ->].
    + by destruct Hh' as [-> | ->].
    + destruct Hh' as [-> | ->]; repeat constructor.
    + intros _. by destruct Hh' as [-> | ->].
  - assert (Hl : (length (lines_text (filter (λ l, is_connection l = false) hs)) <= 80)%nat).
    { destruct Hh' as [-> | ->]; apply Nat.leb_le; by vm_compute. }
    assert (Hs : (length (status_line (mkResponse st 17 cl false body [] hs [])) <= 30)%nat).
    { destruct Hst' as [-> | ->]; apply Nat.leb_le; by vm_compute. }
    unfold response_head. set (w := status_line _) in *. unfold response_lines, first_lines, last_line.
    cbn [rsp_headers rsp_cookies rsp_body rsp_close map app]. unfold lines_text in *.
    rewrite !bind_app, !length_app, bind_singleton. change (length crlf) with 2%nat.
    assert (Hc : (length (header_line (connection_line cl).1 (connection_line cl).2) <= 30)%nat)
      by (destruct cl; apply Nat.leb_le; by vm_compute).
    assert (Hlen : (length (header_line (length_line body).1 (length_line body).2) <= 30)%nat).
    { unfold length_line, header_line. cbn [fst snd]. rewrite !length_app. change (length crlf) with 2%nat.
      change (length (str "content-length")) with 14%nat. change (length (str ": ")) with 2%nat. lia. }
    destruct (decide (body = [])); rewrite ?bind_singleton;
      try change (length (mbind _ [])) with 0%nat; lia.
Qed.

(** ** The claim *)

Section calls.
Context {W Msg : Type} `{ProtobufLaws Msg} (fnmatch : text → text → bool).
Context (cast : text → option Z) (memory : Z) (buff_size least : nat) (pieces : text → list text) (windows : nat → list Z).
Context (garbage : nat) (relaxed : bool) (garbage_status : Z).
Context (Hf : fnmatch_star fnmatch) (Hcast : ∀ n, Z.of_nat n < 2 ^ 64 → cast (to_string n) = Some (Z.of_nat n)).
Context (Hcut : cutting pieces least) (Hwin : ∀ n, accepts n (windows n)).
Implicit Types svs : list (Service W Msg).

(** The provider at the other end of the bytes. *)
Definition bytes_network svs : Network (wire W) :=
  provider_network fnmatch (request_over_bytes cast memory buff_size pieces windows garbage relaxed)
    (response_over_bytes cast memory buff_size pieces windows garbage_status) svs.

(** A message that is not too long for the receiver. *)
Definition short (body : text) : Prop := Z.of_nat (length body) < 2 ^ 31 ∧ Z.of_nat (length body) <= memory.

Lemma rpc_request_fits md body : identifier (md_service md) → identifier (md_name md) → short body →
  (length (md_service md) + length (md_name md) + 150 <= Nat.min least buff_size)%nat →
  fits_bytes memory buff_size least (rpc_request md body).
Proof.
  intros Hs Hm [Hb Hmem] Hlen. split; [split; [by apply rpc_request_sendable|by apply rpc_request_storable]|].
  pose proof (rpc_request_head md body Hb). lia.
Qed.

(** (C16) A remote call is the local call, down to the bytes.  Take services with
    different names, registered in turn, and a method of one of them whose
    names are identifiers.  Let the channel be connected or able to connect,
    the kernel accept and cut the bytes as it likes as long as a head arrives
    at once, the names and messages be no longer than the buffers allow.
    Then calling the method through the channel -- serialised, dumped, sent,
    received, parsed by the automaton, dispatched, answered, and all the way
    back -- changes the world of the server exactly as calling the service
    there does, gives exactly its response, leaves the controller alone and
    the channel connected. *)
Theorem remote_call_over_bytes svs sv md (ctl : MprpcController) (req resp0 r : Msg) c (req_str rs : text) (s' : W)
  (Hns : NoDup (sd_name <$> svs)) (Hsv : sv ∈ svs) (Hnm : NoDup (md_name <$> sd_methods sv)) (Hmd : md ∈ sd_methods sv)
  (Hsd : md_service md = sd_name sv) (Hid : identifier (sd_name sv)) (Hid' : identifier (md_name md))
  (Hreq : has_type (input_type md) req) (Hser : SerializeToString req = Some req_str)
  (Hcall : sd_CallMethod sv md req (new_message (output_type md)) (world_of c) = Ok (r, s'))
  (Hr : has_type (output_type md) r) (Hrs : SerializeToString r = Some rs) (Hresp : has_type (output_type md) resp0)
  (Hshort : short req_str) (Hshort' : short rs)
  (Hnames : (length (sd_name sv) + length (md_name md) + 150 <= Nat.min least buff_size)%nat)
  (Hbuf : (200 <= Nat.min least buff_size)%nat) (Hc : can_connect c) :
  ∃ c', CallMethod (H:=bytes_network svs) md ctl req resp0 c = Ok (ctl, r, c') ∧
    world_of c' = s' ∧ m_isConnected c' = true.
Proof.
  apply (remote_call_run fnmatch _ _ (fits_bytes memory buff_size least) (rsp_fits_bytes memory buff_size least))
    with (sv := sv) (req_str := req_str) (rs := rs); try done.
  - by apply bytes_carry.
  - apply rpc_request_fits; [by rewrite Hsd|done|done|by rewrite Hsd].
  - destruct Hshort' as [Hb Hm]. destruct (rpc_answer_fits memory (rpc_success rs)) as [Ht Hl];
      [by left|done|done|done|done|by right; left|exact Hb|exact Hm|]. split; [exact Ht|lia].
Qed.
End calls.

(** ** Witnesses *)

Definition whole_windows (n : nat) : list Z := [Z.of_nat n + 1].

Lemma whole_windows_accept n : accepts n (whole_windows n).
Proof. split; [repeat constructor; lia|cbn; lia]. Qed.

Definition huge_pieces (w : text) : list text := cut_every 400 (S (length w)) w.

Lemma huge_pieces_cutting : cutting huge_pieces 400.
Proof.
  split; intros w; [|..|intros p l]; destruct (cut_every_cutting 400 (S (length w)) ltac:(lia) w ltac:(lia)) as (H1 & H2 & H3);
    [exact H1|exact H2|]. exact (H3 p l).
Qed.

Lemma remote_call_over_bytes_witness :
  ∃ c', CallMethod (H:=bytes_network sample_fnmatch decimal 1000 4096 huge_pieces whole_windows 7 false 9 [echo]) echo_method
      new_MprpcController (1%positive, str "hello") (2%positive, []) sample_channel
    = Ok (new_MprpcController, (2%positive, str "hello"), c') ∧ world_of c' = [str "hello"] ∧ m_isConnected c' = true.
Proof.
  apply (remote_call_over_bytes sample_fnmatch decimal 1000 4096 400 huge_pieces whole_windows 7 false 9
    sample_fnmatch_star (λ n _, decimal_to_string n) huge_pieces_cutting whole_windows_accept [echo] echo echo_method)
    with (req_str := str "hello") (rs := str "hello").
  - apply NoDup_singleton.
  - by left.
  - apply NoDup_singleton.
  - by left.
  - done.
  - by split; [repeat constructor|].
  - by split; [repeat constructor|].
  - done.
  - done.
  - done.
  - done.
  - done.
  - done.
  - split; by vm_compute.
  - split; by vm_compute.
  - apply Nat.leb_le; by vm_compute.
  - apply Nat.leb_le; by vm_compute.
  - by right.
Defined.
