(* ===== verification/Fiber.v ===== *)
(** * Fiber: stackful coroutines ([sylar/fiber.cc], [fiber.h])

    The fibers live in a heap and are shared by pointers.  What a fiber's
    function computes is not modelled, only how control comes back from it to
    the thread that resumed it ([outcome]).  [ended] stands for the saved
    context: it tells that the function [Fiber::run] of this fiber is past its
    last [yield].  The switch itself is the assembly of libco.

    The theorem at the end is the life cycle of a fiber, branch by branch. *)

From S2P Require Import Prelude.

Inductive State := INIT | HOLD | EXEC | TERM | READY | EXCEPT.

#[export] Instance State_eq_dec : EqDecision State.
Proof. solve_decision. Defined.

(** A function is a number. *)
Record Fiber := mkFiber {
  m_state : State;
  use_caller : bool;
  fiber_cb : option Z;
  m_stack : bool;
  ended : bool
}.

Abbreviation heap := (gmap positive Fiber).
Abbreviation MF A := (M heap A).
Implicit Types h : heap.

Definition get_fiber (f : positive) : MF Fiber :=
  h ← gets id;
  match h !! f with Some fb => mret fb | None => fail BadPointer end.

Definition put_fiber (f : positive) (fb : Fiber) : MF unit := modify (λ h, <[f := fb]> h).

Definition set_state (f : positive) (st : State) : MF unit :=
  fb ← get_fiber f;
  put_fiber f (mkFiber st (use_caller fb) (fiber_cb fb) (m_stack fb) (ended fb)).

Definition getState (f : positive) : MF State :=
  fb ← get_fiber f; mret (m_state fb).

(** [Fiber(cb, stacksize, use_caller)] *)
Definition new_Fiber (cb : Z) (use_caller : bool) : Fiber := mkFiber INIT use_caller (Some cb) true false.

(** [Fiber()]: the first fiber of a thread. *)
Definition main_Fiber : Fiber := mkFiber EXEC false None false false.

Definition resettable (st : State) : bool :=
  bool_decide (st = TERM) || bool_decide (st = EXCEPT) || bool_decide (st = INIT).

Definition Fiber_reset (f : positive) (cb : option Z) : MF unit :=
  fb ← get_fiber f;
  assert_that (m_stack fb) ;;
  assert_that (resettable (m_state fb)) ;;
  put_fiber f (mkFiber INIT (use_caller fb) cb (m_stack fb) false).

(** The switch continues the fiber; one that is past its end runs into the
    assertion after the last [yield] of [Fiber::run]. *)
Definition resume (f : positive) : MF unit :=
  fb ← get_fiber f;
  assert_that (negb (bool_decide (m_state fb = EXEC))) ;;
  set_state f EXEC ;;
  assert_that (negb (ended fb)).

Definition yield (f : positive) : MF unit :=
  fb ← get_fiber f;
  if use_caller fb then mret tt
  else if decide (m_state fb = TERM) then mret tt else set_state f READY.

(** How the function of a fiber gives control back. *)
Inductive outcome := Suspends | Returns | Throws.

(** [Fiber::run] from the point where it was resumed to the next [yield]. *)
Definition Fiber_run (f : positive) (o : outcome) : MF unit :=
  match o with
  | Suspends => yield f
  | Returns =>
      fb ← get_fiber f;
      put_fiber f (mkFiber TERM (use_caller fb) None (m_stack fb) true) ;;
      yield f
  | Throws =>
      fb ← get_fiber f;
      put_fiber f (mkFiber EXCEPT (use_caller fb) (fiber_cb fb) (m_stack fb) true) ;;
      yield f
  end.

(** [~Fiber()] *)
Definition delete_Fiber (f : positive) : MF unit :=
  fb ← get_fiber f;
  (if m_stack fb then assert_that (resettable (m_state fb))
   else
     assert_that (negb (bool_decide (is_Some (fiber_cb fb)))) ;;
     assert_that (bool_decide (m_state fb = EXEC))) ;;
  modify (delete f).

(** ** Computation on a known fiber *)

Lemma get_fiber_Ok h f fb : h !! f = Some fb → get_fiber f h = Ok (fb, h).
Proof. intros E. unfold get_fiber, mbind, M_bind, gets, id. by rewrite E. Qed.

Lemma getState_Ok h f fb : h !! f = Some fb → getState f h = Ok (m_state fb, h).
Proof. intros E. unfold getState, mbind, M_bind. by rewrite (get_fiber_Ok _ _ _ E). Qed.

Lemma set_state_Ok h f st fb :
  h !! f = Some fb →
  set_state f st h = Ok (tt, <[f := mkFiber st (use_caller fb) (fiber_cb fb) (m_stack fb) (ended fb)]> h).
Proof. intros E. unfold set_state, mbind, M_bind. by rewrite (get_fiber_Ok _ _ _ E). Qed.

Lemma resume_Ok h f fb :
  h !! f = Some fb → m_state fb ≠ EXEC → ended fb = false →
  resume f h = Ok (tt, <[f := mkFiber EXEC (use_caller fb) (fiber_cb fb) (m_stack fb) false]> h).
Proof.
  intros E Hx He. unfold resume, mbind, M_bind. rewrite (get_fiber_Ok _ _ _ E).
  rewrite bool_decide_eq_false_2 by done. simpl. unfold mret, M_ret.
  rewrite (set_state_Ok _ _ _ _ E), He. done.
Qed.

Lemma Fiber_reset_Ok h f fb cb :
  h !! f = Some fb → m_stack fb = true → resettable (m_state fb) = true →
  Fiber_reset f cb h = Ok (tt, <[f := mkFiber INIT (use_caller fb) cb true false]> h).
Proof.
  intros E Hs Hr. unfold Fiber_reset, mbind, M_bind. rewrite (get_fiber_Ok _ _ _ E), Hs, Hr. done.
Qed.

(** The state in which a fiber comes back to the thread that resumed it. *)
Definition returned_state (use_caller : bool) (o : outcome) : State :=
  match o, use_caller with
  | Suspends, true => EXEC
  | Returns, _ => TERM
  | Throws, true => EXCEPT
  | _, false => READY
  end.

Definition has_ended (o : outcome) : bool := match o with Suspends => false | _ => true end.

Lemma Fiber_run_Ok h f fb o :
  h !! f = Some fb → m_state fb = EXEC → ended fb = false →
  Fiber_run f o h = Ok (tt, <[f := mkFiber (returned_state (use_caller fb) o) (use_caller fb)
    (match o with Returns => None | _ => fiber_cb fb end) (m_stack fb) (has_ended o)]> h).
Proof.
  intros E Hx He. unfold Fiber_run, yield, mbind, M_bind.
  destruct fb as [st [] cb stk en]; simpl in *; subst; destruct o; simpl;
    rewrite ?(get_fiber_Ok _ _ _ E); unfold put_fiber, modify; simpl;
    rewrite ?(get_fiber_Ok _ f _ (lookup_insert_eq _ _ _)); simpl; rewrite ?insert_insert_eq; try done.
  - by rewrite insert_id.
  - by rewrite (set_state_Ok _ _ _ _ E).
  - by rewrite (set_state_Ok _ _ _ _ (lookup_insert_eq _ _ _)), insert_insert_eq.
Qed.

(** The life cycle of a fiber.  A new one can be resumed once and is then
    executing; resuming an executing fiber stops the process.  When control
    comes back it is terminated after a normal end, and after a suspension it
    is still marked executing if it belongs to the scheduler ([use_caller]) and
    ready otherwise, and can be resumed again (once the scheduler has put the
    first kind on hold).  A function that throws leaves the state EXCEPT only
    for the first kind: for the other, [yield] overwrites it with READY, and
    the next resume runs past the end of the fiber and stops the process.  A
    fiber that ended in TERM or EXCEPT can be reset and lives again. *)
Theorem fiber_life_cycle h f (cb cb' : Z) (uc : bool) (o : outcome) (Hf : h !! f = Some (new_Fiber cb uc)) :
  ∃ h1 h2, resume f h = Ok (tt, h1) ∧ resume f h1 = Fail AssertFailed ∧
    Fiber_run f o h1 = Ok (tt, h2) ∧ getState f h2 = Ok (returned_state uc o, h2) ∧
    match o, uc with
    | Suspends, true => resume f h2 = Fail AssertFailed ∧
        resume f (<[f := mkFiber HOLD uc (Some cb) true false]> h2) = Ok (tt, h1)
    | Suspends, false => resume f h2 = Ok (tt, h1)
    | Throws, false => resume f h2 = Fail AssertFailed ∧ Fiber_reset f (Some cb') h2 = Fail AssertFailed
    | _, _ => resume f h2 = Fail AssertFailed ∧
        Fiber_reset f (Some cb') h2 = Ok (tt, <[f := new_Fiber cb' uc]> h)
    end.
Proof.
  pose proof (resume_Ok _ _ _ Hf) as E1. simpl in E1. specialize (E1 ltac:(done) eq_refl).
  eexists _, _. split; [exact E1|]. split.
  { unfold resume, mbind, M_bind. by rewrite (get_fiber_Ok _ f _ (lookup_insert_eq _ _ _)). }
  split; [apply Fiber_run_Ok; [apply lookup_insert_eq|done|done]|].
  split; [by rewrite (getState_Ok _ f _ (lookup_insert_eq _ _ _))|].
  rewrite insert_insert_eq. simpl.
  destruct o, uc; simpl; unfold resume, Fiber_reset, mbind, M_bind;
    rewrite ?(get_fiber_Ok _ f _ (lookup_insert_eq _ _ _)); simpl; unfold mret, M_ret;
    rewrite ?(set_state_Ok _ f _ _ (lookup_insert_eq _ _ _)), ?insert_insert_eq; try done.
  all: split; [done|]; unfold put_fiber, modify; by rewrite insert_insert_eq.
Qed.

Lemma fiber_life_cycle_witness :
  ∃ h1 h2, resume 1 {[1%positive := new_Fiber 7 false]} = Ok (tt, h1) ∧
    Fiber_run 1 Throws h1 = Ok (tt, h2) ∧ resume 1 h2 = Fail AssertFailed.
Proof.
  destruct (fiber_life_cycle {[1%positive := new_Fiber 7 false]} 1 7 8 false Throws (lookup_singleton_eq _ _))
    as (h1 & h2 & E1 & _ & E2 & _ & E3 & _).
  exists h1, h2. split; [exact E1|split; [exact E2|exact E3]].
Defined.
