(* ===== verification/Scheduler.v ===== *)
(** * Scheduler: the fiber scheduler ([sylar/scheduler.cc], [scheduler.h])

    A [World] is one scheduler, the heap of fibers and the threads that execute
    [Scheduler::run], each with its program counter and its local variables.
    [run_step i] is the next step of thread [i]; a step is one critical section
    or one access to an atomic, so the threads interleave between steps.  What
    the functions of the fibers do is an argument of the steps ([event]): they
    may schedule anything, and give control back in one of the ways of
    [outcome].

    [tickle] is virtual and only prints here; its calls are counted. *)

From S2P Require Import Prelude Fiber.

(** The template argument of [schedule]. *)
Inductive FiberOrCb := AFiber (f : positive) | ACb (cb : Z).

Record FiberAndThread := mkTask {
  ft_fiber : option positive;
  ft_cb : option Z;
  ft_thread : Z
}.

(** The constructors of [FiberAndThread], and [reset()]. *)
Definition new_task (fc : FiberOrCb) (thr : Z) : FiberAndThread :=
  match fc with
  | AFiber f => mkTask (Some f) None thr
  | ACb cb => mkTask None (Some cb) thr
  end.

Definition no_task : FiberAndThread := mkTask None None (-1).

Record Scheduler := mkScheduler {
  m_fibers : list FiberAndThread;
  m_activeThreadCount : Z;
  m_idleThreadCount : Z;
  m_stopping : bool;
  m_autoStop : bool;
  m_threadCount : nat;
  m_rootThread : Z;
  m_rootFiber : option positive;
  m_threadIds : list Z;
  tickled : nat
}.

(** Where a thread is in [run]: at the search; holding what the search found
    ([is_active] tells whether it is a task);
    inside [resume] of a task's fiber ([true]: of its own [cb_fiber]); back from
    it; past the decrement of the active count; inside the idle fiber; back from
    it; past the loop. *)
Inductive pc :=
  | Searching
  | Selected (found : option FiberAndThread)
  | Running (f : positive) (is_cb : bool)
  | Returned (f : positive) (is_cb : bool)
  | Settling (f : positive) (is_cb : bool)
  | Idling
  | IdleReturned
  | Exited.

Record Thread := mkThread {
  th_id : Z;
  th_pc : pc;
  cb_fiber : option positive;
  idle_fiber : positive
}.

Record World := mkWorld {
  sched : Scheduler;
  fibers : heap;
  threads : list Thread
}.

Abbreviation MW A := (M World A).
Implicit Types w : World.

Definition set_sched (s : Scheduler) w : World := mkWorld s (fibers w) (threads w).
Definition set_threads (l : list Thread) w : World := mkWorld (sched w) (fibers w) l.

Definition set_fibers (l : list FiberAndThread) (s : Scheduler) : Scheduler :=
  mkScheduler l (m_activeThreadCount s) (m_idleThreadCount s) (m_stopping s) (m_autoStop s)
    (m_threadCount s) (m_rootThread s) (m_rootFiber s) (m_threadIds s) (tickled s).
Definition add_active (n : Z) (s : Scheduler) : Scheduler :=
  mkScheduler (m_fibers s) (m_activeThreadCount s + n) (m_idleThreadCount s) (m_stopping s)
    (m_autoStop s) (m_threadCount s) (m_rootThread s) (m_rootFiber s) (m_threadIds s) (tickled s).
Definition add_idle (n : Z) (s : Scheduler) : Scheduler :=
  mkScheduler (m_fibers s) (m_activeThreadCount s) (m_idleThreadCount s + n) (m_stopping s)
    (m_autoStop s) (m_threadCount s) (m_rootThread s) (m_rootFiber s) (m_threadIds s) (tickled s).
Definition set_stop (autoStop stopping : bool) (s : Scheduler) : Scheduler :=
  mkScheduler (m_fibers s) (m_activeThreadCount s) (m_idleThreadCount s) stopping autoStop
    (m_threadCount s) (m_rootThread s) (m_rootFiber s) (m_threadIds s) (tickled s).
Definition set_threadIds (l : list Z) (s : Scheduler) : Scheduler :=
  mkScheduler (m_fibers s) (m_activeThreadCount s) (m_idleThreadCount s) (m_stopping s)
    (m_autoStop s) (m_threadCount s) (m_rootThread s) (m_rootFiber s) l (tickled s).
Definition add_tickle (s : Scheduler) : Scheduler :=
  mkScheduler (m_fibers s) (m_activeThreadCount s) (m_idleThreadCount s) (m_stopping s)
    (m_autoStop s) (m_threadCount s) (m_rootThread s) (m_rootFiber s) (m_threadIds s) (S (tickled s)).

(** A change of the scheduler, and an operation on the heap, as steps of the world. *)
Definition on_sched (f : Scheduler → Scheduler) : MW unit := modify (λ w, set_sched (f (sched w)) w).

Definition on_heap {A} (m : MF A) : MW A := λ w,
  match m (fibers w) with
  | Ok (a, h) => Ok (a, mkWorld (sched w) h (threads w))
  | Fail f => Fail f
  end.

Definition get_thread (i : nat) : MW Thread :=
  w ← gets id;
  match threads w !! i with Some th => mret th | None => fail BadIndex end.

Definition set_thread (i : nat) (th : Thread) : MW unit :=
  modify (λ w, set_threads (<[i := th]> (threads w)) w).

Definition set_pc (i : nat) (p : pc) : MW unit :=
  th ← get_thread i;
  set_thread i (mkThread (th_id th) p (cb_fiber th) (idle_fiber th)).

Definition set_cb_fiber (i : nat) (c : option positive) : MW unit :=
  th ← get_thread i;
  set_thread i (mkThread (th_id th) (th_pc th) c (idle_fiber th)).

(** ** Scheduling *)

Definition tickle : MW unit := on_sched add_tickle.

Definition scheduleNoLock (fc : FiberOrCb) (thread : Z) : MW bool :=
  w ← gets id;
  let need_tickle := bool_decide (m_fibers (sched w) = []) in
  let ft := new_task fc thread in
  (if bool_decide (is_Some (ft_fiber ft)) || bool_decide (is_Some (ft_cb ft)) then
     on_sched (λ s, set_fibers (m_fibers s ++ [ft]) s)
   else mret tt) ;;
  mret need_tickle.

Definition schedule (fc : FiberOrCb) (thread : Z) : MW unit :=
  need_tickle ← scheduleNoLock fc thread;
  if need_tickle : bool then tickle else mret tt.

(** [schedule(begin, end)] *)
Fixpoint schedule_loop (fcs : list FiberOrCb) (need_tickle : bool) : MW bool :=
  match fcs with
  | [] => mret need_tickle
  | fc :: fcs' => b ← scheduleNoLock fc (-1); schedule_loop fcs' (b || need_tickle)
  end.

Definition schedule_all (fcs : list FiberOrCb) : MW unit :=
  need_tickle ← schedule_loop fcs false;
  if need_tickle : bool then tickle else mret tt.

Definition stopping : MW bool :=
  gets (λ w, m_autoStop (sched w) && m_stopping (sched w)
    && bool_decide (m_fibers (sched w) = []) && (m_activeThreadCount (sched w) =? 0)).

(** ** The steps of [run] *)

(** The search for a task under the lock: the tickle flag, the task found and
    the rest of the queue. *)
Fixpoint search_loop (thread_id : Z) (l : list FiberAndThread)
    : MW (bool * option FiberAndThread * list FiberAndThread) :=
  match l with
  | [] => mret (false, None, [])
  | it :: l' =>
      if negb (ft_thread it =? -1) && negb (ft_thread it =? thread_id) then
        r ← search_loop thread_id l';
        let '(_, ft, rest) := r : bool * option FiberAndThread * list FiberAndThread in
        mret (true, ft, it :: rest)
      else
        assert_that (bool_decide (is_Some (ft_fiber it)) || bool_decide (is_Some (ft_cb it))) ;;
        executing ← match ft_fiber it with
                    | Some f => st ← on_heap (getState f); mret (bool_decide (st = EXEC))
                    | None => mret false
                    end;
        if executing : bool then
          r ← search_loop thread_id l';
          let '(tickle_me, ft, rest) := r : bool * option FiberAndThread * list FiberAndThread in
          mret (tickle_me, ft, it :: rest)
        else mret (negb (bool_decide (l' = [])), Some it, l')
  end.

(** The critical section of [run] and the tickle after it. *)
Definition run_search (i : nat) : MW unit :=
  th ← get_thread i;
  w ← gets id;
  r ← search_loop (th_id th) (m_fibers (sched w));
  let '(tickle_me, ft, rest) := r : bool * option FiberAndThread * list FiberAndThread in
  match ft with
  | Some ft =>
      on_sched (set_fibers rest) ;;
      on_sched (add_active 1) ;;
      set_pc i (Selected (Some ft))
  | None => set_pc i (Selected None)
  end ;;
  if tickle_me : bool then tickle else mret tt.

(** What a step lets an observer see: a task starts to run on a thread, or
    a task is dropped because its fiber had ended. *)
Inductive obs := Scheduled (ft : FiberAndThread) | Ran (thread : Z) (ft : FiberAndThread)
  | Dropped (ft : FiberAndThread).

(** [new Fiber(cb, 0, true)] *)
Definition alloc_fiber (fb : Fiber) : MW positive :=
  w ← gets id;
  let f := fresh (dom (fibers w)) in
  modify (λ w, mkWorld (sched w) (<[f := fb]> (fibers w)) (threads w)) ;;
  mret f.

(** The three branches after the search, up to the switch. *)
Definition run_dispatch (i : nat) (found : option FiberAndThread) : MW (list obs) :=
  let ft := default no_task found in
  let is_active := bool_decide (is_Some found) in
  th ← get_thread i;
  runnable ← match ft_fiber ft with
             | Some f => st ← on_heap (getState f);
                 mret (negb (bool_decide (st = TERM)) && negb (bool_decide (st = EXCEPT)))
             | None => mret false
             end;
  match ft_fiber ft, runnable : bool with
  | Some f, true =>
      on_heap (resume f) ;; set_pc i (Running f false) ;; mret [Ran (th_id th) ft]
  | _, _ =>
      match ft_cb ft with
      | Some cb =>
          f ← match cb_fiber th with
              | Some f => on_heap (Fiber_reset f (Some cb)) ;; mret f
              | None => f ← alloc_fiber (new_Fiber cb true); set_cb_fiber i (Some f) ;; mret f
              end;
          on_heap (resume f) ;; set_pc i (Running f true) ;; mret [Ran (th_id th) ft]
      | None =>
          if is_active then
            on_sched (add_active (-1)) ;; set_pc i Searching ;; mret [Dropped ft]
          else
            st ← on_heap (getState (idle_fiber th));
            if decide (st = TERM) then set_pc i Exited ;; mret []
            else
              on_sched (add_idle 1) ;; on_heap (resume (idle_fiber th)) ;; set_pc i Idling ;; mret []
      end
  end.

(** [--m_activeThreadCount] after the resume. *)
Definition run_returned (i : nat) (f : positive) (is_cb : bool) : MW unit :=
  on_sched (add_active (-1)) ;; set_pc i (Settling f is_cb).

(** What becomes of the fiber that gave control back. *)
Definition run_settle (i : nat) (f : positive) (is_cb : bool) : MW (list obs) :=
  st ← on_heap (getState f);
  o ← (if decide (st = READY) then
         schedule (AFiber f) (-1) ;;
         (if is_cb then set_cb_fiber i None else mret tt) ;;
         mret [Scheduled (new_task (AFiber f) (-1))]
       else if decide (st = TERM) then
         (if is_cb then on_heap (Fiber_reset f None) else mret tt) ;; mret []
       else if decide (st = EXCEPT) then
         (if is_cb then on_heap (Fiber_reset f None) else mret tt) ;; mret []
       else
         on_heap (set_state f HOLD) ;;
         (if is_cb then set_cb_fiber i None else mret tt) ;; mret []);
  set_pc i Searching ;; mret o.

(** One turn of [Scheduler::idle]: it ends, or yields. *)
Definition idle_turn (i : nat) : MW unit :=
  th ← get_thread i;
  b ← stopping;
  on_heap (Fiber_run (idle_fiber th) (if b : bool then Returns else Suspends)) ;;
  set_pc i IdleReturned.

Definition run_idle_returned (i : nat) : MW unit :=
  th ← get_thread i;
  on_sched (add_idle (-1)) ;;
  st ← on_heap (getState (idle_fiber th));
  (if negb (bool_decide (st = TERM)) && negb (bool_decide (st = EXCEPT)) then
     on_heap (set_state (idle_fiber th) HOLD)
   else mret tt) ;;
  set_pc i Searching.

(** The next step of thread [i].  Inside [Running] the thread executes the
    function of a fiber, which is up to the events below. *)
Definition run_step (i : nat) : MW (list obs) :=
  th ← get_thread i;
  match th_pc th with
  | Searching => run_search i ;; mret []
  | Selected found => run_dispatch i found
  | Running _ _ => fail BadIndex
  | Returned f is_cb => run_returned i f is_cb ;; mret []
  | Settling f is_cb => run_settle i f is_cb
  | Idling => idle_turn i ;; mret []
  | IdleReturned => run_idle_returned i ;; mret []
  | Exited => fail BadIndex
  end.

(** The function of the fiber on thread [i] gives control back. *)
Definition body_end (i : nat) (o : outcome) : MW unit :=
  th ← get_thread i;
  match th_pc th with
  | Running f is_cb => on_heap (Fiber_run f o) ;; set_pc i (Returned f is_cb)
  | _ => fail BadIndex
  end.

Definition schedule_event (fc : FiberOrCb) (thread : Z) : MW (list obs) :=
  schedule fc thread ;; mret [Scheduled (new_task fc thread)].

(** ** Start and stop *)

(** [Scheduler(threads, use_caller, name)] on the thread [tid]; [root] is the
    address of the fiber of [run] for the caller. *)
Definition new_Scheduler (threads : nat) (use_caller : bool) (tid : Z) (root : positive) : result Scheduler :=
  if (0 <? threads)%nat then
    Ok (if use_caller
        then mkScheduler [] 0 0 true false (threads - 1) tid (Some root) [tid] 0
        else mkScheduler [] 0 0 true false threads (-1) None [] 0)
  else Fail AssertFailed.

(** A thread that enters [run], and the fiber it makes for [idle]. *)
Definition enter_run (tid : Z) (idle_cb : Z) : MW unit :=
  f ← alloc_fiber (new_Fiber idle_cb true);
  modify (λ w, set_threads (threads w ++ [mkThread tid Searching None f]) w).

(** [start()], the new threads having the identifiers [ids]. *)
Definition start (ids : list Z) (idle_cb : Z) : MW unit :=
  w ← gets id;
  if negb (m_stopping (sched w)) then mret tt
  else
    on_sched (λ s, set_stop (m_autoStop s) false s) ;;
    for_each (take (m_threadCount (sched w)) ids) (λ tid,
      enter_run tid idle_cb ;; on_sched (λ s, set_threadIds (m_threadIds s ++ [tid]) s)).

(** [stop()] up to the point where it resumes the root fiber or waits for the
    threads; [same] tells whether [GetThis() == this].  The result is [true]
    when it returns early. *)
Definition stop_begin (same : bool) : MW bool :=
  on_sched (λ s, set_stop true (m_stopping s) s) ;;
  w ← gets id;
  root_ready ← match m_rootFiber (sched w) with
               | Some r => st ← on_heap (getState r);
                   mret ((m_threadCount (sched w) =? 0)%nat
                         && (bool_decide (st = TERM) || bool_decide (st = INIT)))
               | None => mret false
               end;
  early ← (if root_ready : bool then on_sched (λ s, set_stop (m_autoStop s) true s) ;; stopping
           else mret false);
  if early : bool then mret true
  else
    (if negb (m_rootThread (sched w) =? -1) then assert_that same else assert_that (negb same)) ;;
    on_sched (λ s, set_stop (m_autoStop s) true s) ;;
    for_each (seq 0 (m_threadCount (sched w))) (λ _, tickle) ;;
    match m_rootFiber (sched w) with Some _ => tickle | None => mret tt end ;;
    mret false.

(** The rest of [stop()] on the thread [tid] of the caller: the root fiber
    enters [run]. *)
Definition stop_root (tid : Z) (idle_cb : Z) : MW unit :=
  w ← gets id;
  match m_rootFiber (sched w) with
  | Some r =>
      b ← stopping;
      if b : bool then mret tt else on_heap (resume r) ;; enter_run tid idle_cb
  | None => mret tt
  end.

(** [stop()] returns: every thread has been joined. *)
Definition joined w : bool := forallb (λ th, match th_pc th with Exited => true | _ => false end) (threads w).

(** [switchTo(thread)] of the fiber on thread [i], up to its [yield]. *)
Definition switchTo (i : nat) (thread : Z) : MW (list obs) :=
  th ← get_thread i;
  match th_pc th with
  | Running f _ =>
      if (thread =? -1) || (thread =? th_id th) then mret []
      else schedule (AFiber f) thread ;; body_end i Suspends ;; mret [Scheduled (new_task (AFiber f) thread)]
  | _ => fail BadIndex
  end.

(** ** Executions *)

Inductive event :=
  | RunStep (i : nat)
  | BodySchedule (i : nat) (fc : FiberOrCb) (thread : Z)
  | BodyEnd (i : nat) (o : outcome)
  | External (fc : FiberOrCb) (thread : Z)
  | StopBegin (same : bool)
  | StopRoot (tid : Z) (idle_cb : Z).

Definition exec (e : event) : MW (list obs) :=
  match e with
  | RunStep i => run_step i
  | BodySchedule i fc thread =>
      th ← get_thread i;
      match th_pc th with Running _ _ => schedule_event fc thread | _ => fail BadIndex end
  | BodyEnd i o => body_end i o ;; mret []
  | External fc thread => schedule_event fc thread
  | StopBegin same => stop_begin same ;; mret []
  | StopRoot tid idle_cb => stop_root tid idle_cb ;; mret []
  end.

(** Executions with what they let see, in order. *)
Inductive steps : World → list obs → World → Prop :=
  | steps_refl w : steps w [] w
  | steps_next w tr w1 e o w2 : steps w tr w1 → exec e w1 = Ok (o, w2) → steps w (tr ++ o) w2.
