(* ===== verification/SchedulerFacts.v ===== *)
(** * SchedulerFacts: rules and accounts of the scheduler

    Rules of [wp] for the operations of the world, what the search of a thread
    finds, and the accounts of a step: tasks are moved, never lost or copied,
    and the counters of active and idle threads count threads. *)

From S2P Require Import Prelude Fiber Scheduler.

Implicit Types w : World.

(** ** Rules *)

Lemma wp_on_heap {A} (m : MF A) (Q : A → World → Prop) w :
  (∀ a h, m (fibers w) = Ok (a, h) → Q a (mkWorld (sched w) h (threads w))) → wp (on_heap m) Q w.
Proof.
  intros HQ a w'. unfold on_heap. destruct (m (fibers w)) as [[b h]|]; intros [= <- <-]. by apply HQ.
Qed.

Lemma on_heap_Ok {A} (m : MF A) a h w :
  m (fibers w) = Ok (a, h) → on_heap m w = Ok (a, mkWorld (sched w) h (threads w)).
Proof. unfold on_heap. by intros ->. Qed.

Lemma on_heap_getState f fb w : fibers w !! f = Some fb → on_heap (getState f) w = Ok (m_state fb, w).
Proof. intros E. unfold on_heap. rewrite (getState_Ok _ _ _ E). by destruct w. Qed.

Lemma wp_on_heap_getState f (Q : State → World → Prop) w :
  (∀ fb, fibers w !! f = Some fb → Q (m_state fb) w) → wp (on_heap (getState f)) Q w.
Proof.
  intros HQ. apply wp_on_heap. intros st h E. unfold getState, get_fiber in E. mrun.
  destruct (fibers w !! f) as [fb|]; simplify_eq. destruct w. by apply HQ.
Qed.

Lemma wp_get_thread i (Q : Thread → World → Prop) w :
  (∀ th, threads w !! i = Some th → Q th w) → wp (get_thread i) Q w.
Proof.
  intros HQ. unfold get_thread. apply wp_bind, wp_gets. cbn [id].
  destruct (threads w !! i) eqn:E; [apply wp_ret; auto|apply wp_fail].
Qed.

Lemma wp_set_pc i p (Q : unit → World → Prop) w :
  (∀ th, threads w !! i = Some th →
    Q tt (set_threads (<[i := mkThread (th_id th) p (cb_fiber th) (idle_fiber th)]> (threads w)) w)) →
  wp (set_pc i p) Q w.
Proof. intros HQ. apply wp_bind, wp_get_thread. intros th Hi. apply wp_modify. auto. Qed.

Lemma wp_set_cb_fiber i c (Q : unit → World → Prop) w :
  (∀ th, threads w !! i = Some th →
    Q tt (set_threads (<[i := mkThread (th_id th) (th_pc th) c (idle_fiber th)]> (threads w)) w)) →
  wp (set_cb_fiber i c) Q w.
Proof. intros HQ. apply wp_bind, wp_get_thread. intros th Hi. apply wp_modify. auto. Qed.

Lemma new_task_some fc thread :
  bool_decide (is_Some (ft_fiber (new_task fc thread))) || bool_decide (is_Some (ft_cb (new_task fc thread))) = true.
Proof. by destruct fc. Qed.

(** [schedule] appends the task; the flag for [tickle] is the only other change. *)
Lemma schedule_run fc thread w :
  ∃ n, schedule fc thread w
    = Ok (tt, set_sched (mkScheduler (m_fibers (sched w) ++ [new_task fc thread])
        (m_activeThreadCount (sched w)) (m_idleThreadCount (sched w)) (m_stopping (sched w))
        (m_autoStop (sched w)) (m_threadCount (sched w)) (m_rootThread (sched w))
        (m_rootFiber (sched w)) (m_threadIds (sched w)) n) w).
Proof.
  unfold schedule, scheduleNoLock. destruct fc; mrun; case_match; by eexists.
Qed.

(** [schedule(begin, end)] appends the tasks in their order. *)
Lemma schedule_loop_run fcs b w :
  ∃ b' s', schedule_loop fcs b w = Ok (b', set_sched s' w) ∧
    m_fibers s' = m_fibers (sched w) ++ map (λ fc, new_task fc (-1)) fcs.
Proof.
  revert b w. induction fcs as [|fc fcs IH]; intros b w; cbn [schedule_loop map].
  - exists b, (sched w). split; [by destruct w|by rewrite app_nil_r].
  - assert (E : ∃ c, scheduleNoLock fc (-1) w
      = Ok (c, set_sched (set_fibers (m_fibers (sched w) ++ [new_task fc (-1)]) (sched w)) w))
      by (unfold scheduleNoLock; destruct fc; mrun; by eexists).
    destruct E as [c E]. run E.
    destruct (IH (c || b) (set_sched (set_fibers (m_fibers (sched w) ++ [new_task fc (-1)]) (sched w)) w)) as (b' & s' & -> & Hs').
    exists b', s'. split; [done|]. rewrite Hs'. simpl. by rewrite <- app_assoc.
Qed.

Lemma schedule_all_run fcs w :
  ∃ s', schedule_all fcs w = Ok (tt, set_sched s' w) ∧
    m_fibers s' = m_fibers (sched w) ++ map (λ fc, new_task fc (-1)) fcs.
Proof.
  destruct (schedule_loop_run fcs false w) as ([|] & s' & E & Hs'); unfold schedule_all; run E;
    [exists (add_tickle s')|exists s']; done.
Qed.

Lemma wp_schedule fc thread (Q : unit → World → Prop) w :
  (∀ n, Q tt (set_sched (mkScheduler (m_fibers (sched w) ++ [new_task fc thread])
        (m_activeThreadCount (sched w)) (m_idleThreadCount (sched w)) (m_stopping (sched w))
        (m_autoStop (sched w)) (m_threadCount (sched w)) (m_rootThread (sched w))
        (m_rootFiber (sched w)) (m_threadIds (sched w)) n) w)) →
  wp (schedule fc thread) Q w.
Proof. intros HQ [] w' E. destruct (schedule_run fc thread w) as [n E']. rewrite E' in E. by simplify_eq. Qed.

Lemma wp_alloc_fiber fb (Q : positive → World → Prop) w :
  (∀ f, fibers w !! f = None → Q f (mkWorld (sched w) (<[f := fb]> (fibers w)) (threads w))) →
  wp (alloc_fiber fb) Q w.
Proof.
  intros HQ. apply wp_bind, wp_gets, wp_bind, wp_modify, wp_ret, HQ.
  apply not_elem_of_dom, is_fresh.
Qed.

(** ** The search *)

(** A task for another thread, one whose fiber is executing, and one that
    thread [tid] takes. *)
Definition elsewhere (tid : Z) (ft : FiberAndThread) : bool :=
  negb (ft_thread ft =? -1) && negb (ft_thread ft =? tid).

Definition executing (h : heap) (ft : FiberAndThread) : bool :=
  match ft_fiber ft with
  | Some f => match h !! f with Some fb => bool_decide (m_state fb = EXEC) | None => false end
  | None => false
  end.

Definition skipped (tid : Z) (h : heap) (ft : FiberAndThread) : Prop :=
  elsewhere tid ft || executing h ft = true.

(** What the search returns: the first task that is not skipped. *)
Definition found (tid : Z) (h : heap) (l : list FiberAndThread)
    (r : bool * option FiberAndThread * list FiberAndThread) : Prop :=
  let '(tickle_me, ft, rest) := r in
  match ft with
  | Some t => ∃ pre post, l = pre ++ t :: post ∧ rest = pre ++ post ∧ Forall (skipped tid h) pre ∧
      ¬ skipped tid h t ∧ tickle_me = existsb (elsewhere tid) pre || negb (bool_decide (post = []))
  | None => rest = l ∧ Forall (skipped tid h) l ∧ tickle_me = existsb (elsewhere tid) l
  end.

(** What a queue needs for the search not to stop the process. *)
Definition task_ok (h : heap) (ft : FiberAndThread) : Prop :=
  match ft_fiber ft with Some f => is_Some (h !! f) | None => is_Some (ft_cb ft) end.

Lemma found_skip tid h it l r :
  skipped tid h it → found tid h l r →
  found tid h (it :: l) ((elsewhere tid it || r.1.1, r.1.2, it :: r.2)).
Proof.
  intros Hs. destruct r as [[b [t|]] rest]; simpl.
  - intros (pre & post & -> & -> & Hf & Ht & ->). exists (it :: pre), post.
    split_and!; [done|done|by constructor|done|]. simpl. by rewrite orb_assoc.
  - intros (-> & Hf & ->). split_and!; [done|by constructor|done].
Qed.

Lemma search_loop_spec tid l w :
  wp (search_loop tid l) (λ r w', w' = w ∧ found tid (fibers w) l r) w.
Proof.
  induction l as [|it l IH]; simpl search_loop; [by apply wp_ret|].
  destruct (negb _ && negb _) eqn:He.
  - apply wp_bind. eapply wp_mono; [|exact IH]. intros [[b ft] rest] ? [-> Hf]. apply wp_ret. split; [done|].
    apply (found_skip tid _ it) in Hf; [|unfold skipped, elsewhere; by rewrite He].
    unfold elsewhere in Hf. by rewrite He in Hf.
  - apply wp_bind, wp_assert. intros Hne. apply wp_bind.
    apply (wp_mono _ (λ b w', w' = w ∧ b = executing (fibers w) it)).
    + intros b ? [-> ->]. destruct (executing (fibers w) it) eqn:Hx.
      * apply wp_bind. eapply wp_mono; [|exact IH]. intros [[b ft] rest] ? [-> Hf]. apply wp_ret. split; [done|].
        apply (found_skip tid _ it) in Hf; [|unfold skipped; by rewrite Hx, orb_true_r].
        unfold elsewhere in Hf. by rewrite He in Hf.
      * apply wp_ret. split; [done|]. exists [], l. split_and!; try done. unfold skipped, elsewhere.
        by rewrite He, Hx.
    + unfold executing. destruct (ft_fiber it) as [f|]; [|by apply wp_ret].
      apply wp_bind, wp_on_heap_getState. intros fb E. rewrite E. by apply wp_ret.
Qed.

Lemma search_loop_total tid l w :
  Forall (task_ok (fibers w)) l → ∃ r, search_loop tid l w = Ok (r, w) ∧ found tid (fibers w) l r.
Proof.
  intros Hok. assert (∃ r, search_loop tid l w = Ok (r, w)) as [r E].
  { induction Hok as [|it l Hit _ [[[b ft] rest] IH]]; simpl; [by eexists|].
    unfold mbind, M_bind. destruct (negb _ && negb _); [rewrite IH; by eexists|].
    unfold task_ok in Hit. destruct (ft_fiber it) as [f|].
    - rewrite bool_decide_eq_true_2 by done. simpl. unfold mret, M_ret.
      destruct Hit as [fb Hfb]. rewrite (on_heap_getState _ _ _ Hfb).
      destruct (bool_decide _); [rewrite IH|]; by eexists.
    - rewrite (bool_decide_eq_true_2 _ Hit). by eexists. }
  exists r. split; [done|]. apply (search_loop_spec tid l w) in E. by destruct E.
Qed.

(** ** Accounts *)

(** The tasks a thread has taken and not yet started or dropped, and whether
    it is among the active and the idle ones. *)
Definition held (th : Thread) : list FiberAndThread :=
  match th_pc th with Selected (Some ft) => [ft] | _ => [] end.

Definition active (th : Thread) : Z :=
  match th_pc th with Selected (Some _) | Running _ _ | Returned _ _ => 1 | _ => 0 end.

Definition idle (th : Thread) : Z :=
  match th_pc th with Idling | IdleReturned => 1 | _ => 0 end.

Definition total (f : Thread → Z) (l : list Thread) : Z := foldr (λ th n, f th + n) 0 l.

Definition scheduled (o : list obs) : list FiberAndThread :=
  omap (λ e, match e with Scheduled ft => Some ft | _ => None end) o.
Definition ran (o : list obs) : list FiberAndThread :=
  omap (λ e, match e with Ran _ ft => Some ft | _ => None end) o.
Definition dropped (o : list obs) : list FiberAndThread :=
  omap (λ e, match e with Dropped ft => Some ft | _ => None end) o.

(** A task goes only to a thread it allows. *)
Definition allowed (tid : Z) (ft : FiberAndThread) : Prop := ft_thread ft = -1 ∨ ft_thread ft = tid.

Definition holds_allowed (th : Thread) : Prop := Forall (allowed (th_id th)) (held th).

Definition obs_allowed (e : obs) : Prop :=
  match e with Ran tid ft => allowed tid ft | _ => True end.

(** What every step respects. *)
Record accounts w (o : list obs) w' : Prop := {
  acc_tasks : m_fibers (sched w') ++ (threads w' ≫= held) ++ ran o ++ dropped o
    ≡ₚ m_fibers (sched w) ++ (threads w ≫= held) ++ scheduled o;
  acc_active : m_activeThreadCount (sched w') - total active (threads w')
    = m_activeThreadCount (sched w) - total active (threads w);
  acc_idle : m_idleThreadCount (sched w') - total idle (threads w')
    = m_idleThreadCount (sched w) - total idle (threads w);
  acc_allowed : Forall holds_allowed (threads w) →
    Forall holds_allowed (threads w') ∧ Forall obs_allowed o
}.

Lemma total_app f l1 l2 : total f (l1 ++ l2) = total f l1 + total f l2.
Proof. induction l1 as [|th l1 IH]; [done|]. simpl. rewrite IH. lia. Qed.

(** A step of one thread: what the thread gains and what the queue gains. *)
Lemma accounts_thread w w' i th th' o :
  threads w !! i = Some th → threads w' = <[i := th']> (threads w) →
  th_id th' = th_id th →
  m_fibers (sched w') ++ held th' ++ ran o ++ dropped o ≡ₚ m_fibers (sched w) ++ held th ++ scheduled o →
  m_activeThreadCount (sched w') - active th' = m_activeThreadCount (sched w) - active th →
  m_idleThreadCount (sched w') - idle th' = m_idleThreadCount (sched w) - idle th →
  (holds_allowed th → holds_allowed th' ∧ Forall obs_allowed o) →
  accounts w o w'.
Proof.
  intros (l1 & l2 & El & ->)%list_elem_of_split_length Ew Hid Ht Ha Hi Hal.
  rewrite El in Ew. rewrite insert_app_r_alt, Nat.sub_diag in Ew by done. simpl in Ew.
  constructor; rewrite ?Ew, ?El.
  - rewrite !bind_app, !bind_cons.
    transitivity ((l1 ≫= held) ++ (l2 ≫= held) ++ (m_fibers (sched w') ++ held th' ++ ran o ++ dropped o));
      [solve_Permutation|rewrite Ht; solve_Permutation].
  - rewrite !total_app. simpl. lia.
  - rewrite !total_app. simpl. lia.
  - rewrite !Forall_app, !Forall_cons. intros (H1 & H & H2). destruct (Hal H). by split_and!.
Qed.

(** A step outside the threads. *)
Lemma accounts_outside w w' o :
  threads w' = threads w →
  m_fibers (sched w') ++ ran o ++ dropped o ≡ₚ m_fibers (sched w) ++ scheduled o →
  m_activeThreadCount (sched w') = m_activeThreadCount (sched w) →
  m_idleThreadCount (sched w') = m_idleThreadCount (sched w) →
  Forall obs_allowed o → accounts w o w'.
Proof.
  intros Ew Ht Ha Hi Ho. constructor; rewrite ?Ew, ?Ha, ?Hi; [|done|done|done].
  transitivity ((threads w ≫= held) ++ (m_fibers (sched w') ++ ran o ++ dropped o));
    [solve_Permutation|rewrite Ht; solve_Permutation].
Qed.

(** ** Symbolic execution of the steps *)

Ltac same_thread :=
  cbn [sched fibers threads set_sched set_threads th_id th_pc cb_fiber idle_fiber] in *;
  repeat match goal with
  | H : (<[?i := _]> ?l) !! ?i = Some _ |- _ =>
      rewrite list_lookup_insert_eq in H by (by eapply lookup_lt_Some); injection H as <-
  | H1 : ?l !! ?i = Some ?a, H2 : ?l !! ?i = Some ?b |- _ =>
      assert (b = a) as -> by congruence; clear H2
  end; cbn [sched fibers threads set_sched set_threads th_id th_pc cb_fiber idle_fiber] in *.

Ltac sched_step :=
  lazymatch goal with
  | |- wp (on_heap (getState _)) _ _ => apply wp_on_heap_getState; intros ? ?
  | |- wp (on_heap _) _ _ => apply wp_on_heap; intros ? ? ?
  | |- wp (get_thread _) _ _ => apply wp_get_thread; intros ? ?
  | |- wp (set_pc _ _) _ _ => apply wp_set_pc; intros ? ?
  | |- wp (set_cb_fiber _ _) _ _ => apply wp_set_cb_fiber; intros ? ?
  | |- wp (schedule _ _) _ _ => apply wp_schedule; intros ?
  | |- wp (alloc_fiber _) _ _ => apply wp_alloc_fiber; intros ? ?
  | |- wp (on_sched _) _ _ => apply wp_modify
  | |- wp tickle _ _ => apply wp_modify
  | |- wp stopping _ _ => apply wp_gets
  | _ => wp_step
  end; same_thread.
Ltac sched_run := repeat sched_step.

Ltac solve_accounts :=
  match goal with
  | Hi : threads ?w !! ?i = Some ?th |- accounts ?w _ _ =>
      eapply (accounts_thread w _ i th); [exact Hi|simpl; rewrite ?list_insert_insert_eq; reflexivity
        |reflexivity|..]; unfold holds_allowed, held, active, idle; simpl;
      repeat match goal with H : th_pc th = _ |- _ => rewrite H end; simpl; try lia; try done;
      try (by intros _; split; repeat constructor)
  end.

Section steps.
Context (i : nat).

Lemma run_search_accounts w th : threads w !! i = Some th → th_pc th = Searching →
  wp (run_search i) (λ _ w', accounts w [] w') w.
Proof.
  intros Hi Hp. unfold run_search. sched_run.
  eapply wp_mono; [|apply search_loop_spec]. intros [[b ft] rest] ? [-> Hf]. simpl in Hf.
  destruct ft as [t|]; sched_run; solve_accounts.
  all: try (destruct Hf as (pre & post & -> & -> & _ & Ht & _); solve_Permutation).
  all: try (destruct Hf as (-> & _); done).
  all: intros _; split; [|done]; constructor; [|done];
    destruct Hf as (pre & post & _ & _ & _ & Ht & _); unfold skipped, elsewhere in Ht; simpl;
    apply not_true_is_false, orb_false_iff in Ht as [Ht _]; unfold allowed; blia.
Qed.

Lemma run_dispatch_accounts w th found : threads w !! i = Some th → th_pc th = Selected found →
  wp (run_dispatch i found) (λ o w', accounts w o w') w.
Proof.
  intros Hi Hp. unfold run_dispatch. destruct found as [ft|]; simpl; sched_run;
    solve_accounts; try solve_Permutation.
  all: rewrite ?Forall_singleton; intros Hal; split; [by constructor|done].
Qed.

Lemma run_returned_accounts w th f c : threads w !! i = Some th → th_pc th = Returned f c →
  wp (run_returned i f c) (λ _ w', accounts w [] w') w.
Proof. intros Hi Hp. unfold run_returned. sched_run; solve_accounts. Qed.

Lemma run_settle_accounts w th f c : threads w !! i = Some th → th_pc th = Settling f c →
  wp (run_settle i f c) (λ o w', accounts w o w') w.
Proof.
  intros Hi Hp. unfold run_settle. sched_run; solve_accounts; try solve_Permutation.
Qed.

Lemma idle_accounts w th : threads w !! i = Some th → th_pc th = Idling →
  wp (idle_turn i) (λ _ w', accounts w [] w') w.
Proof. intros Hi Hp. unfold idle_turn. sched_run; solve_accounts. Qed.

Lemma idle_returned_accounts w th : threads w !! i = Some th → th_pc th = IdleReturned →
  wp (run_idle_returned i) (λ _ w', accounts w [] w') w.
Proof. intros Hi Hp. unfold run_idle_returned. sched_run; solve_accounts. Qed.

Lemma body_end_accounts o w : wp (body_end i o) (λ _ w', accounts w [] w') w.
Proof. unfold body_end. sched_run; solve_accounts. Qed.
End steps.

(** A step that only touches the flags and the tickles. *)
Record flags_only w w' : Prop := {
  fo_threads : threads w' = threads w;
  fo_heap : fibers w' = fibers w;
  fo_fibers : m_fibers (sched w') = m_fibers (sched w);
  fo_active : m_activeThreadCount (sched w') = m_activeThreadCount (sched w);
  fo_idle : m_idleThreadCount (sched w') = m_idleThreadCount (sched w)
}.

Lemma stop_begin_flags same w : wp (stop_begin same) (λ _ w', flags_only w w') w.
Proof.
  unfold stop_begin. repeat first [
    match goal with |- wp (for_each _ _) _ _ =>
      apply (wp_for_each (λ w', flags_only w w')); [|intros ? ? _ []|intros ? []] end
    | sched_step]; by constructor.
Qed.

Lemma enter_run_accounts tid cb w : wp (enter_run tid cb) (λ _ w', accounts w [] w') w.
Proof.
  unfold enter_run. sched_run. constructor; cbn [sched threads set_threads].
  - rewrite bind_app. simpl. by rewrite !app_nil_r.
  - rewrite total_app. unfold total at 2, active at 2. simpl. lia.
  - rewrite total_app. unfold total at 2, idle at 2. simpl. lia.
  - intros Hal. rewrite Forall_app. split_and!; [done| |constructor]. repeat constructor.
Qed.

Lemma flags_accounts w w' : flags_only w w' → accounts w [] w'.
Proof. intros [Ht _ Hf Ha Hi]. apply accounts_outside; simpl; rewrite ?Hf; solve [done|solve_Permutation]. Qed.

Lemma heap_accounts w h w' o : accounts (mkWorld (sched w) h (threads w)) o w' → accounts w o w'.
Proof. intros []. by constructor. Qed.

Lemma run_step_accounts i w : wp (run_step i) (λ o w', accounts w o w') w.
Proof.
  unfold run_step. do 2 sched_step. destruct (th_pc _) eqn:Hp; try apply wp_fail.
  - apply wp_bind. eapply wp_mono; [|by eapply run_search_accounts]. intros. by apply wp_ret.
  - by eapply run_dispatch_accounts.
  - apply wp_bind. eapply wp_mono; [|by eapply run_returned_accounts]. intros. by apply wp_ret.
  - by eapply run_settle_accounts.
  - apply wp_bind. eapply wp_mono; [|by eapply idle_accounts]. intros. by apply wp_ret.
  - apply wp_bind. eapply wp_mono; [|by eapply idle_returned_accounts]. intros. by apply wp_ret.
Qed.

Lemma schedule_event_accounts fc thread w : wp (schedule_event fc thread) (λ o w', accounts w o w') w.
Proof. unfold schedule_event. sched_run. apply accounts_outside; solve [done|solve_Permutation|repeat constructor]. Qed.

Lemma exec_accounts e w : wp (exec e) (λ o w', accounts w o w') w.
Proof.
  destruct e; simpl exec.
  - apply run_step_accounts.
  - do 2 sched_step. destruct (th_pc _); try apply wp_fail. apply schedule_event_accounts.
  - apply wp_bind. eapply wp_mono; [|apply body_end_accounts]. intros. by apply wp_ret.
  - apply schedule_event_accounts.
  - apply wp_bind. eapply wp_mono; [|apply stop_begin_flags]. intros. by apply wp_ret, flags_accounts.
  - apply wp_bind. unfold stop_root. sched_run; [by apply accounts_outside| |by apply accounts_outside].
    eapply wp_mono; [|apply enter_run_accounts]. intros ? ? Hacc. apply wp_ret. by eapply heap_accounts, Hacc.
Qed.

Lemma accounts_refl w : accounts w [] w.
Proof. by apply accounts_outside. Qed.

Lemma accounts_trans w1 o1 w2 o2 w3 : accounts w1 o1 w2 → accounts w2 o2 w3 → accounts w1 (o1 ++ o2) w3.
Proof.
  intros [T1 A1 I1 L1] [T2 A2 I2 L2]. constructor; [|lia|lia|].
  - unfold scheduled, ran, dropped in *. rewrite !omap_app.
    transitivity ((m_fibers (sched w3) ++ (threads w3 ≫= held) ++ ran o2 ++ dropped o2) ++ ran o1 ++ dropped o1);
      [unfold ran, dropped; solve_Permutation|].
    unfold ran, dropped. rewrite T2.
    transitivity ((m_fibers (sched w2) ++ (threads w2 ≫= held) ++ ran o1 ++ dropped o1) ++ scheduled o2);
      [unfold ran, dropped, scheduled; solve_Permutation|].
    unfold ran, dropped. rewrite T1. unfold scheduled. solve_Permutation.
  - intros H1. destruct (L1 H1) as [H2 ?]. destruct (L2 H2) as [? ?]. rewrite Forall_app. done.
Qed.

Lemma steps_accounts w tr w' : steps w tr w' → accounts w tr w'.
Proof.
  induction 1 as [|w tr w1 e o w2 _ IH E]; [apply accounts_refl|].
  eapply accounts_trans; [exact IH|]. by apply (exec_accounts e).
Qed.
