(* ===== verification/SchedulerInv.v ===== *)
(** * SchedulerInv: who may touch which fiber

    A thread of the scheduler owns its idle fiber, the fiber it keeps for
    callbacks and the fiber it has taken from the queue.  The invariant says
    that no fiber has two owners, and that a fiber that is queued while a
    thread owns it is still executing there - then the search skips it.  It
    holds as long as the program schedules a fiber at most once before it runs
    again ([disciplined]). *)

From S2P Require Import Prelude Fiber Scheduler SchedulerFacts.

Implicit Types w : World.
Implicit Types th : Thread.

(** ** The invariant *)

(** The fiber of a task a thread has taken, unless it is its [cb_fiber]. *)
Definition task_fiber th : option positive :=
  match th_pc th with
  | Selected (Some ft) => ft_fiber ft
  | Running f false | Returned f false | Settling f false => Some f
  | _ => None
  end.

Definition owned th : list positive :=
  idle_fiber th :: option_list (cb_fiber th) ++ option_list (task_fiber th).

(** The fiber whose execution on the thread is under way. *)
Definition in_flight th : option positive :=
  match th_pc th with Running f _ | Returned f _ | Settling f _ => Some f | _ => None end.

Definition state_of (h : heap) (f : positive) : option State := m_state <$> h !! f.

(** The state of the idle fiber, by the place of its thread. *)
Definition idle_state (p : pc) (st : State) : Prop :=
  match p with
  | Idling => st = EXEC
  | IdleReturned => st = EXEC ∨ st = TERM
  | Exited => st = TERM
  | _ => st = INIT ∨ st = HOLD ∨ st = TERM
  end.

(** The state of the fiber of a task, by the place of its thread. *)
Definition task_state (h : heap) (p : pc) : Prop :=
  match p with
  | Selected (Some ft) => ∀ f, ft_fiber ft = Some f → ∃ st, state_of h f = Some st ∧ st ≠ EXEC
  | Running f _ => state_of h f = Some EXEC
  | Returned f _ | Settling f _ => is_Some (state_of h f)
  | _ => True
  end.

Definition runs_cb (p : pc) : option positive :=
  match p with Running f true | Returned f true | Settling f true => Some f | _ => None end.

Record thread_ok (h : heap) th : Prop := {
  tk_nodup : NoDup (owned th);
  tk_idle : ∃ fb, h !! idle_fiber th = Some fb ∧ use_caller fb = true ∧ idle_state (th_pc th) (m_state fb);
  tk_cb : match runs_cb (th_pc th) with
          | Some f => cb_fiber th = Some f
          | None => ∀ f, cb_fiber th = Some f → state_of h f = Some INIT
          end;
  tk_task : task_state h (th_pc th)
}.

(** A fiber whose context is past its end is in one of the two final states. *)
Definition sane (fb : Fiber) : Prop :=
  m_stack fb = true ∧ ended fb = bool_decide (m_state fb = TERM) || bool_decide (m_state fb = EXCEPT).

Definition queued w : list positive := omap ft_fiber (m_fibers (sched w)).

Record world_inv w : Prop := {
  wi_sane : ∀ f fb, fibers w !! f = Some fb → sane fb;
  wi_threads : ∀ i th, threads w !! i = Some th → thread_ok (fibers w) th;
  wi_apart : ∀ i j th1 th2 f, threads w !! i = Some th1 → threads w !! j = Some th2 →
    f ∈ owned th1 → f ∈ owned th2 → i = j;
  wi_tasks : Forall (task_ok (fibers w)) (m_fibers (sched w));
  wi_once : NoDup (queued w);
  wi_shared : ∀ i th f, threads w !! i = Some th → f ∈ queued w → f ∈ owned th →
    in_flight th = Some f ∧ state_of (fibers w) f = Some EXEC
}.

(** ** The discipline *)

(** A fiber may be scheduled when it is nowhere in the scheduler, or is
    executing and not yet scheduled again. *)
Definition may_schedule w (f : positive) : Prop :=
  is_Some (fibers w !! f) ∧ (f ∉ queued w) ∧
  ∀ i th, threads w !! i = Some th → f ∈ owned th →
    in_flight th = Some f ∧ state_of (fibers w) f = Some EXEC.

Definition may_schedule_fc w (fc : FiberOrCb) : Prop :=
  match fc with AFiber f => may_schedule w f | ACb _ => True end.

(** A fiber that was scheduled while it ran must go on to suspend itself, and
    as a fiber of the scheduler; only such fibers may throw. *)
Definition may_end w (f : positive) (o : outcome) : Prop :=
  ∀ fb, fibers w !! f = Some fb →
    (f ∈ queued w → o = Suspends ∧ use_caller fb = true) ∧ (o = Throws → use_caller fb = true).

Definition disciplined w (e : event) : Prop :=
  match e with
  | RunStep _ | StopBegin _ => True
  | BodySchedule _ fc _ | External fc _ => may_schedule_fc w fc
  | BodyEnd i o => ∀ th f c, threads w !! i = Some th → th_pc th = Running f c → may_end w f o
  | StopRoot _ _ => ∀ r, m_rootFiber (sched w) = Some r →
      (r ∉ queued w) ∧ ∀ i th, threads w !! i = Some th → r ∉ owned th
  end.

(** ** Changing one thread *)

Lemma owned_task th f : task_fiber th = Some f → f ∈ owned th.
Proof. intros E. unfold owned. rewrite E, elem_of_cons, elem_of_app. simpl. set_solver. Qed.

Lemma owned_cb th f : cb_fiber th = Some f → f ∈ owned th.
Proof. intros E. unfold owned. rewrite E, elem_of_cons, elem_of_app. simpl. set_solver. Qed.

Lemma owned_idle th : idle_fiber th ∈ owned th.
Proof. by left. Qed.

Lemma elem_of_owned th f :
  f ∈ owned th ↔ f = idle_fiber th ∨ cb_fiber th = Some f ∨ task_fiber th = Some f.
Proof.
  unfold owned. rewrite elem_of_cons, elem_of_app.
  destruct (cb_fiber th), (task_fiber th); simpl; set_solver.
Qed.

Lemma owned_nodup th :
  NoDup (owned th) ↔ cb_fiber th ≠ Some (idle_fiber th) ∧ task_fiber th ≠ Some (idle_fiber th) ∧
    ∀ f, cb_fiber th = Some f → task_fiber th ≠ Some f.
Proof.
  unfold owned. rewrite NoDup_cons, NoDup_app, elem_of_app.
  destruct (cb_fiber th) as [c|], (task_fiber th) as [t|]; simpl;
    rewrite ?elem_of_nil, ?list_elem_of_singleton.
  - split.
    + intros (H1 & _ & H2 & _). split_and!; [naive_solver|naive_solver|].
      intros f [= ->] [= ->]. by apply (H2 f); left.
    + intros (H1 & H2 & H3). split_and!; [naive_solver|apply NoDup_singleton| |apply NoDup_singleton].
      intros x Hx Ht. apply list_elem_of_singleton in Hx, Ht. subst. by apply (H3 t).
  - split; [naive_solver|]. intros (H1 & _ & _). split_and!; [naive_solver|apply NoDup_singleton| |constructor].
    intros ? _ ?%elem_of_nil. done.
  - split; [naive_solver|]. intros (_ & H1 & _). split_and!; [naive_solver|constructor| |apply NoDup_singleton].
    intros ? ?%elem_of_nil. done.
  - split; [done|]. intros _. split_and!; [naive_solver|constructor| |constructor].
    intros ? ?%elem_of_nil. done.
Qed.

(** The fibers a thread does not own do not matter to it. *)
Lemma thread_ok_heap h h' th :
  (∀ f, f ∈ owned th → h' !! f = h !! f) → thread_ok h th → thread_ok h' th.
Proof.
  intros Heq [Hn Hi Hc Ht]. constructor; [done|by rewrite Heq by apply owned_idle| |].
  - destruct (runs_cb _); [done|]. intros f Hf. unfold state_of. rewrite Heq by by apply owned_cb. by apply Hc.
  - assert (Hown : ∀ f, task_fiber th = Some f ∨ cb_fiber th = Some f → state_of h' f = state_of h f).
    { intros f Hf. unfold state_of. rewrite Heq; [done|]. destruct Hf; auto using owned_task, owned_cb. }
    unfold task_state, task_fiber, runs_cb in *.
    destruct (th_pc th) as [|[ft|]|f []|f []|f []| | |]; try done;
      try (rewrite Hown; [done|by auto]). intros f Hf. rewrite Hown by auto. auto.
Qed.

(** One thread moves, and only fibers it owns before or after change. *)
Lemma world_inv_update w w' i th th' :
  world_inv w → threads w !! i = Some th → threads w' = <[i := th']> (threads w) →
  (∀ f, f ∉ owned th → f ∉ owned th' → fibers w' !! f = fibers w !! f) →
  (∀ f, f ∈ owned th' → f ∈ owned th ∨ ∀ j thj, threads w !! j = Some thj → f ∉ owned thj) →
  (∀ f fb, fibers w' !! f = Some fb → sane fb) →
  thread_ok (fibers w') th' →
  Forall (task_ok (fibers w')) (m_fibers (sched w')) → NoDup (queued w') →
  (∀ f, f ∈ queued w' → f ∈ queued w ∨ f ∈ owned th) →
  (∀ f, f ∈ queued w' → f ∈ owned th' → in_flight th' = Some f ∧ state_of (fibers w') f = Some EXEC) →
  world_inv w'.
Proof.
  intros [Hsn Hth Hap Htk Hon Hsh] Hi Ew Hh Hnew Hsn' Hok Htk' Hon' Hq Hsh'.
  assert (Hlt : (i < length (threads w))%nat) by (by eapply lookup_lt_Some).
  assert (Hother : ∀ j thj f, j ≠ i → threads w !! j = Some thj → f ∈ owned thj →
    (f ∉ owned th) ∧ (f ∉ owned th')).
  { intros j thj f Hji Hj Hf. assert (f ∉ owned th) by (intros Hx; by destruct (Hap i j th thj f)).
    split; [done|]. intros Hx. destruct (Hnew f Hx) as [?|Hno]; [done|]. by apply (Hno j thj). }
  constructor; try done.
  - intros j thj. rewrite Ew, list_lookup_insert_Some. intros [(<- & <- & _)|(Hji & Hj)]; [done|].
    eapply thread_ok_heap; [|by eapply Hth]. intros f Hf. by apply Hh; eapply Hother.
  - intros j k thj thk f. rewrite Ew, !list_lookup_insert_Some.
    intros [(<- & <- & _)|(Hji & Hj)] [(<- & <- & _)|(Hki & Hk)] Hf1 Hf2; try done.
    + by destruct (Hother k thk f).
    + by destruct (Hother j thj f).
    + by eapply Hap.
  - intros j thj f. rewrite Ew, list_lookup_insert_Some.
    intros [(<- & <- & _)|(Hji & Hj)] Hf Hfo; [by apply Hsh'|].
    destruct (Hother j thj f) as [Ho Ho']; try done. destruct (Hq f Hf) as [Hfq|]; [|done].
    unfold state_of. rewrite Hh by done. by eapply Hsh.
Qed.

(** What the scheduler's flags and counters are does not matter. *)
Lemma world_inv_ext w w' :
  world_inv w → threads w' = threads w → fibers w' = fibers w →
  m_fibers (sched w') = m_fibers (sched w) → world_inv w'.
Proof.
  intros [] Et Ef Eq. constructor; unfold queued in *; rewrite ?Et, ?Ef, ?Eq; done.
Qed.

(** ** Computation *)

Lemma get_thread_Ok i th w : threads w !! i = Some th → get_thread i w = Ok (th, w).
Proof. intros E. unfold get_thread, mbind, M_bind, gets, id. by rewrite E. Qed.

Lemma set_pc_Ok i p th w : threads w !! i = Some th →
  set_pc i p w = Ok (tt, set_threads (<[i := mkThread (th_id th) p (cb_fiber th) (idle_fiber th)]> (threads w)) w).
Proof. intros E. unfold set_pc. by run get_thread_Ok. Qed.

Lemma set_cb_fiber_Ok i c th w : threads w !! i = Some th →
  set_cb_fiber i c w = Ok (tt, set_threads (<[i := mkThread (th_id th) (th_pc th) c (idle_fiber th)]> (threads w)) w).
Proof. intros E. unfold set_cb_fiber. by run get_thread_Ok. Qed.

Lemma on_sched_Ok f w : on_sched f w = Ok (tt, set_sched (f (sched w)) w).
Proof. done. Qed.

Lemma tickle_if_inv (b : bool) w : world_inv w →
  ∃ w', (if b then tickle else mret tt) w = Ok (tt, w') ∧ world_inv w'.
Proof.
  intros Hw. destruct b; eexists; (split; [reflexivity|]); [|done]. by eapply world_inv_ext.
Qed.
