(* ===== verification/SchedulerSteps.v ===== *)
(** * SchedulerSteps: every step of a scheduler thread succeeds and keeps the
    invariant

    One lemma per step of [run], then the events of the program under the
    discipline. *)

From S2P Require Import Prelude Fiber Scheduler SchedulerFacts SchedulerInv.

Implicit Types w : World.
Implicit Types th : Thread.

(** A thread with another program counter, or another fiber for callbacks. *)
Definition moved th (p : pc) : Thread := mkThread (th_id th) p (cb_fiber th) (idle_fiber th).

Lemma queued_app l1 l2 : omap ft_fiber (l1 ++ l2) = omap ft_fiber l1 ++ omap ft_fiber l2.
Proof. apply omap_app. Qed.

(** A fiber in another state. *)
Definition with_state (st : State) (fb : Fiber) : Fiber :=
  mkFiber st (use_caller fb) (fiber_cb fb) (m_stack fb) (ended fb).

Lemma resume_runs f fb w :
  fibers w !! f = Some fb → sane fb → m_state fb ≠ EXEC → m_state fb ≠ TERM → m_state fb ≠ EXCEPT →
  on_heap (resume f) w = Ok (tt, mkWorld (sched w) (<[f := with_state EXEC fb]> (fibers w)) (threads w)) ∧
  sane (with_state EXEC fb).
Proof.
  intros E [Hs He] H1 H2 H3. rewrite !bool_decide_eq_false_2 in He by done.
  split; [|by split]. erewrite on_heap_Ok by (by apply resume_Ok). unfold with_state. by rewrite He.
Qed.

Lemma reset_runs f fb cb w :
  fibers w !! f = Some fb → sane fb → resettable (m_state fb) = true →
  on_heap (Fiber_reset f cb) w
    = Ok (tt, mkWorld (sched w) (<[f := mkFiber INIT (use_caller fb) cb true false]> (fibers w)) (threads w)).
Proof. intros E [Hs He] Hr. by erewrite on_heap_Ok by (by apply Fiber_reset_Ok). Qed.

(** The first resume of a fiber that was just made or reset. *)
Lemma start_runs f uc cb h w : fibers w = <[f := mkFiber INIT uc cb true false]> h →
  on_heap (resume f) w = Ok (tt, mkWorld (sched w) (<[f := mkFiber EXEC uc cb true false]> h) (threads w)).
Proof.
  intros E. erewrite on_heap_Ok by (apply resume_Ok; [by rewrite E, lookup_insert_eq|done|done]).
  by rewrite E, insert_insert_eq.
Qed.

Lemma set_pc_again i p th l w : threads w = <[i := th]> l → (i < length l)%nat →
  set_pc i p w = Ok (tt, set_threads (<[i := moved th p]> l) w).
Proof.
  intros E Hlt. rewrite (set_pc_Ok i p th) by (by rewrite E, list_lookup_insert_eq).
  by rewrite E, list_insert_insert_eq.
Qed.

Section step.
Context (w : World) (i : nat) (th : Thread).
Context (Hw : world_inv w) (Hi : threads w !! i = Some th).

Lemma thread_now : thread_ok (fibers w) th.
Proof. by eapply wi_threads. Qed.

(** The thread moves on and the rest of the world stays. *)
Lemma move_inv w' th' :
  threads w' = <[i := th']> (threads w) → fibers w' = fibers w →
  m_fibers (sched w') = m_fibers (sched w) →
  (∀ f, f ∈ owned th' → f ∈ owned th) → thread_ok (fibers w) th' →
  (∀ f, in_flight th = Some f → f ∈ owned th' → in_flight th' = Some f) → world_inv w'.
Proof.
  intros Et Ef Eq Hown Hok Hfl. pose proof Hw as [].
  eapply (world_inv_update w w' i th th'); unfold queued in *; rewrite ?Ef, ?Eq; eauto.
  intros f Hq Ho. destruct (wi_shared i th f) as [Hf Hs]; auto.
Qed.

(** A task that the search takes is owned by nobody. *)
Lemma taken_unowned ft rest pre post f :
  m_fibers (sched w) = pre ++ ft :: post → rest = pre ++ post → ¬ skipped (th_id th) (fibers w) ft →
  ft_fiber ft = Some f →
  (∃ st, state_of (fibers w) f = Some st ∧ st ≠ EXEC) ∧ (∀ j thj, threads w !! j = Some thj → f ∉ owned thj) ∧
  f ∉ omap ft_fiber rest.
Proof.
  intros El -> Hns Hf.
  assert (Hq : f ∈ queued w).
  { unfold queued. rewrite El, queued_app. cbn [omap list_omap]. rewrite Hf. set_solver. }
  assert (Hst : ∃ st, state_of (fibers w) f = Some st ∧ st ≠ EXEC).
  { pose proof (wi_tasks w Hw) as Ht. rewrite El, Forall_app, Forall_cons in Ht.
    destruct Ht as (_ & Ht & _). unfold task_ok in Ht. rewrite Hf in Ht. destruct Ht as [fb Hfb].
    exists (m_state fb). unfold state_of. rewrite Hfb. split; [done|]. intros Hx. apply Hns.
    unfold skipped, executing. rewrite Hf, Hfb, bool_decide_eq_true_2 by done. apply orb_true_r. }
  split_and!; [done| |].
  - intros j thj Hj Ho. destruct Hst as (st & Es & Hne).
    destruct (wi_shared w Hw j thj f) as [_ Es']; try done. congruence.
  - pose proof (wi_once w Hw) as Hn. unfold queued in Hn. rewrite El, queued_app in Hn.
    cbn [omap list_omap] in Hn. rewrite Hf, NoDup_app, NoDup_cons in Hn.
    rewrite queued_app, elem_of_app. set_solver.
Qed.

Lemma search_step : th_pc th = Searching → ∃ w', run_search i w = Ok (tt, w') ∧ world_inv w'.
Proof.
  intros Hp. pose proof thread_now as [Hn Hid Hcb _]. rewrite Hp in Hid, Hcb. simpl in Hid, Hcb.
  destruct (search_loop_total (th_id th) (m_fibers (sched w)) w (wi_tasks w Hw)) as ([[b ft] rest] & E & Hf).
  unfold run_search. run get_thread_Ok. run gets_run. run E. unfold id.
  destruct ft as [t|].
  - destruct Hf as (pre & post & El & Er & _ & Hns & _).
    run on_sched_Ok. run on_sched_Ok. run set_pc_Ok. apply tickle_if_inv.
    assert (Htk : ∀ f, task_fiber (moved th (Selected (Some t))) = Some f →
      (∃ st, state_of (fibers w) f = Some st ∧ st ≠ EXEC) ∧
      (∀ j thj, threads w !! j = Some thj → f ∉ owned thj) ∧ f ∉ omap ft_fiber rest)
      by (intros f; by apply (taken_unowned t rest pre post)).
    pose proof (wi_tasks w Hw) as Hok. pose proof (wi_once w Hw) as Hon. unfold queued in Hon.
    rewrite El, Forall_app, Forall_cons in Hok. rewrite El, queued_app in Hon.
    eapply (world_inv_update w _ i th (moved th (Selected (Some t)))); try done.
    + intros f [->|[Hf|Hf]]%elem_of_owned; [left; exact (owned_idle th)|left; exact (owned_cb th f Hf)|].
      right. by apply Htk.
    + apply Hw.
    + apply owned_nodup in Hn. constructor; [|done|done|by intros f Hf; apply Htk].
      apply owned_nodup. split_and!; [apply Hn| |].
      * intros (_ & Ho & _)%Htk. exact (Ho i th Hi (owned_idle th)).
      * intros f Hf (_ & Ho & _)%Htk. exact (Ho i th Hi (owned_cb th f Hf)).
    + simpl. rewrite Er, Forall_app. tauto.
    + unfold queued. simpl. rewrite Er, queued_app. eapply sublist_NoDup; [exact Hon|].
      apply sublist_app; [done|]. cbn [omap list_omap]. destruct (ft_fiber t); [by constructor|done].
    + unfold queued. simpl. intros f. rewrite Er, El, !queued_app, !elem_of_app.
      cbn [omap list_omap]. destruct (ft_fiber t); set_solver.
    + unfold queued. simpl. intros f Hq Ho. exfalso.
      assert (Hq' : f ∈ queued w).
      { revert Hq. unfold queued. rewrite Er, El, !queued_app, !elem_of_app.
        cbn [omap list_omap]. destruct (ft_fiber t); set_solver. }
      apply elem_of_owned in Ho as [->|[Hf|Hf]]; [| |by apply (Htk f Hf)].
      * destruct (wi_shared w Hw i th _ Hi Hq' (owned_idle th)) as [Hfl _]. unfold in_flight in Hfl. by rewrite Hp in Hfl.
      * destruct (wi_shared w Hw i th _ Hi Hq' (owned_cb th f Hf)) as [Hfl _]. unfold in_flight in Hfl. by rewrite Hp in Hfl.
  - run set_pc_Ok. apply tickle_if_inv.
    eapply (move_inv _ (moved th (Selected None))); try done.
    + intros f. rewrite !elem_of_owned. unfold task_fiber. rewrite Hp. done.
    + constructor; try done. revert Hn. rewrite !owned_nodup. unfold task_fiber. by rewrite Hp.
    + unfold in_flight. by rewrite Hp.
Qed.

(** *** Steps that change one fiber *)

Lemma owned_exists j thj f : threads w !! j = Some thj → f ∈ owned thj → is_Some (fibers w !! f).
Proof.
  intros Hj Hf. destruct (wi_threads w Hw j thj Hj) as [_ (fb & Eid & _) Hcb Htk].
  unfold state_of, task_state, runs_cb in *.
  assert (Hst : ∀ g st, m_state <$> fibers w !! g = Some st → is_Some (fibers w !! g)).
  { intros g st. destruct (fibers w !! g); by eauto. }
  apply elem_of_owned in Hf as [->|[Hf|Hf]]; [by eauto| |].
  - destruct (th_pc thj) as [|[ft|]|g []|g []|g []| | |]; simplify_eq; eauto.
    all: try (rewrite Hf in Hcb; simplify_eq); eauto.
    all: destruct Htk as [? ?]; eauto.
  - unfold task_fiber in Hf. destruct (th_pc thj) as [|[ft|]|g []|g []|g []| | |]; simplify_eq; eauto.
    + destruct (Htk f Hf) as (st & Es & _). eauto.
    + destruct Htk as [? ?]; eauto.
    + destruct Htk as [? ?]; eauto.
Qed.

Lemma put_inv w' th' f fb :
  threads w' = <[i := th']> (threads w) → fibers w' = <[f := fb]> (fibers w) →
  m_fibers (sched w') = m_fibers (sched w) → sane fb →
  (f ∈ owned th ∨ f ∈ owned th' ∧ fibers w !! f = None) →
  (∀ g, g ∈ owned th' → g ∈ owned th ∨ g = f) →
  thread_ok (<[f := fb]> (fibers w)) th' →
  (∀ g, in_flight th = Some g → state_of (fibers w) g = Some EXEC → g ∈ owned th' →
    in_flight th' = Some g ∧ state_of (<[f := fb]> (fibers w)) g = Some EXEC) →
  world_inv w'.
Proof.
  intros Et Ef Eq Hs Hf Hown Hok Hsh. pose proof Hw as [].
  assert (Hfresh : f ∉ owned th → (∀ j thj, threads w !! j = Some thj → f ∉ owned thj) ∧ f ∉ queued w).
  { intros Hno. destruct Hf as [|[_ Hnone]]; [done|]. split.
    - intros j thj Hj Ho. destruct (owned_exists j thj f Hj Ho) as [? ?]. congruence.
    - unfold queued. rewrite list_elem_of_omap. intros (ft & Hin & Eft). rewrite Forall_forall in wi_tasks.
      apply wi_tasks in Hin. unfold task_ok in Hin. rewrite Eft in Hin. destruct Hin. congruence. }
  eapply (world_inv_update w w' i th th'); unfold queued in *; rewrite ?Ef, ?Eq; eauto.
  - intros g H1 H2. rewrite lookup_insert_ne; [done|]. intros ->. destruct Hf as [|[]]; done.
  - intros g [?| ->]%Hown; [by left|]. destruct (decide (f ∈ owned th)); [by left|right]. by apply Hfresh.
  - intros g gb [[<- <-]|[_ Hg]]%lookup_insert_Some; [done|by eapply wi_sane].
  - eapply Forall_impl; [done|]. intros ft. unfold task_ok. destruct (ft_fiber ft); [|done].
    intros. apply lookup_insert_is_Some'. by right.
  - intros g Hq Ho. destruct (decide (g ∈ owned th)) as [Hg|]; [destruct (wi_shared i th g); auto|]. exfalso.
    destruct (Hown g Ho) as [?| ->]; [done|]. by apply Hfresh.
Qed.

(** The search found nothing: the idle fiber ends the thread or runs. *)
Lemma dispatch_none : th_pc th = Selected None →
  ∃ w', run_dispatch i None w = Ok ([], w') ∧ world_inv w'.
Proof.
  intros Hp. pose proof thread_now as [Hn (fb & Eid & Huc & Hst) Hcb _]. rewrite Hp in Hst, Hcb. simpl in Hst, Hcb.
  pose proof (wi_sane w Hw _ _ Eid) as Hs.
  assert (Hown : ∀ p, task_fiber (moved th p) = None → ∀ f, f ∈ owned (moved th p) → f ∈ owned th).
  { intros p Htf f. rewrite !elem_of_owned, Htf. unfold task_fiber. by rewrite Hp. }
  assert (Hdup : ∀ p, task_fiber (moved th p) = None → NoDup (owned (moved th p))).
  { intros p Htf. revert Hn. rewrite !owned_nodup, Htf. unfold task_fiber. by rewrite Hp. }
  unfold run_dispatch. cbn [default no_task ft_fiber ft_cb]. run get_thread_Ok. run ret_run.
  rewrite bool_decide_eq_false_2 by (by intros []). cbn [negb]. run on_heap_getState.
  destruct (decide (m_state fb = TERM)) as [Et|Et].
  - run set_pc_Ok. eexists; split; [reflexivity|]. eapply (move_inv _ (moved th Exited)); try done; [by apply Hown| |].
    + constructor; try done; [by apply Hdup|]. exists fb. by rewrite Et.
    + unfold in_flight. by rewrite Hp.
  - run on_sched_Ok.
    assert (Hne : m_state fb ≠ EXEC ∧ m_state fb ≠ EXCEPT)
      by (destruct Hst as [E|[E|E]]; rewrite E in *; by split).
    destruct (resume_runs (idle_fiber th) fb (set_sched (add_idle 1 (sched w)) w)) as [Er Hs']; try apply Hne; try done.
    run Er. run set_pc_Ok. eexists; split; [reflexivity|].
    eapply (put_inv _ (moved th Idling) (idle_fiber th) (with_state EXEC fb)); try done.
    + left. apply owned_idle.
    + intros g Hg. left. by apply (Hown Idling).
    + constructor; [by apply Hdup| | |done].
      * exists (with_state EXEC fb). simpl. by rewrite lookup_insert_eq.
      * simpl. intros f Hf. unfold state_of. rewrite lookup_insert_ne; [by apply Hcb|].
        intros <-. by apply owned_nodup in Hn as [? _].
    + unfold in_flight. by rewrite Hp.
Qed.
(** *** A task is dispatched *)

Section dispatch.
Context (ft : FiberAndThread) (Hp : th_pc th = Selected (Some ft)).

(** The idle fiber is as before when another fiber changes. *)
Lemma dispatched_idle p f fb : f ≠ idle_fiber th →
  (∀ st, st = INIT ∨ st = HOLD ∨ st = TERM → idle_state p st) →
  ∃ fb', <[f := fb]> (fibers w) !! idle_fiber th = Some fb' ∧ use_caller fb' = true ∧
    idle_state p (m_state fb').
Proof.
  intros Hne Hst. destruct thread_now as [_ (fi & Eid & Huc & Hs) _ _]. rewrite Hp in Hs.
  exists fi. rewrite lookup_insert_ne by done. split_and!; [done|done|]. by apply Hst.
Qed.

Lemma selected_flight : in_flight th = None.
Proof. unfold in_flight. by rewrite Hp. Qed.

Lemma dispatch_fiber f fb : ft_fiber ft = Some f → fibers w !! f = Some fb → m_state fb ≠ EXEC →
  m_state fb ≠ TERM → m_state fb ≠ EXCEPT →
  ∃ w', (on_heap (resume f) ;; set_pc i (Running f false) ;; mret [Ran (th_id th) ft]) w
    = Ok ([Ran (th_id th) ft], w') ∧ world_inv w'.
Proof.
  intros Hf Efb H1 H2 H3. pose proof thread_now as [Hn _ Hcb _]. rewrite Hp in Hcb. simpl in Hcb.
  assert (Htf : task_fiber th = Some f) by (unfold task_fiber; by rewrite Hp).
  assert (Hown : ∀ g, g ∈ owned (moved th (Running f false)) ↔ g ∈ owned th)
    by (intros g; rewrite !elem_of_owned, Htf; done).
  apply owned_nodup in Hn as Hd. rewrite Htf in Hd.
  destruct (resume_runs f fb w Efb (wi_sane w Hw _ _ Efb) H1 H2 H3) as [Er Hs'].
  run Er. run set_pc_Ok. eexists; split; [reflexivity|].
  eapply (put_inv _ (moved th (Running f false)) f (with_state EXEC fb)); try done.
  - left. by apply owned_task.
  - intros g Hg. left. by apply Hown.
  - constructor.
    + revert Hn. rewrite !owned_nodup, Htf. done.
    + apply (dispatched_idle (Running f false)); [naive_solver|done].
    + simpl. intros c Hc. unfold state_of. rewrite lookup_insert_ne; [by apply Hcb|].
      intros <-. by apply (proj2 (proj2 Hd) f).
    + simpl. unfold state_of. by rewrite lookup_insert_eq.
  - by rewrite selected_flight.
Qed.
(** A callback runs in the fiber [c], reset or new, on a thread that keeps it. *)
Lemma callback_inv w' th' c fb :
  threads w' = <[i := th']> (threads w) → fibers w' = <[c := fb]> (fibers w) →
  m_fibers (sched w') = m_fibers (sched w) → sane fb → m_state fb = EXEC →
  th' = mkThread (th_id th) (Running c true) (Some c) (idle_fiber th) →
  (cb_fiber th = Some c ∨ fibers w !! c = None) → world_inv w'.
Proof.
  intros Et Ef Eq Hs Hx -> Hc.
  assert (Hci : c ≠ idle_fiber th).
  { intros ->. pose proof thread_now as [Hn (fi & Eid & _) _ _].
    destruct Hc as [Hc|Hc]; [|by rewrite Hc in Eid]. by apply owned_nodup in Hn as [? _]. }
  eapply (put_inv w' _ c fb Et Ef Eq); try done.
  - destruct Hc as [Hc|Hc]; [left; by apply owned_cb|right]. split; [|done]. by apply owned_cb.
  - intros g Hg. apply elem_of_owned in Hg as [->|[Hg|Hg]]; [left; exact (owned_idle th)| |done].
    right. by injection Hg.
  - constructor.
    + apply owned_nodup. simpl. split_and!; [naive_solver|done|done].
    + apply (dispatched_idle (Running c true)); done.
    + done.
    + simpl. unfold state_of. rewrite lookup_insert_eq. simpl. by rewrite Hx.
  - by rewrite selected_flight.
Qed.

Lemma dispatch_callback cb :
  ∃ w', (f ← match cb_fiber th with
             | Some f => on_heap (Fiber_reset f (Some cb)) ;; mret f
             | None => f ← alloc_fiber (new_Fiber cb true); set_cb_fiber i (Some f) ;; mret f
             end;
         on_heap (resume f) ;; set_pc i (Running f true) ;; mret [Ran (th_id th) ft]) w
    = Ok ([Ran (th_id th) ft], w') ∧ world_inv w'.
Proof.
  pose proof thread_now as [_ _ Hcb _]. rewrite Hp in Hcb. simpl in Hcb.
  destruct (cb_fiber th) as [c|] eqn:Ec.
  - specialize (Hcb c eq_refl). unfold state_of in Hcb. destruct (fibers w !! c) as [fb|] eqn:Efb; [|done].
    injection Hcb as Est.
    assert (Hr : resettable (m_state fb) = true) by by rewrite Est.
    run (reset_runs c fb (Some cb) w Efb (wi_sane w Hw _ _ Efb) Hr). run ret_run.
    run start_runs. run set_pc_Ok. eexists; split; [reflexivity|].
    eapply (callback_inv _ _ c); [reflexivity|done|done|by split|done| |by left].
    by rewrite Ec.
  - set (f := fresh (dom (fibers w))).
    assert (Hf : fibers w !! f = None) by apply not_elem_of_dom, is_fresh.
    run (eq_refl : alloc_fiber (new_Fiber cb true) w = Ok (f, _)). run set_cb_fiber_Ok. run ret_run.
    run start_runs. assert (Hlt : (i < length (threads w))%nat) by by eapply lookup_lt_Some.
    run set_pc_again.
    eexists; split; [reflexivity|].
    eapply (callback_inv _ _ f); [done|done|done|by split|done|done|by right].
Qed.

Lemma dispatch_drop :
  ∃ w', (on_sched (add_active (-1)) ;; set_pc i Searching ;; mret [Dropped ft]) w
    = Ok ([Dropped ft], w') ∧ world_inv w'.
Proof.
  pose proof thread_now as [Hn Hid Hcb _]. rewrite Hp in Hcb, Hid. simpl in Hcb.
  run on_sched_Ok. run set_pc_Ok. eexists; split; [reflexivity|].
  eapply (move_inv _ (moved th Searching)); try done.
  - intros f. rewrite !elem_of_owned. by intros [?|[?|[=]]]; auto.
  - constructor; try done. revert Hn. rewrite !owned_nodup. by intros (? & _ & _).
  - by rewrite selected_flight.
Qed.

Lemma dispatch_task : ∃ o w', run_dispatch i (Some ft) w = Ok (o, w') ∧ world_inv w'.
Proof.
  unfold run_dispatch. change (default no_task (Some ft)) with ft. rewrite bool_decide_eq_true_2 by done. run get_thread_Ok.
  pose proof thread_now as [_ _ _ Htk]. rewrite Hp in Htk. simpl in Htk.
  assert (Hcb : ∃ o w', match ft_cb ft with
    | Some cb => (f ← match cb_fiber th with
             | Some f => on_heap (Fiber_reset f (Some cb)) ;; mret f
             | None => f ← alloc_fiber (new_Fiber cb true); set_cb_fiber i (Some f) ;; mret f
             end;
         on_heap (resume f) ;; set_pc i (Running f true) ;; mret [Ran (th_id th) ft]) w
    | None => (on_sched (add_active (-1)) ;; set_pc i Searching ;; mret [Dropped ft]) w
    end = Ok (o, w') ∧ world_inv w').
  { destruct (ft_cb ft) as [cb|]; eexists; [apply dispatch_callback|apply dispatch_drop]. }
  destruct (ft_fiber ft) as [f|] eqn:Ef; [|run ret_run; by destruct (ft_cb ft)].
  destruct (Htk f eq_refl) as (st & Es & Hx). unfold state_of in Es.
  destruct (fibers w !! f) as [fb|] eqn:Efb; [|done]. injection Es as <-.
  run on_heap_getState. run ret_run.
  destruct (decide (m_state fb = TERM)) as [E|Ht]; [rewrite E; by destruct (ft_cb ft)|].
  destruct (decide (m_state fb = EXCEPT)) as [E|He]; [rewrite E; by destruct (ft_cb ft)|].
  rewrite !bool_decide_eq_false_2 by done. eexists. by eapply dispatch_fiber.
Qed.
End dispatch.
(** *** The fiber of a task comes back *)

Section settle.
Context (f : positive) (c : bool).

Lemma returned_step : th_pc th = Returned f c → ∃ w', run_returned i f c w = Ok (tt, w') ∧ world_inv w'.
Proof.
  intros Hp. pose proof thread_now as [Hn Hid Hcb Htk]. rewrite Hp in Hid, Hcb, Htk.
  assert (Htf : task_fiber (moved th (Settling f c)) = task_fiber th)
    by (unfold task_fiber; rewrite Hp; by destruct c).
  unfold run_returned. run on_sched_Ok. erewrite set_pc_Ok by exact Hi. eexists; split; [reflexivity|].
  eapply (move_inv _ (moved th (Settling f c))); try done.
  - intros g. by rewrite !elem_of_owned, Htf.
  - constructor; [|done|destruct c; done|done]. revert Hn. by rewrite !owned_nodup, Htf.
  - unfold in_flight. by rewrite Hp.
Qed.

Context (Hp : th_pc th = Settling f c).

Lemma settling_exists : ∃ fb, fibers w !! f = Some fb.
Proof.
  pose proof thread_now as [_ _ _ Htk]. rewrite Hp in Htk. destruct Htk as [st Es]. unfold state_of in Es.
  destruct (fibers w !! f) as [fb|]; [by exists fb|done].
Qed.

Lemma settling_owned : f ∈ owned th ∧ f ≠ idle_fiber th.
Proof.
  pose proof thread_now as [Hn _ Hcb _]. rewrite Hp in Hcb. apply owned_nodup in Hn as (H1 & H2 & _).
  unfold task_fiber in H2. rewrite Hp in H2. rewrite elem_of_owned. unfold task_fiber. rewrite Hp.
  destruct c; simpl in Hcb; naive_solver.
Qed.

(** The thread after it let the fiber go: without it, or keeping it reset. *)
Definition released : Thread := mkThread (th_id th) Searching (if c then None else cb_fiber th) (idle_fiber th).

Lemma released_owned g : g ∈ owned released → g ∈ owned th ∧ g ≠ f.
Proof.
  pose proof settling_owned as [_ Hne]. pose proof thread_now as [Hn _ _ _].
  apply owned_nodup in Hn as (_ & _ & Hd). unfold task_fiber in Hd. rewrite Hp in Hd.
  rewrite !elem_of_owned. unfold released, task_fiber. rewrite Hp. destruct c; simpl; naive_solver.
Qed.

Lemma released_ok h : (∀ g, g ≠ f → h !! g = fibers w !! g) → thread_ok h released.
Proof.
  intros Hh. pose proof settling_owned as [_ Hne]. pose proof thread_now as [Hn (fi & Eid & Huc & Hst) Hcb _].
  rewrite Hp in Hst, Hcb. apply owned_nodup in Hn as (Hn1 & _ & Hd). unfold task_fiber in Hd. rewrite Hp in Hd.
  constructor; [| | |done].
  - apply owned_nodup. unfold released, task_fiber. simpl. split_and!; [by destruct c|done|done].
  - exists fi. simpl. rewrite Hh by done. done.
  - unfold released. simpl. intros g Hg. destruct c; [done|]. simpl in *.
    unfold state_of. rewrite Hh; [by apply Hcb|]. intros ->. by apply (Hd f).
Qed.

Lemma settle_ready fb w' : fibers w !! f = Some fb → m_state fb = READY →
  threads w' = <[i := released]> (threads w) → fibers w' = fibers w →
  m_fibers (sched w') = m_fibers (sched w) ++ [new_task (AFiber f) (-1)] → world_inv w'.
Proof.
  intros Efb Est Et Ef Eq. pose proof Hw as [].
  assert (Hnq : f ∉ queued w).
  { intros Hq. destruct (wi_shared i th f Hi Hq (proj1 settling_owned)) as [_ Hx].
    unfold state_of in Hx. rewrite Efb in Hx. simpl in Hx. congruence. }
  eapply (world_inv_update w w' i th released); unfold queued in *; rewrite ?Ef, ?Eq; eauto.
  - intros g Hg%released_owned. left. apply Hg.
  - by apply released_ok.
  - apply Forall_app_2; [done|]. apply Forall_singleton. unfold task_ok. simpl. eauto.
  - rewrite queued_app. simpl. apply NoDup_app. split_and!; [done| |apply NoDup_singleton].
    intros g Hg ->%list_elem_of_singleton. done.
  - intros g. rewrite queued_app, elem_of_app. simpl. rewrite list_elem_of_singleton.
    intros [Hg|Hg]; [by left|subst g; right; apply settling_owned].
  - intros g. rewrite queued_app, elem_of_app. simpl. rewrite list_elem_of_singleton.
    intros [Hg|Hg] Ho; apply released_owned in Ho as [Ho Hne]; [|done]. exfalso.
    destruct (wi_shared i th g Hi Hg Ho) as [Hfl _]. unfold in_flight in Hfl. rewrite Hp in Hfl. congruence.
Qed.

Lemma settle_hold fb w' : fibers w !! f = Some fb → m_state fb ≠ TERM → m_state fb ≠ EXCEPT →
  threads w' = <[i := released]> (threads w) → fibers w' = <[f := with_state HOLD fb]> (fibers w) →
  m_fibers (sched w') = m_fibers (sched w) → world_inv w'.
Proof.
  intros Efb H1 H2 Et Ef Eq. destruct (wi_sane w Hw f fb Efb) as [Hs He].
  rewrite !bool_decide_eq_false_2 in He by done.
  eapply (put_inv w' released f (with_state HOLD fb)); try done.
  - left. apply settling_owned.
  - intros g Hg%released_owned. left. apply Hg.
  - apply released_ok. intros g Hne. by rewrite lookup_insert_ne.
  - intros g Hfl _ Ho%released_owned. unfold in_flight in Hfl. rewrite Hp in Hfl. naive_solver.
Qed.

(** The fiber ended: one of the queue is dropped, that for callbacks is reset. *)
Lemma settle_end fb w' : fibers w !! f = Some fb → m_state fb = TERM ∨ m_state fb = EXCEPT →
  threads w' = <[i := moved th Searching]> (threads w) →
  fibers w' = (if c then <[f := mkFiber INIT (use_caller fb) None true false]> (fibers w) else fibers w) →
  m_fibers (sched w') = m_fibers (sched w) → world_inv w'.
Proof.
  intros Efb Hend Et Ef Eq. pose proof settling_owned as [Hof Hne]. 
  assert (Hrel : c = false → f ∉ owned (moved th Searching)).
  { intros Hc Ho. apply (released_owned f); [|done]. unfold released. rewrite Hc. exact Ho. }
  pose proof thread_now as [Hn Hid Hcb _]. rewrite Hp in Hid, Hcb.
  assert (Hown : ∀ g, g ∈ owned (moved th Searching) → g ∈ owned th)
    by (intros g; rewrite !elem_of_owned; naive_solver).
  assert (Hdup : NoDup (owned (moved th Searching)))
    by (revert Hn; rewrite !owned_nodup; naive_solver).
  destruct c.
  - eapply (put_inv w' (moved th Searching) f); try done; [by left|auto| |].
    + constructor; [done| | |done].
      * destruct Hid as (fi & Eid & ?). exists fi. simpl. by rewrite lookup_insert_ne.
      * simpl in *. intros g Hg. unfold state_of. rewrite Hcb in Hg. simplify_eq. by rewrite lookup_insert_eq.
    + intros g Hfl Hx. unfold in_flight in Hfl. rewrite Hp in Hfl. simplify_eq.
      unfold state_of in Hx. rewrite Efb in Hx. simpl in Hx. destruct Hend; congruence.
  - eapply (move_inv w' (moved th Searching)); try done. intros g Hfl Ho. exfalso.
    unfold in_flight in Hfl. rewrite Hp in Hfl. injection Hfl as <-.
    by apply Hrel.
Qed.

Lemma settle_step : ∃ o w', run_settle i f c w = Ok (o, w') ∧ world_inv w'.
Proof.
  destruct settling_exists as [fb Efb]. unfold run_settle. run on_heap_getState.
  assert (Hlt : (i < length (threads w))%nat) by by eapply lookup_lt_Some.
  assert (Hend : m_state fb = TERM ∨ m_state fb = EXCEPT → ∃ o w',
    (o ← ((if c then on_heap (Fiber_reset f None) else mret tt) ;; mret []);
     set_pc i Searching ;; mret o) w = Ok (o : list obs, w') ∧ world_inv w').
  { intros He. pose proof (settle_end fb) as Hin. destruct c.
    - assert (Hr : resettable (m_state fb) = true) by (destruct He as [-> | ->]; done).
      run (reset_runs f fb None w Efb (wi_sane w Hw _ _ Efb) Hr). run ret_run. run set_pc_Ok.
      eexists _, _. split; [reflexivity|]. by eapply Hin.
    - run ret_run. run ret_run. run set_pc_Ok. eexists _, _. split; [reflexivity|]. by eapply Hin. }
  destruct (decide (m_state fb = READY)) as [Er|Er].
  - destruct (schedule_run (AFiber f) (-1) w) as [n Es]. run Es. pose proof (settle_ready fb) as Hin.
    unfold released in Hin. destruct c.
    + run set_cb_fiber_Ok. run ret_run. run set_pc_again. eexists _, _. split; [reflexivity|]. by eapply Hin.
    + run ret_run. run ret_run. run set_pc_Ok. eexists _, _. split; [reflexivity|]. by eapply Hin.
  - destruct (decide (m_state fb = TERM)) as [Et|Et]; [apply Hend; by left|].
    destruct (decide (m_state fb = EXCEPT)) as [Ex|Ex]; [apply Hend; by right|].
    run (on_heap_Ok _ _ _ w (set_state_Ok _ f HOLD fb Efb)).
    pose proof (settle_hold fb) as Hin. unfold released in Hin. destruct c.
    + run set_cb_fiber_Ok. run ret_run. run set_pc_again. eexists _, _. split; [reflexivity|]. by eapply Hin.
    + run ret_run. run ret_run. run set_pc_Ok. eexists _, _. split; [reflexivity|]. by eapply Hin.
Qed.
End settle.

(** *** The idle fiber *)

Lemma idle_owned p g : task_fiber th = None → task_fiber (moved th p) = None →
  g ∈ owned (moved th p) → g ∈ owned th.
Proof. intros H1 H2. rewrite !elem_of_owned, H1, H2. done. Qed.

(** The idle fiber in a new state. *)
Lemma idle_inv w' p fb : task_fiber th = None → in_flight th = None → runs_cb (th_pc th) = None →
  task_fiber (moved th p) = None → runs_cb p = None → (∀ h, task_state h p) →
  threads w' = <[i := moved th p]> (threads w) → fibers w' = <[idle_fiber th := fb]> (fibers w) →
  m_fibers (sched w') = m_fibers (sched w) → sane fb → use_caller fb = true → idle_state p (m_state fb) →
  world_inv w'.
Proof.
  intros Htf Hfl Hrc Htf' Hrc' Htk' Et Ef Eq Hs Huc Hst. pose proof thread_now as [Hn _ Hcb _].
  rewrite Hrc in Hcb.
  eapply (put_inv w' (moved th p) (idle_fiber th) fb Et Ef Eq Hs).
  - left. apply owned_idle.
  - intros g Hg. left. by eapply idle_owned.
  - constructor; [| | |apply Htk'].
    + revert Hn. by rewrite !owned_nodup, Htf, Htf'.
    + exists fb. simpl. by rewrite lookup_insert_eq.
    + simpl. rewrite Hrc'. intros g Hg. unfold state_of. rewrite lookup_insert_ne; [by apply Hcb|].
      intros <-. by apply owned_nodup in Hn as [? _].
  - by rewrite Hfl.
Qed.

Lemma idle_turn_step : th_pc th = Idling → ∃ w', idle_turn i w = Ok (tt, w') ∧ world_inv w'.
Proof.
  intros Hp. pose proof thread_now as [_ (fb & Eid & Huc & Hst) _ _]. rewrite Hp in Hst. simpl in Hst.
  destruct (wi_sane w Hw _ _ Eid) as [Hs He]. rewrite Hst in He.
  unfold idle_turn. run get_thread_Ok. unfold stopping at 1. run gets_run.
  set (b := _ && _). run (on_heap_Ok _ _ _ w (Fiber_run_Ok _ _ _ (if b then Returns else Suspends) Eid Hst He)).
  erewrite set_pc_Ok by exact Hi. eexists; split; [reflexivity|].
  eapply (idle_inv _ IdleReturned); try done; try (unfold task_fiber, in_flight; by rewrite Hp); rewrite ?Hp, ?Huc; try done.
  - split; [done|]. by destruct b.
  - destruct b; simpl; auto.
Qed.

Lemma idle_returned_step : th_pc th = IdleReturned → ∃ w', run_idle_returned i w = Ok (tt, w') ∧ world_inv w'.
Proof.
  intros Hp. pose proof thread_now as [_ (fb & Eid & Huc & Hst) _ _]. rewrite Hp in Hst. simpl in Hst.
  pose proof (wi_sane w Hw _ _ Eid) as Hs.
  unfold run_idle_returned. run get_thread_Ok. run on_sched_Ok. run on_heap_getState.
  destruct Hst as [Hst|Hst].
  - rewrite Hst, !bool_decide_eq_false_2 by done. cbn [negb andb].
    run (on_heap_Ok _ _ _ (set_sched _ w) (set_state_Ok _ _ HOLD fb Eid)).
    erewrite set_pc_Ok by exact Hi. eexists; split; [reflexivity|].
    eapply (idle_inv _ Searching (with_state HOLD fb)); try done;
      try (unfold task_fiber, in_flight; by rewrite Hp); rewrite ?Hp; try done; [|simpl; auto].
    destruct Hs as [Hs He]. split; [done|]. by rewrite Hst in He.
  - rewrite Hst. run ret_run. erewrite set_pc_Ok by exact Hi. eexists; split; [reflexivity|].
    eapply (idle_inv _ Searching fb); try done;
      try (unfold task_fiber, in_flight; by rewrite Hp); rewrite ?Hp; try done; [|simpl; auto].
    cbn. by rewrite insert_id.
Qed.
End step.

(** Every step of a thread that is in [run], outside the functions of the
    fibers, succeeds and keeps the invariant. *)
Lemma run_step_total w i th :
  world_inv w → threads w !! i = Some th → th_pc th ≠ Exited → (∀ f c, th_pc th ≠ Running f c) →
  ∃ o w', run_step i w = Ok (o, w') ∧ world_inv w'.
Proof.
  intros Hw Hi He Hr. unfold run_step. run get_thread_Ok. destruct (th_pc th) as [|[ft|]|f c|f c|f c| | |] eqn:Hp.
  - destruct (search_step w i th Hw Hi Hp) as (w' & E & H). run E. by eexists _, _.
  - by apply (dispatch_task w i th).
  - eexists. by apply (dispatch_none w i th).
  - by destruct (Hr f c).
  - destruct (returned_step w i th Hw Hi f c Hp) as (w' & E & H). run E. by eexists _, _.
  - by apply (settle_step w i th).
  - destruct (idle_turn_step w i th Hw Hi Hp) as (w' & E & H). run E. by eexists _, _.
  - destruct (idle_returned_step w i th Hw Hi Hp) as (w' & E & H). run E. by eexists _, _.
  - done.
Qed.

(** ** The events of the program *)

Lemma schedule_inv fc thread w w' o :
  world_inv w → may_schedule_fc w fc → schedule_event fc thread w = Ok (o, w') → world_inv w'.
Proof.
  intros Hw Hmay E. unfold schedule_event in E. destruct (schedule_run fc thread w) as [n Es].
  erewrite bind_run in E by exact Es. injection E as <- <-. pose proof Hw as [].
  destruct fc as [f|cb]; constructor; unfold queued in *; cbn; try done.
  - apply Forall_app_2; [done|]. apply Forall_singleton. unfold task_ok. simpl. apply Hmay.
  - rewrite queued_app. simpl. destruct Hmay as (_ & Hnq & _). apply NoDup_app.
    split_and!; [done| |apply NoDup_singleton]. by intros g Hg ->%list_elem_of_singleton.
  - intros i th g Hi. rewrite queued_app, elem_of_app. simpl. rewrite list_elem_of_singleton.
    intros [Hg|Hg] Ho; [by eapply wi_shared|subst g].
    destruct Hmay as (_ & _ & Hm). by eapply Hm.
  - apply Forall_app_2; [done|]. apply Forall_singleton. unfold task_ok. simpl. eauto.
  - rewrite queued_app. simpl. by rewrite app_nil_r.
  - intros i th g Hi. rewrite queued_app. simpl. rewrite app_nil_r. by eapply wi_shared.
Qed.

Lemma body_end_inv i o w w' :
  world_inv w → disciplined w (BodyEnd i o) → body_end i o w = Ok (tt, w') → world_inv w'.
Proof.
  intros Hw Hd E. unfold body_end in E. apply bind_Ok in E as (th & w1 & E1 & E).
  unfold get_thread in E1. mrun. destruct (threads w !! i) as [th'|] eqn:Hi; simplify_eq.
  destruct (th_pc th) as [| |f c| | | | |] eqn:Hp; try done.
  pose proof (wi_threads w1 Hw i th Hi) as [Hn Hid Hcb Htk]. rewrite Hp in Hid, Hcb, Htk.
  unfold task_state, state_of in Htk. destruct (fibers w1 !! f) as [fb|] eqn:Efb; [|done]. injection Htk as Hx.
  destruct (wi_sane w1 Hw f fb Efb) as [Hs He]. rewrite Hx in He.
  erewrite on_heap_Ok in E by (by apply Fiber_run_Ok). rewrite (set_pc_Ok i _ th) in E by done. injection E as <-.
  destruct (Hd th f c eq_refl Hp fb Efb) as [Hq Ht].
  assert (Htf : task_fiber (moved th (Returned f c)) = task_fiber th)
    by (unfold task_fiber; rewrite Hp; by destruct c).
  assert (Hof : f ∈ owned th).
  { apply elem_of_owned. unfold task_fiber. rewrite Hp. destruct c; auto. }
  assert (Hfi : f ≠ idle_fiber th).
  { apply owned_nodup in Hn as (H1 & H2 & _). unfold task_fiber in H2. rewrite Hp in H2.
    destruct c; simpl in Hcb; naive_solver. }
  eapply (world_inv_update w1 _ i th (moved th (Returned f c))); try done.
  - intros g Hg _. cbn. apply lookup_insert_ne. by intros ->.
  - intros g Hg. left. revert Hg. by rewrite !elem_of_owned, Htf.
  - intros g gb. cbn. intros [[<- <-]|[_ Hg]]%lookup_insert_Some; [|by eapply wi_sane].
    split; [done|]. destruct o, (use_caller fb); simpl in *; naive_solver.
  - constructor; cbn.
    + revert Hn. by rewrite !owned_nodup, Htf.
    + destruct Hid as (fi & Eid & ?). exists fi. by rewrite lookup_insert_ne.
    + destruct c; [done|]. simpl in *. intros g Hg. unfold state_of. rewrite lookup_insert_ne; [by apply Hcb|].
      intros <-. apply owned_nodup in Hn as (_ & _ & Hdd). unfold task_fiber in Hdd. rewrite Hp in Hdd. by apply (Hdd f).
    + unfold state_of. rewrite lookup_insert_eq. by eexists.
  - cbn. eapply Forall_impl; [apply Hw|]. intros ft. unfold task_ok. destruct (ft_fiber ft); [|done].
    intros. apply lookup_insert_is_Some'. by right.
  - apply Hw.
  - intros g Hg. by left.
  - intros g Hg Ho. assert (Hg' : g ∈ owned th) by (revert Ho; by rewrite !elem_of_owned, Htf).
    destruct (wi_shared w1 Hw i th g Hi Hg Hg') as [Hfl _]. unfold in_flight in Hfl. rewrite Hp in Hfl.
    injection Hfl as <-. split; [done|]. destruct (Hq Hg) as [-> Huc]. unfold state_of. cbn.
    by rewrite lookup_insert_eq, Huc.
Qed.

(** A fiber outside the scheduler changes. *)
Lemma outside_inv w f fb :
  world_inv w → (f ∉ queued w) → (∀ i th, threads w !! i = Some th → f ∉ owned th) → sane fb →
  world_inv (mkWorld (sched w) (<[f := fb]> (fibers w)) (threads w)).
Proof.
  intros Hw Hq Ho Hs. pose proof Hw as []. constructor; cbn; try done.
  - intros g gb [[<- <-]|[_ Hg]]%lookup_insert_Some; [done|by eapply wi_sane].
  - intros i th Hi. eapply thread_ok_heap; [|by eapply wi_threads]. intros g Hg.
    apply lookup_insert_ne. intros ->. by apply (Ho i th).
  - eapply Forall_impl; [done|]. intros ft. unfold task_ok. destruct (ft_fiber ft); [|done].
    intros. apply lookup_insert_is_Some'. by right.
  - intros i th g Hi Hg Hgo. destruct (wi_shared i th g Hi Hg Hgo) as [? Hx]. split; [done|].
    unfold state_of. rewrite lookup_insert_ne; [done|]. intros <-. by apply (Ho i th).
Qed.

(** A thread enters [run] with a new idle fiber. *)
Lemma enter_run_inv tid cb w : world_inv w → ∃ w', enter_run tid cb w = Ok (tt, w') ∧ world_inv w'.
Proof.
  intros Hw. set (f := fresh (dom (fibers w))).
  assert (Hf : fibers w !! f = None) by apply not_elem_of_dom, is_fresh.
  assert (Ho : ∀ i th, threads w !! i = Some th → f ∉ owned th).
  { intros i th Hi Ho. destruct (owned_exists w Hw i th f Hi Ho) as [? ?]. congruence. }
  assert (Hq : f ∉ queued w).
  { unfold queued. rewrite list_elem_of_omap. intros (ft & Hin & Eft). pose proof (wi_tasks w Hw) as Ht.
    rewrite Forall_forall in Ht. apply Ht in Hin. unfold task_ok in Hin. rewrite Eft in Hin.
    destruct Hin. congruence. }
  assert (Hs : sane (new_Fiber cb true)) by by split.
  pose proof (outside_inv w f (new_Fiber cb true) Hw Hq Ho Hs) as [].
  exists (mkWorld (sched w) (<[f := new_Fiber cb true]> (fibers w)) (threads w ++ [mkThread tid Searching None f])).
  split; [done|]. cbn in *.
  assert (Hin : ∀ i th, (threads w ++ [mkThread tid Searching None f]) !! i = Some th →
    threads w !! i = Some th ∨ i = length (threads w) ∧ th = mkThread tid Searching None f).
  { intros i th [Hi|[Hl Hi]]%lookup_app_Some; [by left|right].
    destruct (i - length (threads w))%nat eqn:E; [|done]. injection Hi as <-. split; [lia|done]. }
  assert (Hnew : ∀ g, g ∈ owned (mkThread tid Searching None f) → g = f)
    by (intros g; rewrite elem_of_owned; naive_solver).
  constructor; cbn; try done.
  - intros i th [Hi|[-> ->]]%Hin; [by eapply wi_threads|]. constructor; [|..|done]; cbn; [|..|done].
    + apply owned_nodup. done.
    + exists (new_Fiber cb true). rewrite lookup_insert_eq. simpl. auto.
  - intros i j th1 th2 g [Hi|[-> ->]]%Hin [Hj|[-> ->]]%Hin H1 H2; [by eapply wi_apart| | |done].
    + apply Hnew in H2 as ->. by destruct (Ho i th1).
    + apply Hnew in H1 as ->. by destruct (Ho j th2).
  - intros i th g [Hi|[-> ->]]%Hin Hg Hgo; [by eapply wi_shared|]. by apply Hnew in Hgo as ->.
Qed.

Lemma stop_root_inv tid cb w w' :
  world_inv w → disciplined w (StopRoot tid cb) → stop_root tid cb w = Ok (tt, w') → world_inv w'.
Proof.
  intros Hw Hd E. unfold stop_root in E. erewrite bind_run in E by apply gets_run. unfold id in E.
  destruct (m_rootFiber (sched w)) as [r|] eqn:Hr; [|by injection E as <-].
  destruct (Hd r Hr) as [Hq Ho].
  unfold stopping in E. erewrite bind_run in E by apply gets_run. destruct (_ && _); [by injection E as <-|].
  apply bind_Ok in E as ([] & w1 & E1 & E). unfold on_heap in E1.
  destruct (resume r (fibers w)) as [[[] h]|] eqn:Er; [|done]. injection E1 as <-.
  assert (∃ fb, h = <[r := fb]> (fibers w) ∧ sane fb) as (fb & -> & Hs).
  { unfold resume, set_state, get_fiber, put_fiber in Er. mrun.
    destruct (fibers w !! r) as [fb|] eqn:Ef; [|done]. destruct (wi_sane w Hw r fb Ef) as [Hst He].
    destruct (bool_decide (m_state fb = EXEC)); [done|]. simpl in Er. rewrite Ef in Er.
    destruct (ended fb) eqn:Hen; [done|]. injection Er as <-. eexists. split; [done|]. split; [done|]. simpl. done. }
  destruct (enter_run_inv tid cb _ (outside_inv w r fb Hw Hq Ho Hs)) as (w2 & E2 & H2).
  rewrite E2 in E. by injection E as <-.
Qed.

Lemma exec_inv e o w w' : world_inv w → disciplined w e → exec e w = Ok (o, w') → world_inv w'.
Proof.
  intros Hw Hd E. destruct e as [i|i fc thread|i out|fc thread|same|tid cb]; simpl exec in E.
  - assert (∃ th, threads w !! i = Some th) as [th Hi].
    { unfold run_step in E. apply bind_Ok in E as (th & w1 & E1 & _). unfold get_thread in E1. mrun.
      destruct (threads w !! i); [by eexists|done]. }
    assert ((th_pc th = Exited ∨ ∃ f c, th_pc th = Running f c) ∨
      th_pc th ≠ Exited ∧ ∀ f c, th_pc th ≠ Running f c) as [Hno|Hyes]
      by (destruct (th_pc th); naive_solver).
    + unfold run_step in E. erewrite bind_run in E by (by apply get_thread_Ok).
      destruct Hno as [Hx|(f & c & Hx)]; by rewrite Hx in E.
    + destruct (run_step_total w i th Hw Hi) as (o2 & w2 & E2 & H2); [naive_solver|naive_solver|].
      rewrite E2 in E. by injection E as <- <-.
  - apply bind_Ok in E as (th & w1 & E1 & E).
    assert (w1 = w) as -> by (unfold get_thread in E1; mrun; destruct (threads w !! i); [by injection E1|done]).
    destruct (th_pc th); try done. by eapply schedule_inv.
  - apply bind_Ok in E as ([] & w1 & E1 & [= <- <-]). by eapply body_end_inv.
  - by eapply schedule_inv.
  - apply bind_Ok in E as (b & w1 & E1 & [= <- <-]).
    apply (stop_begin_flags same w) in E1 as []. by eapply world_inv_ext.
  - apply bind_Ok in E as ([] & w1 & E1 & [= <- <-]). by eapply stop_root_inv.
Qed.
