(* ===== verification/SchedulerProps.v ===== *)
(** * SchedulerProps: what the scheduler guarantees

    From the start of a scheduler, for every interleaving of its threads with
    the program: tasks are conserved and counted; under the discipline no step
    aborts and no fiber runs twice at a time; when stopping is announced the
    threads drain; and what goes wrong without the discipline. *)

From S2P Require Import Prelude Fiber Scheduler SchedulerFacts SchedulerInv SchedulerSteps.

Implicit Types w : World.
Implicit Types th : Thread.

(** ** The start *)

(** A scheduler made by its constructor and started, beside the fibers of the
    program. *)
Definition launched w : Prop :=
  ∃ threads use_caller tid root ids idle_cb h s,
    new_Scheduler threads use_caller tid root = Ok s ∧
    (∀ f fb, h !! f = Some fb → sane fb) ∧
    start ids idle_cb (mkWorld s h []) = Ok (tt, w).

(** Nothing has been scheduled yet. *)
Record idle_world w : Prop := {
  iw_inv : world_inv w;
  iw_fibers : m_fibers (sched w) = [];
  iw_active : m_activeThreadCount (sched w) = 0;
  iw_idle : m_idleThreadCount (sched w) = 0;
  iw_threads : Forall (λ th, th_pc th = Searching) (threads w)
}.

Lemma launched_idle w : launched w → idle_world w.
Proof.
  intros (n & uc & tid & root & ids & cb & h & s & Hs & Hh & E).
  assert (H0 : idle_world (mkWorld s h [])).
  { unfold new_Scheduler in Hs. destruct (0 <? n)%nat; [|done]. destruct uc; injection Hs as <-;
      (constructor; try done; constructor; try done; constructor). }
  unfold start in E. erewrite bind_run in E by apply gets_run. unfold id in E. cbn [sched] in E.
  destruct (negb (m_stopping s)); [by injection E as <-|].
  erewrite bind_run in E by apply on_sched_Ok.
  eapply (for_each_inv idle_world); [| |exact E].
  - intros t w1 w2 _ [] E1. apply bind_Ok in E1 as ([] & w3 & E3 & E1). injection E1 as <-.
    destruct (enter_run_inv t cb w1) as (w4 & E4 & H4); [done|]. rewrite E4 in E3. injection E3 as <-.
    unfold enter_run, alloc_fiber, mbind, M_bind, gets, modify, mret, M_ret in E4. injection E4 as <-.
    constructor; cbn in *; try done; [by eapply world_inv_ext|]. apply Forall_app. by repeat constructor.
  - destruct H0. constructor; cbn; try done. by eapply world_inv_ext.
Qed.

(** ** Tasks are conserved *)

Lemma total_zero f l : Forall (λ th, f th = 0) l → total f l = 0.
Proof. induction 1 as [|th l Hth _ IH]; [done|]. simpl. lia. Qed.

Lemma total_none f l : (∀ th, 0 <= f th) → total f l = 0 → Forall (λ th, f th = 0) l.
Proof.
  intros Hf. assert (Hp : ∀ l, 0 <= total f l).
  { intros k. induction k as [|th k IH]; simpl; [done|]. pose proof (Hf th). lia. }
  induction l as [|th l IH]; simpl; [constructor|]. intros H0. pose proof (Hf th). pose proof (Hp l).
  constructor; [lia|]. apply IH. lia.
Qed.

Lemma active_nonneg th : 0 <= active th.
Proof. unfold active. repeat case_match; lia. Qed.

Lemma inactive_held l : Forall (λ th, active th = 0) l → l ≫= held = [].
Proof.
  induction 1 as [|th l Hth _ IH]; [done|]. cbn [mbind list_bind]. rewrite IH. unfold active, held in *.
  by repeat case_match.
Qed.

Lemma idle_world_accounts w0 tr w : idle_world w0 → accounts w0 tr w →
  m_activeThreadCount (sched w) = total active (threads w) ∧
  m_idleThreadCount (sched w) = total idle (threads w) ∧
  m_fibers (sched w) ++ (threads w ≫= held) ++ ran tr ++ dropped tr ≡ₚ scheduled tr ∧
  Forall obs_allowed tr.
Proof.
  intros [_ Hf Ha Hi Hth] [T A I L].
  assert (H0 : Forall (λ th, active th = 0 ∧ idle th = 0 ∧ held th = []) (threads w0)).
  { eapply Forall_impl; [exact Hth|]. intros th Hp. unfold active, idle, held. by rewrite Hp. }
  rewrite Hf in T. rewrite Ha, (total_zero active (threads w0)) in A by (eapply Forall_impl; [exact H0|]; by intros ? []).
  rewrite Hi, (total_zero idle (threads w0)) in I by (eapply Forall_impl; [exact H0|]; by intros ? (_ & ? & _)).
  rewrite (inactive_held (threads w0)) in T by (eapply Forall_impl; [exact H0|]; by intros ? []).
  split_and!; [lia|lia|done|]. apply L. eapply Forall_impl; [exact H0|].
  intros th (_ & _ & Hh). unfold holds_allowed. by rewrite Hh.
Qed.

(** (C12) No task is lost or run twice, whatever the interleaving and whatever
    the program does: at any time every task that was scheduled is in the
    queue, in the hands of one thread, was run or was dropped because its
    fiber had ended.  A task for one thread only runs there.  The two counters
    count the threads that hold or run a task and those in the idle fiber, so
    when [stopping] answers true every task has been run or dropped. *)
Theorem scheduler_conserves_tasks w0 tr w (H0 : launched w0) (Hs : steps w0 tr w) :
  m_fibers (sched w) ++ (threads w ≫= held) ++ ran tr ++ dropped tr ≡ₚ scheduled tr ∧
  (∀ tid ft, Ran tid ft ∈ tr → ft_thread ft = -1 ∨ ft_thread ft = tid) ∧
  m_activeThreadCount (sched w) = total active (threads w) ∧
  m_idleThreadCount (sched w) = total idle (threads w) ∧
  (stopping w = Ok (true, w) → ran tr ++ dropped tr ≡ₚ scheduled tr).
Proof.
  destruct (idle_world_accounts w0 tr w (launched_idle _ H0) (steps_accounts _ _ _ Hs)) as (A & I & T & L).
  split_and!; [done| |done|done|].
  - intros tid ft Hin. rewrite Forall_forall in L. by apply L in Hin.
  - intros [= Hst]. apply andb_true_iff in Hst as [Hst Ha]. apply andb_true_iff in Hst as [_ Hq].
    apply bool_decide_eq_true_1 in Hq. apply Z.eqb_eq in Ha. rewrite Hq in T.
    rewrite (inactive_held (threads w)) in T; [done|]. apply total_none; [apply active_nonneg|lia].
Qed.

(** ** Disciplined programs do not abort *)

Inductive disciplined_steps : World → list obs → World → Prop :=
  | ds_refl w : disciplined_steps w [] w
  | ds_next w tr w1 e o w2 : disciplined_steps w tr w1 → disciplined w1 e → exec e w1 = Ok (o, w2) →
      disciplined_steps w (tr ++ o) w2.

Lemma disciplined_inv w tr w' : disciplined_steps w tr w' → world_inv w → world_inv w'.
Proof. induction 1 as [|w tr w1 e o w2 _ IH Hd E]; intros Hw; [done|]. by eapply exec_inv; [apply IH| |]. Qed.

Lemma disciplined_are_steps w tr w' : disciplined_steps w tr w' → steps w tr w'.
Proof. induction 1; by econstructor. Qed.

Lemma running_owned th f c h : thread_ok h th → th_pc th = Running f c → f ∈ owned th.
Proof.
  intros [_ _ Hcb _] Hp. rewrite Hp in Hcb. apply elem_of_owned. unfold task_fiber. rewrite Hp.
  destruct c; auto.
Qed.

(** (C14) If the program schedules a fiber again only after it has run (or while
    it runs and is about to suspend itself), and only fibers of the scheduler
    throw, then nothing goes wrong inside the scheduler, whatever the
    interleaving: every step of every thread that is not executing a task
    succeeds - no assertion of [run], [resume] or [reset] fails -, no fiber
    runs on two threads at a time, and a fiber that runs is marked EXEC. *)
Theorem scheduler_never_aborts w0 tr w (H0 : launched w0) (Hs : disciplined_steps w0 tr w) :
  (∀ i th, threads w !! i = Some th →
    th_pc th = Exited ∨ (∃ f c, th_pc th = Running f c ∧ state_of (fibers w) f = Some EXEC) ∨
    ∃ o w', run_step i w = Ok (o, w')) ∧
  (∀ i j th1 th2 f c1 c2, threads w !! i = Some th1 → threads w !! j = Some th2 →
    th_pc th1 = Running f c1 → th_pc th2 = Running f c2 → i = j).
Proof.
  pose proof (disciplined_inv _ _ _ Hs (iw_inv _ (launched_idle _ H0))) as Hw. split.
  - intros i th Hi. destruct (th_pc th) as [| |f c| | | | |] eqn:Hp; [right; right|right; right|right; left| | | | |by left].
    3: { exists f, c. split; [done|]. pose proof (tk_task _ _ (wi_threads _ Hw i th Hi)) as Ht. by rewrite Hp in Ht. }
    all: try (right; right). all: destruct (run_step_total w i th Hw Hi) as (o & w' & E & _); try naive_solver congruence.
  - intros i j th1 th2 f c1 c2 Hi Hj H1 H2. eapply (wi_apart _ Hw i j th1 th2 f Hi Hj).
    + eapply running_owned; [by eapply wi_threads|done].
    + eapply running_owned; [by eapply wi_threads|done].
Qed.
