(* ===== verification/SchedulerStop.v ===== *)
(** * SchedulerStop: how the threads leave [run]

    Once [stopping] answers true and no thread is about to put a READY fiber
    back, nothing is scheduled any more and every thread leaves [run] after a
    bounded number of its own steps, in any order.  Then what happens outside
    the discipline and outside that condition. *)

From S2P Require Import Prelude Fiber Scheduler SchedulerFacts SchedulerInv SchedulerSteps SchedulerProps.

Implicit Types w : World.
Implicit Types th : Thread.

(** A thread at rest has no task. *)
Definition at_rest (p : pc) : Prop :=
  match p with Selected (Some _) | Running _ _ | Returned _ _ => False | _ => True end.

(** The scheduler drains. *)
Record draining w : Prop := {
  dr_inv : world_inv w;
  dr_flags : m_autoStop (sched w) && m_stopping (sched w) = true;
  dr_fibers : m_fibers (sched w) = [];
  dr_active : m_activeThreadCount (sched w) = 0;
  dr_rest : ∀ i th, threads w !! i = Some th → at_rest (th_pc th) ∧
    ∀ f c, th_pc th = Settling f c → state_of (fibers w) f ≠ Some READY
}.

(** The steps a thread still has to make, at most. *)
Definition rank (h : heap) th : nat :=
  let ended := bool_decide (state_of h (idle_fiber th) = Some TERM) in
  match th_pc th with
  | Exited => 0
  | Selected _ => if ended then 1 else 5
  | Searching => if ended then 2 else 6
  | Idling => 4
  | _ => if ended then 3 else 7
  end.

Definition work w : nat := sum_list_with (rank (fibers w)) (threads w).

(** What a step of a thread at rest does while the scheduler drains. *)
Record drains w (i : nat) th (o : list obs) w' : Prop := {
  ds_obs : o = [];
  ds_sched : m_fibers (sched w') = [] ∧ m_autoStop (sched w') = m_autoStop (sched w) ∧
    m_stopping (sched w') = m_stopping (sched w) ∧
    m_activeThreadCount (sched w') = m_activeThreadCount (sched w);
  ds_thread : ∃ th', threads w' = <[i := th']> (threads w) ∧ at_rest (th_pc th') ∧
    (∀ f c, th_pc th' ≠ Settling f c) ∧ (rank (fibers w') th' < rank (fibers w) th)%nat;
  ds_heap : ∀ f, f ∉ owned th → fibers w' !! f = fibers w !! f
}.

Section drain.
Context (w : World) (i : nat) (th : Thread).
Context (Hd : draining w) (Hi : threads w !! i = Some th).

Lemma drained w' th' :
  threads w' = <[i := th']> (threads w) → m_fibers (sched w') = [] →
  m_autoStop (sched w') = m_autoStop (sched w) → m_stopping (sched w') = m_stopping (sched w) →
  m_activeThreadCount (sched w') = m_activeThreadCount (sched w) →
  at_rest (th_pc th') → (∀ f c, th_pc th' ≠ Settling f c) → (rank (fibers w') th' < rank (fibers w) th)%nat →
  (∀ f, f ∉ owned th → fibers w' !! f = fibers w !! f) → drains w i th [] w'.
Proof. intros. constructor; try done. by exists th'. Qed.

Lemma drain_idle : ∃ fb, fibers w !! idle_fiber th = Some fb ∧ use_caller fb = true ∧ sane fb ∧
  idle_state (th_pc th) (m_state fb).
Proof.
  destruct (tk_idle _ _ (wi_threads _ (dr_inv _ Hd) i th Hi)) as (fb & E & Huc & Hst).
  exists fb. split_and!; try done. by eapply wi_sane; [apply dr_inv|].
Qed.

Lemma drain_search : th_pc th = Searching → ∃ w', run_search i w = Ok (tt, w') ∧ drains w i th [] w'.
Proof.
  intros Hp. unfold run_search. run get_thread_Ok. run gets_run. unfold id. rewrite (dr_fibers _ Hd).
  cbn [search_loop]. run ret_run. run set_pc_Ok. eexists; split; [reflexivity|].
  eapply (drained _ (moved th (Selected None))); try done; [apply Hd|].
  unfold rank. rewrite Hp. cbn. case_match; lia.
Qed.

Lemma drain_selected : th_pc th = Selected None → ∃ w', run_dispatch i None w = Ok ([], w') ∧ drains w i th [] w'.
Proof.
  intros Hp. destruct drain_idle as (fb & Eid & Huc & Hs & Hst). rewrite Hp in Hst. simpl in Hst.
  unfold run_dispatch. cbn [default no_task ft_fiber ft_cb]. run get_thread_Ok. run ret_run.
  rewrite bool_decide_eq_false_2 by (by intros []). run on_heap_getState.
  destruct (decide (m_state fb = TERM)) as [Et|Et].
  - run set_pc_Ok. eexists; split; [reflexivity|].
    eapply (drained _ (moved th Exited)); try done; [apply Hd|].
    unfold rank. rewrite Hp. cbn. case_match; lia.
  - run on_sched_Ok.
    assert (Hne : m_state fb ≠ EXEC ∧ m_state fb ≠ EXCEPT)
      by (destruct Hst as [E|[E|E]]; rewrite E in *; by split).
    destruct (resume_runs (idle_fiber th) fb (set_sched (add_idle 1 (sched w)) w)) as [Er _]; try apply Hne; try done.
    run Er. run set_pc_Ok. eexists; split; [reflexivity|].
    eapply (drained _ (moved th Idling)); try done; [apply Hd| |].
    + unfold rank. rewrite Hp. cbn. unfold state_of. rewrite Eid.
      rewrite (bool_decide_eq_false_2 (m_state <$> Some fb = Some TERM)) by (simpl; congruence). cbn. lia.
    + intros f Hf. cbn. apply lookup_insert_ne. intros <-. apply Hf, owned_idle.
Qed.

Lemma drain_idling : th_pc th = Idling → ∃ w', idle_turn i w = Ok (tt, w') ∧ drains w i th [] w'.
Proof.
  intros Hp. destruct drain_idle as (fb & Eid & Huc & [Hs He] & Hst). rewrite Hp in Hst. simpl in Hst.
  rewrite Hst in He. unfold idle_turn. run get_thread_Ok. unfold stopping at 1. run gets_run.
  rewrite (dr_flags _ Hd), (dr_fibers _ Hd), (dr_active _ Hd). cbn [andb bool_decide].
  run (on_heap_Ok _ _ _ w (Fiber_run_Ok _ _ _ Returns Eid Hst He)).
  erewrite set_pc_Ok by exact Hi. eexists; split; [reflexivity|].
  eapply (drained _ (moved th IdleReturned)); try done; [apply Hd| |].
  - unfold rank. rewrite Hp. cbn. unfold state_of. rewrite lookup_insert_eq. cbn. repeat case_bool_decide; try done; lia.
  - intros f Hf. cbn. apply lookup_insert_ne. intros <-. apply Hf, owned_idle.
Qed.

Lemma drain_idle_returned : th_pc th = IdleReturned → ∃ w', run_idle_returned i w = Ok (tt, w') ∧ drains w i th [] w'.
Proof.
  intros Hp. destruct drain_idle as (fb & Eid & Huc & _ & Hst). rewrite Hp in Hst. simpl in Hst.
  unfold run_idle_returned. run get_thread_Ok. run on_sched_Ok. run on_heap_getState.
  destruct Hst as [Hst|Hst]; rewrite Hst.
  - rewrite !bool_decide_eq_false_2 by done. cbn [negb andb].
    run (on_heap_Ok _ _ _ (set_sched _ w) (set_state_Ok _ _ HOLD fb Eid)).
    erewrite set_pc_Ok by exact Hi. eexists; split; [reflexivity|].
    eapply (drained _ (moved th Searching)); try done; [apply Hd| |].
    + unfold rank. rewrite Hp. cbn. unfold state_of. rewrite lookup_insert_eq, Eid. cbn. rewrite Hst. repeat case_bool_decide; try done; lia.
    + intros f Hf. cbn. apply lookup_insert_ne. intros <-. apply Hf, owned_idle.
  - run ret_run. erewrite set_pc_Ok by exact Hi. eexists; split; [reflexivity|].
    eapply (drained _ (moved th Searching)); try done; [apply Hd|].
    unfold rank. rewrite Hp. cbn. unfold state_of. rewrite Eid. cbn. rewrite Hst. repeat case_bool_decide; try done; lia.
Qed.

(** The fiber on the thread is not READY, so it is put on hold or dropped. *)
Lemma drain_settling f c : th_pc th = Settling f c →
  ∃ w', run_settle i f c w = Ok ([], w') ∧ drains w i th [] w'.
Proof.
  intros Hp. pose proof (dr_inv _ Hd) as Hw. destruct (settling_exists w i th Hw Hi f c Hp) as [fb Efb].
  destruct (settling_owned w i th Hw Hi f c Hp) as [Hof Hne].
  assert (Hr : m_state fb ≠ READY).
  { intros E. destruct (dr_rest _ Hd i th Hi) as [_ Hx]. apply (Hx f c Hp). unfold state_of. rewrite Efb. cbn. by rewrite E. }
  assert (Hlt : (i < length (threads w))%nat) by by eapply lookup_lt_Some.
  assert (Hdone : ∀ w' th', threads w' = <[i := th']> (threads w) → sched w' = sched w →
    th_pc th' = Searching → idle_fiber th' = idle_fiber th →
    (∀ g, g ≠ f → fibers w' !! g = fibers w !! g) → drains w i th [] w').
  { intros w' th' Et Es Hp' Hid Hh. eapply (drained w' th'); rewrite ?Es, ?Hp'; try done; [apply Hd| |].
    - unfold rank. rewrite Hp, Hp', Hid. unfold state_of. rewrite Hh by done. case_match; lia.
    - intros g Hg. apply Hh. by intros ->. }
  unfold run_settle. run on_heap_getState. destruct (decide (m_state fb = READY)); [done|].
  assert (Hend : m_state fb = TERM ∨ m_state fb = EXCEPT → ∃ w',
    (o ← ((if c then on_heap (Fiber_reset f None) else mret tt) ;; mret []);
     set_pc i Searching ;; mret o) w = Ok ([] : list obs, w') ∧ drains w i th [] w').
  { intros He. destruct c.
    - assert (Hrs : resettable (m_state fb) = true) by (destruct He as [-> | ->]; done).
      run (reset_runs f fb None w Efb (wi_sane w Hw _ _ Efb) Hrs). run ret_run. run set_pc_Ok.
      eexists. split; [reflexivity|]. eapply Hdone; try done. intros g Hg. cbn. by rewrite lookup_insert_ne.
    - run ret_run. run ret_run. run set_pc_Ok. eexists. split; [reflexivity|]. by eapply Hdone. }
  destruct (decide (m_state fb = TERM)); [apply Hend; by left|].
  destruct (decide (m_state fb = EXCEPT)); [apply Hend; by right|].
  run (on_heap_Ok _ _ _ w (set_state_Ok _ f HOLD fb Efb)). destruct c.
  - run set_cb_fiber_Ok. run ret_run. run set_pc_again. eexists. split; [reflexivity|].
    eapply Hdone; try done. intros g Hg. cbn. by rewrite lookup_insert_ne.
  - run ret_run. run ret_run. run set_pc_Ok. eexists. split; [reflexivity|].
    eapply Hdone; try done. intros g Hg. cbn. by rewrite lookup_insert_ne.
Qed.

Lemma drain_step : th_pc th ≠ Exited → ∃ w', run_step i w = Ok ([], w') ∧ drains w i th [] w'.
Proof.
  intros He. destruct (dr_rest _ Hd i th Hi) as [Hr _].
  unfold run_step. run get_thread_Ok. destruct (th_pc th) as [|[ft|]|f c|f c|f c| | |] eqn:Hp; try done.
  - destruct (drain_search Hp) as (w' & E & H). run E. by eexists.
  - by apply drain_selected.
  - by apply drain_settling.
  - destruct (drain_idling Hp) as (w' & E & H). run E. by eexists.
  - destruct (drain_idle_returned Hp) as (w' & E & H). run E. by eexists.
Qed.
End drain.

Lemma rank_heap h h' th : h' !! idle_fiber th = h !! idle_fiber th → rank h' th = rank h th.
Proof. intros E. unfold rank, state_of. by rewrite E. Qed.

Lemma rank_bound h th : (rank h th ≤ 7)%nat.
Proof. unfold rank. repeat case_match; lia. Qed.

Lemma work_bound w : (work w ≤ 7 * length (threads w))%nat.
Proof.
  unfold work. induction (threads w) as [|th l IH]; [done|]. cbn. pose proof (rank_bound (fibers w) th). lia.
Qed.

(** A step keeps the scheduler draining and uses up work. *)
Lemma draining_step w i th : draining w → threads w !! i = Some th → th_pc th ≠ Exited →
  ∃ w', run_step i w = Ok ([], w') ∧ draining w' ∧ (work w' < work w)%nat ∧
    length (threads w') = length (threads w).
Proof.
  intros Hd Hi He. destruct (drain_step w i th Hd Hi He) as
    (w' & E & [_ (Hf & Ha & Hs & Hc) (th' & Et & Hr & Hns & Hrk) Hh]).
  exists w'. split; [done|]. pose proof (dr_inv _ Hd) as Hw.
  assert (Hother : ∀ j thj f, j ≠ i → threads w !! j = Some thj → f ∈ owned thj → fibers w' !! f = fibers w !! f).
  { intros j thj f Hne Hj Ho. apply Hh. intros Ho'. by destruct (wi_apart _ Hw j i thj th f Hj Hi Ho Ho'). }
  split_and!; [|
    |by rewrite Et, length_insert].
  - constructor; [by apply (exec_inv (RunStep i) [] w)|by rewrite Ha, Hs; apply Hd|done|rewrite Hc; apply Hd|].
    intros j thj. rewrite Et, list_lookup_insert_Some. intros [(<- & <- & _)|(Hne & Hj)].
    + split; [done|]. intros f c Hp. by destruct (Hns f c).
    + destruct (dr_rest _ Hd j thj Hj) as [Hrj Hsj]. split; [done|]. intros f c Hp. unfold state_of.
      rewrite (Hother j thj f); [by eapply Hsj|done|done|]. by eapply (settling_owned w j thj Hw Hj f c Hp).
  - unfold work. rewrite Et. apply list_elem_of_split_length in Hi as (l1 & l2 & El & ->).
    rewrite El, insert_app_r_alt, Nat.sub_diag by done. cbn [list_insert insert].
    rewrite !sum_list_with_app.
    assert (Hsame : ∀ l k, (∀ j thj, l !! j = Some thj → threads w !! (k + j)%nat = Some thj ∧ k + j ≠ length l1)%nat →
      sum_list_with (rank (fibers w')) l = sum_list_with (rank (fibers w)) l).
    { intros l. induction l as [|thj l IHl]; intros k Hl; [done|]. cbn. f_equal.
      - destruct (Hl 0%nat thj eq_refl) as [Hj' Hne]. apply rank_heap.
        eapply Hother; [exact Hne|exact Hj'|apply owned_idle].
      - apply (IHl (S k)). intros j thk Hj. destruct (Hl (S j) thk Hj) as [Hj' Hne].
        replace (S k + j)%nat with (k + S j)%nat by lia. done. }
    cbn [sum_list_with]. rewrite (Hsame l1 0%nat), (Hsame l2 (S (length l1))); [cbn; lia| |].
    + intros j thj Hj. split; [|lia]. rewrite El, lookup_app_r by lia.
      by replace (S (length l1) + j - length l1)%nat with (S j) by lia.
    + intros j thj Hj. apply lookup_lt_Some in Hj as Hlt. split; [|lia]. rewrite El. by apply lookup_app_l_Some.
Qed.

(** The threads [order] make a step each, in this order. *)
Fixpoint run_all (order : list nat) : MW (list obs) :=
  match order with
  | [] => mret []
  | i :: order' => o ← run_step i; o' ← run_all order'; mret (o ++ o')
  end.

Lemma draining_run order w o w' : draining w → run_all order w = Ok (o, w') →
  o = [] ∧ draining w' ∧ (length order + work w' ≤ work w)%nat.
Proof.
  revert w o. induction order as [|i order IH]; intros w o Hd E; simpl in E; [by injection E as <- <-|].
  apply bind_Ok in E as (o1 & w1 & E1 & E). apply bind_Ok in E as (o2 & w2 & E2 & [= <- <-]).
  assert (∃ th, threads w !! i = Some th ∧ th_pc th ≠ Exited) as (th & Hi & He).
  { unfold run_step in E1. apply bind_Ok in E1 as (th & w3 & E3 & E1). unfold get_thread in E3. mrun.
    destruct (threads w !! i) as [th'|]; [|done]. injection E3 as <- <-. exists th'. split; [done|].
    intros Hp. by rewrite Hp in E1. }
  destruct (draining_step w i th Hd Hi He) as (w3 & E3 & Hd3 & Hlt & _). rewrite E3 in E1. injection E1 as <- <-.
  destruct (IH w3 o2 Hd3 E2) as (-> & Hd2 & Hle). split_and!; [done|done|simpl; lia].
Qed.

(** (C15) Stopping terminates.  In a disciplined execution, once [stopping]
    answers true and no thread holds a READY fiber it has not put back yet,
    then, whatever the order in which the threads go on: nothing runs any more,
    [stopping] stays true, every thread that has not left [run] can make its
    next step, and all together they make at most seven steps each - so all of
    them leave [run] and [stop] returns from its joins. *)
Theorem stop_drains w0 tr w (H0 : launched w0) (Hs : disciplined_steps w0 tr w)
  (Hst : stopping w = Ok (true, w))
  (Hready : ∀ i th f c, threads w !! i = Some th → th_pc th = Settling f c → state_of (fibers w) f ≠ Some READY) :
  ∀ order o w', run_all order w = Ok (o, w') →
    o = [] ∧ stopping w' = Ok (true, w') ∧ (length order ≤ 7 * length (threads w))%nat ∧
    ∀ i th, threads w' !! i = Some th → th_pc th = Exited ∨ ∃ w'', run_step i w' = Ok ([], w'').
Proof.
  intros order o w' E. injection Hst as Hst. apply andb_true_iff in Hst as [Hst Ha].
  apply andb_true_iff in Hst as [Hfl Hq]. apply bool_decide_eq_true_1 in Hq. apply Z.eqb_eq in Ha.
  assert (Hd : draining w).
  { constructor; try done; [by eapply disciplined_inv, launched_idle|]. intros i th Hi. split; [|intros f c; by apply (Hready i th f c)].
    pose proof (disciplined_are_steps _ _ _ Hs) as Hss.
    destruct (idle_world_accounts w0 tr w (launched_idle _ H0) (steps_accounts _ _ _ Hss)) as (A & _).
    rewrite Ha in A. symmetry in A. apply total_none in A; [|apply active_nonneg]. rewrite Forall_lookup in A.
    specialize (A i th Hi). unfold active in A. unfold at_rest. by repeat case_match. }
  destruct (draining_run order w o w' Hd E) as (-> & Hd' & Hle). pose proof (work_bound w).
  split_and!; [done| |lia|].
  - unfold stopping, gets. rewrite (dr_flags _ Hd'), (dr_fibers _ Hd'), (dr_active _ Hd'). done.
  - intros i th Hi. assert (th_pc th = Exited ∨ th_pc th ≠ Exited) as [Hx|Hx] by (destruct (th_pc th); auto); [by left|right].
    destruct (draining_step w' i th Hd' Hi Hx) as (w'' & E' & _); by exists w''.
Qed.

(** ** Outside the discipline *)

Fixpoint run_events (es : list event) : MW (list obs) :=
  match es with
  | [] => mret []
  | e :: es' => o ← exec e; o' ← run_events es'; mret (o ++ o')
  end.

(** A scheduler with the threads 1 and 2, beside the fibers [h] of a program. *)
Definition two_threads (h : heap) : World :=
  match new_Scheduler 2 false 0 1 with
  | Ok s => match start [1; 2] 99 (mkWorld s h []) with Ok (_, w) => w | Fail _ => mkWorld s h [] end
  | Fail _ => mkWorld (mkScheduler [] 0 0 true false 0 0 None [] 0) ∅ []
  end.

Definition one_fiber (use_caller : bool) : heap := {[7%positive := new_Fiber 5 use_caller]}.

(** The same fiber is scheduled twice before it runs, and both threads take it. *)
Definition scheduled_twice : list event :=
  [External (AFiber 7) (-1); External (AFiber 7) (-1); RunStep 0; RunStep 1; RunStep 0].

(** A fiber that is not of the scheduler throws, and comes back to the queue. *)
Definition throws : list event :=
  [External (AFiber 7) (-1); RunStep 0; RunStep 0; BodyEnd 0 Throws; RunStep 0; RunStep 0; RunStep 0].

(** Thread 0 has run a READY fiber and not yet put it back when thread 1, told
    to stop, finds nothing left and exits; the fiber then goes on and schedules
    a task for thread 1. *)
Definition early_exit : list event :=
  [External (AFiber 7) (-1); RunStep 0; RunStep 0; BodyEnd 0 Suspends; RunStep 0; StopBegin false]
  ++ replicate 6 (RunStep 1)
  ++ [RunStep 0; RunStep 0; RunStep 0; BodySchedule 0 (ACb 8) 2; BodyEnd 0 Returns; RunStep 0; RunStep 0].

(** What happens otherwise.  A fiber that is scheduled twice before it runs
    is resumed by two threads, and the second one stops the process; a fiber
    that is not of the scheduler and throws is taken for READY, resumed after
    its end, and stops the process; and because a thread lowers the count of
    active threads before it puts a READY fiber back, another thread can
    believe that all work is done and leave: a task for that thread, scheduled
    by the fiber when it goes on, then stays in the queue for ever, and [stop]
    waits for the first thread for ever. *)
Theorem scheduler_hazards :
  launched (two_threads (one_fiber true)) ∧ launched (two_threads (one_fiber false)) ∧
  (∃ o w, run_events scheduled_twice (two_threads (one_fiber true)) = Ok (o, w) ∧
    run_step 1 w = Fail AssertFailed) ∧
  (∃ o w, run_events throws (two_threads (one_fiber false)) = Ok (o, w) ∧
    run_step 0 w = Fail AssertFailed) ∧
  (∃ o w, run_events early_exit (two_threads (one_fiber false)) = Ok (o, w) ∧
    map (λ th, (th_id th, th_pc th)) (threads w) = [(1, Searching); (2, Exited)] ∧
    m_fibers (sched w) = [mkTask None (Some 8) 2] ∧
    ∃ o' w', run_events (replicate 4 (RunStep 0)) w = Ok (o', w') ∧ o' = [] ∧
      map (λ th, (th_id th, th_pc th)) (threads w') = [(1, Searching); (2, Exited)] ∧
      m_fibers (sched w') = m_fibers (sched w)).
Proof.
  assert (Hl : ∀ uc, launched (two_threads (one_fiber uc))).
  { intros uc. exists 2%nat, false, 0, 1%positive, [1; 2], 99, (one_fiber uc).
    eexists. split; [reflexivity|]. split; [|by destruct uc].
    unfold one_fiber. intros f fb [<- <-]%lookup_singleton_Some. by split. }
  split_and!; [apply Hl|apply Hl| | |].
  - eexists _, _. split; [vm_compute; reflexivity|]. by vm_compute.
  - eexists _, _. split; [vm_compute; reflexivity|]. by vm_compute.
  - eexists _, _. split; [vm_compute; reflexivity|]. split; [by vm_compute|]. split; [by vm_compute|].
    eexists _, _. split; [vm_compute; reflexivity|]. split_and!; by vm_compute.
Qed.

(** ** Witnesses *)

Lemma two_threads_launched : launched (two_threads ∅).
Proof.
  exists 2%nat, false, 0, 1%positive, [1; 2], 99, ∅. eexists. split; [reflexivity|].
  split; [|reflexivity]. intros f fb E. by rewrite lookup_empty in E.
Qed.

(** Enough for the discipline: only callbacks are scheduled, and a fiber
    returns or suspends itself while nothing is queued. *)
Definition plain_event w (e : event) : bool :=
  match e with
  | RunStep _ | StopBegin _ | External (ACb _) _ | BodySchedule _ (ACb _) _ => true
  | BodyEnd _ o => bool_decide (queued w = []) && match o with Throws => false | _ => true end
  | _ => false
  end.

Lemma plain_disciplined w e : plain_event w e = true → disciplined w e.
Proof.
  destruct e as [i|i [f|cb] thread|i o|[f|cb] thread|same|tid cb]; try done.
  simpl. intros [Hq%bool_decide_eq_true_1 Ho]%andb_true_iff th f c _ _ fb _. rewrite Hq. split; [|by destruct o].
  by intros ?%elem_of_nil.
Qed.

Fixpoint plain_events (es : list event) w : bool :=
  match es with
  | [] => true
  | e :: es' => plain_event w e && match exec e w with Ok (_, w') => plain_events es' w' | Fail _ => false end
  end.

Lemma plain_run es w0 tr w o w' :
  disciplined_steps w0 tr w → plain_events es w = true → run_events es w = Ok (o, w') →
  disciplined_steps w0 (tr ++ o) w'.
Proof.
  revert tr w o. induction es as [|e es IH]; intros tr w o Hs Hd E; simpl in E.
  { injection E as <- <-. by rewrite app_nil_r. }
  apply bind_Ok in E as (o1 & w1 & E1 & E). apply bind_Ok in E as (o2 & w2 & E2 & [= <- <-]).
  simpl in Hd. apply andb_true_iff in Hd as [Hd1 Hd2]. rewrite E1 in Hd2. rewrite app_assoc.
  eapply IH; [|done|done]. eapply ds_next; [done|by apply plain_disciplined|done].
Qed.

(** A callback is run by thread 0; then stop. *)
Definition sample_run : list event :=
  [External (ACb 3) (-1); RunStep 0; RunStep 0; BodyEnd 0 Returns; RunStep 0; RunStep 0; StopBegin false].

Definition sample_world (k : nat) : World :=
  match run_events (take k sample_run) (two_threads ∅) with Ok (_, w) => w | Fail _ => two_threads ∅ end.

Definition sample_trace (k : nat) : list obs :=
  match run_events (take k sample_run) (two_threads ∅) with Ok (o, _) => o | Fail _ => [] end.

Lemma sample_steps k : (k ≤ 7)%nat → disciplined_steps (two_threads ∅) (sample_trace k) (sample_world k).
Proof.
  intros Hk. apply (plain_run (take k sample_run) _ [] (two_threads ∅)); [constructor| |].
  - do 8 (destruct k as [|k]; [by vm_compute|]). lia.
  - do 8 (destruct k as [|k]; [by vm_compute|]). lia.
Qed.

Lemma scheduler_conserves_tasks_witness :
  launched (two_threads ∅) ∧ ran (sample_trace 7) ++ dropped (sample_trace 7) ≡ₚ [mkTask None (Some 3) (-1)].
Proof.
  split; [exact two_threads_launched|].
  apply (scheduler_conserves_tasks (two_threads ∅) (sample_trace 7) (sample_world 7) two_threads_launched
    (disciplined_are_steps _ _ _ (sample_steps 7 ltac:(lia)))). by vm_compute.
Defined.

Lemma scheduler_never_aborts_witness :
  (∃ f, th_pc <$> threads (sample_world 3) !! 0%nat = Some (Running f true)) ∧
  ∃ o w', run_step 1 (sample_world 3) = Ok (o, w').
Proof.
  split; [by vm_compute; eexists|].
  destruct (scheduler_never_aborts (two_threads ∅) (sample_trace 3) (sample_world 3) two_threads_launched
    (sample_steps 3 ltac:(lia))) as [H _].
  destruct (H 1%nat _ eq_refl) as [Hx|[(f & c & Hx & _)|Hx]]; [discriminate Hx|discriminate Hx|exact Hx].
Defined.

Lemma stop_drains_witness :
  ∃ o w', run_all (replicate 6 0%nat ++ replicate 6 1%nat) (sample_world 7) = Ok (o, w') ∧ o = [] ∧
    stopping w' = Ok (true, w') ∧ joined w' = true.
Proof.
  eexists _, _. split; [vm_compute; reflexivity|].
  edestruct (stop_drains (two_threads ∅) (sample_trace 7) (sample_world 7) two_threads_launched
    (sample_steps 7 ltac:(lia))) with (order := replicate 6 0%nat ++ replicate 6 1%nat) as (Ho & Hst & _);
    [vm_compute; reflexivity| |vm_compute; reflexivity|].
  - intros i th f c Hi Hp. exfalso. destruct i as [|[|i]]; [| |discriminate Hi];
      injection Hi as <-; discriminate Hp.
  - split; [exact Ho|]. split; [exact Hst|vm_compute; reflexivity].
Defined.
