(* ===== verification/IOManager.v ===== *)
(** * IOManager: the epoll scheduler ([sylar/iomanager.cc], [iomanager.h])

    The event contexts of the file descriptors, with the schedulers whose
    queues the events feed and the timers.  An operation holds the lock of the
    context it works on, so it is one step.  [epoll] is the kernel: an abstract
    state [K] whose [epoll_ctl] succeeds or fails; its documented effect on the
    set of interests is the law [EpollLaws]. *)

From S2P Require Import Prelude Fiber Scheduler.
From S2P Require Timer.

(** ** epoll *)

Inductive EpollCtlOp := EPOLL_CTL_ADD | EPOLL_CTL_MOD | EPOLL_CTL_DEL.

Definition EPOLLIN : Z := 1.
Definition EPOLLOUT : Z := 4.
Definition EPOLLERR : Z := 8.
Definition EPOLLHUP : Z := 16.
Definition EPOLLET : Z := 2 ^ 31.

(** [epoll_ctl(m_epfd, op, fd, &event)]: [None] when it returns an error. *)
Class Epoll (K : Type) := {
  epoll_ctl : EpollCtlOp → Z → Z → K → option K;
  interest : K → Z → option Z
}.

Class EpollLaws (K : Type) `{Epoll K} := {
  interest_set op fd events (k k' : K) g :
    op ≠ EPOLL_CTL_DEL → epoll_ctl op fd events k = Some k' →
    interest k' g = if decide (g = fd) then Some events else interest k g;
  interest_del fd events (k k' : K) g :
    epoll_ctl EPOLL_CTL_DEL fd events k = Some k' →
    interest k' g = if decide (g = fd) then None else interest k g
}.

(** ** The state *)

(** [enum Event] *)
Definition NONE : Z := 0.
Definition READ : Z := 1.
Definition WRITE : Z := 4.

Record EventContext := mkEventContext {
  ec_scheduler : option positive;
  ec_fiber : option positive;
  ec_cb : option Z
}.

#[export] Instance EventContext_eq_dec : EqDecision EventContext.
Proof. solve_decision. Defined.

Definition empty_context : EventContext := mkEventContext None None None.

Record FdContext := mkFdContext {
  read : EventContext;
  write : EventContext;
  fd : Z;
  events : Z
}.

Record IOManager (K : Type) := mkIOManager {
  m_fdContexts : list FdContext;
  m_pendingEventCount : Z;
  m_epfd : K;
  io_timers : Timer.TimerManager;
  schedulers : gmap positive World;
  pipe : Z
}.
Arguments mkIOManager {K}.
Arguments m_fdContexts {K}.
Arguments m_pendingEventCount {K}.
Arguments m_epfd {K}.
Arguments io_timers {K}.
Arguments schedulers {K}.
Arguments pipe {K}.

(** What [Scheduler::GetThis()] and [Fiber::GetThis()] answer to the caller. *)
Record Caller := mkCaller {
  this_scheduler : option positive;
  this_fiber : positive;
  this_state : State
}.

Section ops.
Context {K : Type} `{Epoll K}.
Implicit Types s : IOManager K.

Local Abbreviation MI A := (M (IOManager K) A).

Definition set_contexts (l : list FdContext) s : IOManager K :=
  mkIOManager l (m_pendingEventCount s) (m_epfd s) (io_timers s) (schedulers s) (pipe s).
Definition add_pending (n : Z) s : IOManager K :=
  mkIOManager (m_fdContexts s) (m_pendingEventCount s + n) (m_epfd s) (io_timers s) (schedulers s) (pipe s).
Definition set_epoll (k : K) s : IOManager K :=
  mkIOManager (m_fdContexts s) (m_pendingEventCount s) k (io_timers s) (schedulers s) (pipe s).
Definition set_io_timers (t : Timer.TimerManager) s : IOManager K :=
  mkIOManager (m_fdContexts s) (m_pendingEventCount s) (m_epfd s) t (schedulers s) (pipe s).
Definition set_schedulers (m : gmap positive World) s : IOManager K :=
  mkIOManager (m_fdContexts s) (m_pendingEventCount s) (m_epfd s) (io_timers s) m (pipe s).
Definition set_pipe (n : Z) s : IOManager K :=
  mkIOManager (m_fdContexts s) (m_pendingEventCount s) (m_epfd s) (io_timers s) (schedulers s) n.

(** [m_fdContexts[fd]], and a change of the context. *)
Definition get_context (i : Z) : MI FdContext :=
  s ← gets id; vec_at (m_fdContexts s) i.

Definition put_context (i : Z) (c : FdContext) : MI unit :=
  s ← gets id;
  l ← vec_set (m_fdContexts s) i c;
  modify (set_contexts l).

(** An operation of the scheduler at address [p], and one of the timers. *)
Definition on_scheduler {A} (p : positive) (m : MW A) : MI A := λ s,
  match schedulers s !! p with
  | Some w => match m w with
              | Ok (a, w') => Ok (a, set_schedulers (<[p := w']> (schedulers s)) s)
              | Fail f => Fail f
              end
  | None => Fail BadPointer
  end.

Definition on_timers {A} (m : M Timer.TimerManager A) : MI A := λ s,
  match m (io_timers s) with
  | Ok (a, t) => Ok (a, set_io_timers t s)
  | Fail f => Fail f
  end.

(** The call of [epoll_ctl]: [true] when it returns 0. *)
Definition ctl (op : EpollCtlOp) (fd events : Z) : MI bool :=
  s ← gets id;
  match epoll_ctl op fd events (m_epfd s) with
  | Some k => modify (set_epoll k) ;; mret true
  | None => mret false
  end.

(** ** [FdContext] *)

Definition has (events event : Z) : bool := negb (Z.land events event =? 0).

Definition getContext (c : FdContext) (event : Z) : MI EventContext :=
  if event =? READ then mret (read c)
  else if event =? WRITE then mret (write c)
  else fail AssertFailed.

(** The context with another event context for [event]. *)
Definition setContext (c : FdContext) (event : Z) (ec : EventContext) : FdContext :=
  if event =? READ then mkFdContext ec (write c) (fd c) (events c)
  else mkFdContext (read c) ec (fd c) (events c).

Definition set_events (c : FdContext) (e : Z) : FdContext := mkFdContext (read c) (write c) (fd c) e.

Definition resetContext (ctx : EventContext) : EventContext := mkEventContext None None None.

(** [schedule(&ctx.fiber)] on an empty pointer: nothing is queued. *)
Definition schedule_null : MW unit :=
  w ← gets id;
  if bool_decide (m_fibers (sched w) = []) then tickle else mret tt.

(** [triggerEvent(event)] on the context [c] of index [i]; [schedule] takes
    the callback or the fiber out of the event context. *)
Definition triggerEvent (i : Z) (event : Z) : MI unit :=
  c ← get_context i;
  assert_that (has (events c) event) ;;
  let c := set_events c (Z.land (events c) (Z.lnot event)) in
  ctx ← getContext c event;
  let on (m : MW unit) := match ec_scheduler ctx with Some p => on_scheduler p m | None => fail BadPointer end in
  match ec_cb ctx with
  | Some cb =>
      on (schedule (ACb cb) (-1)) ;;
      put_context i (setContext c event (mkEventContext None (ec_fiber ctx) None))
  | None =>
      on (match ec_fiber ctx with Some f => schedule (AFiber f) (-1) | None => schedule_null end) ;;
      put_context i (setContext c event (mkEventContext None None None))
  end.

(** ** Operations *)

(** [contextResize(size)] *)
Definition contextResize (size : Z) : MI unit :=
  modify (λ s,
    let n := Z.to_nat size in
    let l := m_fdContexts s in
    set_contexts (take n l ++ map (λ i, mkFdContext empty_context empty_context (Z.of_nat i) NONE)
                               (seq (length l) (n - length l))) s).

(** [fd * 1.5] as a [size_t] *)
Definition grown_size (fd : Z) : Z := fd * 3 / 2.

Definition addEvent (caller : Caller) (fd event : Z) (cb : option Z) : MI Z :=
  s ← gets id;
  (if fd <? Z.of_nat (length (m_fdContexts s)) then mret tt else contextResize (grown_size fd)) ;;
  fd_ctx ← get_context fd;
  if has (events fd_ctx) event then mret (-1)
  else
    let op := if events fd_ctx =? 0 then EPOLL_CTL_ADD else EPOLL_CTL_MOD in
    rt ← ctl op fd (Z.lor (Z.lor EPOLLET (events fd_ctx)) event);
    if negb rt then mret (-1)
    else
      modify (add_pending 1) ;;
      let fd_ctx := set_events fd_ctx (Z.lor (events fd_ctx) event) in
      event_ctx ← getContext fd_ctx event;
      assert_that (bool_decide (event_ctx = empty_context)) ;;
      match cb with Some _ => mret tt | None => assert_that (bool_decide (this_state caller = EXEC)) end ;;
      put_context fd (setContext fd_ctx event
        (mkEventContext (this_scheduler caller) (match cb with Some _ => None | None => Some (this_fiber caller) end) cb)) ;;
      mret 0.

Definition delEvent (fd event : Z) : MI bool :=
  s ← gets id;
  if Z.of_nat (length (m_fdContexts s)) <=? fd then mret false
  else
    fd_ctx ← get_context fd;
    if negb (has (events fd_ctx) event) then mret false
    else
      let new_events := Z.land (events fd_ctx) (Z.lnot event) in
      let op := if new_events =? 0 then EPOLL_CTL_DEL else EPOLL_CTL_MOD in
      rt ← ctl op fd (Z.lor EPOLLET new_events);
      if negb rt then mret false
      else
        modify (add_pending (-1)) ;;
        let fd_ctx := set_events fd_ctx new_events in
        event_ctx ← getContext fd_ctx event;
        put_context fd (setContext fd_ctx event (resetContext event_ctx)) ;;
        mret true.

Definition cancelEvent (fd event : Z) : MI bool :=
  s ← gets id;
  if Z.of_nat (length (m_fdContexts s)) <=? fd then mret false
  else
    fd_ctx ← get_context fd;
    if negb (has (events fd_ctx) event) then mret false
    else
      let new_events := Z.land (events fd_ctx) (Z.lnot event) in
      let op := if new_events =? 0 then EPOLL_CTL_DEL else EPOLL_CTL_MOD in
      rt ← ctl op fd (Z.lor EPOLLET new_events);
      if negb rt then mret false
      else
        triggerEvent fd event ;;
        modify (add_pending (-1)) ;;
        mret true.

(** [if(fd_ctx->events & event) { triggerEvent(event); --m_pendingEventCount; }] *)
Definition trigger_if (b : bool) (fd event : Z) : MI unit :=
  if b then triggerEvent fd event ;; modify (add_pending (-1)) else mret tt.

Definition cancelAll (fd : Z) : MI bool :=
  s ← gets id;
  if Z.of_nat (length (m_fdContexts s)) <=? fd then mret false
  else
    fd_ctx ← get_context fd;
    if events fd_ctx =? 0 then mret false
    else
      rt ← ctl EPOLL_CTL_DEL fd 0;
      if negb rt then mret false
      else
        trigger_if (has (events fd_ctx) READ) fd READ ;;
        fd_ctx ← get_context fd;
        trigger_if (has (events fd_ctx) WRITE) fd WRITE ;;
        fd_ctx ← get_context fd;
        assert_that (events fd_ctx =? 0) ;;
        mret true.

(** The destructor's and the constructor's part on the contexts. *)
Definition new_IOManager (k : K) (timers : Timer.TimerManager) (scheds : gmap positive World) : IOManager K :=
  match contextResize 32 (mkIOManager [] 0 k timers scheds 0) with
  | Ok (_, s) => s
  | Fail _ => mkIOManager [] 0 k timers scheds 0
  end.

(** ** The scheduler's virtual functions *)

(** [tickle()] of the manager whose scheduler is at [self]. *)
Definition IO_tickle (self : positive) : MI unit :=
  idle ← on_scheduler self (gets (λ w, m_idleThreadCount (sched w)));
  if 0 <? idle then modify (λ s, set_pipe (pipe s + 1) s) else mret tt.

(** [stopping(timeout)] *)
Definition IO_stopping (self : positive) (now : Z) : MI (Z * bool) :=
  timeout ← on_timers (Timer.getNextTimer now);
  s ← gets id;
  b ← (if (timeout =? 2 ^ 64 - 1) && (m_pendingEventCount s =? 0) then on_scheduler self stopping
       else mret false);
  mret (timeout, b).

(** The conversion to [int]. *)
Definition to_int (z : Z) : Z :=
  let u := z mod 2 ^ 32 in if u <? 2 ^ 31 then u else u - 2 ^ 32.

(** The timeout given to [epoll_wait], from the time of the next timer. *)
Definition wait_timeout (next_timeout : Z) : Z :=
  let t := if negb (next_timeout =? 2 ^ 64 - 1)
           then (if 1000 <? to_int next_timeout then 1000 else next_timeout) else 1000 in
  to_int t.

(** One event of [epoll_wait] on a context: its index, or [None] for the pipe,
    and the mask. *)
Definition idle_event (ev : option Z * Z) : MI unit :=
  match ev with
  | (None, _) => modify (set_pipe 0)
  | (Some i, mask) =>
      fd_ctx ← get_context i;
      let mask := if has mask (Z.lor EPOLLERR EPOLLHUP)
                  then Z.lor mask (Z.land (Z.lor EPOLLIN EPOLLOUT) (events fd_ctx)) else mask in
      let real_events := Z.lor (if has mask EPOLLIN then READ else NONE)
                               (if has mask EPOLLOUT then WRITE else NONE) in
      if Z.land (events fd_ctx) real_events =? NONE then mret tt
      else
        let left_events := Z.land (events fd_ctx) (Z.lnot real_events) in
        let op := if left_events =? 0 then EPOLL_CTL_DEL else EPOLL_CTL_MOD in
        rt2 ← ctl op (fd fd_ctx) (Z.lor EPOLLET left_events);
        if negb rt2 then mret tt
        else
          trigger_if (has real_events READ) i READ ;;
          trigger_if (has real_events WRITE) i WRITE
  end.

(** The functions of the expired timers, as functions of the scheduler; an
    empty function is not queued. *)
Definition schedule_callbacks (self : positive) (fn : Timer.callback → Z) (cbs : list (option Timer.callback)) : MI unit :=
  match cbs with
  | [] => mret tt
  | _ => on_scheduler self (schedule_all (omap (fmap (λ c, ACb (fn c))) cbs))
  end.

(** One turn of the loop of [idle()], up to its yield: [true] when it leaves
    the loop.  [now] is the clock before and after the wait, [ready] what
    [epoll_wait] reports, [now_addr] the address of the temporary timer. *)
Definition IO_idle_turn (self : positive) (fn : Timer.callback → Z) (now now' : Z) (now_addr : positive)
    (ready : list (option Z * Z)) : MI bool :=
  r ← IO_stopping self now;
  if (r : Z * bool).2 then mret true
  else
    cbs ← on_timers (Timer.listExpiredCb now' now_addr);
    schedule_callbacks self fn cbs ;;
    for_each ready idle_event ;;
    mret false.

(** [onTimerInsertedAtFront()] *)
Definition IO_onTimerInsertedAtFront (self : positive) : MI unit := IO_tickle self.
End ops.
