(* ===== verification/IOFacts.v ===== *)
(** * IOFacts: the invariant of the epoll scheduler

    A file descriptor waits for an event exactly when the bit of the event is
    set, its context names a scheduler with one callback or fiber, and the
    kernel watches it; the counter of pending events counts the bits. *)

From S2P Require Import Prelude Fiber Scheduler SchedulerFacts IOManager.

(** ** Masks *)

(** The mask of the two events. *)
Definition bits (r w : bool) : Z := (if r then READ else 0) + (if w then WRITE else 0).

Definition event_ok (ev : Z) : Prop := ev = READ ∨ ev = WRITE.

Lemma has_bits r w : has (bits r w) READ = r ∧ has (bits r w) WRITE = w.
Proof. by destruct r, w. Qed.

Lemma lor_bits r w : Z.lor (bits r w) READ = bits true w ∧ Z.lor (bits r w) WRITE = bits r true.
Proof. by destruct r, w. Qed.

Lemma land_bits r w :
  Z.land (bits r w) (Z.lnot READ) = bits false w ∧ Z.land (bits r w) (Z.lnot WRITE) = bits r false.
Proof. by destruct r, w. Qed.

(** ** Contexts *)

(** What waits for an event: a task for a scheduler. *)
Abbreviation waiter := (positive * FiberOrCb)%type.

Definition waiting (ec : EventContext) : option waiter :=
  match ec_scheduler ec, ec_cb ec, ec_fiber ec with
  | Some p, Some cb, _ => Some (p, ACb cb)
  | Some p, None, Some f => Some (p, AFiber f)
  | _, _, _ => None
  end.

Definition of_waiter (w : option waiter) : EventContext :=
  match w with
  | Some (p, ACb cb) => mkEventContext (Some p) None (Some cb)
  | Some (p, AFiber f) => mkEventContext (Some p) (Some f) None
  | None => empty_context
  end.

Definition slot (c : FdContext) (ev : Z) : EventContext := if ev =? READ then read c else write c.

Definition is_some {A} (o : option A) : bool := match o with Some _ => true | None => false end.

(** A context is determined by its two waiters. *)
Definition context_of (i : nat) (r w : option waiter) : FdContext :=
  mkFdContext (of_waiter r) (of_waiter w) (Z.of_nat i) (bits (is_some r) (is_some w)).

Definition count (r w : option waiter) : Z := (if is_some r then 1 else 0) + (if is_some w then 1 else 0).

(** What the kernel watches for a mask of events. *)
Definition registered (e : Z) : option Z := if e =? 0 then None else Some (Z.lor EPOLLET e).

Lemma waiting_of w : waiting (of_waiter w) = w.
Proof. by destruct w as [[p []]|]. Qed.

Lemma read_context_of i r w : waiting (read (context_of i r w)) = r.
Proof. apply waiting_of. Qed.

Lemma write_context_of i r w : waiting (write (context_of i r w)) = w.
Proof. apply waiting_of. Qed.

Section inv.
Context {K : Type} `{Epoll K}.
Context (pipe_fd : Z).
Implicit Types s : IOManager K.

(** The waiter of an event. *)
Definition armed s (fd ev : Z) : option waiter :=
  if 0 <=? fd then c ← m_fdContexts s !! Z.to_nat fd; waiting (slot c ev) else None.

Definition queue s (p : positive) : list FiberAndThread :=
  match schedulers s !! p with Some w => m_fibers (sched w) | None => [] end.

Definition armed_count (c : FdContext) : Z := count (waiting (read c)) (waiting (write c)).

Record io_inv s : Prop := {
  io_size : (32 ≤ length (m_fdContexts s))%nat;
  io_context : ∀ i c, m_fdContexts s !! i = Some c →
    c = context_of i (waiting (read c)) (waiting (write c)) ∧
    (∀ p fc, waiting (read c) = Some (p, fc) ∨ waiting (write c) = Some (p, fc) → is_Some (schedulers s !! p));
  io_pending : m_pendingEventCount s = foldr (λ c n, armed_count c + n) 0 (m_fdContexts s);
  io_interest : ∀ fd, 0 <= fd → fd ≠ pipe_fd →
    interest (m_epfd s) fd = match m_fdContexts s !! Z.to_nat fd with
                             | Some c => registered (events c) | None => None end
}.

(** ** Single steps *)

Lemma get_context_run s i c : 0 <= i → m_fdContexts s !! Z.to_nat i = Some c → get_context i s = Ok (c, s).
Proof.
  intros Hi Hc. unfold get_context. run gets_run. unfold vec_at, id.
  destruct (Z.leb_spec 0 i); [|lia]. by rewrite Hc.
Qed.

Lemma put_context_run s i c c' : 0 <= i → m_fdContexts s !! Z.to_nat i = Some c →
  put_context i c' s = Ok (tt, set_contexts (<[Z.to_nat i := c']> (m_fdContexts s)) s).
Proof.
  intros Hi Hc. unfold put_context. run gets_run. unfold id.
  assert (Hv : vec_set (m_fdContexts s) i c' s = Ok (<[Z.to_nat i := c']> (m_fdContexts s), s)).
  { apply vec_set_Ok. apply lookup_lt_Some in Hc. split_and!; [lia|lia|done|done]. }
  by run Hv.
Qed.

Lemma foldr_insert (l : list FdContext) i c c' :
  l !! i = Some c →
  foldr (λ c n, armed_count c + n) 0 (<[i := c']> l)
    = foldr (λ c n, armed_count c + n) 0 l + armed_count c' - armed_count c.
Proof.
  revert i. induction l as [|x l IH]; intros [|i] Hi; try done.
  - injection Hi as ->. simpl. lia.
  - simpl. rewrite (IH i Hi). lia.
Qed.

(** The invariant after one context changed. *)
Lemma io_inv_update s s' i c r w :
  io_inv s → m_fdContexts s !! i = Some c →
  m_fdContexts s' = <[i := context_of i r w]> (m_fdContexts s) →
  m_pendingEventCount s' = m_pendingEventCount s + count r w - armed_count c →
  (∀ g, 0 <= g → g ≠ pipe_fd → interest (m_epfd s') g
    = if decide (g = Z.of_nat i) then registered (bits (is_some r) (is_some w)) else interest (m_epfd s) g) →
  (∀ p, is_Some (schedulers s !! p) → is_Some (schedulers s' !! p)) →
  (∀ p fc, r = Some (p, fc) ∨ w = Some (p, fc) → is_Some (schedulers s' !! p)) → io_inv s'.
Proof.
  intros [Hsz Hctx Hp Hint] Hi Ec Ep Ei Hs Hrw.
  assert (Hlt : (i < length (m_fdContexts s))%nat) by by eapply lookup_lt_Some.
  constructor.
  - by rewrite Ec, length_insert.
  - intros j d. rewrite Ec, list_lookup_insert_Some. intros [(<- & <- & _)|(Hne & Hj)].
    + by rewrite read_context_of, write_context_of.
    + destruct (Hctx j d Hj) as [Hd Hpd]. split; [done|]. intros p fc Hw. by eapply Hs, Hpd.
  - rewrite Ec, Ep, Hp, (foldr_insert _ i c) by done.
    assert (Hc : armed_count (context_of i r w) = count r w)
      by (unfold armed_count; by rewrite read_context_of, write_context_of). lia.
  - intros g Hg Hgp. rewrite Ei, Ec by done. destruct (decide (g = Z.of_nat i)) as [->|Hne].
    + rewrite Nat2Z.id, list_lookup_insert_eq by done. done.
    + rewrite list_lookup_insert_ne by lia. by apply Hint.
Qed.
End inv.

(** ** Operations on a known context *)

Section operations.
Context {K : Type} `{EpollLaws K}.
Implicit Types s : IOManager K.

(** The waiters without, or with another, waiter for the event. *)
Definition pick (ev : Z) (r w : option waiter) : option waiter := if ev =? READ then r else w.
Definition put_r (ev : Z) (x r : option waiter) : option waiter := if ev =? READ then x else r.
Definition put_w (ev : Z) (x w : option waiter) : option waiter := if ev =? READ then w else x.

Definition mask (r w : option waiter) : Z := bits (is_some r) (is_some w).

Lemma has_mask ev r w : event_ok ev → has (mask r w) ev = is_some (pick ev r w).
Proof. intros [-> | ->]; apply has_bits. Qed.

Lemma lor_mask ev x r w : event_ok ev → Z.lor (mask r w) ev = mask (put_r ev (Some x) r) (put_w ev (Some x) w).
Proof. intros [-> | ->]; apply lor_bits. Qed.

Lemma land_mask ev r w : event_ok ev → Z.land (mask r w) (Z.lnot ev) = mask (put_r ev None r) (put_w ev None w).
Proof. intros [-> | ->]; apply land_bits. Qed.

Lemma getContext_run s c ev : event_ok ev → getContext c ev s = Ok (slot c ev, s).
Proof. by intros [-> | ->]. Qed.

Lemma slot_context ev i r w : event_ok ev → slot (context_of i r w) ev = of_waiter (pick ev r w).
Proof. by intros [-> | ->]. Qed.

Lemma setContext_of ev i r w x : event_ok ev →
  setContext (set_events (context_of i r w) (mask (put_r ev x r) (put_w ev x w))) ev (of_waiter x)
    = context_of i (put_r ev x r) (put_w ev x w).
Proof. by intros [-> | ->]. Qed.

Lemma count_put ev x r w : event_ok ev →
  count (put_r ev x r) (put_w ev x w)
    = count r w + (if is_some x then 1 else 0) - (if is_some (pick ev r w) then 1 else 0).
Proof. unfold count, put_r, put_w, pick. intros [-> | ->]; simpl; lia. Qed.

(** What triggering an event of the context [i] does: the waiter goes to the
    queue of its scheduler, and the rest stays. *)
Record triggers s s' (i : nat) (r w : option waiter) (p : positive) (fc : FiberOrCb) : Prop := {
  tr_contexts : m_fdContexts s' = <[i := context_of i r w]> (m_fdContexts s);
  tr_pending : m_pendingEventCount s' = m_pendingEventCount s;
  tr_epoll : m_epfd s' = m_epfd s;
  tr_queue : ∀ q, queue s' q = queue s q ++ (if decide (q = p) then [new_task fc (-1)] else []);
  tr_scheds : ∀ q, is_Some (schedulers s !! q) ↔ is_Some (schedulers s' !! q)
}.

Lemma on_scheduler_run {A} p (m : MW A) a sw sw' s :
  schedulers s !! p = Some sw → m sw = Ok (a, sw') →
  on_scheduler p m s = Ok (a, set_schedulers (<[p := sw']> (schedulers s)) s).
Proof. intros E1 E2. unfold on_scheduler. by rewrite E1, E2. Qed.

Lemma trigger_run s i r w ev p fc :
  m_fdContexts s !! i = Some (context_of i r w) → event_ok ev → pick ev r w = Some (p, fc) →
  is_Some (schedulers s !! p) →
  ∃ s', triggerEvent (Z.of_nat i) ev s = Ok (tt, s') ∧ triggers s s' i (put_r ev None r) (put_w ev None w) p fc.
Proof.
  intros Hi Hev Hp [sw Esw]. unfold triggerEvent. assert (Hi0 : 0 <= Z.of_nat i) by lia.
  assert (Hi' : m_fdContexts s !! Z.to_nat (Z.of_nat i) = Some (context_of i r w)) by by rewrite Nat2Z.id.
  run (get_context_run s (Z.of_nat i) _ Hi0 Hi').
  assert (Hh : has (events (context_of i r w)) ev = true) by (change (has (mask r w) ev = true); by rewrite has_mask, Hp).
  rewrite Hh. run ret_run. change (events (context_of i r w)) with (mask r w). rewrite land_mask by done.
  run getContext_run.
  assert (Hslot : slot (set_events (context_of i r w) (mask (put_r ev None r) (put_w ev None w))) ev
    = of_waiter (Some (p, fc))) by (rewrite <- Hp; destruct Hev as [-> | ->]; done).
  rewrite Hslot. destruct (schedule_run fc (-1) sw) as [n Es].
  set (sw' := set_sched _ sw) in Es.
  assert (Hput : ∀ s1, m_fdContexts s1 = m_fdContexts s →
    put_context (Z.of_nat i) (setContext (set_events (context_of i r w) (mask (put_r ev None r) (put_w ev None w)))
      ev empty_context) s1
    = Ok (tt, set_contexts (<[i := context_of i (put_r ev None r) (put_w ev None w)]> (m_fdContexts s)) s1)).
  { intros s1 E1. rewrite <- E1 in Hi'. rewrite (put_context_run s1 _ _ _ Hi0 Hi'), E1, Nat2Z.id.
    change empty_context with (of_waiter None). by rewrite setContext_of. }
  exists (set_contexts (<[i := context_of i (put_r ev None r) (put_w ev None w)]> (m_fdContexts s))
    (set_schedulers (<[p := sw']> (schedulers s)) s)). split.
  - destruct fc; cbn [of_waiter ec_cb ec_scheduler ec_fiber]; run (on_scheduler_run p _ _ _ _ s Esw Es); by apply Hput.
  - constructor; try done.
    + intros q. unfold queue. cbn. destruct (decide (q = p)) as [->|Hne].
      * by rewrite lookup_insert_eq, Esw.
      * by rewrite lookup_insert_ne, app_nil_r by done.
    + intros q. cbn. rewrite lookup_insert_is_Some'. split; [by right|]. intros [<-|]; [by eexists|done].
Qed.
End operations.
