(* ===== verification/IOSteps.v ===== *)
(** * IOSteps: what each operation of the epoll scheduler does

    Every operation against the view of [armed], the table of what waits for
    which event, and [queue], the queues of the schedulers. *)

From S2P Require Import Prelude Fiber Scheduler SchedulerFacts IOManager IOFacts.
From S2P Require Timer.

Section props.
Context {K : Type} `{EpollLaws K} (pipe_fd : Z).
Implicit Types s : IOManager K.

Local Abbreviation io_inv := (io_inv pipe_fd).

(** The task a waiter puts in the queue [q]. *)
Definition sent (x : option waiter) (q : positive) : list FiberAndThread :=
  match x with
  | Some (p, fc) => if decide (q = p) then [new_task fc (-1)] else []
  | None => []
  end.

(** The events [evs] fire: what waits for them goes to the queues of their
    schedulers, in this order, and waits no more. *)
Record fires s s' (evs : list (Z * Z)) : Prop := {
  fi_size : length (m_fdContexts s') = length (m_fdContexts s);
  fi_armed : ∀ g e, event_ok e → armed s' g e = if decide ((g, e) ∈ evs) then None else armed s g e;
  fi_queue : ∀ q, queue s' q = queue s q ++ (evs ≫= λ k, sent (armed s k.1 k.2) q)
}.

(** ** Contexts of a state *)

Lemma context_at s fd : io_inv s → 0 <= fd < Z.of_nat (length (m_fdContexts s)) →
  ∃ r w, m_fdContexts s !! Z.to_nat fd = Some (context_of (Z.to_nat fd) r w).
Proof.
  intros Hi Hfd. destruct (lookup_lt_is_Some_2 (m_fdContexts s) (Z.to_nat fd)) as [c Hc]; [lia|].
  destruct (io_context _ _ Hi _ _ Hc) as [E _]. rewrite E in Hc. by eexists _, _.
Qed.

Lemma armed_at s fd r w ev : 0 <= fd → event_ok ev →
  m_fdContexts s !! Z.to_nat fd = Some (context_of (Z.to_nat fd) r w) → armed s fd ev = pick ev r w.
Proof.
  intros Hfd Hev E. unfold armed. destruct (Z.leb_spec 0 fd); [|lia]. rewrite E. simpl.
  rewrite slot_context by done. apply waiting_of.
Qed.

(** Only the context of [fd] changed, in its waiter for [ev]. *)
Lemma armed_put s s' fd r w ev x : 0 <= fd → event_ok ev →
  m_fdContexts s !! Z.to_nat fd = Some (context_of (Z.to_nat fd) r w) →
  m_fdContexts s' = <[Z.to_nat fd := context_of (Z.to_nat fd) (put_r ev x r) (put_w ev x w)]> (m_fdContexts s) →
  ∀ g e, event_ok e → armed s' g e = if decide ((g, e) = (fd, ev)) then x else armed s g e.
Proof.
  intros Hfd Hev E Es g e He. assert (Hlt : (Z.to_nat fd < length (m_fdContexts s))%nat) by by eapply lookup_lt_Some.
  destruct (decide (g = fd)) as [->|Hne].
  - rewrite (armed_at s' fd (put_r ev x r) (put_w ev x w) e), (armed_at s fd r w e); try done;
      [|by rewrite Es, list_lookup_insert_eq].
    destruct Hev as [-> | ->], He as [-> | ->]; case_decide; try done; congruence.
  - rewrite decide_False by congruence. unfold armed. destruct (Z.leb_spec 0 g); [|done].
    by rewrite Es, list_lookup_insert_ne by lia.
Qed.

Lemma armed_scheduler s fd r w p fc : io_inv s → 0 <= fd →
  m_fdContexts s !! Z.to_nat fd = Some (context_of (Z.to_nat fd) r w) →
  r = Some (p, fc) ∨ w = Some (p, fc) → is_Some (schedulers s !! p).
Proof.
  intros Hi Hfd E Hw. destruct (io_context _ _ Hi _ _ E) as [_ Hs].
  rewrite read_context_of, write_context_of in Hs. by eapply Hs.
Qed.

Lemma armed_out s fd ev : Z.of_nat (length (m_fdContexts s)) <= fd → armed s fd ev = None.
Proof.
  intros Hfd. unfold armed. destruct (0 <=? fd); [|done]. by rewrite lookup_ge_None_2 by lia.
Qed.

Lemma ctl_yes op fd e k s : epoll_ctl op fd e (m_epfd s) = Some k → ctl op fd e s = Ok (true, set_epoll k s).
Proof. intros E. unfold ctl. run gets_run. unfold id. by rewrite E. Qed.

Lemma ctl_no op fd e s : epoll_ctl op fd e (m_epfd s) = None → ctl op fd e s = Ok (false, s).
Proof. intros E. unfold ctl. run gets_run. unfold id. by rewrite E. Qed.

(** The kernel after an accepted change of the mask of [fd]. *)
Lemma interest_changed op fd r w k k' g :
  epoll_ctl op fd (Z.lor EPOLLET (mask r w)) k = Some k' →
  (op = EPOLL_CTL_DEL ↔ mask r w = 0) →
  interest k' g = if decide (g = fd) then registered (mask r w) else interest k g.
Proof.
  intros E Hop. unfold registered. destruct (Z.eqb_spec (mask r w) 0) as [E0|E0].
  - apply Hop in E0 as ->. by eapply interest_del.
  - eapply interest_set; [|exact E]. intros E1. by apply E0, Hop.
Qed.

(** A kernel that refuses nothing but a call it documents as an error: adding
    what it watches, changing or deleting what it does not. *)
Definition obliging (k : K) (fd : Z) : Prop :=
  ∀ op e, (op = EPOLL_CTL_ADD ↔ interest k fd = None) → is_Some (epoll_ctl op fd e k).

Lemma accepted s fd r w op e : io_inv s → 0 <= fd → fd ≠ pipe_fd →
  m_fdContexts s !! Z.to_nat fd = Some (context_of (Z.to_nat fd) r w) → obliging (m_epfd s) fd →
  (op = EPOLL_CTL_ADD ↔ mask r w = 0) → is_Some (epoll_ctl op fd e (m_epfd s)).
Proof.
  intros Hi Hfd Hne Hc Hob Hop. apply Hob. rewrite (io_interest _ _ Hi), Hc, Hop by done.
  unfold registered. change (events _) with (mask r w). by destruct (Z.eqb_spec (mask r w) 0).
Qed.

Lemma pick_mask ev r w x : event_ok ev → pick ev r w = Some x → mask r w ≠ 0.
Proof. by intros [-> | ->]; cbn; intros ->; [destruct w|destruct r]. Qed.

Lemma removal_op (b : bool) n : n ≠ 0 → (if b then EPOLL_CTL_DEL else EPOLL_CTL_MOD) = EPOLL_CTL_ADD ↔ n = 0.
Proof. by destruct b. Qed.

Lemma io_fires_none s s' : m_fdContexts s' = m_fdContexts s → schedulers s' = schedulers s → fires s s' [].
Proof.
  intros E1 E2. constructor.
  - by rewrite E1.
  - intros g e _. unfold armed. by rewrite E1.
  - intros q. unfold queue. by rewrite E2, app_nil_r.
Qed.

(** ** Adding *)

Lemma resize_run s n : io_inv s → (length (m_fdContexts s) ≤ n)%nat →
  ∃ s', contextResize (Z.of_nat n) s = Ok (tt, s') ∧ io_inv s' ∧ length (m_fdContexts s') = n ∧
    m_epfd s' = m_epfd s ∧ m_pendingEventCount s' = m_pendingEventCount s ∧ schedulers s' = schedulers s ∧
    (∀ g e, event_ok e → armed s' g e = armed s g e).
Proof.
  intros Hi Hn. set (l := m_fdContexts s) in *. set (k := (n - length l)%nat).
  set (new := map (λ i, mkFdContext empty_context empty_context (Z.of_nat i) NONE) (seq (length l) k)).
  exists (set_contexts (l ++ new) s). split.
  { unfold contextResize, modify. rewrite Nat2Z.id. fold l. by rewrite take_ge. }
  assert (Hnew : ∀ j, (j < k)%nat → new !! j = Some (context_of (length l + j) None None)).
  { intros j Hj. unfold new. rewrite list_lookup_fmap, lookup_seq_lt by done. done. }
  assert (Hlen : length new = k) by (unfold new; by rewrite length_map, length_seq).
  assert (Hlook : ∀ j c, (l ++ new) !! j = Some c → l !! j = Some c ∨ (length l ≤ j)%nat ∧ c = context_of j None None).
  { intros j c [Hj|[Hl Hj]]%lookup_app_Some; [by left|right]. split; [done|].
    rewrite Hnew in Hj by (rewrite <- Hlen; by eapply lookup_lt_Some). injection Hj as <-. f_equal. lia. }
  assert (Hz : foldr (λ c n, armed_count c + n) 0 new = 0).
  { unfold new. clear. generalize (length l) as a. induction k as [|k IH]; intros a; [done|]. simpl. by rewrite IH. }
  split_and!; try done.
  - constructor; cbn.
    + rewrite length_app. pose proof (io_size _ _ Hi) as Hs. fold l in Hs. lia.
    + intros j c [Hj|[_ ->]]%Hlook; [by apply Hi|]. split; [done|]. by intros p fc [|].
    + rewrite foldr_app, Hz. apply Hi.
    + intros g Hg Hgp. rewrite (io_interest _ _ Hi) by done. fold l.
      destruct (l !! Z.to_nat g) as [c|] eqn:E; [by rewrite (lookup_app_l_Some _ _ _ _ E)|].
      destruct ((l ++ new) !! Z.to_nat g) as [c|] eqn:E'; [|done].
      destruct (Hlook _ _ E') as [|[_ ->]]; [congruence|done].
  - cbn. rewrite length_app. lia.
  - intros g e He. unfold armed. cbn. fold l. destruct (0 <=? g); [|done].
    destruct (l !! Z.to_nat g) as [c|] eqn:E; [by rewrite (lookup_app_l_Some _ _ _ _ E)|].
    destruct ((l ++ new) !! Z.to_nat g) as [c|] eqn:E'; [|done].
    destruct (Hlook _ _ E') as [|[_ ->]]; [congruence|]. simpl. rewrite slot_context by done. by destruct He as [-> | ->].
Qed.

(** The context a caller registers for an event. *)
Definition new_waiter (caller : Caller) (p : positive) (cb : option Z) : waiter :=
  (p, match cb with Some c => ACb c | None => AFiber (this_fiber caller) end).

(** The part of [addEvent] after the context was found. *)
Lemma add_at s caller p fd ev cb r w :
  io_inv s → 0 <= fd → fd ≠ pipe_fd → event_ok ev →
  this_scheduler caller = Some p → is_Some (schedulers s !! p) → this_state caller = EXEC →
  m_fdContexts s !! Z.to_nat fd = Some (context_of (Z.to_nat fd) r w) →
  fd < Z.of_nat (length (m_fdContexts s)) →
  ∃ n s', addEvent caller fd ev cb s = Ok (n, s') ∧ io_inv s' ∧ schedulers s' = schedulers s ∧
    (n = 0 ∨ n = -1 ∧ s' = s) ∧ (n = 0 → armed s fd ev = None) ∧
    (∀ g e, event_ok e → armed s' g e
      = if decide (n = 0 ∧ (g, e) = (fd, ev)) then Some (new_waiter caller p cb) else armed s g e) ∧
    (armed s fd ev = None → obliging (m_epfd s) fd → n = 0).
Proof.
  intros Hi Hfd Hne Hev Hp Hsp Hx Hc Hlt. pose proof (armed_at s fd r w ev Hfd Hev Hc) as Ha.
  unfold addEvent. run gets_run. unfold id. destruct (Z.ltb_spec fd (Z.of_nat (length (m_fdContexts s)))); [|lia].
  run ret_run. run get_context_run. change (events (context_of (Z.to_nat fd) r w)) with (mask r w).
  rewrite has_mask by done. set (x := new_waiter caller p cb).
  destruct (pick ev r w) as [y|] eqn:Hpick; cbn [is_some].
  { eexists _, s. split; [reflexivity|]. split_and!; [done|done|by right|lia| |by rewrite Ha].
    intros g e _. by rewrite decide_False by lia. }
  cbv iota zeta. rewrite <- Z.lor_assoc, (lor_mask ev x) by done.
  set (r' := put_r ev (Some x) r). set (w' := put_w ev (Some x) w).
  set (op := if mask r w =? 0 then EPOLL_CTL_ADD else EPOLL_CTL_MOD).
  destruct (epoll_ctl op fd (Z.lor EPOLLET (mask r' w')) (m_epfd s)) as [k|] eqn:Ek.
  2: { run ctl_no. eexists _, s. split; [reflexivity|]. split_and!; [done|done|by right|lia| |].
       - intros g e _. by rewrite decide_False by lia.
       - intros _ Hob. destruct (accepted s fd r w op (Z.lor EPOLLET (mask r' w')) Hi Hfd Hne Hc Hob) as [? E];
           [|by rewrite Ek in E]. unfold op. by destruct (Z.eqb_spec (mask r w) 0). }
  run ctl_yes. cbn [negb]. run (eq_refl : modify (add_pending 1) (set_epoll k s) = Ok (tt, _)). run getContext_run.
  assert (Hslot : slot (set_events (context_of (Z.to_nat fd) r w) (mask r' w')) ev = empty_context).
  { transitivity (of_waiter (pick ev r w)); [|by rewrite Hpick]. by destruct Hev as [-> | ->]. }
  rewrite Hslot. run ret_run.
  assert (Hok : ∀ s1 : IOManager K, match cb with Some _ => mret tt | None => assert_that (bool_decide (this_state caller = EXEC)) end s1 = Ok (tt, s1))
    by (intros s1; destruct cb; [done|]; by rewrite Hx).
  run Hok.
  assert (Hec : mkEventContext (this_scheduler caller) (match cb with Some _ => None | None => Some (this_fiber caller) end) cb
    = of_waiter (Some x)) by (rewrite Hp; unfold x, new_waiter; by destruct cb).
  rewrite Hec. unfold r', w'. rewrite setContext_of by done. fold r' w'. run put_context_run.
  eexists _, _. split; [reflexivity|]. split_and!; try done.
  - eapply (io_inv_update pipe_fd s _ (Z.to_nat fd) _ r' w' Hi Hc); try done.
    + cbn. unfold r', w'. rewrite count_put, Hpick by done. unfold armed_count.
      rewrite read_context_of, write_context_of. simpl. lia.
    + intros g Hg Hgp. cbn. rewrite Z2Nat.id by done. eapply interest_changed; [exact Ek|].
      split; [unfold op; by destruct (mask r w =? 0)|]. intros E0. exfalso. revert E0. unfold r', w', mask.
      destruct Hev as [-> | ->]; cbn; [by destruct w|by destruct r].
    + intros q fc [E|E]; cbn; [destruct Hev as [-> | ->]; cbn in E|destruct Hev as [-> | ->]; cbn in E].
      * injection E as <- _. done.
      * eapply (armed_scheduler s fd r w); eauto.
      * eapply (armed_scheduler s fd r w); eauto.
      * injection E as <- _. done.
  - by left.
  - intros g e He. rewrite (armed_put s _ fd r w ev (Some x)) by done.
    destruct (decide ((g, e) = (fd, ev))) as [Heq|Hneq].
    + by rewrite decide_True by done.
    + by rewrite decide_False by (by intros []).
Qed.

Lemma add_spec s caller p fd ev cb :
  io_inv s → 0 <= fd → fd ≠ pipe_fd → event_ok ev →
  this_scheduler caller = Some p → is_Some (schedulers s !! p) → this_state caller = EXEC →
  ∃ n s', addEvent caller fd ev cb s = Ok (n, s') ∧ io_inv s' ∧ schedulers s' = schedulers s ∧
    (n = 0 ∨ n = -1) ∧ (n = 0 → armed s fd ev = None) ∧
    (∀ g e, event_ok e → armed s' g e
      = if decide (n = 0 ∧ (g, e) = (fd, ev)) then Some (new_waiter caller p cb) else armed s g e) ∧
    (armed s fd ev = None → obliging (m_epfd s) fd → n = 0).
Proof.
  intros Hi Hfd Hne Hev Hp Hsp Hx.
  destruct (Z.ltb_spec fd (Z.of_nat (length (m_fdContexts s)))) as [Hlt|Hge].
  - destruct (context_at s fd Hi ltac:(lia)) as (r & w & Hc).
    destruct (add_at s caller p fd ev cb r w) as (n & s' & E & Hi' & Hs & Hn & Hrest); try done.
    exists n, s'. split_and!; try done; try apply Hrest. destruct Hn as [?|[? _]]; auto.
  - set (n := Z.to_nat (fd * 3 / 2)). pose proof (io_size _ _ Hi) as Hsz.
    assert (Hgrown : grown_size fd = Z.of_nat n ∧ fd < Z.of_nat n).
    { unfold grown_size, n. assert (fd + 1 <= fd * 3 / 2) by (apply Z.div_le_lower_bound; lia). lia. }
    destruct Hgrown as [Eg Hn].
    destruct (resize_run s n Hi ltac:(lia)) as (s1 & E1 & Hi1 & Hl1 & Ek & _ & Es & Ha).
    destruct (context_at s1 fd Hi1 ltac:(lia)) as (r & w & Hc).
    assert (Hsp1 : is_Some (schedulers s1 !! p)) by by rewrite Es.
    assert (Hlt1 : fd < Z.of_nat (length (m_fdContexts s1))) by by rewrite Hl1.
    destruct (add_at s1 caller p fd ev cb r w Hi1 Hfd Hne Hev Hp Hsp1 Hx Hc Hlt1)
      as (m & s' & E & Hi' & Hs & Hm & Hm0 & Hrest & Hacc).
    exists m, s'. rewrite <- (Ha fd ev Hev), <- Ek. split_and!; try done; [|by rewrite Hs| |].
    + rewrite <- E. unfold addEvent. run gets_run. unfold id at 1.
      destruct (Z.ltb_spec fd (Z.of_nat (length (m_fdContexts s)))); [lia|]. rewrite Eg. run E1.
      symmetry. run gets_run. unfold id at 1.
      destruct (Z.ltb_spec fd (Z.of_nat (length (m_fdContexts s1)))); [|lia]. by run ret_run.
    + destruct Hm as [?|[? _]]; auto.
    + intros g e He. rewrite Hrest by done. by rewrite Ha.
Qed.

(** ** Removing *)

(** The two conditions under which the context of [fd] is left alone. *)
Lemma not_armed_run {A} s fd ev (a : A) (k : FdContext → M (IOManager K) A) :
  io_inv s → 0 <= fd → event_ok ev → armed s fd ev = None →
  (if Z.of_nat (length (m_fdContexts s)) <=? fd then mret a
   else fd_ctx ← get_context fd; if negb (has (events fd_ctx) ev) then mret a else k fd_ctx) s = Ok (a, s).
Proof.
  intros Hi Hfd Hev Ha. destruct (Z.leb_spec (Z.of_nat (length (m_fdContexts s))) fd); [done|].
  destruct (context_at s fd Hi ltac:(lia)) as (r & w & Hc). rewrite (armed_at s fd r w ev) in Ha by done.
  run get_context_run. change (events (context_of (Z.to_nat fd) r w)) with (mask r w). by rewrite has_mask, Ha.
Qed.

Lemma armed_context s fd ev x : io_inv s → 0 <= fd → event_ok ev → armed s fd ev = Some x →
  fd < Z.of_nat (length (m_fdContexts s)) ∧
  ∃ r w, m_fdContexts s !! Z.to_nat fd = Some (context_of (Z.to_nat fd) r w) ∧ pick ev r w = Some x.
Proof.
  intros Hi Hfd Hev Ha. destruct (Z.leb_spec (Z.of_nat (length (m_fdContexts s))) fd) as [Hge|Hlt].
  { by rewrite armed_out in Ha. }
  split; [done|]. destruct (context_at s fd Hi ltac:(lia)) as (r & w & Hc). exists r, w. split; [done|].
  by rewrite <- Ha, (armed_at s fd r w ev).
Qed.

Lemma del_spec s fd ev : io_inv s → 0 <= fd → fd ≠ pipe_fd → event_ok ev →
  ∃ b s', delEvent fd ev s = Ok (b, s') ∧ io_inv s' ∧ schedulers s' = schedulers s ∧
    (b = true → armed s fd ev ≠ None) ∧
    (∀ g e, event_ok e → armed s' g e
      = if decide (b = true ∧ (g, e) = (fd, ev)) then None else armed s g e) ∧
    (armed s fd ev ≠ None → obliging (m_epfd s) fd → b = true).
Proof.
  intros Hi Hfd Hne Hev. unfold delEvent. rewrite (bind_run (gets id) _ s s s eq_refl).
  destruct (armed s fd ev) as [x|] eqn:Ha.
  2: { eexists _, s. split; [by apply not_armed_run|]. by split_and!. }
  destruct (armed_context s fd ev x Hi Hfd Hev Ha) as (Hlt & r & w & Hc & Hpick).
  destruct (Z.leb_spec (Z.of_nat (length (m_fdContexts s))) fd); [lia|].
  run get_context_run. change (events (context_of (Z.to_nat fd) r w)) with (mask r w).
  rewrite has_mask, Hpick by done. cbn [is_some negb]. rewrite land_mask by done.
  set (r' := put_r ev None r). set (w' := put_w ev None w). set (op := if mask r' w' =? 0 then _ else _).
  destruct (epoll_ctl op fd (Z.lor EPOLLET (mask r' w')) (m_epfd s)) as [k|] eqn:Ek.
  2: { run ctl_no. eexists _, s. split; [reflexivity|]. split_and!; try done.
       intros _ Hob. destruct (accepted s fd r w op (Z.lor EPOLLET (mask r' w')) Hi Hfd Hne Hc Hob) as [? E];
         [|by rewrite Ek in E]. unfold op. by apply removal_op, (pick_mask ev r w x). }
  run ctl_yes. cbn [negb]. run (eq_refl : modify (add_pending (-1)) (set_epoll k s) = Ok (tt, _)).
  run getContext_run. change (resetContext _) with (of_waiter None). unfold r', w'.
  rewrite setContext_of by done. fold r' w'. run put_context_run.
  eexists _, _. split; [reflexivity|]. split_and!; try done.
  - eapply (io_inv_update pipe_fd s _ (Z.to_nat fd) _ r' w' Hi Hc); try done.
    + cbn. unfold r', w'. rewrite count_put, Hpick by done. unfold armed_count.
      rewrite read_context_of, write_context_of. simpl. lia.
    + intros g Hg Hgp. cbn. rewrite Z2Nat.id by done. eapply interest_changed; [exact Ek|].
      unfold op. destruct (Z.eqb_spec (mask r' w') 0); by split.
    + intros q fc [E|E]; cbn; destruct Hev as [-> | ->]; cbn in E; try done; eapply (armed_scheduler s fd r w); eauto.
  - intros g e He. rewrite (armed_put s _ fd r w ev None) by done.
    destruct (decide ((g, e) = (fd, ev))) as [Heq|Hneq].
    + by rewrite decide_True by done.
    + by rewrite decide_False by (by intros []).
Qed.

(** ** Firing *)

(** The waiters of a context after the events of [b] fired. *)
Definition after_r (b : bool) (ev : Z) (r : option waiter) : option waiter := if b then put_r ev None r else r.
Definition after_w (b : bool) (ev : Z) (w : option waiter) : option waiter := if b then put_w ev None w else w.

Record fired s s' (i : nat) (r' w' : option waiter) (n : Z) (sends : positive → list FiberAndThread) : Prop := {
  fd_contexts : m_fdContexts s' = <[i := context_of i r' w']> (m_fdContexts s);
  fd_pending : m_pendingEventCount s' = m_pendingEventCount s - n;
  fd_epoll : m_epfd s' = m_epfd s;
  fd_queue : ∀ q, queue s' q = queue s q ++ sends q;
  fd_scheds : ∀ q, is_Some (schedulers s !! q) ↔ is_Some (schedulers s' !! q)
}.

Lemma trigger_if_run s i r w ev b :
  m_fdContexts s !! i = Some (context_of i r w) → event_ok ev →
  (b = true → ∃ p fc, pick ev r w = Some (p, fc) ∧ is_Some (schedulers s !! p)) →
  ∃ s', trigger_if b (Z.of_nat i) ev s = Ok (tt, s') ∧
    fired s s' i (after_r b ev r) (after_w b ev w) (if b then 1 else 0)
      (λ q, if b then sent (pick ev r w) q else []).
Proof.
  intros Hi Hev Hb. destruct b; cbn [trigger_if].
  - destruct (Hb eq_refl) as (p & fc & Hp & Hs).
    destruct (trigger_run s i r w ev p fc Hi Hev Hp Hs) as (s1 & E & [Ec Ep Ek Eq Es]).
    run E. eexists. split; [reflexivity|]. constructor; cbn; try done; [lia|].
    intros q. rewrite Hp. apply Eq.
  - exists s. split; [done|]. constructor; cbn; try done; [by rewrite list_insert_id|lia|].
    intros q. by rewrite app_nil_r.
Qed.

Lemma trigger_if_not s i r w ev : m_fdContexts s !! i = Some (context_of i r w) → event_ok ev →
  pick ev r w = None → trigger_if true (Z.of_nat i) ev s = Fail AssertFailed.
Proof.
  intros Hi Hev Hp. unfold trigger_if, triggerEvent.
  assert (Hi0 : 0 <= Z.of_nat i) by lia.
  assert (Hi' : m_fdContexts s !! Z.to_nat (Z.of_nat i) = Some (context_of i r w)) by by rewrite Nat2Z.id.
  run (get_context_run s (Z.of_nat i) _ Hi0 Hi').
  change (events (context_of i r w)) with (mask r w). by rewrite has_mask, Hp.
Qed.

Lemma fired_trans s s1 s2 i r1 w1 r2 w2 n1 n2 f1 f2 :
  fired s s1 i r1 w1 n1 f1 → fired s1 s2 i r2 w2 n2 f2 →
  fired s s2 i r2 w2 (n1 + n2) (λ q, f1 q ++ f2 q).
Proof.
  intros [C1 P1 K1 Q1 S1] [C2 P2 K2 Q2 S2]. constructor.
  - by rewrite C2, C1, list_insert_insert_eq.
  - lia.
  - congruence.
  - intros q. by rewrite Q2, Q1, app_assoc.
  - intros q. by rewrite S1.
Qed.

(** Events fired after the kernel was told: the invariant, and the view. *)
Lemma fired_inv s k s' fd r w br bw op sends :
  io_inv s → 0 <= fd → fd ≠ pipe_fd → m_fdContexts s !! Z.to_nat fd = Some (context_of (Z.to_nat fd) r w) →
  (br = true → is_some r = true) → (bw = true → is_some w = true) →
  let r' := after_r br READ r in let w' := after_w bw WRITE w in
  epoll_ctl op fd (Z.lor EPOLLET (mask r' w')) (m_epfd s) = Some k ∧ (op = EPOLL_CTL_DEL ↔ mask r' w' = 0) ∨
    epoll_ctl EPOLL_CTL_DEL fd 0 (m_epfd s) = Some k ∧ mask r' w' = 0 →
  fired (set_epoll k s) s' (Z.to_nat fd) r' w' ((if br then 1 else 0) + (if bw then 1 else 0)) sends →
  (∀ q, sends q = (if br then sent r q else []) ++ (if bw then sent w q else [])) →
  io_inv s' ∧ fires s s' ((if br then [(fd, READ)] else []) ++ (if bw then [(fd, WRITE)] else [])).
Proof.
  intros Hi Hfd Hne Hc Hbr Hbw r' w' Hk [Ec Ep Ek Eq Es] Hsend.
  assert (Hr' : r' = if br then None else r) by (unfold r'; by destruct br).
  assert (Hw' : w' = if bw then None else w) by (unfold w'; by destruct bw). split.
  - eapply (io_inv_update pipe_fd s s' (Z.to_nat fd) _ r' w' Hi Hc); try done.
    + rewrite Ep. cbn. unfold armed_count. rewrite read_context_of, write_context_of, Hr', Hw'. unfold count.
      destruct br, bw; simpl; rewrite ?Hbr, ?Hbw by done; lia.
    + intros g Hg Hgp. rewrite Ek, Z2Nat.id by done. cbn. destruct Hk as [[Hk Hop]|[Hk H0']].
      * by eapply interest_changed.
      * rewrite (interest_del _ _ _ _ g Hk). unfold registered. unfold mask in H0'. by rewrite H0'.
    + intros q Hq. apply Es, Hq.
    + intros q fc Hq. apply Es. apply (armed_scheduler s fd r w q fc Hi Hfd Hc).
      rewrite Hr', Hw' in Hq. by destruct Hq, br, bw; auto.
  - constructor.
    + by rewrite Ec, length_insert.
    + intros g e He. assert (Hlt : (Z.to_nat fd < length (m_fdContexts s))%nat) by by eapply lookup_lt_Some.
      destruct (decide (g = fd)) as [->|Hgne].
      * rewrite (armed_at s' fd r' w' e), (armed_at s fd r w e); try done; [|by rewrite Ec; apply list_lookup_insert_eq].
        rewrite Hr', Hw'. destruct He as [-> | ->], br, bw; cbn [app]; case_decide as Hd; try done; exfalso; revert Hd;
          rewrite ?elem_of_cons, ?elem_of_nil; unfold READ, WRITE; naive_solver.
      * rewrite decide_False by (destruct br, bw; set_solver).
        unfold armed. destruct (Z.leb_spec 0 g); [|done]. by rewrite Ec; cbn; rewrite list_lookup_insert_ne by lia.
    + intros q. rewrite Eq, Hsend. unfold queue. cbn. f_equal.
      assert (ER : armed s fd READ = r) by (apply (armed_at s fd r w READ); [done|by left|done]).
      assert (EW : armed s fd WRITE = w) by (apply (armed_at s fd r w WRITE); [done|by right|done]).
      rewrite bind_app. by destruct br, bw; cbn; rewrite ?app_nil_r, ?ER, ?EW.
Qed.

Lemma io_cancel_spec s fd ev : io_inv s → 0 <= fd → fd ≠ pipe_fd → event_ok ev →
  ∃ b s', cancelEvent fd ev s = Ok (b, s') ∧ io_inv s' ∧ (b = true → armed s fd ev ≠ None) ∧
    fires s s' (if b : bool then [(fd, ev)] else []) ∧
    (armed s fd ev ≠ None → obliging (m_epfd s) fd → b = true).
Proof.
  intros Hi Hfd Hne Hev. unfold cancelEvent. rewrite (bind_run (gets id) _ s s s eq_refl).
  destruct (armed s fd ev) as [x|] eqn:Ha.
  2: { eexists _, s. split; [by apply not_armed_run|]. split_and!; try done. by apply io_fires_none. }
  destruct (armed_context s fd ev x Hi Hfd Hev Ha) as (Hlt & r & w & Hc & Hpick).
  destruct (Z.leb_spec (Z.of_nat (length (m_fdContexts s))) fd); [lia|].
  run get_context_run. change (events (context_of (Z.to_nat fd) r w)) with (mask r w).
  rewrite has_mask, Hpick by done. cbn [is_some negb]. rewrite land_mask by done.
  set (r' := put_r ev None r). set (w' := put_w ev None w). set (op := if mask r' w' =? 0 then _ else _).
  destruct (epoll_ctl op fd (Z.lor EPOLLET (mask r' w')) (m_epfd s)) as [k|] eqn:Ek.
  2: { run ctl_no. eexists _, s. split; [reflexivity|]. split_and!; try done; [by apply io_fires_none|].
       intros _ Hob. destruct (accepted s fd r w op (Z.lor EPOLLET (mask r' w')) Hi Hfd Hne Hc Hob) as [? E];
         [|by rewrite Ek in E]. unfold op. by apply removal_op, (pick_mask ev r w x). }
  run ctl_yes. cbn [negb].
  assert (Hop : op = EPOLL_CTL_DEL ↔ mask r' w' = 0)
    by (unfold op; destruct (Z.eqb_spec (mask r' w') 0); by split).
  destruct (trigger_if_run (set_epoll k s) (Z.to_nat fd) r w ev true) as (s' & E & Hf); [done|done| |].
  { intros _. destruct x as [p fc]. exists p, fc. split; [done|]. eapply (armed_scheduler s fd r w p fc); try done.
    destruct Hev as [-> | ->]; auto. }
  unfold trigger_if in E. rewrite Z2Nat.id in E by done.
  exists true, s'. split.
  { apply bind_Ok in E as (u & s1 & E1 & E2). run E1. by run E2. }
  assert (Hfin : io_inv s' ∧ fires s s' [(fd, ev)]).
  { destruct Hev as [-> | ->].
    - cbn in Hpick. subst r. eapply (fired_inv s k s' fd _ w true false op _ Hi Hfd Hne Hc);
        [done|done|left; split; [exact Ek|exact Hop]|exact Hf|]. intros q. by rewrite app_nil_r.
    - cbn in Hpick. subst w. eapply (fired_inv s k s' fd r _ false true op _ Hi Hfd Hne Hc);
        [done|done|left; split; [exact Ek|exact Hop]|exact Hf|done]. }
  destruct Hfin. by split_and!.
Qed.

(** Both events of a context are triggered when their bits say so. *)
Lemma trigger_both s fd r w br bw : io_inv s → 0 <= fd → ∀ k,
  m_fdContexts s !! Z.to_nat fd = Some (context_of (Z.to_nat fd) r w) →
  (br = true → is_some r = true) → (bw = true → is_some w = true) →
  ∃ s1 s2, trigger_if br fd READ (set_epoll k s) = Ok (tt, s1) ∧ trigger_if bw fd WRITE s1 = Ok (tt, s2) ∧
    m_fdContexts s1 !! Z.to_nat fd = Some (context_of (Z.to_nat fd) (after_r br READ r) w) ∧
    m_fdContexts s2 !! Z.to_nat fd = Some (context_of (Z.to_nat fd) (after_r br READ r) (after_w bw WRITE w)) ∧
    fired (set_epoll k s) s2 (Z.to_nat fd) (after_r br READ r) (after_w bw WRITE w)
      ((if br then 1 else 0) + (if bw then 1 else 0))
      (λ q, (if br then sent r q else []) ++ (if bw then sent w q else [])).
Proof.
  intros Hi Hfd k Hc Hbr Hbw. assert (Hlt : (Z.to_nat fd < length (m_fdContexts s))%nat) by by eapply lookup_lt_Some.
  assert (Hs : ∀ p fc, r = Some (p, fc) ∨ w = Some (p, fc) → is_Some (schedulers s !! p))
    by (intros p fc; by apply (armed_scheduler s fd r w)).
  destruct (trigger_if_run (set_epoll k s) (Z.to_nat fd) r w READ br Hc) as (s1 & E1 & H1); [by left| |].
  { intros Hb. destruct r as [[p fc]|]; [|by specialize (Hbr Hb)]. exists p, fc. split; [done|]. apply (Hs p fc). by left. }
  assert (Hc1 : m_fdContexts s1 !! Z.to_nat fd = Some (context_of (Z.to_nat fd) (after_r br READ r) w)).
  { rewrite (fd_contexts _ _ _ _ _ _ _ H1). cbn. rewrite list_lookup_insert_eq by done. by destruct br. }
  destruct (trigger_if_run s1 (Z.to_nat fd) (after_r br READ r) w WRITE bw Hc1) as (s2 & E2 & H2); [by right| |].
  { intros Hb. destruct w as [[p fc]|]; [|by specialize (Hbw Hb)]. exists p, fc. split; [done|].
    apply (fd_scheds _ _ _ _ _ _ _ H1), (Hs p fc). by right. }
  rewrite Z2Nat.id in E1, E2 by done. exists s1, s2. split_and!; try done.
  - rewrite (fd_contexts _ _ _ _ _ _ _ H2), list_lookup_insert_eq by
      (rewrite (fd_contexts _ _ _ _ _ _ _ H1), length_insert; done). by destruct bw.
  - pose proof (fired_trans _ _ _ _ _ _ _ _ _ _ _ _ H1 H2) as []. constructor; try done.
    by rewrite fd_contexts0; destruct bw.
Qed.

(** The events of [fd] for which something waits. *)
Definition armed_events s (fd : Z) : list (Z * Z) :=
  (if is_some (armed s fd READ) then [(fd, READ)] else []) ++
  (if is_some (armed s fd WRITE) then [(fd, WRITE)] else []).

Lemma mask_zero r w : mask r w = 0 ↔ r = None ∧ w = None.
Proof. destruct r, w; vm_compute; naive_solver. Qed.

Lemma io_cancel_all_spec s fd : io_inv s → 0 <= fd → fd ≠ pipe_fd →
  ∃ b s', cancelAll fd s = Ok (b, s') ∧ io_inv s' ∧ (b = true → armed_events s fd ≠ []) ∧
    fires s s' (if b : bool then armed_events s fd else []) ∧
    (armed_events s fd ≠ [] → obliging (m_epfd s) fd → b = true).
Proof.
  intros Hi Hfd Hne. unfold cancelAll. rewrite (bind_run (gets id) _ s s s eq_refl).
  destruct (Z.leb_spec (Z.of_nat (length (m_fdContexts s))) fd) as [Hge|Hlt].
  { eexists _, s. split; [reflexivity|]. split_and!; try done; [by apply io_fires_none|].
    unfold armed_events. by rewrite !armed_out. }
  destruct (context_at s fd Hi ltac:(lia)) as (r & w & Hc).
  assert (Hev : armed_events s fd = (if is_some r then [(fd, READ)] else []) ++ (if is_some w then [(fd, WRITE)] else [])).
  { unfold armed_events. rewrite (armed_at s fd r w READ), (armed_at s fd r w WRITE); try done; [by right|by left]. }
  rewrite Hev. run get_context_run. change (events (context_of (Z.to_nat fd) r w)) with (mask r w).
  destruct (Z.eqb_spec (mask r w) 0) as [[-> ->]%mask_zero|Hm].
  { eexists _, s. split; [reflexivity|]. split_and!; try done. by apply io_fires_none. }
  destruct (epoll_ctl EPOLL_CTL_DEL fd 0 (m_epfd s)) as [k|] eqn:Ek.
  2: { run ctl_no. eexists _, s. split; [reflexivity|]. split_and!; try done; [by apply io_fires_none|].
       intros _ Hob. destruct (accepted s fd r w EPOLL_CTL_DEL 0 Hi Hfd Hne Hc Hob) as [? E]; [done|by rewrite Ek in E]. }
  run ctl_yes. cbn [negb]. rewrite has_mask by by left. cbn [pick READ Z.eqb Pos.eqb].
  destruct (trigger_both s fd r w (is_some r) (is_some w) Hi Hfd k Hc) as (s1 & s2 & E1 & E2 & Hc1 & Hc2 & Hf); [done|done|].
  run E1. run (get_context_run s1 fd _ Hfd Hc1).
  change (events (context_of (Z.to_nat fd) (after_r (is_some r) READ r) w)) with (mask (after_r (is_some r) READ r) w).
  rewrite has_mask by by right. cbn [pick WRITE READ Z.eqb Pos.eqb]. run E2. run (get_context_run s2 fd _ Hfd Hc2).
  assert (Hz : mask (after_r (is_some r) READ r) (after_w (is_some w) WRITE w) = 0)
    by (apply mask_zero; by destruct r, w).
  change (events (context_of (Z.to_nat fd) (after_r (is_some r) READ r) (after_w (is_some w) WRITE w)))
    with (mask (after_r (is_some r) READ r) (after_w (is_some w) WRITE w)).
  rewrite Hz. run ret_run. exists true, s2. split; [done|].
  destruct (fired_inv s k s2 fd r w (is_some r) (is_some w) EPOLL_CTL_DEL
    (λ q, (if is_some r then sent r q else []) ++ (if is_some w then sent w q else [])) Hi Hfd Hne Hc) as [Hi2 Hfi];
    [done|done|by right|exact Hf|done|].
  split_and!; try done. intros _. intros E. apply Hm, mask_zero. by destruct r, w.
Qed.

(** ** The events the kernel reports *)

(** What an event of the kernel means for a descriptor: an error or a hang-up
    stands for whatever waits. *)
Definition reported s (fd mask ev : Z) : bool :=
  has mask ev || (has mask (Z.lor EPOLLERR EPOLLHUP) && is_some (armed s fd ev)).

Definition reported_events s (fd mask : Z) : list (Z * Z) :=
  (if reported s fd mask READ then [(fd, READ)] else []) ++
  (if reported s fd mask WRITE then [(fd, WRITE)] else []).

Lemma has_testbit m ev : event_ok ev → has m ev = Z.testbit m (Z.log2 ev).
Proof.
  intros Hev. unfold has. assert (Hb : Z.land m ev = if Z.testbit m (Z.log2 ev) then ev else 0).
  { apply Z.bits_inj'. intros n Hn. rewrite Z.land_spec.
    assert (Hev2 : ev = 2 ^ Z.log2 ev) by by destruct Hev as [-> | ->].
    destruct (decide (n = Z.log2 ev)) as [->|Hne].
    - destruct (Z.testbit m (Z.log2 ev)) eqn:E; [done|]. by rewrite Z.bits_0.
    - rewrite Hev2 at 1. rewrite Z.pow2_bits_false by done. rewrite andb_false_r.
      case_match; [|by rewrite Z.bits_0]. rewrite Hev2. by rewrite Z.pow2_bits_false. }
  rewrite Hb. destruct (Z.testbit m (Z.log2 ev)); [by destruct Hev as [-> | ->]|done].
Qed.

Lemma has_lor m n ev : event_ok ev → has (Z.lor m n) ev = has m ev || has n ev.
Proof. intros Hev. by rewrite !has_testbit, Z.lor_spec. Qed.

(** The mask of the events to trigger, as the code computes it. *)
Lemma real_events_spec s fd m r w :
  armed s fd READ = r → armed s fd WRITE = w →
  let m' := if has m (Z.lor EPOLLERR EPOLLHUP) then Z.lor m (Z.land (Z.lor EPOLLIN EPOLLOUT) (mask r w)) else m in
  Z.lor (if has m' EPOLLIN then READ else NONE) (if has m' EPOLLOUT then WRITE else NONE)
    = bits (reported s fd m READ) (reported s fd m WRITE).
Proof.
  intros Hr Hw m'. assert (Hm : Z.land (Z.lor EPOLLIN EPOLLOUT) (mask r w) = mask r w) by by destruct r, w.
  assert (Hh : ∀ ev, event_ok ev → has m' ev = reported s fd m ev).
  { intros ev Hev. unfold reported, m'. rewrite Hm. destruct (has m (Z.lor EPOLLERR EPOLLHUP)); simpl.
    - rewrite has_lor, has_mask by done. by destruct Hev as [-> | ->]; simpl; rewrite ?Hr, ?Hw.
    - by rewrite orb_false_r. }
  change EPOLLIN with READ. change EPOLLOUT with WRITE. rewrite !Hh by (by left) || (by right).
  by destruct (reported s fd m READ), (reported s fd m WRITE).
Qed.

(** Events of the kernel that nothing waits for any more are stale. *)
Definition stale s (evs : list (Z * Z)) : Prop := ∃ g e, (g, e) ∈ evs ∧ armed s g e = None.
Definition live s (evs : list (Z * Z)) : Prop := ∃ g e, (g, e) ∈ evs ∧ armed s g e ≠ None.

Lemma idle_event_spec s fd m : io_inv s → 0 <= fd < Z.of_nat (length (m_fdContexts s)) → fd ≠ pipe_fd →
  let evs := reported_events s fd m in
  (¬ live s evs → idle_event (Some fd, m) s = Ok (tt, s)) ∧
  (live s evs → (∀ op e, epoll_ctl op fd e (m_epfd s) = None) → idle_event (Some fd, m) s = Ok (tt, s)) ∧
  (live s evs → obliging (m_epfd s) fd → ¬ stale s evs →
    ∃ s', idle_event (Some fd, m) s = Ok (tt, s') ∧ io_inv s' ∧ fires s s' evs) ∧
  (live s evs → obliging (m_epfd s) fd → stale s evs →
    idle_event (Some fd, m) s = Fail AssertFailed).
Proof.
  intros Hi [Hfd Hlt] Hne evs. destruct (context_at s fd Hi ltac:(lia)) as (r & w & Hc).
  assert (Hr : armed s fd READ = r) by (rewrite (armed_at s fd r w READ); [done|done|by left|done]).
  assert (Hw : armed s fd WRITE = w) by (rewrite (armed_at s fd r w WRITE); [done|done|by right|done]).
  set (br := reported s fd m READ). set (bw := reported s fd m WRITE).
  assert (Hin : ∀ g e, (g, e) ∈ evs ↔ g = fd ∧ (br = true ∧ e = READ ∨ bw = true ∧ e = WRITE)).
  { intros g e. unfold evs, reported_events. fold br bw.
    destruct br, bw; cbn [app]; rewrite ?elem_of_cons, ?elem_of_nil; naive_solver. }
  assert (Hlive : live s evs ↔ br = true ∧ r ≠ None ∨ bw = true ∧ w ≠ None).
  { unfold live. setoid_rewrite Hin. rewrite <- Hr, <- Hw. naive_solver. }
  assert (Hstale : stale s evs ↔ br = true ∧ r = None ∨ bw = true ∧ w = None).
  { unfold stale. setoid_rewrite Hin. rewrite <- Hr, <- Hw. naive_solver. }
  assert (Hreal := real_events_spec s fd m r w Hr Hw). fold br bw in Hreal.
  set (m' := if has m (Z.lor EPOLLERR EPOLLHUP) then _ else m) in Hreal.
  assert (Hland : (Z.land (mask r w) (bits br bw) =? NONE) = negb ((br && is_some r) || (bw && is_some w)))
    by (destruct br, bw, r, w; done).
  assert (Hleft : Z.land (mask r w) (Z.lnot (bits br bw)) = mask (after_r br READ r) (after_w bw WRITE w))
    by (destruct br, bw, r, w; done).
  set (op := if mask (after_r br READ r) (after_w bw WRITE w) =? 0 then EPOLL_CTL_DEL else EPOLL_CTL_MOD).
  assert (Hrun : idle_event (Some fd, m) s =
    (if negb ((br && is_some r) || (bw && is_some w)) then mret tt
     else rt2 ← ctl op fd (Z.lor EPOLLET (mask (after_r br READ r) (after_w bw WRITE w)));
       if negb rt2 then mret tt else trigger_if br fd READ ;; trigger_if bw fd WRITE) s).
  { unfold idle_event. run (get_context_run s fd _ Hfd Hc).
    change (events (context_of (Z.to_nat fd) r w)) with (mask r w). fold m'. rewrite Hreal, Hland, Hleft.
    change (IOManager.fd (context_of (Z.to_nat fd) r w)) with (Z.of_nat (Z.to_nat fd)). rewrite Z2Nat.id by done.
    by rewrite (proj1 (has_bits br bw)), (proj2 (has_bits br bw)). }
  rewrite Hrun. split_and!.
  - intros Hno. destruct ((br && is_some r) || (bw && is_some w)) eqn:Eb; [|done]. exfalso. apply Hno, Hlive.
    apply orb_true_iff in Eb as [[-> Eb]%andb_true_iff|[-> Eb]%andb_true_iff]; [left|right]; by destruct r, w.
  - intros _ Hk. destruct (negb _); [done|]. by run (ctl_no op fd _ s (Hk _ _)).
  - intros Hl Hk Hns. assert (Eb : (br && is_some r) || (bw && is_some w) = true)
      by (apply Hlive in Hl as [[-> ?]|[-> ?]]; destruct r, w; simpl; rewrite ?orb_true_r; done).
    rewrite Eb. cbn [negb]. destruct (accepted s fd r w op (Z.lor EPOLLET (mask (after_r br READ r) (after_w bw WRITE w)))
      Hi Hfd Hne Hc Hk) as [k Ek]; [apply removal_op; intros [-> ->]%mask_zero; by destruct br, bw|].
    run ctl_yes. cbn [negb].
    assert (Hbr : br = true → is_some r = true) by (intros E; destruct r; [done|]; exfalso; apply Hns, Hstale; by left).
    assert (Hbw : bw = true → is_some w = true) by (intros E; destruct w; [done|]; exfalso; apply Hns, Hstale; by right).
    destruct (trigger_both s fd r w br bw Hi Hfd k Hc Hbr Hbw) as (s1 & s2 & E1 & E2 & _ & _ & Hf).
    run E1. rewrite E2. exists s2. split; [done|].
    apply (fired_inv s k s2 fd r w br bw op
      (λ q, (if br then sent r q else []) ++ (if bw then sent w q else [])) Hi Hfd Hne Hc); try done.
    left. split; [done|]. unfold op. by destruct (Z.eqb_spec (mask (after_r br READ r) (after_w bw WRITE w)) 0).
  - intros Hl Hk Hst. assert (Eb : (br && is_some r) || (bw && is_some w) = true)
      by (apply Hlive in Hl as [[-> ?]|[-> ?]]; destruct r, w; simpl; rewrite ?orb_true_r; done).
    rewrite Eb. cbn [negb]. destruct (accepted s fd r w op (Z.lor EPOLLET (mask (after_r br READ r) (after_w bw WRITE w)))
      Hi Hfd Hne Hc Hk) as [k Ek]; [apply removal_op; intros [-> ->]%mask_zero; by destruct br, bw|].
    run ctl_yes. cbn [negb].
    assert (Hi0 : Z.of_nat (Z.to_nat fd) = fd) by by rewrite Z2Nat.id.
    apply Hlive in Hl. apply Hstale in Hst. destruct r as [x|].
    + assert (bw = true ∧ w = None) as [Ebw ->] by naive_solver.
      destruct (trigger_both s fd (Some x) None br false Hi Hfd k Hc) as (s1 & _ & E1 & _ & Hc1 & _); [done|done|].
      run E1. rewrite Ebw, <- Hi0. eapply trigger_if_not; [exact Hc1|by right|done].
    + assert (br = true) as Ebr by naive_solver. rewrite Ebr. unfold mbind, M_bind.
      pose proof (trigger_if_not (set_epoll k s) (Z.to_nat fd) None w READ Hc ltac:(by left) eq_refl) as E.
      rewrite Hi0 in E. by rewrite E.
Qed.

(** ** One turn of the idle fiber *)

Lemma reported_ok s fd m g e : (g, e) ∈ reported_events s fd m → g = fd ∧ event_ok e.
Proof.
  unfold reported_events. rewrite elem_of_app. unfold event_ok.
  intros [Hin|Hin]; case_match; rewrite ?elem_of_cons, ?elem_of_nil in Hin; naive_solver.
Qed.

(** Events that are all stale fire nothing. *)
Lemma fires_stale s evs : ¬ live s evs → (∀ g e, (g, e) ∈ evs → event_ok e) → fires s s evs.
Proof.
  intros Hno Hok. assert (Hn : ∀ g e, (g, e) ∈ evs → armed s g e = None).
  { intros g e Hin. destruct (armed s g e) eqn:E; [|done]. exfalso. apply Hno. exists g, e. by rewrite E. }
  constructor; [done| |].
  - intros g e He. case_decide; [by apply Hn|done].
  - intros q. assert (E : (evs ≫= λ k, sent (armed s k.1 k.2) q) = []); [|by rewrite E, app_nil_r].
    clear Hok Hno. induction evs as [|[g e] evs IH]; [done|]. rewrite bind_cons. simpl.
    rewrite (Hn g e) by (by left). apply IH. intros g' e' Hin. apply Hn. by right.
Qed.

Lemma idle_event_fires s fd m : io_inv s → 0 <= fd < Z.of_nat (length (m_fdContexts s)) → fd ≠ pipe_fd →
  obliging (m_epfd s) fd → let evs := reported_events s fd m in
  ¬ (live s evs ∧ stale s evs) →
  ∃ s', idle_event (Some fd, m) s = Ok (tt, s') ∧ io_inv s' ∧ fires s s' evs.
Proof.
  intros Hi Hfd Hne Hob evs Hns. destruct (idle_event_spec s fd m Hi Hfd Hne) as (H1 & _ & H3 & _).
  fold evs in H1, H3. destruct (decide (Exists (λ k, armed s k.1 k.2 ≠ None) evs)) as [Hl|Hl].
  - assert (Hlive : live s evs) by (apply Exists_exists in Hl as ([g e] & ? & ?); by exists g, e).
    apply H3; [done|done|]. intros Hst. by apply Hns.
  - assert (Hlive : ¬ live s evs) by (intros (g & e & Hin & Ha); apply Hl, Exists_exists; by exists (g, e)).
    exists s. split_and!; [by apply H1|done|]. apply fires_stale; [done|].
    intros g e Hin. by apply reported_ok in Hin as [_ ?].
Qed.

Lemma bind_agree {A B} (f g : A → list B) (l : list A) :
  (∀ x, x ∈ l → f x = g x) → l ≫= f = l ≫= g.
Proof.
  induction l as [|x l IH]; intros E; [done|]. rewrite !bind_cons, E by by left. f_equal.
  apply IH. intros y Hy. apply E. by right.
Qed.

Lemma fires_trans s s1 s2 e1 e2 : (∀ k, k ∈ e1 → k ∉ e2) → (∀ g e, (g, e) ∈ e2 → event_ok e) →
  fires s s1 e1 → fires s1 s2 e2 → fires s s2 (e1 ++ e2).
Proof.
  intros Hd Hok [Z1 A1 Q1] [Z2 A2 Q2]. constructor; [congruence| |].
  - intros g e He. rewrite A2, A1 by done. destruct (decide ((g, e) ∈ e1)), (decide ((g, e) ∈ e2));
      (rewrite decide_True by (apply elem_of_app; auto)) || (rewrite decide_False by (rewrite elem_of_app; naive_solver)); done.
  - intros q. rewrite Q2, Q1, bind_app, app_assoc. f_equal. apply bind_agree.
    intros [g e] Hin. simpl. rewrite A1 by eauto. rewrite decide_False; [done|].
    intros Hin1. by apply (Hd (g, e)).
Qed.

(** The events of a whole report: the pipe, or a descriptor with its mask. *)
Definition report_events s (ready : list (option Z * Z)) : list (Z * Z) :=
  ready ≫= λ ev, match ev.1 with Some fd => reported_events s fd ev.2 | None => [] end.

Definition descriptors (ready : list (option Z * Z)) : list Z := omap fst ready.

(** What [epoll_wait] can report: registered descriptors, each once, and no
    event that was withdrawn in the meantime while the other one still waits. *)
Record report_ok s (ready : list (option Z * Z)) : Prop := {
  rp_range : ∀ fd, fd ∈ descriptors ready → 0 <= fd < Z.of_nat (length (m_fdContexts s)) ∧ fd ≠ pipe_fd;
  rp_once : NoDup (descriptors ready);
  rp_fresh : ∀ fd m, (Some fd, m) ∈ ready →
    ¬ (live s (reported_events s fd m) ∧ stale s (reported_events s fd m))
}.

Lemma reported_agree s s1 fd m : (∀ e, event_ok e → armed s1 fd e = armed s fd e) →
  reported_events s1 fd m = reported_events s fd m ∧
  (live s1 (reported_events s fd m) ↔ live s (reported_events s fd m)) ∧
  (stale s1 (reported_events s fd m) ↔ stale s (reported_events s fd m)).
Proof.
  intros Ha. split_and!.
  - unfold reported_events, reported. by rewrite !Ha by (by left) || (by right).
  - split; intros (g & e & Hin & Hg); exists g, e; (split; [done|]); destruct (reported_ok _ _ _ _ _ Hin) as [-> He];
      by rewrite ?Ha in * by done.
  - split; intros (g & e & Hin & Hg); exists g, e; (split; [done|]); destruct (reported_ok _ _ _ _ _ Hin) as [-> He];
      by rewrite ?Ha in * by done.
Qed.

(** The rest of a report after its first event. *)
Lemma report_rest s s1 o m ready evs : report_ok s ((o, m) :: ready) → fires s s1 evs →
  (∀ g e, (g, e) ∈ evs → Some g = o) →
  report_ok s1 ready ∧ report_events s1 ready = report_events s ready ∧
  (∀ k, k ∈ evs → k ∉ report_events s ready).
Proof.
  intros [Hr Ho Hf] [Hsz Ha _] Hev.
  assert (Hother : ∀ fd m', (Some fd, m') ∈ ready → Some fd ≠ o).
  { intros fd m' Hin <-. unfold descriptors in Ho. simpl in Ho. apply NoDup_cons in Ho as [Hno _]. apply Hno.
    apply list_elem_of_omap. by exists (Some fd, m'). }
  assert (Hag : ∀ fd m', (Some fd, m') ∈ ready → ∀ e, event_ok e → armed s1 fd e = armed s fd e).
  { intros fd m' Hin e He. rewrite Ha by done. rewrite decide_False; [done|]. intros Hk. by apply (Hother fd m' Hin), (Hev fd e). }
  split_and!.
  - constructor.
    + intros fd Hin. rewrite Hsz. apply Hr. unfold descriptors. simpl. destruct o; [by right|done].
    + unfold descriptors in Ho. simpl in Ho. destruct o; [by apply NoDup_cons in Ho as [_ ?]|done].
    + intros fd m' Hin. destruct (reported_agree s s1 fd m' (Hag fd m' Hin)) as (-> & -> & ->). apply Hf. by right.
  - apply bind_agree. intros [[fd|] m'] Hin; [|done]. by apply (reported_agree s s1 fd m'), (Hag fd m').
  - intros [g e] Hin Hin2. apply list_elem_of_bind in Hin2 as ([[fd|] m'] & Hin2 & Hin3); [|by apply not_elem_of_nil in Hin2].
    apply reported_ok in Hin2 as [-> _]. by apply (Hother fd m' Hin3), (Hev fd e).
Qed.

Lemma report_run ready s : io_inv s → report_ok s ready → (∀ k fd, obliging k fd) →
  ∃ s', for_each ready idle_event s = Ok (tt, s') ∧ io_inv s' ∧ fires s s' (report_events s ready).
Proof.
  intros Hi Hr Hob. revert s Hi Hr. induction ready as [|[o m] ready IH]; intros s Hi Hr.
  { exists s. split_and!; [done|done|by apply io_fires_none]. }
  assert (Hstep : ∃ s1, idle_event (o, m) s = Ok (tt, s1) ∧ io_inv s1 ∧
    fires s s1 match o with Some fd => reported_events s fd m | None => [] end).
  { destruct o as [fd|].
    - destruct (rp_range _ _ Hr fd) as [Hfd Hne]; [by left|].
      apply idle_event_fires; [done|done|done|apply Hob|]. apply (rp_fresh _ _ Hr). by left.
    - exists (set_pipe 0 s). split_and!; [done|by destruct Hi|by apply io_fires_none]. }
  destruct Hstep as (s1 & E1 & Hi1 & Hf1).
  destruct (report_rest s s1 o m ready _ Hr Hf1) as (Hr1 & Er & Hd).
  { intros g e Hin. destruct o as [fd|]; [|by apply not_elem_of_nil in Hin]. by apply reported_ok in Hin as [-> _]. }
  destruct (IH s1 Hi1 Hr1) as (s2 & E2 & Hi2 & Hf2). exists s2. split_and!; [|done|].
  - simpl. by run E1.
  - rewrite Er in Hf2. eapply fires_trans; [exact Hd| |exact Hf1|exact Hf2].
    intros g e Hin. apply list_elem_of_bind in Hin as ([[fd|] m'] & Hin & _); [|by apply not_elem_of_nil in Hin].
    by apply reported_ok in Hin as [_ ?].
Qed.
End props.
