(* ===== verification/IOProps.v ===== *)
(** * IOProps: what the epoll scheduler guarantees

    Registering and withdrawing events, firing them, a turn of the idle fiber
    with the timers and the report of the kernel, the time it waits, and what
    a report that comes too late does. *)

From S2P Require Import Prelude Fiber Scheduler SchedulerFacts IOManager IOFacts IOSteps.
From S2P Require Timer TimerProps.

(** ** A kernel that follows the documentation *)

(** The interest list as a map: adding what is watched, changing or deleting
    what is not are the only errors. *)
#[export] Instance table_epoll : Epoll (gmap Z Z) := {|
  epoll_ctl op fd events k :=
    match op, k !! fd with
    | EPOLL_CTL_ADD, None | EPOLL_CTL_MOD, Some _ => Some (<[fd := events]> k)
    | EPOLL_CTL_DEL, Some _ => Some (delete fd k)
    | _, _ => None
    end;
  interest k fd := k !! fd
|}.

#[export] Instance table_epoll_laws : EpollLaws (gmap Z Z).
Proof.
  split.
  - intros op fd e k k' g Hop E. simpl in *. destruct op, (k !! fd); simplify_eq;
      (case_decide; [subst; apply lookup_insert_eq|by rewrite lookup_insert_ne]).
  - intros fd e k k' g E. simpl in *. destruct (k !! fd); simplify_eq.
    case_decide; [subst; apply lookup_delete_eq|by rewrite lookup_delete_ne].
Qed.

Lemma table_obliging (k : gmap Z Z) fd : obliging k fd.
Proof.
  intros op e Hop. simpl in *. destruct op, (k !! fd) eqn:E; try (by eexists); exfalso.
  - by destruct Hop as [Hop _]; specialize (Hop eq_refl).
  - by destruct Hop as [_ Hop]; specialize (Hop eq_refl).
  - by destruct Hop as [_ Hop]; specialize (Hop eq_refl).
Qed.

Section props.
Context {K : Type} `{EpollLaws K} (pipe_fd : Z).
Implicit Types s : IOManager K.

(** ** The wait of the idle fiber *)

Lemma foldr_zero (l : list FdContext) : (∀ c, c ∈ l → 0 <= armed_count c) →
  0 <= foldr (λ c n, armed_count c + n) 0 l ∧
  (foldr (λ c n, armed_count c + n) 0 l = 0 ↔ ∀ c, c ∈ l → armed_count c = 0).
Proof.
  induction l as [|c l IH]; intros Hl; simpl; [split; [done|]; split; [|done]; by intros _ c ?%not_elem_of_nil|].
  destruct IH as [Hp Hz]; [intros d Hd; apply Hl; by right|]. pose proof (Hl c ltac:(by left)). split; [lia|]. split.
  - intros E d [->|Hd]%elem_of_cons; [lia|]. apply Hz; [lia|done].
  - intros E. assert (armed_count c = 0) by (apply E; by left).
    assert (foldr (λ c n, armed_count c + n) 0 l = 0) by (apply Hz; intros d Hd; apply E; by right). lia.
Qed.

(** The counter is 0 exactly when nothing waits. *)
Lemma pending_zero s : io_inv pipe_fd s →
  m_pendingEventCount s = 0 ↔ ∀ fd ev, event_ok ev → armed s fd ev = None.
Proof.
  intros Hi. rewrite (io_pending _ _ Hi).
  rewrite (proj2 (foldr_zero (m_fdContexts s) ltac:(intros c _; unfold armed_count, count; do 2 case_match; lia))). split.
  - intros Hz fd ev Hev. unfold armed. destruct (0 <=? fd); [|done].
    destruct (m_fdContexts s !! Z.to_nat fd) as [c|] eqn:E; [|done]. simpl.
    assert (Hc : c ∈ m_fdContexts s) by by eapply list_elem_of_lookup_2.
    specialize (Hz c Hc). unfold armed_count, count in Hz. unfold slot.
    destruct Hev as [-> | ->]; simpl; destruct (waiting (read c)), (waiting (write c)); simpl in Hz; try done; lia.
  - intros Hn c (i & Hc)%list_elem_of_lookup. unfold armed_count.
    assert (Hs : ∀ ev, event_ok ev → waiting (slot c ev) = None).
    { intros ev Hev. specialize (Hn (Z.of_nat i) ev Hev). unfold armed in Hn.
      destruct (Z.leb_spec 0 (Z.of_nat i)); [|lia]. by rewrite Nat2Z.id, Hc in Hn. }
    pose proof (Hs READ ltac:(by left)) as Er. pose proof (Hs WRITE ltac:(by right)) as Ew.
    unfold slot in Er, Ew. simpl in Er, Ew. by rewrite Er, Ew.
Qed.

(** Nothing is left to do: no timer, no waiter, and the scheduler may stop. *)
Definition finished s (w : World) : Prop :=
  Timer.m_timers (io_timers s) = [] ∧ (∀ fd ev, event_ok ev → armed s fd ev = None) ∧ stopping w = Ok (true, w).

(** The times are [uint64_t], and the clock is past its origin. *)
Definition clock_ok s (now : Z) : Prop :=
  0 < now ∧ ∀ a t, Timer.timer_heap (io_timers s) !! a = Some t → Timer.m_next t < 2 ^ 64.

Lemma io_stopping_run s self w now : io_inv pipe_fd s → TimerProps.timer_inv (io_timers s) → clock_ok s now →
  schedulers s !! self = Some w →
  ∃ v b t', IO_stopping self now s = Ok (v, b, set_io_timers t' s) ∧
    Timer.m_timers t' = Timer.m_timers (io_timers s) ∧ Timer.timer_heap t' = Timer.timer_heap (io_timers s) ∧
    TimerProps.timer_inv t' ∧ (b = true ↔ finished s w).
Proof.
  intros Hi Ht [Hnow Hmax] Hw. destruct (TimerProps.next_timer_spec _ now Ht) as (v & t' & E & Ht' & Em & Eh & Hnil & Hcons).
  assert (Hv : v = 2 ^ 64 - 1 ↔ Timer.m_timers (io_timers s) = []).
  { split; [|done]. intros ->. destruct (Timer.m_timers (io_timers s)) as [|a l] eqn:El; [done|].
    destruct Hcons as [(b & t & _ & Hb & Hm) _]; [done|]. specialize (Hmax b t Hb). lia. }
  assert (Hst : ∃ b, stopping w = Ok (b, w)) by by eexists. destruct Hst as [b Hb].
  set (s1 := set_io_timers t' s).
  assert (Hon : on_scheduler self stopping s1 = Ok (b, s1)).
  { rewrite (on_scheduler_run self stopping b w w s1 Hw Hb). do 2 f_equal. unfold set_schedulers, s1. simpl.
    rewrite insert_id by done. by destruct s. }
  unfold IO_stopping.
  assert (Et : on_timers (Timer.getNextTimer now) s = Ok (v, s1)) by (unfold on_timers; by rewrite E).
  run Et. run gets_run. unfold id. pose proof (pending_zero s Hi) as Hp.
  change (m_pendingEventCount s1) with (m_pendingEventCount s). unfold finished. rewrite Hb.
  destruct (Z.eqb_spec v (2 ^ 64 - 1)) as [Ev|Ev]; cbn [andb];
    [|run ret_run; eexists _, _, t'; (split; [reflexivity|]); split_and!; try done; by split; [|intros [?%Hv _]]].
  destruct (Z.eqb_spec (m_pendingEventCount s) 0) as [Ec|Ec]; [run Hon|run ret_run]; eexists _, _, t';
    (split; [reflexivity|]); split_and!; try done.
  - apply Hv in Ev. pose proof (proj1 Hp Ec). split; [by intros ->|by intros (_ & _ & [= ->])].
  - split; [done|]. intros (_ & Hn & _). by destruct Ec; apply Hp.
Qed.

(** ** The turn of the idle fiber *)

(** The tasks made of the functions of the timers [D]. *)
Definition timer_tasks (fn : Timer.callback → Z) (h : gmap positive Timer.Timer) (D : list positive) :=
  omap (λ a, t ← h !! a; cb ← Timer.m_cb t; Some (new_task (ACb (fn cb)) (-1))) D.

Lemma io_inv_frame s s' : io_inv pipe_fd s → m_fdContexts s' = m_fdContexts s →
  m_pendingEventCount s' = m_pendingEventCount s → m_epfd s' = m_epfd s →
  (∀ p, is_Some (schedulers s !! p) → is_Some (schedulers s' !! p)) → io_inv pipe_fd s'.
Proof.
  intros [Hsz Hc Hp Hi] Ec Ep Ee Hs. constructor.
  - by rewrite Ec.
  - intros i c. rewrite Ec. intros Hic. destruct (Hc i c Hic) as [E Hw]. split; [done|]. eauto.
  - by rewrite Ec, Ep.
  - intros g. rewrite Ee, Ec. apply Hi.
Qed.

Lemma callbacks_run s self w fn cbs : schedulers s !! self = Some w →
  ∃ w', schedule_callbacks self fn cbs s = Ok (tt, set_schedulers (<[self := w']> (schedulers s)) s) ∧
    m_fibers (sched w') = m_fibers (sched w) ++ map (λ c, new_task (ACb (fn c)) (-1)) (omap id cbs).
Proof.
  intros Hw. assert (E : ∀ l, omap (fmap (λ c, ACb (fn c))) l = map (λ c, ACb (fn c)) (omap id l)).
  { induction l as [|[c|] l IH]; [done|simpl; f_equal; exact IH|exact IH]. }
  destruct cbs as [|c cbs].
  - exists w. rewrite insert_id, app_nil_r by done. split; [by destruct s|done].
  - destruct (schedule_all_run (omap (fmap (λ c, ACb (fn c))) (c :: cbs)) w) as (s' & Er & Es').
    exists (set_sched s' w). split; [by eapply on_scheduler_run; [exact Hw|exact Er]|]. simpl. rewrite Es', E. by rewrite map_map.
Qed.

Lemma timer_tasks_map fn h D :
  map (λ c, new_task (ACb (fn c)) (-1)) (omap id (map (λ a, t ← h !! a; Timer.m_cb t) D)) = timer_tasks fn h D.
Proof.
  induction D as [|a D IH]; [done|]. unfold timer_tasks in *. simpl.
  destruct (h !! a) as [t|]; simpl; [|exact IH]. destruct (Timer.m_cb t); simpl; [by f_equal|exact IH].
Qed.

(** The functions of the expired timers go to the queue. *)
Lemma expire_run s self w fn now addr : io_inv pipe_fd s → TimerProps.timer_inv (io_timers s) →
  schedulers s !! self = Some w →
  ∃ k t' cbs s', let D := take k (Timer.m_timers (io_timers s)) in
    on_timers (Timer.listExpiredCb now addr) s = Ok (cbs, set_io_timers t' s) ∧
    schedule_callbacks self fn cbs (set_io_timers t' s) = Ok (tt, s') ∧ io_inv pipe_fd s' ∧
    io_timers s' = t' ∧ m_fdContexts s' = m_fdContexts s ∧ TimerProps.timer_inv t' ∧
    (∀ a, a ∈ D ↔ a ∈ Timer.m_timers (io_timers s) ∧ TimerProps.due (Timer.timer_heap (io_timers s)) now a) ∧
    TimerProps.fires (io_timers s) t' now D ∧
    ∀ q, queue s' q = queue s q ++
      (if decide (q = self) then timer_tasks fn (Timer.timer_heap (io_timers s)) D else []).
Proof.
  intros Hi Ht Hw. destruct (TimerProps.expired_spec _ now addr Ht) as (k & t' & E & HD & Ht' & Hf).
  set (s1 := set_io_timers t' s).
  destruct (callbacks_run s1 self w fn (map (λ a, t ← Timer.timer_heap (io_timers s) !! a; Timer.m_cb t)
    (take k (Timer.m_timers (io_timers s)))) Hw) as (w' & Es & Eq).
  eexists k, t', _, _. split_and!; [unfold on_timers; by rewrite E|exact Es| |done|done|done|exact HD|exact Hf|].
  - eapply io_inv_frame; [exact Hi|done..|]. intros p Hp. simpl. apply lookup_insert_is_Some'. by right.
  - intros q. unfold queue. simpl. destruct (decide (q = self)) as [->|Hne].
    + by rewrite lookup_insert_eq, Hw, Eq, timer_tasks_map.
    + by rewrite lookup_insert_ne, app_nil_r.
Qed.

(** The handling of an event leaves the timers alone. *)
Definition keeps_timers {A} (m : M (IOManager K) A) : Prop :=
  ∀ s a s', m s = Ok (a, s') → io_timers s' = io_timers s.

Lemma keeps_bind {A B} (m : M (IOManager K) A) (f : A → M (IOManager K) B) :
  keeps_timers m → (∀ a, keeps_timers (f a)) → keeps_timers (mbind f m).
Proof. intros Hm Hf s b s' (a & s1 & E1 & E2)%bind_Ok. rewrite (Hf _ _ _ _ E2). by eapply Hm. Qed.

Lemma keeps_ret {A} (a : A) : keeps_timers (mret a).
Proof. by intros s b s' [= <- <-]. Qed.

Lemma keeps_modify f : (∀ s, io_timers (f s) = io_timers s) → keeps_timers (modify f).
Proof. by intros Hf s b s' [= <- <-]. Qed.

Lemma keeps_fail {A} e : keeps_timers (fail e : M (IOManager K) A).
Proof. by intros s b s' E. Qed.

Lemma keeps_gets {A} (f : IOManager K → A) : keeps_timers (gets f).
Proof. by intros s b s' [= <- <-]. Qed.

Lemma keeps_scheduler {A} p (m : MW A) : keeps_timers (on_scheduler p m).
Proof. intros s b s'. unfold on_scheduler. repeat case_match; intros E; by simplify_eq. Qed.

Ltac keeps := repeat first
  [ apply keeps_ret | apply keeps_fail | apply keeps_gets | apply keeps_scheduler
  | apply keeps_modify; done | apply keeps_bind; [|intros ?]
  | unfold vec_at, vec_set, assert_that; case_match | case_match ].

Lemma keeps_trigger i ev : keeps_timers (triggerEvent i ev).
Proof. unfold triggerEvent, get_context, put_context, getContext. keeps. Qed.

Lemma keeps_idle_event ev : keeps_timers (idle_event ev).
Proof.
  assert (Ht : ∀ b fd e, keeps_timers (trigger_if b fd e)).
  { intros [] fd e; [|apply keeps_ret]. apply keeps_bind; [apply keeps_trigger|intros _]. by apply keeps_modify. }
  destruct ev as [[fd|] m]; unfold idle_event, get_context, ctl; keeps; apply Ht.
Qed.

Lemma keeps_report ready : keeps_timers (for_each ready idle_event).
Proof.
  induction ready as [|ev ready IH]; [apply keeps_ret|].
  apply keeps_bind; [apply keeps_idle_event|by intros _].
Qed.

(** ** The claims *)

(** Registering and withdrawing an event.  [addEvent] returns 0 only
    when nothing waited for the event, and then the callback, or the calling
    fiber, waits for it on the caller's scheduler; otherwise it returns -1 and
    no waiter changed.  [delEvent] returns true only when something waited,
    and then it waits no more and is not scheduled.  Neither touches another
    event.  Every call of [epoll_ctl] they make is legal: the kernel is told
    to add exactly what it does not watch, so both succeed when it refuses
    only illegal calls.  The invariant is kept: the masks, the waiters, the
    counter and the kernel's interest list agree. *)
Theorem events_add_and_delete s (caller : Caller) (p : positive) (fd ev : Z) (cb : option Z)
  (Hi : io_inv pipe_fd s) (Hfd : 0 <= fd) (Hne : fd ≠ pipe_fd) (Hev : event_ok ev)
  (Hp : this_scheduler caller = Some p) (Hs : is_Some (schedulers s !! p)) (Hx : this_state caller = EXEC) :
  (∃ n s', addEvent caller fd ev cb s = Ok (n, s') ∧ io_inv pipe_fd s' ∧ schedulers s' = schedulers s ∧
    (n = 0 ∨ n = -1) ∧ (n = 0 → armed s fd ev = None) ∧
    (∀ g e, event_ok e → armed s' g e
      = if decide (n = 0 ∧ (g, e) = (fd, ev)) then Some (new_waiter caller p cb) else armed s g e) ∧
    (armed s fd ev = None → obliging (m_epfd s) fd → n = 0)) ∧
  (∃ b s', delEvent fd ev s = Ok (b, s') ∧ io_inv pipe_fd s' ∧ schedulers s' = schedulers s ∧
    (b = true → armed s fd ev ≠ None) ∧
    (∀ g e, event_ok e → armed s' g e = if decide (b = true ∧ (g, e) = (fd, ev)) then None else armed s g e) ∧
    (armed s fd ev ≠ None → obliging (m_epfd s) fd → b = true)).
Proof. split; [by apply add_spec|by apply del_spec]. Qed.

(** Cancelling fires.  [cancelEvent] hands what waits for the event to
    the queue of its scheduler, once, and [cancelAll] does so for both events
    of the descriptor, reading first; afterwards nothing waits for them, and
    no other waiter and no other queue changed.  They return false, and change
    nothing, when nothing waits or the kernel refuses. *)
Theorem events_cancel_fires s (fd ev : Z)
  (Hi : io_inv pipe_fd s) (Hfd : 0 <= fd) (Hne : fd ≠ pipe_fd) (Hev : event_ok ev) :
  (∃ b s', cancelEvent fd ev s = Ok (b, s') ∧ io_inv pipe_fd s' ∧ (b = true → armed s fd ev ≠ None) ∧
    fires s s' (if b : bool then [(fd, ev)] else []) ∧
    (armed s fd ev ≠ None → obliging (m_epfd s) fd → b = true)) ∧
  (∃ b s', cancelAll fd s = Ok (b, s') ∧ io_inv pipe_fd s' ∧ (b = true → armed_events s fd ≠ []) ∧
    fires s s' (if b : bool then armed_events s fd else []) ∧
    (armed_events s fd ≠ [] → obliging (m_epfd s) fd → b = true)).
Proof. split; [by apply io_cancel_spec|by apply io_cancel_all_spec]. Qed.

Lemma for_each_app {S A} (l1 l2 : list A) (f : A → M S unit) (s s1 : S) :
  for_each l1 f s = Ok (tt, s1) → for_each (l1 ++ l2) f s = for_each l2 f s1.
Proof.
  revert s. induction l1 as [|x l1 IH]; intros s; cbn [for_each app]; [by intros [= ->]|].
  unfold mbind, M_bind. destruct (f x s) as [[[] s2]|]; [|done]. apply IH.
Qed.

(** A turn that goes on, up to a point in the report. *)
Lemma idle_turn_run s (self : positive) (w : World) (fn : Timer.callback → Z) (now now' : Z) (now_addr : positive) (ready : list (option Z * Z)) :
  io_inv pipe_fd s → TimerProps.timer_inv (io_timers s) → clock_ok s now → schedulers s !! self = Some w → report_ok pipe_fd s ready →
  (∀ (k : K) fd, obliging k fd) → ¬ finished s w →
  ∃ k s', let D := take k (Timer.m_timers (io_timers s)) in
    (∀ rest, IO_idle_turn self fn now now' now_addr (ready ++ rest) s = (for_each rest idle_event ;; mret false) s') ∧
    io_inv pipe_fd s' ∧ TimerProps.timer_inv (io_timers s') ∧ length (m_fdContexts s') = length (m_fdContexts s) ∧
    (∀ a, a ∈ D ↔ a ∈ Timer.m_timers (io_timers s) ∧ TimerProps.due (Timer.timer_heap (io_timers s)) now' a) ∧
    (∀ q, queue s' q = queue s q ++
      (if decide (q = self) then timer_tasks fn (Timer.timer_heap (io_timers s)) D else []) ++
      (report_events s ready ≫= λ k, sent (armed s k.1 k.2) q)) ∧
    ∀ g e, event_ok e → armed s' g e = if decide ((g, e) ∈ report_events s ready) then None else armed s g e.
Proof.
  intros Hi Ht Hnow Hw Hr Hk Hno. destruct (io_stopping_run s self w now Hi Ht Hnow Hw) as (v & b & t1 & E1 & Em & Eh & Ht1 & Hb).
  destruct b; [by destruct Hno; apply Hb|]. set (s1 := set_io_timers t1 s).
  assert (Hi1 : io_inv pipe_fd s1) by by eapply io_inv_frame.
  destruct (expire_run s1 self w fn now' now_addr Hi1 Ht1 Hw)
    as (k & t2 & cbs & s2 & E2 & E3 & Hi2 & Et2 & Ec2 & Ht2 & HD & _ & Hq2).
  simpl in HD, Hq2. rewrite Em, Eh in *.
  assert (Ha2 : ∀ g e, armed s2 g e = armed s g e) by (intros g e; unfold armed; by rewrite Ec2).
  assert (Hre : ∀ fd m, reported_events s2 fd m = reported_events s fd m)
    by (intros fd m; apply reported_agree; intros; apply Ha2).
  assert (Hr2 : report_ok pipe_fd s2 ready).
  { destruct Hr as [Hr1 Hr2 Hr3]. constructor; [by rewrite Ec2|done|]. intros fd m Hin.
    rewrite Hre. unfold live, stale. setoid_rewrite Ha2. by apply Hr3. }
  destruct (report_run pipe_fd ready s2 Hi2 Hr2 Hk) as (s3 & E4 & Hi3 & [Hz Ha3 Hq3]).
  assert (Hev : report_events s2 ready = report_events s ready)
    by (apply bind_agree; intros [[fd|] m] _; [apply Hre|done]).
  exists k, s3. split_and!; [|done| | |done| |].
  - intros rest. unfold IO_idle_turn. rewrite (bind_run _ _ _ _ _ E1). cbn [snd]. run E2. run E3.
    unfold mbind at 1, M_bind at 1. rewrite (for_each_app _ rest _ _ _ E4). done.
  - by rewrite (keeps_report _ _ _ _ E4), Et2.
  - by rewrite Hz, Ec2.
  - intros q. rewrite Hq3, Hq2, <- app_assoc, Hev. do 2 f_equal. apply bind_agree. intros [g e] _. by rewrite Ha2.
  - intros g e He. by rewrite Ha3, Hev, Ha2.
Qed.

(** (C13) A turn of the idle fiber, taken as one step, over a kernel that accepts the changes of its interest list, with a clock past its origin and times of 64 bits. It leaves its loop exactly
    when no timer is armed, nothing waits for an event and the scheduler may stop; then nothing changes. Otherwise, if every descriptor is reported once and none
    of its reported events was withdrawn while the other still waits, it queues on its own scheduler the
    functions of exactly the timers that are due, in their order, and then hands every waiter of a reported event - of any event, for an error or a hang-up - to the queue
    of that waiter's scheduler, in the order of the report; nothing else is queued, exactly these waiters are gone, and both invariants hold.
    But when a further descriptor is reported with both events, of which another thread has withdrawn one since [epoll_wait] while the other still waits, the turn ends in a failed
    assertion. *)
Theorem idle_turn_spec s (self : positive) (w : World) (fn : Timer.callback → Z) (now now' : Z)
  (now_addr : positive) (ready : list (option Z * Z))
  (Hi : io_inv pipe_fd s) (Ht : TimerProps.timer_inv (io_timers s)) (Hnow : clock_ok s now)
  (Hw : schedulers s !! self = Some w) (Hr : report_ok pipe_fd s ready)
  (Hk : ∀ (k : K) fd, obliging k fd) :
  (finished s w → ∃ s', IO_idle_turn self fn now now' now_addr ready s = Ok (true, s') ∧
    m_fdContexts s' = m_fdContexts s ∧ schedulers s' = schedulers s ∧
    Timer.m_timers (io_timers s') = Timer.m_timers (io_timers s)) ∧
  (¬ finished s w → ∃ k s', let D := take k (Timer.m_timers (io_timers s)) in
    IO_idle_turn self fn now now' now_addr ready s = Ok (false, s') ∧
    io_inv pipe_fd s' ∧ TimerProps.timer_inv (io_timers s') ∧
    (∀ a, a ∈ D ↔ a ∈ Timer.m_timers (io_timers s) ∧ TimerProps.due (Timer.timer_heap (io_timers s)) now' a) ∧
    (∀ q, queue s' q = queue s q ++
      (if decide (q = self) then timer_tasks fn (Timer.timer_heap (io_timers s)) D else []) ++
      (report_events s ready ≫= λ k, sent (armed s k.1 k.2) q)) ∧
    ∀ g e, event_ok e → armed s' g e = if decide ((g, e) ∈ report_events s ready) then None else armed s g e) ∧
  (¬ finished s w → ∀ fd m rest, 0 <= fd < Z.of_nat (length (m_fdContexts s)) → fd ≠ pipe_fd → (fd ∉ descriptors ready) →
    live s (reported_events s fd m) → stale s (reported_events s fd m) →
    IO_idle_turn self fn now now' now_addr (ready ++ (Some fd, m) :: rest) s = Fail AssertFailed).
Proof.
  split; [|split].
  - intros Hfin. destruct (io_stopping_run s self w now Hi Ht Hnow Hw) as (v & b & t1 & E1 & Em & Eh & Ht1 & Hb).
    unfold IO_idle_turn. rewrite (bind_run _ _ _ _ _ E1). cbn [snd]. apply Hb in Hfin as ->. eexists. split; [reflexivity|]. by split_and!.
  - intros Hno. destruct (idle_turn_run s self w fn now now' now_addr ready Hi Ht Hnow Hw Hr Hk Hno) as (k & s' & E & H1 & H2 & _ & H3 & H4 & H5).
    exists k, s'. split_and!; try done. specialize (E []). by rewrite app_nil_r in E.
  - intros Hno fd m rest Hfd Hne Hnin Hl Hst.
    destruct (idle_turn_run s self w fn now now' now_addr ready Hi Ht Hnow Hw Hr Hk Hno) as (k & s' & E & H1 & _ & Hz & _ & _ & Ha).
    assert (Hag : ∀ e, event_ok e → armed s' fd e = armed s fd e).
    { intros e He. rewrite Ha by done. rewrite decide_False; [done|]. intros Hin. apply Hnin. apply list_elem_of_bind in Hin as ([[g|] m'] & Hin & Hin2);
        [|by apply not_elem_of_nil in Hin]. apply reported_ok in Hin as [-> _]. apply list_elem_of_omap. by exists (Some g, m'). }
    destruct (reported_agree s s' fd m Hag) as (Er & El & Es). rewrite E. cbn [for_each].
    destruct (idle_event_spec pipe_fd s' fd m H1 ltac:(by rewrite Hz) Hne) as (_ & _ & _ & H4). rewrite Er in H4.
    unfold mbind, M_bind. rewrite H4; [done|by apply El|apply Hk|by apply Es].
Qed.

(** A report that comes too late.  Between [epoll_wait] and the lock
    of the context another thread may withdraw one of two reported events with
    [delEvent] or [cancelEvent].  When nothing waits any more, or the kernel
    refuses the change, the report is ignored; but when the other event still
    waits, the code triggers both, and the assertion in [triggerEvent] stops
    the process. *)
Theorem late_report_aborts s (fd m : Z)
  (Hi : io_inv pipe_fd s) (Hfd : 0 <= fd < Z.of_nat (length (m_fdContexts s))) (Hne : fd ≠ pipe_fd) :
  let evs := reported_events s fd m in
  (¬ live s evs → idle_event (Some fd, m) s = Ok (tt, s)) ∧
  (live s evs → (∀ op e, epoll_ctl op fd e (m_epfd s) = None) → idle_event (Some fd, m) s = Ok (tt, s)) ∧
  (live s evs → stale s evs → obliging (m_epfd s) fd → idle_event (Some fd, m) s = Fail AssertFailed).
Proof. destruct (idle_event_spec pipe_fd s fd m Hi Hfd Hne) as (H1 & H2 & _ & H4). by split_and!; auto. Qed.
End props.

(** How long the idle fiber waits for the kernel, in milliseconds, when
    the next timer is due in [t] of them (the greatest [uint64_t] stands for
    no timer): a second at most, and never past a timer that is due within
    2^31 ms.  The conversion to [int] breaks the rest: for a timer due between
    2^31 and 2^32 ms the timeout is negative, and [epoll_wait] waits without
    any limit. *)
Theorem wait_timeout_spec (t : Z) (Ht : 0 <= t < 2 ^ 64) :
  (t = 2 ^ 64 - 1 → wait_timeout t = 1000) ∧
  (t < 2 ^ 31 → wait_timeout t = Z.min t 1000) ∧
  (2 ^ 31 <= t < 2 ^ 32 → wait_timeout t = t - 2 ^ 32) ∧
  (t ≠ 2 ^ 64 - 1 → 2 ^ 32 <= t → wait_timeout t = wait_timeout (t mod 2 ^ 32)) ∧
  wait_timeout t <= 1000.
Proof.
  assert (Hle : ∀ u, wait_timeout u <= 1000).
  { intros u. unfold wait_timeout. destruct (Z.eqb_spec u (2 ^ 64 - 1)); [done|]. cbn [negb].
    by destruct (Z.ltb_spec 1000 (to_int u)). }
  assert (Hint : ∀ u, u ≠ 2 ^ 64 - 1 → wait_timeout u = Z.min (to_int u) 1000).
  { intros u Hu. unfold wait_timeout. destruct (Z.eqb_spec u (2 ^ 64 - 1)); [done|]. cbn [negb].
    destruct (Z.ltb_spec 1000 (to_int u)); [change (to_int 1000) with 1000|]; lia. }
  assert (Hsmall : ∀ u, 0 <= u < 2 ^ 32 → to_int u = if u <? 2 ^ 31 then u else u - 2 ^ 32)
    by (intros u Hu; unfold to_int; by rewrite Z.mod_small).
  assert (Hm : 0 <= t mod 2 ^ 32 < 2 ^ 32) by by apply Z.mod_pos_bound.
  split_and!; [by intros ->|intros Hlt|intros Hlt|intros Hn Hge|apply Hle].
  - rewrite Hint, Hsmall by lia. by destruct (Z.ltb_spec t (2 ^ 31)); [|lia].
  - rewrite Hint, Hsmall by lia. destruct (Z.ltb_spec t (2 ^ 31)); lia.
  - rewrite !Hint by lia. f_equal. unfold to_int. by rewrite Z.mod_mod.
Qed.

(** ** Witnesses *)

(** A manager with two threads and no event yet; the pipe is descriptor 3. *)
Definition sample_io : IOManager (gmap Z Z) :=
  new_IOManager {[3 := Z.lor EPOLLIN EPOLLET]} TimerProps.sample_timers {[1%positive := mkWorld
    (mkScheduler [] 0 0 false false 2 (-1) None [1; 2] 0) ∅ []]}.

Definition sample_caller : Caller := mkCaller (Some 1%positive) 9 EXEC.

(** The same, after the fiber 9 waits to read and a callback to write on
    descriptor 40, for which the contexts had to grow. *)
Definition after {A} (m : M (IOManager (gmap Z Z)) A) (s : IOManager (gmap Z Z)) : IOManager (gmap Z Z) :=
  match m s with Ok (_, s') => s' | Fail _ => s end.

Definition sample_waiting : IOManager (gmap Z Z) :=
  after (addEvent sample_caller 40 WRITE (Some 77)) (after (addEvent sample_caller 40 READ None) sample_io).

Lemma sample_io_inv : io_inv 3 sample_io.
Proof.
  assert (Hc : m_fdContexts sample_io = map (λ i, context_of i None None) (seq 0 32)) by reflexivity.
  assert (Hl : ∀ i c, m_fdContexts sample_io !! i = Some c → c = context_of i None None).
  { intros i c. rewrite Hc. intros E. apply list_lookup_fmap_Some in E as (j & -> & [-> _]%lookup_seq). done. }
  constructor.
  - by rewrite Hc, length_map, length_seq.
  - intros i c ->%Hl. split; [done|]. by intros p fc [|].
  - reflexivity.
  - intros g Hg Hne. simpl. unfold sample_io, interest, table_epoll. cbn -[seq].
    rewrite lookup_singleton_ne by done. destruct (_ !! Z.to_nat g) as [c|] eqn:Ec; [|done]. by rewrite (Hl _ _ Ec).
Qed.

Lemma sample_added s fd ev cb : io_inv 3 s → schedulers s = schedulers sample_io → 0 <= fd → fd ≠ 3 → event_ok ev →
  let s' := after (addEvent sample_caller fd ev cb) s in io_inv 3 s' ∧ schedulers s' = schedulers sample_io.
Proof.
  intros Hi Hs Hfd Hne Hev. destruct (add_spec 3 s sample_caller 1 fd ev cb) as (n & s' & E & Hi' & Hs' & _);
    try done; [by rewrite Hs; eexists|]. unfold after. rewrite E. by rewrite Hs', Hs.
Qed.

Lemma sample_waiting_inv : io_inv 3 sample_waiting ∧ schedulers sample_waiting = schedulers sample_io.
Proof.
  destruct (sample_added sample_io 40 READ None) as [Hi Hs]; [apply sample_io_inv|done|done|done|by left|].
  by apply sample_added; try done; right.
Qed.

Lemma events_add_and_delete_witness :
  ∃ s', addEvent sample_caller 5 READ None sample_io = Ok (0, s') ∧
    armed s' 5 READ = Some (1%positive, AFiber 9).
Proof.
  destruct (events_add_and_delete 3 sample_io sample_caller 1 5 READ None sample_io_inv)
    as [(n & s' & E & _ & _ & _ & _ & Ha & Hn) _]; [done|done|by left|done|by eexists|done|].
  assert (n = 0) as -> by (apply Hn; [reflexivity|apply table_obliging]).
  exists s'. split; [exact E|]. rewrite Ha by by left. reflexivity.
Defined.

Lemma events_cancel_fires_witness :
  ∃ s', cancelAll 40 sample_waiting = Ok (true, s') ∧
    queue s' 1 = [mkTask (Some 9%positive) None (-1); mkTask None (Some 77) (-1)].
Proof.
  destruct (events_cancel_fires 3 sample_waiting 40 READ (proj1 sample_waiting_inv))
    as [_ (b & s' & E & _ & _ & [_ _ Hq] & Hb)]; [done|done|by left|].
  assert (b = true) as -> by (apply Hb; [by vm_compute|apply table_obliging]).
  exists s'. split; [exact E|]. rewrite Hq. by vm_compute.
Defined.

Lemma late_report_aborts_witness :
  let s := after (delEvent 40 WRITE) sample_waiting in
  idle_event (Some 40, Z.lor EPOLLIN EPOLLOUT) s = Fail AssertFailed.
Proof.
  intros s. assert (Hi : io_inv 3 s).
  { destruct (del_spec 3 sample_waiting 40 WRITE (proj1 sample_waiting_inv)) as (b & s' & E & Hi & _);
      [done|done|by right|]. unfold s, after. by rewrite E. }
  destruct (late_report_aborts 3 s 40 (Z.lor EPOLLIN EPOLLOUT) Hi) as (_ & _ & H); [by vm_compute|done|].
  apply H; [|by exists 40, WRITE; vm_compute; split; [right; left|]|apply table_obliging].
  exists 40, READ. by vm_compute; split; [left|].
Defined.

Lemma wait_timeout_spec_witness : wait_timeout (25 * 24 * 3600 * 1000) < 0.
Proof. by destruct (wait_timeout_spec (25 * 24 * 3600 * 1000)) as (_ & _ & -> & _). Defined.

Lemma idle_turn_spec_witness :
  ∃ s', IO_idle_turn 1 (λ _, 5) 60 120 9 [(Some 40, EPOLLHUP); (None, EPOLLIN)] sample_waiting = Ok (false, s') ∧
    queue s' 1 = [mkTask None (Some 5) (-1); mkTask None (Some 5) (-1); mkTask (Some 9%positive) None (-1);
                  mkTask None (Some 77) (-1)].
Proof.
  destruct sample_waiting_inv as [Hi Hs].
  destruct (idle_turn_spec 3 sample_waiting 1 (mkWorld (mkScheduler [] 0 0 false false 2 (-1) None [1; 2] 0) ∅ [])
    (λ _, 5) 60 120 9 [(Some 40, EPOLLHUP); (None, EPOLLIN)] Hi TimerProps.sample_timers_inv) as (_ & H & _).
  - split; [done|]. change (io_timers sample_waiting) with TimerProps.sample_timers. intros a t.
    unfold TimerProps.sample_timers. simpl. rewrite !lookup_insert_Some, lookup_singleton_Some.
    by intros [[<- <-]|[_ [[<- <-]|[_ [<- <-]]]]].
  - by rewrite Hs.
  - constructor.
    + intros fd [->|?%not_elem_of_nil]%elem_of_cons; [by vm_compute|done].
    + apply NoDup_singleton.
    + intros fd m [[= -> ->]|[?%(f_equal fst)|?%not_elem_of_nil]%elem_of_cons]%elem_of_cons; [|done|done].
      intros [_ (g & e & Hin & Ha)]. assert (Hev : reported_events sample_waiting 40 EPOLLHUP = [(40, READ); (40, WRITE)]) by reflexivity.
      rewrite Hev, !elem_of_cons in Hin. destruct Hin as [[= -> ->]|[[= -> ->]|?%not_elem_of_nil]]; by vm_compute in Ha.
  - apply table_obliging.
  - destruct H as (k & s' & E & _ & _ & HD & Hq & _); [by intros [? _]|]. exists s'. split; [exact E|].
    assert (Hd : ∀ a t, Timer.timer_heap TimerProps.sample_timers !! a = Some t → Timer.m_next t <= 120 →
      a ∈ take k [2; 3; 1]%positive) by (intros a t Ht Hd; apply HD; split; [|by exists t];
        apply (TimerProps.ti_armed _ TimerProps.sample_timers_inv a t Ht); by destruct a as [[]|[]|]; vm_compute in Ht; simplify_eq).
    assert (Hn : 1%positive ∉ take k [2; 3; 1]%positive) by (intros [_ (t & [= <-] & Ht)]%HD; by vm_compute in Ht).
    rewrite Hq. change (Timer.m_timers (io_timers sample_waiting)) with [2; 3; 1]%positive.
    destruct k as [|[|[|k]]]; [..|by destruct Hn; simpl; rewrite !elem_of_cons; auto].
    + by specialize (Hd 2%positive _ eq_refl ltac:(done)); apply not_elem_of_nil in Hd.
    + by specialize (Hd 3%positive _ eq_refl ltac:(done)); apply list_elem_of_singleton in Hd.
    + by vm_compute.
Defined.
